(* ===== verification/_CoqProject ===== *)
-Q . S2P
Prelude.v
PyStr.v
Dict.v
Base64.v
Json.v
JsonText.v
JsonLoads.v
Errors.v
IsoTime.v
Xml.v
SamlSignature.v
Redis.v
Codec.v
OneShot.v
Grants.v
Sessions.v
Pending.v
SamlGate.v
RateLimit.v
Throttle.v
Authz.v
Assurance.v
Cbor.v
Totp.v
Recovery.v
WebAuthn.v
Factors.v
Push.v
Roles.v
Lifecycle.v
DecisionCache.v
Retry.v
DeadLetters.v
Orchestrator.v
Reconciliation.v
LdapText.v
GroupWalk.v
Directory.v
DirectoryLaws.v
ScimFilter.v
ScimPatch.v
Bulk.v
Jwt.v
Url.v
Attributes.v
Release.v
Tokens.v
Clients.v
PolicyLoader.v
Registry.v
Merge.v
AuditTrail.v
AuditLog.v
Federation.v
SamlSp.v
Site.v
Disco.v
OAuth.v
Acs.v
Logout.v
OidcApi.v
Me.v
Mfa.v
Users.v
Groups.v
ScimApi.v
ScimSchemas.v
