(* ===== verification/Prelude.v ===== *)
(** * CampusID verification library

    CampusID is an identity broker for a campus: people sign in at a SAML identity
    provider of the federation, the broker resolves who they are, and applications
    receive OpenID Connect tokens with the attributes policy lets them see.  A
    student information system feeds the registry over SCIM; changes of
    affiliation drive joiner, mover and leaver consequences; every decision goes
    to a tamper-evident trail.  The code is under [src/campusid/]; the paths below
    are relative to it.

    ** Parts and how they meet

    A browser enters at [routes/saml.py] ([Acs]): the throttle ([Throttle]), the
    federation registry ([Federation]), an [AuthnRequest] ([SamlSp]).  The answer
    goes through the gate ([SamlGate], on [Xml], [SamlSignature], [Pending]), the
    person is resolved in the registry ([Registry]), the asserted attributes are
    corrected by what is on record ([Merge]), and a session starts ([Sessions]).
    A client sends the browser to [routes/oauth2.py] ([OAuth]): the registration
    ([Clients]), the session, the release policy ([Release], [PolicyLoader]), a
    code and a token family ([Grants]), signed tokens ([Jwt], [Tokens]).  The SIS
    writes through [routes/scim.py] ([ScimApi], on [Users], [Groups], [Bulk],
    [ScimPatch], [ScimFilter]); the orchestrator ([Orchestrator]) applies what a
    change of affiliation means to roles ([Roles]), grants of entitlements
    ([Lifecycle]), sessions, tokens, cached decisions ([DecisionCache]) and
    downstream systems ([Retry], [DeadLetters], [Reconciliation]), of which the
    campus directory ([Directory]) is one.  The engine
    ([Authz]) answers what a subject may do; second factors ([Factors], [Totp],
    [WebAuthn], [Push], [Recovery], [RateLimit]) raise the assurance of a session
    ([Assurance]).  [AuditTrail] and [AuditLog] hold the trail.

    ** Files

    Groundwork.  [Prelude]: results, the error monad's notation, list lemmas and
    tactics.  [PyStr], [Dict], [Base64], [Json], [JsonText], [JsonLoads],
    [IsoTime], [Url]: the parts of the Python library the source uses.  [Errors]:
    [errors.py], [oidc/errors.py].  [Redis]: programs over a Redis server ([prog],
    [run], [step]).  [OneShot]: the two patterns of single use under interleaving.
    [Codec]: reading stored records back.

    Stores in Redis.  [Grants]: [oidc/grants.py].  [Sessions]: [session/store.py].
    [Pending]: [oidc/par.py], [saml/stores.py], [mfa/challenges.py].  [RateLimit]:
    [mfa/ratelimit.py].  [Throttle]: [security/throttle.py].  [DecisionCache]:
    [authz/cache.py].  [Push]: [mfa/push.py].

    SAML.  [Xml]: [saml/parser.py], [saml/namespaces.py].  [SamlSignature]:
    [saml/algorithms.py], [xsw.py], [signature.py], [encryption.py].  [SamlGate]:
    [saml/gate.py].  [Federation]: [saml/metadata_idp.py], [federation/registry.py],
    [federation/models.py].  [SamlSp]: [saml/metadata_sp.py], [saml/authn_request.py].

    Policy and authorization.  [Attributes]: [policy/attributes.py],
    [policy/normalize.py].  [Release]: [policy/release.py], [policy/pairwise.py],
    [oidc/claims.py], [oidc/identity.py].  [PolicyLoader]: [policy/loader.py].
    [Authz]: [authz/engine.py], [authz/loader.py].  [Roles]: [authz/roles.py],
    [authz/store.py], [authz/models.py].

    Second factors.  [Assurance]: [mfa/assurance.py], [mfa/enrolment.py].  [Cbor],
    [Totp], [Recovery], [WebAuthn]: the modules of those names.  [Factors]:
    [mfa/models.py], [mfa/store.py].

    Identity and lifecycle.  [Registry]: [identity/models.py], [registry.py],
    [assertions.py].  [Merge]: [identity/release.py].  [Lifecycle]:
    [lifecycle/rules.py], [store.py], [models.py].  [Orchestrator], [Retry],
    [DeadLetters], [Reconciliation]: the modules of those names and
    [lifecycle/sweeper.py].

    The campus directory.  [LdapText]: [directory/escaping.py] and the grammars its
    output is read with.  [GroupWalk]: [directory/groups.py].  [Directory]: the rest
    of [directory/] and [lifecycle/targets.py].  [DirectoryLaws]: what the LDAP
    library and a server promise, a tree that does, and the theorems.

    Tokens and endpoints.  [Jwt]: [oidc/jwt.py], [oidc/keys.py].  [Tokens]:
    [oidc/tokens.py], [oidc/bearer.py].  [Clients]: [oidc/pkce.py], [clients.py],
    [registry.py], [models.py].  [Site]: [session/cookies.py], [routes/errors.py]
    and the world a handler acts on.  [Disco], [OAuth], [Acs]: [routes/disco.py],
    [routes/oauth2.py], [routes/saml.py].

    SCIM.  [ScimFilter], [ScimPatch], [Bulk]: [scim/filters.py], [patch.py],
    [bulk.py], [bulk_runner.py].  [Users]: [scim/resources.py], [scim/models.py],
    [scim/store.py].  [Groups]: [scim/group_resources.py], [scim/groups.py].
    [ScimApi]: [routes/scim.py], [scim/auth.py], [scim/errors.py] and the lifecycle
    hook as [app.py] wires it.  [ScimSchemas]: [scim/schemas.py].

    Audit.  [AuditTrail]: [audit/events.py], [audit/chain.py].  [AuditLog]:
    [audit/log.py], [models.py], [retention.py], [query.py], [export.py].

    The signed-in person.  [Logout]: [oidc/logout.py], [routes/logout.py].
    [OidcApi]: [oidc/discovery.py], [routes/oidc.py].  [Me]: [routes/me.py].  [Mfa]:
    [routes/mfa.py] and the enrolment part of [mfa/totp.py].

    ** What the theorems show

    Who gets in: an answer becomes a session only when the gate accepts it for an
    enabled provider, a request of this broker and the browser that started it
    ([accepted_response_is_vouched], [session_is_vouched],
    [trusted_idp_is_registered]); every refusal looks the same and is recorded
    ([refusals_are_uniform], [token_answers_uniformly]).  What is spent stays spent
    under every interleaving of Redis commands ([code_single_use],
    [refresh_single_use], [refresh_reuse_kills_family]).  The flow as a whole
    works ([code_flow_completes]) and ends where it should ([authorize_sends_home],
    [logins_land_locally]).  Names with a scope are never reissued
    ([eppn_never_reissued], [api_never_reissues]); identities are linked on evidence
    only.  Of rules in the order the design gives them, denials first, what is
    released is what policy says ([release_exact], [claims_are_entitled]);
    [Release] shows by example what becomes of rules in another order.  A
    leaver reaches nothing ([leaver_cannot_reach_anything]), in the order the
    design asks for ([deprovision_in_order]), and a logout reaches every session,
    token and client it should ([logout_reaches_everything]).  A client is told at
    the userinfo endpoint what its grant covers, of a person who recorded no
    suppression ([userinfo_serves_the_grant]); a recorded suppression changes
    neither those claims nor the tokens' ([suppression_is_ignored]).  In the directory a login finds its one owner whatever
    it holds ([login_finds_its_owner]), a leaver's account ends disabled and nothing
    else changes ([leaver_account_is_disabled]), and an outage is answered with the
    last complete membership or not at all ([outage_serves_last_answer]).  A step up needs a proof of a factor
    the person owns ([step_up_is_proved], [factors_are_own]), and
    [password_session_reaches_aal2] shows how far a password session gets.  Wrong codes in quick succession lock a factor
    ([threshold_locks]); paced ones never do ([paced_failures_never_lock]).  The trail
    verifies exactly when it
    is honest, and a published head pins it.  The SCIM stores keep their
    constraints and versions ([groups_stay_consistent], [group_version_is_exact],
    [patch_members_refines], [load_many_is_load]), and what a request to them writes
    is in the trail with the lifecycle events it set off ([writes_are_recorded]).  The parsers accept exactly
    their grammars ([parser_accepts_grammar], [decode_iff_canonical]), the engine
    decides by deny-overrides, and the published documents are true
    of what is served but for five named sub-attributes ([projections_conform]).  Where the source behaves otherwise than it says, an
    example or theorem of the component shows it.

    ** Conventions

    A Python [str] is the bytes of its UTF-8 text; case folding and white space are
    those of ASCII.  A dict is an association list in insertion order, or a [gmap]
    where order is not observed.  A moment is a number of microseconds, a date a
    day number; [datetime] values with their range are in [IsoTime].  Exceptions
    are values of [result].  A Redis operation is a program of single-key atomic
    commands, run alone or interleaved; Redis itself is a class with the documented
    behaviour as laws, and [Redis.Store] satisfies them.  A Postgres table is a
    list of rows with its unique and foreign keys; a transaction is a function that
    changes nothing when it raises; an unordered query answers in table order;
    column widths are not modelled.  Cryptography (SHA-256, HMAC, RSA, Argon2),
    lxml, signxml, zlib, ldap3, regular expressions, the text of floats, [jsonb] and the
    downstream targets are parameters with
    their documented behaviour as hypotheses, each instantiated in a witness.
    Values drawn at random are arguments or are numbered.  A handler runs at one
    moment, and [date.today()] is the day of that moment.  Metrics, spans, log
    lines and the operator-facing details of errors are left out.

    ** Fuel

    [LdapText]: the length of the text, proved enough by [parse_render].  [GroupWalk]
    counts down the levels still allowed.  [Cbor]: one more than the number of bytes, never reached
    ([Cbor.decode_terminates]).  [AuditLog]: one more than the number of rows,
    proved enough.  [JsonLoads]: twice the length of the text plus two, proved
    enough by the round trips.  [Totp], [Recovery] and [Federation]: the length of
    the input.  Every other recursion is structural.

    ** Not modelled

    The administration pages ([routes/admin.py], [admin/people.py]): HTML and short
    handlers over modelled stores.  The audit dashboard and figures: aggregates
    that Postgres evaluates.  The assembly of the application, logging, metrics,
    tracing, [config.py] and [keys.py]: wiring, environment variables and key
    files; their values are arguments here.  The relying-party library [rp/],
    which runs in the applications.  [saml/schema.py]: one call of lxml.
    Migrations, operator scripts, the performance harness and the development
    containers.  Within modelled parts: the reloading of the role and rule stores
    from the database, the pages that list assignments and timelines, and the
    timer around the grace sweeper.
*)

From Stdlib Require Export ZArith Lia Ascii.
From stdpp Require Export base tactics list strings gmap sets option sorting.

#[global] Set Default Goal Selector "!".

(** ** Results

    Python's exceptions are values of the [Err] branch of a result; [E] is the
    exception type of the component. *)

Inductive result (E A : Type) : Type :=
| Ok (a : A)
| Err (e : E).
Arguments Ok {E A} _.
Arguments Err {E A} _.

#[global] Instance result_eq_dec `{EqDecision E, EqDecision A} : EqDecision (result E A).
Proof. solve_decision. Defined.

Declare Scope campus_scope.
Delimit Scope campus_scope with campus.
Open Scope campus_scope.

Definition rbind {E A B} (m : result E A) (k : A -> result E B) : result E B :=
  match m with
  | Ok a => k a
  | Err e => Err e
  end.

(** [let*] threads a result, [check*] is Python's [if c: raise e]. *)
Notation "'let*' x := m 'in' k" := (rbind m (fun x => k))
  (at level 10, x name, m at level 200, k at level 200,
   format "'[v' 'let*'  x  :=  m  'in' '/' k ']'") : campus_scope.
Notation "'let*' ' p := m 'in' k" := (rbind m (fun p => k))
  (at level 10, p pattern, m at level 200, k at level 200) : campus_scope.
Notation "'raise*' e 'when' c ; k" := (if (c : bool) then Err e else k)
  (at level 10, e at level 100, c at level 200, k at level 200) : campus_scope.

Definition is_ok {E A} (r : result E A) : bool :=
  match r with Ok _ => true | Err _ => false end.

(** [mapM] over a list, in order, stopping at the first error: a Python list
    comprehension whose element expression can raise. *)
Fixpoint rmap {E A B} (f : A -> result E B) (l : list A) : result E (list B) :=
  match l with
  | [] => Ok []
  | x :: l' => let* y := f x in let* ys := rmap f l' in Ok (y :: ys)
  end.

(** ** Tactics *)

(** Breaks every [match] and [if] of the goal and the hypotheses, closing the
    branches the equations contradict. *)
Ltac crush_match :=
  repeat (case_match; simplify_eq/=; try done).

Ltac bool_prop :=
  repeat match goal with
  | H : bool_decide _ = true |- _ => apply bool_decide_eq_true in H
  | H : bool_decide _ = false |- _ => apply bool_decide_eq_false in H
  | H : andb _ _ = true |- _ => apply andb_true_iff in H; destruct H
  | H : orb _ _ = false |- _ => apply orb_false_iff in H; destruct H
  | H : negb _ = true |- _ => apply negb_true_iff in H
  | H : negb _ = false |- _ => apply negb_false_iff in H
  | H : (_ <? _)%Z = true |- _ => apply Z.ltb_lt in H
  | H : (_ <? _)%Z = false |- _ => apply Z.ltb_ge in H
  | H : (_ <=? _)%Z = true |- _ => apply Z.leb_le in H
  | H : (_ <=? _)%Z = false |- _ => apply Z.leb_gt in H
  | H : (_ =? _)%Z = true |- _ => apply Z.eqb_eq in H
  | H : (_ =? _)%Z = false |- _ => apply Z.eqb_neq in H
  | H : String.eqb _ _ = true |- _ => apply String.eqb_eq in H
  | H : String.eqb _ _ = false |- _ => apply String.eqb_neq in H
  end.

Create HintDb campus discriminated.
Create Rewrite HintDb campus.

(** ** Results: shared lemmas *)

Lemma rbind_ok {E A B} (m : result E A) (k : A -> result E B) b :
  rbind m k = Ok b <-> exists a, m = Ok a /\ k a = Ok b.
Proof. destruct m; simpl; split; [eauto | by intros (? & [= ->] & ?) | done | by intros (? & ? & _)]. Qed.

Lemma rmap_ok_Forall2 {E A B} (f : A -> result E B) l ys :
  rmap f l = Ok ys <-> Forall2 (fun x y => f x = Ok y) l ys.
Proof.
  revert ys. induction l as [|x l IH]; intros ys; simpl.
  - split; [naive_solver | by inversion 1].
  - rewrite rbind_ok. setoid_rewrite rbind_ok. split.
    + intros (y & Hy & ys' & Hys & [= <-]). constructor; [done | by apply IH].
    + inversion 1; subst. eexists; split; [done|]. eexists; split; [by apply IH | done].
Qed.

(** ** Moments and durations

    A [datetime] is a number of microseconds since the epoch (the resolution
    Python's [datetime] and Postgres' [timestamptz] have) and a [timedelta] is a
    number of microseconds. *)

Abbreviation moment := Z (only parsing).
Abbreviation duration := Z (only parsing).

Definition SECOND : duration := 1000000.

(** [int(td.total_seconds())]: truncation towards zero to whole seconds. *)
Definition whole_seconds (td : duration) : Z := Z.quot td SECOND.

(** [max(int(td.total_seconds()), 1)], the TTL idiom of every Redis store. *)
Definition ttl_seconds (td : duration) : Z := Z.max (whole_seconds td) 1.

#[global] Arguments ttl_seconds : simpl never.
#[global] Arguments whole_seconds : simpl never.
#[global] Arguments SECOND : simpl never.
#[global] Arguments Z.mul : simpl never.
#[global] Arguments Z.add : simpl never.
#[global] Arguments Z.sub : simpl never.

Lemma ttl_seconds_pos td : (1 <= ttl_seconds td)%Z.
Proof. unfold ttl_seconds. lia. Qed.

Lemma ttl_seconds_le td : (SECOND <= td)%Z -> (ttl_seconds td * SECOND <= td)%Z.
Proof.
  unfold ttl_seconds, whole_seconds, SECOND. intros H.
  pose proof (Z.quot_rem td 1000000 ltac:(done)) as E.
  pose proof (Z.rem_bound_pos td 1000000 ltac:(lia) ltac:(lia)) as B.
  assert (1 <= Z.quot td 1000000)%Z by (apply Z.quot_le_lower_bound; lia).
  lia.
Qed.

Lemma ttl_seconds_mono a b : (a <= b)%Z -> (ttl_seconds a <= ttl_seconds b)%Z.
Proof.
  unfold ttl_seconds, whole_seconds. intros H.
  pose proof (Z.quot_le_mono a b SECOND ltac:(done) H). lia.
Qed.

#[export] Hint Resolve ttl_seconds_pos ttl_seconds_mono : campus.
