(* ===== verification/PyStr.v ===== *)
(** * Python strings

    The string operations the broker uses, on Rocq's byte strings.  A Python
    [str] is modelled by the bytes of its UTF-8 text, so everything here agrees
    with Python on ASCII text; case folding is ASCII case folding. *)

From stdpp Require Import pretty.
From S2P Require Import Prelude.

Module Py.

(** [s.startswith(p)]. *)
Fixpoint startswith (s p : string) : bool :=
  match p, s with
  | EmptyString, _ => true
  | String a p', String b s' => Ascii.eqb a b && startswith s' p'
  | String _ _, EmptyString => false
  end.

(** [s[n:]]. *)
Fixpoint drop (n : nat) (s : string) : string :=
  match n, s with
  | O, _ => s
  | S n', String _ s' => drop n' s'
  | S _, EmptyString => EmptyString
  end.

(** [s.removeprefix(p)]. *)
Definition removeprefix (s p : string) : string :=
  if startswith s p then drop (String.length p) s else s.

Fixpoint srev_app (s acc : string) : string :=
  match s with
  | EmptyString => acc
  | String a s' => srev_app s' (String a acc)
  end.
Definition srev (s : string) : string := srev_app s EmptyString.

(** [s.endswith(p)]. *)
Definition endswith (s p : string) : bool := startswith (srev s) (srev p).

(** [p in s] for strings. *)
Fixpoint contains (s p : string) : bool :=
  startswith s p ||
  match s with
  | EmptyString => false
  | String _ s' => contains s' p
  end.

Definition lower_ascii (a : ascii) : ascii :=
  let n := Ascii.nat_of_ascii a in
  if (65 <=? n)%nat && (n <=? 90)%nat then Ascii.ascii_of_nat (n + 32) else a.

Definition upper_ascii (a : ascii) : ascii :=
  let n := Ascii.nat_of_ascii a in
  if (97 <=? n)%nat && (n <=? 122)%nat then Ascii.ascii_of_nat (n - 32) else a.

Fixpoint smap (f : ascii -> ascii) (s : string) : string :=
  match s with
  | EmptyString => EmptyString
  | String a s' => String (f a) (smap f s')
  end.

Definition lower (s : string) : string := smap lower_ascii s.
Definition upper (s : string) : string := smap upper_ascii s.

Fixpoint sforall (f : ascii -> bool) (s : string) : bool :=
  match s with
  | EmptyString => true
  | String a s' => f a && sforall f s'
  end.

Fixpoint sfilter (f : ascii -> bool) (s : string) : string :=
  match s with
  | EmptyString => EmptyString
  | String a s' => if f a then String a (sfilter f s') else sfilter f s'
  end.

(** [c in s] for one character. *)
Definition has_char (c : ascii) (s : string) : bool :=
  negb (sforall (fun a => negb (Ascii.eqb a c)) s).

(** Whether [s.encode("ascii")] succeeds. *)
Definition is_ascii (s : string) : bool :=
  sforall (fun a => (Ascii.nat_of_ascii a <? 128)%nat) s.

(** ASCII white space, as [str.split()] and [str.strip()] see it. *)
Definition is_space (a : ascii) : bool :=
  let n := Ascii.nat_of_ascii a in
  ((9 <=? n)%nat && (n <=? 13)%nat) || ((28 <=? n)%nat && (n <=? 32)%nat).

(** [s.split(sep)] for a one-character separator: never empty. *)
Fixpoint split_on (sep : ascii) (s : string) : list string :=
  match s with
  | EmptyString => [EmptyString]
  | String a s' =>
      if Ascii.eqb a sep then EmptyString :: split_on sep s'
      else match split_on sep s' with
           | w :: ws => String a w :: ws
           | [] => [String a EmptyString]
           end
  end.

(** [s.split()]: maximal runs of non-space characters. *)
Fixpoint words_go (cur : string) (s : string) : list string :=
  match s with
  | EmptyString => if String.eqb cur EmptyString then [] else [srev cur]
  | String a s' =>
      if is_space a
      then (if String.eqb cur EmptyString then [] else [srev cur]) ++ words_go EmptyString s'
      else words_go (String a cur) s'
  end.
Definition words (s : string) : list string := words_go EmptyString s.

Fixpoint lstrip (s : string) : string :=
  match s with
  | String a s' => if is_space a then lstrip s' else s
  | EmptyString => EmptyString
  end.
(** [s.strip()]. *)
Definition strip (s : string) : string := srev (lstrip (srev (lstrip s))).

(** [s.split(sep, 1)[0]]. *)
Fixpoint before_char (sep : ascii) (s : string) : string :=
  match s with
  | EmptyString => EmptyString
  | String a s' => if Ascii.eqb a sep then EmptyString else String a (before_char sep s')
  end.

(** [sep.join(parts)]. *)
Fixpoint join (sep : string) (parts : list string) : string :=
  match parts with
  | [] => EmptyString
  | [p] => p
  | p :: ps => p +:+ sep +:+ join sep ps
  end.

(** [s.replace(old, new)] for a non-empty [old]; [skip] counts the characters
    of a match still to be dropped. *)
Fixpoint replace_go (old new : string) (skip : nat) (s : string) : string :=
  match s with
  | EmptyString => EmptyString
  | String a s' =>
      match skip with
      | S n => replace_go old new n s'
      | O => if startswith s old then new +:+ replace_go old new (String.length old - 1) s'
             else String a (replace_go old new 0 s')
      end
  end.
Definition replace (s old new : string) : string := replace_go old new 0 s.

(** [s.strip(chars)]. *)
Fixpoint lstrip_chars (chars s : string) : string :=
  match s with
  | String a s' => if has_char a chars then lstrip_chars chars s' else s
  | EmptyString => EmptyString
  end.
Definition strip_chars (s chars : string) : string :=
  srev (lstrip_chars chars (srev (lstrip_chars chars s))).

(** [s[n:m]] for [n <= m]. *)
Fixpoint take (n : nat) (s : string) : string :=
  match n, s with
  | S n', String a s' => String a (take n' s')
  | _, _ => EmptyString
  end.
Definition slice (s : string) (n m : nat) : string := take (m - n) (drop n s).

Fixpoint repeat_str (n : nat) (c : ascii) : string :=
  match n with O => EmptyString | S n' => String c (repeat_str n' c) end.

(** [s.rjust(width, "0")], and [str(n)] for a natural number. *)
Definition zfill (width : nat) (s : string) : string :=
  repeat_str (width - String.length s) "0" +:+ s.
Definition str_of_Z (z : Z) : string := pretty z.

(** [s.partition(sep)] and [s.rpartition(sep)] for one character: what is on
    either side of the first, or the last, separator, when there is one. *)
Fixpoint partition (sep : ascii) (s : string) : string * option string :=
  match s with
  | EmptyString => (EmptyString, None)
  | String a s' =>
      if Ascii.eqb a sep then (EmptyString, Some s')
      else let '(p, r) := partition sep s' in (String a p, r)
  end.
Definition rpartition (sep : ascii) (s : string) : option string * string :=
  let '(tail, head) := partition sep (srev s) in (srev <$> head, srev tail).

(** ** Lemmas *)

Lemma app_String a p s : String a p +:+ s = String a (p +:+ s).
Proof. done. Qed.

Lemma app_nil_l s : "" +:+ s = s.
Proof. done. Qed.

Lemma app_assoc s1 s2 s3 : (s1 +:+ s2) +:+ s3 = s1 +:+ s2 +:+ s3.
Proof. induction s1 as [|a s1 IH]; [done|]. by rewrite !app_String, IH. Qed.

Lemma length_app s1 s2 : String.length (s1 +:+ s2) = (String.length s1 + String.length s2)%nat.
Proof. induction s1 as [|a s1 IH]; [done|]. rewrite app_String. simpl. by rewrite IH. Qed.

Lemma startswith_app p s : startswith (p +:+ s) p = true.
Proof.
  induction p as [|a p IH]; [by destruct s|].
  rewrite app_String. simpl. by rewrite Ascii.eqb_refl.
Qed.

Lemma drop_app p s : drop (String.length p) (p +:+ s) = s.
Proof. by induction p as [|a p IH]. Qed.

Lemma take_drop n s : take n s +:+ drop n s = s.
Proof.
  revert s. induction n as [|n IH]; intros [|c s]; cbn; [done..|]. rewrite app_String. by rewrite IH.
Qed.

Lemma removeprefix_app p s : removeprefix (p +:+ s) p = s.
Proof. unfold removeprefix. by rewrite startswith_app, drop_app. Qed.

Lemma startswith_spec s p : startswith s p = true <-> exists r, s = p +:+ r.
Proof.
  split; [|intros [r ->]; apply startswith_app].
  revert s. induction p as [|a p IH]; intros s Hs; [by exists s|].
  destruct s as [|b s]; [done|]. cbn in Hs. bool_prop.
  apply Ascii.eqb_eq in H. subst b. destruct (IH s H0) as [r ->]. by exists r.
Qed.

Lemma sforall_app f s1 s2 : sforall f (s1 +:+ s2) = sforall f s1 && sforall f s2.
Proof.
  induction s1 as [|a s1 IH]; [done|]. rewrite app_String. simpl.
  rewrite IH. by rewrite andb_assoc.
Qed.

Lemma has_char_app c s1 s2 : has_char c (s1 +:+ s2) = has_char c s1 || has_char c s2.
Proof. unfold has_char. rewrite sforall_app. by rewrite negb_andb. Qed.

Lemma app_inv_l p s1 s2 : p +:+ s1 = p +:+ s2 -> s1 = s2.
Proof.
  induction p as [|a p IH]; [done|]. rewrite !app_String. intros [= E]. by apply IH.
Qed.

(** A key under a longer prefix is no key of the shorter one, when what follows
    the shorter one has no separator. *)
Lemma subprefix_ne c p q s1 s2 :
  has_char c q = true -> has_char c s2 = false -> (p +:+ q) +:+ s1 <> p +:+ s2.
Proof.
  intros Hq Hs E. rewrite app_assoc in E. apply app_inv_l in E. subst s2.
  rewrite has_char_app, Hq in Hs. done.
Qed.

Lemma lower_ascii_idem a : lower_ascii (lower_ascii a) = lower_ascii a.
Proof. by destruct a as [[] [] [] [] [] [] [] []]. Qed.

Lemma lower_idem s : lower (lower s) = lower s.
Proof.
  unfold lower. induction s as [|a s IH]; [done|]. cbn. by rewrite lower_ascii_idem, IH.
Qed.

Lemma words_go_nil_nospace cur s :
  sforall (fun a => negb (is_space a)) s = true ->
  words_go cur s = (if String.eqb (srev_app s cur) EmptyString then [] else [srev (srev_app s cur)]).
Proof.
  revert cur. induction s as [|a s IH]; intros cur Hs; [done|].
  cbn in Hs. bool_prop. cbn. rewrite H. by apply IH.
Qed.

Lemma smap_app f s1 s2 : smap f (s1 +:+ s2) = smap f s1 +:+ smap f s2.
Proof. induction s1 as [|c s1 IH]; [done|]. rewrite !app_String. cbn [smap]. by rewrite IH, app_String. Qed.

Lemma smap_length f s : String.length (smap f s) = String.length s.
Proof. induction s as [|c s IH]; cbn; by rewrite ?IH. Qed.

Lemma srev_app_app s1 s2 acc : srev_app (s1 +:+ s2) acc = srev_app s2 (srev_app s1 acc).
Proof. revert acc. induction s1 as [|c s1 IH]; intros acc; [done|]. rewrite app_String. cbn. apply IH. Qed.

Lemma srev_app_acc s acc : srev_app s acc = srev s +:+ acc.
Proof.
  unfold srev. revert acc. induction s as [|c s IH]; intros acc; [done|]. cbn.
  rewrite IH, (IH (String c "")). by rewrite app_assoc.
Qed.

Lemma srev_app_distr s1 s2 : srev (s1 +:+ s2) = srev s2 +:+ srev s1.
Proof. unfold srev. by rewrite srev_app_app, srev_app_acc. Qed.

Lemma srev_srev s : srev (srev s) = s.
Proof.
  induction s as [|c s IH]; [done|].
  assert (srev (String c s) = srev s +:+ String c "") as -> by (unfold srev; cbn; apply srev_app_acc).
  by rewrite srev_app_distr, IH.
Qed.

Lemma app_nil_r s : s +:+ "" = s.
Proof. induction s as [|c s IH]; [done|]. rewrite app_String. by rewrite IH. Qed.

Lemma partition_spec sep s :
  match partition sep s with
  | (p, Some r) => s = p +:+ String sep r /\ has_char sep p = false
  | (p, None) => s = p /\ has_char sep p = false
  end.
Proof.
  induction s as [|a s IH]; [done|]. cbn.
  destruct (Ascii.eqb_spec a sep) as [->|Hne]; [done|].
  apply Ascii.eqb_neq in Hne.
  destruct (partition sep s) as [p [r|]]; destruct IH as [-> Hp]; (split; [done|]);
    unfold has_char in *; cbn; by rewrite Hne.
Qed.

Lemma partition_app sep p r : has_char sep p = false -> partition sep (p +:+ String sep r) = (p, Some r).
Proof.
  induction p as [|a p IH]; intros Hp.
  - rewrite app_nil_l. cbn. by rewrite Ascii.eqb_refl.
  - unfold has_char in Hp. cbn in Hp. rewrite app_String. cbn.
    destruct (Ascii.eqb a sep); [done|]. cbn in Hp. by rewrite IH.
Qed.

Lemma has_char_srev c s : has_char c (srev s) = has_char c s.
Proof.
  induction s as [|a s IH]; [done|].
  change (String a s) with (String a "" +:+ s). rewrite srev_app_distr, !has_char_app, IH.
  apply orb_comm.
Qed.

Lemma srev_String a s : srev (String a s) = srev s +:+ String a "".
Proof. apply (srev_app_distr (String a "") s). Qed.

Lemma sforall_srev f s : sforall f (srev s) = sforall f s.
Proof. induction s as [|a s IH]; [done|]. rewrite srev_String, sforall_app, IH. cbn. by rewrite andb_true_r, andb_comm. Qed.

(** The last separator: what follows it has none. *)
Lemma rpartition_spec sep s :
  match rpartition sep s with
  | (Some p, r) => s = p +:+ String sep r /\ has_char sep r = false
  | (None, r) => s = r /\ has_char sep r = false
  end.
Proof.
  unfold rpartition. pose proof (partition_spec sep (srev s)) as H.
  destruct (partition sep (srev s)) as [t [h|]]; destruct H as [E Ht]; cbn;
    (split; [|by rewrite has_char_srev]); rewrite <- (srev_srev s), E; [|done].
  rewrite srev_app_distr, srev_String, app_assoc. done.
Qed.

Lemma rpartition_app sep p r :
  has_char sep r = false -> rpartition sep (p +:+ String sep r) = (Some p, r).
Proof.
  intros Hr. unfold rpartition. rewrite srev_app_distr, srev_String, app_assoc.
  change (String sep "" +:+ srev p) with (String sep (srev p)).
  rewrite partition_app by (by rewrite has_char_srev). cbn. by rewrite !srev_srev.
Qed.

(** ** Stripping *)

Lemma split_on_app sep p r : has_char sep p = false -> split_on sep (p +:+ String sep r) = p :: split_on sep r.
Proof.
  unfold has_char. induction p as [|a p IH]; intros H; cbn in H.
  - rewrite app_nil_l. cbn. by rewrite Ascii.eqb_refl.
  - apply negb_false_iff, andb_true_iff in H as [Ha H]. rewrite app_String. cbn [split_on].
    apply negb_true_iff in Ha. rewrite ?Ha, IH; [done|by rewrite H].
Qed.

Lemma split_on_none sep p : has_char sep p = false -> split_on sep p = [p].
Proof.
  unfold has_char. induction p as [|a p IH]; intros H; [done|]. cbn in H.
  apply negb_false_iff, andb_true_iff in H as [Ha H]. cbn [split_on].
  apply negb_true_iff in Ha. rewrite Ha, IH; [done|by rewrite H].
Qed.

Lemma join_split sep s : join (String sep "") (split_on sep s) = s.
Proof.
  induction s as [|a s IH]; [done|]. cbn [split_on]. destruct (Ascii.eqb_spec a sep) as [->|Hne].
  - destruct (split_on sep s) as [|w ws] eqn:E; [by destruct s; cbn in E; repeat case_match|].
    cbn [join]. cbn [join] in IH. by rewrite app_nil_l, IH, app_String.
  - destruct (split_on sep s) as [|w ws] eqn:E; [by rewrite <-IH|]. rewrite <-IH.
    destruct ws; cbn [join]; by rewrite ?app_String.
Qed.


(** The first character, if any, is no white space. *)
Definition unpadded (s : string) : bool :=
  match s with String a _ => negb (is_space a) | EmptyString => true end.

Lemma lstrip_unpadded s : unpadded (lstrip s) = true.
Proof. induction s as [|a s IH]; [done|]. cbn. destruct (is_space a) eqn:E; [done|]. cbn. by rewrite E. Qed.

Lemma lstrip_fix s : unpadded s = true -> lstrip s = s.
Proof. destruct s as [|a s]; [done|]. cbn. by destruct (is_space a). Qed.

Lemma srev_inj s t : srev s = srev t -> s = t.
Proof. intros E. by rewrite <- (srev_srev s), E, srev_srev. Qed.

Lemma unpadded_app a s t : unpadded (String a s +:+ t) = unpadded (String a s).
Proof. done. Qed.

Lemma lstrip_suffix s : exists p, s = p +:+ lstrip s.
Proof.
  induction s as [|a s [p IH]]; [by exists ""|]. cbn. destruct (is_space a); [|by exists ""].
  exists (String a p). by rewrite app_String, <- IH.
Qed.

(** A string [strip] leaves alone: neither end is padded. *)
Lemma strip_fix s : unpadded s = true -> unpadded (srev s) = true -> strip s = s.
Proof. intros H1 H2. unfold strip. by rewrite (lstrip_fix s), lstrip_fix, srev_srev. Qed.

Lemma strip_unpadded s : unpadded (strip s) = true /\ unpadded (srev (strip s)) = true.
Proof.
  unfold strip. rewrite srev_srev. split; [|apply lstrip_unpadded].
  pose proof (lstrip_unpadded s) as H. destruct (lstrip_suffix (srev (lstrip s))) as [p E].
  destruct (srev (lstrip (srev (lstrip s)))) as [|a r] eqn:Er; [done|].
  assert (lstrip s = String a r +:+ srev p) as E'.
  { apply srev_inj. rewrite srev_app_distr, <- Er, !srev_srev. exact E. }
  by rewrite E' in H.
Qed.

Lemma strip_idem s : strip (strip s) = strip s.
Proof. apply strip_fix; apply strip_unpadded. Qed.

Lemma is_space_lower a : is_space (lower_ascii a) = is_space a.
Proof. by destruct a as [[] [] [] [] [] [] [] []]. Qed.

Lemma unpadded_lower s : unpadded (lower s) = unpadded s.
Proof. destruct s as [|a s]; [done|]. cbn. by rewrite is_space_lower. Qed.

Lemma srev_smap f s : srev (smap f s) = smap f (srev s).
Proof.
  induction s as [|a s IH]; [done|]. change (smap f (String a s)) with (String (f a) (smap f s)).
  by rewrite !srev_String, smap_app, IH.
Qed.

Lemma strip_lower s : strip s = s -> strip (lower s) = lower s.
Proof.
  intros E. pose proof (strip_unpadded s) as [H1 H2]. rewrite E in H1, H2.
  apply strip_fix; [by rewrite unpadded_lower|].
  unfold lower. rewrite srev_smap. change (unpadded (lower (srev s)) = true). by rewrite unpadded_lower.
Qed.

Lemma lower_app s1 s2 : lower (s1 +:+ s2) = lower s1 +:+ lower s2.
Proof. apply smap_app. Qed.

Lemma smap_nil f s : smap f s = "" <-> s = "".
Proof. by destruct s. Qed.

Lemma has_char_lower_at s : has_char "@" (lower s) = has_char "@" s.
Proof.
  unfold has_char. f_equal. induction s as [|a s IH]; [done|]. cbn. f_equal; [|exact IH].
  by destruct a as [[] [] [] [] [] [] [] []].
Qed.

End Py.

#[export] Hint Rewrite Py.startswith_app Py.drop_app Py.removeprefix_app : campus.

(** ** Hexadecimal

    [bytes.hex] and [bytes.fromhex], on byte strings. *)

Module Hex.

Definition digit (n : nat) : ascii :=
  match String.get n "0123456789abcdef" with Some c => c | None => "0"%char end.

Definition value (c : ascii) : option nat :=
  let n := nat_of_ascii c in
  if (48 <=? n)%nat && (n <=? 57)%nat then Some (n - 48)%nat
  else if (97 <=? n)%nat && (n <=? 102)%nat then Some (n - 87)%nat
  else if (65 <=? n)%nat && (n <=? 70)%nat then Some (n - 55)%nat
  else None.

Fixpoint encode (s : string) : string :=
  match s with
  | EmptyString => EmptyString
  | String c s' =>
      let n := nat_of_ascii c in
      String (digit (n / 16)%nat) (String (digit (n mod 16)%nat) (encode s'))
  end.

(** White space is skipped between bytes, not inside one. *)
Fixpoint decode (s : string) : option string :=
  match s with
  | EmptyString => Some EmptyString
  | String a s' =>
      if Py.is_space a then decode s'
      else match s' with
           | EmptyString => None
           | String b s'' =>
               match value a, value b, decode s'' with
               | Some h, Some l, Some rest => Some (String (ascii_of_nat (h * 16 + l)%nat) rest)
               | _, _, _ => None
               end
           end
  end.

Lemma digit_facts c :
  let n := nat_of_ascii c in
  Py.is_space (digit (n / 16)%nat) = false /\
  match value (digit (n / 16)%nat), value (digit (n mod 16)%nat) with
  | Some h, Some l => ascii_of_nat (h * 16 + l)%nat = c
  | _, _ => False
  end.
Proof. destruct c as [[] [] [] [] [] [] [] []]; vm_compute; done. Qed.

Lemma decode_encode s : decode (encode s) = Some s.
Proof.
  induction s as [|c s IH]; [done|]. cbn [encode decode].
  destruct (digit_facts c) as [-> Hd].
  destruct (value (digit _)) as [h|]; [|done]. destruct (value (digit _)) as [l|]; [|done].
  by rewrite IH, Hd.
Qed.

End Hex.

(** ** UUIDs and dates *)

Module Uuid.
Definition is_hex (c : ascii) : bool :=
  match Hex.value (Py.lower_ascii c) with Some _ => true | None => false end.

(** [str(uuid.UUID(s))], or nothing where the constructor raises. *)
Definition parse (s : string) : option string :=
  let hex := Py.replace (Py.replace s "urn:" "") "uuid:" "" in
  let hex := Py.lower (Py.replace (Py.strip_chars hex "{}") "-" "") in
  if Nat.eqb (String.length hex) 32 && Py.sforall is_hex hex then
    Some (Py.join "-" [Py.slice hex 0 8; Py.slice hex 8 12; Py.slice hex 12 16; Py.slice hex 16 20; Py.slice hex 20 32])
  else None.
End Uuid.

Module Dates.
(** Year, month and day of a number of days since 1970-01-01. *)
Definition civil (days : Z) : Z * Z * Z :=
  let z := (days + 719468)%Z in
  let era := (z / 146097)%Z in
  let doe := (z - era * 146097)%Z in
  let yoe := ((doe - doe / 1460 + doe / 36524 - doe / 146096) / 365)%Z in
  let doy := (doe - (365 * yoe + yoe / 4 - yoe / 100))%Z in
  let mp := ((5 * doy + 2) / 153)%Z in
  let m := if (mp <? 10)%Z then (mp + 3)%Z else (mp - 9)%Z in
  ((yoe + era * 400 + (if (m <=? 2)%Z then 1 else 0))%Z, m, (doy - (153 * mp + 2) / 5 + 1)%Z).

(** [date.isoformat()]. *)
Definition isoformat (days : Z) : string :=
  let '(y, m, d) := civil days in
  Py.zfill 4 (Py.str_of_Z y) +:+ "-" +:+ Py.zfill 2 (Py.str_of_Z m) +:+ "-" +:+ Py.zfill 2 (Py.str_of_Z d).

Example isoformat_leap : isoformat 19782 = "2024-02-29".
Proof. vm_compute. reflexivity. Qed.
End Dates.
