(* ===== verification/Dict.v ===== *)
(** * Dicts with string keys, and stable sorting

    A Python [dict] is an association list in insertion order, and [sorted] with
    a key is an insertion sort, which keeps the order of equal keys the way
    Python's sort does. *)

From S2P Require Import Prelude PyStr.

Module Dict.
Section dict.
Context {A : Type}.
Implicit Types d : list (string * A).

(** [d.get(k)]. *)
Fixpoint get d (k : string) : option A :=
  match d with
  | [] => None
  | (k', v) :: d' => if String.eqb k k' then Some v else get d' k
  end.

(** [k in d]. *)
Definition mem d (k : string) : bool := match get d k with Some _ => true | None => false end.

(** [d[k] = v]: an existing key keeps its place, a new one goes last. *)
Fixpoint set d (k : string) (v : A) : list (string * A) :=
  match d with
  | [] => [(k, v)]
  | (k', v') :: d' => if String.eqb k k' then (k, v) :: d' else (k', v') :: set d' k v
  end.

Lemma get_set_eq d k v : get (set d k v) k = Some v.
Proof.
  induction d as [|[k' v'] d IH]; simpl; [by rewrite String.eqb_refl|].
  destruct (String.eqb k k') eqn:E; simpl; [by rewrite String.eqb_refl | by rewrite E].
Qed.

Lemma get_set_ne d k k' v : k <> k' -> get (set d k v) k' = get d k'.
Proof.
  intros Hne. induction d as [|[k2 v2] d IH]; simpl.
  - destruct (String.eqb_spec k' k); congruence.
  - destruct (String.eqb_spec k k2) as [->|]; simpl; destruct (String.eqb_spec k' k2); congruence.
Qed.

Lemma get_set d k k' v : get (set d k v) k' = if decide (k = k') then Some v else get d k'.
Proof. case_decide; subst; [apply get_set_eq | by apply get_set_ne]. Qed.

Lemma get_elem d k v : get d k = Some v -> (k, v) ∈ d.
Proof.
  induction d as [|[k' v'] d IH]; simpl; [done|].
  destruct (String.eqb_spec k k') as [->|]; [intros [= ->]; constructor|].
  intros H. right. by apply IH.
Qed.

Lemma elem_get d k v : NoDup (d.*1) -> (k, v) ∈ d -> get d k = Some v.
Proof.
  induction d as [|[k' v'] d IH]; simpl; [by intros _ ?%elem_of_nil|].
  intros [Hk Hd]%NoDup_cons [[= -> ->]|Hin]%elem_of_cons; [by rewrite String.eqb_refl|].
  destruct (String.eqb_spec k k') as [->|]; [|by apply IH].
  destruct Hk. apply list_elem_of_fmap. by exists (k', v).
Qed.

Lemma get_None d k : get d k = None <-> k ∉ d.*1.
Proof.
  induction d as [|[k' v'] d IH]; simpl; [split; [by intros _ ?%elem_of_nil | done]|].
  rewrite not_elem_of_cons, <- IH. destruct (String.eqb_spec k k'); naive_solver.
Qed.

Lemma set_fresh d k v : get d k = None -> set d k v = d ++ [(k, v)].
Proof.
  induction d as [|[k' v'] d IH]; simpl; [done|].
  destruct (String.eqb k k'); [done|]. intros H. by rewrite IH.
Qed.

Lemma NoDup_set d k v : NoDup (d.*1) -> NoDup ((set d k v).*1).
Proof.
  intros Hd. destruct (get d k) as [w|] eqn:E.
  - assert (forall d w, get d k = Some w -> (set d k v).*1 = d.*1) as H.
    { clear d E Hd. intros d. induction d as [|[k' v'] d IH]; simpl; [done|]. intros w'.
      destruct (String.eqb_spec k k') as [->|]; [done|]. intros Hg. csimpl. by rewrite (IH w'). }
    by rewrite (H _ _ E).
  - rewrite set_fresh by done. rewrite fmap_app. apply NoDup_app. split; [done|]. split; [|by apply NoDup_singleton].
    intros x Hx ->%list_elem_of_singleton. by apply get_None in E.
Qed.
End dict.
End Dict.

(** ** Stable sorting *)

Module Sort.
Section sort.
Context {A : Type} (leb : A -> A -> bool).

Fixpoint insert (x : A) (l : list A) : list A :=
  match l with
  | [] => [x]
  | y :: l' => if leb x y then x :: l else y :: insert x l'
  end.

(** [sorted(l, key=...)], where [leb] compares the keys: an element goes before
    the later elements it does not exceed. *)
Fixpoint sort (l : list A) : list A :=
  match l with
  | [] => []
  | x :: l' => insert x (sort l')
  end.

Lemma insert_Permutation x l : insert x l ≡ₚ x :: l.
Proof.
  induction l as [|y l IH]; simpl; [done|]. destruct (leb x y); [done|].
  rewrite IH. apply Permutation_swap.
Qed.

Lemma sort_Permutation l : sort l ≡ₚ l.
Proof. induction l as [|x l IH]; simpl; [done|]. by rewrite insert_Permutation, IH. Qed.

Lemma elem_of_sort x l : x ∈ sort l <-> x ∈ l.
Proof. by rewrite sort_Permutation. Qed.

Context (leb_total : forall x y, leb x y = false -> leb y x = true).
Context (leb_trans : forall x y z, leb x y = true -> leb y z = true -> leb x z = true).

Lemma insert_sorted x l : StronglySorted leb l -> StronglySorted leb (insert x l).
Proof using leb_total leb_trans.
  induction 1 as [|y l Hl IH Hy]; simpl; [repeat constructor|].
  destruct (leb x y) eqn:E.
  - constructor; [by constructor|]. constructor; [by apply Is_true_true|].
    eapply Forall_impl; [exact Hy|]. intros z Hz.
    apply Is_true_true. apply Is_true_true in Hz. by eapply leb_trans.
  - constructor; [done|]. rewrite insert_Permutation. constructor; [|done].
    apply Is_true_true. by apply leb_total.
Qed.

Lemma sort_sorted l : StronglySorted leb (sort l).
Proof using leb_total leb_trans. induction l; simpl; [constructor | by apply insert_sorted]. Qed.

(** The order of the elements of one kind is that of the sort of that kind:
    sorting and filtering commute. *)
Lemma filter_insert f x l :
  StronglySorted leb l ->
  List.filter f (insert x l) = if (f x : bool) then insert x (List.filter f l) else List.filter f l.
Proof using leb_trans.
  induction 1 as [|y l Hl IH Hy]; simpl; [by destruct (f x)|].
  destruct (leb x y) eqn:E; simpl.
  - destruct (f x) eqn:Fx; simpl; [|done]. destruct (f y) eqn:Fy; simpl; [by rewrite E|].
    symmetry. clear IH Fy. induction l as [|z l IH]; simpl; [done|].
    apply Forall_cons in Hy as [Hyz Hy]. apply StronglySorted_inv in Hl as [Hl _].
    destruct (f z); [|by apply IH]. simpl. apply Is_true_true in Hyz. by rewrite (leb_trans x y z).
  - rewrite IH. destruct (f x) eqn:Fx; [|done]. destruct (f y); simpl; [by rewrite E | done].
Qed.

Lemma filter_sort f l : List.filter f (sort l) = sort (List.filter f l).
Proof using leb_total leb_trans.
  induction l as [|x l IH]; simpl; [done|]. rewrite filter_insert by apply sort_sorted.
  rewrite IH. by destruct (f x).
Qed.

(** The first of the sorted list is a least element, the earliest of the list
    among its equals. *)
Lemma sort_head x l l' :
  sort l = x :: l' ->
  exists before after, l = before ++ x :: after /\
    (forall y, y ∈ before -> leb y x = false) /\ (forall y, y ∈ after -> leb x y = true).
Proof using leb_total leb_trans.
  revert x l'. induction l as [|z l IH]; intros x l' H; simpl in H; [done|].
  destruct (sort l) as [|y s] eqn:E; simpl in H.
  - injection H as -> <-. exists [], l. split_and!; [done|by intros ? ?%elem_of_nil|].
    intros y Hy. apply (elem_of_sort y l) in Hy. rewrite E in Hy. by apply elem_of_nil in Hy.
  - destruct (leb z y) eqn:Ez; injection H as -> <-.
    + exists [], l. split_and!; [done|by intros ? ?%elem_of_nil|].
      intros w Hw. apply (elem_of_sort w l) in Hw. rewrite E in Hw.
      apply elem_of_cons in Hw as [->|Hw]; [done|].
      pose proof (sort_sorted l) as Hs. rewrite E in Hs. apply StronglySorted_inv in Hs as [_ Hs].
      rewrite Forall_forall in Hs. apply (leb_trans _ _ _ Ez), Is_true_true. by apply Hs.
    + destruct (IH x s eq_refl) as (before & after & -> & Hb & Ha).
      exists (z :: before), after. split_and!; [done| |done].
      intros w [->|Hw]%elem_of_cons; [done | by apply Hb].
Qed.

(** A sorted list is its own sort, and a last element stays last. *)
Lemma sort_id l : StronglySorted leb l -> sort l = l.
Proof.
  induction 1 as [|x l Hl IH Hx]; simpl; [done|]. rewrite IH. destruct l as [|y l]; simpl; [done|].
  apply Forall_cons in Hx as [Hx _]. apply Is_true_true in Hx. by rewrite Hx.
Qed.

Lemma sort_snoc l x : (forall y, y ∈ l -> leb y x = true) -> sort (l ++ [x]) = sort l ++ [x].
Proof.
  intros H. induction l as [|y l IH]; simpl; [done|].
  rewrite IH by (intros z Hz; apply H; by right).
  assert (leb y x = true) as Hy by (apply H; constructor). clear IH H.
  induction (sort l) as [|z s IH]; simpl; [by rewrite Hy|]. destruct (leb y z); [done|]. by rewrite IH.
Qed.

(** The order the sort puts the elements in does not depend on the order they
    came in, when the keys decide it. *)
Lemma sort_strict l l' : l ≡ₚ l' -> StronglySorted leb l' ->
  (forall x y, x ∈ l' -> y ∈ l' -> leb x y = true -> leb y x = true -> x = y) -> sort l = l'.
Proof using leb_total leb_trans.
  intros Hp Hs Ha. rewrite <- sort_Permutation in Hp. pose proof (sort_sorted l) as Hs'.
  revert Hp Hs Ha Hs'. generalize (sort l). clear l. intros l. revert l'.
  induction l as [|x l IH]; intros l' Hp Hs Ha Hs'; [by apply Permutation_nil in Hp|].
  destruct l' as [|y l']; [by symmetry in Hp; apply Permutation_nil in Hp|].
  apply StronglySorted_inv in Hs as [Hs Hy], Hs' as [Hs' Hx]. rewrite Forall_forall in Hx, Hy.
  assert (forall z, leb z z = true) as Hrefl.
  { intros z. destruct (leb z z) eqn:E; [done|]. pose proof (leb_total z z E). congruence. }
  assert (x = y) as ->.
  { assert (x ∈ y :: l') as Hin by (rewrite <- Hp; constructor). assert (y ∈ x :: l) as Hin' by (rewrite Hp; constructor).
    apply Ha; [done|constructor| |].
    - apply elem_of_cons in Hin' as [->|?]; [done|]. apply Is_true_true. by apply Hx.
    - apply elem_of_cons in Hin as [->|?]; [done|]. apply Is_true_true. by apply Hy. }
  f_equal. apply IH; [by apply Permutation_cons_inv in Hp|done| |done].
  intros a b ? ?. apply Ha; by right.
Qed.
End sort.
End Sort.
