(* ===== verification/Base64.v ===== *)
(** * Base64

    Python's [base64] functions on byte strings: [b64encode], the lenient
    [b64decode] (it skips what is not in the alphabet and stops at a complete
    padding), its [validate=True] form, the URL-safe alphabet, and the unpadded
    spelling the broker puts in tokens, challenges and credential identifiers. *)

From S2P Require Import Prelude PyStr.

Module Base64.

Definition alphabet : string := "ABCDEFGHIJKLMNOPQRSTUVWXYZabcdefghijklmnopqrstuvwxyz0123456789+/".

Definition digit (n : nat) : ascii :=
  match String.get n alphabet with Some c => c | None => "A"%char end.

Definition value (c : ascii) : option nat :=
  let n := nat_of_ascii c in
  if (65 <=? n)%nat && (n <=? 90)%nat then Some (n - 65)%nat
  else if (97 <=? n)%nat && (n <=? 122)%nat then Some (n - 71)%nat
  else if (48 <=? n)%nat && (n <=? 57)%nat then Some (n + 4)%nat
  else if Nat.eqb n 43 then Some 62%nat
  else if Nat.eqb n 47 then Some 63%nat
  else None.

(** [base64.b64encode]. *)
Fixpoint encode (s : string) : string :=
  match s with
  | EmptyString => EmptyString
  | String a EmptyString =>
      let x := nat_of_ascii a in
      String (digit (x / 4)%nat) (String (digit (x mod 4 * 16)%nat) "==")
  | String a (String b EmptyString) =>
      let x := nat_of_ascii a in let y := nat_of_ascii b in
      String (digit (x / 4)%nat) (String (digit (x mod 4 * 16 + y / 16)%nat)
        (String (digit (y mod 16 * 4)%nat) "="))
  | String a (String b (String c s')) =>
      let x := nat_of_ascii a in let y := nat_of_ascii b in let z := nat_of_ascii c in
      String (digit (x / 4)%nat) (String (digit (x mod 4 * 16 + y / 16)%nat)
        (String (digit (y mod 16 * 4 + z / 64)%nat) (String (digit (z mod 64)%nat) (encode s'))))
  end.

(** The decoder's loop: the position in the current group of four, the bits
    carried over, and the padding seen since the last digit. *)
Fixpoint decode_go (quad carry pads : nat) (s : string) : option string :=
  match s with
  | EmptyString => if Nat.eqb quad 0 then Some EmptyString else None
  | String c s' =>
      if Ascii.eqb c "="%char then
        if (2 <=? quad)%nat then
          if (4 <=? quad + S pads)%nat then Some EmptyString else decode_go quad carry (S pads) s'
        else decode_go quad carry pads s'
      else match value c with
           | None => decode_go quad carry pads s'
           | Some v =>
               match quad with
               | 0%nat => decode_go 1 v 0 s'
               | 1%nat => String (ascii_of_nat (carry * 4 + v / 16)%nat) <$> decode_go 2 (v mod 16)%nat 0 s'
               | 2%nat => String (ascii_of_nat (carry * 16 + v / 4)%nat) <$> decode_go 3 (v mod 4)%nat 0 s'
               | _ => String (ascii_of_nat (carry * 64 + v)%nat) <$> decode_go 0 0 0 s'
               end
           end
  end.

(** [base64.b64decode]: [None] where it raises. *)
Definition decode (s : string) : option string :=
  if Py.is_ascii s then decode_go 0 0 0 s else None.

(** The characters of the alphabet [s] starts with, and the rest. *)
Fixpoint span_digits (s : string) : string * string :=
  match s with
  | String c r =>
      match value c with
      | Some _ => let '(d, r') := span_digits r in (String c d, r')
      | None => (EmptyString, s)
      end
  | EmptyString => (EmptyString, EmptyString)
  end.

(** [base64.b64decode(s, validate=True)], the decoder's strict mode: digits, then
    padding that completes the last group; padding after a complete group is
    ignored. *)
Definition decode_strict (s : string) : option string :=
  let '(body, pads) := span_digits s in
  let n := String.length pads in
  if negb (Py.sforall (Ascii.eqb "="%char) pads) then None
  else match (String.length body mod 4)%nat with
       | 0%nat => if Nat.eqb (String.length body) 0 && negb (Nat.eqb n 0) then None else decode body
       | 2%nat => if Nat.eqb n 2 then decode s else None
       | 3%nat => if Nat.eqb n 1 then decode s else None
       | _ => None
       end.

(** [value + "=" * (-len(value) % 4)]. *)
Definition pad (s : string) : string :=
  s +:+ Py.repeat_str ((4 - String.length s mod 4) mod 4)%nat "="%char.

(** [str.rstrip("=")]. *)
Definition rstrip_pad (s : string) : string := Py.srev (Py.lstrip_chars "=" (Py.srev s)).

Definition to_url (c : ascii) : ascii :=
  if Ascii.eqb c "+"%char then "-"%char else if Ascii.eqb c "/"%char then "_"%char else c.
Definition of_url (c : ascii) : ascii :=
  if Ascii.eqb c "-"%char then "+"%char else if Ascii.eqb c "_"%char then "/"%char else c.

(** [base64.urlsafe_b64encode(raw).decode("ascii").rstrip("=")]. *)
Definition b64url (raw : string) : string := rstrip_pad (Py.smap to_url (encode raw)).

(** [base64.urlsafe_b64decode(value + "=" * (-len(value) % 4))]. *)
Definition b64url_decode (v : string) : option string :=
  decode (Py.smap of_url (pad v)).

(** ** The encoder is undone by the decoder *)

Lemma digit_value n : (n < 64)%nat ->
  value (digit n) = Some n /\ Ascii.eqb (digit n) "="%char = false /\
  (nat_of_ascii (digit n) <? 128)%nat = true /\ of_url (to_url (digit n)) = digit n /\
  Ascii.eqb (to_url (digit n)) "="%char = false.
Proof.
  intros Hn.
  assert (forallb (fun n => bool_decide (value (digit n) = Some n) &&
    negb (Ascii.eqb (digit n) "="%char) && (nat_of_ascii (digit n) <? 128)%nat &&
    Ascii.eqb (of_url (to_url (digit n))) (digit n) && negb (Ascii.eqb (to_url (digit n)) "="%char))
    (seq 0 64) = true) as Hall by (vm_compute; reflexivity).
  rewrite forallb_forall in Hall. specialize (Hall n (proj2 (in_seq 64 0 n) ltac:(lia))).
  bool_prop. split_and!; try done. by apply Ascii.eqb_eq.
Qed.

Lemma nat_of_ascii_lt c : (nat_of_ascii c < 256)%nat.
Proof. apply nat_ascii_bounded. Qed.

Lemma sextets a b c :
  let x := nat_of_ascii a in let y := nat_of_ascii b in let z := nat_of_ascii c in
  (x / 4 < 64 /\ x mod 4 * 16 + y / 16 < 64 /\ x mod 4 * 16 < 64 /\
   y mod 16 * 4 + z / 64 < 64 /\ y mod 16 * 4 < 64 /\ z mod 64 < 64)%nat.
Proof.
  intros x y z. pose proof (nat_of_ascii_lt a); pose proof (nat_of_ascii_lt b); pose proof (nat_of_ascii_lt c).
  fold x in H; fold y in H0; fold z in H1. clearbody x y z.
  pose proof (Nat.div_mod x 4); pose proof (Nat.mod_upper_bound x 4).
  pose proof (Nat.div_mod y 16); pose proof (Nat.mod_upper_bound y 16).
  pose proof (Nat.div_mod z 64); pose proof (Nat.mod_upper_bound z 64). lia.
Qed.

Lemma split_at b q r : (0 < b)%nat -> (r < b)%nat -> ((q * b + r) / b = q /\ (q * b + r) mod b = r)%nat.
Proof.
  intros Hb Hr. split.
  - rewrite Nat.div_add_l by lia. rewrite Nat.div_small by done. lia.
  - rewrite Nat.add_comm, Nat.Div0.mod_add. by apply Nat.mod_small.
Qed.

Lemma divmod_lt n b q : (0 < b)%nat -> (n < b * q)%nat ->
  (n / b < q /\ n mod b < b /\ n / b * b + n mod b = n)%nat.
Proof.
  intros Hb Hn. pose proof (Nat.div_mod n b ltac:(lia)). pose proof (Nat.mod_upper_bound n b ltac:(lia)).
  split_and!; [by apply Nat.Div0.div_lt_upper_bound | done | lia].
Qed.

Lemma rejoin a b c :
  let x := nat_of_ascii a in let y := nat_of_ascii b in let z := nat_of_ascii c in
  ascii_of_nat (x / 4 * 4 + (x mod 4 * 16 + y / 16) / 16) = a /\
  ascii_of_nat (x / 4 * 4 + x mod 4 * 16 / 16) = a /\
  ascii_of_nat ((x mod 4 * 16 + y / 16) mod 16 * 16 + (y mod 16 * 4 + z / 64) / 4) = b /\
  ascii_of_nat ((x mod 4 * 16 + y / 16) mod 16 * 16 + y mod 16 * 4 / 4) = b /\
  ascii_of_nat ((y mod 16 * 4 + z / 64) mod 4 * 64 + z mod 64) = c.
Proof.
  intros x y z.
  destruct (divmod_lt x 4 64 ltac:(lia) (nat_of_ascii_lt a)) as (? & ? & Ex).
  destruct (divmod_lt y 16 16 ltac:(lia) (nat_of_ascii_lt b)) as (? & ? & Ey).
  destruct (divmod_lt z 64 4 ltac:(lia) (nat_of_ascii_lt c)) as (? & ? & Ez).
  destruct (split_at 16 (x mod 4) (y / 16)) as [-> ->]; [lia..|].
  destruct (split_at 4 (y mod 16) (z / 64)) as [-> ->]; [lia..|].
  rewrite !Nat.div_mul by lia. rewrite Ex, Ey, Ez. subst x y z.
  by rewrite !ascii_nat_embedding.
Qed.

(** Induction on strings by threes. *)
Lemma string_ind3 (P : string -> Prop) :
  P "" -> (forall a, P (String a "")) -> (forall a b, P (String a (String b ""))) ->
  (forall a b c s, P s -> P (String a (String b (String c s)))) -> forall s, P s.
Proof.
  intros H0 H1 H2 H3. fix IH 1. intros [|a [|b [|c s]]]; [done|apply H1|apply H2|apply H3, IH].
Qed.

Lemma decode_go_digit quad carry pads n s : (n < 64)%nat ->
  decode_go quad carry pads (String (digit n) s) =
  match quad with
  | 0%nat => decode_go 1 n 0 s
  | 1%nat => String (ascii_of_nat (carry * 4 + n / 16)%nat) <$> decode_go 2 (n mod 16)%nat 0 s
  | 2%nat => String (ascii_of_nat (carry * 16 + n / 4)%nat) <$> decode_go 3 (n mod 4)%nat 0 s
  | _ => String (ascii_of_nat (carry * 64 + n)%nat) <$> decode_go 0 0 0 s
  end.
Proof. intros Hn. cbn [decode_go]. destruct (digit_value n Hn) as (-> & -> & _). done. Qed.

Lemma decode_go_encode s : decode_go 0 0 0 (encode s) = Some s.
Proof.
  induction s as [|a|a b|a b c s IH] using string_ind3; [done|..];
    cbn [encode]; cbv zeta.
  - destruct (sextets a a a) as (H1 & _ & H2 & _). destruct (rejoin a a a) as (_ & E & _).
    rewrite !decode_go_digit by done. rewrite E. done.
  - destruct (sextets a b b) as (H1 & H2 & _ & _ & H3 & _). destruct (rejoin a b b) as (E1 & _ & _ & E2 & _).
    rewrite !decode_go_digit by done. rewrite E1, E2. done.
  - destruct (sextets a b c) as (H1 & H2 & _ & H3 & _ & H4). destruct (rejoin a b c) as (E1 & _ & E2 & _ & E3).
    rewrite !decode_go_digit by done. by rewrite E1, E2, E3, IH.
Qed.

(** What the encoder writes: digits, then up to two signs of padding that bring
    the length to a multiple of four. *)
Definition digits (s : string) : Prop := Py.sforall (fun c => bool_decide (c ∈ digit <$> seq 0 64)) s = true.

Lemma digits_cons n s : (n < 64)%nat -> digits s -> digits (String (digit n) s).
Proof.
  unfold digits. intros Hn Hs. cbn [Py.sforall]. rewrite Hs, bool_decide_eq_true_2; [done|].
  apply list_elem_of_fmap. exists n. split; [done|]. apply elem_of_seq. lia.
Qed.

Lemma encode_shape s : exists body,
  encode s = body +:+ Py.repeat_str ((4 - String.length body mod 4) mod 4)%nat "="%char /\ digits body /\
  String.length body mod 4 <> 1%nat /\
  (4 * String.length s <= 3 * String.length body < 4 * String.length s + 3)%nat.
Proof.
  induction s as [|a|a b|a b c s (body & E & Hd & Hl & Hn)] using string_ind3; [exists ""; split_and!; cbn; done || lia|..];
    cbn [encode]; cbv zeta.
  - destruct (sextets a a a) as (H1 & _ & H2 & _).
    eexists (String _ (String _ "")). split_and!; [done| |done|cbn [String.length] in *; lia..]. by repeat apply digits_cons.
  - destruct (sextets a b b) as (H1 & H2 & _ & _ & H3 & _).
    eexists (String _ (String _ (String _ ""))). split_and!; [done| |done|cbn [String.length] in *; lia..]. by repeat apply digits_cons.
  - destruct (sextets a b c) as (H1 & H2 & _ & H3 & _ & H4).
    eexists (String _ (String _ (String _ (String _ body)))). cbn [String.length].
    assert (S (S (S (S (String.length body)))) mod 4 = String.length body mod 4)%nat as ->.
    { replace (S (S (S (S (String.length body))))) with (String.length body + 1 * 4)%nat by lia.
      apply Nat.Div0.mod_add. }
    rewrite E. split_and!; [done| |done|cbn [String.length] in *; lia..]. by repeat apply digits_cons.
Qed.

Lemma digits_inv c s : digits (String c s) -> exists n, (n < 64)%nat /\ c = digit n /\ digits s.
Proof.
  unfold digits. cbn [Py.sforall]. intros H. bool_prop.
  apply list_elem_of_fmap in H as (n & -> & Hn). apply elem_of_seq in Hn. exists n. split; [lia|done].
Qed.

Lemma smap_repeat f n c : Py.smap f (Py.repeat_str n c) = Py.repeat_str n (f c).
Proof. induction n as [|n IH]; cbn; by rewrite ?IH. Qed.

Lemma digits_url s : digits s -> Py.smap of_url (Py.smap to_url s) = s.
Proof.
  induction s as [|c s IH]; [done|]. intros (n & Hn & -> & Hd)%digits_inv. cbn [Py.smap].
  destruct (digit_value n Hn) as (_ & _ & _ & -> & _). by rewrite IH.
Qed.

Lemma srev_repeat n c : Py.srev (Py.repeat_str n c) = Py.repeat_str n c.
Proof.
  assert (forall m, Py.srev_app (Py.repeat_str n c) (Py.repeat_str m c) = Py.repeat_str (n + m) c) as H.
  { induction n as [|n IH]; intros m; [done|]. cbn [Py.repeat_str Py.srev_app].
    change (String c (Py.repeat_str m c)) with (Py.repeat_str (S m) c). rewrite IH. f_equal. lia. }
  unfold Py.srev. specialize (H 0%nat). cbn [Py.repeat_str] in H. rewrite H. f_equal. lia.
Qed.

Lemma lstrip_chars_repeat n c s : Py.lstrip_chars (String c "") (Py.repeat_str n c +:+ s) = Py.lstrip_chars (String c "") s.
Proof.
  induction n as [|n IH]; [done|]. cbn [Py.repeat_str]. rewrite Py.app_String. cbn [Py.lstrip_chars].
  unfold Py.has_char. cbn [Py.sforall]. rewrite Ascii.eqb_refl. cbn. apply IH.
Qed.

Lemma rstrip_pad_pads body n :
  (forall b c, body = b +:+ String c "" -> Ascii.eqb c "="%char = false) ->
  rstrip_pad (body +:+ Py.repeat_str n "="%char) = body.
Proof.
  intros Hlast. unfold rstrip_pad. rewrite Py.srev_app_distr, srev_repeat, lstrip_chars_repeat.
  destruct (Py.srev body) as [|c r] eqn:E; cbn [Py.lstrip_chars].
  - rewrite <- (Py.srev_srev body), E. done.
  - assert (body = Py.srev r +:+ String c "") as Hb.
    { rewrite <- (Py.srev_srev body), E. unfold Py.srev. cbn. apply Py.srev_app_acc. }
    unfold Py.has_char. cbn [Py.sforall].
    assert (Ascii.eqb "="%char c = false) as ->.
    { rewrite Ascii.eqb_sym. by eapply Hlast. }
    cbn [negb andb]. by rewrite Hb, <- Py.srev_app_acc.
Qed.

Lemma digits_last body b c :
  digits body -> Py.smap to_url body = b +:+ String c "" -> Ascii.eqb c "="%char = false.
Proof.
  revert b. induction body as [|a body IH]; intros b Hd E; [by destruct b|].
  apply digits_inv in Hd as (n & Hn & -> & Hd). cbn [Py.smap] in E.
  destruct b as [|a' b]; [|rewrite Py.app_String in E; injection E as _ E; by apply (IH b)].
  injection E as <- _. by destruct (digit_value n Hn) as (_ & _ & _ & _ & ?).
Qed.

Lemma digits_ascii body : digits body -> Py.is_ascii body = true.
Proof.
  unfold Py.is_ascii. induction body as [|c body IH]; [done|].
  intros (n & Hn & -> & Hd)%digits_inv. cbn [Py.sforall].
  destruct (digit_value n Hn) as (_ & _ & -> & _). by apply IH.
Qed.

Lemma b64url_body raw : exists body,
  encode raw = body +:+ Py.repeat_str ((4 - String.length body mod 4) mod 4)%nat "="%char /\
  digits body /\ b64url raw = Py.smap to_url body /\
  (4 * String.length raw <= 3 * String.length body < 4 * String.length raw + 3)%nat.
Proof.
  destruct (encode_shape raw) as (body & E & Hd & _ & Hn). exists body. split_and!; [done|done| |lia..].
  unfold b64url. rewrite E, Py.smap_app, smap_repeat. change (to_url "="%char) with "="%char.
  apply rstrip_pad_pads. intros; by eapply digits_last.
Qed.

(** The alphabet of the URL-safe spelling. *)
Definition url_char (c : ascii) : bool :=
  let n := nat_of_ascii c in
  ((48 <=? n)%nat && (n <=? 57)%nat) || ((65 <=? n)%nat && (n <=? 90)%nat) ||
  ((97 <=? n)%nat && (n <=? 122)%nat) || Ascii.eqb c "-"%char || Ascii.eqb c "_"%char.

Lemma b64url_chars raw : Py.sforall url_char (b64url raw) = true.
Proof.
  destruct (b64url_body raw) as (body & _ & Hd & -> & _). clear raw. induction body as [|c body IH]; [done|].
  apply digits_inv in Hd as (n & Hn & -> & Hd). cbn [Py.smap Py.sforall]. rewrite IH, andb_true_r by done.
  clear -Hn. do 64 (destruct n as [|n]; [done|]). lia.
Qed.

(** Four characters for three bytes, the last group unpadded. *)
Lemma b64url_length raw :
  (4 * String.length raw <= 3 * String.length (b64url raw) < 4 * String.length raw + 3)%nat.
Proof. destruct (b64url_body raw) as (body & _ & _ & -> & Hn). by rewrite Py.smap_length. Qed.

Lemma sforall_has_char f c s : Py.sforall f s = true -> f c = false -> Py.has_char c s = false.
Proof.
  intros Hs Hc. unfold Py.has_char. apply negb_false_iff. induction s as [|a s IH]; [done|]. cbn in Hs |- *. bool_prop.
  rewrite IH, andb_true_r by done. destruct (Ascii.eqb_spec a c); [subst; congruence|done].
Qed.

Lemma sforall_mono (f g : ascii -> bool) s :
  (forall c, f c = true -> g c = true) -> Py.sforall f s = true -> Py.sforall g s = true.
Proof. intros H. induction s as [|a s IH]; [done|]. cbn. intros Hs. bool_prop. by rewrite (H a), IH. Qed.

(** The unpadded URL-safe spelling is undone by its decoder, whatever the bytes. *)
Lemma b64url_roundtrip raw : b64url_decode (b64url raw) = Some raw.
Proof.
  destruct (b64url_body raw) as (body & E & Hd & -> & _).
  unfold b64url_decode, decode, pad. rewrite Py.smap_app, smap_repeat, digits_url, Py.smap_length by done.
  change (of_url "="%char) with "="%char. rewrite <- E.
  assert (Py.is_ascii (encode raw) = true) as ->; [|apply decode_go_encode].
  rewrite E. unfold Py.is_ascii. rewrite Py.sforall_app. fold (Py.is_ascii body).
  rewrite digits_ascii by done. cbn [andb]. generalize ((4 - String.length body mod 4) mod 4)%nat. by intros n; induction n.
Qed.

Lemma encode_ascii s : Py.is_ascii (encode s) = true.
Proof.
  destruct (encode_shape s) as (body & -> & Hd & _). unfold Py.is_ascii. rewrite Py.sforall_app.
  fold (Py.is_ascii body). rewrite digits_ascii by done. cbn [andb].
  generalize ((4 - String.length body mod 4) mod 4)%nat. by intros n; induction n.
Qed.
Lemma decode_encode_text s : decode (encode s) = Some s.
Proof. unfold decode. rewrite encode_ascii. apply decode_go_encode. Qed.

End Base64.
