(* ===== verification/Json.v ===== *)
(** * JSON documents

    The values [json.dumps] writes and [json.loads] returns.  A Python dict is
    an association list in insertion order; every dict the broker builds has
    distinct keys.  [JIso t] is the JSON string [t.isoformat()]: the text of a
    moment is kept as the moment, since [datetime.fromisoformat] undoes
    [isoformat].  A float is the decimal [m * 10^e] its literal denotes. *)

From S2P Require Import Prelude PyStr.

Inductive json : Type :=
| JNull
| JBool (b : bool)
| JInt (z : Z)
| JDec (m e : Z)
| JStr (s : string)
| JIso (t : moment)
| JArr (items : list json)
| JObj (members : list (string * json)).

Section json_induction.
Variable P : json -> Prop.
Hypothesis P_null : P JNull.
Hypothesis P_bool : forall b, P (JBool b).
Hypothesis P_int : forall z, P (JInt z).
Hypothesis P_dec : forall m e, P (JDec m e).
Hypothesis P_str : forall s, P (JStr s).
Hypothesis P_iso : forall t, P (JIso t).
Hypothesis P_arr : forall l, Forall P l -> P (JArr l).
Hypothesis P_obj : forall m, Forall (fun kv => P kv.2) m -> P (JObj m).

(** Induction through the arrays and objects, which the generated principle
    stops at. *)
Fixpoint json_deep_ind (j : json) : P j :=
  match j with
  | JNull => P_null
  | JBool b => P_bool b
  | JInt z => P_int z
  | JDec m e => P_dec m e
  | JStr s => P_str s
  | JIso t => P_iso t
  | JArr l =>
      P_arr l ((fix go (l : list json) : Forall P l :=
        match l with
        | [] => Forall_nil_2 P
        | x :: xs => Forall_cons_2 P x xs (json_deep_ind x) (go xs)
        end) l)
  | JObj m =>
      P_obj m ((fix go (m : list (string * json)) : Forall (fun kv => P kv.2) m :=
        match m with
        | [] => Forall_nil_2 _
        | kv :: kvs => Forall_cons_2 (fun kv => P kv.2) kv kvs (json_deep_ind kv.2) (go kvs)
        end) m)
  end.
End json_induction.

#[global] Instance json_eq_dec : EqDecision json.
Proof.
  refine (fix go (x y : json) : Decision (x = y) :=
    match x, y with
    | JNull, JNull => left _
    | JBool a, JBool b => cast_if (decide (a = b))
    | JInt a, JInt b => cast_if (decide (a = b))
    | JDec a b, JDec c d => cast_if_and (decide (a = c)) (decide (b = d))
    | JStr a, JStr b => cast_if (decide (a = b))
    | JIso a, JIso b => cast_if (decide (a = b))
    | JArr a, JArr b =>
        cast_if (@list_eq_dec _ go a b)
    | JObj a, JObj b =>
        cast_if (@list_eq_dec _ (fun p q => @prod_eq_dec _ _ _ go p q) a b)
    | _, _ => right _
    end); clear go; abstract congruence.
Defined.

Module Json.

(** [d.get(k)]. *)
Fixpoint lookup (m : list (string * json)) (k : string) : option json :=
  match m with
  | [] => None
  | (k', v) :: m' => if String.eqb k k' then Some v else lookup m' k
  end.

(** [k in d]. *)
Definition mem (m : list (string * json)) (k : string) : bool :=
  match lookup m k with Some _ => true | None => false end.

(** [d[k] = v]: an existing key keeps its place, a new one goes last. *)
Fixpoint insert (m : list (string * json)) (k : string) (v : json) : list (string * json) :=
  match m with
  | [] => [(k, v)]
  | (k', v') :: m' => if String.eqb k k' then (k, v) :: m' else (k', v') :: insert m' k v
  end.

(** [del d[k]]. *)
Fixpoint remove (m : list (string * json)) (k : string) : list (string * json) :=
  match m with
  | [] => []
  | (k', v') :: m' => if String.eqb k k' then m' else (k', v') :: remove m' k
  end.

(** [d.update(other)]. *)
Definition update (m other : list (string * json)) : list (string * json) :=
  fold_left (fun acc kv => insert acc kv.1 kv.2) other m.

(** Optional values as [json.dumps] writes them. *)
Definition of_opt (f : string -> json) (o : option string) : json :=
  match o with Some s => f s | None => JNull end.

Definition opt_str (j : json) : option string :=
  match j with JStr s => Some s | _ => None end.

Fixpoint strings (l : list json) : option (list string) :=
  match l with
  | [] => Some []
  | JStr s :: l' => ss ← strings l'; Some (s :: ss)
  | _ => None
  end.

(** [d.get(k)] with [None] for a missing key. *)
Definition get (m : list (string * json)) (k : string) : json := default JNull (lookup m k).

(** [bool(value)]. *)
Definition truthy (j : json) : bool :=
  match j with
  | JNull => false
  | JBool b => b
  | JInt z => negb (z =? 0)%Z
  | JDec m _ => negb (m =? 0)%Z
  | JStr s => negb (String.eqb s "")
  | JIso _ => true
  | JArr l => match l with [] => false | _ => true end
  | JObj m => match m with [] => false | _ => true end
  end.

(** ** Lemmas *)

Lemma strings_JStr (l : list string) : strings (JStr <$> l) = Some l.
Proof. induction l as [|s l IH]; [done|]. csimpl. by rewrite IH. Qed.

Lemma lookup_insert_eq m k v : lookup (insert m k v) k = Some v.
Proof.
  induction m as [|[k' v'] m IH]; simpl; [by rewrite String.eqb_refl|].
  destruct (String.eqb k k') eqn:E; simpl; [by rewrite String.eqb_refl | by rewrite E].
Qed.

Lemma lookup_insert_ne m k k' v : k <> k' -> lookup (insert m k v) k' = lookup m k'.
Proof.
  intros Hne. induction m as [|[k2 v2] m IH]; simpl.
  - destruct (String.eqb_spec k' k); congruence.
  - destruct (String.eqb_spec k k2); simpl; [|by rewrite IH].
    subst. destruct (String.eqb_spec k' k2); congruence.
Qed.

Lemma insert_keys m k v :
  (insert m k v).*1 = (if mem m k then m.*1 else m.*1 ++ [k]).
Proof.
  unfold mem. induction m as [|[k' v'] m IH]; csimpl; [done|].
  destruct (String.eqb_spec k k'); subst; csimpl; [done|].
  rewrite IH. by destruct (lookup m k).
Qed.

Lemma lookup_Some_elem m k v : lookup m k = Some v -> k ∈ m.*1.
Proof.
  induction m as [|[k' v'] m IH]; csimpl; [done|].
  destruct (String.eqb_spec k k'); subst; set_solver.
Qed.

Lemma lookup_None_not_elem m k : lookup m k = None -> k ∉ m.*1.
Proof.
  induction m as [|[k' v'] m IH]; csimpl; [set_solver|].
  destruct (String.eqb_spec k k'); subst; [done|set_solver].
Qed.

Lemma insert_NoDup m k v : NoDup m.*1 -> NoDup (insert m k v).*1.
Proof.
  intros H. rewrite insert_keys. unfold mem. destruct (lookup m k) eqn:E; [done|].
  apply list.NoDup_app. split; [done|]. split; [|apply NoDup_singleton].
  intros x Hx ->%list_elem_of_singleton. by apply lookup_None_not_elem in E.
Qed.

End Json.
