(* ===== verification/JsonText.v ===== *)
(** * The text of a JSON document

    [json.dumps(value, sort_keys=True, separators=(",", ":"), ensure_ascii=False)]
    and the fact the hash chain rests on: the text determines the document.  The
    text of a float and of a [datetime] are parameters; the documents the fact is
    about have neither. *)

From stdpp Require Import pretty.
From S2P Require Import Prelude PyStr Json Dict.

Module JsonText.

Definition dquote : ascii := Ascii.ascii_of_nat 34.
Definition backslash : ascii := Ascii.ascii_of_nat 92.

Definition hex_digit (n : nat) : ascii :=
  Ascii.ascii_of_nat (if (n <? 10)%nat then 48 + n else 87 + n).

(** One character of a string: the two-character escapes, [\u00XX] for the
    other control characters, and the character itself. *)
Definition esc_char (c : ascii) : string :=
  let n := Ascii.nat_of_ascii c in
  let short d := String backslash (String d "") in
  if Ascii.eqb c dquote then short dquote
  else if Ascii.eqb c backslash then short backslash
  else if (n =? 8)%nat then short "b"%char
  else if (n =? 9)%nat then short "t"%char
  else if (n =? 10)%nat then short "n"%char
  else if (n =? 12)%nat then short "f"%char
  else if (n =? 13)%nat then short "r"%char
  else if (n <? 32)%nat then
    String backslash (String "u" (String "0" (String "0"
      (String (hex_digit (n / 16)) (String (hex_digit (n mod 16)) "")))))
  else String c "".

Fixpoint esc (s : string) : string :=
  match s with
  | EmptyString => EmptyString
  | String c s' => esc_char c +:+ esc s'
  end.

(** [r] is what follows: a string is its escaped characters between quotes. *)
Definition quoted (s : string) : string := String dquote (esc s +:+ String dquote "").

Section dumps.
Context (float_repr : Z -> Z -> string) (isoformat : moment -> string).

(** An array is [\[x,y,...\]] and an object [{k:v,...}], in order. *)
Fixpoint dumps (j : json) : string :=
  match j with
  | JNull => "null"
  | JBool true => "true"
  | JBool false => "false"
  | JInt z => Py.str_of_Z z
  | JDec m e => float_repr m e
  | JStr s => quoted s
  | JIso t => quoted (isoformat t)
  | JArr l =>
      "[" +:+
      match l with
      | [] => "]"
      | x :: l' =>
          dumps x +:+ (fix tail (l : list json) : string :=
            match l with [] => "]" | y :: l2 => "," +:+ dumps y +:+ tail l2 end) l'
      end
  | JObj m =>
      "{" +:+
      match m with
      | [] => "}"
      | (k, v) :: m' =>
          quoted k +:+ ":" +:+ dumps v +:+ (fix tail (m : list (string * json)) : string :=
            match m with [] => "}" | (k2, v2) :: m2 => "," +:+ quoted k2 +:+ ":" +:+ dumps v2 +:+ tail m2 end) m'
      end
  end.

Definition tail_arr := fix tail (l : list json) : string :=
  match l with [] => "]" | y :: l2 => "," +:+ dumps y +:+ tail l2 end.
Definition tail_obj := fix tail (m : list (string * json)) : string :=
  match m with [] => "}" | (k2, v2) :: m2 => "," +:+ quoted k2 +:+ ":" +:+ dumps v2 +:+ tail m2 end.
End dumps.

(** Sorted keys, all the way down. *)
Definition by_key (kv1 kv2 : string * json) : bool := String.leb kv1.1 kv2.1.

(** No floats and no moments. *)
Fixpoint plain (j : json) : bool :=
  match j with
  | JDec _ _ | JIso _ => false
  | JArr l => forallb plain l
  | JObj m => forallb (fun kv => plain kv.2) m
  | _ => true
  end.

(** ** The text determines the document *)

(** The character an escaped string starts with, and the rest; nothing at the
    closing quote. *)
Definition hex_value (c : ascii) : nat :=
  let n := Ascii.nat_of_ascii c in if (n <? 58)%nat then n - 48 else n - 87.

Definition uncode (s : string) : option (ascii * string) :=
  match s with
  | String c r =>
      if Ascii.eqb c dquote then None
      else if Ascii.eqb c backslash then
        match r with
        | String d r' =>
            if Ascii.eqb d "u"%char then
              match r' with
              | String _ (String _ (String h (String l r''))) =>
                  Some (Ascii.ascii_of_nat (16 * hex_value h + hex_value l), r'')
              | _ => None
              end
            else
              let back n := Some (Ascii.ascii_of_nat n, r') in
              if Ascii.eqb d "b"%char then back 8%nat
              else if Ascii.eqb d "t"%char then back 9%nat
              else if Ascii.eqb d "n"%char then back 10%nat
              else if Ascii.eqb d "f"%char then back 12%nat
              else if Ascii.eqb d "r"%char then back 13%nat
              else Some (d, r')
        | EmptyString => None
        end
      else Some (c, r)
  | EmptyString => None
  end.

Lemma uncode_esc c r : uncode (esc_char c +:+ r) = Some (c, r).
Proof. by destruct c as [[] [] [] [] [] [] [] []]. Qed.

Lemma esc_inj s1 s2 r1 r2 :
  esc s1 +:+ String dquote r1 = esc s2 +:+ String dquote r2 -> s1 = s2 /\ r1 = r2.
Proof.
  revert s2. induction s1 as [|c1 s1 IH]; intros [|c2 s2] E; cbn [esc] in E; rewrite ?Py.app_nil_l, ?Py.app_assoc in E.
  - injection E as ->. done.
  - apply (f_equal uncode) in E. by rewrite uncode_esc in E.
  - apply (f_equal uncode) in E. by rewrite uncode_esc in E.
  - apply (f_equal uncode) in E. rewrite !uncode_esc in E. injection E as -> E.
    by destruct (IH _ E) as [-> ->].
Qed.

Lemma quoted_inj s1 s2 r1 r2 : quoted s1 +:+ r1 = quoted s2 +:+ r2 -> s1 = s2 /\ r1 = r2.
Proof.
  unfold quoted. rewrite !Py.app_String, !Py.app_assoc, !Py.app_String. intros E.
  injection E as E. rewrite ?Py.app_nil_l in E. by apply esc_inj.
Qed.

(** What may follow a value does not look like more of a number. *)
Definition is_digit (c : ascii) : bool :=
  let n := Ascii.nat_of_ascii c in (48 <=? n)%nat && (n <=? 57)%nat.
Definition delimited (r : string) : bool := match r with String c _ => negb (is_digit c) | EmptyString => true end.

Lemma digits_prefix s1 s2 r1 r2 :
  Py.sforall is_digit s1 = true -> Py.sforall is_digit s2 = true -> delimited r1 = true -> delimited r2 = true ->
  s1 +:+ r1 = s2 +:+ r2 -> s1 = s2 /\ r1 = r2.
Proof.
  revert s2. induction s1 as [|c1 s1 IH]; intros [|c2 s2] H1 H2 D1 D2 E; cbn in H1, H2; bool_prop.
  - done.
  - rewrite Py.app_nil_l, Py.app_String in E. subst r1. cbn in D1. by rewrite H in D1.
  - rewrite Py.app_nil_l, Py.app_String in E. subst r2. cbn in D2. by rewrite H in D2.
  - rewrite !Py.app_String in E. injection E as -> E. by destruct (IH _ ltac:(done) ltac:(done) D1 D2 E) as [-> ->].
Qed.

Lemma pretty_N_char_digit x : is_digit (pretty_N_char x) = true.
Proof. unfold pretty_N_char. by repeat case_match. Qed.

Lemma pretty_N_go_digits x s : Py.sforall is_digit s = true -> Py.sforall is_digit (pretty_N_go x s) = true.
Proof.
  revert s. induction (N.lt_wf_0 x) as [x _ IH]. intros s Hs.
  assert (x = 0 \/ 0 < x)%N as [->|Hx] by lia; [by rewrite pretty_N_go_0|].
  rewrite pretty_N_go_step by done. apply IH; [by apply N.div_lt|]. cbn. by rewrite pretty_N_char_digit.
Qed.

Lemma pretty_N_digits (x : N) : Py.sforall is_digit (pretty x) = true.
Proof. unfold pretty, pretty_N. case_decide; [done|]. by apply pretty_N_go_digits. Qed.

Lemma pretty_N_go_nonempty x s : s <> "" -> pretty_N_go x s <> "".
Proof.
  revert s. induction (N.lt_wf_0 x) as [x _ IH]. intros s Hs.
  assert (x = 0 \/ 0 < x)%N as [->|Hx] by lia; [by rewrite pretty_N_go_0|].
  rewrite pretty_N_go_step by done. apply IH; [by apply N.div_lt|done].
Qed.

Lemma pretty_N_nonempty (x : N) : pretty x <> "".
Proof.
  unfold pretty, pretty_N. case_decide; [done|]. rewrite pretty_N_go_step by lia. by apply pretty_N_go_nonempty.
Qed.

(** A number is a sign, if negative, and digits. *)
Lemma str_of_Z_shape z :
  Py.str_of_Z z = (if (z <? 0)%Z then "-" else "") +:+ pretty (Z.abs_N z).
Proof. by destruct z. Qed.

Lemma str_of_Z_first z r : exists c s, Py.str_of_Z z +:+ r = String c s /\ (is_digit c = true \/ c = "-"%char).
Proof.
  rewrite str_of_Z_shape. pose proof (pretty_N_digits (Z.abs_N z)) as H. pose proof (pretty_N_nonempty (Z.abs_N z)) as Hn.
  destruct (pretty (Z.abs_N z)) as [|c s]; [done|]. cbn in H. bool_prop.
  destruct (z <? 0)%Z; [by eexists _, _; split; [|right] | by eexists _, _; split; [|left]].
Qed.

Lemma str_of_Z_prefix z1 z2 r1 r2 :
  delimited r1 = true -> delimited r2 = true -> Py.str_of_Z z1 +:+ r1 = Py.str_of_Z z2 +:+ r2 -> z1 = z2 /\ r1 = r2.
Proof.
  intros D1 D2 E.
  assert (forall z r, (z <? 0)%Z = false -> exists c s, Py.str_of_Z z +:+ r = String c s /\ is_digit c = true) as Hpos.
  { intros z r Hz. rewrite str_of_Z_shape, Hz. pose proof (pretty_N_digits (Z.abs_N z)) as H.
    pose proof (pretty_N_nonempty (Z.abs_N z)) as Hn. destruct (pretty (Z.abs_N z)) as [|c s]; [done|].
    cbn in H. bool_prop. by eexists _, _. }
  assert (Py.str_of_Z z1 = Py.str_of_Z z2 /\ r1 = r2) as [Es ->]; [|split; [by apply (inj pretty) in Es | done]].
  destruct (z1 <? 0)%Z eqn:S1, (z2 <? 0)%Z eqn:S2.
  - rewrite (str_of_Z_shape z1), (str_of_Z_shape z2), S1, S2 in E |- *. rewrite !Py.app_assoc in E. injection E as E.
    apply (digits_prefix (pretty (Z.abs_N z1)) (pretty (Z.abs_N z2))) in E as [Ea Eb]; [by rewrite Ea, Eb|auto using pretty_N_digits..].
  - destruct (Hpos z2 r2 S2) as (c & s & E2 & Hc). rewrite E2, str_of_Z_shape, S1 in E. injection E as <- _. done.
  - destruct (Hpos z1 r1 S1) as (c & s & E2 & Hc). rewrite E2, str_of_Z_shape, S2 in E. injection E as -> _. done.
  - rewrite (str_of_Z_shape z1), (str_of_Z_shape z2), S1, S2 in E |- *. cbn [String.append] in E |- *.
    by apply (digits_prefix (pretty (Z.abs_N z1)) (pretty (Z.abs_N z2))) in E as [Ea Eb]; [|auto using pretty_N_digits..].
Qed.

Section inj.
Context (float_repr : Z -> Z -> string) (isoformat : moment -> string).

(** The first character tells the kind of value. *)
Definition starts (j : json) (c : ascii) : Prop :=
  match j with
  | JNull => c = "n"%char
  | JBool true => c = "t"%char
  | JBool false => c = "f"%char
  | JInt _ => is_digit c = true \/ c = "-"%char
  | JStr _ => c = dquote
  | JArr _ => c = "["%char
  | JObj _ => c = "{"%char
  | JDec _ _ | JIso _ => True
  end.

Lemma dumps_first j r :
  plain j = true -> exists c s, dumps float_repr isoformat j +:+ r = String c s /\ starts j c.
Proof.
  destruct j as [|[]|z| | | | |]; intros Hp; try done; try (by eexists _, _; split).
  apply str_of_Z_first.
Qed.

(** Values that start alike are of one kind. *)
Lemma starts_kind j1 j2 c :
  plain j1 = true -> plain j2 = true -> starts j1 c -> starts j2 c ->
  match j1, j2 with
  | JNull, JNull | JInt _, JInt _ | JStr _, JStr _ | JArr _, JArr _ | JObj _, JObj _ => True
  | JBool a, JBool b => a = b
  | _, _ => False
  end.
Proof.
  intros P1 P2 S1 S2.
  destruct j1 as [|[]|z1| | | | |], j2 as [|[]|z2| | | | |]; simpl in *; try done; subst; try done.
  all: by repeat match goal with H : _ \/ _ |- _ => destruct H end.
Qed.

Lemma tail_arr_delimited l r : delimited (tail_arr float_repr isoformat l +:+ r) = true.
Proof. by destruct l. Qed.
Lemma tail_obj_delimited m r : delimited (tail_obj float_repr isoformat m +:+ r) = true.
Proof. by destruct m as [|[]]. Qed.

Definition decodable (j1 : json) : Prop :=
  plain j1 = true -> forall j2 r1 r2, plain j2 = true -> delimited r1 = true -> delimited r2 = true ->
  dumps float_repr isoformat j1 +:+ r1 = dumps float_repr isoformat j2 +:+ r2 -> j1 = j2 /\ r1 = r2.

Lemma tail_arr_inj l1 : Forall decodable l1 -> forall l2 r1 r2,
  forallb plain l1 = true -> forallb plain l2 = true ->
  tail_arr float_repr isoformat l1 +:+ r1 = tail_arr float_repr isoformat l2 +:+ r2 -> l1 = l2 /\ r1 = r2.
Proof.
  induction 1 as [|x l1 Hx _ IH]; intros [|y l2] r1 r2 P1 P2 E; simpl in P1, P2; bool_prop; try done.
  - injection E as E. by split.
  - cbn [tail_arr] in E. injection E as E. fold (tail_arr float_repr isoformat) in E.
    rewrite ?Py.app_nil_l, !Py.app_assoc in E.
    apply Hx in E as [-> E]; [|done..|apply tail_arr_delimited|apply tail_arr_delimited].
    by apply IH in E as [-> ->].
Qed.

Lemma tail_obj_inj m1 : Forall (fun kv => decodable kv.2) m1 -> forall m2 r1 r2,
  forallb (fun kv => plain kv.2) m1 = true -> forallb (fun kv => plain kv.2) m2 = true ->
  tail_obj float_repr isoformat m1 +:+ r1 = tail_obj float_repr isoformat m2 +:+ r2 -> m1 = m2 /\ r1 = r2.
Proof.
  induction 1 as [|[k1 v1] m1 Hx _ IH]; intros [|[k2 v2] m2] r1 r2 P1 P2 E; simpl in P1, P2; bool_prop; try done.
  - injection E as E. by split.
  - cbn [tail_obj] in E. fold (tail_obj float_repr isoformat) in E.
    injection E as E. rewrite ?Py.app_nil_l, !Py.app_assoc in E. apply (esc_inj k1 k2) in E as [-> E].
    injection E as E. rewrite ?Py.app_nil_l in E.
    apply Hx in E as [E' E]; [|done..|apply tail_obj_delimited|apply tail_obj_delimited].
    apply IH in E as [-> ->]; [|done..]. simpl in E'. by subst.
Qed.

Lemma dumps_decodable j : decodable j.
Proof.
  induction j as [|b|z|m e|s|t|l IHl|m IHm] using json_deep_ind; intros P1 j2 r1 r2 P2 D1 D2 E.
  all: destruct (dumps_first _ r1 P1) as (c & s1 & F1 & S1), (dumps_first _ r2 P2) as (c2 & s2 & F2 & S2).
  all: assert (c2 = c) as -> by (rewrite F1, F2 in E; by injection E).
  all: pose proof (starts_kind _ _ _ P1 P2 S1 S2) as K; clear F1 F2 S1 S2.
  - destruct j2; try done. injection E as E. by split.
  - destruct j2; try done. subst. destruct b0; injection E as E; by split.
  - destruct j2; try done. cbn [dumps] in E. by apply str_of_Z_prefix in E as [-> ->].
  - done.
  - destruct j2; try done. cbn [dumps] in E. by apply quoted_inj in E as [-> ->].
  - done.
  - destruct j2 as [| | | | | |l2|]; try done. cbn [dumps] in E. injection E as E. cbn [plain] in P1, P2.
    rewrite ?Py.app_nil_l in E.
    destruct l as [|x l], l2 as [|y l2].
    + injection E as E. by split.
    + exfalso. simpl in P2. bool_prop. rewrite Py.app_assoc in E. destruct (dumps_first y (tail_arr float_repr isoformat l2 +:+ r2) H) as (c' & s' & F & S).
      unfold tail_arr in F. rewrite F in E. injection E as <- _. destruct y as [|[]| | | | | |]; simpl in S; naive_solver.
    + exfalso. simpl in P1. bool_prop. rewrite Py.app_assoc in E. destruct (dumps_first x (tail_arr float_repr isoformat l +:+ r1) H) as (c' & s' & F & S).
      unfold tail_arr in F. rewrite F in E. injection E as -> _. destruct x as [|[]| | | | | |]; simpl in S; naive_solver.
    + simpl in P1, P2. bool_prop. rewrite !Py.app_assoc in E. apply Forall_cons in IHl as [Hx Hl].
      apply Hx in E as [-> E]; [|done..|apply tail_arr_delimited|apply tail_arr_delimited].
      by apply (tail_arr_inj l Hl) in E as [-> ->].
  - destruct j2 as [| | | | | | |m2]; try done. cbn [dumps] in E. injection E as E. cbn [plain] in P1, P2.
    rewrite ?Py.app_nil_l in E.
    destruct m as [|[k1 v1] m], m2 as [|[k2 v2] m2]; try done.
    + injection E as E. by split.
    + simpl in P1, P2. bool_prop. rewrite !Py.app_assoc in E. apply quoted_inj in E as [-> E].
      injection E as E. rewrite ?Py.app_nil_l in E. apply Forall_cons in IHm as [Hx Hm].
      apply Hx in E as [E' E]; [|done..|apply tail_obj_delimited|apply tail_obj_delimited].
      apply (tail_obj_inj m Hm) in E as [-> ->]; [|done..]. simpl in E'. by subst.
Qed.

(** The text of a document without floats determines it. *)
Lemma dumps_inj j1 j2 :
  plain j1 = true -> plain j2 = true -> dumps float_repr isoformat j1 = dumps float_repr isoformat j2 -> j1 = j2.
Proof.
  intros P1 P2 E. apply (dumps_decodable j1 P1 j2 "" "" P2); [done|done|]. by rewrite E.
Qed.
End inj.

End JsonText.
