(* ===== verification/JsonLoads.v ===== *)
(** * Reading JSON

    [json.loads] of a byte string, and the compact [json.dumps] with its default
    [ensure_ascii=True], over the UTF-8 text of a [str].  The fact the token
    formats rest on is that reading undoes writing.

    A float literal is the decimal it denotes.  The literals [NaN] and
    [Infinity], the UTF-16 and UTF-32 documents [json.loads] also recognises, and
    nesting deep enough to exhaust Python's stack are outside the model. *)

From stdpp Require Import pretty.
From S2P Require Import Prelude PyStr Json Dict JsonText.

(** ** UTF-8 *)

Module Utf8.

Definition byte (a : ascii) : Z := Z.of_N (N_of_ascii a).
Definition chr (z : Z) : ascii := ascii_of_N (Z.to_N z).

Definition cont (a : ascii) : bool := (128 <=? byte a)%Z && (byte a <? 192)%Z.

(** The code points of a text; nothing where the bytes are not UTF-8.  Code
    points of surrogates pass, as they do for the [surrogatepass] handler. *)
Fixpoint decode (s : string) : option (list Z) :=
  match s with
  | EmptyString => Some []
  | String a s1 =>
      if (byte a <? 128)%Z then cons (byte a) <$> decode s1
      else
        match s1 with
        | EmptyString => None
        | String b s2 =>
            if (194 <=? byte a)%Z && (byte a <? 224)%Z then
              if cont b then cons ((byte a - 192) * 64 + (byte b - 128))%Z <$> decode s2 else None
            else
              match s2 with
              | EmptyString => None
              | String c s3 =>
                  if (224 <=? byte a)%Z && (byte a <? 240)%Z then
                    let cp := (((byte a - 224) * 64 + (byte b - 128)) * 64 + (byte c - 128))%Z in
                    if cont b && cont c && (2048 <=? cp)%Z then cons cp <$> decode s3 else None
                  else
                    match s3 with
                    | EmptyString => None
                    | String d s4 =>
                        let cp := ((((byte a - 240) * 64 + (byte b - 128)) * 64 + (byte c - 128)) * 64 + (byte d - 128))%Z in
                        if (240 <=? byte a)%Z && (byte a <? 245)%Z && cont b && cont c && cont d &&
                           (65536 <=? cp)%Z && (cp <? 1114112)%Z
                        then cons cp <$> decode s4 else None
                    end
              end
        end
  end.

Definition encode_cp (cp : Z) : string :=
  if (cp <? 128)%Z then String (chr cp) ""
  else if (cp <? 2048)%Z then String (chr (192 + cp / 64)) (String (chr (128 + cp mod 64)) "")
  else if (cp <? 65536)%Z then
    String (chr (224 + cp / 4096)) (String (chr (128 + cp / 64 mod 64)) (String (chr (128 + cp mod 64)) ""))
  else
    String (chr (240 + cp / 262144)) (String (chr (128 + cp / 4096 mod 64))
      (String (chr (128 + cp / 64 mod 64)) (String (chr (128 + cp mod 64)) ""))).

Fixpoint encode (l : list Z) : string :=
  match l with [] => "" | cp :: l' => encode_cp cp +:+ encode l' end.

Definition surrogate (cp : Z) : bool := (55296 <=? cp)%Z && (cp <? 57344)%Z.

(** The texts of a [str] without lone surrogates. *)
Definition valid (s : string) : bool :=
  match decode s with Some l => forallb (fun cp => negb (surrogate cp)) l | None => false end.

Lemma utf8_byte_range a : (0 <= byte a < 256)%Z.
Proof. unfold byte. pose proof (N_ascii_bounded a). lia. Qed.

Lemma chr_byte a z : z = byte a -> chr z = a.
Proof. intros ->. unfold chr, byte. rewrite N2Z.id. apply ascii_N_embedding. Qed.

Lemma sextet q r : (0 <= r < 64)%Z -> ((q * 64 + r) / 64 = q /\ (q * 64 + r) mod 64 = r)%Z.
Proof. intros H. split; [symmetry; apply (Z.div_unique_pos _ _ _ r); lia | symmetry; apply (Z.mod_unique_pos _ _ q); lia]. Qed.

Lemma decode_range s l : decode s = Some l -> Forall (fun cp => 0 <= cp < 1114112)%Z l /\ encode l = s.
Proof.
  revert s l. fix IH 1. intros s l.
  destruct s as [|a s1]; cbn [decode]; [intros [= <-]; by split|].
  pose proof (utf8_byte_range a) as Ra.
  destruct (Z.ltb_spec (byte a) 128) as [Ha|Ha].
  { destruct (decode s1) as [l1|] eqn:E; [|done]. intros [= <-]. destruct (IH _ _ E) as [IHr IHe].
    split; [constructor; [lia|done]|]. cbn [encode]. unfold encode_cp. destruct (Z.ltb_spec (byte a) 128); [|lia].
    cbn. by rewrite (chr_byte a), IHe. }
  destruct s1 as [|b s2]; [done|]. pose proof (utf8_byte_range b) as Rb.
  destruct (Z.leb_spec 194 (byte a)), (Z.ltb_spec (byte a) 224); cbn [andb].
  1: { destruct (cont b) eqn:Cb; [|done]. destruct (decode s2) as [l2|] eqn:E; [|done]. intros [= <-].
    destruct (IH _ _ E) as [IHr IHe]. unfold cont in Cb. bool_prop.
    destruct (sextet (byte a - 192) (byte b - 128) ltac:(lia)) as [D M].
    split; [constructor; [lia|done]|]. cbn [encode]. unfold encode_cp.
    destruct (Z.ltb_spec ((byte a - 192) * 64 + (byte b - 128)) 128); [lia|].
    destruct (Z.ltb_spec ((byte a - 192) * 64 + (byte b - 128)) 2048); [|lia].
    cbn. by rewrite D, M, (chr_byte a), (chr_byte b), IHe by lia. }
  all: destruct s2 as [|c s3]; [done|]; pose proof (utf8_byte_range c) as Rc.
  all: destruct (Z.leb_spec 224 (byte a)), (Z.ltb_spec (byte a) 240); cbn [andb]; try lia.
  2-3: destruct s3 as [|d s4]; [done|]; pose proof (utf8_byte_range d) as Rd.
  1: { destruct (cont b) eqn:Cb, (cont c) eqn:Cc; try done. cbn [andb]. unfold cont in Cb, Cc. bool_prop.
    destruct (Z.leb_spec 2048 (((byte a - 224) * 64 + (byte b - 128)) * 64 + (byte c - 128))); [|done].
    destruct (decode s3) as [l3|] eqn:E; [|done]. intros [= <-]. destruct (IH _ _ E) as [IHr IHe].
    set (cp := (((byte a - 224) * 64 + (byte b - 128)) * 64 + (byte c - 128))%Z) in *.
    destruct (sextet ((byte a - 224) * 64 + (byte b - 128)) (byte c - 128) ltac:(lia)) as [D1 M1]. fold cp in D1, M1.
    destruct (sextet (byte a - 224) (byte b - 128) ltac:(lia)) as [D2 M2].
    split; [constructor; [lia|done]|]. cbn [encode]. unfold encode_cp.
    destruct (Z.ltb_spec cp 128); [lia|]. destruct (Z.ltb_spec cp 2048); [lia|]. destruct (Z.ltb_spec cp 65536); [|lia].
    change 4096%Z with (64 * 64)%Z. rewrite <-Z.div_div, D1, D2, M1, M2 by lia. cbn.
    by rewrite (chr_byte a), (chr_byte b), (chr_byte c), IHe by lia. }
  all: destruct (Z.leb_spec 240 (byte a)), (Z.ltb_spec (byte a) 245); cbn [andb]; try done; try lia.
  all: destruct (cont b) eqn:Cb, (cont c) eqn:Cc, (cont d) eqn:Cd; try done; cbn [andb]; unfold cont in Cb, Cc, Cd; bool_prop.
  all: set (cp := ((((byte a - 240) * 64 + (byte b - 128)) * 64 + (byte c - 128)) * 64 + (byte d - 128))%Z) in *.
  all: destruct (Z.leb_spec 65536 cp), (Z.ltb_spec cp 1114112); try done; cbn [andb].
  all: destruct (decode s4) as [l4|] eqn:E; [|done]; intros [= <-]; destruct (IH _ _ E) as [IHr IHe].
  all: destruct (sextet (((byte a - 240) * 64 + (byte b - 128)) * 64 + (byte c - 128)) (byte d - 128) ltac:(lia)) as [D1 M1]; fold cp in D1, M1.
  all: destruct (sextet ((byte a - 240) * 64 + (byte b - 128)) (byte c - 128) ltac:(lia)) as [D2 M2].
  all: destruct (sextet (byte a - 240) (byte b - 128) ltac:(lia)) as [D3 M3].
  all: split; [constructor; [lia|done]|]; cbn [encode]; unfold encode_cp.
  all: destruct (Z.ltb_spec cp 128); [lia|]; destruct (Z.ltb_spec cp 2048); [lia|]; destruct (Z.ltb_spec cp 65536); [lia|].
  all: change 262144%Z with (64 * 64 * 64)%Z; change 4096%Z with (64 * 64)%Z; rewrite <-!Z.div_div, D1, D2, D3, M1, M2, M3 by lia; cbn.
  all: by rewrite (chr_byte a), (chr_byte b), (chr_byte c), (chr_byte d), IHe by lia.
Qed.

End Utf8.

Module JsonLoads.

(** ** Writing *)

Definition hex4 (n : Z) : string :=
  let d k := JsonText.hex_digit (Z.to_nat (n / k mod 16)) in
  String (d 4096%Z) (String (d 256%Z) (String (d 16%Z) (String (d 1%Z) ""))).

Definition u_escape (n : Z) : string := String JsonText.backslash (String "u"%char (hex4 n)).

(** One code point inside a string. *)
Definition esc_cp (cp : Z) : string :=
  if (cp <? 127)%Z && negb (cp <? 32)%Z then JsonText.esc_char (Utf8.chr cp)
  else if (cp <? 32)%Z then
    (if (cp =? 8)%Z || (cp =? 9)%Z || (cp =? 10)%Z || (cp =? 12)%Z || (cp =? 13)%Z
     then JsonText.esc_char (Utf8.chr cp) else u_escape cp)
  else if (cp <? 65536)%Z then u_escape cp
  else u_escape (55296 + (cp - 65536) / 1024) +:+ u_escape (56320 + (cp - 65536) mod 1024).

Fixpoint esc_cps (l : list Z) : string :=
  match l with [] => "" | cp :: l' => esc_cp cp +:+ esc_cps l' end.

Definition quoted (s : string) : string :=
  String JsonText.dquote (esc_cps (default [] (Utf8.decode s)) +:+ String JsonText.dquote "").

Section dumps.
Context (float_repr : Z -> Z -> string) (isoformat : moment -> string).

(** [json.dumps(j, separators=(",", ":"))]. *)
Fixpoint dumps (j : json) : string :=
  match j with
  | JNull => "null"
  | JBool true => "true"
  | JBool false => "false"
  | JInt z => Py.str_of_Z z
  | JDec m e => float_repr m e
  | JStr s => quoted s
  | JIso t => quoted (isoformat t)
  | JArr l => "[" +:+ Py.join "," (map dumps l) +:+ "]"
  | JObj m => "{" +:+ Py.join "," (map (fun kv => quoted kv.1 +:+ ":" +:+ dumps kv.2) m) +:+ "}"
  end.
End dumps.

(** ** Reading *)

Definition is_ws (c : ascii) : bool :=
  bool_decide (c ∈ [" "%char; ascii_of_nat 9; ascii_of_nat 10; ascii_of_nat 13]).

Fixpoint skip_ws (s : string) : string :=
  match s with String c r => if is_ws c then skip_ws r else s | EmptyString => s end.

(** Four hexadecimal digits and the rest. *)
Definition read_hex4 (s : string) : option (Z * string) :=
  match s with
  | String a (String b (String c (String d r))) =>
      match Hex.value a, Hex.value b, Hex.value c, Hex.value d with
      | Some ha, Some hb, Some hc, Some hd =>
          Some (((Z.of_nat ha * 16 + Z.of_nat hb) * 16 + Z.of_nat hc) * 16 + Z.of_nat hd, r)%Z
      | _, _, _, _ => None
      end
  | _ => None
  end.

(** What a string continues with: its closing quote, or some text. *)
Inductive piece : Type := Close (rest : string) | Chunk (text rest : string).

Definition after_u (r : string) : option piece :=
  match read_hex4 r with
  | None => None
  | Some (hi, r1) =>
      if (55296 <=? hi)%Z && (hi <? 56320)%Z then
        match r1 with
        | String e (String f r2) =>
            if Ascii.eqb e JsonText.backslash && Ascii.eqb f "u"%char then
              match read_hex4 r2 with
              | None => None
              | Some (lo, r3) =>
                  if (56320 <=? lo)%Z && (lo <? 57344)%Z
                  then Some (Chunk (Utf8.encode_cp (65536 + (hi - 55296) * 1024 + (lo - 56320))) r3)
                  else Some (Chunk (Utf8.encode_cp hi) r1)
              end
            else Some (Chunk (Utf8.encode_cp hi) r1)
        | _ => Some (Chunk (Utf8.encode_cp hi) r1)
        end
      else Some (Chunk (Utf8.encode_cp hi) r1)
  end.

Definition short_escape (d : ascii) : option ascii :=
  if Ascii.eqb d JsonText.dquote || Ascii.eqb d JsonText.backslash || Ascii.eqb d "/"%char then Some d
  else if Ascii.eqb d "b"%char then Some (ascii_of_nat 8)
  else if Ascii.eqb d "f"%char then Some (ascii_of_nat 12)
  else if Ascii.eqb d "n"%char then Some (ascii_of_nat 10)
  else if Ascii.eqb d "r"%char then Some (ascii_of_nat 13)
  else if Ascii.eqb d "t"%char then Some (ascii_of_nat 9)
  else None.

Definition piece_of (s : string) : option piece :=
  match s with
  | EmptyString => None
  | String c r =>
      if Ascii.eqb c JsonText.dquote then Some (Close r)
      else if Ascii.eqb c JsonText.backslash then
        match r with
        | EmptyString => None
        | String d r' =>
            if Ascii.eqb d "u"%char then after_u r'
            else match short_escape d with Some a => Some (Chunk (String a "") r') | None => None end
        end
      else if (nat_of_ascii c <? 32)%nat then None
      else Some (Chunk (String c "") r)
  end.

Fixpoint str_body (fuel : nat) (s : string) : option (string * string) :=
  match fuel with
  | O => None
  | S fuel' =>
      match piece_of s with
      | None => None
      | Some (Close r) => Some ("", r)
      | Some (Chunk t r) => '(k, r') ← str_body fuel' r; Some (t +:+ k, r')
      end
  end.

Fixpoint digits_of (s : string) : string * string :=
  match s with
  | String c r => if JsonText.is_digit c then let '(d, r') := digits_of r in (String c d, r') else ("", s)
  | EmptyString => ("", "")
  end.

Fixpoint value_of (acc : Z) (s : string) : Z :=
  match s with
  | EmptyString => acc
  | String c r => value_of (acc * 10 + (Utf8.byte c - 48))%Z r
  end.

(** The integer part of a literal, without leading zeros, its fraction and its
    exponent. *)
Definition int_part (s : string) : string * string :=
  match s with
  | String c r => if Ascii.eqb c "0"%char then ("0", r) else digits_of s
  | EmptyString => ("", "")
  end.

Definition frac_part (s : string) : option string * string :=
  match s with
  | String c r =>
      if Ascii.eqb c "."%char then
        let '(d, r') := digits_of r in if String.eqb d "" then (None, s) else (Some d, r')
      else (None, s)
  | EmptyString => (None, s)
  end.

Definition exp_part (s : string) : option Z * string :=
  match s with
  | String c r =>
      if Ascii.eqb c "e"%char || Ascii.eqb c "E"%char then
        let '(sign, r1) := match r with
          | String g r' => if Ascii.eqb g "-"%char then (-1, r')%Z else if Ascii.eqb g "+"%char then (1, r')%Z else (1, r)%Z
          | EmptyString => (1, r)%Z
          end in
        let '(d, r2) := digits_of r1 in
        if String.eqb d "" then (None, s) else (Some (sign * value_of 0 d)%Z, r2)
      else (None, s)
  | EmptyString => (None, s)
  end.

(** [int(digits)] refuses more than 4300 of them. *)
Definition MAX_STR_DIGITS : Z := 4300.

Definition number (s : string) : option (json * string) :=
  let '(sign, s0) := match s with
    | String c r => if Ascii.eqb c "-"%char then (-1, r)%Z else (1, s)%Z
    | EmptyString => (1, s)%Z
    end in
  let '(ip, r) := int_part s0 in
  if String.eqb ip "" then None
  else
    let '(fp, r1) := frac_part r in
    let '(ep, r2) := exp_part r1 in
    match fp, ep with
    | None, None =>
        if (MAX_STR_DIGITS <? Z.of_nat (String.length ip))%Z then None else Some (JInt (sign * value_of 0 ip), r2)
    | _, _ =>
        let f := default "" fp in
        Some (JDec (sign * value_of 0 (ip +:+ f)) (default 0 ep - Z.of_nat (String.length f))%Z, r2)
    end.

Definition word (w s : string) (j : json) : option (json * string) :=
  if Py.startswith s w then Some (j, Py.drop (String.length w) s) else None.

(** The value [s] starts with, and the rest. *)
Fixpoint value (fuel : nat) (s : string) : option (json * string) :=
  match fuel with
  | O => None
  | S fuel' =>
      match s with
      | EmptyString => None
      | String c r =>
          if Ascii.eqb c JsonText.dquote then '(k, r') ← str_body (S (String.length r)) r; Some (JStr k, r')
          else if Ascii.eqb c "{"%char then
            match skip_ws r with
            | String d r' =>
                if Ascii.eqb d "}"%char then Some (JObj [], r') else members fuel' [] (String d r')
            | EmptyString => None
            end
          else if Ascii.eqb c "["%char then
            match skip_ws r with
            | String d r' =>
                if Ascii.eqb d "]"%char then Some (JArr [], r') else items fuel' [] (String d r')
            | EmptyString => None
            end
          else if Ascii.eqb c "n"%char then word "null" s JNull
          else if Ascii.eqb c "t"%char then word "true" s (JBool true)
          else if Ascii.eqb c "f"%char then word "false" s (JBool false)
          else number s
      end
  end
with items (fuel : nat) (acc : list json) (s : string) : option (json * string) :=
  match fuel with
  | O => None
  | S fuel' =>
      '(j, r) ← value fuel' s;
      match skip_ws r with
      | String d r' =>
          if Ascii.eqb d "]"%char then Some (JArr (rev (j :: acc)), r')
          else if Ascii.eqb d ","%char then items fuel' (j :: acc) (skip_ws r')
          else None
      | EmptyString => None
      end
  end
with members (fuel : nat) (acc : list (string * json)) (s : string) : option (json * string) :=
  match fuel with
  | O => None
  | S fuel' =>
      match s with
      | String q r =>
          if negb (Ascii.eqb q JsonText.dquote) then None
          else
            '(k, r1) ← str_body (S (String.length r)) r;
            match skip_ws r1 with
            | String c r2 =>
                if negb (Ascii.eqb c ":"%char) then None
                else
                  '(j, r3) ← value fuel' (skip_ws r2);
                  match skip_ws r3 with
                  | String d r4 =>
                      if Ascii.eqb d "}"%char then Some (JObj (Json.insert acc k j), r4)
                      else if Ascii.eqb d ","%char then members fuel' (Json.insert acc k j) (skip_ws r4)
                      else None
                  | EmptyString => None
                  end
            | EmptyString => None
            end
      | EmptyString => None
      end
  end.

(** [json.loads]; nothing where it raises [ValueError]. *)
Definition loads_text (s : string) : option json :=
  '(j, r) ← value (2 * S (String.length s)) (skip_ws s);
  if String.eqb (skip_ws r) "" then Some j else None.

(** Of bytes: a byte order mark is dropped, and the rest must be UTF-8. *)
Definition BOM : string := String (ascii_of_nat 239) (String (ascii_of_nat 187) (String (ascii_of_nat 191) "")).

Definition loads (bytes : string) : option json :=
  let s := Py.removeprefix bytes BOM in
  match Utf8.decode s with Some _ => loads_text s | None => None end.

(** ** Strings *)

Lemma byte_chr z : (0 <= z < 256)%Z -> Utf8.byte (Utf8.chr z) = z.
Proof. intros H. unfold Utf8.byte, Utf8.chr. rewrite N_ascii_embedding; lia. Qed.

Definition plain_char (a : ascii) : bool :=
  ((32 <=? Utf8.byte a)%Z && (Utf8.byte a <? 127)%Z) ||
  bool_decide (Utf8.byte a ∈ [8; 9; 10; 12; 13]%Z).

Lemma piece_esc_char a r :
  plain_char a = true -> piece_of (JsonText.esc_char a +:+ r) = Some (Chunk (String a "") r).
Proof. by destruct a as [[] [] [] [] [] [] [] []]. Qed.

Lemma hex_digit_value k : (k < 16)%nat -> Hex.value (JsonText.hex_digit k) = Some k.
Proof. intros H. do 16 (destruct k as [|k]; [done|]). lia. Qed.

Lemma read_hex4_hex4 n r : (0 <= n < 65536)%Z -> read_hex4 (hex4 n +:+ r) = Some (n, r).
Proof.
  intros H. unfold hex4. rewrite !Py.app_String, Py.app_nil_l. cbn [read_hex4].
  assert (forall k, Hex.value (JsonText.hex_digit (Z.to_nat (k mod 16))) = Some (Z.to_nat (k mod 16))) as E.
  { intros k. apply hex_digit_value. pose proof (Z.mod_pos_bound k 16 ltac:(done)). lia. }
  rewrite !E. pose proof (fun k => Z.mod_pos_bound k 16 ltac:(done)) as B.
  rewrite !Z2Nat.id by apply B. do 2 f_equal.
  change 4096%Z with (16 * 16 * 16)%Z. change 256%Z with (16 * 16)%Z. rewrite <-!Z.div_div, Z.div_1_r by done.
  pose proof (Z.div_mod n 16 ltac:(done)). pose proof (Z.div_mod (n / 16) 16 ltac:(done)).
  pose proof (Z.div_mod (n / 16 / 16) 16 ltac:(done)). pose proof (Z.div_mod (n / 16 / 16 / 16) 16 ltac:(done)).
  pose proof (B n). pose proof (B (n / 16)%Z). pose proof (B (n / 16 / 16)%Z). pose proof (B (n / 16 / 16 / 16)%Z).
  assert (0 <= n / 16 / 16 / 16 < 16)%Z as Hq.
  { rewrite !Z.div_div by done. split; [apply Z.div_pos; lia | apply Z.div_lt_upper_bound; lia]. }
  rewrite (Z.mod_small (n / 16 / 16 / 16)) in * by done. lia.
Qed.

Lemma piece_esc_cp cp r :
  (0 <= cp < 1114112)%Z -> Utf8.surrogate cp = false ->
  piece_of (esc_cp cp +:+ r) = Some (Chunk (Utf8.encode_cp cp) r).
Proof.
  intros Hr Hs. unfold esc_cp.
  assert (forall n r', (0 <= n < 65536)%Z ->
    piece_of (u_escape n +:+ r') = after_u (hex4 n +:+ r')) as U by done.
  assert (cp < 128 -> Utf8.encode_cp cp = String (Utf8.chr cp) "")%Z as A.
  { intros H. unfold Utf8.encode_cp. by destruct (Z.ltb_spec cp 128); [|lia]. }
  assert (cp < 65536 -> piece_of (u_escape cp +:+ r) = Some (Chunk (Utf8.encode_cp cp) r))%Z as B.
  { intros H. rewrite U by lia. unfold after_u. rewrite read_hex4_hex4 by lia.
    unfold Utf8.surrogate in Hs. destruct (Z.leb_spec 55296 cp); [|done].
    destruct (Z.ltb_spec cp 57344), (Z.ltb_spec cp 56320); try done; lia. }
  destruct (Z.ltb_spec cp 127), (Z.ltb_spec cp 32); cbn [andb negb]; try lia.
  - destruct (_ || _) eqn:E; [|by apply B; lia]. rewrite A by lia. apply piece_esc_char. unfold plain_char.
    rewrite byte_chr by lia. apply orb_true_intro. right. apply bool_decide_eq_true. rewrite !orb_true_iff, !Z.eqb_eq in E. rewrite !elem_of_cons. tauto.
  - rewrite A by lia. apply piece_esc_char. unfold plain_char. rewrite byte_chr by lia.
    destruct (Z.leb_spec 32 cp), (Z.ltb_spec cp 127); done || lia.
  - destruct (Z.ltb_spec cp 65536); [by apply B|].
    pose proof (Z.div_mod (cp - 65536) 1024 ltac:(done)). pose proof (Z.mod_pos_bound (cp - 65536) 1024 ltac:(done)).
    assert (0 <= (cp - 65536) / 1024 < 1024)%Z by (split; [apply Z.div_pos; lia|apply Z.div_lt_upper_bound; lia]).
    rewrite Py.app_assoc, U by lia. unfold after_u. rewrite read_hex4_hex4 by lia.
    destruct (Z.leb_spec 55296 (55296 + (cp - 65536) / 1024)), (Z.ltb_spec (55296 + (cp - 65536) / 1024) 56320); try lia.
    cbn [andb]. unfold u_escape at 1. rewrite !Py.app_String. cbn [Ascii.eqb]. rewrite !Ascii.eqb_refl. cbn [andb].
    rewrite read_hex4_hex4 by lia.
    destruct (Z.leb_spec 56320 (56320 + (cp - 65536) mod 1024)), (Z.ltb_spec (56320 + (cp - 65536) mod 1024) 57344); try lia.
    cbn [andb]. do 3 f_equal. lia.
Qed.

Lemma esc_cp_nonempty cp : (1 <= String.length (esc_cp cp))%nat.
Proof.
  unfold esc_cp. repeat case_match; rewrite ?Py.length_app; unfold JsonText.esc_char; repeat case_match; cbn; lia.
Qed.

Lemma esc_cps_length l : (length l <= String.length (esc_cps l))%nat.
Proof.
  induction l as [|cp l IH]; [done|]. cbn [esc_cps length]. rewrite Py.length_app. pose proof (esc_cp_nonempty cp). lia.
Qed.

Lemma str_body_esc l r fuel :
  Forall (fun cp => 0 <= cp < 1114112)%Z l -> forallb (fun cp => negb (Utf8.surrogate cp)) l = true ->
  (length l < fuel)%nat ->
  str_body fuel (esc_cps l +:+ String JsonText.dquote r) = Some (Utf8.encode l, r).
Proof.
  intros Hr. revert fuel. induction Hr as [|cp l Hcp _ IH]; intros [|fuel] Hs Hf; try (cbn in Hf; lia); [done|].
  cbn in Hs. bool_prop. cbn [esc_cps str_body]. rewrite Py.app_assoc, piece_esc_cp by done.
  rewrite IH by (done || (cbn in Hf; lia)). done.
Qed.

Lemma read_quoted s r :
  Utf8.valid s = true ->
  exists body, quoted s +:+ r = String JsonText.dquote body /\ str_body (S (String.length body)) body = Some (s, r).
Proof.
  unfold Utf8.valid, quoted. destruct (Utf8.decode s) as [l|] eqn:E; [|done]. intros Hs.
  destruct (Utf8.decode_range _ _ E) as [Hr He]. cbn [default]. eexists. rewrite Py.app_String. split; [done|].
  rewrite Py.app_assoc. rewrite Py.app_String, Py.app_nil_l. change (id l) with l.
  rewrite str_body_esc; [by rewrite He|done..|]. rewrite Py.length_app. pose proof (esc_cps_length l). lia.
Qed.

(** ** Numbers *)

Definition number_ends (r : string) : bool :=
  match r with
  | String c _ => negb (JsonText.is_digit c || Ascii.eqb c "."%char || Ascii.eqb c "e"%char || Ascii.eqb c "E"%char)
  | EmptyString => true
  end.

Lemma digits_of_app s r :
  Py.sforall JsonText.is_digit s = true -> number_ends r = true -> digits_of (s +:+ r) = (s, r).
Proof.
  intros Hs Hr. induction s as [|c s IH]; cbn in Hs.
  - rewrite Py.app_nil_l. destruct r as [|c r]; [done|]. cbn in Hr |- *. bool_prop.
    destruct (JsonText.is_digit c); [done|]. done.
  - bool_prop. rewrite Py.app_String. cbn [digits_of]. rewrite H. by rewrite IH.
Qed.

Lemma pretty_char_value x : (x < 10)%N -> (Utf8.byte (pretty_N_char x) - 48)%Z = Z.of_N x.
Proof. intros H. assert (x = 0 \/ x = 1 \/ x = 2 \/ x = 3 \/ x = 4 \/ x = 5 \/ x = 6 \/ x = 7 \/ x = 8 \/ x = 9)%N by lia. naive_solver. Qed.

Lemma value_of_go x s : value_of 0 (pretty_N_go x s) = value_of (Z.of_N x) s.
Proof.
  revert s. induction (N.lt_wf_0 x) as [x _ IH]. intros s.
  assert (x = 0 \/ 0 < x)%N as [->|Hx] by lia; [by rewrite pretty_N_go_0|].
  rewrite pretty_N_go_step, IH by (done || by apply N.div_lt). cbn [value_of].
  pose proof (N.mod_lt x 10 ltac:(done)). rewrite pretty_char_value by done.
  pose proof (N.div_mod x 10 ltac:(done)). f_equal. lia.
Qed.

Lemma value_of_pretty (x : N) : value_of 0 (pretty x) = Z.of_N x.
Proof. unfold pretty, pretty_N. case_decide as E; [by subst|]. apply value_of_go. Qed.

Lemma go_first x s : (0 < x)%N -> exists c s', pretty_N_go x s = String c s' /\ c <> "0"%char.
Proof.
  revert s. induction (N.lt_wf_0 x) as [x _ IH]. intros s Hx. rewrite pretty_N_go_step by done.
  assert (x < 10 \/ 0 < x / 10)%N as [H|H].
  { destruct (N.ltb_spec x 10); [by left|right]. apply N.div_str_pos. lia. }
  - rewrite N.div_small, pretty_N_go_0, N.mod_small by done. eexists _, _. split; [done|].
    assert (x = 1 \/ x = 2 \/ x = 3 \/ x = 4 \/ x = 5 \/ x = 6 \/ x = 7 \/ x = 8 \/ x = 9)%N by lia. naive_solver.
  - apply IH; [by apply N.div_lt|done].
Qed.

Lemma int_part_pretty (x : N) r : number_ends r = true -> int_part (pretty x +:+ r) = (pretty x, r).
Proof.
  intros Hr. unfold int_part. destruct (decide (x = 0)%N) as [->|Hx]; [done|].
  pose proof (JsonText.pretty_N_digits x) as Hd.
  assert (exists c s', pretty x = String c s' /\ c <> "0"%char) as (c & s' & E & Hc).
  { unfold pretty, pretty_N. rewrite decide_False by done. apply go_first. lia. }
  rewrite E in Hd |- *. rewrite Py.app_String. destruct (Ascii.eqb_spec c "0"%char); [done|].
  rewrite <-Py.app_String. by apply digits_of_app.
Qed.

Definition short_number (z : Z) : bool := (Z.of_nat (String.length (pretty (Z.abs_N z))) <=? MAX_STR_DIGITS)%Z.

Lemma number_str z r : short_number z = true -> number_ends r = true -> number (Py.str_of_Z z +:+ r) = Some (JInt z, r).
Proof.
  intros Hz Hr. unfold number. rewrite JsonText.str_of_Z_shape.
  pose proof (JsonText.pretty_N_nonempty (Z.abs_N z)) as Hn. pose proof (JsonText.pretty_N_digits (Z.abs_N z)) as Hd.
  assert (forall sg : Z, (let '(ip, r0) := int_part (pretty (Z.abs_N z) +:+ r) in
    if String.eqb ip "" then None
    else let '(fp, r1) := frac_part r0 in let '(ep, r2) := exp_part r1 in
      match fp, ep with
      | None, None => if (MAX_STR_DIGITS <? Z.of_nat (String.length ip))%Z then None else Some (JInt (sg * value_of 0 ip), r2)
      | _, _ => let f := default "" fp in
          Some (JDec (sg * value_of 0 (ip +:+ f)) (default 0 ep - Z.of_nat (String.length f))%Z, r2)
      end) = Some (JInt (sg * Z.of_N (Z.abs_N z)), r)) as A.
  { intros sg. rewrite int_part_pretty by done. destruct (String.eqb_spec (pretty (Z.abs_N z)) ""); [done|].
    assert (frac_part r = (None, r)) as ->.
    { destruct r as [|c r]; [done|]. cbn in Hr |- *. bool_prop. destruct (Ascii.eqb c "."%char); done. }
    assert (exp_part r = (None, r)) as ->.
    { destruct r as [|c r]; [done|]. cbn in Hr |- *. bool_prop. destruct (Ascii.eqb c "e"%char), (Ascii.eqb c "E"%char); done. }
    unfold short_number in Hz. destruct (Z.ltb_spec MAX_STR_DIGITS (Z.of_nat (String.length (pretty (Z.abs_N z))))); [bool_prop; lia|].
    by rewrite value_of_pretty. }
  destruct (Z.ltb_spec z 0).
  - rewrite Py.app_assoc, Py.app_String, Py.app_nil_l. change (Ascii.eqb "-" "-") with true. cbv iota beta. rewrite A. do 3 f_equal. lia.
  - rewrite Py.app_nil_l. destruct (pretty (Z.abs_N z)) as [|c s] eqn:E; [done|]. rewrite Py.app_String.
    assert (Ascii.eqb c "-"%char = false) as ->.
    { cbn in Hd. bool_prop. destruct (Ascii.eqb_spec c "-"%char); [by subst|done]. }
    rewrite <-Py.app_String. rewrite A. do 3 f_equal. lia.
Qed.

(** ** Round trip *)

(** The documents whose text reads back: no floats and no moments, UTF-8 strings,
    distinct keys. *)
Fixpoint readable (j : json) : bool :=
  match j with
  | JNull | JBool _ => true
  | JInt z => short_number z
  | JDec _ _ | JIso _ => false
  | JStr s => Utf8.valid s
  | JArr l => forallb readable l
  | JObj m => bool_decide (NoDup m.*1) && forallb (fun kv => Utf8.valid kv.1 && readable kv.2) m
  end.

Section roundtrip.
Context (float_repr : Z -> Z -> string) (isoformat : moment -> string).

Abbreviation text := (dumps float_repr isoformat).

Definition starter (c : ascii) : bool :=
  negb (is_ws c || Ascii.eqb c "]"%char || Ascii.eqb c "}"%char).

(** A text starts with a character that is neither space nor a closing bracket. *)
Lemma text_first j : readable j = true -> exists c s, text j = String c s /\ starter c = true.
Proof.
  destruct j as [|[]|z| | | | |]; intros Hr; try done; try (by eexists _, _; split).
  cbn [dumps]. destruct (JsonText.str_of_Z_first z "") as (c & s & E & Hc). rewrite Py.app_nil_r in E.
  eexists _, _; split; [done|]. destruct Hc as [Hc| ->]; [|done].
  by destruct c as [[] [] [] [] [] [] [] []].
Qed.

Lemma skip_starter c s : starter c = true -> skip_ws (String c s) = String c s.
Proof. unfold starter. intros H. bool_prop. cbn. by rewrite H. Qed.

Lemma skip_text j r : readable j = true -> skip_ws (text j +:+ r) = text j +:+ r.
Proof.
  intros Hr. destruct (text_first j Hr) as (c & s & E & Hc). rewrite E, Py.app_String. by apply skip_starter.
Qed.

Definition reads (j : json) : Prop := readable j = true -> forall r fuel,
  number_ends r = true -> (2 * String.length (text j) <= fuel)%nat -> value fuel (text j +:+ r) = Some (j, r).

Lemma items_text l : Forall reads l -> l <> [] -> forall acc r fuel,
  forallb readable l = true -> (2 * String.length (Py.join "," (map text l)) + 1 <= fuel)%nat ->
  items fuel acc (Py.join "," (map text l) +:+ String "]" r) = Some (JArr (rev acc ++ l), r).
Proof.
  induction 1 as [|j l Hj Hl IH]; intros Hn acc r [|fuel] Hr Hf; try done; [cbn in Hf; lia|].
  cbn [forallb] in Hr. bool_prop. destruct l as [|j2 l].
  - cbn [map Py.join] in *. cbn [items]. rewrite Hj by (done || lia). cbn. done.
  - change (Py.join "," (map text (j :: j2 :: l))) with (text j +:+ "," +:+ Py.join "," (map text (j2 :: l))) in *.
    rewrite !Py.length_app in Hf. cbn [String.length] in Hf.
    rewrite !Py.app_assoc, Py.app_String, Py.app_nil_l. cbn [items]. rewrite Hj by (done || lia).
    cbn [mbind option_bind skip_ws is_ws].
    change (is_ws ",") with false. cbv iota. change (Ascii.eqb "," "]") with false. change (Ascii.eqb "," ",") with true. cbv iota.
    assert (exists t, Py.join "," (map text (j2 :: l)) = text j2 +:+ t) as [t Et].
    { destruct l; [exists ""; by rewrite Py.app_nil_r|by eexists]. }
    cbn [forallb] in H0. bool_prop. rewrite Et, Py.app_assoc, skip_text, <-Py.app_assoc, <-Et by done.
    rewrite IH by (done || lia || (cbn [forallb]; by rewrite H0, H1)).
    cbn [rev]. by rewrite <-app_assoc.
Qed.

Definition member (kv : string * json) : string := quoted kv.1 +:+ ":" +:+ text kv.2.

Lemma insert_new (acc : list (string * json)) k j : k ∉ acc.*1 -> Json.insert acc k j = acc ++ [(k, j)].
Proof.
  induction acc as [|[k' v'] acc IH]; intros Hk; [done|]. rewrite fmap_cons, not_elem_of_cons in Hk. cbn in *.
  destruct Hk as [Hne Hk]. destruct (String.eqb_spec k k'); [done|]. by rewrite IH.
Qed.

Lemma members_text m : Forall (fun kv => reads kv.2) m -> m <> [] -> forall acc r fuel,
  NoDup ((acc ++ m).*1) -> forallb (fun kv => Utf8.valid kv.1 && readable kv.2) m = true ->
  (2 * String.length (Py.join "," (map member m)) + 1 <= fuel)%nat ->
  members fuel acc (Py.join "," (map member m) +:+ String "}" r) = Some (JObj (acc ++ m), r).
Proof.
  induction 1 as [|[k j] m Hj Hm IH]; intros Hn acc r [|fuel] Hd Hr Hf; try done; [cbn in Hf; lia|].
  cbn [forallb fst snd] in Hr. apply andb_true_iff in Hr as [Hkj Hr]. apply andb_true_iff in Hkj as [Hk Hv]. cbn [snd] in Hj.
  assert (k ∉ acc.*1) as Hnew.
  { intros Hin. rewrite fmap_app, NoDup_app in Hd. destruct Hd as (_ & Hd & _). apply (Hd _ Hin). rewrite fmap_cons. left. }
  assert (forall rest, number_ends rest = true -> (2 * String.length (member (k, j)) <= fuel)%nat ->
    members (S fuel) acc (member (k, j) +:+ rest) =
      match skip_ws rest with
      | String d r4 =>
          if Ascii.eqb d "}"%char then Some (JObj (acc ++ [(k, j)]), r4)
          else if Ascii.eqb d ","%char then members fuel (acc ++ [(k, j)]) (skip_ws r4)
          else None
      | EmptyString => None
      end) as Step.
  { intros rest Hrest Hlen. unfold member in *. cbn [fst snd] in *. rewrite !Py.length_app in Hlen.
    rewrite !Py.app_assoc, Py.app_String, Py.app_nil_l.
    destruct (read_quoted k (String ":" (text j +:+ rest)) Hk) as (body & E & Hb). rewrite E. cbn [members].
    rewrite Ascii.eqb_refl. cbn [negb]. rewrite Hb. cbn [mbind option_bind skip_ws].
    change (is_ws ":") with false. cbv iota. change (Ascii.eqb ":" ":") with true. cbn [negb].
    rewrite skip_text, Hj by (done || lia). cbn [mbind option_bind]. by rewrite insert_new. }
  destruct m as [|[k2 j2] m].
  - cbn [map Py.join] in *. rewrite Step by (done || lia). done.
  - change (Py.join "," (map member ((k, j) :: (k2, j2) :: m))) with (member (k, j) +:+ "," +:+ Py.join "," (map member ((k2, j2) :: m))) in *.
    rewrite !Py.length_app in Hf. cbn [String.length] in Hf.
    rewrite !Py.app_assoc, Py.app_String, Py.app_nil_l, Step by (done || lia).
    cbn [skip_ws]. change (is_ws ",") with false. cbv iota. change (Ascii.eqb "," "}") with false. change (Ascii.eqb "," ",") with true. cbv iota.
    assert (exists t, Py.join "," (map member ((k2, j2) :: m)) = String JsonText.dquote t) as [t Et].
    { destruct m; cbn [map Py.join]; unfold member, quoted; cbn [fst]; rewrite ?Py.app_assoc, ?Py.app_String; eauto. }
    rewrite Et, Py.app_String, skip_starter, <-Py.app_String, <-Et by done.
    rewrite IH; [by rewrite <-app_assoc|done|by rewrite <-app_assoc|done|lia].
Qed.

Lemma word_app w r j : word w (w +:+ r) j = Some (j, r).
Proof. unfold word. by rewrite Py.startswith_app, Py.drop_app. Qed.

Lemma value_text j : reads j.
Proof.
  induction j as [|b|z|m e|s|t|l IHl|m IHm] using json_deep_ind; intros Hr r fuel He Hf.
  all: destruct (text_first _ Hr) as (c0 & s0 & E0 & _); destruct fuel as [|fuel]; [rewrite E0 in Hf; cbn in Hf; lia|clear c0 s0 E0].
  - apply (word_app "null").
  - destruct b; [apply (word_app "true")|apply (word_app "false")].
  - cbn [dumps readable] in *. destruct (JsonText.str_of_Z_first z r) as (c & s & E & Hc).
    pose proof (number_str z r Hr He) as N. rewrite E in N |- *. cbn [value].
    assert (Ascii.eqb c JsonText.dquote = false /\ Ascii.eqb c "{" = false /\ Ascii.eqb c "[" = false /\
            Ascii.eqb c "n" = false /\ Ascii.eqb c "t" = false /\ Ascii.eqb c "f" = false) as (-> & -> & -> & -> & -> & ->); [|done].
    destruct Hc as [Hc| ->]; [|done]. by destruct c as [[] [] [] [] [] [] [] []].
  - done.
  - cbn [dumps readable] in *. destruct (read_quoted s r Hr) as (body & -> & Hb). cbn [value]. rewrite Ascii.eqb_refl. by rewrite Hb.
  - done.
  - cbn [dumps readable] in *. rewrite !Py.length_app in Hf. cbn [String.length] in Hf.
    rewrite !Py.app_assoc, Py.app_String, Py.app_nil_l. cbn [value].
    change (Ascii.eqb "[" JsonText.dquote) with false. change (Ascii.eqb "[" "{") with false. change (Ascii.eqb "[" "[") with true. cbv iota.
    destruct l as [|j l]; [done|].
    assert (exists t, Py.join "," (map text (j :: l)) = text j +:+ t) as [t Et].
    { destruct l; [exists ""; by rewrite Py.app_nil_r|by eexists]. }
    pose proof Hr as Hr'. cbn [forallb] in Hr'. bool_prop.
    destruct (text_first j H) as (c & s & E & Hc). unfold starter in Hc. bool_prop.
    assert (skip_ws (Py.join "," (map text (j :: l)) +:+ "]" +:+ r) = String c (s +:+ t +:+ "]" +:+ r)) as ->.
    { rewrite Et, !Py.app_assoc, skip_text, E by done. done. }
    assert (Ascii.eqb c "]" = false) as -> by assumption. cbv iota. rewrite <-Py.app_String, <-E, <-Py.app_assoc, <-Et.
    change ("]" +:+ r) with (String "]" r). rewrite (items_text _ IHl ltac:(done) [] r fuel) by (done || lia). done.
  - cbn [dumps] in *. rewrite !Py.length_app in Hf. cbn [String.length] in Hf.
    rewrite !Py.app_assoc, Py.app_String, Py.app_nil_l. cbn [value].
    change (Ascii.eqb "{" JsonText.dquote) with false. change (Ascii.eqb "{" "{") with true. cbv iota.
    destruct m as [|[k j] m]; [done|].
    change (map _ ((k, j) :: m)) with (map member ((k, j) :: m)) in Hf |- *.
    assert (exists t, Py.join "," (map member ((k, j) :: m)) = String JsonText.dquote t) as [t Et].
    { destruct m; cbn [map Py.join]; unfold member, quoted; cbn [fst]; rewrite ?Py.app_assoc, ?Py.app_String; eauto. }
    rewrite Et, Py.app_String, skip_starter by done. change (Ascii.eqb JsonText.dquote "}") with false. cbv iota.
    rewrite <-Py.app_String, <-Et. cbn [readable] in Hr. apply andb_true_iff in Hr as [Hd Hr]. bool_prop.
    change ("}" +:+ r) with (String "}" r). rewrite (members_text _ IHm ltac:(done) [] r fuel) by (done || lia). done.
Qed.

(** [json.loads(json.dumps(j)) == j]. *)
Lemma loads_text_dumps j : readable j = true -> loads_text (text j) = Some j.
Proof.
  intros Hr. unfold loads_text. pose proof (skip_text j "" Hr) as E. rewrite Py.app_nil_r in E. rewrite E.
  pose proof (value_text j Hr "" (2 * S (String.length (text j))) eq_refl ltac:(lia)) as V. rewrite Py.app_nil_r in V.
  by rewrite V.
Qed.

End roundtrip.

(** The text is ASCII, so it reads back from its bytes too. *)
Lemma is_ascii_app a b : Py.is_ascii (a +:+ b) = Py.is_ascii a && Py.is_ascii b.
Proof. apply Py.sforall_app. Qed.

Lemma hex_digit_ascii n : (n < 16)%nat -> Py.is_ascii (String (JsonText.hex_digit n) "") = true.
Proof. intros H. do 16 (destruct n as [|n]; [done|]). lia. Qed.

Lemma u_escape_ascii n : Py.is_ascii (u_escape n) = true.
Proof.
  assert (forall k, Py.is_ascii (String (JsonText.hex_digit (Z.to_nat (k mod 16))) "") = true) as A.
  { intros k. apply hex_digit_ascii. pose proof (Z.mod_pos_bound k 16 ltac:(done)). lia. }
  unfold u_escape, hex4.
  change (Py.is_ascii (String JsonText.backslash (String "u" "") +:+ String (JsonText.hex_digit (Z.to_nat (n / 4096 mod 16))) "" +:+
    String (JsonText.hex_digit (Z.to_nat (n / 256 mod 16))) "" +:+ String (JsonText.hex_digit (Z.to_nat (n / 16 mod 16))) "" +:+
    String (JsonText.hex_digit (Z.to_nat (n / 1 mod 16))) "") = true).
  by rewrite !is_ascii_app, !A.
Qed.

Lemma esc_char_ascii cp : (0 <= cp < 128)%Z -> Py.is_ascii (JsonText.esc_char (Utf8.chr cp)) = true.
Proof.
  intros H. pose proof (byte_chr cp ltac:(lia)) as E.
  assert (forall a, (Utf8.byte a <? 128)%Z = true -> Py.is_ascii (JsonText.esc_char a) = true) as A
    by (by intros [[] [] [] [] [] [] [] []]).
  apply A. rewrite E. lia.
Qed.

Lemma esc_cps_ascii l : Forall (fun cp => 0 <= cp < 1114112)%Z l -> Py.is_ascii (esc_cps l) = true.
Proof.
  induction 1 as [|cp l Hcp _ IH]; [done|]. cbn [esc_cps]. rewrite is_ascii_app, IH, andb_true_r.
  unfold esc_cp. destruct (Z.ltb_spec cp 127), (Z.ltb_spec cp 32); cbn [andb negb]; try lia.
  - case_match; [apply esc_char_ascii; lia|apply u_escape_ascii].
  - apply esc_char_ascii. lia.
  - case_match; [apply u_escape_ascii|]. by rewrite is_ascii_app, !u_escape_ascii.
Qed.

Lemma quoted_ascii s : Utf8.valid s = true -> Py.is_ascii (quoted s) = true.
Proof.
  unfold Utf8.valid, quoted. destruct (Utf8.decode s) as [l|] eqn:E; [|done]. intros _. cbn [default]. change (id l) with l.
  destruct (Utf8.decode_range _ _ E) as [Hr _]. change (String JsonText.dquote (esc_cps l +:+ String JsonText.dquote ""))
    with (String JsonText.dquote "" +:+ esc_cps l +:+ String JsonText.dquote "").
  by rewrite !is_ascii_app, esc_cps_ascii.
Qed.

Lemma join_ascii sep (l : list string) :
  Py.is_ascii sep = true -> Forall (fun s => Py.is_ascii s = true) l -> Py.is_ascii (Py.join sep l) = true.
Proof.
  intros Hs. induction 1 as [|x l Hx Hl IH]; [done|]. destruct l as [|y l]; [done|].
  change (Py.join sep (x :: y :: l)) with (x +:+ sep +:+ Py.join sep (y :: l)). by rewrite !is_ascii_app, Hx, Hs, IH.
Qed.

Lemma digits_are_ascii s : Py.sforall JsonText.is_digit s = true -> Py.is_ascii s = true.
Proof.
  induction s as [|c s IH]; [done|]. intros H. cbn in H. bool_prop.
  change (Py.is_ascii (String c "" +:+ s) = true). rewrite is_ascii_app, IH by done.
  by destruct c as [[] [] [] [] [] [] [] []].
Qed.

Lemma text_ascii fr iso j : readable j = true -> Py.is_ascii (dumps fr iso j) = true.
Proof.
  induction j as [|[]|z|m e|s|t|l IHl|m IHm] using json_deep_ind; intros Hr; try done; cbn [dumps readable] in *.
  - rewrite JsonText.str_of_Z_shape, is_ascii_app, (digits_are_ascii (pretty _)) by apply JsonText.pretty_N_digits. by case_match.
  - by apply quoted_ascii.
  - rewrite !is_ascii_app, join_ascii; [done|done|]. pose proof (proj1 (List.forallb_forall _ _) Hr) as Hall. apply Forall_map.
    rewrite Forall_forall in *. intros x Hx. apply IHl, Hall, list_elem_of_In; done.
  - rewrite !is_ascii_app, join_ascii; [done|done|]. apply andb_true_iff in Hr as [_ Hr]. pose proof (proj1 (List.forallb_forall _ _) Hr) as Hall. apply Forall_map.
    rewrite Forall_forall in *. intros x Hx. specialize (Hall x (proj1 (list_elem_of_In _ _) Hx)). apply andb_true_iff in Hall as [Hk Hv].
    rewrite !is_ascii_app, quoted_ascii by done. by rewrite (IHm x Hx).
Qed.

Lemma ascii_decodes s : Py.is_ascii s = true -> exists l, Utf8.decode s = Some l.
Proof.
  induction s as [|a s IH]; [by eexists|]. intros H. unfold Py.is_ascii in H. cbn in H. bool_prop.
  destruct IH as [l E]; [done|]. cbn. rewrite E.
  assert ((Utf8.byte a <? 128)%Z = true) as -> by (unfold Utf8.byte; by destruct a as [[] [] [] [] [] [] [] []]). by eexists.
Qed.

Lemma loads_dumps fr iso j : readable j = true -> loads (dumps fr iso j) = Some j.
Proof.
  intros Hr. pose proof (text_ascii fr iso j Hr) as Ha. unfold loads.
  assert (Py.removeprefix (dumps fr iso j) BOM = dumps fr iso j) as ->.
  { unfold Py.removeprefix. destruct (Py.startswith (dumps fr iso j) BOM) eqn:E; [|done].
    apply Py.startswith_spec in E as [r E]. rewrite E in Ha. by rewrite is_ascii_app in Ha. }
  destruct (ascii_decodes _ Ha) as [l ->]. by apply loads_text_dumps.
Qed.

End JsonLoads.
