(* ===== verification/Errors.v ===== *)
(** * The broker's refusals

    [campusid/errors.py] and [campusid/oidc/errors.py]: the registry of internal
    reason codes, the OAuth error vocabulary, and the exceptions the
    Redis-backed components raise.  The operator-facing [detail] strings are not
    modelled. *)

From S2P Require Import Prelude.

Inductive ReasonCode : Type :=
| PAYLOAD_TOO_LARGE | MALFORMED_RESPONSE | XML_HARDENING_VIOLATION | DUPLICATE_ELEMENT_ID
| SIGNATURE_WRAPPING_DETECTED
| IDP_ERROR_STATUS | UNKNOWN_ISSUER | ISSUER_MISMATCH
| SIGNATURE_MISSING | SIGNATURE_INVALID | WEAK_ALGORITHM
| DECRYPTION_FAILED | UNSUPPORTED_ENCRYPTION_ALGORITHM
| DESTINATION_MISMATCH | UNKNOWN_INRESPONSETO | UNSOLICITED_RESPONSE
| REQUEST_BINDING_INVALID | SUBJECT_CONFIRMATION_INVALID
| AUDIENCE_MISMATCH | ASSERTION_NOT_YET_VALID | ASSERTION_EXPIRED
| UNSUPPORTED_CONDITION | MISSING_AUTHN_STATEMENT
| REPLAY_DETECTED
| METADATA_INVALID | METADATA_EXPIRED
| INVALID_RETURN_URL
| IDENTITY_REVIEW_REQUIRED | IDENTITY_SUSPENDED
| UNKNOWN_CLIENT | REDIRECT_URI_MISMATCH | CLIENT_AUTHENTICATION_FAILED
| SCOPE_NOT_PERMITTED | PKCE_REQUIRED | PKCE_METHOD_UNSUPPORTED
| PKCE_VERIFICATION_FAILED | GRANT_INVALID | GRANT_REVOKED | GRANT_REUSE_DETECTED.

#[global] Instance ReasonCode_eq_dec : EqDecision ReasonCode.
Proof. solve_decision. Defined.

(** [reason.value]. *)
Definition reason_text (r : ReasonCode) : string :=
  match r with
  | PAYLOAD_TOO_LARGE => "payload_too_large"
  | MALFORMED_RESPONSE => "malformed_response"
  | XML_HARDENING_VIOLATION => "xml_hardening_violation"
  | DUPLICATE_ELEMENT_ID => "duplicate_element_id"
  | SIGNATURE_WRAPPING_DETECTED => "signature_wrapping_detected"
  | IDP_ERROR_STATUS => "idp_error_status"
  | UNKNOWN_ISSUER => "unknown_issuer"
  | ISSUER_MISMATCH => "issuer_mismatch"
  | SIGNATURE_MISSING => "signature_missing"
  | SIGNATURE_INVALID => "signature_invalid"
  | WEAK_ALGORITHM => "weak_algorithm"
  | DECRYPTION_FAILED => "decryption_failed"
  | UNSUPPORTED_ENCRYPTION_ALGORITHM => "unsupported_encryption_algorithm"
  | DESTINATION_MISMATCH => "destination_mismatch"
  | UNKNOWN_INRESPONSETO => "unknown_inresponseto"
  | UNSOLICITED_RESPONSE => "unsolicited_response"
  | REQUEST_BINDING_INVALID => "request_binding_invalid"
  | SUBJECT_CONFIRMATION_INVALID => "subject_confirmation_invalid"
  | AUDIENCE_MISMATCH => "audience_mismatch"
  | ASSERTION_NOT_YET_VALID => "assertion_not_yet_valid"
  | ASSERTION_EXPIRED => "assertion_expired"
  | UNSUPPORTED_CONDITION => "unsupported_condition"
  | MISSING_AUTHN_STATEMENT => "missing_authn_statement"
  | REPLAY_DETECTED => "replay_detected"
  | METADATA_INVALID => "metadata_invalid"
  | METADATA_EXPIRED => "metadata_expired"
  | INVALID_RETURN_URL => "invalid_return_url"
  | IDENTITY_REVIEW_REQUIRED => "identity_review_required"
  | IDENTITY_SUSPENDED => "identity_suspended"
  | UNKNOWN_CLIENT => "unknown_client"
  | REDIRECT_URI_MISMATCH => "redirect_uri_mismatch"
  | CLIENT_AUTHENTICATION_FAILED => "client_authentication_failed"
  | SCOPE_NOT_PERMITTED => "scope_not_permitted"
  | PKCE_REQUIRED => "pkce_required"
  | PKCE_METHOD_UNSUPPORTED => "pkce_method_unsupported"
  | PKCE_VERIFICATION_FAILED => "pkce_verification_failed"
  | GRANT_INVALID => "grant_invalid"
  | GRANT_REVOKED => "grant_revoked"
  | GRANT_REUSE_DETECTED => "grant_reuse_detected"
  end.

Definition INVALID_REQUEST := "invalid_request".
Definition INVALID_CLIENT := "invalid_client".
Definition INVALID_GRANT := "invalid_grant".
Definition INVALID_SCOPE := "invalid_scope".
Definition UNAUTHORIZED_CLIENT := "unauthorized_client".
Definition UNSUPPORTED_GRANT_TYPE := "unsupported_grant_type".
Definition UNSUPPORTED_RESPONSE_TYPE := "unsupported_response_type".

(** What an operation can raise. [GrantReuse] subclasses [OAuthError];
    [ResponseError] is redis-py's exception for a command the server refused and
    [ConnectionError] the one for a server that did not answer. *)
Inductive exn : Type :=
| OAuthError (error : string) (reason : ReasonCode)
| GrantReuse (error : string) (reason : ReasonCode)
| SamlRejected (reason : ReasonCode)
| BrokerError (reason : ReasonCode)
| MetadataRejected (reason : ReasonCode)
| RateLimited (reason : string) (retry_after : Z)
| Throttled (reason bucket : string) (retry_after : Z)
| ValueError
| OverflowError
| TypeError
| KeyError
| AssertionError
| AttributeError
| IntegrityError
| UnicodeEncodeError
| UnicodeDecodeError
| ResponseError
| ConnectionError
| RetriesExhausted
(** What a downstream system raises. *)
| DownstreamError.

#[global] Instance exn_eq_dec : EqDecision exn.
Proof. solve_decision. Defined.

(** [except BrokerError as exc]: the reason of the exceptions that class covers. *)
Definition broker_reason (e : exn) : option ReasonCode :=
  match e with
  | OAuthError _ r | GrantReuse _ r | SamlRejected r | BrokerError r | MetadataRejected r => Some r
  | _ => None
  end.

(** [except OAuthError as exc]. *)
Definition oauth_error (e : exn) : option (string * ReasonCode) :=
  match e with OAuthError error r | GrantReuse error r => Some (error, r) | _ => None end.

(** [NEVER_REDIRECTED] and [may_be_redirected]. *)
Definition NEVER_REDIRECTED : list ReasonCode := [UNKNOWN_CLIENT; REDIRECT_URI_MISMATCH].

Definition may_be_redirected (reason : ReasonCode) : bool :=
  negb (bool_decide (reason ∈ NEVER_REDIRECTED)).
