(* ===== verification/IsoTime.v ===== *)
(** * Python's [datetime]

    An aware [datetime] with its arithmetic, which raises outside the years 1
    to 9999, and [datetime.fromisoformat] as CPython 3.12 implements it: the
    calendar, the compact and the week spelling of the date, any separator,
    hours to microseconds, [Z] or an offset. *)

From S2P Require Import Prelude PyStr Errors.

Module IsoTime.

(** The wall-clock reading in microseconds since 1970-01-01T00:00 of its own
    zone, and the offset of that zone, absent for a naive value. *)
Record datetime : Type := Datetime { dt_local : Z; dt_offset : option Z }.

Definition instant (d : datetime) : moment :=
  (dt_local d - match dt_offset d with Some o => o | None => 0 end)%Z.

Definition DAY : Z := 86400 * SECOND.

(** 0001-01-01 and 9999-12-31 in days since 1970-01-01. *)
Definition MIN_DAY : Z := -719162.
Definition MAX_DAY : Z := 2932896.

Definition in_range (local : Z) : bool :=
  (MIN_DAY * DAY <=? local)%Z && (local <? (MAX_DAY + 1) * DAY)%Z.

(** [dt + td]. *)
Definition plus (d : datetime) (td : duration) : result exn datetime :=
  if in_range (dt_local d + td) then Ok (Datetime (dt_local d + td) (dt_offset d))
  else Err OverflowError.

(** ** Calendar *)

Definition days_from_civil (y m d : Z) : Z :=
  let y' := if (m <=? 2)%Z then (y - 1)%Z else y in
  let era := (y' / 400)%Z in
  let yoe := (y' - era * 400)%Z in
  let mp := ((m + 9) mod 12)%Z in
  let doy := ((153 * mp + 2) / 5 + d - 1)%Z in
  (era * 146097 + (yoe * 365 + yoe / 4 - yoe / 100 + doy) - 719468)%Z.

Definition is_leap (y : Z) : bool :=
  ((y mod 4 =? 0) && (negb (y mod 100 =? 0) || (y mod 400 =? 0)))%Z.

Definition days_in_month (y m : Z) : Z :=
  if (m =? 2)%Z then (if is_leap y then 29 else 28)%Z
  else if (m =? 4)%Z || (m =? 6)%Z || (m =? 9)%Z || (m =? 11)%Z then 30%Z else 31%Z.

(** Monday is 0. *)
Definition weekday (days : Z) : Z := ((days + 3) mod 7)%Z.

Definition civil_date (y m d : Z) : option Z :=
  if (1 <=? y)%Z && (y <=? 9999)%Z && (1 <=? m)%Z && (m <=? 12)%Z && (1 <=? d)%Z &&
     (d <=? days_in_month y m)%Z
  then Some (days_from_civil y m d) else None.

Definition iso_week1_monday (y : Z) : Z :=
  let first := days_from_civil y 1 1 in
  let w := weekday first in
  let monday := (first - w)%Z in
  if (3 <? w)%Z then (monday + 7)%Z else monday.

Definition week_date (y w d : Z) : option Z :=
  let first := weekday (days_from_civil y 1 1) in
  let weeks_ok := ((0 <? w)%Z && (w <? 53)%Z) ||
    ((w =? 53)%Z && ((first =? 3)%Z || ((first =? 2)%Z && is_leap y))) in
  if (1 <=? y)%Z && weeks_ok && (0 <? d)%Z && (d <? 8)%Z then
    let days := (iso_week1_monday y + (w - 1) * 7 + d - 1)%Z in
    if (MIN_DAY <=? days)%Z && (days <=? MAX_DAY)%Z then Some days else None
  else None.

(** ** Reading *)

Definition is_digit (c : ascii) : bool :=
  let n := nat_of_ascii c in (48 <=? n)%nat && (n <=? 57)%nat.

Fixpoint parse_digits (n : nat) (acc : Z) (s : string) : option (Z * string) :=
  match n, s with
  | O, _ => Some (acc, s)
  | S n', String c s' =>
      if is_digit c then parse_digits n' (acc * 10 + (Z.of_nat (nat_of_ascii c) - 48))%Z s' else None
  | S _, EmptyString => None
  end.

Definition char_at (n : nat) (s : string) (c : ascii) : bool :=
  match String.get n s with Some a => Ascii.eqb a c | None => false end.
Definition digit_at (n : nat) (s : string) : bool :=
  match String.get n s with Some a => is_digit a | None => false end.

Definition parse_date (s : string) : option Z :=
  match parse_digits 4 0 s with
  | None => None
  | Some (y, s) =>
      let sep := char_at 0 s "-" in
      let s := if sep then Py.drop 1 s else s in
      if char_at 0 s "W" then
        match parse_digits 2 0 (Py.drop 1 s) with
        | None => None
        | Some (w, EmptyString) => week_date y w 1
        | Some (w, s) =>
            if sep && negb (char_at 0 s "-") then None
            else match parse_digits 1 0 (if sep then Py.drop 1 s else s) with
                 | Some (d, _) => week_date y w d
                 | None => None
                 end
        end
      else
        match parse_digits 2 0 s with
        | None => None
        | Some (m, s) =>
            if sep && negb (char_at 0 s "-") then None
            else match parse_digits 2 0 (if sep then Py.drop 1 s else s) with
                 | Some (d, EmptyString) => civil_date y m d
                 | _ => None
                 end
        end
  end.

Fixpoint digit_run (s : string) : nat :=
  match s with
  | String c s' => if is_digit c then S (digit_run s') else O
  | EmptyString => O
  end.

(** Where the date ends. *)
Definition separator (s : string) : option nat :=
  let len := String.length s in
  if Nat.eqb len 7 then Some 7%nat
  else if char_at 4 s "-" then
    if char_at 5 s "W" then
      if (len <? 8)%nat then None
      else if (8 <? len)%nat && char_at 8 s "-" then
        if Nat.eqb len 9 then None
        else if (10 <? len)%nat && digit_at 10 s then Some 8%nat else Some 10%nat
      else Some 8%nat
    else Some 10%nat
  else if char_at 4 s "W" then
    let pos := (7 + digit_run (Py.drop 7 s))%nat in
    if (pos <? 9)%nat then Some pos else if Nat.even pos then Some 7%nat else Some 8%nat
  else Some 8%nat.

(** The digits of a fraction that count, the first six. *)
Definition fraction (seg : string) (zone : bool) : option (Z * bool) :=
  let n := Nat.min 6 (String.length seg) in
  match parse_digits n 0 seg with
  | None => None
  | Some (v, s) =>
      Some ((v * 10 ^ (6 - Z.of_nat n))%Z,
            zone || negb (Nat.eqb (digit_run s) (String.length s)))
  end.

(** [hh[:mm[:ss[.ffffff]]]] in [seg], which a zone follows or nothing: the
    fields read, the microseconds, and whether something was left. *)
Fixpoint clock_fields (n : nat) (first sep zone : bool) (acc : list Z) (seg : string)
  : option (list Z * Z * bool) :=
  match n with
  | O => match fraction seg zone with Some (us, more) => Some (acc, us, more) | None => None end
  | S n' =>
      match parse_digits 2 0 seg with
      | None => None
      | Some (v, EmptyString) => Some (acc ++ [v], 0%Z, zone)
      | Some (v, String c seg') =>
          let acc := acc ++ [v] in
          let sep := if first then Ascii.eqb c ":"%char else sep in
          if String.eqb seg' EmptyString then Some (acc, 0%Z, true)
          else if sep && Ascii.eqb c ":"%char then clock_fields n' false sep zone acc seg'
          else if Ascii.eqb c "."%char || Ascii.eqb c ","%char then
            match fraction seg' zone with Some (us, more) => Some (acc, us, more) | None => None end
          else if negb sep then clock_fields n' false sep zone acc (String c seg')
          else None
      end
  end.

Definition field (l : list Z) (i : nat) : Z := default 0%Z (l !! i).

Definition is_zone (c : ascii) : bool :=
  Ascii.eqb c "+"%char || Ascii.eqb c "-"%char || Ascii.eqb c "Z"%char.

Fixpoint before_zone (s : string) : string :=
  match s with
  | String c s' => if is_zone c then EmptyString else String c (before_zone s')
  | EmptyString => EmptyString
  end.

(** The time of day in microseconds and the offset. *)
Definition parse_time (s : string) : option (Z * option Z) :=
  let seg := before_zone s in
  let zone := Py.drop (String.length seg) s in
  match clock_fields 3 true true (negb (String.eqb zone EmptyString)) [] seg with
  | None => None
  | Some (f, us, more) =>
      let h := field f 0 in let mi := field f 1 in let sec := field f 2 in
      if negb ((h <? 24)%Z && (mi <? 60)%Z && (sec <? 60)%Z) then None
      else
        let time := ((h * 3600 + mi * 60 + sec) * SECOND + us)%Z in
        match zone with
        | EmptyString => if more then None else Some (time, None)
        | String c rest =>
            if Ascii.eqb c "Z"%char then
              if String.eqb rest EmptyString then Some (time, Some 0%Z) else None
            else
              match clock_fields 3 true true false [] rest with
              | Some (f, us, false) =>
                  let seconds := (field f 0 * 3600 + field f 1 * 60 + field f 2)%Z in
                  let sign := if Ascii.eqb c "-"%char then (-1)%Z else 1%Z in
                  if (seconds =? 0)%Z then Some (time, Some 0%Z)
                  else if (seconds * SECOND + us <? DAY)%Z
                  then Some (time, Some (sign * (seconds * SECOND + us))%Z) else None
              | _ => None
              end
        end
  end.

(** The bytes of one UTF-8 character. *)
Definition char_width (c : ascii) : nat :=
  let n := nat_of_ascii c in
  if (n <? 128)%nat then 1%nat else if (n <? 224)%nat then 2%nat
  else if (n <? 240)%nat then 3%nat else 4%nat.

(** [datetime.fromisoformat(s)]: [None] where it raises [ValueError]. *)
Definition fromisoformat (s : string) : option datetime :=
  if (String.length s <? 7)%nat then None
  else
    match separator s with
    | None => None
    | Some at_ =>
        match parse_date (Py.take at_ s) with
        | None => None
        | Some days =>
            match Py.drop at_ s with
            | EmptyString | String _ EmptyString => Some (Datetime (days * DAY) None)
            | String c _ =>
                match parse_time (Py.drop (at_ + char_width c) s) with
                | None => None
                | Some (us, off) => Some (Datetime (days * DAY + us) off)
                end
            end
        end
    end.

Example iso_utc : fromisoformat "2024-02-29T12:30:05.25Z" =
  Some (Datetime ((19782 * 86400 + 45005) * SECOND + 250000) (Some 0%Z)).
Proof. vm_compute. reflexivity. Qed.
Example iso_offset : instant <$> fromisoformat "2024-02-29T12:30:05+02:00" =
  instant <$> fromisoformat "20240229 103005Z".
Proof. vm_compute. reflexivity. Qed.
Example iso_week : fromisoformat "2024-W09-4" = fromisoformat "2024-02-29".
Proof. vm_compute. reflexivity. Qed.
Example iso_no_month : fromisoformat "2024-13-01T00:00:00Z" = None.
Proof. vm_compute. reflexivity. Qed.

End IsoTime.
