(* ===== verification/Xml.v ===== *)
(** * XML documents

    The element tree lxml hands the SAML code, with the searches the code makes
    of it, and [campusid/saml/parser.py] and [campusid/saml/namespaces.py]: the
    hardened parse.  Names are in Clark notation.  The hardened parser keeps no
    comments and no processing instructions, so an element has text, child
    elements, and the text that follows each.  The parser itself is lxml's and
    is a parameter. *)

From S2P Require Import Prelude PyStr Errors.

Module Xml.

Inductive element : Type :=
| Element (tag : string) (attrib : list (string * string)) (text : string)
    (children : list element) (tail : string).

Definition tag (e : element) : string := let 'Element t _ _ _ _ := e in t.
Definition attrib (e : element) : list (string * string) := let 'Element _ a _ _ _ := e in a.
Definition text (e : element) : string := let 'Element _ _ x _ _ := e in x.
Definition children (e : element) : list element := let 'Element _ _ _ c _ := e in c.
Definition tail (e : element) : string := let 'Element _ _ _ _ t := e in t.

(** ** What lxml answers *)

Fixpoint assoc (k : string) (l : list (string * string)) : option string :=
  match l with
  | [] => None
  | (k', v) :: l' => if String.eqb k k' then Some v else assoc k l'
  end.

(** [e.get(name)]. *)
Definition get (e : element) (name : string) : option string := assoc name (attrib e).

(** [e.iter()]: the element and everything below it, in document order. *)
Fixpoint iter (e : element) : list element :=
  match e with Element _ _ _ c _ => e :: concat (map iter c) end.

Definition has_tag (name : string) (e : element) : bool := String.eqb (tag e) name.

(** [e.iter(name)]. *)
Definition iter_tag (e : element) (name : string) : list element := List.filter (has_tag name) (iter e).

(** [e.findall(name)] and [e.find(name)]: direct children. *)
Definition findall (e : element) (name : string) : list element :=
  List.filter (has_tag name) (children e).
Definition find (e : element) (name : string) : option element := head (findall e name).

(** [e.findall("a/b")] and [e.find("a/b")]. *)
Definition findall2 (e : element) (a b : string) : list element :=
  concat (map (fun x => findall x b) (findall e a)).
Definition find2 (e : element) (a b : string) : option element := head (findall2 e a b).

(** [e.find(".//name")]: below the element, not the element itself. *)
Definition find_below (e : element) (name : string) : option element :=
  head (List.filter (has_tag name) (concat (map iter (children e)))).

(** ["".join(e.itertext())]. *)
Fixpoint itertext (e : element) : string :=
  match e with
  | Element _ _ x c _ => fold_left (fun acc d => acc +:+ itertext d +:+ tail d) c x
  end.

(** Positions stand for the identity of lxml's element objects: the indices of
    the way down from the root, innermost first, so that the position of the
    parent is the tail. *)
Fixpoint iter_at (p : list nat) (e : element) : list (list nat * element) :=
  match e with
  | Element _ _ _ c _ =>
      (p, e) :: (fix go (i : nat) (l : list element) : list (list nat * element) :=
                   match l with
                   | [] => []
                   | d :: l' => iter_at (i :: p) d ++ go (S i) l'
                   end) O c
  end.

(** [e.getparent()], by position. *)
Definition getparent (p : list nat) : option (list nat) :=
  match p with [] => None | _ :: q => Some q end.

(** Deep induction. *)
Lemma element_ind' (P : element -> Prop) :
  (forall t a x c l, Forall P c -> P (Element t a x c l)) -> forall e, P e.
Proof.
  intros H. fix IH 1. intros [t a x c l]. apply H.
  induction c as [|d c IHc]; constructor; [apply IH | apply IHc].
Qed.

Lemma iter_self e : e ∈ iter e.
Proof. destruct e. constructor. Qed.

Lemma child_iter d e : d ∈ children e -> d ∈ iter e.
Proof.
  destruct e as [t a x c l]; cbn [children iter]. intros Hd. apply list_elem_of_further.
  apply list_elem_of_In, in_concat. exists (iter d). split.
  - apply in_map. by apply list_elem_of_In.
  - apply list_elem_of_In, iter_self.
Qed.

Lemma iter_trans a b c : a ∈ iter b -> b ∈ iter c -> a ∈ iter c.
Proof.
  intros Hab. revert c. refine (element_ind' _ _). intros t at' x cs l IH Hb.
  cbn [iter] in Hb. apply elem_of_cons in Hb as [->|Hb]; [done|].
  cbn [iter]. apply list_elem_of_further.
  apply list_elem_of_In, in_concat in Hb as (li & Hli & Hb). apply in_map_iff in Hli as (d & <- & Hd).
  apply list_elem_of_In, in_concat. exists (iter d). split; [by apply in_map|].
  rewrite Forall_forall in IH. apply list_elem_of_In, IH; by apply list_elem_of_In.
Qed.

Lemma findall_spec e name d : d ∈ findall e name <-> d ∈ children e /\ tag d = name.
Proof.
  unfold findall. rewrite !list_elem_of_In, filter_In. unfold has_tag. by rewrite String.eqb_eq.
Qed.

Lemma find_spec e name d : find e name = Some d -> d ∈ children e /\ tag d = name.
Proof.
  unfold find. intros H. apply findall_spec. destruct (findall e name); [done|].
  injection H as ->. constructor.
Qed.

Lemma iter_at_snd p e : snd <$> iter_at p e = iter e.
Proof.
  revert p. induction e as [t a x c l IH] using element_ind'; intros p. cbn. f_equal.
  generalize O as i. induction IH as [|d c Hd _ IHc]; intros i; [done|].
  cbn. rewrite fmap_app. by rewrite Hd, IHc.
Qed.

End Xml.

(** ** Names

    [campusid/saml/namespaces.py]. *)

Module Ns.
Definition SAML := "urn:oasis:names:tc:SAML:2.0:assertion".
Definition SAMLP := "urn:oasis:names:tc:SAML:2.0:protocol".
Definition MD := "urn:oasis:names:tc:SAML:2.0:metadata".
Definition MDUI := "urn:oasis:names:tc:SAML:metadata:ui".
Definition DS := "http://www.w3.org/2000/09/xmldsig#".
Definition XENC := "http://www.w3.org/2001/04/xmlenc#".
Definition XENC11 := "http://www.w3.org/2009/xmlenc11#".

Definition qn (namespace local_name : string) : string := "{" +:+ namespace +:+ "}" +:+ local_name.

Definition Q_RESPONSE := qn SAMLP "Response".
Definition Q_STATUS_CODE := qn SAMLP "StatusCode".
Definition Q_ASSERTION := qn SAML "Assertion".
Definition Q_ENCRYPTED_ASSERTION := qn SAML "EncryptedAssertion".
Definition Q_ISSUER := qn SAML "Issuer".
Definition Q_SUBJECT := qn SAML "Subject".
Definition Q_NAME_ID := qn SAML "NameID".
Definition Q_SUBJECT_CONFIRMATION := qn SAML "SubjectConfirmation".
Definition Q_SUBJECT_CONFIRMATION_DATA := qn SAML "SubjectConfirmationData".
Definition Q_CONDITIONS := qn SAML "Conditions".
Definition Q_AUDIENCE_RESTRICTION := qn SAML "AudienceRestriction".
Definition Q_AUDIENCE := qn SAML "Audience".
Definition Q_ONE_TIME_USE := qn SAML "OneTimeUse".
Definition Q_PROXY_RESTRICTION := qn SAML "ProxyRestriction".
Definition Q_AUTHN_STATEMENT := qn SAML "AuthnStatement".
Definition Q_AUTHN_CONTEXT_CLASS_REF := qn SAML "AuthnContextClassRef".
Definition Q_ATTRIBUTE_STATEMENT := qn SAML "AttributeStatement".
Definition Q_ATTRIBUTE := qn SAML "Attribute".
Definition Q_ATTRIBUTE_VALUE := qn SAML "AttributeValue".
Definition Q_SIGNATURE := qn DS "Signature".
Definition Q_SIGNED_INFO := qn DS "SignedInfo".
Definition Q_SIGNATURE_METHOD := qn DS "SignatureMethod".
Definition Q_DIGEST_METHOD := qn DS "DigestMethod".
Definition Q_CANONICALIZATION_METHOD := qn DS "CanonicalizationMethod".
Definition Q_REFERENCE := qn DS "Reference".
Definition Q_TRANSFORM := qn DS "Transform".
Definition Q_ENCRYPTED_DATA := qn XENC "EncryptedData".
Definition Q_ENCRYPTED_KEY := qn XENC "EncryptedKey".
Definition Q_ENCRYPTION_METHOD := qn XENC "EncryptionMethod".
Definition Q_CIPHER_DATA := qn XENC "CipherData".
Definition Q_CIPHER_VALUE := qn XENC "CipherValue".
Definition Q_MGF := qn XENC11 "MGF".
Definition BEARER_CONFIRMATION_METHOD := "urn:oasis:names:tc:SAML:2.0:cm:bearer".
Definition STATUS_SUCCESS := "urn:oasis:names:tc:SAML:2.0:status:Success".
End Ns.

(** ** The hardened parse *)

Module Parser.
Import Xml.

Definition MAX_DOCUMENT_BYTES : Z := 512 * 1024.

(** What lxml makes of the bytes under the hardened settings: the root and the
    text of the document type declaration, or [None] for [XMLSyntaxError]. *)
Definition etree_parser : Type := string -> option (element * string).

Definition _reject_doctype (doctype : string) : result exn unit :=
  if String.eqb doctype "" then Ok tt else Err (SamlRejected XML_HARDENING_VIOLATION).

Fixpoint duplicate_ids (seen : list string) (l : list element) : result exn unit :=
  match l with
  | [] => Ok tt
  | e :: l' =>
      match get e "ID" with
      | None => duplicate_ids seen l'
      | Some identifier =>
          if existsb (String.eqb identifier) seen then Err (SamlRejected DUPLICATE_ELEMENT_ID)
          else duplicate_ids (identifier :: seen) l'
      end
  end.
Definition _reject_duplicate_ids (root : element) : result exn unit := duplicate_ids [] (iter root).

Definition parse_saml (fromstring : etree_parser) (data : string) : result exn element :=
  if (MAX_DOCUMENT_BYTES <? Z.of_nat (String.length data))%Z then Err (SamlRejected PAYLOAD_TOO_LARGE)
  else match fromstring data with
       | None => Err (SamlRejected MALFORMED_RESPONSE)
       | Some (root, doctype) =>
           let* _ := _reject_doctype doctype in
           let* _ := _reject_duplicate_ids root in
           Ok root
       end.

Definition text_of (e : option element) : string :=
  match e with None => "" | Some e => itertext e end.

(** The identifiers of a document. *)
Definition ids (root : element) : list string := omap (fun e => get e "ID") (iter root).

Lemma duplicate_ids_ok seen l :
  duplicate_ids seen l = Ok tt <-> NoDup (omap (fun e => get e "ID") l) /\
    (forall i, i ∈ omap (fun e => get e "ID") l -> i ∉ seen).
Proof.
  revert seen. induction l as [|e l IH]; intros seen; cbn.
  - split; [intros _; split; [constructor | by intros i ?%elem_of_nil] | done].
  - destruct (get e "ID") as [i|]; [|apply IH].
    destruct (existsb _ seen) eqn:E.
    + apply existsb_exists in E as (j & Hj & ->%String.eqb_eq).
      split; [done|]. intros [_ H]. exfalso. apply (H j); [constructor | by apply list_elem_of_In].
    + rewrite IH, NoDup_cons. assert (i ∉ seen).
      { intros Hi. apply not_true_iff_false in E. apply E, existsb_exists.
        exists i. split; [by apply list_elem_of_In | apply String.eqb_refl]. }
      set_solver.
Qed.

Lemma parse_saml_ok fromstring data root :
  parse_saml fromstring data = Ok root ->
  (Z.of_nat (String.length data) <= MAX_DOCUMENT_BYTES)%Z /\ fromstring data = Some (root, "") /\ NoDup (ids root).
Proof.
  unfold parse_saml. destruct (Z.ltb_spec MAX_DOCUMENT_BYTES (Z.of_nat (String.length data))) as [|Hl]; [done|].
  destruct (fromstring data) as [[root' doctype]|]; [|done]. unfold _reject_doctype.
  destruct (String.eqb_spec doctype ""); [|done]. subst. cbn [rbind].
  unfold _reject_duplicate_ids. destruct (duplicate_ids [] (iter root')) as [[]|] eqn:E; [|done].
  intros [= ->]. apply duplicate_ids_ok in E as [E _]. done.
Qed.

(** An identifier names one element. *)
Lemma id_unique root a b i :
  NoDup (ids root) -> a ∈ iter root -> b ∈ iter root ->
  get a "ID" = Some i -> get b "ID" = Some i -> a = b.
Proof.
  unfold ids. induction (iter root) as [|e l IH]; [set_solver|].
  cbn. intros Hn Ha Hb Ea Eb.
  assert (forall x, x ∈ l -> get x "ID" = Some i -> i ∈ omap (fun e => get e "ID") l) as Hin.
  { intros x Hx E. apply list_elem_of_omap. eauto. }
  destruct (get e "ID") as [j|] eqn:Ej; [apply NoDup_cons in Hn as [Hj Hn]|];
    apply elem_of_cons in Ha as [->|Ha]; apply elem_of_cons in Hb as [->|Hb];
    try done; try (exfalso; naive_solver); by apply IH.
Qed.

End Parser.
