(* ===== verification/SamlSignature.v ===== *)
(** * Signatures on SAML documents

    [campusid/saml/algorithms.py], [xsw.py], [signature.py] and [encryption.py]:
    which algorithms are admitted, the structural defences against signature
    wrapping, what is handed to the verifier and what is taken from it, and the
    decryption of an encrypted assertion.  The XML-DSig verifier is signxml's and
    the cryptography is the [cryptography] package's; both are parameters. *)

From S2P Require Import Prelude PyStr Base64 Errors Xml.
Import Xml Ns.

(** ** [algorithms.py] *)

Module Algorithms.

Definition _DSIG := "http://www.w3.org/2000/09/xmldsig#".
Definition _DSIG_MORE := "http://www.w3.org/2001/04/xmldsig-more#".
Definition _XMLENC := "http://www.w3.org/2001/04/xmlenc#".
Definition _EXC_C14N := "http://www.w3.org/2001/10/xml-exc-c14n#".

Definition PERMITTED_SIGNATURE_METHODS : list string :=
  [_DSIG_MORE +:+ "rsa-sha256"; _DSIG_MORE +:+ "rsa-sha384"; _DSIG_MORE +:+ "rsa-sha512";
   _DSIG_MORE +:+ "ecdsa-sha256"; _DSIG_MORE +:+ "ecdsa-sha384"; _DSIG_MORE +:+ "ecdsa-sha512"].
Definition PERMITTED_DIGEST_METHODS : list string :=
  [_XMLENC +:+ "sha256"; _DSIG_MORE +:+ "sha384"; _XMLENC +:+ "sha512"].
Definition PERMITTED_CANONICALIZATION_METHODS : list string := [_EXC_C14N].
Definition PERMITTED_TRANSFORMS : list string := [_DSIG +:+ "enveloped-signature"; _EXC_C14N].
Definition WITH_COMMENTS_SUFFIX := "#WithComments".

(** [algorithm in permitted] for an attribute that may be absent. *)
Definition permits (permitted : list string) (algorithm : option string) : bool :=
  match algorithm with Some a => existsb (String.eqb a) permitted | None => false end.

Definition algorithm_of (e : option element) : option string :=
  match e with Some e => get e "Algorithm" | None => None end.

Definition _assert_no_with_comments (signature : element) : result exn unit :=
  if existsb (fun e => match get e "Algorithm" with
                       | Some a => negb (String.eqb a "") && Py.endswith a WITH_COMMENTS_SUFFIX
                       | None => false
                       end) (iter signature)
  then Err (SamlRejected XML_HARDENING_VIOLATION) else Ok tt.

Definition assert_algorithms_permitted (signature : element) : result exn unit :=
  let* _ := _assert_no_with_comments signature in
  raise* SamlRejected WEAK_ALGORITHM when
    negb (permits PERMITTED_SIGNATURE_METHODS (algorithm_of (find_below signature Q_SIGNATURE_METHOD)));
  raise* SamlRejected WEAK_ALGORITHM when
    negb (forallb (fun d => permits PERMITTED_DIGEST_METHODS (get d "Algorithm"))
            (iter_tag signature Q_DIGEST_METHOD));
  raise* SamlRejected WEAK_ALGORITHM when
    negb (permits PERMITTED_CANONICALIZATION_METHODS
            (algorithm_of (find_below signature Q_CANONICALIZATION_METHOD)));
  raise* SamlRejected WEAK_ALGORITHM when
    negb (forallb (fun t => permits PERMITTED_TRANSFORMS (get t "Algorithm"))
            (iter_tag signature Q_TRANSFORM));
  Ok tt.

End Algorithms.

(** ** [xsw.py] *)

Module Xsw.

Definition ENVELOPED_SIGNATURE_TRANSFORM := "http://www.w3.org/2000/09/xmldsig#enveloped-signature".

Definition assert_single_response_and_assertion (root : element) : result exn unit :=
  raise* SamlRejected SIGNATURE_WRAPPING_DETECTED when
    (1 <? length (iter_tag root Q_RESPONSE))%nat;
  raise* SamlRejected SIGNATURE_WRAPPING_DETECTED when
    (1 <? length (iter_tag root Q_ASSERTION) + length (iter_tag root Q_ENCRYPTED_ASSERTION))%nat;
  Ok tt.

(** The positions of the direct children with a tag. *)
Definition child_positions (e : element) (name : string) : list (list nat) :=
  omap (fun '(i, d) => if has_tag name d then Some [i] else None)
    (imap (fun i d => (i, d)) (children e)).

Definition permitted_parents (root : element) : list (list nat) :=
  if has_tag Q_RESPONSE root then [] :: child_positions root Q_ASSERTION
  else if has_tag Q_ASSERTION root then [[]]
  else [].

(** The positions of the signatures of a document, in order. *)
Definition signature_positions (root : element) : list (list nat) :=
  fst <$> List.filter (fun pe => has_tag Q_SIGNATURE pe.2) (iter_at [] root).

Definition among (p : list nat) (l : list (list nat)) : bool := bool_decide (p ∈ l).

Fixpoint placed (permitted occupied signatures : list (list nat)) : result exn unit :=
  match signatures with
  | [] => Ok tt
  | s :: signatures' =>
      match getparent s with
      | None => Err (SamlRejected SIGNATURE_WRAPPING_DETECTED)
      | Some parent =>
          raise* SamlRejected SIGNATURE_WRAPPING_DETECTED when negb (among parent permitted);
          raise* SamlRejected SIGNATURE_WRAPPING_DETECTED when among parent occupied;
          placed permitted (occupied ++ [parent]) signatures'
      end
  end.

Definition assert_signature_placement (root : element) : result exn unit :=
  placed (permitted_parents root) [] (signature_positions root).

Definition assert_no_wrapping (root : element) : result exn unit :=
  let* _ := assert_single_response_and_assertion root in
  assert_signature_placement root.

(** [signature] with the element it is a direct child of: the callers found it
    as a child, so it has a parent. *)
Definition assert_reference_binds_to_parent (parent signature : element) : result exn unit :=
  match findall2 signature Q_SIGNED_INFO Q_REFERENCE with
  | [reference] =>
      let uri := match get reference "URI" with Some u => u | None => "" end in
      raise* SamlRejected SIGNATURE_WRAPPING_DETECTED when
        String.eqb uri "" || negb (Py.startswith uri "#");
      raise* SamlRejected SIGNATURE_WRAPPING_DETECTED when
        negb (match get parent "ID" with Some i => String.eqb (Py.drop 1 uri) i | None => false end);
      raise* SamlRejected SIGNATURE_WRAPPING_DETECTED when
        negb (existsb (fun t => Algorithms.permits [ENVELOPED_SIGNATURE_TRANSFORM] (get t "Algorithm"))
                (iter_tag reference Q_TRANSFORM));
      Ok tt
  | _ => Err (SamlRejected SIGNATURE_WRAPPING_DETECTED)
  end.

(** What the placement check admits: every signature sits directly in an element
    that may carry one, and no two share theirs. *)
Lemma placed_ok permitted occupied signatures :
  placed permitted occupied signatures = Ok tt <->
  exists parents, Forall2 (fun s p => getparent s = Some p) signatures parents /\
    NoDup parents /\ (forall p, p ∈ parents -> p ∈ permitted /\ p ∉ occupied).
Proof.
  revert occupied. induction signatures as [|s l IH]; intros occupied; cbn.
  - split; [intros _; exists []; split_and!; [done | constructor | by intros p ?%elem_of_nil] | done].
  - destruct (getparent s) as [p|] eqn:Ep; [|split; [done | intros (ps & H & _); inversion H; congruence]].
    unfold among. destruct (decide (p ∈ permitted)) as [Hp|Hp]; last first.
    { rewrite bool_decide_false by done. split; [done|].
      intros (ps & H & _ & Hin). inversion H; simplify_eq. destruct (Hin p) as [? _]; [constructor|done]. }
    rewrite bool_decide_true by done. cbn. destruct (decide (p ∈ occupied)) as [Ho|Ho].
    { rewrite bool_decide_true by done. split; [done|].
      intros (ps & H & _ & Hin). inversion H; simplify_eq. destruct (Hin p) as [_ ?]; [constructor|done]. }
    rewrite bool_decide_false by done. rewrite IH. split.
    + intros (ps & H & Hn & Hin). exists (p :: ps). split_and!; [by constructor| |].
      * apply NoDup_cons. split; [|done]. intros [_ ?]%Hin. set_solver.
      * intros q [->|[? ?]%Hin]%elem_of_cons; [done|]. set_solver.
    + intros (ps & H & Hn & Hin). inversion H; simplify_eq. apply NoDup_cons in Hn as [Hp' Hn].
      eexists; split_and!; [done|done|]. intros q Hq. destruct (Hin q) as [? ?]; [by constructor|].
      split; [done|]. intros [Hq'|Hq']%elem_of_app; [done|]. apply list_elem_of_singleton in Hq'. congruence.
Qed.

End Xsw.

(** ** [signature.py] *)

Module Signature.

Definition RESPONSE_SIGNATURE_LOCATION := "./".
Definition ASSERTION_SIGNATURE_LOCATION := "./" +:+ Q_ASSERTION +:+ "/".

Inductive SignatureMethod : Type :=
| RSA_SHA256 | RSA_SHA384 | RSA_SHA512 | ECDSA_SHA256 | ECDSA_SHA384 | ECDSA_SHA512.
Inductive DigestAlgorithm : Type := SHA256 | SHA384 | SHA512.

Definition PERMITTED_SIGNATURE_METHODS : list SignatureMethod :=
  [RSA_SHA256; RSA_SHA384; RSA_SHA512; ECDSA_SHA256; ECDSA_SHA384; ECDSA_SHA512].
Definition PERMITTED_DIGEST_ALGORITHMS : list DigestAlgorithm := [SHA256; SHA384; SHA512].

(** What signxml is asked to insist on. *)
Record SignatureConfiguration : Type := {
  require_x509 : bool;
  location : string;
  expect_references : nat;
  signature_methods : list SignatureMethod;
  digest_algorithms : list DigestAlgorithm;
}.

(** What [XMLVerifier().verify] answers: it raises, or returns the results of
    several references, or one result with the element it covers. *)
Inductive verdict : Type :=
| Refused
| Several (results : list element)
| Single (signed_xml : option element).

(** Document, certificate, configuration and identifier attribute. *)
Definition xml_verifier : Type :=
  element -> string -> SignatureConfiguration -> string -> verdict.

Definition find_signature (parent : element) : option element := find parent Q_SIGNATURE.

Definition _assert_verified_element_is_the_expected_one (verified expected : element)
  : result exn unit :=
  if negb (String.eqb (tag verified) (tag expected)) ||
     negb (bool_decide (get verified "ID" = get expected "ID"))
  then Err (SamlRejected SIGNATURE_WRAPPING_DETECTED) else Ok tt.

Definition configuration_at (loc : string) : SignatureConfiguration :=
  {| require_x509 := true; location := loc; expect_references := 1;
     signature_methods := PERMITTED_SIGNATURE_METHODS;
     digest_algorithms := PERMITTED_DIGEST_ALGORITHMS |}.

Section verify.
Variable verifier : xml_verifier.

(** The loop over the registered certificates: the first that verifies decides. *)
Fixpoint try_certificates (document signed_element : element) (cfg : SignatureConfiguration)
    (certificates : list string) : result exn element :=
  match certificates with
  | [] => Err (SamlRejected SIGNATURE_INVALID)
  | certificate :: rest =>
      match verifier document certificate cfg "ID" with
      | Refused => try_certificates document signed_element cfg rest
      | Several _ => Err (SamlRejected SIGNATURE_WRAPPING_DETECTED)
      | Single None => Err (SamlRejected SIGNATURE_INVALID)
      | Single (Some verified) =>
          let* _ := _assert_verified_element_is_the_expected_one verified signed_element in
          Ok verified
      end
  end.

Definition verify_signature (document signed_element : element) (loc : string)
    (certificates : list string) : result exn element :=
  match find_signature signed_element with
  | None => Err (SamlRejected SIGNATURE_MISSING)
  | Some signature =>
      let* _ := Algorithms.assert_algorithms_permitted signature in
      let* _ := Xsw.assert_reference_binds_to_parent signed_element signature in
      match certificates with
      | [] => Err (SamlRejected SIGNATURE_INVALID)
      | _ => try_certificates document signed_element (configuration_at loc) certificates
      end
  end.

Lemma try_certificates_ok document signed cfg certificates e :
  try_certificates document signed cfg certificates = Ok e ->
  exists certificate, certificate ∈ certificates /\
    verifier document certificate cfg "ID" = Single (Some e) /\
    tag e = tag signed /\ get e "ID" = get signed "ID".
Proof.
  induction certificates as [|c l IH]; cbn; [done|].
  destruct (verifier document c cfg "ID") as [|r|[v|]] eqn:Ev; try done.
  - intros (c' & Hc & H)%IH. exists c'. split; [by constructor|done].
  - unfold _assert_verified_element_is_the_expected_one.
    destruct (_ || _) eqn:E; [done|]. intros [= ->]. bool_prop. exists c. split; [constructor|]. done.
Qed.

Lemma verify_signature_ok document signed loc certificates e :
  verify_signature document signed loc certificates = Ok e ->
  exists signature certificate, find_signature signed = Some signature /\
    Algorithms.assert_algorithms_permitted signature = Ok tt /\
    Xsw.assert_reference_binds_to_parent signed signature = Ok tt /\
    certificate ∈ certificates /\
    verifier document certificate (configuration_at loc) "ID" = Single (Some e) /\
    tag e = tag signed /\ get e "ID" = get signed "ID".
Proof.
  unfold verify_signature. destruct (find_signature signed) as [s|]; [|done]. intros H.
  apply rbind_ok in H as ([] & Ha & H). apply rbind_ok in H as ([] & Hx & H).
  destruct certificates as [|c l]; [done|].
  apply try_certificates_ok in H as (c' & ? & ? & ? & ?). exists s, c'. done.
Qed.

Lemma try_certificates_refused document signed cfg certificates :
  (forall c, c ∈ certificates -> verifier document c cfg "ID" = Refused) ->
  try_certificates document signed cfg certificates = Err (SamlRejected SIGNATURE_INVALID).
Proof.
  induction certificates as [|c l IH]; intros H; cbn; [done|].
  rewrite H by constructor. apply IH. intros c' Hc. apply H. by constructor.
Qed.

End verify.

Lemma binds_saml parent signature :
  Xsw.assert_reference_binds_to_parent parent signature = Ok tt \/
  exists reason, Xsw.assert_reference_binds_to_parent parent signature = Err (SamlRejected reason).
Proof.
  unfold Xsw.assert_reference_binds_to_parent.
  destruct (findall2 _ _ _) as [|d [|d' l]]; eauto.
  destruct (_ || _); eauto. destruct (negb _); eauto. destruct (negb _); eauto.
Qed.

Lemma algorithms_saml signature :
  Algorithms.assert_algorithms_permitted signature = Ok tt \/
  exists reason, Algorithms.assert_algorithms_permitted signature = Err (SamlRejected reason).
Proof.
  unfold Algorithms.assert_algorithms_permitted, Algorithms._assert_no_with_comments.
  destruct (existsb _ _); cbn [rbind]; eauto.
  repeat (destruct (negb _); eauto).
Qed.

(** When no certificate verifies, the refusal is a [SamlRejected]. *)
Lemma verify_signature_refused verifier document signed loc certificates :
  (forall c cfg, c ∈ certificates -> verifier document c cfg "ID" = Refused) ->
  exists reason, verify_signature verifier document signed loc certificates = Err (SamlRejected reason).
Proof.
  intros H. unfold verify_signature. destruct (find_signature signed) as [s|]; [|eauto].
  destruct (algorithms_saml s) as [->|[rs ->]]; cbn [rbind]; [|eauto].
  destruct (binds_saml signed s) as [->|[rs ->]]; cbn [rbind]; [|eauto].
  destruct certificates as [|c l]; [eauto|].
  eexists. apply try_certificates_refused. eauto.
Qed.

End Signature.

(** ** [encryption.py] *)

Module Encryption.

Definition _DSIG := "http://www.w3.org/2000/09/xmldsig#".
Definition _DSIG_MORE := "http://www.w3.org/2001/04/xmldsig-more#".
Definition RSA_OAEP_MGF1P := XENC +:+ "rsa-oaep-mgf1p".
Definition RSA_OAEP := XENC11 +:+ "rsa-oaep".
Definition PERMITTED_KEY_TRANSPORT : list string := [RSA_OAEP_MGF1P; RSA_OAEP].
Definition PERMITTED_CONTENT_ENCRYPTION : list (string * nat) :=
  [(XENC11 +:+ "aes128-gcm", 16%nat); (XENC11 +:+ "aes192-gcm", 24%nat); (XENC11 +:+ "aes256-gcm", 32%nat)].

Inductive Hash : Type := SHA1 | SHA224 | SHA256 | SHA384 | SHA512.

Definition _DIGESTS : list (string * Hash) :=
  [(_DSIG +:+ "sha1", SHA1); (XENC +:+ "sha256", SHA256); (_DSIG_MORE +:+ "sha384", SHA384); (XENC +:+ "sha512", SHA512)].
Definition _MGF_HASHES : list (string * Hash) :=
  [(XENC11 +:+ "mgf1sha1", SHA1); (XENC11 +:+ "mgf1sha224", SHA224); (XENC11 +:+ "mgf1sha256", SHA256);
   (XENC11 +:+ "mgf1sha384", SHA384); (XENC11 +:+ "mgf1sha512", SHA512)].

Definition GCM_IV_BYTES : nat := 12.
Definition GCM_TAG_BYTES : nat := 16.

Fixpoint dict_get {A} (l : list (string * A)) (k : string) : option A :=
  match l with
  | [] => None
  | (k', v) :: l' => if String.eqb k k' then Some v else dict_get l' k
  end.

(** The [cryptography] package: an RSA private key read from PEM, OAEP
    decryption with the mask hash and the digest, AES-GCM; [None] is an
    exception of theirs. *)
Record crypto : Type := {
  rsa_key : Type;
  load_pem_private_key : string -> option (option rsa_key);
  oaep_decrypt : rsa_key -> Hash -> Hash -> string -> option string;
  aesgcm_decrypt : string -> string -> string -> option string;
}.

(** What the guarded block can raise: a refusal of ours, or anything else. *)
Inductive failure : Type := Rejected (e : exn) | Other.

Section decrypt.
Variable lib : crypto.
Variable fromstring : Parser.etree_parser.

Definition _algorithm (e : element) : result exn string :=
  match find e Q_ENCRYPTION_METHOD with
  | None => Err (SamlRejected UNSUPPORTED_ENCRYPTION_ALGORITHM)
  | Some m =>
      match get m "Algorithm" with
      | None | Some "" => Err (SamlRejected UNSUPPORTED_ENCRYPTION_ALGORITHM)
      | Some a => Ok a
      end
  end.

Definition _find_encrypted_key (encrypted_assertion encrypted_data : element) : result exn element :=
  match find_below encrypted_data Q_ENCRYPTED_KEY with
  | Some nested => Ok nested
  | None =>
      match find_below encrypted_assertion Q_ENCRYPTED_KEY with
      | Some sibling => Ok sibling
      | None => Err (SamlRejected DECRYPTION_FAILED)
      end
  end.

Definition _cipher_value (e : element) : result failure string :=
  match find2 e Q_CIPHER_DATA Q_CIPHER_VALUE with
  | None => Err (Rejected (SamlRejected DECRYPTION_FAILED))
  | Some v =>
      if String.eqb (text v) "" then Err (Rejected (SamlRejected DECRYPTION_FAILED))
      else match Base64.decode (Py.join "" (Py.words (text v))) with
           | Some bytes => Ok bytes
           | None => Err Other
           end
  end.

Definition attribute_or (e : option element) (missing : string) : option string :=
  match e with Some e => get e "Algorithm" | None => Some missing end.

Definition _oaep_parameters (encrypted_key : element) (algorithm : string) : result failure (Hash * Hash) :=
  if String.eqb algorithm RSA_OAEP_MGF1P then Ok (SHA1, SHA1)
  else match find encrypted_key Q_ENCRYPTION_METHOD with
       | None => Err Other
       | Some method =>
           let digest_uri := attribute_or (find method (qn _DSIG "DigestMethod")) (XENC +:+ "sha256") in
           let mgf_uri := attribute_or (find method Q_MGF) (XENC11 +:+ "mgf1sha1") in
           match digest_uri ≫= dict_get _DIGESTS, mgf_uri ≫= dict_get _MGF_HASHES with
           | Some digest, Some mgf => Ok (digest, mgf)
           | _, _ => Err (Rejected (SamlRejected UNSUPPORTED_ENCRYPTION_ALGORITHM))
           end
       end.

Definition _unwrap_key (encrypted_key : element) (algorithm private_key_pem : string)
  : result failure string :=
  match load_pem_private_key lib private_key_pem with
  | None | Some None => Err Other
  | Some (Some key) =>
      let* '(digest, mgf) := _oaep_parameters encrypted_key algorithm in
      let* ciphertext := _cipher_value encrypted_key in
      match oaep_decrypt lib key mgf digest ciphertext with
      | Some session_key => Ok session_key
      | None => Err Other
      end
  end.

Definition _decrypt_gcm (ciphertext session_key : string) : result failure string :=
  if (String.length ciphertext <=? GCM_IV_BYTES + GCM_TAG_BYTES)%nat then Err Other
  else match aesgcm_decrypt lib session_key (Py.take GCM_IV_BYTES ciphertext)
               (Py.drop GCM_IV_BYTES ciphertext) with
       | Some plaintext => Ok plaintext
       | None => Err Other
       end.

Definition decrypt_assertion (encrypted_assertion : element) (private_key_pem : string)
  : result exn element :=
  match find encrypted_assertion Q_ENCRYPTED_DATA with
  | None => Err (SamlRejected DECRYPTION_FAILED)
  | Some encrypted_data =>
      let* content_algorithm := _algorithm encrypted_data in
      match dict_get PERMITTED_CONTENT_ENCRYPTION content_algorithm with
      | None => Err (SamlRejected UNSUPPORTED_ENCRYPTION_ALGORITHM)
      | Some expected_length =>
          let* encrypted_key := _find_encrypted_key encrypted_assertion encrypted_data in
          let* key_algorithm := _algorithm encrypted_key in
          raise* SamlRejected UNSUPPORTED_ENCRYPTION_ALGORITHM when
            negb (existsb (String.eqb key_algorithm) PERMITTED_KEY_TRANSPORT);
          match
            (let* session_key := _unwrap_key encrypted_key key_algorithm private_key_pem in
             raise* Other when negb (Nat.eqb (String.length session_key) expected_length);
             let* ciphertext := _cipher_value encrypted_data in
             _decrypt_gcm ciphertext session_key)
          with
          | Err (Rejected e) => Err e
          | Err Other => Err (SamlRejected DECRYPTION_FAILED)
          | Ok plaintext =>
              raise* SamlRejected PAYLOAD_TOO_LARGE when
                (Parser.MAX_DOCUMENT_BYTES <? Z.of_nat (String.length plaintext))%Z;
              Parser.parse_saml fromstring plaintext
          end
      end
  end.

Lemma parse_saml_rejects data :
  (exists root, Parser.parse_saml fromstring data = Ok root) \/
  exists reason, Parser.parse_saml fromstring data = Err (SamlRejected reason).
Proof.
  unfold Parser.parse_saml. destruct (_ <? _)%Z; [eauto|].
  destruct (fromstring data) as [[root doctype]|]; [|eauto]. unfold Parser._reject_doctype.
  destruct (String.eqb _ _); cbn [rbind]; [|eauto]. unfold Parser._reject_duplicate_ids.
  assert (forall seen l, Parser.duplicate_ids seen l = Ok tt \/
    Parser.duplicate_ids seen l = Err (SamlRejected DUPLICATE_ELEMENT_ID)) as Hd.
  { intros seen l. revert seen. induction l as [|e l IH]; intros seen; cbn; [eauto|].
    destruct (get e "ID"); [|eauto]. destruct (existsb _ _); eauto. }
  destruct (Hd [] (iter root)) as [->| ->]; cbn [rbind]; eauto.
Qed.

(** Decryption raises nothing but refusals, whatever the ciphertext: no
    exception of the cryptography escapes. *)
Lemma decrypt_assertion_rejects encrypted pem :
  (exists root, decrypt_assertion encrypted pem = Ok root) \/
  exists reason, decrypt_assertion encrypted pem = Err (SamlRejected reason).
Proof.
  assert (forall e, (exists a, _algorithm e = Ok a) \/ exists rs, _algorithm e = Err (SamlRejected rs)) as Ha.
  { intros e. unfold _algorithm. destruct (find _ _) as [m|]; [|eauto].
    destruct (get m "Algorithm") as [[|]|]; eauto. }
  assert (forall e, match _cipher_value e with Err (Rejected x) => exists rs, x = SamlRejected rs | _ => True end) as Hc.
  { intros e. unfold _cipher_value. destruct (find2 _ _ _) as [v|]; [|eauto].
    destruct (String.eqb _ _); [eauto|]. by destruct (Base64.decode _). }
  assert (forall k a p, match _unwrap_key k a p with Err (Rejected x) => exists rs, x = SamlRejected rs | _ => True end) as Hu.
  { intros k a p. unfold _unwrap_key. destruct (load_pem_private_key _ _) as [[key|]|]; [|done..].
    assert (match _oaep_parameters k a with Err (Rejected x) => exists rs, x = SamlRejected rs | _ => True end) as Ho.
    { unfold _oaep_parameters. destruct (String.eqb _ _); [done|]. destruct (find _ _); [|done].
      destruct (_ ≫= _); [destruct (_ ≫= _)|]; eauto. }
    destruct (_oaep_parameters k a) as [[dg mgf]|[x|]]; cbn [rbind]; [|done..].
    specialize (Hc k). destruct (_cipher_value k) as [ct|[x|]]; cbn [rbind]; [|done..].
    by destruct (oaep_decrypt _ _ _ _ _). }
  unfold decrypt_assertion. destruct (find _ _) as [d|]; [|eauto].
  destruct (Ha d) as [[a ->]|[rs ->]]; cbn [rbind]; [|eauto].
  destruct (dict_get _ a) as [len|]; [|eauto].
  unfold _find_encrypted_key.
  destruct (find_below d _) as [k|]; [|destruct (find_below encrypted _) as [k|]]; cbn [rbind]; [| |eauto].
  all: destruct (Ha k) as [[ka ->]|[rs ->]]; cbn [rbind]; [|eauto].
  all: destruct (negb _); [eauto|]; specialize (Hu k ka pem); specialize (Hc d).
  all: destruct (_unwrap_key k ka pem) as [sk|[x|]]; cbn [rbind]; [|destruct Hu as [rs ->]; eauto|eauto].
  all: destruct (negb _); [eauto|].
  all: destruct (_cipher_value d) as [ct|[x|]]; cbn [rbind]; [|destruct Hc as [rs ->]; eauto|eauto].
  all: unfold _decrypt_gcm; destruct (_ <=? _)%nat; [eauto|].
  all: destruct (aesgcm_decrypt _ _ _ _) as [pt|]; [|eauto].
  all: destruct (_ <? _)%Z; [eauto|apply parse_saml_rejects].
Qed.

(** What decryption accepts: an AES-GCM body of the declared key size under an
    OAEP-wrapped key, whose plaintext went through the hardened parse. *)
Lemma decrypt_assertion_ok encrypted pem root :
  decrypt_assertion encrypted pem = Ok root ->
  exists plaintext session_key iv body,
    aesgcm_decrypt lib session_key iv body = Some plaintext /\
    (String.length session_key ∈ [16%nat; 24%nat; 32%nat]) /\
    Parser.parse_saml fromstring plaintext = Ok root.
Proof.
  unfold decrypt_assertion. destruct (find _ _) as [d|]; [|done]. intros H.
  apply rbind_ok in H as (a & _ & H). destruct (dict_get _ a) as [len|] eqn:El; [|done].
  assert (len ∈ [16%nat; 24%nat; 32%nat]) as Hlen.
  { unfold PERMITTED_CONTENT_ENCRYPTION in El. cbn [dict_get] in El.
    repeat (destruct (String.eqb a _); [injection El as <-; set_solver|]). done. }
  apply rbind_ok in H as (k & _ & H). apply rbind_ok in H as (ka & _ & H).
  destruct (negb _); [done|].
  destruct (rbind _ _) as [pt|[]] eqn:E; [|done..]. destruct (_ <? _)%Z; [done|].
  apply rbind_ok in E as (sk & _ & E). destruct (Nat.eqb_spec (String.length sk) len) as [Hsk|]; [subst len|done].
  cbn [negb] in E. apply rbind_ok in E as (ct & _ & E). unfold _decrypt_gcm in E.
  destruct (_ <=? _)%nat; [done|]. destruct (aesgcm_decrypt _ _ _ _) eqn:Eg; [|done].
  injection E as ->. eauto 10.
Qed.

End decrypt.
End Encryption.
