(* ===== verification/Redis.v ===== *)
(** * Redis, and programs that talk to it

    Redis is a service outside the repository, so it is a parameter: a class
    [RedisServer] with the commands the broker issues, and a class [RedisLaws]
    with the documented behaviour the broker relies on.  Every command addresses
    one key and is atomic; a key holds a string or a set and may carry a
    deadline after which it is gone.  [Store] is a concrete server that
    satisfies the laws.

    A broker operation is a [prog]: it issues one command at a time and
    continues with the reply, which is what an [async] method does between two
    [await]s.  [run] executes a program with nothing in between; [step] lets any
    number of programs interleave command by command. *)

From S2P Require Import Prelude PyStr Json Errors.

(** ** Values, commands, replies *)

(** A stored string: plain text, the text of a JSON document, or the decimal
    text of a counter. *)
Inductive scalar : Type :=
| SText (s : string)
| SJson (j : json)
| SInt (z : Z).

Inductive rval : Type :=
| VScalar (s : scalar)
| VSet (members : gset string).

Record entry : Type := Entry { e_val : rval; e_deadline : option moment }.

Inductive cmd : Type :=
| GET (k : string)
| SET (k : string) (v : scalar) (nx : bool) (ex : option Z)
| GETDEL (k : string)
| DEL (k : string)
| EXISTS (k : string)
| SADD (k m : string)
| SREM (k m : string)
| SMEMBERS (k : string)
| EXPIRE (k : string) (seconds : Z)
| INCR (k : string)
| TTL (k : string).

Inductive reply : Type :=
| RNil
| ROk
| RScalar (s : scalar)
| RInt (z : Z)
| RMembers (s : gset string)
| RError
| RDown.

#[global] Instance scalar_eq_dec : EqDecision scalar.
Proof. solve_decision. Defined.
#[global] Instance rval_eq_dec : EqDecision rval.
Proof. solve_decision. Defined.
#[global] Instance entry_eq_dec : EqDecision entry.
Proof. solve_decision. Defined.

#[global] Instance reply_eq_dec : EqDecision reply.
Proof. solve_decision. Defined.

Definition cmd_key (c : cmd) : string :=
  match c with
  | GET k | SET k _ _ _ | GETDEL k | DEL k | EXISTS k | SADD k _ | SREM k _
  | SMEMBERS k | EXPIRE k _ | INCR k | TTL k => k
  end.

(** ** One command on one key *)

Definition age (t : moment) (e : option entry) : option entry :=
  match e with
  | Some (Entry v (Some d)) => if (t <? d)%Z then Some (Entry v (Some d)) else None
  | _ => e
  end.

Definition is_live (e : option entry) : bool :=
  match e with Some _ => true | None => false end.

Definition deadline (t : moment) (ex : option Z) : option moment :=
  match ex with Some n => Some (t + n * SECOND)%Z | None => None end.

Definition INT64_MAX : Z := 9223372036854775807.

(** What a command does to the entry [e] its key holds at [t], and its reply.
    [round] is the server's rounding of a remaining lifetime to seconds. *)
Definition key_step (round : Z -> Z) (t : moment) (c : cmd) (e : option entry)
  : option entry * reply :=
  match c, e with
  | GET _, None => (None, RNil)
  | GET _, Some (Entry (VScalar s) _) => (e, RScalar s)
  | GET _, Some (Entry (VSet _) _) => (e, RError)
  | SET _ v nx ex, _ =>
      if match ex with Some n => (n <=? 0)%Z | None => false end then (e, RError)
      else if nx && is_live e then (e, RNil)
      else (Some (Entry (VScalar v) (deadline t ex)), ROk)
  | GETDEL _, None => (None, RNil)
  | GETDEL _, Some (Entry (VScalar s) _) => (None, RScalar s)
  | GETDEL _, Some (Entry (VSet _) _) => (e, RError)
  | DEL _, None => (None, RInt 0)
  | DEL _, Some _ => (None, RInt 1)
  | EXISTS _, None => (None, RInt 0)
  | EXISTS _, Some _ => (e, RInt 1)
  | SADD _ m, None => (Some (Entry (VSet {[m]}) None), RInt 1)
  | SADD _ m, Some (Entry (VSet s) d) =>
      (Some (Entry (VSet ({[m]} ∪ s)) d), RInt (if bool_decide (m ∈ s) then 0 else 1))
  | SADD _ _, Some (Entry (VScalar _) _) => (e, RError)
  | SREM _ _, None => (None, RInt 0)
  | SREM _ m, Some (Entry (VSet s) d) =>
      (if bool_decide (s ∖ {[m]} = ∅) then None else Some (Entry (VSet (s ∖ {[m]})) d),
       RInt (if bool_decide (m ∈ s) then 1 else 0))
  | SREM _ _, Some (Entry (VScalar _) _) => (e, RError)
  | SMEMBERS _, None => (None, RMembers ∅)
  | SMEMBERS _, Some (Entry (VSet s) _) => (e, RMembers s)
  | SMEMBERS _, Some (Entry (VScalar _) _) => (e, RError)
  | EXPIRE _ _, None => (None, RInt 0)
  | EXPIRE _ n, Some (Entry v _) =>
      (if (n <=? 0)%Z then None else Some (Entry v (deadline t (Some n))), RInt 1)
  | INCR _, None => (Some (Entry (VScalar (SInt 1)) None), RInt 1)
  | INCR _, Some (Entry (VScalar (SInt z)) d) =>
      if (z <? INT64_MAX)%Z then (Some (Entry (VScalar (SInt (z + 1))) d), RInt (z + 1))
      else (e, RError)
  | INCR _, Some _ => (e, RError)
  | TTL _, None => (None, RInt (-2))
  | TTL _, Some (Entry _ None) => (e, RInt (-1))
  | TTL _, Some (Entry _ (Some d)) => (e, RInt (round (d - t)%Z))
  end.

(** ** The server *)

Class RedisServer (R : Type) : Type := {
  (** One command at one moment. *)
  r_exec : R -> moment -> cmd -> R * reply;
  (** What a key holds at a moment, if nothing else is executed. *)
  r_view : R -> moment -> string -> option entry;
  r_round : Z -> Z;
}.

(** The behaviour Redis documents. *)
Class RedisLaws (R : Type) `{RedisServer R} : Prop := {
  (** A lifetime is reported to within a second. *)
  r_round_near rem : (0 < rem)%Z ->
    (rem - SECOND < r_round rem * SECOND < rem + SECOND)%Z;
  (** Time only expires keys. *)
  r_view_age r t t' k : (t <= t')%Z -> r_view r t' k = age t' (r_view r t k);
  (** A command acts on its own key, atomically ... *)
  r_exec_reply r t c :
    (r_exec r t c).2 = (key_step r_round t c (r_view r t (cmd_key c))).2;
  r_exec_own r t c :
    r_view (r_exec r t c).1 t (cmd_key c) =
      (key_step r_round t c (r_view r t (cmd_key c))).1;
  (** ... and on no other. *)
  r_exec_frame r t t' c k : (t <= t')%Z -> k <> cmd_key c ->
    r_view (r_exec r t c).1 t' k = r_view r t' k;
}.

(** ** A concrete server *)

Abbreviation Store := (gmap string entry).

Definition store_exec (r : Store) (t : moment) (c : cmd) : Store * reply :=
  let '(e, rep) := key_step (fun rem => (rem + 500000) / SECOND)%Z t c (age t (r !! cmd_key c)) in
  (match e with Some e => <[cmd_key c := e]> r | None => delete (cmd_key c) r end, rep).

#[global] Instance store_server : RedisServer Store := {
  r_exec := store_exec;
  r_view r t k := age t (r !! k);
  r_round rem := ((rem + 500000) / SECOND)%Z;
}.

Lemma age_age t t' e : (t <= t')%Z -> age t' (age t e) = age t' e.
Proof.
  intros Ht. destruct e as [[v [d|]]|]; simpl; [|done|done].
  destruct (Z.ltb_spec t d); simpl; [done|].
  destruct (Z.ltb_spec t' d); [lia|done].
Qed.

(** What a command leaves behind is still there at the moment it ran. *)
Lemma key_step_live round t c e :
  age t e = e -> age t (key_step round t c e).1 = (key_step round t c e).1.
Proof.
  intros He.
  destruct c as [k|k v nx [n|]|k|k|k|k m|k m|k|k n|k|k], e as [[[s|s] [d|]]|];
    simpl in He |- *; repeat (case_match; simpl in *; simplify_eq; bool_prop);
    try done; first [lia | unfold SECOND in *; lia].
Qed.

#[global] Instance store_laws : RedisLaws Store.
Proof.
  split.
  - intros rem H. simpl. unfold SECOND.
    pose proof (Z.div_mod (rem + 500000) 1000000 ltac:(done)).
    pose proof (Z.mod_pos_bound (rem + 500000) 1000000 ltac:(done)). lia.
  - intros r t t' k Ht. simpl. by rewrite age_age.
  - intros r t c. simpl. unfold store_exec. by destruct (key_step _ _ _ _) as [[]].
  - intros r t c. simpl. unfold store_exec.
    pose proof (key_step_live (fun rem => (rem + 500000) / SECOND)%Z t c (age t (r !! cmd_key c))
      ltac:(by apply age_age)) as Hl.
    destruct (key_step _ _ _ _) as [[e|] rep]; simpl in *.
    + by rewrite lookup_insert_eq.
    + by rewrite lookup_delete_eq.
  - intros r t t' c k Ht Hk. simpl. unfold store_exec.
    destruct (key_step _ _ _ _) as [[e|] rep]; simpl.
    + by rewrite lookup_insert_ne.
    + by rewrite lookup_delete_ne.
Qed.

(** ** Programs *)

Inductive prog (A : Type) : Type :=
| Ret (a : A)
| Throw (e : exn)
| Do (c : cmd) (k : reply -> prog A).
Arguments Ret {A} _.
Arguments Throw {A} _.
Arguments Do {A} _ _.

Fixpoint pbind {A B} (p : prog A) (f : A -> prog B) : prog B :=
  match p with
  | Ret a => f a
  | Throw e => Throw e
  | Do c k => Do c (fun r => pbind (k r) f)
  end.

(** [try: p except Exception as e: h e]. *)
Fixpoint pcatch {A} (p : prog A) (h : exn -> prog A) : prog A :=
  match p with
  | Ret a => Ret a
  | Throw e => h e
  | Do c k => Do c (fun r => pcatch (k r) h)
  end.

(** [for x in l: f(x)]. *)
Fixpoint pfor {A} (l : list A) (f : A -> prog unit) : prog unit :=
  match l with
  | [] => Ret tt
  | x :: l' => pbind (f x) (fun _ => pfor l' f)
  end.

Notation "'await*' x := p 'in' k" := (pbind p (fun x => k))
  (at level 10, x name, p at level 200, k at level 200) : campus_scope.
Notation "'do*' p ; k" := (pbind p (fun _ => k))
  (at level 10, p at level 200, k at level 200) : campus_scope.

(** The exception redis-py raises for a reply that is not a value. *)
Definition failed {A} (r : reply) : prog A :=
  Throw (match r with RDown => ConnectionError | _ => ResponseError end).

(** The client calls of redis-py the broker makes. *)
Definition redis_get (k : string) : prog (option scalar) :=
  Do (GET k) (fun r => match r with
    RScalar s => Ret (Some s) | RNil => Ret None | _ => failed r end).
Definition redis_set (k : string) (v : scalar) (ex : Z) : prog unit :=
  Do (SET k v false (Some ex)) (fun r => match r with ROk => Ret tt | _ => failed r end).
Definition redis_set_nx (k : string) (v : scalar) (ex : Z) : prog bool :=
  Do (SET k v true (Some ex)) (fun r => match r with
    ROk => Ret true | RNil => Ret false | _ => failed r end).
Definition redis_getdel (k : string) : prog (option scalar) :=
  Do (GETDEL k) (fun r => match r with
    RScalar s => Ret (Some s) | RNil => Ret None | _ => failed r end).
Definition redis_int (c : cmd) : prog Z :=
  Do c (fun r => match r with RInt z => Ret z | _ => failed r end).
Definition redis_delete (k : string) : prog unit :=
  do* redis_int (DEL k); Ret tt.
Definition redis_exists (k : string) : prog bool :=
  await* n := redis_int (EXISTS k) in Ret (negb (n =? 0)%Z).
Definition redis_incr (k : string) : prog Z := redis_int (INCR k).
Definition redis_ttl (k : string) : prog Z := redis_int (TTL k).

(** [campusid/cache.py]. *)
Definition set_add (k m : string) : prog unit :=
  do* redis_int (SADD k m); Ret tt.
Definition set_remove (k m : string) : prog unit :=
  do* redis_int (SREM k m); Ret tt.
Definition set_members (k : string) : prog (list string) :=
  Do (SMEMBERS k) (fun r => match r with
    RMembers s => Ret (merge_sort String.le (elements s)) | _ => failed r end).
Definition expire_key (k : string) (seconds : Z) : prog unit :=
  do* redis_int (EXPIRE k seconds); Ret tt.

(** ** Running a program with nothing in between *)

Section run.
Context {R : Type} `{RedisServer R}.

Fixpoint run {A} (p : prog A) (r : R) (t : moment) : R * result exn A :=
  match p with
  | Ret a => (r, Ok a)
  | Throw e => (r, Err e)
  | Do c k => let '(r', rep) := r_exec r t c in run (k rep) r' t
  end.

(** ** Interleaving

    A pool of programs against one server: a step executes the next command of
    one program, at a moment no earlier than the last, or a command of
    somebody else, which [env] admits. *)
Record config (A : Type) : Type :=
  Config { cf_clock : moment; cf_redis : R; cf_pool : list (prog A) }.
Arguments Config {A} _ _ _.
Arguments cf_clock {A} _.
Arguments cf_redis {A} _.
Arguments cf_pool {A} _.

Inductive step {A} (env : cmd -> Prop) : config A -> config A -> Prop :=
| step_thread i c k t t' r pool :
    pool !! i = Some (Do c k) -> (t <= t')%Z ->
    step env (Config t r pool)
      (Config t' (r_exec r t' c).1 (<[i := k (r_exec r t' c).2]> pool))
| step_env c t t' r pool :
    env c -> (t <= t')%Z ->
    step env (Config t r pool) (Config t' (r_exec r t' c).1 pool).
End run.
Arguments config R A : clear implicits.
Arguments Config {R A} _ _ _.
Arguments cf_clock {R A} _.
Arguments cf_redis {R A} _.
Arguments cf_pool {R A} _.

(** A schedule: which thread runs its next command, and when. *)
Fixpoint sched {R A} `{RedisServer R} (l : list (nat * moment)) (cf : config R A) : config R A :=
  match l with
  | [] => cf
  | (i, t') :: l' =>
      sched l' (match cf_pool cf !! i with
                | Some (Do c k) =>
                    if (cf_clock cf <=? t')%Z then
                      let '(r, rep) := r_exec (cf_redis cf) t' c in
                      Config t' r (<[i := k rep]> (cf_pool cf))
                    else cf
                | _ => cf
                end)
  end.

Lemma sched_steps {R A} `{RedisServer R} env l (cf : config R A) :
  rtc (step env) cf (sched l cf).
Proof.
  revert cf. induction l as [|[i t'] l IH]; intros cf; [done|]. simpl.
  destruct (cf_pool cf !! i) as [[a|e|c k]|] eqn:E; try apply IH.
  destruct (Z.leb_spec (cf_clock cf) t'); [|apply IH].
  eapply rtc_l; [|apply IH]. destruct cf as [t r pool]. simpl in *.
  pose proof (step_thread env i c k t t' r pool E ltac:(lia)) as S.
  by destruct (r_exec r t' c).
Qed.

(** ** Reasoning about runs *)

Section lemmas.
Context {R : Type} `{RedisLaws R}.

Lemma run_bind {A B} (p : prog A) (f : A -> prog B) (r : R) t :
  run (pbind p f) r t =
    match run p r t with
    | (r', Ok a) => run (f a) r' t
    | (r', Err e) => (r', Err e)
    end.
Proof.
  revert r. induction p as [a|e|c k IH]; intros r; [done..|].
  simpl. destruct (r_exec r t c) as [r' rep]. apply IH.
Qed.

(** The view after a command, at any later moment. *)
Lemma exec_view (r : R) t t' c k :
  (t <= t')%Z ->
  r_view (r_exec r t c).1 t' k =
    if decide (k = cmd_key c)
    then age t' (key_step r_round t c (r_view r t k)).1
    else r_view r t' k.
Proof.
  intros Ht. case_decide as E.
  - subst k. rewrite (r_view_age _ t t') by done. by rewrite r_exec_own.
  - by apply r_exec_frame.
Qed.

Lemma exec_view_own (r : R) t t' c :
  (t <= t')%Z ->
  r_view (r_exec r t c).1 t' (cmd_key c) =
    age t' (key_step r_round t c (r_view r t (cmd_key c))).1.
Proof. intros. rewrite exec_view by done. by rewrite decide_True. Qed.

Lemma view_live (r : R) t k v d :
  r_view r t k = Some (Entry v (Some d)) -> (t < d)%Z.
Proof.
  intros E. pose proof (r_view_age r t t k ltac:(lia)) as A. rewrite E in A. simpl in A.
  destruct (Z.ltb_spec t d); [done|congruence].
Qed.

Lemma view_None_later (r : R) t t' k :
  (t <= t')%Z -> r_view r t k = None -> r_view r t' k = None.
Proof. intros Ht E. rewrite (r_view_age _ t t') by done. by rewrite E. Qed.

Lemma view_Some_later (r : R) t t' k v d :
  (t <= t')%Z -> (t' < d)%Z -> r_view r t k = Some (Entry v (Some d)) ->
  r_view r t' k = Some (Entry v (Some d)).
Proof.
  intros Ht Hd E. rewrite (r_view_age _ t t') by done. rewrite E. simpl.
  destruct (Z.ltb_spec t' d); [done|lia].
Qed.

(** Only a command on [k] changes what [k] holds. *)
Lemma exec_view_ne (r : R) t t' c k :
  (t <= t')%Z -> cmd_key c <> k -> r_view (r_exec r t c).1 t' k = r_view r t' k.
Proof. intros. by apply r_exec_frame. Qed.
End lemmas.

#[export] Hint Resolve view_None_later view_Some_later exec_view_ne : campus.

(** ** The server as a map

    At one moment a server is the map from its keys to what they hold.  [vrun]
    runs a program on such a map; [run_vrun] says that every server satisfying
    the laws does what [vrun] does, so a client is reasoned about on maps. *)

Abbreviation kview := (string -> option entry).

Definition vupd (v : kview) (k : string) (e : option entry) : kview :=
  fun k' => if decide (k' = k) then e else v k'.

#[global] Arguments vupd : simpl never.

Fixpoint vrun {A} (round : Z -> Z) (p : prog A) (v : kview) (t : moment)
  : kview * result exn A :=
  match p with
  | Ret a => (v, Ok a)
  | Throw e => (v, Err e)
  | Do c k =>
      let '(e, rep) := key_step round t c (v (cmd_key c)) in
      vrun round (k rep) (vupd v (cmd_key c) e) t
  end.

Lemma vupd_eq v k e : vupd v k e k = e.
Proof. unfold vupd. by rewrite decide_True. Qed.

Lemma vupd_ne v k k' e : k' <> k -> vupd v k e k' = v k'.
Proof. intros. unfold vupd. by rewrite decide_False. Qed.

#[global] Opaque vupd.

Lemma vrun_bind {A B} round (p : prog A) (f : A -> prog B) v t :
  vrun round (pbind p f) v t =
    match vrun round p v t with
    | (v', Ok a) => vrun round (f a) v' t
    | (v', Err e) => (v', Err e)
    end.
Proof.
  revert v. induction p as [a|e|c k IH]; intros v; [done..|].
  simpl. destruct (key_step _ _ _ _) as [e rep]. apply IH.
Qed.

Lemma vrun_ext {A} round (p : prog A) v w t :
  (forall k, v k = w k) ->
  (vrun round p v t).2 = (vrun round p w t).2 /\
  forall k, (vrun round p v t).1 k = (vrun round p w t).1 k.
Proof.
  revert v w. induction p as [a|e|c k IH]; intros v w Hvw; [done..|].
  simpl. rewrite <- Hvw. destruct (key_step _ _ _ _) as [e rep]. apply IH.
  intros k'. destruct (decide (k' = cmd_key c)) as [->|];
    [by rewrite !vupd_eq | by rewrite !vupd_ne].
Qed.

(** Every key a program names, whatever the replies, satisfies [P]. *)
Fixpoint touches {A} (P : string -> Prop) (p : prog A) : Prop :=
  match p with
  | Ret _ | Throw _ => True
  | Do c k => P (cmd_key c) /\ forall rep, touches P (k rep)
  end.

Lemma touches_bind {A B} P (p : prog A) (f : A -> prog B) :
  touches P p -> (forall a, touches P (f a)) -> touches P (pbind p f).
Proof. intros Hp Hf. induction p as [a|e|c k IH]; simpl in *; [apply Hf|done|naive_solver]. Qed.

Lemma touches_weaken {A} (P Q : string -> Prop) (p : prog A) :
  touches P p -> (forall k, P k -> Q k) -> touches Q p.
Proof. intros Hp HPQ. induction p as [a|e|c k IH]; simpl in *; [done..|naive_solver]. Qed.

Lemma touches_pfor {A} P (l : list A) (f : A -> prog unit) :
  (forall x, touches P (f x)) -> touches P (pfor l f).
Proof. intros Hf. induction l; simpl; [done|by apply touches_bind]. Qed.

Section refinement.
Context {R : Type} `{RedisLaws R}.

Lemma run_vrun {A} (p : prog A) (r : R) v t :
  (forall k, r_view r t k = v k) ->
  (run p r t).2 = (vrun r_round p v t).2 /\
  forall k, r_view (run p r t).1 t k = (vrun r_round p v t).1 k.
Proof.
  revert r v. induction p as [a|e|c k IH]; intros r v Hv; [done..|].
  simpl. rewrite <- Hv.
  pose proof (r_exec_reply r t c) as Hrep. pose proof (exec_view r t t c) as Hown.
  destruct (r_exec r t c) as [r' rep]. destruct (key_step _ _ _ _) as [e rep'] eqn:E.
  simpl in *. subst rep. apply IH. intros k'. rewrite Hown by lia.
  case_decide as D; [|rewrite vupd_ne by done; apply Hv]. subst k'. rewrite E, vupd_eq.
  pose proof (key_step_live r_round t c (r_view r t (cmd_key c))) as L.
  rewrite E in L. apply L. by rewrite <- r_view_age.
Qed.

(** The same, at a later moment. *)
Lemma run_vrun_later {A} (p : prog A) (r : R) t t' k :
  (t <= t')%Z ->
  r_view (run p r t).1 t' k = age t' ((vrun r_round p (r_view r t) t).1 k).
Proof.
  intros Ht. rewrite (r_view_age _ t t') by done. f_equal. by apply run_vrun.
Qed.

Lemma run_result {A} (p : prog A) (r : R) t :
  (run p r t).2 = (vrun r_round p (r_view r t) t).2.
Proof. by apply run_vrun. Qed.

Lemma view_self_live (r : R) t k : age t (r_view r t k) = r_view r t k.
Proof. by rewrite <- r_view_age. Qed.

(** A program leaves the keys it does not name alone. *)
Lemma run_frame {A} (P : string -> Prop) (p : prog A) (r : R) t t' k :
  touches P p -> ~ P k -> (t <= t')%Z -> r_view (run p r t).1 t' k = r_view r t' k.
Proof.
  intros Hp Hk Ht. revert r. induction p as [a|e|c f IH]; intros r; [done..|].
  destruct Hp as [Hc Hf]. simpl. pose proof (r_exec_frame r t t' c k Ht) as Hfr.
  destruct (r_exec r t c) as [r' rep]. rewrite IH by done. apply Hfr. congruence.
Qed.
End refinement.

Lemma age_live t v d : (t < d)%Z -> age t (Some (Entry v (Some d))) = Some (Entry v (Some d)).
Proof. intros. simpl. destruct (Z.ltb_spec t d); [done|lia]. Qed.

Lemma age_dead t v d : (d <= t)%Z -> age t (Some (Entry v (Some d))) = None.
Proof. intros. simpl. destruct (Z.ltb_spec t d); [lia|done]. Qed.

Lemma age_Some t o e :
  age t o = Some e -> o = Some e /\ match e_deadline e with Some d => (t < d)%Z | None => True end.
Proof.
  destruct o as [[v [d|]]|]; simpl; [|by intros [= <-]|done].
  destruct (Z.ltb_spec t d); [by intros [= <-]|done].
Qed.

(** What [SET ... EX n] writes is there for [n] seconds. *)
Lemma age_set t t' n v : (t' < t + n * SECOND)%Z ->
  age t' (Some (Entry v (Some (t + n * SECOND)%Z))) = Some (Entry v (Some (t + n * SECOND)%Z)).
Proof. apply age_live. Qed.

Lemma age_set_now t n v : (0 < n)%Z ->
  age t (Some (Entry v (Some (t + n * SECOND)%Z))) = Some (Entry v (Some (t + n * SECOND)%Z)).
Proof. intros. apply age_set. unfold SECOND. lia. Qed.

#[global] Arguments age : simpl never.

(** Keys under prefixes that differ somewhere are different. *)
Ltac key_ne := solve [ let E := fresh in intros E; discriminate E | congruence ].

(** Evaluates [vrun] on the client calls, exposing [key_step]. *)
Ltac vrun_simpl :=
  unfold redis_get, redis_set, redis_set_nx, redis_getdel, redis_delete, redis_exists,
    redis_incr, redis_ttl, redis_int, set_add, set_remove, expire_key in *; simpl in *.
