(* ===== verification/Codec.v ===== *)
(** * Reading stored documents back

    [json.loads] followed by a dataclass constructor, as the [from_json] class
    methods do it: [payload["k"]] raises [KeyError] for a missing key, the
    constructor raises [TypeError] for a missing required field and fills a
    missing optional one with its default.  The dataclasses do not check the
    types of their fields; a document whose field has another type than the
    annotation is [TypeError] here. *)

From S2P Require Import Prelude PyStr Json Errors Redis.

Module Codec.

Definition members (s : scalar) : result exn (list (string * json)) :=
  match s with
  | SJson (JObj m) => Ok m
  | _ => Err TypeError
  end.

(** [payload[k]]. *)
Definition item (m : list (string * json)) (k : string) : result exn json :=
  match Json.lookup m k with Some v => Ok v | None => Err KeyError end.

(** A required constructor argument. *)
Definition required (m : list (string * json)) (k : string) : result exn json :=
  match Json.lookup m k with Some v => Ok v | None => Err TypeError end.

(** An optional one. *)
Definition optional (m : list (string * json)) (k : string) (default : json) : json :=
  match Json.lookup m k with Some v => v | None => default end.

Definition as_str (j : json) : result exn string :=
  match j with JStr s => Ok s | _ => Err TypeError end.
Definition as_opt_str (j : json) : result exn (option string) :=
  match j with JStr s => Ok (Some s) | JNull => Ok None | _ => Err TypeError end.
Definition as_int (j : json) : result exn Z :=
  match j with JInt z => Ok z | _ => Err TypeError end.
(** [tuple(payload[k])]. *)
Definition as_strings (j : json) : result exn (list string) :=
  match j with
  | JArr l => match Json.strings l with Some ss => Ok ss | None => Err TypeError end
  | _ => Err TypeError
  end.
(** [datetime.fromisoformat(payload[k])]. *)
Definition as_moment (j : json) : result exn moment :=
  match j with JIso t => Ok t | JStr _ => Err ValueError | _ => Err TypeError end.
Definition as_opt_moment (j : json) : result exn (option moment) :=
  match j with JNull => Ok None | _ => let* t := as_moment j in Ok (Some t) end.

(** The constructor's [**payload] names no field the class does not have. *)
Definition only_fields (m : list (string * json)) (fields : list string) : bool :=
  forallb (fun kv => existsb (String.eqb kv.1) fields) m.

Definition of_strings (l : list string) : json := JArr (JStr <$> l).
Definition of_opt_str (o : option string) : json :=
  match o with Some s => JStr s | None => JNull end.
Definition of_opt_moment (o : option moment) : json :=
  match o with Some t => JIso t | None => JNull end.

(** A result inside a program. *)
Definition lift {A} (r : result exn A) : prog A :=
  match r with Ok a => Ret a | Err e => Throw e end.

Lemma as_strings_of l : as_strings (of_strings l) = Ok l.
Proof. unfold as_strings, of_strings. by rewrite Json.strings_JStr. Qed.
Lemma as_opt_str_of o : as_opt_str (of_opt_str o) = Ok o.
Proof. by destruct o. Qed.
Lemma as_opt_moment_of o : as_opt_moment (of_opt_moment o) = Ok o.
Proof. by destruct o. Qed.

End Codec.

Arguments Codec.as_strings : simpl never.
Arguments Codec.of_strings : simpl never.
Arguments Codec.as_opt_str : simpl never.
Arguments Codec.of_opt_str : simpl never.
Arguments Codec.as_opt_moment : simpl never.
Arguments Codec.of_opt_moment : simpl never.

#[export] Hint Rewrite Codec.as_strings_of Codec.as_opt_str_of Codec.as_opt_moment_of : campus.

(** Evaluates a [from_json] applied to a document [to_json] built. *)
Ltac json_roundtrip :=
  unfold Codec.optional; repeat (progress (simpl; autorewrite with campus)).
