(* ===== verification/OneShot.v ===== *)
(** * Single use under interleaving

    The broker makes a credential single-use with [SET key NX EX]: a program
    returns only behind a winning [SET NX].  [gated] describes such programs and
    [gated_single_winner] shows that, however their commands interleave with
    each other and with the rest of the broker, at most one of them returns
    within the lifetime of the marker.  A stored reference is made single-use
    with [GETDEL]: [taker] and [taker_single_winner] are the same for programs
    that succeed only behind a [GETDEL] that found something. *)

From S2P Require Import Prelude PyStr Json Errors Redis.

Section oneshot.
Context {R : Type} `{RedisLaws R} {A : Type}.
(** Which values count as success. *)
Context (won : A -> bool).
(** The marker key and its lifetime in seconds. *)
Context (marker : string) (n : Z) (n_pos : (0 < n)%Z).

(** Never touches the marker. *)
Fixpoint quiet (p : prog A) : Prop :=
  match p with
  | Ret _ | Throw _ => True
  | Do c k => cmd_key c <> marker /\ forall rep, quiet (k rep)
  end.

(** Never touches the marker and never succeeds. *)
Fixpoint barren (p : prog A) : Prop :=
  match p with
  | Ret a => won a = false
  | Throw _ => True
  | Do c k => cmd_key c <> marker /\ forall rep, barren (k rep)
  end.

(** Succeeds only after winning the marker. *)
Inductive gated : prog A -> Prop :=
| gated_barren p : barren p -> gated p
| gated_lock_for v m k :
    (n <= m)%Z -> (forall rep, rep <> ROk -> barren (k rep)) -> quiet (k ROk) ->
    gated (Do (SET marker v true (Some m)) k)
| gated_do c k :
    cmd_key c <> marker -> (forall rep, gated (k rep)) -> gated (Do c k).

Lemma gated_lock v k :
  (forall rep, rep <> ROk -> barren (k rep)) -> quiet (k ROk) ->
  gated (Do (SET marker v true (Some n)) k).
Proof. by apply gated_lock_for. Qed.

Lemma gated_no_return a : won a = true -> ~ gated (Ret a).
Proof. inversion 2; subst; simpl in *; congruence. Qed.

Definition held_until (r : R) (t limit : moment) : Prop :=
  forall t', (t <= t' < limit)%Z -> r_view r t' marker <> None.

(** Either nobody has won, or exactly one thread has and the marker is held. *)
Definition one_winner (limit : moment) (cf : config R A) : Prop :=
  (forall i p, cf_pool cf !! i = Some p -> gated p) \/
  (held_until (cf_redis cf) (cf_clock cf) limit /\
   exists w, (forall p, cf_pool cf !! w = Some p -> quiet p) /\
     forall i p, i <> w -> cf_pool cf !! i = Some p -> gated p).

Lemma exec_held r t t' c limit :
  (t <= t')%Z -> cmd_key c <> marker ->
  held_until r t limit -> held_until (r_exec r t' c).1 t' limit.
Proof.
  intros Ht Hc Hh t'' Ht''. rewrite exec_view_ne by (done || lia). apply Hh. lia.
Qed.

Lemma lock_won r t v m :
  (n <= m)%Z -> (r_exec r t (SET marker v true (Some m))).2 = ROk ->
  r_view r t marker = None /\
  held_until (r_exec r t (SET marker v true (Some m))).1 t (t + n * SECOND).
Proof.
  intros Hm. rewrite r_exec_reply. simpl. intros Hrep.
  destruct (Z.leb_spec m 0); [lia|].
  destruct (r_view r t marker) eqn:E; [done|]. split; [done|].
  intros t' Ht'. change marker with (cmd_key (SET marker v true (Some m))).
  rewrite exec_view_own by lia. simpl. rewrite E.
  destruct (Z.leb_spec m 0); [lia|]. simpl. rewrite age_set; [done|]. unfold SECOND in *. lia.
Qed.

Lemma lock_lost r t t' v m limit :
  (n <= m)%Z -> (t <= t')%Z -> (r_exec r t' (SET marker v true (Some m))).2 <> ROk ->
  held_until r t limit ->
  held_until (r_exec r t' (SET marker v true (Some m))).1 t' limit.
Proof.
  intros Hm. rewrite r_exec_reply. simpl. intros Ht Hrep Hh t'' Ht''.
  change marker with (cmd_key (SET marker v true (Some m))) at 2.
  rewrite exec_view_own by lia. unfold key_step. simpl.
  destruct (Z.leb_spec m 0); [lia|].
  destruct (r_view r t' marker) as [e|] eqn:E; [|done]. cbn [fst is_live].
  rewrite <- E, <- r_view_age by lia. apply Hh. lia.
Qed.

(** One command of a gated program: it stays gated and a held marker stays
    held, or it wins a marker that was free. *)
Lemma gated_step c k r t' :
  gated (Do c k) ->
  (gated (k (r_exec r t' c).2) /\
    forall t limit, (t <= t')%Z -> held_until r t limit -> held_until (r_exec r t' c).1 t' limit) \/
  (quiet (k (r_exec r t' c).2) /\ r_view r t' marker = None /\
    held_until (r_exec r t' c).1 t' (t' + n * SECOND)).
Proof.
  inversion 1 as [? Hb|v m k' Hm Hb Hq|]; subst.
  - left. destruct Hb as [Hc Hb]. eauto using gated_barren, exec_held.
  - destruct (decide ((r_exec r t' (SET marker v true (Some m))).2 = ROk)) as [E|E].
    + right. rewrite E. split; [done|]. by apply lock_won.
    + left. eauto using gated_barren, lock_lost.
  - left. eauto using exec_held.
Qed.

Lemma one_winner_step env limit cf cf' :
  (forall c, env c -> cmd_key c <> marker) ->
  step env cf cf' -> (cf_clock cf' < limit)%Z -> (limit <= cf_clock cf' + n * SECOND)%Z ->
  one_winner limit cf -> one_winner limit cf'.
Proof.
  intros Henv Hstep Hlt Hle Hw.
  destruct Hstep as [i c k t t' r pool Hi Ht|c t t' r pool Hc Ht]; simpl in *; last first.
  { destruct Hw as [Hg|[Hh (w & Hq & Hg)]]; [by left|right]. simpl in *.
    split; [eauto using exec_held|by exists w]. }
  destruct Hw as [Hg|[Hh (w & Hq & Hg)]]; simpl in *.
  - destruct (gated_step c k r t' (Hg _ _ Hi)) as [[Hk _]|(Hk & _ & Hh)].
    + left. simpl. intros j p [(<- & <- & _)|[_ ?]]%list_lookup_insert_Some; eauto.
    + right. simpl. split; [intros t'' ?; apply Hh; lia|]. exists i. split.
      * intros p. rewrite list_lookup_insert_eq by eauto using lookup_lt_Some. congruence.
      * intros j p Hj. rewrite list_lookup_insert_ne by done. eauto.
  - right. simpl. destruct (decide (i = w)) as [->|Hne].
    + destruct (Hq _ Hi) as [Hc Hk]. split; [eauto using exec_held|]. exists w. split.
      * intros p. rewrite list_lookup_insert_eq by eauto using lookup_lt_Some.
        intros [= <-]. apply Hk.
      * intros j p Hj. rewrite list_lookup_insert_ne by done. eauto.
    + destruct (gated_step c k r t' (Hg _ _ Hne Hi)) as [[Hk Hh']|(_ & Hv & _)]; last first.
      { exfalso. apply (Hh t'); [lia|done]. }
      split; [eauto|]. exists w. split.
      * intros p. rewrite list_lookup_insert_ne by done. eauto.
      * intros j p Hj [(<- & <- & _)|[_ ?]]%list_lookup_insert_Some; eauto.
Qed.

Lemma step_clock env (cf cf' : config R A) : step env cf cf' -> (cf_clock cf <= cf_clock cf')%Z.
Proof. by destruct 1. Qed.

Lemma steps_clock env (cf cf' : config R A) :
  rtc (step env) cf cf' -> (cf_clock cf <= cf_clock cf')%Z.
Proof. induction 1 as [|x y z Hs _ IH]; [done|]. apply step_clock in Hs. lia. Qed.

Lemma gated_single_winner env t0 r pool cf i j a b :
  Forall gated pool ->
  (forall c, env c -> cmd_key c <> marker) ->
  rtc (step env) (Config t0 r pool) cf ->
  (cf_clock cf < t0 + n * SECOND)%Z ->
  cf_pool cf !! i = Some (Ret a) -> cf_pool cf !! j = Some (Ret b) ->
  won a = true -> won b = true -> i = j.
Proof.
  intros Hpool Henv Hsteps Hlt Hi Hj Ha Hb.
  assert (one_winner (t0 + n * SECOND) cf) as Hw.
 { clear Hi Hj. revert cf Hsteps Hlt.
    apply (rtc_ind_r (fun cf => (cf_clock cf < t0 + n * SECOND)%Z ->
      one_winner (t0 + n * SECOND) cf) (Config t0 r pool)).
    - intros _.  left. simpl. intros k p Hk. by eapply Forall_lookup_1 in Hpool.
    - intros y z Hy Hs IH Hz. pose proof (step_clock _ _ _ Hs).
      pose proof (steps_clock _ _ _ Hy) as Hc. simpl in Hc.
      eapply one_winner_step; eauto; [lia|apply IH; lia]. }
  destruct Hw as [Hg|[_ (w & _ & Hg)]].
  - exfalso. eapply gated_no_return; eauto.
  - destruct (decide (i = w)) as [->|]; [|by exfalso; eapply (gated_no_return a); eauto].
    destruct (decide (j = w)) as [->|]; [done|by exfalso; eapply (gated_no_return b); eauto].
Qed.
End oneshot.

Section taking.
Context {R : Type} `{RedisLaws R} {A : Type}.
Context (won : A -> bool).
(** The key of the reference. *)
Context (ref : string).

(** Succeeds only after taking the reference. *)
Inductive taker : prog A -> Prop :=
| taker_barren p : barren won ref p -> taker p
| taker_take k :
    (forall rep, (forall s, rep <> RScalar s) -> barren won ref (k rep)) ->
    (forall s, quiet ref (k (RScalar s))) ->
    taker (Do (GETDEL ref) k)
| taker_do c k :
    cmd_key c <> ref -> (forall rep, taker (k rep)) -> taker (Do c k).

Lemma taker_no_return a : won a = true -> ~ taker (Ret a).
Proof. inversion 2; subst; simpl in *; congruence. Qed.

Definition gone (r : R) (t : moment) : Prop := r_view r t ref = None.

Lemma exec_gone r t t' c :
  (t <= t')%Z -> cmd_key c <> ref -> gone r t -> gone (r_exec r t' c).1 t'.
Proof. unfold gone. intros. rewrite exec_view_ne by (done || lia). by eapply view_None_later. Qed.

(** One command of a taker: it stays one and a reference that is gone stays
    gone, or it takes a reference that was there. *)
Lemma taker_step c k r t' :
  taker (Do c k) ->
  (taker (k (r_exec r t' c).2) /\
    forall t, (t <= t')%Z -> gone r t -> gone (r_exec r t' c).1 t') \/
  (quiet ref (k (r_exec r t' c).2) /\ r_view r t' ref <> None /\ gone (r_exec r t' c).1 t').
Proof.
  inversion 1 as [? Hb|k' Hb Hq|]; subst.
  - left. destruct Hb as [Hc Hb]. eauto using taker_barren, exec_gone.
  - pose proof (r_exec_reply r t' (GETDEL ref)) as Hrep.
    pose proof (exec_view_own r t' t' (GETDEL ref) ltac:(lia)) as Hown.
    unfold gone. simpl in Hrep, Hown. rewrite Hrep, Hown.
    destruct (r_view r t' ref) as [[[s|m] d]|] eqn:E; simpl.
    + right. done.
    + left. split; [apply taker_barren, Hb; done|]. intros t Ht Hg.
      eapply view_None_later in Hg; [|exact Ht]. congruence.
    + left. split; [apply taker_barren, Hb; done|done].
  - left. eauto using exec_gone.
Qed.

Definition one_taker (cf : config R A) : Prop :=
  (forall i p, cf_pool cf !! i = Some p -> taker p) \/
  (gone (cf_redis cf) (cf_clock cf) /\
   exists w, (forall p, cf_pool cf !! w = Some p -> quiet ref p) /\
     forall i p, i <> w -> cf_pool cf !! i = Some p -> taker p).

Lemma one_taker_step env cf cf' :
  (forall c, env c -> cmd_key c <> ref) -> step env cf cf' -> one_taker cf -> one_taker cf'.
Proof.
  intros Henv Hstep Hw.
  destruct Hstep as [i c k t t' r pool Hi Ht|c t t' r pool Hc Ht]; simpl in *; last first.
  { destruct Hw as [Hg|[Hh (w & Hq & Hg)]]; [by left|right]. simpl in *.
    split; [eauto using exec_gone|by exists w]. }
  destruct Hw as [Hg|[Hh (w & Hq & Hg)]]; simpl in *.
  - destruct (taker_step c k r t' (Hg _ _ Hi)) as [[Hk _]|(Hk & _ & Hh)].
    + left. simpl. intros j p [(<- & <- & _)|[_ ?]]%list_lookup_insert_Some; eauto.
    + right. simpl. split; [done|]. exists i. split.
      * intros p. rewrite list_lookup_insert_eq by eauto using lookup_lt_Some. congruence.
      * intros j p Hj. rewrite list_lookup_insert_ne by done. eauto.
  - right. simpl. destruct (decide (i = w)) as [->|Hne].
    + destruct (Hq _ Hi) as [Hc Hk]. split; [eauto using exec_gone|]. exists w. split.
      * intros p. rewrite list_lookup_insert_eq by eauto using lookup_lt_Some.
        intros [= <-]. apply Hk.
      * intros j p Hj. rewrite list_lookup_insert_ne by done. eauto.
    + destruct (taker_step c k r t' (Hg _ _ Hne Hi)) as [[Hk Hh']|(_ & Hv & _)]; last first.
      { exfalso. apply Hv. by eapply view_None_later. }
      split; [eauto|]. exists w. split.
      * intros p. rewrite list_lookup_insert_ne by done. eauto.
      * intros j p Hj [(<- & <- & _)|[_ ?]]%list_lookup_insert_Some; eauto.
Qed.

Lemma taker_single_winner env t0 r pool cf i j a b :
  Forall taker pool ->
  (forall c, env c -> cmd_key c <> ref) ->
  rtc (step env) (Config t0 r pool) cf ->
  cf_pool cf !! i = Some (Ret a) -> cf_pool cf !! j = Some (Ret b) ->
  won a = true -> won b = true -> i = j.
Proof.
  intros Hpool Henv Hsteps Hi Hj Ha Hb.
  assert (one_taker cf) as Hw.
  { revert Hsteps. generalize (Config t0 r pool) (eq_refl : cf_pool (Config t0 r pool) = pool).
    intros cf0 E Hs. assert (one_taker cf0) as H0w.
    { left. rewrite E. intros k p Hk. by eapply Forall_lookup_1 in Hpool. }
    clear -Hs H0w Henv H0. induction Hs; eauto using one_taker_step. }
  destruct Hw as [Hg|[_ (w & _ & Hg)]].
  - exfalso. by eapply taker_no_return; eauto.
  - destruct (decide (i = w)) as [->|]; [|by exfalso; eapply (taker_no_return a); eauto].
    destruct (decide (j = w)) as [->|]; [done|by exfalso; eapply (taker_no_return b); eauto].
Qed.
End taking.
