(* ===== verification/Grants.v ===== *)
(** * Authorization codes and refresh token families

    [campusid/oidc/grants.py]: single-use authorization codes, rotating refresh
    tokens, and the revocation of a whole token family on reuse.  The digest
    under which a credential is stored is a parameter; tokens come from
    [secrets.token_urlsafe] and are arguments. *)

From S2P Require Import Prelude PyStr Json Errors Redis Codec OneShot.

Module Grants.

Definition CODE_KEY_PREFIX := "oidc:code:".
Definition CODE_SPENT_PREFIX := "oidc:code:spent:".
Definition REFRESH_KEY_PREFIX := "oidc:refresh:".
Definition REFRESH_SPENT_PREFIX := "oidc:refresh:spent:".
Definition FAMILY_REVOKED_PREFIX := "oidc:family:revoked:".
Definition SESSION_FAMILY_PREFIX := "oidc:session-families:".

Definition CODE_TTL : duration := 60 * SECOND.
Definition REFRESH_TTL : duration := 14 * 86400 * SECOND.

(** What was authorised, held between the authorization and token endpoints. *)
Record AuthorizationCode : Type := {
  ac_client_id : string;
  ac_redirect_uri : string;
  ac_code_challenge : string;
  ac_scopes : list string;
  ac_subject : string;
  ac_sid : string;
  ac_family_id : string;
  ac_nonce : option string;
  ac_auth_time : option moment;
  ac_acr : option string;
  ac_amr : list string;
}.

Definition code_to_json (g : AuthorizationCode) : json := JObj [
  ("client_id", JStr (ac_client_id g));
  ("redirect_uri", JStr (ac_redirect_uri g));
  ("code_challenge", JStr (ac_code_challenge g));
  ("scopes", Codec.of_strings (ac_scopes g));
  ("subject", JStr (ac_subject g));
  ("sid", JStr (ac_sid g));
  ("family_id", JStr (ac_family_id g));
  ("nonce", Codec.of_opt_str (ac_nonce g));
  ("auth_time", Codec.of_opt_moment (ac_auth_time g));
  ("acr", Codec.of_opt_str (ac_acr g));
  ("amr", Codec.of_strings (ac_amr g))].

Definition code_from_json (raw : scalar) : result exn AuthorizationCode :=
  let* m := Codec.members raw in
  let* scopes := rbind (Codec.item m "scopes") Codec.as_strings in
  let* amr := rbind (Codec.item m "amr") Codec.as_strings in
  let* auth_time := rbind (Codec.item m "auth_time") Codec.as_opt_moment in
  raise* TypeError when negb (Codec.only_fields m ["client_id"; "redirect_uri";
    "code_challenge"; "scopes"; "subject"; "sid"; "family_id"; "nonce"; "auth_time";
    "acr"; "amr"]);
  let* client_id := rbind (Codec.required m "client_id") Codec.as_str in
  let* redirect_uri := rbind (Codec.required m "redirect_uri") Codec.as_str in
  let* code_challenge := rbind (Codec.required m "code_challenge") Codec.as_str in
  let* subject := rbind (Codec.required m "subject") Codec.as_str in
  let* sid := rbind (Codec.required m "sid") Codec.as_str in
  let* family_id := rbind (Codec.required m "family_id") Codec.as_str in
  let* nonce := Codec.as_opt_str (Codec.optional m "nonce" JNull) in
  let* acr := Codec.as_opt_str (Codec.optional m "acr" JNull) in
  Ok {| ac_client_id := client_id; ac_redirect_uri := redirect_uri;
        ac_code_challenge := code_challenge; ac_scopes := scopes; ac_subject := subject;
        ac_sid := sid; ac_family_id := family_id; ac_nonce := nonce;
        ac_auth_time := auth_time; ac_acr := acr; ac_amr := amr |}.

(** A refresh token's record: what it may be exchanged for, and its lineage. *)
Record RefreshToken : Type := {
  rt_client_id : string;
  rt_scopes : list string;
  rt_subject : string;
  rt_sid : string;
  rt_family_id : string;
  rt_generation : Z;
  rt_issued_at : moment;
}.

Definition refresh_to_json (r : RefreshToken) : json := JObj [
  ("client_id", JStr (rt_client_id r));
  ("scopes", Codec.of_strings (rt_scopes r));
  ("subject", JStr (rt_subject r));
  ("sid", JStr (rt_sid r));
  ("family_id", JStr (rt_family_id r));
  ("generation", JInt (rt_generation r));
  ("issued_at", JIso (rt_issued_at r))].

Definition refresh_from_json (raw : scalar) : result exn RefreshToken :=
  let* m := Codec.members raw in
  let* scopes := rbind (Codec.item m "scopes") Codec.as_strings in
  let* issued_at := rbind (Codec.item m "issued_at") Codec.as_moment in
  raise* TypeError when negb (Codec.only_fields m ["client_id"; "scopes"; "subject"; "sid";
    "family_id"; "generation"; "issued_at"]);
  let* client_id := rbind (Codec.required m "client_id") Codec.as_str in
  let* subject := rbind (Codec.required m "subject") Codec.as_str in
  let* sid := rbind (Codec.required m "sid") Codec.as_str in
  let* family_id := rbind (Codec.required m "family_id") Codec.as_str in
  let* generation := rbind (Codec.required m "generation") Codec.as_int in
  Ok {| rt_client_id := client_id; rt_scopes := scopes; rt_subject := subject; rt_sid := sid;
        rt_family_id := family_id; rt_generation := generation; rt_issued_at := issued_at |}.

Lemma code_json_roundtrip g : code_from_json (SJson (code_to_json g)) = Ok g.
Proof. unfold code_from_json. json_roundtrip. by destruct g. Qed.

Lemma refresh_json_roundtrip r : refresh_from_json (SJson (refresh_to_json r)) = Ok r.
Proof. unfold refresh_from_json. json_roundtrip. by destruct r. Qed.

Section store.
(** [hashlib.sha256(token.encode("ascii")).hexdigest()]. *)
Context (sha256_hex : string -> string).
(** The constructor arguments of [GrantStore]. *)
Context (code_ttl refresh_ttl : duration).

(** What is stored in place of the credential: encoding a token that is not
    ASCII raises. *)
Definition _digest (token : string) : prog string :=
  if Py.is_ascii token then Ret (sha256_hex token) else Throw UnicodeEncodeError.

Definition issue_code (token : string) (grant : AuthorizationCode) : prog string :=
  await* digest := _digest token in
  do* redis_set (CODE_KEY_PREFIX +:+ digest) (SJson (code_to_json grant))
        (ttl_seconds code_ttl);
  let session_families := SESSION_FAMILY_PREFIX +:+ ac_sid grant in
  do* set_add session_families (ac_family_id grant);
  do* expire_key session_families (ttl_seconds refresh_ttl);
  Ret token.

Definition revoke_family (family_id : string) : prog unit :=
  redis_set (FAMILY_REVOKED_PREFIX +:+ family_id) (SText "1") (ttl_seconds refresh_ttl).

Definition is_family_revoked (family_id : string) : prog bool :=
  redis_exists (FAMILY_REVOKED_PREFIX +:+ family_id).

Definition redeem_code (code client_id redirect_uri : string) : prog AuthorizationCode :=
  await* digest := _digest code in
  await* raw := redis_get (CODE_KEY_PREFIX +:+ digest) in
  match raw with
  | None => Throw (OAuthError INVALID_GRANT GRANT_INVALID)
  | Some raw =>
      await* grant := Codec.lift (code_from_json raw) in
      await* first_use :=
        redis_set_nx (CODE_SPENT_PREFIX +:+ digest) (SText "1") (ttl_seconds code_ttl) in
      if negb first_use then
        do* revoke_family (ac_family_id grant);
        Throw (GrantReuse INVALID_GRANT GRANT_REUSE_DETECTED)
      else if negb (String.eqb (ac_client_id grant) client_id) then
        do* revoke_family (ac_family_id grant);
        Throw (OAuthError INVALID_GRANT GRANT_INVALID)
      else if negb (String.eqb (ac_redirect_uri grant) redirect_uri) then
        Throw (OAuthError INVALID_GRANT GRANT_INVALID)
      else Ret grant
  end.

Definition issue_refresh_token (token : string) (record : RefreshToken) : prog string :=
  await* digest := _digest token in
  do* redis_set (REFRESH_KEY_PREFIX +:+ digest) (SJson (refresh_to_json record))
        (ttl_seconds refresh_ttl);
  Ret token.

(** The successor record of a rotation. *)
Definition successor_of (record : RefreshToken) (now : moment) : RefreshToken :=
  {| rt_client_id := rt_client_id record; rt_scopes := rt_scopes record;
     rt_subject := rt_subject record; rt_sid := rt_sid record;
     rt_family_id := rt_family_id record; rt_generation := rt_generation record + 1;
     rt_issued_at := now |}.

Definition rotate_refresh_token (new_token token client_id : string) (now : moment)
  : prog (string * RefreshToken) :=
  await* digest := _digest token in
  await* raw := redis_get (REFRESH_KEY_PREFIX +:+ digest) in
  match raw with
  | None => Throw (OAuthError INVALID_GRANT GRANT_INVALID)
  | Some raw =>
      await* record := Codec.lift (refresh_from_json raw) in
      await* revoked := is_family_revoked (rt_family_id record) in
      if (revoked : bool) then Throw (OAuthError INVALID_GRANT GRANT_REVOKED)
      else
        await* first_use :=
          redis_set_nx (REFRESH_SPENT_PREFIX +:+ digest) (SText "1")
            (ttl_seconds refresh_ttl) in
        if negb first_use then
          do* revoke_family (rt_family_id record);
          Throw (GrantReuse INVALID_GRANT GRANT_REUSE_DETECTED)
        else if negb (String.eqb (rt_client_id record) client_id) then
          do* revoke_family (rt_family_id record);
          Throw (OAuthError INVALID_GRANT GRANT_INVALID)
        else
          let successor := successor_of record now in
          await* issued := issue_refresh_token new_token successor in
          Ret (issued, successor)
  end.

Definition describe_refresh_token (token : string) : prog (option RefreshToken) :=
  await* digest := _digest token in
  await* raw := redis_get (REFRESH_KEY_PREFIX +:+ digest) in
  match raw with
  | Some raw => await* record := Codec.lift (refresh_from_json raw) in Ret (Some record)
  | None => Ret None
  end.

Definition revoke_session_families (sid : string) : prog (list string) :=
  let key := SESSION_FAMILY_PREFIX +:+ sid in
  await* families := set_members key in
  do* pfor families revoke_family;
  do* redis_delete key;
  Ret families.
End store.

(** ** Properties *)

Section proofs.
Context {R : Type} `{RedisLaws R}.
Context (sha256_hex : string -> string).
(** A hexadecimal digest has no colon. *)
Context (digest_hex : forall s, Py.has_char ":" (sha256_hex s) = false).
Context (code_ttl refresh_ttl : duration).

Abbreviation code_key c := (CODE_KEY_PREFIX +:+ sha256_hex c).
Abbreviation spent_key c := (CODE_SPENT_PREFIX +:+ sha256_hex c).
Abbreviation family_key f := (FAMILY_REVOKED_PREFIX +:+ f).
Abbreviation refresh_key c := (REFRESH_KEY_PREFIX +:+ sha256_hex c).
Abbreviation rspent_key c := (REFRESH_SPENT_PREFIX +:+ sha256_hex c).
Abbreviation redeem := (redeem_code sha256_hex code_ttl refresh_ttl).
Abbreviation rotate := (rotate_refresh_token sha256_hex refresh_ttl).

Lemma spent_key_ne c c' : spent_key c <> code_key c'.
Proof.
  change CODE_SPENT_PREFIX with (CODE_KEY_PREFIX +:+ "spent:").
  by apply Py.subprefix_ne with (c := ":"%char).
Qed.

Lemma rspent_key_ne c c' : rspent_key c <> refresh_key c'.
Proof.
  change REFRESH_SPENT_PREFIX with (REFRESH_KEY_PREFIX +:+ "spent:").
  by apply Py.subprefix_ne with (c := ":"%char).
Qed.

(** Every presentation of a code returns only behind its spent marker. *)
Lemma redeem_gated code client uri :
  gated (fun _ => true) (spent_key code) (ttl_seconds code_ttl) (redeem code client uri).
Proof.
  pose proof (spent_key_ne code code) as Hne.
  unfold redeem_code, _digest. destruct (Py.is_ascii code); [|by constructor].
  simpl. apply gated_do; [done|]. intros rep.
  destruct rep as [| |raw| | | |]; simpl; try by constructor.
  destruct (code_from_json raw) as [g|e]; simpl; [|by constructor].
  apply gated_lock.
  - intros [] Hrep; simpl; try done. split; [key_ne|]. by intros [].
  - simpl. destruct (negb _); simpl; [split; [key_ne|by intros []]|].
    by destruct (negb _).
Qed.

(** Every presentation of a refresh token returns only behind its spent
    marker. *)
Lemma rotate_gated new token client now :
  gated (fun _ => true) (rspent_key token) (ttl_seconds refresh_ttl) (rotate new token client now).
Proof.
  pose proof (rspent_key_ne token token) as Hne.
  unfold rotate_refresh_token, _digest. destruct (Py.is_ascii token); [|by constructor].
  simpl. apply gated_do; [done|]. intros rep.
  destruct rep as [| |raw| | | |]; simpl; try by constructor.
  destruct (refresh_from_json raw) as [rec|e]; simpl; [|by constructor].
  apply gated_do; [key_ne|]. intros rep. destruct rep; simpl; try by constructor.
  destruct (negb _); simpl; [by constructor|]. apply gated_lock.
  - intros [] Hrep; simpl; try done. split; [key_ne|]. by intros [].
  - simpl. destruct (negb _); simpl; [split; [key_ne|by intros []]|].
    unfold issue_refresh_token, _digest. destruct (Py.is_ascii new); simpl; [|done].
    split; [|by intros []]. intros E. by apply (rspent_key_ne token new).
Qed.

(** Whoever holds the record of [tok] holds it for no longer than a lifetime
    from now, which is how [issue_refresh_token] writes it. *)
Definition stored_refresh (r : R) (t : moment) (tok : string) (rec : RefreshToken) : Prop :=
  Py.is_ascii tok = true /\
  exists d, r_view r t (refresh_key tok) =
              Some (Entry (VScalar (SJson (refresh_to_json rec))) (Some d)) /\
            (d <= t + ttl_seconds refresh_ttl * SECOND)%Z.

(** The family is marked revoked for a whole lifetime from now. *)
Definition revoked_from (r : R) (t : moment) (f : string) : Prop :=
  exists v, r_view r t (family_key f) =
    Some (Entry v (Some (t + ttl_seconds refresh_ttl * SECOND)%Z)).

(** A token recorded before its family was revoked is never exchanged again. *)
Lemma revoked_family_dead r t t' tok rec new client now :
  stored_refresh r t tok rec -> revoked_from r t (rt_family_id rec) -> (t <= t')%Z ->
  exists e, (run (rotate new tok client now) r t').2 = Err e.
Proof.
  intros [Hasc (d & Hd & Hle)] [v Hv] Ht. rewrite run_result.
  unfold rotate_refresh_token, _digest. rewrite Hasc. vrun_simpl.
  rewrite (r_view_age r t t' (refresh_key tok)) by done. rewrite Hd.
  destruct (Z.lt_ge_cases t' d); [|rewrite age_dead by done; simpl; eauto].
  rewrite age_live by done. simpl.
  rewrite refresh_json_roundtrip. vrun_simpl. rewrite vupd_ne by key_ne.
  erewrite (view_Some_later r t t'); [|done| |exact Hv]; [simpl; eauto|lia].
Qed.

Lemma revoke_family_run r t f :
  (run (revoke_family refresh_ttl f) r t).2 = Ok tt /\
  revoked_from (run (revoke_family refresh_ttl f) r t).1 t f.
Proof.
  split.
  - rewrite run_result. unfold revoke_family. vrun_simpl.
    pose proof (ttl_seconds_pos refresh_ttl). by destruct (Z.leb_spec (ttl_seconds refresh_ttl) 0); [lia|].
  - unfold revoked_from. rewrite run_vrun_later by lia. unfold revoke_family. vrun_simpl.
    pose proof (ttl_seconds_pos refresh_ttl).
    destruct (Z.leb_spec (ttl_seconds refresh_ttl) 0); [lia|]. simpl. rewrite vupd_eq, age_set_now by lia. eauto.
Qed.

(** C5: An authorization code is single-use under concurrency.  Any number of
    [redeem_code] calls for one code, interleaved command by command with each
    other and with anything that does not touch the code's spent marker,
    yields at most one grant while the code's lifetime lasts. *)
Theorem code_single_use (code : string) (presentations : list (string * string))
    (env : cmd -> Prop) (t0 : moment) (r : R) (cf : config R AuthorizationCode)
    (i j : nat) (g g' : AuthorizationCode) :
  (forall c, env c -> cmd_key c <> spent_key code) ->
  rtc (step env)
    (Config t0 r ((fun cu => redeem code cu.1 cu.2) <$> presentations)) cf ->
  (cf_clock cf < t0 + ttl_seconds code_ttl * SECOND)%Z ->
  cf_pool cf !! i = Some (Ret g) -> cf_pool cf !! j = Some (Ret g') -> i = j.
Proof.
  intros Henv Hsteps Hlt Hi Hj.
  eapply (gated_single_winner (fun _ => true));
    [| |exact Henv|exact Hsteps|exact Hlt|exact Hi|exact Hj|done..].
  - pose proof (ttl_seconds_pos code_ttl). lia.
  - apply Forall_fmap, Forall_true. intros cu. apply redeem_gated.
Qed.

(** C6: A refresh token is exchanged once under concurrency: any interleaving
    of [rotate_refresh_token] calls for one token yields at most one successor
    within the token's lifetime. *)
Theorem refresh_single_use (token : string) (presentations : list (string * string * moment))
    (env : cmd -> Prop) (t0 : moment) (r : R) (cf : config R (string * RefreshToken))
    (i j : nat) (a b : string * RefreshToken) :
  (forall c, env c -> cmd_key c <> rspent_key token) ->
  rtc (step env)
    (Config t0 r ((fun p => rotate p.1.1 token p.1.2 p.2) <$> presentations)) cf ->
  (cf_clock cf < t0 + ttl_seconds refresh_ttl * SECOND)%Z ->
  cf_pool cf !! i = Some (Ret a) -> cf_pool cf !! j = Some (Ret b) -> i = j.
Proof.
  intros Henv Hsteps Hlt Hi Hj.
  eapply (gated_single_winner (fun _ => true));
    [| |exact Henv|exact Hsteps|exact Hlt|exact Hi|exact Hj|done..].
  - pose proof (ttl_seconds_pos refresh_ttl). lia.
  - apply Forall_fmap, Forall_true. intros p. apply rotate_gated.
Qed.

(** ** Sequential behaviour *)

(** At [t] the record of [code] is [g], until [d]. *)
Definition stored_code (r : R) (t : moment) (code : string) (g : AuthorizationCode)
    (d : moment) : Prop :=
  Py.is_ascii code = true /\
  r_view r t (code_key code) = Some (Entry (VScalar (SJson (code_to_json g))) (Some d)).

(** A presentation of a recorded code, on every branch: what it answers, and
    the markers it leaves. *)
Definition redeem_answer (spent : bool) (g : AuthorizationCode) (client uri : string)
  : result exn AuthorizationCode :=
  if spent then Err (GrantReuse INVALID_GRANT GRANT_REUSE_DETECTED)
  else if negb (String.eqb (ac_client_id g) client)
          || negb (String.eqb (ac_redirect_uri g) uri)
       then Err (OAuthError INVALID_GRANT GRANT_INVALID)
  else Ok g.

Lemma redeem_run r t code g d client uri :
  stored_code r t code g d ->
  let spent := is_live (r_view r t (spent_key code)) in
  let out := run (redeem code client uri) r t in
  out.2 = redeem_answer spent g client uri /\
  stored_code out.1 t code g d /\
  is_Some (r_view out.1 t (spent_key code)) /\
  (spent = false -> exists v, r_view out.1 t (spent_key code) =
     Some (Entry v (Some (t + ttl_seconds code_ttl * SECOND)%Z))) /\
  (spent = true \/ ac_client_id g <> client -> revoked_from out.1 t (ac_family_id g)).
Proof.
  intros [Hasc Hd]. cbv zeta.
  pose proof (ttl_seconds_pos code_ttl) as Hc. pose proof (ttl_seconds_pos refresh_ttl) as Hr.
  assert (forall c, code_key code <> spent_key c) as Hne by (intros c; apply not_eq_sym, spent_key_ne).
  pose proof (view_self_live r t (code_key code)) as Lcode. rewrite Hd in Lcode.
  pose proof (view_self_live r t (spent_key code)) as Lspent.
  unfold revoked_from, stored_code. setoid_rewrite run_vrun_later; [|lia..].
  rewrite run_result. unfold redeem_code, _digest. rewrite Hasc. vrun_simpl.
  rewrite Hd. simpl. rewrite code_json_roundtrip. vrun_simpl.
  rewrite vupd_ne by apply spent_key_ne.
  destruct (Z.leb_spec (ttl_seconds code_ttl) 0); [lia|].
  destruct (r_view r t (spent_key code)) as [e|] eqn:Espent; simpl.
  - unfold revoke_family. vrun_simpl.
    destruct (Z.leb_spec (ttl_seconds refresh_ttl) 0); [lia|]. simpl.
    rewrite !(vupd_ne _ (family_key _)) by key_ne. rewrite !vupd_eq.
    rewrite !(vupd_ne _ (spent_key _)) by done. rewrite !vupd_eq.
    rewrite Lspent, Lcode, age_set_now by lia. split_and!; eauto; done.
  - unfold redeem_answer.
    destruct (String.eqb_spec (ac_client_id g) client) as [->|Hcl]; simpl.
    + destruct (String.eqb_spec (ac_redirect_uri g) uri); simpl;
      rewrite !vupd_eq, (age_set_now t (ttl_seconds code_ttl)) by lia;
      rewrite (vupd_ne _ (spent_key _)) by done; rewrite vupd_eq, Lcode;
      split_and!; eauto; naive_solver.
    + unfold revoke_family. vrun_simpl.
      destruct (Z.leb_spec (ttl_seconds refresh_ttl) 0); [lia|]. simpl.
      rewrite !(vupd_ne _ (family_key _)) by key_ne. rewrite !vupd_eq.
      rewrite (vupd_ne _ (spent_key _)) by done. rewrite vupd_eq.
      rewrite Lcode, !age_set_now by lia. split_and!; eauto.
Qed.

Lemma stored_code_later r t t' code g d :
  (t <= t')%Z -> (t' < d)%Z -> stored_code r t code g d -> stored_code r t' code g d.
Proof. intros Ht Hd [Ha Hv]. split; [done|]. eauto with campus. Qed.

(** A code whose record has lapsed is unknown. *)
Lemma redeem_lapsed r t code client uri :
  Py.is_ascii code = true -> r_view r t (code_key code) = None ->
  (run (redeem code client uri) r t).2 = Err (OAuthError INVALID_GRANT GRANT_INVALID).
Proof.
  intros Ha Hn. rewrite run_result. unfold redeem_code, _digest. rewrite Ha. vrun_simpl.
  by rewrite Hn.
Qed.

Lemma issue_code_run r t code g :
  Py.is_ascii code = true ->
  stored_code (run (issue_code sha256_hex code_ttl refresh_ttl code g) r t).1 t code g
    (t + ttl_seconds code_ttl * SECOND) /\
  forall t', (t <= t')%Z ->
    r_view (run (issue_code sha256_hex code_ttl refresh_ttl code g) r t).1 t' (spent_key code) =
    r_view r t' (spent_key code).
Proof.
  intros Ha. pose proof (ttl_seconds_pos code_ttl).
  set (v := (vrun r_round (issue_code sha256_hex code_ttl refresh_ttl code g) (r_view r t) t).1).
  assert (v (code_key code) = Some (Entry (VScalar (SJson (code_to_json g)))
            (Some (t + ttl_seconds code_ttl * SECOND)%Z)) /\
          v (spent_key code) = r_view r t (spent_key code)) as [Hcode Hspent].
  { subst v. unfold issue_code, _digest. rewrite Ha. vrun_simpl.
    destruct (Z.leb_spec (ttl_seconds code_ttl) 0); [lia|]. simpl. rewrite vupd_ne by key_ne.
    destruct (r_view r t (SESSION_FAMILY_PREFIX +:+ ac_sid g)) as [[[sc|m] dl]|]; simpl.
    all: rewrite ?vupd_eq; cbn.
    all: rewrite !(vupd_ne _ (SESSION_FAMILY_PREFIX +:+ _)) by key_ne.
    all: by rewrite vupd_eq, vupd_ne by apply spent_key_ne. }
  split; [split; [done|]|intros t' Ht'].
  - rewrite run_vrun_later by lia. fold v. rewrite Hcode. apply age_set_now. lia.
  - rewrite run_vrun_later by lia. fold v. by rewrite Hspent, <- r_view_age.
Qed.

(** A code issued at [t0] and redeemed by its client at its redirect URI
    within its lifetime yields exactly the grant that was recorded, and every
    later presentation, by anyone, is refused: as reuse, with the whole token
    family revoked, while the record lives, and as an unknown code after. *)
Theorem code_redeemed_once (r : R) (t0 t1 t2 : moment) (code client uri : string)
    (g : AuthorizationCode) :
  Py.is_ascii code = true ->
  r_view r t0 (spent_key code) = None ->
  (t0 <= t1 < t0 + ttl_seconds code_ttl * SECOND)%Z -> (t1 <= t2)%Z ->
  let issued := (run (issue_code sha256_hex code_ttl refresh_ttl code g) r t0).1 in
  let first := run (redeem code (ac_client_id g) (ac_redirect_uri g)) issued t1 in
  let second := run (redeem code client uri) first.1 t2 in
  first.2 = Ok g /\
  (if (t2 <? t0 + ttl_seconds code_ttl * SECOND)%Z
   then second.2 = Err (GrantReuse INVALID_GRANT GRANT_REUSE_DETECTED) /\
        revoked_from second.1 t2 (ac_family_id g)
   else second.2 = Err (OAuthError INVALID_GRANT GRANT_INVALID)).
Proof.
  intros Ha Hns Ht1 Ht2. cbv zeta.
  destruct (issue_code_run r t0 code g Ha) as [Hst Hsp].
  set (r0 := (run (issue_code _ _ _ _ _) _ _).1) in *.
  eapply (stored_code_later _ _ t1) in Hst; [|lia..].
  destruct (redeem_run r0 t1 code g _ (ac_client_id g) (ac_redirect_uri g) Hst)
    as (Hans & Hst1 & _ & Hmark & _).
  rewrite Hsp, (view_None_later r t0 t1) in Hans, Hmark by (done || lia).
  destruct (Hmark eq_refl) as [v Hv]. clear Hmark.
  set (r1 := (run (redeem _ _ _) r0 t1).1) in *.
  rewrite Hans. unfold redeem_answer. rewrite !String.eqb_refl. split; [done|].
  destruct (Z.ltb_spec t2 (t0 + ttl_seconds code_ttl * SECOND)).
  - eapply (stored_code_later _ _ t2) in Hst1; [|lia..].
    destruct (redeem_run r1 t2 code g _ client uri Hst1) as (Hans2 & _ & _ & _ & Hrev).
    erewrite (view_Some_later r1 t1 t2) in Hans2, Hrev; [|lia| |exact Hv|lia| |exact Hv]; [|lia..].
    by split; [rewrite Hans2|apply Hrev; left].
  - apply redeem_lapsed; [done|]. destruct Hst1 as [_ Hst1].
    rewrite (r_view_age r1 t1 t2), Hst1 by done. by apply age_dead.
Qed.

(** A presentation of a recorded refresh token whose family is not revoked. *)
Lemma rotate_run r t tok rec new client now :
  stored_refresh r t tok rec ->
  r_view r t (family_key (rt_family_id rec)) = None ->
  let spent := is_live (r_view r t (rspent_key tok)) in
  let out := run (rotate new tok client now) r t in
  (spent = true ->
     out.2 = Err (GrantReuse INVALID_GRANT GRANT_REUSE_DETECTED) /\
     revoked_from out.1 t (rt_family_id rec) /\
     forall k, k <> family_key (rt_family_id rec) -> k <> rspent_key tok ->
       k <> refresh_key tok -> r_view out.1 t k = r_view r t k) /\
  (spent = false -> Py.is_ascii new = true -> rt_client_id rec = client ->
     out.2 = Ok (new, successor_of rec now) /\
     stored_refresh out.1 t new (successor_of rec now) /\
     (exists v, r_view out.1 t (rspent_key tok) =
        Some (Entry v (Some (t + ttl_seconds refresh_ttl * SECOND)%Z))) /\
     (forall k, k <> rspent_key tok -> k <> refresh_key new ->
        r_view out.1 t k = r_view r t k)).
Proof.
  intros [Ha (d & Hd & Hle)] Hfam. cbv zeta. pose proof (ttl_seconds_pos refresh_ttl).
  unfold revoked_from, stored_refresh. setoid_rewrite run_vrun_later; [|lia..].
  rewrite run_result. unfold rotate_refresh_token, _digest. rewrite Ha. vrun_simpl.
  rewrite Hd. simpl. rewrite refresh_json_roundtrip. vrun_simpl.
  rewrite vupd_ne, Hfam by key_ne. simpl.
  rewrite vupd_ne by key_ne. rewrite vupd_ne by apply rspent_key_ne.
  destruct (Z.leb_spec (ttl_seconds refresh_ttl) 0); [lia|].
  destruct (r_view r t (rspent_key tok)) as [e|] eqn:Espent; simpl.
  - split; [intros _|done]. unfold revoke_family. vrun_simpl.
    destruct (Z.leb_spec (ttl_seconds refresh_ttl) 0); [lia|]. simpl.
    rewrite vupd_eq, age_set_now by lia. split_and!; eauto.
    intros k Hk1 Hk2 Hk3. rewrite !vupd_ne by done. apply view_self_live.
  - split; [done|]. intros _ Hn ->. rewrite String.eqb_refl. simpl.
    unfold issue_refresh_token, _digest. rewrite Hn. vrun_simpl.
    destruct (Z.leb_spec (ttl_seconds refresh_ttl) 0); [lia|]. simpl.
    rewrite vupd_eq, age_set_now by lia.
    rewrite (vupd_ne _ (refresh_key new)) by apply rspent_key_ne.
    rewrite vupd_eq, age_set_now by lia. split_and!; eauto; [by eexists|].
    intros k Hk1 Hk2. rewrite !(vupd_ne _ (refresh_key new)), (vupd_ne _ (rspent_key tok)) by done.
    destruct (decide (k = family_key (rt_family_id rec))) as [->|].
    { rewrite vupd_eq, Hfam. done. }
    rewrite vupd_ne by done. destruct (decide (k = refresh_key tok)) as [->|].
    { rewrite vupd_eq, <- Hd. apply view_self_live. }
    rewrite vupd_ne by done. apply view_self_live.
Qed.

Lemma stored_refresh_later r t t' tok rec :
  (t <= t')%Z -> is_Some (r_view r t' (refresh_key tok)) ->
  stored_refresh r t tok rec -> stored_refresh r t' tok rec.
Proof.
  intros Ht [e He] [Ha (d & Hd & Hle)]. split; [done|]. exists d.
  rewrite (r_view_age r t t'), Hd in He |- * by done.
  destruct (Z.lt_ge_cases t' d); [|by rewrite age_dead in He].
  rewrite age_live by done. split; [done|lia].
Qed.

(** C33: Theft of a refresh token is detected and contained.  After a rotation
    of [tok] into [new], a second presentation of [tok] while its record lives
    is refused as reuse, and from then on [new] is never exchanged again, by
    anyone and at any later moment. *)
Theorem refresh_reuse_kills_family (r : R) (t1 t2 t3 : moment) (tok new : string)
    (rec : RefreshToken) (client client2 client3 new2 new3 : string) (now now2 now3 : moment) :
  stored_refresh r t1 tok rec ->
  r_view r t1 (rspent_key tok) = None ->
  r_view r t1 (family_key (rt_family_id rec)) = None ->
  Py.is_ascii new = true -> sha256_hex new <> sha256_hex tok -> rt_client_id rec = client ->
  (t1 <= t2)%Z -> is_Some (r_view r t2 (refresh_key tok)) -> (t2 <= t3)%Z ->
  let rotated := run (rotate new tok client now) r t1 in
  let replayed := run (rotate new2 tok client2 now2) rotated.1 t2 in
  let attempt := run (rotate new3 new client3 now3) replayed.1 t3 in
  rotated.2 = Ok (new, successor_of rec now) /\
  replayed.2 = Err (GrantReuse INVALID_GRANT GRANT_REUSE_DETECTED) /\
  exists e, attempt.2 = Err e.
Proof.
  intros Hst Hsp Hfam Hnew Hne Hcl H12 Hlive H23. cbv zeta.
  assert (refresh_key new <> refresh_key tok) as Hk.
  { intros E. by apply Py.app_inv_l in E. }
  destruct (rotate_run r t1 tok rec new client now Hst Hfam) as [_ Hrot].
  rewrite Hsp in Hrot. destruct (Hrot eq_refl Hnew Hcl) as (Hr1 & Hst' & [v Hv] & Hfr).
  set (r1 := (run (rotate _ _ _ _) r t1).1) in *. split; [done|].
  assert (forall k, k <> rspent_key tok -> k <> refresh_key new ->
            r_view r1 t2 k = r_view r t2 k) as Hfr2.
  { intros k Hk1 Hk2. rewrite !(r_view_age _ t1 t2) by done. by rewrite Hfr. }
  assert (stored_refresh r1 t2 tok rec) as Hst2.
  { apply (stored_refresh_later r t1 t2) in Hst; [|done..]. destruct Hst as [Ha Hd].
    split; [done|]. by rewrite Hfr2 by (done || apply not_eq_sym, rspent_key_ne). }
  destruct Hst as [_ (d & Hd & Hle)].
  assert (t2 < d)%Z.
  { destruct Hlive as [e He]. rewrite (r_view_age r t1 t2), Hd in He by done.
    destruct (Z.lt_ge_cases t2 d); [done|]. by rewrite age_dead in He. }
  destruct (rotate_run r1 t2 tok rec new2 client2 now2 Hst2) as [Hreuse _].
  { rewrite Hfr2 by key_ne. by apply (view_None_later r t1). }
  erewrite (view_Some_later r1 t1 t2) in Hreuse; [|done| |exact Hv]; [|lia].
  destruct (Hreuse eq_refl) as (Hr2 & Hrev & Hfr3). split; [done|].
  set (r2 := (run (rotate _ _ _ _) r1 t2).1) in *.
  destruct (r_view r2 t2 (refresh_key new)) as [e|] eqn:Enew.
  - eapply (revoked_family_dead r2 t2 t3 new (successor_of rec now)); [|done|done].
    rewrite Hfr3 in Enew by (key_ne || apply not_eq_sym, rspent_key_ne).
    apply (stored_refresh_later r1 t1 t2) in Hst'; [|done|rewrite Enew; eauto].
    destruct Hst' as [Ha (d' & Hd' & Hle')]. split; [done|]. exists d'. split; [|done].
    by rewrite Hfr3 by (key_ne || apply not_eq_sym, rspent_key_ne).
  - rewrite run_result. unfold rotate_refresh_token, _digest. rewrite Hnew. vrun_simpl.
    rewrite (view_None_later r2 t2 t3) by done. simpl. eauto.
Qed.

Abbreviation families_key sid := (SESSION_FAMILY_PREFIX +:+ sid).
Abbreviation revoke_all fs := (pfor fs (revoke_family refresh_ttl)).

Lemma revoke_all_vrun (fs : list string) (v : kview) t :
  (vrun r_round (revoke_all fs) v t).2 = Ok tt /\
  (forall f, f ∈ fs -> (vrun r_round (revoke_all fs) v t).1 (family_key f) =
     Some (Entry (VScalar (SText "1")) (Some (t + ttl_seconds refresh_ttl * SECOND)%Z))) /\
  (forall k, (forall f, f ∈ fs -> k <> family_key f) ->
     (vrun r_round (revoke_all fs) v t).1 k = v k).
Proof.
  clear sha256_hex digest_hex. pose proof (ttl_seconds_pos refresh_ttl).
  revert v. induction fs as [|f fs IH]; intros v; [split_and!; set_solver|].
  cbn [pfor]. rewrite vrun_bind. change (revoke_family refresh_ttl f) with (redis_set (family_key f) (SText "1") (ttl_seconds refresh_ttl)). vrun_simpl.
  destruct (Z.leb_spec (ttl_seconds refresh_ttl) 0); [lia|]. simpl.
  destruct (IH (vupd v (family_key f) (Some (Entry (VScalar (SText "1"))
    (Some (t + ttl_seconds refresh_ttl * SECOND)%Z))))) as (E & Hin & Hout).
  split_and!; [done| |].
  - intros f' Hf'. destruct (decide (f' ∈ fs)) as [?|Hn]; [by apply Hin|].
    assert (f' = f) as -> by set_solver. rewrite Hout; [by rewrite vupd_eq|].
    intros g Hg E'. apply Py.app_inv_l in E'. set_solver.
  - intros k Hk. rewrite Hout by (intros g Hg; apply Hk; set_solver).
    by rewrite vupd_ne by (apply Hk; set_solver).
Qed.

Lemma revoke_session_families_run r t sid fs d :
  r_view r t (families_key sid) = Some (Entry (VSet fs) d) ->
  let out := run (revoke_session_families refresh_ttl sid) r t in
  out.2 = Ok (merge_sort String.le (elements fs)) /\
  (forall f, f ∈ fs -> revoked_from out.1 t f) /\
  r_view out.1 t (families_key sid) = None.
Proof.
  intros Hs. cbv zeta. unfold revoked_from. setoid_rewrite run_vrun_later; [|lia..].
  rewrite run_result. unfold revoke_session_families, set_members. cbn -[key_step].
  rewrite Hs. cbn [key_step]. cbn [pbind vrun]. rewrite vrun_bind.
  set (l := merge_sort String.le (elements fs)). set (v0 := vupd _ _ _).
  destruct (revoke_all_vrun l v0 t) as (E & Hin & Hout).
  destruct (vrun _ (pfor l _) v0 t) as [v1 o1]. simpl in *. subst o1.
  pose proof (ttl_seconds_pos refresh_ttl).
  assert (forall f, f ∈ fs -> f ∈ l) as Hl.
  { intros f Hf. subst l. rewrite (merge_sort_Permutation String.le). set_solver. }
  rewrite Hout by (intros; key_ne). subst v0. rewrite vupd_eq. vrun_simpl. split_and!; [done| |].
  - intros f Hf. rewrite vupd_ne, (Hin f) by (done || set_solver || key_ne).
    rewrite age_set_now by lia. eauto.
  - by rewrite vupd_eq.
Qed.

Abbreviation marker t := (Entry (VScalar (SText "1")) (Some (t + ttl_seconds refresh_ttl * SECOND)%Z)).

(** Ending the families of a session, whether or not it has any: what was
    revoked stays so, and no other session's families are touched. *)
Lemma revoke_session_families_vrun (v : kview) t sid :
  (forall s d, v (families_key sid) <> Some (Entry (VScalar s) d)) ->
  let out := vrun r_round (revoke_session_families refresh_ttl sid) v t in
  (exists l, out.2 = Ok l) /\
  (forall fs d f, v (families_key sid) = Some (Entry (VSet fs) d) -> f ∈ fs ->
     out.1 (family_key f) = Some (marker t)) /\
  (forall f, v (family_key f) = Some (marker t) -> out.1 (family_key f) = Some (marker t)) /\
  (forall sid', sid' <> sid -> out.1 (families_key sid') = v (families_key sid')) /\
  out.1 (families_key sid) = None.
Proof.
  clear sha256_hex digest_hex. intros Hs. cbv zeta.
  unfold revoke_session_families, set_members. cbn -[key_step].
  assert (exists fs e, key_step r_round t (SMEMBERS (families_key sid)) (v (families_key sid)) =
    (e, RMembers fs) /\ e = v (families_key sid) /\
    (forall fs' d, v (families_key sid) = Some (Entry (VSet fs') d) -> fs' = fs)) as (fs & e & Ek & -> & Hfs).
  { destruct (v (families_key sid)) as [[[s|m] d]|]; [by destruct (Hs s d)| |].
    - exists m. eexists. split_and!; [done..|]. by intros ? ? [= <-].
    - exists ∅, None. by split_and!. }
  rewrite Ek. cbn [pbind vrun]. rewrite vrun_bind.
  set (l := merge_sort String.le (elements fs)). set (v0 := vupd _ _ _).
  assert (forall k, v0 k = v k) as Hv0.
  { intros k. unfold v0. destruct (decide (k = families_key sid)) as [->|]; [by rewrite vupd_eq|by rewrite vupd_ne]. }
  destruct (revoke_all_vrun l v0 t) as (E & Hin & Hout).
  destruct (vrun _ (pfor l _) v0 t) as [v1 o1]. cbn [fst snd] in *. subst o1.
  assert (forall f, f ∈ l <-> f ∈ fs) as Hl.
  { intros f. subst l. rewrite (merge_sort_Permutation String.le). set_solver. }
  match goal with |- context [vrun r_round ?p v1 t] =>
    assert (vrun r_round p v1 t = (vupd v1 (families_key sid) None, Ok l)) as ->
  end.
  { simpl. by destruct (v1 (families_key sid)). }
  simpl. split_and!; [eauto|..].
  - intros fs' d f Hv Hf. rewrite vupd_ne by key_ne. apply Hin, Hl. by rewrite <- (Hfs _ _ Hv).
  - intros f Hm. rewrite vupd_ne by key_ne. destruct (decide (f ∈ l)); [by apply Hin|].
    rewrite Hout, Hv0; [done|]. intros g Hg E'. apply Py.app_inv_l in E'. set_solver.
  - intros sid' Hne. rewrite vupd_ne by (intros E'; by apply Py.app_inv_l in E'). rewrite Hout, Hv0; [done|]. intros; key_ne.
  - by rewrite vupd_eq.
Qed.

(** Logging out reaches the tokens.  A code issued for a browser session
    ties its token family to the session, and ending the session within the
    lifetime of the tokens revokes that family: no refresh token recorded for
    it is ever exchanged again. *)
Theorem logout_revokes_issued_family (r : R) (t0 t1 t2 : moment) (code : string)
    (g : AuthorizationCode) (tok : string) (rec : RefreshToken)
    (new client : string) (now : moment) :
  Py.is_ascii code = true ->
  (forall s d, r_view r t0 (families_key (ac_sid g)) <> Some (Entry (VScalar s) d)) ->
  (t0 <= t1 < t0 + ttl_seconds refresh_ttl * SECOND)%Z -> (t1 <= t2)%Z ->
  let issued := (run (issue_code sha256_hex code_ttl refresh_ttl code g) r t0).1 in
  let ended := run (revoke_session_families refresh_ttl (ac_sid g)) issued t1 in
  (exists fs, ended.2 = Ok fs /\ ac_family_id g ∈ fs) /\
  revoked_from ended.1 t1 (ac_family_id g) /\
  (rt_family_id rec = ac_family_id g -> stored_refresh ended.1 t1 tok rec ->
   exists e, (run (rotate new tok client now) ended.1 t2).2 = Err e).
Proof.
  intros Ha Hset Ht1 Ht2. cbv zeta.
  set (r0 := (run (issue_code _ _ _ _ _) _ _).1).
  assert (exists fs, r_view r0 t1 (families_key (ac_sid g)) =
    Some (Entry (VSet fs) (Some (t0 + ttl_seconds refresh_ttl * SECOND)%Z)) /\
    ac_family_id g ∈ fs) as (fs & Hfs & Hin).
  { pose proof (ttl_seconds_pos code_ttl). pose proof (ttl_seconds_pos refresh_ttl).
    subst r0. rewrite run_vrun_later by lia. unfold issue_code, _digest. rewrite Ha. vrun_simpl.
    destruct (Z.leb_spec (ttl_seconds code_ttl) 0); [lia|]. simpl. rewrite vupd_ne by key_ne.
    destruct (r_view r t0 (families_key (ac_sid g))) as [[[sc|m] dl]|] eqn:E; simpl;
      [by destruct (Hset sc dl)| |]; rewrite vupd_eq; cbn;
      (destruct (Z.leb_spec (ttl_seconds refresh_ttl) 0); [lia|]); simpl;
      rewrite vupd_eq, age_set by lia; eexists; (split; [done|set_solver]). }
  destruct (revoke_session_families_run r0 t1 _ fs _ Hfs) as (Hres & Hrev & _).
  split_and!; [|by apply Hrev|].
  - eexists. split; [exact Hres|]. rewrite (merge_sort_Permutation String.le). set_solver.
  - intros Hf Hst. eapply revoked_family_dead; [exact Hst| |done]. rewrite Hf. by apply Hrev.
Qed.
End proofs.

(** ** Witnesses *)

Section witnesses.
(** A digest without colons. *)
Definition demo_digest (s : string) : string := Py.sfilter (fun a => negb (Ascii.eqb a ":")) s.

Lemma demo_digest_hex s : Py.has_char ":" (demo_digest s) = false.
Proof.
  unfold Py.has_char, demo_digest. induction s as [|a s IH]; [done|]. simpl.
  destruct (negb (Ascii.eqb a ":")) eqn:E; simpl; [by rewrite E|done].
Qed.

Definition demo_grant : AuthorizationCode :=
  {| ac_client_id := "portal"; ac_redirect_uri := "https://portal.test/cb";
     ac_code_challenge := "challenge"; ac_scopes := ["openid"]; ac_subject := "sam";
     ac_sid := "sid1"; ac_family_id := "fam1"; ac_nonce := None;
     ac_auth_time := Some 5%Z; ac_acr := None; ac_amr := ["pwd"] |}.

Definition demo_refresh : RefreshToken :=
  {| rt_client_id := "portal"; rt_scopes := ["openid"]; rt_subject := "sam"; rt_sid := "sid1";
     rt_family_id := "fam1"; rt_generation := 0; rt_issued_at := 0 |}.

Definition demo_issued : Store :=
  (run (issue_code demo_digest CODE_TTL REFRESH_TTL "c0de" demo_grant) (∅ : Store) 0).1.

Definition demo_refresh_store : Store :=
  (run (issue_refresh_token demo_digest REFRESH_TTL "tok" demo_refresh) (∅ : Store) 0).1.

(** Both threads read the record before either writes the marker. *)
Definition demo_race : config Store AuthorizationCode :=
  sched [(0%nat, 1%Z); (1%nat, 2%Z); (1%nat, 3%Z); (0%nat, 4%Z); (0%nat, 5%Z)]
    (Config 0 demo_issued
      ((fun cu => redeem_code demo_digest CODE_TTL REFRESH_TTL "c0de" cu.1 cu.2) <$>
       [("portal", "https://portal.test/cb"); ("portal", "https://portal.test/cb")])).

Lemma code_single_use_witness :
  cf_pool demo_race !! 1%nat = Some (Ret demo_grant) /\ 1%nat = 1%nat.
Proof.
  split; [vm_compute; reflexivity|].
  apply (code_single_use (R := Store) demo_digest demo_digest_hex CODE_TTL REFRESH_TTL "c0de"
    [("portal", "https://portal.test/cb"); ("portal", "https://portal.test/cb")]
    (fun _ => False) 0 demo_issued demo_race 1 1 demo_grant demo_grant).
  - intros c [].
  - apply sched_steps.
  - vm_compute; reflexivity.
  - vm_compute; reflexivity.
  - vm_compute; reflexivity.
Defined.

Definition demo_rotation_race : config Store (string * RefreshToken) :=
  sched [(0%nat, 1%Z); (1%nat, 2%Z); (0%nat, 3%Z); (1%nat, 4%Z); (1%nat, 5%Z); (1%nat, 6%Z)]
    (Config 0 demo_refresh_store
      ((fun p => rotate_refresh_token demo_digest REFRESH_TTL p.1.1 "tok" p.1.2 p.2) <$>
       [("new1", "portal", 1%Z); ("new2", "portal", 2%Z)])).

Lemma refresh_single_use_witness :
  cf_pool demo_rotation_race !! 1%nat = Some (Ret ("new2", successor_of demo_refresh 2)) /\
  1%nat = 1%nat.
Proof.
  split; [vm_compute; reflexivity|].
  apply (refresh_single_use (R := Store) demo_digest demo_digest_hex REFRESH_TTL "tok"
    [("new1", "portal", 1%Z); ("new2", "portal", 2%Z)] (fun _ => False) 0
    demo_refresh_store demo_rotation_race 1 1
    ("new2", successor_of demo_refresh 2) ("new2", successor_of demo_refresh 2)).
  - intros c [].
  - apply sched_steps.
  - vm_compute; reflexivity.
  - vm_compute; reflexivity.
  - vm_compute; reflexivity.
Defined.

Lemma code_redeemed_once_witness :
  (run (redeem_code demo_digest CODE_TTL REFRESH_TTL "c0de" (ac_client_id demo_grant)
          (ac_redirect_uri demo_grant))
     (run (issue_code demo_digest CODE_TTL REFRESH_TTL "c0de" demo_grant) (∅ : Store) 0).1 7).2
    = Ok demo_grant.
Proof.
  destruct (code_redeemed_once (R := Store) demo_digest demo_digest_hex CODE_TTL REFRESH_TTL
    (∅ : Store) 0 7 9 "c0de" "thief" "https://evil.test" demo_grant
    eq_refl ltac:(vm_compute; done) ltac:(vm_compute; done) ltac:(vm_compute; done)) as [W _].
  exact W.
Defined.

Lemma refresh_reuse_kills_family_witness :
  (run (rotate_refresh_token demo_digest REFRESH_TTL "new" "tok" "portal" 1)
     demo_refresh_store 1).2 = Ok ("new", successor_of demo_refresh 1).
Proof.
  assert (stored_refresh demo_digest REFRESH_TTL demo_refresh_store 1 "tok" demo_refresh) as Hst.
  { split; [done|]. exists REFRESH_TTL. vm_compute. done. }
  destruct (refresh_reuse_kills_family (R := Store) demo_digest demo_digest_hex REFRESH_TTL
    demo_refresh_store 1 2 3 "tok" "new" demo_refresh "portal" "portal" "portal" "n2" "n3" 1 2 3
    Hst ltac:(vm_compute; done) ltac:(vm_compute; done) eq_refl ltac:(done) eq_refl
    ltac:(done) ltac:(vm_compute; eauto) ltac:(done)) as [W _].
  exact W.
Defined.

Lemma logout_revokes_issued_family_witness :
  revoked_from (R := Store) REFRESH_TTL
    (run (revoke_session_families REFRESH_TTL (ac_sid demo_grant))
      (run (issue_code demo_digest CODE_TTL REFRESH_TTL "c0de" demo_grant) (∅ : Store) 0).1 8).1
    8 (ac_family_id demo_grant).
Proof.
  assert (forall s d, r_view (∅ : Store) 0 (SESSION_FAMILY_PREFIX +:+ ac_sid demo_grant) <>
    Some (Entry (VScalar s) d)) as Hset by (intros; vm_compute; discriminate).
  destruct (logout_revokes_issued_family (R := Store) demo_digest demo_digest_hex CODE_TTL REFRESH_TTL
    (∅ : Store) 0 8 9 "c0de" demo_grant "tok" demo_refresh "n" "portal" 0
    eq_refl Hset ltac:(vm_compute; done) ltac:(done)) as (_ & W & _).
  exact W.
Defined.
End witnesses.

End Grants.
