(* ===== verification/Sessions.v ===== *)
(** * Browser sessions

    [campusid/session/store.py]: server-side sessions in Redis with an idle and
    an absolute timeout, rotation on privilege change, and a per-person index
    that makes "end every session this person has" possible. *)

From S2P Require Import Prelude PyStr Json Errors Redis Codec.

Module Sessions.

Definition SESSION_KEY_PREFIX := "session:".
Definition SUBJECT_INDEX_PREFIX := "session:subject:".
Definition IDLE_TIMEOUT : duration := 30 * 60 * SECOND.
Definition ABSOLUTE_TIMEOUT : duration := 12 * 3600 * SECOND.

Record Session : Type := {
  s_sid : string;
  s_idp_entity_id : string;
  s_name_id : string;
  s_name_id_format : option string;
  s_auth_time : moment;
  s_created_at : moment;
  s_last_seen_at : moment;
  s_absolute_expiry : moment;
  s_acr : option string;
  s_amr : list string;
  s_session_index : option string;
  s_attributes : list (string * list string);
  s_person_uuid : option string;
  s_impersonated_by : option string;
}.

(** [self.person_uuid or ...]: an empty identifier is as good as none. *)
Definition subject_key (s : Session) : string :=
  match s_person_uuid s with
  | Some (String a u) => String a u
  | _ => s_idp_entity_id s +:+ "|" +:+ s_name_id s
  end.

Definition of_attributes (m : list (string * list string)) : json :=
  JObj ((fun kv => (kv.1, Codec.of_strings kv.2)) <$> m).

Definition as_attributes (j : json) : result exn (list (string * list string)) :=
  match j with
  | JObj m => rmap (fun kv => let* vs := Codec.as_strings kv.2 in Ok (kv.1, vs)) m
  | _ => Err TypeError
  end.

Definition to_json (s : Session) : json := JObj [
  ("sid", JStr (s_sid s));
  ("idp_entity_id", JStr (s_idp_entity_id s));
  ("name_id", JStr (s_name_id s));
  ("name_id_format", Codec.of_opt_str (s_name_id_format s));
  ("auth_time", JIso (s_auth_time s));
  ("created_at", JIso (s_created_at s));
  ("last_seen_at", JIso (s_last_seen_at s));
  ("absolute_expiry", JIso (s_absolute_expiry s));
  ("acr", Codec.of_opt_str (s_acr s));
  ("amr", Codec.of_strings (s_amr s));
  ("session_index", Codec.of_opt_str (s_session_index s));
  ("attributes", of_attributes (s_attributes s));
  ("person_uuid", Codec.of_opt_str (s_person_uuid s));
  ("impersonated_by", Codec.of_opt_str (s_impersonated_by s))].

(** The fields a touch or a rotation carries over: all of them. *)
Definition CARRIED_FORWARD : list string :=
  ["sid"; "idp_entity_id"; "name_id"; "name_id_format"; "auth_time"; "created_at";
   "last_seen_at"; "absolute_expiry"; "acr"; "amr"; "session_index"; "attributes";
   "person_uuid"; "impersonated_by"].

Definition from_json (raw : scalar) : result exn Session :=
  let* m := Codec.members raw in
  let* amr := rbind (Codec.item m "amr") Codec.as_strings in
  let* auth_time := rbind (Codec.item m "auth_time") Codec.as_moment in
  let* created_at := rbind (Codec.item m "created_at") Codec.as_moment in
  let* last_seen_at := rbind (Codec.item m "last_seen_at") Codec.as_moment in
  let* absolute_expiry := rbind (Codec.item m "absolute_expiry") Codec.as_moment in
  raise* TypeError when negb (Codec.only_fields m CARRIED_FORWARD);
  let* sid := rbind (Codec.required m "sid") Codec.as_str in
  let* idp_entity_id := rbind (Codec.required m "idp_entity_id") Codec.as_str in
  let* name_id := rbind (Codec.required m "name_id") Codec.as_str in
  let* name_id_format := rbind (Codec.required m "name_id_format") Codec.as_opt_str in
  let* acr := Codec.as_opt_str (Codec.optional m "acr" JNull) in
  let* session_index := Codec.as_opt_str (Codec.optional m "session_index" JNull) in
  let* attributes := as_attributes (Codec.optional m "attributes" (JObj [])) in
  let* person_uuid := Codec.as_opt_str (Codec.optional m "person_uuid" JNull) in
  let* impersonated_by := Codec.as_opt_str (Codec.optional m "impersonated_by" JNull) in
  Ok {| s_sid := sid; s_idp_entity_id := idp_entity_id; s_name_id := name_id;
        s_name_id_format := name_id_format; s_auth_time := auth_time;
        s_created_at := created_at; s_last_seen_at := last_seen_at;
        s_absolute_expiry := absolute_expiry; s_acr := acr; s_amr := amr;
        s_session_index := session_index; s_attributes := attributes;
        s_person_uuid := person_uuid; s_impersonated_by := impersonated_by |}.

(** The keyword arguments the store passes to [_replace]. *)
Record changes : Type := {
  ch_sid : option string;
  ch_acr : option string;
  ch_amr : option (list string);
  ch_auth_time : option moment;
  ch_last_seen_at : option moment;
}.

Definition _replace (s : Session) (c : changes) : Session := {|
  s_sid := default (s_sid s) (ch_sid c);
  s_idp_entity_id := s_idp_entity_id s;
  s_name_id := s_name_id s;
  s_name_id_format := s_name_id_format s;
  s_auth_time := default (s_auth_time s) (ch_auth_time c);
  s_created_at := s_created_at s;
  s_last_seen_at := default (s_last_seen_at s) (ch_last_seen_at c);
  s_absolute_expiry := s_absolute_expiry s;
  s_acr := match ch_acr c with Some a => Some a | None => s_acr s end;
  s_amr := default (s_amr s) (ch_amr c);
  s_session_index := s_session_index s;
  s_attributes := s_attributes s;
  s_person_uuid := s_person_uuid s;
  s_impersonated_by := s_impersonated_by s;
|}.

(** The value a load hands to its caller together with the call of
    [set_impersonator] it made, if any: the marker every audit record of the
    request then carries. *)
Record loaded : Type := Loaded {
  l_session : option Session;
  l_impersonator : option (option string);
}.

(** What [create] is told about the login. *)
Record login : Type := {
  lg_idp_entity_id : string;
  lg_name_id : string;
  lg_name_id_format : option string;
  lg_auth_time : option moment;
  lg_acr : option string;
  lg_amr : list string;
  lg_session_index : option string;
  lg_attributes : list (string * list string);
  lg_person_uuid : option string;
  lg_impersonated_by : option string;
}.

Section store.
(** [hashlib.sha256(subject_key.encode("utf-8")).hexdigest()]. *)
Context (sha256_hex : string -> string).
(** The constructor arguments of [SessionStore]. *)
Context (idle absolute : duration) (prefix : string).

Definition _key (sid : string) : string := prefix +:+ sid.
Definition _subject_key (subject : string) : string := SUBJECT_INDEX_PREFIX +:+ sha256_hex subject.

Definition _write (s : Session) (now : moment) : prog unit :=
  let remaining := (s_absolute_expiry s - now)%Z in
  let ttl := ttl_seconds (Z.min idle remaining) in
  do* redis_set (_key (s_sid s)) (SJson (to_json s)) ttl;
  let index := _subject_key (subject_key s) in
  do* set_add index (s_sid s);
  expire_key index (ttl_seconds absolute).

(** The record [create] writes. *)
Definition new_session (sid : string) (lg : login) (now : moment) : Session := {|
  s_sid := sid;
  s_idp_entity_id := lg_idp_entity_id lg;
  s_name_id := lg_name_id lg;
  s_name_id_format := lg_name_id_format lg;
  s_auth_time := default now (lg_auth_time lg);
  s_created_at := now;
  s_last_seen_at := now;
  s_absolute_expiry := now + absolute;
  s_acr := lg_acr lg;
  s_amr := lg_amr lg;
  s_session_index := lg_session_index lg;
  s_attributes := lg_attributes lg;
  s_person_uuid := lg_person_uuid lg;
  s_impersonated_by := lg_impersonated_by lg;
|}.

(** [create] writes without passing its [now] on, so the lifetime in Redis is
    counted from the wall clock. *)
Definition create (new_sid : string) (lg : login) (now wall : moment) : prog Session :=
  let session := new_session new_sid lg now in
  do* _write session wall;
  Ret session.

Definition destroy (sid : string) : prog unit :=
  await* raw := redis_get (_key sid) in
  do* (match raw with
       | Some raw =>
           await* session := Codec.lift (from_json raw) in
           set_remove (_subject_key (subject_key session)) sid
       | None => Ret tt
       end);
  redis_delete (_key sid).

Definition expired (s : Session) (now : moment) : bool :=
  (s_absolute_expiry s <=? now)%Z || (idle <=? now - s_last_seen_at s)%Z.

Definition touch (s : Session) (now : moment) : Session :=
  _replace s {| ch_sid := None; ch_acr := None; ch_amr := None; ch_auth_time := None;
                ch_last_seen_at := Some now |}.

Definition load (sid : string) (now : moment) : prog loaded :=
  await* raw := redis_get (_key sid) in
  match raw with
  | None => Ret (Loaded None None)
  | Some raw =>
      await* session := Codec.lift (from_json raw) in
      if expired session now then
        do* destroy sid;
        Ret (Loaded None None)
      else
        let touched := touch session now in
        do* _write touched now;
        Ret (Loaded (Some touched) (Some (s_impersonated_by session)))
  end.

(** [rotate] and [elevate] differ in what they change. *)
Definition move (sid : string) (c : changes) (now : moment) : prog loaded :=
  await* l := load sid now in
  match l_session l with
  | None => Ret l
  | Some session =>
      let moved := _replace session c in
      do* _write moved now;
      do* destroy sid;
      Ret (Loaded (Some moved) (l_impersonator l))
  end.

Definition rotate (new_sid sid : string) (now : moment) : prog loaded :=
  move sid {| ch_sid := Some new_sid; ch_acr := None; ch_amr := None; ch_auth_time := None;
              ch_last_seen_at := Some now |} now.

Definition elevate (new_sid sid acr : string) (amr : list string) (now : moment) : prog loaded :=
  move sid {| ch_sid := Some new_sid; ch_acr := Some acr; ch_amr := Some amr;
              ch_auth_time := Some now; ch_last_seen_at := Some now |} now.

Definition sids_for (subject : string) : prog (list string) :=
  set_members (_subject_key subject).

Definition terminate_subject (subject : string) : prog (list string) :=
  await* sids := sids_for subject in
  do* pfor sids destroy;
  do* redis_delete (_subject_key subject);
  Ret sids.
End store.

(** The store has keys of its own. *)
Section keys.
Context (sha256_hex : string -> string) (idle absolute : duration).

Abbreviation SP := SESSION_KEY_PREFIX.
Abbreviation own := (fun k => Py.startswith k SP = true).

Lemma own_key sid : own (_key SP sid).
Proof. apply Py.startswith_app. Qed.

Lemma own_index subject : own (_subject_key sha256_hex subject).
Proof. done. Qed.

Lemma touches_int c : own (cmd_key c) -> touches own (redis_int c).
Proof. split; [done|]. by intros []. Qed.

Lemma write_touches s now : touches own (_write sha256_hex idle absolute SP s now).
Proof.
  unfold _write. apply touches_bind; [split; [apply own_key|by intros []]|intros _].
  apply touches_bind; [|intros _]; (apply touches_bind; [apply touches_int, own_index|done]).
Qed.

Lemma destroy_touches sid : touches own (destroy sha256_hex SP sid).
Proof.
  unfold destroy. apply touches_bind; [split; [apply own_key|by intros []]|intros raw].
  apply touches_bind; [|intros _; apply touches_bind; [apply touches_int, own_key|done]].
  destruct raw as [raw|]; [|done]. apply touches_bind; [by destruct (from_json raw)|intros s].
  apply touches_bind; [apply touches_int, own_index|done].
Qed.

Lemma load_touches sid now : touches own (load sha256_hex idle absolute SP sid now).
Proof.
  unfold load. apply touches_bind; [split; [apply own_key|by intros []]|intros [raw|]; [|done]].
  apply touches_bind; [by destruct (from_json raw)|intros s]. case_match.
  - by apply touches_bind; [apply destroy_touches|].
  - by apply touches_bind; [apply write_touches|].
Qed.

Lemma terminate_touches subject : touches own (terminate_subject sha256_hex SP subject).
Proof.
  unfold terminate_subject, sids_for. apply touches_bind; [split; [apply own_index|by intros []]|intros sids].
  apply touches_bind; [apply touches_pfor; apply destroy_touches|intros _].
  apply touches_bind; [|done]. apply touches_bind; [apply touches_int, own_index|done].
Qed.
End keys.

(** ** Documents *)

Lemma as_attributes_of m : as_attributes (of_attributes m) = Ok m.
Proof.
  unfold as_attributes, of_attributes. apply rmap_ok_Forall2.
  induction m as [|[k vs] m IH]; constructor; [|done]. simpl. by rewrite Codec.as_strings_of.
Qed.

#[local] Arguments as_attributes : simpl never.
#[local] Arguments of_attributes : simpl never.
#[local] Arguments touch : simpl never.
#[local] Hint Rewrite as_attributes_of : campus.

Lemma to_json_roundtrip s : from_json (SJson (to_json s)) = Ok s.
Proof. unfold from_json. json_roundtrip. by destruct s. Qed.

Lemma to_json_inj s s' : to_json s = to_json s' -> s = s'.
Proof. intros E. pose proof (to_json_roundtrip s) as R. rewrite E, to_json_roundtrip in R. congruence. Qed.

(** A session survives storage: reading back what was written gives the
    session, and the document has exactly the fields a touch carries over. *)
Theorem session_document (s : Session) :
  from_json (SJson (to_json s)) = Ok s /\
  match to_json s with JObj m => m.*1 = CARRIED_FORWARD | _ => False end.
Proof. split; [apply to_json_roundtrip | done]. Qed.

(** ** The store's invariant *)

Section proofs.
Context (sha256_hex : string -> string).
Context (idle absolute : duration).

Abbreviation key sid := (_key SESSION_KEY_PREFIX sid).
Abbreviation index subject := (_subject_key sha256_hex subject).
Abbreviation sid_ok sid := (Py.has_char ":" sid = false).
Abbreviation put := (_write sha256_hex idle absolute SESSION_KEY_PREFIX).
Abbreviation kill := (destroy sha256_hex SESSION_KEY_PREFIX).
Abbreviation fetch := (load sha256_hex idle absolute SESSION_KEY_PREFIX).
Abbreviation terminate := (terminate_subject sha256_hex SESSION_KEY_PREFIX).

(** The session goes back to one of these logins: same person, same marker of
    impersonation, and an absolute deadline counted from the login. *)
Definition descends (births : list (login * moment)) (s : Session) : Prop :=
  exists lg b, (lg, b) ∈ births /\
    s_idp_entity_id s = lg_idp_entity_id lg /\ s_name_id s = lg_name_id lg /\
    s_person_uuid s = lg_person_uuid lg /\ s_impersonated_by s = lg_impersonated_by lg /\
    s_created_at s = b /\ s_absolute_expiry s = (b + absolute)%Z.

(** The entry under a session key: a session that the index of its subject
    lists and does not outlive. *)
Definition session_entry (births : list (login * moment)) (v : kview) (t : moment)
    (sid : string) (e : entry) : Prop :=
  exists s d, e = Entry (VScalar (SJson (to_json s))) (Some d) /\ s_sid s = sid /\
    descends births s /\ (d <= t + ttl_seconds absolute * SECOND)%Z /\
    exists m d', v (index (subject_key s)) = Some (Entry (VSet m) (Some d')) /\
      sid ∈ m /\ (d <= d')%Z.

Definition session_inv (births : list (login * moment)) (v : kview) (t : moment) : Prop :=
  (forall sid e, sid_ok sid -> v (key sid) = Some e -> session_entry births v t sid e) /\
  (forall rest sc d, Py.has_char ":" rest = true -> v (key rest) <> Some (Entry (VScalar sc) d)) /\
  (forall subject m d, v (index subject) = Some (Entry (VSet m) d) -> forall x, x ∈ m -> sid_ok x).

Lemma index_is_key subject : index subject = key ("subject:" +:+ sha256_hex subject).
Proof. done. Qed.

Lemma key_index_ne sid subject : sid_ok sid -> key sid <> index subject.
Proof.
  rewrite index_is_key. unfold _key. intros Hs E. apply Py.app_inv_l in E. subst sid.
  by rewrite Py.has_char_app in Hs.
Qed.

Lemma key_inj sid sid' : key sid = key sid' -> sid = sid'.
Proof. apply Py.app_inv_l. Qed.

Lemma descends_replace births s c : descends births s -> descends births (_replace s c).
Proof. done. Qed.

Lemma session_inv_ext births v w t :
  (forall k, v k = w k) -> session_inv births v t -> session_inv births w t.
Proof.
  intros E (H1 & H2 & H3). split_and!.
  - intros sid e Hs He. rewrite <- E in He. destruct (H1 _ _ Hs He) as (s & d & ? & ? & ? & ? & Hx).
    exists s, d. split_and!; try done. setoid_rewrite <- E. done.
  - intros rest sc d Hr. rewrite <- E. eauto.
  - intros subject m d. rewrite <- E. eauto.
Qed.

Lemma session_inv_age births v t t' :
  (t <= t')%Z -> session_inv births v t -> session_inv births (fun k => age t' (v k)) t'.
Proof.
  intros Ht (H1 & H2 & H3). split_and!.
  - intros sid e Hs He. apply age_Some in He as [He Hl].
    destruct (H1 _ _ Hs He) as (s & d & -> & ? & ? & ? & m & d' & Hm & ? & ?).
    exists s, d. split_and!; try done; [lia|]. exists m, d'. rewrite Hm.
    split_and!; [|done..]. apply age_live. simpl in Hl. lia.
  - intros rest sc d Hr [E _]%age_Some. by eapply H2.
  - intros subject m d [E _]%age_Some. by eapply H3.
Qed.

(** ** One write, one deletion *)

Context (round : Z -> Z).

Lemma index_no_scalar births v t subject sc d :
  session_inv births v t -> v (index subject) <> Some (Entry (VScalar sc) d).
Proof. intros (_ & H2 & _). rewrite index_is_key. by apply H2. Qed.

Definition members_of (e : option entry) : gset string :=
  match e with Some (Entry (VSet m) _) => m | _ => ∅ end.

Lemma write_vrun births v t s now :
  session_inv births v t -> sid_ok (s_sid s) ->
  let out := vrun round (put s now) v t in
  out.2 = Ok tt /\
  out.1 (key (s_sid s)) = Some (Entry (VScalar (SJson (to_json s)))
    (Some (t + ttl_seconds (Z.min idle (s_absolute_expiry s - now)) * SECOND)%Z)) /\
  out.1 (index (subject_key s)) =
    Some (Entry (VSet ({[s_sid s]} ∪ members_of (v (index (subject_key s)))))
      (Some (t + ttl_seconds absolute * SECOND)%Z)) /\
  (forall k, k <> key (s_sid s) -> k <> index (subject_key s) -> out.1 k = v k).
Proof.
  intros Hinv Hs. unfold _write. vrun_simpl.
  pose proof (key_index_ne (s_sid s) (subject_key s) Hs) as Hne.
  pose proof (ttl_seconds_pos (Z.min idle (s_absolute_expiry s - now))).
  pose proof (ttl_seconds_pos absolute).
  destruct (Z.leb_spec (ttl_seconds (Z.min idle (s_absolute_expiry s - now))) 0); [lia|]. simpl.
  rewrite vupd_ne by done.
  destruct (v (index (subject_key s))) as [[[sc|m] d]|] eqn:E.
  { by apply index_no_scalar with (births := births) (t := t) in E. }
  all: simpl; rewrite vupd_eq; simpl; destruct (Z.leb_spec (ttl_seconds absolute) 0); [lia|]; simpl.
  all: split_and!; [done| | |].
  all: try by rewrite !vupd_ne, vupd_eq by done.
  all: try (rewrite vupd_eq; do 3 f_equal; set_solver).
  all: intros k Hk1 Hk2; by rewrite !vupd_ne by done.
Qed.

Lemma write_inv births v t s now :
  (idle <= absolute)%Z -> session_inv births v t -> sid_ok (s_sid s) -> descends births s ->
  session_inv births (vrun round (put s now) v t).1 t.
Proof.
  intros Hia Hinv Hs Hd.
  destruct (write_vrun births v t s now Hinv Hs) as (_ & Hkey & Hidx & Hfr).
  set (w := (vrun _ _ _ _).1) in *. destruct Hinv as (H1 & H2 & H3).
  assert (ttl_seconds (Z.min idle (s_absolute_expiry s - now)) <= ttl_seconds absolute)%Z
    by (apply ttl_seconds_mono; lia).
  split_and!.
  - intros sid e Hsid He. destruct (decide (sid = s_sid s)) as [->|Hne].
    + rewrite Hkey in He. simplify_eq. exists s. eexists. split_and!; [done..|unfold SECOND; lia|].
      rewrite Hidx. do 2 eexists. split_and!; [done|set_solver|unfold SECOND; lia].
    + rewrite Hfr in He by (by apply key_index_ne || (intros E; by apply key_inj in E)).
      destruct (H1 _ _ Hsid He) as (s' & d & -> & ? & ? & ? & m & d' & Hm & ? & ?).
      exists s', d. split_and!; [done..|].
      destruct (decide (index (subject_key s') = index (subject_key s))) as [E|E].
      * rewrite E, Hidx, <- E, Hm. do 2 eexists. split_and!; [done|set_solver|lia].
      * rewrite Hfr, Hm by (done || apply not_eq_sym, key_index_ne, Hs). eauto.
  - intros rest sc d Hr. destruct (decide (key rest = index (subject_key s))) as [->|E].
    { by rewrite Hidx. }
    rewrite Hfr; [by apply H2| |done]. intros E'. apply key_inj in E'. congruence.
  - intros subject m d Hm x Hx. destruct (decide (index subject = index (subject_key s))) as [E|E].
    + rewrite E, Hidx in Hm. simplify_eq. apply elem_of_union in Hx as [Hx|Hx]; [set_solver|].
      destruct (v (index (subject_key s))) as [[[sc|m] d']|] eqn:E'; simpl in Hx; [set_solver| |set_solver].
      eauto.
    + rewrite Hfr in Hm by (done || apply not_eq_sym, key_index_ne, Hs). eauto.
Qed.

(** What [destroy] does to a store in order: it removes the session, prunes its
    index and touches no other session; an identifier that addresses an index
    raises and changes nothing. *)
Lemma destroy_vrun births v t sid :
  session_inv births v t ->
  let out := vrun round (kill sid) v t in
  session_inv births out.1 t /\
  (sid_ok sid -> out.2 = Ok tt /\ out.1 (key sid) = None) /\
  (forall sid', sid_ok sid' -> sid' <> sid -> out.1 (key sid') = v (key sid')).
Proof.
  intros Hinv. pose proof Hinv as (H1 & H2 & H3). unfold destroy. vrun_simpl.
  destruct (v (key sid)) as [[[sc|m] d]|] eqn:E; last first.
  { simpl. rewrite vupd_eq. simpl. split_and!; [|intros; by rewrite vupd_eq|].
    - eapply session_inv_ext; [|exact Hinv]. intros k.
      destruct (decide (k = key sid)) as [->|]; [by rewrite !vupd_eq|by rewrite !vupd_ne].
    - intros sid' Hs' Hne. rewrite !vupd_ne by (intros E'; by apply key_inj in E'). done. }
  { simpl. split_and!.
    - eapply session_inv_ext; [|exact Hinv]. intros k.
      destruct (decide (k = key sid)) as [->|]; [by rewrite !vupd_eq|by rewrite !vupd_ne].
    - intros Hs. by destruct (H1 _ _ Hs E) as (? & ? & ? & _).
    - intros sid' Hs' Hne. by rewrite vupd_ne by (intros E'; by apply key_inj in E'). }
  destruct (Py.has_char ":" sid) eqn:Hs; [by apply H2 in E|].
  destruct (H1 _ _ Hs E) as (s & d' & [= -> ->] & Hsid & Hd & Hle & m & d'' & Hm & Hin & Hle').
  simpl. rewrite to_json_roundtrip. vrun_simpl.
  pose proof (key_index_ne sid (subject_key s) Hs) as Hne.
  rewrite vupd_ne, Hm by done. simpl. rewrite vupd_ne, vupd_eq by done. simpl.
  set (w := vupd _ _ None).
  assert (w (key sid) = None) as Hw1 by (subst w; by rewrite vupd_eq).
  assert (w (index (subject_key s)) = if bool_decide (m ∖ {[sid]} = ∅) then None
    else Some (Entry (VSet (m ∖ {[sid]})) (Some d''))) as Hw2
    by (subst w; by rewrite vupd_ne, vupd_eq).
  assert (forall k, k <> key sid -> k <> index (subject_key s) -> w k = v k) as Hw3
    by (intros k ??; subst w; by rewrite !vupd_ne).
  assert (forall sid', sid_ok sid' -> sid' <> sid -> w (key sid') = v (key sid')) as Hw4.
  { intros sid' Hs' Hn. apply Hw3; [intros E'; by apply key_inj in E'|by apply key_index_ne]. }
  clearbody w. split_and!; [|done..]. split_and!.
  - intros sid' e Hs' He. destruct (decide (sid' = sid)) as [->|Hn]; [congruence|].
    rewrite Hw4 in He by done.
    destruct (H1 _ _ Hs' He) as (s' & e' & -> & ? & ? & ? & m' & d3 & Hm' & ? & ?).
    exists s', e'. split_and!; [done..|].
    destruct (decide (index (subject_key s') = index (subject_key s))) as [E'|E'].
    + rewrite E', Hw2. rewrite E', Hm in Hm'. simplify_eq.
      rewrite bool_decide_false by set_solver. do 2 eexists. split_and!; [done|set_solver|lia].
    + rewrite Hw3, Hm' by (done || by apply not_eq_sym, key_index_ne). eauto.
  - intros rest sc dd Hr. destruct (decide (key rest = index (subject_key s))) as [->|E'].
    + rewrite Hw2. by case_bool_decide.
    + rewrite Hw3; [by apply H2| |done]. intros E2. apply key_inj in E2. congruence.
  - intros subject m' dd Hm' x Hx.
    destruct (decide (index subject = index (subject_key s))) as [E'|E'].
    + rewrite E', Hw2 in Hm'. case_bool_decide; [done|]. simplify_eq.
      eapply H3; [exact Hm|set_solver].
    + rewrite Hw3 in Hm' by (done || by apply not_eq_sym, key_index_ne). eauto.
Qed.

#[local] Opaque _write destroy.

(** ** The operations *)

(** The session stored under an identifier. *)
Definition stored (v : kview) (sid : string) : option Session :=
  match v (key sid) with
  | Some (Entry (VScalar sc) _) => match from_json sc with Ok s => Some s | Err _ => None end
  | _ => None
  end.

(** What a load answers for the session it finds. *)
Definition load_answer (found : option Session) (now : moment) : loaded :=
  match found with
  | Some s =>
      if expired idle s now then Loaded None None
      else Loaded (Some (touch s now)) (Some (s_impersonated_by s))
  | None => Loaded None None
  end.

Lemma stored_key births v t sid :
  session_inv births v t -> sid_ok sid ->
  (stored v sid = None /\ v (key sid) = None) \/
  exists s d, stored v sid = Some s /\ s_sid s = sid /\ descends births s /\
    v (key sid) = Some (Entry (VScalar (SJson (to_json s))) d).
Proof.
  intros (H1 & _) Hs. unfold stored. destruct (v (key sid)) as [e|] eqn:E; [right|by left].
  destruct (H1 _ _ Hs E) as (s & d & -> & ? & ? & _). rewrite to_json_roundtrip. eauto 6.
Qed.

Lemma stored_same v w sid : v (key sid) = w (key sid) -> stored v sid = stored w sid.
Proof. unfold stored. by intros ->. Qed.

Lemma stored_age t v sid s : stored (fun k => age t (v k)) sid = Some s -> stored v sid = Some s.
Proof.
  unfold stored. destruct (age t (v (key sid))) as [e|] eqn:E; [|done].
  apply age_Some in E as [-> _]. done.
Qed.

Lemma stored_wrote v s d :
  v (key (s_sid s)) = Some (Entry (VScalar (SJson (to_json s))) d) -> stored v (s_sid s) = Some s.
Proof. unfold stored. intros ->. by rewrite to_json_roundtrip. Qed.

Lemma read_ext v sid k : vupd v (key sid) (v (key sid)) k = v k.
Proof. destruct (decide (k = key sid)) as [->|]; [by rewrite vupd_eq|by rewrite vupd_ne]. Qed.

(** [write_vrun] in terms of [stored]. *)
Lemma write_stored births v t s now :
  session_inv births v t -> sid_ok (s_sid s) ->
  let out := vrun round (put s now) v t in
  out.2 = Ok tt /\ stored out.1 (s_sid s) = Some s /\
  forall sid, sid_ok sid -> sid <> s_sid s -> stored out.1 sid = stored v sid.
Proof.
  intros Hinv Hs. destruct (write_vrun births v t s now Hinv Hs) as (Hr & Hk & _ & Hfr).
  split_and!; [done|by eapply stored_wrote|]. intros sid Hs' Hne. apply stored_same, Hfr.
  - intros E. by apply key_inj in E.
  - by apply key_index_ne.
Qed.

Lemma load_vrun births v t sid now :
  (idle <= absolute)%Z -> session_inv births v t ->
  let out := vrun round (fetch sid now) v t in
  session_inv births out.1 t /\
  (sid_ok sid -> out.2 = Ok (load_answer (stored v sid) now) /\
     stored out.1 sid = l_session (load_answer (stored v sid) now)) /\
  (Py.has_char ":" sid = true -> out.2 = Ok (Loaded None None) \/ out.2 = Err ResponseError) /\
  (forall sid', sid_ok sid' -> sid' <> sid -> stored out.1 sid' = stored v sid').
Proof.
  intros Hia Hinv. cbv zeta. unfold load. rewrite vrun_bind. unfold redis_get. simpl.
  assert (session_inv births (vupd v (key sid) (v (key sid))) t) as Hinv'.
  { eapply session_inv_ext; [|exact Hinv]. intros k. by rewrite read_ext. }
  assert (forall sid', stored (vupd v (key sid) (v (key sid))) sid' = stored v sid') as Hst.
  { intros. apply stored_same, read_ext. }
  destruct (Py.has_char ":" sid) eqn:Hs.
  - destruct (v (key sid)) as [[[sc|m] d]|] eqn:E; simpl.
    + destruct Hinv as (_ & H2 & _). by apply H2 in E.
    + split_and!; eauto; done.
    + split_and!; eauto; done.
  - destruct (stored_key births v t sid Hinv Hs) as [[Hn E]|(s & d & E & Hsid & Hd & Ek)].
    + rewrite Hn. rewrite E in *. simpl. split_and!; eauto; try done. intros _. by rewrite Hst, Hn.
    + rewrite E. rewrite Ek in *. simpl. rewrite to_json_roundtrip. simpl. destruct (expired idle s now).
      * rewrite vrun_bind. destruct (destroy_vrun births _ t sid Hinv') as (Hi & Hok & Hfr).
        destruct (Hok Hs) as [Hr Hnone]. destruct (vrun round (kill sid) _ t) as [w o]. simpl in *.
        subst o. simpl. split_and!; [done| |done|].
        -- intros _. split; [done|]. unfold stored. by rewrite Hnone.
        -- intros sid' Hs' Hne. by rewrite (stored_same w _ sid' (Hfr sid' Hs' Hne)).
      * rewrite vrun_bind. subst sid. pose proof (write_inv births _ t (touch s now) now Hia Hinv' Hs Hd) as Hi.
        destruct (write_stored births _ t (touch s now) now Hinv' Hs) as (Hr & Hw & Hfr).
        destruct (vrun round (put _ _) _ t) as [w o]. simpl in *. subst o. simpl.
        split_and!; [done|done|done|]. intros sid' Hs' Hne. by rewrite Hfr.
Qed.

#[local] Opaque load.

Abbreviation relocate := (move sha256_hex idle absolute SESSION_KEY_PREFIX).

(** A rotation or an elevation: the session answers to its new identifier and no
    longer to the old one; where there is nothing to move, nothing is written
    under the new identifier. *)
Lemma move_vrun births v t sid c new now :
  (idle <= absolute)%Z -> session_inv births v t -> ch_sid c = Some new -> sid_ok new ->
  let out := vrun round (relocate sid c now) v t in
  let found := load_answer (stored v sid) now in
  session_inv births out.1 t /\
  (sid_ok sid -> new <> sid ->
     out.2 = Ok (Loaded (flip _replace c <$> l_session found) (l_impersonator found)) /\
     stored out.1 sid = None /\
     (l_session found <> None -> stored out.1 new = flip _replace c <$> l_session found)) /\
  (Py.has_char ":" sid = true -> out.2 = Ok (Loaded None None) \/ out.2 = Err ResponseError).
Proof.
  intros Hia Hinv Hc Hnew. cbv zeta. unfold move. rewrite vrun_bind.
  destruct (load_vrun births v t sid now Hia Hinv) as (Hi & Hok & Hbad & _).
  destruct (vrun round (fetch sid now) v t) as [w o]. simpl in *.
  destruct (Py.has_char ":" sid) eqn:Hs.
  { by destruct (Hbad eq_refl) as [-> | ->]; simpl; split_and!; eauto. }
  destruct (Hok eq_refl) as [-> Hst]. simpl. destruct (stored v sid) as [s|] eqn:E; simpl in *.
  2: { split_and!; [done| |done]. intros _ _. split_and!; [done|done|done]. }
  destruct (expired idle s now); simpl in *; [split_and!; try done|].
  set (moved := _replace (touch s now) c).
  assert (s_sid moved = new) as Hm by (subst moved; simpl; by rewrite Hc).
  destruct (stored_key births v t sid Hinv Hs) as [[? _]|(s' & d & Hs' & _ & Hd & _)]; [congruence|].
  assert (s' = s) as -> by congruence.
  rewrite <- Hm in Hnew. rewrite vrun_bind.
  pose proof (write_inv births w t moved now Hia Hi Hnew Hd) as Hi2.
  destruct (write_stored births w t moved now Hi Hnew) as (Hr & Hw & Hfr).
  destruct (vrun round (put moved now) w t) as [w2 o2]. simpl in *. subst o2.
  rewrite vrun_bind. destruct (destroy_vrun births w2 t sid Hi2) as (Hi3 & Hok3 & Hfr3).
  destruct (Hok3 Hs) as [Hr3 Hn3]. destruct (vrun round (kill sid) w2 t) as [w3 o3]. simpl in *.
  subst o3. simpl. split_and!; [done| |done]. intros _ Hne. split_and!; [done| |].
  - unfold stored. by rewrite Hn3.
  - intros _. rewrite <- Hm. rewrite <- Hw. apply stored_same, Hfr3; [done|congruence].
Qed.

(** Ending the sessions of a list of identifiers. *)
Lemma destroy_all_vrun births sids v t :
  session_inv births v t -> Forall (fun sid => sid_ok sid) sids ->
  let out := vrun round (pfor sids kill) v t in
  out.2 = Ok tt /\ session_inv births out.1 t /\
  (forall sid, sid_ok sid -> sid ∈ sids -> out.1 (key sid) = None) /\
  (forall sid, sid_ok sid -> sid ∉ sids -> out.1 (key sid) = v (key sid)).
Proof.
  revert v. induction sids as [|sid sids IH]; intros v Hinv Hall.
  { simpl. split_and!; try done. intros ? _ []%elem_of_nil. }
  apply Forall_cons in Hall as [Hs Hall]. cbn [pfor]. rewrite vrun_bind.
  destruct (destroy_vrun births v t sid Hinv) as (Hi & Hok & Hfr).
  destruct (Hok Hs) as [Hr Hn]. destruct (vrun round (kill sid) v t) as [w o]. simpl in *. subst o.
  destruct (IH w Hi Hall) as (Hr2 & Hi2 & Hin & Hout). split_and!; [done..| |].
  - intros x Hx Hel. destruct (decide (x ∈ sids)); [by apply Hin|].
    assert (x = sid) as -> by set_solver. by rewrite Hout.
  - intros x Hx Hel. rewrite Hout by set_solver. apply Hfr; set_solver.
Qed.

Lemma index_gone_inv births v t subject :
  session_inv births v t ->
  (forall sid s, sid_ok sid -> stored v sid = Some s -> index (subject_key s) <> index subject) ->
  session_inv births (vupd v (index subject) None) t.
Proof.
  intros Hinv Hno. pose proof Hinv as (H1 & H2 & H3). split_and!.
  - intros sid e Hs He. rewrite vupd_ne in He by by apply key_index_ne.
    destruct (H1 _ _ Hs He) as (s & d & -> & ? & ? & ? & Hx).
    exists s, d. split_and!; [done..|]. rewrite vupd_ne; [done|]. eapply Hno; [done|].
    subst sid. by eapply stored_wrote.
  - intros rest sc d Hr. destruct (decide (key rest = index subject)) as [->|];
      [by rewrite vupd_eq|rewrite vupd_ne by done; eauto].
  - intros subject' m d. destruct (decide (index subject' = index subject)) as [->|];
      [by rewrite vupd_eq|rewrite vupd_ne by done; eauto].
Qed.

(** Ending every session of a person: it answers every identifier that had a
    session of theirs, and leaves none. *)
Lemma terminate_vrun births v t subject :
  session_inv births v t ->
  let out := vrun round (terminate subject) v t in
  exists sids, out.2 = Ok sids /\ session_inv births out.1 t /\
    (forall sid s, sid_ok sid -> stored v sid = Some s ->
       index (subject_key s) = index subject -> sid ∈ sids) /\
    (forall sid s, sid_ok sid -> stored out.1 sid = Some s ->
       stored v sid = Some s /\ index (subject_key s) <> index subject).
Proof.
  intros Hinv. cbv zeta. unfold terminate_subject, sids_for, set_members. rewrite vrun_bind.
  set (sids := merge_sort String.le (elements (members_of (v (index subject))))).
  assert (exists w, vrun round (Do (SMEMBERS (index subject)) (fun r => match r with
      | RMembers s => Ret (merge_sort String.le (elements s)) | _ => failed r end)) v t = (w, Ok sids)
      /\ forall k, w k = v k) as (w & -> & Hw).
  { simpl. destruct (v (index subject)) as [[[sc|m] d]|] eqn:E; simpl.
    - by apply index_no_scalar with (births := births) (t := t) in E.
    - eexists. split; [done|]. intros k. destruct (decide (k = index subject)) as [->|];
        [by rewrite vupd_eq|by rewrite vupd_ne].
    - eexists. split; [done|]. intros k. destruct (decide (k = index subject)) as [->|];
        [by rewrite vupd_eq|by rewrite vupd_ne]. }
  assert (session_inv births w t) as Hi by (by apply (session_inv_ext births v); [intros k; rewrite Hw|]).
  assert (forall x, x ∈ sids <-> x ∈ members_of (v (index subject))) as Hsids.
  { intros x. subst sids. rewrite (merge_sort_Permutation String.le). set_solver. }
  assert (Forall (fun sid => sid_ok sid) sids) as Hall.
  { apply Forall_forall. intros x Hx. apply Hsids in Hx. destruct Hinv as (_ & _ & H3).
    destruct (v (index subject)) as [[[sc|m] d]|] eqn:E; simpl in Hx; [set_solver|eauto|set_solver]. }
  assert (forall sid s, sid_ok sid -> stored v sid = Some s ->
       index (subject_key s) = index subject -> sid ∈ sids) as Hcover.
  { intros sid s Hs Hst Hix. apply Hsids. pose proof Hinv as (H1 & _).
    destruct (stored_key births v t sid Hinv Hs) as [[? _]|(s' & d & Hs' & _ & _ & Hk)]; [congruence|].
    assert (s' = s) as -> by congruence.
    destruct (H1 _ _ Hs Hk) as (s' & d' & Hj & _ & _ & _ & m & d2 & Hm & Hin & _).
    assert (s = s') as <- by (apply to_json_inj; congruence). rewrite Hix in Hm. by rewrite Hm. }
  rewrite vrun_bind. destruct (destroy_all_vrun births sids w t Hi Hall) as (Hr & Hi2 & Hin & Hout).
  destruct (vrun round (pfor sids kill) w t) as [w2 o2]. simpl in *. subst o2.
  assert (forall sid s, sid_ok sid -> stored w2 sid = Some s ->
    stored v sid = Some s /\ index (subject_key s) <> index subject) as Hleft.
  { intros sid s Hs Hst. destruct (decide (sid ∈ sids)) as [Hel|Hel].
    { unfold stored in Hst. by rewrite Hin in Hst. }
    rewrite (stored_same w2 v) in Hst by (rewrite Hout, Hw; done).
    split; [done|]. intros Hix. apply Hel. by eapply Hcover. }
  exists sids. vrun_simpl.
  destruct (w2 (index subject)); simpl; (split_and!; [done| |done|]).
  all: try (apply index_gone_inv; [done|]; intros sid s Hs Hst; by eapply Hleft).
  all: intros sid s Hs Hst; eapply Hleft; [done|]; rewrite <- Hst; apply stored_same;
    by rewrite vupd_ne by by apply key_index_ne.
Qed.
End proofs.

(** ** Histories

    Any sequence of operations on the store, at moments that do not go back,
    interspersed with commands on keys that are not session keys.  [births]
    collects the logins that created a session. *)

Inductive op : Type :=
| Load (sid : string) (now : moment)
| Rotate (new_sid sid : string) (now : moment)
| Elevate (new_sid sid acr : string) (amr : list string) (now : moment)
| Destroy (sid : string)
| Terminate (subject : string).

Section histories.
Context {R : Type} `{RedisLaws R}.
Context (sha256_hex : string -> string).
Context (idle absolute : duration) (idle_le_absolute : (idle <= absolute)%Z).

Abbreviation SP := SESSION_KEY_PREFIX.

Definition op_prog (o : op) : prog unit :=
  match o with
  | Load sid now => do* load sha256_hex idle absolute SP sid now; Ret tt
  | Rotate new sid now => do* rotate sha256_hex idle absolute SP new sid now; Ret tt
  | Elevate new sid acr amr now =>
      do* elevate sha256_hex idle absolute SP new sid acr amr now; Ret tt
  | Destroy sid => destroy sha256_hex SP sid
  | Terminate subject => do* terminate_subject sha256_hex SP subject; Ret tt
  end.

(** New identifiers come from [secrets.token_urlsafe]; presented ones from
    anywhere. *)
Definition op_ok (o : op) : bool :=
  match o with
  | Rotate new _ _ | Elevate new _ _ _ _ => negb (Py.has_char ":" new)
  | _ => true
  end.

Inductive history : list (login * moment) -> R -> moment -> Prop :=
| history_start r t :
    (forall rest, r_view r t (SP +:+ rest) = None) -> history [] r t
| history_create births r t t' new lg now wall :
    history births r t -> (t <= t')%Z -> Py.has_char ":" new = false ->
    history ((lg, now) :: births)
      (run (create sha256_hex idle absolute SP new lg now wall) r t').1 t'
| history_op births r t t' o :
    history births r t -> (t <= t')%Z -> op_ok o = true ->
    history births (run (op_prog o) r t').1 t'
| history_other births r t t' c :
    history births r t -> (t <= t')%Z -> Py.startswith (cmd_key c) SP = false ->
    history births (r_exec r t' c).1 t'
| history_wait births r t t' :
    history births r t -> (t <= t')%Z -> history births r t'.

Abbreviation inv := (session_inv sha256_hex absolute).

Lemma inv_births births births' v t :
  (forall x, x ∈ births -> x ∈ births') -> inv births v t -> inv births' v t.
Proof.
  intros Hb (H1 & H2 & H3). split_and!; [|done..]. intros sid e Hs He.
  destruct (H1 _ _ Hs He) as (s & d & ? & ? & (lg & b & ? & ?) & ?). exists s, d.
  split_and!; try done; [|naive_solver..]. exists lg, b. eauto.
Qed.

Lemma inv_later births (r : R) t t' :
  (t <= t')%Z -> inv births (r_view r t) t -> inv births (r_view r t') t'.
Proof.
  intros Ht Hi. eapply session_inv_ext; [|by apply session_inv_age with (t := t)].
  intros k. by rewrite (r_view_age r t t').
Qed.

Lemma run_inv {A} births (p : prog A) (r : R) t :
  inv births (vrun r_round p (r_view r t) t).1 t -> inv births (r_view (run p r t).1 t) t.
Proof.
  intros Hi. eapply session_inv_ext; [|exact Hi]. intros k. symmetry. by apply run_vrun.
Qed.

Lemma then_ret_inv {A} births (p : prog A) v t :
  inv births (vrun r_round p v t).1 t ->
  inv births (vrun r_round (do* p; Ret tt) v t).1 t.
Proof. rewrite vrun_bind. by destruct (vrun r_round p v t) as [w [a|e]]. Qed.

Lemma op_inv births o v t :
  inv births v t -> op_ok o = true -> inv births (vrun r_round (op_prog o) v t).1 t.
Proof.
  intros Hi Hok. destruct o as [sid now|new sid now|new sid acr amr now|sid|subject]; simpl in Hok;
    bool_prop; unfold op_prog; try apply then_ret_inv.
  - by apply load_vrun.
  - by eapply move_vrun.
  - by eapply move_vrun.
  - by apply destroy_vrun.
  - by destruct (terminate_vrun sha256_hex absolute r_round births v t subject Hi) as (? & _ & ? & _).
Qed.

Lemma history_inv births r t : history births r t -> inv births (r_view r t) t.
Proof.
  induction 1 as [r t Hz|births r t t' new lg now wall _ IH Ht Hn|births r t t' o _ IH Ht Ho
                 |births r t t' c _ IH Ht Hc|births r t t' _ IH Ht].
  - assert (forall rest, r_view r t (_key SP rest) = None) as Hz' by done.
    split_and!; [intros sid e _; by rewrite Hz'|intros; by rewrite Hz'|].
    intros subject m d. rewrite index_is_key. by rewrite Hz'.
  - apply run_inv. unfold create. rewrite vrun_bind.
    assert (inv ((lg, now) :: births) (r_view r t') t') as Hi.
    { eapply inv_births; [|by eapply inv_later]. set_solver. }
    assert (descends absolute ((lg, now) :: births) (new_session absolute new lg now)) as Hd.
    { exists lg, now. split_and!; [set_solver|done..]. }
    pose proof (write_inv sha256_hex idle absolute r_round _ _ t' (new_session absolute new lg now)
      wall idle_le_absolute Hi Hn Hd) as Hw.
    by destruct (vrun _ _ _ _) as [w [a|e]].
  - apply run_inv, op_inv; [by eapply inv_later|done].
  - apply (inv_later _ _ _ t' Ht) in IH as (H1 & H2 & H3).
    assert (forall rest, r_view (r_exec r t' c).1 t' (_key SP rest) = r_view r t' (_key SP rest)) as Hfr.
    { intros rest. rewrite r_exec_frame; [done|lia|]. intros E. rewrite <- E in Hc.
      unfold _key in Hc. by rewrite Py.startswith_app in Hc. }
    split_and!.
    + intros sid e Hs. rewrite Hfr. intros He. destruct (H1 _ _ Hs He) as (s & d & ? & ? & ? & ? & Hx).
      exists s, d. by rewrite index_is_key, Hfr, <- index_is_key.
    + intros rest sc d. rewrite Hfr. apply H2.
    + intros subject m d. rewrite index_is_key, Hfr, <- index_is_key. apply H3.
  - by eapply inv_later.
Qed.

(** Programs of other components leave a history a history. *)
Lemma history_run {A} births r t t' (p : prog A) :
  history births r t -> (t <= t')%Z -> touches (fun k => Py.startswith k SP = false) p ->
  history births (run p r t').1 t'.
Proof.
  intros Hh Ht Hp. apply (history_wait _ _ _ t') in Hh; [|done]. clear t Ht. revert r Hh.
  induction p as [a|e|c k IH]; intros r Hh; [done..|]. destruct Hp as [Hc Hk]. simpl.
  pose proof (history_other births r t' t' c Hh ltac:(lia) Hc) as Hn.
  destruct (r_exec r t' c) as [r' rep]. by apply IH.
Qed.

Abbreviation fetch := (load sha256_hex idle absolute SP).
Abbreviation at_ r t := (r_view r t) (only parsing).

(** What a load returns in any history. *)
Lemma history_load births r t t' sid now l s :
  history births r t -> (t <= t')%Z ->
  (run (fetch sid now) r t').2 = Ok l -> l_session l = Some s ->
  Py.has_char ":" sid = false /\
  exists s0, stored (at_ r t') sid = Some s0 /\ descends absolute births s0 /\
    expired idle s0 now = false /\ s = touch s0 now /\ l_impersonator l = Some (s_impersonated_by s0).
Proof.
  intros Hh Ht Hl Hs. apply history_inv, (inv_later _ _ _ t' Ht) in Hh. rewrite run_result in Hl.
  destruct (load_vrun sha256_hex idle absolute r_round births _ t' sid now idle_le_absolute Hh)
    as (_ & Hok & Hbad & _). rewrite Hl in Hok, Hbad. clear Hl.
  destruct (Py.has_char ":" sid) eqn:Hsid.
  { destruct (Hbad eq_refl) as [[= ->]|]; done. }
  split; [done|]. destruct (Hok eq_refl) as [[= ->] _]. clear Hok Hbad.
  destruct (stored_key _ _ _ _ _ sid Hh Hsid) as [[E _]|(s0 & d & E & _ & Hd & _)]; rewrite E in Hs |- *;
    simpl in Hs |- *; [done|].
  exists s0. destruct (expired idle s0 now) eqn:Ex; simpl in *; [done|]. injection Hs as <-.
  split_and!; [reflexivity|exact Hd|done|reflexivity|reflexivity].
Qed.

(** C13: Both timeouts hold in every history.  Whatever sequence of logins,
    loads, rotations, elevations, logouts and terminations went before, a load
    that returns a session returns one whose login was less than the absolute
    timeout ago and whose last use was less than the idle timeout ago; the
    session still names the person who logged in, and the impersonation marker
    set for the request is the one the login carried. *)
Theorem session_timeouts (births : list (login * moment)) (r : R) (t t' : moment)
    (sid : string) (now : moment) (l : loaded) (s : Session) :
  history births r t -> (t <= t')%Z ->
  (run (fetch sid now) r t').2 = Ok l -> l_session l = Some s ->
  exists lg b before, (lg, b) ∈ births /\
    (now < b + absolute)%Z /\ (now - before < idle)%Z /\
    stored (r_view r t') sid = Some (touch s before) /\
    s_last_seen_at s = now /\ s_absolute_expiry s = (b + absolute)%Z /\
    s_person_uuid s = lg_person_uuid lg /\ s_name_id s = lg_name_id lg /\
    l_impersonator l = Some (lg_impersonated_by lg).
Proof.
  intros Hh Ht Hl Hs.
  destruct (history_load births r t t' sid now l s Hh Ht Hl Hs) as (_ & s0 & E & Hd & Ex & -> & Hm).
  unfold expired in Ex. bool_prop. destruct Hd as (lg & b & Hin & _ & Hn & Hp & Him & Hc & Ha).
  exists lg, b, (s_last_seen_at s0). rewrite E, Hm, <- Hn, <- Hp, <- Him.
  split_and!; [exact Hin|lia|lia|by destruct s0|reflexivity|exact Ha|reflexivity..].
Qed.

(** What a termination leaves behind: the identifiers it answers, and a store in
    which, as long as the session keys stay as it left them, no identifier loads
    a session of the person. *)
Lemma terminated births r t t1 subject :
  history births r t -> (t <= t1)%Z ->
  let out := run (terminate_subject sha256_hex SP subject) r t1 in
  exists sids, out.2 = Ok sids /\ history births out.1 t1 /\
    (forall sid now l s, (run (fetch sid now) r t1).2 = Ok l -> l_session l = Some s ->
       subject_key s = subject -> sid ∈ sids) /\
    (forall r2 t2, history births r2 t1 -> (t1 <= t2)%Z ->
       (forall rest, r_view r2 t1 (SP +:+ rest) = r_view out.1 t1 (SP +:+ rest)) ->
       forall sid now l s, (run (fetch sid now) r2 t2).2 = Ok l -> l_session l = Some s ->
         subject_key s <> subject).
Proof.
  intros Hh Ht. cbv zeta.
  assert (history births (run (terminate_subject sha256_hex SP subject) r t1).1 t1) as Hh1.
  { pose proof (history_op births r t t1 (Terminate subject) Hh Ht eq_refl) as Hop.
    unfold op_prog in Hop. rewrite run_bind in Hop.
    by destruct (run (terminate_subject sha256_hex SP subject) r t1) as [r' [a|e]]. }
  destruct (terminate_vrun sha256_hex absolute r_round births (at_ r t1) t1 subject)
    as (sids & Hres & _ & Hcover & Hleft).
  { eapply inv_later; [exact Ht|]. by apply history_inv. }
  exists sids. split_and!; [by rewrite run_result|exact Hh1| |].
  - intros sid now l s Hl Hs Hsub.
    destruct (history_load births r t t1 sid now l s Hh Ht Hl Hs) as (Hsid & s0 & E & _ & _ & -> & _).
    eapply Hcover; [exact Hsid|exact E|]. by rewrite <- Hsub.
  - intros r2 t2 Hh2 Ht2 Hsame sid now l s Hl Hs Hsub.
    destruct (history_load births r2 t1 t2 sid now l s Hh2 Ht2 Hl Hs) as (Hsid & s0 & E & _ & _ & -> & _).
    apply (Hleft sid s0); [exact Hsid| |by rewrite <- Hsub].
    apply (stored_age t2). rewrite <- E. apply stored_same. rewrite (r_view_age r2 t1 t2) by done.
    f_equal. symmetry. etransitivity; [exact (Hsame sid)|]. by apply run_vrun.
Qed.

(** C12: Ending a person's sessions ends all of them.  In every history,
    [terminate_subject] succeeds, answers every identifier under which the
    person had a live session, and from then on no identifier loads a session of
    theirs until somebody logs in again. *)
Theorem terminate_ends_every_session (births : list (login * moment)) (r : R)
    (t t1 t2 : moment) (subject : string) :
  history births r t -> (t <= t1)%Z -> (t1 <= t2)%Z ->
  let out := run (terminate_subject sha256_hex SP subject) r t1 in
  exists sids, out.2 = Ok sids /\
    (forall sid now l s, (run (fetch sid now) r t1).2 = Ok l -> l_session l = Some s ->
       subject_key s = subject -> sid ∈ sids) /\
    (forall sid now l s, (run (fetch sid now) out.1 t2).2 = Ok l -> l_session l = Some s ->
       subject_key s <> subject).
Proof.
  intros Hh Ht Ht2. cbv zeta.
  destruct (terminated births r t t1 subject Hh Ht) as (sids & Hres & Hh1 & Hcover & Hleft).
  exists sids. split_and!; [exact Hres|exact Hcover|]. by apply Hleft.
Qed.

(** A load answers what is stored. *)
Lemma inv_answers births r t t' sid now :
  inv births (at_ r t) t -> (t <= t')%Z -> Py.has_char ":" sid = false ->
  (run (fetch sid now) r t').2 = Ok (load_answer idle (stored (at_ r t') sid) now).
Proof.
  intros Hh Ht Hs. apply (inv_later _ _ _ t' Ht) in Hh. rewrite run_result.
  destruct (load_vrun sha256_hex idle absolute r_round births _ t' sid now idle_le_absolute Hh) as (_ & Hans & _).
  by destruct (Hans Hs) as [-> _].
Qed.

Lemma stored_later r t t' sid : (t <= t')%Z -> stored (at_ r t) sid = None -> stored (at_ r t') sid = None.
Proof.
  intros Ht Hn. destruct (stored (at_ r t') sid) as [s|] eqn:E; [|done].
  rewrite (stored_same _ (fun k => age t' (r_view r t k))) in E by (by rewrite (r_view_age r t t')).
  apply stored_age in E. congruence.
Qed.

(** What a successful move leaves: the session is no longer stored where it was,
    and the changed one is stored where it goes. *)
Lemma history_moved births r t t1 sid new c now l s :
  history births r t -> (t <= t1)%Z -> Py.has_char ":" new = false -> new <> sid -> ch_sid c = Some new ->
  let out := run (move sha256_hex idle absolute SP sid c now) r t1 in
  out.2 = Ok l -> l_session l = Some s ->
  (exists s0, stored (at_ r t1) sid = Some s0 /\ expired idle s0 now = false /\ s = _replace (touch s0 now) c) /\
  Py.has_char ":" sid = false /\ inv births (at_ out.1 t1) t1 /\
  stored (at_ out.1 t1) sid = None /\ stored (at_ out.1 t1) new = Some s.
Proof.
  intros Hh Ht Hnew Hne Hc. cbv zeta. intros Hl Hs. apply history_inv, (inv_later _ _ _ t1 Ht) in Hh.
  destruct (move_vrun sha256_hex idle absolute r_round births _ t1 sid c new now idle_le_absolute Hh Hc Hnew) as (Hi & Hok & Hbad).
  rewrite run_result in Hl. rewrite Hl in Hok, Hbad. apply run_inv in Hi.
  destruct (Py.has_char ":" sid) eqn:Hsid; [by destruct (Hbad eq_refl) as [[= ->]|]|].
  destruct (Hok eq_refl Hne) as ([= ->] & Hgone & Hthere). clear Hok Hbad Hl. simpl in Hs.
  destruct (stored (at_ r t1) sid) as [s0|]; simpl in Hs, Hthere; [|done].
  destruct (expired idle s0 now) eqn:Ex; simpl in Hs, Hthere; [done|]. injection Hs as Hs.
  set (r1 := (run _ r t1).1) in *.
  assert (forall x, stored (at_ r1 t1) x =
    stored (vrun r_round (move sha256_hex idle absolute SP sid c now) (at_ r t1) t1).1 x) as Hview.
  { intros x. apply stored_same. by apply run_vrun. }
  rewrite <- Hview in Hgone, Hthere. split_and!; [by exists s0|done|done|done|]. rewrite Hthere by done. by f_equal.
Qed.

Lemma history_move births r t t1 t2 sid new c now now2 l s :
  history births r t -> (t <= t1)%Z -> (t1 <= t2)%Z ->
  Py.has_char ":" new = false -> new <> sid -> ch_sid c = Some new ->
  let out := run (move sha256_hex idle absolute SP sid c now) r t1 in
  out.2 = Ok l -> l_session l = Some s ->
  (exists s0, stored (r_view r t1) sid = Some s0 /\ expired idle s0 now = false /\
     s = _replace (touch s0 now) c) /\
  (run (fetch sid now2) out.1 t2).2 = Ok (Loaded None None) /\
  (run (fetch new now2) out.1 t1).2 = Ok (load_answer idle (Some s) now2).
Proof.
  intros Hh Ht Ht2 Hnew Hne Hc. cbv zeta. intros Hl Hs.
  destruct (history_moved births r t t1 sid new c now l s Hh Ht Hnew Hne Hc Hl Hs) as (Hfound & Hsid & Hi & Hgone & Hthere).
  split; [exact Hfound|]. split.
  - by rewrite (inv_answers births _ t1), (stored_later _ t1 t2).
  - by rewrite (inv_answers births _ t1), Hthere.
Qed.

(** Step-up moves the session.  In every history, a successful [elevate]
    returns the stored session under the fresh identifier with the new
    assurance and nothing else changed but the clock fields; from then on the
    old identifier loads nothing, and the new one loads the elevated session. *)
Theorem elevate_moves_session (births : list (login * moment)) (r : R) (t t1 t2 : moment)
    (sid new acr : string) (amr : list string) (now now2 : moment) (l : loaded) (s : Session) :
  history births r t -> (t <= t1)%Z -> (t1 <= t2)%Z ->
  Py.has_char ":" new = false -> new <> sid ->
  let out := run (elevate sha256_hex idle absolute SP new sid acr amr now) r t1 in
  out.2 = Ok l -> l_session l = Some s ->
  (exists s0, stored (r_view r t1) sid = Some s0 /\ expired idle s0 now = false /\
     s = {| s_sid := new; s_idp_entity_id := s_idp_entity_id s0; s_name_id := s_name_id s0;
            s_name_id_format := s_name_id_format s0; s_auth_time := now;
            s_created_at := s_created_at s0; s_last_seen_at := now;
            s_absolute_expiry := s_absolute_expiry s0; s_acr := Some acr; s_amr := amr;
            s_session_index := s_session_index s0; s_attributes := s_attributes s0;
            s_person_uuid := s_person_uuid s0; s_impersonated_by := s_impersonated_by s0 |}) /\
  (run (fetch sid now2) out.1 t2).2 = Ok (Loaded None None) /\
  (run (fetch new now2) out.1 t1).2 = Ok (load_answer idle (Some s) now2).
Proof.
  intros Hh Ht Ht2 Hnew Hne. cbv zeta. unfold elevate. intros Hl Hs.
  exact (history_move births r t t1 t2 sid new (Build_changes (Some new) (Some acr) (Some amr)
    (Some now) (Some now)) now now2 l s Hh Ht Ht2 Hnew Hne eq_refl Hl Hs).
Qed.
End histories.

(** ** Witnesses *)

Section witnesses.

Definition demo_digest (s : string) : string := s.

Definition demo_login : login :=
  {| lg_idp_entity_id := "https://idp.test"; lg_name_id := "n1"; lg_name_id_format := None;
     lg_auth_time := None; lg_acr := None; lg_amr := ["pwd"]; lg_session_index := None;
     lg_attributes := [("mail", ["sam@campus.test"])]; lg_person_uuid := Some "sam";
     lg_impersonated_by := None |}.

Definition demo_store : Store :=
  (run (create demo_digest IDLE_TIMEOUT ABSOLUTE_TIMEOUT SESSION_KEY_PREFIX "s1" demo_login 0 0)
     (∅ : Store) 0).1.

Lemma demo_history :
  history (R := Store) demo_digest IDLE_TIMEOUT ABSOLUTE_TIMEOUT [(demo_login, 0%Z)] demo_store 0.
Proof.
  apply history_create with (t := 0%Z); [|done|done]. apply history_start.
  intros rest. simpl. by rewrite lookup_empty.
Qed.

Lemma demo_timeouts : (IDLE_TIMEOUT <= ABSOLUTE_TIMEOUT)%Z.
Proof. vm_compute. done. Qed.

Definition demo_loaded : Session := touch (new_session ABSOLUTE_TIMEOUT "s1" demo_login 0) 5.

Lemma session_timeouts_witness :
  exists lg b before, (lg, b) ∈ [(demo_login, 0%Z)] /\ (5 < b + ABSOLUTE_TIMEOUT)%Z /\
    (5 - before < IDLE_TIMEOUT)%Z.
Proof.
  assert ((run (load demo_digest IDLE_TIMEOUT ABSOLUTE_TIMEOUT SESSION_KEY_PREFIX "s1" 5)
     demo_store 5).2 = Ok (Loaded (Some demo_loaded) (Some None))) as Hl by (vm_compute; done).
  destruct (session_timeouts (R := Store) demo_digest IDLE_TIMEOUT ABSOLUTE_TIMEOUT demo_timeouts
    [(demo_login, 0%Z)] demo_store 0 5 "s1" 5 _ demo_loaded demo_history ltac:(done) Hl eq_refl)
    as (lg & b & before & W1 & W2 & W3 & _).
  exists lg, b, before. exact (conj W1 (conj W2 W3)).
Defined.

Lemma terminate_ends_every_session_witness :
  exists sids, (run (terminate_subject demo_digest SESSION_KEY_PREFIX "sam") demo_store 7).2 = Ok sids /\
    "s1" ∈ sids.
Proof.
  assert ((run (load demo_digest IDLE_TIMEOUT ABSOLUTE_TIMEOUT SESSION_KEY_PREFIX "s1" 5)
     demo_store 7).2 = Ok (Loaded (Some demo_loaded) (Some None))) as Hl by (vm_compute; done).
  destruct (terminate_ends_every_session (R := Store) demo_digest IDLE_TIMEOUT ABSOLUTE_TIMEOUT
    demo_timeouts [(demo_login, 0%Z)] demo_store 0 7 9 "sam" demo_history ltac:(done) ltac:(done))
    as (sids & W1 & W2 & _).
  exists sids. split; [exact W1|]. exact (W2 "s1" 5%Z _ demo_loaded Hl eq_refl eq_refl).
Defined.

Definition demo_elevated : Session :=
  _replace demo_loaded {| ch_sid := Some "s2"; ch_acr := Some "mfa"; ch_amr := Some ["pwd"; "otp"];
    ch_auth_time := Some 5%Z; ch_last_seen_at := Some 5%Z |}.

Lemma elevate_moves_session_witness :
  (run (load demo_digest IDLE_TIMEOUT ABSOLUTE_TIMEOUT SESSION_KEY_PREFIX "s1" 6)
    (run (elevate demo_digest IDLE_TIMEOUT ABSOLUTE_TIMEOUT SESSION_KEY_PREFIX "s2" "s1" "mfa"
            ["pwd"; "otp"] 5) demo_store 5).1 6).2 = Ok (Loaded None None).
Proof.
  assert ((run (elevate demo_digest IDLE_TIMEOUT ABSOLUTE_TIMEOUT SESSION_KEY_PREFIX "s2" "s1" "mfa"
      ["pwd"; "otp"] 5) demo_store 5).2 = Ok (Loaded (Some demo_elevated) (Some None))) as Hl
    by (vm_compute; done).
  destruct (elevate_moves_session (R := Store) demo_digest IDLE_TIMEOUT ABSOLUTE_TIMEOUT demo_timeouts
    [(demo_login, 0%Z)] demo_store 0 5 6 "s1" "s2" "mfa" ["pwd"; "otp"] 5 6 _ demo_elevated
    demo_history ltac:(done) ltac:(done) eq_refl ltac:(done) Hl eq_refl) as (_ & W & _).
  exact W.
Defined.

(** A request that is being served while the sessions are ended: the load has
    read the record, the termination runs to its end, the load writes back. *)
Definition demo_termination_race : config Store unit :=
  sched ((0%nat, 1%Z) :: ((fun t => (1%nat, t)) <$> [2; 3; 4; 5; 6]%Z) ++
         ((fun t => (0%nat, t)) <$> [7; 8; 9]%Z))
    (Config 0 demo_store
      [do* load demo_digest IDLE_TIMEOUT ABSOLUTE_TIMEOUT SESSION_KEY_PREFIX "s1" 1; Ret tt;
       do* terminate_subject demo_digest SESSION_KEY_PREFIX "sam"; Ret tt]).

(** The guarantee of [terminate_subject] is sequential only.  A load that
    overlaps a termination puts the session back: there is a schedule in which
    both calls return and the session of the terminated person still loads. *)
Theorem overlapping_load_survives_termination :
  rtc (step (fun _ => False)) (Config 0 demo_store
      [do* load demo_digest IDLE_TIMEOUT ABSOLUTE_TIMEOUT SESSION_KEY_PREFIX "s1" 1; Ret tt;
       do* terminate_subject demo_digest SESSION_KEY_PREFIX "sam"; Ret tt]) demo_termination_race /\
  cf_pool demo_termination_race = [Ret tt; Ret tt] /\
  match (run (load demo_digest IDLE_TIMEOUT ABSOLUTE_TIMEOUT SESSION_KEY_PREFIX "s1" 20)
           (cf_redis demo_termination_race) 20).2 with
  | Ok l => option_map subject_key (l_session l) = Some "sam"
  | Err _ => False
  end.
Proof. split; [apply sched_steps|]. split; vm_compute; done. Qed.

(** An identifier that spells an index key makes the load raise instead of
    answering that there is no session. *)
Theorem index_identifier_raises :
  (run (load demo_digest IDLE_TIMEOUT ABSOLUTE_TIMEOUT SESSION_KEY_PREFIX
          ("subject:" +:+ demo_digest "sam") 5) demo_store 5).2 = Err ResponseError.
Proof. vm_compute. done. Qed.
End witnesses.

End Sessions.
