(* ===== verification/Pending.v ===== *)
(** * References that are spent once

    [campusid/oidc/par.py] (pushed authorization requests),
    [campusid/saml/stores.py] (the replay cache and the outstanding
    [AuthnRequest]s) and [campusid/mfa/challenges.py] (WebAuthn challenges):
    short-lived records in Redis that one request may use. *)

From S2P Require Import Prelude PyStr Json Errors Redis Codec OneShot.

Module Pending.

(** ** Pushed authorization requests *)

Definition REQUEST_URI_PREFIX := "urn:ietf:params:oauth:request_uri:".
Definition PAR_KEY_PREFIX := "oidc:par:".
Definition PAR_TTL : duration := 90 * SECOND.

Definition push (ttl : duration) (reference client_id : string) (parameters : json)
  : prog (string * Z) :=
  let seconds := ttl_seconds ttl in
  do* redis_set (PAR_KEY_PREFIX +:+ reference)
        (SJson (JObj [("client_id", JStr client_id); ("parameters", parameters)])) seconds;
  Ret (REQUEST_URI_PREFIX +:+ reference, seconds).

Definition consume (request_uri client_id : string) : prog (option json) :=
  if negb (Py.startswith request_uri REQUEST_URI_PREFIX) then Ret None
  else
    let reference := Py.removeprefix request_uri REQUEST_URI_PREFIX in
    await* raw := redis_getdel (PAR_KEY_PREFIX +:+ reference) in
    match raw with
    | None => Ret None
    | Some raw =>
        await* record := Codec.lift (Codec.members raw) in
        if negb (bool_decide (Json.lookup record "client_id" = Some (JStr client_id)))
        then Ret None
        else await* parameters := Codec.lift (Codec.item record "parameters") in
             Ret (Some parameters)
    end.

(** ** Assertions already accepted *)

Definition REPLAY_KEY_PREFIX := "saml:replay:".
Definition REQUEST_KEY_PREFIX := "saml:request:".

Definition replay_remember (assertion_id : string) (ttl : duration) : prog bool :=
  redis_set_nx (REPLAY_KEY_PREFIX +:+ assertion_id) (SText "1") (ttl_seconds ttl).

(** ** Outstanding requests *)

Record OutstandingRequest : Type := {
  request_id : string;
  idp_entity_id : string;
  relay_state : string;
  created_at : moment;
  return_to : option string;
  correlation_id : option string;
}.

Definition request_to_json (q : OutstandingRequest) : json := JObj [
  ("request_id", JStr (request_id q));
  ("idp_entity_id", JStr (idp_entity_id q));
  ("relay_state", JStr (relay_state q));
  ("created_at", JIso (created_at q));
  ("return_to", Codec.of_opt_str (return_to q));
  ("correlation_id", Codec.of_opt_str (correlation_id q))].

Definition request_from_json (raw : scalar) : result exn OutstandingRequest :=
  let* m := Codec.members raw in
  let* request_id := rbind (Codec.item m "request_id") Codec.as_str in
  let* idp_entity_id := rbind (Codec.item m "idp_entity_id") Codec.as_str in
  let* relay_state := rbind (Codec.item m "relay_state") Codec.as_str in
  let* created_at := rbind (Codec.item m "created_at") Codec.as_moment in
  let* return_to := Codec.as_opt_str (Codec.optional m "return_to" JNull) in
  let* correlation_id := Codec.as_opt_str (Codec.optional m "correlation_id" JNull) in
  Ok {| request_id := request_id; idp_entity_id := idp_entity_id; relay_state := relay_state;
        created_at := created_at; return_to := return_to; correlation_id := correlation_id |}.

Definition request_remember (q : OutstandingRequest) (ttl : duration) : prog unit :=
  redis_set (REQUEST_KEY_PREFIX +:+ request_id q) (SJson (request_to_json q)) (ttl_seconds ttl).

Definition request_consume (id : string) : prog (option OutstandingRequest) :=
  await* payload := redis_getdel (REQUEST_KEY_PREFIX +:+ id) in
  match payload with
  | None => Ret None
  | Some payload => await* q := Codec.lift (request_from_json payload) in Ret (Some q)
  end.

(** ** WebAuthn challenges *)

Definition PREFIX := "mfa:challenge:".
Definition TTL : duration := 300 * SECOND.
Definition REGISTER := "register".
Definition AUTHENTICATE := "authenticate".

Definition challenge_key (person_uuid ceremony : string) : string :=
  PREFIX +:+ ceremony +:+ ":" +:+ person_uuid.

(** The lifetime is passed as it is: a lifetime under a second is refused. *)
Definition issue (ttl : duration) (challenge person_uuid ceremony : string) : prog string :=
  do* redis_set (challenge_key person_uuid ceremony) (SText (Hex.encode challenge))
        (whole_seconds ttl);
  Ret challenge.

Definition challenge_consume (person_uuid ceremony : string) : prog (option string) :=
  await* raw := redis_getdel (challenge_key person_uuid ceremony) in
  match raw with
  | None => Ret None
  | Some (SText hex) => Ret (Hex.decode hex)
  | Some _ => Ret None
  end.

(** ** Single use under interleaving *)

Section proofs.
Context {R : Type} `{RedisLaws R}.

Definition found {A} (o : option A) : bool := match o with Some _ => true | None => false end.

(** A program that fetches and deletes first and succeeds only on what it got. *)
Lemma getdel_taker {A} key (f : scalar -> prog (option A)) :
  (forall raw, quiet key (f raw)) ->
  taker found key (await* raw := redis_getdel key in
    match raw with None => Ret None | Some raw => f raw end).
Proof.
  intros Hq. apply taker_take.
  - intros rep Hrep. destruct rep as [| |raw| | | |]; simpl; try done. by destruct (Hrep raw).
  - intros s. apply Hq.
Qed.

(** A pushed request is authorised once.  However the presentations of one
    [request_uri], by any clients, interleave with each other and with the rest
    of the broker, at most one of them obtains the request. *)
Theorem par_single_use (request_uri : string) (clients : list string) (env : cmd -> Prop)
    (t0 : moment) (r : R) (cf : config R (option json)) (i j : nat) (a b : json) :
  (forall c, env c ->
     cmd_key c <> PAR_KEY_PREFIX +:+ Py.removeprefix request_uri REQUEST_URI_PREFIX) ->
  rtc (step env) (Config t0 r (consume request_uri <$> clients)) cf ->
  cf_pool cf !! i = Some (Ret (Some a)) -> cf_pool cf !! j = Some (Ret (Some b)) -> i = j.
Proof.
  intros Henv Hs Hi Hj.
  eapply (taker_single_winner found); [|exact Henv|exact Hs|exact Hi|exact Hj|done..].
  apply Forall_fmap, Forall_true. intros c. unfold compose, consume.
  destruct (negb _); [by apply taker_barren|]. apply getdel_taker.
  intros raw. destruct (Codec.members raw) as [m|e]; simpl; [|done].
  destruct (negb _); simpl; [done|]. by destruct (Codec.item m "parameters").
Qed.

(** One solicited request authorises one response: however the attempts to
    consume one outstanding [AuthnRequest] interleave, at most one gets it. *)
Theorem request_single_use (id : string) (n : nat) (env : cmd -> Prop) (t0 : moment) (r : R)
    (cf : config R (option OutstandingRequest)) (i j : nat) (a b : OutstandingRequest) :
  (forall c, env c -> cmd_key c <> REQUEST_KEY_PREFIX +:+ id) ->
  rtc (step env) (Config t0 r (replicate n (request_consume id))) cf ->
  cf_pool cf !! i = Some (Ret (Some a)) -> cf_pool cf !! j = Some (Ret (Some b)) -> i = j.
Proof.
  intros Henv Hs Hi Hj.
  eapply (taker_single_winner found); [|exact Henv|exact Hs|exact Hi|exact Hj|done..].
  apply Forall_replicate, getdel_taker. intros raw. by destruct (request_from_json raw).
Qed.

(** A challenge answers one ceremony: however the requests that consume a
    person's challenge interleave, at most one obtains it. *)
Theorem challenge_single_use (person ceremony : string) (n : nat) (env : cmd -> Prop)
    (t0 : moment) (r : R) (cf : config R (option string)) (i j : nat) (a b : string) :
  (forall c, env c -> cmd_key c <> challenge_key person ceremony) ->
  rtc (step env) (Config t0 r (replicate n (challenge_consume person ceremony))) cf ->
  cf_pool cf !! i = Some (Ret (Some a)) -> cf_pool cf !! j = Some (Ret (Some b)) -> i = j.
Proof.
  intros Henv Hs Hi Hj.
  eapply (taker_single_winner found); [|exact Henv|exact Hs|exact Hi|exact Hj|done..].
  apply Forall_replicate. unfold challenge_consume.
  eapply taker_take; [|by intros []].
  intros rep Hrep. destruct rep as [| |raw| | | |]; simpl; try done. by destruct (Hrep raw).
Qed.

(** An assertion is accepted once.  However the [remember] calls for one
    assertion identifier interleave, at most one answers that it is new, for as
    long as the shortest remembered lifetime. *)
Theorem replay_single_acceptance (id : string) (ttl : duration) (n : nat) (env : cmd -> Prop)
    (t0 : moment) (r : R) (cf : config R bool) (i j : nat) :
  (forall c, env c -> cmd_key c <> REPLAY_KEY_PREFIX +:+ id) ->
  rtc (step env) (Config t0 r (replicate n (replay_remember id ttl))) cf ->
  (cf_clock cf < t0 + ttl_seconds ttl * SECOND)%Z ->
  cf_pool cf !! i = Some (Ret true) -> cf_pool cf !! j = Some (Ret true) -> i = j.
Proof.
  intros Henv Hs Hlt Hi Hj.
  eapply (gated_single_winner (fun b => b)); [| |exact Henv|exact Hs|exact Hlt|exact Hi|exact Hj|done..].
  - pose proof (ttl_seconds_pos ttl). lia.
  - apply Forall_replicate. apply gated_lock; [|done]. by intros [] Hrep.
Qed.

(** ** Functional behaviour *)

Lemma request_roundtrip q : request_from_json (SJson (request_to_json q)) = Ok q.
Proof. unfold request_from_json. json_roundtrip. by destruct q. Qed.

(** A pushed request is bound to its client and spent by whoever presents
    it.  Within its lifetime the client that pushed it gets the parameters back;
    any other client gets nothing and the request is gone for its owner too. *)
Theorem par_bound_to_client (r : R) (t0 t1 t2 : moment) (ttl : duration)
    (reference client other : string) (parameters : json) :
  (t0 <= t1 < t0 + ttl_seconds ttl * SECOND)%Z -> (t1 <= t2)%Z -> other <> client ->
  let pushed := run (push ttl reference client parameters) r t0 in
  let uri := REQUEST_URI_PREFIX +:+ reference in
  let owner := run (consume uri client) pushed.1 t1 in
  let thief := run (consume uri other) pushed.1 t1 in
  pushed.2 = Ok (uri, ttl_seconds ttl) /\
  owner.2 = Ok (Some parameters) /\
  thief.2 = Ok None /\
  (run (consume uri client) owner.1 t2).2 = Ok None /\
  (run (consume uri client) thief.1 t2).2 = Ok None.
Proof.
  intros Ht1 Ht2 Hne. cbv zeta. pose proof (ttl_seconds_pos ttl).
  set (uri := REQUEST_URI_PREFIX +:+ reference). set (key := PAR_KEY_PREFIX +:+ reference).
  set (rec := JObj [("client_id", JStr client); ("parameters", parameters)]).
  set (r0 := (run (push ttl reference client parameters) r t0).1).
  assert ((run (push ttl reference client parameters) r t0).2 = Ok (uri, ttl_seconds ttl)) as ->.
  { rewrite run_result. unfold push. vrun_simpl.
    by destruct (Z.leb_spec (ttl_seconds ttl) 0); [lia|]. }
  assert (r_view r0 t1 key =
    Some (Entry (VScalar (SJson rec)) (Some (t0 + ttl_seconds ttl * SECOND)%Z))) as Hv.
  { subst r0. rewrite run_vrun_later by lia. unfold push. vrun_simpl.
    destruct (Z.leb_spec (ttl_seconds ttl) 0); [lia|]. simpl. rewrite vupd_eq. apply age_set; lia. }
  assert (forall c, consume uri c = await* raw := redis_getdel key in
    match raw with None => Ret None | Some raw =>
        await* record := Codec.lift (Codec.members raw) in
        if negb (bool_decide (Json.lookup record "client_id" = Some (JStr c))) then Ret None
        else await* ps := Codec.lift (Codec.item record "parameters") in Ret (Some ps) end) as Hc.
  { intros c. unfold consume. subst uri. by rewrite Py.startswith_app, Py.removeprefix_app. }
  assert (forall c, (run (consume uri c) r0 t1).2 =
    Ok (if bool_decide (c = client) then Some parameters else None) /\
    r_view (run (consume uri c) r0 t1).1 t1 key = None) as Hfirst.
  { intros c. rewrite Hc. rewrite run_result, run_vrun_later by lia. vrun_simpl. rewrite Hv. simpl.
    destruct (decide (c = client)) as [->|Hn].
    - rewrite !bool_decide_true by done. simpl. by rewrite vupd_eq.
    - rewrite !bool_decide_false by congruence. simpl. by rewrite vupd_eq. }
  assert (forall r', r_view r' t1 key = None -> (run (consume uri client) r' t2).2 = Ok None) as Hgone.
  { intros r' Hn. rewrite Hc, run_result. vrun_simpl. by rewrite (view_None_later r' t1 t2). }
  destruct (Hfirst client) as [-> Ho]. destruct (Hfirst other) as [-> Ht].
  rewrite bool_decide_true, bool_decide_false by done. split_and!; try done; by apply Hgone.
Qed.
End proofs.

(** ** Witnesses *)

Section witnesses.

Definition demo_pushed : Store :=
  (run (push PAR_TTL "ref" "portal" (JObj [])) (∅ : Store) 0).1.

Definition demo_par_race : config Store (option json) :=
  sched [(1%nat, 1%Z); (0%nat, 2%Z)]
    (Config 0 demo_pushed (consume (REQUEST_URI_PREFIX +:+ "ref") <$> ["portal"; "portal"])).

Lemma par_single_use_witness :
  cf_pool demo_par_race = [Ret None; Ret (Some (JObj []))] /\ 1%nat = 1%nat.
Proof.
  split; [vm_compute; reflexivity|].
  apply (par_single_use (R := Store) (REQUEST_URI_PREFIX +:+ "ref") ["portal"; "portal"]
    (fun _ => False) 0 demo_pushed demo_par_race 1 1 (JObj []) (JObj [])).
  - intros c [].
  - apply sched_steps.
  - vm_compute; reflexivity.
  - vm_compute; reflexivity.
Defined.

Definition demo_request : OutstandingRequest :=
  {| request_id := "_r1"; idp_entity_id := "https://idp.test"; relay_state := "rs";
     created_at := 0; return_to := None; correlation_id := Some "c1" |}.

Definition demo_request_race : config Store (option OutstandingRequest) :=
  sched [(0%nat, 1%Z); (1%nat, 2%Z)]
    (Config 0 (run (request_remember demo_request PAR_TTL) (∅ : Store) 0).1
      (replicate 2 (request_consume "_r1"))).

Lemma request_single_use_witness :
  cf_pool demo_request_race = [Ret (Some demo_request); Ret None] /\ 0%nat = 0%nat.
Proof.
  split; [vm_compute; reflexivity|].
  apply (request_single_use (R := Store) "_r1" 2 (fun _ => False) 0
    (run (request_remember demo_request PAR_TTL) (∅ : Store) 0).1
    demo_request_race 0 0 demo_request demo_request).
  - intros c [].
  - apply sched_steps.
  - vm_compute; reflexivity.
  - vm_compute; reflexivity.
Defined.

Definition demo_challenge_race : config Store (option string) :=
  sched [(0%nat, 1%Z); (1%nat, 2%Z)]
    (Config 0 (run (issue TTL "nonce" "sam" REGISTER) (∅ : Store) 0).1
      (replicate 2 (challenge_consume "sam" REGISTER))).

Lemma challenge_single_use_witness :
  cf_pool demo_challenge_race = [Ret (Some "nonce"); Ret None] /\ 0%nat = 0%nat.
Proof.
  split; [vm_compute; reflexivity|].
  apply (challenge_single_use (R := Store) "sam" REGISTER 2 (fun _ => False) 0
    (run (issue TTL "nonce" "sam" REGISTER) (∅ : Store) 0).1
    demo_challenge_race 0 0 "nonce" "nonce").
  - intros c [].
  - apply sched_steps.
  - vm_compute; reflexivity.
  - vm_compute; reflexivity.
Defined.

Definition demo_replay_race : config Store bool :=
  sched [(1%nat, 1%Z); (0%nat, 2%Z)] (Config 0 (∅ : Store) (replicate 2 (replay_remember "_a1" PAR_TTL))).

Lemma replay_single_acceptance_witness :
  cf_pool demo_replay_race = [Ret false; Ret true] /\ 1%nat = 1%nat.
Proof.
  split; [vm_compute; reflexivity|].
  apply (replay_single_acceptance (R := Store) "_a1" PAR_TTL 2 (fun _ => False) 0 (∅ : Store)
    demo_replay_race 1 1).
  - intros c [].
  - apply sched_steps.
  - vm_compute; reflexivity.
  - vm_compute; reflexivity.
  - vm_compute; reflexivity.
Defined.

Lemma par_bound_to_client_witness :
  (run (consume (REQUEST_URI_PREFIX +:+ "ref") "portal")
    (run (push PAR_TTL "ref" "portal" (JObj [])) (∅ : Store) 0).1 1).2 = Ok (Some (JObj [])).
Proof.
  destruct (par_bound_to_client (R := Store) (∅ : Store) 0 1 2 PAR_TTL "ref" "portal" "thief" (JObj [])
    ltac:(vm_compute; done) ltac:(done) ltac:(done)) as (_ & W & _).
  exact W.
Defined.
End witnesses.

End Pending.
