(* ===== verification/SamlGate.v ===== *)
(** * The assertion gate

    [campusid/saml/gate.py]: the ordered checks that decide whether a SAML
    response becomes an authenticated user.  The gate is a program over Redis,
    because its last steps spend an outstanding request and record the
    assertion's identifier.  The resolver of identity providers is an argument
    of the gate in the source and here; lxml's parser, signxml and the
    [cryptography] package are parameters.  Each reading of the clock is a
    separate argument. *)

From S2P Require Import Prelude PyStr Dict Base64 Json Errors Redis Codec OneShot Pending IsoTime Xml SamlSignature.
Import Xml Ns Parser Signature.

Module Gate.

Definition RECOGNISED_CONDITIONS : list string :=
  [Q_AUDIENCE_RESTRICTION; Q_ONE_TIME_USE; Q_PROXY_RESTRICTION].

Record TrustedIdP : Type := {
  entity_id : string;
  signing_certificates : list string;
  want_assertions_signed : bool;
  allow_unsolicited : bool;
}.

Record GatePolicy : Type := {
  audience : string;
  destination : string;
  clock_skew : duration;
  max_authn_age : option duration;
}.

Record AssertionFacts : Type := {
  issuer : string;
  assertion_id : string;
  name_id : string;
  name_id_format : option string;
  not_on_or_after : IsoTime.datetime;
  authn_instant : IsoTime.datetime;
  authn_context : option string;
  session_index : option string;
  attributes : list (string * list string);
  f_relay_state : option string;
  f_return_to : option string;
  f_correlation_id : option string;
}.

(** What the clock answered at each of the four places that read it. *)
Record Readings : Type := {
  at_conditions : moment;
  at_confirmation : moment;
  at_authn : moment;
  at_replay : moment;
}.

(** ** Reading an element *)

Definition _required_attribute (e : element) (name : string) : result exn string :=
  match get e name with Some v => Ok v | None => Err (SamlRejected MALFORMED_RESPONSE) end.

Definition _instant (e : element) (name : string) (required : bool)
  : result exn (option IsoTime.datetime) :=
  match get e name with
  | None => if required then Err (SamlRejected MALFORMED_RESPONSE) else Ok None
  | Some raw =>
      match IsoTime.fromisoformat raw with
      | None => Err (SamlRejected MALFORMED_RESPONSE)
      | Some parsed =>
          match IsoTime.dt_offset parsed with
          | None => Err (SamlRejected MALFORMED_RESPONSE)
          | Some _ => Ok (Some parsed)
          end
      end
  end.

(** The overload for [required=True]. *)
Definition _instant_required (e : element) (name : string) : result exn IsoTime.datetime :=
  let* o := _instant e name true in
  match o with Some d => Ok d | None => Err (SamlRejected MALFORMED_RESPONSE) end.

(** [collected.setdefault(name, []).extend(values)]. *)
Fixpoint extend (collected : list (string * list string)) (name : string) (values : list string)
  : list (string * list string) :=
  match collected with
  | [] => [(name, values)]
  | (n, vs) :: rest =>
      if String.eqb n name then (n, vs ++ values) :: rest else (n, vs) :: extend rest name values
  end.

Definition _attributes (assertion : element) : list (string * list string) :=
  fold_left (fun collected attribute =>
    match get attribute "Name" with
    | None => collected
    | Some name =>
        extend collected name (map (fun v => text_of (Some v)) (findall attribute Q_ATTRIBUTE_VALUE))
    end)
    (concat (map (fun statement => findall statement Q_ATTRIBUTE)
       (findall assertion Q_ATTRIBUTE_STATEMENT))) [].

Definition _name_id (assertion : element) : result exn string :=
  let value := Py.strip (text_of (find2 assertion Q_SUBJECT Q_NAME_ID)) in
  if String.eqb value "" then Err (SamlRejected SUBJECT_CONFIRMATION_INVALID) else Ok value.

Definition _name_id_format (assertion : element) : option string :=
  match find2 assertion Q_SUBJECT Q_NAME_ID with
  | Some n => get n "Format"
  | None => None
  end.

(** ** The checks *)

Section gate.
Variable policy : GatePolicy.
Variable resolve_idp : string -> result exn (option TrustedIdP).
Variable decryption_keys : list string.
Variable fromstring : etree_parser.
Variable verifier : xml_verifier.
Variable lib : Encryption.crypto.

Definition _check_status (root : element) : result exn unit :=
  let value := match find_below root Q_STATUS_CODE with Some s => get s "Value" | None => None end in
  raise* SamlRejected IDP_ERROR_STATUS when negb (bool_decide (value = Some STATUS_SUCCESS));
  Ok tt.

Definition _resolve_issuer (root : element) : result exn TrustedIdP :=
  let issuer := Py.strip (text_of (find root Q_ISSUER)) in
  let* issuer :=
    match find root Q_ASSERTION with
    | None => Ok issuer
    | Some assertion =>
        let assertion_issuer := Py.strip (text_of (find assertion Q_ISSUER)) in
        raise* SamlRejected ISSUER_MISMATCH when
          negb (String.eqb assertion_issuer "") && negb (String.eqb issuer "") &&
          negb (String.eqb assertion_issuer issuer);
        Ok (if String.eqb assertion_issuer "" then issuer else assertion_issuer)
    end in
  raise* SamlRejected UNKNOWN_ISSUER when String.eqb issuer "";
  let* found := resolve_idp issuer in
  match found with
  | None => Err (SamlRejected UNKNOWN_ISSUER)
  | Some idp => Ok idp
  end.

(** The loop of [_decrypt]: the last refusal is the one raised. *)
Fixpoint decrypt_with (encrypted : element) (refusal : option exn) (keys : list string)
  : result exn element :=
  match keys with
  | [] => match refusal with Some e => Err e | None => Err ValueError end
  | key :: rest =>
      match Encryption.decrypt_assertion lib fromstring encrypted key with
      | Ok e => Ok e
      | Err e => decrypt_with encrypted (Some e) rest
      end
  end.
Definition _decrypt (encrypted : element) : result exn element :=
  decrypt_with encrypted None decryption_keys.

Definition _verify_encrypted (encrypted : element) (idp : TrustedIdP) : result exn element :=
  match decryption_keys with
  | [] => Err (SamlRejected DECRYPTION_FAILED)
  | _ =>
      let* assertion := _decrypt encrypted in
      raise* SamlRejected DECRYPTION_FAILED when negb (has_tag Q_ASSERTION assertion);
      let* _ := Xsw.assert_no_wrapping assertion in
      verify_signature verifier assertion assertion RESPONSE_SIGNATURE_LOCATION
        (signing_certificates idp)
  end.

Definition _verify (root : element) (idp : TrustedIdP) : result exn element :=
  let* _ :=
    match find_signature root with
    | Some _ =>
        let* _ := verify_signature verifier root root RESPONSE_SIGNATURE_LOCATION
                    (signing_certificates idp) in
        Ok tt
    | None => Ok tt
    end in
  match find root Q_ENCRYPTED_ASSERTION with
  | Some encrypted => _verify_encrypted encrypted idp
  | None =>
      match find root Q_ASSERTION with
      | None => Err (SamlRejected MALFORMED_RESPONSE)
      | Some assertion =>
          if negb (want_assertions_signed idp) && bool_decide (find_signature assertion = None)
          then
            raise* SamlRejected SIGNATURE_MISSING when bool_decide (find_signature root = None);
            Ok assertion
          else verify_signature verifier root assertion ASSERTION_SIGNATURE_LOCATION
                 (signing_certificates idp)
      end
  end.

Definition _check_destination (root : element) : result exn unit :=
  match get root "Destination" with
  | Some d => raise* SamlRejected DESTINATION_MISMATCH when negb (String.eqb d (destination policy)); Ok tt
  | None => Ok tt
  end.

Definition _consume_request (root : element) (idp : TrustedIdP)
  : prog (option Pending.OutstandingRequest) :=
  match get root "InResponseTo" with
  | None =>
      if negb (allow_unsolicited idp) then Throw (SamlRejected UNSOLICITED_RESPONSE) else Ret None
  | Some in_response_to =>
      await* request := Pending.request_consume in_response_to in
      match request with
      | None => Throw (SamlRejected UNKNOWN_INRESPONSETO)
      | Some request =>
          if negb (String.eqb (Pending.idp_entity_id request) (entity_id idp))
          then Throw (SamlRejected UNKNOWN_INRESPONSETO) else Ret (Some request)
      end
  end.

Definition _check_audience (assertion : element) : result exn unit :=
  match find assertion Q_CONDITIONS with
  | None => Err (SamlRejected AUDIENCE_MISMATCH)
  | Some conditions =>
      let audiences :=
        map (fun a => Py.strip (text_of (Some a))) (findall2 conditions Q_AUDIENCE_RESTRICTION Q_AUDIENCE) in
      raise* SamlRejected AUDIENCE_MISMATCH when bool_decide (audiences = []);
      raise* SamlRejected AUDIENCE_MISMATCH when negb (existsb (String.eqb (audience policy)) audiences);
      Ok tt
  end.

Definition _check_conditions (now : moment) (assertion : element) : result exn IsoTime.datetime :=
  match find assertion Q_CONDITIONS with
  | None => Err (SamlRejected ASSERTION_EXPIRED)
  | Some conditions =>
      raise* SamlRejected UNSUPPORTED_CONDITION when
        negb (forallb (fun child => existsb (String.eqb (tag child)) RECOGNISED_CONDITIONS)
                (children conditions));
      let skew := clock_skew policy in
      let* not_before := _instant conditions "NotBefore" false in
      let* early :=
        match not_before with
        | None => Ok false
        | Some nb => let* bound := IsoTime.plus nb (- skew) in Ok (now <? IsoTime.instant bound)%Z
        end in
      raise* SamlRejected ASSERTION_NOT_YET_VALID when early;
      let* expiry := _instant_required conditions "NotOnOrAfter" in
      let* bound := IsoTime.plus expiry skew in
      raise* SamlRejected ASSERTION_EXPIRED when (IsoTime.instant bound <=? now)%Z;
      Ok expiry
  end.

(** The first bearer confirmation that carries data decides. *)
Definition usable (confirmation : element) : option element :=
  if bool_decide (get confirmation "Method" = Some BEARER_CONFIRMATION_METHOD)
  then find confirmation Q_SUBJECT_CONFIRMATION_DATA else None.

Definition _check_subject_confirmation (now : moment) (assertion : element)
    (request : option Pending.OutstandingRequest) : result exn unit :=
  match find assertion Q_SUBJECT with
  | None => Err (SamlRejected SUBJECT_CONFIRMATION_INVALID)
  | Some subject =>
      match head (omap usable (findall subject Q_SUBJECT_CONFIRMATION)) with
      | None => Err (SamlRejected SUBJECT_CONFIRMATION_INVALID)
      | Some data =>
          raise* SamlRejected SUBJECT_CONFIRMATION_INVALID when
            negb (bool_decide (get data "Recipient" = Some (destination policy)));
          let* expiry := _instant_required data "NotOnOrAfter" in
          let* bound := IsoTime.plus expiry (clock_skew policy) in
          raise* SamlRejected SUBJECT_CONFIRMATION_INVALID when (IsoTime.instant bound <=? now)%Z;
          raise* SamlRejected SUBJECT_CONFIRMATION_INVALID when
            negb (bool_decide (get data "InResponseTo" = Pending.request_id <$> request));
          Ok tt
      end
  end.

Definition _check_authn_statement (now : moment) (assertion : element)
  : result exn (IsoTime.datetime * option string * option string) :=
  match find assertion Q_AUTHN_STATEMENT with
  | None => Err (SamlRejected MISSING_AUTHN_STATEMENT)
  | Some statement =>
      let* authn := _instant_required statement "AuthnInstant" in
      raise* SamlRejected ASSERTION_EXPIRED when
        match max_authn_age policy with
        | Some max_age => (max_age + clock_skew policy <? now - IsoTime.instant authn)%Z
        | None => false
        end;
      let context :=
        match find_below statement Q_AUTHN_CONTEXT_CLASS_REF with
        | Some class_ref =>
            let value := Py.strip (text_of (Some class_ref)) in
            if String.eqb value "" then None else Some value
        | None => None
        end in
      Ok (authn, context, get statement "SessionIndex")
  end.

Definition _check_replay (now : moment) (assertion : element) (expiry : IsoTime.datetime) : prog unit :=
  await* id := Codec.lift (_required_attribute assertion "ID") in
  let ttl := (IsoTime.instant expiry - now + clock_skew policy)%Z in
  await* fresh := Pending.replay_remember id ttl in
  if negb fresh then Throw (SamlRejected REPLAY_DETECTED) else Ret tt.

Definition validate (rd : Readings) (document : string) : prog AssertionFacts :=
  await* root := Codec.lift (parse_saml fromstring document) in
  do* Codec.lift (Xsw.assert_no_wrapping root);
  do* Codec.lift (_check_status root);
  await* idp := Codec.lift (_resolve_issuer root) in
  await* assertion := Codec.lift (_verify root idp) in
  do* Codec.lift (_check_destination root);
  await* request := _consume_request root idp in
  do* Codec.lift (_check_audience assertion);
  await* expiry := Codec.lift (_check_conditions (at_conditions rd) assertion) in
  do* Codec.lift (_check_subject_confirmation (at_confirmation rd) assertion request);
  await* statement := Codec.lift (_check_authn_statement (at_authn rd) assertion) in
  do* _check_replay (at_replay rd) assertion expiry;
  await* id := Codec.lift (_required_attribute assertion "ID") in
  await* name := Codec.lift (_name_id assertion) in
  Ret {| issuer := entity_id idp;
         assertion_id := id;
         name_id := name;
         name_id_format := _name_id_format assertion;
         not_on_or_after := expiry;
         authn_instant := statement.1.1;
         authn_context := statement.1.2;
         session_index := statement.2;
         attributes := _attributes assertion;
         f_relay_state := Pending.relay_state <$> request;
         f_return_to := request ≫= Pending.return_to;
         f_correlation_id := request ≫= Pending.correlation_id |}.

(** ** What authenticates a response *)

(** The steps before anything is spent: the document, the provider and the
    assertion the rest of the gate reads. *)
Definition authenticated (document : string) : result exn (element * TrustedIdP * element) :=
  let* root := parse_saml fromstring document in
  let* _ := Xsw.assert_no_wrapping root in
  let* _ := _check_status root in
  let* idp := _resolve_issuer root in
  let* assertion := _verify root idp in
  Ok (root, idp, assertion).

(** What is handed to signxml: the response, or the decryption of what it carries. *)
Definition submitted (root doc : element) : Prop :=
  doc = root \/ exists encrypted key, find root Q_ENCRYPTED_ASSERTION = Some encrypted /\ key ∈ decryption_keys /\
    Encryption.decrypt_assertion lib fromstring encrypted key = Ok doc.

(** Everything the gate may read of a response was verified under a key of the
    provider: the assertion is what signxml returned, or the provider signs
    responses only and the response around the assertion was verified. *)
Definition vouched (root : element) (idp : TrustedIdP) (assertion : element) : Prop :=
  (exists doc cert loc, submitted root doc /\ cert ∈ signing_certificates idp /\
     verifier doc cert (configuration_at loc) "ID" = Single (Some assertion)) \/
  (want_assertions_signed idp = false /\ find root Q_ASSERTION = Some assertion /\
   exists cert verified, cert ∈ signing_certificates idp /\
     verifier root cert (configuration_at RESPONSE_SIGNATURE_LOCATION) "ID" = Single (Some verified) /\
     tag verified = tag root /\ get verified "ID" = get root "ID").

Lemma decrypt_submitted root encrypted doc :
  find root Q_ENCRYPTED_ASSERTION = Some encrypted -> _decrypt encrypted = Ok doc -> submitted root doc.
Proof.
  intros He Hd. right. unfold _decrypt in Hd.
  assert (exists key, key ∈ decryption_keys /\ Encryption.decrypt_assertion lib fromstring encrypted key = Ok doc)
    as (key & ? & ?); [|by exists encrypted, key].
  revert Hd. generalize (@None exn). induction decryption_keys as [|k ks IH]; intros o; cbn; [by destruct o|].
  destruct (Encryption.decrypt_assertion _ _ _ k) eqn:E.
  - intros [= ->]. exists k. split; [constructor|done].
  - intros (key & Hk & ?)%IH. exists key. split; [by constructor|done].
Qed.

Lemma verify_signature_vouched root idp doc signed loc e :
  submitted root doc ->
  verify_signature verifier doc signed loc (signing_certificates idp) = Ok e ->
  vouched root idp e /\ tag e = tag signed /\ get e "ID" = get signed "ID" /\ get e "ID" <> None.
Proof.
  intros Hsub (s & c & _ & _ & Hb & Hc & Hv & Ht & Hi)%verify_signature_ok.
  split_and!; [left; eauto 8|done|done|]. rewrite Hi.
  unfold Xsw.assert_reference_binds_to_parent in Hb.
  destruct (findall2 _ _ _) as [|d [|]]; [done| |done]. destruct (_ || _); [done|].
  destruct (get signed "ID"); [done|]. done.
Qed.

Lemma verify_ok root idp assertion :
  _verify root idp = Ok assertion -> vouched root idp assertion /\ tag assertion = Q_ASSERTION.
Proof.
  unfold _verify. intros H. apply rbind_ok in H as ([] & Hr & H).
  destruct (find root Q_ENCRYPTED_ASSERTION) as [enc|] eqn:Henc.
  { unfold _verify_encrypted in H.
    replace (match decryption_keys with [] => _ | _ :: _ => _ end) with
      (let* assertion := _decrypt enc in
       raise* SamlRejected DECRYPTION_FAILED when negb (has_tag Q_ASSERTION assertion);
       let* _ := Xsw.assert_no_wrapping assertion in
       verify_signature verifier assertion assertion RESPONSE_SIGNATURE_LOCATION (signing_certificates idp)) in H
      by (by destruct decryption_keys).
    apply rbind_ok in H as (a & Hdec & H). apply (decrypt_submitted root) in Hdec; [|done]. unfold has_tag in H.
    destruct (String.eqb_spec (tag a) Q_ASSERTION) as [Ea|]; [|done]. cbn [negb] in H.
    apply rbind_ok in H as ([] & _ & H).
    apply (verify_signature_vouched root) in H as (? & Et & _); [|done]. split; [done|congruence]. }
  destruct (find root Q_ASSERTION) as [a|] eqn:Ea; [|done].
  destruct (find_spec _ _ _ Ea) as [_ Hta].
  destruct (negb (want_assertions_signed idp) && _) eqn:Ew.
  - bool_prop. destruct (bool_decide (find_signature root = None)) eqn:Es; [done|].
    injection H as <-. split; [|done]. right. apply bool_decide_eq_false in Es.
    destruct (find_signature root) as [sg|]; [|done].
    apply rbind_ok in Hr as (e & Hv & _).
    apply verify_signature_ok in Hv as (? & c & _ & _ & _ & Hc & Hv & Ht & Hi). eauto 10.
  - apply (verify_signature_vouched root) in H as (? & Et & _); [|by left]. split; [done|congruence].
Qed.

(** The body after authentication. *)
Definition spend (rd : Readings) (root : element) (idp : TrustedIdP) (assertion : element)
  : prog AssertionFacts :=
  do* Codec.lift (_check_destination root);
  await* request := _consume_request root idp in
  do* Codec.lift (_check_audience assertion);
  await* expiry := Codec.lift (_check_conditions (at_conditions rd) assertion) in
  do* Codec.lift (_check_subject_confirmation (at_confirmation rd) assertion request);
  await* statement := Codec.lift (_check_authn_statement (at_authn rd) assertion) in
  do* _check_replay (at_replay rd) assertion expiry;
  await* id := Codec.lift (_required_attribute assertion "ID") in
  await* name := Codec.lift (_name_id assertion) in
  Ret {| issuer := entity_id idp; assertion_id := id; name_id := name;
         name_id_format := _name_id_format assertion; not_on_or_after := expiry;
         authn_instant := statement.1.1; authn_context := statement.1.2;
         session_index := statement.2; attributes := _attributes assertion;
         f_relay_state := Pending.relay_state <$> request;
         f_return_to := request ≫= Pending.return_to;
         f_correlation_id := request ≫= Pending.correlation_id |}.

Lemma validate_spend rd document :
  validate rd document =
  match authenticated document with
  | Err e => Throw e
  | Ok (root, idp, assertion) => spend rd root idp assertion
  end.
Proof.
  unfold validate, authenticated.
  destruct (parse_saml fromstring document) as [root|]; cbn [Codec.lift pbind rbind]; [|done].
  destruct (Xsw.assert_no_wrapping root); cbn [Codec.lift pbind rbind]; [|done].
  destruct (_check_status root); cbn [Codec.lift pbind rbind]; [|done].
  destruct (_resolve_issuer root) as [idp|]; cbn [Codec.lift pbind rbind]; [|done].
  by destruct (_verify root idp).
Qed.

Lemma authenticated_ok document root idp assertion :
  authenticated document = Ok (root, idp, assertion) ->
  parse_saml fromstring document = Ok root /\ Xsw.assert_no_wrapping root = Ok tt /\
  (exists i, i <> "" /\ resolve_idp i = Ok (Some idp)) /\
  vouched root idp assertion /\ tag assertion = Q_ASSERTION.
Proof.
  unfold authenticated. intros H.
  apply rbind_ok in H as (root' & Hp & H). apply rbind_ok in H as ([] & Hw & H).
  apply rbind_ok in H as ([] & _ & H). apply rbind_ok in H as (idp' & Hi & H).
  apply rbind_ok in H as (a & Hv & [= -> -> ->]). apply verify_ok in Hv as [? ?].
  split_and!; [done|done| |done..].
  unfold _resolve_issuer in Hi. apply rbind_ok in Hi as (i & _ & Hi). exists i.
  destruct (String.eqb_spec i ""); [done|]. split; [done|]. destruct (resolve_idp i) as [[]|]; cbn in Hi; congruence.
Qed.

Lemma instant_plus d td d' :
  IsoTime.plus d td = Ok d' -> IsoTime.instant d' = (IsoTime.instant d + td)%Z.
Proof.
  unfold IsoTime.plus, IsoTime.instant. destruct (IsoTime.in_range _); [|done]. intros [= <-].
  cbn. destruct (IsoTime.dt_offset d); lia.
Qed.

(** ** What an accepted assertion satisfies *)

(** Addressed to us: our entity is among its audiences. *)
Definition addressed (assertion : element) : Prop :=
  exists conditions a, find assertion Q_CONDITIONS = Some conditions /\
    a ∈ findall2 conditions Q_AUDIENCE_RESTRICTION Q_AUDIENCE /\
    Py.strip (text_of (Some a)) = audience policy.

(** Inside its validity window, with the skew allowance. *)
Definition in_window (now : moment) (assertion : element) (expiry : IsoTime.datetime) : Prop :=
  exists conditions, find assertion Q_CONDITIONS = Some conditions /\
    (now < IsoTime.instant expiry + clock_skew policy)%Z /\
    _instant conditions "NotOnOrAfter" true = Ok (Some expiry) /\
    (forall nb, _instant conditions "NotBefore" false = Ok (Some nb) ->
       (IsoTime.instant nb - clock_skew policy <= now)%Z) /\
    (forall child, child ∈ children conditions -> tag child ∈ RECOGNISED_CONDITIONS).

(** Delivered to us, in answer to this request: a bearer confirmation under the
    signature names our endpoint and the request. *)
Definition delivered (now : moment) (assertion : element)
    (request : option Pending.OutstandingRequest) : Prop :=
  exists subject confirmation data expiry, find assertion Q_SUBJECT = Some subject /\
    confirmation ∈ findall subject Q_SUBJECT_CONFIRMATION /\ usable confirmation = Some data /\
    get data "Recipient" = Some (destination policy) /\
    get data "InResponseTo" = Pending.request_id <$> request /\
    _instant data "NotOnOrAfter" true = Ok (Some expiry) /\
    (now < IsoTime.instant expiry + clock_skew policy)%Z.

(** The attribute statements of an assertion, read without the loop: a name is
    stated when an [Attribute] carries it, and its values are the texts of all the
    [AttributeValue]s of all such elements, in document order. *)
Definition attribute_elements (assertion : element) : list element :=
  concat (map (fun statement => findall statement Q_ATTRIBUTE) (findall assertion Q_ATTRIBUTE_STATEMENT)).
Definition attribute_texts (attribute : element) : list string :=
  map (fun v => text_of (Some v)) (findall attribute Q_ATTRIBUTE_VALUE).
Definition stated_values (elements : list element) (name : string) : option (list string) :=
  match filter (fun a => get a "Name" = Some name) elements with
  | [] => None
  | named => Some (concat (map attribute_texts named))
  end.

(** Everything the facts say of the subject is written in this assertion. *)
Definition stated (assertion : element) (facts : AssertionFacts) : Prop :=
  get assertion "ID" = Some (assertion_id facts) /\
  (exists n, find2 assertion Q_SUBJECT Q_NAME_ID = Some n /\ name_id facts = Py.strip (text_of (Some n)) /\
     name_id facts <> "" /\ name_id_format facts = get n "Format") /\
  (exists statement, find assertion Q_AUTHN_STATEMENT = Some statement /\
     _instant statement "AuthnInstant" true = Ok (Some (authn_instant facts)) /\
     session_index facts = get statement "SessionIndex" /\
     forall c, authn_context facts = Some c <->
       c <> "" /\ exists ref, find_below statement Q_AUTHN_CONTEXT_CLASS_REF = Some ref /\ c = Py.strip (text_of (Some ref))) /\
  NoDup ((attributes facts).*1) /\
  forall name, Dict.get (attributes facts) name = stated_values (attribute_elements assertion) name.

Lemma extend_get d name values n :
  Dict.get (extend d name values) n =
    if decide (n = name) then Some (default [] (Dict.get d n) ++ values) else Dict.get d n.
Proof.
  induction d as [|[k vs] d IH]; cbn.
  - case_decide as E; [subst; by rewrite String.eqb_refl|]. by destruct (String.eqb_spec n name).
  - destruct (String.eqb_spec k name) as [->|Hk]; cbn.
    + destruct (String.eqb_spec n name); case_decide; done.
    + rewrite IH. destruct (String.eqb_spec n k) as [->|]; [|done]. by rewrite decide_False.
Qed.

Lemma extend_keys d name values :
  (extend d name values).*1 = if decide (name ∈ d.*1) then d.*1 else d.*1 ++ [name].
Proof.
  induction d as [|[k vs] d IH]; cbn; [done|].
  destruct (String.eqb_spec k name) as [->|Hk]; cbn; [rewrite decide_True; [done|constructor]|].
  rewrite IH. repeat case_decide; set_solver.
Qed.

Lemma extend_nodup d name values : NoDup (d.*1) -> NoDup ((extend d name values).*1).
Proof.
  intros Hd. rewrite extend_keys. case_decide; [done|]. apply NoDup_app. split_and!; [done| |apply NoDup_singleton].
  set_solver.
Qed.

Lemma attributes_stated assertion :
  NoDup ((_attributes assertion).*1) /\
  forall name, Dict.get (_attributes assertion) name = stated_values (attribute_elements assertion) name.
Proof.
  unfold _attributes. change (concat _) with (attribute_elements assertion).
  induction (attribute_elements assertion) as [|a l [IHd IH]] using rev_ind; [by split; [constructor|]|].
  rewrite fold_left_app. cbn [fold_left]. unfold stated_values in *. split.
  - destruct (get a "Name"); [by apply extend_nodup|done].
  - intros name. rewrite filter_app. cbn. destruct (get a "Name") as [nm|] eqn:En.
    + rewrite extend_get, IH. case_decide as E.
      * subst nm. rewrite decide_True by done. destruct (filter _ l) as [|b bs]; cbn; [by rewrite app_nil_r|].
        by rewrite map_app, concat_app; cbn; rewrite app_nil_r, app_assoc.
      * rewrite decide_False by congruence. by rewrite app_nil_r.
    + rewrite decide_False by done. by rewrite app_nil_r.
Qed.

Lemma name_id_ok assertion name :
  _name_id assertion = Ok name ->
  exists n, find2 assertion Q_SUBJECT Q_NAME_ID = Some n /\ name = Py.strip (text_of (Some n)) /\
    name <> "" /\ _name_id_format assertion = get n "Format".
Proof.
  unfold _name_id, _name_id_format. destruct (find2 _ _ _) as [n|]; [|done].
  destruct (String.eqb_spec (Py.strip (text_of (Some n))) ""); [done|]. intros [= <-]. by exists n.
Qed.

Lemma instant_required_ok e name d :
  _instant_required e name = Ok d -> _instant e name true = Ok (Some d).
Proof.
  unfold _instant_required. intros H. apply rbind_ok in H as ([d'|] & E & H); [|done].
  by injection H as ->.
Qed.

Lemma authn_statement_ok now assertion st :
  _check_authn_statement now assertion = Ok st ->
  exists statement, find assertion Q_AUTHN_STATEMENT = Some statement /\
    _instant statement "AuthnInstant" true = Ok (Some st.1.1) /\ st.2 = get statement "SessionIndex" /\
    forall c, st.1.2 = Some c <->
      c <> "" /\ exists ref, find_below statement Q_AUTHN_CONTEXT_CLASS_REF = Some ref /\ c = Py.strip (text_of (Some ref)).
Proof.
  unfold _check_authn_statement. destruct (find assertion Q_AUTHN_STATEMENT) as [statement|]; [|done]. intros H.
  apply rbind_ok in H as (authn & Ha & H). destruct (match max_authn_age policy with Some _ => _ | None => _ end); [done|].
  injection H as <-. exists statement. cbn [fst snd]. split_and!; [done|by apply instant_required_ok|done|]. intros c.
  destruct (find_below _ _) as [ref|]; [|naive_solver].
  change (itertext ref) with (text_of (Some ref)).
  destruct (String.eqb_spec (Py.strip (text_of (Some ref))) "") as [Ev|Ev]; split.
  - done.
  - by intros [Hc (r & [= <-] & ->)].
  - intros [= <-]. split; [done|by exists ref].
  - by intros [Hc (r & [= <-] & ->)].
Qed.

Lemma check_audience_ok assertion : _check_audience assertion = Ok tt -> addressed assertion.
Proof.
  unfold _check_audience, addressed. destruct (find assertion Q_CONDITIONS) as [c|]; [|done].
  destruct (bool_decide _); [done|]. destruct (existsb _ _) eqn:E; [|done]. intros _.
  apply existsb_exists in E as (x & Hx & ->%String.eqb_eq). apply in_map_iff in Hx as (a & <- & Ha).
  exists c, a. split_and!; [done|by apply list_elem_of_In|done].
Qed.

Lemma check_conditions_ok now assertion expiry :
  _check_conditions now assertion = Ok expiry -> in_window now assertion expiry.
Proof.
  unfold _check_conditions, in_window. destruct (find assertion Q_CONDITIONS) as [c|]; [|done]. intros H.
  destruct (forallb _ _) eqn:Ef; [|done]. cbn [negb] in H.
  apply rbind_ok in H as (nb & Hnb & H). apply rbind_ok in H as (early & He & H).
  destruct early; [done|]. apply rbind_ok in H as (ex & Hex & H). apply rbind_ok in H as (bd & Hbd & H).
  destruct (Z.leb_spec (IsoTime.instant bd) now) as [|Hlt]; [done|]. injection H as ->.
  exists c. split_and!; [done| |by apply instant_required_ok| |].
  - rewrite <- (instant_plus _ _ _ Hbd). done.
  - intros nb' E. rewrite Hnb in E. injection E as ->.
    apply rbind_ok in He as (b & Hb & [= Hn]). apply instant_plus in Hb. bool_prop. lia.
  - intros ch Hch. rewrite forallb_forall in Ef. apply list_elem_of_In, Ef, existsb_exists in Hch.
    destruct Hch as (x & Hx & ->%String.eqb_eq). by apply list_elem_of_In.
Qed.

Lemma check_subject_confirmation_ok now assertion request :
  _check_subject_confirmation now assertion request = Ok tt -> delivered now assertion request.
Proof.
  unfold _check_subject_confirmation, delivered. destruct (find assertion Q_SUBJECT) as [s|]; [|done].
  destruct (head (omap usable _)) as [data|] eqn:Eh; [|done]. intros H.
  assert (exists confirmation, confirmation ∈ findall s Q_SUBJECT_CONFIRMATION /\ usable confirmation = Some data)
    as (cf & Hcf & Hu).
  { destruct (omap usable _) as [|d l] eqn:E; [done|]. injection Eh as ->.
    assert (data ∈ omap usable (findall s Q_SUBJECT_CONFIRMATION)) as Hd by (rewrite E; constructor).
    by apply list_elem_of_omap in Hd. }
  destruct (bool_decide _) eqn:Er; [|done]. cbn [negb] in H.
  apply rbind_ok in H as (ex & Hex & H). apply rbind_ok in H as (bd & Hbd & H).
  destruct (Z.leb_spec (IsoTime.instant bd) now) as [|Hlt]; [done|].
  destruct (bool_decide (get data "InResponseTo" = _)) eqn:Ei; [|done]. bool_prop.
  exists s, cf, data, ex. split_and!; try done; [by apply instant_required_ok|].
  by rewrite <- (instant_plus _ _ _ Hbd).
Qed.

Section accepted.
Context {R : Type} `{RedisLaws R}.

Lemma run_lift_inv {A B} (m : result exn A) (k : A -> prog B) (r : R) t r' b :
  run (pbind (Codec.lift m) k) r t = (r', Ok b) -> exists a, m = Ok a /\ run (k a) r t = (r', Ok b).
Proof. destruct m as [a|e]; cbn; [eauto|done]. Qed.

(** The request the response answers: the one kept in Redis under the response's
    [InResponseTo], sent to this provider, and no longer there; or the response
    answers none, and the provider may send it unasked. *)
Definition answering (root : element) (idp : TrustedIdP) (r : R) (t : moment) (r' : R)
    (request : option Pending.OutstandingRequest) : Prop :=
  match get root "InResponseTo" with
  | None => request = None /\ allow_unsolicited idp = true
  | Some irt => exists kept d q,
      r_view r t (Pending.REQUEST_KEY_PREFIX +:+ irt) = Some (Entry (VScalar kept) d) /\
      Pending.request_from_json kept = Ok q /\ request = Some q /\ Pending.idp_entity_id q = entity_id idp /\
      r_view r' t (Pending.REQUEST_KEY_PREFIX +:+ irt) = None
  end.

Lemma run_bind_inv {A B} (p : prog A) (k : A -> prog B) (r : R) t r' b :
  run (pbind p k) r t = (r', Ok b) ->
  exists r1 a, run p r t = (r1, Ok a) /\ run (k a) r1 t = (r', Ok b).
Proof. rewrite run_bind. destruct (run p r t) as [r1 [a|]]; [eauto|done]. Qed.

Lemma request_consume_ok irt (r r' : R) t q :
  run (Pending.request_consume irt) r t = (r', Ok (Some q)) ->
  (exists kept d, r_view r t (Pending.REQUEST_KEY_PREFIX +:+ irt) = Some (Entry (VScalar kept) d) /\
     Pending.request_from_json kept = Ok q) /\
  r_view r' t (Pending.REQUEST_KEY_PREFIX +:+ irt) = None.
Proof.
  intros E. set (key := Pending.REQUEST_KEY_PREFIX +:+ irt).
  pose proof (run_vrun (Pending.request_consume irt) r (r_view r t) t (fun _ => eq_refl)) as [Hr Hv].
  specialize (Hv key). rewrite E in Hr, Hv. cbn in Hr, Hv. fold key in Hr, Hv.
  destruct (r_view r t key) as [[[kept|] d]|]; cbn in Hr, Hv; [|done..].
  destruct (Pending.request_from_json kept) as [q'|] eqn:Ej; cbn in Hr, Hv; [|done]. injection Hr as <-.
  rewrite vupd_eq in Hv. by split; [exists kept, d|].
Qed.

Lemma consume_answers root idp (r r' : R) t request :
  run (_consume_request root idp) r t = (r', Ok request) -> answering root idp r t r' request.
Proof.
  unfold _consume_request, answering. destruct (get root "InResponseTo") as [irt|].
  - intros (r3 & [q|] & Hq & E)%run_bind_inv; [|done].
    destruct (String.eqb_spec (Pending.idp_entity_id q) (entity_id idp)); [|done]. injection E as <- <-.
    apply request_consume_ok in Hq as [(kept & d & Hk & Hj) Hv]. by exists kept, d, q.
  - destruct (allow_unsolicited idp); [|done]. by intros [= _ <-].
Qed.

Lemma replay_touches now assertion expiry irt :
  touches (fun k => k <> Pending.REQUEST_KEY_PREFIX +:+ irt) (_check_replay now assertion expiry).
Proof.
  unfold _check_replay. destruct (_required_attribute assertion "ID"); [|done]. cbn [Codec.lift pbind].
  apply touches_bind; [|intros []; done]. split; [done|by intros []].
Qed.

(** What has passed when the gate answers with facts. *)
Lemma accepted_steps (rd : Readings) (document : string) (r r' : R) (t : moment) (facts : AssertionFacts) :
  run (validate rd document) r t = (r', Ok facts) ->
  exists root idp assertion request,
    authenticated document = Ok (root, idp, assertion) /\ answering root idp r t r' request /\
    addressed assertion /\ in_window (at_conditions rd) assertion (not_on_or_after facts) /\
    delivered (at_confirmation rd) assertion request /\ stated assertion facts /\
    issuer facts = entity_id idp /\ f_relay_state facts = Pending.relay_state <$> request /\
    f_return_to facts = request ≫= Pending.return_to /\ f_correlation_id facts = request ≫= Pending.correlation_id.
Proof.
  rewrite validate_spend. destruct (authenticated document) as [[[root idp] assertion]|] eqn:Ea; [|done]. unfold spend. intros H1.
  apply run_lift_inv in H1 as ([] & _ & H1). apply run_bind_inv in H1 as (r1 & request & Hq & H1).
  apply run_lift_inv in H1 as ([] & Haud & H1). apply run_lift_inv in H1 as (expiry & Hc & H1).
  apply run_lift_inv in H1 as ([] & Hs & H1). apply run_lift_inv in H1 as (st & Hst & H1).
  apply run_bind_inv in H1 as (r2 & [] & Hrep & H1). apply run_lift_inv in H1 as (aid & Hid & H1).
  apply run_lift_inv in H1 as (nm & Hn & H1). injection H1 as <- <-.
  exists root, idp, assertion, request. split_and!; try done.
  - apply consume_answers in Hq. unfold answering in *. destruct (get root "InResponseTo") as [irt|]; [|done].
    destruct Hq as (kept & d & q & ? & ? & ? & ? & Hv). exists kept, d, q. split_and!; try done. rewrite <- Hv.
    pose proof (run_frame _ _ r1 t t (Pending.REQUEST_KEY_PREFIX +:+ irt) (replay_touches (at_replay rd) assertion expiry irt)
      ltac:(by intros []) ltac:(lia)) as Hf. by rewrite Hrep in Hf.
  - by apply check_audience_ok.
  - by apply check_conditions_ok.
  - by apply check_subject_confirmation_ok.
  - apply authn_statement_ok in Hst. apply name_id_ok in Hn. split_and!; [|done|done|apply attributes_stated..].
    cbn [assertion_id]. unfold _required_attribute in Hid. destruct (get assertion "ID"); congruence.
Qed.

(** C2: The facts of an accepted response are vouched for.  When the gate
    accepts a document, the document parsed within the size limit with unique
    identifiers and passed the wrapping checks; one assertion was verified with a
    certificate registered for the very provider the facts name, and everything
    the facts say - the assertion's id, the name identifier and its format, the
    time, context and session index of the login, and exactly the attributes with
    all their values - is written in that assertion.  It is addressed to us, inside
    its window, and a bearer confirmation under the signature names our endpoint
    and the request.  The request is the one kept under the response's
    [InResponseTo]: it was sent to that provider, it is gone afterwards, and the
    relay state, return path and correlation of the facts are its own. *)
Theorem accepted_response_is_vouched (rd : Readings) (document : string) (r r' : R) (t : moment)
    (facts : AssertionFacts) :
  run (validate rd document) r t = (r', Ok facts) ->
  exists root idp assertion request,
    fromstring document = Some (root, "") /\ NoDup (ids root) /\ Xsw.assert_no_wrapping root = Ok tt /\
    (exists i, resolve_idp i = Ok (Some idp)) /\ issuer facts = entity_id idp /\
    vouched root idp assertion /\ stated assertion facts /\
    addressed assertion /\ in_window (at_conditions rd) assertion (not_on_or_after facts) /\
    delivered (at_confirmation rd) assertion request /\ answering root idp r t r' request /\
    f_relay_state facts = Pending.relay_state <$> request /\
    f_return_to facts = request ≫= Pending.return_to /\ f_correlation_id facts = request ≫= Pending.correlation_id.
Proof.
  intros (root & idp & assertion & request & Ea & Hq & Haud & Hc & Hs & Hst & Hi' & Hf)%accepted_steps.
  apply authenticated_ok in Ea as (Hp & Hw & (i & _ & Hi) & Hv & _). apply parse_saml_ok in Hp as (_ & Hp & Hn).
  exists root, idp, assertion, request. split_and!; by eauto || apply Hf.
Qed.

(** ** Nothing is spent before the signature *)

(** Only ever a refusal, or what the resolver of providers raises. *)
Definition refusal (e : exn) : Prop := (exists reason, e = SamlRejected reason) \/ exists i, resolve_idp i = Err e.
Definition refuses {A} (m : result exn A) : Prop :=
  match m with Ok _ => True | Err e => refusal e end.
Lemma refusal_rejected reason : refusal (SamlRejected reason).
Proof. left. eauto. Qed.
#[local] Hint Resolve refusal_rejected : core.

Lemma refuses_bind {A B} (m : result exn A) (k : A -> result exn B) :
  refuses m -> (forall a, m = Ok a -> refuses (k a)) -> refuses (rbind m k).
Proof. destruct m; cbn; eauto. Qed.

Lemma no_wrapping_refuses root : refuses (Xsw.assert_no_wrapping root).
Proof.
  unfold Xsw.assert_no_wrapping, Xsw.assert_single_response_and_assertion.
  apply refuses_bind.
  { destruct (1 <? _)%nat; [cbn; eauto|]. destruct (1 <? _)%nat; cbn; eauto. }
  intros _ _. unfold Xsw.assert_signature_placement. generalize (@nil (list nat)) as occupied.
  induction (Xsw.signature_positions root) as [|p l IH]; intros occupied; cbn; [done|].
  destruct (getparent p); cbn; [|eauto]. destruct (negb _); cbn; [eauto|].
  destruct (Xsw.among _ occupied); cbn; [eauto|apply IH].
Qed.

Lemma resolve_issuer_refuses root : refuses (_resolve_issuer root).
Proof.
  unfold _resolve_issuer. apply refuses_bind.
  - destruct (find root Q_ASSERTION); [|done]. destruct (_ && _); cbn; eauto.
  - intros i _. destruct (String.eqb i ""); cbn; [eauto|].
    destruct (resolve_idp i) as [[]|] eqn:E; cbn; [done|eauto|]. right. eauto.
Qed.

Lemma decrypt_refuses encrypted : decryption_keys <> [] -> refuses (_decrypt encrypted).
Proof.
  unfold _decrypt. intros Hk.
  assert (forall ks o, (ks <> [] \/ exists rs, o = Some (SamlRejected rs)) -> refuses (decrypt_with encrypted o ks)) as Hd.
  { induction ks as [|k ks IH]; intros o Ho; cbn.
    - destruct Ho as [?|[rs ->]]; cbn; [done|by left; eauto].
    - destruct (Encryption.decrypt_assertion_rejects lib fromstring encrypted k) as [[e ->]|[rs ->]];
        [done|]. apply IH. eauto. }
  apply Hd. by left.
Qed.

(** The certificates of the provider the document names verify nothing. *)
Definition unverifiable (document : string) : Prop :=
  forall root idp, parse_saml fromstring document = Ok root -> _resolve_issuer root = Ok idp ->
  forall doc cert cfg, cert ∈ signing_certificates idp -> verifier doc cert cfg "ID" = Refused.

Lemma verify_refused root idp :
  (forall doc cert cfg, cert ∈ signing_certificates idp -> verifier doc cert cfg "ID" = Refused) ->
  exists e, refusal e /\ _verify root idp = Err e.
Proof.
  intros Hr. unfold _verify.
  assert (forall doc signed loc, exists e, refusal e /\
    verify_signature verifier doc signed loc (signing_certificates idp) = Err e) as Hv.
  { intros doc signed loc. destruct (verify_signature_refused verifier doc signed loc
      (signing_certificates idp) (fun c cfg Hc => Hr doc c cfg Hc)) as [rs ->]. eauto. }
  destruct (find_signature root) as [sg|].
  { destruct (Hv root root RESPONSE_SIGNATURE_LOCATION) as (e & He & ->). cbn. eauto. }
  cbn [rbind]. destruct (find root Q_ENCRYPTED_ASSERTION) as [enc|].
  - unfold _verify_encrypted. pose proof (decrypt_refuses enc) as Hd.
    destruct decryption_keys as [|k ks] eqn:Ek; [eauto|]. rewrite <- Ek in Hd.
    specialize (Hd ltac:(by rewrite Ek)).
    destruct (_decrypt enc) as [a|]; [|cbn; eauto]. cbn [rbind].
    destruct (negb _); [eauto|]. pose proof (no_wrapping_refuses a) as Hw.
    destruct (Xsw.assert_no_wrapping a); [|cbn; eauto]. cbn [rbind]. apply Hv.
  - destruct (find root Q_ASSERTION) as [a|]; [|eauto]. destruct (_ && _); [|apply Hv].
    rewrite bool_decide_true by done. eauto.
Qed.

(** A forged response spends nothing.  When the certificates of the
    provider a document names verify none of it, the gate refuses, or the
    resolver of providers raises, without a single command: no assertion identifier is recorded and no
    outstanding request is consumed. *)
Theorem forged_response_spends_nothing (rd : Readings) (document : string) :
  unverifiable document ->
  exists e, refusal e /\ validate rd document = Throw e.
Proof.
  intros Hu. rewrite validate_spend. unfold authenticated.
  destruct (Encryption.parse_saml_rejects fromstring document) as [[root Hp]|[rs ->]]; [|cbn; eauto].
  rewrite Hp. cbn [rbind]. pose proof (no_wrapping_refuses root) as Hw.
  destruct (Xsw.assert_no_wrapping root); [|cbn; eauto]. cbn [rbind].
  assert (refuses (_check_status root)) as Hs by (unfold _check_status; destruct (negb _); cbn; eauto).
  destruct (_check_status root); [|cbn; eauto]. cbn [rbind].
  pose proof (resolve_issuer_refuses root) as Hi.
  destruct (_resolve_issuer root) as [idp|] eqn:Ei; [|cbn; eauto]. cbn [rbind].
  destruct (verify_refused root idp (Hu root idp Hp Ei)) as (e & He & ->). cbn. eauto.
Qed.

(** ** One acceptance *)

Lemma replay_request_ne a b : Pending.REQUEST_KEY_PREFIX +:+ a <> Pending.REPLAY_KEY_PREFIX +:+ b.
Proof. done. Qed.

(** A program behind a result is gated when the continuation is. *)
Lemma gated_lift {A} won marker n (m : result exn A) k :
  (forall a, m = Ok a -> gated won marker n (k a)) ->
  gated won marker n (pbind (Codec.lift (A := A) m) k : prog AssertionFacts).
Proof. destruct m; cbn; intros Hk; [by apply Hk|]. by apply gated_barren. Qed.

Lemma barren_lift {A} won marker (m : result exn A) k :
  (forall a, m = Ok a -> barren won marker (k a)) ->
  barren won marker (pbind (Codec.lift (A := A) m) k : prog AssertionFacts).
Proof. destruct m; cbn; intros Hk; [by apply Hk|done]. Qed.

Definition has_id (id : string) (f : AssertionFacts) : bool := String.eqb (assertion_id f) id.

(** How long an accepted identifier is remembered, in seconds. *)
Definition remembered (now : moment) (expiry : IsoTime.datetime) : Z :=
  ttl_seconds (IsoTime.instant expiry - now + clock_skew policy).

Lemma spend_gated id n rd root idp assertion :
  (forall expiry, _check_conditions (at_conditions rd) assertion = Ok expiry ->
     (n <= remembered (at_replay rd) expiry)%Z) ->
  gated (has_id id) (Pending.REPLAY_KEY_PREFIX +:+ id) n (spend rd root idp assertion).
Proof.
  intros Hn. unfold spend. apply gated_lift. intros [] _.
  assert (forall request, gated (has_id id) (Pending.REPLAY_KEY_PREFIX +:+ id) n
    (do* Codec.lift (_check_audience assertion);
     await* expiry := Codec.lift (_check_conditions (at_conditions rd) assertion) in
     do* Codec.lift (_check_subject_confirmation (at_confirmation rd) assertion request);
     await* statement := Codec.lift (_check_authn_statement (at_authn rd) assertion) in
     do* _check_replay (at_replay rd) assertion expiry;
     await* id := Codec.lift (_required_attribute assertion "ID") in
     await* name := Codec.lift (_name_id assertion) in
     Ret {| issuer := entity_id idp; assertion_id := id; name_id := name;
         name_id_format := _name_id_format assertion; not_on_or_after := expiry;
         authn_instant := statement.1.1; authn_context := statement.1.2;
         session_index := statement.2; attributes := _attributes assertion;
         f_relay_state := Pending.relay_state <$> request;
         f_return_to := request ≫= Pending.return_to;
         f_correlation_id := request ≫= Pending.correlation_id |})) as Hrest.
  { intros request. apply gated_lift; intros [] _. apply gated_lift; intros expiry Hex.
    apply gated_lift; intros [] _. apply gated_lift; intros st _. unfold _check_replay.
    destruct (_required_attribute assertion "ID") as [i|] eqn:Ei; cbn; [|by apply gated_barren].
    destruct (decide (i = id)) as [->|Hne].
    - apply gated_lock_for; [by apply Hn| |].
      + by intros [] Hrep.
      + cbn. by destruct (_name_id assertion).
    - apply gated_barren. cbn. split.
      + intros E. apply Py.app_inv_l in E. done.
      + intros []; cbn; try done. destruct (_name_id assertion); cbn; [|done].
        unfold has_id. cbn. by apply String.eqb_neq. }
  unfold _consume_request. destruct (get root "InResponseTo") as [irt|].
  - cbn. apply gated_do; [apply replay_request_ne|].
    intros []; cbn; try by apply gated_barren.
    destruct (Pending.request_from_json s) as [q|]; cbn; [|by apply gated_barren].
    destruct (negb _); cbn; [by apply gated_barren|apply Hrest].
  - destruct (negb _); cbn; [by apply gated_barren|apply Hrest].
Qed.

(** An assertion authenticates once.  Any number of responses, presented at
    once and interleaved command by command with each other and the rest of the
    broker, whatever else they carry: while the shortest of their remembered
    lifetimes lasts, at most one of those asserting a given identifier is
    accepted. *)
Theorem assertion_accepted_once (id : string) (n : Z) (attempts : list (Readings * string))
    (env : cmd -> Prop) (t0 : moment) (r : R) (cf : config R AssertionFacts) (i j : nat)
    (f g : AssertionFacts) :
  (0 < n)%Z ->
  (forall c, env c -> cmd_key c <> Pending.REPLAY_KEY_PREFIX +:+ id) ->
  (forall rd document root idp assertion expiry, (rd, document) ∈ attempts ->
     authenticated document = Ok (root, idp, assertion) ->
     _check_conditions (at_conditions rd) assertion = Ok expiry ->
     (n <= remembered (at_replay rd) expiry)%Z) ->
  rtc (step env) (Config t0 r ((fun a => validate a.1 a.2) <$> attempts)) cf ->
  (cf_clock cf < t0 + n * SECOND)%Z ->
  cf_pool cf !! i = Some (Ret f) -> cf_pool cf !! j = Some (Ret g) ->
  assertion_id f = id -> assertion_id g = id -> i = j.
Proof.
  intros Hpos Henv Hn Hs Hlt Hi Hj Hf Hg.
  eapply (gated_single_winner (has_id id) (Pending.REPLAY_KEY_PREFIX +:+ id) n);
    [done| |exact Henv|exact Hs|exact Hlt|exact Hi|exact Hj|by apply String.eqb_eq..].
  apply Forall_fmap, Forall_forall. intros [rd document] Hin. unfold compose. cbn [fst snd].
  rewrite validate_spend. destruct (authenticated document) as [[[root idp] assertion]|] eqn:Ea;
    [|by apply gated_barren].
  apply spend_gated. intros expiry Hex. by eapply Hn.
Qed.
End accepted.

(** ** The verifier and the consumer read the same element *)

(** Equal up to the text after the closing tag. *)
Definition alike (a b : element) : Prop :=
  tag a = tag b /\ attrib a = attrib b /\ text a = text b /\ children a = children b.

(** What the enveloped-signature transform leaves of an element: everything but
    the signatures it carries; the text around a removed child may move. *)
Definition enveloped (x e : element) : Prop :=
  tag e = tag x /\ attrib e = attrib x /\
  Forall2 alike (List.filter (fun d => negb (has_tag Q_SIGNATURE d)) (children x)) (children e).

(** signxml documents that [signed_xml] is the element of the document the
    reference resolves to, as transformed. *)
Definition resolves_in_document : Prop :=
  forall doc cert cfg e, verifier doc cert cfg "ID" = Single (Some e) ->
  exists x, x ∈ iter doc /\ enveloped x e.

Lemma enveloped_findall x e name :
  name <> Q_SIGNATURE -> enveloped x e -> Forall2 alike (findall x name) (findall e name).
Proof.
  intros Hn (_ & _ & Hc). unfold findall. revert Hc. generalize (children e) as ce.
  induction (children x) as [|d l IH]; intros ce Hc; cbn in *; [by inversion Hc|].
  unfold has_tag in *. destruct (String.eqb_spec (tag d) Q_SIGNATURE) as [Ed|Ed]; cbn in Hc.
  - destruct (String.eqb_spec (tag d) name); [congruence|]. by apply IH.
  - inversion Hc as [|? d' ? l' Hd Hl]; subst. cbn. destruct Hd as (Et & Hd). rewrite <- Et.
    destruct (String.eqb_spec (tag d) name); [|by apply IH].
    constructor; [done|by apply IH].
Qed.

Lemma enveloped_findall2 x e a b :
  a <> Q_SIGNATURE -> enveloped x e -> findall2 e a b = findall2 x a b.
Proof.
  intros Ha He. unfold findall2. f_equal.
  pose proof (enveloped_findall x e a Ha He) as Hl.
  induction Hl as [|u v lu lv (_ & _ & _ & Hc) _ IH]; [done|]. cbn. rewrite IH. f_equal.
  unfold findall. by rewrite Hc.
Qed.

(** A verified copy stands for the element that was to be consumed. *)
Lemma verified_enveloped document signed loc certificates e :
  resolves_in_document -> NoDup (ids document) -> signed ∈ iter document ->
  verify_signature verifier document signed loc certificates = Ok e -> enveloped signed e.
Proof.
  intros Hl Hn Hs Hv. pose proof Hv as Hv'.
  apply verify_signature_ok in Hv as (s & c & _ & _ & Hb & _ & Hv & _ & Hi).
  destruct (Hl _ _ _ _ Hv) as (x & Hx & He).
  assert (get e "ID" = get x "ID") as Hex by (unfold get; by destruct He as (_ & -> & _)).
  destruct (get signed "ID") as [i|] eqn:Es; last first.
  { unfold Xsw.assert_reference_binds_to_parent in Hb. rewrite Es in Hb.
    destruct (findall2 _ _ _) as [|? [|]]; [done| |done]. by destruct (_ || _). }
  rewrite <- (id_unique document x signed i Hn Hx Hs); [done| |done]. congruence.
Qed.

Lemma single_assertion root direct e :
  Xsw.assert_no_wrapping root = Ok tt -> direct ∈ iter root -> tag direct = Q_ASSERTION ->
  e ∈ iter root -> tag e = Q_ASSERTION -> e = direct.
Proof.
  intros Hw Hin Htag He Ht.
  unfold Xsw.assert_no_wrapping in Hw. apply rbind_ok in Hw as ([] & Hw & _).
  unfold Xsw.assert_single_response_and_assertion in Hw.
  destruct (1 <? length (iter_tag root Q_RESPONSE))%nat; [done|].
  destruct (Nat.ltb_spec 1 (length (iter_tag root Q_ASSERTION) + length (iter_tag root Q_ENCRYPTED_ASSERTION))) as [|Hle];
    [done|].
  assert (forall x, x ∈ iter root -> tag x = Q_ASSERTION -> x ∈ iter_tag root Q_ASSERTION) as Hi.
  { intros x Hx Hxt. unfold iter_tag. apply list_elem_of_In, filter_In. split; [by apply list_elem_of_In|].
    unfold has_tag. by apply String.eqb_eq. }
  pose proof (Hi e He Ht) as H1. pose proof (Hi direct Hin Htag) as H2.
  destruct (iter_tag root Q_ASSERTION) as [|x [|y l]]; [by apply elem_of_nil in H1| |cbn in Hle; lia].
  apply list_elem_of_singleton in H1, H2. congruence.
Qed.

(** The verifier and the consumer cannot be made to read different
    assertions.  Whatever an accepted document holds, the identifier, the name,
    its format and the attributes the gate reads are those of the assertion that
    is the response's own child: no wrapped, nested or hidden copy contributes. *)
Theorem gate_reads_the_responses_assertion (document : string) (root direct assertion : element)
    (idp : TrustedIdP) :
  resolves_in_document ->
  authenticated document = Ok (root, idp, assertion) ->
  find root Q_ENCRYPTED_ASSERTION = None -> find root Q_ASSERTION = Some direct ->
  get assertion "ID" = get direct "ID" /\ _name_id assertion = _name_id direct /\
  _name_id_format assertion = _name_id_format direct /\ _attributes assertion = _attributes direct /\
  (forall e, e ∈ iter root -> tag e = Q_ASSERTION -> e = direct).
Proof.
  intros Hl Ha Hne Hd. pose proof Ha as Ha'.
  apply authenticated_ok in Ha' as (Hp & Hw & _ & _ & _). apply parse_saml_ok in Hp as (_ & _ & Hn).
  destruct (find_spec _ _ _ Hd) as [Hch Htag]. pose proof (child_iter _ _ Hch) as Hin.
  assert (assertion = direct \/ enveloped direct assertion) as Hcase.
  { unfold authenticated in Ha. apply rbind_ok in Ha as (root' & _ & Ha).
    apply rbind_ok in Ha as ([] & _ & Ha). apply rbind_ok in Ha as ([] & _ & Ha).
    apply rbind_ok in Ha as (idp' & _ & Ha). apply rbind_ok in Ha as (a & Hv & [= -> -> ->]).
    unfold _verify in Hv. apply rbind_ok in Hv as ([] & _ & Hv). rewrite Hne, Hd in Hv.
    destruct (_ && _).
    - left. destruct (bool_decide _); [done|congruence].
    - right. by eapply verified_enveloped. }
  split_and!.
  1-4: destruct Hcase as [->|He]; [done|].
  - unfold get. by destruct He as (_ & -> & _).
  - unfold _name_id, find2. by rewrite (enveloped_findall2 direct).
  - unfold _name_id_format, find2. by rewrite (enveloped_findall2 direct).
  - unfold _attributes. change (concat (map (fun st => findall st Q_ATTRIBUTE) (findall assertion Q_ATTRIBUTE_STATEMENT)))
      with (findall2 assertion Q_ATTRIBUTE_STATEMENT Q_ATTRIBUTE).
    by rewrite (enveloped_findall2 direct).
  - intros e He Ht. by eapply single_assertion.
Qed.

End gate.

(** ** Witnesses *)

Section witnesses.

Definition leaf (name : string) (attrs : list (string * string)) (content : string) : element :=
  Element name attrs content [] "".
Definition node (name : string) (attrs : list (string * string)) (c : list element) : element :=
  Element name attrs "" c "".

Definition demo_signature (id : string) : element :=
  node Q_SIGNATURE [] [
    node Q_SIGNED_INFO [] [
      leaf Q_CANONICALIZATION_METHOD [("Algorithm", Algorithms._EXC_C14N)] "";
      leaf Q_SIGNATURE_METHOD [("Algorithm", Algorithms._DSIG_MORE +:+ "rsa-sha256")] "";
      node Q_REFERENCE [("URI", "#" +:+ id)] [
        leaf Q_TRANSFORM [("Algorithm", Xsw.ENVELOPED_SIGNATURE_TRANSFORM)] "";
        leaf Q_DIGEST_METHOD [("Algorithm", Algorithms._XMLENC +:+ "sha256")] ""]]].

Definition demo_assertion (expiry : string) (in_response_to : list (string * string)) : element :=
  node Q_ASSERTION [("ID", "_a1")] [
    leaf Q_ISSUER [] "https://idp.test";
    demo_signature "_a1";
    node Q_SUBJECT [] [
      leaf Q_NAME_ID [] "sam@campus.test";
      node Q_SUBJECT_CONFIRMATION [("Method", BEARER_CONFIRMATION_METHOD)] [
        leaf Q_SUBJECT_CONFIRMATION_DATA
          ([("Recipient", "https://sp.test/acs"); ("NotOnOrAfter", "2024-01-01T00:10:00Z")]
           ++ in_response_to) ""]];
    node Q_CONDITIONS [("NotOnOrAfter", expiry)] [
      node Q_AUDIENCE_RESTRICTION [] [leaf Q_AUDIENCE [] "https://sp.test"]];
    node Q_AUTHN_STATEMENT [("AuthnInstant", "2024-01-01T00:00:00Z")] [];
    node Q_ATTRIBUTE_STATEMENT [] [
      node Q_ATTRIBUTE [("Name", "mail")] [leaf Q_ATTRIBUTE_VALUE [] "sam@campus.test"]]].

Definition demo_response (expiry : string) (in_response_to : list (string * string)) : element :=
  node Q_RESPONSE ([("ID", "_r"); ("Destination", "https://sp.test/acs")] ++ in_response_to) [
    leaf Q_ISSUER [] "https://idp.test";
    leaf Q_STATUS_CODE [("Value", STATUS_SUCCESS)] "";
    demo_assertion expiry in_response_to].

(** Three messages of one provider. *)
Definition demo_parser : etree_parser := fun data =>
  if String.eqb data "unsolicited" then Some (demo_response "2024-01-01T00:05:00Z" [], "")
  else if String.eqb data "answer" then
    Some (demo_response "2024-01-01T00:05:00Z" [("InResponseTo", "_r1")], "")
  else if String.eqb data "eternal" then
    Some (demo_response "9999-12-31T23:59:59Z" [("InResponseTo", "_r1")], "")
  else None.

Definition without_signature (x : element) : element :=
  Element (tag x) (attrib x) (text x)
    (List.filter (fun d => negb (has_tag Q_SIGNATURE d)) (children x)) (tail x).

(** A verifier that trusts one certificate. *)
Definition demo_verifier : xml_verifier := fun doc cert _ _ =>
  if String.eqb cert "cert" then
    match find doc Q_ASSERTION with
    | Some a => Single (Some (without_signature a))
    | None => Refused
    end
  else Refused.

Definition demo_lib : Encryption.crypto :=
  {| Encryption.rsa_key := unit; Encryption.load_pem_private_key := fun _ => None;
     Encryption.oaep_decrypt := fun _ _ _ _ => None; Encryption.aesgcm_decrypt := fun _ _ _ => None |}.

Definition demo_policy : GatePolicy :=
  {| audience := "https://sp.test"; destination := "https://sp.test/acs";
     clock_skew := 180 * SECOND; max_authn_age := None |}.

Definition demo_idp (certificate : string) : TrustedIdP :=
  {| entity_id := "https://idp.test"; signing_certificates := [certificate];
     want_assertions_signed := true; allow_unsolicited := true |}.

Definition demo_resolve (certificate issuer : string) : result exn (option TrustedIdP) :=
  Ok (if String.eqb issuer "https://idp.test" then Some (demo_idp certificate) else None).

Definition demo_validate (certificate : string) (now : moment) : string -> prog AssertionFacts :=
  validate demo_policy (demo_resolve certificate) [] demo_parser demo_verifier demo_lib
    {| at_conditions := now; at_confirmation := now; at_authn := now; at_replay := now |}.

(** 2024-01-01T00:05:00Z. *)
Definition demo_expiry : moment := 1704067500 * SECOND.

Definition demo_outstanding : Store :=
  (run (Pending.request_remember Pending.demo_request Pending.PAR_TTL) (∅ : Store) demo_expiry).1.

Lemma demo_accepts : exists facts,
  (run (demo_validate "cert" demo_expiry "answer") demo_outstanding demo_expiry).2 = Ok facts /\
  assertion_id facts = "_a1" /\ name_id facts = "sam@campus.test" /\
  f_relay_state facts = Some (Pending.relay_state Pending.demo_request).
Proof. vm_compute. eexists. split_and!; reflexivity. Qed.

Lemma pair_snd {A B} (p : A * B) b : p.2 = b -> p = (p.1, b).
Proof. destruct p. by intros <-. Qed.

Lemma accepted_response_is_vouched_witness :
  exists facts, issuer facts = "https://idp.test" /\ name_id facts = "sam@campus.test" /\
  f_relay_state facts = Some (Pending.relay_state Pending.demo_request) /\
  exists cert, cert ∈ ["cert"] /\ exists doc loc a,
    demo_verifier doc cert (configuration_at loc) "ID" = Single (Some a) /\ get a "ID" = Some "_a1" /\
    exists n, find2 a Q_SUBJECT Q_NAME_ID = Some n /\ Py.strip (text_of (Some n)) = "sam@campus.test".
Proof.
  destruct demo_accepts as (facts & E & Ea & En & Er).
  apply pair_snd in E. revert E. generalize (run (demo_validate "cert" demo_expiry "answer") demo_outstanding demo_expiry).1.
  intros r' E. unfold demo_validate in E.
  destruct (accepted_response_is_vouched demo_policy (demo_resolve "cert") [] demo_parser demo_verifier
    demo_lib _ "answer" demo_outstanding r' demo_expiry facts E) as
    (root & idp & a & q & Hf & _ & _ & [i Hi] & Hiss & Hv & (Hid & (n & Hn & Hname & _) & _) & _).
  unfold demo_resolve in Hi. destruct (String.eqb i _); [|discriminate Hi]. injection Hi as <-.
  exists facts. split; [exact Hiss|]. split; [exact En|]. split; [exact Er|].
  destruct Hv as [(doc & cert & loc & _ & Hc & Hv)|[Hw _]]; [|discriminate Hw].
  exists cert. split; [exact Hc|]. exists doc, loc, a. split; [exact Hv|]. rewrite Hid, Ea. split; [reflexivity|].
  exists n. split; [exact Hn|]. rewrite <-Hname. exact En.
Defined.

Lemma forged_response_spends_nothing_witness :
  exists e, refusal (demo_resolve "other") e /\ demo_validate "other" demo_expiry "answer" = Throw e.
Proof.
  apply (forged_response_spends_nothing demo_policy (demo_resolve "other") [] demo_parser demo_verifier demo_lib).
  intros root idp Hp Hi doc cert cfg Hc. vm_compute in Hp. injection Hp as <-.
  vm_compute in Hi. injection Hi as <-. apply list_elem_of_singleton in Hc. subst cert. reflexivity.
Defined.

Definition demo_gate_race : config Store AssertionFacts :=
  sched [(0%nat, demo_expiry); (1%nat, demo_expiry)]
    (Config demo_expiry (∅ : Store)
      ((fun a => validate demo_policy (demo_resolve "cert") [] demo_parser demo_verifier demo_lib a.1 a.2) <$>
         replicate 2 ({| at_conditions := demo_expiry; at_confirmation := demo_expiry;
                         at_authn := demo_expiry; at_replay := demo_expiry |}, "unsolicited"))).

Lemma assertion_accepted_once_witness :
  (exists f, cf_pool demo_gate_race = [Ret f; Throw (SamlRejected REPLAY_DETECTED)]) /\ 0%nat = 0%nat.
Proof.
  assert (exists f, cf_pool demo_gate_race = [Ret f; Throw (SamlRejected REPLAY_DETECTED)] /\
    assertion_id f = "_a1") as (f & Ep & Ef) by (eexists; vm_compute; split; reflexivity).
  split; [by exists f|].
  apply (assertion_accepted_once demo_policy (demo_resolve "cert") [] demo_parser demo_verifier demo_lib
    (R := Store) "_a1" 180
    (replicate 2 ({| at_conditions := demo_expiry; at_confirmation := demo_expiry;
                     at_authn := demo_expiry; at_replay := demo_expiry |}, "unsolicited"))
    (fun _ => False) demo_expiry ∅ demo_gate_race 0 0 f f).
  - lia.
  - intros c [].
  - intros rd document root idp assertion expiry Hin Ha Hc.
    apply elem_of_replicate_inv in Hin. injection Hin as -> ->.
    vm_compute in Ha. injection Ha as <- <- <-. vm_compute in Hc. injection Hc as <-.
    vm_compute. discriminate.
  - apply sched_steps.
  - vm_compute; reflexivity.
  - by rewrite Ep.
  - by rewrite Ep.
  - exact Ef.
  - exact Ef.
Defined.

Lemma demo_resolves : resolves_in_document demo_verifier.
Proof.
  intros doc cert cfg e. unfold demo_verifier. destruct (String.eqb cert "cert"); [|done].
  destruct (find doc Q_ASSERTION) as [a|] eqn:Ea; [|done]. intros [= <-]. exists a. split.
  - apply child_iter. by destruct (find_spec _ _ _ Ea).
  - split_and!; [done|done|]. cbn [children without_signature].
    induction (List.filter _ _); constructor; [by split_and!|done].
Qed.

Lemma gate_reads_the_responses_assertion_witness :
  exists assertion, authenticated (demo_resolve "cert") [] demo_parser demo_verifier demo_lib "answer" =
    Ok (demo_response "2024-01-01T00:05:00Z" [("InResponseTo", "_r1")], demo_idp "cert", assertion) /\
  _name_id assertion = Ok "sam@campus.test".
Proof.
  assert (exists assertion, authenticated (demo_resolve "cert") [] demo_parser demo_verifier demo_lib "answer" =
    Ok (demo_response "2024-01-01T00:05:00Z" [("InResponseTo", "_r1")], demo_idp "cert", assertion)) as [a Ha]
    by (eexists; vm_compute; reflexivity).
  exists a. split; [exact Ha|].
  destruct (gate_reads_the_responses_assertion (demo_resolve "cert") [] demo_parser demo_verifier demo_lib
    "answer" _ (demo_assertion "2024-01-01T00:05:00Z" [("InResponseTo", "_r1")]) a (demo_idp "cert")
    demo_resolves Ha eq_refl eq_refl) as (_ & Hn & _).
  rewrite Hn. vm_compute. reflexivity.
Defined.

(** The replay cache forgets an assertion while it is still acceptable.
    The lifetime of the entry is cut to whole seconds, so an unsolicited
    assertion accepted 1.9 s before the end of its window is remembered for one
    second, and presented again 1.5 s later it is accepted again. *)
Theorem replay_entry_outlived_by_assertion :
  let first := (demo_expiry + 180 * SECOND - 1900000)%Z in
  let second := (first + 1500000)%Z in
  let once := run (demo_validate "cert" first "unsolicited") (∅ : Store) first in
  exists f g, once.2 = Ok f /\
    (run (demo_validate "cert" (first + 500000) "unsolicited") once.1 (first + 500000)).2 =
      Err (SamlRejected REPLAY_DETECTED) /\
    (run (demo_validate "cert" second "unsolicited") once.1 second).2 = Ok g /\
    assertion_id f = assertion_id g.
Proof. vm_compute. eexists _, _. split_and!; reflexivity. Qed.

(** A window that ends in the last minutes of year 9999 escapes the
    gate's refusals: adding the skew allowance overflows, the exception is not a
    [SamlRejected], and the outstanding request is already spent. *)
Theorem eternal_assertion_raises_overflow :
  let done_ := run (demo_validate "cert" demo_expiry "eternal") demo_outstanding demo_expiry in
  done_.2 = Err OverflowError /\
  (run (Pending.request_consume "_r1") demo_outstanding demo_expiry).2 = Ok (Some Pending.demo_request) /\
  (run (Pending.request_consume "_r1") done_.1 demo_expiry).2 = Ok None.
Proof. vm_compute. split_and!; reflexivity. Qed.

End witnesses.
End Gate.
