(* ===== verification/RateLimit.v ===== *)
(** * The second-factor attempt limiter

    [campusid/mfa/ratelimit.py]: failures are counted per person and kind in a
    window that starts with the first one; reaching the threshold sets a lock
    during which nothing is accepted. *)

From S2P Require Import Prelude PyStr Json Errors Redis.

Module RateLimit.

Definition ATTEMPTS_PREFIX := "mfa:attempts:".
Definition LOCK_PREFIX := "mfa:lock:".
Definition THRESHOLD : Z := 5.
Definition WINDOW : duration := 900 * SECOND.
Definition LOCKOUT : duration := 900 * SECOND.
Definition LOCKED := "mfa.locked_out".
Definition UNAVAILABLE := "mfa.rate_limiter_unavailable".

Record Failure : Type := { attempts : Z; locked : bool }.

Definition _attempts_key (person_uuid kind : string) : string :=
  ATTEMPTS_PREFIX +:+ kind +:+ ":" +:+ person_uuid.
Definition _lock_key (person_uuid kind : string) : string :=
  LOCK_PREFIX +:+ kind +:+ ":" +:+ person_uuid.

Section limiter.
(** The constructor arguments of [AttemptLimiter]. *)
Context (threshold : Z) (window lockout : duration).

(** [except Exception as exc: raise RateLimited(UNAVAILABLE, ...)]. *)
Definition or_unavailable {A} (p : prog A) : prog A :=
  pcatch p (fun _ => Throw (RateLimited UNAVAILABLE (whole_seconds lockout))).

Definition check (person_uuid kind : string) : prog unit :=
  await* remaining := or_unavailable (redis_ttl (_lock_key person_uuid kind)) in
  if (0 <? remaining)%Z then Throw (RateLimited LOCKED remaining) else Ret tt.

Definition record_failure (person_uuid kind : string) : prog Failure :=
  let key := _attempts_key person_uuid kind in
  or_unavailable (
    await* attempts := redis_incr key in
    do* (if (attempts =? 1)%Z then expire_key key (whole_seconds window) else Ret tt);
    if (attempts <? threshold)%Z then Ret {| attempts := attempts; locked := false |}
    else
      do* redis_set (_lock_key person_uuid kind) (SText "1") (whole_seconds lockout);
      do* redis_delete key;
      Ret {| attempts := attempts; locked := true |}).

Definition record_success (person_uuid kind : string) : prog unit :=
  pcatch (redis_delete (_attempts_key person_uuid kind)) (fun _ => Ret tt).

Definition clear (person_uuid kind : string) : prog unit :=
  do* redis_delete (_lock_key person_uuid kind);
  redis_delete (_attempts_key person_uuid kind).

(** [max(0, int(remaining or 0))]. *)
Definition locked_for (person_uuid kind : string) : prog Z :=
  await* remaining := redis_ttl (_lock_key person_uuid kind) in
  Ret (Z.max 0 remaining).
End limiter.

(** ** Properties *)

Section proofs.
Context {R : Type} `{RedisLaws R}.
Context (threshold : Z) (window lockout : duration).
Context (window_ok : (0 < whole_seconds window)%Z) (lockout_ok : (0 < whole_seconds lockout)%Z).
(** A counter stays far below Redis's largest integer. *)
Context (threshold_ok : (1 < threshold < INT64_MAX)%Z).
Context (person kind : string).

Abbreviation akey := (_attempts_key person kind).
Abbreviation lkey := (_lock_key person kind).
Abbreviation fail := (record_failure threshold window lockout person kind).
Abbreviation guard := (check lockout person kind).

Lemma akey_ne_lkey : akey <> lkey.
Proof. key_ne. Qed.

(** The counter shows [n] failures in a window that ends at [d]. *)
Definition counted (r : R) (t : moment) (n : Z) (d : moment) : Prop :=
  if (n =? 0)%Z then r_view r t akey = None
  else r_view r t akey = Some (Entry (VScalar (SInt n)) (Some d)).

(** One failure: the count goes up, the window starts with the first, and the
    last one allowed locks and forgets the count. *)
Lemma fail_run r t n d :
  (0 <= n < threshold)%Z -> counted r t n d ->
  let d' := if (n =? 0)%Z then (t + whole_seconds window * SECOND)%Z else d in
  let out := run fail r t in
  if (n + 1 <? threshold)%Z then
    out.2 = Ok {| attempts := n + 1; locked := false |} /\
    counted out.1 t (n + 1) d' /\ (forall k t', (t <= t')%Z -> k <> akey -> r_view out.1 t' k = r_view r t' k)
  else
    out.2 = Ok {| attempts := n + 1; locked := true |} /\
    counted out.1 t 0 d' /\
    r_view out.1 t lkey = Some (Entry (VScalar (SText "1")) (Some (t + whole_seconds lockout * SECOND)%Z)).
Proof.
  intros Hn Hc. cbv zeta.
  assert (forall n', (n' <> 0)%Z -> (n' =? 0)%Z = false) as Hz by (intros; lia).
  destruct (Z.ltb_spec (n + 1) threshold) as [Hlt|Hge].
  - assert (forall k, k <> akey -> (vrun r_round fail (r_view r t) t).1 k = r_view r t k) as Hfr.
    { intros k Hk. unfold record_failure, or_unavailable, redis_incr, redis_int, expire_key. simpl.
      destruct (r_view r t akey) as [[[[s|j|z]|m] dd]|] eqn:E; simpl; try by rewrite vupd_ne.
      - unfold counted in Hc. rewrite E in Hc.
        destruct (Z.eqb_spec n 0); [done|]. injection Hc as -> ->.
        destruct (Z.ltb_spec n INT64_MAX); [|lia]. simpl.
        destruct (Z.eqb_spec (n + 1) 1); [lia|]. simpl.
        destruct (Z.ltb_spec (n + 1) threshold); [|lia]. simpl. by rewrite vupd_ne.
      - unfold redis_int. simpl. rewrite vupd_eq. simpl.
        destruct (Z.leb_spec (whole_seconds window) 0); [lia|]. simpl.
        destruct (Z.ltb_spec 1 threshold); [|lia]. simpl. by rewrite !vupd_ne. }
    assert ((run fail r t).2 = Ok {| attempts := n + 1; locked := false |} /\
      counted (run fail r t).1 t (n + 1) (if (n =? 0)%Z then t + whole_seconds window * SECOND else d)%Z)
      as [? ?].
    { unfold counted in Hc |- *. rewrite run_result, run_vrun_later, Hz by lia.
      unfold record_failure, or_unavailable, redis_incr, redis_int, expire_key. simpl.
      destruct (Z.eqb_spec n 0) as [->|Hn0]; rewrite Hc; simpl.
      - unfold redis_int. simpl. rewrite vupd_eq. simpl.
        destruct (Z.leb_spec (whole_seconds window) 0); [lia|]. simpl.
        destruct (Z.ltb_spec 1 threshold); [|lia]. simpl. rewrite vupd_eq. by rewrite age_set_now by lia.
      - destruct (Z.ltb_spec n INT64_MAX); [|lia]. simpl.
        destruct (Z.eqb_spec (n + 1) 1); [lia|]. simpl.
        destruct (Z.ltb_spec (n + 1) threshold); [|lia]. simpl. rewrite vupd_eq. split; [done|].
        apply age_live. by eapply view_live. }
    split_and!; [done..|]. intros k t' Ht Hk.
    rewrite run_vrun_later, Hfr by done. by rewrite <- r_view_age by lia.
  - assert (n <> 0)%Z as Hn0 by lia. unfold counted in Hc |- *. rewrite (Hz n Hn0) in Hc.
    rewrite run_result, !run_vrun_later by lia.
    unfold record_failure, or_unavailable, redis_incr, redis_set, redis_delete, redis_int. simpl.
    rewrite Hc. simpl. destruct (Z.ltb_spec n INT64_MAX); [|lia]. simpl.
    destruct (Z.eqb_spec (n + 1) 1); [lia|]. simpl.
    destruct (Z.ltb_spec (n + 1) threshold); [lia|]. simpl.
    destruct (Z.leb_spec (whole_seconds lockout) 0); [lia|]. simpl.
    rewrite vupd_ne, vupd_eq by key_ne. simpl. split_and!; [done|by rewrite vupd_eq|].
    rewrite vupd_ne, vupd_eq by key_ne. by apply age_set_now.
Qed.

(** ** Sequences of failures *)

Fixpoint fail_all (ts : list moment) (r : R) : R * list (result exn Failure) :=
  match ts with
  | [] => (r, [])
  | t :: ts' =>
      let out := run fail r t in
      let rest := fail_all ts' out.1 in
      (rest.1, out.2 :: rest.2)
  end.

Fixpoint not_before (t : moment) (ts : list moment) : Prop :=
  match ts with [] => True | t' :: ts' => (t <= t')%Z /\ not_before t' ts' end.

Definition last_of (t : moment) (ts : list moment) : moment := List.last ts t.

Lemma last_of_cons t t' ts : last_of t (t' :: ts) = last_of t' ts.
Proof.
  unfold last_of. revert t t'. induction ts as [|x ts IH]; intros t t'; [done|].
  change (List.last (t' :: x :: ts) t) with (List.last (x :: ts) t). by rewrite !IH.
Qed.

Lemma last_of_le t ts : not_before t ts -> (t <= last_of t ts)%Z.
Proof.
  revert t. induction ts as [|t' ts IH]; intros t; [unfold last_of; simpl; lia|].
  intros [? ?%IH]. rewrite last_of_cons. lia.
Qed.

Lemma fail_all_app ts ts' r :
  fail_all (ts ++ ts') r =
    let a := fail_all ts r in let b := fail_all ts' a.1 in (b.1, a.2 ++ b.2).
Proof.
  revert r. induction ts as [|t ts IH]; intros r; simpl; [by destruct (fail_all ts' r)|].
  by rewrite IH.
Qed.

Lemma counted_later r t t' n d :
  (t <= t')%Z -> (t' < d)%Z \/ n = 0%Z -> counted r t n d -> counted r t' n d.
Proof.
  unfold counted. intros Ht Hd. destruct (Z.eqb_spec n 0); intros Hc.
  - by eapply view_None_later.
  - eapply view_Some_later; [done| |done]. lia.
Qed.

(** Fewer failures than the threshold inside one window: each is counted, none
    locks. *)
Lemma fail_all_counts ts r t n d :
  (0 <= n)%Z -> (n + Z.of_nat (length ts) < threshold)%Z -> counted r t n d -> not_before t ts ->
  (n = 0%Z -> match ts with [] => True | t1 :: _ => d = (t1 + whole_seconds window * SECOND)%Z end) ->
  Forall (fun x => (x < d)%Z) ts ->
  let out := fail_all ts r in
  out.2 = (fun i => Ok {| attempts := i; locked := false |}) <$> seqZ (n + 1) (Z.of_nat (length ts)) /\
  counted out.1 (last_of t ts) (n + Z.of_nat (length ts)) d /\
  (forall x, (last_of t ts <= x)%Z -> r_view out.1 x lkey = r_view r x lkey).
Proof.
  revert r t n. induction ts as [|t1 ts IH]; intros r t n Hn Hlen Hc Hnb Hd Hall.
  { simpl. split_and!; [done| |done]. by replace (n + Z.of_nat 0)%Z with n by lia. }
  destruct Hnb as [Ht1 Hnb]. apply Forall_cons in Hall as [Hlt Hall]. cbn [fail_all].
  rewrite last_of_cons. simpl length in *.
  assert (counted r t1 n d) as Hc1 by (eapply counted_later; [done|by left|done]).
  pose proof (fail_run r t1 n d ltac:(lia) Hc1) as Hrun. cbv zeta in Hrun.
  destruct (Z.ltb_spec (n + 1) threshold); [|lia]. destruct Hrun as (Hres & Hc' & Hfr).
  assert ((if (n =? 0)%Z then (t1 + whole_seconds window * SECOND)%Z else d) = d) as Ed.
  { destruct (Z.eqb_spec n 0); [by rewrite Hd|done]. }
  rewrite Ed in Hc'.
  destruct (IH (run fail r t1).1 t1 (n + 1)%Z ltac:(lia) ltac:(lia) Hc' Hnb ltac:(lia) Hall)
    as (Hres2 & Hc2 & Hfr2).
  cbn [fst snd]. split_and!.
  - rewrite Hres, Hres2, (seqZ_cons (n + 1) (Z.of_nat (S (length ts)))) by lia. rewrite fmap_cons.
    replace (Z.pred (Z.of_nat (S (length ts)))) with (Z.of_nat (length ts)) by lia.
    by replace (Z.succ (n + 1)) with (n + 1 + 1)%Z by lia.
  - by replace (n + Z.of_nat (S (length ts)))%Z with (n + 1 + Z.of_nat (length ts))%Z by lia.
  - intros x Hx. rewrite Hfr2 by done. apply Hfr; [|key_ne].
    apply last_of_le in Hnb. lia.
Qed.

(** What [check] answers while the lock key is live, and when it is gone. *)
Lemma check_run r t :
  (run guard r t).2 =
    match r_view r t lkey with
    | Some (Entry _ (Some d)) =>
        let n := r_round (d - t) in
        if (0 <? n)%Z then Err (RateLimited LOCKED n) else Ok tt
    | _ => Ok tt
    end.
Proof.
  rewrite run_result. unfold check, or_unavailable, redis_ttl, redis_int. simpl.
  destruct (r_view r t lkey) as [[v [d|]]|]; simpl; [|done|done].
  by destruct (0 <? r_round (d - t))%Z.
Qed.

(** C25: Five wrong codes lock the factor.  Starting with no failures on record,
    [threshold] failures inside one window are answered with their count, the
    last and only the last reports the lock, and from then on every attempt is
    refused with the remaining time until less than a second of the lockout is
    left; once the lockout is over attempts are accepted again. *)
Theorem threshold_locks (r : R) (t0 t1 tn t : moment) (ts : list moment) :
  counted r t0 0 0 ->
  Z.of_nat (length (t1 :: ts)) = (threshold - 1)%Z ->
  not_before t0 (t1 :: ts ++ [tn]) ->
  Forall (fun x => (x < t1 + whole_seconds window * SECOND)%Z) (t1 :: ts ++ [tn]) ->
  (tn <= t)%Z ->
  let out := fail_all (t1 :: ts ++ [tn]) r in
  out.2 = ((fun i => Ok {| attempts := i; locked := false |}) <$> seqZ 1 (threshold - 1)) ++
          [Ok {| attempts := threshold; locked := true |}] /\
  ((t + SECOND <= tn + whole_seconds lockout * SECOND)%Z ->
     exists n, (0 < n <= whole_seconds lockout)%Z /\
       (run guard out.1 t).2 = Err (RateLimited LOCKED n)) /\
  ((tn + whole_seconds lockout * SECOND <= t)%Z -> (run guard out.1 t).2 = Ok tt).
Proof.
  intros Hc Hlen Hnb Hall Ht. cbv zeta. rewrite app_comm_cons in *. rewrite fail_all_app. cbv zeta.
  apply Forall_app in Hall as [Hall Hlast].
  assert (not_before t0 (t1 :: ts) /\ (last_of t0 (t1 :: ts) <= tn)%Z) as [Hnb1 Hle].
  { clear -Hnb. generalize dependent t0. induction (t1 :: ts) as [|x l IH]; intros t0 Hnb.
    - simpl in Hnb. unfold last_of. simpl. split; [done|lia].
    - destruct Hnb as [? [? ?]%IH]. rewrite last_of_cons. simpl. done. }
  assert (counted r t0 0 (t1 + whole_seconds window * SECOND)) as Hc0 by exact Hc.
  destruct (fail_all_counts (t1 :: ts) r t0 0 (t1 + whole_seconds window * SECOND) ltac:(lia)
    ltac:(lia) Hc0 Hnb1 ltac:(done) Hall) as (Hres & Hcn & _).
  set (ra := (fail_all (t1 :: ts) r).1) in *.
  apply (counted_later _ _ tn) in Hcn; [|done|left; by inversion Hlast].
  replace (0 + Z.of_nat (length (t1 :: ts)))%Z with (threshold - 1)%Z in Hcn by lia.
  pose proof (fail_run ra tn (threshold - 1) _ ltac:(lia) Hcn) as Hrun. cbv zeta in Hrun.
  destruct (Z.ltb_spec (threshold - 1 + 1) threshold); [lia|]. destruct Hrun as (Hl & _ & Hlock).
  change (fail_all [tn] ra) with ((run fail ra tn).1, [(run fail ra tn).2]). cbn [fst snd].
  set (rb := (run fail ra tn).1) in *.
  replace (threshold - 1 + 1)%Z with threshold in Hl by lia.
  rewrite Hres, Hl, check_run, (r_view_age rb tn t), Hlock by done. split_and!.
  - by rewrite Hlen.
  - intros Hin. rewrite age_live by (unfold SECOND in *; lia). cbv zeta.
    pose proof (r_round_near (tn + whole_seconds lockout * SECOND - t) ltac:(unfold SECOND in *; lia)).
    exists (r_round (tn + whole_seconds lockout * SECOND - t)).
    destruct (Z.ltb_spec 0 (r_round (tn + whole_seconds lockout * SECOND - t)));
      [split; [unfold SECOND in *; lia|done]|unfold SECOND in *; lia].
  - intros Hout. by rewrite age_dead.
Qed.

(** Failures that keep one below the threshold in each window. *)
Fixpoint paced (k : nat) (t : moment) : list moment :=
  match k with
  | O => []
  | S k' => replicate (Z.to_nat (threshold - 1)) t ++ paced k' (t + whole_seconds window * SECOND)
  end.

(** The limiter does not bound how many codes a patient caller tries.  One
    failure fewer than the threshold in every window, for any number of windows,
    is never locked out: every failure reports no lock and attempts are accepted
    at every later moment. *)
Theorem paced_failures_never_lock (k : nat) (r : R) (t x : moment) :
  r_view r t akey = None -> r_view r t lkey = None ->
  (t + Z.of_nat k * (whole_seconds window * SECOND) <= x)%Z ->
  let out := fail_all (paced k t) r in
  Z.of_nat (length out.2) = (Z.of_nat k * (threshold - 1))%Z /\
  Forall (fun o => exists n, o = Ok {| attempts := n; locked := false |}) out.2 /\
  (run guard out.1 x).2 = Ok tt.
Proof.
  revert r t. induction k as [|k IH]; intros r t Ha Hl Hx; cbv zeta.
  { cbn [paced fail_all fst snd length]. split_and!; [lia|constructor|]. rewrite check_run. by rewrite (view_None_later r t x) by (done || lia). }
  cbn [paced]. rewrite fail_all_app. cbv zeta. cbn [fst snd].
  set (n := Z.to_nat (threshold - 1)). set (W := (whole_seconds window * SECOND)%Z) in *.
  assert (0 < W)%Z by (subst W; unfold SECOND; lia).
  assert (not_before t (replicate n t)) as Hnb.
  { clear. induction n; simpl; [done|]. split; [lia|done]. }
  assert (last_of t (replicate n t) = t) as Hlast.
  { clear. induction n; [done|]. cbn [replicate]. by rewrite last_of_cons. }
  destruct (fail_all_counts (replicate n t) r t 0 (t + W)) as (Hres & Hcn & Hfr);
    [lia|rewrite length_replicate; lia|by unfold counted|done|by destruct n|
     apply Forall_replicate; lia|].
  rewrite length_replicate in *. rewrite Hlast in *. set (ra := (fail_all (replicate n t) r).1) in *.
  destruct (IH ra (t + W)%Z) as (Hlen & Hall & Hguard).
  - unfold counted in Hcn. destruct (Z.eqb_spec (0 + Z.of_nat n) 0); [lia|].
    rewrite (r_view_age ra t) by lia. rewrite Hcn. by apply age_dead.
  - rewrite Hfr by lia. by apply (view_None_later r t); [lia|].
  - lia.
  - split_and!; [|apply Forall_app; split; [|exact Hall]|exact Hguard].
    + rewrite length_app, Hres, length_fmap, length_seqZ. unfold n. lia.
    + rewrite Hres. apply Forall_fmap, Forall_true. eauto.
Qed.

(** An unreachable limiter refuses.  Whatever the server replies, [check]
    passes only on a reply that says there is no time left on a lock; a refused
    command or a lost connection is a refusal. *)
Theorem check_fails_closed (rep : reply) :
  match check lockout person kind with
  | Do c k =>
      c = TTL lkey /\
      k rep = match rep with
              | RInt z => if (0 <? z)%Z then Throw (RateLimited LOCKED z) else Ret tt
              | _ => Throw (RateLimited UNAVAILABLE (whole_seconds lockout))
              end
  | _ => False
  end.
Proof. simpl. split; [done|]. by destruct rep. Qed.
End proofs.

(** ** Witnesses *)

Section witnesses.

Lemma threshold_locks_witness :
  exists n, (0 < n <= whole_seconds LOCKOUT)%Z /\
    (run (check LOCKOUT "sam" "totp")
      (fail_all (R := Store) THRESHOLD WINDOW LOCKOUT "sam" "totp" (1%Z :: [2; 3; 4]%Z ++ [5%Z]) ∅).1 6).2
    = Err (RateLimited LOCKED n).
Proof.
  assert (counted (R := Store) "sam" "totp" ∅ 0 0 0) as H1 by (vm_compute; reflexivity).
  assert (not_before 0 (1 :: [2; 3; 4] ++ [5])%Z) as H2 by (simpl; lia).
  assert (Forall (fun x => (x < 1 + whole_seconds WINDOW * SECOND)%Z) (1 :: [2; 3; 4] ++ [5])%Z) as H3
    by (repeat constructor).
  destruct (threshold_locks (R := Store) THRESHOLD WINDOW LOCKOUT eq_refl eq_refl
    (conj eq_refl eq_refl) "sam" "totp" ∅ 0 1 5 6 [2; 3; 4]%Z H1 eq_refl H2 H3 ltac:(lia)) as (_ & W & _).
  apply W. vm_compute. discriminate.
Defined.

Lemma paced_failures_never_lock_witness :
  (run (check LOCKOUT "sam" "totp")
    (fail_all (R := Store) THRESHOLD WINDOW LOCKOUT "sam" "totp" (paced THRESHOLD WINDOW 3 0) ∅).1
    (3 * WINDOW)).2 = Ok tt.
Proof.
  assert (r_view (∅ : Store) 0 (_attempts_key "sam" "totp") = None) as H1 by (vm_compute; reflexivity).
  assert (r_view (∅ : Store) 0 (_lock_key "sam" "totp") = None) as H2 by (vm_compute; reflexivity).
  assert (0 + Z.of_nat 3 * (whole_seconds WINDOW * SECOND) <= 3 * WINDOW)%Z as H3
    by (vm_compute; discriminate).
  destruct (paced_failures_never_lock (R := Store) THRESHOLD WINDOW LOCKOUT eq_refl eq_refl
    (conj eq_refl eq_refl) "sam" "totp" 3 ∅ 0 (3 * WINDOW) H1 H2 H3) as (_ & _ & W).
  exact W.
Defined.
End witnesses.

End RateLimit.
