(* ===== verification/Throttle.v ===== *)
(** * The authentication endpoints' rate limit

    [campusid/security/throttle.py]: attempts are counted per address and per
    account in aligned windows, and the previous window's count is carried over
    in proportion to how much of it a sliding window still covers.

    [time.time()] is a moment in microseconds; the weighted count, a float in
    the source, is kept exactly, as a numerator over the window length. *)

From stdpp Require Import pretty.
From S2P Require Import Prelude PyStr Json Errors Redis.

Module Throttle.

Definition PREFIX := "throttle:".
Definition PER_ADDRESS : Z := 10.
Definition PER_ACCOUNT : Z := 5.
Definition WINDOW_SECONDS : Z := 60.
Definition THROTTLED := "auth.rate_limited".
Definition UNAVAILABLE := "auth.throttle_unavailable".
Definition ADDRESS := "ip".
Definition ACCOUNT := "account".

Record Limit : Type := { name : string; ceiling : Z }.

Section throttle.
(** [hashlib.sha256(value.encode("utf-8")).hexdigest()[:32]]. *)
Context (digest32 : string -> string).
(** The constructor arguments of [Throttle]. *)
Context (per_address per_account window : Z).

Definition span : duration := window * SECOND.

Definition _limits (bucket : string) : Limit :=
  if String.eqb bucket ADDRESS then {| name := ADDRESS; ceiling := per_address |}
  else {| name := ACCOUNT; ceiling := per_account |}.

Definition _key (bucket value : string) (w : Z) : string :=
  PREFIX +:+ bucket +:+ ":" +:+ digest32 value +:+ ":" +:+ pretty w.

(** [float(previous or 0)]. *)
Definition carried_count (previous : option scalar) : prog Z :=
  match previous with
  | None => Ret 0%Z
  | Some (SInt z) => Ret z
  | Some _ => Throw ValueError
  end.

(** The weighted count, times [span]. *)
Definition _count (bucket value : string) (now : moment) : prog Z :=
  let current := (now / span)%Z in
  let elapsed := (now mod span)%Z in
  let key := _key bucket value current in
  await* count := redis_incr key in
  do* (if (count =? 1)%Z then expire_key key (window * 2) else Ret tt);
  await* previous := redis_get (_key bucket value (current - 1)) in
  await* carried := carried_count previous in
  Ret (count * span + carried * (span - elapsed))%Z.

Definition _retry_after (now : moment) : Z :=
  Z.max 1 (whole_seconds (span - now mod span)).

(** One round of the loop over the buckets. *)
Definition check_bucket (bucket : string) (value : option string) (now : moment)
    (refusal : option exn) : prog (option exn) :=
  match value with
  | Some (String a rest) =>
      await* used := pcatch (_count bucket (String a rest) now)
        (fun _ => Throw (Throttled UNAVAILABLE bucket window)) in
      match refusal with
      | None =>
          if (ceiling (_limits bucket) * span <? used)%Z
          then Ret (Some (Throttled THROTTLED bucket (_retry_after now)))
          else Ret None
      | Some e => Ret (Some e)
      end
  | _ => Ret refusal
  end.

Definition check (address account : option string) (now : moment) : prog unit :=
  await* refusal := check_bucket ADDRESS address now None in
  await* refusal := check_bucket ACCOUNT account now refusal in
  match refusal with
  | Some e => Throw e
  | None => Ret tt
  end.
End throttle.

(** The throttle has keys of its own. *)
Definition counter_key (k : string) : Prop := exists s, k = PREFIX +:+ s.

Lemma touches_pcatch {A} P (p : prog A) h : touches P p -> (forall e, touches P (h e)) -> touches P (pcatch p h).
Proof. intros Hp Hh. induction p as [a|e|c k IH]; simpl in *; [done|apply Hh|naive_solver]. Qed.

Lemma check_touches digest32 per_address per_account window address account now :
  touches counter_key (check digest32 per_address per_account window address account now).
Proof.
  assert (forall b v refusal, touches counter_key (check_bucket digest32 per_address per_account window b v now refusal)) as Hb.
  { intros b v refusal. unfold check_bucket. destruct v as [[|x rest]|]; [done| |done]. apply touches_bind.
    2: { intros used. by repeat case_match. }
    apply touches_pcatch; [|done]. unfold _count. apply touches_bind.
    { split; [by eexists|]. by intros []. }
    intros n. apply touches_bind; [case_match; [|done]; split; [by eexists|]; by intros []|]. intros _.
    apply touches_bind; [split; [by eexists|]; by intros []|]. intros [[]|]; done. }
  unfold check. apply touches_bind; [apply Hb|]. intros r1. apply touches_bind; [apply Hb|]. by intros [].
Qed.

(** ** Properties *)

Section proofs.
Context {R : Type} `{RedisLaws R}.
Context (digest32 : string -> string).
Context (per_address per_account window : Z) (window_pos : (0 < window)%Z).

Abbreviation key := (_key digest32).
Abbreviation W := (span window).
Abbreviation attempt := (check digest32 per_address per_account window).

Lemma span_pos : (0 < W)%Z.
Proof. unfold span, SECOND. lia. Qed.

Lemma window_key_inj b v w w' : key b v w = key b v w' -> w = w'.
Proof.
  unfold _key. intros E. do 5 apply Py.app_inv_l in E. by apply (inj pretty).
Qed.

(** The counter of a window shows [n] attempts. *)
Definition counted (r : R) (t : moment) (b v : string) (w n : Z) : Prop :=
  if (n =? 0)%Z then r_view r t (key b v w) = None
  else exists d, r_view r t (key b v w) = Some (Entry (VScalar (SInt n)) (Some d)) /\
                 ((w + 1) * W <= d)%Z.

Lemma window_counted_later r t t' b v w n :
  (t <= t' < (w + 1) * W)%Z -> counted r t b v w n -> counted r t' b v w n.
Proof.
  unfold counted. intros Ht. destruct (n =? 0)%Z; [apply view_None_later; lia|].
  intros (d & Hd & Hle). exists d. split; [|done]. by eapply view_Some_later; [..|exact Hd]; lia.
Qed.

(** One attempt on a bucket: its counter goes up by one, nothing else changes,
    and the answer weighs the previous window. *)
Lemma count_vrun (r : R) (t : moment) b v n p :
  (0 <= n < INT64_MAX)%Z ->
  counted r t b v (t / W) n -> counted r t b v (t / W - 1) p ->
  let out := run (_count digest32 window b v t) r t in
  out.2 = Ok ((n + 1) * W + p * (W - t mod W))%Z /\
  counted out.1 t b v (t / W) (n + 1) /\
  (forall k, k <> key b v (t / W) -> r_view out.1 t k = r_view r t k).
Proof.
  intros Hn Hc Hp. pose proof span_pos as HW.
  assert (key b v (t / W - 1) <> key b v (t / W)) as Hne.
  { intros E. apply window_key_inj in E. lia. }
  set (prev := key b v (t / W - 1)) in *. set (cur := key b v (t / W)) in *.
  assert (forall u, u prev = r_view r t prev ->
    vrun r_round (await* previous := redis_get prev in await* carried := carried_count previous in
      Ret ((n + 1) * W + carried * (W - t mod W))%Z) u t =
    (vupd u prev (u prev), Ok ((n + 1) * W + p * (W - t mod W))%Z)) as Hprev.
  { intros u Hu. unfold counted in Hp. fold prev in Hp. unfold redis_get. simpl. rewrite Hu.
    destruct (Z.eqb_spec p 0) as [->|]; [by rewrite Hp|].
    destruct Hp as (d & -> & _). done. }
  assert (exists d, ((t / W + 1) * W <= d)%Z /\ exists u,
    vrun r_round (_count digest32 window b v t) (r_view r t) t =
      (u, Ok ((n + 1) * W + p * (W - t mod W))%Z) /\
    u cur = Some (Entry (VScalar (SInt (n + 1))) (Some d)) /\
    forall k, k <> cur -> u k = r_view r t k) as (d & Hd & u & Hrun & Hcur & Hfr).
  { unfold _count, redis_incr, redis_int, expire_key. fold cur prev. cbv zeta.
    unfold counted in Hc. fold cur in Hc. cbn [pbind vrun cmd_key].
    destruct (Z.eqb_spec n 0) as [->|Hn0].
    - rewrite Hc. cbn [key_step pbind vrun cmd_key]. rewrite Z.eqb_refl. unfold redis_int.
      cbn [pbind vrun cmd_key]. rewrite vupd_eq. cbn [key_step].
      destruct (Z.leb_spec (window * 2) 0); [lia|]. cbn [pbind vrun].
      exists (t + window * 2 * SECOND)%Z. split.
      + pose proof (Z.mod_pos_bound t W HW). pose proof (Z.div_mod t W ltac:(lia)).
        unfold span in *. lia.
      + eexists. split; [apply Hprev; by rewrite !vupd_ne|]. split.
        * by rewrite vupd_ne, vupd_eq by done.
        * intros k Hk. destruct (decide (k = prev)) as [->|];
            [rewrite vupd_eq|rewrite vupd_ne by done]; by rewrite !vupd_ne.
    - destruct Hc as (d & Hc & Hle). rewrite Hc. cbn [key_step].
      destruct (Z.ltb_spec n INT64_MAX); [|lia]. cbn [pbind vrun].
      destruct (Z.eqb_spec (n + 1) 1); [lia|]. cbn [pbind vrun].
      exists d. split; [done|]. eexists. split; [apply Hprev; by rewrite vupd_ne|]. split.
      + by rewrite vupd_ne, vupd_eq by done.
      + intros k Hk. destruct (decide (k = prev)) as [->|];
          [rewrite vupd_eq|rewrite vupd_ne by done]; by rewrite !vupd_ne. }
  cbv zeta. rewrite run_result, Hrun. split; [done|]. split.
  - unfold counted. destruct (Z.eqb_spec (n + 1) 0); [lia|]. exists d. split; [|done]. fold cur.
    rewrite run_vrun_later, Hrun by lia. cbn [fst]. rewrite Hcur. apply age_live.
    pose proof (Z.mod_pos_bound t W HW). pose proof (Z.div_mod t W ltac:(lia)). lia.
  - intros k Hk. rewrite run_vrun_later, Hrun by lia. cbn [fst]. rewrite Hfr by done.
    apply view_self_live.
Qed.

Lemma pcatch_run {A} (p : prog A) h (r : R) t r' a :
  run p r t = (r', Ok a) -> run (pcatch p h) r t = (r', Ok a).
Proof.
  revert r. induction p as [x|e|c k IH]; intros r; simpl; [done|done|].
  destruct (r_exec r t c) as [r1 rep]. apply IH.
Qed.

(** One round of the loop, for a bucket with a value. *)
Lemma bucket_run (r : R) (t : moment) b v n p refusal :
  v <> "" -> (0 <= n < INT64_MAX)%Z ->
  counted r t b v (t / W) n -> counted r t b v (t / W - 1) p ->
  let out := run (check_bucket digest32 per_address per_account window b (Some v) t refusal) r t in
  out.2 = Ok (match refusal with
              | None => if (ceiling (_limits per_address per_account b) * W <?
                            (n + 1) * W + p * (W - t mod W))%Z
                        then Some (Throttled THROTTLED b (_retry_after window t)) else None
              | Some e => Some e
              end) /\
  counted out.1 t b v (t / W) (n + 1) /\
  (forall k, k <> key b v (t / W) -> r_view out.1 t k = r_view r t k).
Proof.
  intros Hv Hn Hc Hp. cbv zeta. destruct v as [|a rest]; [done|]. cbn [check_bucket].
  destruct (count_vrun r t b (String a rest) n p Hn Hc Hp) as (Hres & Hc' & Hfr).
  destruct (run (_count digest32 window b (String a rest) t) r t) as [r1 o] eqn:E.
  cbn [fst snd] in *. subst o. rewrite run_bind. erewrite pcatch_run by exact E.
  destruct refusal as [e|]; [by split_and!|].
  by destruct (_ <? _)%Z; split_and!.
Qed.

(** Both buckets are charged, whatever the answer.  An attempt that names an
    address and an account adds one to the counter of each, also when the
    address alone is refused, and the address's refusal is the one reported. *)
Theorem both_buckets_charged (r : R) (t : moment) (address account : string) (n m p q : Z) :
  address <> "" -> account <> "" -> (0 <= n < INT64_MAX)%Z -> (0 <= m < INT64_MAX)%Z ->
  counted r t ADDRESS address (t / W) n -> counted r t ADDRESS address (t / W - 1) p ->
  counted r t ACCOUNT account (t / W) m -> counted r t ACCOUNT account (t / W - 1) q ->
  let out := run (attempt (Some address) (Some account) t) r t in
  counted out.1 t ADDRESS address (t / W) (n + 1) /\
  counted out.1 t ACCOUNT account (t / W) (m + 1) /\
  out.2 = (if (per_address * W <? (n + 1) * W + p * (W - t mod W))%Z
           then Err (Throttled THROTTLED ADDRESS (_retry_after window t))
           else if (per_account * W <? (m + 1) * W + q * (W - t mod W))%Z
           then Err (Throttled THROTTLED ACCOUNT (_retry_after window t))
           else Ok tt).
Proof.
  intros Ha Hb Hn Hm Hc1 Hp1 Hc2 Hp2. cbv zeta. unfold check. rewrite !run_bind.
  assert (forall w w', key ACCOUNT account w <> key ADDRESS address w') as Hdis by (intros; key_ne).
  assert (forall r', (forall k, k <> key ADDRESS address (t / W) -> r_view r' t k = r_view r t k) ->
    counted r' t ACCOUNT account (t / W) m /\ counted r' t ACCOUNT account (t / W - 1) q) as Hkeep.
  { intros r' Hfr. unfold counted in *. by rewrite !Hfr. }
  destruct (bucket_run r t ADDRESS address n p None Ha Hn Hc1 Hp1) as (Hres & Hc & Hfr).
  destruct (run (check_bucket _ _ _ _ ADDRESS _ _ _) r t) as [r1 o1]. cbn [fst snd] in *. subst o1.
  destruct (Hkeep r1 Hfr) as [Hk1 Hk2]. rewrite run_bind.
  set (refusal := if (_ <? _)%Z then _ else _).
  destruct (bucket_run r1 t ACCOUNT account m q refusal Hb Hm Hk1 Hk2) as (Hres2 & Hc' & Hfr2).
  destruct (run (check_bucket _ _ _ _ ACCOUNT _ _ _) r1 t) as [r2 o2]. cbn [fst snd] in *. subst o2.
  assert (counted r2 t ADDRESS address (t / W) (n + 1)) as Hc3.
  { unfold counted in *. rewrite Hfr2 by apply not_eq_sym, Hdis. done. }
  subst refusal. change (ceiling (_limits per_address per_account ADDRESS)) with per_address.
  change (ceiling (_limits per_address per_account ACCOUNT)) with per_account.
  destruct (per_address * W <? _)%Z; [by split_and!|].
  destruct (per_account * W <? _)%Z; by split_and!.
Qed.

(** ** A window of attempts from one address *)

Fixpoint attempts (address : string) (ts : list moment) (r : R) : R * list (result exn unit) :=
  match ts with
  | [] => (r, [])
  | t :: ts' =>
      let out := run (attempt (Some address) None t) r t in
      let rest := attempts address ts' out.1 in
      (rest.1, out.2 :: rest.2)
  end.

Fixpoint not_before (t : moment) (ts : list moment) : Prop :=
  match ts with [] => True | t' :: ts' => (t <= t')%Z /\ not_before t' ts' end.

(** What the attempts are answered when nothing is carried over. *)
Fixpoint answers (n : Z) (ts : list moment) : list (result exn unit) :=
  match ts with
  | [] => []
  | t :: ts' =>
      (if (per_address <? n + 1)%Z then Err (Throttled THROTTLED ADDRESS (_retry_after window t))
       else Ok tt) :: answers (n + 1) ts'
  end.

Lemma attempts_answers address ts r t w n :
  address <> "" -> (0 <= n)%Z -> (n + Z.of_nat (length ts) < INT64_MAX)%Z ->
  counted r t ADDRESS address w n -> counted r t ADDRESS address (w - 1) 0 ->
  not_before t ts -> Forall (fun x => (x / W = w)%Z) ts ->
  (attempts address ts r).2 = answers n ts.
Proof.
  intros Ha. pose proof span_pos as HW. revert r t n.
  induction ts as [|t1 ts IH]; intros r t n Hn Hlen Hc Hp Hnb Hall; [done|].
  destruct Hnb as [Ht Hnb]. apply Forall_cons in Hall as [Hw Hall]. simpl length in Hlen.
  assert (t1 < (w + 1) * W)%Z.
  { pose proof (Z.mod_pos_bound t1 W HW). pose proof (Z.div_mod t1 W ltac:(lia)). subst w. lia. }
  apply (window_counted_later _ _ t1) in Hc; [|lia].
  assert (counted r t1 ADDRESS address (w - 1) 0) as Hp1 by (by apply (view_None_later r t t1)).
  subst w. destruct (bucket_run r t1 ADDRESS address n 0 None Ha ltac:(lia) Hc Hp1) as (Hres & Hc' & Hfr).
  cbn [attempts answers]. unfold check. rewrite run_bind.
  destruct (run (check_bucket _ _ _ _ ADDRESS _ _ _) r t1) as [r1 o1]. cbn [fst snd] in *. subst o1.
  change (ceiling (_limits per_address per_account ADDRESS)) with per_address.
  assert ((per_address * W <? (n + 1) * W + 0 * (W - t1 mod W))%Z = (per_address <? n + 1)%Z) as ->.
  { rewrite Z.mul_0_l, Z.add_0_r. destruct (Z.ltb_spec per_address (n + 1)); [apply Z.ltb_lt|apply Z.ltb_ge];
      nia. }
  assert (counted r1 t1 ADDRESS address (t1 / W - 1) 0) as Hp2.
  { unfold counted in *. rewrite Hfr; [done|]. intros E. apply window_key_inj in E. lia. }
  assert ((attempts address ts r1).2 = answers (n + 1) ts) as Hrest
    by (eapply IH; [lia|lia|exact Hc'|exact Hp2|exact Hnb|exact Hall]).
  destruct (per_address <? n + 1)%Z; simpl; by rewrite Hrest.
Qed.

(** The eleventh attempt in a window is refused.  When an address starts a
    window with nothing counted in it or carried over, exactly the first
    [per_address] of its attempts in that window are let through and every later
    one is refused. *)
Theorem address_ceiling (r : R) (t w : moment) (address : string) (ts : list moment) :
  address <> "" -> (Z.of_nat (length ts) < INT64_MAX)%Z ->
  r_view r t (key ADDRESS address w) = None -> r_view r t (key ADDRESS address (w - 1)) = None ->
  not_before t ts -> Forall (fun x => (x / W = w)%Z) ts ->
  forall i x, ts !! i = Some x ->
    (attempts address ts r).2 !! i =
      Some (if (per_address <? Z.of_nat i + 1)%Z
            then Err (Throttled THROTTLED ADDRESS (_retry_after window x)) else Ok tt).
Proof.
  intros Ha Hlen Hc Hp Hnb Hall i x Hi.
  rewrite (attempts_answers address ts r t w 0 Ha ltac:(lia) ltac:(lia) Hc Hp Hnb Hall).
  replace (Z.of_nat i + 1)%Z with (0 + Z.of_nat i + 1)%Z by lia.
  generalize 0%Z as n. clear -Hi. revert i Hi.
  induction ts as [|t1 ts IH]; intros i Hi n; [done|].
  destruct i as [|i]; simpl in *.
  - simplify_eq. by replace (n + Z.of_nat 0 + 1)%Z with (n + 1)%Z by lia.
  - rewrite (IH i Hi (n + 1)%Z). by replace (n + 1 + Z.of_nat i + 1)%Z with (n + Z.of_nat (S i) + 1)%Z by lia.
Qed.
End proofs.

(** ** Witnesses and limits *)

Section witnesses.

Definition demo_digest (s : string) : string := s.

Abbreviation demo_attempts ts r :=
  (attempts (R := Store) demo_digest PER_ADDRESS PER_ACCOUNT WINDOW_SECONDS "192.0.2.7" ts r).

Lemma address_ceiling_witness :
  (demo_attempts (replicate 12 5%Z) ∅).2 !! 10%nat =
    Some (Err (Throttled THROTTLED ADDRESS (_retry_after WINDOW_SECONDS 5))).
Proof.
  assert (not_before 0 (replicate 12 5%Z)) as H1 by (simpl; lia).
  assert (Forall (fun x => (x / span WINDOW_SECONDS = 0)%Z) (replicate 12 5%Z)) as H2
    by (repeat constructor).
  exact (address_ceiling (R := Store) demo_digest PER_ADDRESS PER_ACCOUNT WINDOW_SECONDS eq_refl
    ∅ 0 0 "192.0.2.7" (replicate 12 5%Z) ltac:(done) eq_refl eq_refl eq_refl H1 H2 10 5 eq_refl).
Defined.

Lemma both_buckets_charged_witness :
  counted (R := Store) demo_digest WINDOW_SECONDS
    (run (check demo_digest PER_ADDRESS PER_ACCOUNT WINDOW_SECONDS (Some "192.0.2.7") (Some "sam") 5) ∅ 5).1
    5 ACCOUNT "sam" (5 / span WINDOW_SECONDS) (0 + 1).
Proof.
  destruct (both_buckets_charged (R := Store) demo_digest PER_ADDRESS PER_ACCOUNT WINDOW_SECONDS eq_refl
    ∅ 5 "192.0.2.7" "sam" 0 0 0 0 ltac:(done) ltac:(done) ltac:(done) ltac:(done)
    eq_refl eq_refl eq_refl eq_refl) as (_ & W & _).
  exact W.
Defined.

(** Ten attempts at the end of one minute and nine more just under a minute
    later. *)
Definition burst : list moment := replicate 10 (59 * SECOND)%Z ++ replicate 9 (118 * SECOND)%Z.

(** The weighted count is not an upper bound of the sliding window.  When
    the previous window's attempts all fell at its end, nineteen attempts inside
    fifty-nine seconds are let through by a limit of ten a minute. *)
Theorem concentrated_burst_admitted :
  (demo_attempts burst ∅).2 = replicate 19 (Ok tt).
Proof. vm_compute. reflexivity. Qed.

(** Thirty attempts in one window, of which twenty are refused, and one more at
    the moment the first refusal names. *)
Definition retried : list moment := replicate 30 0%Z ++ [(0 + _retry_after WINDOW_SECONDS 0 * SECOND)%Z].

(** The advertised delay can be too short.  A caller refused with
    [retry_after] who comes back exactly then is refused again, because refused
    attempts are counted and carried into the next window. *)
Theorem retry_after_too_early :
  (demo_attempts retried ∅).2 !! 29%nat =
    Some (Err (Throttled THROTTLED ADDRESS (_retry_after WINDOW_SECONDS 0))) /\
  retried !! 30%nat = Some (_retry_after WINDOW_SECONDS 0 * SECOND)%Z /\
  exists after, (demo_attempts retried ∅).2 !! 30%nat = Some (Err (Throttled THROTTLED ADDRESS after)).
Proof. split; [vm_compute; reflexivity|]. split; [vm_compute; reflexivity|].
  eexists. vm_compute. reflexivity. Qed.
End witnesses.

End Throttle.
