(* ===== verification/Authz.v ===== *)
(** * The authorization engine

    [campusid/authz/engine.py] (rules and the deny-overrides combination) and
    [campusid/authz/loader.py] (validating a policy file, and keeping the last
    good one).  A frozen set is a [gset]; a time of day is a number of
    microseconds since midnight. *)

From S2P Require Import Prelude PyStr Json.

Module Authz.

Definition AAL1 := "urn:campusid:aal1".
Definition AAL2 := "urn:campusid:aal2".

(** [ASSURANCE_ORDER.get(a, 0)]. *)
Definition assurance_rank (a : string) : Z :=
  if String.eqb a AAL1 then 1 else if String.eqb a AAL2 then 2 else 0.

Definition DEFAULT_RULE := "default-deny".

Inductive Effect : Type := PERMIT | DENY | CHALLENGE.

#[global] Instance Effect_eq_dec : EqDecision Effect.
Proof. solve_decision. Defined.

Record Subject : Type := {
  su_entitlements : gset string;
  su_affiliations : gset string;
  su_roles : gset string;
  su_assurance : string;
  su_person_uuid : option string;
}.

Record Resource : Type := {
  re_id : string;
  re_classification : string;
  re_requires_aal2 : bool;
}.

Record Environment : Type := {
  en_network : string;
  en_at : option Z;
}.

Record Request : Type := {
  rq_subject : Subject;
  rq_resource : Resource;
  rq_action : string;
  rq_environment : Environment;
}.

Record Decision : Type := {
  de_effect : Effect;
  de_rule_id : string;
  de_reason : string;
  de_required_assurance : option string;
}.

Definition allowed (d : Decision) : bool := bool_decide (de_effect d = PERMIT).

Record Rule : Type := {
  ru_id : string;
  ru_effect : Effect;
  ru_description : string;
  ru_entitlements : gset string;
  ru_affiliations : gset string;
  ru_roles : gset string;
  ru_actions : gset string;
  ru_resources : gset string;
  ru_resource_prefix : string;
  ru_classifications : gset string;
  ru_networks : gset string;
  ru_between : option (Z * Z);
  ru_assurance : string;
}.

Definition _within (at_ : option Z) (window : Z * Z) : bool :=
  match at_ with
  | None => false
  | Some m =>
      let '(start, stop) := window in
      if (start <=? stop)%Z then (start <=? m)%Z && (m <=? stop)%Z
      else (start <=? m)%Z || (m <=? stop)%Z
  end.

(** [if wanted and not (wanted & held)]. *)
Definition lacks (wanted held : gset string) : bool :=
  bool_decide (wanted <> ∅) && bool_decide (wanted ∩ held = ∅).

(** [if wanted and value not in wanted]. *)
Definition excludes (wanted : gset string) (value : string) : bool :=
  bool_decide (wanted <> ∅) && bool_decide (value ∉ wanted).

Definition matches (rule : Rule) (request : Request) : bool :=
  let subject := rq_subject request in
  let resource := rq_resource request in
  if lacks (ru_entitlements rule) (su_entitlements subject) then false
  else if lacks (ru_affiliations rule) (su_affiliations subject) then false
  else if lacks (ru_roles rule) (su_roles subject) then false
  else if excludes (ru_actions rule) (rq_action request) then false
  else if excludes (ru_resources rule) (re_id resource) then false
  else if negb (String.eqb (ru_resource_prefix rule) "")
          && negb (Py.startswith (re_id resource) (ru_resource_prefix rule)) then false
  else if excludes (ru_classifications rule) (re_classification resource) then false
  else if excludes (ru_networks rule) (en_network (rq_environment request)) then false
  else match ru_between rule with
       | Some window => _within (en_at (rq_environment request)) window
       | None => true
       end.

Definition _stronger (left right : string) : string :=
  if (assurance_rank right <=? assurance_rank left)%Z then left else right.

Definition required_assurance (rule : Rule) (resource : Resource) : string :=
  let demanded := ru_assurance rule in
  if re_requires_aal2 resource then _stronger demanded AAL2 else demanded.

Definition _falls_short (held demanded : string) : bool :=
  if String.eqb demanded "" then false
  else (assurance_rank held <? assurance_rank demanded)%Z.

(** [a or b] on strings. *)
Definition str_or (a b : string) : string := if String.eqb a "" then b else a.

Definition _decided (effect : Effect) (rule : Rule) (reason : string) : Decision :=
  {| de_effect := effect; de_rule_id := ru_id rule; de_reason := reason;
     de_required_assurance := None |}.

Definition has_effect (e : Effect) (rule : Rule) : bool := bool_decide (ru_effect rule = e).

(** [PolicySet.decide]: the first matching deny, else the first matching
    permit, else the default. *)
Definition decide (rules : list Rule) (request : Request) : Decision :=
  let matched := List.filter (fun rule => matches rule request) rules in
  match List.find (has_effect DENY) matched with
  | Some rule => _decided DENY rule (str_or (ru_description rule) "denied by policy")
  | None =>
      match List.find (has_effect PERMIT) matched with
      | Some rule =>
          let demanded := required_assurance rule (rq_resource request) in
          let held := su_assurance (rq_subject request) in
          if _falls_short held demanded then
            {| de_effect := CHALLENGE; de_rule_id := ru_id rule;
               de_reason := demanded +:+ " required, session is " +:+ held;
               de_required_assurance := Some demanded |}
          else _decided PERMIT rule (str_or (ru_description rule) "permitted")
      | None =>
          {| de_effect := DENY; de_rule_id := DEFAULT_RULE;
             de_reason := "no rule permitted this request"; de_required_assurance := None |}
      end
  end.

(** The attribute names of [campusid/policy/attributes.py]. *)
Definition ENTITLEMENT := "urn:oid:1.3.6.1.4.1.5923.1.1.1.7".
Definition SCOPED_AFFILIATION := "urn:oid:1.3.6.1.4.1.5923.1.1.1.9".

Definition get_list (attributes : gmap string (list string)) (k : string) : list string :=
  default [] (attributes !! k).

Definition subject_from (attributes : gmap string (list string)) (assurance : string) : Subject :=
  {| su_entitlements := list_to_set (get_list attributes ENTITLEMENT);
     su_affiliations :=
       list_to_set (Py.before_char "@" <$> get_list attributes SCOPED_AFFILIATION);
     su_roles := ∅; su_assurance := assurance; su_person_uuid := None |}.

(** ** Loading a policy file *)

(** [UnhashableType] is the [TypeError] of looking a list or a mapping up in a
    set. *)
Inductive load_error : Type := AuthorizationPolicyError | UnhashableType.

Definition VALID_ASSURANCE : list string := [""; AAL1; AAL2].

Section loader.
(** [time.fromisoformat(str(value))]. *)
Context (time_of : json -> option Z).

Definition _names (value : json) : result load_error (gset string) :=
  match value with
  | JNull => Ok ∅
  | JArr l => match Json.strings l with
              | Some names => Ok (list_to_set names)
              | None => Err AuthorizationPolicyError
              end
  | _ => Err AuthorizationPolicyError
  end.

Definition _text (value : json) : result load_error string :=
  match value with
  | JNull => Ok ""
  | JStr s => Ok s
  | _ => Err AuthorizationPolicyError
  end.

Definition _window (value : json) : result load_error (option (Z * Z)) :=
  match value with
  | JNull => Ok None
  | JArr [a; b] =>
      match time_of a, time_of b with
      | Some start, Some stop => Ok (Some (start, stop))
      | _, _ => Err AuthorizationPolicyError
      end
  | _ => Err AuthorizationPolicyError
  end.

Definition _rule (entry : json) : result load_error Rule :=
  match entry with
  | JObj m =>
      match Json.get m "id" with
      | JStr rule_id =>
          raise* AuthorizationPolicyError when String.eqb rule_id "";
          let* effect := (match Json.get m "effect" with
                          | JStr s => if String.eqb s "permit" then Ok PERMIT
                                      else if String.eqb s "deny" then Ok DENY
                                      else Err AuthorizationPolicyError
                          | _ => Err AuthorizationPolicyError
                          end) in
          let* assurance := (match default (JStr "") (Json.lookup m "assurance") with
                             | JStr a => if existsb (String.eqb a) VALID_ASSURANCE then Ok a
                                         else Err AuthorizationPolicyError
                             | JArr _ | JObj _ => Err UnhashableType
                             | _ => Err AuthorizationPolicyError
                             end) in
          let* description := _text (Json.get m "description") in
          let* entitlements := _names (Json.get m "entitlements") in
          let* affiliations := _names (Json.get m "affiliations") in
          let* roles := _names (Json.get m "roles") in
          let* actions := _names (Json.get m "actions") in
          let* resources := _names (Json.get m "resources") in
          let* resource_prefix := _text (Json.get m "resource_prefix") in
          let* classifications := _names (Json.get m "classifications") in
          let* networks := _names (Json.get m "networks") in
          let* between := _window (Json.get m "between") in
          Ok {| ru_id := rule_id; ru_effect := effect; ru_description := description;
                ru_entitlements := entitlements; ru_affiliations := affiliations;
                ru_roles := roles; ru_actions := actions; ru_resources := resources;
                ru_resource_prefix := resource_prefix; ru_classifications := classifications;
                ru_networks := networks; ru_between := between; ru_assurance := assurance |}
      | _ => Err AuthorizationPolicyError
      end
  | _ => Err AuthorizationPolicyError
  end.

(** The loop over the entries; [seen] holds the ids read so far. *)
Fixpoint load_rules (entries : list json) (seen : list string) : result load_error (list Rule) :=
  match entries with
  | [] => Ok []
  | entry :: rest =>
      let* rule := _rule entry in
      raise* AuthorizationPolicyError when existsb (String.eqb (ru_id rule)) seen;
      let* rules := load_rules rest (ru_id rule :: seen) in
      Ok (rule :: rules)
  end.

(** The file as [yaml.safe_load] reads it, or nothing when it cannot be read. *)
Definition load_policies (document : option json) : result load_error (list Rule) :=
  match document with
  | Some (JObj m) =>
      match Json.get m "rules" with
      | JArr (entry :: rest) => load_rules (entry :: rest) []
      | _ => Err AuthorizationPolicyError
      end
  | _ => Err AuthorizationPolicyError
  end.

(** ** The store that follows the file *)

(** The file on disk: its modification time and what it reads as. *)
Record disk : Type := { mtime : option Z; document : option json }.

Record EngineStore : Type := {
  fingerprint : option Z;
  current_rules : list Rule;
}.

(** A file that is refused leaves the store as it is; any other exception
    leaves [reload]. *)
Definition reload (d : disk) (s : EngineStore) : EngineStore * result load_error unit :=
  match load_policies (document d) with
  | Err AuthorizationPolicyError => (s, Ok tt)
  | Err e => (s, Err e)
  | Ok loaded => ({| fingerprint := mtime d; current_rules := loaded |}, Ok tt)
  end.

(** [PolicyEngineStore.__init__]. *)
Definition open_store (d : disk) : EngineStore * result load_error unit :=
  reload d {| fingerprint := None; current_rules := [] |}.

(** The [current] property: the store afterwards, and the rules in force. *)
Definition current (d : disk) (s : EngineStore) : EngineStore * result load_error (list Rule) :=
  if bool_decide (mtime d = fingerprint s) then (s, Ok (current_rules s))
  else let '(s', o) := reload d s in
       (s', let* _ := o in Ok (current_rules s')).
End loader.

(** ** Properties of the combination *)

(** [rule] speaks to [request] with effect [e]. *)
Definition speaks (e : Effect) (rules : list Rule) (request : Request) : Prop :=
  exists rule, rule ∈ rules /\ matches rule request = true /\ ru_effect rule = e.

Lemma find_matched e rules request :
  match List.find (has_effect e) (List.filter (fun rule => matches rule request) rules) with
  | Some rule => rule ∈ rules /\ matches rule request = true /\ ru_effect rule = e
  | None => ~ speaks e rules request
  end.
Proof.
  destruct (List.find _ _) as [rule|] eqn:E.
  - apply find_some in E as [Hin He]. apply filter_In in Hin as [Hin Hm].
    unfold has_effect in He. bool_prop. by apply list_elem_of_In in Hin.
  - intros (rule & Hin & Hm & He).
    eapply find_none in E; [|apply filter_In; split; [by apply list_elem_of_In|exact Hm]].
    unfold has_effect in E. by bool_prop.
Qed.

(** The decision is a deny exactly when some matching rule denies or none
    permits. *)
Lemma decide_deny rules request :
  de_effect (decide rules request) = DENY <->
    speaks DENY rules request \/ ~ speaks PERMIT rules request.
Proof.
  unfold decide. pose proof (find_matched DENY rules request) as Hd.
  pose proof (find_matched PERMIT rules request) as Hp.
  destruct (List.find (has_effect DENY) _) as [rd|].
  { split; [|done]. intros _. left. by exists rd. }
  destruct (List.find (has_effect PERMIT) _) as [rp|].
  - destruct (_falls_short _ _); (split; [done|]); intros [?|Hn]; [done| |done|]; destruct Hn; by exists rp.
  - split; [by right|done].
Qed.

Lemma speaks_perm e rules rules' request :
  rules ≡ₚ rules' -> speaks e rules request <-> speaks e rules' request.
Proof. intros Hp. unfold speaks. by setoid_rewrite Hp. Qed.

(** C26: Deny overrides, whatever the order.  The decision denies exactly when
    some matching rule denies or no matching rule permits; in particular
    reordering the policy file never turns a denial into anything else nor
    anything else into a denial. *)
Theorem deny_overrides (rules rules' : list Rule) (request : Request) :
  (de_effect (decide rules request) = DENY <->
     speaks DENY rules request \/ ~ speaks PERMIT rules request) /\
  (rules ≡ₚ rules' ->
     de_effect (decide rules request) = DENY <-> de_effect (decide rules' request) = DENY).
Proof.
  split; [apply decide_deny|]. intros Hp. rewrite !decide_deny.
  by rewrite !(speaks_perm _ rules rules' request Hp).
Qed.

(** Every decision names what made it.  It names a rule of the policy that
    matches the request and has the effect decided (a permit for a challenge),
    or the default, and then nothing matching permits. *)
Theorem decision_names_its_rule (rules : list Rule) (request : Request) :
  let d := decide rules request in
  (exists rule, rule ∈ rules /\ matches rule request = true /\ de_rule_id d = ru_id rule /\
     ru_effect rule = (if decide_rel (=) (de_effect d) DENY then DENY else PERMIT)) \/
  (de_rule_id d = DEFAULT_RULE /\ de_effect d = DENY /\
     ~ speaks PERMIT rules request /\ ~ speaks DENY rules request).
Proof.
  cbv zeta. unfold decide. pose proof (find_matched DENY rules request) as Hd.
  pose proof (find_matched PERMIT rules request) as Hp.
  destruct (List.find (has_effect DENY) _) as [rd|]; [left; exists rd; simpl; by destruct Hd as (? & ? & ?)|].
  destruct (List.find (has_effect PERMIT) _) as [rp|]; [|by right].
  left. exists rp. destruct Hp as (? & ? & ?). by destruct (_falls_short _ _).
Qed.

Lemma assurance_rank_top a : assurance_rank a = 2%Z -> a = AAL2.
Proof.
  unfold assurance_rank. destruct (String.eqb a AAL1); [done|].
  destruct (String.eqb a AAL2) eqn:E; [|done]. by bool_prop.
Qed.

Lemma assurance_rank_range a : (0 <= assurance_rank a <= 2)%Z.
Proof. unfold assurance_rank. repeat case_match; lia. Qed.

(** C34: A resource that requires two factors is never reached with one.  A
    permit on such a resource means the session's assurance is AAL2, whatever
    the rule that permitted demands; a request short of it is challenged for
    AAL2, not denied, when some rule would have permitted it. *)
Theorem aal2_resource_needs_aal2 (rules : list Rule) (request : Request) :
  re_requires_aal2 (rq_resource request) = true ->
  (allowed (decide rules request) = true -> su_assurance (rq_subject request) = AAL2) /\
  (su_assurance (rq_subject request) <> AAL2 ->
   ~ speaks DENY rules request -> speaks PERMIT rules request ->
   de_effect (decide rules request) = CHALLENGE /\
   de_required_assurance (decide rules request) = Some AAL2).
Proof.
  intros Hr. set (held := su_assurance (rq_subject request)).
  assert (forall rule, required_assurance rule (rq_resource request) = AAL2) as Hreq.
  { intros rule. unfold required_assurance, _stronger. rewrite Hr.
    destruct (Z.leb_spec (assurance_rank AAL2) (assurance_rank (ru_assurance rule))); [|done].
    apply assurance_rank_top. pose proof (assurance_rank_range (ru_assurance rule)).
    change (assurance_rank AAL2) with 2%Z in *. lia. }
  assert (_falls_short held AAL2 = true <-> held <> AAL2) as Hshort.
  { unfold _falls_short. change (assurance_rank AAL2) with 2%Z. simpl.
    pose proof (assurance_rank_range held). rewrite Z.ltb_lt. split.
    - intros Hlt ->. change (assurance_rank AAL2) with 2%Z in Hlt. lia.
    - intros Hne. destruct (decide_rel Z.lt (assurance_rank held) 2%Z); [done|].
      destruct Hne. apply assurance_rank_top. lia. }
  unfold decide, allowed. pose proof (find_matched DENY rules request) as Hd.
  pose proof (find_matched PERMIT rules request) as Hp.
  destruct (List.find (has_effect DENY) _) as [rd|].
  { split; [done|]. intros _ Hn. destruct Hn. by exists rd. }
  destruct (List.find (has_effect PERMIT) _) as [rp|]; [|done].
  rewrite Hreq. fold held. destruct (_falls_short held AAL2) eqn:E; [done|].
  split.
  - intros _. destruct (decide_rel (=) held AAL2); [done|]. assert (false = true) by by apply Hshort. done.
  - intros Hne. apply Hshort in Hne. done.
Qed.

(** Adding a deny rule, anywhere in the file, never widens access: whatever
    is permitted with it was permitted without it, by the same rule. *)
Theorem deny_rule_only_restricts (before after : list Rule) (rule : Rule) (request : Request) :
  ru_effect rule = DENY ->
  allowed (decide (before ++ rule :: after) request) = true ->
  decide (before ++ after) request = decide (before ++ rule :: after) request.
Proof.
  intros He Ha. unfold decide in *. rewrite !List.filter_app in *. cbn [List.filter] in *.
  destruct (matches rule request); [|done]. exfalso.
  set (ma := List.filter _ after) in *. set (mb := List.filter _ before) in *.
  destruct (List.find (has_effect DENY) (mb ++ rule :: ma)) eqn:E; [done|].
  eapply find_none in E; [|apply in_or_app; right; left; reflexivity].
  unfold has_effect in E. by bool_prop.
Qed.

(** *** Order does matter between a permit and a challenge *)

Definition demo_request : Request :=
  {| rq_subject := {| su_entitlements := ∅; su_affiliations := {["staff"]}; su_roles := ∅;
                      su_assurance := AAL1; su_person_uuid := None |};
     rq_resource := {| re_id := "payroll"; re_classification := "internal"; re_requires_aal2 := false |};
     rq_action := "read"; rq_environment := {| en_network := ""; en_at := None |} |}.

Definition demo_permit (id assurance : string) : Rule :=
  {| ru_id := id; ru_effect := PERMIT; ru_description := ""; ru_entitlements := ∅;
     ru_affiliations := {["staff"]}; ru_roles := ∅; ru_actions := ∅; ru_resources := ∅;
     ru_resource_prefix := ""; ru_classifications := ∅; ru_networks := ∅; ru_between := None;
     ru_assurance := assurance |}.

(** The order of permits is part of a policy's meaning.  Two permits that
    both match and demand different assurance give a permit in one order and a
    challenge in the other. *)
Theorem permit_order_matters :
  let a := demo_permit "weak" "" in
  let b := demo_permit "strong" AAL2 in
  de_effect (decide [a; b] demo_request) = PERMIT /\
  de_effect (decide [b; a] demo_request) = CHALLENGE.
Proof. vm_compute. done. Qed.

(** When the matching permits agree on the assurance they demand, the whole
    effect is independent of the order of the policy file. *)
Theorem agreeing_permits_any_order (rules rules' : list Rule) (request : Request) (demanded : string) :
  rules ≡ₚ rules' ->
  (forall rule, rule ∈ rules -> matches rule request = true -> ru_effect rule = PERMIT ->
     required_assurance rule (rq_resource request) = demanded) ->
  de_effect (decide rules request) = de_effect (decide rules' request).
Proof.
  intros Hp Hag.
  assert (de_effect (decide rules request) = DENY <-> de_effect (decide rules' request) = DENY) as Hd.
  { rewrite !decide_deny. by rewrite !(speaks_perm _ rules rules' request Hp). }
  assert (forall rule, rule ∈ rules' -> matches rule request = true -> ru_effect rule = PERMIT ->
     required_assurance rule (rq_resource request) = demanded) as Hag'.
  { intros rule Hin. apply Hag. by rewrite Hp. }
  unfold decide in *.
  pose proof (find_matched PERMIT rules request) as H1. pose proof (find_matched PERMIT rules' request) as H2.
  destruct (List.find (has_effect DENY) _) as [rd|]; [symmetry; by apply Hd|].
  destruct (List.find (has_effect DENY) (List.filter _ rules')) as [rd|]; [by apply Hd|].
  destruct (List.find (has_effect PERMIT) (List.filter _ rules)) as [rp|],
    (List.find (has_effect PERMIT) (List.filter _ rules')) as [rp'|]; [|by apply Hd|by symmetry; apply Hd|done].
  rewrite (Hag rp), (Hag' rp') by naive_solver.
  clear. by destruct (_falls_short _ _).
Qed.

(** ** The time window *)

Definition DAY : Z := 86400 * SECOND.

(** A window that wraps midnight is read as overnight.  For times of day, a
    moment is inside the window exactly when walking forward from the start one
    meets it no later than the end, across midnight if need be; an unobserved
    time is outside every window. *)
Theorem within_wraps_midnight (m start stop : Z) :
  (0 <= m < DAY)%Z -> (0 <= start < DAY)%Z -> (0 <= stop < DAY)%Z ->
  _within (Some m) (start, stop) =
    ((m - start) mod DAY <=? (stop - start) mod DAY)%Z /\
  _within None (start, stop) = false.
Proof.
  intros Hm Hs He. split; [|done]. unfold _within.
  assert (forall x, (0 <= x < DAY)%Z ->
    ((x - start) mod DAY = if start <=? x then x - start else x - start + DAY)%Z) as Hmod.
  { intros x Hx. destruct (Z.leb_spec start x).
    - apply Z.mod_small. lia.
    - rewrite <- (Z.mod_add _ 1) by (unfold DAY, SECOND; lia). apply Z.mod_small. lia. }
  rewrite !Hmod by done.
  destruct (Z.leb_spec start stop), (Z.leb_spec start m); simpl;
    destruct (Z.leb_spec m stop); symmetry; try (apply Z.leb_le; lia); apply Z.leb_gt; lia.
Qed.

(** ** Properties of loading *)

Section loading.
Context (time_of : json -> option Z).

Definition rule_ok (rule : Rule) : Prop :=
  ru_id rule <> "" /\ ru_effect rule <> CHALLENGE /\ ru_assurance rule ∈ VALID_ASSURANCE.

Lemma _rule_ok entry rule : _rule time_of entry = Ok rule -> rule_ok rule.
Proof.
  unfold _rule. destruct entry as [| | | | | | |m]; try done.
  destruct (Json.get m "id") as [| | | |rid| | |]; try done.
  destruct (String.eqb rid "") eqn:Eid; [done|]. intros H.
  apply rbind_ok in H as (eff & Heff & H). apply rbind_ok in H as (ass & Hass & H).
  repeat (apply rbind_ok in H as (? & _ & H)). injection H as <-. bool_prop.
  split; [done|]. split; simpl.
  - destruct (Json.get m "effect"); try done. by repeat (case_match; simplify_eq).
  - destruct (default _ _); try done. destruct (existsb _ _) eqn:E; [|done]. injection Hass as <-.
    apply existsb_exists in E as (y & Hy & E). bool_prop. subst y. by apply list_elem_of_In.
Qed.

Lemma load_rules_ok entries seen rules :
  load_rules time_of entries seen = Ok rules ->
  Forall rule_ok rules /\ NoDup (ru_id <$> rules) /\
  Forall (fun rule => ru_id rule ∉ seen) rules /\ length rules = length entries.
Proof.
  revert seen rules. induction entries as [|entry rest IH]; intros seen rules; simpl.
  { intros [= <-]. by repeat constructor. }
  intros H. apply rbind_ok in H as (rule & Hrule & H).
  destruct (existsb _ seen) eqn:E; [done|]. apply rbind_ok in H as (rs & Hrs & [= <-]).
  apply IH in Hrs as (Hok & Hnd & Hns & Hlen). apply _rule_ok in Hrule.
  assert (ru_id rule ∉ seen) as Hn.
  { intros Hin. assert (existsb (String.eqb (ru_id rule)) seen = true); [|congruence].
    apply existsb_exists. exists (ru_id rule). split; [by apply list_elem_of_In|apply String.eqb_refl]. }
  split_and!.
  - by constructor.
  - rewrite fmap_cons. constructor; [|done]. intros (r' & E' & Hin)%list_elem_of_fmap.
    rewrite Forall_forall in Hns. apply Hns in Hin. set_solver.
  - constructor; [done|]. eapply Forall_impl; [exact Hns|]. set_solver.
  - simpl. by rewrite Hlen.
Qed.

(** A policy that loads can be trusted to be readable.  It has at least one
    rule, its rule ids are non-empty and distinct, no rule is written as a
    challenge and every assurance is one the engine can compare. *)
Theorem loaded_policy_wellformed (document : option json) (rules : list Rule) :
  load_policies time_of document = Ok rules ->
  rules <> [] /\ NoDup (ru_id <$> rules) /\ Forall rule_ok rules.
Proof.
  unfold load_policies. destruct document as [[| | | | | | |m]|]; try done.
  destruct (Json.get m "rules") as [| | | | | |[|entry rest]|]; try done.
  intros H. apply load_rules_ok in H as (Hok & Hnd & _ & Hlen).
  split_and!; [by destruct rules|done|done].
Qed.

(** The store after reading the policy at each of these moments of the disk. *)
Fixpoint observe (s : EngineStore) (ds : list disk) : EngineStore :=
  match ds with
  | [] => s
  | d :: ds' => observe (current time_of d s).1 ds'
  end.

(** The rules are the empty policy or those of a file that loaded. *)
Definition good_among (seen : list disk) (s : EngineStore) : Prop :=
  current_rules s = [] \/
  exists d, d ∈ seen /\ load_policies time_of (document d) = Ok (current_rules s).

Lemma good_reload seen d s : good_among seen s -> good_among (seen ++ [d]) (reload time_of d s).1.
Proof.
  intros Hs. unfold reload.
  destruct (load_policies time_of (document d)) as [rs|[]] eqn:E; simpl.
  - right. exists d. split; [set_solver|done].
  - destruct Hs as [?|(d' & ? & ?)]; [by left|right; exists d'; split; [set_solver|done]].
  - destruct Hs as [?|(d' & ? & ?)]; [by left|right; exists d'; split; [set_solver|done]].
Qed.

Lemma good_current seen d s : good_among seen s -> good_among (seen ++ [d]) (current time_of d s).1.
Proof.
  intros Hs. apply (good_reload _ d) in Hs as Hr. unfold current. case_bool_decide.
  - destruct Hs as [?|(d' & ? & ?)]; [by left|right; exists d'; split; [set_solver|done]].
  - by destruct (reload time_of d s).
Qed.

Lemma good_observe ds seen s : good_among seen s -> good_among (seen ++ ds) (observe s ds).
Proof.
  revert seen s. induction ds as [|d ds IH]; intros seen s Hs; simpl; [by rewrite app_nil_r|].
  replace (seen ++ d :: ds) with ((seen ++ [d]) ++ ds) by by rewrite <- app_assoc.
  by apply IH, good_current.
Qed.

(** The last good policy stays in force.  However the file changes and
    whatever is written to it, the rules in force at every reading are those of
    some file that loaded, or the empty, deny-everything policy when none ever
    did; a file that loads and has a new modification time is in force at the
    next reading, and one that is refused changes nothing. *)
Theorem last_good_policy (d0 : disk) (ds : list disk) (d : disk) :
  let s := observe (open_store time_of d0).1 ds in
  good_among (d0 :: ds) s /\
  (forall rules, load_policies time_of (document d) = Ok rules -> mtime d <> fingerprint s ->
     (current time_of d s).2 = Ok rules) /\
  (load_policies time_of (document d) = Err AuthorizationPolicyError ->
     current time_of d s = (s, Ok (current_rules s))).
Proof.
  cbv zeta. set (s := observe _ _). split_and!.
  - apply (good_observe ds [d0]), (good_reload []). by left.
  - intros rules Hl Hm. unfold current. rewrite bool_decide_false by done. unfold reload. by rewrite Hl.
  - intros Hl. unfold current, reload. rewrite Hl. by case_bool_decide.
Qed.
End loading.

(** ** Witnesses *)

Section witnesses.

Definition demo_times (j : json) : option Z := None.

Definition demo_document : json :=
  JObj [("rules", JArr [JObj [("id", JStr "r1"); ("effect", JStr "permit");
    ("affiliations", JArr [JStr "staff"])]])].

(** A rule file whose assurance is a list. *)
Definition unhashable_document : json :=
  JObj [("rules", JArr [JObj [("id", JStr "r1"); ("effect", JStr "permit");
    ("assurance", JArr [JStr AAL2])]])].

(** One mistake is not survived.  An [assurance] written as a list is not
    refused as a bad policy file: reading the policy raises, so a store that
    already holds a good policy answers with an error instead of keeping it. *)
Theorem unhashable_assurance_escapes :
  let good := {| mtime := Some 1%Z; document := Some demo_document |} in
  let bad := {| mtime := Some 2%Z; document := Some unhashable_document |} in
  let s := (open_store demo_times good).1 in
  length (current_rules s) = 1%nat /\ (current demo_times bad s).2 = Err UnhashableType.
Proof. vm_compute. done. Qed.

Lemma loaded_policy_wellformed_witness :
  exists rules, load_policies demo_times (Some demo_document) = Ok rules /\ NoDup (ru_id <$> rules).
Proof.
  eexists. split; [vm_compute; reflexivity|].
  refine (proj1 (proj2 (loaded_policy_wellformed demo_times (Some demo_document) _ _))).
  vm_compute. reflexivity.
Defined.

Definition demo_aal2_request : Request :=
  {| rq_subject := rq_subject demo_request;
     rq_resource := {| re_id := "payroll"; re_classification := "internal"; re_requires_aal2 := true |};
     rq_action := "read"; rq_environment := rq_environment demo_request |}.

Lemma aal2_resource_needs_aal2_witness :
  de_effect (decide [demo_permit "weak" ""] demo_aal2_request) = CHALLENGE.
Proof.
  apply (aal2_resource_needs_aal2 [demo_permit "weak" ""] demo_aal2_request eq_refl).
  - done.
  - intros (rule & Hin & _ & He). apply list_elem_of_singleton in Hin. by subst rule.
  - exists (demo_permit "weak" ""). split; [by apply list_elem_of_singleton|]. vm_compute. done.
Defined.

Definition demo_deny : Rule :=
  {| ru_id := "deny-vpn"; ru_effect := DENY; ru_description := ""; ru_entitlements := ∅;
     ru_affiliations := ∅; ru_roles := ∅; ru_actions := ∅; ru_resources := {["vpn"]};
     ru_resource_prefix := ""; ru_classifications := ∅; ru_networks := ∅; ru_between := None;
     ru_assurance := "" |}.

Lemma deny_rule_only_restricts_witness :
  decide ([] ++ [demo_permit "weak" ""]) demo_request =
  decide ([] ++ demo_deny :: [demo_permit "weak" ""]) demo_request.
Proof.
  apply (deny_rule_only_restricts [] [demo_permit "weak" ""] demo_deny demo_request eq_refl).
  vm_compute. reflexivity.
Defined.

Lemma deny_overrides_witness :
  de_effect (decide [demo_permit "weak" ""; demo_deny] demo_request) = DENY <->
  de_effect (decide [demo_deny; demo_permit "weak" ""] demo_request) = DENY.
Proof.
  apply (deny_overrides [demo_permit "weak" ""; demo_deny] [demo_deny; demo_permit "weak" ""] demo_request).
  constructor.
Defined.

Lemma agreeing_permits_any_order_witness :
  de_effect (decide [demo_permit "a" AAL2; demo_permit "b" AAL2] demo_request) =
  de_effect (decide [demo_permit "b" AAL2; demo_permit "a" AAL2] demo_request).
Proof.
  apply (agreeing_permits_any_order [demo_permit "a" AAL2; demo_permit "b" AAL2]
    [demo_permit "b" AAL2; demo_permit "a" AAL2] demo_request AAL2); [constructor|].
  intros rule [->|[->|[]%elem_of_nil]%elem_of_cons]%elem_of_cons _ _; reflexivity.
Defined.

Lemma within_wraps_midnight_witness :
  _within (Some (23 * 3600 * SECOND)%Z) (22 * 3600 * SECOND, 6 * 3600 * SECOND)%Z = true.
Proof.
  destruct (within_wraps_midnight (23 * 3600 * SECOND) (22 * 3600 * SECOND) (6 * 3600 * SECOND))
    as [W _]; [vm_compute; done..|].
  etransitivity; [exact W|]. vm_compute. reflexivity.
Defined.

Lemma last_good_policy_witness :
  let good := {| mtime := Some 1%Z; document := Some demo_document |} in
  (current demo_times {| mtime := Some 2%Z; document := Some (JStr "oops") |}
     (observe demo_times (open_store demo_times good).1 [])).2 =
  Ok (current_rules (open_store demo_times good).1).
Proof.
  cbv zeta.
  destruct (last_good_policy demo_times {| mtime := Some 1%Z; document := Some demo_document |} []
    {| mtime := Some 2%Z; document := Some (JStr "oops") |}) as (_ & _ & W).
  by rewrite W.
Defined.
End witnesses.

End Authz.
