(* ===== verification/Assurance.v ===== *)
(** * Assurance and enrolment

    [campusid/mfa/assurance.py]: what [amr] and [acr] may claim, and
    [campusid/mfa/enrolment.py]: who must enrol a second factor.  A Python set
    that is sorted before use is the sorted list without repetitions. *)

From S2P Require Import Prelude PyStr Authz.

Module Assurance.

Definition PWD := "pwd".
Definition OTP := "otp".
Definition HWK := "hwk".
Definition PUSH := "push".
Definition RECOVERY := "recovery".
Definition MFA := "mfa".

Definition FACTOR_CATEGORIES : list string := [PWD; OTP; HWK; PUSH; RECOVERY].

Definition MAX_SPAN : duration := 12 * 3600 * SECOND.

Record Assurance : Type := { acr : string; amr : list string; auth_time : moment }.

(** [tuple(sorted({...}))]. *)
Definition sorted_set (l : list string) : list string := merge_sort String.le (remove_dups l).

Definition _normalise (methods : list string) : list string :=
  sorted_set (List.filter (fun m => negb (String.eqb m "") && negb (String.eqb m MFA)) methods).

Definition primary (methods : list string) (at_ : moment) : Assurance :=
  {| acr := Authz.AAL1; amr := _normalise methods; auth_time := at_ |}.

(** The distinct factor categories among the methods. *)
Definition categories (methods : list string) : list string :=
  remove_dups (List.filter (fun m => bool_decide (m ∈ FACTOR_CATEGORIES)) methods).

Definition elevated (methods : list string) (category : string) (since now : moment) (max_span : duration)
  : Assurance :=
  let combined := _normalise (methods ++ [category]) in
  if (length (categories combined) <? 2)%nat || (max_span <? now - since)%Z
  then {| acr := Authz.AAL1; amr := combined; auth_time := now |}
  else {| acr := Authz.AAL2; amr := sorted_set (combined ++ [MFA]); auth_time := now |}.

Definition satisfies_aal2 (methods : list string) : bool := (2 <=? length (categories methods))%nat.

(** ** Enrolment *)

Record Requirement : Type := { required : bool; reasons : list string }.

(** The held names a table marks [requires_aal2]; a name it does not know
    demands nothing. *)
Definition demanding (held : list string) (requires_aal2 : string -> option bool) : list string :=
  List.filter (fun urn => match requires_aal2 urn with Some b => b | None => false end) held.
Definition _demanding := demanding.
Definition _roles_demanding := demanding.

Definition requirement (entitlements roles : list string) (rules catalogue : string -> option bool)
    (has_factor : bool) : Requirement :=
  let reasons := sorted_set (_demanding entitlements rules ++ _roles_demanding roles catalogue) in
  {| required := negb (bool_decide (reasons = [])) && negb has_factor; reasons := reasons |}.

(** ** What the claims mean *)

Lemma elem_of_sorted_set x l : x ∈ sorted_set l <-> x ∈ l.
Proof. unfold sorted_set. by rewrite merge_sort_Permutation, elem_of_remove_dups. Qed.

Lemma elem_of_normalise x l : x ∈ _normalise l <-> x ∈ l /\ x <> "" /\ x <> MFA.
Proof.
  unfold _normalise. rewrite elem_of_sorted_set, !list_elem_of_In, filter_In, andb_true_iff, !negb_true_iff.
  by rewrite !String.eqb_neq.
Qed.

Lemma elem_of_categories x l : x ∈ categories l <-> x ∈ l /\ x ∈ FACTOR_CATEGORIES.
Proof.
  unfold categories. rewrite elem_of_remove_dups, !list_elem_of_In, filter_In, bool_decide_eq_true.
  by rewrite list_elem_of_In.
Qed.

Lemma categories_ext l l' :
  (forall x, x ∈ FACTOR_CATEGORIES -> x ∈ l <-> x ∈ l') -> length (categories l) = length (categories l').
Proof.
  intros H. apply Permutation_length, NoDup_Permutation; [apply NoDup_remove_dups..|].
  intros x. rewrite !elem_of_categories. naive_solver.
Qed.

Lemma mfa_no_category : MFA ∉ FACTOR_CATEGORIES /\ "" ∉ FACTOR_CATEGORIES.
Proof. unfold FACTOR_CATEGORIES. split; rewrite !elem_of_cons, elem_of_nil; naive_solver. Qed.

Lemma two_categories l :
  (2 <= length (categories l))%nat <->
  exists a b, a <> b /\ a ∈ l /\ b ∈ l /\ a ∈ FACTOR_CATEGORIES /\ b ∈ FACTOR_CATEGORIES.
Proof.
  split.
  - pose proof (elem_of_categories) as He. destruct (categories l) as [|a [|b r]] eqn:E; cbn; [lia..|].
    intros _. exists a, b.
    assert (NoDup (categories l)) as Hn by apply NoDup_remove_dups. rewrite E in Hn.
    apply NoDup_cons in Hn as [Ha _].
    assert (a ∈ categories l) as (? & ?)%He by (rewrite E; constructor).
    assert (b ∈ categories l) as (? & ?)%He by (rewrite E; do 2 constructor).
    split_and!; try done. intros ->. apply Ha. constructor.
  - intros (a & b & Hne & Ha & Hb & Hca & Hcb).
    assert (a ∈ categories l) as Ha' by (by apply elem_of_categories).
    assert (b ∈ categories l) as Hb' by (by apply elem_of_categories).
    destruct (categories l) as [|x [|y r]]; [by apply elem_of_nil in Ha'| |cbn; lia].
    apply list_elem_of_singleton in Ha', Hb'. congruence.
Qed.

(** [aal2] and [mfa] are claimed exactly on the evidence.  After a second
    factor the session claims [aal2] if and only if the methods it recorded and
    the new one name two different factor categories within the span; [mfa] is
    in [amr] in exactly those cases, every other method of [amr] was presented,
    and the claim agrees with the check that reads the [amr] alone. *)
Theorem aal2_needs_two_categories (methods : list string) (category : string) (since now : moment)
    (max_span : duration) :
  let a := elevated methods category since now max_span in
  (acr a = Authz.AAL2 <->
     (now - since <= max_span)%Z /\
     exists x y, x <> y /\ x ∈ methods ++ [category] /\ y ∈ methods ++ [category] /\
       x ∈ FACTOR_CATEGORIES /\ y ∈ FACTOR_CATEGORIES) /\
  (MFA ∈ amr a <-> acr a = Authz.AAL2) /\
  (forall m, m ∈ amr a -> m <> MFA -> m ∈ methods ++ [category]) /\
  (acr a = Authz.AAL2 -> satisfies_aal2 (amr a) = true) /\
  auth_time a = now.
Proof.
  cbv zeta. unfold elevated, satisfies_aal2. set (combined := _normalise (methods ++ [category])).
  destruct mfa_no_category as [Hm He].
  assert (forall x, x ∈ FACTOR_CATEGORIES -> x ∈ combined <-> x ∈ methods ++ [category]) as Hc.
  { intros x Hx. subst combined. rewrite elem_of_normalise. split; [by intros [? _]|].
    intros ?. split_and!; [done|by intros ->|by intros ->]. }
  rewrite (categories_ext combined (methods ++ [category]) Hc).
  assert (MFA ∉ combined) as Hnm by (subst combined; rewrite elem_of_normalise; naive_solver).
  destruct (_ || _) eqn:Eb; cbn [acr amr auth_time].
  - split_and!; [|split; [intros ?; done|discriminate]| |discriminate|done].
    + split; [discriminate|]. intros [Hs Hxy]. apply two_categories in Hxy.
      apply orb_true_iff in Eb as [Eb|Eb]; [apply Nat.ltb_lt in Eb; lia|bool_prop; lia].
    + intros m Hin _. subst combined. by apply elem_of_normalise in Hin as [? _].
  - bool_prop. apply Nat.ltb_ge in H. split_and!; [| | | |done].
    + split; [intros _|done]. split; [done|]. by apply two_categories.
    + split; [done|]. intros _. apply elem_of_sorted_set, elem_of_app. right. constructor.
    + intros m Hin Hne. apply elem_of_sorted_set, elem_of_app in Hin as [Hin|Hin%list_elem_of_singleton]; [|done].
      subst combined. by apply elem_of_normalise in Hin as [? _].
    + intros _. apply Nat.leb_le. rewrite (categories_ext _ (methods ++ [category])); [done|].
      intros x Hx. rewrite elem_of_sorted_set, elem_of_app, Hc by done.
      split; [|by left]. intros [?| ->%list_elem_of_singleton]; done.
Qed.

(** The requirement names exactly the marked entitlements and roles held, and
    asks for enrolment exactly when there are any and no factor is confirmed. *)
Lemma requirement_spec entitlements roles rules catalogue has_factor :
  let q := requirement entitlements roles rules catalogue has_factor in
  (forall x, x ∈ reasons q <-> (x ∈ entitlements /\ rules x = Some true) \/ (x ∈ roles /\ catalogue x = Some true)) /\
  (required q = true <-> has_factor = false /\ exists x, x ∈ reasons q).
Proof.
  cbv zeta. cbn [reasons required requirement]. split.
  - intros x. rewrite elem_of_sorted_set, elem_of_app. unfold _demanding, _roles_demanding, demanding.
    rewrite !list_elem_of_In, !filter_In.
    destruct (rules x) as [[]|], (catalogue x) as [[]|]; naive_solver.
  - rewrite andb_true_iff, !negb_true_iff, bool_decide_eq_false. split; intros [H1 H2].
    + split; [done|]. destruct (sorted_set _) as [|y l]; [done|]. exists y. constructor.
    + split; [|done]. intros E. destruct H2 as [x Hx]. rewrite E in Hx. by apply elem_of_nil in Hx.
Qed.

End Assurance.
