(* ===== verification/Cbor.v ===== *)
(** * CBOR

    [campusid/mfa/cbor.py]: the partial decoder WebAuthn structures go through.
    [encode] is the canonical encoding the decoder is measured against; the
    theorems say the decoder accepts exactly the canonical encodings, so a value
    has one accepted spelling, and that it terminates on every input. *)

From S2P Require Import Prelude PyStr Base64.

Module Cbor.

(** ** Values *)

Inductive value : Type :=
| Int (z : Z)
| Bytes (s : string)
| Text (s : string)
| Array (items : list value)
| Map (entries : list (value * value))
| Bool (b : bool)
| Null.

(** The reasons the decoder gives; [Exhausted] is the model's own, for a loop
    that ran out of the bound put on it, and never happens. *)
Inductive CborError : Type :=
| TooDeep | OutOfInput | NotUtf8 | BadKey | DuplicateKey | UnsupportedSimple | UnsupportedMajor
| IndefiniteLength | ReservedInformation | NotShortest | Truncated | Trailing | Exhausted.

Definition MAX_DEPTH : nat := 16.

Definition UNSIGNED := 0%Z.
Definition NEGATIVE := 1%Z.
Definition BYTES := 2%Z.
Definition TEXT := 3%Z.
Definition ARRAY := 4%Z.
Definition MAP := 5%Z.
Definition SIMPLE := 7%Z.
Definition FALSE := 20%Z.
Definition TRUE := 21%Z.
Definition NULL := 22%Z.

(** ** UTF-8

    [bytes.decode("utf-8")]: no overlong forms, no surrogates, nothing above
    U+10FFFF. *)
Definition byte (c : ascii) : Z := Z.of_nat (nat_of_ascii c).
Definition cont (c : ascii) : bool := (128 <=? byte c)%Z && (byte c <=? 191)%Z.
Definition between (a : Z) (c : ascii) (b : Z) : bool := (a <=? byte c)%Z && (byte c <=? b)%Z.

Fixpoint utf8_valid (s : string) : bool :=
  match s with
  | EmptyString => true
  | String a s1 =>
      if (byte a <? 128)%Z then utf8_valid s1
      else match s1 with
      | EmptyString => false
      | String b s2 =>
          if between 194 a 223 then cont b && utf8_valid s2
          else match s2 with
          | EmptyString => false
          | String c s3 =>
              if between 224 a 239 then
                (if (byte a =? 224)%Z then between 160 b 191
                 else if (byte a =? 237)%Z then between 128 b 159 else cont b) &&
                cont c && utf8_valid s3
              else match s3 with
              | EmptyString => false
              | String d s4 =>
                  between 240 a 244 &&
                  (if (byte a =? 240)%Z then between 144 b 191
                   else if (byte a =? 244)%Z then between 128 b 143 else cont b) &&
                  cont c && cont d && utf8_valid s4
              end
          end
      end
  end.

(** ** Reading *)

Fixpoint be (acc : Z) (s : string) : Z :=
  match s with
  | EmptyString => acc
  | String c s' => be (acc * 256 + byte c) s'
  end.

(** [MINIMUM]. *)
Definition MINIMUM (minor : Z) : Z :=
  if (minor =? 24)%Z then 24 else if (minor =? 25)%Z then 2 ^ 8
  else if (minor =? 26)%Z then 2 ^ 16 else 2 ^ 32.

Definition _shortest (v minor : Z) : result CborError unit :=
  if (v <? MINIMUM minor)%Z then Err NotShortest else Ok tt.

Definition _take (data : string) (offset : nat) (len : Z) : result CborError string :=
  if (Z.of_nat (String.length data) <? Z.of_nat offset + len)%Z then Err Truncated
  else Ok (Py.take (Z.to_nat len) (Py.drop offset data)).

(** An argument in [n] bytes after the initial one. *)
Definition wide (data : string) (offset : nat) (minor : Z) (n : nat) : result CborError (Z * nat) :=
  let* chunk := _take data (offset + 1) (Z.of_nat n) in
  let* _ := _shortest (be 0 chunk) minor in
  Ok (be 0 chunk, (offset + 1 + n)%nat).

Definition _argument (data : string) (offset : nat) (minor : Z) : result CborError (Z * nat) :=
  if (minor <? 24)%Z then Ok (minor, (offset + 1)%nat)
  else if (minor =? 24)%Z then wide data offset minor 1
  else if (minor =? 25)%Z then wide data offset minor 2
  else if (minor =? 26)%Z then wide data offset minor 4
  else if (minor =? 27)%Z then wide data offset minor 8
  else if (minor =? 31)%Z then Err IndefiniteLength
  else Err ReservedInformation.

(** Python's equality of the keys a map may have: a [bool] is an [int]. *)
Definition key_eqb (a b : value) : bool :=
  let int v := match v with Int z => Some z | Bool b => Some (if b then 1 else 0)%Z | _ => None end in
  match a, b with
  | Bytes s, Bytes s' | Text s, Text s' => String.eqb s s'
  | _, _ => match int a, int b with Some x, Some y => (x =? y)%Z | _, _ => false end
  end.

(** [isinstance(key, int | str | bytes)]. *)
Definition is_key (v : value) : bool :=
  match v with Int _ | Bool _ | Text _ | Bytes _ => true | _ => false end.

(** [key in mapping]. *)
Definition has_key (k : value) (m : list (value * value)) : bool :=
  existsb (fun e => key_eqb k e.1) m.

Section loops.
Variable item : nat -> result CborError (value * nat).

(** [for _ in range(count)] of an array; [bound] limits the iterations. *)
Fixpoint array_loop (bound : nat) (count : Z) (offset : nat) (acc : list value)
  : result CborError (list value * nat) :=
  if (count <=? 0)%Z then Ok (acc, offset)
  else match bound with
       | O => Err Exhausted
       | S bound' =>
           let* r := item offset in
           array_loop bound' (count - 1) r.2 (acc ++ [r.1])
       end.

Fixpoint map_loop (bound : nat) (count : Z) (offset : nat) (acc : list (value * value))
  : result CborError (list (value * value) * nat) :=
  if (count <=? 0)%Z then Ok (acc, offset)
  else match bound with
       | O => Err Exhausted
       | S bound' =>
           let* k := item offset in
           raise* BadKey when negb (is_key k.1);
           raise* DuplicateKey when has_key k.1 acc;
           let* v := item k.2 in
           map_loop bound' (count - 1) v.2 (acc ++ [(k.1, v.1)])
       end.
End loops.

(** [left] is [MAX_DEPTH + 1 - depth]. *)
Fixpoint _item (left : nat) (data : string) (offset : nat) : result CborError (value * nat) :=
  match left with
  | O => Err TooDeep
  | S left' =>
      match Py.drop offset data with
      | EmptyString => Err OutOfInput
      | String c _ =>
          let initial := byte c in
          let major := Z.shiftr initial 5 in
          let minor := Z.land initial 31 in
          if (major =? UNSIGNED)%Z || (major =? NEGATIVE)%Z then
            let* a := _argument data offset minor in
            Ok (Int (if (major =? UNSIGNED)%Z then a.1 else -1 - a.1)%Z, a.2)
          else if (major =? BYTES)%Z || (major =? TEXT)%Z then
            let* a := _argument data offset minor in
            let* chunk := _take data a.2 a.1 in
            if (major =? BYTES)%Z then Ok (Bytes chunk, (a.2 + Z.to_nat a.1)%nat)
            else if utf8_valid chunk then Ok (Text chunk, (a.2 + Z.to_nat a.1)%nat)
            else Err NotUtf8
          else if (major =? ARRAY)%Z then
            let* a := _argument data offset minor in
            let* r := array_loop (_item left' data) (S (String.length data)) a.1 a.2 [] in
            Ok (Array r.1, r.2)
          else if (major =? MAP)%Z then
            let* a := _argument data offset minor in
            let* r := map_loop (_item left' data) (S (String.length data)) a.1 a.2 [] in
            Ok (Map r.1, r.2)
          else if (major =? SIMPLE)%Z then
            if (minor =? FALSE)%Z then Ok (Bool false, (offset + 1)%nat)
            else if (minor =? TRUE)%Z then Ok (Bool true, (offset + 1)%nat)
            else if (minor =? NULL)%Z then Ok (Null, (offset + 1)%nat)
            else Err UnsupportedSimple
          else Err UnsupportedMajor
      end
  end.

Definition decode_prefix (data : string) : result CborError (value * nat) :=
  _item (S MAX_DEPTH) data 0.

Definition decode (data : string) : result CborError value :=
  let* r := decode_prefix data in
  raise* Trailing when negb (Nat.eqb r.2 (String.length data));
  Ok r.1.

(** ** The canonical encoding *)

Fixpoint be_bytes (n : nat) (z : Z) : string :=
  match n with
  | O => EmptyString
  | S n' => be_bytes n' (z / 256) +:+ String (ascii_of_nat (Z.to_nat (z mod 256))) EmptyString
  end.

Definition initial (major minor : Z) : ascii := ascii_of_nat (Z.to_nat (major * 32 + minor)).

Definition header (major v : Z) : string :=
  if (v <? 24)%Z then String (initial major v) ""
  else if (v <? 2 ^ 8)%Z then String (initial major 24) (be_bytes 1 v)
  else if (v <? 2 ^ 16)%Z then String (initial major 25) (be_bytes 2 v)
  else if (v <? 2 ^ 32)%Z then String (initial major 26) (be_bytes 4 v)
  else String (initial major 27) (be_bytes 8 v).

Fixpoint encode (v : value) : string :=
  match v with
  | Int z => if (0 <=? z)%Z then header UNSIGNED z else header NEGATIVE (-1 - z)
  | Bytes s => header BYTES (Z.of_nat (String.length s)) +:+ s
  | Text s => header TEXT (Z.of_nat (String.length s)) +:+ s
  | Array l => header ARRAY (Z.of_nat (length l)) +:+ foldr String.append "" (map encode l)
  | Map l => header MAP (Z.of_nat (length l)) +:+
      foldr String.append "" (map (fun e => encode e.1 +:+ encode e.2) l)
  | Bool b => String (initial SIMPLE (if b then TRUE else FALSE)) ""
  | Null => String (initial SIMPLE NULL) ""
  end.

(** The keys of a map are admissible and no two are equal. *)
Fixpoint keys_ok (acc l : list (value * value)) : Prop :=
  match l with
  | [] => True
  | e :: l' => is_key e.1 = true /\ has_key e.1 acc = false /\ keys_ok (acc ++ [e]) l'
  end.

(** What the decoder can produce at a nesting of at most [left]. *)
Fixpoint encodable (left : nat) (v : value) : Prop :=
  match left with
  | O => False
  | S left' =>
      match v with
      | Int z => (- 2 ^ 64 <= z < 2 ^ 64)%Z
      | Bytes s => (Z.of_nat (String.length s) < 2 ^ 64)%Z
      | Text s => (Z.of_nat (String.length s) < 2 ^ 64)%Z /\ utf8_valid s = true
      | Array l => (Z.of_nat (length l) < 2 ^ 64)%Z /\ Forall (encodable left') l
      | Map l => (Z.of_nat (length l) < 2 ^ 64)%Z /\ keys_ok [] l /\
          Forall (fun e => encodable left' e.1 /\ encodable left' e.2) l
      | Bool _ | Null => True
      end
  end.

(** ** Bytes *)

Lemma drop_drop n m s : Py.drop n (Py.drop m s) = Py.drop (m + n) s.
Proof.
  revert s. induction m as [|m IH]; intros s; [done|]. destruct s as [|c s]; cbn; [by destruct n|apply IH].
Qed.

Lemma drop_length n s : String.length (Py.drop n s) = (String.length s - n)%nat.
Proof. revert s. induction n as [|n IH]; intros [|c s]; cbn; [done..|apply IH]. Qed.

Lemma take_length n s : String.length (Py.take n s) = Nat.min n (String.length s).
Proof. revert s. induction n as [|n IH]; intros [|c s]; cbn; [done..|]. by rewrite IH. Qed.

Lemma take_app a b : Py.take (String.length a) (a +:+ b) = a.
Proof. induction a as [|c a IH]; [by destruct b|]. rewrite Py.app_String. cbn. by rewrite IH. Qed.

(** What follows a prefix found at an offset. *)
Lemma drop_prefix data offset s rest :
  Py.drop offset data = s +:+ rest -> rest = Py.drop (offset + String.length s) data.
Proof. intros E. by rewrite <- drop_drop, E, Py.drop_app. Qed.

Lemma drop_prefix_le data offset s rest :
  Py.drop offset data = s +:+ rest -> (0 < String.length s)%nat ->
  (offset + String.length s <= String.length data)%nat.
Proof.
  intros E Hs. pose proof (drop_length offset data) as L. rewrite E, Py.length_app in L. lia.
Qed.

Lemma byte_range c : (0 <= byte c < 256)%Z.
Proof. unfold byte. pose proof (nat_ascii_bounded c). lia. Qed.

Lemma byte_of z : (0 <= z < 256)%Z -> byte (ascii_of_nat (Z.to_nat z)) = z.
Proof. intros H. unfold byte. rewrite nat_ascii_embedding; lia. Qed.

Lemma of_byte c : ascii_of_nat (Z.to_nat (byte c)) = c.
Proof. unfold byte. by rewrite Nat2Z.id, ascii_nat_embedding. Qed.

Lemma be_snoc acc s c : be acc (s +:+ String c "") = (be acc s * 256 + byte c)%Z.
Proof. revert acc. induction s as [|d s IH]; intros acc; [done|]. rewrite Py.app_String. cbn [be]. apply IH. Qed.

Lemma be_bytes_length n z : String.length (be_bytes n z) = n.
Proof.
  revert z. induction n as [|n IH]; intros z; [done|]. cbn [be_bytes]. rewrite Py.length_app, IH. cbn. lia.
Qed.

Lemma be_be_bytes n z : (0 <= z < 256 ^ Z.of_nat n)%Z -> be 0 (be_bytes n z) = z.
Proof.
  revert z. induction n as [|n IH]; intros z Hz; [cbn in *; lia|].
  cbn [be_bytes]. rewrite be_snoc, byte_of by (apply Z.mod_pos_bound; lia).
  rewrite IH; [pose proof (Z.div_mod z 256); lia|].
  replace (Z.of_nat (S n)) with (Z.of_nat n + 1)%Z in Hz by lia. rewrite Z.pow_add_r in Hz by lia.
  split; [apply Z.div_pos; lia|]. apply Z.div_lt_upper_bound; lia.
Qed.

Lemma snoc_string n s : String.length s = S n -> exists s' c, s = s' +:+ String c "" /\ String.length s' = n.
Proof.
  revert n. induction s as [|c s IH]; intros n Hn; [done|]. cbn in Hn.
  destruct n as [|n]; [destruct s; [|done]; by exists "", c|].
  destruct (IH n ltac:(lia)) as (s' & d & -> & Hs). exists (String c s'), d. split; [done|]. cbn. lia.
Qed.

Lemma be_range n s : String.length s = n ->
  (0 <= be 0 s < 256 ^ Z.of_nat n)%Z /\ be_bytes n (be 0 s) = s.
Proof.
  revert s. induction n as [|n IH]; intros s Hs.
  - destruct s; [|done]. by cbn.
  - destruct (snoc_string n s Hs) as (s' & c & -> & Hs'). destruct (IH s' Hs') as [[H0 H1] H2].
    pose proof (byte_range c). rewrite be_snoc. split.
    + replace (Z.of_nat (S n)) with (Z.of_nat n + 1)%Z by lia. rewrite Z.pow_add_r by lia. lia.
    + cbn [be_bytes]. rewrite Z.div_add_l, Z.div_small, Z.add_0_r, H2 by lia. f_equal. f_equal.
      rewrite Z.add_comm, Z.mod_add, Z.mod_small by lia. apply of_byte.
Qed.

(** ** The initial byte *)

Lemma initial_split c :
  (0 <= Z.shiftr (byte c) 5 < 8)%Z /\ (0 <= Z.land (byte c) 31 < 32)%Z /\
  initial (Z.shiftr (byte c) 5) (Z.land (byte c) 31) = c.
Proof.
  pose proof (byte_range c). rewrite Z.shiftr_div_pow2 by lia. change 31%Z with (Z.ones 5).
  rewrite Z.land_ones by lia. change (2 ^ 5)%Z with 32%Z.
  split_and!; [apply Z.div_pos; lia|apply Z.div_lt_upper_bound; lia|apply Z.mod_pos_bound; lia..|].
  unfold initial. rewrite Z.mul_comm, <- Z.div_mod by lia. apply of_byte.
Qed.

Lemma split_initial major minor : (0 <= major < 8)%Z -> (0 <= minor < 32)%Z ->
  Z.shiftr (byte (initial major minor)) 5 = major /\ Z.land (byte (initial major minor)) 31 = minor.
Proof.
  intros HM Hm. unfold initial. rewrite byte_of by lia. rewrite Z.shiftr_div_pow2 by lia.
  change 31%Z with (Z.ones 5). rewrite Z.land_ones by lia. change (2 ^ 5)%Z with 32%Z. split.
  - rewrite Z.div_add_l, Z.div_small by lia. lia.
  - rewrite Z.add_comm, Z.mod_add, Z.mod_small by lia. done.
Qed.

Lemma header_nonempty major v : exists c s, header major v = String c s.
Proof. unfold header. repeat destruct (_ <? _)%Z; eauto. Qed.

Lemma header_length major v : (0 < String.length (header major v))%nat.
Proof. destruct (header_nonempty major v) as (c & s & ->). cbn. lia. Qed.

(** ** Arguments *)

Lemma take_spec data offset len chunk :
  (0 <= len)%Z -> (offset <= String.length data)%nat -> _take data offset len = Ok chunk <->
  (Py.drop offset data = chunk +:+ Py.drop (offset + Z.to_nat len) data /\
   String.length chunk = Z.to_nat len).
Proof.
  intros Hl Ho. unfold _take.
  destruct (Z.ltb_spec (Z.of_nat (String.length data)) (Z.of_nat offset + len)) as [Hlt|Hge].
  - split; [done|]. intros [E L]. pose proof (drop_length offset data) as D.
    rewrite E, Py.length_app in D. lia.
  - split.
    + intros [= <-]. split; [by rewrite <- drop_drop, Py.take_drop|].
      rewrite take_length, drop_length. lia.
    + intros [E L]. rewrite E, <- L, take_app. done.
Qed.

Lemma wide_spec data offset c s0 minor n v off' :
  Py.drop offset data = String c s0 ->
  wide data offset minor n = Ok (v, off') <->
  (MINIMUM minor <= v)%Z /\ (0 <= v < 256 ^ Z.of_nat n)%Z /\ off' = (offset + 1 + n)%nat /\
  Py.drop offset data = String c (be_bytes n v) +:+ Py.drop off' data.
Proof.
  intros E. assert (Py.drop (offset + 1) data = s0) as E1 by (rewrite <- drop_drop, E; done).
  assert (offset + 1 <= String.length data)%nat as Ho
    by (apply (drop_prefix_le _ _ (String c "") s0); [by rewrite E|cbn; lia]).
  unfold wide, _shortest. rewrite rbind_ok. split.
  - intros (chunk & Ht & H). apply take_spec in Ht as [Hd Hl]; [|lia..]. rewrite Nat2Z.id in *.
    apply rbind_ok in H as ([] & Hs & [= <- <-]). destruct (Z.ltb_spec (be 0 chunk) (MINIMUM minor)); [done|].
    destruct (be_range n chunk Hl) as [Hr Hb]. split_and!; [lia|lia|lia|done|].
    rewrite Hb, Py.app_String, E, <- Hd, E1. done.
  - intros (Hm & Hr & -> & Hd). rewrite Hd in E. rewrite Py.app_String in E. injection E as Es.
    exists (be_bytes n v). split.
    + apply take_spec; [lia..|]. rewrite Nat2Z.id. by rewrite E1, be_bytes_length, <- Es.
    + rewrite be_be_bytes by done. destruct (Z.ltb_spec v (MINIMUM minor)); [lia|]. done.
Qed.

Lemma argument_sound data offset c s0 v off' :
  Py.drop offset data = String c s0 ->
  _argument data offset (Z.land (byte c) 31) = Ok (v, off') ->
  (0 <= v < 2 ^ 64)%Z /\
  Py.drop offset data = header (Z.shiftr (byte c) 5) v +:+ Py.drop off' data /\
  off' = (offset + String.length (header (Z.shiftr (byte c) 5) v))%nat.
Proof.
  intros E. destruct (initial_split c) as (HM & Hm & Hc). revert HM Hm Hc.
  generalize (Z.shiftr (byte c) 5) as M, (Z.land (byte c) 31) as m. intros M m HM Hm <-.
  unfold _argument. destruct (Z.ltb_spec m 24).
  { intros [= <- <-]. unfold header. destruct (Z.ltb_spec m 24); [|lia]. split; [lia|]. split; [|done].
    by rewrite <- drop_drop, E. }
  unfold header.
  repeat match goal with |- context [(m =? ?k)%Z] => destruct (Z.eqb_spec m k) as [->|]; try done end.
  all: intros (Hmin & Hr & -> & Hd)%(wide_spec _ _ _ _ _ _ _ _ E); cbn [MINIMUM] in Hmin;
    unfold MINIMUM in Hmin; cbn [Z.eqb Pos.eqb] in Hmin; cbn in Hr;
    repeat match goal with |- context [(?x <? ?k)%Z] => destruct (Z.ltb_spec x k); [lia|] end;
    try match goal with |- context [(?x <? ?k)%Z] => destruct (Z.ltb_spec x k); [|lia] end;
    rewrite Hd at 1; cbn [String.length]; rewrite be_bytes_length; (split; [lia|]); (split; [done|lia]).
Qed.

Lemma argument_complete data offset major v rest :
  (0 <= major < 8)%Z -> (0 <= v < 2 ^ 64)%Z ->
  Py.drop offset data = header major v +:+ rest ->
  exists c s0, Py.drop offset data = String c s0 /\ Z.shiftr (byte c) 5 = major /\
    _argument data offset (Z.land (byte c) 31) =
      Ok (v, (offset + String.length (header major v))%nat).
Proof.
  intros HM Hv E. pose proof (drop_prefix _ _ _ _ E) as Er. revert E Er. unfold header, _argument.
  assert (forall m n, (0 <= m < 32)%Z -> (MINIMUM m <= v)%Z -> (v < 256 ^ Z.of_nat n)%Z ->
    Py.drop offset data = String (initial major m) (be_bytes n v) +:+ rest ->
    rest = Py.drop (offset + String.length (String (initial major m) (be_bytes n v))) data ->
    exists c s0, Py.drop offset data = String c s0 /\ Z.shiftr (byte c) 5 = major /\
      Z.land (byte c) 31 = m /\ wide data offset m n = Ok (v, (offset + S n)%nat)) as Hw.
  { intros m n Hm Hmin Hlt E Er. destruct (split_initial major m HM Hm) as [H1 H2].
    eexists _, _. split; [exact E|]. split; [exact H1|]. split; [exact H2|].
    cbn [String.length] in Er. rewrite be_bytes_length in Er.
    apply (wide_spec _ _ (initial major m) (be_bytes n v +:+ rest)); [exact E|].
    split_and!; [lia|lia|lia|lia|]. rewrite E. f_equal. rewrite Er. f_equal. }
  destruct (Z.ltb_spec v 24).
  { intros E _. destruct (split_initial major v HM ltac:(lia)) as [H1 H2].
    eexists _, _. split; [exact E|]. split; [exact H1|]. rewrite H2.
    destruct (Z.ltb_spec v 24); [done|lia]. }
  destruct (Z.ltb_spec v (2 ^ 8)); [|destruct (Z.ltb_spec v (2 ^ 16)); [|destruct (Z.ltb_spec v (2 ^ 32))]];
    intros E Er; [destruct (Hw 24%Z 1%nat) as (c & s0 & Ec & HM' & Hm' & Hk)
                 |destruct (Hw 25%Z 2%nat) as (c & s0 & Ec & HM' & Hm' & Hk)
                 |destruct (Hw 26%Z 4%nat) as (c & s0 & Ec & HM' & Hm' & Hk)
                 |destruct (Hw 27%Z 8%nat) as (c & s0 & Ec & HM' & Hm' & Hk)];
    try done; try (unfold MINIMUM; cbn [Z.eqb Pos.eqb]; lia); try (cbn; lia);
    exists c, s0; (split; [exact Ec|]); (split; [exact HM'|]); rewrite Hm'; cbn [Z.ltb Z.compare Pos.compare Pos.compare_cont Z.eqb Pos.eqb];
    rewrite Hk; cbn [String.length]; rewrite be_bytes_length; done.
Qed.

Notation sjoin := (foldr String.append "").

Lemma sjoin_app l l' : sjoin (l ++ l') = sjoin l +:+ sjoin l'.
Proof. induction l as [|x l IH]; [done|]. cbn. by rewrite IH, Py.app_assoc. Qed.

Lemma encode_pos v : (0 < String.length (encode v))%nat.
Proof.
  destruct v as [z|s|s|l|l|b|]; cbn [encode]; try (cbn; lia);
    [destruct (0 <=? z)%Z; apply header_length|..]; rewrite Py.length_app;
    match goal with |- context [header ?M ?v] => pose proof (header_length M v) end; lia.
Qed.

(** A reader of items: it consumes exactly the encoding of what it returns. *)
Definition reads (data : string) (ok : value -> Prop) (item : nat -> result CborError (value * nat)) : Prop :=
  forall offset v off', item offset = Ok (v, off') ->
    Py.drop offset data = encode v +:+ Py.drop off' data /\
    off' = (offset + String.length (encode v))%nat /\ ok v.

Lemma array_loop_sound data ok item bound count offset acc l off' :
  reads data ok item -> (0 <= count)%Z ->
  array_loop item bound count offset acc = Ok (l, off') ->
  exists l', l = acc ++ l' /\ Z.of_nat (length l') = count /\ Forall ok l' /\
    Py.drop offset data = sjoin (map encode l') +:+ Py.drop off' data /\
    off' = (offset + String.length (sjoin (map encode l')))%nat.
Proof.
  intros Hr. revert count offset acc. induction bound as [|bound IH]; intros count offset acc Hc H; cbn in H.
  all: destruct (Z.leb_spec count 0); [injection H as <- <-; exists []; rewrite app_nil_r; split_and!; [done|cbn; lia|done|done|cbn; lia]|].
  { done. }
  apply rbind_ok in H as ([v o] & Hi & H). apply Hr in Hi as (Hd & -> & Hok). cbn [fst snd] in H.
  apply IH in H as (l' & -> & Hl & Hf & Hd' & ->); [|lia].
  exists (v :: l'). rewrite <- app_assoc. split_and!; [done|cbn; lia|by constructor| |].
  - cbn. rewrite Hd, Hd'. by rewrite Py.app_assoc.
  - cbn. rewrite Py.length_app. lia.
Qed.

Lemma map_loop_sound data ok item bound count offset acc l off' :
  reads data ok item -> (0 <= count)%Z ->
  map_loop item bound count offset acc = Ok (l, off') ->
  exists l', l = acc ++ l' /\ Z.of_nat (length l') = count /\
    Forall (fun e => ok e.1 /\ ok e.2) l' /\ keys_ok acc l' /\
    Py.drop offset data = sjoin (map (fun e => encode e.1 +:+ encode e.2) l') +:+ Py.drop off' data /\
    off' = (offset + String.length (sjoin (map (fun e => encode e.1 +:+ encode e.2) l')))%nat.
Proof.
  intros Hr. revert count offset acc. induction bound as [|bound IH]; intros count offset acc Hc H; cbn in H.
  all: destruct (Z.leb_spec count 0); [injection H as <- <-; exists []; rewrite app_nil_r; split_and!; [done|cbn; lia|done|done|done|cbn; lia]|].
  { done. }
  apply rbind_ok in H as ([k o] & Hi & H). apply Hr in Hi as (Hd & -> & Hok). cbn [fst snd] in H.
  destruct (is_key k) eqn:Ek; [|done]. cbn [negb] in H. destruct (has_key k acc) eqn:Eh; [done|].
  apply rbind_ok in H as ([v o] & Hi & H). apply Hr in Hi as (Hd2 & -> & Hok2). cbn [fst snd] in H.
  apply IH in H as (l' & -> & Hl & Hf & Hk & Hd' & ->); [|lia].
  exists ((k, v) :: l'). rewrite <- app_assoc. split_and!; [done|cbn; lia|by constructor|done| |].
  - cbn. rewrite Hd, Hd2, Hd'. by rewrite !Py.app_assoc.
  - cbn. rewrite !Py.length_app. lia.
Qed.

Lemma major_cases M : (0 <= M < 8)%Z ->
  M = 0%Z \/ M = 1%Z \/ M = 2%Z \/ M = 3%Z \/ M = 4%Z \/ M = 5%Z \/ M = 6%Z \/ M = 7%Z.
Proof. lia. Qed.

Lemma item_sound data left : reads data (encodable left) (_item left data).
Proof.
  induction left as [|left IH]; intros offset v off' H; [done|]. cbn [_item] in H.
  destruct (Py.drop offset data) as [|c s0] eqn:E; [done|].
  destruct (initial_split c) as (HM & Hm & Hc). pose proof (argument_sound data offset c s0) as Harg.
  revert Harg HM Hm Hc H. generalize (Z.land (byte c) 31) as m. intros m Harg HM Hm Hc.
  pose proof (fun v o => Harg v o E) as Ha. clear Harg. rewrite E in Ha. revert Ha Hc.
  destruct (major_cases _ HM) as [->|[->|[->|[->|[->|[->|[->| ->]]]]]]]; intros Ha Hc H;
    unfold UNSIGNED, NEGATIVE, BYTES, TEXT, ARRAY, MAP, SIMPLE in H; cbn [Z.eqb Pos.eqb orb] in H; try done.
  - apply rbind_ok in H as ([a o] & Hx & H). injection H as <- <-.
    apply Ha in Hx as (Hr & Hd & ->). cbn [fst snd encode encodable]. destruct (Z.leb_spec 0 a); [|lia].
    split_and!; [done|done|lia..].
  - apply rbind_ok in H as ([a o] & Hx & H). injection H as <- <-.
    apply Ha in Hx as (Hr & Hd & ->). cbn [fst snd encode encodable].
    destruct (Z.leb_spec 0 (-1 - a)); [lia|]. replace (-1 - (-1 - a))%Z with a by lia.
    split_and!; [done|done|lia..].
  - apply rbind_ok in H as ([a o] & Hx & H). apply rbind_ok in H as (chunk & Ht & H). injection H as <- <-.
    apply Ha in Hx as (Hr & Hd & ->). cbn [fst snd] in *.
    pose proof (drop_prefix_le data offset (header 2 a) _ ltac:(by rewrite E) (header_length 2 a)) as Ho.
    apply take_spec in Ht as [Hd' Hl]; [|lia|exact Ho]. cbn [encode encodable]; unfold BYTES, TEXT.
    replace (Z.of_nat (String.length chunk)) with a by lia.
    split_and!; [by rewrite Hd, Hd', Py.app_assoc|rewrite Py.length_app; lia|lia].
  - apply rbind_ok in H as ([a o] & Hx & H). apply rbind_ok in H as (chunk & Ht & H).
    destruct (utf8_valid chunk) eqn:Eu; [|done]. injection H as <- <-.
    apply Ha in Hx as (Hr & Hd & ->). cbn [fst snd] in *.
    pose proof (drop_prefix_le data offset (header 3 a) _ ltac:(by rewrite E) (header_length 3 a)) as Ho.
    apply take_spec in Ht as [Hd' Hl]; [|lia|exact Ho]. cbn [encode encodable]; unfold BYTES, TEXT.
    replace (Z.of_nat (String.length chunk)) with a by lia.
    split_and!; [by rewrite Hd, Hd', Py.app_assoc|rewrite Py.length_app; lia|lia|done].
  - apply rbind_ok in H as ([a o] & Hx & H). apply rbind_ok in H as ([l o'] & Ht & H). injection H as <- <-.
    apply Ha in Hx as (Hr & Hd & ->). cbn [fst snd] in *.
    apply (array_loop_sound data (encodable left)) in Ht as (l' & -> & Hl & Hf & Hd' & ->); [|done|lia].
    cbn [app encode encodable]; unfold ARRAY, MAP. rewrite Hl.
    split_and!; [by rewrite Hd, Hd', Py.app_assoc|rewrite Py.length_app; lia|lia|done].
  - apply rbind_ok in H as ([a o] & Hx & H). apply rbind_ok in H as ([l o'] & Ht & H). injection H as <- <-.
    apply Ha in Hx as (Hr & Hd & ->). cbn [fst snd] in *.
    apply (map_loop_sound data (encodable left)) in Ht as (l' & -> & Hl & Hf & Hk & Hd' & ->); [|done|lia].
    cbn [app encode encodable]; unfold ARRAY, MAP. rewrite Hl.
    split_and!; [by rewrite Hd, Hd', Py.app_assoc|rewrite Py.length_app; lia|lia|done|done].
  - repeat match type of H with context [(m =? ?k)%Z] => destruct (Z.eqb_spec m k) as [->|]; [injection H as <- <-|] end;
      [| | |done]; cbn [encode encodable]; rewrite <- drop_drop, E; cbn;
      (split_and!; [|cbn; lia|done]); rewrite Py.app_String, Py.app_nil_l; f_equal; exact (eq_sym Hc).
Qed.

(** ** Completeness *)

(** A reader accepts the encoding of every admissible value. *)
Definition accepts (data : string) (ok : value -> Prop) (item : nat -> result CborError (value * nat)) : Prop :=
  forall offset v rest, ok v -> Py.drop offset data = encode v +:+ rest ->
    item offset = Ok (v, (offset + String.length (encode v))%nat).

Lemma array_loop_complete data ok item bound offset acc l rest :
  accepts data ok item -> Forall ok l -> (length l <= bound)%nat ->
  Py.drop offset data = sjoin (map encode l) +:+ rest ->
  array_loop item bound (Z.of_nat (length l)) offset acc =
    Ok (acc ++ l, (offset + String.length (sjoin (map encode l)))%nat).
Proof.
  intros Ha Hf. revert bound offset acc. induction Hf as [|v l Hv Hf IH]; intros bound offset acc Hb E.
  - rewrite app_nil_r. cbn. rewrite Nat.add_0_r. by destruct bound.
  - destruct bound as [|bound]; [cbn in Hb; lia|]. cbn [array_loop].
    destruct (Z.leb_spec (Z.of_nat (length (v :: l))) 0); [cbn in *; lia|].
    cbn [map foldr] in E. rewrite Py.app_assoc in E. rewrite (Ha offset v _ Hv E). cbn [rbind fst snd].
    replace (Z.of_nat (length (v :: l)) - 1)%Z with (Z.of_nat (length l)) by (cbn; lia).
    rewrite (IH bound (offset + String.length (encode v))%nat);
      [|cbn in Hb; lia|symmetry; by apply drop_prefix].
    rewrite <- app_assoc. cbn [app map foldr]. rewrite Py.length_app. do 2 f_equal. lia.
Qed.

Lemma map_loop_complete data ok item bound offset acc l rest :
  accepts data ok item -> Forall (fun e => ok e.1 /\ ok e.2) l -> keys_ok acc l ->
  (length l <= bound)%nat ->
  Py.drop offset data = sjoin (map (fun e => encode e.1 +:+ encode e.2) l) +:+ rest ->
  map_loop item bound (Z.of_nat (length l)) offset acc =
    Ok (acc ++ l, (offset + String.length (sjoin (map (fun e => encode e.1 +:+ encode e.2) l)))%nat).
Proof.
  intros Ha Hf. revert bound offset acc.
  induction Hf as [|[k v] l [Hk Hv] Hf IH]; intros bound offset acc Hks Hb E.
  - rewrite app_nil_r. cbn. rewrite Nat.add_0_r. by destruct bound.
  - destruct bound as [|bound]; [cbn in Hb; lia|]. cbn [map_loop].
    destruct (Z.leb_spec (Z.of_nat (length ((k, v) :: l))) 0); [cbn in *; lia|].
    cbn [map foldr fst snd] in E, Hk, Hv. rewrite !Py.app_assoc in E. destruct Hks as (Hik & Hhk & Hks).
    rewrite (Ha offset k _ Hk E). cbn [rbind fst snd] in *. rewrite Hik, Hhk. cbn [negb].
    pose proof (drop_prefix _ _ _ _ E) as E2. rewrite (Ha _ v _ Hv (eq_sym E2)). cbn [rbind fst snd].
    replace (Z.of_nat (length ((k, v) :: l)) - 1)%Z with (Z.of_nat (length l)) by (cbn; lia).
    rewrite (IH bound); [|done|cbn in Hb; lia|symmetry; apply drop_prefix; by symmetry].
    rewrite <- app_assoc. cbn [app map foldr fst snd]. rewrite !Py.length_app. do 2 f_equal. lia.
Qed.

Lemma sjoin_length {A} (f : A -> string) l :
  (forall x, 0 < String.length (f x))%nat -> (length l <= String.length (sjoin (map f l)))%nat.
Proof.
  intros Hf. induction l as [|x l IH]; [done|]. cbn. rewrite Py.length_app. specialize (Hf x). lia.
Qed.

Lemma item_complete data left : accepts data (encodable left) (_item left data).
Proof.
  induction left as [|left IH]; intros offset v rest Hv E; [done|].
  destruct v as [z|s|s|l|l|b|]; cbn [encodable encode] in Hv, E |- *.
  - destruct (Z.leb_spec 0 z).
    + destruct (argument_complete data offset UNSIGNED z rest) as (c & s0 & Ec & HM & Ha); [done|lia|done|].
      cbn [_item]. rewrite Ec, HM. unfold UNSIGNED, NEGATIVE in *. cbn [Z.eqb Pos.eqb orb]. by rewrite Ha.
    + destruct (argument_complete data offset NEGATIVE (-1 - z) rest) as (c & s0 & Ec & HM & Ha); [done|lia|done|].
      cbn [_item]. rewrite Ec, HM. unfold UNSIGNED, NEGATIVE in *. cbn [Z.eqb Pos.eqb orb]. rewrite Ha.
      cbn [rbind fst snd]. do 3 f_equal. lia.
  - rewrite Py.app_assoc in E. pose proof (drop_prefix _ _ _ _ E) as E2.
    destruct (argument_complete data offset BYTES (Z.of_nat (String.length s)) (s +:+ rest))
      as (c & s0 & Ec & HM & Ha); [done|lia|done|].
    cbn [_item]. rewrite Ec, HM. unfold BYTES, TEXT, UNSIGNED, NEGATIVE in *. cbn [Z.eqb Pos.eqb orb].
    rewrite Ha. cbn [rbind fst snd]. pose proof (drop_prefix_le _ _ _ _ E (header_length _ _)).
    rewrite (proj2 (take_spec data _ (Z.of_nat (String.length s)) s ltac:(lia) H)) by
      (rewrite Nat2Z.id; split; [rewrite <- E2; f_equal; symmetry in E2; by apply drop_prefix in E2|done]).
    cbn [rbind]. rewrite Nat2Z.id, Py.length_app. do 2 f_equal. lia.
  - destruct Hv as [Hv Hu]. rewrite Py.app_assoc in E. pose proof (drop_prefix _ _ _ _ E) as E2.
    destruct (argument_complete data offset TEXT (Z.of_nat (String.length s)) (s +:+ rest))
      as (c & s0 & Ec & HM & Ha); [done|lia|done|].
    cbn [_item]. rewrite Ec, HM. unfold BYTES, TEXT, UNSIGNED, NEGATIVE in *. cbn [Z.eqb Pos.eqb orb].
    rewrite Ha. cbn [rbind fst snd]. pose proof (drop_prefix_le _ _ _ _ E (header_length _ _)).
    rewrite (proj2 (take_spec data _ (Z.of_nat (String.length s)) s ltac:(lia) H)) by
      (rewrite Nat2Z.id; split; [rewrite <- E2; f_equal; symmetry in E2; by apply drop_prefix in E2|done]).
    cbn [rbind]. rewrite Hu, Nat2Z.id, Py.length_app. do 2 f_equal. lia.
  - destruct Hv as [Hv Hf]. rewrite Py.app_assoc in E. pose proof (drop_prefix _ _ _ _ E) as E2.
    destruct (argument_complete data offset ARRAY (Z.of_nat (length l)) (sjoin (map encode l) +:+ rest))
      as (c & s0 & Ec & HM & Ha); [done|lia|done|].
    cbn [_item]. rewrite Ec, HM. unfold ARRAY, BYTES, TEXT, UNSIGNED, NEGATIVE in *. cbn [Z.eqb Pos.eqb orb].
    rewrite Ha. cbn [rbind fst snd].
    assert (length l <= String.length data)%nat as Hle.
    { pose proof (sjoin_length encode l encode_pos). pose proof (drop_length offset data) as D.
      rewrite E, !Py.length_app in D. lia. }
    rewrite (array_loop_complete data (encodable left) _ (S (String.length data)) _ [] l rest IH Hf ltac:(lia) (eq_sym E2)).
    cbn [rbind fst snd app]. rewrite Py.length_app. do 2 f_equal. lia.
  - destruct Hv as (Hv & Hk & Hf). rewrite Py.app_assoc in E. pose proof (drop_prefix _ _ _ _ E) as E2.
    destruct (argument_complete data offset MAP (Z.of_nat (length l))
      (sjoin (map (fun e => encode e.1 +:+ encode e.2) l) +:+ rest)) as (c & s0 & Ec & HM & Ha); [done|lia|done|].
    cbn [_item]. rewrite Ec, HM. unfold MAP, ARRAY, BYTES, TEXT, UNSIGNED, NEGATIVE in *. cbn [Z.eqb Pos.eqb orb].
    rewrite Ha. cbn [rbind fst snd].
    assert (length l <= String.length data)%nat as Hle.
    { pose proof (sjoin_length (fun e => encode e.1 +:+ encode e.2) l) as Hs.
      specialize (Hs ltac:(intros e; cbn beta; rewrite Py.length_app; pose proof (encode_pos e.1); lia)).
      pose proof (drop_length offset data) as D. rewrite E, !Py.length_app in D. lia. }
    rewrite (map_loop_complete data (encodable left) _ (S (String.length data)) _ [] l rest IH Hf Hk ltac:(lia) (eq_sym E2)).
    cbn [rbind fst snd app]. rewrite Py.length_app. do 2 f_equal. lia.
  - cbn [_item]. rewrite E, Py.app_String. cbv zeta.
    destruct (split_initial SIMPLE (if b then TRUE else FALSE)) as [-> ->]; [done|by destruct b|].
    by destruct b.
  - cbn [_item]. rewrite E, Py.app_String. cbv zeta.
    destruct (split_initial SIMPLE NULL) as [-> ->]; [done|done|]. done.
Qed.

(** ** Termination *)

Definition never_exhausted (data : string) (item : nat -> result CborError (value * nat)) : Prop :=
  forall offset, item offset <> Err Exhausted.

Lemma array_loop_enough data ok item bound count offset acc :
  reads data ok item -> never_exhausted data item ->
  (String.length data - offset < bound)%nat ->
  array_loop item bound count offset acc <> Err Exhausted.
Proof.
  intros Hr Hn. revert count offset acc. induction bound as [|bound IH]; intros count offset acc Hb; [lia|].
  cbn [array_loop]. destruct (count <=? 0)%Z; [done|].
  destruct (item offset) as [[v o]|e] eqn:Ei; cbn [rbind fst snd]; [|specialize (Hn offset); congruence].
  apply Hr in Ei as (Hd & -> & _). apply IH.
  pose proof (encode_pos v) as Hp. pose proof (drop_prefix_le _ _ _ _ Hd Hp). lia.
Qed.

Lemma map_loop_enough data ok item bound count offset acc :
  reads data ok item -> never_exhausted data item ->
  (String.length data - offset < bound)%nat ->
  map_loop item bound count offset acc <> Err Exhausted.
Proof.
  intros Hr Hn. revert count offset acc. induction bound as [|bound IH]; intros count offset acc Hb; [lia|].
  cbn [map_loop]. destruct (count <=? 0)%Z; [done|].
  destruct (item offset) as [[k o]|e] eqn:Ei; cbn [rbind fst snd]; [|specialize (Hn offset); congruence].
  apply Hr in Ei as (Hd & -> & _). destruct (negb _); [done|]. destruct (has_key _ _); [done|].
  destruct (item (offset + String.length (encode k))%nat) as [[v o]|e] eqn:Ei; cbn [rbind fst snd];
    [|specialize (Hn (offset + String.length (encode k))%nat); congruence].
  apply Hr in Ei as (Hd' & -> & _). apply IH.
  pose proof (drop_prefix_le _ _ _ _ Hd (encode_pos k)). pose proof (drop_prefix_le _ _ _ _ Hd' (encode_pos v)).
  pose proof (encode_pos k). lia.
Qed.

Lemma item_never_exhausted data left : never_exhausted data (_item left data).
Proof.
  induction left as [|left IH]; intros offset; [done|]. cbn [_item].
  destruct (Py.drop offset data) as [|c s0]; [done|].
  assert (forall o m n, wide data o m n <> Err Exhausted) as Hw.
  { intros o m n. unfold wide, _take, _shortest. destruct (_ <? _)%Z; cbn [rbind]; [done|].
    destruct (_ <? _)%Z; cbn [rbind]; done. }
  assert (forall o m, _argument data o m <> Err Exhausted) as Ha.
  { intros o m. unfold _argument. repeat match goal with |- (if ?b then _ else _) <> _ => destruct b end; by auto. }
  assert (forall o m (k : Z * nat -> result CborError (value * nat)), (forall a, k a <> Err Exhausted) ->
    rbind (_argument data o m) k <> Err Exhausted) as Hb.
  { intros o m k Hk. specialize (Ha o m). destruct (_argument data o m) as [a|]; cbn [rbind]; [apply Hk|congruence]. }
  assert (forall o n, _take data o n <> Err Exhausted) as Ht.
  { intros o n. unfold _take. by destruct (_ <? _)%Z. }
  repeat match goal with |- (if ?b then _ else _) <> _ => destruct b end; try done; apply Hb; intros [a o].
  - done.
  - specialize (Ht o a). cbn [fst snd]. destruct (_take data o a); cbn [rbind]; [|congruence].
    destruct (_ =? _)%Z; [done|]. by destruct (utf8_valid _).
  - pose proof (array_loop_enough data (encodable left) _ (S (String.length data)) a o []
      (item_sound data left) IH ltac:(lia)) as Hl. cbn [fst snd].
    destruct (array_loop _ _ _ _ _) as [[l o']|]; cbn [rbind]; [done|congruence].
  - pose proof (map_loop_enough data (encodable left) _ (S (String.length data)) a o []
      (item_sound data left) IH ltac:(lia)) as Hl. cbn [fst snd].
    destruct (map_loop _ _ _ _ _) as [[l o']|]; cbn [rbind]; [done|congruence].
Qed.

(** C29: The decoder accepts exactly the canonical encodings.  A byte string is
    decoded to a value precisely when the value is one the subset can carry
    (integers and lengths of 64 bits, valid UTF-8, at most sixteen levels, no
    repeated map key) and the bytes are its one canonical encoding. *)
Theorem decode_iff_canonical (data : string) (v : value) :
  decode data = Ok v <-> encodable (S MAX_DEPTH) v /\ encode v = data.
Proof.
  unfold decode, decode_prefix. split.
  - intros H. apply rbind_ok in H as ([v' o] & Hi & H). cbn [fst snd] in H.
    destruct (Nat.eqb_spec o (String.length data)) as [->|]; [|done]. injection H as ->.
    apply item_sound in Hi as (Hd & _ & Hv). split; [done|]. cbn [Py.drop] in Hd.
    pose proof (Py.drop_app data "") as Hz. rewrite Py.app_nil_r in Hz.
    by rewrite Hz, Py.app_nil_r in Hd.
  - intros [Hv <-]. rewrite (item_complete (encode v) (S MAX_DEPTH) 0 v "" Hv) by (by rewrite Py.app_nil_r).
    cbn [rbind fst snd Nat.add]. by rewrite Nat.eqb_refl.
Qed.

(** Decoding ends on every input: the bound on the loops of the model,
    one more than the bytes given, is never reached, whatever count the input
    claims. *)
Theorem decode_terminates (data : string) : decode data <> Err Exhausted.
Proof.
  unfold decode, decode_prefix. pose proof (item_never_exhausted data (S MAX_DEPTH) 0) as Hn.
  destruct (_item (S MAX_DEPTH) data 0) as [[v o]|e]; cbn [rbind fst snd]; [|congruence].
  by destruct (negb _).
Qed.

(** Booleans are integers to the map check, as in Python. *)
Example bool_keys_collide : decode (String (initial MAP 2) (encode (Int 1) +:+ encode Null +:+ encode (Bool true) +:+ encode Null))
  = Err DuplicateKey.
Proof. vm_compute. reflexivity. Qed.

Example claims_four_gigabytes : decode (header BYTES (2 ^ 32)) = Err Truncated.
Proof. vm_compute. reflexivity. Qed.

End Cbor.
