(* ===== verification/Totp.v ===== *)
(** * Time-based one-time passwords

    [campusid/mfa/totp.py], with the base-32 decoding it uses.  HMAC-SHA-1 is a
    parameter.  What the person typed is a list of code points, because Python's
    [str.isspace], [str.isdigit] and [hmac.compare_digest] see characters, not
    bytes; the two Unicode predicates are parameters. *)

From S2P Require Import Prelude PyStr Base64 Cbor.

Module Totp.

Definition DIGITS : nat := 6.
Definition PERIOD : Z := 30.
Definition DRIFT : nat := 1.
Definition SECRET_BYTES : nat := 20.

Definition MALFORMED := "mfa.totp_malformed".
Definition MISMATCH := "mfa.totp_mismatch".
Definition REPLAY := "mfa.totp_replay".

Inductive exn : Type :=
| TotpRejected (reason : string)
| TypeError
| StructError.

(** ** Base 32 *)

Definition b32_value (c : ascii) : option Z :=
  let n := nat_of_ascii c in
  if (65 <=? n)%nat && (n <=? 90)%nat then Some (Z.of_nat n - 65)%Z
  else if (50 <=? n)%nat && (n <=? 55)%nat then Some (Z.of_nat n - 24)%Z
  else None.

(** One quantum of up to eight digits, as the integer it spells. *)
Fixpoint quantum (acc : Z) (s : string) : option Z :=
  match s with
  | EmptyString => Some acc
  | String c s' => match b32_value c with Some v => quantum (acc * 32 + v)%Z s' | None => None end
  end.

Fixpoint quanta (fuel : nat) (s : string) : option (list Z) :=
  match fuel, s with
  | _, EmptyString => Some []
  | O, _ => None
  | S fuel', _ =>
      match quantum 0 (Py.take 8 s), quanta fuel' (Py.drop 8 s) with
      | Some q, Some qs => Some (q :: qs)
      | _, _ => None
      end
  end.

(** [base64.b32decode(s, casefold=True)]. *)
Definition b32decode (s : string) : option string :=
  if negb (Nat.eqb (String.length s mod 8) 0) then None
  else
    let s := Py.upper s in
    let body := Base64.rstrip_pad s in
    let padchars := (String.length s - String.length body)%nat in
    match quanta (String.length body) body with
    | None => None
    | Some qs =>
        if negb (bool_decide (padchars ∈ [0%nat; 1%nat; 3%nat; 4%nat; 6%nat])) then None
        else match Nat.eqb padchars 0, qs with
             | false, _ :: _ =>
                 let front := removelast qs in
                 let acc := (List.last qs 0 * 32 ^ Z.of_nat padchars)%Z in
                 Some (Py.join "" (map (Cbor.be_bytes 5) front) +:+
                       Py.take ((43 - 5 * padchars) / 8)%nat (Cbor.be_bytes 5 acc))
             | _, _ => Some (Py.join "" (map (Cbor.be_bytes 5) qs))
             end
    end.

Section totp.
Variable hmac_sha1 : string -> string -> string.
Variable isspace isdigit : Z -> bool.

Definition _decode (secret : string) : result exn string :=
  let padded := Py.upper secret +:+ Py.repeat_str ((8 - String.length secret mod 8) mod 8)%nat "=" in
  match b32decode padded with
  | Some raw => Ok raw
  | None => Err (TotpRejected MALFORMED)
  end.

(** [int(moment.timestamp()) // PERIOD]. *)
Definition step_at (m : moment) : Z := (Z.quot m SECOND / PERIOD)%Z.

Definition code_at (secret : string) (step : Z) : result exn string :=
  let* key := _decode secret in
  if (step <? 0)%Z || (2 ^ 64 <=? step)%Z then Err StructError
  else
    let mac := hmac_sha1 key (Cbor.be_bytes 8 step) in
    let offset := Z.to_nat (Z.land (Cbor.be 0 (Py.drop (String.length mac - 1) mac)) 15) in
    let truncated := Z.land (Cbor.be 0 (Py.slice mac offset (offset + 4))) (Z.ones 31) in
    Ok (Py.zfill DIGITS (Py.str_of_Z (truncated mod 10 ^ Z.of_nat DIGITS))).

(** Offsets to try, nearest first. *)
Fixpoint offsets_to (step n : nat) : list Z :=
  match n with
  | O => []
  | S n' => (- Z.of_nat step)%Z :: Z.of_nat step :: offsets_to (S step) n'
  end.
Definition _window (drift : nat) : list Z := 0%Z :: offsets_to 1 drift.

Definition is_ascii_text (code : list Z) : bool := forallb (fun c => (c <? 128)%Z) code.

(** The text of a list of ASCII code points. *)
Definition text_of (code : list Z) : string :=
  foldr (fun c s => String (ascii_of_nat (Z.to_nat c)) s) "" code.

(** Every candidate is evaluated; the first that matched is kept. *)
Fixpoint scan (secret digits : string) (now : Z) (matched : option Z) (window : list Z)
  : result exn (option Z) :=
  match window with
  | [] => Ok matched
  | offset :: rest =>
      let candidate := (now + offset)%Z in
      let* code := code_at secret candidate in
      let matched := match matched with
                     | Some _ => matched
                     | None => if String.eqb code digits then Some candidate else None
                     end in
      scan secret digits now matched rest
  end.

(** The step a code matched, for the caller to keep as the high-water mark. *)
Definition verify (secret : string) (code : list Z) (at_ : moment) (last_step : option Z) (drift : nat)
  : result exn Z :=
  let digits := List.filter (fun c => negb (isspace c)) code in
  raise* TotpRejected MALFORMED when
    negb (Nat.eqb (length digits) DIGITS) || negb (forallb isdigit digits);
  let now := step_at at_ in
  (** [hmac.compare_digest] refuses non-ASCII text, once there is something to
      compare it with. *)
  let* matched :=
    if is_ascii_text digits then scan secret (text_of digits) now None (_window drift)
    else let* _ := code_at secret now in Err TypeError in
  match matched with
  | None => Err (TotpRejected MISMATCH)
  | Some step =>
      raise* TotpRejected REPLAY when match last_step with Some l => (step <=? l)%Z | None => false end;
      Ok step
  end.

(** ** What an accepted code satisfies *)

Lemma scan_ok secret digits now window matched r :
  scan secret digits now matched window = Ok r ->
  match matched, r with
  | Some m, Some m' => m = m'
  | Some _, None => False
  | None, Some s => exists o, o ∈ window /\ s = (now + o)%Z /\ code_at secret s = Ok digits
  | None, None => forall o, o ∈ window -> exists c, code_at secret (now + o) = Ok c /\ c <> digits
  end.
Proof.
  revert matched. induction window as [|o window IH]; intros matched H; cbn in H.
  - injection H as <-. destruct matched; [done|]. by intros o ?%elem_of_nil.
  - apply rbind_ok in H as (code & Hc & H). apply IH in H. destruct matched as [m|]; [done|].
    destruct (String.eqb_spec code digits) as [->|Hne].
    + destruct r as [s|]; [|done]. subst s. exists o. split; [constructor|done].
    + destruct r as [s|].
      * destruct H as (o' & Ho & ->& Hs). exists o'. split; [by constructor|done].
      * intros o' [->|Ho]%elem_of_cons; [by exists code|by apply H].
Qed.

Lemma offsets_to_range step n o :
  o ∈ offsets_to step n -> (Z.of_nat step <= Z.abs o < Z.of_nat (step + n))%Z.
Proof.
  revert step. induction n as [|n IH]; intros step; cbn; [by intros ?%elem_of_nil|].
  intros [->|[->|Ho]%elem_of_cons]%elem_of_cons; [lia..|]. apply IH in Ho. lia.
Qed.

(** An accepted code is the one its step computes, lies within the drift of the
    clock, and is above the mark. *)
Lemma verify_sound secret code at_ last_step drift step :
  verify secret code at_ last_step drift = Ok step ->
  (Z.abs (step - step_at at_) <= Z.of_nat drift)%Z /\
  match last_step with Some l => (l < step)%Z | None => True end /\
  code_at secret step = Ok (text_of (List.filter (fun c => negb (isspace c)) code)).
Proof.
  unfold verify. destruct (_ || _); [done|]. intros H. apply rbind_ok in H as (matched & Hm & H).
  destruct (is_ascii_text _); [|by apply rbind_ok in Hm as (? & _ & ?)].
  apply scan_ok in Hm. destruct matched as [s|]; [|done]. destruct Hm as (o & Ho & -> & Hc).
  destruct (match last_step with Some l => _ | None => _ end) eqn:El; [done|]. injection H as <-.
  split_and!; [|by destruct last_step; bool_prop|done].
  unfold _window in Ho. apply elem_of_cons in Ho as [->|Ho]; [lia|]. apply offsets_to_range in Ho. lia.
Qed.

(** A code that matches inside the window and above the mark is accepted, when
    nothing nearer matches. *)
Lemma verify_current secret code at_ last_step drift :
  length (List.filter (fun c => negb (isspace c)) code) = DIGITS ->
  forallb isdigit (List.filter (fun c => negb (isspace c)) code) = true ->
  is_ascii_text (List.filter (fun c => negb (isspace c)) code) = true ->
  (Z.of_nat drift <= step_at at_)%Z -> (step_at at_ + Z.of_nat drift < 2 ^ 64)%Z ->
  code_at secret (step_at at_) = Ok (text_of (List.filter (fun c => negb (isspace c)) code)) ->
  match last_step with Some l => (l < step_at at_)%Z | None => True end ->
  verify secret code at_ last_step drift = Ok (step_at at_).
Proof.
  intros Hl Hd Ha Hlo Hhi Hc Hs. unfold verify. rewrite Hl, Hd, Ha. cbn [Nat.eqb negb orb DIGITS].
  assert (forall o, (Z.abs o <= Z.of_nat drift)%Z -> exists c, code_at secret (step_at at_ + o) = Ok c) as Hall.
  { intros o Ho. unfold code_at in *. destruct (_decode secret); [|done]. cbn [rbind] in *.
    destruct (Z.ltb_spec (step_at at_ + o) 0); [lia|].
    destruct (Z.leb_spec (2 ^ 64) (step_at at_ + o)); [lia|]. cbn [orb]. eauto. }
  unfold _window. cbn [scan]. rewrite Z.add_0_r, Hc. cbn [rbind]. rewrite String.eqb_refl.
  assert (forall w, (forall o, o ∈ w -> (Z.abs o <= Z.of_nat drift)%Z) -> forall dg m,
    scan secret dg (step_at at_) (Some m) w = Ok (Some m)) as Hrest.
  { induction w as [|o w IHw]; intros Hw dg m; cbn [scan]; [done|].
    destruct (Hall o) as [c ->]; [apply Hw; constructor|]. cbn [rbind]. apply IHw.
    intros o' Ho'. apply Hw. by constructor. }
  rewrite Hrest by (intros o Ho; apply offsets_to_range in Ho; lia). cbn [rbind].
  destruct last_step as [l|]; [|done]. destruct (Z.leb_spec (step_at at_) l); [lia|done].
Qed.

(** Six digits of another script crash the check.  Python counts them as
    digits, so they pass the shape test, and the constant-time comparison then
    raises [TypeError], which is not a [TotpRejected]. *)
Theorem foreign_digits_raise_type_error (secret : string) (code : list Z) (at_ : moment)
    (last_step : option Z) (drift : nat) (c : Z) (expected : string) :
  length code = DIGITS -> forallb isdigit code = true -> forallb (fun x => negb (isspace x)) code = true ->
  c ∈ code -> (128 <= c)%Z -> code_at secret (step_at at_) = Ok expected ->
  verify secret code at_ last_step drift = Err TypeError.
Proof.
  intros Hl Hd Hs Hc H128 He. unfold verify.
  assert (List.filter (fun x => negb (isspace x)) code = code) as ->.
  { clear Hl Hd Hc. induction code as [|x l IH]; [done|]. cbn in Hs. bool_prop. cbn.
    rewrite H. cbn. by rewrite IH. }
  rewrite Hl, Hd. cbn [Nat.eqb negb orb DIGITS].
  assert (is_ascii_text code = false) as ->.
  { apply not_true_iff_false. unfold is_ascii_text. rewrite forallb_forall. intros Ha.
    apply list_elem_of_In, Ha in Hc. bool_prop. lia. }
  by rewrite He.
Qed.

End totp.

(** ** Witnesses *)

(** A fixed digest, so that codes evaluate: the counter, padded. *)
Definition demo_hmac (key counter : string) : string :=
  Cbor.be_bytes 19 (Cbor.be 0 counter) +:+ String "015"%char "".
Definition demo_isdigit (c : Z) : bool :=
  ((48 <=? c) && (c <=? 57) || (1632 <=? c) && (c <=? 1641))%Z.

Lemma foreign_digits_raise_type_error_witness :
  exists expected, code_at demo_hmac "JBSWY3DPEHPK3PXP" (step_at (1704067200 * SECOND)) = Ok expected /\
  verify demo_hmac (fun c => (c =? 32)%Z) demo_isdigit "JBSWY3DPEHPK3PXP" [1633; 1634; 1635; 1636; 1637; 1638]%Z
    (1704067200 * SECOND) None 1 = Err TypeError.
Proof.
  assert (exists expected, code_at demo_hmac "JBSWY3DPEHPK3PXP" (step_at (1704067200 * SECOND)) = Ok expected)
    as [expected E] by (eexists; vm_compute; reflexivity).
  exists expected. split; [exact E|].
  apply (foreign_digits_raise_type_error demo_hmac _ _ _ _ _ _ _ 1633%Z expected).
  - reflexivity.
  - reflexivity.
  - reflexivity.
  - constructor.
  - lia.
  - exact E.
Defined.

End Totp.
