(* ===== verification/Recovery.v ===== *)
(** * Recovery codes

    [campusid/mfa/recovery.py]: how a code is spelled, and how what a person
    types back is brought to a comparable form.  Argon2 is a parameter of the
    comparison. *)

From S2P Require Import Prelude PyStr Base64 Cbor.

Module Recovery.

Definition COUNT : nat := 10.
Definition CODE_BYTES : nat := 10.
Definition GROUP : nat := 4.
Definition ALPHABET : string := "0123456789ABCDEFGHJKMNPQRSTVWXYZ".

(** [CONFUSABLE.get(ch, ch)]. *)
Definition CONFUSABLE (c : ascii) : ascii :=
  if Ascii.eqb c "O"%char then "0"%char
  else if Ascii.eqb c "I"%char || Ascii.eqb c "L"%char then "1"%char else c.

Definition normalise (code : string) : string :=
  Py.sfilter (fun c => Py.has_char c ALPHABET) (Py.smap CONFUSABLE (Py.upper code)).

(** Five bytes become eight base-32 digits; a last group is filled with zeros. *)
Definition shifts : list Z := [35; 30; 25; 20; 15; 10; 5; 0]%Z.
Definition ljust5 (s : string) : string :=
  s +:+ Py.repeat_str (5 - String.length s)%nat "000"%char.

Fixpoint expand_go (fuel : nat) (raw : string) : list Z :=
  match fuel, raw with
  | _, EmptyString | O, _ => []
  | S fuel', _ =>
      let value := Cbor.be 0 (ljust5 (Py.take 5 raw)) in
      map (fun shift => Z.land (Z.shiftr value shift) 31) shifts ++ expand_go fuel' (Py.drop 5 raw)
  end.
Definition _expand (raw : string) : list Z := expand_go (String.length raw) raw.

Definition digit (i : Z) : ascii :=
  match String.get (Z.to_nat i) ALPHABET with Some c => c | None => "0"%char end.

Definition spell (digits : list Z) : string := foldr (fun i s => String (digit i) s) "" digits.

Fixpoint groups (fuel : nat) (s : string) : list string :=
  match fuel, s with
  | _, EmptyString | O, _ => []
  | S fuel', _ => Py.take GROUP s :: groups fuel' (Py.drop GROUP s)
  end.

Definition _format (raw : string) : string :=
  let digits := spell (_expand raw) in
  Py.join "-" (groups (String.length digits) digits).

(** [generate]: the random bytes of each code are arguments. *)
Definition generate (entropy : list string) : list string := map _format entropy.

(** The stored form, and the check against it: [None] is any of the exceptions
    Argon2 raises for a mismatch or a malformed hash. *)
Definition hash_code (argon2_hash : string -> string) (code : string) : string := argon2_hash (normalise code).
Definition matches (argon2_verify : string -> string -> option bool) (stored code : string) : bool :=
  match argon2_verify stored (normalise code) with Some b => b | None => false end.

(** ** Typing a code back *)

(** What a person may do to a code on paper: keep a character, change its case,
    write a confusable letter for 0 or 1, drop or add grouping. *)
Inductive transcribes : string -> string -> Prop :=
| tr_nil : transcribes "" ""
| tr_keep c s t : transcribes s t -> transcribes (String c s) (String c t)
| tr_lower c s t : transcribes s t -> transcribes (String c s) (String (Py.lower_ascii c) t)
| tr_zero c s t : c ∈ ["O"; "o"]%char -> transcribes s t -> transcribes (String "0" s) (String c t)
| tr_one c s t : c ∈ ["I"; "i"; "L"; "l"]%char -> transcribes s t -> transcribes (String "1" s) (String c t)
| tr_drop s t : transcribes s t -> transcribes (String "-" s) t
| tr_add c s t : c ∈ ["-"; " "]%char -> transcribes s t -> transcribes s (String c t).

Lemma transcribes_refl s : transcribes s s.
Proof. induction s; by constructor. Qed.

Lemma upper_lower c : Py.upper_ascii (Py.lower_ascii c) = Py.upper_ascii c.
Proof. by destruct c as [[] [] [] [] [] [] [] []]. Qed.

Lemma normalise_cons c s : normalise (String c s) =
  let c' := CONFUSABLE (Py.upper_ascii c) in
  if Py.has_char c' ALPHABET then String c' (normalise s) else normalise s.
Proof. done. Qed.

Lemma transcribes_normalise s t : transcribes s t -> normalise t = normalise s.
Proof.
  induction 1 as [|c s t _ IH|c s t _ IH|c s t Hc _ IH|c s t Hc _ IH|s t _ IH|c s t Hc _ IH]; [done|..].
  - by rewrite !normalise_cons, IH.
  - rewrite !normalise_cons, upper_lower. by rewrite IH.
  - repeat (apply elem_of_cons in Hc as [->|Hc]; [rewrite !normalise_cons; cbn; by rewrite IH|]). by apply elem_of_nil in Hc.
  - repeat (apply elem_of_cons in Hc as [->|Hc]; [rewrite !normalise_cons; cbn; by rewrite IH|]). by apply elem_of_nil in Hc.
  - by rewrite normalise_cons.
  - repeat (apply elem_of_cons in Hc as [->|Hc]; [rewrite normalise_cons; done|]). by apply elem_of_nil in Hc.
Qed.

(** ** A code is its digits, and the digits are the entropy *)

Lemma digit_normal i : (0 <= i < 32)%Z ->
  CONFUSABLE (Py.upper_ascii (digit i)) = digit i /\ Py.has_char (digit i) ALPHABET = true /\
  (forall j, (0 <= j < 32)%Z -> digit i = digit j -> i = j).
Proof.
  intros Hi.
  assert (forallb (fun n => let i := Z.of_nat n in
    Ascii.eqb (CONFUSABLE (Py.upper_ascii (digit i))) (digit i) && Py.has_char (digit i) ALPHABET &&
    forallb (fun m => negb (Ascii.eqb (digit i) (digit (Z.of_nat m))) || Nat.eqb n m) (seq 0 32)) (seq 0 32) = true)
    as Hall by (vm_compute; reflexivity).
  rewrite forallb_forall in Hall. specialize (Hall (Z.to_nat i) (proj2 (in_seq 32 0 (Z.to_nat i)) ltac:(lia))).
  cbv zeta in Hall. rewrite Z2Nat.id in Hall by lia. bool_prop. split_and!; [by apply Ascii.eqb_eq|done|].
  intros j Hj E. rewrite forallb_forall in H0.
  specialize (H0 (Z.to_nat j) (proj2 (in_seq 32 0 (Z.to_nat j)) ltac:(lia))). rewrite Z2Nat.id in H0 by lia.
  rewrite E, Ascii.eqb_refl in H0. cbn in H0. apply Nat.eqb_eq in H0. lia.
Qed.

Lemma normalise_spell l : Forall (fun i => (0 <= i < 32)%Z) l -> normalise (spell l) = spell l.
Proof.
  induction 1 as [|i l Hi _ IH]; [done|]. cbn [spell foldr]. rewrite normalise_cons. cbv zeta.
  destruct (digit_normal i Hi) as (-> & -> & _). by rewrite <- IH at 2.
Qed.

Lemma spell_inj l l' :
  Forall (fun i => (0 <= i < 32)%Z) l -> Forall (fun i => (0 <= i < 32)%Z) l' -> spell l = spell l' -> l = l'.
Proof.
  intros Hl. revert l'. induction Hl as [|i l Hi _ IH]; intros l' Hl' E; destruct Hl' as [|j l' Hj Hl']; try done.
  cbn in E. injection E as Ed Es. f_equal; [|by apply IH].
  by destruct (digit_normal i Hi) as (_ & _ & Hinj); apply Hinj.
Qed.

Lemma normalise_app s t : normalise (s +:+ t) = normalise s +:+ normalise t.
Proof.
  induction s as [|c s IH]; [done|]. rewrite Py.app_String, !normalise_cons. cbv zeta.
  rewrite IH. by destruct (Py.has_char _ _).
Qed.

Lemma normalise_join l : normalise (Py.join "-" l) = Py.join "" (map normalise l).
Proof.
  induction l as [|s [|t l] IH]; [done|done|].
  change (Py.join "-" (s :: t :: l)) with (s +:+ "-" +:+ Py.join "-" (t :: l)).
  rewrite !normalise_app, IH. done.
Qed.

Lemma join_groups fuel s : (String.length s <= fuel)%nat -> Py.join "" (groups fuel s) = s.
Proof.
  assert (forall x l, Py.join "" (x :: l) = x +:+ Py.join "" l) as Hj.
  { intros x [|y l]; [by rewrite Py.app_nil_r|done]. }
  revert s. induction fuel as [|fuel IH]; intros s Hs; [destruct s; [done|cbn in Hs; lia]|].
  destruct s as [|c s]; [done|]. cbn [groups]. rewrite Hj, IH.
  - apply Py.take_drop.
  - rewrite Cbor.drop_length. unfold GROUP. cbn [String.length] in *. lia.
Qed.

Lemma normalise_format raw :
  Forall (fun i => (0 <= i < 32)%Z) (_expand raw) -> normalise (_format raw) = spell (_expand raw).
Proof.
  intros H. unfold _format. rewrite normalise_join.
  set (s := spell (_expand raw)).
  assert (forall fuel t, normalise t = t -> map normalise (groups fuel t) = groups fuel t) as Hg.
  { induction fuel as [|fuel IH]; intros t Ht; [by destruct t|]. destruct t as [|c t]; [done|].
    cbn [groups map]. pose proof (normalise_app (Py.take GROUP (String c t)) (Py.drop GROUP (String c t))) as Ha.
    rewrite Py.take_drop, Ht in Ha.
    assert (forall a b, a +:+ b = normalise a +:+ normalise b -> normalise a = a /\ normalise b = b) as Hsplit.
    { assert (forall u, String.length (normalise u) <= String.length u)%nat as Hlen.
      { induction u as [|d u IHu]; [done|]. rewrite normalise_cons. cbv zeta.
        destruct (Py.has_char _ _); cbn; lia. }
      intros a b Hab. assert (String.length (normalise a) = String.length a) as La.
      { pose proof (f_equal String.length Hab) as L. rewrite !Py.length_app in L.
        pose proof (Hlen a). pose proof (Hlen b). lia. }
      assert (normalise a = a) as Ea.
      { pose proof (Cbor.take_app (normalise a) (normalise b)) as T.
        rewrite <- Hab, La, Cbor.take_app in T. done. }
      split; [done|]. rewrite Ea in Hab. by apply Py.app_inv_l in Hab. }
    rewrite <- (Py.take_drop GROUP (String c t)) in Ha at 1.
    destruct (Hsplit _ _ Ha) as [E1 E2]. rewrite E1. f_equal. by apply IH. }
  rewrite Hg by (by apply normalise_spell). by apply join_groups.
Qed.

(** Eight base-32 digits spell a number below 2^40. *)
Lemma shifts_value v : (0 <= v < 2 ^ 40)%Z ->
  foldl (fun acc d => acc * 32 + d)%Z 0%Z (map (fun shift => Z.land (Z.shiftr v shift) 31) shifts) = v.
Proof.
  intros Hv. unfold shifts. cbn [map foldl]. change 31%Z with (Z.ones 5).
  rewrite !Z.land_ones, !Z.shiftr_div_pow2 by lia.
  replace (v / 2 ^ 0)%Z with v by (by rewrite Z.div_1_r).
  assert (forall k, (0 <= k)%Z -> (v / 2 ^ (k + 5))%Z = (v / 2 ^ k / 2 ^ 5)%Z) as Hstep.
  { intros k Hk. rewrite Z.div_div by lia. by rewrite Z.pow_add_r. }
  pose proof (Hstep 0 ltac:(lia))%Z as E0. pose proof (Hstep 5 ltac:(lia))%Z as E1.
  pose proof (Hstep 10 ltac:(lia))%Z as E2. pose proof (Hstep 15 ltac:(lia))%Z as E3.
  pose proof (Hstep 20 ltac:(lia))%Z as E4. pose proof (Hstep 25 ltac:(lia))%Z as E5.
  pose proof (Hstep 30 ltac:(lia))%Z as E6. pose proof (Hstep 35 ltac:(lia))%Z as E7. cbn [Z.add Pos.add] in *.
  change (0 + 5)%Z with 5%Z in E0; change (5 + 5)%Z with 10%Z in E1; change (10 + 5)%Z with 15%Z in E2;
    change (15 + 5)%Z with 20%Z in E3; change (20 + 5)%Z with 25%Z in E4; change (25 + 5)%Z with 30%Z in E5;
    change (30 + 5)%Z with 35%Z in E6; change (35 + 5)%Z with 40%Z in E7.
  rewrite Z.pow_0_r, Z.div_1_r in E0. rewrite (Z.div_small v (2 ^ 40)) in E7 by lia.
  change (2 ^ 5)%Z with 32%Z in *.
  pose proof (Z.div_mod v 32). pose proof (Z.div_mod (v / 32) 32).
  pose proof (Z.div_mod (v / 2 ^ 10) 32). pose proof (Z.div_mod (v / 2 ^ 15) 32).
  pose proof (Z.div_mod (v / 2 ^ 20) 32). pose proof (Z.div_mod (v / 2 ^ 25) 32).
  pose proof (Z.div_mod (v / 2 ^ 30) 32). pose proof (Z.div_mod (v / 2 ^ 35) 32). lia.
Qed.

Lemma ljust5_full s : String.length s = 5%nat -> ljust5 s = s.
Proof. intros E. unfold ljust5. rewrite E. cbn. apply Py.app_nil_r. Qed.

Lemma expand_range fuel raw : Forall (fun i => (0 <= i < 32)%Z) (expand_go fuel raw).
Proof.
  revert raw. induction fuel as [|fuel IH]; intros raw; [destruct raw; constructor|].
  destruct raw as [|c raw]; [constructor|]. cbn [expand_go]. cbv zeta. apply Forall_app. split; [|apply IH].
  unfold shifts. cbn [map]. repeat constructor; change 31%Z with (Z.ones 5); rewrite Z.land_ones by lia;
    pose proof (Z.mod_pos_bound (Z.shiftr (Cbor.be 0 (ljust5 (Py.take 5 (String c raw)))) 0) (2 ^ 5)); apply Z.mod_pos_bound; lia.
Qed.

Lemma expand_inj k fuel fuel' a b :
  String.length a = (5 * k)%nat -> String.length b = (5 * k)%nat -> (k <= fuel)%nat -> (k <= fuel')%nat ->
  expand_go fuel a = expand_go fuel' b -> a = b.
Proof.
  revert fuel fuel' a b. induction k as [|k IH]; intros fuel fuel' a b Ha Hb Hf Hf' E.
  { destruct a, b; done. }
  destruct fuel as [|fuel]; [lia|]. destruct fuel' as [|fuel']; [lia|].
  destruct a as [|ca a]; [cbn in Ha; lia|]. destruct b as [|cb b]; [cbn in Hb; lia|].
  cbn [expand_go] in E. cbv zeta in E.
  assert (String.length (Py.take 5 (String ca a)) = 5%nat) as La by (rewrite Cbor.take_length; lia).
  assert (String.length (Py.take 5 (String cb b)) = 5%nat) as Lb by (rewrite Cbor.take_length; lia).
  rewrite (ljust5_full _ La), (ljust5_full _ Lb) in E.
  apply app_inj_1 in E as [E1 E2]; [|done].
  destruct (Cbor.be_range 5 _ La) as [Ra Ba]. destruct (Cbor.be_range 5 _ Lb) as [Rb Bb].
  assert (Cbor.be 0 (Py.take 5 (String ca a)) = Cbor.be 0 (Py.take 5 (String cb b))) as Ev.
  { change (256 ^ Z.of_nat 5)%Z with (2 ^ 40)%Z in *.
    rewrite <- (shifts_value _ Ra), <- (shifts_value _ Rb). by rewrite E1. }
  rewrite <- (Py.take_drop 5 (String ca a)), <- (Py.take_drop 5 (String cb b)).
  f_equal; [by rewrite <- Ba, <- Bb, Ev|].
  eapply (IH fuel fuel'); [| |lia|lia|exact E2]; rewrite Cbor.drop_length; lia.
Qed.

Lemma normalise_inj a b :
  String.length a = CODE_BYTES -> String.length b = CODE_BYTES ->
  normalise (_format a) = normalise (_format b) -> a = b.
Proof.
  intros La Lb E. rewrite !normalise_format in E by apply expand_range.
  apply spell_inj in E; [|apply expand_range..]. unfold _expand in E.
  eapply (expand_inj 2); [..|exact E]; unfold CODE_BYTES in *; lia.
Qed.

(** A code typed back is the code that was printed, and no other.  However
    its case, grouping and confusable letters are changed, a typed code has the
    normal form of the code on the sheet, and two codes of ten random bytes each
    share a normal form only when their bytes are the same. *)
Theorem typed_code_identifies_entropy (a b typed : string) :
  transcribes (_format a) typed ->
  normalise typed = normalise (_format a) /\
  (String.length a = CODE_BYTES -> String.length b = CODE_BYTES ->
   normalise typed = normalise (_format b) -> a = b).
Proof.
  intros Ht%transcribes_normalise. split; [done|]. intros La Lb E. rewrite Ht in E.
  by apply normalise_inj.
Qed.

Lemma typed_code_identifies_entropy_witness :
  _format "0123456789" = "60RK-4CSM-6MV3-EE1S" /\
  normalise "6Ork4csm 6mv3eEls" = normalise (_format "0123456789").
Proof.
  split; [vm_compute; reflexivity|].
  apply (typed_code_identifies_entropy "0123456789" "" "6Ork4csm 6mv3eEls").
  change (_format "0123456789") with "60RK-4CSM-6MV3-EE1S".
  repeat first [apply tr_nil | apply tr_drop
    | apply tr_keep | apply tr_lower | apply tr_zero; [set_solver|] | apply tr_one; [set_solver|]
    | apply tr_add; [set_solver|]].
Defined.

End Recovery.
