(* ===== verification/WebAuthn.v ===== *)
(** * WebAuthn

    [campusid/mfa/webauthn.py]: registration and assertion.  SHA-256, the JSON
    reader of the standard library and the public-key operations of the
    [cryptography] package are parameters. *)

From S2P Require Import Prelude PyStr Base64 Json Cbor.

Module WebAuthn.

Definition MALFORMED := "mfa.webauthn_malformed".
Definition WRONG_TYPE := "mfa.webauthn_wrong_type".
Definition CHALLENGE_MISMATCH := "mfa.webauthn_challenge_mismatch".
Definition ORIGIN_MISMATCH := "mfa.webauthn_origin_mismatch".
Definition RP_MISMATCH := "mfa.webauthn_rp_mismatch".
Definition USER_NOT_PRESENT := "mfa.webauthn_user_not_present".
Definition UNSUPPORTED_ATTESTATION := "mfa.webauthn_unsupported_attestation".
Definition UNSUPPORTED_ALGORITHM := "mfa.webauthn_unsupported_algorithm".
Definition SIGNATURE_INVALID := "mfa.webauthn_signature_invalid".
Definition CLONED := "mfa.cloned_credential_suspected".

(** [WebAuthnRejected(reason)]. *)
Inductive exn : Type := WebAuthnRejected (reason : string).

Definition UP : Z := 1.
Definition UV : Z := 4.
Definition AT : Z := 64.
Definition ED : Z := 128.

Definition ES256 : Z := -7.
Definition RS256 : Z := -257.
Definition EDDSA : Z := -8.
Definition SUPPORTED_ALGORITHMS : list Z := [ES256; RS256; EDDSA].

Definition COSE_KTY : Z := 1.
Definition COSE_ALG : Z := 3.
Definition COSE_CRV : Z := -1.
Definition COSE_X : Z := -2.
Definition COSE_Y : Z := -3.
Definition COSE_RSA_N : Z := -1.
Definition COSE_RSA_E : Z := -2.
Definition KTY_OKP : Z := 1.
Definition KTY_EC2 : Z := 2.
Definition KTY_RSA : Z := 3.
Definition CRV_P256 : Z := 1.
Definition CRV_ED25519 : Z := 6.

Record AuthenticatorData : Type := {
  rp_id_hash : string;
  flags : Z;
  sign_count : Z;
  credential_id : option string;
  public_key : option string;
}.

Definition user_present (a : AuthenticatorData) : bool := negb (Z.land (flags a) UP =? 0)%Z.
Definition user_verified (a : AuthenticatorData) : bool := negb (Z.land (flags a) UV =? 0)%Z.

Record Registration : Type := {
  r_credential_id : string;
  r_public_key : string;
  r_sign_count : Z;
  r_user_verified : bool;
  r_algorithm : Z;
}.

Record Assertion : Type := {
  a_credential_id : string;
  a_sign_count : Z;
  a_user_verified : bool;
}.

(** The public keys of the [cryptography] package. *)
Record keys : Type := {
  ec_key : Type;
  rsa_key : Type;
  ed_key : Type;
  ec_public_key : Z -> Z -> option ec_key;
  rsa_public_key : Z -> Z -> option rsa_key;
  ed_public_key : string -> option ed_key;
  ec_verify : ec_key -> string -> string -> bool;
  rsa_verify : rsa_key -> string -> string -> bool;
  ed_verify : ed_key -> string -> string -> bool;
}.

Inductive PublicKey (lib : keys) : Type :=
| EC (k : ec_key lib)
| RSA (k : rsa_key lib)
| OKP (k : ed_key lib).
Arguments EC {lib} _.
Arguments RSA {lib} _.
Arguments OKP {lib} _.

(** [d.get(k)] on a decoded map. *)
Fixpoint map_get (m : list (Cbor.value * Cbor.value)) (k : Cbor.value) : option Cbor.value :=
  match m with
  | [] => None
  | (k', v) :: m' => if Cbor.key_eqb k k' then Some v else map_get m' k
  end.

(** [d.get(k) == n] for an integer. *)
Definition equals_int (v : option Cbor.value) (n : Z) : bool :=
  match v with Some v => Cbor.key_eqb v (Cbor.Int n) | None => false end.

(** A decoding failure is a malformed message. *)
Definition decoding {A} (r : result Cbor.CborError A) : result exn A :=
  match r with Ok a => Ok a | Err _ => Err (WebAuthnRejected MALFORMED) end.

Definition _cose (cose_key : string) : result exn (list (Cbor.value * Cbor.value)) :=
  let* v := decoding (Cbor.decode cose_key) in
  match v with Cbor.Map m => Ok m | _ => Err (WebAuthnRejected MALFORMED) end.

Definition _algorithm (cose_key : string) : result exn Z :=
  let* parameters := _cose cose_key in
  match List.find (fun n => equals_int (map_get parameters (Cbor.Int COSE_ALG)) n) SUPPORTED_ALGORITHMS with
  | Some n => Ok n
  | None => Err (WebAuthnRejected UNSUPPORTED_ALGORITHM)
  end.

Definition parse_authenticator_data (raw : string) (expect_credential : bool)
  : result exn AuthenticatorData :=
  raise* WebAuthnRejected MALFORMED when (String.length raw <? 37)%nat;
  let rp_id_hash := Py.take 32 raw in
  let flags := Cbor.be 0 (Py.slice raw 32 33) in
  let sign_count := Cbor.be 0 (Py.slice raw 33 37) in
  let* '(cid, key, offset) :=
    if negb (Z.land flags AT =? 0)%Z then
      raise* WebAuthnRejected MALFORMED when (String.length raw <? 37 + 18)%nat;
      let offset := (37 + 16)%nat in
      let id_length := Z.to_nat (Cbor.be 0 (Py.slice raw offset (offset + 2))) in
      let offset := (offset + 2)%nat in
      raise* WebAuthnRejected MALFORMED when (String.length raw <? offset + id_length)%nat;
      let cid := Py.slice raw offset (offset + id_length) in
      let offset := (offset + id_length)%nat in
      let* r := decoding (Cbor.decode_prefix (Py.drop offset raw)) in
      Ok (Some cid, Some (Py.slice raw offset (offset + r.2)), (offset + r.2)%nat)
    else
      raise* WebAuthnRejected MALFORMED when expect_credential;
      Ok (None, None, 37%nat) in
  let* offset :=
    if negb (Z.land flags ED =? 0)%Z then
      let* r := decoding (Cbor.decode_prefix (Py.drop offset raw)) in
      Ok (offset + r.2)%nat
    else Ok offset in
  raise* WebAuthnRejected MALFORMED when negb (Nat.eqb offset (String.length raw));
  Ok {| rp_id_hash := rp_id_hash; flags := flags; sign_count := sign_count;
        credential_id := cid; public_key := key |}.

Definition _check_counter (stored presented : Z) : result exn unit :=
  if (stored =? 0)%Z && (presented =? 0)%Z then Ok tt
  else if (presented <=? stored)%Z then Err (WebAuthnRejected CLONED) else Ok tt.

Section webauthn.
Variable sha256 : string -> string.
(** [json.loads], [None] for [ValueError]; and [str(value)] of a JSON value that
    is not a string. *)
Variable loads : string -> option json.
Variable str_of : json -> string.
Variable lib : keys.

(** Nothing decodes to the empty string. *)
Definition _b64url_decode (value : string) : string :=
  match Base64.b64url_decode value with Some raw => raw | None => "" end.

Definition _client_data (raw expected_type challenge origin : string) : result exn string :=
  match loads raw with
  | None => Err (WebAuthnRejected MALFORMED)
  | Some (JObj payload) =>
      raise* WebAuthnRejected WRONG_TYPE when
        negb (bool_decide (Json.lookup payload "type" = Some (JStr expected_type)));
      let presented := match Json.lookup payload "challenge" with
                       | Some (JStr s) => s
                       | Some v => str_of v
                       | None => ""
                       end in
      raise* WebAuthnRejected CHALLENGE_MISMATCH when
        negb (String.eqb (_b64url_decode presented) challenge);
      raise* WebAuthnRejected ORIGIN_MISMATCH when
        negb (bool_decide (Json.lookup payload "origin" = Some (JStr origin)));
      Ok (sha256 raw)
  | Some _ => Err (WebAuthnRejected MALFORMED)
  end.

Definition _common (authenticator : AuthenticatorData) (rp_id : string) : result exn unit :=
  raise* WebAuthnRejected RP_MISMATCH when negb (String.eqb (rp_id_hash authenticator) (sha256 rp_id));
  raise* WebAuthnRejected USER_NOT_PRESENT when negb (user_present authenticator);
  Ok tt.

Definition malformed_or {A B} (o : option A) (k : A -> B) : result exn B :=
  match o with Some a => Ok (k a) | None => Err (WebAuthnRejected MALFORMED) end.

Definition _public_key (cose_key : string) : result exn (PublicKey lib) :=
  let* parameters := _cose cose_key in
  let kty := map_get parameters (Cbor.Int COSE_KTY) in
  if equals_int kty KTY_EC2 then
    raise* WebAuthnRejected UNSUPPORTED_ALGORITHM when
      negb (equals_int (map_get parameters (Cbor.Int COSE_CRV)) CRV_P256);
    match map_get parameters (Cbor.Int COSE_X), map_get parameters (Cbor.Int COSE_Y) with
    | Some (Cbor.Bytes x), Some (Cbor.Bytes y) =>
        malformed_or (ec_public_key lib (Cbor.be 0 x) (Cbor.be 0 y)) EC
    | _, _ => Err (WebAuthnRejected MALFORMED)
    end
  else if equals_int kty KTY_RSA then
    match map_get parameters (Cbor.Int COSE_RSA_N), map_get parameters (Cbor.Int COSE_RSA_E) with
    | Some (Cbor.Bytes modulus), Some (Cbor.Bytes exponent) =>
        malformed_or (rsa_public_key lib (Cbor.be 0 exponent) (Cbor.be 0 modulus)) RSA
    | _, _ => Err (WebAuthnRejected MALFORMED)
    end
  else if equals_int kty KTY_OKP then
    raise* WebAuthnRejected UNSUPPORTED_ALGORITHM when
      negb (equals_int (map_get parameters (Cbor.Int COSE_CRV)) CRV_ED25519);
    match map_get parameters (Cbor.Int COSE_X) with
    | Some (Cbor.Bytes x) => malformed_or (ed_public_key lib x) OKP
    | _ => Err (WebAuthnRejected MALFORMED)
    end
  else Err (WebAuthnRejected UNSUPPORTED_ALGORITHM).

Definition signature_or (ok : bool) : result exn unit :=
  if ok then Ok tt else Err (WebAuthnRejected SIGNATURE_INVALID).

Definition _check_signature (key : PublicKey lib) (algorithm : Z) (signature message : string)
  : result exn unit :=
  match key with
  | EC k => if (algorithm =? ES256)%Z then signature_or (ec_verify lib k signature message)
            else Err (WebAuthnRejected UNSUPPORTED_ALGORITHM)
  | RSA k => if (algorithm =? RS256)%Z then signature_or (rsa_verify lib k signature message)
             else Err (WebAuthnRejected UNSUPPORTED_ALGORITHM)
  | OKP k => if (algorithm =? EDDSA)%Z then signature_or (ed_verify lib k signature message)
             else Err (WebAuthnRejected UNSUPPORTED_ALGORITHM)
  end.

Definition register (client_data attestation_object challenge origin rp_id : string)
  : result exn Registration :=
  let* _ := _client_data client_data "webauthn.create" challenge origin in
  let* attestation := decoding (Cbor.decode attestation_object) in
  match attestation with
  | Cbor.Map m =>
      match map_get m (Cbor.Text "fmt") with
      | Some (Cbor.Text "none") =>
          match map_get m (Cbor.Text "authData") with
          | Some (Cbor.Bytes raw) =>
              let* authenticator := parse_authenticator_data raw true in
              let* _ := _common authenticator rp_id in
              match credential_id authenticator, public_key authenticator with
              | Some cid, Some key =>
                  let* algorithm := _algorithm key in
                  let* _ := _public_key key in
                  Ok {| r_credential_id := cid; r_public_key := key;
                        r_sign_count := sign_count authenticator;
                        r_user_verified := user_verified authenticator;
                        r_algorithm := algorithm |}
              | _, _ => Err (WebAuthnRejected MALFORMED)
              end
          | _ => Err (WebAuthnRejected MALFORMED)
          end
      | _ => Err (WebAuthnRejected UNSUPPORTED_ATTESTATION)
      end
  | _ => Err (WebAuthnRejected MALFORMED)
  end.

Definition verify (client_data authenticator_data signature public_key credential_id : string)
    (stored_sign_count : Z) (challenge origin rp_id : string) : result exn Assertion :=
  let* client_hash := _client_data client_data "webauthn.get" challenge origin in
  let* authenticator := parse_authenticator_data authenticator_data false in
  let* _ := _common authenticator rp_id in
  let* key := _public_key public_key in
  let* algorithm := _algorithm public_key in
  let* _ := _check_signature key algorithm signature (authenticator_data +:+ client_hash) in
  let* _ := _check_counter stored_sign_count (sign_count authenticator) in
  Ok {| a_credential_id := credential_id; a_sign_count := sign_count authenticator;
        a_user_verified := user_verified authenticator |}.

(** ** What is accepted *)

(** The browser's half: the ceremony, our challenge, our origin. *)
Definition says (client_data expected_type challenge origin : string) : Prop :=
  exists payload presented, loads client_data = Some (JObj payload) /\
    Json.lookup payload "type" = Some (JStr expected_type) /\
    Json.lookup payload "origin" = Some (JStr origin) /\
    _b64url_decode presented = challenge /\
    (forall s, Json.lookup payload "challenge" = Some (JStr s) -> presented = s).

Lemma client_data_ok raw expected_type challenge origin h :
  _client_data raw expected_type challenge origin = Ok h ->
  h = sha256 raw /\ says raw expected_type challenge origin.
Proof.
  unfold _client_data, says. destruct (loads raw) as [[]|] eqn:El; try done.
  destruct (bool_decide (Json.lookup members "type" = _)) eqn:Et; [|done].
  destruct (String.eqb _ challenge) eqn:Ec; [|done].
  destruct (bool_decide (Json.lookup members "origin" = _)) eqn:Eo; [|done]. cbn [negb].
  intros [= <-]. bool_prop. split; [done|]. eexists members, _. split_and!; [done|done|done|exact Ec|].
  by intros s ->.
Qed.

(** A signature over a message under a key of its own kind. *)
Definition signed_by (key : PublicKey lib) (signature message : string) : Prop :=
  match key with
  | EC k => ec_verify lib k signature message = true
  | RSA k => rsa_verify lib k signature message = true
  | OKP k => ed_verify lib k signature message = true
  end.

Lemma check_signature_ok key algorithm signature message :
  _check_signature key algorithm signature message = Ok tt -> signed_by key signature message.
Proof.
  unfold _check_signature, signature_or, signed_by.
  destruct key as [k|k|k]; (destruct (_ =? _)%Z; [|done]); by destruct (_ lib k signature message).
Qed.

Lemma check_counter_ok stored presented :
  _check_counter stored presented = Ok tt <-> (stored = 0 /\ presented = 0 \/ stored < presented)%Z.
Proof.
  unfold _check_counter. destruct (Z.eqb_spec stored 0), (Z.eqb_spec presented 0); cbn [andb];
    try (destruct (Z.leb_spec presented stored)); split; try done; intros; try lia; auto.
Qed.

Lemma assertion_accepted (client_data authenticator_data signature key cid : string) (stored : Z)
    (challenge origin rp_id : string) (a : Assertion) :
  verify client_data authenticator_data signature key cid stored challenge origin rp_id = Ok a ->
  says client_data "webauthn.get" challenge origin /\
  (exists parsed, parse_authenticator_data authenticator_data false = Ok parsed /\
     rp_id_hash parsed = sha256 rp_id /\ user_present parsed = true /\
     a_sign_count a = sign_count parsed /\ a_user_verified a = user_verified parsed) /\
  (exists pk, _public_key key = Ok pk /\
     signed_by pk signature (authenticator_data +:+ sha256 client_data)) /\
  (a_sign_count a = 0 /\ stored = 0 \/ stored < a_sign_count a)%Z /\
  a_credential_id a = cid.
Proof.
  unfold verify. intros H. apply rbind_ok in H as (h & Hc & H). apply client_data_ok in Hc as [-> Hs].
  apply rbind_ok in H as (p & Hp & H). apply rbind_ok in H as ([] & Hcm & H).
  apply rbind_ok in H as (pk & Hk & H). apply rbind_ok in H as (alg & _ & H).
  apply rbind_ok in H as ([] & Hsig & H). apply rbind_ok in H as ([] & Hct & [= <-]).
  apply check_signature_ok in Hsig. apply check_counter_ok in Hct. cbn. unfold _common in Hcm.
  destruct (String.eqb _ _) eqn:Er; [|done]. destruct (user_present p) eqn:Eu; [|done]. bool_prop.
  split_and!; [done|exists p; done|eauto|lia|done].
Qed.

(** An accepted assertion was made for us, by the holder of the key.  The
    browser reports this ceremony, the outstanding challenge and our origin; the
    authenticator data is for our relying party with the user present; the
    stored key verifies the signature over exactly the authenticator data and
    the hash of the client data as they arrived; and the counter moved forward,
    or neither side counts. *)
Theorem assertion_is_ours (client_data authenticator_data signature key cid : string) (stored : Z)
    (challenge origin rp_id : string) (a : Assertion) :
  verify client_data authenticator_data signature key cid stored challenge origin rp_id = Ok a ->
  says client_data "webauthn.get" challenge origin /\
  (exists parsed, parse_authenticator_data authenticator_data false = Ok parsed /\
     rp_id_hash parsed = sha256 rp_id /\ user_present parsed = true /\
     a_sign_count a = sign_count parsed /\ a_user_verified a = user_verified parsed) /\
  (exists pk, _public_key key = Ok pk /\
     signed_by pk signature (authenticator_data +:+ sha256 client_data)) /\
  (a_sign_count a = 0 /\ stored = 0 \/ stored < a_sign_count a)%Z /\
  a_credential_id a = cid.
Proof. apply assertion_accepted. Qed.


(** A key type and an algorithm that do not belong together. *)
Lemma mismatched_key_never_verifies key k :
  _algorithm key = Ok RS256 -> _public_key key = Ok (EC k) ->
  forall client_data authenticator_data signature cid stored challenge origin rp_id,
  exists reason, verify client_data authenticator_data signature key cid stored challenge origin rp_id =
    Err (WebAuthnRejected reason).
Proof.
  intros Ha Hpk cd ad signature cid stored ch origin rp. unfold verify.
  destruct (_client_data cd _ ch origin) as [h|[rs]]; cbn [rbind]; [|eauto].
  destruct (parse_authenticator_data ad false) as [p'|[rs]]; cbn [rbind]; [|eauto].
  destruct (_common p' rp) as [[]|[rs]]; cbn [rbind]; [|eauto]. rewrite Hpk, Ha. cbn. eauto.
Qed.
End webauthn.

(** ** The authenticator data *)

(** The layout of the specification: the fixed part, the attested credential
    where there is one, the extensions. *)
Definition layout (p : AuthenticatorData) (aaguid extensions : string) : string :=
  rp_id_hash p +:+ Cbor.be_bytes 1 (flags p) +:+ Cbor.be_bytes 4 (sign_count p) +:+
  match credential_id p, public_key p with
  | Some cid, Some key => aaguid +:+ Cbor.be_bytes 2 (Z.of_nat (String.length cid)) +:+ cid +:+ key
  | _, _ => ""
  end +:+ extensions.

(** One item of canonical CBOR. *)
Definition canonical (s : string) : Prop :=
  exists v, Cbor.encodable (S Cbor.MAX_DEPTH) v /\ s = Cbor.encode v.

Lemma slice_split raw n m :
  (n <= m <= String.length raw)%nat ->
  Py.drop n raw = Py.slice raw n m +:+ Py.drop m raw /\ String.length (Py.slice raw n m) = (m - n)%nat.
Proof.
  intros H. unfold Py.slice. split.
  - replace m with (n + (m - n))%nat at 2 by lia. by rewrite <- Cbor.drop_drop, Py.take_drop.
  - rewrite Cbor.take_length, Cbor.drop_length. lia.
Qed.

Lemma decode_prefix_slice raw offset r :
  Cbor.decode_prefix (Py.drop offset raw) = Ok r ->
  Py.drop offset raw = Py.slice raw offset (offset + r.2) +:+ Py.drop (offset + r.2) raw /\
  canonical (Py.slice raw offset (offset + r.2)).
Proof.
  destruct r as [v n]. unfold Cbor.decode_prefix. intros (Hd & Hn & Hv)%Cbor.item_sound. cbn [snd].
  cbn [Py.drop] in Hd. rewrite Cbor.drop_drop in Hd. cbn [Nat.add] in Hn.
  assert (Py.slice raw offset (offset + n) = Cbor.encode v) as E.
  { unfold Py.slice. replace (offset + n - offset)%nat with (String.length (Cbor.encode v)) by lia.
    by rewrite Hd, Cbor.take_app. }
  rewrite E. split; [done|]. by exists v.
Qed.

(** Parsing accounts for every byte.  What is accepted as authenticator
    data is exactly the layout of the fields read from it, the stored key is one
    canonical item as it arrived, a credential is present exactly when the flags
    say so, and what follows is one canonical item exactly when the flags
    announce extensions, and nothing otherwise. *)
Theorem parse_accounts_for_every_byte (raw : string) (expect : bool) (p : AuthenticatorData) :
  parse_authenticator_data raw expect = Ok p ->
  exists aaguid extensions, raw = layout p aaguid extensions /\
    String.length (rp_id_hash p) = 32%nat /\ (0 <= flags p < 256)%Z /\ (0 <= sign_count p < 2 ^ 32)%Z /\
    (if (Z.land (flags p) AT =? 0)%Z
     then credential_id p = None /\ public_key p = None /\ expect = false
     else exists cid key, credential_id p = Some cid /\ public_key p = Some key /\
       String.length aaguid = 16%nat /\ (Z.of_nat (String.length cid) < 65536)%Z /\ canonical key) /\
    (if (Z.land (flags p) ED =? 0)%Z then extensions = "" else canonical extensions).
Proof.
  unfold parse_authenticator_data. destruct (Nat.ltb_spec (String.length raw) 37) as [|Hlen]; [done|]. intros H.
  pose proof (eq_sym (Py.take_drop 32 raw)) as E0.
  assert (String.length (Py.take 32 raw) = 32%nat) as L0 by (rewrite Cbor.take_length; lia).
  destruct (slice_split raw 32 33 ltac:(lia)) as [E1 L1].
  destruct (slice_split raw 33 37 ltac:(lia)) as [E2 L2].
  destruct (Cbor.be_range 1 _ L1) as [R1 B1]. destruct (Cbor.be_range 4 _ L2) as [R2 B2].
  set (fl := Cbor.be 0 (Py.slice raw 32 33)) in *. set (sc := Cbor.be 0 (Py.slice raw 33 37)) in *.
  apply rbind_ok in H as ([[cid key] off] & Hc & H). apply rbind_ok in H as (off' & He & H).
  destruct (Nat.eqb_spec off' (String.length raw)) as [->|]; [|done]. cbn [negb] in H.
  assert (p = {| rp_id_hash := Py.take 32 raw; flags := fl; sign_count := sc;
    credential_id := cid; public_key := key |}) as -> by congruence. clear H.
  assert (Py.drop (String.length raw) raw = "") as Hend
    by (rewrite <- (Py.app_nil_r raw) at 2; by rewrite Py.drop_app).
  assert (exists extensions, Py.drop off raw = extensions /\
    (if (Z.land fl ED =? 0)%Z then extensions = "" else canonical extensions)) as (ext & Hext & Hce).
  { exists (Py.drop off raw). split; [done|]. destruct (Z.land fl ED =? 0)%Z; cbn [negb] in He.
    - by injection He as ->.
    - apply rbind_ok in He as (r & Hr & [= Eo]). unfold decoding in Hr.
      destruct (Cbor.decode_prefix (Py.drop off raw)) as [r'|] eqn:Ed; [|done]. injection Hr as ->.
      apply decode_prefix_slice in Ed as [Ed Hcan]. rewrite Eo, Hend, Py.app_nil_r in Ed.
      by rewrite Ed, <- Eo. }
  destruct (Z.land fl AT =? 0)%Z eqn:Eat; cbn [negb] in Hc.
  - destruct expect; [done|]. assert (cid = None /\ key = None /\ off = 37%nat) as (-> & -> & ->) by (split_and!; congruence).
    exists "", ext. unfold layout. cbn [rp_id_hash flags sign_count credential_id public_key]. rewrite Eat.
    split_and!; try done; [|lia..]. rewrite B1, B2, <- Hext. rewrite E0 at 1. rewrite E1. by rewrite E2.
  - destruct (Nat.ltb_spec (String.length raw) (37 + 18)) as [|H55]; [done|].
    destruct (slice_split raw 37 53 ltac:(lia)) as [E3 L3]. destruct (slice_split raw 53 55 ltac:(lia)) as [E4 L4].
    change (37 + 16)%nat with 53%nat in Hc. change (53 + 2)%nat with 55%nat in Hc.
    destruct (Cbor.be_range 2 _ L4) as [R4 B4].
    set (n := Cbor.be 0 (Py.slice raw 53 55)) in *.
    destruct (Nat.ltb_spec (String.length raw) (55 + Z.to_nat n)) as [|Hn]; [done|].
    destruct (slice_split raw 55 (55 + Z.to_nat n) ltac:(lia)) as [E5 L5].
    apply rbind_ok in Hc as (r & Hr & Hc).
    assert (cid = Some (Py.slice raw 55 (55 + Z.to_nat n)) /\
      key = Some (Py.slice raw (55 + Z.to_nat n) (55 + Z.to_nat n + r.2)) /\
      off = (55 + Z.to_nat n + r.2)%nat) as (-> & -> & ->) by (split_and!; congruence). clear Hc.
    unfold decoding in Hr.
    destruct (Cbor.decode_prefix (Py.drop (55 + Z.to_nat n) raw)) as [r'|] eqn:Ed; [|done].
    assert (r' = r) as -> by congruence.
    apply decode_prefix_slice in Ed as [Ed Hcan].
    exists (Py.slice raw 37 53), ext. unfold layout. cbn [rp_id_hash flags sign_count credential_id public_key]. rewrite Eat.
    split_and!; try done; [|lia..|].
    + rewrite B1, B2, L5. replace (Z.of_nat (55 + Z.to_nat n - 55)) with n by lia. rewrite B4, <- Hext.
      rewrite E0 at 1. rewrite E1, E2, E3, E4, E5. rewrite Ed. by rewrite !Py.app_assoc.
    + eexists _, _. split_and!; [done|done|lia| |done]. rewrite L5. change (256 ^ Z.of_nat 2)%Z with 65536%Z in R4. lia.
Qed.

(** ** Registration *)

Definition demo_hash (s : string) : string := Py.take 32 (s +:+ Py.repeat_str 32 "h").
Definition demo_loads (s : string) : option json :=
  if String.eqb s "create" then
    Some (JObj [("type", JStr "webauthn.create"); ("challenge", JStr (Base64.b64url "nonce")); ("origin", JStr "https://id.test")])
  else if String.eqb s "get" then
    Some (JObj [("type", JStr "webauthn.get"); ("challenge", JStr (Base64.b64url "nonce")); ("origin", JStr "https://id.test")])
  else None.
Definition demo_keys : keys :=
  {| ec_key := Z * Z; rsa_key := Z * Z; ed_key := string;
     ec_public_key := fun x y => Some (x, y); rsa_public_key := fun e n => Some (e, n); ed_public_key := Some;
     ec_verify := fun _ s m => String.eqb s m; rsa_verify := fun _ s m => String.eqb s m;
     ed_verify := fun _ s m => String.eqb s m |}.

(** A COSE key of the elliptic kind with a given algorithm. *)
Definition demo_cose (algorithm : Z) : string :=
  Cbor.encode (Cbor.Map [(Cbor.Int COSE_KTY, Cbor.Int KTY_EC2); (Cbor.Int COSE_ALG, Cbor.Int algorithm);
    (Cbor.Int COSE_CRV, Cbor.Int CRV_P256); (Cbor.Int COSE_X, Cbor.Bytes "x"); (Cbor.Int COSE_Y, Cbor.Bytes "y")]).
Definition demo_auth_data (algorithm : Z) : string :=
  layout {| rp_id_hash := demo_hash "id.test"; flags := 65; sign_count := 5;
            credential_id := Some "cred"; public_key := Some (demo_cose algorithm) |} (Py.repeat_str 16 "g") "".
Definition demo_attestation (algorithm : Z) : string :=
  Cbor.encode (Cbor.Map [(Cbor.Text "fmt", Cbor.Text "none"); (Cbor.Text "attStmt", Cbor.Map []);
    (Cbor.Text "authData", Cbor.Bytes (demo_auth_data algorithm))]).
Definition demo_assertion_data (count : Z) : string :=
  layout {| rp_id_hash := demo_hash "id.test"; flags := 1; sign_count := count; credential_id := None; public_key := None |} "" "".

Definition demo_verify (count stored : Z) : result exn Assertion :=
  verify demo_hash demo_loads (fun _ => "") demo_keys "get" (demo_assertion_data count)
    (demo_assertion_data count +:+ demo_hash "get") (demo_cose ES256) "cred" stored "nonce" "https://id.test" "id.test".

Lemma assertion_is_ours_witness :
  exists a, demo_verify 6 5 = Ok a /\ a_sign_count a = 6%Z /\ (5 < a_sign_count a)%Z.
Proof.
  assert (exists a, demo_verify 6 5 = Ok a /\ a_sign_count a = 6%Z) as (a & E & Ea)
    by (eexists; vm_compute; split; reflexivity).
  exists a. split; [exact E|]. split; [exact Ea|].
  destruct (assertion_is_ours demo_hash demo_loads (fun _ => "") demo_keys "get" _ _ _ "cred" 5 "nonce"
    "https://id.test" "id.test" a E) as (_ & _ & _ & [[H _]|H] & _); [lia|exact H].
Defined.

Lemma parse_accounts_for_every_byte_witness :
  exists p aaguid ext, parse_authenticator_data (demo_auth_data ES256) true = Ok p /\
    demo_auth_data ES256 = layout p aaguid ext.
Proof.
  assert (exists p, parse_authenticator_data (demo_auth_data ES256) true = Ok p) as [p E]
    by (eexists; vm_compute; reflexivity).
  destruct (parse_accounts_for_every_byte _ _ _ E) as (aaguid & ext & H & _).
  exists p, aaguid, ext. split; [exact E|exact H].
Defined.

(** A credential can be enrolled that never verifies.  Registration checks
    that the algorithm is supported and that the key can be built, not that the
    two belong together: an elliptic-curve key labelled RS256 is enrolled, and
    every assertion made with it is refused. *)
Theorem mismatched_key_enrols :
  exists r, register demo_hash demo_loads (fun _ => "") demo_keys "create" (demo_attestation RS256) "nonce"
      "https://id.test" "id.test" = Ok r /\
    forall client_data authenticator_data signature cid stored challenge origin rp_id, exists reason,
      verify demo_hash demo_loads (fun _ => "") demo_keys client_data authenticator_data signature
        (r_public_key r) cid stored challenge origin rp_id = Err (WebAuthnRejected reason).
Proof.
  eexists. split; [vm_compute; reflexivity|]. cbn [r_public_key].
  apply (mismatched_key_never_verifies demo_hash demo_loads (fun _ => "") demo_keys _ (120, 121)%Z);
    vm_compute; reflexivity.
Qed.

End WebAuthn.
