(* ===== verification/Factors.v ===== *)
(** * The second-factor store

    [campusid/mfa/models.py] and [campusid/mfa/store.py]: enrolling and using
    TOTP, WebAuthn and recovery codes.  The two tables are lists of rows.  An
    operation runs one transaction; [verify_totp], [confirm_totp] and
    [redeem_recovery_code] read rows and write later, so they are also split at
    that point and run as threads that interleave.  New identifiers, secrets and
    entropy are arguments. *)

From S2P Require Import Prelude PyStr Base64 Json Cbor Totp Recovery WebAuthn.

Module Factors.

Definition TOTP := "totp".
Definition WEBAUTHN := "webauthn".
Definition PUSH := "push".

(** [CATEGORY[kind]]. *)
Definition CATEGORY (kind : string) : string :=
  if String.eqb kind TOTP then "otp" else if String.eqb kind WEBAUTHN then "hwk" else "push".

Record MfaFactor : Type := {
  f_id : string;
  f_person : string;
  f_kind : string;
  f_label : string;
  f_secret : option string;
  f_last_step : option Z;
  f_credential_id : option string;
  f_public_key : option string;
  f_sign_count : option Z;
  f_algorithm : option Z;
  f_created_at : moment;
  f_confirmed_at : option moment;
  f_last_used_at : option moment;
  f_disabled_at : option moment;
}.

Record RecoveryCode : Type := {
  c_id : string;
  c_person : string;
  c_hash : string;
  c_issued_at : moment;
  c_used_at : option moment;
  c_superseded_at : option moment;
}.

Record Db : Type := { factors : list MfaFactor; codes : list RecoveryCode }.

Definition NO_FACTOR := "mfa.no_such_factor".
Definition DUPLICATE_LABEL := "mfa.duplicate_label".
Definition DUPLICATE_CREDENTIAL := "mfa.credential_already_registered".
Definition NO_SUCH_CODE := "mfa.no_such_recovery_code".
Definition CODE_SPENT := "mfa.recovery_code_spent".

Inductive exn : Type :=
| MfaError (reason : string)
| FromTotp (e : Totp.exn)
| FromWebAuthn (e : WebAuthn.exn).

(** ** Rows *)

Definition is_null {A} (o : option A) : bool := match o with None => true | Some _ => false end.

Definition set_factor (g : MfaFactor -> MfaFactor) (id : string) (db : Db) : Db :=
  {| factors := map (fun f => if String.eqb (f_id f) id then g f else f) (factors db); codes := codes db |}.

Definition add_factor (f : MfaFactor) (db : Db) : Db :=
  {| factors := factors db ++ [f]; codes := codes db |}.

(** The unique indexes a new row can violate. *)
Definition label_taken (f : MfaFactor) (db : Db) : bool :=
  existsb (fun g => String.eqb (f_person g) (f_person f) && String.eqb (f_label g) (f_label f)) (factors db).
Definition credential_taken (f : MfaFactor) (db : Db) : bool :=
  match f_credential_id f with
  | None => false
  | Some c => existsb (fun g => bool_decide (f_credential_id g = Some c)) (factors db)
  end.

(** ** Queries *)

Definition _live (db : Db) (person factor_id : string) : option MfaFactor :=
  List.find (fun f => String.eqb (f_id f) factor_id && String.eqb (f_person f) person && is_null (f_disabled_at f))
    (factors db).

Definition is_confirmed (person : string) (kind : option string) (f : MfaFactor) : bool :=
  String.eqb (f_person f) person && is_null (f_disabled_at f) && negb (is_null (f_confirmed_at f)) &&
  match kind with Some k => String.eqb (f_kind f) k | None => true end.

Definition older (a b : MfaFactor) : Prop := (f_created_at a <= f_created_at b)%Z.
#[global] Instance older_dec a b : Decision (older a b).
Proof. unfold older. apply _. Defined.

Definition _confirmed (db : Db) (person : string) (kind : option string) : list MfaFactor :=
  merge_sort older
    (List.filter (is_confirmed person kind) (factors db)).

Definition credential_ids (db : Db) (person : string) : list string :=
  omap f_credential_id (_confirmed db person (Some WEBAUTHN)).

Definition categories_for (db : Db) (person : string) : list string :=
  remove_dups (map (fun f => CATEGORY (f_kind f)) (_confirmed db person None)).

Definition has_factor (db : Db) (person : string) : bool :=
  negb (bool_decide (categories_for db person = [])).

Definition factors_for (db : Db) (person : string) : list MfaFactor :=
  merge_sort older
    (List.filter (fun f => String.eqb (f_person f) person) (factors db)).

(** ** Enrolment *)

Definition begin_totp (db : Db) (person label factor_id secret : string) (now : moment)
  : result exn (Db * (string * string)) :=
  let f := {| f_id := factor_id; f_person := person; f_kind := TOTP; f_label := label;
              f_secret := Some secret; f_last_step := None; f_credential_id := None; f_public_key := None;
              f_sign_count := None; f_algorithm := None; f_created_at := now; f_confirmed_at := None;
              f_last_used_at := None; f_disabled_at := None |} in
  raise* MfaError DUPLICATE_LABEL when label_taken f db;
  Ok (add_factor f db, (factor_id, secret)).

Definition disable (db : Db) (person factor_id : string) (now : moment) : result exn Db :=
  match _live db person factor_id with
  | None => Err (MfaError NO_FACTOR)
  | Some f =>
      Ok (set_factor (fun f => {| f_id := f_id f; f_person := f_person f; f_kind := f_kind f; f_label := f_label f;
        f_secret := f_secret f; f_last_step := f_last_step f; f_credential_id := f_credential_id f;
        f_public_key := f_public_key f; f_sign_count := f_sign_count f; f_algorithm := f_algorithm f;
        f_created_at := f_created_at f; f_confirmed_at := f_confirmed_at f; f_last_used_at := f_last_used_at f;
        f_disabled_at := Some now |}) factor_id db)
  end.

(** The step and the time of use a successful code leaves on its row. *)
Definition mark (step : Z) (now : moment) (f : MfaFactor) : MfaFactor :=
  {| f_id := f_id f; f_person := f_person f; f_kind := f_kind f; f_label := f_label f;
     f_secret := f_secret f; f_last_step := Some step; f_credential_id := f_credential_id f;
     f_public_key := f_public_key f; f_sign_count := f_sign_count f; f_algorithm := f_algorithm f;
     f_created_at := f_created_at f; f_confirmed_at := f_confirmed_at f; f_last_used_at := Some now;
     f_disabled_at := f_disabled_at f |}.

Definition confirm (now : moment) (f : MfaFactor) : MfaFactor :=
  {| f_id := f_id f; f_person := f_person f; f_kind := f_kind f; f_label := f_label f;
     f_secret := f_secret f; f_last_step := f_last_step f; f_credential_id := f_credential_id f;
     f_public_key := f_public_key f; f_sign_count := f_sign_count f; f_algorithm := f_algorithm f;
     f_created_at := f_created_at f; f_confirmed_at := Some now; f_last_used_at := f_last_used_at f;
     f_disabled_at := f_disabled_at f |}.

Definition count (n : Z) (now : moment) (f : MfaFactor) : MfaFactor :=
  {| f_id := f_id f; f_person := f_person f; f_kind := f_kind f; f_label := f_label f;
     f_secret := f_secret f; f_last_step := f_last_step f; f_credential_id := f_credential_id f;
     f_public_key := f_public_key f; f_sign_count := Some n; f_algorithm := f_algorithm f;
     f_created_at := f_created_at f; f_confirmed_at := f_confirmed_at f; f_last_used_at := Some now;
     f_disabled_at := f_disabled_at f |}.

Section store.
Variable hmac_sha1 : string -> string -> string.
Variable isspace isdigit : Z -> bool.

Definition totp_verify := Totp.verify hmac_sha1 isspace isdigit.

(** ** TOTP: what is read, and what is written *)

(** The read of [confirm_totp]: the factor, and the step its code proves. *)
Definition confirm_read (db : Db) (person factor_id : string) (code : list Z) (now : moment) : result exn Z :=
  match _live db person factor_id with
  | None => Err (MfaError NO_FACTOR)
  | Some f =>
      match f_secret f with
      | None => Err (MfaError NO_FACTOR)
      | Some secret =>
          match totp_verify secret code now (f_last_step f) Totp.DRIFT with
          | Ok step => Ok step
          | Err e => Err (FromTotp e)
          end
      end
  end.
(** Its write: not conditional on the row. *)
Definition confirm_write (db : Db) (factor_id : string) (step : Z) (now : moment) : Db :=
  set_factor (fun f => confirm now (mark step now f)) factor_id db.

Definition confirm_totp (db : Db) (person factor_id : string) (code : list Z) (now : moment)
  : result exn Db :=
  let* step := confirm_read db person factor_id code now in
  Ok (confirm_write db factor_id step now).

(** The loop of [verify_totp] over the rows it read, up to the first that
    accepts the code; the last refusal is kept for the case none does. *)
Fixpoint first_match (code : list Z) (now : moment) (last : option Totp.exn) (l : list MfaFactor)
  : result exn (MfaFactor * Z) :=
  match l with
  | [] => Err (FromTotp (match last with Some e => e | None => Totp.TotpRejected Totp.MISMATCH end))
  | f :: l' =>
      match f_secret f with
      | None => first_match code now last l'
      | Some secret =>
          match totp_verify secret code now (f_last_step f) Totp.DRIFT with
          | Ok step => Ok (f, step)
          | Err (Totp.TotpRejected rs) => first_match code now (Some (Totp.TotpRejected rs)) l'
          | Err e => Err (FromTotp e)
          end
      end
  end.

Definition verify_read (db : Db) (person : string) (code : list Z) (now : moment)
  : result exn (MfaFactor * Z) :=
  first_match code now None (_confirmed db person (Some TOTP)).

(** [update ... where id = ... and last_step is not distinct from ...]. *)
Definition _advance (db : Db) (f : MfaFactor) (step : Z) (now : moment) : Db * bool :=
  let hit g := String.eqb (f_id g) (f_id f) && bool_decide (f_last_step g = f_last_step f) in
  ({| factors := map (fun g => if hit g then mark step now g else g) (factors db); codes := codes db |},
   existsb hit (factors db)).

Definition verify_totp (db : Db) (person : string) (code : list Z) (now : moment)
  : result exn (Db * string) :=
  let* r := verify_read db person code now in
  let '(db', won) := _advance db r.1 r.2 now in
  raise* FromTotp (Totp.TotpRejected Totp.REPLAY) when negb won;
  Ok (db', f_id r.1).

(** ** Threads *)

Inductive thread : Type :=
| Verifying (person : string) (code : list Z) (now : moment)
| Advancing (f : MfaFactor) (step : Z) (now : moment)
| Confirming (person factor_id : string) (code : list Z) (now : moment)
| Writing (factor_id : string) (step : Z) (now : moment)
| Accepted (factor_id : string) (step : Z)
| Refused.

(** One statement of a thread against the tables as they are now. *)
Definition thread_step (db : Db) (t : thread) : Db * thread :=
  match t with
  | Verifying person code now =>
      match verify_read db person code now with
      | Ok (f, step) => (db, Advancing f step now)
      | Err _ => (db, Refused)
      end
  | Advancing f step now =>
      let '(db', won) := _advance db f step now in
      (db', if won then Accepted (f_id f) step else Refused)
  | Confirming person factor_id code now =>
      match confirm_read db person factor_id code now with
      | Ok step => (db, Writing factor_id step now)
      | Err _ => (db, Refused)
      end
  | Writing factor_id step now => (confirm_write db factor_id step now, Accepted factor_id step)
  | Accepted _ _ | Refused => (db, t)
  end.

Record system : Type := System { sys_db : Db; sys_pool : list thread }.

(** Other transactions may change the tables, as long as the mark of every
    factor stays what it is and identifiers stay unique. *)
Definition marks_kept (db db' : Db) : Prop :=
  NoDup (map f_id (factors db')) /\
  forall f, f ∈ factors db -> exists g, g ∈ factors db' /\ f_id g = f_id f /\ f_last_step g = f_last_step f.

Inductive sys_step : system -> system -> Prop :=
| sys_thread i t db pool :
    pool !! i = Some t ->
    sys_step (System db pool) (System (thread_step db t).1 (<[i := (thread_step db t).2]> pool))
| sys_other db db' pool : marks_kept db db' -> sys_step (System db pool) (System db' pool).

Fixpoint sys_sched (l : list nat) (s : system) : system :=
  match l with
  | [] => s
  | i :: l' =>
      sys_sched l' (match sys_pool s !! i with
                    | Some t => System (thread_step (sys_db s) t).1 (<[i := (thread_step (sys_db s) t).2]> (sys_pool s))
                    | None => s
                    end)
  end.

Lemma sys_sched_steps l s : rtc sys_step s (sys_sched l s).
Proof.
  revert s. induction l as [|i l IH]; intros [db pool]; cbn; [done|].
  destruct (pool !! i) as [t|] eqn:E; [|apply IH]. eapply rtc_l; [by apply sys_thread|apply IH].
Qed.

(** ** One acceptance per step *)

Definition verify_only (t : thread) : Prop :=
  match t with Confirming _ _ _ _ | Writing _ _ _ => False | _ => True end.

(** The row of an identifier carries a mark of at least [step]. *)
Definition marked (db : Db) (id : string) (step : Z) : Prop :=
  exists f m, f ∈ factors db /\ f_id f = id /\ f_last_step f = Some m /\ (step <= m)%Z.

Record sound (s : system) : Prop := {
  sound_ids : NoDup (map f_id (factors (sys_db s)));
  sound_pool : Forall verify_only (sys_pool s);
  sound_advancing i f step now : sys_pool s !! i = Some (Advancing f step now) ->
    match f_last_step f with Some l => (l < step)%Z | None => True end;
  sound_accepted i id step : sys_pool s !! i = Some (Accepted id step) -> marked (sys_db s) id step;
  sound_distinct i j id step : i <> j ->
    sys_pool s !! i = Some (Accepted id step) -> sys_pool s !! j <> Some (Accepted id step);
}.

Lemma row_unique l f g :
  NoDup (map f_id l) -> f ∈ l -> g ∈ l -> f_id f = f_id g -> f = g.
Proof.
  induction l as [|h l IH]; [intros _ Hf; by apply elem_of_nil in Hf|]. cbn. intros Hn.
  apply NoDup_cons in Hn as [Hh Hn]. intros Hf Hg E.
  assert (forall x, x ∈ l -> f_id x ∈ map f_id l) as Hin.
  { intros x Hx. apply list_elem_of_In, in_map. by apply list_elem_of_In. }
  apply elem_of_cons in Hf as [->|Hf]; apply elem_of_cons in Hg as [->|Hg]; [done| | |by apply IH].
  - exfalso. apply Hh. rewrite E. by apply Hin.
  - exfalso. apply Hh. rewrite <- E. by apply Hin.
Qed.

Lemma first_match_ok code now last l f step :
  first_match code now last l = Ok (f, step) ->
  f ∈ l /\ match f_last_step f with Some m => (m < step)%Z | None => True end.
Proof.
  revert last. induction l as [|g l IH]; intros last; cbn; [done|].
  destruct (f_secret g) as [secret|].
  - destruct (totp_verify _ _ _ _ _) as [st|[]] eqn:E; try done.
    + intros [= -> ->]. split; [constructor|]. unfold totp_verify in E. by apply Totp.verify_sound in E as (_ & ? & _).
    + intros [? ?]%IH. split; [by constructor|done].
  - intros [? ?]%IH. split; [by constructor|done].
Qed.

Lemma first_match_verifies code now last l f step : first_match code now last l = Ok (f, step) ->
  f ∈ l /\ exists secret, f_secret f = Some secret /\ totp_verify secret code now (f_last_step f) Totp.DRIFT = Ok step.
Proof.
  revert last. induction l as [|g l IH]; intros last; cbn; [done|]. destruct (f_secret g) as [secret|] eqn:Es.
  - destruct (totp_verify _ _ _ _ _) as [st|[]] eqn:E; try done.
    + intros [= -> ->]. split; [constructor|]. by exists secret.
    + intros [? ?]%IH. split; [by constructor|done].
  - intros [? ?]%IH. split; [by constructor|done].
Qed.

Lemma advance_ids db f step now : map f_id (factors (_advance db f step now).1) = map f_id (factors db).
Proof.
  unfold _advance. cbn. rewrite map_map. apply map_ext. intros g. by destruct (_ && _).
Qed.

(** A lost update changes nothing; a won one raises the mark of its row from
    what was read, and leaves the others. *)
Lemma advance_spec db f step now :
  NoDup (map f_id (factors db)) ->
  match (_advance db f step now).2 with
  | false => factors (_advance db f step now).1 = factors db
  | true => exists g, g ∈ factors db /\ f_id g = f_id f /\ f_last_step g = f_last_step f /\
      mark step now g ∈ factors (_advance db f step now).1 /\
      (forall h, h ∈ factors db -> f_id h <> f_id f -> h ∈ factors (_advance db f step now).1)
  end.
Proof.
  intros Hn. unfold _advance. cbn [snd fst factors].
  set (hit g := String.eqb (f_id g) (f_id f) && bool_decide (f_last_step g = f_last_step f)).
  destruct (existsb hit (factors db)) eqn:E.
  - apply existsb_exists in E as (g & Hg & Hh). exists g. subst hit. cbv beta in Hh. bool_prop.
    split_and!; [by apply list_elem_of_In|done|done| |].
    + apply list_elem_of_In, in_map_iff. exists g. split; [|done].
      by rewrite H, String.eqb_refl, H0, bool_decide_true.
    + intros h Hin Hne. apply list_elem_of_In, in_map_iff. exists h. split; [|by apply list_elem_of_In].
      destruct (String.eqb_spec (f_id h) (f_id f)); [done|]. done.
  - assert (forall l, existsb hit l = false -> map (fun g => if hit g then mark step now g else g) l = l) as Hm.
    { induction l as [|g l IH]; cbn; [done|]. intros H. apply orb_false_iff in H as [-> H]. by rewrite IH. }
    by apply Hm.
Qed.


Lemma marked_kept db db' id step : marks_kept db db' -> marked db id step -> marked db' id step.
Proof.
  intros [_ Hk] (f & m & Hf & Hid & Hm & Hle). destruct (Hk f Hf) as (g & Hg & Hgid & Hgm).
  exists g, m. split_and!; [done|congruence|congruence|done].
Qed.

Lemma marked_advance db f step now id st :
  NoDup (map f_id (factors db)) -> match f_last_step f with Some l => (l < step)%Z | None => True end ->
  marked db id st ->
  marked (_advance db f step now).1 id st.
Proof.
  intros Hn Hlt (h & m & Hh & Hid & Hm & Hle). pose proof (advance_spec db f step now Hn) as Ha.
  destruct (_advance db f step now).2.
  - destruct Ha as (g & Hg & Hgid & Hgm & Hin & Hrest).
    destruct (decide (f_id h = f_id f)) as [E|E]; [|exists h, m; by auto].
    assert (h = g) as -> by (apply (row_unique (factors db)); congruence).
    exists (mark step now g), step. split_and!; [done|done|done|]. rewrite <- Hgm, Hm in Hlt. lia.
  - unfold marked. rewrite Ha. eauto 10.
Qed.

Lemma advance_fresh db f step now id st :
  NoDup (map f_id (factors db)) -> match f_last_step f with Some l => (l < step)%Z | None => True end ->
  (_advance db f step now).2 = true -> marked db id st -> id = f_id f -> (st < step)%Z.
Proof.
  intros Hn Hlt Hw (h & m & Hh & Hid & Hm & Hle) ->. pose proof (advance_spec db f step now Hn) as Ha.
  rewrite Hw in Ha. destruct Ha as (g & Hg & Hgid & Hgm & _).
  assert (h = g) as -> by (apply (row_unique (factors db)); congruence).
  rewrite <- Hgm, Hm in Hlt. lia.
Qed.

Lemma sound_step s s' : sys_step s s' -> sound s -> sound s'.
Proof.
  intros Hs [Hids Hpool Hadv Hacc Hdist]. destruct Hs as [i t db pool Hi|db db' pool Hk]; cbn in *; last first.
  { split; cbn; [by destruct Hk|done|done| |done]. intros j id st Hj. eapply marked_kept; eauto. }
  pose proof (Forall_lookup_1 _ _ _ _ Hpool Hi) as Hvo.
  pose proof (lookup_lt_Some _ _ _ Hi) as Hlt.
  destruct t as [person code now|f step now|? ? ? ?|? ? ?|fid step|]; cbn [thread_step] in *; try done.
  - assert (forall t', verify_only t' -> (forall id st, t' <> Accepted id st) ->
      (forall f st n, t' = Advancing f st n -> match f_last_step f with Some l => (l < st)%Z | None => True end) ->
      sound (System db (<[i:=t']> pool))) as Hnew.
    { intros t' Hvt Hna Hav. split; cbn; [done|by apply Forall_insert|..].
      - intros j g st n Hj. apply list_lookup_insert_Some in Hj as [(_ & E & _)|[_ Hj]]; [by eapply Hav|by eapply Hadv].
      - intros j id st Hj. apply list_lookup_insert_Some in Hj as [(_ & E & _)|[_ Hj]]; [by destruct (Hna id st)|by eapply Hacc].
      - intros j k id st Hne Hj Hk. apply list_lookup_insert_Some in Hj as [(_ & E & _)|[_ Hj]]; [by destruct (Hna id st)|].
        apply list_lookup_insert_Some in Hk as [(_ & E & _)|[_ Hk]]; [by destruct (Hna id st)|].
        by eapply (Hdist j k). }
    destruct (verify_read db person code now) as [[f step]|] eqn:E; cbn [fst snd].
    + apply Hnew; [done|done|]. intros g st n [= -> -> ->]. by apply first_match_ok in E as [_ ?].
    + by apply Hnew.
  - pose proof (Hadv i f step now Hi) as Hst. pose proof (advance_fresh db f step now) as Hf.
    pose proof (marked_advance db f step now) as Hma. pose proof (advance_spec db f step now Hids) as Hsp.
    pose proof (advance_ids db f step now) as Hai. revert Hf Hma Hsp Hai.
    destruct (_advance db f step now) as [db' won]. cbn [fst snd]. intros Hf Hma Hsp Hai.
    split; cbn; [by rewrite Hai|apply Forall_insert; [done|by destruct won]|..].
    + intros j g st n Hj. apply list_lookup_insert_Some in Hj as [(_ & E & _)|[_ Hj]]; [by destruct won|].
      by eapply Hadv.
    + intros j id st Hj. apply list_lookup_insert_Some in Hj as [(_ & E & _)|[_ Hj]]; [|by eauto].
      destruct won; [|done]. injection E as <- <-. destruct Hsp as (g & Hg & Hgid & _ & Hin & _).
      exists (mark step now g), step. split_and!; [done|done|done|lia].
    + intros j k id st Hne Hj Hk.
      apply list_lookup_insert_Some in Hj as [(Hji & E & _)|[Hji Hj]];
        apply list_lookup_insert_Some in Hk as [(Hki & E' & _)|[Hki Hk]]; [congruence| | |by eapply (Hdist j k)].
      * destruct won; [|done]. injection E as <- <-.
        specialize (Hf _ _ Hids Hst eq_refl (Hacc _ _ _ Hk) eq_refl). lia.
      * destruct won; [|done]. injection E' as <- <-.
        specialize (Hf _ _ Hids Hst eq_refl (Hacc _ _ _ Hj) eq_refl). lia.
  - rewrite list_insert_id by done. by split.
  - rewrite list_insert_id by done. by split.
Qed.

(** C28: A code is spent once.  However any number of verifications, of any
    codes by any people, interleave between their read and their write, with
    each other and with transactions that leave the marks alone, no two of them
    are accepted for the same step of the same factor. *)
Theorem totp_step_single_use (db : Db) (attempts : list (string * list Z * moment)) (s : system)
    (i j : nat) (id : string) (step : Z) :
  NoDup (map f_id (factors db)) ->
  rtc sys_step (System db ((fun a => Verifying a.1.1 a.1.2 a.2) <$> attempts)) s ->
  sys_pool s !! i = Some (Accepted id step) -> sys_pool s !! j = Some (Accepted id step) -> i = j.
Proof.
  intros Hn Hs Hi Hj.
  assert (sound (System db ((fun a => Verifying a.1.1 a.1.2 a.2) <$> attempts))) as H0.
  { split; cbn; [done|by apply Forall_fmap, Forall_true|..].
    - intros k f st n Hk. by apply list_lookup_fmap_Some in Hk as (a & E & _).
    - intros k id' st Hk. by apply list_lookup_fmap_Some in Hk as (a & E & _).
    - intros k k' id' st _ Hk. by apply list_lookup_fmap_Some in Hk as (a & E & _). }
  assert (sound s) as [_ _ _ _ Hd].
  { clear Hi Hj. induction Hs as [|x y z Hxy _ IH]; [done|]. apply IH. by eapply sound_step. }
  destruct (decide (i = j)) as [|Hne]; [done|]. by destruct (Hd i j id step Hne Hi).
Qed.

End store.

(** ** WebAuthn *)

Section webauthn.
Variable sha256 : string -> string.
Variable loads : string -> option json.
Variable str_of : json -> string.
Variable lib : WebAuthn.keys.

(** The database names the index a rejected row violates: the label index is
    checked first, in the order the indexes were created. *)
Definition register_webauthn (db : Db) (person label factor_id : string)
    (client_data attestation_object challenge origin rp_id : string) (now : moment)
  : result exn (Db * string) :=
  match WebAuthn.register sha256 loads str_of lib client_data attestation_object challenge origin rp_id with
  | Err e => Err (FromWebAuthn e)
  | Ok r =>
      let f := {| f_id := factor_id; f_person := person; f_kind := WEBAUTHN; f_label := label;
                  f_secret := None; f_last_step := None;
                  f_credential_id := Some (WebAuthn.r_credential_id r);
                  f_public_key := Some (WebAuthn.r_public_key r);
                  f_sign_count := Some (WebAuthn.r_sign_count r);
                  f_algorithm := Some (WebAuthn.r_algorithm r); f_created_at := now;
                  f_confirmed_at := Some now; f_last_used_at := None; f_disabled_at := None |} in
      raise* MfaError DUPLICATE_LABEL when label_taken f db;
      raise* MfaError DUPLICATE_CREDENTIAL when credential_taken f db;
      Ok (add_factor f db, factor_id)
  end.

Definition credential_row (db : Db) (person credential_id : string) : option MfaFactor :=
  List.find (fun f => bool_decide (f_credential_id f = Some credential_id) &&
                 is_confirmed person (Some WEBAUTHN) f) (factors db).

Definition verify_webauthn (db : Db) (person credential_id client_data authenticator_data signature
    challenge origin rp_id : string) (now : moment) : result exn (Db * WebAuthn.Assertion) :=
  match credential_row db person credential_id with
  | None => Err (MfaError NO_FACTOR)
  | Some f =>
      match f_public_key f with
      | None => Err (MfaError NO_FACTOR)
      | Some key =>
          match WebAuthn.verify sha256 loads str_of lib client_data authenticator_data signature key
                  credential_id (default 0%Z (f_sign_count f)) challenge origin rp_id with
          | Err e => Err (FromWebAuthn e)
          | Ok a => Ok (set_factor (count (WebAuthn.a_sign_count a) now) (f_id f) db, a)
          end
      end
  end.

Lemma credential_unique l f g cid :
  NoDup (omap f_credential_id l) -> f ∈ l -> g ∈ l ->
  f_credential_id f = Some cid -> f_credential_id g = Some cid -> f = g.
Proof.
  induction l as [|x l IH]; [intros _ Hf; by apply elem_of_nil in Hf|]. cbn. intros Hn Hf Hg Ef Eg.
  assert (forall y, y ∈ l -> f_credential_id y = Some cid -> cid ∈ omap f_credential_id l) as Hy
    by (intros y ? ?; apply list_elem_of_omap; eauto).
  apply elem_of_cons in Hf as [->|Hf]; apply elem_of_cons in Hg as [->|Hg]; [done|..].
  - rewrite Ef in Hn. apply NoDup_cons in Hn as [Hn _]. exfalso. by eapply Hn, Hy.
  - rewrite Eg in Hn. apply NoDup_cons in Hn as [Hn _]. exfalso. by eapply Hn, Hy.
  - apply IH; [|done..]. destruct (f_credential_id x); [by apply NoDup_cons in Hn as [_ ?]|done].
Qed.

(** A credential authenticates its own person, and its counter only rises.
    An accepted assertion used a confirmed, live credential enrolled for that
    person; the row's counter becomes the presented one, which is above what was
    stored unless neither side counts; and presenting the same assertion again
    is refused, unless the authenticator does not count. *)
Theorem webauthn_counter_rises (db db' : Db) (person cid client_data auth_data signature challenge origin rp_id : string)
    (now : moment) (a : WebAuthn.Assertion) :
  NoDup (map f_id (factors db)) ->
  NoDup (omap f_credential_id (factors db)) ->
  verify_webauthn db person cid client_data auth_data signature challenge origin rp_id now = Ok (db', a) ->
  (exists f, f ∈ factors db /\ f_person f = person /\ f_credential_id f = Some cid /\ f_disabled_at f = None /\
     is_confirmed person (Some WEBAUTHN) f = true /\
     count (WebAuthn.a_sign_count a) now f ∈ factors db' /\
     (WebAuthn.a_sign_count a = 0 /\ default 0%Z (f_sign_count f) = 0 \/
      default 0%Z (f_sign_count f) < WebAuthn.a_sign_count a)%Z) /\
  (WebAuthn.a_sign_count a <> 0%Z -> forall person' later, exists e,
     verify_webauthn db' person' cid client_data auth_data signature challenge origin rp_id later = Err e).
Proof.
  intros Hids Hcids H. unfold verify_webauthn in H.
  destruct (credential_row db person cid) as [f|] eqn:Ef; [|done].
  apply find_some in Ef as [Hin Hf]. apply list_elem_of_In in Hin.
  apply andb_true_iff in Hf as [Hfc Hconf]. apply bool_decide_eq_true in Hfc.
  destruct (f_public_key f) as [key|] eqn:Ek; [|done].
  destruct (WebAuthn.verify _ _ _ _ _ _ _ _ _ _ _ _ _) as [a'|] eqn:Ev; [|done]. injection H as <- <-.
  pose proof (WebAuthn.assertion_accepted _ _ _ _ _ _ _ _ _ _ _ _ _ _ Ev) as (Hsays & (p & Hp & Hrp & Hup & Hc & _) & Hsig & Hcnt & _).
  pose proof Hconf as Hc'. unfold is_confirmed in Hc'. bool_prop.
  assert (count (WebAuthn.a_sign_count a') now f ∈ factors (set_factor (count (WebAuthn.a_sign_count a') now) (f_id f) db)) as Hnew.
  { cbn. apply list_elem_of_In, in_map_iff. exists f. split; [by rewrite String.eqb_refl|by apply list_elem_of_In]. }
  split.
  - exists f. split_and!; try done. destruct (f_disabled_at f); done.
  - clear Ev. intros Hnz person' later. unfold verify_webauthn at 1.
    destruct (credential_row (set_factor _ _ db) person' cid) as [g|] eqn:Eg; [|eauto].
    apply find_some in Eg as [Hg Hgc]. bool_prop. cbn in Hg. apply in_map_iff in Hg as (g0 & Hg0 & Hg).
    assert (g0 = f) as ->.
    { apply list_elem_of_In in Hg. assert (f_credential_id g0 = Some cid) as Hc0.
      { destruct (String.eqb (f_id g0) (f_id f)); subst g; done. }
      by apply (credential_unique (factors db) _ _ cid). }
    rewrite String.eqb_refl in Hg0. subst g. cbn [f_public_key count f_sign_count default]. rewrite Ek.
    destruct (WebAuthn.verify _ _ _ _ _ _ _ _ _ _ _ _ _) as [b|] eqn:Eb; [|eexists; reflexivity].
    apply WebAuthn.assertion_accepted in Eb as (_ & (q & Hq & _ & _ & Hqc & _) & _ & Hb & _).
    rewrite Hp in Hq. injection Hq as <-. unfold id in Hb. lia.
Qed.
End webauthn.

(** ** Recovery codes *)

Section recovery.
Variable argon2_hash : string -> string.
Variable argon2_verify : string -> string -> option bool.

Definition live_code (person : string) (c : RecoveryCode) : bool :=
  String.eqb (c_person c) person && is_null (c_used_at c) && is_null (c_superseded_at c).

Definition supersede (now : moment) (c : RecoveryCode) : RecoveryCode :=
  {| c_id := c_id c; c_person := c_person c; c_hash := c_hash c; c_issued_at := c_issued_at c;
     c_used_at := c_used_at c; c_superseded_at := Some now |}.
Definition use (now : moment) (c : RecoveryCode) : RecoveryCode :=
  {| c_id := c_id c; c_person := c_person c; c_hash := c_hash c; c_issued_at := c_issued_at c;
     c_used_at := Some now; c_superseded_at := c_superseded_at c |}.

(** The entropy of the codes and the identifiers of their rows are arguments. *)
Definition issue_recovery_codes (db : Db) (person : string) (fresh : list (string * string)) (now : moment)
  : Db * list string :=
  let issued := map (fun e => Recovery._format e.2) fresh in
  ({| factors := factors db;
      codes := map (fun c => if live_code person c then supersede now c else c) (codes db) ++
        map (fun e => {| c_id := e.1; c_person := person; c_hash := Recovery.hash_code argon2_hash (Recovery._format e.2);
                         c_issued_at := now; c_used_at := None; c_superseded_at := None |}) fresh |},
   issued).

(** What [redeem_recovery_code] reads: the first live code that matches, and
    how many live codes there are. *)
Definition redeem_read (db : Db) (person code : string) : result exn (RecoveryCode * nat) :=
  let live := List.filter (live_code person) (codes db) in
  match List.find (fun c => Recovery.matches argon2_verify (c_hash c) code) live with
  | None => Err (MfaError NO_SUCH_CODE)
  | Some c => Ok (c, length live)
  end.

(** The conditional write. *)
Definition redeem_write (db : Db) (c : RecoveryCode) (now : moment) : Db * bool :=
  let hit d := String.eqb (c_id d) (c_id c) && is_null (c_used_at d) in
  ({| factors := factors db; codes := map (fun d => if hit d then use now d else d) (codes db) |},
   existsb hit (codes db)).

Definition redeem_recovery_code (db : Db) (person code : string) (now : moment) : result exn (Db * nat) :=
  let* r := redeem_read db person code in
  let '(db', spent) := redeem_write db r.1 now in
  raise* MfaError CODE_SPENT when negb spent;
  Ok (db', (r.2 - 1)%nat).

Definition recovery_codes_remaining (db : Db) (person : string) : nat :=
  length (List.filter (live_code person) (codes db)).

(** Argon2 verifies exactly the text a hash was made from. *)
Definition argon2_faithful : Prop := forall x y, argon2_verify (argon2_hash x) y = Some (String.eqb x y).

(** The row a fresh code gets. *)
Definition fresh_row (person : string) (now : moment) (e : string * string) : RecoveryCode :=
  {| c_id := e.1; c_person := person; c_hash := Recovery.hash_code argon2_hash (Recovery._format e.2);
     c_issued_at := now; c_used_at := None; c_superseded_at := None |}.

Lemma live_after_issue db person fresh now :
  List.filter (live_code person) (codes (issue_recovery_codes db person fresh now).1) =
  map (fresh_row person now) fresh.
Proof.
  cbn. rewrite List.filter_app.
  assert (forall l, List.filter (live_code person)
    (map (fun c => if live_code person c then supersede now c else c) l) = []) as ->.
  { induction l as [|c l IH]; [done|]. cbn. destruct (live_code person c) eqn:E; cbn.
    - unfold live_code at 1. cbn. rewrite andb_false_r. done.
    - by rewrite E. }
  cbn. induction fresh as [|e l IH]; [done|]. cbn. unfold live_code at 1. cbn.
  rewrite String.eqb_refl. cbn. by rewrite IH.
Qed.

Lemma matches_fresh (Hf : argon2_faithful) person now e typed :
  Recovery.matches argon2_verify (c_hash (fresh_row person now e)) typed =
  String.eqb (Recovery.normalise (Recovery._format e.2)) (Recovery.normalise typed).
Proof. unfold Recovery.matches, fresh_row, Recovery.hash_code. cbn. by rewrite Hf. Qed.

Lemma filter_none {A} (p : A -> bool) l : (forall x, In x l -> p x = false) -> List.filter p l = [].
Proof.
  induction l as [|x l IH]; intros H; [done|]. cbn. rewrite H by (by left).
  apply IH. intros y Hy. apply H. by right.
Qed.

Lemma length_without (l : list (string * string)) e :
  NoDup l -> e ∈ l -> length (List.filter (fun x => negb (bool_decide (x = e))) l) = (length l - 1)%nat.
Proof.
  induction l as [|x l IH]; intros Hn He; [by apply elem_of_nil in He|]. apply NoDup_cons in Hn as [Hx Hn].
  cbn. destruct (decide (x = e)) as [->|Hxe].
  - rewrite bool_decide_true by done. cbn [negb].
    assert (forall l', e ∉ l' -> List.filter (fun x => negb (bool_decide (x = e))) l' = l') as ->; [|lia|done].
    induction l' as [|y l' IHl]; intros Hy; [done|]. cbn. rewrite bool_decide_false by set_solver. cbn.
    rewrite IHl by set_solver. done.
  - rewrite bool_decide_false by done. cbn [negb length]. apply elem_of_cons in He as [->|He]; [done|].
    rewrite IH by done. destruct l; [by apply elem_of_nil in He|]. cbn. lia.
Qed.

(** Of a fresh sheet, the codes still live once one of them is spent. *)
Lemma filter_spent person t0 t1 fresh e :
  NoDup (map fst fresh) -> e ∈ fresh ->
  List.filter (live_code person)
    (map (fun d => if String.eqb (c_id d) (c_id (fresh_row person t0 e)) && is_null (c_used_at d) then use t1 d else d)
      (map (fresh_row person t0) fresh)) =
  map (fresh_row person t0) (List.filter (fun x => negb (bool_decide (x = e))) fresh).
Proof.
  intros Hn He.
  assert (forall x, x ∈ fresh -> x.1 = e.1 -> x = e) as Hfst.
  { revert Hn He. clear. induction fresh as [|y l IH]; intros Hn He x Hx E; [by apply elem_of_nil in Hx|].
    cbn in Hn. apply NoDup_cons in Hn as [Hy Hn].
    assert (forall z, z ∈ l -> z.1 ∈ map fst l) as Hz.
    { intros z Hz. apply list_elem_of_In, in_map. by apply list_elem_of_In. }
    apply elem_of_cons in Hx as [->|Hx]; apply elem_of_cons in He as [->|He]; [done|..|by apply IH].
    - exfalso. apply Hy. rewrite E. by apply Hz.
    - exfalso. apply Hy. rewrite <- E. by apply Hz. }
  clear Hn He. induction fresh as [|x l IH]; [done|]. cbn [map List.filter].
  specialize (IH ltac:(intros y Hy; apply Hfst; by constructor)).
  specialize (Hfst x ltac:(constructor)). cbn [c_id fresh_row c_used_at is_null] in *. rewrite andb_true_r.
  destruct (String.eqb_spec x.1 e.1) as [E|E].
  - rewrite bool_decide_true by (by apply Hfst). cbn [negb]. unfold live_code at 1. cbn. by rewrite andb_false_r.
  - rewrite bool_decide_false by (intros ->; done). cbn [negb map]. unfold live_code at 1. cbn.
    rewrite String.eqb_refl. cbn. by f_equal.
Qed.

(** A recovery sheet replaces the last one and each of its codes works
    once.  After a sheet is issued exactly its codes are live; a code of it,
    however it is typed, is redeemed and leaves one fewer; typed again it is
    refused; and a code of any other entropy, an older sheet's included, is
    refused throughout. *)
Theorem recovery_sheet_single_use (db : Db) (person : string) (fresh : list (string * string))
    (e : string * string) (other typed typed' older_typed : string) (t0 t1 t2 : moment) :
  argon2_faithful ->
  NoDup (map fst fresh) -> NoDup (map snd fresh) ->
  (forall c, c ∈ codes db -> c_id c ∉ map fst fresh) ->
  (forall x, x ∈ fresh -> String.length x.2 = Recovery.CODE_BYTES) -> e ∈ fresh ->
  String.length other = Recovery.CODE_BYTES -> other ∉ map snd fresh ->
  Recovery.transcribes (Recovery._format e.2) typed -> Recovery.transcribes (Recovery._format e.2) typed' ->
  Recovery.transcribes (Recovery._format other) older_typed ->
  let issued := (issue_recovery_codes db person fresh t0).1 in
  recovery_codes_remaining issued person = length fresh /\
  redeem_recovery_code issued person older_typed t1 = Err (MfaError NO_SUCH_CODE) /\
  exists db', redeem_recovery_code issued person typed t1 = Ok (db', (length fresh - 1)%nat) /\
    recovery_codes_remaining db' person = (length fresh - 1)%nat /\
    redeem_recovery_code db' person typed' t2 = Err (MfaError NO_SUCH_CODE).
Proof.
  intros Hf Hni Hne Hfresh Hlen He Hol Hoin Ht Ht' Hot issued.
  pose proof (live_after_issue db person fresh t0) as Hlive. fold issued in Hlive.
  apply Recovery.transcribes_normalise in Ht, Ht', Hot.
  assert (forall x raw, x ∈ fresh -> String.length raw = Recovery.CODE_BYTES -> x.2 <> raw ->
    Recovery.normalise (Recovery._format x.2) <> Recovery.normalise (Recovery._format raw)) as Hdiff.
  { intros x raw Hx Hr Hn E. apply Hn. by apply Recovery.normalise_inj; [apply Hlen| |]. }
  assert (forall p, (forall x, x ∈ fresh -> p (fresh_row person t0 x) = bool_decide (x = e)) ->
    List.find p (map (fresh_row person t0) fresh) = Some (fresh_row person t0 e)) as Hfind.
  { clear -He Hne. intros p Hp. induction fresh as [|x l IH]; [by apply elem_of_nil in He|]. cbn.
    rewrite Hp by constructor. destruct (decide (x = e)) as [->|Hxe]; [by rewrite bool_decide_true|].
    rewrite bool_decide_false by done. apply elem_of_cons in He as [->|He]; [done|].
    apply NoDup_cons in Hne as [_ Hne]. apply IH; [done..|]. intros y Hy. apply Hp. by constructor. }
  assert (forall x, x ∈ fresh -> x.2 = e.2 -> x = e) as Hsnd.
  { clear -Hne He. intros x Hx E. induction fresh as [|y l IH]; [by apply elem_of_nil in Hx|].
    cbn in Hne. apply NoDup_cons in Hne as [Hy Hne].
    assert (forall z, z ∈ l -> z.2 ∈ map snd l) as Hz.
    { intros z Hz. apply list_elem_of_In, in_map. by apply list_elem_of_In. }
    apply elem_of_cons in Hx as [->|Hx]; apply elem_of_cons in He as [->|He]; [done|..|by apply IH].
    - exfalso. apply Hy. rewrite E. by apply Hz.
    - exfalso. apply Hy. rewrite <- E. by apply Hz. }
  split_and!.
  - unfold recovery_codes_remaining. by rewrite Hlive, length_map.
  - unfold redeem_recovery_code, redeem_read. rewrite Hlive.
    destruct (List.find _ _) as [c|] eqn:E; [|done]. exfalso.
    apply find_some in E as [Hc Hm]. apply in_map_iff in Hc as (x & <- & Hx). apply list_elem_of_In in Hx.
    rewrite matches_fresh in Hm by done. apply String.eqb_eq in Hm. rewrite Hot in Hm.
    apply (Hdiff x other Hx Hol); [|done]. intros E. apply Hoin. rewrite <- E.
    apply list_elem_of_In, in_map. by apply list_elem_of_In.
  - assert (redeem_read issued person typed = Ok (fresh_row person t0 e, length fresh)) as Hr.
    { unfold redeem_read. rewrite Hlive, (Hfind (fun c => Recovery.matches argon2_verify (c_hash c) typed)).
      - by rewrite length_map.
      - intros x Hx. rewrite matches_fresh by done. rewrite Ht.
        destruct (decide (x = e)) as [->|Hxe]; [by rewrite String.eqb_refl, bool_decide_true|].
        rewrite bool_decide_false by done. apply String.eqb_neq. apply Hdiff; [done|by apply Hlen|].
        intros E. by apply Hxe, Hsnd. }
    assert (codes issued = map (fun c => if live_code person c then supersede t0 c else c) (codes db) ++
      map (fresh_row person t0) fresh) as Hcodes by done.
    unfold redeem_recovery_code. rewrite Hr. cbn [rbind fst snd]. unfold redeem_write.
    set (hit d := String.eqb (c_id d) (c_id (fresh_row person t0 e)) && is_null (c_used_at d)).
    assert (existsb hit (codes issued) = true) as ->.
    { apply existsb_exists. exists (fresh_row person t0 e). split.
      - rewrite Hcodes. apply in_app_iff. right. apply in_map. by apply list_elem_of_In.
      - subst hit. cbn. by rewrite String.eqb_refl. }
    cbn [negb]. eexists. split; [reflexivity|].
    assert (List.filter (live_code person) (map (fun d => if hit d then use t1 d else d) (codes issued)) =
      map (fresh_row person t0) (List.filter (fun x => negb (bool_decide (x = e))) fresh)) as Hlive'.
    { rewrite Hcodes, map_app, List.filter_app.
      rewrite filter_none, app_nil_l; [by apply (filter_spent person t0 t1 fresh e)|].
      intros c Hc. rewrite map_map in Hc. apply in_map_iff in Hc as (c0 & <- & _).
      destruct (live_code person c0) eqn:E; destruct (hit _); cbn; unfold live_code; cbn;
        rewrite ?andb_false_r; try done; try exact E. }
    subst hit. cbv beta in Hlive'. split.
    + unfold recovery_codes_remaining. cbn [codes]. rewrite Hlive', length_map.
      clear -Hni He Hsnd. assert (NoDup fresh) as Hn by (by apply NoDup_fmap_1 in Hni).
      by apply length_without.
    + unfold redeem_recovery_code, redeem_read. cbn [codes]. rewrite Hlive'.
      destruct (List.find _ _) as [c|] eqn:E; [|done]. exfalso.
      apply find_some in E as [Hc Hm]. apply in_map_iff in Hc as (x & <- & Hx).
      apply filter_In in Hx as [Hx Hxe]. apply list_elem_of_In in Hx. apply negb_true_iff, bool_decide_eq_false in Hxe.
      rewrite matches_fresh in Hm by done. apply String.eqb_eq in Hm. rewrite Ht' in Hm.
      apply (Hdiff x e.2 Hx); [by apply Hlen| |done]. intros E. by apply Hxe, Hsnd.
Qed.

End recovery.

(** ** Witnesses *)

Section witnesses.

Definition demo_secret := "JBSWY3DPEHPK3PXP".
Definition demo_now : moment := 1704067200 * SECOND.
Definition demo_space (c : Z) : bool := (c =? 32)%Z.

(** The code points of a code. *)
Fixpoint points (s : string) : list Z :=
  match s with EmptyString => [] | String c s' => Cbor.byte c :: points s' end.

Definition demo_code (step : Z) : list Z :=
  match Totp.code_at Totp.demo_hmac demo_secret step with Ok c => points c | Err _ => [] end.

Definition demo_factor (last : option Z) : MfaFactor :=
  {| f_id := "f1"; f_person := "sam"; f_kind := TOTP; f_label := "phone"; f_secret := Some demo_secret;
     f_last_step := last; f_credential_id := None; f_public_key := None; f_sign_count := None;
     f_algorithm := None; f_created_at := 0; f_confirmed_at := Some 0%Z; f_last_used_at := None;
     f_disabled_at := None |}.
Definition demo_db : Db := {| factors := [demo_factor None]; codes := [] |}.
Definition demo_step : Z := Totp.step_at demo_now.

Definition demo_sched := sys_sched Totp.demo_hmac demo_space Totp.demo_isdigit.

(** Two requests with one code both read before either writes. *)
Definition demo_race : system :=
  demo_sched [0; 1; 1; 0]%nat
    (System demo_db ((fun a => Verifying a.1.1 a.1.2 a.2) <$> replicate 2 ("sam", demo_code demo_step, demo_now))).

Lemma totp_step_single_use_witness :
  sys_pool demo_race = [Refused; Accepted "f1" demo_step] /\ 1%nat = 1%nat.
Proof.
  split; [vm_compute; reflexivity|].
  apply (totp_step_single_use Totp.demo_hmac demo_space Totp.demo_isdigit demo_db
    (replicate 2 ("sam", demo_code demo_step, demo_now)) demo_race 1 1 "f1" demo_step).
  - vm_compute. repeat constructor. by intros ?%elem_of_nil.
  - apply sys_sched_steps.
  - vm_compute; reflexivity.
  - vm_compute; reflexivity.
Defined.

(** Confirming again gives a spent code back.  The write of a confirmation
    is not conditional on the mark it read, so a confirmation of an earlier step
    that was read before a verification and written after it lowers the mark,
    and the code the verification spent is accepted a second time. *)
Theorem confirmation_lowers_the_mark :
  let s := demo_sched [0; 1; 1; 0; 2; 2]%nat
    (System demo_db [Confirming "sam" "f1" (demo_code (demo_step - 1)) demo_now;
                     Verifying "sam" (demo_code demo_step) demo_now;
                     Verifying "sam" (demo_code demo_step) demo_now]) in
  sys_pool s = [Accepted "f1" (demo_step - 1); Accepted "f1" demo_step; Accepted "f1" demo_step].
Proof. vm_compute. reflexivity. Qed.

Definition demo_credential (n : Z) : MfaFactor :=
  {| f_id := "k1"; f_person := "sam"; f_kind := WEBAUTHN; f_label := "key"; f_secret := None;
     f_last_step := None; f_credential_id := Some "cred"; f_public_key := Some (WebAuthn.demo_cose WebAuthn.ES256);
     f_sign_count := Some n; f_algorithm := Some WebAuthn.ES256; f_created_at := 0; f_confirmed_at := Some 0%Z;
     f_last_used_at := None; f_disabled_at := None |}.

Definition demo_webauthn (db : Db) (person : string) (n : Z) (now : moment) : result exn (Db * WebAuthn.Assertion) :=
  verify_webauthn WebAuthn.demo_hash WebAuthn.demo_loads (fun _ => "") WebAuthn.demo_keys db person "cred" "get"
    (WebAuthn.demo_assertion_data n) (WebAuthn.demo_assertion_data n +:+ WebAuthn.demo_hash "get")
    "nonce" "https://id.test" "id.test" now.

Lemma webauthn_counter_rises_witness :
  exists db' a, demo_webauthn {| factors := [demo_credential 5]; codes := [] |} "sam" 6 1 = Ok (db', a) /\
    exists e, demo_webauthn db' "sam" 6 2 = Err e.
Proof.
  assert (exists db' a, demo_webauthn {| factors := [demo_credential 5]; codes := [] |} "sam" 6 1 = Ok (db', a) /\
    WebAuthn.a_sign_count a = 6%Z) as (db' & a & E & Ea) by (eexists _, _; vm_compute; split; reflexivity).
  exists db', a. split; [exact E|].
  assert (NoDup ["k1"]) as H1 by (repeat constructor; by intros ?%elem_of_nil).
  assert (NoDup ["cred"]) as H2 by (repeat constructor; by intros ?%elem_of_nil).
  destruct (webauthn_counter_rises WebAuthn.demo_hash WebAuthn.demo_loads (fun _ => "") WebAuthn.demo_keys
    {| factors := [demo_credential 5]; codes := [] |} _ _ _ _ _ _ _ _ _ _ _ H1 H2 E) as [_ H]. apply H. lia.
Defined.

Definition demo_hash (x : string) : string := x.
Definition demo_check (stored typed : string) : option bool := Some (String.eqb stored typed).
Definition demo_sheet : list (string * string) := [("c1", "0123456789"); ("c2", "abcdefghij")].

Lemma recovery_sheet_single_use_witness :
  exists db', redeem_recovery_code demo_check (issue_recovery_codes demo_hash demo_db "sam" demo_sheet 0).1
    "sam" "6Ork4csm 6mv3eEls" 1 = Ok (db', 1%nat).
Proof.
  destruct (recovery_sheet_single_use demo_hash demo_check demo_db "sam" demo_sheet ("c1", "0123456789")
    "ABCDEFGHIJ" "6Ork4csm 6mv3eEls" (Recovery._format "0123456789") (Recovery._format "ABCDEFGHIJ") 0 1 2)
    as (_ & _ & db' & H & _).
  - intros x y. reflexivity.
  - apply (bool_decide_eq_true_1 _). vm_compute. reflexivity.
  - apply (bool_decide_eq_true_1 _). vm_compute. reflexivity.
  - intros c Hc. by apply elem_of_nil in Hc.
  - intros x Hx. repeat (apply elem_of_cons in Hx as [->|Hx]; [reflexivity|]). by apply elem_of_nil in Hx.
  - constructor.
  - reflexivity.
  - cbn. rewrite !elem_of_cons, elem_of_nil. intros [?|[?|[]]]; discriminate.
  - change (Recovery._format ("c1", "0123456789").2) with "60RK-4CSM-6MV3-EE1S".
    repeat first [apply Recovery.tr_nil | apply Recovery.tr_drop
      | apply Recovery.tr_keep | apply Recovery.tr_lower | apply Recovery.tr_zero; [set_solver|]
      | apply Recovery.tr_one; [set_solver|] | apply Recovery.tr_add; [set_solver|]].
  - apply Recovery.transcribes_refl.
  - apply Recovery.transcribes_refl.
  - exists db'. exact H.
Defined.

(** A code of a replaced sheet can still be spent.  The write that spends a
    code asks only that it is unused, so when a new sheet is issued between the
    read and the write of a redemption, the superseded code is redeemed. *)
Theorem superseded_code_redeemed :
  let db := (issue_recovery_codes demo_hash demo_db "sam" demo_sheet 0).1 in
  match redeem_read demo_check db "sam" (Recovery._format "0123456789") with
  | Ok (c, _) =>
      let replaced := (issue_recovery_codes demo_hash db "sam" [("c3", "ABCDEFGHIJ")] 1).1 in
      redeem_recovery_code demo_check replaced "sam" (Recovery._format "0123456789") 2 = Err (MfaError NO_SUCH_CODE) /\
      (redeem_write replaced c 2).2 = true
  | Err _ => False
  end.
Proof. vm_compute. split; reflexivity. Qed.

End witnesses.
End Factors.
