(* ===== verification/Push.v ===== *)
(** * Push approvals

    [campusid/mfa/push.py]: raising a push request and reading its outcome.  The
    service is outside the repository: what it answers, or that it did not, is
    an argument of each call.  The binding of a request to its person is kept in
    Redis, so both calls are programs. *)

From S2P Require Import Prelude PyStr Json Errors Redis Codec OneShot.

Module Push.

Definition BINDING_PREFIX := "mfa:push:".
Definition WINDOW : duration := 60 * SECOND.
Definition PENDING := "pending".
Definition APPROVED := "approved".
Definition DENIED := "denied".
Definition EXPIRED := "expired".
Definition UNAVAILABLE := "unavailable".

(** [PushUnavailable] is an outcome of its own; the identifier the service gave
    the request is [Some], an unusable answer [None]. *)
Inductive sent : Type := Sent (request_id : string) | PushUnavailable.

Definition send (window : duration) (answer : option string) (person_uuid : string) : prog sent :=
  match answer with
  | None => Ret PushUnavailable
  | Some request_id =>
      do* redis_set (BINDING_PREFIX +:+ request_id) (SText person_uuid) (whole_seconds window);
      Ret (Sent request_id)
  end.

(** The status the service reports, [None] when it cannot be reached. *)
Definition outcome (status : option string) (person_uuid request_id : string) : prog string :=
  await* bound := redis_get (BINDING_PREFIX +:+ request_id) in
  if negb (bool_decide (bound = Some (SText person_uuid))) then Ret EXPIRED
  else
    match status with
    | None => Ret UNAVAILABLE
    | Some status =>
        if String.eqb status APPROVED || String.eqb status DENIED || String.eqb status EXPIRED then
          do* redis_delete (BINDING_PREFIX +:+ request_id); Ret status
        else Ret status
    end.

Section proofs.
Context {R : Type} `{RedisLaws R}.

(** A poll that is answered with anything but [expired] found the binding. *)
Lemma outcome_bound (r r' : R) t status person id answer :
  run (outcome status person id) r t = (r', Ok answer) -> answer <> EXPIRED ->
  exists d, r_view r t (BINDING_PREFIX +:+ id) = Some (Entry (VScalar (SText person)) d).
Proof.
  unfold outcome. rewrite run_bind. unfold redis_get. cbn [run].
  pose proof (r_exec_reply r t (GET (BINDING_PREFIX +:+ id))) as Hr. cbn [cmd_key key_step] in Hr.
  destruct (r_exec r t (GET (BINDING_PREFIX +:+ id))) as [r1 rep]. cbn [snd] in Hr. intros E Hne. revert E.
  destruct (r_view r t (BINDING_PREFIX +:+ id)) as [[[s|s] d]|]; cbn in Hr; subst rep; cbn [run failed].
  - destruct (decide (s = SText person)) as [->|Hs]; [by eauto|].
    rewrite bool_decide_false by congruence. cbn. by intros [= _ <-].
  - done.
  - rewrite bool_decide_false by done. cbn. by intros [= _ <-].
Qed.

(** An approval belongs to the person it was raised for, once.  After a
    request is raised, nobody else learns its outcome; its person reads the
    service's answer within the window; and once a settled answer has been
    read, every later poll finds it expired. *)
Theorem approval_is_bound_and_spent (r : R) (window : duration) (t0 t1 t2 : moment)
    (id person other status : string) (answer : option string) :
  (SECOND <= window)%Z -> (t0 <= t1 < t0 + whole_seconds window * SECOND)%Z -> (t1 <= t2)%Z ->
  other <> person -> status ∈ [APPROVED; DENIED; EXPIRED] ->
  let raised := run (send window (Some id) person) r t0 in
  let polled := run (outcome (Some status) person id) raised.1 t1 in
  raised.2 = Ok (Sent id) /\
  (run (outcome answer other id) raised.1 t1).2 = Ok EXPIRED /\
  polled.2 = Ok status /\
  (run (outcome answer person id) polled.1 t2).2 = Ok EXPIRED.
Proof.
  intros Hw Ht1 Ht2 Hne Hst. cbv zeta. set (key := BINDING_PREFIX +:+ id).
  assert (0 < whole_seconds window)%Z as Hpos.
  { unfold whole_seconds, SECOND in *. apply Z.lt_le_trans with 1%Z; [lia|]. apply Z.quot_le_lower_bound; lia. }
  set (r0 := (run (send window (Some id) person) r t0).1).
  assert ((run (send window (Some id) person) r t0).2 = Ok (Sent id)) as ->.
  { rewrite run_result. unfold send. vrun_simpl. by destruct (Z.leb_spec (whole_seconds window) 0); [lia|]. }
  assert (r_view r0 t1 key =
    Some (Entry (VScalar (SText person)) (Some (t0 + whole_seconds window * SECOND)%Z))) as Hv.
  { subst r0. rewrite run_vrun_later by lia. unfold send. vrun_simpl.
    destruct (Z.leb_spec (whole_seconds window) 0); [lia|]. cbn. rewrite vupd_eq. apply age_set; lia. }
  assert (String.eqb status APPROVED || String.eqb status DENIED || String.eqb status EXPIRED = true) as Hset.
  { repeat (apply elem_of_cons in Hst as [->|Hst]; [done|]). by apply elem_of_nil in Hst. }
  assert (outcome (Some status) person id = await* bound := redis_get key in
     if negb (bool_decide (bound = Some (SText person))) then Ret EXPIRED
     else do* redis_delete key; Ret status) as Ho by (unfold outcome; by rewrite Hset).
  split_and!; [done|..].
  - rewrite run_result. unfold outcome. vrun_simpl. fold key. rewrite Hv. cbn [fst snd vrun pbind].
    rewrite bool_decide_false by congruence. done.
  - rewrite Ho, run_result. vrun_simpl. rewrite Hv. simpl. rewrite bool_decide_true by done. simpl. by rewrite vupd_eq.
  - assert (r_view (run (outcome (Some status) person id) r0 t1).1 t1 key = None) as Hgone.
    { rewrite Ho, run_vrun_later by lia. vrun_simpl. rewrite Hv. simpl.
      rewrite bool_decide_true by done. simpl. rewrite vupd_eq. simpl. by rewrite vupd_eq. }
    rewrite run_result. unfold outcome. vrun_simpl. fold key. rewrite (view_None_later _ t1 t2) by done.
    done.
Qed.
End proofs.

Lemma approval_is_bound_and_spent_witness :
  let raised := run (send WINDOW (Some "p1") "sam") (∅ : Store) 0 in
  (run (outcome (Some APPROVED) "eve" "p1") raised.1 1).2 = Ok EXPIRED /\
  (run (outcome (Some APPROVED) "sam" "p1") raised.1 1).2 = Ok APPROVED.
Proof.
  destruct (approval_is_bound_and_spent (∅ : Store) WINDOW 0 1 2 "p1" "sam" "eve" APPROVED (Some APPROVED))
    as (_ & H1 & H2 & _).
  - vm_compute. discriminate.
  - vm_compute. split; [discriminate|reflexivity].
  - lia.
  - discriminate.
  - constructor.
  - split; [exact H1|exact H2].
Defined.

(** Two polls that overlap both read the approval: each finds the binding
    before either deletes it, so one approval answers two ceremonies. *)
Theorem overlapping_polls_share_an_approval :
  let raised := (run (send WINDOW (Some "p1") "sam") (∅ : Store) 0).1 in
  cf_pool (sched [(0%nat, 1%Z); (1%nat, 1%Z); (0%nat, 2%Z); (1%nat, 2%Z)]
    (Config 1 raised (replicate 2 (outcome (Some APPROVED) "sam" "p1")))) =
  [Ret APPROVED; Ret APPROVED].
Proof. vm_compute. reflexivity. Qed.

End Push.
