(* ===== verification/Roles.v ===== *)
(** * Roles and their assignments

    [campusid/authz/roles.py] (the role catalogue: derivations and separation of
    duties, read from a file) and [campusid/authz/store.py] (the assignments of
    a person, one row per origin).  The [role_assignment] table is a list of
    rows in no particular order; a transaction is a function on it.  A date is a
    day number. *)

From S2P Require Import Prelude PyStr Json.

Module Roles.

Inductive Origin : Type := AFFILIATION | GROUP | DIRECT.

#[global] Instance Origin_eq_dec : EqDecision Origin.
Proof. solve_decision. Defined.
#[global] Instance Origin_countable : Countable Origin.
Proof.
  refine (inj_countable' (fun o => match o with AFFILIATION => 0 | GROUP => 1 | DIRECT => 2 end)%nat
    (fun n => match n with 0 => AFFILIATION | 1 => GROUP | _ => DIRECT end)%nat _).
  by intros [].
Defined.

Record Role : Type := {
  ro_id : string;
  ro_display_name : string;
  ro_description : string;
  ro_requires_aal2 : bool;
}.

Record Derivation : Type := { dv_role : string; dv_origin : Origin; dv_value : string }.
Record Conflict : Type := { cf_roles : gset string; cf_reason : string }.
Record Assignment : Type := { as_role : string; as_origin : Origin; as_reference : string }.

Record RoleCatalogue : Type := {
  roles : list (string * Role);
  derivations : list Derivation;
  conflicts : list Conflict;
}.

Inductive role_error : Type := RoleError | UnhashableType | IntegrityError.

Fixpoint find_role (rs : list (string * Role)) (id : string) : option Role :=
  match rs with
  | [] => None
  | (k, r) :: rs' => if String.eqb id k then Some r else find_role rs' id
  end.

Definition declared (rs : list (string * Role)) (id : string) : bool :=
  match find_role rs id with Some _ => true | None => false end.

Definition fires (affiliations groups : gset string) (rule : Derivation) : bool :=
  match dv_origin rule with
  | AFFILIATION => bool_decide (dv_value rule ∈ affiliations)
  | GROUP => bool_decide (dv_value rule ∈ groups)
  | DIRECT => false
  end.

Definition derive (c : RoleCatalogue) (affiliations groups : gset string) : list Assignment :=
  (fun rule => {| as_role := dv_role rule; as_origin := dv_origin rule;
                  as_reference := dv_value rule |})
  <$> List.filter (fires affiliations groups) (derivations c).

Definition conflicting (c : RoleCatalogue) (held : gset string) : list Conflict :=
  List.filter (fun x => bool_decide (cf_roles x ⊆ held)) (conflicts c).

Definition assert_compatible (c : RoleCatalogue) (held : gset string) : result role_error unit :=
  match conflicting c held with [] => Ok tt | _ => Err RoleError end.

Definition requires_aal2 (c : RoleCatalogue) (held : gset string) : bool :=
  existsb (fun id => match find_role (roles c) id with
                     | Some r => ro_requires_aal2 r | None => false end) (elements held).

(** ** Reading the file *)

Section loader.
(** [str(value)] of a value of the document. *)
Context (py_str : json -> string).

(** A non-empty string, or a refusal. *)
Definition nonempty (j : json) : result role_error string :=
  match j with
  | JStr s => if String.eqb s "" then Err RoleError else Ok s
  | _ => Err RoleError
  end.

(** [value in roles]: looking a list or a mapping up in a dict raises. *)
Definition known (rs : list (string * Role)) (j : json) : result role_error bool :=
  match j with
  | JStr s => Ok (declared rs s)
  | JArr _ | JObj _ => Err UnhashableType
  | _ => Ok false
  end.

Fixpoint roles_loop (raw : list json) (catalogue : list (string * Role))
  : result role_error (list (string * Role)) :=
  match raw with
  | [] => Ok catalogue
  | JObj m :: rest =>
      let* role_id := nonempty (Json.get m "id") in
      raise* RoleError when declared catalogue role_id;
      let* display := nonempty (Json.get m "display_name") in
      roles_loop rest (catalogue ++ [(role_id,
        {| ro_id := role_id; ro_display_name := display;
           ro_description := py_str (default (JStr "") (Json.lookup m "description"));
           ro_requires_aal2 := Json.truthy (default (JBool false) (Json.lookup m "requires_aal2")) |})])
  | _ :: _ => Err RoleError
  end.

Definition _roles (raw : json) : result role_error (list (string * Role)) :=
  match raw with
  | JArr (entry :: rest) => roles_loop (entry :: rest) []
  | _ => Err RoleError
  end.

Definition derivation_of (rs : list (string * Role)) (entry : json) : result role_error Derivation :=
  match entry with
  | JObj m =>
      let* ok := known rs (Json.get m "role") in
      raise* RoleError when negb ok;
      let* origin := (match Json.mem m "affiliation", Json.mem m "group" with
                      | true, false => Ok AFFILIATION
                      | false, true => Ok GROUP
                      | _, _ => Err RoleError
                      end) in
      let* value := nonempty (Json.get m (match origin with GROUP => "group" | _ => "affiliation" end)) in
      match Json.get m "role" with
      | JStr role => Ok {| dv_role := role; dv_origin := origin; dv_value := value |}
      | _ => Err RoleError
      end
  | _ => Err RoleError
  end.

Definition _derivations (raw : json) (rs : list (string * Role)) : result role_error (list Derivation) :=
  match raw with
  | JNull => Ok []
  | JArr l => rmap (derivation_of rs) l
  | _ => Err RoleError
  end.

Definition conflict_of (rs : list (string * Role)) (entry : json) : result role_error Conflict :=
  match entry with
  | JObj m =>
      match Json.get m "roles" with
      | JArr named =>
          raise* RoleError when (length named <? 2)%nat;
          let* flags := rmap (known rs) named in
          raise* RoleError when negb (forallb id flags);
          let* reason := nonempty (Json.get m "reason") in
          match Json.strings named with
          | Some names => Ok {| cf_roles := list_to_set names; cf_reason := reason |}
          | None => Err RoleError
          end
      | _ => Err RoleError
      end
  | _ => Err RoleError
  end.

Definition _conflicts (raw : json) (rs : list (string * Role)) : result role_error (list Conflict) :=
  match raw with
  | JNull => Ok []
  | JArr l => rmap (conflict_of rs) l
  | _ => Err RoleError
  end.

Definition load_roles (document : option json) : result role_error RoleCatalogue :=
  match document with
  | Some (JObj m) =>
      let* rs := _roles (Json.get m "roles") in
      let* ds := _derivations (Json.get m "derivations") rs in
      let* cs := _conflicts (Json.get m "separation_of_duties") rs in
      Ok {| roles := rs; derivations := ds; conflicts := cs |}
  | _ => Err RoleError
  end.
End loader.

(** ** The assignments *)

Record RoleAssignment : Type := {
  ra_person : string;
  ra_role : string;
  ra_origin_kind : Origin;
  ra_origin_ref : string;
  ra_valid_from : Z;
  ra_valid_until : option Z;
  ra_granted_by : option string;
}.

Abbreviation table := (list RoleAssignment).

Definition set_until (u : option Z) (row : RoleAssignment) : RoleAssignment :=
  {| ra_person := ra_person row; ra_role := ra_role row; ra_origin_kind := ra_origin_kind row;
     ra_origin_ref := ra_origin_ref row; ra_valid_from := ra_valid_from row;
     ra_valid_until := u; ra_granted_by := ra_granted_by row |}.

(** The constraint on the dates of a row. *)
Definition dates_ok (row : RoleAssignment) : bool :=
  match ra_valid_until row with Some u => (ra_valid_from row <=? u)%Z | None => true end.

Definition _live (row : RoleAssignment) (day : Z) : bool :=
  if (day <? ra_valid_from row)%Z then false
  else match ra_valid_until row with None => true | Some u => (day <? u)%Z end.

Definition of_person (p : string) (row : RoleAssignment) : bool := String.eqb (ra_person row) p.

Definition roles_for (tbl : table) (p : string) (day : Z) : gset string :=
  list_to_set (ra_role <$> List.filter (fun row => of_person p row && _live row day) tbl).

Definition derived_kind (o : Origin) : bool :=
  match o with AFFILIATION | GROUP => true | DIRECT => false end.

Abbreviation key3 := (string * Origin * string)%type.

Definition row_key (row : RoleAssignment) : key3 :=
  (ra_role row, ra_origin_kind row, ra_origin_ref row).

Definition wanted_of (derived : list Assignment) : gset key3 :=
  list_to_set ((fun a => (as_role a, as_origin a, as_reference a)) <$> derived).

(** What the run does to one row of the person's derived assignments. *)
Definition reconcile_row (wanted : gset key3) (today : Z) (row : RoleAssignment) : RoleAssignment :=
  if bool_decide (row_key row ∈ wanted) then
    match ra_valid_until row with
    | Some u => if (u <? today)%Z then set_until None row else row
    | None => row
    end
  else if _live row today then set_until (Some today) row
  else row.

Definition reconciled (p : string) (row : RoleAssignment) : bool :=
  of_person p row && derived_kind (ra_origin_kind row).

Definition new_row (p : string) (today : Z) (k : key3) : RoleAssignment :=
  {| ra_person := p; ra_role := k.1.1; ra_origin_kind := k.1.2; ra_origin_ref := k.2;
     ra_valid_from := today; ra_valid_until := None; ra_granted_by := None |}.

Definition reconcile_derived (tbl : table) (p : string) (derived : list Assignment) (today : Z)
  : table * (nat * nat) :=
  let wanted := wanted_of derived in
  let rows := List.filter (reconciled p) tbl in
  let existing : gset key3 := list_to_set (row_key <$> rows) ∩ wanted in
  let ended := length (List.filter (fun row =>
    negb (bool_decide (row_key row ∈ wanted)) && _live row today) rows) in
  let fresh := elements (wanted ∖ existing) in
  (((fun row => if reconciled p row then reconcile_row wanted today row else row) <$> tbl)
     ++ (new_row p today <$> fresh),
   (length fresh, ended)).

(** [UPDATE] of the first row that satisfies a test. *)
Fixpoint update_first (test : RoleAssignment -> bool) (f : RoleAssignment -> RoleAssignment)
    (tbl : table) : option table :=
  match tbl with
  | [] => None
  | row :: rest =>
      if test row then Some (f row :: rest)
      else match update_first test f rest with
           | Some rest' => Some (row :: rest')
           | None => None
           end
  end.

Definition direct_grant (p role granted_by : string) (row : RoleAssignment) : bool :=
  of_person p row && String.eqb (ra_role row) role && bool_decide (ra_origin_kind row = DIRECT)
  && String.eqb (ra_origin_ref row) granted_by.

(** [today] is [valid_from or date.today()]. *)
Definition grant (c : RoleCatalogue) (tbl : table) (p role granted_by : string) (today : Z)
    (valid_until : option Z) : result role_error (table * bool) :=
  raise* RoleError when negb (declared (roles c) role);
  let held := roles_for tbl p today in
  let* _ := assert_compatible c (held ∪ {[role]}) in
  match update_first (direct_grant p role granted_by) (set_until valid_until) tbl with
  | Some tbl' =>
      raise* IntegrityError when negb (forallb dates_ok tbl');
      Ok (tbl', false)
  | None =>
      let row := {| ra_person := p; ra_role := role; ra_origin_kind := DIRECT;
                    ra_origin_ref := granted_by; ra_valid_from := today;
                    ra_valid_until := valid_until; ra_granted_by := Some granted_by |} in
      raise* IntegrityError when negb (dates_ok row);
      Ok (tbl ++ [row], true)
  end.

Definition revocable (p role : string) (today : Z) (row : RoleAssignment) : bool :=
  of_person p row && String.eqb (ra_role row) role && _live row today.

Definition revoke (tbl : table) (p role : string) (today : Z) : table * nat :=
  ((fun row => if revocable p role today row then set_until (Some today) row else row) <$> tbl,
   length (List.filter (revocable p role today) tbl)).

(** ** Properties *)

Lemma elem_roles_for tbl p day role :
  role ∈ roles_for tbl p day <->
    exists row, row ∈ tbl /\ ra_person row = p /\ ra_role row = role /\ _live row day = true.
Proof.
  unfold roles_for, of_person. rewrite elem_of_list_to_set, list_elem_of_fmap. split.
  - intros (row & -> & Hin). apply list_elem_of_In, filter_In in Hin as [Hin Hp]. bool_prop.
    exists row. split_and!; [by apply list_elem_of_In|done..].
  - intros (row & Hin & Hp & <- & Hl). exists row. split; [done|].
    apply list_elem_of_In, filter_In. split; [by apply list_elem_of_In|].
    apply andb_true_iff. split; [by apply String.eqb_eq|done].
Qed.

Lemma assert_compatible_ok c held :
  assert_compatible c held = Ok tt <-> forall x, x ∈ conflicts c -> ~ cf_roles x ⊆ held.
Proof.
  unfold assert_compatible, conflicting. split.
  - intros H x Hx Hsub. destruct (List.filter _ _) as [|y l] eqn:E; [|done].
    assert (In x []) as []. rewrite <- E. apply filter_In. split; [by apply list_elem_of_In|].
    by apply bool_decide_eq_true.
  - intros H. destruct (List.filter _ _) as [|y l] eqn:E; [done|].
    assert (In y (y :: l)) as Hy by by left. rewrite <- E in Hy. apply filter_In in Hy as [Hy Hs].
    bool_prop. destruct (H y); [by apply list_elem_of_In|done].
Qed.

Lemma update_first_elem test f tbl tbl' row :
  update_first test f tbl = Some tbl' -> row ∈ tbl' ->
  row ∈ tbl \/ exists old, old ∈ tbl /\ test old = true /\ row = f old.
Proof.
  revert tbl'. induction tbl as [|r tbl IH]; intros tbl'; simpl; [done|].
  destruct (test r) eqn:E.
  - intros [= <-] [->|Hin]%elem_of_cons; [right; exists r; set_solver|left; set_solver].
  - destruct (update_first test f tbl) as [t|]; [|done]. intros [= <-] [->|Hin]%elem_of_cons;
      [left; set_solver|]. destruct (IH t eq_refl Hin) as [?|(o & ? & ?)]; [left|right; exists o]; set_solver.
Qed.

(** A grant adds to what the person holds on any day at most the granted role,
    and changes nobody else. *)
Lemma grant_roles c tbl p role by_ today until tbl' created day q :
  grant c tbl p role by_ today until = Ok (tbl', created) ->
  roles_for tbl' q day ⊆ roles_for tbl q day ∪ (if decide (q = p) then {[role]} else ∅).
Proof.
  unfold grant. destruct (negb (declared _ _)); [done|].
  destruct (assert_compatible _ _) as [[]|]; [|done]. simpl. intros H x Hx.
  apply elem_roles_for in Hx as (row & Hin & Hp & Hr & Hl). apply elem_of_union.
  destruct (update_first _ _ _) as [t|] eqn:E.
  - destruct (negb (forallb _ _)); [done|]. injection H as -> _.
    destruct (update_first_elem _ _ _ _ _ E Hin) as [Hin'|(old & Hin' & Ht & ->)].
    + left. apply elem_roles_for. eauto.
    + right. unfold direct_grant, of_person in Ht. bool_prop. simpl in *.
      rewrite decide_True by congruence. set_solver.
  - destruct (negb (dates_ok _)); [done|]. injection H as <- _.
    apply elem_of_app in Hin as [Hin| ->%list_elem_of_singleton].
    + left. apply elem_roles_for. eauto.
    + right. simpl in *. rewrite decide_True by congruence. set_solver.
Qed.

(** A direct grant respects separation of duties on the day it starts.  A
    grant that is accepted names a declared role, and afterwards no conflict of
    the catalogue is inside what the person holds on that day; nobody else's
    roles change, on any day. *)
Theorem grant_respects_separation (c : RoleCatalogue) (tbl tbl' : table) (p role by_ : string)
    (today : Z) (until : option Z) (created : bool) :
  grant c tbl p role by_ today until = Ok (tbl', created) ->
  declared (roles c) role = true /\
  (forall x, x ∈ conflicts c -> ~ cf_roles x ⊆ roles_for tbl' p today) /\
  (forall q day, q <> p -> roles_for tbl' q day ⊆ roles_for tbl q day).
Proof.
  intros H. split_and!.
  - unfold grant in H. destruct (declared _ _); done.
  - intros x Hx Hsub. pose proof (grant_roles _ _ _ _ _ _ _ _ _ today p H) as Hr.
    rewrite decide_True in Hr by done. unfold grant in H. destruct (negb _); [done|].
    destruct (assert_compatible _ _) as [[]|] eqn:E; [|done].
    eapply assert_compatible_ok in E; [|exact Hx]. set_solver.
  - intros q day Hq. pose proof (grant_roles _ _ _ _ _ _ _ _ _ day q H) as Hr.
    rewrite decide_False in Hr by done. set_solver.
Qed.

(** Revoking takes effect the same day, for every origin at once.  After
    [revoke] on a day, the person holds the role on that day for no reason, and
    on a later day only through an assignment that had not started yet; other
    roles and other people are untouched. *)
Theorem revoke_is_immediate (tbl : table) (p role : string) (today day : Z) :
  let tbl' := (revoke tbl p role today).1 in
  role ∉ roles_for tbl' p today /\
  (today <= day -> role ∈ roles_for tbl' p day ->
     exists row, row ∈ tbl /\ ra_person row = p /\ ra_role row = role /\ today < ra_valid_from row)%Z /\
  (forall q role', (q, role') <> (p, role) ->
     role' ∈ roles_for tbl' q day <-> role' ∈ roles_for tbl q day).
Proof.
  cbv zeta.
  assert (forall d, (today <= d)%Z -> role ∈ roles_for (revoke tbl p role today).1 p d ->
    exists row, row ∈ tbl /\ ra_person row = p /\ ra_role row = role /\ (today < ra_valid_from row)%Z /\
      _live row d = true) as Hkey.
  { intros d Hd Hin. apply elem_roles_for in Hin as (row & Hin & Hp & Hr & Hl). simpl in Hin.
    apply list_elem_of_fmap in Hin as (old & -> & Hold).
    destruct (revocable p role today old) eqn:E.
    - simpl in *. unfold _live in Hl. simpl in Hl. case_match; [done|]. bool_prop. lia.
    - exists old. split_and!; [done..| |done]. unfold revocable, of_person in E.
      rewrite (proj2 (String.eqb_eq _ _) Hp), (proj2 (String.eqb_eq _ _) Hr) in E. simpl in E.
      unfold _live in E, Hl. destruct (Z.ltb_spec today (ra_valid_from old)); [done|].
      destruct (ra_valid_until old); [|done]. case_match; [done|]. bool_prop. lia. }
  split_and!.
  - intros Hin. destruct (Hkey today ltac:(lia) Hin) as (row & _ & _ & _ & Hlt & Hl).
    unfold _live in Hl. destruct (Z.ltb_spec today (ra_valid_from row)); [done|lia].
  - intros Hd Hin. destruct (Hkey day Hd Hin) as (row & ? & ? & ? & ? & _). eauto.
  - intros q role' Hne. rewrite !elem_roles_for. split; intros (row & Hin & Hp & Hr & Hl); simpl in *.
    + apply list_elem_of_fmap in Hin as (old & -> & Hold).
      destruct (revocable p role today old) eqn:E; [|by eauto].
      exfalso. unfold revocable, of_person in E. bool_prop. simpl in *. congruence.
    + exists row. split_and!; [|done..]. apply list_elem_of_fmap. exists row. split; [|done].
      destruct (revocable p role today row) eqn:E; [|done].
      exfalso. unfold revocable, of_person in E. bool_prop. congruence.
Qed.

(** ** Reconciling derived roles *)

(** The derived assignment [k] of [p] is in force on a day. *)
Definition holds_derived (tbl : table) (p : string) (k : key3) (day : Z) : Prop :=
  exists row, row ∈ tbl /\ reconciled p row = true /\ row_key row = k /\ _live row day = true.

Lemma reconcile_row_kept wanted today row :
  row_key (reconcile_row wanted today row) = row_key row /\
  ra_person (reconcile_row wanted today row) = ra_person row.
Proof. unfold reconcile_row. by repeat (case_match; simpl). Qed.

Lemma reconciled_reconcile p wanted today row :
  reconciled p (reconcile_row wanted today row) = reconciled p row.
Proof.
  unfold reconciled, of_person. destruct (reconcile_row_kept wanted today row) as [Hk ->].
  unfold row_key in Hk. by simplify_eq/=; congruence.
Qed.

(** No derived assignment of the person starts later than today, and none that
    the facts support ended today. *)
Definition settled (tbl : table) (p : string) (wanted : gset key3) (today : Z) : Prop :=
  forall row, row ∈ tbl -> reconciled p row = true ->
    (ra_valid_from row <= today)%Z /\ (row_key row ∈ wanted -> ra_valid_until row <> Some today).

Lemma elem_row_keys tbl p k :
  k ∈@{gset key3} list_to_set (row_key <$> List.filter (reconciled p) tbl) <->
    exists row, row ∈ tbl /\ reconciled p row = true /\ row_key row = k.
Proof.
  rewrite elem_of_list_to_set, list_elem_of_fmap. split.
  - intros (row & -> & [Hin Hr]%list_elem_of_In%filter_In). exists row. by apply list_elem_of_In in Hin.
  - intros (row & Hin & Hr & <-). exists row. split; [done|].
    apply list_elem_of_In, filter_In. split; [by apply list_elem_of_In|done].
Qed.

(** The rows after a run: every old row, reconciled where it is the person's and
    derived, and a new one for each fact without a row. *)
Lemma reconcile_rows tbl p derived today row :
  row ∈ (reconcile_derived tbl p derived today).1 <->
    (exists old, old ∈ tbl /\
       row = (if reconciled p old then reconcile_row (wanted_of derived) today old else old)) \/
    (exists k, k ∈ wanted_of derived /\
       (forall old, old ∈ tbl -> reconciled p old = true -> row_key old <> k) /\
       row = new_row p today k).
Proof.
  unfold reconcile_derived. simpl. rewrite elem_of_app, !list_elem_of_fmap.
  setoid_rewrite elem_of_elements. setoid_rewrite elem_of_difference.
  setoid_rewrite elem_of_intersection. setoid_rewrite elem_row_keys. split.
  - intros [(old & ? & ?)|(k & -> & Hk & Hn)]; [left; eauto|right]. exists k. split_and!; [done| |done].
    intros old Ho Hr E. apply Hn. split; [by exists old|done].
  - intros [(old & ? & ?)|(k & Hk & Hn & ->)]; [left; eauto|right]. exists k. split_and!; [done..|].
    intros [(old & Ho & Hr & E) _]. by apply (Hn old).
Qed.

Lemma reconcile_row_live wanted today row :
  (ra_valid_from row <= today)%Z -> (row_key row ∈ wanted -> ra_valid_until row <> Some today) ->
  _live (reconcile_row wanted today row) today = bool_decide (row_key row ∈ wanted).
Proof.
  intros Hf Hu. unfold reconcile_row, _live. destruct (Z.ltb_spec today (ra_valid_from row)); [lia|].
  case_bool_decide as Hw.
  - specialize (Hu Hw). destruct (ra_valid_until row) as [u|] eqn:E.
    + destruct (Z.ltb_spec u today); simpl; [|rewrite E]; (destruct (Z.ltb_spec today (ra_valid_from row)); [lia|]).
      * done.
      * apply Z.ltb_lt. assert (u <> today) by congruence. lia.
    + rewrite E. destruct (Z.ltb_spec today (ra_valid_from row)); [lia|done].
  - destruct (ra_valid_until row) as [u|] eqn:E.
    + destruct (Z.ltb_spec today u); simpl; [|rewrite E];
        (destruct (Z.ltb_spec today (ra_valid_from row)); [lia|]); [by rewrite Z.ltb_irrefl|].
      apply Z.ltb_ge. lia.
    + simpl. destruct (Z.ltb_spec today (ra_valid_from row)); [lia|by rewrite Z.ltb_irrefl].
Qed.

Lemma new_row_facts p today k :
  derived_kind k.1.2 = true ->
  reconciled p (new_row p today k) = true /\ row_key (new_row p today k) = k /\
  _live (new_row p today k) today = true.
Proof.
  intros Hk. unfold reconciled, of_person, row_key, _live. simpl.
  rewrite String.eqb_refl, Hk, Z.ltb_irrefl. by destruct k as [[]].
Qed.

(** After a run the derived roles are what the facts say.  For a person none
    of whose assignments ended the same day, the derived assignments in force
    that day are exactly those the facts derive; direct grants and other
    people's rows are left as they are; and running again the same day adds and
    ends nothing. *)
Theorem reconcile_matches_facts (tbl : table) (p : string) (derived : list Assignment) (today : Z) :
  Forall (fun a => derived_kind (as_origin a) = true) derived ->
  settled tbl p (wanted_of derived) today ->
  let tbl' := (reconcile_derived tbl p derived today).1 in
  (forall k, holds_derived tbl' p k today <-> k ∈ wanted_of derived) /\
  (forall row, reconciled p row = false -> row ∈ tbl <-> row ∈ tbl') /\
  (reconcile_derived tbl' p derived today).2 = (0%nat, 0%nat).
Proof.
  intros Hkind Hset. cbv zeta. set (tbl' := (reconcile_derived tbl p derived today).1).
  assert (forall k, k ∈ wanted_of derived -> derived_kind k.1.2 = true) as Hwk.
  { intros k Hk. unfold wanted_of in Hk.
    apply elem_of_list_to_set, list_elem_of_fmap in Hk as (a & -> & Ha).
    rewrite Forall_forall in Hkind. by apply Hkind. }
  assert (forall k, holds_derived tbl' p k today <-> k ∈ wanted_of derived) as Hholds.
  { intros k. unfold holds_derived, tbl'. setoid_rewrite reconcile_rows. split.
    - intros (row & [(old & Hin & ->)|(k' & Hk & _ & ->)] & Hr & <- & Hl).
      + destruct (reconciled p old) eqn:E; [|congruence]. destruct (Hset old Hin E) as [? ?].
        rewrite reconcile_row_live in Hl by done. bool_prop.
        by destruct (reconcile_row_kept (wanted_of derived) today old) as [-> _].
      + by destruct (new_row_facts p today k' (Hwk k' Hk)) as (_ & -> & _).
    - intros Hk. destruct (decide (k ∈@{gset key3} list_to_set (row_key <$> List.filter (reconciled p) tbl)))
        as [(old & Hin & Hr & Hkey)%elem_row_keys|Hn].
      + exists (reconcile_row (wanted_of derived) today old). split_and!.
        * left. exists old. by rewrite Hr.
        * by rewrite reconciled_reconcile.
        * by destruct (reconcile_row_kept (wanted_of derived) today old) as [-> _].
        * destruct (Hset old Hin Hr). rewrite reconcile_row_live by done. apply bool_decide_eq_true. congruence.
      + exists (new_row p today k). destruct (new_row_facts p today k (Hwk k Hk)) as (? & ? & ?).
        split_and!; [|done..]. right. exists k. split_and!; [done| |done].
        intros old Ho Hr E. apply Hn, elem_row_keys. by exists old. }
  split_and!; [exact Hholds| |].
  - intros row Hrow. unfold tbl'. rewrite reconcile_rows. split.
    + intros Hin. left. exists row. by rewrite Hrow.
    + intros [(old & Hin & ->)|(k & Hk & _ & ->)].
      * destruct (reconciled p old) eqn:E; [|done]. rewrite reconciled_reconcile in Hrow. congruence.
      * destruct (new_row_facts p today k (Hwk k Hk)) as (E & _). congruence.
  - unfold reconcile_derived. cbn [snd].
    assert (wanted_of derived ∖ (list_to_set (row_key <$> List.filter (reconciled p) tbl') ∩ wanted_of derived)
      = ∅) as ->.
    { apply set_eq. intros k. rewrite elem_of_difference, elem_of_intersection, elem_row_keys. split; [|set_solver].
      intros [Hk Hn]. destruct Hn. split; [|done]. apply Hholds in Hk as (row & ? & ? & ? & _). eauto. }
    rewrite elements_empty. f_equal.
    destruct (List.filter _ (List.filter _ tbl')) as [|row l] eqn:E; [done|].
    assert (In row (row :: l)) as Hin by by left. rewrite <- E in Hin.
    apply filter_In in Hin as [[Hin Hr]%filter_In Hx]. bool_prop.
    match goal with H : row_key row ∉ _ |- _ => destruct H end.
    apply Hholds. exists row. by apply list_elem_of_In in Hin.
Qed.

(** ** A catalogue that loads *)

Section loading.
Context (py_str : json -> string).

Lemma find_role_app rs rs' id :
  find_role (rs ++ rs') id = match find_role rs id with Some r => Some r | None => find_role rs' id end.
Proof. induction rs as [|[k r] rs IH]; simpl; [done|]. by destruct (String.eqb id k). Qed.

Lemma not_declared_notin rs id : declared rs id = false -> id ∉ rs.*1.
Proof.
  unfold declared. induction rs as [|[k r] rs IH]; csimpl; [set_solver|].
  destruct (String.eqb_spec id k); [done|set_solver].
Qed.

Lemma roles_loop_nodup raw acc out :
  roles_loop py_str raw acc = Ok out -> NoDup acc.*1 -> NoDup out.*1.
Proof.
  revert acc. induction raw as [|entry rest IH]; intros acc; simpl; [by intros [= <-]|].
  destruct entry as [| | | | | | |m]; try done. intros H Hnd.
  apply rbind_ok in H as (rid & _ & H). destruct (declared acc rid) eqn:E; [done|].
  apply rbind_ok in H as (display & _ & H). apply IH in H; [done|].
  rewrite fmap_app. apply list.NoDup_app. split_and!; [done| |apply NoDup_singleton].
  intros x Hx Hn. simpl in Hn. apply list_elem_of_singleton in Hn as ->. by apply not_declared_notin in E.
Qed.

Lemma derivation_of_ok rs entry d :
  derivation_of rs entry = Ok d -> declared rs (dv_role d) = true /\ derived_kind (dv_origin d) = true.
Proof.
  unfold derivation_of. destruct entry as [| | | | | | |m]; try done. intros H.
  apply rbind_ok in H as (ok & Hok & H). destruct ok; [|done]. simpl in H.
  apply rbind_ok in H as (o & Ho & H). apply rbind_ok in H as (v & _ & H).
  destruct (Json.get m "role") as [| | | |role| | |]; try done. injection H as <-. simpl in *.
  split; [congruence|]. by repeat (case_match; simplify_eq).
Qed.

Lemma strings_known rs named names flags :
  Json.strings named = Some names -> rmap (known rs) named = Ok flags -> forallb id flags = true ->
  Forall (fun r => declared rs r = true) names.
Proof.
  revert names flags. induction named as [|j named IH]; intros names flags; simpl.
  { intros [= <-] _ _. constructor. }
  destruct j; try done. intros (ns & Hns & [= <-])%bind_Some H Hf.
  simpl in H. apply rbind_ok in H as (fs & Hfs & [= <-]). simpl in Hf. bool_prop. constructor; eauto.
Qed.

Lemma conflict_of_ok rs entry x :
  conflict_of rs entry = Ok x -> forall r, r ∈ cf_roles x -> declared rs r = true.
Proof.
  unfold conflict_of. destruct entry as [| | | | | | |m]; try done.
  destruct (Json.get m "roles") as [| | | | | |named|]; try done.
  destruct (length named <? 2)%nat; [done|]. intros H. apply rbind_ok in H as (flags & Hf & H).
  destruct (forallb id flags) eqn:E; [|done]. simpl in H. apply rbind_ok in H as (reason & _ & H).
  destruct (Json.strings named) as [names|] eqn:En; [|done]. injection H as <-. simpl.
  intros r Hr%elem_of_list_to_set. pose proof (strings_known _ _ _ _ En Hf E) as Hall.
  rewrite Forall_forall in Hall. by apply Hall.
Qed.

(** A catalogue that loads is closed.  Its role ids are distinct, every
    derivation gives a declared role for a fact and never a direct grant, and
    every conflict is between declared roles, so that it can fire. *)
Theorem loaded_catalogue_closed (document : option json) (c : RoleCatalogue) :
  load_roles py_str document = Ok c ->
  NoDup (roles c).*1 /\
  Forall (fun d => declared (roles c) (dv_role d) = true /\ derived_kind (dv_origin d) = true) (derivations c) /\
  Forall (fun x => forall r, r ∈ cf_roles x -> declared (roles c) r = true) (conflicts c).
Proof.
  unfold load_roles. destruct document as [[| | | | | | |m]|]; try done. intros H.
  apply rbind_ok in H as (rs & Hrs & H). apply rbind_ok in H as (ds & Hds & H).
  apply rbind_ok in H as (cs & Hcs & [= <-]). simpl. split_and!.
  - unfold _roles in Hrs. destruct (Json.get m "roles") as [| | | | | |[|e l]|]; try done.
    eapply roles_loop_nodup; [exact Hrs|constructor].
  - unfold _derivations in Hds. destruct (Json.get m "derivations"); try done; [injection Hds as <-; constructor|].
    apply rmap_ok_Forall2 in Hds. clear -Hds. induction Hds; constructor; eauto using derivation_of_ok.
  - unfold _conflicts in Hcs. destruct (Json.get m "separation_of_duties"); try done; [injection Hcs as <-; constructor|].
    apply rmap_ok_Forall2 in Hcs. clear -Hcs. induction Hcs; constructor; eauto using conflict_of_ok.
Qed.
End loading.

(** ** Where the controls stop *)

Definition demo_catalogue : RoleCatalogue :=
  {| roles := [("raiser", {| ro_id := "raiser"; ro_display_name := "Raiser"; ro_description := "";
                             ro_requires_aal2 := false |});
               ("approver", {| ro_id := "approver"; ro_display_name := "Approver"; ro_description := "";
                               ro_requires_aal2 := false |})];
     derivations := [{| dv_role := "approver"; dv_origin := AFFILIATION; dv_value := "staff" |}];
     conflicts := [{| cf_roles := {["raiser"; "approver"]}; cf_reason := "pays themselves" |}] |}.

(** Separation of duties can be walked around.  A grant that starts in July
    followed by a conflicting one that starts today are both accepted, and so is
    a derivation that conflicts with a role already held: afterwards one person
    holds both roles. *)
Theorem separation_not_enforced_over_time :
  (exists t1 t2, grant demo_catalogue [] "sam" "approver" "dean" 200 None = Ok (t1, true) /\
     grant demo_catalogue t1 "sam" "raiser" "dean" 100 None = Ok (t2, true) /\
     conflicting demo_catalogue (roles_for t2 "sam" 200) <> []) /\
  (exists t1, grant demo_catalogue [] "sam" "raiser" "dean" 100 None = Ok (t1, true) /\
     let t2 := (reconcile_derived t1 "sam" (derive demo_catalogue {["staff"]} ∅) 100).1 in
     conflicting demo_catalogue (roles_for t2 "sam" 100) <> []).
Proof.
  split; repeat eexists; try (vm_compute; reflexivity); vm_compute; discriminate.
Qed.

(** A fact that becomes true again the same day is not restored that day.
    Losing an affiliation and regaining it before midnight leaves the derived
    role ended for the rest of the day, and the run reports nothing to do. *)
Theorem same_day_return_not_restored :
  let day := 100%Z in
  let facts := derive demo_catalogue {["staff"]} ∅ in
  let t1 := (reconcile_derived [] "sam" facts 90).1 in
  let t2 := (reconcile_derived t1 "sam" [] day).1 in
  let out := reconcile_derived t2 "sam" facts day in
  roles_for t1 "sam" day = {["approver"]} /\
  out.2 = (0%nat, 0%nat) /\ roles_for out.1 "sam" day = ∅.
Proof. vm_compute. done. Qed.

(** ** Witnesses *)

Section witnesses.

Lemma grant_respects_separation_witness :
  exists tbl, grant demo_catalogue [] "sam" "raiser" "dean" 100 None = Ok (tbl, true) /\
    forall x, x ∈ conflicts demo_catalogue -> ~ cf_roles x ⊆ roles_for tbl "sam" 100.
Proof.
  eexists. split; [vm_compute; reflexivity|].
  refine (proj1 (proj2 (grant_respects_separation demo_catalogue [] _ "sam" "raiser" "dean" 100 None true _))).
  vm_compute. reflexivity.
Defined.

Definition demo_facts : list Assignment :=
  [{| as_role := "approver"; as_origin := AFFILIATION; as_reference := "staff" |}].

Lemma reconcile_matches_facts_witness :
  holds_derived (reconcile_derived [] "sam" demo_facts 90).1 "sam" ("approver", AFFILIATION, "staff") 90.
Proof.
  apply (reconcile_matches_facts [] "sam" demo_facts 90).
  - by repeat constructor.
  - intros row Hin. by apply elem_of_nil in Hin.
  - vm_compute. reflexivity.
Defined.

Definition demo_document : json :=
  JObj [("roles", JArr [JObj [("id", JStr "raiser"); ("display_name", JStr "Raiser")];
                        JObj [("id", JStr "approver"); ("display_name", JStr "Approver")]]);
        ("derivations", JArr [JObj [("role", JStr "approver"); ("affiliation", JStr "staff")]]);
        ("separation_of_duties", JArr [JObj [("roles", JArr [JStr "raiser"; JStr "approver"]);
                                             ("reason", JStr "pays themselves")]])].

Lemma loaded_catalogue_closed_witness :
  exists c, load_roles (fun _ => "") (Some demo_document) = Ok c /\ NoDup (roles c).*1.
Proof.
  eexists. split; [vm_compute; reflexivity|].
  refine (proj1 (loaded_catalogue_closed (fun _ => "") (Some demo_document) _ _)).
  vm_compute. reflexivity.
Defined.

Lemma revoke_is_immediate_witness :
  exists row, row ∈ [new_row "sam" 120 ("raiser", AFFILIATION, "x")] /\ ra_person row = "sam" /\
    ra_role row = "raiser" /\ (100 < ra_valid_from row)%Z.
Proof.
  refine (proj1 (proj2 (revoke_is_immediate [new_row "sam" 120 ("raiser", AFFILIATION, "x")]
    "sam" "raiser" 100 150)) _ _); [lia|].
  apply elem_roles_for. exists (new_row "sam" 120 ("raiser", AFFILIATION, "x")).
  split; [by apply list_elem_of_singleton|done].
Defined.
End witnesses.

End Roles.
