(* ===== verification/Lifecycle.v ===== *)
(** * Joiner, mover, leaver

    [campusid/lifecycle/rules.py] (which affiliations justify which
    entitlements, and what changes when affiliations do) and
    [campusid/lifecycle/store.py] (grants, revocations and the timeline as
    rows).  A date is a day number; the [entitlement_grant] table is a list of
    rows and a transaction a function on it. *)

From S2P Require Import Prelude PyStr Json.

Module Lifecycle.

Definition CLASSIFICATIONS : list string := ["public"; "directory"; "internal"; "restricted"].
Definition MAX_GRACE_DAYS : Z := 365.

(** The vocabulary of [campusid/policy/normalize.py]. *)
Definition AFFILIATION_VOCABULARY : list string :=
  ["faculty"; "student"; "staff"; "alum"; "member"; "affiliate"; "employee"; "library-walk-in"].

Record Entitlement : Type := {
  en_urn : string;
  en_display_name : string;
  en_classification : string;
  en_grace_days : Z;
  en_requires_aal2 : bool;
}.

Record Rule : Type := {
  ru_id : string;
  ru_affiliations : gset string;
  ru_grants : list string;
}.

Record Grant : Type := { gr_urn : string; gr_rule_id : string; gr_affiliation : string }.
Record Revocation : Type := { rv_urn : string; rv_effective : Z; rv_grace_days : Z }.
Record Delta : Type := { granted : list Grant; retained : list Grant; revoked : list Revocation }.

Definition is_empty (d : Delta) : bool :=
  match granted d, revoked d with [], [] => true | _, _ => false end.
Definition immediate (d : Delta) : list Revocation :=
  List.filter (fun r => (rv_grace_days r =? 0)%Z) (revoked d).
Definition deferred (d : Delta) : list Revocation :=
  List.filter (fun r => (0 <? rv_grace_days r)%Z) (revoked d).

Record LifecycleRules : Type := {
  entitlements : list (string * Entitlement);
  rules : list Rule;
}.

(** [sorted(s)] on a set of strings. *)
Definition sorted (s : gset string) : list string := merge_sort String.le (elements s).

Definition grants_for (c : LifecycleRules) (affiliations : gset string) : list Grant :=
  rule ← rules c;
  affiliation ← sorted (ru_affiliations rule ∩ affiliations);
  (fun urn => {| gr_urn := urn; gr_rule_id := ru_id rule; gr_affiliation := affiliation |})
    <$> ru_grants rule.

Fixpoint find_entitlement (es : list (string * Entitlement)) (urn : string) : option Entitlement :=
  match es with
  | [] => None
  | (k, e) :: es' => if String.eqb urn k then Some e else find_entitlement es' urn
  end.

Definition grace_of (c : LifecycleRules) (urn : string) : Z :=
  match find_entitlement (entitlements c) urn with Some e => en_grace_days e | None => 0 end.

Definition _revocation (c : LifecycleRules) (today : Z) (urn : string) : Revocation :=
  let grace := grace_of c urn in
  {| rv_urn := urn; rv_effective := today + grace; rv_grace_days := grace |}.

Definition urns (gs : list Grant) : gset string := list_to_set (gr_urn <$> gs).

Definition transition (c : LifecycleRules) (before after : gset string) (today : Z) : Delta :=
  let held := grants_for c before in
  let now := grants_for c after in
  let held_urns := urns held in
  let current_urns := urns now in
  {| granted := List.filter (fun g => negb (bool_decide (gr_urn g ∈ held_urns))) now;
     retained := List.filter (fun g => bool_decide (gr_urn g ∈ held_urns)) now;
     revoked := _revocation c today <$> sorted (held_urns ∖ current_urns) |}.

(** ** Reading the rules file *)

Inductive rules_error : Type := LifecycleRulesError | PyTypeError.

Definition unhashable (j : json) : bool := match j with JArr _ | JObj _ => true | _ => false end.

Definition declared (es : list (string * Entitlement)) (urn : string) : bool :=
  match find_entitlement es urn with Some _ => true | None => false end.

Definition nonempty (j : json) : result rules_error string :=
  match j with
  | JStr s => if String.eqb s "" then Err LifecycleRulesError else Ok s
  | _ => Err LifecycleRulesError
  end.

(** [value in frozenset_of_strings]. *)
Definition in_set (names : list string) (j : json) : result rules_error bool :=
  if unhashable j then Err PyTypeError
  else match j with JStr s => Ok (existsb (String.eqb s) names) | _ => Ok false end.

Definition entitlement_of (catalogue : list (string * Entitlement)) (entry : json)
  : result rules_error (string * Entitlement) :=
  match entry with
  | JObj m =>
      match Json.get m "urn" with
      | JStr urn =>
          raise* LifecycleRulesError when negb (Py.startswith urn "urn:");
          raise* LifecycleRulesError when declared catalogue urn;
          let classification := default (JStr "internal") (Json.lookup m "classification") in
          let* ok := in_set CLASSIFICATIONS classification in
          raise* LifecycleRulesError when negb ok;
          match default (JInt 0) (Json.lookup m "grace_days") with
          | JInt grace_days =>
              raise* LifecycleRulesError when (grace_days <? 0)%Z;
              raise* LifecycleRulesError when (MAX_GRACE_DAYS <? grace_days)%Z;
              let* display_name := nonempty (Json.get m "display_name") in
              Ok (urn, {| en_urn := urn; en_display_name := display_name;
                          en_classification := default "internal" (Json.opt_str classification);
                          en_grace_days := grace_days;
                          en_requires_aal2 :=
                            Json.truthy (default (JBool false) (Json.lookup m "requires_aal2")) |})
          | _ => Err LifecycleRulesError
          end
      | _ => Err LifecycleRulesError
      end
  | _ => Err LifecycleRulesError
  end.

Fixpoint entitlements_loop (raw : list json) (catalogue : list (string * Entitlement))
  : result rules_error (list (string * Entitlement)) :=
  match raw with
  | [] => Ok catalogue
  | entry :: rest =>
      let* e := entitlement_of catalogue entry in
      entitlements_loop rest (catalogue ++ [e])
  end.

Definition _entitlements (raw : json) : result rules_error (list (string * Entitlement)) :=
  match raw with
  | JArr (entry :: rest) => entitlements_loop (entry :: rest) []
  | _ => Err LifecycleRulesError
  end.

(** The refusal names the unknown values in order: sorting them raises unless
    they are all strings or all numbers, or there is one. *)
Definition sortable (js : list json) : bool :=
  (length (remove_dups js) <=? 1)%nat
  || forallb (fun j => match j with JStr _ | JIso _ => true | _ => false end) js
  || forallb (fun j => match j with JInt _ | JDec _ _ | JBool _ => true | _ => false end) js.

Definition rule_of (catalogue : list (string * Entitlement)) (seen : list string) (entry : json)
  : result rules_error Rule :=
  match entry with
  | JObj m =>
      let* rule_id := nonempty (Json.get m "id") in
      raise* LifecycleRulesError when existsb (String.eqb rule_id) seen;
      match Json.get m "affiliations" with
      | JArr (a :: l) =>
          let affiliations := a :: l in
          let* flags := rmap (in_set AFFILIATION_VOCABULARY) affiliations in
          let unknown := (zip affiliations flags) ≫= (fun jf => if (jf.2 : bool) then [] else [jf.1]) in
          raise* (if sortable unknown then LifecycleRulesError else PyTypeError)
            when match unknown with [] => false | _ => true end;
          match Json.get m "grants" with
          | JArr grants =>
              let* flags := rmap (in_set catalogue.*1) grants in
              raise* LifecycleRulesError when negb (forallb id flags);
              match Json.strings affiliations, Json.strings grants with
              | Some names, Some granted =>
                  Ok {| ru_id := rule_id; ru_affiliations := list_to_set names; ru_grants := granted |}
              | _, _ => Err LifecycleRulesError
              end
          | _ => Err LifecycleRulesError
          end
      | _ => Err LifecycleRulesError
      end
  | _ => Err LifecycleRulesError
  end.

Fixpoint rules_loop (catalogue : list (string * Entitlement)) (raw : list json) (seen : list string)
  : result rules_error (list Rule) :=
  match raw with
  | [] => Ok []
  | entry :: rest =>
      let* rule := rule_of catalogue seen entry in
      let* rs := rules_loop catalogue rest (ru_id rule :: seen) in
      Ok (rule :: rs)
  end.

Definition _rules (raw : json) (catalogue : list (string * Entitlement)) : result rules_error (list Rule) :=
  match raw with
  | JArr (entry :: rest) => rules_loop catalogue (entry :: rest) []
  | _ => Err LifecycleRulesError
  end.

Definition load_rules (document : option json) : result rules_error LifecycleRules :=
  match document with
  | Some (JObj m) =>
      let* es := _entitlements (Json.get m "entitlements") in
      let* rs := _rules (Json.get m "rules") es in
      Ok {| entitlements := es; rules := rs |}
  | _ => Err LifecycleRulesError
  end.

(** ** The tables *)

Record EntitlementGrant : Type := {
  eg_person : string;
  eg_urn : string;
  eg_ref : string;
  eg_granted_at : moment;
  eg_revoke_at : option Z;
  eg_revoked_at : option moment;
}.

Definition JOINER := "joiner".
Definition MOVER := "mover".
Definition LEAVER := "leaver".
Definition GRACE_EXPIRY := "grace_expiry".
Definition SOURCE_SCIM := "scim".
Definition SOURCE_SCHEDULER := "scheduler".

Record LifecycleEvent : Type := {
  ev_person : string;
  ev_type : string;
  ev_source : string;
  ev_before : json;
  ev_after : json;
}.

Record db : Type := { grant_rows : list EntitlementGrant; events : list LifecycleEvent }.

Definition justification_ref (g : Grant) : string := gr_rule_id g +:+ ":" +:+ gr_affiliation g.

Definition event_type (before after : gset string) : string :=
  if bool_decide (before = ∅) then JOINER
  else if bool_decide (after = ∅) then LEAVER
  else MOVER.

Definition same_key (p urn ref : string) (row : EntitlementGrant) : bool :=
  String.eqb (eg_person row) p && String.eqb (eg_urn row) urn && String.eqb (eg_ref row) ref.

(** [INSERT ... ON CONFLICT (person, urn, ref) DO NOTHING], one row. *)
Definition insert_grant (now : moment) (p : string) (tbl : list EntitlementGrant) (g : Grant)
  : list EntitlementGrant :=
  if existsb (same_key p (gr_urn g) (justification_ref g)) tbl then tbl
  else tbl ++ [{| eg_person := p; eg_urn := gr_urn g; eg_ref := justification_ref g;
                  eg_granted_at := now; eg_revoke_at := None; eg_revoked_at := None |}].

Definition _grant (now : moment) (p : string) (tbl : list EntitlementGrant) (gs : list Grant)
  : list EntitlementGrant :=
  fold_left (insert_grant now p) gs tbl.

(** [deadlines.get(urn)]: the last revocation of a urn wins. *)
Definition deadline_of (d : Delta) (urn : string) : option Revocation :=
  List.find (fun r => String.eqb (rv_urn r) urn) (rev (revoked d)).

Definition revoke_row (now : moment) (p : string) (d : Delta) (row : EntitlementGrant) : EntitlementGrant :=
  match eg_revoked_at row, deadline_of d (eg_urn row) with
  | None, Some r =>
      if negb (String.eqb (eg_person row) p) then row
      else if (rv_grace_days r =? 0)%Z then
        {| eg_person := eg_person row; eg_urn := eg_urn row; eg_ref := eg_ref row;
           eg_granted_at := eg_granted_at row; eg_revoke_at := Some (rv_effective r);
           eg_revoked_at := Some now |}
      else if match eg_revoke_at row with None => true | Some u => (rv_effective r <? u)%Z end then
        {| eg_person := eg_person row; eg_urn := eg_urn row; eg_ref := eg_ref row;
           eg_granted_at := eg_granted_at row; eg_revoke_at := Some (rv_effective r);
           eg_revoked_at := None |}
      else row
  | _, _ => row
  end.

Definition _revoke (now : moment) (p : string) (d : Delta) (tbl : list EntitlementGrant)
  : list EntitlementGrant := revoke_row now p d <$> tbl.

Definition json_strings (l : list string) : json := JArr (JStr <$> l).

Definition _state (affiliations : gset string) (d : Delta) : json :=
  JObj [("affiliations", json_strings (sorted affiliations));
        ("entitlements", json_strings (sorted
          (urns (retained d) ∪ list_to_set (rv_urn <$> revoked d))))].

Definition apply (s : db) (p : string) (d : Delta) (before after : gset string) (source : string)
    (now : moment) : db :=
  {| grant_rows := _revoke now p d (_grant now p (grant_rows s) (granted d));
     events := events s ++ [
       {| ev_person := p; ev_type := event_type before after; ev_source := source;
          ev_before := _state before d;
          ev_after := JObj [("affiliations", json_strings (sorted after));
                            ("entitlements", json_strings (sorted (urns (granted d ++ retained d))))] |}] |}.

Definition row_held (p : string) (today : Z) (row : EntitlementGrant) : bool :=
  String.eqb (eg_person row) p
  && match eg_revoked_at row with None => true | Some _ => false end
  && match eg_revoke_at row with None => true | Some u => (today <? u)%Z end.

Definition held (s : db) (p : string) (today : Z) : gset string :=
  list_to_set (eg_urn <$> List.filter (row_held p today) (grant_rows s)).

Definition due (today : Z) (row : EntitlementGrant) : bool :=
  match eg_revoked_at row, eg_revoke_at row with
  | None, Some u => (u <=? today)%Z
  | _, _ => false
  end.

(** [grant.revoked_at = now]. *)
Definition expire_row (now : moment) (row : EntitlementGrant) : EntitlementGrant :=
  {| eg_person := eg_person row; eg_urn := eg_urn row; eg_ref := eg_ref row;
     eg_granted_at := eg_granted_at row; eg_revoke_at := eg_revoke_at row; eg_revoked_at := Some now |}.

Definition expiry_event (row : EntitlementGrant) : LifecycleEvent :=
  let held_state b := JObj [("entitlement", JStr (eg_urn row)); ("held", JBool b)] in
  {| ev_person := eg_person row; ev_type := GRACE_EXPIRY; ev_source := SOURCE_SCHEDULER;
     ev_before := held_state true; ev_after := held_state false |}.

(** The rows the sweep selects; [locked] are those another node holds, which
    [SKIP LOCKED] passes over. *)
Definition selected (locked : EntitlementGrant -> bool) (today : Z) (row : EntitlementGrant) : bool :=
  due today row && negb (locked row).

Definition expire_due (locked : EntitlementGrant -> bool) (s : db) (today : Z) (now : moment)
  : db * list string :=
  let rows := List.filter (selected locked today) (grant_rows s) in
  ({| grant_rows := (fun row => if selected locked today row then expire_row now row else row)
                      <$> grant_rows s;
      events := events s ++ (expiry_event <$> rows) |},
   sorted (list_to_set (eg_person <$> rows))).

(** ** The transition *)

Lemma elem_sorted x (s : gset string) : x ∈ sorted s <-> x ∈ s.
Proof. unfold sorted. rewrite (merge_sort_Permutation String.le). apply elem_of_elements. Qed.

Lemma sorted_NoDup (s : gset string) : NoDup (sorted s).
Proof. unfold sorted. rewrite (merge_sort_Permutation String.le). apply NoDup_elements. Qed.

Lemma elem_urns x gs : x ∈ urns gs <-> exists g, g ∈ gs /\ gr_urn g = x.
Proof. unfold urns. rewrite elem_of_list_to_set, list_elem_of_fmap. naive_solver. Qed.

Lemma elem_filter {A} (f : A -> bool) l x : x ∈ List.filter f l <-> x ∈ l /\ f x = true.
Proof. rewrite !list_elem_of_In. apply filter_In. Qed.

Lemma revoked_urns c before after today :
  rv_urn <$> revoked (transition c before after today) =
    sorted (urns (grants_for c before) ∖ urns (grants_for c after)).
Proof.
  unfold transition. simpl. rewrite <- list_fmap_compose.
  rewrite <- (list_fmap_id (sorted _)) at 2. by apply list_fmap_ext.
Qed.

(** Every justification a set of affiliations gives, and nothing else. *)
Lemma elem_grants_for c affs g :
  g ∈ grants_for c affs <->
    exists rule, rule ∈ rules c /\ gr_rule_id g = ru_id rule /\
      gr_affiliation g ∈ ru_affiliations rule /\ gr_affiliation g ∈ affs /\ gr_urn g ∈ ru_grants rule.
Proof.
  unfold grants_for. rewrite list_elem_of_bind. split.
  - intros (rule & Hg & Hr). apply list_elem_of_bind in Hg as (a & Hg & Ha).
    apply list_elem_of_fmap in Hg as (u & -> & Hu). apply elem_sorted in Ha. exists rule. set_solver.
  - intros (rule & Hr & Hid & Ha1 & Ha2 & Hu). exists rule. split; [|done].
    apply list_elem_of_bind. exists (gr_affiliation g). split; [|apply elem_sorted; set_solver].
    apply list_elem_of_fmap. exists (gr_urn g). split; [by destruct g; simplify_eq/=|done].
Qed.

(** A transition is exactly the difference.  What is granted and what is
    retained are together what the new affiliations justify, the granted part is
    new and the retained part was justified before; what is revoked is what was
    justified before and no longer is, each once, due after its grace period;
    and nothing changes when the affiliations do not. *)
Theorem transition_is_the_difference (c : LifecycleRules) (before after : gset string) (today : Z) :
  let d := transition c before after today in
  (forall g, g ∈ grants_for c after <-> g ∈ granted d \/ g ∈ retained d) /\
  urns (granted d) ## urns (grants_for c before) /\
  urns (retained d) ⊆ urns (grants_for c before) /\
  NoDup (rv_urn <$> revoked d) /\
  (forall urn, urn ∈ rv_urn <$> revoked d <->
     urn ∈ urns (grants_for c before) /\ urn ∉ urns (grants_for c after)) /\
  Forall (fun r => rv_effective r = (today + grace_of c (rv_urn r))%Z /\
                   rv_grace_days r = grace_of c (rv_urn r)) (revoked d) /\
  is_empty (transition c before before today) = true.
Proof.
  cbv zeta. split_and!.
  - intros g. unfold transition. simpl. rewrite !elem_filter. split.
    + intros Hg. destruct (bool_decide (gr_urn g ∈ urns (grants_for c before))) eqn:E;
        [right|left]; by split.
    + naive_solver.
  - intros x Hx Hb. apply elem_urns in Hx as (g & Hg & <-). unfold transition in Hg. simpl in Hg.
    apply elem_filter in Hg as [_ Hg]. by bool_prop.
  - intros x Hx. apply elem_urns in Hx as (g & Hg & <-). unfold transition in Hg. simpl in Hg.
    apply elem_filter in Hg as [_ Hg]. by bool_prop.
  - rewrite revoked_urns. apply sorted_NoDup.
  - intros urn. rewrite revoked_urns, elem_sorted. set_solver.
  - unfold transition. simpl. apply Forall_fmap, Forall_true. done.
  - unfold is_empty, transition. simpl. rewrite difference_diag_L. unfold sorted. rewrite elements_empty.
    simpl. destruct (List.filter _ _) as [|g l] eqn:E; [done|].
    assert (g ∈ g :: l) as Hg by set_solver. rewrite <- E in Hg. apply elem_filter in Hg as [Hg Hn].
    bool_prop. match goal with H : _ ∉ _ |- _ => destruct H end. apply elem_urns. eauto.
Qed.

(** ** Applying it *)

Lemma elem_held s p day urn :
  urn ∈ held s p day <-> exists row, row ∈ grant_rows s /\ row_held p day row = true /\ eg_urn row = urn.
Proof.
  unfold held. rewrite elem_of_list_to_set, list_elem_of_fmap. setoid_rewrite elem_filter. naive_solver.
Qed.

Lemma deadline_of_Some d urn r : deadline_of d urn = Some r -> r ∈ revoked d /\ rv_urn r = urn.
Proof.
  unfold deadline_of. intros [Hin E]%find_some. bool_prop. split; [|done].
  apply in_rev in Hin. by apply list_elem_of_In.
Qed.

Lemma deadline_of_transition c before after today urn :
  deadline_of (transition c before after today) urn =
    if bool_decide (urn ∈ urns (grants_for c before) ∖ urns (grants_for c after))
    then Some (_revocation c today urn) else None.
Proof.
  destruct (deadline_of _ urn) as [r|] eqn:E.
  - apply deadline_of_Some in E as [Hin <-]. rewrite bool_decide_true.
    + simpl in Hin. apply list_elem_of_fmap in Hin as (u & -> & _). done.
    + rewrite <- elem_sorted, <- (revoked_urns c before after today). apply list_elem_of_fmap. eauto.
  - rewrite bool_decide_false; [done|]. intros Hin. apply elem_sorted in Hin.
    eapply find_none in E; [|apply in_rev; rewrite rev_involutive; apply list_elem_of_In; simpl;
      apply list_elem_of_fmap; exists urn; split; [reflexivity|exact Hin]].
    simpl in E. by rewrite String.eqb_refl in E.
Qed.

(** The rows after inserting grants: the old ones, in place, and fresh ones for
    keys that had none. *)
Lemma _grant_rows now p gs tbl row :
  row ∈ _grant now p tbl gs ->
  row ∈ tbl \/ (eg_person row = p /\ eg_revoke_at row = None /\ eg_revoked_at row = None /\
                exists g, g ∈ gs /\ eg_urn row = gr_urn g).
Proof.
  unfold _grant. revert tbl. induction gs as [|g gs IH]; intros tbl; simpl; [by left|].
  intros Hin. apply IH in Hin as [Hin|(? & ? & ? & g' & ? & ?)]; [|right; split_and!; set_solver].
  unfold insert_grant in Hin. destruct (existsb _ _); [by left|].
  apply elem_of_app in Hin as [Hin| ->%list_elem_of_singleton]; [by left|right].
  split_and!; [done..|]. exists g. set_solver.
Qed.

Lemma _grant_keeps now p gs tbl row : row ∈ tbl -> row ∈ _grant now p tbl gs.
Proof.
  unfold _grant. revert tbl. induction gs as [|g gs IH]; intros tbl Hin; simpl; [done|].
  apply IH. unfold insert_grant. destruct (existsb _ _); [done|set_solver].
Qed.

(** A grant whose key is free is written, with no end. *)
Lemma _grant_fresh now p gs tbl g :
  g ∈ gs -> existsb (same_key p (gr_urn g) (justification_ref g)) tbl = false ->
  exists row, row ∈ _grant now p tbl gs /\ eg_person row = p /\ eg_urn row = gr_urn g /\
    eg_revoke_at row = None /\ eg_revoked_at row = None.
Proof.
  unfold _grant. revert tbl. induction gs as [|g1 gs IH]; intros tbl Hin Hfree; [by apply elem_of_nil in Hin|].
  simpl. destruct (existsb (same_key p (gr_urn g) (justification_ref g)) (insert_grant now p tbl g1)) eqn:E.
  - apply existsb_exists in E as (row & Hrow & Hk). apply list_elem_of_In in Hrow.
    exists row. split; [apply (_grant_keeps now p gs), Hrow|].
    unfold insert_grant in Hrow. unfold same_key in Hk. bool_prop.
    assert (row ∉ tbl) as Hnew.
    { intros Ht. assert (existsb (same_key p (gr_urn g) (justification_ref g)) tbl = true); [|congruence].
      apply existsb_exists. exists row. split; [by apply list_elem_of_In|]. unfold same_key.
      by rewrite !andb_true_iff, !String.eqb_eq. }
    destruct (existsb (same_key p (gr_urn g1) _) tbl); [done|]. apply elem_of_app in Hrow as [|Hrow]; [done|].
    apply list_elem_of_singleton in Hrow. subst row. simpl in *. done.
  - apply elem_of_cons in Hin as [->|Hin]; [|by apply IH].
    unfold insert_grant in E. rewrite Hfree in E. exfalso.
    rewrite existsb_app in E. simpl in E. unfold same_key in E. simpl in E.
    rewrite !String.eqb_refl in E. simpl in E. by rewrite orb_true_r in E.
Qed.

Lemma revoke_row_other now p d row : eg_person row <> p -> revoke_row now p d row = row.
Proof.
  intros Hne. unfold revoke_row. destruct (eg_revoked_at row), (deadline_of d (eg_urn row)); try done.
  rewrite (proj2 (String.eqb_neq _ _) Hne). done.
Qed.

Lemma revoke_row_urn now p d row :
  eg_urn (revoke_row now p d row) = eg_urn row /\ eg_person (revoke_row now p d row) = eg_person row.
Proof. unfold revoke_row. by repeat (case_match; simpl). Qed.

(** What a revocation leaves of a held row: nothing changes for a row it does
    not name, and one it names is held until the deadline. *)
Lemma revoke_row_held now p c before after today row day :
  (0 <= grace_of c (eg_urn row))%Z -> (today <= day)%Z -> eg_person row = p ->
  row_held p day (revoke_row now p (transition c before after today) row) =
    row_held p day row &&
    (if bool_decide (eg_urn row ∈ urns (grants_for c before) ∖ urns (grants_for c after))
     then (day <? today + grace_of c (eg_urn row))%Z else true).
Proof.
  intros Hg Hday Hp. unfold revoke_row. rewrite deadline_of_transition.
  case_bool_decide as Hin; simpl; [|destruct (eg_revoked_at row); by rewrite andb_true_r].
  destruct (eg_revoked_at row) as [x|] eqn:Ex.
  { unfold row_held. rewrite Ex, !andb_false_r. done. }
  rewrite (proj2 (String.eqb_eq _ _) Hp). simpl.
  destruct (Z.eqb_spec (grace_of c (eg_urn row)) 0) as [E0|E0].
  - unfold row_held at 1. simpl. rewrite !andb_false_r. simpl. symmetry. apply andb_false_iff. right.
    apply Z.ltb_ge. lia.
  - unfold row_held. rewrite (proj2 (String.eqb_eq _ _) Hp), Ex. simpl.
    destruct (eg_revoke_at row) as [u|] eqn:Eu; simpl.
    + destruct (Z.ltb_spec (today + grace_of c (eg_urn row)) u); simpl;
        rewrite (proj2 (String.eqb_eq _ _) Hp), ?Ex, ?Eu; simpl;
        destruct (Z.ltb_spec day u), (Z.ltb_spec day (today + grace_of c (eg_urn row))); simpl; lia || done.
    + by rewrite (proj2 (String.eqb_eq _ _) Hp).
Qed.
Lemma elem_apply s p d before after source now row :
  row ∈ grant_rows (apply s p d before after source now) <->
    exists old, old ∈ _grant now p (grant_rows s) (granted d) /\ row = revoke_row now p d old.
Proof. simpl. unfold _revoke. rewrite list_elem_of_fmap. naive_solver. Qed.

Lemma row_held_person q day row : row_held q day row = true -> eg_person row = q.
Proof. unfold row_held. intros. by bool_prop. Qed.

Lemma granted_urns c before after today :
  urns (granted (transition c before after today)) ⊆ urns (grants_for c after).
Proof.
  intros u Hu. apply elem_urns in Hu as (g & Hgr & <-). unfold transition in Hgr. simpl in Hgr.
  apply elem_filter in Hgr as [Hgr _]. apply elem_urns. eauto.
Qed.

(** A row held after the grants are written was held before, or was granted. *)
Lemma grant_origin now p s d day row :
  row ∈ _grant now p (grant_rows s) (granted d) -> row_held p day row = true ->
  eg_urn row ∈ held s p day \/ eg_urn row ∈ urns (granted d).
Proof.
  intros Hin Hh. apply _grant_rows in Hin as [Hin|(_ & _ & _ & g & Hgr & Hgu)].
  - left. apply elem_held. eauto.
  - right. apply elem_urns. eauto.
Qed.

Section applying.
Context (c : LifecycleRules) (grace_ok : forall urn, (0 <= grace_of c urn)%Z).
Context (p : string) (before after : gset string) (today day : Z) (day_ok : (today <= day)%Z) (now : moment).
Abbreviation d := (transition c before after today).

Lemma revoke_row_kept row : eg_person row = p ->
  row_held p day (revoke_row now p d row) = true <->
    row_held p day row = true /\
    ((eg_urn row ∈ urns (grants_for c before) /\ eg_urn row ∉ urns (grants_for c after)) ->
       (day < today + grace_of c (eg_urn row))%Z).
Proof.
  intros Hp. rewrite revoke_row_held, andb_true_iff by done.
  case_bool_decide as Hin; rewrite elem_of_difference in Hin; [rewrite Z.ltb_lt|]; tauto.
Qed.

(** A row of the table after the transition that is held, and where it is
    from. *)
Lemma applied_held s source urn :
  urn ∈ held (apply s p d before after source now) p day ->
  exists old, old ∈ _grant now p (grant_rows s) (granted d) /\ eg_urn old = urn /\ eg_person old = p /\
    row_held p day old = true /\
    ((urn ∈ urns (grants_for c before) /\ urn ∉ urns (grants_for c after)) ->
       (day < today + grace_of c urn)%Z).
Proof.
  intros (row & (old & Hin & ->)%elem_apply & Hh & Hu)%elem_held.
  destruct (revoke_row_urn now p d old) as [Eu Ep]. pose proof (row_held_person _ _ _ Hh) as Hp.
  rewrite Ep in Hp. rewrite Eu in Hu. subst urn. apply revoke_row_kept in Hh as [Hh Hlt]; [|done].
  exists old. by split_and!.
Qed.

Lemma held_applied s source row urn :
  row ∈ _grant now p (grant_rows s) (granted d) -> row_held p day row = true -> eg_urn row = urn ->
  ((urn ∈ urns (grants_for c before) /\ urn ∉ urns (grants_for c after)) ->
     (day < today + grace_of c urn)%Z) ->
  urn ∈ held (apply s p d before after source now) p day.
Proof.
  intros Hin Hh Hu Hlt. apply elem_held. exists (revoke_row now p d row).
  destruct (revoke_row_urn now p d row) as [Eu Ep]. split_and!; [|apply revoke_row_kept|congruence].
  - apply elem_apply. eauto.
  - by apply row_held_person in Hh.
  - rewrite Hu. by split.
Qed.

Lemma apply_lost s source urn :
  urn ∈ urns (grants_for c before) -> urn ∉ urns (grants_for c after) ->
  urn ∈ held (apply s p d before after source now) p day <->
    urn ∈ held s p day /\ (day < today + grace_of c urn)%Z.
Proof.
  intros Hb Ha. split.
  - intros (old & Hin & <- & Hp & Hh & Hlt)%applied_held. split; [|by apply Hlt].
    destruct (grant_origin _ _ _ _ _ _ Hin Hh) as [|Hgr%granted_urns]; done.
  - intros [(row & Hin & Hh & Hu)%elem_held Hlt]. eapply held_applied; [by apply _grant_keeps|done..].
Qed.
End applying.

Lemma urns_no_affiliations c urn : urn ∉ urns (grants_for c ∅).
Proof.
  intros (g & Hg & _)%elem_urns. apply elem_grants_for in Hg. set_solver.
Qed.

(** C27: Access ends when its justification does, and not before its grace
    period.  After a transition is applied, an entitlement the new affiliations
    no longer justify is held exactly as long as it was held before and its
    grace period lasts; one that is still justified stays as it was; what is
    granted under a key never used before is held; and nobody else is
    affected. *)
Theorem apply_transition (c : LifecycleRules) (s : db) (p source : string)
    (before after : gset string) (today day : Z) (now : moment) :
  (forall urn, (0 <= grace_of c urn)%Z) -> (today <= day)%Z ->
  let d := transition c before after today in
  let s' := apply s p d before after source now in
  let lost urn := urn ∈ urns (grants_for c before) /\ urn ∉ urns (grants_for c after) in
  (forall urn, lost urn ->
     urn ∈ held s' p day <-> urn ∈ held s p day /\ (day < today + grace_of c urn)%Z) /\
  (forall urn, urn ∈ urns (grants_for c after) -> urn ∈ held s p day -> urn ∈ held s' p day) /\
  (forall g, g ∈ granted d ->
     existsb (same_key p (gr_urn g) (justification_ref g)) (grant_rows s) = false ->
     gr_urn g ∈ held s' p day) /\
  (forall urn, urn ∈ held s' p day -> urn ∈ held s p day \/ urn ∈ urns (granted d)) /\
  (forall q, q <> p -> held s' q day = held s q day).
Proof.
  intros Hg Hday. cbv zeta. set (d := transition c before after today). split_and!.
  - intros urn [Hb Ha]. by apply apply_lost.
  - intros urn Ha (row & Hin & Hh & Hu)%elem_held.
    eapply held_applied; [done..|by apply _grant_keeps|done|done|]. by intros [_ []].
  - intros g Hgr Hfree. destruct (_grant_fresh now p (granted d) _ g Hgr Hfree) as (row & Hin & Hp & Hu & Hr & Hd).
    eapply held_applied; [done..|exact Hin| |done|].
    + unfold row_held. by rewrite Hr, Hd, (proj2 (String.eqb_eq _ _) Hp).
    + intros [_ []]. apply (granted_urns c before after today), elem_urns. eauto.
  - intros urn (old & Hin & <- & _ & Hh & _)%applied_held; [|done..]. by eapply grant_origin.
  - intros q Hq. apply set_eq. intros urn. rewrite !elem_held. setoid_rewrite elem_apply. split.
    + intros (row & (old & Hin & ->) & Hh & Hu). destruct (revoke_row_urn now p d old) as [Eu Ep].
      pose proof (row_held_person _ _ _ Hh) as Hp. rewrite revoke_row_other in Hh, Hu by congruence.
      apply _grant_rows in Hin as [Hin|(? & _)]; [eauto|congruence].
    + intros (row & Hin & Hh & Hu). pose proof (row_held_person _ _ _ Hh) as Hp. exists row. split_and!; [|done..].
      exists row. split; [by apply _grant_keeps|]. by rewrite revoke_row_other by congruence.
Qed.

(** ** The sweep *)

(** The sweep ends what is due and nothing else.  It changes nobody's
    entitlements from that day on (a due grant had stopped counting already),
    reports exactly the people it acted on, writes one timeline event for each
    grant it ended, and leaves nothing due that was not locked by another node:
    a second sweep does nothing. *)
Theorem sweep_ends_what_is_due (locked : EntitlementGrant -> bool) (s : db) (today day : Z)
    (now now' : moment) (p : string) :
  (today <= day)%Z ->
  let out := expire_due locked s today now in
  held out.1 p day = held s p day /\
  (p ∈ out.2 <-> exists row, row ∈ grant_rows s /\ eg_person row = p /\ due today row = true /\
                   locked row = false) /\
  (exists evs, events out.1 = events s ++ evs /\
     length evs = length (List.filter (selected locked today) (grant_rows s)) /\
     Forall (fun ev => ev_type ev = GRACE_EXPIRY) evs) /\
  expire_due locked out.1 today now' = (out.1, []).
Proof.
  intros Hday. cbv zeta. unfold expire_due. cbn [fst snd grant_rows events].
  assert (forall row, selected locked today (expire_row now row) = false) as Hno.
  { intros row. unfold selected, due. by destruct row as [? ? ? ? [u|] rv]. }
  split_and!.
  - apply set_eq. intros urn. rewrite !elem_held. cbn [grant_rows]. setoid_rewrite list_elem_of_fmap. split.
    + intros (row & (old & -> & Hin) & Hh & Hu). destruct (selected locked today old); [|by eauto].
      unfold row_held in Hh. simpl in Hh. rewrite andb_false_r in Hh. done.
    + intros (row & Hin & Hh & Hu). exists row. split_and!; [|done..]. exists row. split; [|done].
      destruct (selected locked today row) eqn:E; [|done]. exfalso. unfold selected, due in E.
      unfold row_held in Hh. destruct (eg_revoked_at row), (eg_revoke_at row); bool_prop; try done. lia.
  - rewrite elem_sorted, elem_of_list_to_set, list_elem_of_fmap. setoid_rewrite elem_filter. split.
    + intros (row & -> & Hin & Hm). unfold selected in Hm. bool_prop. eauto 6.
    + intros (row & Hin & <- & Hd & Hl). exists row. split_and!; [done..|]. unfold selected. by rewrite Hd, Hl.
  - eexists. split_and!; [reflexivity|by rewrite length_fmap|]. by apply Forall_fmap, Forall_true.
  - assert (List.filter (selected locked today) ((fun row => if selected locked today row
        then expire_row now row else row) <$> grant_rows s) = []) as Hnil.
    { induction (grant_rows s) as [|row rows IH]; [done|]. csimpl.
      destruct (selected locked today row) eqn:E; [by rewrite Hno|by rewrite E]. }
    rewrite Hnil. simpl. rewrite app_nil_r. do 2 f_equal.
    rewrite <- list_fmap_compose. apply list_fmap_ext. intros i row _. simpl.
    destruct (selected locked today row) eqn:E; [by rewrite Hno|by rewrite E].
Qed.
(** ** Rules that load *)

Lemma find_entitlement_elem es urn e : find_entitlement es urn = Some e -> (urn, e) ∈ es.
Proof.
  induction es as [|[k x] es IH]; simpl; [done|]. destruct (String.eqb_spec urn k); [|set_solver].
  intros [= <-]. subst. set_solver.
Qed.

Lemma entitlement_of_grace es entry kv :
  entitlement_of es entry = Ok kv -> (0 <= en_grace_days kv.2 <= MAX_GRACE_DAYS)%Z.
Proof.
  unfold entitlement_of. destruct entry as [| | | | | | |m]; try done.
  destruct (Json.get m "urn") as [| | | |urn| | |]; try done.
  destruct (negb _); [done|]. destruct (declared es urn); [done|]. intros H.
  apply rbind_ok in H as (ok & _ & H). destruct (negb ok); [done|].
  destruct (default _ _) as [| |g| | | | |]; try done.
  destruct (Z.ltb_spec g 0); [done|]. destruct (Z.ltb_spec MAX_GRACE_DAYS g); [done|].
  apply rbind_ok in H as (name & _ & [= <-]). simpl. lia.
Qed.

Lemma entitlements_loop_grace raw acc out :
  entitlements_loop raw acc = Ok out ->
  Forall (fun kv => (0 <= en_grace_days kv.2 <= MAX_GRACE_DAYS)%Z) acc ->
  Forall (fun kv => (0 <= en_grace_days kv.2 <= MAX_GRACE_DAYS)%Z) out.
Proof.
  revert acc. induction raw as [|entry rest IH]; intros acc; simpl; [by intros [= <-]|].
  intros H Hacc. apply rbind_ok in H as (kv & Hkv & H). eapply IH; [exact H|].
  apply Forall_app. split; [done|]. constructor; [by apply entitlement_of_grace in Hkv|constructor].
Qed.

Lemma in_set_strings names l flags ss :
  rmap (in_set names) l = Ok flags -> forallb id flags = true -> Json.strings l = Some ss ->
  Forall (fun s => s ∈ names) ss.
Proof.
  revert flags ss. induction l as [|j l IH]; intros flags ss; simpl; [intros _ _ [= <-]; constructor|].
  intros H Hf Hs. apply rbind_ok in H as (b & Hb & H). apply rbind_ok in H as (bs & Hbs & [= <-]).
  simpl in Hf. bool_prop. destruct j; try done. apply bind_Some in Hs as (ns & Hns & [= <-]).
  constructor; [|eauto]. unfold in_set in Hb. simpl in Hb. injection Hb as <-.
  unfold id in *. match goal with H : existsb _ _ = true |- _ => apply existsb_exists in H as (x & Hx & E) end.
  bool_prop. subst. by apply list_elem_of_In.
Qed.

Lemma no_unknown {A} (l : list A) (flags : list bool) :
  length l = length flags ->
  zip l flags ≫= (fun jf => if (jf.2 : bool) then [] else [jf.1]) = [] -> forallb id flags = true.
Proof.
  revert flags. induction l as [|x l IH]; intros [|b flags]; simpl; try done.
  intros [= Hlen]. destruct b; simpl; [|done]. by apply IH.
Qed.

Lemma rmap_length {E A B} (f : A -> result E B) l ys : rmap f l = Ok ys -> length l = length ys.
Proof. intros H%rmap_ok_Forall2. by apply Forall2_length in H. Qed.

Lemma rule_of_ok es seen entry rule :
  rule_of es seen entry = Ok rule ->
  ru_id rule <> "" /\ ru_id rule ∉ seen /\
  (forall a, a ∈ ru_affiliations rule -> a ∈ AFFILIATION_VOCABULARY) /\
  Forall (fun u => u ∈ es.*1) (ru_grants rule).
Proof.
  unfold rule_of. destruct entry as [| | | | | | |m]; try done. intros H.
  apply rbind_ok in H as (rid & Hid & H). destruct (existsb _ seen) eqn:Es; [done|].
  destruct (Json.get m "affiliations") as [| | | | | |[|a l]|]; try done.
  apply rbind_ok in H as (flags & Hfl & H). destruct (zip _ _ ≫= _) as [|u us] eqn:Eu; [|done].
  destruct (Json.get m "grants") as [| | | | | |grants|]; try done.
  apply rbind_ok in H as (gf & Hgf & H). destruct (forallb id gf) eqn:Eg; [|done]. cbn [negb] in H.
  destruct (Json.strings (a :: l)) as [names|] eqn:En; [|done].
  destruct (Json.strings grants) as [gs|] eqn:Egs; [|done]. injection H as <-. simpl. split_and!.
  - unfold nonempty in Hid. destruct (Json.get m "id"); try done.
    destruct (String.eqb_spec s ""); [done|]. by injection Hid as <-.
  - intros Hin. assert (existsb (String.eqb rid) seen = true); [|congruence]. apply existsb_exists.
    exists rid. split; [by apply list_elem_of_In|apply String.eqb_refl].
  - intros x Hx%elem_of_list_to_set.
    pose proof (no_unknown _ _ (rmap_length _ _ _ Hfl) Eu) as Hall.
    pose proof (in_set_strings _ _ _ _ Hfl Hall En) as HF. rewrite Forall_forall in HF. by apply HF.
  - eapply in_set_strings; [exact Hgf|done|done].
Qed.

Lemma rules_loop_ok es raw seen rs :
  rules_loop es raw seen = Ok rs ->
  NoDup (ru_id <$> rs) /\ Forall (fun r => ru_id r ∉ seen) rs /\
  Forall (fun r => (forall a, a ∈ ru_affiliations r -> a ∈ AFFILIATION_VOCABULARY) /\
                   Forall (fun u => u ∈ es.*1) (ru_grants r)) rs.
Proof.
  revert seen rs. induction raw as [|entry rest IH]; intros seen rs; simpl.
  { intros [= <-]. by repeat constructor. }
  intros H. apply rbind_ok in H as (rule & Hr & H). apply rbind_ok in H as (rs' & Hrs & [= <-]).
  apply rule_of_ok in Hr as (_ & Hn & Ha & Hg). apply IH in Hrs as (Hnd & Hns & Hall).
  split_and!.
  - rewrite fmap_cons. constructor; [|done]. intros (r' & E & Hin)%list_elem_of_fmap.
    rewrite Forall_forall in Hns. apply Hns in Hin. set_solver.
  - constructor; [done|]. eapply Forall_impl; [exact Hns|]. set_solver.
  - by constructor.
Qed.

(** Rules that load are closed and bounded.  Rule ids are distinct, every
    rule is about the eduPerson vocabulary and grants declared entitlements
    only, and every grace period is between nothing and a year, so that every
    revocation falls due. *)
Theorem loaded_rules_closed (document : option json) (c : LifecycleRules) :
  load_rules document = Ok c ->
  NoDup (ru_id <$> rules c) /\
  Forall (fun r => (forall a, a ∈ ru_affiliations r -> a ∈ AFFILIATION_VOCABULARY) /\
                   Forall (fun u => u ∈ (entitlements c).*1) (ru_grants r)) (rules c) /\
  forall urn, (0 <= grace_of c urn <= MAX_GRACE_DAYS)%Z.
Proof.
  unfold load_rules. destruct document as [[| | | | | | |m]|]; try done. intros H.
  apply rbind_ok in H as (es & Hes & H). apply rbind_ok in H as (rs & Hrs & [= <-]). simpl.
  unfold _rules in Hrs. destruct (Json.get m "rules") as [| | | | | |[|e l]|]; try done.
  apply rules_loop_ok in Hrs as (Hnd & _ & Hall). split_and!; [done..|].
  intros urn. unfold grace_of. simpl. destruct (find_entitlement es urn) as [x|] eqn:E; [|done].
  apply find_entitlement_elem in E. unfold _entitlements in Hes.
  destruct (Json.get m "entitlements") as [| | | | | |[|e' l']|]; try done.
  apply entitlements_loop_grace in Hes; [|constructor]. rewrite Forall_forall in Hes.
  by apply (Hes (urn, x)).
Qed.

(** ** Coming back *)

Definition demo_rules : LifecycleRules :=
  {| entitlements := [("urn:lms", {| en_urn := "urn:lms"; en_display_name := "LMS";
                        en_classification := "internal"; en_grace_days := 30; en_requires_aal2 := false |});
                      ("urn:vpn", {| en_urn := "urn:vpn"; en_display_name := "VPN";
                        en_classification := "internal"; en_grace_days := 0; en_requires_aal2 := false |})];
     rules := [{| ru_id := "students"; ru_affiliations := {["student"]}; ru_grants := ["urn:lms"; "urn:vpn"] |}] |}.

(** A person's affiliations change at each of these days; each change is applied. *)
Fixpoint live_through (c : LifecycleRules) (p : string) (before : gset string)
    (changes : list (Z * gset string)) (s : db) : db :=
  match changes with
  | [] => s
  | (today, after) :: rest =>
      live_through c p after rest
        (apply s p (transition c before after today) before after SOURCE_SCIM today)
  end.

(** A person who comes back does not get their access back.  A student who
    leaves and enrols again is justified in everything they had, but the grant
    they held is still on record as ended, so enrolling again writes nothing:
    what ended with them stays ended, and what was in its grace period still
    ends when that was due to. *)
Theorem rejoiner_not_restored :
  let s := live_through demo_rules "sam" ∅
             [(0, {["student"]}); (100, ∅); (110, {["student"]})]%Z {| grant_rows := []; events := [] |} in
  urns (grants_for demo_rules {["student"]}) = {["urn:lms"; "urn:vpn"]} /\
  held s "sam" 110 = {["urn:lms"]} /\
  held s "sam" 130 = ∅.
Proof. vm_compute. done. Qed.

(** ** Witnesses *)

Section witnesses.

Lemma demo_grace urn : (0 <= grace_of demo_rules urn)%Z.
Proof.
  unfold grace_of, demo_rules. simpl. destruct (String.eqb urn "urn:lms"); simpl; [lia|].
  destruct (String.eqb urn "urn:vpn"); simpl; lia.
Qed.

Definition demo_joined : db :=
  apply {| grant_rows := []; events := [] |} "sam" (transition demo_rules ∅ {["student"]} 0)
    ∅ {["student"]} SOURCE_SCIM 0.

Lemma apply_transition_witness :
  "urn:lms" ∈ held (apply demo_joined "sam" (transition demo_rules {["student"]} ∅ 100)
                      {["student"]} ∅ SOURCE_SCIM 0) "sam" 120.
Proof.
  apply (proj1 (apply_transition demo_rules demo_joined "sam" SOURCE_SCIM {["student"]} ∅ 100 120 0
    demo_grace ltac:(lia))).
  - split; vm_compute; [reflexivity|discriminate].
  - split; vm_compute; reflexivity.
Defined.

Lemma sweep_ends_what_is_due_witness :
  let s := apply demo_joined "sam" (transition demo_rules {["student"]} ∅ 100) {["student"]} ∅ SOURCE_SCIM 0 in
  held (expire_due (fun _ => false) s 130 1).1 "sam" 130 = held s "sam" 130.
Proof.
  cbv zeta.
  apply (sweep_ends_what_is_due (fun _ => false)
    (apply demo_joined "sam" (transition demo_rules {["student"]} ∅ 100) {["student"]} ∅ SOURCE_SCIM 0)
    130 130 1 2 "sam" ltac:(lia)).
Defined.

Definition demo_document : json :=
  JObj [("entitlements", JArr [JObj [("urn", JStr "urn:lms"); ("display_name", JStr "LMS");
                                     ("grace_days", JInt 30)]]);
        ("rules", JArr [JObj [("id", JStr "students"); ("affiliations", JArr [JStr "student"]);
                              ("grants", JArr [JStr "urn:lms"])]])].

Lemma loaded_rules_closed_witness :
  exists c, load_rules (Some demo_document) = Ok c /\ NoDup (ru_id <$> rules c).
Proof.
  eexists. split; [vm_compute; reflexivity|].
  refine (proj1 (loaded_rules_closed (Some demo_document) _ _)). vm_compute. reflexivity.
Defined.
End witnesses.

End Lifecycle.
