(* ===== verification/DecisionCache.v ===== *)
(** * The authorization decision cache

    [campusid/authz/cache.py]: decisions remembered for a minute under a key
    that carries the person's epoch, and an invalidation that increments the
    epoch.  The cache has a Redis; the digest of the key material is a
    parameter. *)

From S2P Require Import Prelude PyStr Json Errors Redis Authz.

Module DecisionCache.
Import Authz.

Definition TTL : duration := 60 * SECOND.
Definition DECISION_PREFIX := "authz:decision:".
Definition EPOCH_PREFIX := "authz:epoch:".

Record CachedDecision : Type := { decision : Decision; cached : bool }.

Definition effect_value (e : Effect) : string :=
  match e with PERMIT => "permit" | DENY => "deny" | CHALLENGE => "challenge" end.

(** [Effect(value)]. *)
Definition effect_of (s : string) : option Effect :=
  if String.eqb s "permit" then Some PERMIT
  else if String.eqb s "deny" then Some DENY
  else if String.eqb s "challenge" then Some CHALLENGE
  else None.

Definition _encode (d : Decision) : json := JObj [
  ("effect", JStr (effect_value (de_effect d)));
  ("rule_id", JStr (de_rule_id d));
  ("reason", JStr (de_reason d));
  ("required_assurance", match de_required_assurance d with Some a => JStr a | None => JNull end)].

(** Anything unreadable is a miss. *)
Definition _decode (raw : scalar) : option Decision :=
  match raw with
  | SJson (JObj m) =>
      match Json.lookup m "effect", Json.lookup m "rule_id" with
      | Some (JStr e), Some (JStr rule_id) =>
          effect ← effect_of e;
          match default (JStr "") (Json.lookup m "reason"), Json.get m "required_assurance" with
          | JStr reason, JNull =>
              Some {| de_effect := effect; de_rule_id := rule_id; de_reason := reason;
                      de_required_assurance := None |}
          | JStr reason, JStr a =>
              Some {| de_effect := effect; de_rule_id := rule_id; de_reason := reason;
                      de_required_assurance := Some a |}
          | _, _ => None
          end
      | _, _ => None
      end
  | _ => None
  end.

Section cache.
(** [hashlib.sha256(json.dumps(material)).hexdigest()[:32]]. *)
Context (digest32 : json -> string).
Context (ttl : duration).

(** The counter as [INCR] leaves it; anything else counts as zero. *)
Definition _epoch (person_uuid : string) : prog Z :=
  await* raw := redis_get (EPOCH_PREFIX +:+ person_uuid) in
  Ret (match raw with Some (SInt z) => z | _ => 0%Z end).

Definition material (person : string) (epoch : Z) (request : Request) : json := JArr [
  JStr person; JInt epoch; JStr (re_id (rq_resource request));
  JStr (re_classification (rq_resource request));
  JBool (re_requires_aal2 (rq_resource request)); JStr (rq_action request);
  JStr (su_assurance (rq_subject request)); JStr (en_network (rq_environment request))].

Definition decision_key (person : string) (epoch : Z) (request : Request) : string :=
  DECISION_PREFIX +:+ person +:+ ":" +:+ digest32 (material person epoch request).

Definition _key (person : string) (request : Request) : prog string :=
  await* epoch := _epoch person in
  Ret (decision_key person epoch request).

Definition get (request : Request) : prog (option Decision) :=
  match su_person_uuid (rq_subject request) with
  | None => Ret None
  | Some person =>
      await* raw := pcatch (await* key := _key person request in redis_get key) (fun _ => Ret None) in
      Ret (match raw with Some raw => _decode raw | None => None end)
  end.

Definition put (request : Request) (d : Decision) : prog unit :=
  match su_person_uuid (rq_subject request) with
  | None => Ret tt
  | Some person =>
      pcatch (await* key := _key person request in
              redis_set key (SJson (_encode d)) (whole_seconds ttl)) (fun _ => Ret tt)
  end.

Definition invalidate (person_uuid : string) : prog unit :=
  pcatch (do* redis_incr (EPOCH_PREFIX +:+ person_uuid); Ret tt) (fun _ => Ret tt).

(** [CachingDecider.decide], with the rules the policy store holds. *)
Definition decide_cached (rules : list Rule) (request : Request) : prog CachedDecision :=
  await* hit := get request in
  match hit with
  | Some d => Ret {| decision := d; cached := true |}
  | None =>
      let d := decide rules request in
      do* put request d;
      Ret {| decision := d; cached := false |}
  end.
End cache.

(** ** Properties *)

Lemma decision_decode_encode d : _decode (SJson (_encode d)) = Some d.
Proof. destruct d as [[] rid reason [a|]]; done. Qed.

Section proofs.
Context {R : Type} `{RedisLaws R}.
Context (digest32 : json -> string).
Context (ttl : duration) (ttl_ok : (0 < whole_seconds ttl)%Z).

Abbreviation epoch_key p := (EPOCH_PREFIX +:+ p).
Abbreviation lookup_ := (get digest32).
Abbreviation remember := (put digest32 ttl).

(** The epoch of a person, as a read sees it. *)
Definition epoch_in (v : kview) (p : string) : Z :=
  match v (epoch_key p) with Some (Entry (VScalar (SInt z)) _) => z | _ => 0 end.

(** The epoch key holds a counter, or nothing. *)
Definition counter_ok (v : kview) (p : string) : Prop :=
  v (epoch_key p) = None \/
  exists z d, v (epoch_key p) = Some (Entry (VScalar (SInt z)) d).

Lemma epoch_key_ne p q e rq : epoch_key p <> decision_key digest32 q e rq.
Proof. key_ne. Qed.

Lemma key_vrun v t p rq :
  counter_ok v p ->
  exists w, vrun r_round (_key digest32 p rq) v t = (w, Ok (decision_key digest32 p (epoch_in v p) rq)) /\
    forall k, w k = v k.
Proof.
  intros Hc. unfold _key, _epoch, redis_get, epoch_in. simpl.
  assert (forall k, vupd v (epoch_key p) (v (epoch_key p)) k = v k) as Hid.
  { intros k. destruct (decide_rel eq k (epoch_key p)) as [->|]; [by rewrite vupd_eq|by rewrite vupd_ne]. }
  destruct Hc as [E|(z & d & E)]; rewrite E in *; simpl; eexists; (split; [reflexivity|done]).
Qed.

Lemma get_vrun v t p rq :
  su_person_uuid (rq_subject rq) = Some p -> counter_ok v p ->
  (vrun r_round (lookup_ rq) v t).2 =
    Ok (match v (decision_key digest32 p (epoch_in v p) rq) with
        | Some (Entry (VScalar raw) _) => _decode raw | _ => None end).
Proof.
  intros Hp Hc. unfold get. rewrite Hp. set (key := decision_key digest32 p (epoch_in v p) rq).
  assert (forall w, (forall k, w k = v k) -> forall (h : exn -> prog (option scalar)),
    (forall e, h e = Ret None) ->
    (vrun r_round (pcatch (redis_get key) h) w t).2 =
      Ok (match v key with Some (Entry (VScalar raw) _) => Some raw | _ => None end)) as Hget.
  { intros w Hw h Hh. unfold redis_get. simpl. rewrite Hw.
    destruct (v key) as [[[raw|m] d]|]; simpl; rewrite ?Hh; done. }
  unfold _key, _epoch, redis_get, epoch_in in *. subst key. simpl.
  assert (forall k, vupd v (epoch_key p) (v (epoch_key p)) k = v k) as Hid.
  { intros k. destruct (decide_rel eq k (epoch_key p)) as [->|]; [by rewrite vupd_eq|by rewrite vupd_ne]. }
  destruct Hc as [E|(z & d & E)]; rewrite E in *; simpl; rewrite Hid;
    destruct (v (decision_key digest32 p _ rq)) as [[[raw|m] d']|]; simpl; done.
Qed.

Lemma put_vrun v t p rq d :
  su_person_uuid (rq_subject rq) = Some p -> counter_ok v p ->
  let out := vrun r_round (remember rq d) v t in
  let key := decision_key digest32 p (epoch_in v p) rq in
  out.2 = Ok tt /\
  out.1 key = Some (Entry (VScalar (SJson (_encode d))) (Some (t + whole_seconds ttl * SECOND)%Z)) /\
  forall k, k <> key -> out.1 k = v k.
Proof.
  intros Hp Hc. cbv zeta. unfold put. rewrite Hp.
  assert (forall k, vupd v (epoch_key p) (v (epoch_key p)) k = v k) as Hid.
  { intros k. destruct (decide_rel eq k (epoch_key p)) as [->|]; [by rewrite vupd_eq|by rewrite vupd_ne]. }
  unfold _key, _epoch, redis_get, redis_set, epoch_in in *. simpl.
  destruct Hc as [E|(z & d' & E)]; rewrite E in *; simpl;
    (destruct (Z.leb_spec (whole_seconds ttl) 0); [lia|]); simpl; rewrite vupd_eq;
    (split_and!; [done..|]); intros k Hk; by rewrite vupd_ne.
Qed.

Lemma invalidate_vrun v t p :
  counter_ok v p -> (epoch_in v p < INT64_MAX)%Z ->
  let out := vrun r_round (invalidate p) v t in
  out.2 = Ok tt /\ epoch_in out.1 p = (epoch_in v p + 1)%Z /\ counter_ok out.1 p /\
  forall k, k <> epoch_key p -> out.1 k = v k.
Proof.
  intros Hc Hz. cbv zeta. unfold invalidate, redis_incr, redis_int, epoch_in, counter_ok in *. simpl.
  destruct Hc as [E|(z & d & E)]; rewrite E in *; simpl.
  - rewrite vupd_eq. split_and!; [done..|by eauto|]. intros k Hk. by rewrite vupd_ne.
  - destruct (Z.ltb_spec z INT64_MAX); [|lia]. simpl. rewrite vupd_eq.
    split_and!; [done..|by eauto|]. intros k Hk. by rewrite vupd_ne.
Qed.

(** A remembered decision answers its own question, until the person
    changes.  After [put], [get] for the same question returns that decision
    until the window is over; after an [invalidate] it returns nothing, even for
    requests that were answered a moment before. *)
Theorem invalidation_unmakes_decisions (r : R) (t t1 : moment) (p : string) (rq : Request) (d : Decision) :
  su_person_uuid (rq_subject rq) = Some p -> counter_ok (r_view r t) p ->
  (t <= t1 < t + whole_seconds ttl * SECOND)%Z ->
  r_view r t (epoch_key p) = r_view r t1 (epoch_key p) ->
  let e := epoch_in (r_view r t) p in (e < INT64_MAX)%Z ->
  digest32 (material p (e + 1) rq) <> digest32 (material p e rq) ->
  r_view r t1 (decision_key digest32 p (e + 1) rq) = None ->
  let stored := (run (remember rq d) r t).1 in
  (run (lookup_ rq) stored t1).2 = Ok (Some d) /\
  (run (lookup_ rq) (run (invalidate p) stored t1).1 t1).2 = Ok None.
Proof.
  intros Hp Hc Ht He. cbv zeta. set (e := epoch_in (r_view r t) p). intros Hmax Hdig Hfree.
  destruct (put_vrun (r_view r t) t p rq d Hp Hc) as (_ & Hkey & Hfr). fold e in Hkey, Hfr.
  set (s := (run (remember rq d) r t).1).
  assert (forall k, r_view s t1 k = age t1 ((vrun r_round (remember rq d) (r_view r t) t).1 k)) as Hs.
  { intros k. unfold s. by rewrite run_vrun_later by lia. }
  assert (r_view s t1 (epoch_key p) = r_view r t (epoch_key p)) as Hep.
  { rewrite Hs, Hfr by apply epoch_key_ne. rewrite He. apply view_self_live. }
  assert (epoch_in (r_view s t1) p = e) as Hes by (unfold e, epoch_in; by rewrite Hep).
  assert (counter_ok (r_view s t1) p) as Hcs by (unfold counter_ok; by rewrite Hep).
  split.
  - rewrite run_result, (get_vrun _ _ p) by done. rewrite Hes, Hs, Hkey, age_set by lia.
    by rewrite decision_decode_encode.
  - destruct (invalidate_vrun (r_view s t1) t1 p Hcs ltac:(by rewrite Hes)) as (_ & Hinc & Hcn & Hkeep).
    rewrite run_result.
    assert (forall k, r_view (run (invalidate p) s t1).1 t1 k = (vrun r_round (invalidate p) (r_view s t1) t1).1 k)
      as Hv by (intros k; by apply run_vrun).
    assert (epoch_in (r_view (run (invalidate p) s t1).1 t1) p = (e + 1)%Z) as Hen.
    { unfold epoch_in in *. rewrite Hv. by rewrite Hinc, Hes. }
    rewrite (get_vrun _ _ p); [|done|unfold counter_ok in *; by rewrite Hv]. rewrite Hen, Hv, Hkeep by (apply not_eq_sym, epoch_key_ne).
    rewrite Hs, Hfr; [by rewrite <- (r_view_age r t t1), Hfree by lia|].
    intros E. unfold decision_key in E. do 3 apply Py.app_inv_l in E. done.
Qed.
End proofs.

(** ** Outages and races *)

(** A server that answers every command with the same reply. *)
Fixpoint answering {A} (rep : reply) (p : prog A) : result exn A :=
  match p with
  | Ret a => Ok a
  | Throw e => Err e
  | Do _ k => answering rep (k rep)
  end.

(** A cache outage is not a denial: with no server, or one that refuses every
    command, a decision is what the rules say and the call does not fail. *)
Theorem outage_evaluates (digest32 : json -> string) (ttl : duration) (rules : list Rule)
    (rq : Request) (rep : reply) :
  rep = RDown \/ rep = RError ->
  answering rep (decide_cached digest32 ttl rules rq) =
    Ok {| decision := decide rules rq; cached := false |}.
Proof.
  intros Hrep. unfold decide_cached, get, put.
  destruct (su_person_uuid (rq_subject rq)); [|done]. by destruct Hrep as [-> | ->].
Qed.

Section witnesses.

Definition demo_digest (j : json) : string :=
  match j with JArr [_; JInt e; _; _; _; JStr a; _; _] => (if (e =? 0)%Z then "0" else "1") +:+ a | _ => "" end.

Definition demo_staff (affiliations : gset string) : Request :=
  {| rq_subject := {| su_entitlements := ∅; su_affiliations := affiliations; su_roles := ∅;
                      su_assurance := AAL1; su_person_uuid := Some "sam" |};
     rq_resource := {| re_id := "payroll"; re_classification := "internal"; re_requires_aal2 := false |};
     rq_action := "read"; rq_environment := {| en_network := ""; en_at := None |} |}.

Lemma invalidation_unmakes_decisions_witness :
  (run (get demo_digest (demo_staff {["staff"]}))
    (run (invalidate "sam")
      (run (put demo_digest TTL (demo_staff {["staff"]}) (decide [] demo_request)) (∅ : Store) 0).1 5).1 5).2
  = Ok None.
Proof.
  assert (counter_ok (r_view (∅ : Store) 0) "sam") as Hc by (left; vm_compute; reflexivity).
  destruct (invalidation_unmakes_decisions (R := Store) demo_digest TTL ltac:(vm_compute; done) ∅ 0 5 "sam"
    (demo_staff {["staff"]}) (decide [] demo_request) eq_refl Hc
    ltac:(vm_compute; done) eq_refl eq_refl ltac:(vm_compute; discriminate) eq_refl) as [_ W].
  exact W.
Defined.

(** A decision made about a member of staff, whose affiliation ends while the
    decision is being made: the request reads the cache, the invalidation runs,
    the request writes. *)
Definition demo_rules : list Rule := [demo_permit "staff-read" ""].

Definition demo_race : config Store unit :=
  sched [(0%nat, 1%Z); (0%nat, 2%Z); (1%nat, 3%Z); (0%nat, 4%Z); (0%nat, 5%Z)]
    (Config 0 (∅ : Store)
      [do* decide_cached demo_digest TTL demo_rules (demo_staff {["staff"]}); Ret tt;
       do* invalidate "sam"; Ret tt]).

(** An invalidation can be overtaken.  A decision that was being made when
    its person was invalidated is stored under the new epoch: there is a
    schedule in which both calls return and the old permit is then served to the
    same person after they lost what it was based on, where the rules deny. *)
Theorem overtaken_invalidation_serves_stale_permit :
  cf_pool demo_race = [Ret tt; Ret tt] /\
  de_effect (decide demo_rules (demo_staff ∅)) = DENY /\
  match (run (decide_cached demo_digest TTL demo_rules (demo_staff ∅)) (cf_redis demo_race) 6).2 with
  | Ok c => de_effect (decision c) = PERMIT /\ cached c = true
  | Err _ => False
  end.
Proof. vm_compute. done. Qed.
End witnesses.

End DecisionCache.
