(* ===== verification/Retry.v ===== *)
(** * Retrying a downstream write

    [campusid/lifecycle/retry.py]: jittered exponential backoff, a bounded
    number of attempts, and a history of what went wrong.  Delays are in
    microseconds; the random part is a parameter. *)

From S2P Require Import Prelude.

Module Retry.

Definition MAX_ATTEMPTS : nat := 5.
Definition BASE_DELAY : duration := 500000.
Definition MAX_DELAY : duration := 8 * SECOND.

Definition backoff (attempt : nat) : duration :=
  if (attempt <=? 1)%nat then 0%Z
  else Z.min (BASE_DELAY * 2 ^ Z.of_nat (attempt - 2)) MAX_DELAY.

Section retry.
(** The world the operation acts on, and what it raises. *)
Context {W E A : Type}.
(** What [retry_on] catches. *)
Context (transient : E -> bool).
(** [rng.uniform(0, delay)] before an attempt. *)
Context (full_jitter : nat -> duration -> duration).

Record Attempt : Type := { number : nat; error : E }.

Inductive outcome : Type :=
| Returned (a : A)
| Raised (e : E)
| RetriesExhausted (attempts : list Attempt).

(** What a call leaves: the world, the delays slept, and how it ended. *)
Record retried : Type := { after : W; slept : list duration; ended : outcome }.

(** The loop, with [left] attempts to go. *)
Fixpoint retry_loop (op : W -> W * result E A) (left attempt : nat) (w : W)
    (naps : list duration) (history : list Attempt) : retried :=
  match left with
  | O => {| after := w; slept := naps; ended := RetriesExhausted history |}
  | S left' =>
      let delay := full_jitter attempt (backoff attempt) in
      let naps' := if (delay =? 0)%Z then naps else naps ++ [delay] in
      let '(w', r) := op w in
      match r with
      | Ok a => {| after := w'; slept := naps'; ended := Returned a |}
      | Err e =>
          if transient e
          then retry_loop op left' (S attempt) w' naps' (history ++ [{| number := attempt; error := e |}])
          else {| after := w'; slept := naps'; ended := Raised e |}
      end
  end.

Definition with_retries (op : W -> W * result E A) (attempts : nat) (w : W) : retried :=
  retry_loop op attempts 1 w [] [].

(** ** What a retried call amounts to *)

(** The operation called [n] times, one after the other. *)
Fixpoint calls (op : W -> W * result E A) (n : nat) (w : W) : W * list (result E A) :=
  match n with
  | O => (w, [])
  | S n' => let '(w', r) := op w in let '(w'', rs) := calls op n' w' in (w'', r :: rs)
  end.

Definition failed_transiently (r : result E A) : Prop :=
  exists e, r = Err e /\ transient e = true.

Lemma retry_loop_spec op left attempt w naps history :
  let out := retry_loop op left attempt w naps history in
  (exists k r, (k < left)%nat /\ Forall failed_transiently (calls op k w).2 /\
     op (calls op k w).1 = (after out, r) /\ ~ failed_transiently r /\
     ended out = match r with Ok a => Returned a | Err e => Raised e end) \/
  (Forall failed_transiently (calls op left w).2 /\ after out = (calls op left w).1 /\
   exists hs, ended out = RetriesExhausted (history ++ hs) /\ number <$> hs = seq attempt left).
Proof.
  revert attempt w naps history. induction left as [|left IH]; intros attempt w naps history; cbv zeta.
  { right. simpl. split_and!; [constructor|done|]. exists []. by rewrite app_nil_r. }
  cbn [retry_loop]. destruct (op w) as [w' [a|e]] eqn:E1.
  - left. exists 0%nat, (Ok a). simpl. split_and!; [lia|constructor|done| |done]. by intros (? & ? & _).
  - destruct (transient e) eqn:Et; last first.
    { left. exists 0%nat, (Err e). simpl. split_and!; [lia|constructor|done| |done].
      intros (? & [= <-] & ?). congruence. }
    set (naps' := if (_ =? _)%Z then _ else _).
    destruct (IH (S attempt) w' naps' (history ++ [{| number := attempt; error := e |}]))
      as [(k & r & Hk & Hall & Hop & Hn & Hend)|(Hall & Haft & hs & Hend & Hnum)].
    + left. exists (S k), r. cbn [calls]. rewrite E1. destruct (calls op k w') as [w2 rs]. simpl in *.
      split_and!; [lia| |done..]. constructor; [|done]. by exists e.
    + right. cbn [calls]. rewrite E1. destruct (calls op left w') as [w2 rs]. simpl in *.
      split_and!; [|done|].
      * constructor; [|done]. by exists e.
      * exists ({| number := attempt; error := e |} :: hs). rewrite <- app_assoc in Hend.
        split; [done|]. csimpl. by rewrite Hnum.
Qed.

(** What every attempt preserves, the retried call preserves. *)
Lemma retry_loop_keeps (P : W -> Prop) op left attempt w naps history :
  (forall x, P x -> P (op x).1) -> P w -> P (after (retry_loop op left attempt w naps history)).
Proof.
  intros Hop. revert attempt w naps history.
  induction left as [|left IH]; intros attempt w naps history Hw; cbn [retry_loop]; [done|].
  pose proof (Hop w Hw) as Hw'. destruct (op w) as [w' [a|e]]; [done|]. simpl in Hw'.
  destruct (transient e); [by apply IH|done].
Qed.

(** A retried call ends as its last attempt does.  It stops at the first
    attempt that succeeds or fails for good and passes that on; only when every
    one of the attempts failed transiently does it give up, after exactly
    [attempts] calls, with all of them on record in order. *)
Theorem with_retries_outcome (op : W -> W * result E A) (attempts : nat) (w : W) :
  let out := with_retries op attempts w in
  (exists k r, (k < attempts)%nat /\ Forall failed_transiently (calls op k w).2 /\
     op (calls op k w).1 = (after out, r) /\ ~ failed_transiently r /\
     ended out = match r with Ok a => Returned a | Err e => Raised e end) \/
  (Forall failed_transiently (calls op attempts w).2 /\ after out = (calls op attempts w).1 /\
   exists hs, ended out = RetriesExhausted hs /\ number <$> hs = seq 1 attempts).
Proof. apply (retry_loop_spec op attempts 1 w [] []). Qed.

(** ** How long it waits *)

(** The longest the attempts from [attempt] on can wait. *)
Fixpoint longest (left attempt : nat) : duration :=
  match left with O => 0%Z | S left' => (backoff attempt + longest left' (S attempt))%Z end.

Definition total (naps : list duration) : duration := foldr Z.add 0%Z naps.

Lemma total_app naps naps' : total (naps ++ naps') = (total naps + total naps')%Z.
Proof. unfold total. induction naps as [|x l IH]; simpl; [done|]. rewrite IH. lia. Qed.

Lemma backoff_nonneg attempt : (0 <= backoff attempt)%Z.
Proof.
  unfold backoff. case_match; [lia|]. apply Z.min_glb; [|unfold MAX_DELAY, SECOND; lia].
  pose proof (Z.pow_nonneg 2 (Z.of_nat (attempt - 2)) ltac:(lia)). unfold BASE_DELAY. lia.
Qed.

Context (jitter_ok : forall attempt d, (0 <= d)%Z -> (0 <= full_jitter attempt d <= d)%Z).

Lemma retry_loop_waits op left attempt w naps history :
  (total naps <= total (slept (retry_loop op left attempt w naps history)) <=
     total naps + longest left attempt)%Z.
Proof.
  revert attempt w naps history. induction left as [|left IH]; intros attempt w naps history; cbn [retry_loop longest].
  { simpl. lia. }
  pose proof (jitter_ok attempt (backoff attempt) (backoff_nonneg attempt)).
  assert (0 <= longest left (S attempt))%Z.
  { clear -left. generalize (S attempt). induction left as [|l IHl]; intros a; simpl; [lia|].
    specialize (IHl (S a)). pose proof (backoff_nonneg a). lia. }
  set (naps' := if (full_jitter attempt (backoff attempt) =? 0)%Z then _ else _).
  assert (total naps <= total naps' <= total naps + backoff attempt)%Z.
  { subst naps'. case_match; [lia|]. rewrite total_app. simpl. lia. }
  destruct (op w) as [w' [a|e]]; simpl; [lia|]. destruct (transient e); simpl; [|lia].
  specialize (IH (S attempt) w' naps' (history ++ [{| number := attempt; error := e |}])). lia.
Qed.

(** Five attempts wait seven and a half seconds at the most.  Whatever the
    operation does and the jitter draws, the default retry sleeps no longer
    than that in all; the ceiling on a single delay is never reached. *)
Theorem default_retry_waits (op : W -> W * result E A) (w : W) :
  (total (slept (with_retries op MAX_ATTEMPTS w)) <= 7500000)%Z /\
  Forall (fun a => backoff a < MAX_DELAY)%Z (seq 1 MAX_ATTEMPTS).
Proof.
  split.
  - pose proof (retry_loop_waits op MAX_ATTEMPTS 1 w [] []) as Hle.
    change (total []) with 0%Z in Hle. change (longest MAX_ATTEMPTS 1) with 7500000%Z in Hle.
    unfold with_retries. lia.
  - repeat constructor.
Qed.
End retry.

Arguments Attempt E : clear implicits.
Arguments outcome E A : clear implicits.

(** ** Witnesses *)

(** An operation that fails twice and then succeeds. *)
Definition demo_op (n : nat) : nat * result string nat :=
  match n with O => (O, Ok 7%nat) | S n' => (n', Err "busy") end.

Lemma default_retry_waits_witness :
  (total (slept (with_retries (fun _ => true) (fun _ d => d) demo_op MAX_ATTEMPTS 2%nat)) <= 7500000)%Z.
Proof.
  apply (default_retry_waits (fun _ => true) (fun _ d => d) ltac:(intros; lia) demo_op 2).
Defined.

End Retry.
