(* ===== verification/DeadLetters.v ===== *)
(** * The dead-letter queue

    [campusid/lifecycle/deadletter.py]: downstream writes that failed every
    attempt, kept once per person, target and operation until they are replayed.
    The table is a list of rows, oldest first. *)

From S2P Require Import Prelude PyStr Json Retry.

Module DeadLetters.

Section queue.
(** What a downstream write raises. *)
Context {X : Type}.

Record DeadLetter : Type := {
  dl_id : string;
  dl_person : string;
  dl_target : string;
  dl_operation : string;
  dl_payload : json;
  dl_attempts : list (Retry.Attempt X);
  dl_replayed_at : option moment;
}.

Definition is_outstanding (row : DeadLetter) : bool :=
  match dl_replayed_at row with None => true | Some _ => false end.

Definition row_key (row : DeadLetter) : string * string * string :=
  (dl_person row, dl_target row, dl_operation row).

Definition same_item (k : string * string * string) (row : DeadLetter) : bool :=
  bool_decide (row_key row = k) && is_outstanding row.

(** Extends the history of an item and renews its payload. *)
Definition extend (payload : json) (history : list (Retry.Attempt X)) (row : DeadLetter) : DeadLetter :=
  {| dl_id := dl_id row; dl_person := dl_person row; dl_target := dl_target row;
     dl_operation := dl_operation row; dl_payload := payload;
     dl_attempts := dl_attempts row ++ history; dl_replayed_at := dl_replayed_at row |}.

Fixpoint update_first (test : DeadLetter -> bool) (f : DeadLetter -> DeadLetter) (rows : list DeadLetter)
  : option (list DeadLetter * string) :=
  match rows with
  | [] => None
  | row :: rest =>
      if test row then Some (f row :: rest, dl_id row)
      else match update_first test f rest with
           | Some (rest', id) => Some (row :: rest', id)
           | None => None
           end
  end.

(** [record]: the table afterwards and the id of the item; [fresh] is the new
    row's id. *)
Definition record (rows : list DeadLetter) (fresh person target operation : string) (payload : json)
    (attempts : list (Retry.Attempt X)) : list DeadLetter * string :=
  match update_first (same_item (person, target, operation)) (extend payload attempts) rows with
  | Some out => out
  | None =>
      (rows ++ [{| dl_id := fresh; dl_person := person; dl_target := target;
                   dl_operation := operation; dl_payload := payload; dl_attempts := attempts;
                   dl_replayed_at := None |}], fresh)
  end.

Definition outstanding (rows : list DeadLetter) (limit : nat) : list DeadLetter :=
  take limit (List.filter is_outstanding rows).

(** How a dispatch ended. *)
Inductive dispatched : Type :=
| Done
| Exhausted (attempts : list (Retry.Attempt X))
| Failed (e : X).

Definition mark_replayed (id : string) (now : moment) (row : DeadLetter) : DeadLetter :=
  if String.eqb (dl_id row) id then
    {| dl_id := dl_id row; dl_person := dl_person row; dl_target := dl_target row;
       dl_operation := dl_operation row; dl_payload := dl_payload row;
       dl_attempts := dl_attempts row; dl_replayed_at := Some now |}
  else row.

(** [replay], given how dispatching the item ends. *)
Definition replay (rows : list DeadLetter) (fresh id : string) (dispatch : DeadLetter -> dispatched)
    (now : moment) : list DeadLetter * bool :=
  match List.find (fun row => String.eqb (dl_id row) id) rows with
  | Some item =>
      if negb (is_outstanding item) then (rows, false)
      else match dispatch item with
           | Done => (mark_replayed id now <$> rows, true)
           | Exhausted attempts =>
               ((record rows fresh (dl_person item) (dl_target item) (dl_operation item)
                   (dl_payload item) attempts).1, false)
           | Failed e =>
               ((record rows fresh (dl_person item) (dl_target item) (dl_operation item)
                   (dl_payload item) [{| Retry.number := 1; Retry.error := e |}]).1, false)
           end
  | None => (rows, false)
  end.

(** ** Properties *)

(** At most one outstanding item per person, target and operation, and ids that
    identify rows. *)
Definition queue_ok (rows : list DeadLetter) : Prop :=
  NoDup (row_key <$> List.filter is_outstanding rows) /\ NoDup (dl_id <$> rows).

Lemma update_first_None test f rows :
  update_first test f rows = None -> forall row, row ∈ rows -> test row = false.
Proof.
  induction rows as [|r rows IH]; simpl; [set_solver|]. destruct (test r) eqn:Et; [done|].
  destruct (update_first test f rows) as [[]|]; [done|]. set_solver.
Qed.

Lemma update_first_keys test payload history rows out id :
  update_first test (extend payload history) rows = Some (out, id) ->
  row_key <$> List.filter is_outstanding out = row_key <$> List.filter is_outstanding rows /\
  dl_id <$> out = dl_id <$> rows.
Proof.
  revert out. induction rows as [|r rows IH]; intros out; simpl; [done|]. destruct (test r).
  - intros [= <- _]. cbn [List.filter]. split; [|done].
    change (is_outstanding (extend payload history r)) with (is_outstanding r).
    by destruct (is_outstanding r).
  - destruct (update_first _ _ rows) as [[rest i]|]; [|done]. intros [= <- ->].
    destruct (IH rest eq_refl) as [Hk Hi]. cbn [List.filter].
    split; [destruct (is_outstanding r)|]; csimpl; congruence.
Qed.

Lemma record_ok rows fresh person target operation payload attempts :
  queue_ok rows -> fresh ∉ dl_id <$> rows ->
  queue_ok (record rows fresh person target operation payload attempts).1.
Proof.
  intros [Hk Hi] Hf. unfold record. destruct (update_first _ _ _) as [[out id]|] eqn:E.
  - apply update_first_keys in E as [E1 E2]. unfold queue_ok. simpl. by rewrite E1, E2.
  - simpl. unfold queue_ok. rewrite List.filter_app, !fmap_app. simpl.
    pose proof (update_first_None _ _ _ E) as Hn. split.
    + apply list.NoDup_app. split_and!; [done| |apply NoDup_singleton].
      intros k Hin Hk'. apply list_elem_of_singleton in Hk' as ->.
      apply list_elem_of_fmap in Hin as (row & Ek & Hrow). apply list_elem_of_In, filter_In in Hrow as [Hrow Ho].
      assert (same_item (person, target, operation) row = true) as Hs.
      { unfold same_item. rewrite Ho, andb_true_r. by apply bool_decide_eq_true. }
      rewrite Hn in Hs; [done|by apply list_elem_of_In].
    + apply list.NoDup_app. split_and!; [done| |apply NoDup_singleton].
      intros k Hin Hk'. apply list_elem_of_singleton in Hk' as ->. done.
Qed.

Lemma update_first_changes test f rows out id :
  update_first test f rows = Some (out, id) -> exists row, row ∈ rows /\ test row = true /\ f row ∈ out.
Proof.
  revert out. induction rows as [|r rows IH]; intros out; simpl; [done|]. destruct (test r) eqn:Et.
  - intros [= <- _]. exists r. set_solver.
  - destruct (update_first test f rows) as [[rest i]|]; [|done]. intros [= <- ->].
    destruct (IH rest eq_refl) as (row & ? & ? & ?). exists row. set_solver.
Qed.

(** Whatever is recorded is then outstanding, with these attempts at the end of
    its history. *)
Lemma record_outstanding rows fresh person target operation payload attempts :
  exists row before, row ∈ (record rows fresh person target operation payload attempts).1 /\
    row_key row = (person, target, operation) /\ is_outstanding row = true /\
    dl_payload row = payload /\ dl_attempts row = before ++ attempts.
Proof.
  unfold record. destruct (update_first _ _ _) as [[out id]|] eqn:E; simpl.
  - apply update_first_changes in E as (row & _ & Ht & Hin). unfold same_item in Ht. bool_prop.
    exists (extend payload attempts row), (dl_attempts row). by split_and!.
  - eexists. exists []. split_and!; [apply elem_of_app; right; apply list_elem_of_singleton; reflexivity|done..].
Qed.

(** The items waiting in the queue. *)
Definition waiting (rows : list DeadLetter) : list (string * string * string) :=
  row_key <$> List.filter is_outstanding rows.

Lemma record_waiting rows fresh person target operation payload attempts :
  (person, target, operation) ∈ waiting (record rows fresh person target operation payload attempts).1.
Proof.
  destruct (record_outstanding rows fresh person target operation payload attempts)
    as (row & _ & Hin & <- & Ho & _). apply list_elem_of_fmap_2, list_elem_of_In, filter_In.
  split; [by apply list_elem_of_In|done].
Qed.

Lemma record_keeps rows fresh person target operation payload attempts k :
  k ∈ waiting rows -> k ∈ waiting (record rows fresh person target operation payload attempts).1.
Proof.
  intros Hk. unfold record, waiting in *. destruct (update_first _ _ _) as [[out id]|] eqn:E; simpl.
  - apply update_first_keys in E as [-> _]. done.
  - rewrite List.filter_app, fmap_app. set_solver.
Qed.

Lemma filter_mark id now rows :
  row_key <$> List.filter is_outstanding (mark_replayed id now <$> rows) `sublist_of`
  row_key <$> List.filter is_outstanding rows.
Proof.
  induction rows as [|r rows IH]; csimpl; [done|]. destruct (String.eqb (dl_id r) id) eqn:Ei.
  - assert (is_outstanding (mark_replayed id now r) = false) as -> by (unfold mark_replayed; by rewrite Ei).
    destruct (is_outstanding r); csimpl; [by apply sublist_cons|done].
  - assert (mark_replayed id now r = r) as -> by (unfold mark_replayed; by rewrite Ei).
    destruct (is_outstanding r); csimpl; [by apply sublist_skip|done].
Qed.

Lemma mark_ids id now (rows : list DeadLetter) : dl_id <$> (mark_replayed id now <$> rows) = dl_id <$> rows.
Proof.
  rewrite <- list_fmap_compose. apply list_fmap_ext. intros i row _. unfold mark_replayed, compose.
  by destruct (String.eqb (dl_id row) id).
Qed.

(** Draining the queue never grows it.  Filing a failed write and replaying
    an item both keep at most one outstanding item per person, target and
    operation; a replay that fails again leaves the item outstanding with its
    history extended, and one that succeeds ends it for good. *)
Theorem queue_invariant (rows : list DeadLetter) (fresh id person target operation : string)
    (payload : json) (attempts : list (Retry.Attempt X)) (dispatch : DeadLetter -> dispatched)
    (now : moment) :
  queue_ok rows -> fresh ∉ dl_id <$> rows ->
  queue_ok (record rows fresh person target operation payload attempts).1 /\
  queue_ok (replay rows fresh id dispatch now).1 /\
  (forall item, item ∈ rows -> dl_id item = id -> is_outstanding item = true ->
     (replay rows fresh id dispatch now).2 = true <-> dispatch item = Done) /\
  ((replay rows fresh id dispatch now).2 = true ->
     forall row, row ∈ (replay rows fresh id dispatch now).1 -> dl_id row = id -> is_outstanding row = false).
Proof.
  intros Hok Hf. pose proof Hok as [Hk Hi]. split_and!; [by apply record_ok| | |].
  - unfold replay. destruct (List.find _ _) as [item|]; [|done]. destruct (negb _); [done|].
    destruct (dispatch item); simpl; [|by apply record_ok|by apply record_ok].
    split; [eapply sublist_NoDup; [exact Hk|apply filter_mark]|by rewrite mark_ids].
  - intros item Hin Hid Ho. unfold replay. destruct (List.find _ _) as [x|] eqn:Ef.
    + apply find_some in Ef as [Hx Ex]. bool_prop. assert (x = item) as ->.
      { apply list_elem_of_In in Hx. apply list_elem_of_lookup in Hx as [i Hx], Hin as [j Hj].
        assert (i = j) as ->; [|congruence]. apply (NoDup_lookup (dl_id <$> rows) i j id Hi);
          rewrite list_lookup_fmap; [rewrite Hx|rewrite Hj]; simpl; congruence. }
      rewrite Ho. simpl. by destruct (dispatch item).
    + eapply find_none in Ef; [|by apply list_elem_of_In]. bool_prop. congruence.
  - unfold replay. destruct (List.find _ _) as [x|] eqn:Ef; [|done]. destruct (negb _); [done|].
    destruct (dispatch x); [|done..]. intros _ row Hin Hid. simpl in Hin.
    apply list_elem_of_fmap in Hin as (old & -> & Hold). unfold mark_replayed in *.
    destruct (String.eqb (dl_id old) id) eqn:Ei; [done|]. bool_prop. congruence.
Qed.
End queue.

Arguments DeadLetter X : clear implicits.

(** ** Witnesses *)

Definition demo_item : DeadLetter string :=
  {| dl_id := "d1"; dl_person := "sam"; dl_target := "ldap"; dl_operation := "disable";
     dl_payload := JObj []; dl_attempts := []; dl_replayed_at := None |}.

Lemma queue_invariant_witness :
  queue_ok (replay [demo_item] "d2" "d1" (fun _ => Failed "refused") 5).1.
Proof.
  assert (queue_ok [demo_item]) as H1 by (split; apply NoDup_singleton).
  assert ("d2" ∉ dl_id <$> [demo_item]) as H2 by (csimpl; set_solver).
  exact (proj1 (proj2 (queue_invariant [demo_item] "d2" "d1" "sam" "ldap" "disable" (JObj []) []
    (fun _ => Failed "refused") 5 H1 H2))).
Defined.

End DeadLetters.
