(* ===== verification/Orchestrator.v ===== *)
(** * Joiner, mover and leaver

    [campusid/lifecycle/orchestrator.py]: in what order the consequences of an
    affiliation change are applied.  A run acts on a [world]: the Redis server
    behind the session store, the grant store and the decision cache, the
    lifecycle tables, the downstream systems, the dead-letter table, the audit
    trail and the clock, which a backoff advances.  Downstream systems are
    parameters ([ProvisioningTarget] is a protocol), and so is what the identity
    registry answers. *)

From stdpp Require Import pretty.
From S2P Require Import Prelude PyStr Json Errors Redis Sessions Grants Lifecycle.
From S2P Require Import DecisionCache Retry DeadLetters.

Module Orchestrator.

Definition PROVISION_ACCOUNTS := "provision_accounts".
Definition DISABLE_ACCOUNTS := "disable_accounts".
Definition TERMINATE_SESSIONS := "terminate_sessions".
Definition REVOKE_TOKENS := "revoke_tokens".
Definition REVOKE_ENTITLEMENTS := "revoke_entitlements".
Definition DEPROVISION_ORDER : list string :=
  [DISABLE_ACCOUNTS; TERMINATE_SESSIONS; REVOKE_TOKENS; REVOKE_ENTITLEMENTS].

(** The event types this module records. *)
Inductive EventType : Type :=
| LIFECYCLE_JOINER | LIFECYCLE_MOVER | LIFECYCLE_LEAVER
| ENTITLEMENT_GRANTED | ENTITLEMENT_REVOKED | DEPROVISION_STEP.
Inductive Outcome : Type := SUCCESS | FAILURE.

#[global] Instance EventType_eq_dec : EqDecision EventType.
Proof. solve_decision. Defined.
#[global] Instance Outcome_eq_dec : EqDecision Outcome.
Proof. solve_decision. Defined.

Definition EVENT_FOR (kind : string) : EventType :=
  if String.eqb kind Lifecycle.JOINER then LIFECYCLE_JOINER
  else if String.eqb kind Lifecycle.MOVER then LIFECYCLE_MOVER
  else if String.eqb kind Lifecycle.LEAVER then LIFECYCLE_LEAVER
  else LIFECYCLE_MOVER.

(** A call of [AuditLog.record]; when it was made is kept beside it. *)
Record event : Type := {
  ev_type : EventType;
  ev_outcome : Outcome;
  ev_subject : string;
  ev_target : option string;
  ev_detail : list (string * json);
}.

(** What the registry answers: identifiers in order of issue, and people. *)
Record Identifier : Type := {
  id_type : string;
  id_value : string;
  id_primary : bool;
  id_released_at : option moment;
}.
Record Person : Type := {
  given_name : option string;
  surname : option string;
  display_name : option string;
}.
Record registry : Type := {
  all_identifiers : string -> list Identifier;
  get : string -> option Person;
}.

Definition is_released (row : Identifier) : bool :=
  match id_released_at row with Some _ => true | None => false end.

Definition identifiers (reg : registry) (person : string) (include_released : bool) : list Identifier :=
  if include_released then all_identifiers reg person
  else List.filter (fun row => negb (is_released row)) (all_identifiers reg person).

(** [campusid/directory/writes.py]. *)
Record PersonSpec : Type := {
  ps_uid : string;
  ps_given_name : string;
  ps_surname : string;
  ps_mail : option string;
  ps_display_name : option string;
  ps_principal_name : option string;
}.

(** [x or fallback] for an optional string. *)
Definition or_else (x : option string) (fallback : string) : string :=
  match x with
  | Some s => if String.eqb s "" then fallback else s
  | None => fallback
  end.

Section orchestrator.
Context {R : Type} `{RedisServer R}.
(** The state of the downstream systems, and what their writes raise. *)
Context {T X : Type}.

Record ProvisioningTarget : Type := {
  name : string;
  provision : PersonSpec -> T -> T * result X unit;
  disable : string -> T -> T * result X unit;
}.

Record LifecycleOrchestrator : Type := {
  _rules : Lifecycle.LifecycleRules;
  _targets : list ProvisioningTarget;
  _identity : option registry;
  _has_queue : bool;
  _transient : X -> bool;
  _has_decisions : bool;
  _has_metrics : bool;
}.

(** The rest of the environment: digests, the refresh-token lifetime, the
    calendar, fresh row identifiers and the jitter of the n-th retried call. *)
Record environment : Type := {
  sha256_hex : string -> string;
  refresh_ttl : duration;
  calendar : moment -> Z;
  uuid4 : nat -> string;
  jitter : nat -> nat -> duration -> duration;
}.

Record world : Type := {
  w_clock : moment;
  w_redis : R;
  w_db : Lifecycle.db;
  w_down : T;
  w_dead : list (DeadLetters.DeadLetter X);
  w_audit : list event;
  w_recorded : list moment;
  w_timings : list duration;
  w_serial : nat;
}.

Inductive failure : Type :=
| Downstream (e : X)
| RetriesExhausted (attempts : list (Retry.Attempt X))
| Raised (e : exn).

Definition M (A : Type) : Type := world -> world * result failure A.
Definition ret {A} (a : A) : M A := fun w => (w, Ok a).
Definition throw {A} (e : failure) : M A := fun w => (w, Err e).
Definition bind {A B} (m : M A) (k : A -> M B) : M B := fun w =>
  match m w with
  | (w', Ok a) => k a w'
  | (w', Err e) => (w', Err e)
  end.
Notation "'m*' x := p 'in' k" := (bind p (fun x => k))
  (at level 10, x name, p at level 200, k at level 200).
Notation "'run*' p ; k" := (bind p (fun _ => k)) (at level 10, p at level 200, k at level 200).

Context (env : environment) (o : LifecycleOrchestrator).

(** ** Effects *)

Definition redis {A} (p : prog A) : M A := fun w =>
  let '(r, out) := run p (w_redis w) (w_clock w) in
  ({| w_clock := w_clock w; w_redis := r; w_db := w_db w; w_down := w_down w; w_dead := w_dead w;
      w_audit := w_audit w; w_recorded := w_recorded w; w_timings := w_timings w; w_serial := w_serial w |},
   match out with Ok a => Ok a | Err e => Err (Raised e) end).

Definition record (ev : event) : M unit := fun w =>
  ({| w_clock := w_clock w; w_redis := w_redis w; w_db := w_db w; w_down := w_down w;
      w_dead := w_dead w; w_audit := w_audit w ++ [ev]; w_recorded := w_recorded w ++ [w_clock w]; w_timings := w_timings w;
      w_serial := w_serial w |}, Ok tt).

Definition dead_letter (person target operation : string) (payload : json)
    (attempts : list (Retry.Attempt X)) : M unit := fun w =>
  ({| w_clock := w_clock w; w_redis := w_redis w; w_db := w_db w; w_down := w_down w;
      w_dead := (DeadLetters.record (w_dead w) (uuid4 env (w_serial w)) person target operation
                   payload attempts).1;
      w_audit := w_audit w; w_recorded := w_recorded w; w_timings := w_timings w; w_serial := S (w_serial w) |}, Ok tt).

Definition with_retries (op : T -> T * result X unit) : M unit := fun w =>
  let out := Retry.with_retries (_transient o) (jitter env (w_serial w)) op Retry.MAX_ATTEMPTS (w_down w) in
  ({| w_clock := (w_clock w + Retry.total (Retry.slept out))%Z; w_redis := w_redis w; w_db := w_db w;
      w_down := Retry.after out; w_dead := w_dead w; w_audit := w_audit w; w_recorded := w_recorded w;
      w_timings := w_timings w; w_serial := S (w_serial w) |},
   match Retry.ended out with
   | Retry.Returned _ => Ok tt
   | Retry.Raised e => Err (Downstream e)
   | Retry.RetriesExhausted attempts => Err (RetriesExhausted attempts)
   end).

(** [try: m except RetriesExhausted as exc: h exc.attempts]. *)
Definition except_exhausted {A} (m : M A) (h : list (Retry.Attempt X) -> M A) : M A := fun w =>
  match m w with
  | (w', Err (RetriesExhausted attempts)) => h attempts w'
  | out => out
  end.

(** [LifecycleStore.apply] on [uuid.UUID(person_uuid)]. *)
Definition lifecycle_apply (person : string) (d : Lifecycle.Delta) (before after : gset string)
    (source : string) : M unit := fun w =>
  match Uuid.parse person with
  | Some p =>
      ({| w_clock := w_clock w; w_redis := w_redis w;
          w_db := Lifecycle.apply (w_db w) p d before after source (w_clock w);
          w_down := w_down w; w_dead := w_dead w; w_audit := w_audit w; w_recorded := w_recorded w;
          w_timings := w_timings w; w_serial := w_serial w |}, Ok tt)
  | None => (w, Err (Raised ValueError))
  end.

Definition clock : M moment := fun w => (w, Ok (w_clock w)).

(** [with self._timed(): m]. *)
Definition _timed {A} (m : M A) : M A := fun w =>
  let '(w', out) := m w in
  (if _has_metrics o then
     {| w_clock := w_clock w'; w_redis := w_redis w'; w_db := w_db w'; w_down := w_down w';
        w_dead := w_dead w'; w_audit := w_audit w'; w_recorded := w_recorded w';
        w_timings := w_timings w' ++ [(w_clock w' - w_clock w)%Z]; w_serial := w_serial w' |}
   else w', out).

(** ** Helpers *)

Definition _step (person step : string) (detail : list (string * json)) : M unit :=
  record {| ev_type := DEPROVISION_STEP; ev_outcome := SUCCESS; ev_subject := person;
            ev_target := None; ev_detail := ("step", JStr step) :: detail |}.

Definition _invalidate_decisions (person : string) : M unit :=
  if _has_decisions o then redis (DecisionCache.invalidate person) else ret tt.

Definition eppns (rows : list Identifier) : list Identifier :=
  List.filter (fun row => String.eqb (id_type row) "eppn") rows.

Definition _login_for (person : string) : option string :=
  match _identity o with
  | None => None
  | Some reg =>
      let found := eppns (identifiers reg person true) in
      let live := List.filter (fun row => negb (is_released row)) found in
      match live, found with
      | row :: _, _ => Some (id_value row)
      | [], row :: _ => Some (id_value row)
      | [], [] => None
      end
  end.

Definition _spec_for (person_uuid : string) : option PersonSpec :=
  match _identity o with
  | None => None
  | Some reg =>
      let rows := identifiers reg person_uuid false in
      let login :=
        match List.find (fun row => String.eqb (id_type row) "eppn" && id_primary row) rows with
        | Some row => Some (id_value row)
        | None => id_value <$> List.find (fun row => String.eqb (id_type row) "eppn") rows
        end in
      match login with
      | None => None
      | Some login =>
          let person := get reg person_uuid in
          let mail := id_value <$> List.find (fun row => String.eqb (id_type row) "mail") rows in
          Some {| ps_uid := Py.before_char "@" login;
                  ps_given_name := or_else (p ← person; given_name p) "";
                  ps_surname := or_else (p ← person; surname p) (Py.before_char "@" login);
                  ps_mail := mail;
                  ps_display_name := p ← person; display_name p;
                  ps_principal_name := Some login |}
      end
  end.

(** ** Downstream accounts *)

Definition _disable_one (target : ProvisioningTarget) (person login : string) : M bool :=
  except_exhausted
    (run* with_retries (disable target login); ret true)
    (fun attempts =>
       if negb (_has_queue o) then throw (RetriesExhausted attempts)
       else
         run* dead_letter person (name target) "disable" (JObj [("login", JStr login)]) attempts;
         run* record {| ev_type := DEPROVISION_STEP; ev_outcome := FAILURE; ev_subject := person;
                      ev_target := None;
                      ev_detail := [("step", JStr DISABLE_ACCOUNTS); ("target", JStr (name target));
                                    ("attempts", JInt (Z.of_nat (length attempts)))] |};
         ret false).

Fixpoint disable_each (targets : list ProvisioningTarget) (person login : string)
    (disabled failed : list string) : M (list string * list string) :=
  match targets with
  | [] => ret (disabled, failed)
  | target :: rest =>
      m* done := _disable_one target person login in
      if (done : bool) then disable_each rest person login (disabled ++ [name target]) failed
      else disable_each rest person login disabled (failed ++ [name target])
  end.

Definition names (l : list string) : json := JArr (JStr <$> l).

Definition outcome_detail (ok failed : list string) : list (string * json) :=
  match failed with
  | [] => [("targets", names ok)]
  | _ => [("targets", names ok); ("dead_lettered", names failed)]
  end.

Definition _disable_accounts (person : string) : M (list string) :=
  match _targets o with
  | [] => run* _step person DISABLE_ACCOUNTS [("targets", names [])]; ret []
  | targets =>
      match _login_for person with
      | None =>
          run* _step person DISABLE_ACCOUNTS [("targets", names []); ("reason", JStr "no login")];
          ret []
      | Some login =>
          m* out := disable_each targets person login [] [] in
          run* _step person DISABLE_ACCOUNTS (outcome_detail out.1 out.2);
          ret out.1
      end
  end.

Definition provision_one (target : ProvisioningTarget) (person : string) (spec : PersonSpec) : M bool :=
  except_exhausted
    (run* with_retries (provision target spec); ret true)
    (fun attempts =>
       if negb (_has_queue o) then throw (RetriesExhausted attempts)
       else
         run* dead_letter person (name target) "provision" (JObj [("login", JStr (ps_uid spec))]) attempts;
         ret false).

Fixpoint provision_each (targets : list ProvisioningTarget) (person : string) (spec : PersonSpec)
    (provisioned failed : list string) : M (list string * list string) :=
  match targets with
  | [] => ret (provisioned, failed)
  | target :: rest =>
      m* done := provision_one target person spec in
      if (done : bool) then provision_each rest person spec (provisioned ++ [name target]) failed
      else provision_each rest person spec provisioned (failed ++ [name target])
  end.

Definition _provision_accounts (person : string) : M unit :=
  match _targets o with
  | [] => _step person PROVISION_ACCOUNTS [("targets", names [])]
  | targets =>
      match _spec_for person with
      | None => _step person PROVISION_ACCOUNTS [("targets", names []); ("reason", JStr "no login")]
      | Some spec =>
          m* out := provision_each targets person spec [] [] in
          _step person PROVISION_ACCOUNTS (outcome_detail out.1 out.2)
      end
  end.

(** ** The sequences *)

(** [for sid in sids: families += len(await revoke_session_families(sid))]. *)
Fixpoint revoke_families (sids : list string) (families : nat) : prog nat :=
  match sids with
  | [] => Ret families
  | sid :: rest =>
      await* revoked := Grants.revoke_session_families (refresh_ttl env) sid in
      revoke_families rest (families + length revoked)
  end.

Definition count (n : nat) : json := JInt (Z.of_nat n).

Definition today_of (on : option Z) (now : moment) : Z := default (calendar env now) on.

Definition _deprovision (person : string) (before : gset string) (source : string) (on : option Z)
  : M Lifecycle.Delta :=
  m* now := clock in
  let delta := Lifecycle.transition (_rules o) before ∅ (today_of on now) in
  m* disabled := _disable_accounts person in
  m* sids := redis (Sessions.terminate_subject (sha256_hex env) Sessions.SESSION_KEY_PREFIX person) in
  run* _step person TERMINATE_SESSIONS [("sessions", count (length sids))];
  m* families := redis (revoke_families sids 0) in
  run* _step person REVOKE_TOKENS [("families", count families)];
  run* lifecycle_apply person delta before ∅ source;
  run* _step person REVOKE_ENTITLEMENTS
       [("immediate", count (length (Lifecycle.immediate delta)));
        ("deferred", count (length (Lifecycle.deferred delta)))];
  run* _invalidate_decisions person;
  run* record {| ev_type := LIFECYCLE_LEAVER; ev_outcome := SUCCESS; ev_subject := person;
               ev_target := None;
               ev_detail := [("affiliations_ended", names (Lifecycle.sorted before));
                             ("sessions_terminated", count (length sids));
                             ("families_revoked", count families);
                             ("targets_disabled", names disabled)] |};
  ret delta.

Definition deprovision (person : string) (before : gset string) (source : string) (on : option Z)
  : M Lifecycle.Delta :=
  _timed (_deprovision person before source on).

Fixpoint each {A} (l : list A) (f : A -> M unit) : M unit :=
  match l with
  | [] => ret tt
  | x :: rest => run* f x; each rest f
  end.

Definition _record_delta (person : string) (before after : gset string) (d : Lifecycle.Delta)
    (source : string) : M unit :=
  run* each (Lifecycle.granted d) (fun g =>
       record {| ev_type := ENTITLEMENT_GRANTED; ev_outcome := SUCCESS; ev_subject := person;
                 ev_target := Some (Lifecycle.gr_urn g);
                 ev_detail := [("rule", JStr (Lifecycle.gr_rule_id g));
                               ("affiliation", JStr (Lifecycle.gr_affiliation g))] |});
  run* each (Lifecycle.revoked d) (fun r =>
       record {| ev_type := ENTITLEMENT_REVOKED; ev_outcome := SUCCESS; ev_subject := person;
                 ev_target := Some (Lifecycle.rv_urn r);
                 ev_detail := [("effective", JStr (Dates.isoformat (Lifecycle.rv_effective r)));
                               ("grace_days", JInt (Lifecycle.rv_grace_days r))] |});
  record {| ev_type := EVENT_FOR (Lifecycle.event_type before after); ev_outcome := SUCCESS;
            ev_subject := person; ev_target := None;
            ev_detail := [("source", JStr source);
                          ("before", names (Lifecycle.sorted before));
                          ("after", names (Lifecycle.sorted after));
                          ("granted", names (Lifecycle.gr_urn <$> Lifecycle.granted d));
                          ("revoked", names (Lifecycle.rv_urn <$> Lifecycle.revoked d))] |}.

Definition transitioned (person : string) (before after : gset string) (source : string) (on : option Z)
  : M Lifecycle.Delta :=
  if bool_decide (after = ∅) && negb (bool_decide (before = ∅)) then deprovision person before source on
  else _timed (
    m* now := clock in
    let delta := Lifecycle.transition (_rules o) before after (today_of on now) in
    run* lifecycle_apply person delta before after source;
    run* _provision_accounts person;
    run* _invalidate_decisions person;
    run* _record_delta person before after delta source;
    ret delta).

(** ** The order of the steps *)

(** The steps a stretch of the trail says were completed. *)
Definition completed (ev : event) : option string :=
  match ev_type ev, ev_outcome ev, ev_detail ev with
  | DEPROVISION_STEP, SUCCESS, (_, JStr step) :: _ => Some step
  | _, _, _ => None
  end.
Definition steps (evs : list event) : list string := omap completed evs.

(** Whatever the world, the run records the steps [l] and, when it fails, the
    first few of them. *)
Definition records {A} (m : M A) (l : list string) : Prop :=
  forall w, exists evs, w_audit (m w).1 = w_audit w ++ evs /\
    if is_ok (m w).2 then steps evs = l else steps evs `prefix_of` l.

Lemma records_bind {A B} (m : M A) (k : A -> M B) l1 l2 :
  records m l1 -> (forall a, records (k a) l2) -> records (bind m k) (l1 ++ l2).
Proof.
  intros Hm Hk w. destruct (Hm w) as (evs & Ha & Hs). unfold bind.
  destruct (m w) as [w1 [a|e]]; simpl in *.
  - destruct (Hk a w1) as (evs2 & Ha2 & Hs2). exists (evs ++ evs2).
    rewrite Ha2, Ha, (assoc_L app). split; [done|]. unfold steps in *. rewrite omap_app, Hs.
    destruct (is_ok _); [by rewrite Hs2|by apply prefix_app].
  - exists evs. split; [done|]. by apply prefix_app_r.
Qed.

Lemma records_quiet {A} (m : M A) : (forall w, w_audit (m w).1 = w_audit w) -> records m [].
Proof. intros Hm w. exists []. rewrite Hm, app_nil_r. by destruct (is_ok _). Qed.

Lemma records_record ev l : option_list (completed ev) = l -> records (record ev) l.
Proof. intros <- w. exists [ev]. split; [done|]. simpl. by destruct (completed ev). Qed.

Lemma records_redis {A} (p : prog A) : records (redis p) [].
Proof. apply records_quiet. intros w. unfold redis. by destruct (run p _ _). Qed.

Lemma records_disable_one target person login : records (_disable_one target person login) [].
Proof.
  intros w. unfold _disable_one, except_exhausted, bind, with_retries, throw, ret, dead_letter.
  destruct (Retry.ended _); simpl; [by exists []; rewrite app_nil_r..|].
  destruct (negb (_has_queue o)); simpl; [by exists []; rewrite app_nil_r|].
  eexists [_]. split; [done|]. reflexivity.
Qed.

Lemma records_disable_each targets person login disabled failed :
  records (disable_each targets person login disabled failed) [].
Proof.
  revert disabled failed. induction targets as [|target rest IH]; intros disabled failed; simpl.
  - by apply records_quiet.
  - change [] with ([] ++ [] : list string). apply records_bind; [apply records_disable_one|].
    intros []; apply IH.
Qed.

Lemma records_disable_accounts person : records (_disable_accounts person) [DISABLE_ACCOUNTS].
Proof.
  assert (forall d, records (_step person DISABLE_ACCOUNTS d) [DISABLE_ACCOUNTS]) as Hstep
    by (intros d; by apply records_record).
  assert (forall {A} (a : A), records (ret a) []) as Hret by (intros; by apply records_quiet).
  unfold _disable_accounts. destruct (_targets o) as [|tg tgs].
  { change [DISABLE_ACCOUNTS] with ([DISABLE_ACCOUNTS] ++ [] : list string). by apply records_bind. }
  destruct (_login_for person) as [login|].
  - change [DISABLE_ACCOUNTS] with ([] ++ [DISABLE_ACCOUNTS] ++ [] : list string).
    apply records_bind; [apply records_disable_each|]. intros out. by apply records_bind.
  - change [DISABLE_ACCOUNTS] with ([DISABLE_ACCOUNTS] ++ [] : list string). by apply records_bind.
Qed.

Lemma records_timed {A} (m : M A) l : records m l -> records (_timed m) l.
Proof.
  intros Hm w. destruct (Hm w) as (evs & Ha & Hs). exists evs. unfold _timed.
  destruct (m w) as [w' out]. by destruct (_has_metrics o).
Qed.

(** C35: Deprovisioning is ordered, and the trail shows how far it got.  Whatever
    the downstream systems, Redis and the tables do, the completed steps a run
    records are the required sequence, or a prefix of it when the run fails. *)
Theorem deprovision_in_order (person : string) (before : gset string) (source : string)
    (on : option Z) (w : world) :
  let out := deprovision person before source on w in
  exists evs, w_audit out.1 = w_audit w ++ evs /\
    if is_ok out.2 then steps evs = DEPROVISION_ORDER else steps evs `prefix_of` DEPROVISION_ORDER.
Proof.
  cut (records (deprovision person before source on) DEPROVISION_ORDER); [intros Hr; exact (Hr w)|].
  apply records_timed. unfold _deprovision, DEPROVISION_ORDER.
  assert (forall {A} (m : M A) (k : A -> M Lifecycle.Delta) l, records m [] ->
    (forall a, records (k a) l) -> records (bind m k) l) as Hquiet
    by (intros A m k l Hm Hk; by apply (records_bind m k [] l)).
  assert (forall {A} (m : M A) (k : A -> M Lifecycle.Delta) x l, records m [x] ->
    (forall a, records (k a) l) -> records (bind m k) (x :: l)) as Hone
    by (intros A m k x l Hm Hk; by apply (records_bind m k [x] l)).
  assert (forall step d, records (_step person step d) [step]) as Hstep by (intros; by apply records_record).
  apply Hquiet; [by apply records_quiet|intros now].
  apply Hone; [apply records_disable_accounts|intros disabled].
  apply Hquiet; [apply records_redis|intros sids]. apply Hone; [done|intros _].
  apply Hquiet; [apply records_redis|intros families]. apply Hone; [done|intros _].
  apply Hquiet; [apply records_quiet; intros w'; unfold lifecycle_apply; by destruct (Uuid.parse person)|intros _].
  apply Hone; [done|intros _].
  apply Hquiet; [unfold _invalidate_decisions; destruct (_has_decisions o); [apply records_redis|by apply records_quiet]|intros _].
  apply Hquiet; [by apply records_record|intros _]. by apply records_quiet.
Qed.
End orchestrator.

(** ** What a leaver is left with *)

Section leavers.
Context {R : Type} `{RedisLaws R} {T X : Type}.
Context (env : environment) (o : LifecycleOrchestrator (T := T) (X := X)).
Abbreviation world := (world (R := R) (T := T) (X := X)).

(** The keys [revoke_families] works on. *)
Definition family_key_of (k : string) : Prop :=
  Py.startswith k Grants.FAMILY_REVOKED_PREFIX = true \/ Py.startswith k Grants.SESSION_FAMILY_PREFIX = true.

Lemma revoke_families_touches sids n : touches family_key_of (revoke_families env sids n).
Proof.
  revert n. induction sids as [|sid sids IH]; intros n; cbn [revoke_families]; [done|].
  apply touches_bind; [|done]. unfold Grants.revoke_session_families.
  apply touches_bind; [split; [right; apply Py.startswith_app|by intros []]|intros fs].
  apply touches_bind; [apply touches_pfor; intros f; split; [left; apply Py.startswith_app|by intros []]|intros _].
  apply touches_bind; [split; [right; apply Py.startswith_app|by intros []]|done].
Qed.

Abbreviation families_key sid := (Grants.SESSION_FAMILY_PREFIX +:+ sid).
Abbreviation family_key f := (Grants.FAMILY_REVOKED_PREFIX +:+ f).
Abbreviation marker t :=
  (Entry (VScalar (SText "1")) (Some (t + ttl_seconds (refresh_ttl env) * SECOND)%Z)).

Lemma revoke_families_vrun sids n (v : kview) t :
  (forall sid s d, v (families_key sid) <> Some (Entry (VScalar s) d)) ->
  let out := vrun r_round (revoke_families env sids n) v t in
  (exists m, out.2 = Ok m) /\
  (forall sid fs d f, sid ∈ sids -> v (families_key sid) = Some (Entry (VSet fs) d) -> f ∈ fs ->
     out.1 (family_key f) = Some (marker t)) /\
  (forall f, v (family_key f) = Some (marker t) -> out.1 (family_key f) = Some (marker t)).
Proof.
  cbv zeta. revert n v. induction sids as [|sid sids IH]; intros n v Hv; cbn [revoke_families].
  { split_and!; [eauto|intros ???? Hin; by apply not_elem_of_nil in Hin|done]. }
  rewrite vrun_bind.
  destruct (Grants.revoke_session_families_vrun (refresh_ttl env) v t sid (Hv sid))
    as ((l & El) & Hset & Hkeep & Hother & Hgone).
  destruct (vrun r_round (Grants.revoke_session_families (refresh_ttl env) sid) v t) as [v1 o1].
  cbn [fst snd] in *. subst o1. destruct (IH (n + length l)%nat v1) as (Hok & Hin & Hk).
  { intros sid' s d. destruct (decide (sid' = sid)) as [->|Hne]; [by rewrite Hgone|by rewrite Hother]. }
  split_and!; [done| |by eauto].
  intros sid' fs d f Hs Hf Hfs. destruct (decide (sid' = sid)) as [->|Hne]; [eauto|].
  apply (Hin sid' fs d f); [set_solver|by rewrite Hother|done].
Qed.

Lemma invalidate_ok (r : R) t person : (run (DecisionCache.invalidate person) r t).2 = Ok tt.
Proof. unfold DecisionCache.invalidate. simpl. destruct (r_exec r t _) as [r' []]; reflexivity. Qed.

(** [m] succeeds from [w], ending where [Q] says. *)
Definition succeeds {A} (m : M (R := R) (T := T) (X := X) A) (w : world) (Q : A -> world -> Prop) : Prop :=
  exists w' a, m w = (w', Ok a) /\ Q a w'.

Lemma succeeds_bind {A B} (m : M A) (k : A -> M B) (w : world) Q :
  succeeds m w (fun a w' => succeeds (k a) w' Q) -> succeeds (bind m k) w Q.
Proof. intros (w' & a & E & w2 & b & E2 & HQ). exists w2, b. unfold bind. by rewrite E. Qed.

Lemma succeeds_mono {A} (m : M A) (w : world) (Q Q' : A -> world -> Prop) :
  succeeds m w Q -> (forall a w', Q a w' -> Q' a w') -> succeeds m w Q'.
Proof. intros (w' & a & E & HQ) HQQ. exists w', a. eauto. Qed.

Lemma succeeds_redis {A} (p : prog A) (w : world) (Q : A -> world -> Prop) a :
  (run p (w_redis w) (w_clock w)).2 = Ok a ->
  (forall w', w_redis w' = (run p (w_redis w) (w_clock w)).1 -> w_clock w' = w_clock w ->
     w_db w' = w_db w -> w_down w' = w_down w -> w_dead w' = w_dead w -> Q a w') ->
  succeeds (redis p) w Q.
Proof.
  intros Ea HQ. unfold succeeds, redis. destruct (run p (w_redis w) (w_clock w)) as [r out].
  simpl in *. subst out. do 2 eexists. split; [done|]. by apply HQ.
Qed.

Lemma succeeds_record ev (w : world) (Q : unit -> world -> Prop) :
  (forall w', w_redis w' = w_redis w -> w_clock w' = w_clock w ->
     w_db w' = w_db w -> w_down w' = w_down w -> w_dead w' = w_dead w -> Q tt w') ->
  succeeds (record ev) w Q.
Proof. intros HQ. do 2 eexists. split; [done|]. by apply HQ. Qed.

(** What a downstream system promises: a disable that returns has disabled the
    account, and no later disable undoes one. *)
Context (off : string -> string -> T -> Prop).
Context (disable_off : forall tg login d d',
  tg ∈ _targets o -> disable tg login d = (d', Ok tt) -> off (name tg) login d').
Context (disable_keeps : forall tg login d n l,
  tg ∈ _targets o -> off n l d -> off n l (disable tg login d).1).
(** Failures are retried and filed; a delay is drawn between nothing and the
    backoff. *)
Context (queue : _has_queue o = true) (all_transient : forall e, _transient o e = true).
Context (jitter_ok : forall n attempt d, (0 <= d)%Z -> (0 <= jitter env n attempt d <= d)%Z).

(** The account is disabled, or its dead letter waits. *)
Definition handled (person login n : string) (w : world) : Prop :=
  off n login (w_down w) \/ (person, n, "disable") ∈ DeadLetters.waiting (w_dead w).

Definition same_stores (w w' : world) : Prop :=
  w_redis w' = w_redis w /\ w_db w' = w_db w /\ (w_clock w <= w_clock w')%Z.

Lemma disable_one_succeeds tg person login (w : world) :
  tg ∈ _targets o ->
  succeeds (_disable_one env o tg person login) w (fun _ w' =>
    same_stores w w' /\ handled person login (name tg) w' /\
    forall n, handled person login n w -> handled person login n w').
Proof.
  intros Htg. unfold succeeds, _disable_one, except_exhausted, bind, with_retries, ret.
  set (j := jitter env (w_serial w)).
  pose proof (Retry.retry_loop_spec (_transient o) j (disable tg login) Retry.MAX_ATTEMPTS 1 (w_down w) [] [])
    as Hspec.
  pose proof (Retry.retry_loop_waits (_transient o) j (fun a d Hd => jitter_ok _ a d Hd) (disable tg login)
    Retry.MAX_ATTEMPTS 1 (w_down w) [] []) as [Hnap _].
  assert (forall n, off n login (w_down w) -> off n login (Retry.after (Retry.with_retries (_transient o) j
    (disable tg login) Retry.MAX_ATTEMPTS (w_down w)))) as Hkeep.
  { intros n Hn. by apply (Retry.retry_loop_keeps _ _ (off n login)); [intros x Hx; apply disable_keeps|]. }
  cbv zeta in Hspec. fold (Retry.with_retries (_transient o) j (disable tg login) Retry.MAX_ATTEMPTS (w_down w))
    in Hspec, Hnap. change (Retry.total []) with 0%Z in Hnap.
  set (out := Retry.with_retries _ _ _ _ _) in *. clearbody out.
  destruct Hspec as [(k & r & _ & _ & Hop & Hfinal & Hend)|(_ & _ & hs & Hend & _)]; rewrite Hend.
  - destruct r as [[]|e]; [|by destruct Hfinal; exists e].
    do 2 eexists. split; [reflexivity|]. unfold same_stores, handled. simpl. split_and!; [done..|lia| |].
    + left. by eapply disable_off.
    + intros n [Hn|Hn]; [left; by apply Hkeep|by right].
  - rewrite queue. do 2 eexists. split; [reflexivity|]. unfold same_stores, handled. simpl.
    split_and!; [done..|lia| |].
    + right. apply DeadLetters.record_waiting.
    + intros n [Hn|Hn]; [left; by apply Hkeep|right; by apply DeadLetters.record_keeps].
Qed.

Lemma disable_each_succeeds tgs person login disabled failed (w : world) :
  tgs ⊆ _targets o ->
  succeeds (disable_each env o tgs person login disabled failed) w (fun _ w' =>
    same_stores w w' /\ (forall tg, tg ∈ tgs -> handled person login (name tg) w') /\
    forall n, handled person login n w -> handled person login n w').
Proof.
  revert disabled failed w. induction tgs as [|tg tgs IH]; intros disabled failed w Hsub; simpl.
  { do 2 eexists. split; [reflexivity|]. split_and!; [by split_and!|set_solver|done]. }
  apply succeeds_bind. eapply succeeds_mono; [apply disable_one_succeeds; set_solver|].
  intros b w1 ((Hr & Hd & Hc) & Hh & Hk).
  assert (forall dis fl, succeeds (disable_each env o tgs person login dis fl) w1 (fun _ w' =>
    same_stores w w' /\ (forall tg', tg' ∈ tg :: tgs -> handled person login (name tg') w') /\
    forall n, handled person login n w -> handled person login n w')) as Hrest.
  { intros dis fl. eapply succeeds_mono; [apply IH; set_solver|].
    intros out w2 ((Hr2 & Hd2 & Hc2) & Hh2 & Hk2). split_and!; [split_and!; [congruence..|lia]| |by eauto].
    intros tg' [->|Hin]%elem_of_cons; eauto. }
  destruct b; apply Hrest.
Qed.

Lemma disable_accounts_succeeds person (w : world) :
  succeeds (_disable_accounts env o person) w (fun _ w' =>
    same_stores w w' /\
    forall login tg, _login_for o person = Some login -> tg ∈ _targets o ->
      handled person login (name tg) w').
Proof.
  assert (forall d w0 Q, (forall w' : world, same_stores w0 w' -> w_down w' = w_down w0 -> w_dead w' = w_dead w0 ->
    Q tt w') -> succeeds (_step person DISABLE_ACCOUNTS d) w0 Q) as Hstep.
  { intros d w0 Q HQ. apply succeeds_record. intros w' ? ? ? ? ?. apply HQ; [|done..]. split_and!; [done..|lia]. }
  assert (forall {A} (a : A) w0 (Q : A -> world -> Prop), Q a w0 -> succeeds (ret a) w0 Q) as Hret.
  { intros A a w0 Q HQ. by exists w0, a. }
  unfold _disable_accounts. pose proof (disable_each_succeeds (_targets o) person) as Heach.
  destruct (_targets o) as [|tg tgs] eqn:Et.
  { apply succeeds_bind, Hstep. intros w' Hs _ _. apply Hret. split; [done|]. set_solver. }
  destruct (_login_for o person) as [login|].
  - apply succeeds_bind. eapply succeeds_mono; [by apply Heach|]. intros out w1 (Hs & Hh & _).
    apply succeeds_bind, Hstep. intros w2 Hs2 Hd2 Hq2. apply Hret. split.
    + destruct Hs as (? & ? & ?), Hs2 as (? & ? & ?). split_and!; [congruence..|lia].
    + intros login' tg' [= <-] Hin. unfold handled. rewrite Hd2, Hq2. by apply Hh.
  - apply succeeds_bind, Hstep. intros w' Hs _ _. by apply Hret.
Qed.

Context (idle absolute : duration) (idle_le_absolute : (idle <= absolute)%Z).
Abbreviation digest := (sha256_hex env).
Abbreviation fetch := (Sessions.load digest idle absolute Sessions.SESSION_KEY_PREFIX).
Abbreviation history := (Sessions.history digest idle absolute).

(** Steps two, three and five on Redis: the sessions end, and what follows
    brings none of them back. *)
Lemma leaver_redis births (r : R) t t1 person :
  history births r t -> (t <= t1)%Z ->
  (forall sid s d, r_view r t1 (families_key sid) <> Some (Entry (VScalar s) d)) ->
  let out := run (Sessions.terminate_subject digest Sessions.SESSION_KEY_PREFIX person) r t1 in
  exists sids, out.2 = Ok sids /\
    let out2 := run (revoke_families env sids 0) out.1 t1 in
    (exists n, out2.2 = Ok n) /\
    forall r3, r3 = out2.1 \/ r3 = (run (DecisionCache.invalidate person) out2.1 t1).1 ->
      (forall t2 sid now l s, (t1 <= t2)%Z -> (run (fetch sid now) r3 t2).2 = Ok l ->
         Sessions.l_session l = Some s -> Sessions.subject_key s <> person) /\
      (forall sid now l s fs d f, (run (fetch sid now) r t1).2 = Ok l ->
         Sessions.l_session l = Some s -> Sessions.subject_key s = person ->
         r_view r t1 (families_key sid) = Some (Entry (VSet fs) d) -> f ∈ fs ->
         Grants.revoked_from (refresh_ttl env) r3 t1 f).
Proof.
  intros Hh Ht Hfam. cbv zeta.
  destruct (Sessions.terminated digest idle absolute idle_le_absolute births r t t1 person Hh Ht)
    as (sids & Hres & Hh1 & Hcover & Hleft).
  set (r1 := (run (Sessions.terminate_subject digest _ person) r t1).1) in *.
  exists sids. split; [exact Hres|].
  assert (forall k, Py.startswith k Sessions.SESSION_KEY_PREFIX = false -> r_view r1 t1 k = r_view r t1 k) as Hfr1.
  { intros k Hk. eapply run_frame; [apply Sessions.terminate_touches|cbv beta; congruence|lia]. }
  assert (forall sid, r_view r1 t1 (families_key sid) = r_view r t1 (families_key sid)) as Hfk
    by (intros sid; by apply Hfr1).
  destruct (revoke_families_vrun sids 0 (r_view r1 t1) t1) as (Hok & Hset & _).
  { intros sid s d. by rewrite Hfk. }
  assert (forall k, family_key_of k -> Py.startswith k Sessions.SESSION_KEY_PREFIX = false) as Hapart.
  { intros k [Hk|Hk]; apply Py.startswith_spec in Hk as [x ->]; done. }
  assert (history births (run (revoke_families env sids 0) r1 t1).1 t1) as Hh2.
  { eapply Sessions.history_run; [exact Hh1|lia|].
    eapply touches_weaken; [apply revoke_families_touches|exact Hapart]. }
  set (r2 := (run (revoke_families env sids 0) r1 t1).1) in *.
  split; [by rewrite run_result|]. intros r3 Hr3.
  assert (forall k, Py.startswith k DecisionCache.EPOCH_PREFIX = false -> r_view r3 t1 k = r_view r2 t1 k) as Hfr3.
  { intros k Hk. destruct Hr3 as [->| ->]; [done|].
    eapply (run_frame (fun k => Py.startswith k DecisionCache.EPOCH_PREFIX = true)); [|cbv beta; congruence|lia].
    split; [apply Py.startswith_app|by intros []]. }
  assert (history births r3 t1) as Hh3.
  { destruct Hr3 as [->| ->]; [done|]. eapply Sessions.history_run; [exact Hh2|lia|]. split; [done|by intros []]. }
  split.
  - intros t2 sid now l s Ht2 Hl Hs. eapply (Hleft r3 t2 Hh3 Ht2); [|exact Hl|exact Hs].
    intros rest. rewrite Hfr3 by done. eapply run_frame; [apply revoke_families_touches| |lia].
    intros Hk%Hapart. unfold Sessions.SESSION_KEY_PREFIX in Hk. by rewrite Py.startswith_app in Hk.
  - intros sid now l s fs d f Hl Hs Hsub Hfs Hf. exists (VScalar (SText "1")).
    rewrite Hfr3 by done. unfold r2. rewrite run_vrun_later by lia.
    rewrite (Hset sid fs d f); [by apply age_set_now, Z.lt_le_trans with 1%Z, ttl_seconds_pos| | |done].
    + by eapply Hcover.
    + by rewrite Hfk.
Qed.

Lemma succeeds_timed {A} (m : M A) (w : world) Q :
  succeeds m w Q ->
  (forall a w1 w2, Q a w1 -> w_redis w2 = w_redis w1 -> w_db w2 = w_db w1 -> w_clock w2 = w_clock w1 ->
     w_down w2 = w_down w1 -> w_dead w2 = w_dead w1 -> Q a w2) ->
  succeeds (_timed o m) w Q.
Proof.
  intros (w' & a & E & HQ) Hext. unfold succeeds, _timed. rewrite E.
  destruct (_has_metrics o); do 2 eexists; (split; [reflexivity|]); [|done]. by eapply Hext.
Qed.

(** Going from [w] to [w'] has shut the person out: no identifier loads a
    session of theirs, every token family behind a session they had is revoked
    for the lifetime of its tokens, an entitlement their affiliations justified
    is held no longer than its grace period, and in every downstream system the
    account is disabled or a dead letter for it waits. *)
Definition shut_out (person : string) (before : gset string) (today : Z) (w w' : world) : Prop :=
  (forall t2 sid now l s, (w_clock w' <= t2)%Z -> (run (fetch sid now) (w_redis w') t2).2 = Ok l ->
     Sessions.l_session l = Some s -> Sessions.subject_key s <> person) /\
  (forall sid now l s fs d f, (run (fetch sid now) (w_redis w) (w_clock w')).2 = Ok l ->
     Sessions.l_session l = Some s -> Sessions.subject_key s = person ->
     r_view (w_redis w) (w_clock w') (families_key sid) = Some (Entry (VSet fs) d) -> f ∈ fs ->
     Grants.revoked_from (refresh_ttl env) (w_redis w') (w_clock w') f) /\
  (forall urn day, urn ∈ Lifecycle.urns (Lifecycle.grants_for (_rules o) before) -> (today <= day)%Z ->
     urn ∈ Lifecycle.held (w_db w') person day <->
       urn ∈ Lifecycle.held (w_db w) person day /\ (day < today + Lifecycle.grace_of (_rules o) urn)%Z) /\
  (forall login tg, _login_for o person = Some login -> tg ∈ _targets o ->
     handled person login (name tg) w').

(** C1: By the time deprovisioning returns, the person cannot reach anything.
    From any state of the session store, with downstream failures retried and
    filed rather than fatal, a leaver's run completes and has shut the person
    out: sessions, refresh tokens, entitlements and downstream accounts. *)
Theorem leaver_cannot_reach_anything (births : list (Sessions.login * moment)) (t : moment)
    (person source : string) (before : gset string) (on : option Z) (w : world) :
  history births (w_redis w) t -> (t <= w_clock w)%Z ->
  Uuid.parse person = Some person ->
  (forall urn, (0 <= Lifecycle.grace_of (_rules o) urn)%Z) ->
  (forall sid s d, r_view (w_redis w) (w_clock w) (families_key sid) <> Some (Entry (VScalar s) d)) ->
  exists w' delta, deprovision env o person before source on w = (w', Ok delta) /\
    shut_out person before (today_of env on (w_clock w)) w w'.
Proof.
  intros Hh Ht Huuid Hgrace Hfam.
  cut (succeeds (deprovision env o person before source on) w
    (fun _ w' => shut_out person before (today_of env on (w_clock w)) w w')); [done|].
  apply succeeds_timed; [|intros a w1 w2 HQ Er Ed Ec Ew Eq; unfold shut_out, handled in *;
    by rewrite Er, Ed, Ec, Ew, Eq].
  unfold _deprovision. apply succeeds_bind. exists w, (w_clock w). split; [reflexivity|].
  apply succeeds_bind. eapply succeeds_mono; [apply disable_accounts_succeeds|].
  intros disabled w1 ((Er1 & Ed1 & Hc1) & Hdown).
  destruct (leaver_redis births (w_redis w1) t (w_clock w1) person) as (sids & Hsids & (n & Hn) & Hfinal).
  { by rewrite Er1. }
  { lia. }
  { intros sid s d E. rewrite Er1, (r_view_age _ (w_clock w)) in E by done.
    apply age_Some in E as [E _]. by eapply Hfam. }
  rewrite Er1 in Hfinal.
  apply succeeds_bind. eapply succeeds_redis; [exact Hsids|]. intros w2 Er2 Ec2 Ed2 Ew2 Eq2.
  apply succeeds_bind, succeeds_record. intros w3 Er3 Ec3 Ed3 Ew3 Eq3.
  apply succeeds_bind. eapply succeeds_redis; [rewrite Er3, Er2, Ec3, Ec2; exact Hn|]. intros w4 Er4 Ec4 Ed4 Ew4 Eq4.
  apply succeeds_bind, succeeds_record. intros w5 Er5 Ec5 Ed5 Ew5 Eq5.
  apply succeeds_bind. unfold succeeds at 1, lifecycle_apply. rewrite Huuid. do 2 eexists. split; [reflexivity|].
  apply succeeds_bind, succeeds_record. simpl. intros w7 Er7 Ec7 Ed7 Ew7 Eq7.
  assert (forall w8 : world, w_redis w8 = w_redis w4 \/
      w_redis w8 = (run (DecisionCache.invalidate person) (w_redis w4) (w_clock w1)).1 ->
    w_clock w8 = w_clock w7 -> w_db w8 = w_db w7 -> w_down w8 = w_down w7 -> w_dead w8 = w_dead w7 ->
    shut_out person before (today_of env on (w_clock w)) w w8) as Hdone.
  { intros w8 Er8 Ec8 Ed8 Ew8 Eq8. assert (w_clock w8 = w_clock w1) as Ec by congruence.
    rewrite Er4, Er3, Er2, Ec3, Ec2, Er1 in Er8. destruct (Hfinal (w_redis w8) Er8) as [Hs Hf].
    unfold shut_out, handled. rewrite Ec. split_and!; [done..| |].
    - intros urn day Hu Hd. rewrite Ed8, Ed7, Ed5, Ed4, Ed3, Ed2, Ed1.
      apply Lifecycle.apply_lost; [done..|apply Lifecycle.urns_no_affiliations].
    - intros login tg Hl Hin. rewrite Ew8, Ew7, Ew5, Ew4, Ew3, Ew2, Eq8, Eq7, Eq5, Eq4, Eq3, Eq2. by apply Hdown. }
  apply succeeds_bind. unfold _invalidate_decisions. destruct (_has_decisions o).
  - eapply succeeds_redis; [apply invalidate_ok|]. intros w8 Er8 Ec8 Ed8 Ew8 Eq8.
    apply succeeds_bind, succeeds_record. intros w9 Er9 Ec9 Ed9 Ew9 Eq9. exists w9. eexists. split; [reflexivity|].
    apply Hdone; [right; congruence|congruence..].
  - exists w7, tt. split; [reflexivity|]. apply succeeds_bind, succeeds_record. intros w9 Er9 Ec9 Ed9 Ew9 Eq9.
    exists w9. eexists. split; [reflexivity|]. apply Hdone; [left; congruence|congruence..].
Qed.
End leavers.

(** ** Joiners and movers *)

Section movers.
Context {R : Type} `{RedisServer R} {T X : Type}.
Context (env : environment) (o : LifecycleOrchestrator (T := T) (X := X)).
Abbreviation world := (world (R := R) (T := T) (X := X)).

(** Leaves our own tables alone. *)
Definition keeps_db {A} (m : M (R := R) (T := T) (X := X) A) : Prop := forall w, w_db (m w).1 = w_db w.

Lemma keeps_db_bind {A B} (m : M A) (k : A -> M B) :
  keeps_db m -> (forall a, keeps_db (k a)) -> keeps_db (bind m k).
Proof.
  intros Hm Hk w. unfold bind. specialize (Hm w). destruct (m w) as [w1 [a|e]]; simpl in *; [|done].
  by rewrite Hk.
Qed.

Lemma keeps_db_each {A} (l : list A) (f : A -> M unit) : (forall x, keeps_db (f x)) -> keeps_db (each l f).
Proof. intros Hf. induction l as [|x l IH]; [done|]. by apply keeps_db_bind. Qed.

Lemma keeps_db_provision_one tg person spec : keeps_db (provision_one env o tg person spec).
Proof.
  intros w. unfold provision_one, except_exhausted, bind, with_retries, throw, ret, dead_letter.
  destruct (Retry.ended _); simpl; [done..|]. by destruct (negb (_has_queue o)).
Qed.

Lemma keeps_db_provision_each tgs person spec ok failed :
  keeps_db (provision_each env o tgs person spec ok failed).
Proof.
  revert ok failed. induction tgs as [|tg tgs IH]; intros ok failed; [done|].
  apply keeps_db_bind; [apply keeps_db_provision_one|]. intros []; apply IH.
Qed.

Lemma keeps_db_provision_accounts person : keeps_db (_provision_accounts env o person).
Proof.
  unfold _provision_accounts. destruct (_targets o) as [|tg tgs]; [done|].
  destruct (_spec_for o person); [|done]. by apply keeps_db_bind; [apply keeps_db_provision_each|].
Qed.

(** Our own tables are written whatever the directory does.  A transition
    that is not a leaver's is in the lifecycle tables when the run ends, even a
    run that ends because a downstream system refused or could not be
    reached; a leaver's goes through the deprovisioning sequence. *)
Theorem recorded_before_provisioned (person p source : string) (before after : gset string)
    (on : option Z) (w : world) :
  Uuid.parse person = Some p ->
  let out := transitioned env o person before after source on w in
  if bool_decide (after = ∅ /\ before <> ∅) then out = deprovision env o person before source on w
  else w_db out.1 =
    Lifecycle.apply (w_db w) p (Lifecycle.transition (_rules o) before after (today_of env on (w_clock w)))
      before after source (w_clock w).
Proof.
  intros Hu. cbv zeta. unfold transitioned. case_bool_decide as Hleaver.
  { destruct Hleaver as [-> Hb]. by rewrite bool_decide_true, bool_decide_false. }
  assert (bool_decide (after = ∅) && negb (bool_decide (before = ∅)) = false) as ->.
  { do 2 case_bool_decide; naive_solver. }
  assert (forall {A} (m : M A) w, w_db (_timed o m w).1 = w_db (m w).1) as ->.
  { intros A m w0. unfold _timed. destruct (m w0) as [w1 r]. by destruct (_has_metrics o). }
  unfold bind at 1, clock. cbn [fst]. unfold bind at 1, lifecycle_apply at 1. rewrite Hu.
  rewrite keeps_db_bind; [done|apply keeps_db_provision_accounts|intros _].
  apply keeps_db_bind; [|intros _].
  - unfold _invalidate_decisions, redis. intros w'. destruct (_has_decisions o); [|done]. by destruct (run _ _ _).
  - apply keeps_db_bind; [|done]. unfold _record_delta.
    repeat (apply keeps_db_bind; [by apply keeps_db_each|intros _]). done.
Qed.

(** A failure that is not worth retrying stops the sequence before it
    starts.  When the first downstream system refuses the disable for good, the
    run raises and the leaver's sessions, refresh tokens and entitlements are
    all as they were. *)
Theorem refused_disable_keeps_sessions (tg : ProvisioningTarget) (tgs : list ProvisioningTarget)
    (person login source : string) (before : gset string) (on : option Z) (w : world) (d : T) (e : X) :
  _targets o = tg :: tgs -> _login_for o person = Some login ->
  disable tg login (w_down w) = (d, Err e) -> _transient o e = false ->
  let out := deprovision env o person before source on w in
  out.2 = Err (Downstream e) /\ w_redis out.1 = w_redis w /\ w_db out.1 = w_db w /\
  w_dead out.1 = w_dead w /\ w_audit out.1 = w_audit w.
Proof.
  intros Htg Hl Hd He. cbv zeta. unfold deprovision, _timed, _deprovision, _disable_accounts.
  rewrite Htg, Hl. unfold bind, clock. cbn [disable_each].
  unfold bind, _disable_one, except_exhausted, with_retries, Retry.with_retries, Retry.MAX_ATTEMPTS.
  unfold bind. cbn [Retry.retry_loop]. rewrite Hd, He. cbn. by destruct (_has_metrics o).
Qed.
End movers.

(** ** Witnesses *)

Section witnesses.

Definition demo_person := "0a1b2c3d-0000-4000-8000-000000000001".

Definition demo_ldap (refusal : option string) : ProvisioningTarget (T := list (string * string)) (X := string) :=
  {| name := "ldap"; provision := fun _ d => (d, Ok tt);
     disable := fun login d => match refusal with
                               | None => (("ldap", login) :: d, Ok tt)
                               | Some e => (d, Err e)
                               end |}.

Definition demo_printers : ProvisioningTarget (T := list (string * string)) (X := string) :=
  {| name := "printers"; provision := fun _ d => (d, Ok tt); disable := fun _ d => (d, Err "down") |}.

Definition demo_registry : registry :=
  {| all_identifiers := fun _ => [{| id_type := "eppn"; id_value := "sam@campus.test";
                                     id_primary := true; id_released_at := Some 5%Z |}];
     get := fun _ => None |}.

Definition demo_orchestrator (refusal : option string) (transient : string -> bool)
  : LifecycleOrchestrator (T := list (string * string)) (X := string) :=
  {| _rules := Lifecycle.demo_rules; _targets := [demo_ldap refusal; demo_printers];
     _identity := Some demo_registry; _has_queue := true; _transient := transient;
     _has_decisions := true; _has_metrics := true |}.

Definition demo_env : environment :=
  {| sha256_hex := Sessions.demo_digest; refresh_ttl := Grants.REFRESH_TTL;
     calendar := fun t => (t / (86400 * SECOND))%Z; uuid4 := fun n => pretty n;
     jitter := fun _ _ d => d |}.

Definition demo_login : Sessions.login :=
  {| Sessions.lg_idp_entity_id := "https://idp.test"; Sessions.lg_name_id := "n1";
     Sessions.lg_name_id_format := None; Sessions.lg_auth_time := None; Sessions.lg_acr := None;
     Sessions.lg_amr := ["pwd"]; Sessions.lg_session_index := None; Sessions.lg_attributes := [];
     Sessions.lg_person_uuid := Some demo_person; Sessions.lg_impersonated_by := None |}.

Abbreviation demo_create :=
  (Sessions.create Sessions.demo_digest Sessions.IDLE_TIMEOUT Sessions.ABSOLUTE_TIMEOUT
     Sessions.SESSION_KEY_PREFIX "s1" demo_login 0 0).

(** One session of the person, with one token family. *)
Definition demo_store : Store :=
  (r_exec (run demo_create (∅ : Store) 0).1 0 (SADD "oidc:session-families:s1" "f1")).1.

Definition demo_db : Lifecycle.db :=
  Lifecycle.apply {| Lifecycle.grant_rows := []; Lifecycle.events := [] |} demo_person
    (Lifecycle.transition Lifecycle.demo_rules ∅ {["student"]} 0) ∅ {["student"]} Lifecycle.SOURCE_SCIM 0.

Definition demo_world : world (R := Store) (T := list (string * string)) (X := string) :=
  {| w_clock := 10; w_redis := demo_store; w_db := demo_db; w_down := []; w_dead := [];
     w_audit := []; w_recorded := []; w_timings := []; w_serial := 0 |}.

Lemma demo_leaver_history :
  Sessions.history (R := Store) Sessions.demo_digest Sessions.IDLE_TIMEOUT Sessions.ABSOLUTE_TIMEOUT
    [(demo_login, 0%Z)] demo_store 0.
Proof.
  eapply Sessions.history_other; [|reflexivity|reflexivity].
  apply Sessions.history_create with (t := 0%Z); [|done|done]. apply Sessions.history_start.
  intros rest. simpl. by rewrite lookup_empty.
Qed.

Lemma demo_families sid s d :
  r_view demo_store 10 (Grants.SESSION_FAMILY_PREFIX +:+ sid) <> Some (Entry (VScalar s) d).
Proof.
  intros E. rewrite (r_view_age demo_store 0) in E by done. apply age_Some in E as [E _].
  destruct (decide (sid = "s1")) as [->|Hne]; [vm_compute in E; done|].
  unfold demo_store in E. rewrite r_exec_frame in E; [|done|].
  2: { change (cmd_key _) with (Grants.SESSION_FAMILY_PREFIX +:+ "s1"). intros E2. by apply Py.app_inv_l in E2. }
  rewrite (run_frame (fun k => Py.startswith k Sessions.SESSION_KEY_PREFIX = true)) in E; [|..|done|done].
  - simpl in E. by rewrite lookup_empty in E.
  - apply touches_bind; [|done]. repeat (split; [done|intros []; try done]).
Qed.

Lemma leaver_cannot_reach_anything_witness :
  exists w' delta,
    deprovision demo_env (demo_orchestrator None (fun _ => true)) demo_person {["student"]} "scim" (Some 40%Z)
      demo_world = (w', Ok delta) /\
    handled (fun n l d => (n, l) ∈ d) demo_person "sam@campus.test" "printers" w'.
Proof.
  assert (Uuid.parse demo_person = Some demo_person) as Hu by (vm_compute; reflexivity).
  assert (_login_for (demo_orchestrator None (fun _ => true)) demo_person = Some "sam@campus.test") as Hl
    by (vm_compute; reflexivity).
  assert (demo_printers ∈ _targets (demo_orchestrator None (fun _ => true))) as Hprinters
    by (apply list_elem_of_further, list_elem_of_here).
  destruct (leaver_cannot_reach_anything demo_env (demo_orchestrator None (fun _ => true))
    (fun n l d => (n, l) ∈ d)
    ltac:(intros tg login d d' Hin E; set_unfold in Hin; destruct Hin as [->|[->|[]]]; [|done];
          injection E as <-; set_solver)
    ltac:(intros tg login d n l Hin E; set_unfold in Hin; destruct Hin as [->|[->|[]]]; [simpl; set_solver|done])
    eq_refl ltac:(done) ltac:(intros; simpl; lia)
    Sessions.IDLE_TIMEOUT Sessions.ABSOLUTE_TIMEOUT Sessions.demo_timeouts
    [(demo_login, 0%Z)] 0 demo_person "scim" {["student"]} (Some 40%Z) demo_world
    demo_leaver_history ltac:(done) Hu Lifecycle.demo_grace demo_families) as (w' & delta & E & _ & _ & _ & W).
  exists w', delta. split; [exact E|].
  exact (W "sam@campus.test" demo_printers Hl Hprinters).
Defined.

Lemma recorded_before_provisioned_witness :
  w_db (transitioned demo_env (demo_orchestrator None (fun _ => true)) demo_person ∅ {["student"]} "scim"
    (Some 40%Z) demo_world).1 =
  Lifecycle.apply demo_db demo_person
    (Lifecycle.transition Lifecycle.demo_rules ∅ {["student"]} 40) ∅ {["student"]} "scim" 10.
Proof.
  assert (Uuid.parse demo_person = Some demo_person) as Hu by (vm_compute; reflexivity).
  exact (recorded_before_provisioned demo_env (demo_orchestrator None (fun _ => true)) demo_person demo_person
    "scim" ∅ {["student"]} (Some 40%Z) demo_world Hu).
Defined.

Lemma refused_disable_keeps_sessions_witness :
  w_redis (deprovision demo_env (demo_orchestrator (Some "refused") (String.eqb "unavailable")) demo_person
    {["student"]} "scim" (Some 40%Z) demo_world).1 = demo_store.
Proof.
  destruct (refused_disable_keeps_sessions demo_env
    (demo_orchestrator (Some "refused") (String.eqb "unavailable")) (demo_ldap (Some "refused")) [demo_printers]
    demo_person "sam@campus.test" "scim" {["student"]} (Some 40%Z) demo_world [] "refused"
    eq_refl eq_refl eq_refl eq_refl) as (_ & W & _).
  exact W.
Defined.
End witnesses.

End Orchestrator.
