(* ===== verification/Reconciliation.v ===== *)
(** * Reconciliation and the grace sweep

    [campusid/lifecycle/reconciliation.py]: comparing the registry with the
    directory and closing the one kind of drift the job may close;
    [campusid/lifecycle/sweeper.py]: one pass of the sweep that ends grace
    periods.  The directory is a parameter: an unreachable one answers with an
    error. *)

From S2P Require Import Prelude PyStr Errors Redis Lifecycle DecisionCache.

Module Reconciliation.

Inductive DriftKind : Type := SHOULD_BE_DISABLED | MISSING_DOWNSTREAM | ORPHANED | UNREACHABLE.

#[global] Instance DriftKind_eq_dec : EqDecision DriftKind.
Proof. solve_decision. Defined.

Record Drift : Type := {
  kind : DriftKind;
  person_uuid : option string;
  login : option string;
  detail : string;
}.

Definition remediable (d : Drift) : bool := bool_decide (kind d = SHOULD_BE_DISABLED).

Record Report : Type := {
  drifts : list Drift;
  remediated : list Drift;
  failed : list Drift;
  applied : bool;
  scanned : nat;
}.

Definition of_kind (r : Report) (k : DriftKind) : list Drift :=
  List.filter (fun d => bool_decide (kind d = k)) (drifts r).
Definition clean (r : Report) : bool := match drifts r with [] => true | _ => false end.

Definition STATUS_ACTIVE := "active".
Definition ID_EPPN := "eppn".

(** [classify]; an entry is a directory entry's [disabled] flag. *)
Definition classify (person login status : string) (entry : option bool) : option Drift :=
  let active := String.eqb status STATUS_ACTIVE in
  match entry with
  | None =>
      if negb active then None
      else Some {| kind := MISSING_DOWNSTREAM; person_uuid := Some person; login := Some login;
                   detail := "active here, no directory account" |}
  | Some disabled =>
      if negb active && negb disabled then
        Some {| kind := SHOULD_BE_DISABLED; person_uuid := Some person; login := Some login;
                detail := "status " +:+ status +:+ " here, enabled in the directory" |}
      else None
  end.

(** Rows of the person and identifier tables. *)
Record Person : Type := { p_uuid : string; p_status : string }.
Record Identifier : Type := {
  i_person : string;
  i_type : string;
  i_value : string;
  i_released_at : option moment;
}.

Definition released (row : Identifier) : bool :=
  match i_released_at row with Some _ => true | None => false end.

(** The loop of [_logins], over the rows its query selects. *)
Definition better (best : gmap string Identifier) (row : Identifier) : gmap string Identifier :=
  match best !! i_person row with
  | None => <[i_person row := row]> best
  | Some current =>
      if released current && negb (released row) then <[i_person row := row]> best else best
  end.

Definition _logins (rows : list Identifier) (people : list string) : gmap string string :=
  match people with
  | [] => ∅
  | _ =>
      i_value <$> foldl better ∅
        (List.filter (fun row => bool_decide (i_person row ∈ people) && String.eqb (i_type row) ID_EPPN) rows)
  end.

Section reconciler.
(** The state of the directory and what it raises. *)
Context {D X : Type}.
(** [client.find_user]: the entry's [disabled] flag, if there is an entry. *)
Context (find_user : D -> string -> result X (option bool)).
(** [isinstance(exc, DirectoryUnavailable)], and [str(exc)]. *)
Context (unavailable : X -> bool) (message : X -> string).
(** [target.disable]. *)
Context (disable : string -> D -> D * result X unit).

Inductive failure : Type := Raised (e : X) | AssertionError.

Definition _compare_one (dir : D) (p : Person) (name : string) : result failure (option Drift) :=
  match find_user dir name with
  | Ok entry => Ok (classify (p_uuid p) name (p_status p) entry)
  | Err e =>
      if unavailable e then
        Ok (Some {| kind := UNREACHABLE; person_uuid := Some (p_uuid p); login := Some name;
                    detail := message e |})
      else Err (Raised e)
  end.

Fixpoint scan_loop (dir : D) (logins : gmap string string) (people : list Person)
    (found : list Drift) (n : nat) : result failure (list Drift * nat) :=
  match people with
  | [] => Ok (found, n)
  | p :: rest =>
      match logins !! p_uuid p with
      | None => scan_loop dir logins rest found (S n)
      | Some name =>
          let* drift := _compare_one dir p name in
          scan_loop dir logins rest (found ++ option_list drift) (S n)
      end
  end.

(** [_scan], over the people in order of creation. *)
Definition _scan (dir : D) (people : list Person) (rows : list Identifier) (limit : nat)
  : result failure (list Drift * nat) :=
  let people := take limit people in
  scan_loop dir (_logins rows (p_uuid <$> people)) people [] 0.

Definition compare (dir : D) (people : list Person) (rows : list Identifier) (limit : nat)
  : result failure Report :=
  let* out := _scan dir people rows limit in
  Ok {| drifts := out.1; remediated := []; failed := []; applied := false; scanned := out.2 |}.

(** [_remediate]; every exception of the write is a failed remediation. *)
Definition _remediate (dir : D) (d : Drift) : D * result failure bool :=
  match login d with
  | Some name => let '(dir', r) := disable name dir in (dir', Ok (is_ok r))
  | None => (dir, Err AssertionError)
  end.

Fixpoint remediate_loop (dir : D) (l : list Drift) (ok bad : list Drift)
  : D * result failure (list Drift * list Drift) :=
  match l with
  | [] => (dir, Ok (ok, bad))
  | d :: rest =>
      if negb (remediable d) then remediate_loop dir rest ok bad
      else match _remediate dir d with
           | (dir', Ok true) => remediate_loop dir' rest (ok ++ [d]) bad
           | (dir', Ok false) => remediate_loop dir' rest ok (bad ++ [d])
           | (dir', Err e) => (dir', Err e)
           end
  end.

Definition remediate (dir : D) (r : Report) : D * result failure Report :=
  let '(dir', out) := remediate_loop dir (drifts r) [] [] in
  (dir', let* sorted := out in
         Ok {| drifts := drifts r; remediated := sorted.1; failed := sorted.2; applied := true;
               scanned := scanned r |}).

Definition reconcile (dir : D) (people : list Person) (rows : list Identifier) (apply : bool) (limit : nat)
  : D * result failure Report :=
  match compare dir people rows limit with
  | Err e => (dir, Err e)
  | Ok report => if negb apply then (dir, Ok report) else remediate dir report
  end.

(** ** Properties *)

(** What the report should say about one person. *)
Definition verdict (dir : D) (logins : gmap string string) (p : Person) : option Drift :=
  name ← logins !! p_uuid p;
  match find_user dir name with
  | Ok entry => classify (p_uuid p) name (p_status p) entry
  | Err e => Some {| kind := UNREACHABLE; person_uuid := Some (p_uuid p); login := Some name; detail := message e |}
  end.

Context (only_unavailable : forall dir name e, find_user dir name = Err e -> unavailable e = true).

Lemma scan_loop_verdicts dir logins people found n :
  scan_loop dir logins people found n =
    Ok (found ++ omap (verdict dir logins) people, (n + length people)%nat).
Proof.
  revert found n. induction people as [|p people IH]; intros found n; simpl.
  { by rewrite app_nil_r, Nat.add_0_r. }
  unfold verdict at 1. destruct (logins !! p_uuid p) as [name|]; simpl.
  - unfold _compare_one. destruct (find_user dir name) as [entry|e] eqn:Ef; simpl.
    + rewrite IH. destruct (classify _ _ _ _); simpl; rewrite <- ?app_assoc, ?app_nil_r;
        (do 2 f_equal; [done|lia]) || (f_equal; f_equal; lia).
    + rewrite (only_unavailable _ _ _ Ef). simpl. rewrite IH, <- app_assoc. simpl. f_equal. f_equal. lia.
  - rewrite IH. f_equal. f_equal. lia.
Qed.

(** The loop touches what it may remediate, in order, and sorts it by how the
    write ended. *)
Lemma remediate_loop_spec l dir ok bad :
  Forall (fun d => login d <> None) l ->
  exists ok' bad', (remediate_loop dir l ok bad).2 = Ok (ok ++ ok', bad ++ bad') /\
    ok' ++ bad' ≡ₚ List.filter remediable l.
Proof.
  intros Hl. revert dir ok bad. induction Hl as [|d l Hd Hl IH]; intros dir ok bad; simpl.
  { exists [], []. by rewrite !app_nil_r. }
  destruct (remediable d); simpl; [|apply IH]. unfold _remediate. destruct (login d) as [name|]; [|done].
  destruct (disable name dir) as [dir' r]. destruct (is_ok r).
  - destruct (IH dir' (ok ++ [d]) bad) as (ok' & bad' & E & Hp). exists (d :: ok'), bad'.
    rewrite E, <- app_assoc. split; [done|]. simpl. by rewrite Hp.
  - destruct (IH dir' ok (bad ++ [d])) as (ok' & bad' & E & Hp). exists ok', (d :: bad').
    rewrite E, <- app_assoc. split; [done|]. by rewrite <- Permutation_middle, Hp.
Qed.

Lemma classify_kind p name status entry d :
  classify p name status entry = Some d -> kind d <> ORPHANED /\ login d = Some name /\
  (kind d = SHOULD_BE_DISABLED <-> status <> STATUS_ACTIVE /\ entry = Some false) /\
  (kind d = MISSING_DOWNSTREAM <-> status = STATUS_ACTIVE /\ entry = None).
Proof.
  unfold classify. destruct (String.eqb status STATUS_ACTIVE) eqn:Es, entry as [[]|]; simpl; try done;
    intros [= <-]; simpl; bool_prop; naive_solver.
Qed.

(** A reconciliation reports every disagreement and changes only what it may.
    While the directory fails only by being unreachable, the run completes; it
    reports, for each person scanned who has a login, exactly the verdict on
    that person, a dry run leaves the directory alone, an applied run writes for
    the enabled accounts of people who left and accounts for each as remediated
    or failed, and no run ever reports an orphan. *)
Theorem reconciliation_report (dir : D) (people : list Person) (rows : list Identifier)
    (apply : bool) (limit : nat) :
  let logins := _logins rows (p_uuid <$> take limit people) in
  let out := reconcile dir people rows apply limit in
  exists r, out.2 = Ok r /\ drifts r = omap (verdict dir logins) (take limit people) /\
    scanned r = length (take limit people) /\ applied r = apply /\
    (apply = false -> out.1 = dir /\ remediated r = [] /\ failed r = []) /\
    (apply = true -> remediated r ++ failed r ≡ₚ of_kind r SHOULD_BE_DISABLED) /\
    of_kind r ORPHANED = [].
Proof.
  cbv zeta. unfold reconcile, compare, _scan. rewrite scan_loop_verdicts. simpl.
  set (ds := omap _ _).
  assert (Forall (fun d => kind d <> ORPHANED /\ login d <> None) ds) as Hds.
  { apply list.Forall_forall. intros d (p & _ & Hv)%list_elem_of_omap.
    unfold verdict in Hv. destruct (_ !! _) as [name|]; simpl in Hv; [|done].
    destruct (find_user dir name); [apply classify_kind in Hv as (? & -> & _)|injection Hv as <-]; done. }
  assert (forall r, drifts r = ds -> of_kind r ORPHANED = []) as Horph.
  { intros r Hr. unfold of_kind. rewrite Hr. clear -Hds. induction Hds as [|d l [Hk _] _ IH]; simpl; [done|].
    by rewrite bool_decide_false. }
  destruct apply; simpl.
  - unfold remediate. simpl. destruct (remediate_loop_spec ds dir [] []) as (ok & bad & E & Hp).
    { eapply list.Forall_impl; [exact Hds|]. by intros d [_ ?]. }
    destruct (remediate_loop dir ds [] []) as [dir' out]. simpl in *. subst out. simpl.
    eexists. split; [reflexivity|]. simpl. split_and!; [done..|intros _; exact Hp|by apply Horph].
  - eexists. split; [reflexivity|]. simpl. split_and!; [done..|by apply Horph].
Qed.

End reconciler.

(** ** The sweep *)

Section sweeper.
Context {R : Type} `{RedisServer R}.

Fixpoint invalidate_each (people : list string) : prog unit :=
  match people with
  | [] => Ret tt
  | p :: rest => do* DecisionCache.invalidate p; invalidate_each rest
  end.

(** [sweep_once], with or without a decision cache. *)
Definition sweep_once (has_decisions : bool) (locked : Lifecycle.EntitlementGrant -> bool)
    (s : Lifecycle.db) (r : R) (today : Z) (now : moment) : Lifecycle.db * R * nat :=
  let '(s', people) := Lifecycle.expire_due locked s today now in
  (s', if has_decisions then (run (invalidate_each people) r now).1 else r, length people).
End sweeper.

Section swept.
Context {R : Type} `{RedisLaws R}.

Lemma invalidate_each_vrun people (v : kview) t :
  (forall p, DecisionCache.counter_ok v p) ->
  (forall p, (DecisionCache.epoch_in v p + Z.of_nat (length people) < INT64_MAX)%Z) ->
  let out := vrun r_round (invalidate_each people) v t in
  (forall p, (DecisionCache.epoch_in v p <= DecisionCache.epoch_in out.1 p)%Z) /\
  (forall p, p ∈ people -> (DecisionCache.epoch_in v p < DecisionCache.epoch_in out.1 p)%Z).
Proof.
  cbv zeta. revert v. induction people as [|q people IH]; intros v Hc Hm; cbn [invalidate_each].
  { split; [done|set_solver]. }
  rewrite vrun_bind. cbn [length] in Hm.
  assert (forall p, (DecisionCache.epoch_in v p < INT64_MAX)%Z) as Hmax by (intros p; specialize (Hm p); lia).
  destruct (DecisionCache.invalidate_vrun v t q (Hc q) (Hmax q)) as (E & Hup & Hcq & Hkeep).
  destruct (vrun r_round (DecisionCache.invalidate q) v t) as [v1 o1]. cbn [fst snd] in *. subst o1.
  assert (forall p, p <> q -> v1 (DecisionCache.EPOCH_PREFIX +:+ p) = v (DecisionCache.EPOCH_PREFIX +:+ p)) as Hoth.
  { intros p Hp. apply Hkeep. intros E. by apply Py.app_inv_l in E. }
  assert (forall p, p <> q -> DecisionCache.epoch_in v1 p = DecisionCache.epoch_in v p) as Hep.
  { intros p Hp. unfold DecisionCache.epoch_in. by rewrite Hoth. }
  destruct (IH v1) as [Hle Hlt].
  - intros p. destruct (decide (p = q)) as [->|Hp]; [done|]. unfold DecisionCache.counter_ok. rewrite Hoth by done. apply Hc.
  - intros p. specialize (Hm p). destruct (decide (p = q)) as [->|Hp]; [|rewrite Hep by done]; lia.
  - split.
    + intros p. specialize (Hle p). destruct (decide (p = q)) as [->|Hp]; [|rewrite Hep in Hle by done]; lia.
    + intros p Hin. specialize (Hle p). destruct (decide (p = q)) as [->|Hp]; [lia|].
      specialize (Hlt p ltac:(set_solver)). rewrite Hep in Hlt by done. lia.
Qed.

(** A grace period that ends takes the cached decisions with it.  Every
    person the sweep acted on has a new decision epoch afterwards, so none of
    the decisions cached about them before the sweep answers again. *)
Theorem sweep_unmakes_decisions (locked : Lifecycle.EntitlementGrant -> bool) (s : Lifecycle.db) (r : R)
    (today : Z) (now : moment) (p : string) :
  let people := (Lifecycle.expire_due locked s today now).2 in
  (forall q, DecisionCache.counter_ok (r_view r now) q) ->
  (forall q, (DecisionCache.epoch_in (r_view r now) q + Z.of_nat (length people) < INT64_MAX)%Z) ->
  p ∈ people ->
  let r' := (sweep_once true locked s r today now).1.2 in
  (DecisionCache.epoch_in (r_view r now) p < DecisionCache.epoch_in (r_view r' now) p)%Z.
Proof.
  cbv zeta. intros Hc Hm Hp. unfold sweep_once. destruct (Lifecycle.expire_due _ _ _ _) as [s' people]. simpl in *.
  destruct (invalidate_each_vrun people (r_view r now) now Hc Hm) as [_ Hlt].
  specialize (Hlt p Hp). unfold DecisionCache.epoch_in in *. by rewrite (proj2 (run_vrun _ r _ now (fun k => eq_refl))).
Qed.
End swept.

(** ** Witnesses *)

Definition demo_find (dir : gmap string bool) (name : string) : result string (option bool) :=
  if String.eqb name "lee@campus.test" then Err "timeout" else Ok (dir !! name).

Lemma reconciliation_report_witness :
  exists r,
    (reconcile demo_find (fun _ => true) (fun e => e) (fun name dir => (<[name := true]> dir, Ok tt))
       {["sam@campus.test" := false]}
       [{| p_uuid := "p1"; p_status := "deactivated" |}]
       [{| i_person := "p1"; i_type := "eppn"; i_value := "sam@campus.test"; i_released_at := Some 3%Z |}]
       true 10).2 = Ok r /\
    remediated r ++ failed r ≡ₚ of_kind r SHOULD_BE_DISABLED.
Proof.
  destruct (reconciliation_report demo_find (fun _ => true) (fun e => e)
    (fun name dir => (<[name := true]> dir, Ok tt)) ltac:(done)
    {["sam@campus.test" := false]} [{| p_uuid := "p1"; p_status := "deactivated" |}]
    [{| i_person := "p1"; i_type := "eppn"; i_value := "sam@campus.test"; i_released_at := Some 3%Z |}] true 10)
    as (r & E & _ & _ & _ & _ & W & _).
  exists r. exact (conj E (W eq_refl)).
Defined.

Definition demo_due : Lifecycle.db :=
  Lifecycle.apply Lifecycle.demo_joined "sam" (Lifecycle.transition Lifecycle.demo_rules {["student"]} ∅ 1)
    {["student"]} ∅ Lifecycle.SOURCE_SCIM 0.

Lemma sweep_unmakes_decisions_witness :
  (0 < DecisionCache.epoch_in
         (r_view (R := Store) (sweep_once true (fun _ => false) demo_due (∅ : Store) 100 7).1.2 7) "sam")%Z.
Proof.
  assert ("sam" ∈ (Lifecycle.expire_due (fun _ => false) demo_due 100 7).2) as Hin
    by (vm_compute; apply list_elem_of_here).
  assert (Z.of_nat (length (Lifecycle.expire_due (fun _ => false) demo_due 100 7).2) = 1%Z) as Hlen
    by (vm_compute; reflexivity).
  refine (sweep_unmakes_decisions (R := Store) (fun _ => false) demo_due ∅ 100 7 "sam" _ _ Hin).
  - intros q. left. simpl. by rewrite lookup_empty.
  - intros q. rewrite Hlen. unfold DecisionCache.epoch_in. simpl. by rewrite lookup_empty.
Defined.

End Reconciliation.
