(* ===== verification/LdapText.v ===== *)
(** * Values in LDAP filters and names

    [campusid/directory/escaping.py], and the grammars its output is read with:
    search filters of RFC 4515 (equality, presence, conjunction, disjunction) and the first
    component of a distinguished name of RFC 4514.  The readers are references:
    the server has its own.  The other kinds of filter are refused by ours. *)

From S2P Require Import Prelude PyStr JsonText.

Module LdapText.

Definition NUL : ascii := ascii_of_nat 0.
Definition backslash : ascii := ascii_of_nat 92.
Abbreviation one c := (String c EmptyString).

Definition FILTER_ESCAPES : list (ascii * string) :=
  [(backslash, one backslash +:+ "5c"); ("*"%char, one backslash +:+ "2a"); ("("%char, one backslash +:+ "28");
   (")"%char, one backslash +:+ "29"); (NUL, one backslash +:+ "00")].

Definition DN_ESCAPES : list (ascii * string) :=
  (fun c => (c, one backslash +:+ one c)) <$> [backslash; ","; "+"; JsonText.dquote; "<"; ">"; ";"; "="]%char.

(** The table applied one entry after the other, the backslash first. *)
Definition apply_table (table : list (ascii * string)) (first : string) (value : string) : string :=
  fold_left (fun escaped kv => if Ascii.eqb kv.1 backslash then escaped else Py.replace escaped (one kv.1) kv.2) table
    (Py.replace value (one backslash) first).

Definition escape_filter (value : string) : string := apply_table FILTER_ESCAPES (one backslash +:+ "5c") value.

Definition escape_dn (value : string) : string :=
  let escaped := apply_table DN_ESCAPES (one backslash +:+ one backslash) value in
  let escaped := if Py.startswith escaped "#" then one backslash +:+ escaped else escaped in
  let escaped := if Py.startswith escaped " " then one backslash +:+ escaped else escaped in
  if Py.endswith escaped " " && negb (Py.endswith escaped (one backslash +:+ " "))
  then Py.take (String.length escaped - 1) escaped +:+ one backslash +:+ " " else escaped.

Definition equality (attribute value : string) : string := "(" +:+ attribute +:+ "=" +:+ escape_filter value +:+ ")".

(** [ValueError] where there is nothing to combine. *)
Definition any_of (attributes : list string) (value : string) : option string :=
  match attributes with
  | [] => None
  | [attribute] => Some (equality attribute value)
  | _ => Some ("(|" +:+ Py.join "" ((fun attribute => equality attribute value) <$> attributes) +:+ ")")
  end.

Definition all_of (clauses : list string) : option string :=
  match List.filter (fun clause => negb (String.eqb clause "")) clauses with
  | [] => None
  | [clause] => Some clause
  | present => Some ("(&" +:+ Py.join "" present +:+ ")")
  end.

(** ** Reading a filter *)

Inductive assertion : Type :=
| Present (attribute : string)
| Equal (attribute value : string)
| All (l : list assertion)
| Any (l : list assertion).

(** An assertion value up to its closing parenthesis, and what follows it. *)
Fixpoint read_value (s : string) : option (string * string) :=
  match s with
  | EmptyString => None
  | String c r =>
      if Ascii.eqb c ")" then Some (EmptyString, r)
      else if Ascii.eqb c backslash then
        match r with
        | String h (String l r') =>
            match Hex.value (Py.lower_ascii h), Hex.value (Py.lower_ascii l) with
            | Some a, Some b => '(v, rest) ← read_value r'; Some (String (ascii_of_nat (16 * a + b)) v, rest)
            | _, _ => None
            end
        | _ => None
        end
      else if Ascii.eqb c "(" || Ascii.eqb c "*" || Ascii.eqb c NUL then None
      else '(v, rest) ← read_value r; Some (String c v, rest)
  end.

Definition attribute_char (c : ascii) : bool :=
  JsonText.is_digit c || Ascii.eqb c "-" || Ascii.eqb c "." || Ascii.eqb c ";" ||
  (let n := nat_of_ascii (Py.lower_ascii c) in (97 <=? n)%nat && (n <=? 122)%nat).
Definition attribute_name (s : string) : bool := negb (String.eqb s "") && Py.sforall attribute_char s.

Fixpoint many (p : string -> option (assertion * string)) (fuel : nat) (s : string) : option (list assertion * string) :=
  match fuel with
  | O => None
  | S fuel' =>
      match s with
      | String c r =>
          if Ascii.eqb c ")" then Some ([], r)
          else '(f, rest) ← p s; '(l, rest') ← many p fuel' rest; Some (f :: l, rest')
      | EmptyString => None
      end
  end.

(** [attribute=*]. *)
Definition star (s : string) : option string :=
  match s with
  | String c (String d rest) => if Ascii.eqb c "*" && Ascii.eqb d ")" then Some rest else None
  | _ => None
  end.

(** One filter; [fuel] bounds how deep it nests. *)
Fixpoint read (fuel : nat) (s : string) : option (assertion * string) :=
  match fuel, s with
  | S fuel', String c r =>
      if negb (Ascii.eqb c "(") then None
      else match r with
      | String d r' =>
          if Ascii.eqb d "&" then '(l, rest) ← many (read fuel') (S (String.length r')) r'; Some (All l, rest)
          else if Ascii.eqb d "|" then '(l, rest) ← many (read fuel') (S (String.length r')) r'; Some (Any l, rest)
          else match Py.partition "=" r with
          | (attribute, Some r'') =>
              if negb (attribute_name attribute) then None
              else match star r'' with
              | Some rest => Some (Present attribute, rest)
              | None => '(v, rest) ← read_value r''; Some (Equal attribute v, rest)
              end
          | _ => None
          end
      | EmptyString => None
      end
  | _, _ => None
  end.

(** The whole text is one filter. *)
Definition parse (s : string) : option assertion :=
  match read (String.length s) s with Some (f, EmptyString) => Some f | _ => None end.

(** ** Escaping, character by character *)

Lemma replace_one c new a s : Py.replace (String a s) (one c) new = (if Ascii.eqb a c then new else one a) +:+ Py.replace s (one c) new.
Proof.
  unfold Py.replace. cbn [Py.replace_go]. replace (Py.startswith (String a s) (one c)) with (Ascii.eqb a c).
  - destruct (Ascii.eqb a c); [reflexivity|]. by rewrite Py.app_String.
  - cbn [Py.startswith]. rewrite Ascii.eqb_sym. destruct (Ascii.eqb c a); [|done]. by destruct s.
Qed.

Lemma replace_app c new s t : Py.replace (s +:+ t) (one c) new = Py.replace s (one c) new +:+ Py.replace t (one c) new.
Proof.
  induction s as [|a s IH]; [done|]. rewrite Py.app_String, !replace_one, IH. by rewrite Py.app_assoc.
Qed.

Lemma apply_table_app table first s t : apply_table table first (s +:+ t) = apply_table table first s +:+ apply_table table first t.
Proof.
  unfold apply_table. rewrite replace_app. generalize (Py.replace s (one backslash) first) as s', (Py.replace t (one backslash) first) as t'.
  induction table as [|[c r] table IH]; intros s' t'; [done|]. cbn [fold_left fst snd]. destruct (Ascii.eqb c backslash); [apply IH|].
  rewrite replace_app. apply IH.
Qed.

Lemma escape_filter_cons c v : escape_filter (String c v) = escape_filter (one c) +:+ escape_filter v.
Proof. exact (apply_table_app _ _ (one c) v). Qed.

(** An escaped value is read back as it was, up to the parenthesis after it. *)
Lemma read_escaped v rest : read_value (escape_filter v +:+ ")" +:+ rest) = Some (v, rest).
Proof.
  induction v as [|c v IH]; [reflexivity|]. rewrite escape_filter_cons, Py.app_assoc.
  set (tail := escape_filter v +:+ ")" +:+ rest) in *. clearbody tail.
  assert (read_value (escape_filter (one c) +:+ tail) = '(v, rest) ← read_value tail; Some (String c v, rest)) as ->.
  { destruct c as [[] [] [] [] [] [] [] []]; reflexivity. }
  by rewrite IH.
Qed.

Lemma star_escaped v rest : star (escape_filter v +:+ ")" +:+ rest) = None.
Proof.
  destruct v as [|c v]; [by destruct rest|]. rewrite escape_filter_cons, Py.app_assoc. generalize (escape_filter v +:+ ")" +:+ rest) as t. intros t.
  destruct t; destruct c as [[] [] [] [] [] [] [] []]; reflexivity.
Qed.

(** ** Writing a filter *)

Fixpoint render (f : assertion) : string :=
  match f with
  | Present attribute => "(" +:+ attribute +:+ "=*)"
  | Equal attribute value => equality attribute value
  | All l => "(&" +:+ Py.join "" (map render l) +:+ ")"
  | Any l => "(|" +:+ Py.join "" (map render l) +:+ ")"
  end.

Fixpoint depth (f : assertion) : nat :=
  match f with
  | Present _ | Equal _ _ => 1
  | All l | Any l => S (foldr Nat.max 0 (map depth l))
  end.

Fixpoint well_named (f : assertion) : bool :=
  match f with
  | Present attribute | Equal attribute _ => attribute_name attribute
  | All l | Any l => forallb well_named l
  end.

Lemma assertion_all_ind (P : assertion -> Prop) :
  (forall a, P (Present a)) -> (forall a v, P (Equal a v)) -> (forall l, Forall P l -> P (All l)) -> (forall l, Forall P l -> P (Any l)) -> forall f, P f.
Proof.
  intros Hr He Ha Ho. fix IH 1. intros [a|a v|l|l]; [apply Hr|apply He|apply Ha|apply Ho]; induction l as [|f l IHl]; constructor; [apply IH|exact IHl|apply IH|exact IHl].
Qed.

Lemma render_opens f : exists r, render f = String "(" r.
Proof. destruct f; by eexists. Qed.

Lemma join_render f l : Py.join "" (map render (f :: l)) = render f +:+ Py.join "" (map render l).
Proof. destruct l; [by rewrite Py.app_nil_r|done]. Qed.

Lemma many_render p l fuel rest :
  (forall f rest, f ∈ l -> p (render f +:+ rest) = Some (f, rest)) -> (length l < fuel)%nat ->
  many p fuel (Py.join "" (map render l) +:+ ")" +:+ rest) = Some (l, rest).
Proof.
  revert fuel. induction l as [|f l IH]; intros fuel Hp Hf; (destruct fuel as [|fuel]; [cbn in Hf; lia|]); [reflexivity|].
  rewrite join_render, Py.app_assoc. set (tail := Py.join "" (map render l) +:+ ")" +:+ rest).
  destruct (render_opens f) as [r Er]. pose proof (Hp f tail ltac:(constructor)) as Hpf. rewrite Er in Hpf |- *. rewrite Py.app_String in Hpf |- *. cbn [many].
  change (Ascii.eqb "(" ")") with false. cbv iota. rewrite Hpf. cbn [mbind option_bind]. subst tail.
  rewrite (IH fuel); [done| |cbn in Hf; lia]. intros g rest' Hg. apply Hp. by constructor.
Qed.

Lemma join_length l : (length l <= String.length (Py.join "" (map render l)))%nat.
Proof.
  induction l as [|f l IH]; [done|]. rewrite join_render, Py.length_app. destruct (render_opens f) as [r ->]. cbn. lia.
Qed.

Lemma attribute_name_spec a : attribute_name a = true ->
  exists c s, a = String c s /\ Ascii.eqb c "&" = false /\ Ascii.eqb c "|" = false /\ Py.has_char "=" a = false.
Proof.
  unfold attribute_name. destruct a as [|c s]; [done|]. cbn [String.eqb negb andb]. intros H. exists c, s. split; [done|].
  assert (forall d, attribute_char d = true -> Ascii.eqb d "&" = false /\ Ascii.eqb d "|" = false /\ Ascii.eqb d "=" = false) as Hd.
  { intros [[] [] [] [] [] [] [] []]; vm_compute; intuition discriminate. }
  pose proof H as H'. cbn [Py.sforall] in H'. apply andb_true_iff in H' as [Hc _]. destruct (Hd c Hc) as (H1 & H2 & _). split_and!; [done..|].
  revert H. generalize (String c s). clear -Hd. induction s as [|d s IH]; [done|]. cbn [Py.sforall]. intros [H1 H2]%andb_true_iff.
  unfold Py.has_char in *. cbn [Py.sforall]. destruct (Hd d H1) as (_ & _ & ->). cbn. by apply IH.
Qed.

Lemma member_depth f l : f ∈ l -> (depth f <= foldr Nat.max 0 (map depth l))%nat.
Proof. induction 1 as [|f g l _ IH]; cbn; lia. Qed.

Lemma read_render f : well_named f = true -> forall fuel rest, (depth f <= fuel)%nat -> read fuel (render f +:+ rest) = Some (f, rest).
Proof.
  assert (forall l fuel rest, Forall (fun f => well_named f = true -> forall fuel rest, (depth f <= fuel)%nat -> read fuel (render f +:+ rest) = Some (f, rest)) l ->
    forallb well_named l = true -> (foldr Nat.max 0 (map depth l) <= fuel)%nat ->
    let s := Py.join "" (map render l) +:+ ")" +:+ rest in many (read fuel) (S (String.length s)) s = Some (l, rest)) as Hl.
  { intros l fuel rest IH Hw Hd s. apply many_render.
    - clear f. intros f rest' Hf. rewrite List.Forall_forall in IH. rewrite forallb_forall in Hw. apply list_elem_of_In in Hf as Hin.
      apply IH; [done|by apply Hw|]. pose proof (member_depth _ _ Hf). lia.
    - subst s. rewrite Py.length_app. pose proof (join_length l). lia. }
  induction f as [a|a v|l IH|l IH] using assertion_all_ind; intros Hw fuel rest Hd; (destruct fuel as [|fuel]; [cbn in Hd; lia|]).
  - cbn [well_named] in Hw. destruct (attribute_name_spec a Hw) as (c & s & -> & H1 & H2 & H3). cbn [render].
    rewrite !Py.app_assoc, Py.app_String. cbn [read]. change (negb (Ascii.eqb "(" "(")) with false. cbv iota. rewrite Py.app_nil_l.
    rewrite Py.app_String at 1. cbv iota beta. rewrite H1, H2.
    change ("=*)" +:+ rest) with (String "=" (String "*" (String ")" rest))). by rewrite (Py.partition_app "=" (String c s) _ H3), Hw.
  - cbn [well_named] in Hw. destruct (attribute_name_spec a Hw) as (c & s & -> & H1 & H2 & H3). cbn [render]. unfold equality.
    rewrite !Py.app_assoc, Py.app_String. cbn [read]. change (negb (Ascii.eqb "(" "(")) with false. cbv iota. rewrite Py.app_nil_l.
    rewrite Py.app_String at 1. cbv iota beta. rewrite H1, H2.
    change ("=" +:+ escape_filter v +:+ ")" +:+ rest) with (String "=" (escape_filter v +:+ ")" +:+ rest)).
    rewrite (Py.partition_app "=" (String c s) (escape_filter v +:+ ")" +:+ rest) H3), Hw.
    cbn [negb]. cbv iota. by rewrite star_escaped, read_escaped.
  - cbn [render]. rewrite !Py.app_assoc. cbn [well_named depth] in *. apply le_S_n in Hd.
    change ("(&" +:+ ?r) with (String "(" (String "&" r)).
    cbn [read]. change (negb (Ascii.eqb "(" "(")) with false. change (Ascii.eqb "&" "&") with true. cbv iota. by rewrite (Hl l fuel rest IH Hw Hd).
  - cbn [render]. rewrite !Py.app_assoc. cbn [well_named depth] in *. apply le_S_n in Hd.
    change ("(|" +:+ ?r) with (String "(" (String "|" r)).
    cbn [read]. change (negb (Ascii.eqb "(" "(")) with false. change (Ascii.eqb "|" "&") with false. change (Ascii.eqb "|" "|") with true. cbv iota.
    by rewrite (Hl l fuel rest IH Hw Hd).
Qed.

Lemma render_length f : (depth f <= String.length (render f))%nat.
Proof.
  assert (forall l, Forall (fun f => depth f <= String.length (render f))%nat l ->
    (foldr Nat.max 0 (map depth l) <= String.length (Py.join "" (map render l)))%nat) as Hl.
  { clear f. induction 1 as [|f l Hf _ IH]; [done|]. rewrite join_render, Py.length_app. cbn [map foldr]. lia. }
  induction f as [a|a v|l IH|l IH] using assertion_all_ind; cbn [render depth].
  - rewrite !Py.length_app. cbn [String.length]. lia.
  - unfold equality. rewrite Py.length_app. cbn [String.length]. lia.
  - specialize (Hl l IH). rewrite !Py.length_app. cbn [String.length]. lia.
  - specialize (Hl l IH). rewrite !Py.length_app. cbn [String.length]. lia.
Qed.

(** What was built is what is read, whatever the values hold. *)
Lemma parse_render f : well_named f = true -> parse (render f) = Some f.
Proof.
  intros Hw. unfold parse. rewrite <- (Py.app_nil_r (render f)) at 2.
  by rewrite (read_render f Hw _ "" (render_length f)).
Qed.

(** The helpers build [render]ings. *)
Definition among (attributes : list string) (value : string) : assertion :=
  match attributes with [attribute] => Equal attribute value | _ => Any ((fun attribute => Equal attribute value) <$> attributes) end.

Lemma any_of_renders attributes value : attributes <> [] -> any_of attributes value = Some (render (among attributes value)).
Proof.
  destruct attributes as [|a [|b l]]; [done|reflexivity|]. intros _. unfold any_of, among. generalize (a :: b :: l). intros l'. cbn [render].
  replace (map render ((fun attribute => Equal attribute value) <$> l')) with ((fun attribute => equality attribute value) <$> l'); [done|].
  induction l' as [|x l' IH]; [done|]. cbn. by rewrite IH.
Qed.

Lemma render_present f : negb (String.eqb (render f) "") = true.
Proof. destruct (render_opens f) as [r ->]. done. Qed.

Lemma all_of_renders f g : all_of [render f; render g] = Some (render (All [f; g])).
Proof. unfold all_of. cbn [List.filter]. by rewrite !render_present. Qed.

(** ** Distinguished names

    [attribute=value] up to the first separator that is not escaped.  A character
    is written bare or after a backslash; [bare] remembers which. *)

Definition special (c : ascii) : bool :=
  Ascii.eqb c backslash || Ascii.eqb c "," || Ascii.eqb c "+" || Ascii.eqb c JsonText.dquote || Ascii.eqb c "<" ||
  Ascii.eqb c ">" || Ascii.eqb c ";".

Fixpoint dn_tokens (s : string) : option (list (bool * ascii) * string) :=
  match s with
  | EmptyString => Some ([], EmptyString)
  | String c r =>
      if Ascii.eqb c "," || Ascii.eqb c "+" then Some ([], s)
      else if Ascii.eqb c backslash then
        match r with
        | String d r' =>
            if special d || Ascii.eqb d " " || Ascii.eqb d "#" || Ascii.eqb d "=" then
              '(l, rest) ← dn_tokens r'; Some ((false, d) :: l, rest)
            else match r' with
            | String e r'' =>
                match Hex.value (Py.lower_ascii d), Hex.value (Py.lower_ascii e) with
                | Some a, Some b => '(l, rest) ← dn_tokens r''; Some ((false, ascii_of_nat (16 * a + b)) :: l, rest)
                | _, _ => None
                end
            | EmptyString => None
            end
        | EmptyString => None
        end
      else if special c || Ascii.eqb c NUL then None
      else '(l, rest) ← dn_tokens r; Some ((true, c) :: l, rest)
  end.

Definition bare_end (t : option (bool * ascii)) : bool :=
  match t with Some (true, c) => Ascii.eqb c " " | _ => false end.
Definition bare_start (t : option (bool * ascii)) : bool :=
  match t with Some (true, c) => Ascii.eqb c " " || Ascii.eqb c "#" | _ => false end.

Fixpoint chars_of (l : list (bool * ascii)) : string :=
  match l with [] => EmptyString | (_, c) :: l' => String c (chars_of l') end.

Definition read_dn_value (s : string) : option (string * string) :=
  '(l, rest) ← dn_tokens s;
  if bare_start (head l) || bare_end (last l) then None else Some (chars_of l, rest).

(** The first component of a name, and the rest of the name. *)
Definition read_rdn (s : string) : option (string * string * string) :=
  match Py.partition "=" s with
  | (attribute, Some r) =>
      if attribute_name attribute then '(v, rest) ← read_dn_value r; Some (attribute, v, rest) else None
  | _ => None
  end.

(** *** What [escape_dn] writes *)

Definition body (v : string) : string := apply_table DN_ESCAPES (one backslash +:+ one backslash) v.
Definition token (c : ascii) : bool * ascii := (negb (special c || Ascii.eqb c "="), c).
Fixpoint tokens (v : string) : list (bool * ascii) :=
  match v with EmptyString => [] | String c v' => token c :: tokens v' end.

Definition leading (c : ascii) : string :=
  if Ascii.eqb c " " || Ascii.eqb c "#" then String backslash (one c) else body (one c).
Definition trailing (s : string) : string :=
  if Py.endswith s " " && negb (Py.endswith s (one backslash +:+ " "))
  then Py.take (String.length s - 1) s +:+ one backslash +:+ " " else s.

Lemma body_cons c v : body (String c v) = body (one c) +:+ body v.
Proof. exact (apply_table_app _ _ (one c) v). Qed.

Lemma escape_dn_cons c v : escape_dn (String c v) = trailing (leading c +:+ body v).
Proof.
  unfold escape_dn. change (apply_table DN_ESCAPES (one backslash +:+ one backslash) (String c v)) with (body (String c v)).
  rewrite body_cons. generalize (body v) as t. intros t.
  replace (leading c +:+ t) with
    (let e := if Py.startswith (body (one c) +:+ t) "#" then one backslash +:+ body (one c) +:+ t else body (one c) +:+ t in
     if Py.startswith e " " then one backslash +:+ e else e); [done|].
  destruct t; destruct c as [[] [] [] [] [] [] [] []]; reflexivity.
Qed.

Lemma dn_tokens_one c tail l r : c <> NUL -> dn_tokens tail = Some (l, r) -> dn_tokens (body (one c) +:+ tail) = Some (token c :: l, r).
Proof.
  intros Hc Ht. assert (dn_tokens (body (one c) +:+ tail) = '(l, r) ← dn_tokens tail; Some (token c :: l, r)) as ->; [|by rewrite Ht].
  destruct c as [[] [] [] [] [] [] [] []]; first [reflexivity | by destruct Hc].
Qed.

Lemma dn_tokens_leading c tail l r : c <> NUL -> dn_tokens tail = Some (l, r) ->
  exists b, dn_tokens (leading c +:+ tail) = Some ((b, c) :: l, r) /\ bare_start (Some (b, c)) = false /\ bare_end (Some (b, c)) = false.
Proof.
  intros Hc Ht. unfold leading. destruct (Ascii.eqb c " " || Ascii.eqb c "#") eqn:Ec.
  - exists false. split; [|done]. rewrite !Py.app_String, Py.app_nil_l.
    apply orb_true_iff in Ec as [->%Ascii.eqb_eq | ->%Ascii.eqb_eq]; cbn [dn_tokens]; rewrite Ht; reflexivity.
  - rewrite (dn_tokens_one c tail l r Hc Ht). eexists. split; [reflexivity|]. apply orb_false_iff in Ec as [E1 E2].
    unfold bare_start, bare_end. rewrite E1, E2. split; by case_match.
Qed.

Lemma dn_tokens_body v tail l r : Py.has_char NUL v = false -> dn_tokens tail = Some (l, r) ->
  dn_tokens (body v +:+ tail) = Some (tokens v ++ l, r).
Proof.
  intros Hv Ht. induction v as [|c v IH]; [done|]. rewrite body_cons, Py.app_assoc.
  unfold Py.has_char in *. cbn [Py.sforall] in Hv. apply negb_false_iff, andb_true_iff in Hv as [Hc Hv].
  apply dn_tokens_one; [intros ->; discriminate|]. apply IH. by rewrite Hv.
Qed.

Lemma chars_of_tokens v l : chars_of (tokens v ++ l) = v +:+ chars_of l.
Proof. induction v as [|c v IH]; [done|]. cbn [tokens app chars_of token]. by rewrite IH. Qed.

Lemma snoc_case s : s = "" \/ exists m d, s = m +:+ one d.
Proof.
  destruct (Py.srev s) as [|d t] eqn:E; [left|right]; [by apply Py.srev_inj|].
  exists (Py.srev t), d. apply Py.srev_inj. rewrite E, Py.srev_app_distr, Py.srev_srev. done.
Qed.

Lemma srev_body_one c : exists t, Py.srev (body (one c)) = String c t.
Proof. destruct c as [[] [] [] [] [] [] [] []]; eexists; reflexivity. Qed.

Lemma body_snoc m d : body (m +:+ one d) = body m +:+ body (one d).
Proof. exact (apply_table_app _ _ m (one d)). Qed.

Lemma startswith_one a t c : Py.startswith (String a t) (one c) = Ascii.eqb c a.
Proof. cbn [Py.startswith]. destruct (Ascii.eqb c a); [by destruct t|done]. Qed.

(** The last character written is the last character of the value. *)
Lemma last_written c m x : Py.startswith (Py.srev (leading c +:+ body m)) (one x) = Py.startswith (Py.srev (String c m)) (one x).
Proof.
  destruct (snoc_case m) as [->|(m' & d & ->)].
  - cbn [body]. unfold leading. change (body "") with "". rewrite Py.app_nil_r. change (Py.srev (one c)) with (one c).
    destruct (Ascii.eqb c " " || Ascii.eqb c "#"); [change (Py.srev (String backslash (one c))) with (String c (one backslash)); by rewrite !startswith_one|].
    destruct (srev_body_one c) as [t ->]. by rewrite !startswith_one.
  - change (String c (m' +:+ one d)) with (String c m' +:+ one d). rewrite body_snoc, !Py.srev_app_distr.
    destruct (srev_body_one d) as [t ->]. change (Py.srev (one d)) with (one d).
    rewrite !Py.app_String, !startswith_one. done.
Qed.

Lemma take_whole s t : Py.take (String.length s) (s +:+ t) = s.
Proof. induction s as [|a s IH]; [by destruct t|]. cbn. f_equal. exact IH. Qed.

Lemma trailing_space s : trailing (s +:+ one " ") = if Py.startswith (Py.srev s) (one backslash) then s +:+ one " " else s +:+ one backslash +:+ " ".
Proof.
  unfold trailing, Py.endswith. rewrite Py.srev_app_distr. change (Py.srev (one " ")) with (one " ").
  change (Py.srev (one backslash +:+ " ")) with (String " " (one backslash)). change (Py.srev " ") with (one " ").
  rewrite Py.app_String, Py.app_nil_l, startswith_one. cbn [Py.startswith]. change (Ascii.eqb " " " ") with true. cbv iota. cbn [andb].
  destruct (Py.startswith (Py.srev s) (one backslash)); [done|]. cbn [negb]. rewrite Py.length_app. cbn [String.length].
  replace (String.length s + 1 - 1)%nat with (String.length s) by lia. by rewrite take_whole.
Qed.

Lemma trailing_other s : Py.startswith (Py.srev s) (one " ") = false -> trailing s = s.
Proof. intros H. unfold trailing, Py.endswith. change (Py.srev " ") with (one " "). by rewrite H. Qed.

(** [escape_dn] has no rendering for a NUL, and takes the space of a value that
    ends in a backslash and a space for one that is escaped already. *)
Definition nameable (v : string) : bool :=
  negb (Py.has_char NUL v) && negb (Py.endswith v (one backslash +:+ " ")).

Lemma nul_free_cons c v : Py.has_char NUL (String c v) = false -> c <> NUL /\ Py.has_char NUL v = false.
Proof.
  unfold Py.has_char. cbn [Py.sforall]. intros [Hc Hv]%negb_false_iff%andb_true_iff. split; [intros ->; discriminate|by rewrite Hv].
Qed.

(** What [escape_dn] wrote is read back as it was, up to the next separator. *)
Lemma read_escape_dn v rest : nameable v = true -> dn_tokens rest = Some ([], rest) ->
  read_dn_value (escape_dn v +:+ rest) = Some (v, rest).
Proof.
  unfold nameable. intros [Hv He]%andb_true_iff Hr. apply negb_true_iff in Hv, He. unfold read_dn_value.
  destruct v as [|c m]; [change (escape_dn "" +:+ rest) with rest; by rewrite Hr|]. rewrite escape_dn_cons. destruct (nul_free_cons c m Hv) as [Hc Hm].
  destruct (snoc_case m) as [->|(m' & d & ->)].
  - change (body "") with "". rewrite Py.app_nil_r.
    assert (trailing (leading c) = leading c) as ->.
    { destruct (Ascii.eqb c " ") eqn:E; [apply Ascii.eqb_eq in E as ->; reflexivity|]. apply trailing_other.
      rewrite <- (Py.app_nil_r (leading c)). change "" with (body "") at 1. rewrite last_written. change (Py.srev (one c)) with (one c).
      by rewrite startswith_one, Ascii.eqb_sym. }
    destruct (dn_tokens_leading c rest [] rest Hc Hr) as (b & -> & H1 & H2). cbn [mbind option_bind head last]. by rewrite H1, H2.
  - rewrite Py.has_char_app in Hm. apply orb_false_iff in Hm as [Hm' Hd]. apply nul_free_cons in Hd as [Hd _].
    destruct (Ascii.eqb d " ") eqn:E.
    + apply Ascii.eqb_eq in E as ->. rewrite body_snoc. change (body (one " ")) with (one " "). rewrite <- Py.app_assoc, trailing_space, last_written.
      assert (Py.startswith (Py.srev (String c m')) (one backslash) = false) as ->.
      { revert He. unfold Py.endswith. change (String c (m' +:+ one " ")) with (String c m' +:+ one " "). rewrite Py.srev_app_distr.
        change (Py.srev (one " ") +:+ ?t) with (String " " t). done. }
      rewrite !Py.app_assoc.
      assert (dn_tokens (one backslash +:+ " " +:+ rest) = Some ([(false, " "%char)], rest)) as Ht by (rewrite !Py.app_String, !Py.app_nil_l; cbn [dn_tokens]; rewrite Hr; reflexivity).
      destruct (dn_tokens_leading c _ _ _ Hc (dn_tokens_body m' _ _ _ Hm' Ht)) as (b & -> & H1 & _). cbn [mbind option_bind head]. rewrite H1.
      rewrite app_comm_cons, last_snoc. cbn [bare_end orb chars_of app]. by rewrite chars_of_tokens.
    + rewrite trailing_other.
      2:{ rewrite last_written. change (String c (m' +:+ one d)) with (String c m' +:+ one d). rewrite Py.srev_app_distr.
          change (Py.srev (one d) +:+ ?t) with (String d t). by rewrite startswith_one, Ascii.eqb_sym. }
      rewrite body_snoc, !Py.app_assoc.
      destruct (dn_tokens_leading c _ _ _ Hc (dn_tokens_body m' _ _ _ Hm' (dn_tokens_one d _ _ _ Hd Hr))) as (b & -> & H1 & _).
      cbn [mbind option_bind head]. rewrite H1, app_comm_cons, last_snoc. unfold token, bare_end. rewrite E.
      rewrite <- app_comm_cons. cbn [chars_of]. rewrite chars_of_tokens. by destruct (negb (special d || Ascii.eqb d "=")).
Qed.

Lemma read_named attribute v rest : attribute_name attribute = true -> nameable v = true -> dn_tokens rest = Some ([], rest) ->
  read_rdn (attribute +:+ "=" +:+ escape_dn v +:+ rest) = Some (attribute, v, rest).
Proof.
  intros Ha Hv Hr. unfold read_rdn. destruct (attribute_name_spec attribute Ha) as (_ & _ & _ & _ & _ & Hn).
  change ("=" +:+ ?t) with (String "=" t). rewrite (Py.partition_app "=" attribute _ Hn), Ha. by rewrite (read_escape_dn v rest Hv Hr).
Qed.

(** A value that ends in a backslash and a space leaves the space bare. *)
Lemma trailing_space_is_bare : let v := String backslash (one " ") in
  escape_dn v = String backslash (String backslash (one " ")) /\ read_dn_value (escape_dn v) = None.
Proof. vm_compute. split; reflexivity. Qed.

End LdapText.
