(* ===== verification/GroupWalk.v ===== *)
(** * Nested group membership

    [campusid/directory/groups.py]: the walk from a person's direct groups up
    through the groups those are in.  The lookup is a callback, so it is a
    parameter: it acts on a state of its own and may raise. *)

From S2P Require Import Prelude.

Module GroupWalk.

Definition MAX_DEPTH : nat := 5.
Definition MAX_GROUPS : nat := 1000.

Record Expansion : Type := {
  groups : gset string;
  direct : gset string;
  truncated : bool;
  depth_reached : nat;
}.

(** [list(dict.fromkeys(values))]: the first of each. *)
Fixpoint unique_from (kept values : list string) : list string :=
  match values with
  | [] => kept
  | v :: values' => unique_from (if bool_decide (v ∈ kept) then kept else kept ++ [v]) values'
  end.
Definition _unique (values : list string) : list string := unique_from [] values.

Section walk.
Context {S X : Type} (parents_of : string -> S -> S * result X (list string)).

(** The parents of one group that are not known yet. *)
Fixpoint fresh (seen : gset string) (next parents : list string) : list string :=
  match parents with
  | [] => next
  | parent :: parents' =>
      fresh seen (if bool_decide (parent ∉ seen) && bool_decide (parent ∉ next) then next ++ [parent] else next) parents'
  end.

(** One turn of the loop, over the frontier in order. *)
Fixpoint level (seen : gset string) (next frontier : list string) (s : S) : S * result X (list string) :=
  match frontier with
  | [] => (s, Ok next)
  | group :: frontier' =>
      match parents_of group s with
      | (s', Ok parents) => level seen (fresh seen next parents) frontier' s'
      | (s', Err e) => (s', Err e)
      end
  end.

Record walked : Type := { wk_seen : gset string; wk_frontier : list string; wk_depth : nat; wk_many : bool }.

(** The loop; [left] is [max_depth - depth], which every turn that goes on lowers. *)
Fixpoint walk (max_groups left depth : nat) (seen : gset string) (frontier : list string) (s : S) : S * result X walked :=
  match left, frontier with
  | O, _ | _, [] => (s, Ok {| wk_seen := seen; wk_frontier := frontier; wk_depth := depth; wk_many := false |})
  | Datatypes.S left', _ =>
      let seen := seen ∪ list_to_set frontier in
      if (max_groups <=? size seen)%nat then
        (s, Ok {| wk_seen := seen; wk_frontier := frontier; wk_depth := depth; wk_many := true |})
      else match level seen [] frontier s with
      | (s', Ok []) => (s', Ok {| wk_seen := seen; wk_frontier := []; wk_depth := depth; wk_many := false |})
      | (s', Ok next) => walk max_groups left' (Datatypes.S depth) seen next s'
      | (s', Err e) => (s', Err e)
      end
  end.

Definition expand (start : list string) (max_depth max_groups : nat) (s : S) : S * result X Expansion :=
  match walk max_groups max_depth 0 ∅ (_unique start) s with
  | (s', Ok w) =>
      let deep := negb (bool_decide (wk_frontier w = [])) && (max_depth <=? wk_depth w)%nat in
      (s', Ok {| groups := if deep then wk_seen w ∪ list_to_set (wk_frontier w) else wk_seen w;
                 direct := list_to_set start; truncated := deep || wk_many w; depth_reached := wk_depth w |})
  | (s', Err e) => (s', Err e)
  end.

End walk.

(** ** What is inherited *)

Section reach.
Context (parent_of : string -> string -> Prop) (start : list string).

(** A direct group, or a group [n] levels above one. *)
Definition inherited (n : nat) (group : string) : Prop := exists child, child ∈ start /\ nsteps parent_of n child group.

Lemma inherited_0 group : inherited 0 group <-> group ∈ start.
Proof. split; [intros (c & Hc & Hn); by inversion Hn; subst|]. intros H. exists group. split; [done|constructor]. Qed.

Lemma inherited_S n group : inherited (Datatypes.S n) group <-> exists child, inherited n child /\ parent_of child group.
Proof.
  split.
  - intros (c & Hc & Hn). apply nsteps_inv_r in Hn as (m & Hm & Hg). exists m. split; [by exists c|done].
  - intros (m & (c & Hc & Hm) & Hg). exists c. split; [done|]. by eapply nsteps_r.
Qed.

End reach.

(** ** The shape of a turn *)

Lemma unique_from_spec values : forall kept, NoDup kept ->
  NoDup (unique_from kept values) /\ forall v, v ∈ unique_from kept values <-> v ∈ kept \/ v ∈ values.
Proof.
  induction values as [|v values IH]; intros kept Hk; cbn [unique_from]; [split; [done|]; intros v; rewrite elem_of_nil; tauto|].
  destruct (bool_decide (v ∈ kept)) eqn:E; bool_prop.
  - destruct (IH kept Hk) as [H1 H2]. split; [done|]. intros w. rewrite H2, elem_of_cons. naive_solver.
  - destruct (IH (kept ++ [v])) as [H1 H2]; [apply NoDup_app; split_and!; [done| |apply NoDup_singleton]; intros w Hw ->%list_elem_of_singleton; done|].
    split; [done|]. intros w. rewrite H2, elem_of_app, list_elem_of_singleton, elem_of_cons. tauto.
Qed.

Lemma unique_spec values : NoDup (_unique values) /\ forall v, v ∈ _unique values <-> v ∈ values.
Proof. destruct (unique_from_spec values [] (NoDup_nil_2)) as [H1 H2]. split; [done|]. intros v. unfold _unique. rewrite H2, elem_of_nil. tauto. Qed.

Lemma fresh_spec seen parents : forall next, NoDup next -> (forall g, g ∈ next -> g ∉ seen) ->
  NoDup (fresh seen next parents) /\ (forall g, g ∈ fresh seen next parents -> g ∉ seen) /\
  (forall g, g ∈ fresh seen next parents -> g ∈ next \/ g ∈ parents) /\
  (forall g, g ∈ next \/ g ∈ parents -> g ∈ seen \/ g ∈ fresh seen next parents).
Proof.
  induction parents as [|p parents IH]; intros next Hn Hs; cbn [fresh].
  { split_and!; [done..| |]; intros g; rewrite elem_of_nil; tauto. }
  destruct (bool_decide (p ∉ seen) && bool_decide (p ∉ next)) eqn:E.
  - bool_prop. destruct (IH (next ++ [p])) as (H1 & H2 & H3 & H4).
    { apply NoDup_app. split_and!; [done| |apply NoDup_singleton]. intros w Hw ->%list_elem_of_singleton. done. }
    { intros g [Hg| ->%list_elem_of_singleton]%elem_of_app; [by apply Hs|done]. }
    split_and!; [done|done| |].
    + intros g Hg. specialize (H3 g Hg). rewrite elem_of_app, list_elem_of_singleton in H3. rewrite elem_of_cons. tauto.
    + intros g Hg. apply H4. rewrite elem_of_app, list_elem_of_singleton. rewrite elem_of_cons in Hg. tauto.
  - destruct (IH next Hn Hs) as (H1 & H2 & H3 & H4). split_and!; [done|done| |].
    + intros g Hg. destruct (H3 g Hg); [by left|right; by constructor].
    + intros g Hg. rewrite elem_of_cons in Hg. assert (g = p -> g ∈ seen \/ g ∈ next) as Hp.
      { intros ->. destruct (decide (p ∈ seen)); [by left|]. destruct (decide (p ∈ next)); [by right|].
        rewrite !bool_decide_eq_true_2 in E by done. done. }
      destruct Hg as [Hg|[Hg|Hg]]; [by apply H4; left| |by apply H4; right].
      destruct (Hp Hg); [by left|apply H4; by left].
Qed.

(** ** A lookup that answers from a graph

    Whenever it answers; it may also raise. *)

Section faithful.
Context {S X : Type} (parents_of : string -> S -> S * result X (list string)).
Context (Inv : S -> Prop) (parent_of : string -> string -> Prop).
Context (Hp : forall g s, Inv s -> Inv (parents_of g s).1 /\
  forall l, (parents_of g s).2 = Ok l -> forall p, p ∈ l <-> parent_of g p).

Lemma level_spec seen frontier : forall next s, Inv s -> NoDup next -> (forall g, g ∈ next -> g ∉ seen) ->
  Inv (level parents_of seen next frontier s).1 /\
  forall next', (level parents_of seen next frontier s).2 = Ok next' ->
    NoDup next' /\ (forall g, g ∈ next' -> g ∉ seen) /\
    (forall g, g ∈ next' -> g ∈ next \/ exists c, c ∈ frontier /\ parent_of c g) /\
    (forall g, g ∈ next \/ (exists c, c ∈ frontier /\ parent_of c g) -> g ∈ seen \/ g ∈ next').
Proof using Hp.
  induction frontier as [|c frontier IH]; intros next s HI Hn Hs; cbn [level].
  { split; [exact HI|]. intros next' [= <-]. split_and!; [done..|tauto|]. intros g [Hg|(c & Hc & _)]; [by right|by apply elem_of_nil in Hc]. }
  destruct (Hp c s HI) as [HI' He]. destruct (parents_of c s) as [s1 [parents|e]]; [|by split]. cbn [fst snd] in HI', He.
  specialize (He parents eq_refl). destruct (fresh_spec seen parents next Hn Hs) as (F1 & F2 & F3 & F4).
  destruct (IH (fresh seen next parents) s1 HI' F1 F2) as [HI2 IH2]. split; [exact HI2|]. intros next' E.
  destruct (IH2 next' E) as (H1 & H2 & H3 & H4). split_and!; [done..| |].
  - intros g Hg. destruct (H3 g Hg) as [Hf|(d & Hd & Hgd)]; [|right; exists d; split; [by constructor|done]].
    destruct (F3 g Hf) as [|Hpa]; [by left|right; exists c; split; [constructor|by apply He]].
  - intros g Hg. assert (g ∈ seen \/ g ∈ fresh seen next parents \/ exists d, d ∈ frontier /\ parent_of d g) as [Hg'|Hg'].
    { destruct Hg as [Hg|(d & [->|Hd]%elem_of_cons & Hgd)].
      - destruct (F4 g (or_introl Hg)); tauto.
      - apply He in Hgd. destruct (F4 g (or_intror Hgd)); tauto.
      - right. right. by exists d. }
    + by left.
    + by apply H4.
Qed.

(** What the loop keeps: nobody is asked for twice, everything found is
    inherited, and everything up to the current level has been found. *)
Record invariant (start : list string) (k : nat) (seen : gset string) (frontier : list string) : Prop := {
  inv_once : NoDup frontier;
  inv_new : forall g, g ∈ frontier -> g ∉ seen;
  inv_start : forall g, g ∈ start -> g ∈ seen \/ g ∈ frontier;
  inv_sound : forall g, g ∈ seen \/ g ∈ frontier -> exists n, inherited parent_of start n g;
  inv_closed : forall c g, c ∈ seen -> parent_of c g -> g ∈ seen \/ g ∈ frontier;
  inv_levels : forall n g, (n <= k)%nat -> inherited parent_of start n g -> g ∈ seen \/ g ∈ frontier;
}.

Lemma invariant_first start : invariant start 0 ∅ (_unique start).
Proof using parent_of.
  destruct (unique_spec start) as [H1 H2]. split.
  - exact H1.
  - intros g _. apply not_elem_of_empty.
  - intros g Hg. right. apply H2, Hg.
  - intros g [Hg|Hg]; [destruct (not_elem_of_empty g Hg)|]. exists 0%nat. apply inherited_0, H2, Hg.
  - intros c g Hc. destruct (not_elem_of_empty c Hc).
  - intros n g Hn Hg. assert (n = 0)%nat as -> by lia. apply inherited_0 in Hg. right. apply H2, Hg.
Qed.

Lemma invariant_turn start k seen frontier s : Inv s -> invariant start k seen frontier ->
  Inv (level parents_of (seen ∪ list_to_set frontier) [] frontier s).1 /\
  forall next, (level parents_of (seen ∪ list_to_set frontier) [] frontier s).2 = Ok next ->
    invariant start (Datatypes.S k) (seen ∪ list_to_set frontier) next.
Proof using Hp.
  intros HI [I1 I2 I3 I4 I5 I6].
  destruct (level_spec (seen ∪ list_to_set frontier) frontier [] s HI) as [HI' Hl]; [constructor|by intros g Hg%elem_of_nil|].
  split; [exact HI'|]. intros next E. destruct (Hl next E) as (H1 & H2 & H3 & H4).
  assert (forall c g, c ∈ seen ∪ list_to_set frontier -> parent_of c g -> g ∈ seen ∪ list_to_set frontier \/ g ∈ next) as Hc.
  { intros c g [Hc|Hc%elem_of_list_to_set]%elem_of_union Hg.
    - left. apply elem_of_union. rewrite elem_of_list_to_set. by apply (I5 c).
    - apply H4. right. by exists c. }
  split; [done|done| | |done|].
  - intros g Hg. left. apply elem_of_union. rewrite elem_of_list_to_set. by apply I3.
  - intros g [Hg|Hg].
    + apply elem_of_union in Hg. rewrite elem_of_list_to_set in Hg. by apply I4.
    + destruct (H3 g Hg) as [Hn|(c & Hcf & Hg')]; [by apply elem_of_nil in Hn|]. destruct (I4 c (or_intror Hcf)) as [n Hn].
      exists (Datatypes.S n). apply inherited_S. by exists c.
  - intros n g Hn Hg. destruct (decide (n <= k)%nat) as [Hle|Hlt].
    + left. apply elem_of_union. rewrite elem_of_list_to_set. by apply (I6 n).
    + assert (n = Datatypes.S k) as -> by lia. apply inherited_S in Hg as (c & Hck & Hg). apply (Hc c); [|done].
      apply elem_of_union. rewrite elem_of_list_to_set. by apply (I6 k).
Qed.

Lemma walk_spec start max_groups left : forall depth seen frontier s, Inv s -> invariant start depth seen frontier ->
  Inv (walk parents_of max_groups left depth seen frontier s).1 /\
  forall w, (walk parents_of max_groups left depth seen frontier s).2 = Ok w ->
    (wk_many w = true -> (max_groups <= size (wk_seen w))%nat /\ list_to_set (wk_frontier w) ⊆ wk_seen w /\
      (wk_frontier w <> [] -> (wk_depth w < depth + left)%nat)) /\
    (wk_many w = false -> wk_frontier w = [] \/ wk_depth w = (depth + left)%nat) /\
    (wk_many w = false -> exists k, invariant start k (wk_seen w) (wk_frontier w) /\ (wk_frontier w <> [] -> k = wk_depth w)) /\
    (forall g, g ∈ wk_seen w \/ g ∈ wk_frontier w -> exists n, inherited parent_of start n g) /\
    (forall g, g ∈ start -> g ∈ wk_seen w \/ g ∈ wk_frontier w).
Proof using Hp.
  induction left as [|left IH]; intros depth seen frontier s HI I; cbn [walk].
  { split; [exact HI|]. intros w [= <-]. split_and!; cbn; [done|intros _; right; lia| |apply I|apply I]. intros _. by exists depth. }
  destruct frontier as [|c l].
  { split; [exact HI|]. intros w [= <-]. split_and!; cbn; [done|intros _; by left| |apply I|apply I]. intros _. by exists depth. }
  set (frontier := c :: l) in *. clearbody frontier. cbv zeta. destruct (Nat.leb_spec max_groups (size (seen ∪ list_to_set frontier))) as [Hm|Hm].
  { split; [exact HI|]. intros w [= <-]. split_and!; cbn; [|done|done| |].
    - intros _. split_and!; [done|set_solver|intros _; lia].
    - intros g Hg. apply (inv_sound _ _ _ _ I). set_solver.
    - intros g Hg. left. destruct (inv_start _ _ _ _ I g Hg); set_solver. }
  destruct (invariant_turn start depth seen frontier s HI I) as [HI' I'].
  destruct (level parents_of (seen ∪ list_to_set frontier) [] frontier s) as [s1 [[|d next]|e]]; cbn [fst snd] in HI', I'; [| |by split].
  - specialize (I' [] eq_refl). split; [exact HI'|]. intros w [= <-].
    split_and!; cbn; [done|intros _; by left| |apply I'|apply I']. intros _. by exists (Datatypes.S depth).
  - destruct (IH (Datatypes.S depth) _ _ s1 HI' (I' _ eq_refl)) as [HI2 IH2]. split; [exact HI2|]. intros w E.
    destruct (IH2 w E) as (H1 & H2 & H3 & H4 & H5). split_and!; [| |done|done|done].
    + intros Hw. destruct (H1 Hw) as (? & ? & H6). split_and!; [done..|]. intros Hne. specialize (H6 Hne). lia.
    + intros Hw. destruct (H2 Hw); [by left|right; lia].
Qed.

(** Whatever the graph, cycles included: an expansion that does not say it was
    cut short is exactly the groups inherited; one that does holds at least as
    many as the ceiling, or all of the levels it was allowed. *)
Lemma expand_spec start max_depth max_groups s : Inv s ->
  Inv (expand parents_of start max_depth max_groups s).1 /\
  forall e, (expand parents_of start max_depth max_groups s).2 = Ok e -> direct e = list_to_set start /\
    direct e ⊆ groups e /\ (forall g, g ∈ groups e -> exists n, inherited parent_of start n g) /\
    (truncated e = false -> forall n g, inherited parent_of start n g -> g ∈ groups e) /\
    (truncated e = true -> (max_groups <= size (groups e))%nat \/
      forall n g, (n <= max_depth)%nat -> inherited parent_of start n g -> g ∈ groups e).
Proof using Hp.
  intros HI. unfold expand. destruct (walk_spec start max_groups max_depth 0 ∅ _ s HI (invariant_first start)) as [HI' Hw].
  destruct (walk parents_of max_groups max_depth 0 ∅ (_unique start) s) as [s' [w|x]]; cbn [fst snd] in HI', Hw; [|by split].
  split; [exact HI'|]. intros e [= <-]. destruct (Hw w eq_refl) as (H1 & H2 & H3 & H4 & H5). cbn [direct groups truncated].
  destruct (negb (bool_decide (wk_frontier w = [])) && (max_depth <=? wk_depth w)%nat) eqn:E; cbn [orb].
  - apply andb_true_iff in E as [E1 E2]. bool_prop. apply Nat.leb_le in E2.
    destruct (wk_many w) eqn:Em; [destruct (H1 eq_refl) as (_ & _ & H6); specialize (H6 E1); lia|].
    destruct (H3 eq_refl) as (k & I & Hk). specialize (Hk E1). split_and!; [done| | |done|].
    + intros g Hg%elem_of_list_to_set. apply elem_of_union. rewrite elem_of_list_to_set. by apply H5.
    + intros g Hg. apply H4. by rewrite elem_of_union, elem_of_list_to_set in Hg.
    + intros _. right. intros n g Hn Hg. apply elem_of_union. rewrite elem_of_list_to_set. apply (inv_levels _ _ _ _ I n); [lia|done].
  - assert (forall g, g ∈ wk_frontier w -> g ∈ wk_seen w) as Hf.
    { intros g Hg. destruct (wk_many w) eqn:Em; [destruct (H1 eq_refl) as (_ & H6 & _); apply H6; by apply elem_of_list_to_set|].
      destruct (H2 eq_refl) as [H6|H6]; [rewrite H6 in Hg; by apply elem_of_nil in Hg|].
      rewrite bool_decide_eq_false_2 in E by (intros H7; rewrite H7 in Hg; by apply elem_of_nil in Hg).
      apply Nat.leb_gt in E. lia. }
    split_and!; [done| |intros g Hg; apply H4; by left| |].
    + intros g Hg%elem_of_list_to_set. destruct (H5 g Hg); [done|by apply Hf].
    + intros Em n g. destruct (H3 Em) as (k & I & _). revert g. induction n as [|n IH]; intros g Hg.
      * apply inherited_0 in Hg. destruct (H5 g Hg); [done|by apply Hf].
      * apply inherited_S in Hg as (c & Hc & Hg). destruct (inv_closed _ _ _ _ I c g (IH c Hc) Hg); [done|by apply Hf].
    + intros Em. left. by destruct (H1 Em).
Qed.

End faithful.

(** A lookup that never raises lets the expansion answer, whatever the graph. *)
Section answers.
Context {S X : Type} (parents_of : string -> S -> S * result X (list string)).
Context (answers : forall g s, is_ok (parents_of g s).2 = true).

Lemma level_answers seen frontier : forall next s, is_ok (level parents_of seen next frontier s).2 = true.
Proof using answers.
  induction frontier as [|c frontier IH]; intros next s; [done|]. cbn [level]. pose proof (answers c s) as Ha.
  destruct (parents_of c s) as [s1 [l|e]]; [apply IH|done].
Qed.

Lemma walk_answers max_groups left : forall depth seen frontier s, is_ok (walk parents_of max_groups left depth seen frontier s).2 = true.
Proof using answers.
  induction left as [|left IH]; intros depth seen frontier s; [done|]. cbn [walk]. destruct frontier as [|c l]; [done|]. cbv zeta.
  destruct (max_groups <=? size (seen ∪ list_to_set (c :: l)))%nat; [done|].
  pose proof (level_answers (seen ∪ list_to_set (c :: l)) (c :: l) [] s) as Ha.
  destruct (level parents_of (seen ∪ list_to_set (c :: l)) [] (c :: l) s) as [s1 [[|d next]|e]]; [done|apply IH|done].
Qed.

Lemma expand_answers start max_depth max_groups s : is_ok (expand parents_of start max_depth max_groups s).2 = true.
Proof using answers.
  unfold expand. pose proof (walk_answers max_groups max_depth 0 ∅ (_unique start) s) as Ha.
  by destruct (walk parents_of max_groups max_depth 0 ∅ (_unique start) s) as [s1 [w|e]].
Qed.
End answers.

(** What it raises, the lookup raised. *)
Lemma walk_error {S X} (parents : string -> S -> S * result X (list string)) (Q : X -> Prop) :
  (forall g s e, (parents g s).2 = Err e -> Q e) ->
  forall start depth many s e, (expand parents start depth many s).2 = Err e -> Q e.
Proof.
  intros Hq. assert (forall seen frontier next s e, (level parents seen next frontier s).2 = Err e -> Q e) as Hl.
  { intros seen frontier. induction frontier as [|g frontier IH]; intros next s e; [done|]. cbn [level].
    pose proof (Hq g s) as Hg. destruct (parents g s) as [s' [l|x]]; [apply IH|]. intros [= <-]. by apply Hg. }
  assert (forall many left depth seen frontier s e, (walk parents many left depth seen frontier s).2 = Err e -> Q e) as Hwk.
  { intros many left. induction left as [|left IH]; intros depth seen frontier s e; [done|]. cbn [walk]. destruct frontier as [|g l]; [done|].
    cbv zeta. destruct (many <=? _)%nat; [done|]. pose proof (Hl (seen ∪ list_to_set (g :: l)) (g :: l) [] s) as Hg.
    destruct (level parents _ [] (g :: l) s) as [s' [[|h next]|x]]; [done|apply IH|intros [= <-]; by apply Hg]. }
  intros start depth many s e. unfold expand. pose proof (Hwk many depth 0%nat ∅ (_unique start) s) as Hg.
  destruct (walk parents many depth 0 ∅ (_unique start) s) as [s' [x|x]]; [done|intros [= <-]; by apply Hg].
Qed.

(** ** How often the directory is asked *)

Section asked.
Context {X : Type} (edges : string -> list string).

Definition lists_parent (child parent : string) : Prop := parent ∈ edges child.

(** A lookup that notes who was asked about. *)
Definition noted (group : string) (asked : list string) : list string * result X (list string) := (asked ++ [group], Ok (edges group)).

Lemma noted_answers g s : True -> True /\ forall l, (noted g s).2 = Ok l -> forall p, p ∈ l <-> lists_parent g p.
Proof. intros _. split; [exact Logic.I|]. by intros l [= <-]. Qed.

Lemma level_asks seen frontier : forall next s, (level noted seen next frontier s).1 = s ++ frontier.
Proof.
  induction frontier as [|c frontier IH]; intros next s; cbn [level noted]; [by rewrite app_nil_r|].
  rewrite IH, <- app_assoc. done.
Qed.

Lemma walk_asks start max_groups left : forall depth seen frontier s, invariant lists_parent start depth seen frontier ->
  NoDup s -> list_to_set s = seen -> (s = [] \/ length s < max_groups)%nat ->
  let s' := (walk noted max_groups left depth seen frontier s).1 in NoDup s' /\ (s' = [] \/ length s' < max_groups)%nat.
Proof.
  induction left as [|left IH]; intros depth seen frontier s I Hs Hset Hlen; cbn [walk]; [done|].
  destruct frontier as [|c l]; [done|]. set (frontier := c :: l) in *. clearbody frontier. cbv zeta.
  destruct (Nat.leb_spec max_groups (size (seen ∪ list_to_set frontier))) as [Hm|Hm]; [done|].
  assert (NoDup (s ++ frontier)) as Hnd.
  { apply NoDup_app. split_and!; [done| |apply I]. intros g Hg Hgf. apply (inv_new _ _ _ _ _ I g Hgf). rewrite <- Hset. by apply elem_of_list_to_set. }
  assert (list_to_set (s ++ frontier) = seen ∪ list_to_set frontier) as Hset' by (rewrite list_to_set_app_L, Hset; reflexivity).
  assert (length (s ++ frontier) < max_groups)%nat as Hlen' by (rewrite <- (size_list_to_set (C := gset string) _ Hnd), Hset'; exact Hm).
  pose proof (level_asks (seen ∪ list_to_set frontier) frontier [] s) as E.
  destruct (invariant_turn noted (fun _ => True) lists_parent noted_answers start depth seen frontier s Logic.I I) as [_ I'].
  destruct (level noted (seen ∪ list_to_set frontier) [] frontier s) as [s1 [[|d next]|e]]; cbn [fst snd] in E, I'; subst s1;
    [split; [exact Hnd|right; exact Hlen']| |split; [exact Hnd|right; exact Hlen']].
  apply IH; [exact (I' _ eq_refl)|exact Hnd|exact Hset'|right; exact Hlen'].
Qed.

(** No group is asked about twice, and fewer are than the ceiling allows. *)
Lemma expand_asks start max_depth max_groups : let asked := (expand noted start max_depth max_groups []).1 in
  NoDup asked /\ (asked = [] \/ length asked < max_groups)%nat.
Proof.
  unfold expand. pose proof (walk_asks start max_groups max_depth 0 ∅ (_unique start) [] (invariant_first lists_parent start) (NoDup_nil_2) eq_refl (or_introl eq_refl)) as H.
  destruct (walk noted max_groups max_depth 0 ∅ (_unique start) []) as [s' [w|e]]; exact H.
Qed.

End asked.

End GroupWalk.
