(* ===== verification/Directory.v ===== *)
(** * The campus directory

    [campusid/directory/]: the connection, the profiles, the client that reads
    and the writer, and [campusid/lifecycle/targets.py], which makes the two a
    downstream system of the orchestrator.  The LDAP library and the server are a
    parameter: a class [LdapServer] with the calls the code makes; [DirectoryLaws]
    has what they are documented to do.  A moment is fixed during an
    operation; the membership cache is the Redis of [Redis]. *)

From S2P Require Import Prelude PyStr Json Dict JsonText JsonLoads Errors Redis Orchestrator LdapText GroupWalk.

Module Directory.

(** ** Text and numbers *)

(** [bytes.decode("utf-8", "replace")]: every ill-formed sequence becomes one
    replacement character. *)
Definition REPLACEMENT : string := String (ascii_of_nat 239) (String (ascii_of_nat 191) (String (ascii_of_nat 189) "")).

Definition second_of_three (a b : ascii) : bool :=
  let b := Utf8.byte b in
  if (Utf8.byte a =? 224)%Z then (160 <=? b)%Z && (b <? 192)%Z
  else if (Utf8.byte a =? 237)%Z then (128 <=? b)%Z && (b <? 160)%Z
  else (128 <=? b)%Z && (b <? 192)%Z.
Definition second_of_four (a b : ascii) : bool :=
  let b := Utf8.byte b in
  if (Utf8.byte a =? 240)%Z then (144 <=? b)%Z && (b <? 192)%Z
  else if (Utf8.byte a =? 244)%Z then (128 <=? b)%Z && (b <? 144)%Z
  else (128 <=? b)%Z && (b <? 192)%Z.

Fixpoint decode_replace (s : string) : string :=
  match s with
  | EmptyString => EmptyString
  | String a s1 =>
      let n := Utf8.byte a in
      if (n <? 128)%Z then String a (decode_replace s1)
      else if (194 <=? n)%Z && (n <? 224)%Z then
        match s1 with
        | String b s2 => if Utf8.cont b then String a (String b (decode_replace s2)) else REPLACEMENT +:+ decode_replace s1
        | EmptyString => REPLACEMENT
        end
      else if (224 <=? n)%Z && (n <? 240)%Z then
        match s1 with
        | String b s2 =>
            if negb (second_of_three a b) then REPLACEMENT +:+ decode_replace s1
            else match s2 with
            | String c s3 => if Utf8.cont c then String a (String b (String c (decode_replace s3))) else REPLACEMENT +:+ decode_replace s2
            | EmptyString => REPLACEMENT
            end
        | EmptyString => REPLACEMENT
        end
      else if (240 <=? n)%Z && (n <? 245)%Z then
        match s1 with
        | String b s2 =>
            if negb (second_of_four a b) then REPLACEMENT +:+ decode_replace s1
            else match s2 with
            | String c s3 =>
                if negb (Utf8.cont c) then REPLACEMENT +:+ decode_replace s2
                else match s3 with
                | String d s4 =>
                    if Utf8.cont d then String a (String b (String c (String d (decode_replace s4)))) else REPLACEMENT +:+ decode_replace s3
                | EmptyString => REPLACEMENT
                end
            | EmptyString => REPLACEMENT
            end
        | EmptyString => REPLACEMENT
        end
      else REPLACEMENT +:+ decode_replace s1
  end.

(** Digits with single underscores between them; [after] says the last character
    was a digit. *)
Fixpoint int_digits (after : bool) (acc : Z) (s : string) : option Z :=
  match s with
  | EmptyString => if after then Some acc else None
  | String c s' =>
      if JsonText.is_digit c then int_digits true (acc * 10 + (Utf8.byte c - 48)) s'
      else if Ascii.eqb c "_" && after then int_digits false acc s' else None
  end.

(** [int(s)] of ASCII text; nothing where it raises [ValueError]. *)
Definition int_of (s : string) : option Z :=
  match Py.strip s with
  | String c s' =>
      if Ascii.eqb c "-" then Z.opp <$> int_digits false 0 s'
      else if Ascii.eqb c "+" then int_digits false 0 s' else int_digits false 0 (String c s')
  | EmptyString => None
  end.

(** ** What a server sends *)

(** One value; [IOther text] is an object of another type, whose [str] is [text]. *)
Inductive item : Type :=
| IStr (s : string)
| IBytes (b : string)
| IInt (z : Z)
| INone
| IOther (text : string).

(** An attribute: a bare value, or a list of them. *)
Inductive attr : Type := One (v : item) | Many (l : list item).

Definition attributes := string -> option attr.

Record entry : Type := {
  en_type : option string;
  en_dn : string;
  en_attributes : option attributes;
}.

Definition no_attributes : attributes := fun _ => None.

(** [str(value)], bytes decoded first. *)
Definition text_of (v : item) : string :=
  match v with
  | IStr s => s
  | IBytes b => decode_replace b
  | IInt z => Py.str_of_Z z
  | INone => "None"
  | IOther text => text
  end.

(** What [value not in (None, "")] refuses, of a value that was decoded. *)
Definition blank (v : item) : bool :=
  match v with
  | IStr s => String.eqb s ""
  | IBytes b => String.eqb (decode_replace b) ""
  | INone => true
  | IInt _ | IOther _ => false
  end.

(** The same of one that was not: bytes are never [""]. *)
Definition raw_blank (v : item) : bool :=
  match v with IStr s => String.eqb s "" | INone => true | _ => false end.

Definition first_value (a : option attr) : item :=
  match a with
  | Some (Many []) | None => INone
  | Some (Many (v :: _)) | Some (One v) => v
  end.

Fixpoint _one (attrs : attributes) (names : list string) : option string :=
  match names with
  | [] => None
  | name :: names' => let v := first_value (attrs name) in if blank v then _one attrs names' else Some (text_of v)
  end.

(** [if value is None: return []] and a bare value made a list. *)
Definition listed (a : option attr) : list item :=
  match a with
  | None | Some (One INone) => []
  | Some (One v) => [v]
  | Some (Many l) => l
  end.

Definition _many (attrs : attributes) (name : string) : list string := text_of <$> listed (attrs name).

Definition _strings (a : option attr) : list string := text_of <$> List.filter (fun v => negb (raw_blank v)) (listed a).

(** ** Profiles *)

Definition ACCOUNT_DISABLED_BIT : Z := 2.
Definition DEFAULT_ACCOUNT_CONTROL : Z := 512.
Definition LOCKED_FOREVER : string := "000001010000Z".

Record DirectoryProfile : Type := {
  name : string;
  login_attributes : list string;
  immutable_id : string;
  member_of : string;
  member : string;
  group_name : string;
  user_object_class : string;
  group_object_class : string;
  create_object_classes : list string;
  mail : string;
  display_name : string;
  given_name : string;
  surname : string;
  disabled_flag : option string;
  lock_attribute : string;
}.

Definition ACTIVE_DIRECTORY : DirectoryProfile := {|
  name := "active-directory";
  login_attributes := ["userPrincipalName"; "sAMAccountName"];
  immutable_id := "objectGUID";
  member_of := "memberOf";
  member := "member";
  group_name := "cn";
  user_object_class := "user";
  group_object_class := "group";
  create_object_classes := ["user"; "organizationalPerson"; "person"; "top"];
  mail := "mail"; display_name := "displayName"; given_name := "givenName"; surname := "sn";
  disabled_flag := Some "userAccountControl";
  lock_attribute := "pwdAccountLockedTime";
|}.

Definition OPENLDAP : DirectoryProfile := {|
  name := "openldap";
  login_attributes := ["eduPersonPrincipalName"; "uid"];
  immutable_id := "entryUUID";
  member_of := "memberOf";
  member := "member";
  group_name := "cn";
  user_object_class := "inetOrgPerson";
  group_object_class := "groupOfNames";
  create_object_classes := ["inetOrgPerson"; "organizationalPerson"; "person"; "eduPerson"; "top"];
  mail := "mail"; display_name := "displayName"; given_name := "givenName"; surname := "sn";
  disabled_flag := None;
  lock_attribute := "pwdAccountLockedTime";
|}.

Definition PROFILES : list (string * DirectoryProfile) :=
  [(name ACTIVE_DIRECTORY, ACTIVE_DIRECTORY); (name OPENLDAP, OPENLDAP)].

(** Nothing where it raises [ValueError]. *)
Definition profile (n : string) : option DirectoryProfile := Dict.get PROFILES n.

Definition user_filter (p : DirectoryProfile) (login : string) : option string :=
  by_login ← LdapText.any_of (login_attributes p) login;
  LdapText.all_of [LdapText.equality "objectClass" (user_object_class p); by_login].

Definition user_by_id_filter (p : DirectoryProfile) (id : string) : option string :=
  LdapText.all_of [LdapText.equality "objectClass" (user_object_class p); LdapText.equality (immutable_id p) id].

Definition group_members_filter (p : DirectoryProfile) (member_dn : string) : option string :=
  LdapText.all_of [LdapText.equality "objectClass" (group_object_class p); LdapText.equality (member p) member_dn].

(** [flag or lock_attribute]. *)
Definition disabling (p : DirectoryProfile) : string :=
  match disabled_flag p with
  | Some flag => if String.eqb flag "" then lock_attribute p else flag
  | None => lock_attribute p
  end.

Definition wanted (p : DirectoryProfile) : list string :=
  GroupWalk._unique ([immutable_id p; member_of p; mail p; display_name p; given_name p; surname p]
    ++ login_attributes p ++ [disabling p]).

(** ** The LDAP library *)

(** What it raises, and [DirectoryUnavailable], each with its message. *)
Inductive raised : Type :=
| DirectoryUnavailable (message : string)
| LDAPEntryAlreadyExistsResult (message : string)
| LDAPNoSuchObjectResult (message : string)
| OtherException (message : string).

Definition message_of (e : raised) : string :=
  match e with
  | DirectoryUnavailable m | LDAPEntryAlreadyExistsResult m | LDAPNoSuchObjectResult m | OtherException m => m
  end.

(** The calls on one connection at a time; [D] is the connection and the server
    behind it. *)
Class LdapServer (D : Type) : Type := {
  (** [Server], [Connection] and [open]; whether the server object has TLS. *)
  l_open : string -> bool -> option string -> option string -> D -> D * result raised unit;
  l_start_tls : D -> D * result raised unit;
  l_bind : D -> D * result raised unit;
  l_unbind : D -> D * result raised unit;
  (** [paged_search]: base, filter, attributes and page size. *)
  l_paged_search : string -> string -> list string -> Z -> D -> D * result raised (list entry);
  (** A base-scoped [search], and the response it leaves. *)
  l_search : string -> string -> list string -> D -> D * result raised (bool * list entry);
  l_add : string -> list string -> list (string * string) -> D -> D * result raised unit;
  (** [modify] with [MODIFY_REPLACE] for each attribute. *)
  l_modify : string -> list (string * list string) -> D -> D * result raised unit;
}.

Record Connector : Type := {
  url : string;
  bind_dn : string;
  bind_password : string;
  start_tls : bool;
  allow_plaintext : bool;
}.

Section blocking.
Context {D : Type} `{LdapServer D}.

(** What runs in the worker thread. *)
Definition B (A : Type) : Type := D -> D * result raised A.
Definition ret {A} (a : A) : B A := fun d => (d, Ok a).
Definition throw {A} (e : raised) : B A := fun d => (d, Err e).
Definition bind {A C} (m : B A) (k : A -> B C) : B C := fun d =>
  match m d with
  | (d', Ok a) => k a d'
  | (d', Err e) => (d', Err e)
  end.
Notation "'let!' x := m 'in' k" := (bind m (fun x => k)) (at level 10, x name, m at level 200, k at level 200).
Notation "'run!' m ; k" := (bind m (fun _ => k)) (at level 10, m at level 200, k at level 200).

(** [try: m finally: connection.unbind()]. *)
Definition unbinding {A} (m : B A) : B A := fun d =>
  let '(d1, r) := m d in
  match l_unbind d1 with
  | (d2, Ok _) => (d2, r)
  | (d2, Err e) => (d2, Err e)
  end.

Definition nonempty (s : string) : option string := if String.eqb s "" then None else Some s.

(** [Connector.__call__]. *)
Definition connect (c : Connector) : B unit :=
  let secure := Py.startswith (url c) "ldaps://" in
  if negb secure && negb (start_tls c) && negb (allow_plaintext c) then
    throw (DirectoryUnavailable "refusing a plaintext bind; set ldap_start_tls or ldap_allow_plaintext")
  else
    run! l_open (url c) (secure || start_tls c) (nonempty (bind_dn c)) (nonempty (bind_password c));
    run! (if negb secure && start_tls c then l_start_tls else ret tt);
    l_bind.

(** ** Searching *)

Definition PAGE_SIZE : Z := 500.

Definition is_entry (en : entry) : bool :=
  match en_type en with Some kind => String.eqb kind "searchResEntry" | None => false end.

Definition _search_blocking (c : Connector) (base search_filter : string) (attrs : list string) (limit : nat) : B (list entry) :=
  run! connect c;
  let! entries := unbinding (l_paged_search base search_filter attrs PAGE_SIZE) in
  let found := List.filter is_entry entries in
  ret (match limit with O => found | _ => firstn limit found end).

(** ** Writing *)

Record WriteResult : Type := { wr_dn : string; wr_changed : bool; wr_detail : string }.

(** [_read]: one entry by name. *)
Definition _read (dn : string) (attrs : list string) : B (option attributes) := fun d =>
  match l_search dn "(objectClass=*)" attrs d with
  | (d', Err (LDAPNoSuchObjectResult _)) => (d', Ok None)
  | (d', Err e) => (d', Err e)
  | (d', Ok (true, en :: _)) => (d', Ok (Some (default no_attributes (en_attributes en))))
  | (d', Ok _) => (d', Ok None)
  end.

Definition _exists (dn : string) : B bool :=
  let! found := _read dn ["1.1"] in
  ret (match found with Some _ => true | None => false end).

Definition _people (people_ou base_dn : string) : string := people_ou +:+ "," +:+ base_dn.

Definition dn_for (people uid : string) : string := "uid=" +:+ LdapText.escape_dn uid +:+ "," +:+ people.

(** [_attributes]; nothing where it raises [IndexError]. *)
Definition attributes_for (p : DirectoryProfile) (spec : Orchestrator.PersonSpec) : option (list (string * string)) :=
  let a := Dict.set [("cn", Py.strip (Orchestrator.ps_given_name spec +:+ " " +:+ Orchestrator.ps_surname spec))]
    (surname p) (Orchestrator.ps_surname spec) in
  let a := Dict.set a (given_name p) (Orchestrator.ps_given_name spec) in
  let a := if bool_decide ("uid" ∈ login_attributes p) || String.eqb (name p) "openldap"
    then Dict.set a "uid" (Orchestrator.ps_uid spec) else a in
  let a := match Orchestrator.ps_mail spec with
    | Some m => if String.eqb m "" then a else Dict.set a (mail p) m | None => a end in
  let a := match Orchestrator.ps_display_name spec with
    | Some n => if String.eqb n "" then a else Dict.set a (display_name p) n | None => a end in
  match Orchestrator.ps_principal_name spec with
  | Some n => if String.eqb n "" then Some a else (fun login => Dict.set a login n) <$> head (login_attributes p)
  | None => Some a
  end.

(** Adding an entry somebody else may have added in between. *)
Definition _add (dn : string) (classes : list string) (a : list (string * string)) : B WriteResult := fun d =>
  match l_add dn classes a d with
  | (d', Ok _) => (d', Ok {| wr_dn := dn; wr_changed := true; wr_detail := "created" |})
  | (d', Err (LDAPEntryAlreadyExistsResult _)) => (d', Ok {| wr_dn := dn; wr_changed := false; wr_detail := "created concurrently" |})
  | (d', Err e) => (d', Err e)
  end.

Definition _ensure_person_blocking (c : Connector) (p : DirectoryProfile) (people : string) (spec : Orchestrator.PersonSpec) : B WriteResult :=
  let dn := dn_for people (Orchestrator.ps_uid spec) in
  run! connect c;
  unbinding (
    let! present := _exists dn in
    if (present : bool) then ret {| wr_dn := dn; wr_changed := false; wr_detail := "already present" |}
    else match attributes_for p spec with
    | Some a => _add dn (create_object_classes p) a
    | None => throw (OtherException "tuple index out of range")
    end).

Definition sorted (l : list string) : list string := merge_sort String.le l.

(** The attributes a change would alter. *)
Definition differing (current : attributes) (changes : list (string * list string)) : list (string * list string) :=
  List.filter (fun nv => negb (bool_decide (sorted (_strings (current nv.1)) = sorted nv.2))) changes.

Definition not_in_directory {A} (dn : string) : B A := throw (DirectoryUnavailable (dn +:+ " is not in the directory")).

Definition _modify_blocking (c : Connector) (dn : string) (changes : list (string * list string)) : B WriteResult :=
  run! connect c;
  unbinding (
    let! current := _read dn changes.*1 in
    match current with
    | None => not_in_directory dn
    | Some current =>
        match differing current changes with
        | [] => ret {| wr_dn := dn; wr_changed := false; wr_detail := "already correct" |}
        | changed =>
            run! l_modify dn changed;
            ret {| wr_dn := dn; wr_changed := true; wr_detail := Py.join "," (sorted changed.*1) |}
        end
    end).

Definition _disabled_account_control (current : option attr) : option Z :=
  let existing := match _strings current with
    | v :: _ => default DEFAULT_ACCOUNT_CONTROL (int_of v)
    | [] => DEFAULT_ACCOUNT_CONTROL
    end in
  if (Z.land existing ACCOUNT_DISABLED_BIT =? 0)%Z then Some (Z.lor existing ACCOUNT_DISABLED_BIT) else None.

(** Whether the profile has a flag, which is then [disabling p]. *)
Definition has_flag (p : DirectoryProfile) : bool :=
  match disabled_flag p with Some flag => negb (String.eqb flag "") | None => false end.

Definition _disable_blocking (c : Connector) (p : DirectoryProfile) (dn : string) : B WriteResult :=
  run! connect c;
  unbinding (
    let attribute := disabling p in
    let written value :=
      run! l_modify dn [(attribute, [value])];
      ret {| wr_dn := dn; wr_changed := true; wr_detail := "disabled" |} in
    let! current := _read dn [attribute] in
    match current with
    | None => not_in_directory dn
    | Some current =>
        if has_flag p then
          match _disabled_account_control (current attribute) with
          | None => ret {| wr_dn := dn; wr_changed := false; wr_detail := "already disabled" |}
          | Some value => written (Py.str_of_Z value)
          end
        else match _strings (current attribute) with
        | _ :: _ => ret {| wr_dn := dn; wr_changed := false; wr_detail := "already locked" |}
        | [] => written LOCKED_FOREVER
        end
    end).

(** [_run]: whatever was raised becomes [DirectoryUnavailable]. *)
Definition awaited {A} (m : B A) (d : D) : D * result string A :=
  match m d with
  | (d', Ok a) => (d', Ok a)
  | (d', Err e) => (d', Err (message_of e))
  end.

Record DirectoryWriter : Type := {
  dw_profile : DirectoryProfile;
  dw_people : string;
  dw_connector : Connector;
}.

Definition ensure_person (w : DirectoryWriter) (spec : Orchestrator.PersonSpec) : D -> D * result string WriteResult :=
  awaited (_ensure_person_blocking (dw_connector w) (dw_profile w) (dw_people w) spec).
Definition modify (w : DirectoryWriter) (dn : string) (changes : list (string * list string)) : D -> D * result string WriteResult :=
  awaited (_modify_blocking (dw_connector w) dn changes).
Definition disable (w : DirectoryWriter) (dn : string) : D -> D * result string WriteResult :=
  awaited (_disable_blocking (dw_connector w) (dw_profile w) dn).

End blocking.

(** ** The client *)

Definition CACHE_TTL : Z := 900.
Definition CACHE_PREFIX : string := "directory:groups:".

Record DirectoryUser : Type := {
  u_dn : string;
  u_immutable_id : string;
  u_login : string;
  u_mail : option string;
  u_display_name : option string;
  u_given_name : option string;
  u_surname : option string;
  u_member_of : list string;
  u_disabled : bool;
}.

(** A frozenset is the list of its elements: what the cache holds need not be strings. *)
Record GroupResult : Type := {
  g_groups : list json;
  g_direct : list json;
  g_degraded : bool;
  g_truncated : bool;
}.

Record DirectoryClient : Type := {
  dc_profile : DirectoryProfile;
  dc_base_dn : string;
  dc_cache : bool;
  dc_connector : Connector;
}.

(** What the client raises: [DirectoryUnavailable], or anything else. *)
Inductive failure : Type := Unavailable (message : string) | Raised (e : exn).

(** [_disabled]. *)
Definition disabled_in (p : DirectoryProfile) (attrs : attributes) : bool :=
  if has_flag p then
    match _one attrs [disabling p] with
    | Some raw => match int_of raw with Some n => negb (Z.land n ACCOUNT_DISABLED_BIT =? 0)%Z | None => false end
    | None => false
    end
  else match _one attrs [lock_attribute p] with Some _ => true | None => false end.

Definition _to_user (p : DirectoryProfile) (en : entry) : DirectoryUser :=
  let attrs := default no_attributes (en_attributes en) in
  {| u_dn := en_dn en;
     u_immutable_id := default (en_dn en) (_one attrs [immutable_id p]);
     u_login := default "" (_one attrs (login_attributes p));
     u_mail := _one attrs [mail p];
     u_display_name := _one attrs [display_name p];
     u_given_name := _one attrs [given_name p];
     u_surname := _one attrs [surname p];
     u_member_of := _many attrs (member_of p);
     u_disabled := disabled_in p attrs |}.

(** [frozenset(document)]; nothing where it raises [TypeError].  Text is the set
    of its characters, an object of its keys. *)
Definition hashable (j : json) : bool := match j with JArr _ | JObj _ => false | _ => true end.
Definition frozen (j : json) : option (list json) :=
  match j with
  | JArr l => if forallb hashable l then Some l else None
  | JObj m => Some (JStr <$> m.*1)
  | JStr s => Some ((fun cp => JStr (Utf8.encode_cp cp)) <$> default [] (Utf8.decode s))
  | _ => None
  end.

(** [json.loads] of what the cache returned. *)
Definition document (v : scalar) : option json :=
  match v with
  | SJson j => Some j
  | SInt z => Some (JInt z)
  | SText s => JsonLoads.loads_text s
  end.

Section client.
Context {D R : Type} `{LdapServer D} `{RedisServer R}.

Record world : Type := { w_dir : D; w_redis : R }.

Definition M (A : Type) : Type := world -> world * result failure A.

(** One Redis program at the moment [now], and one call in the worker thread. *)
Definition redis {A} (now : moment) (p : prog A) : M A := fun w =>
  match run p (w_redis w) now with
  | (r, Ok a) => ({| w_dir := w_dir w; w_redis := r |}, Ok a)
  | (r, Err e) => ({| w_dir := w_dir w; w_redis := r |}, Err (Raised e))
  end.
Definition on_directory {A} (m : D -> D * result string A) : M A := fun w =>
  match m (w_dir w) with
  | (d, Ok a) => ({| w_dir := d; w_redis := w_redis w |}, Ok a)
  | (d, Err message) => ({| w_dir := d; w_redis := w_redis w |}, Err (Unavailable message))
  end.

Definition mret {A} (a : A) : M A := fun w => (w, Ok a).
Definition mthrow {A} (e : failure) : M A := fun w => (w, Err e).
Definition mseq {A C} (m : M A) (k : A -> M C) : M C := fun w =>
  match m w with
  | (w', Ok a) => k a w'
  | (w', Err e) => (w', Err e)
  end.
Notation "'let!' x := m 'in' k" := (mseq m (fun x => k)) (at level 10, x name, m at level 200, k at level 200).

Context (c : DirectoryClient).

Definition _search (search_filter : string) (attrs : list string) (limit : nat) : M (list entry) :=
  on_directory (awaited (_search_blocking (dc_connector c) (dc_base_dn c) search_filter attrs limit)).

Definition find_user (login : string) : M (option DirectoryUser) :=
  match user_filter (dc_profile c) login with
  | None => mthrow (Raised ValueError)
  | Some search_filter =>
      let! entries := _search search_filter (wanted (dc_profile c)) 0 in
      mret (match entries with [en] => Some (_to_user (dc_profile c) en) | _ => None end)
  end.

Definition healthy : M bool := fun w =>
  match _search "(objectClass=*)" ["1.1"] 1 w with
  | (w', Ok _) => (w', Ok true)
  | (w', Err (Unavailable _)) => (w', Ok false)
  | (w', Err e) => (w', Err e)
  end.

(** The groups that list a name among their members. *)
Definition _parents_of (group_dn : string) : M (list string) :=
  match group_members_filter (dc_profile c) group_dn with
  | None => mthrow (Raised ValueError)
  | Some search_filter => let! entries := _search search_filter ["1.1"] 0 in mret (en_dn <$> entries)
  end.

Definition _direct_groups (user : DirectoryUser) : M (list string) :=
  match u_member_of user with [] => _parents_of (u_dn user) | member_of => mret member_of end.

Definition _cached (now : moment) (key : string) : M (option (list json)) :=
  if negb (dc_cache c) then mret None
  else let! raw := redis now (redis_get (CACHE_PREFIX +:+ key)) in mret (v ← raw; j ← document v; frozen j).

Definition _remember (now : moment) (key : string) (e : GroupWalk.Expansion) : M unit :=
  if negb (dc_cache c) || GroupWalk.truncated e then mret tt
  else redis now (redis_set (CACHE_PREFIX +:+ key) (SJson (JArr (JStr <$> sorted (elements (GroupWalk.groups e))))) CACHE_TTL).

Definition expansion_of (user : DirectoryUser) : M GroupWalk.Expansion :=
  let! direct := _direct_groups user in
  GroupWalk.expand _parents_of direct GroupWalk.MAX_DEPTH GroupWalk.MAX_GROUPS.

Definition groups_for (now : moment) (user : DirectoryUser) : M GroupResult := fun w =>
  match expansion_of user w with
  | (w', Ok e) =>
      (let! _ := _remember now (u_immutable_id user) e in
       mret {| g_groups := JStr <$> elements (GroupWalk.groups e); g_direct := JStr <$> elements (GroupWalk.direct e);
               g_degraded := false; g_truncated := GroupWalk.truncated e |}) w'
  | (w', Err (Unavailable message)) =>
      (let! cached := _cached now (u_immutable_id user) in
       match cached with
       | None => mthrow (Unavailable message)
       | Some cached => mret {| g_groups := cached; g_direct := cached; g_degraded := true; g_truncated := false |}
       end) w'
  | (w', Err e) => (w', Err e)
  end.

(** ** The directory as a downstream system *)

Definition target_disable (writer : DirectoryWriter) (login : string) : M unit :=
  let! user := find_user login in
  match user with
  | None => mret tt
  | Some user => let! _ := on_directory (disable writer (u_dn user)) in mret tt
  end.

Definition target_provision (writer : DirectoryWriter) (spec : Orchestrator.PersonSpec) : M unit :=
  let! _ := on_directory (ensure_person writer spec) in mret tt.

Definition LdapTarget (writer : DirectoryWriter) : Orchestrator.ProvisioningTarget (T := world) (X := failure) := {|
  Orchestrator.name := "ldap";
  Orchestrator.provision := target_provision writer;
  Orchestrator.disable := target_disable writer;
|}.

End client.

Arguments world D R : clear implicits.

End Directory.
