(* ===== verification/DirectoryLaws.v ===== *)
(** * What the directory integration promises

    The laws of an LDAP library and server, a tree that satisfies them, and what
    the client, the writer and the lifecycle target of [Directory] do against any
    server that does: who a login finds, what disabling and provisioning leave
    behind, which groups a person is in, and what an outage is answered with. *)

From stdpp Require Import pretty.
From S2P Require Import Prelude PyStr Json Dict JsonText JsonLoads Errors Redis Orchestrator LdapText GroupWalk.
From S2P Require Import Directory.

Module DirectoryLaws.
Import Directory.

(** ** What the library and the server promise *)

(** Answers about an attribute that the code cannot tell apart: an attribute that
    is absent may be sent as an empty list. *)
Definition same_values (a b : option attr) : Prop := first_value a = first_value b /\ listed a = listed b.

#[global] Instance same_values_equiv : Equivalence same_values.
Proof.
  unfold same_values. split; [done|intros a b [H1 H2]; split; congruence|intros a b c [H1 H2] [H3 H4]; split; congruence].
Qed.
#[global] Instance first_value_proper : Proper (same_values ==> eq) first_value.
Proof. by intros a b [-> _]. Qed.
#[global] Instance listed_proper : Proper (same_values ==> eq) listed.
Proof. by intros a b [_ ->]. Qed.
#[global] Instance strings_proper : Proper (same_values ==> eq) _strings.
Proof. intros a b Hab. unfold _strings. by rewrite Hab. Qed.

(** How a value written as text is sent. *)
Definition reads_as (a : option attr) (value : string) : Prop :=
  exists v, (a = Some (One v) \/ a = Some (Many [v])) /\ blank v = false /\ text_of v = value.

(** Whether an entry satisfies a filter, for an equality rule. *)
Section satisfies.
Context (equal : string -> string -> attr -> bool) (e : attributes).
Definition holds (a v : string) : bool := match e a with Some x => equal a v x | None => false end.
Fixpoint satisfies (f : LdapText.assertion) : bool :=
  match f with
  | LdapText.Present a => match e a with Some _ => true | None => false end
  | LdapText.Equal a v => holds a v
  | LdapText.All l => forallb satisfies l
  | LdapText.Any l => existsb satisfies l
  end.
End satisfies.

(** The tree, while nobody else writes to it: [l_entry] is what is held under a
    name and [l_name] the spelling the server sends it in.  [l_equal] is the
    equality rule of an attribute and [l_under] the scope of a search. *)
Class LdapTree (D : Type) : Type := {
  l_entry : D -> string -> option attributes;
  l_name : D -> string -> string;
  l_under : string -> string -> bool;
  l_equal : string -> string -> attr -> bool;
}.

Section tree.
Context {D : Type} `{LdapTree D}.

Definition same_tree (d d' : D) : Prop := forall dn, l_entry d' dn = l_entry d dn /\ l_name d' dn = l_name d dn.

Definition matching (d : D) (base : string) (f : LdapText.assertion) (dn : string) : Prop :=
  l_name d dn = dn /\ l_under base dn = true /\ exists e, l_entry d dn = Some e /\ satisfies l_equal e f = true.

(** Of an entry sent, the attributes asked for are those of the tree. *)
Definition shows (d : D) (attrs : list string) (en : entry) : Prop :=
  exists e sent, l_entry d (en_dn en) = Some e /\ en_attributes en = Some sent /\ forall n, n ∈ attrs -> same_values (sent n) (e n).

#[global] Instance same_tree_preorder : PreOrder same_tree.
Proof. split; [by intros d dn|]. intros a b c H1 H2 dn. destruct (H1 dn), (H2 dn). split; congruence. Qed.
End tree.

Class LdapLaws (D : Type) `{LdapServer D, LdapTree D} : Prop := {
  (** Connecting, searching and closing leave the tree alone. *)
  l_opened u tls user password d : same_tree d (l_open u tls user password d).1;
  l_started d : same_tree d (l_start_tls d).1;
  l_bound d : same_tree d (l_bind d).1;
  l_unbound d : same_tree d (l_unbind d).1;
  l_searched base text attrs size d : same_tree d (l_paged_search base text attrs size d).1;
  l_read dn text attrs d : same_tree d (l_search dn text attrs d).1;
  (** A paged search that succeeds sends every match once. *)
  l_found base text attrs size d entries f :
    (l_paged_search base text attrs size d).2 = Ok entries -> LdapText.parse text = Some f ->
    NoDup (en_dn <$> List.filter is_entry entries) /\
    (forall dn, dn ∈ en_dn <$> List.filter is_entry entries <-> matching d base f dn) /\
    Forall (shows d attrs) (List.filter is_entry entries);
  (** A base-scoped search for any class says what is there. *)
  l_base dn attrs d r : (l_search dn "(objectClass=*)" attrs d).2 = r ->
    match r with
    | Ok (true, en :: _) =>
        exists e, l_entry d dn = Some e /\ forall n, n ∈ attrs -> same_values (default no_attributes (en_attributes en) n) (e n)
    | Ok _ | Err (LDAPNoSuchObjectResult _) => l_entry d dn = None
    | Err _ => True
    end;
  (** A change of one attribute to one value that succeeds did that and nothing else. *)
  l_modified dn a value d e : value <> "" -> (l_modify dn [(a, [value])] d).2 = Ok tt -> l_entry d dn = Some e ->
    let d' := (l_modify dn [(a, [value])] d).1 in
    (exists e', l_entry d' dn = Some e' /\ reads_as (e' a) value /\ forall n, n <> a -> e' n = e n) /\
    (forall dn', l_name d' dn' = l_name d dn') /\
    (forall dn', l_name d dn' <> l_name d dn -> l_entry d' dn' = l_entry d dn');
  (** An addition that succeeds adds one entry; one that is refused because the
      entry exists adds none. *)
  l_added dn classes a d : (l_add dn classes a d).2 = Ok tt -> let d' := (l_add dn classes a d).1 in
    (exists e', l_entry d' dn = Some e') /\
    (forall dn', l_name d' dn' <> l_name d' dn -> l_entry d' dn' = l_entry d dn');
  l_exists dn classes a d m : (l_add dn classes a d).2 = Err (LDAPEntryAlreadyExistsResult m) ->
    same_tree d (l_add dn classes a d).1 /\ l_entry d dn <> None;
}.

(** ** Reading what was sent *)

Section reading.
Context (sent e : attributes) (names : list string) (Hs : forall n, n ∈ names -> same_values (sent n) (e n)).

Lemma one_same l : (forall n, n ∈ l -> n ∈ names) -> _one sent l = _one e l.
Proof using Hs.
  induction l as [|n l IH]; [done|]. intros Hl. cbn [_one]. destruct (Hs n (Hl n ltac:(constructor))) as [-> _].
  rewrite IH; [done|]. intros m Hm. apply Hl. by constructor.
Qed.

Lemma many_same n : n ∈ names -> _many sent n = _many e n.
Proof using Hs. intros Hn. unfold _many. by rewrite (Hs n). Qed.
End reading.

Lemma wanted_spec p n : n ∈ wanted p <-> n ∈ [immutable_id p; member_of p; mail p; display_name p; given_name p; surname p]
  \/ n ∈ login_attributes p \/ n = disabling p.
Proof. unfold wanted. rewrite (proj2 (GroupWalk.unique_spec _)), !elem_of_app, list_elem_of_singleton. tauto. Qed.

Lemma unflagged p : has_flag p = false -> disabling p = lock_attribute p.
Proof. unfold has_flag, disabling. destruct (disabled_flag p) as [flag|]; [|done]. intros ->%negb_false_iff. done. Qed.

(** A person read from what was sent is the person in the tree. *)
Lemma to_user_same p dn kind kind' sent e : (forall n, n ∈ wanted p -> same_values (sent n) (e n)) ->
  _to_user p {| en_type := kind; en_dn := dn; en_attributes := Some sent |} =
  _to_user p {| en_type := kind'; en_dn := dn; en_attributes := Some e |}.
Proof.
  intros Hs. pose proof (one_same sent e (wanted p) Hs) as Ho.
  assert (forall n, n ∈ [immutable_id p; member_of p; mail p; display_name p; given_name p; surname p] -> n ∈ wanted p) as Hw
    by (intros n Hn; apply wanted_spec; by left).
  assert (forall n, n ∈ wanted p -> _one sent [n] = _one e [n]) as Ho1 by (intros n Hn; apply Ho; by intros m ->%list_elem_of_singleton).
  assert (disabled_in p sent = disabled_in p e) as Hd.
  { assert (_one sent [disabling p] = _one e [disabling p]) as E by (apply Ho1, wanted_spec; tauto).
    unfold disabled_in. destruct (has_flag p) eqn:Hf; [by rewrite E|].
    rewrite (unflagged p Hf) in E. by rewrite E. }
  unfold _to_user. cbn [en_attributes en_dn].
  change (default no_attributes (Some sent)) with sent. change (default no_attributes (Some e)) with e. rewrite Hd, (many_same sent e (wanted p) Hs) by (apply Hw; set_solver).
  rewrite !Ho1 by (apply Hw; set_solver). rewrite (Ho (login_attributes p)); [done|]. intros n Hn. apply wanted_spec. tauto.
Qed.

(** ** Numbers read back *)

Lemma digits_read s : forall acc after, Py.sforall JsonText.is_digit s = true -> (s = "" -> after = true) -> int_digits after acc s = Some (JsonLoads.value_of acc s).
Proof.
  induction s as [|c s IH]; intros acc after Hs Ha; [by rewrite Ha|]. cbn [Py.sforall] in Hs. apply andb_true_iff in Hs as [Hc Hs].
  cbn [int_digits JsonLoads.value_of]. rewrite Hc. rewrite IH by done. done.
Qed.

Lemma strip_unspaced s : Py.sforall (fun c => negb (Py.is_space c)) s = true -> Py.strip s = s.
Proof.
  assert (forall t, Py.sforall (fun c => negb (Py.is_space c)) t = true -> Py.unpadded t = true) as Hu
    by (intros [|c t]; [done|]; cbn; by intros [? _]%andb_true_iff).
  intros Hs. apply Py.strip_fix; apply Hu; [done|by rewrite Py.sforall_srev].
Qed.

Lemma digits_unspaced s : Py.sforall JsonText.is_digit s = true -> Py.sforall (fun c => negb (Py.is_space c)) s = true.
Proof.
  induction s as [|c s IH]; [done|]. cbn [Py.sforall]. intros [Hc Hs]%andb_true_iff. rewrite IH, andb_true_r by done.
  revert Hc. clear. by destruct c as [[] [] [] [] [] [] [] []].
Qed.

Lemma str_of_Z_ne z : Py.str_of_Z z <> "".
Proof. destruct (JsonText.str_of_Z_first z "") as (c & s & E & _). rewrite Py.app_nil_r in E. by rewrite E. Qed.

Lemma int_of_str z : int_of (Py.str_of_Z z) = Some z.
Proof.
  pose proof (JsonText.pretty_N_digits (Z.abs_N z)) as Hd. pose proof (JsonText.pretty_N_nonempty (Z.abs_N z)) as Hn.
  assert (int_digits false 0 (pretty (Z.abs_N z)) = Some (Z.of_N (Z.abs_N z))) as Hi by (rewrite digits_read by done; by rewrite JsonLoads.value_of_pretty).
  unfold int_of. rewrite JsonText.str_of_Z_shape, strip_unspaced.
  2:{ rewrite Py.sforall_app, (digits_unspaced _ Hd). by destruct (z <? 0)%Z. }
  destruct (Z.ltb_spec z 0).
  - rewrite Py.app_String, Py.app_nil_l. change (Ascii.eqb "-" "-") with true. cbv iota. rewrite Hi. cbn. f_equal. lia.
  - rewrite Py.app_nil_l. destruct (pretty (Z.abs_N z)) as [|c s]; [done|].
    assert (Ascii.eqb c "-" = false /\ Ascii.eqb c "+" = false) as [-> ->].
    { cbn [Py.sforall] in Hd. apply andb_true_iff in Hd as [Hc _]. revert Hc. clear. by destruct c as [[] [] [] [] [] [] [] []]. }
    rewrite Hi. f_equal. lia.
Qed.

(** ** Searching *)

Section searching.
Context {D : Type} `{HL : LdapLaws D}.

Lemma tree_bind {A C} (m : B A) (k : A -> B C) (d : D) :
  same_tree d (m d).1 -> (forall a d', same_tree d' (k a d').1) -> same_tree d (bind m k d).1.
Proof. intros Hm Hk. unfold bind. destruct (m d) as [d' [a|e]]; [|done]. etransitivity; [exact Hm|apply Hk]. Qed.

Lemma tree_unbinding {A} (m : B A) (d : D) : same_tree d (unbinding m d).1 <-> same_tree d (m d).1.
Proof.
  unfold unbinding. destruct (m d) as [d1 r]. cbn [fst]. pose proof (l_unbound d1) as Hu. destruct (l_unbind d1) as [d2 [[]|e]]; cbn [fst] in *.
  - split; intros Hs dn; destruct (Hs dn), (Hu dn); split; congruence.
  - split; intros Hs dn; destruct (Hs dn), (Hu dn); split; congruence.
Qed.

Lemma tree_connect c (d : D) : same_tree d (connect c d).1.
Proof.
  unfold connect. cbv zeta. destruct (_ && negb (allow_plaintext c)); [reflexivity|]. apply tree_bind; [apply l_opened|]. intros _ d1. apply tree_bind; [|intros _; apply l_bound].
  destruct (negb _ && start_tls c); [apply l_started|reflexivity].
Qed.

Lemma tree_search c base text attrs limit (d : D) : same_tree d (_search_blocking c base text attrs limit d).1.
Proof.
  unfold _search_blocking. apply tree_bind; [apply tree_connect|]. intros _ d1. apply tree_bind; [|reflexivity].
  apply tree_unbinding, l_searched.
Qed.

Lemma matching_same base f d d' : same_tree d d' -> forall dn, matching d' base f dn <-> matching d base f dn.
Proof. intros Hs dn. unfold matching. destruct (Hs dn) as [-> ->]. done. Qed.

Lemma shows_same d d' attrs en : same_tree d d' -> shows d' attrs en -> shows d attrs en.
Proof. intros Hs (e & sent & He & Hr). exists e, sent. destruct (Hs (en_dn en)) as [<- _]. done. Qed.

(** A search that succeeds sends every match once, with what was asked for. *)
Lemma search_found c base f attrs (d : D) entries : LdapText.well_named f = true ->
  (_search_blocking c base (LdapText.render f) attrs 0 d).2 = Ok entries ->
  NoDup (en_dn <$> entries) /\ (forall dn, dn ∈ en_dn <$> entries <-> matching d base f dn) /\ Forall (shows d attrs) entries.
Proof.
  intros Hf. unfold _search_blocking, bind at 1. pose proof (tree_connect c d) as Hc. destruct (connect c d) as [d1 [[]|e]]; [|done].
  cbn [fst] in Hc. unfold bind, unbinding.
  pose proof (l_found base (LdapText.render f) attrs PAGE_SIZE d1) as Hl.
  destruct (l_paged_search base (LdapText.render f) attrs PAGE_SIZE d1) as [d2 [found|e]]; [|destruct (l_unbind d2) as [d3 [[]|]]; done].
  specialize (Hl found f eq_refl (LdapText.parse_render f Hf)). destruct Hl as (F1 & F2 & F3).
  destruct (l_unbind d2) as [d3 [[]|]]; [|done]. cbn [ret snd]. intros [= <-]. split_and!; [done| |].
  - intros dn. rewrite F2. by apply matching_same.
  - eapply Forall_impl; [exact F3|]. intros en. by apply shows_same.
Qed.

(** ** Finding a person *)

(** The names a profile gives can stand in a filter. *)
Definition usable (p : DirectoryProfile) : Prop :=
  login_attributes p <> [] /\ forallb LdapText.attribute_name (member p :: login_attributes p) = true.

Definition login_assertion (p : DirectoryProfile) (login : string) : LdapText.assertion :=
  LdapText.All [LdapText.Equal "objectClass" (user_object_class p); LdapText.among (login_attributes p) login].

(** Who answers to a login: a person below the base, one of whose login
    attributes equals it by the rule of the server. *)
Definition answers_to (p : DirectoryProfile) (base : string) (d : D) (login dn : string) : Prop :=
  l_name d dn = dn /\ l_under base dn = true /\ exists e, l_entry d dn = Some e /\
    holds l_equal e "objectClass" (user_object_class p) = true /\
    exists a, a ∈ login_attributes p /\ holds l_equal e a login = true.

Lemma satisfies_among e names value : names <> [] ->
  satisfies l_equal e (LdapText.among names value) = true <-> exists a, a ∈ names /\ holds l_equal e a value = true.
Proof.
  intros Hne. destruct names as [|a [|b l]]; [done| |].
  - cbn [LdapText.among satisfies]. split; [intros Ha; exists a; split; [constructor|done]|by intros (x & ->%list_elem_of_singleton & Hx)].
  - cbn [LdapText.among satisfies]. rewrite existsb_exists. split.
    + intros (f & Hf & Hs). apply list_elem_of_In, list_elem_of_fmap in Hf as (x & -> & Hx). by exists x.
    + intros (x & Hx & Hs). exists (LdapText.Equal x value). split; [|done]. apply list_elem_of_In, list_elem_of_fmap. by exists x.
Qed.

Lemma matching_login p base d login dn : usable p -> matching d base (login_assertion p login) dn <-> answers_to p base d login dn.
Proof.
  intros [Hne _]. unfold matching, answers_to, login_assertion. cbn [satisfies forallb].
  setoid_rewrite andb_true_iff. setoid_rewrite andb_true_r. by setoid_rewrite (satisfies_among _ _ login Hne).
Qed.

Lemma user_filter_renders p login : usable p ->
  user_filter p login = Some (LdapText.render (login_assertion p login)) /\ LdapText.well_named (login_assertion p login) = true.
Proof.
  intros [Hne Hn]. unfold user_filter, login_assertion. rewrite (LdapText.any_of_renders _ _ Hne). split.
  - exact (LdapText.all_of_renders (LdapText.Equal "objectClass" (user_object_class p)) _).
  - cbn [forallb] in Hn. apply andb_true_iff in Hn as [_ Hn]. revert Hn Hne. clear. cbn [LdapText.well_named forallb]. rewrite andb_true_r.
    change (LdapText.attribute_name "objectClass") with true. cbn [andb].
    destruct (login_attributes p) as [|a [|b l]]; [done|cbn; rewrite andb_true_r; by intros|]. intros Hn _. cbn [LdapText.among LdapText.well_named].
    induction (a :: b :: l) as [|x l' IH]; [done|]. cbn [forallb fmap list_fmap] in *. apply andb_true_iff in Hn as [Hx Hl].
    cbn [LdapText.well_named]. by rewrite Hx, IH.
Qed.

Context {R : Type} `{RedisServer R}.

Lemma search_world c text attrs limit (w : world D R) :
  same_tree (w_dir w) (w_dir (_search c text attrs limit w).1) /\ w_redis (_search c text attrs limit w).1 = w_redis w /\
  forall e, (_search c text attrs limit w).2 = Err e -> exists m, e = Unavailable m.
Proof.
  unfold _search, on_directory, awaited. pose proof (tree_search (dc_connector c) (dc_base_dn c) text attrs limit (w_dir w)) as Ht.
  destruct (_search_blocking _ _ _ _ _ _) as [d [entries|x]]; cbn [fst snd w_dir w_redis] in *; (split_and!; [done|done|]); [done|].
  intros e [= <-]. by eexists.
Qed.

Lemma search_world_found c f attrs (w : world D R) entries : LdapText.well_named f = true ->
  (_search c (LdapText.render f) attrs 0 w).2 = Ok entries ->
  NoDup (en_dn <$> entries) /\ (forall dn, dn ∈ en_dn <$> entries <-> matching (w_dir w) (dc_base_dn c) f dn) /\
  Forall (shows (w_dir w) attrs) entries.
Proof.
  intros Hf. unfold _search, on_directory, awaited.
  pose proof (search_found (dc_connector c) (dc_base_dn c) f attrs (w_dir w)) as Hs.
  destruct (_search_blocking _ _ _ _ _ _) as [d [found|x]]; [|done]. cbn [snd] in *. intros [= <-]. by apply Hs.
Qed.

Lemma find_user_spec c login (w : world D R) : usable (dc_profile c) ->
  let owner := answers_to (dc_profile c) (dc_base_dn c) (w_dir w) login in
  let '(w', r) := find_user c login w in
  same_tree (w_dir w) (w_dir w') /\ w_redis w' = w_redis w /\
  match r with
  | Ok (Some u) => owner (u_dn u) /\ (forall dn, owner dn -> dn = u_dn u) /\
      exists e, l_entry (w_dir w) (u_dn u) = Some e /\
        u = _to_user (dc_profile c) {| en_type := Some "searchResEntry"; en_dn := u_dn u; en_attributes := Some e |}
  | Ok None => ~ exists dn, owner dn /\ forall dn', owner dn' -> dn' = dn
  | Err e => exists message, e = Unavailable message
  end.
Proof.
  intros Hp owner. unfold find_user. destruct (user_filter_renders (dc_profile c) login Hp) as [-> Hw]. unfold mseq.
  pose proof (search_world c (LdapText.render (login_assertion (dc_profile c) login)) (wanted (dc_profile c)) 0 w) as (Ht & Hr & He).
  pose proof (fun entries => search_world_found c _ (wanted (dc_profile c)) w entries Hw) as Hf.
  destruct (_search c _ _ 0 w) as [w' [entries|x]]; cbn [fst snd] in *; [|split_and!; [done|done|by apply He]].
  destruct (Hf entries eq_refl) as (Hnd & Hm & Hsh). split_and!; [done|done|].
  assert (forall dn, dn ∈ en_dn <$> entries <-> owner dn) as Ho by (intros dn; rewrite Hm; by apply matching_login).
  destruct entries as [|en [|en' entries]]; cbn [mret].
  - intros (dn & Hdn & _). apply Ho in Hdn. by apply elem_of_nil in Hdn.
  - cbn [_to_user u_dn]. split_and!.
    + apply Ho. constructor.
    + intros dn Hdn. apply Ho in Hdn. by apply list_elem_of_singleton in Hdn.
    + apply Forall_inv in Hsh. destruct Hsh as (e & sent & Hen & Hsent & Hv). exists e. split; [done|].
      destruct en as [kind dn attrs]. cbn [en_dn en_attributes] in *. subst attrs. by apply to_user_same.
  - intros (dn & _ & Hall). cbn [fmap list_fmap] in *. apply NoDup_cons in Hnd as [Hni _]. apply Hni.
    rewrite (Hall (en_dn en)) by (apply Ho; constructor). rewrite (Hall (en_dn en')) by (apply Ho; constructor; constructor). constructor.
Qed.

(** ** Disabling *)

Lemma strings_read a v : reads_as a v -> _strings a = [v].
Proof.
  intros (x & Ha & Hb & <-). assert (raw_blank x = false) as Hr by (destruct x; done).
  assert (listed a = [x]) as El by (destruct Ha as [-> | ->]; [by destruct x|done]). unfold _strings. rewrite El. cbn [List.filter]. by rewrite Hr.
Qed.

Lemma one_read e n v : reads_as (e n) v -> _one e [n] = Some v.
Proof. intros (x & Ha & Hb & <-). cbn [_one]. assert (first_value (e n) = x) as -> by (by destruct Ha as [-> | ->]). by rewrite Hb. Qed.

(** An attribute none of whose values is empty reads the same both ways. *)
Lemma one_strings e n : Forall (fun v => blank v = false) (listed (e n)) -> _one e [n] = head (_strings (e n)).
Proof.
  intros Hl. cbn [_one]. unfold _strings. destruct (e n) as [[v|[|v l]]|]; [|done| |done].
  - cbn [first_value]. destruct (blank v) eqn:Hb; [|assert (raw_blank v = false) as Hr by (destruct v; done); destruct v; cbn [listed List.filter] in *; by rewrite ?Hr].
    destruct v; try discriminate Hb; [| |done]; cbn [listed] in Hl; apply Forall_inv in Hl; congruence.
  - cbn [first_value listed] in *. apply Forall_inv in Hl as Hb. rewrite Hb. assert (raw_blank v = false) as Hr by (destruct v; done).
    cbn [List.filter]. by rewrite Hr.
Qed.

(** The number of the account's flags, as the writer reads it. *)
Definition flags (p : DirectoryProfile) (e : attributes) : Z :=
  match _one e [disabling p] with Some raw => default DEFAULT_ACCOUNT_CONTROL (int_of raw) | None => DEFAULT_ACCOUNT_CONTROL end.

Lemma bit_set n : (Z.land (Z.lor n ACCOUNT_DISABLED_BIT) ACCOUNT_DISABLED_BIT =? 0)%Z = false.
Proof.
  apply Z.eqb_neq. intros E. assert (Z.testbit (Z.land (Z.lor n 2) 2) 1 = Z.testbit 0 1) as E' by (by rewrite <- E).
  rewrite Z.land_spec, Z.lor_spec in E'. change (Z.testbit 2 1) with true in E'. rewrite orb_true_r in E'. done.
Qed.

Lemma other_bits n k : (0 <= k)%Z -> k <> 1%Z -> Z.testbit (Z.lor n ACCOUNT_DISABLED_BIT) k = Z.testbit n k.
Proof.
  intros Hk Hn. rewrite Z.lor_spec. assert (Z.testbit (2 ^ 1) k = false) as E by (apply Z.pow2_bits_false; lia).
  change (2 ^ 1)%Z with ACCOUNT_DISABLED_BIT in E. rewrite E. apply orb_false_r.
Qed.

Lemma read_spec dn attrs (d : D) : same_tree d (_read dn attrs d).1 /\
  match (_read dn attrs d).2 with
  | Ok (Some current) => exists e, l_entry d dn = Some e /\ forall n, n ∈ attrs -> same_values (current n) (e n)
  | Ok None => l_entry d dn = None
  | Err _ => True
  end.
Proof.
  unfold _read. pose proof (l_read dn "(objectClass=*)" attrs d) as Ht. pose proof (l_base dn attrs d _ eq_refl) as Hb.
  destruct (l_search dn "(objectClass=*)" attrs d) as [d' [[[] [|en l]]|[]]]; cbn [fst snd] in *; done.
Qed.

(** What disabling left of an entry. *)
Record disabled_from (p : DirectoryProfile) (e e' : attributes) : Prop := {
  df_disabled : disabled_in p e' = true;
  df_others : forall n, n <> disabling p -> e' n = e n;
  df_bits : has_flag p = true -> exists n, (raw ← _one e' [disabling p]; int_of raw) = Some n /\
    forall k, (0 <= k)%Z -> k <> 1%Z -> Z.testbit n k = Z.testbit (flags p e) k;
}.

Lemma flagged_already p e : has_flag p = true -> Forall (fun v => blank v = false) (listed (e (disabling p))) ->
  _disabled_account_control (e (disabling p)) = None -> disabled_from p e e.
Proof.
  intros Hf Hs. unfold _disabled_account_control. pose proof (one_strings e (disabling p) Hs) as Ho.
  destruct (_strings (e (disabling p))) as [|x xs]; [done|]. cbn [head] in Ho.
  destruct (int_of x) as [n|] eqn:Hn; [|done]. change (default DEFAULT_ACCOUNT_CONTROL (Some n)) with n.
  destruct (Z.land n ACCOUNT_DISABLED_BIT =? 0)%Z eqn:Hb; [done|]. intros _. split.
  - unfold disabled_in. by rewrite Hf, Ho, Hn, Hb.
  - done.
  - intros _. exists n. rewrite Ho. split; [exact Hn|]. intros k _ _. unfold flags. by rewrite Ho, Hn.
Qed.

Lemma flagged_now p e e' value : has_flag p = true -> Forall (fun v => blank v = false) (listed (e (disabling p))) ->
  _disabled_account_control (e (disabling p)) = Some value -> reads_as (e' (disabling p)) (Py.str_of_Z value) ->
  (forall n, n <> disabling p -> e' n = e n) -> disabled_from p e e'.
Proof.
  intros Hf Hs Hc Hr Hn. apply one_read in Hr. pose proof (one_strings e (disabling p) Hs) as Ho.
  assert (value = Z.lor (flags p e) ACCOUNT_DISABLED_BIT) as ->.
  { unfold flags. rewrite Ho. unfold _disabled_account_control in Hc. destruct (_strings (e (disabling p))) as [|x xs]; cbn [head].
    - by injection Hc.
    - destruct (_ =? 0)%Z; [by injection Hc|done]. }
  split.
  - unfold disabled_in. by rewrite Hf, Hr, int_of_str, bit_set.
  - exact Hn.
  - intros _. exists (Z.lor (flags p e) ACCOUNT_DISABLED_BIT). rewrite Hr. split; [apply int_of_str|]. intros k. apply other_bits.
Qed.

Lemma locked p e e' : has_flag p = false -> (exists v, _one e' [disabling p] = Some v) ->
  (forall n, n <> disabling p -> e' n = e n) -> disabled_from p e e'.
Proof.
  intros Hf [v Hv] Hn. split; [|exact Hn|congruence]. unfold disabled_in. rewrite Hf. rewrite (unflagged p Hf) in Hv. by rewrite Hv.
Qed.

(** One entry changed and nothing else. *)
Definition only_entry (d d' : D) (dn : string) : Prop :=
  (forall dn', l_name d' dn' = l_name d dn') /\ (forall dn', l_name d dn' <> l_name d dn -> l_entry d' dn' = l_entry d dn').

Lemma same_only d d' dn : same_tree d d' -> only_entry d d' dn.
Proof. intros Hs. split; intros dn'; [apply Hs|intros _; apply Hs]. Qed.

Lemma only_same d1 d2 d3 d4 dn : same_tree d1 d2 -> only_entry d2 d3 dn -> same_tree d3 d4 -> only_entry d1 d4 dn.
Proof.
  intros H12 [Hn Hf] H34. split; intros dn'.
  - destruct (H12 dn'), (H34 dn'). rewrite <- (proj2 (H12 dn')), <- Hn. done.
  - intros Hne. destruct (H12 dn') as [E1 N1], (H34 dn') as [E2 _], (H12 dn) as [_ N2]. rewrite E2, Hf; congruence.
Qed.

Lemma unbinding_ok {A} (m : B A) (d : D) a : (unbinding m d).2 = Ok a -> (m d).2 = Ok a /\ same_tree (m d).1 (unbinding m d).1.
Proof.
  unfold unbinding. destruct (m d) as [d1 r]. pose proof (l_unbound d1) as Hu. destruct (l_unbind d1) as [d2 [[]|e]]; [|done]. by intros [= ->].
Qed.

Lemma connected {A} c (m : B A) (d : D) a : (bind (connect c) (fun _ => unbinding m) d).2 = Ok a ->
  exists d1, same_tree d d1 /\ (m d1).2 = Ok a /\ same_tree (m d1).1 (bind (connect c) (fun _ => unbinding m) d).1.
Proof.
  unfold bind. pose proof (tree_connect c d) as Ht. destruct (connect c d) as [d1 [[]|e]]; [|done]. intros Hm.
  exists d1. split; [exact Ht|]. by apply unbinding_ok.
Qed.

Lemma entry_along d d' dn e : same_tree d d' -> l_entry d' dn = Some e -> l_entry d dn = Some e.
Proof. intros Hs He. by rewrite <- (proj1 (Hs dn)). Qed.

Definition no_empty_flag (p : DirectoryProfile) (d : D) (dn : string) : Prop :=
  forall e, l_entry d dn = Some e -> Forall (fun v => blank v = false) (listed (e (disabling p))).

(** The change [disable] makes, once the entry has been read. *)
Definition disabling_step (p : DirectoryProfile) (dn : string) (current : attributes) : B (D := D) WriteResult :=
  let written value := bind (l_modify dn [(disabling p, [value])])
    (fun _ => ret {| wr_dn := dn; wr_changed := true; wr_detail := "disabled" |}) in
  if has_flag p then
    match _disabled_account_control (current (disabling p)) with
    | None => ret {| wr_dn := dn; wr_changed := false; wr_detail := "already disabled" |}
    | Some value => written (Py.str_of_Z value)
    end
  else match _strings (current (disabling p)) with
  | _ :: _ => ret {| wr_dn := dn; wr_changed := false; wr_detail := "already locked" |}
  | [] => written LOCKED_FOREVER
  end.

Lemma disabling_step_spec p dn current d e r : l_entry d dn = Some e -> same_values (current (disabling p)) (e (disabling p)) ->
  no_empty_flag p d dn -> (disabling_step p dn current d).2 = Ok r -> let d' := (disabling_step p dn current d).1 in
  exists e', l_entry d' dn = Some e' /\ disabled_from p e e' /\ only_entry d d' dn /\ (wr_changed r = false -> same_tree d d').
Proof.
  intros He Hv Hs. specialize (Hs e He). unfold disabling_step.
  assert (_disabled_account_control (current (disabling p)) = _disabled_account_control (e (disabling p))) as ->
    by (unfold _disabled_account_control; by rewrite (strings_proper _ _ Hv)).
  rewrite (strings_proper _ _ Hv).
  assert (forall value, value <> "" -> (forall e', reads_as (e' (disabling p)) value -> (forall n, n <> disabling p -> e' n = e n) -> disabled_from p e e') ->
    let m := bind (l_modify dn [(disabling p, [value])]) (fun _ => ret {| wr_dn := dn; wr_changed := true; wr_detail := "disabled" |}) in
    (m d).2 = Ok r -> exists e', l_entry (m d).1 dn = Some e' /\ disabled_from p e e' /\ only_entry d (m d).1 dn /\
      (wr_changed r = false -> same_tree d (m d).1)) as Hw.
  { intros value Hne Hd m. unfold m, bind. pose proof (l_modified dn (disabling p) value d e) as Hm.
    destruct (l_modify dn [(disabling p, [value])] d) as [d' [[]|x]]; [|done]. cbn [fst snd ret] in *. intros [= <-].
    destruct (Hm Hne eq_refl He) as ((e' & He' & Hr & Ho) & Hn & Hf). exists e'. split_and!; [done|by apply Hd|by split|done]. }
  destruct (has_flag p) eqn:Hf.
  - destruct (_disabled_account_control (e (disabling p))) as [value|] eqn:Hc.
    + apply Hw; [apply str_of_Z_ne|]. intros e' Hr Ho. by eapply flagged_now.
    + intros [= <-]. exists e. split_and!; [done|by apply flagged_already|by apply same_only|done].
  - destruct (_strings (e (disabling p))) as [|v l] eqn:Hl.
    + apply Hw; [done|]. intros e' Hr Ho. apply locked; [done|exists LOCKED_FOREVER; by apply one_read|done].
    + intros [= <-]. exists e. split_and!; [done| |by apply same_only|done].
      apply locked; [done|exists v; by rewrite one_strings, Hl|done].
Qed.

Lemma disable_spec w dn d r : no_empty_flag (dw_profile w) d dn -> (disable w dn d).2 = Ok r -> let d' := (disable w dn d).1 in
  exists e e', l_entry d dn = Some e /\ l_entry d' dn = Some e' /\ disabled_from (dw_profile w) e e' /\ only_entry d d' dn /\
    (wr_changed r = false -> same_tree d d').
Proof.
  set (p := dw_profile w). intros Hs. unfold disable, awaited. fold p.
  change (_disable_blocking (dw_connector w) p dn) with (bind (connect (dw_connector w)) (fun _ => unbinding
    (bind (_read dn [disabling p]) (fun current => match current with None => not_in_directory dn | Some current => disabling_step p dn current end)))).
  set (body := bind (_read dn [disabling p]) _). pose proof (fun a => connected (dw_connector w) body d a) as Hc.
  destruct (bind (connect (dw_connector w)) _ d) as [d4 [a|x]]; [|done]. cbn [fst snd] in *. intros [= ->].
  destruct (Hc r eq_refl) as (d1 & H01 & Hb & H34). revert Hb H34. unfold body, bind.
  destruct (read_spec dn [disabling p] d1) as [H12 Hr]. destruct (_read dn [disabling p] d1) as [d2 [[current|]|x]]; [|done|done].
  cbn [fst snd] in *. destruct Hr as (e & He & Hv). intros Hst H34.
  assert (l_entry d2 dn = Some e) as He2 by (by rewrite (proj1 (H12 dn))).
  assert (l_entry d dn = Some e) as He0 by (by eapply entry_along).
  destruct (disabling_step_spec p dn current d2 e r He2 (Hv _ ltac:(constructor))) as (e' & He' & Hd & Ho & Hu); [|exact Hst|].
  { intros e2 He2'. rewrite He2 in He2'. injection He2' as <-. by apply Hs. }
  assert (same_tree d d2) as H02 by (by transitivity d1).
  exists e, e'. split_and!; [done| |done|by eapply only_same|].
  - by rewrite (proj1 (H34 dn)).
  - intros Hc'. transitivity d2; [done|]. by transitivity (disabling_step p dn current d2).1; [apply Hu|].
Qed.

(** ** The downstream system *)

Section target.
Context (c : DirectoryClient) (writer : DirectoryWriter) (Hw : dw_profile writer = dc_profile c).

Definition owner (w : world D R) (login dn : string) : Prop := answers_to (dc_profile c) (dc_base_dn c) (w_dir w) login dn.
Definition only_owner (w : world D R) (login dn : string) : Prop := owner w login dn /\ forall dn', owner w login dn' -> dn' = dn.

Lemma target_disable_spec login (w : world D R) : usable (dc_profile c) ->
  (forall dn, owner w login dn -> no_empty_flag (dc_profile c) (w_dir w) dn) ->
  let '(w', r) := target_disable c writer login w in
  w_redis w' = w_redis w /\
  match r with
  | Ok _ =>
      (exists dn e e', only_owner w login dn /\ l_entry (w_dir w) dn = Some e /\ l_entry (w_dir w') dn = Some e' /\
        disabled_from (dc_profile c) e e' /\ only_entry (w_dir w) (w_dir w') dn) \/
      (~ (exists dn, only_owner w login dn) /\ same_tree (w_dir w) (w_dir w'))
  | Err e => exists message, e = Unavailable message
  end.
Proof using Hw HL.
  intros Hp Hs. unfold target_disable, mseq at 1. pose proof (find_user_spec c login w Hp) as Hf. cbv zeta in Hf.
  destruct (find_user c login w) as [w1 [[u|]|e]]; destruct Hf as (Ht & Hr & Hf); cbn [fst snd mret].
  - destruct Hf as (Ho & Hu & _). unfold mseq, on_directory.
    pose proof (disable_spec writer (u_dn u) (w_dir w1)) as Hd. rewrite Hw in Hd.
    destruct (disable writer (u_dn u) (w_dir w1)) as [d [r|m]]; cbn [mret fst snd w_dir w_redis] in *; (split; [done|]); [|by exists m].
    left. destruct (Hd r) as (e & e' & He & He' & Hdf & Hoe & _); [|done|].
    { intros e1 He1. apply (Hs _ Ho). by eapply entry_along. }
    exists (u_dn u), e, e'. split_and!; [by split|by eapply entry_along|done|done|]. by eapply only_same.
  - split; [done|]. right. by split.
  - split; [done|exact Hf].
Qed.

(** Two people who answer to one login: neither account is touched, and the call
    says nothing of it. *)
Lemma ambiguous_untouched login dn1 dn2 (w : world D R) : usable (dc_profile c) ->
  owner w login dn1 -> owner w login dn2 -> dn1 <> dn2 -> same_tree (w_dir w) (w_dir (target_disable c writer login w).1).
Proof using HL.
  intros Hp A1 A2 Hne. unfold target_disable, mseq at 1. pose proof (find_user_spec c login w Hp) as Hf. cbv zeta in Hf.
  destruct (find_user c login w) as [w1 [[u|]|e]]; destruct Hf as (Ht & _ & Hf); [|done|done].
  destruct Hf as (_ & Hu & _). destruct Hne. rewrite (Hu dn1 A1), (Hu dn2 A2). done.
Qed.

End target.

(** ** Provisioning *)

Lemma exists_spec dn (d : D) : same_tree d (_exists dn d).1 /\
  match (_exists dn d).2 with
  | Ok true => exists e, l_entry d dn = Some e
  | Ok false => l_entry d dn = None
  | Err _ => True
  end.
Proof.
  unfold _exists, bind. destruct (read_spec dn ["1.1"] d) as [Ht Hr].
  destruct (_read dn ["1.1"] d) as [d' [[current|]|x]]; cbn [ret fst snd] in *; (split; [done|]); [|done|done].
  destruct Hr as (e & He & _). by exists e.
Qed.

Lemma add_spec dn classes a (d : D) : match (_add dn classes a d).2 with
  | Ok r => (exists e', l_entry (_add dn classes a d).1 dn = Some e') /\ wr_dn r = dn /\
      (wr_changed r = false -> same_tree d (_add dn classes a d).1) /\
      (forall dn', l_name (_add dn classes a d).1 dn' <> l_name (_add dn classes a d).1 dn -> l_entry (_add dn classes a d).1 dn' = l_entry d dn')
  | Err _ => True
  end.
Proof.
  unfold _add. pose proof (l_added dn classes a d) as Ha. pose proof (l_exists dn classes a d) as Hx.
  destruct (l_add dn classes a d) as [d' [[]|[]]]; cbn [fst snd wr_dn wr_changed] in *; try done.
  - destruct (Ha eq_refl) as [He Hf]. split_and!; done.
  - destruct (Hx message eq_refl) as [Ht He]. split_and!; [|done|done|].
    + rewrite (proj1 (Ht dn)). destruct (l_entry d dn) as [e|]; [by exists e|done].
    + intros dn' _. apply Ht.
Qed.

Lemma ensure_spec w spec d r : (ensure_person w spec d).2 = Ok r -> let d' := (ensure_person w spec d).1 in
  let dn := dn_for (dw_people w) (Orchestrator.ps_uid spec) in
  (exists e, l_entry d' dn = Some e) /\ wr_dn r = dn /\ (wr_changed r = false -> same_tree d d') /\
  (wr_changed r = true -> l_entry d dn = None) /\
  (forall dn', l_name d' dn' <> l_name d' dn -> l_entry d' dn' = l_entry d dn').
Proof.
  unfold ensure_person, awaited, _ensure_person_blocking. cbv zeta. set (dn := dn_for (dw_people w) (Orchestrator.ps_uid spec)).
  set (body := bind (_exists dn) _). pose proof (fun a => connected (dw_connector w) body d a) as Hc.
  destruct (bind (connect (dw_connector w)) _ d) as [d4 [a|x]]; [|done]. cbn [fst snd] in *. intros [= ->].
  destruct (Hc r eq_refl) as (d1 & H01 & Hb & H34). revert Hb H34. unfold body, bind.
  destruct (exists_spec dn d1) as [H12 Hr]. destruct (_exists dn d1) as [d2 [[]|x]]; [| |done]; cbn [fst snd] in *.
  - destruct Hr as [e He]. cbn [ret fst snd]. intros [= <-] H34. assert (same_tree d d4) as Ht by (transitivity d1; [done|by transitivity d2]).
    split_and!; [|done|done|done|intros dn' _; apply Ht]. exists e. rewrite (proj1 (H34 dn)), (proj1 (H12 dn)). exact He.
  - assert (same_tree d d2) as H02 by (by transitivity d1). destruct (attributes_for (dw_profile w) spec) as [a|]; [|done].
    pose proof (add_spec dn (create_object_classes (dw_profile w)) a d2) as Ha. intros Hr'. rewrite Hr' in Ha. destruct Ha as ([e He] & Hdn & Hs & Hf).
    intros H34. split_and!; [|done| | |].
    + exists e. by rewrite (proj1 (H34 dn)).
    + intros Hch. transitivity d2; [done|]. by etransitivity; [apply Hs|].
    + intros _. rewrite <- (proj1 (H01 dn)). exact Hr.
    + intros dn' Hne. destruct (H34 dn') as [-> N1], (H34 dn) as [_ N2]. rewrite N1, N2 in Hne. rewrite (Hf _ Hne). apply H02.
Qed.

(** Done twice, the second time changes nothing and says so. *)
Lemma ensure_again w spec d r1 d2 r2 : (ensure_person w spec d).2 = Ok r1 -> same_tree (ensure_person w spec d).1 d2 ->
  (ensure_person w spec d2).2 = Ok r2 -> wr_changed r2 = false /\ same_tree d2 (ensure_person w spec d2).1.
Proof.
  intros E1 Ht E2. apply ensure_spec in E1 as ([e He] & _). apply ensure_spec in E2 as (_ & _ & Hs & Hc & _). cbv zeta in *.
  destruct (wr_changed r2) eqn:E; [|split; [done|by apply Hs]]. specialize (Hc eq_refl). rewrite (proj1 (Ht _)), He in Hc. done.
Qed.

(** ** Membership *)

Section membership.
Context (c : DirectoryClient) (Hp : usable (dc_profile c)).

Definition member_assertion (dn : string) : LdapText.assertion :=
  LdapText.All [LdapText.Equal "objectClass" (group_object_class (dc_profile c)); LdapText.Equal (member (dc_profile c)) dn].

(** The groups below the base that list a name. *)
Definition parent_of (d : D) (dn group : string) : Prop := matching d (dc_base_dn c) (member_assertion dn) group.

Definition direct_group (d : D) (user : DirectoryUser) (group : string) : Prop :=
  match u_member_of user with [] => parent_of d (u_dn user) group | member_of => group ∈ member_of end.

(** A direct group is at level 0, the groups that list one of level [n] at [n + 1]. *)
Inductive member_through (d : D) (user : DirectoryUser) : nat -> string -> Prop :=
| through_direct group : direct_group d user group -> member_through d user 0 group
| through_parent n group parent : member_through d user n group -> parent_of d group parent -> member_through d user (S n) parent.

(** Nothing but searches happened between two worlds. *)
Definition only_read (w w' : world D R) : Prop := same_tree (w_dir w) (w_dir w') /\ w_redis w' = w_redis w.

Lemma parents_spec dn (w : world D R) : only_read w (_parents_of c dn w).1 /\
  (forall l, (_parents_of c dn w).2 = Ok l -> forall p, p ∈ l <-> parent_of (w_dir w) dn p) /\
  (forall e, (_parents_of c dn w).2 = Err e -> exists m, e = Unavailable m).
Proof using Hp HL.
  unfold _parents_of. assert (group_members_filter (dc_profile c) dn = Some (LdapText.render (member_assertion dn))) as ->
    by exact (LdapText.all_of_renders (LdapText.Equal "objectClass" (group_object_class (dc_profile c))) (LdapText.Equal (member (dc_profile c)) dn)).
  assert (LdapText.well_named (member_assertion dn) = true) as Hn.
  { destruct Hp as [_ Hn]. cbn [forallb] in Hn. apply andb_true_iff in Hn as [Hn _]. cbn [member_assertion LdapText.well_named forallb]. by rewrite Hn. }
  unfold mseq. destruct (search_world c (LdapText.render (member_assertion dn)) ["1.1"] 0 w) as (Ht & Hr & He).
  pose proof (fun entries => search_world_found c _ ["1.1"] w entries Hn) as Hf.
  destruct (_search c _ ["1.1"] 0 w) as [w' [entries|x]]; cbn [fst snd mret] in *; (split_and!; [by split| |]); [|done|done|intros e [= <-]; by apply He].
  intros l [= <-]. apply (Hf entries eq_refl).
Qed.

Lemma direct_spec user (w : world D R) : only_read w (_direct_groups c user w).1 /\
  (forall l, (_direct_groups c user w).2 = Ok l -> forall g, g ∈ l <-> direct_group (w_dir w) user g) /\
  (forall e, (_direct_groups c user w).2 = Err e -> exists m, e = Unavailable m).
Proof using Hp HL.
  unfold _direct_groups, direct_group. destruct (u_member_of user) as [|g l]; [apply parents_spec|].
  cbn [mret fst snd]. split_and!; [split; [reflexivity|done]|by intros l' [= <-]|done].
Qed.

Lemma inherited_through d user start : (forall g, g ∈ start <-> direct_group d user g) ->
  forall n g, GroupWalk.inherited (parent_of d) start n g <-> member_through d user n g.
Proof using.
  intros Hs n. induction n as [|n IH]; intros g.
  - rewrite GroupWalk.inherited_0, Hs. split; [apply through_direct|by inversion 1].
  - rewrite GroupWalk.inherited_S. setoid_rewrite IH. split; [intros (m & Hm & Hg); by eapply through_parent|inversion 1; subst; by eexists].
Qed.

(** What an expansion found. *)
Definition is_membership (d : D) (user : DirectoryUser) (e : GroupWalk.Expansion) : Prop :=
  (forall g, g ∈ GroupWalk.direct e <-> direct_group d user g) /\
  (forall g, g ∈ GroupWalk.groups e -> exists n, member_through d user n g) /\
  (GroupWalk.truncated e = false -> forall n g, member_through d user n g -> g ∈ GroupWalk.groups e) /\
  (GroupWalk.truncated e = true -> (GroupWalk.MAX_GROUPS <= size (GroupWalk.groups e))%nat \/
    forall n g, (n <= GroupWalk.MAX_DEPTH)%nat -> member_through d user n g -> g ∈ GroupWalk.groups e).

Lemma expansion_spec user (w : world D R) : only_read w (expansion_of c user w).1 /\
  match (expansion_of c user w).2 with
  | Ok e => is_membership (w_dir w) user e
  | Err e => exists m, e = Unavailable m
  end.
Proof using Hp HL.
  unfold expansion_of, mseq. destruct (direct_spec user w) as ([Ht Hr] & Hd & He).
  destruct (_direct_groups c user w) as [w1 [start|x]]; cbn [fst snd] in *; [|split; [by split|by apply (He x)]].
  specialize (Hd start eq_refl).
  destruct (GroupWalk.expand_spec (_parents_of c) (only_read w) (parent_of (w_dir w))) with (start := start)
    (max_depth := GroupWalk.MAX_DEPTH) (max_groups := GroupWalk.MAX_GROUPS) (s := w1) as [Hi Hx]; [|by split|].
  { intros g s [Hs1 Hs2]. destruct (parents_spec g s) as ([Hp1 Hp2] & Hl & _). split; [split; [by transitivity (w_dir s)|congruence]|].
    intros l Hl'. intros p. rewrite (Hl l Hl'). by apply matching_same. }
  split; [exact Hi|]. pose proof (GroupWalk.walk_error (S := world D R) (_parents_of c) (fun e => exists m, e = Unavailable m)) as Hwe.
  specialize (Hwe (fun g s => proj2 (proj2 (parents_spec g s))) start GroupWalk.MAX_DEPTH GroupWalk.MAX_GROUPS w1).
  destruct (GroupWalk.expand (_parents_of c) start GroupWalk.MAX_DEPTH GroupWalk.MAX_GROUPS w1) as [w2 [e|x]]; cbn [fst snd] in *; [|by apply Hwe].
  destruct (Hx e eq_refl) as (E1 & _ & E2 & E3 & E4). pose proof (inherited_through (w_dir w) user start Hd) as Hin. split_and!.
  - intros g. by rewrite E1, elem_of_list_to_set.
  - intros g Hg. destruct (E2 g Hg) as [n Hn]. exists n. by apply Hin.
  - intros Htr n g Hg. apply (E3 Htr n). by apply Hin.
  - intros Htr. destruct (E4 Htr) as [|Hall]; [by left|right]. intros n g Hn Hg. apply (Hall n); [done|by apply Hin].
Qed.

(** ** The membership cache *)

Section cache.
Context `{!RedisLaws R}.

Definition cache_key (user : DirectoryUser) : string := CACHE_PREFIX +:+ u_immutable_id user.

(** What a complete expansion leaves in the cache. *)
Definition remembered (e : GroupWalk.Expansion) : list json := JStr <$> sorted (elements (GroupWalk.groups e)).

Definition fresh_result (e : GroupWalk.Expansion) : GroupResult :=
  {| g_groups := JStr <$> elements (GroupWalk.groups e); g_direct := JStr <$> elements (GroupWalk.direct e);
     g_degraded := false; g_truncated := GroupWalk.truncated e |}.

Definition degraded_result (groups : list json) : GroupResult :=
  {| g_groups := groups; g_direct := groups; g_degraded := true; g_truncated := false |}.

Lemma frozen_strings (l : list string) : frozen (JArr (JStr <$> l)) = Some (JStr <$> l).
Proof using. unfold frozen. assert (forallb hashable (JStr <$> l) = true) as ->; [|done]. by induction l. Qed.

Lemma remember_spec now user e (w : world D R) : dc_cache c = true -> GroupWalk.truncated e = false ->
  let '(w', r) := _remember c now (u_immutable_id user) e w in
  r = Ok tt /\ forall t, (now <= t)%Z -> r_view (w_redis w') t (cache_key user) =
    age t (Some (Entry (VScalar (SJson (JArr (remembered e)))) (Some (now + CACHE_TTL * SECOND)%Z))).
Proof using RedisLaws0.
  intros Hc Ht. unfold _remember. rewrite Hc, Ht. cbn [negb orb]. unfold redis.
  set (p := redis_set _ _ _). pose proof (run_result p (w_redis w) now) as Hr. pose proof (fun t => run_vrun_later p (w_redis w) now t (cache_key user)) as Hv.
  destruct (run p (w_redis w) now) as [r' x]. cbn [fst snd] in *.
  assert (x = Ok tt) as -> by exact Hr. split; [done|]. intros t Hle. cbn [w_redis]. rewrite (Hv t Hle). unfold p, redis_set.
  cbn [vrun key_step cmd_key]. change (CACHE_TTL <=? 0)%Z with false. cbn [andb]. cbn [vrun fst]. by rewrite vupd_eq.
Qed.

Lemma cached_spec now user (w : world D R) : dc_cache c = true ->
  (forall v d, r_view (w_redis w) now (cache_key user) = Some (Entry (VScalar v) d) ->
    (_cached c now (u_immutable_id user) w).2 = Ok (j ← document v; frozen j)) /\
  (r_view (w_redis w) now (cache_key user) = None -> (_cached c now (u_immutable_id user) w).2 = Ok None).
Proof using RedisLaws0.
  intros Hc. unfold _cached. rewrite Hc. cbn [negb]. unfold mseq, redis.
  set (p := redis_get _). pose proof (run_result p (w_redis w) now) as Hr. destruct (run p (w_redis w) now) as [r' x]. cbn [snd] in Hr. subst x.
  unfold p, redis_get. cbn [vrun key_step cmd_key]. fold (cache_key user). split; [intros v d Hv|intros Hv]; rewrite Hv; done.
Qed.

Lemma groups_for_fresh now user (w w1 : world D R) e : expansion_of c user w = (w1, Ok e) -> dc_cache c = true -> GroupWalk.truncated e = false ->
  (groups_for c now user w).2 = Ok (fresh_result e) /\
  forall t, (now <= t)%Z -> r_view (w_redis (groups_for c now user w).1) t (cache_key user) =
    age t (Some (Entry (VScalar (SJson (JArr (remembered e)))) (Some (now + CACHE_TTL * SECOND)%Z))).
Proof using RedisLaws0.
  intros He Hc Ht. unfold groups_for. rewrite He. unfold mseq. pose proof (remember_spec now user e w1 Hc Ht) as Hr.
  destruct (_remember c now (u_immutable_id user) e w1) as [w2 r]. destruct Hr as [-> Hv]. split; [done|exact Hv].
Qed.

(** During an outage the answer is what was last remembered, for as long as it
    is kept, and after that the outage itself. *)
Lemma groups_for_outage t0 t1 user (w w1 w2 w3 : world D R) e message :
  expansion_of c user w = (w1, Ok e) -> dc_cache c = true -> GroupWalk.truncated e = false -> (t0 <= t1)%Z ->
  r_view (w_redis w2) t1 (cache_key user) = r_view (w_redis (groups_for c t0 user w).1) t1 (cache_key user) ->
  expansion_of c user w2 = (w3, Err (Unavailable message)) ->
  (groups_for c t1 user w2).2 =
    if (t1 <? t0 + CACHE_TTL * SECOND)%Z then Ok (degraded_result (remembered e)) else Err (Unavailable message).
Proof using RedisLaws0 Hp HL.
  intros He Hc Ht Hle Hsame Hout. destruct (groups_for_fresh t0 user w w1 e He Hc Ht) as [_ Hv]. rewrite (Hv t1 Hle) in Hsame.
  destruct (expansion_spec user w2) as [[_ Hr3] _]. rewrite Hout in Hr3. cbn [fst] in Hr3. rewrite <- Hr3 in Hsame.
  unfold groups_for. rewrite Hout. unfold mseq. destruct (cached_spec t1 user w3 Hc) as [Hsome Hnone].
  destruct (_cached c t1 (u_immutable_id user) w3) as [w4 x]. cbn [snd] in Hsome, Hnone.
  destruct (Z.ltb_spec t1 (t0 + CACHE_TTL * SECOND)).
  - rewrite age_live in Hsame by done. specialize (Hsome _ _ Hsame). cbn [document mbind option_bind] in Hsome.
    unfold remembered in *. rewrite frozen_strings in Hsome. by subst x.
  - rewrite age_dead in Hsame by done. specialize (Hnone Hsame). by subst x.
Qed.

End cache.

End membership.

End searching.

(** ** What goes over the wire *)

Inductive wire : Type := WOpen (url : string) (tls : bool) | WStartTls | WBind | WUnbind | WOther.

Section recorder.
(** What every call is answered with, given those before it. *)
Context (outcome : list wire -> wire -> result raised unit).

Definition noted (call : wire) (log : list wire) : list wire * result raised unit := (log ++ [call], outcome log call).

#[local] Instance recorder : LdapServer (list wire) := {|
  l_open u tls _ _ := noted (WOpen u tls);
  l_start_tls := noted WStartTls;
  l_bind := noted WBind;
  l_unbind := noted WUnbind;
  l_paged_search _ _ _ _ log := (log ++ [WOther], Ok []);
  l_search _ _ _ log := (log ++ [WOther], Ok (false, []));
  l_add _ _ _ := noted WOther;
  l_modify _ _ := noted WOther;
|}.

(** Credentials are sent only inside TLS, whatever the server answers: over
    [ldaps], or after a StartTLS that succeeded; in the clear only where the
    settings allow it and ask for no StartTLS. *)
Theorem bind_is_protected c : let log := (connect c []).1 in WBind ∈ log ->
  Py.startswith (url c) "ldaps://" = true \/
  (log = [WOpen (url c) true; WStartTls; WBind] /\ outcome [WOpen (url c) true] WStartTls = Ok tt) \/
  (allow_plaintext c = true /\ start_tls c = false).
Proof.
  unfold connect. cbv zeta. destruct (Py.startswith (url c) "ldaps://"); [by left|]. cbn [negb orb andb].
  destruct (start_tls c); cbn [negb andb].
  - unfold bind. cbn [l_open recorder noted app]. destruct (outcome [] _) as [[]|]; cbn [l_start_tls recorder noted app].
    + destruct (outcome [WOpen (url c) true] WStartTls) as [[]|] eqn:E; cbn [l_bind recorder noted app fst].
      * intros _. right. left. by split.
      * intros Hin. by repeat (apply elem_of_cons in Hin as [Hin|Hin]; [discriminate|]); apply elem_of_nil in Hin.
    + cbn [fst]. intros Hin. by repeat (apply elem_of_cons in Hin as [Hin|Hin]; [discriminate|]); apply elem_of_nil in Hin.
  - destruct (allow_plaintext c); [by right; right|]. cbn. by intros Hin%elem_of_nil.
Qed.
End recorder.

(** ** A tree *)

Record tree : Type := { t_up : bool; t_entries : gmap string (gmap string (list string)) }.

Definition attributes_of (m : gmap string (list string)) : attributes := fun n => (fun l => Many (IStr <$> l)) <$> m !! n.

Definition tree_equal (a v : string) (x : attr) : bool := existsb (String.eqb v) (text_of <$> listed (Some x)).
Definition tree_under (base dn : string) : bool := Py.endswith dn ("," +:+ base).

Definition tree_fits (base : string) (f : LdapText.assertion) (dm : string * gmap string (list string)) : bool :=
  tree_under base dm.1 && satisfies tree_equal (attributes_of dm.2) f.

Definition sent (dm : string * gmap string (list string)) : entry :=
  {| en_type := Some "searchResEntry"; en_dn := dm.1; en_attributes := Some (attributes_of dm.2) |}.

Definition down {A} : result raised A := Err (OtherException "connection refused").
Definition tree_call (d : tree) : tree * result raised unit := (d, if t_up d then Ok tt else down).
Definition tree_put (d : tree) (dn : string) (m : gmap string (list string)) : tree :=
  {| t_up := t_up d; t_entries := <[dn := m]> (t_entries d) |}.

#[export] Instance tree_server : LdapServer tree := {|
  l_open _ _ _ _ := tree_call;
  l_start_tls := tree_call;
  l_bind := tree_call;
  l_unbind := tree_call;
  l_paged_search base text _ _ d := (d,
    if t_up d then
      match LdapText.parse text with
      | Some f => Ok (sent <$> List.filter (tree_fits base f) (map_to_list (t_entries d)))
      | None => Err (OtherException "malformed filter")
      end
    else down);
  l_search dn _ _ d := (d,
    if t_up d then
      match t_entries d !! dn with
      | Some m => Ok (true, [sent (dn, m)])
      | None => Err (LDAPNoSuchObjectResult "noSuchObject")
      end
    else down);
  l_add dn classes a d :=
    if t_up d then
      match t_entries d !! dn with
      | Some _ => (d, Err (LDAPEntryAlreadyExistsResult "entryAlreadyExists"))
      | None => (tree_put d dn (<["objectClass" := classes]> (list_to_map ((fun nv => (nv.1, [nv.2])) <$> a))), Ok tt)
      end
    else (d, down);
  l_modify dn changes d :=
    if t_up d then
      match t_entries d !! dn with
      | Some m => (tree_put d dn (foldl (fun m nv => <[nv.1 := nv.2]> m) m changes), Ok tt)
      | None => (d, Err (LDAPNoSuchObjectResult "noSuchObject"))
      end
    else (d, down);
|}.

#[export] Instance tree_tree : LdapTree tree := {|
  l_entry d dn := attributes_of <$> t_entries d !! dn;
  l_name _ dn := dn;
  l_under := tree_under;
  l_equal := tree_equal;
|}.

Lemma tree_found base f d :
  let entries := sent <$> List.filter (tree_fits base f) (map_to_list (t_entries d)) in
  List.filter is_entry entries = entries /\ NoDup (en_dn <$> entries) /\
  forall en, en ∈ entries <-> exists m, t_entries d !! en_dn en = Some m /\ en = sent (en_dn en, m) /\ tree_fits base f (en_dn en, m) = true.
Proof.
  intros entries. split_and!.
  - unfold entries. induction (List.filter _ _) as [|x l IH]; [done|]. cbn. by rewrite IH.
  - unfold entries. rewrite <- list_fmap_compose. assert (NoDup ((map_to_list (t_entries d)).*1)) as Hn by apply NoDup_fst_map_to_list.
    revert Hn. induction (map_to_list (t_entries d)) as [|x l IH]; [constructor|]. cbn [fmap list_fmap List.filter]. rewrite NoDup_cons. intros [Hx Hl].
    destruct (tree_fits base f x); [|by apply IH]. cbn [fmap list_fmap]. apply NoDup_cons. split; [|by apply IH].
    intros (y & Ey & Hy)%list_elem_of_fmap. apply Hx. apply list_elem_of_fmap. exists y. split; [exact Ey|].
    apply list_elem_of_In, filter_In in Hy as [Hy _]. by apply list_elem_of_In.
  - intros en. unfold entries. rewrite list_elem_of_fmap. split.
    + intros ([dn m] & -> & Hm). apply list_elem_of_In, filter_In in Hm as [Hm Hf]. apply list_elem_of_In, elem_of_map_to_list in Hm. by exists m.
    + intros (m & Hm & -> & Hf). exists (en_dn en, m). split; [done|]. apply list_elem_of_In, filter_In. split; [|exact Hf].
      by apply list_elem_of_In, elem_of_map_to_list.
Qed.

#[export] Instance tree_laws : LdapLaws tree.
Proof.
  split; try (intros; intros dn'; by split).
  - intros base text attrs size d entries f E Hp. cbn [l_paged_search tree_server snd] in E. destruct (t_up d); [|done]. rewrite Hp in E.
    injection E as <-. destruct (tree_found base f d) as (-> & Hn & Hm). split_and!; [done| |].
    + intros dn. rewrite list_elem_of_fmap. split.
      * intros (en & -> & He). apply Hm in He as (m & Em & _ & Hf). apply andb_true_iff in Hf as [H1 H2]. split_and!; [done|done|].
        exists (attributes_of m). cbn [l_entry tree_tree]. by rewrite Em.
      * intros (_ & Hu & e & He & Hs). cbn [l_entry tree_tree] in He. destruct (t_entries d !! dn) as [m|] eqn:Em; [|done]. injection He as <-.
        exists (sent (dn, m)). split; [done|]. apply Hm. exists m. split_and!; [done|done|]. unfold tree_fits. cbn [fst snd].
        apply andb_true_iff. split; [exact Hu|exact Hs].
    + apply Forall_forall. intros en He. apply Hm in He as (m & Em & Een & _). exists (attributes_of m), (attributes_of m).
      cbn [l_entry tree_tree]. rewrite Em. split_and!; [done|by rewrite Een|done].
  - intros dn attrs d r <-. cbn [l_search tree_server snd]. destruct (t_up d); [|done]. destruct (t_entries d !! dn) as [m|] eqn:Em.
    + exists (attributes_of m). cbn [l_entry tree_tree]. by rewrite Em.
    + cbn [l_entry tree_tree]. by rewrite Em.
  - intros dn a value d e Hne E He. cbn [l_modify tree_server l_entry tree_tree] in *. destruct (t_up d); [|done].
    destruct (t_entries d !! dn) as [m|] eqn:Em; [|done]. injection He as <-. cbn [fst foldl tree_put t_entries l_name]. split_and!.
    + rewrite lookup_insert_eq. eexists. split; [reflexivity|]. split.
      * exists (IStr value). split; [right|split; [|done]].
        -- unfold attributes_of. by rewrite lookup_insert_eq.
        -- cbn. by apply String.eqb_neq.
      * intros n Hn. unfold attributes_of. by rewrite lookup_insert_ne.
    + done.
    + intros dn' Hn. by rewrite lookup_insert_ne.
  - intros dn classes a d E. cbn [l_add tree_server l_entry tree_tree] in *. destruct (t_up d); [|done].
    destruct (t_entries d !! dn) as [m|] eqn:Em; [done|]. cbn [fst tree_put t_entries l_name]. split.
    + rewrite lookup_insert_eq. by eexists.
    + intros dn' Hn. by rewrite lookup_insert_ne.
  - intros dn classes a d m E. cbn [l_add tree_server l_entry tree_tree] in *. destruct (t_up d); [|done].
    destruct (t_entries d !! dn) as [m'|] eqn:Em; [|done]. split; [intros dn'; by split|done].
Qed.

Definition BASE : string := "dc=campus,dc=test".
Definition ADA : string := "uid=ada,ou=people,dc=campus,dc=test".
Definition LMS : string := "cn=lms,ou=groups,dc=campus,dc=test".
Definition MEMBERS : string := "cn=members,ou=groups,dc=campus,dc=test".

Definition person (id uid eppn : string) : gmap string (list string) :=
  list_to_map [("objectClass", ["inetOrgPerson"; "eduPerson"]); ("entryUUID", [id]); ("uid", [uid]); ("eduPersonPrincipalName", [eppn])].
Definition group_of (members : list string) : gmap string (list string) :=
  list_to_map [("objectClass", ["groupOfNames"]); ("member", members)].

(** Groups that contain each other. *)
Definition demo_tree : tree := {| t_up := true; t_entries := list_to_map
  [(ADA, person "u-1" "ada" "ada@campus.test"); ("uid=bob,ou=people,dc=campus,dc=test", person "u-2" "bob" "bob@campus.test");
   (LMS, group_of [ADA; MEMBERS]); (MEMBERS, group_of [LMS])] |}.

Definition demo_connector : Connector :=
  {| url := "ldaps://directory.campus.test"; bind_dn := "cn=broker"; bind_password := "secret"; start_tls := false; allow_plaintext := false |}.
Definition demo_client : DirectoryClient :=
  {| dc_profile := OPENLDAP; dc_base_dn := BASE; dc_cache := true; dc_connector := demo_connector |}.
Definition demo_writer : DirectoryWriter :=
  {| dw_profile := OPENLDAP; dw_people := _people "ou=people" BASE; dw_connector := demo_connector |}.
Definition demo_world (d : tree) : world tree Store := {| w_dir := d; w_redis := ∅ |}.

Lemma usable_openldap : usable OPENLDAP.
Proof. by split. Qed.

(** ** Properties *)

Section properties.
Context {D R : Type} `{HL : LdapLaws D} `{HR : RedisLaws R}.

(** C19: Whatever a login holds, parentheses and stars included, it finds the one
    person who answers to it, as the tree has them; nobody if nobody or more than
    one does; and it changes nothing. *)
Theorem login_finds_its_owner (c : DirectoryClient) (login : string) (w : world D R) : usable (dc_profile c) ->
  let owner := answers_to (dc_profile c) (dc_base_dn c) (w_dir w) login in
  let '(w', r) := find_user c login w in
  same_tree (w_dir w) (w_dir w') /\ w_redis w' = w_redis w /\
  match r with
  | Ok (Some u) => owner (u_dn u) /\ (forall dn, owner dn -> dn = u_dn u) /\
      exists e, l_entry (w_dir w) (u_dn u) = Some e /\
        u = _to_user (dc_profile c) {| en_type := Some "searchResEntry"; en_dn := u_dn u; en_attributes := Some e |}
  | Ok None => ~ exists dn, owner dn /\ forall dn', owner dn' -> dn' = dn
  | Err e => exists message, e = Unavailable message
  end.
Proof using HL. apply find_user_spec. Qed.

(** C24: When the directory target says a leaver was dealt with, the one account
    that answers to the login reads as disabled, every other attribute and flag of
    it and every other entry is as before; or no one account answers to it and
    nothing changed.  An outage is an error. *)
Theorem leaver_account_is_disabled (c : DirectoryClient) (writer : DirectoryWriter) (login : string) (w : world D R) :
  dw_profile writer = dc_profile c -> usable (dc_profile c) ->
  (forall dn, owner c w login dn -> no_empty_flag (dc_profile c) (w_dir w) dn) ->
  let '(w', r) := Orchestrator.disable (LdapTarget c writer) login w in
  w_redis w' = w_redis w /\
  match r with
  | Ok _ =>
      (exists dn e e', only_owner c w login dn /\ l_entry (w_dir w) dn = Some e /\ l_entry (w_dir w') dn = Some e' /\
        disabled_from (dc_profile c) e e' /\ only_entry (w_dir w) (w_dir w') dn) \/
      (~ (exists dn, only_owner c w login dn) /\ same_tree (w_dir w) (w_dir w'))
  | Err e => exists message, e = Unavailable message
  end.
Proof using HL. intros Hw Hp Hs. exact (target_disable_spec c writer Hw login w Hp Hs). Qed.

(** Two people who answer to one login keep their accounts, and the leaver run is
    told nothing of it. *)
Theorem ambiguous_leaver_stays_enabled (c : DirectoryClient) (writer : DirectoryWriter) login dn1 dn2 (w : world D R) :
  usable (dc_profile c) -> owner c w login dn1 -> owner c w login dn2 -> dn1 <> dn2 ->
  same_tree (w_dir w) (w_dir (Orchestrator.disable (LdapTarget c writer) login w).1).
Proof using HL. exact (ambiguous_untouched c writer login dn1 dn2 w). Qed.

(** A person provisioned twice has one account: the second time the entry is
    there, the call says so and the tree stays as it is. *)
Theorem provisioning_is_idempotent (w : DirectoryWriter) spec (d d2 : D) r1 r2 :
  (ensure_person w spec d).2 = Ok r1 -> same_tree (ensure_person w spec d).1 d2 -> (ensure_person w spec d2).2 = Ok r2 ->
  (exists e, l_entry d2 (dn_for (dw_people w) (Orchestrator.ps_uid spec)) = Some e) /\
  wr_changed r2 = false /\ same_tree d2 (ensure_person w spec d2).1.
Proof using HL.
  intros E1 Ht E2. split; [|exact (ensure_again w spec d r1 d2 r2 E1 Ht E2)]. apply ensure_spec in E1 as ([e He] & _). exists e. by rewrite (proj1 (Ht _)).
Qed.

(** A membership answer holds exactly the groups a person is in, through any
    number of groups and whatever cycles there are; when it says it was cut short,
    it holds the ceiling of them or all of the first five levels. *)
Theorem membership_is_transitive (c : DirectoryClient) user (w : world D R) : usable (dc_profile c) ->
  only_read w (expansion_of c user w).1 /\
  match (expansion_of c user w).2 with
  | Ok e => is_membership c (w_dir w) user e
  | Err e => exists m, e = Unavailable m
  end.
Proof using HL. intros Hp. by apply expansion_spec. Qed.

(** C39: While the directory is down, a membership question is answered with the
    last complete answer, marked as degraded, for fifteen minutes; after that it
    is an error and never the empty set. *)
Theorem outage_serves_last_answer (c : DirectoryClient) t0 t1 user (w w1 w2 w3 : world D R) e message :
  usable (dc_profile c) -> expansion_of c user w = (w1, Ok e) -> dc_cache c = true -> GroupWalk.truncated e = false -> (t0 <= t1)%Z ->
  r_view (w_redis w2) t1 (cache_key user) = r_view (w_redis (groups_for c t0 user w).1) t1 (cache_key user) ->
  expansion_of c user w2 = (w3, Err (Unavailable message)) ->
  (groups_for c t0 user w).2 = Ok (fresh_result e) /\
  (groups_for c t1 user w2).2 =
    if (t1 <? t0 + 900 * SECOND)%Z then Ok (degraded_result (remembered e)) else Err (Unavailable message).
Proof using HL HR.
  intros Hp He Hc Ht Hle Hs Ho. split; [by apply (groups_for_fresh c t0 user w w1 e He Hc Ht)|]. by eapply groups_for_outage.
Qed.

End properties.

(** The name a person is created under is one component below the people's
    unit, and its value is their identifier. *)
Theorem person_dn_is_one_component people uid : LdapText.nameable uid = true ->
  LdapText.read_rdn (dn_for people uid) = Some ("uid", uid, "," +:+ people).
Proof. intros Hu. unfold dn_for. by apply (LdapText.read_named "uid" uid ("," +:+ people)). Qed.

Lemma person_dn_is_one_component_witness : let uid := "o'brien, sam+#1" in
  dn_for "ou=people,dc=campus" uid = "uid=o'brien\, sam\+#1,ou=people,dc=campus" /\
  LdapText.read_rdn (dn_for "ou=people,dc=campus" uid) = Some ("uid", uid, ",ou=people,dc=campus").
Proof. split; [reflexivity|]. apply (person_dn_is_one_component "ou=people,dc=campus"). reflexivity. Defined.

Lemma login_finds_its_owner_witness :
  (exists u, (find_user demo_client "ada@campus.test" (demo_world demo_tree)).2 = Ok (Some u) /\ u_dn u = ADA) /\
  let '(w', r) := find_user demo_client "*)(uid=*" (demo_world demo_tree) in
  r = Ok None /\ same_tree demo_tree (w_dir w').
Proof.
  split; [eexists; split; vm_compute; reflexivity|].
  pose proof (login_finds_its_owner demo_client "*)(uid=*" (demo_world demo_tree) usable_openldap) as Hl. cbv zeta in Hl.
  assert ((find_user demo_client "*)(uid=*" (demo_world demo_tree)).2 = Ok None) as E by (vm_compute; reflexivity).
  destruct (find_user demo_client "*)(uid=*" (demo_world demo_tree)) as [w' r]. cbn [snd] in E. subst r. destruct Hl as (Hs & _). split; [reflexivity|exact Hs].
Defined.

Lemma demo_no_empty_flag dn : no_empty_flag OPENLDAP demo_tree dn.
Proof.
  intros e He. cbn [l_entry tree_tree] in He. destruct (t_entries demo_tree !! dn) as [m|] eqn:Em; [|done]. injection He as <-.
  assert (map_Forall (fun _ m => m !! "pwdAccountLockedTime" = None) (t_entries demo_tree)) as Hall
    by (refine (bool_decide_unpack (map_Forall (fun _ m => m !! "pwdAccountLockedTime" = None) (t_entries demo_tree)) _); vm_compute; exact Logic.I).
  specialize (Hall dn m Em). cbn beta in Hall. unfold attributes_of. change (disabling OPENLDAP) with "pwdAccountLockedTime". rewrite Hall. constructor.
Qed.

Abbreviation after_leaving := (Orchestrator.disable (LdapTarget demo_client demo_writer) "ada" (demo_world demo_tree)).

Lemma leaver_account_is_disabled_witness : after_leaving.2 = Ok tt /\
  exists e', l_entry (w_dir after_leaving.1) ADA = Some e' /\ disabled_in OPENLDAP e' = true.
Proof.
  pose proof (leaver_account_is_disabled demo_client demo_writer "ada" (demo_world demo_tree) eq_refl usable_openldap
    (fun dn _ => demo_no_empty_flag dn)) as Hl.
  assert ((Orchestrator.disable (LdapTarget demo_client demo_writer) "ada" (demo_world demo_tree)).2 = Ok tt) as E by (vm_compute; reflexivity).
  assert (exists u, (find_user demo_client "ada" (demo_world demo_tree)).2 = Ok (Some u) /\ u_dn u = ADA) as (u & Eu & Hu)
    by (eexists; split; vm_compute; reflexivity).
  pose proof (find_user_spec demo_client "ada" (demo_world demo_tree) usable_openldap) as Hf. cbv zeta in Hf.
  destruct (find_user demo_client "ada" (demo_world demo_tree)) as [w1 r1]. cbn [snd] in Eu. subst r1. destruct Hf as (_ & _ & Ho & Hun & _).
  destruct (Orchestrator.disable (LdapTarget demo_client demo_writer) "ada" (demo_world demo_tree)) as [w' r]. cbn [fst snd] in *. subst r.
  split; [reflexivity|]. destruct Hl as (_ & [(dn & e & e' & [Hdn _] & _ & He' & Hd & _) | [Hno _]]).
  - exists e'. rewrite <- Hu, <- (Hun dn Hdn). split; [exact He'|apply Hd].
  - destruct Hno. exists (u_dn u). split; [exact Ho|exact Hun].
Defined.

(** Two entries that answer to the login [ada]. *)
Definition TWIN : string := "uid=ada,ou=alumni,dc=campus,dc=test".
Definition twins : tree := tree_put demo_tree TWIN (person "u-3" "ada" "ada@alumni.test").

Lemma ambiguous_leaver_stays_enabled_witness :
  (Orchestrator.disable (LdapTarget demo_client demo_writer) "ada" (demo_world twins)).2 = Ok tt /\
  same_tree twins (w_dir (Orchestrator.disable (LdapTarget demo_client demo_writer) "ada" (demo_world twins)).1).
Proof.
  split; [vm_compute; reflexivity|].
  apply (ambiguous_leaver_stays_enabled demo_client demo_writer "ada" ADA TWIN (demo_world twins)); [exact usable_openldap| | |discriminate];
    (split_and!; [reflexivity|reflexivity|]); eexists; (split; [vm_compute; reflexivity|]); (split; [vm_compute; reflexivity|]); exists "uid"; split;
    [do 2 constructor|vm_compute; reflexivity|do 2 constructor|vm_compute; reflexivity].
Defined.

Definition carol : Orchestrator.PersonSpec := {|
  Orchestrator.ps_uid := "carol"; Orchestrator.ps_given_name := "Carol"; Orchestrator.ps_surname := "Ng";
  Orchestrator.ps_mail := Some "carol@campus.test"; Orchestrator.ps_display_name := None;
  Orchestrator.ps_principal_name := Some "carol@campus.test" |}.

Lemma provisioning_is_idempotent_witness : let d1 := (ensure_person demo_writer carol demo_tree).1 in
  (exists r1, (ensure_person demo_writer carol demo_tree).2 = Ok r1 /\ wr_changed r1 = true) /\
  exists r2, (ensure_person demo_writer carol d1).2 = Ok r2 /\ wr_changed r2 = false.
Proof.
  cbv zeta. assert (exists r1, (ensure_person demo_writer carol demo_tree).2 = Ok r1 /\ wr_changed r1 = true) as (r1 & E1 & C1)
    by (eexists; split; vm_compute; reflexivity).
  split; [by exists r1|].
  assert (exists r2, (ensure_person demo_writer carol (ensure_person demo_writer carol demo_tree).1).2 = Ok r2) as (r2 & E2)
    by (eexists; vm_compute; reflexivity).
  exists r2. split; [exact E2|].
  apply (provisioning_is_idempotent demo_writer carol demo_tree (ensure_person demo_writer carol demo_tree).1 r1 r2 E1 (reflexivity _) E2).
Defined.

Definition ada : DirectoryUser := {|
  u_dn := ADA; u_immutable_id := "u-1"; u_login := "ada@campus.test"; u_mail := None; u_display_name := None; u_given_name := None;
  u_surname := None; u_member_of := []; u_disabled := false |}.

Lemma membership_is_transitive_witness : exists w' e, expansion_of demo_client ada (demo_world demo_tree) = (w', Ok e) /\
  is_membership demo_client demo_tree ada e /\ MEMBERS ∈ GroupWalk.groups e /\ GroupWalk.truncated e = false.
Proof.
  pose proof (membership_is_transitive demo_client ada (demo_world demo_tree) usable_openldap) as [_ Hm].
  assert (exists e, (expansion_of demo_client ada (demo_world demo_tree)).2 = Ok e /\
    bool_decide (MEMBERS ∈ GroupWalk.groups e) = true /\ GroupWalk.truncated e = false) as (e & E & Hin & Ht)
    by (eexists; split_and!; vm_compute; reflexivity).
  destruct (expansion_of demo_client ada (demo_world demo_tree)) as [w' r]. cbn [snd] in E, Hm. subst r.
  exists w', e. split_and!; [reflexivity|exact Hm|by apply bool_decide_eq_true in Hin|exact Ht].
Defined.

Definition down_tree : tree := {| t_up := false; t_entries := t_entries demo_tree |}.

Lemma outage_serves_last_answer_witness : let w := demo_world demo_tree in
  let w2 := {| w_dir := down_tree; w_redis := w_redis (groups_for demo_client 0 ada w).1 |} in
  (exists e, (expansion_of demo_client ada w).2 = Ok e /\
    (groups_for demo_client (899 * SECOND)%Z ada w2).2 = Ok (degraded_result (remembered e))) /\
  exists message, (groups_for demo_client (900 * SECOND)%Z ada w2).2 = Err (Unavailable message).
Proof.
  cbv zeta. set (w := demo_world demo_tree).
  assert (exists e, (expansion_of demo_client ada w).2 = Ok e /\ GroupWalk.truncated e = false) as (e & Ee & Ht)
    by (eexists; split; vm_compute; reflexivity).
  destruct (expansion_of demo_client ada w) as [w1 r1] eqn:E1. cbn [snd] in Ee. subst r1.
  set (w2 := {| w_dir := down_tree; w_redis := w_redis (groups_for demo_client 0 ada w).1 |}).
  assert ((expansion_of demo_client ada w2).2 = Err (Unavailable "connection refused")) as E2 by (vm_compute; reflexivity).
  destruct (expansion_of demo_client ada w2) as [w3 r3] eqn:E3. cbn [snd] in E2. subst r3.
  assert (forall t, r_view (w_redis w2) t (cache_key ada) = r_view (w_redis (groups_for demo_client 0 ada w).1) t (cache_key ada)) as Hs
    by (intros t; unfold w2; cbn [w_redis]; reflexivity).
  assert (0 <= 899 * SECOND)%Z as H899 by (apply Z.leb_le; reflexivity). assert (0 <= 900 * SECOND)%Z as H900 by (apply Z.leb_le; reflexivity).
  assert ((899 * SECOND <? 0 + 900 * SECOND)%Z = true) as L1 by reflexivity. assert ((900 * SECOND <? 0 + 900 * SECOND)%Z = false) as L2 by reflexivity.
  clearbody w2. split.
  - exists e. split; [reflexivity|].
    pose proof (outage_serves_last_answer demo_client 0 (899 * SECOND)%Z ada w w1 w2 w3 e _ usable_openldap E1 eq_refl Ht H899 (Hs _) E3) as [_ Ho].
    rewrite L1 in Ho. exact Ho.
  - exists "connection refused".
    pose proof (outage_serves_last_answer demo_client 0 (900 * SECOND)%Z ada w w1 w2 w3 e _ usable_openldap E1 eq_refl Ht H900 (Hs _) E3) as [_ Ho].
    rewrite L2 in Ho. exact Ho.
Defined.

Lemma bind_is_protected_witness : let c := {| url := "ldap://directory"; bind_dn := "cn=broker"; bind_password := "secret"; start_tls := true; allow_plaintext := false |} in
  [WOpen "ldap://directory" true; WStartTls; WBind] = (@connect _ (recorder (fun _ _ => Ok tt)) c []).1 /\
  @connect _ (recorder (fun _ call => match call with WStartTls => Err (OtherException "protocolError") | _ => Ok tt end)) c [] =
    ([WOpen "ldap://directory" true; WStartTls], Err (OtherException "protocolError")).
Proof.
  cbv zeta. set (c := {| url := _ |}). split; [|reflexivity].
  destruct (bind_is_protected (fun _ _ => Ok tt) c) as [Hs|[[E _]|[Ha _]]].
  - apply list_elem_of_further, list_elem_of_further, list_elem_of_here.
  - discriminate Hs.
  - symmetry. exact E.
  - discriminate Ha.
Defined.

(** ** What the source does that it does not say *)

(** During an outage the groups inherited are reported as direct ones. *)
Example inherited_reported_as_direct : let w := demo_world demo_tree in
  let w2 := {| w_dir := down_tree; w_redis := w_redis (groups_for demo_client 0 ada w).1 |} in
  (exists g, (groups_for demo_client 0 ada w).2 = Ok g /\ g_direct g = [JStr LMS]) /\
  exists g, (groups_for demo_client SECOND ada w2).2 = Ok g /\ g_direct g = [JStr LMS; JStr MEMBERS].
Proof. split; eexists; split; vm_compute; reflexivity. Qed.

(** Somebody who comes back is reported as provisioned and stays disabled. *)
Example returning_person_stays_disabled : let d := (disable demo_writer ADA demo_tree).1 in
  let spec := {| Orchestrator.ps_uid := "ada"; Orchestrator.ps_given_name := "Ada"; Orchestrator.ps_surname := "L"; Orchestrator.ps_mail := None;
                 Orchestrator.ps_display_name := None; Orchestrator.ps_principal_name := Some "ada@campus.test" |} in
  (exists r, (ensure_person demo_writer spec d).2 = Ok r /\ wr_changed r = false) /\
  (exists e, l_entry (ensure_person demo_writer spec d).1 ADA = Some e /\ disabled_in OPENLDAP e = true).
Proof. cbv zeta. split; eexists; split; vm_compute; reflexivity. Qed.

(** Two immutable identifiers sent as bytes that are not UTF-8 become one, and so
    does the cache entry of the two people. *)
Example byte_identifiers_collide :
  let guid c := fun n => if String.eqb n "objectGUID" then Some (One (IBytes (String (ascii_of_nat c) ""))) else None in
  let user c := _to_user ACTIVE_DIRECTORY {| en_type := None; en_dn := ADA; en_attributes := Some (guid c) |} in
  cache_key (user 200%nat) = cache_key (user 255%nat) /\ guid 200%nat "objectGUID" <> guid 255%nat "objectGUID".
Proof. split; [vm_compute; reflexivity|discriminate]. Qed.

End DirectoryLaws.
