(* ===== verification/ScimFilter.v ===== *)
(** * The SCIM filter and path grammar

    [campusid/scim/filters.py]: the tokenizer, the recursive-descent parser for
    query filters and PATCH paths, and the evaluation of a filter against a
    resource.  Error messages and token positions are not modelled.  A resource
    carries its strings as [JStr].  The length limit counts characters; of white
    space and digits between the tokens only the ASCII ones are recognised, where
    the source's regular expression takes those of Unicode. *)

From S2P Require Import Prelude PyStr Json.

Module ScimFilter.

Definition MAX_FILTER_LENGTH : nat := 4096.
Definition MAX_DEPTH : nat := 20.

(** Everything this module raises is one exception. *)
Inductive filter_error : Type := ScimFilterError.

Inductive Operator : Type := EQ | NE | CO | SW | EW | GT | GE | LT | LE.

#[global] Instance Operator_eq_dec : EqDecision Operator.
Proof. solve_decision. Defined.

(** [Operator(word)]. *)
Definition operator_of (word : string) : option Operator :=
  if String.eqb word "eq" then Some EQ else if String.eqb word "ne" then Some NE
  else if String.eqb word "co" then Some CO else if String.eqb word "sw" then Some SW
  else if String.eqb word "ew" then Some EW else if String.eqb word "gt" then Some GT
  else if String.eqb word "ge" then Some GE else if String.eqb word "lt" then Some LT
  else if String.eqb word "le" then Some LE else None.

Definition SUBSTRING (op : Operator) : bool :=
  match op with CO | SW | EW => true | _ => false end.

(** ** The syntax tree *)

Record AttrPath : Type := {
  attribute : string;
  sub_attribute : option string;
  urn : option string;
}.

Inductive Node : Type :=
| Comparison (path : AttrPath) (operator : Operator) (value : json)
| Present (path : AttrPath)
| ValuePath (path : AttrPath) (predicate : Node)
| And (left right : Node)
| Or (left right : Node)
| Not (inner : Node).

Record PatchPath : Type := {
  pp_path : AttrPath;
  pp_predicate : option Node;
  pp_sub_attribute : option string;
}.

(** ** The tokenizer *)

Inductive token : Type :=
| TLParen | TRParen | TLBracket | TRBracket
| TString (text : string)
| TNumber (text : string)
| TWord (text : string)
| TDot.

#[global] Instance token_eq_dec : EqDecision token.
Proof. solve_decision. Defined.

Definition is_digit (a : ascii) : bool :=
  (48 <=? nat_of_ascii a)%nat && (nat_of_ascii a <=? 57)%nat.
Definition is_letter (a : ascii) : bool :=
  let n := nat_of_ascii (Py.lower_ascii a) in (97 <=? n)%nat && (n <=? 122)%nat.
Definition is_word_char (a : ascii) : bool :=
  is_letter a || is_digit a || Py.has_char a "_:.$-".

(** The longest prefix of characters that satisfy [f], and the rest. *)
Fixpoint span (f : ascii -> bool) (s : string) : string * string :=
  match s with
  | String a s' => if f a then let '(p, r) := span f s' in (String a p, r) else (EmptyString, s)
  | EmptyString => (EmptyString, EmptyString)
  end.

Definition QUOTE : ascii := ascii_of_nat 34.
Definition BACKSLASH : ascii := ascii_of_nat 92.
Definition NEWLINE : ascii := ascii_of_nat 10.

(** A string literal after its opening quote, up to and with the closing one. *)
Fixpoint scan_string (s : string) : option (string * string) :=
  match s with
  | EmptyString => None
  | String a s' =>
      if Ascii.eqb a QUOTE then Some (String a EmptyString, s')
      else if Ascii.eqb a BACKSLASH then
        match s' with
        | String b s'' =>
            if Ascii.eqb b NEWLINE then None
            else '(p, r) ← scan_string s''; Some (String a (String b p), r)
        | EmptyString => None
        end
      else '(p, r) ← scan_string s'; Some (String a p, r)
  end.

(** An optional group: a marker character, an optional sign, and digits. *)
Definition scan_group (marker sign : ascii -> bool) (s : string) : string * string :=
  match s with
  | String a s' =>
      if marker a then
        let '(sg, s'') := match s' with
                          | String b s2 => if sign b then (String b EmptyString, s2) else (EmptyString, s')
                          | EmptyString => (EmptyString, s')
                          end in
        match span is_digit s'' with
        | (EmptyString, _) => (EmptyString, s)
        | (ds, rest) => (String a (sg +:+ ds), rest)
        end
      else (EmptyString, s)
  | EmptyString => (EmptyString, s)
  end.

Definition scan_number (s : string) : option (string * string) :=
  let '(minus, s1) := match s with
                      | String a s' => if Ascii.eqb a "-" then (String a EmptyString, s') else (EmptyString, s)
                      | EmptyString => (EmptyString, s)
                      end in
  match span is_digit s1 with
  | (EmptyString, _) => None
  | (ds, s2) =>
      let '(frac, s3) := scan_group (fun a => Ascii.eqb a ".") (fun _ => false) s2 in
      let '(expo, s4) := scan_group (fun a => Ascii.eqb (Py.lower_ascii a) "e")
                           (fun b => Ascii.eqb b "-" || Ascii.eqb b "+") s3 in
      Some (minus +:+ ds +:+ frac +:+ expo, s4)
  end.

(** [_TOKEN.match] at the head of a non-empty string: the token, or nothing for
    white space, and the rest; [None] when no alternative matches. *)
Definition next_token (s : string) : option (option token * string) :=
  match s with
  | EmptyString => None
  | String a s' =>
      if Py.is_space a then Some (None, (span Py.is_space s).2)
      else if Ascii.eqb a "(" then Some (Some TLParen, s')
      else if Ascii.eqb a ")" then Some (Some TRParen, s')
      else if Ascii.eqb a "[" then Some (Some TLBracket, s')
      else if Ascii.eqb a "]" then Some (Some TRBracket, s')
      else if Ascii.eqb a QUOTE then
        '(p, r) ← scan_string s'; Some (Some (TString (String a p)), r)
      else if is_digit a || Ascii.eqb a "-" then
        '(p, r) ← scan_number s; Some (Some (TNumber p), r)
      else if is_letter a then
        let '(p, r) := span is_word_char s in Some (Some (TWord p), r)
      else if Ascii.eqb a "." then Some (Some TDot, s')
      else None
  end.

#[global] Arguments next_token : simpl never.

(** Every match consumes something, so the length of the source bounds the
    number of matches. *)
Fixpoint tokenize_loop (fuel : nat) (s : string) : result filter_error (list token) :=
  match s, fuel with
  | EmptyString, _ => Ok []
  | _, O => Err ScimFilterError
  | _, S fuel' =>
      match next_token s with
      | None => Err ScimFilterError
      | Some (None, rest) => tokenize_loop fuel' rest
      | Some (Some tok, rest) => let* toks := tokenize_loop fuel' rest in Ok (tok :: toks)
      end
  end.

(** [len(source)]: the characters of a text in UTF-8 are the bytes that continue none. *)
Fixpoint char_count (s : string) : nat :=
  match s with
  | EmptyString => O
  | String a s' =>
      let n := nat_of_ascii a in
      if (128 <=? n)%nat && (n <? 192)%nat then char_count s' else S (char_count s')
  end.

Definition _tokenize (source : string) : result filter_error (list token) :=
  raise* ScimFilterError when (MAX_FILTER_LENGTH <? char_count source)%nat;
  tokenize_loop (String.length source) source.

(** ** Values and paths *)

(** The escapes are undone one after the other, each over the whole text. *)
Definition _unquote (text : string) : string :=
  let body := Py.slice text 1 (String.length text - 1) in
  let esc c := String BACKSLASH (String c EmptyString) in
  let one c := String c EmptyString in
  Py.replace (Py.replace (Py.replace (Py.replace (Py.replace (Py.replace body
    (esc QUOTE) (one QUOTE))
    (esc BACKSLASH) (one BACKSLASH))
    (esc "n"%char) (one NEWLINE))
    (esc "r"%char) (one (ascii_of_nat 13)))
    (esc "t"%char) (one (ascii_of_nat 9)))
    (esc "/"%char) (one "/"%char).

Definition _is_decimal (text : string) : bool :=
  Py.has_char "." text || Py.has_char "e" (Py.lower text).

Fixpoint digits_value (acc : Z) (s : string) : Z :=
  match s with
  | String a s' => digits_value (acc * 10 + Z.of_nat (nat_of_ascii a - 48)) s'
  | EmptyString => acc
  end.

(** [int(text)] for an optional sign and digits. *)
Definition int_of (text : string) : Z :=
  match text with
  | String a s' =>
      if Ascii.eqb a "-" then (- digits_value 0 s')%Z
      else if Ascii.eqb a "+" then digits_value 0 s' else digits_value 0 text
  | EmptyString => 0%Z
  end.

(** [float(text)] as the decimal the text denotes. *)
Definition float_of (text : string) : json :=
  let negative := Py.startswith text "-" in
  let s := Py.removeprefix text "-" in
  let '(whole, s1) := span is_digit s in
  let '(frac, s2) := match s1 with
                     | String a s' => if Ascii.eqb a "." then span is_digit s' else (EmptyString, s1)
                     | EmptyString => (EmptyString, s1)
                     end in
  let expo := match s2 with String _ s' => int_of s' | EmptyString => 0%Z end in
  let m := digits_value 0 (whole +:+ frac) in
  JDec (if negative then - m else m) (expo - Z.of_nat (String.length frac)).

Definition literal (word : string) : option json :=
  if String.eqb word "true" then Some (JBool true)
  else if String.eqb word "false" then Some (JBool false)
  else if String.eqb word "null" then Some JNull else None.

(** The value a token denotes, in [_parse_value]. *)
Definition token_value (tok : token) : option json :=
  match tok with
  | TString text => Some (JStr (_unquote text))
  | TNumber text => Some (if _is_decimal text then float_of text else JInt (int_of text))
  | TWord text => literal (Py.lower text)
  | _ => None
  end.

Definition nonempty (s : string) : option string := if String.eqb s "" then None else Some s.

Definition parse_attr_path (text : string) : result filter_error AttrPath :=
  let '(u, name) := Py.rpartition ":" text in
  raise* ScimFilterError when (match u with Some _ => String.eqb name "" | None => false end);
  let '(attr, sub) := Py.partition "." name in
  raise* ScimFilterError when String.eqb attr "";
  raise* ScimFilterError when Py.has_char "." (default "" sub);
  Ok {| attribute := attr; sub_attribute := sub ≫= nonempty; urn := u |}.

(** ** The parser *)

(** A step of the parser: the remaining tokens in, a result and what is left
    out. *)
Definition parsed (A : Type) : Type := result filter_error (A * list token).

Definition is_word (word : string) (tok : token) : bool :=
  match tok with TWord text => String.eqb (Py.lower text) word | _ => false end.

Definition _accept_word (word : string) (toks : list token) : option (list token) :=
  match toks with
  | tok :: rest => if is_word word tok then Some rest else None
  | [] => None
  end.

Definition _expect (expected : token -> bool) (toks : list token) : parsed token :=
  match toks with
  | tok :: rest => if expected tok then Ok (tok, rest) else Err ScimFilterError
  | [] => Err ScimFilterError
  end.

Definition is_rparen (tok : token) : bool := match tok with TRParen => true | _ => false end.
Definition is_lparen (tok : token) : bool := match tok with TLParen => true | _ => false end.
Definition is_rbracket (tok : token) : bool := match tok with TRBracket => true | _ => false end.

Definition _parse_attr_path (toks : list token) : parsed AttrPath :=
  match toks with
  | TWord text :: rest => let* path := parse_attr_path text in Ok (path, rest)
  | _ => Err ScimFilterError
  end.

Definition _parse_value (toks : list token) : parsed json :=
  match toks with
  | tok :: rest => match token_value tok with Some v => Ok (v, rest) | None => Err ScimFilterError end
  | [] => Err ScimFilterError
  end.

(** [while self._accept_word(word): node = join(node, operand)].  An iteration
    consumes a word, so the tokens bound the iterations. *)
Fixpoint chain (word : string) (join : Node -> Node -> Node) (operand : list token -> parsed Node)
    (fuel : nat) (node : Node) (toks : list token) : parsed Node :=
  match _accept_word word toks, fuel with
  | None, _ => Ok (node, toks)
  | Some _, O => Err ScimFilterError
  | Some rest, S fuel' =>
      let* '(next, toks') := operand rest in
      chain word join operand fuel' (join node next) toks'
  end.

(** The grammar with [nested] the parser one level down. *)
Section levels.
Context (nested : list token -> parsed Node).

Definition _parse_attribute_expression (toks : list token) : parsed Node :=
  let* '(path, toks) := _parse_attr_path toks in
  match toks with
  | TLBracket :: rest =>
      let* '(predicate, toks) := nested rest in
      let* '(_, toks) := _expect is_rbracket toks in
      Ok (ValuePath path predicate, toks)
  | TWord text :: rest =>
      let word := Py.lower text in
      if String.eqb word "pr" then Ok (Present path, rest)
      else match operator_of word with
           | None => Err ScimFilterError
           | Some op =>
               let* '(value, toks) := _parse_value rest in
               Ok (Comparison path op value, toks)
           end
  | _ => Err ScimFilterError
  end.

Definition _parse_unary (toks : list token) : parsed Node :=
  match _accept_word "not" toks with
  | Some rest =>
      let* '(_, toks) := _expect is_lparen rest in
      let* '(inner, toks) := nested toks in
      let* '(_, toks) := _expect is_rparen toks in
      Ok (Not inner, toks)
  | None =>
      match toks with
      | TLParen :: rest =>
          let* '(inner, toks) := nested rest in
          let* '(_, toks) := _expect is_rparen toks in
          Ok (inner, toks)
      | _ => _parse_attribute_expression toks
      end
  end.

Definition _parse_and (toks : list token) : parsed Node :=
  let* '(node, rest) := _parse_unary toks in
  chain "and" And _parse_unary (length rest) node rest.

Definition _parse_or (toks : list token) : parsed Node :=
  let* '(node, rest) := _parse_and toks in
  chain "or" Or _parse_and (length rest) node rest.
End levels.

(** [_Parser.parse_filter], with [levels] levels of nesting left:
    [MAX_DEPTH + 1 - depth]. *)
Fixpoint parse_at (levels : nat) (toks : list token) : parsed Node :=
  match levels with
  | O => Err ScimFilterError
  | S levels' => _parse_or (parse_at levels') toks
  end.

#[global] Arguments parse_at : simpl never.

Definition parse_filter (source : string) : result filter_error Node :=
  let* toks := _tokenize source in
  let* '(node, rest) := parse_at (MAX_DEPTH + 1) toks in
  match rest with [] => Ok node | _ => Err ScimFilterError end.

Definition parse_patch_path (source : string) : result filter_error PatchPath :=
  let* toks := _tokenize source in
  let* '(path, toks) := _parse_attr_path toks in
  match toks with
  | TLBracket :: rest =>
      raise* ScimFilterError when (match sub_attribute path with Some _ => true | None => false end);
      let* '(predicate, toks) := parse_at MAX_DEPTH rest in
      let* '(_, toks) := _expect is_rbracket toks in
      let bare := {| attribute := attribute path; sub_attribute := None; urn := urn path |} in
      match toks with
      | [] => Ok {| pp_path := bare; pp_predicate := Some predicate; pp_sub_attribute := None |}
      | [TDot; TWord name] =>
          raise* ScimFilterError when Py.has_char "." name || Py.has_char ":" name;
          Ok {| pp_path := bare; pp_predicate := Some predicate; pp_sub_attribute := Some name |}
      | _ => Err ScimFilterError
      end
  | [] => Ok {| pp_path := path; pp_predicate := None; pp_sub_attribute := sub_attribute path |}
  | _ => Err ScimFilterError
  end.

(** ** Evaluation *)

(** [_get_insensitive], with [JNull] for a missing attribute. *)
Fixpoint find_insensitive (lowered : string) (container : list (string * json)) : json :=
  match container with
  | [] => JNull
  | (key, value) :: rest => if String.eqb (Py.lower key) lowered then value else find_insensitive lowered rest
  end.
Definition _get_insensitive (container : list (string * json)) (name : string) : json :=
  match Json.lookup container name with
  | Some value => value
  | None => find_insensitive (Py.lower name) container
  end.

Definition is_null (j : json) : bool := match j with JNull => true | _ => false end.

(** The sub-attribute of every member that is an object and has it. *)
Definition collect (sub : string) (members : list json) : list json :=
  List.filter (fun j => negb (is_null j))
    (omap (fun member => match member with JObj m => Some (_get_insensitive m sub) | _ => None end) members).

Definition read_in (container : list (string * json)) (path : AttrPath) : json :=
  let value := _get_insensitive container (attribute path) in
  match sub_attribute path with
  | None => value
  | Some sub =>
      match value with
      | JArr members => match collect sub members with [] => JNull | l => JArr l end
      | JObj m => _get_insensitive m sub
      | _ => JNull
      end
  end.

Definition _read (resource : list (string * json)) (path : AttrPath) : json :=
  match urn path with
  | Some u => match _get_insensitive resource u with JObj extension => read_in extension path | _ => JNull end
  | None => read_in resource path
  end.

Definition _present (value : json) : bool :=
  match value with
  | JNull => false
  | JStr s => negb (String.eqb s "")
  | JArr l => match l with [] => false | _ => true end
  | JObj m => match m with [] => false | _ => true end
  | _ => true
  end.

(** Numbers, as decimals. *)
Definition number (j : json) : option (Z * Z) :=
  match j with JInt z => Some (z, 0%Z) | JDec m e => Some (m, e) | _ => None end.
Definition number_compare (a b : Z * Z) : comparison :=
  let low := Z.min a.2 b.2 in (a.1 * 10 ^ (a.2 - low) ?= b.1 * 10 ^ (b.2 - low))%Z.

Definition _equal (actual expected : json) : bool :=
  match actual, expected with
  | JBool a, JBool b => Bool.eqb a b
  | JBool _, _ | _, JBool _ => false
  | JStr a, JStr b => String.eqb (Py.lower a) (Py.lower b)
  | _, _ =>
      match number actual, number expected with
      | Some a, Some b => match number_compare a b with Eq => true | _ => false end
      | _, _ => bool_decide (actual = expected)
      end
  end.

Definition holds (operator : Operator) (c : comparison) : bool :=
  match operator, c with
  | GT, Gt | GE, (Gt | Eq) | LT, Lt | LE, (Lt | Eq) => true
  | _, _ => false
  end.

Definition _ordered (actual : json) (operator : Operator) (expected : json) : bool :=
  match actual, expected with
  | JStr a, JStr b => holds operator (String.compare (Py.lower a) (Py.lower b))
  | _, _ =>
      match number actual, number expected with
      | Some a, Some b => holds operator (number_compare a b)
      | _, _ => false
      end
  end.

Definition _compare_one (actual : json) (operator : Operator) (expected : json) : bool :=
  match operator with
  | NE => negb (_equal actual expected)
  | _ =>
      if is_null actual then false
      else match operator with
           | EQ => _equal actual expected
           | CO | SW | EW =>
               match actual, expected with
               | JStr a, JStr b =>
                   let haystack := Py.lower a in let needle := Py.lower b in
                   match operator with
                   | CO => Py.contains haystack needle
                   | SW => Py.startswith haystack needle
                   | _ => Py.endswith haystack needle
                   end
               | _, _ => false
               end
           | _ => _ordered actual operator expected
           end
  end.

Definition _compare (path : AttrPath) (operator : Operator) (value : json)
    (resource : list (string * json)) : bool :=
  match _read resource path with
  | JArr l => existsb (fun actual => _compare_one actual operator value) l
  | actual => _compare_one actual operator value
  end.

Fixpoint matches (node : Node) (resource : list (string * json)) : bool :=
  match node with
  | And a b => matches a resource && matches b resource
  | Or a b => matches a resource || matches b resource
  | Not inner => negb (matches inner resource)
  | Present path => _present (_read resource path)
  | ValuePath path predicate =>
      match _read resource path with
      | JArr members =>
          existsb (fun member => match member with JObj m => matches predicate m | _ => false end) members
      | _ => false
      end
  | Comparison path operator value => _compare path operator value resource
  end.

Definition member_matches (predicate : Node) (member : json) : bool :=
  match member with JObj m => matches predicate m | _ => false end.

Fixpoint select_from (predicate : Node) (index : nat) (members : list json) : list nat :=
  match members with
  | [] => []
  | member :: rest =>
      if member_matches predicate member then index :: select_from predicate (S index) rest
      else select_from predicate (S index) rest
  end.
Definition select_members (predicate : Node) (members : list json) : list nat :=
  select_from predicate 0 members.

(** Filters in the examples, with apostrophes for the quotation marks. *)
Definition quoted (s : string) : string := Py.replace s "'" (String QUOTE EmptyString).

Example filter_precedence :
  match parse_filter (quoted "emails[type eq 'work'] and not (userName co 'x') or active eq true") with
  | Ok (Or (And (ValuePath _ _) (Not _)) (Comparison _ EQ (JBool true))) => true
  | _ => false
  end = true.
Proof. vm_compute. reflexivity. Qed.

(** ** The grammar

    RFC 7644's productions, with the precedence the parser gives them and a
    bound on the nesting.  [N] derives what may stand inside parentheses and
    brackets. *)

Section grammar.
Context (N : Node -> list token -> Prop).

Inductive attrExp : Node -> list token -> Prop :=
| attrExp_present text w path :
    is_word "not" (TWord text) = false -> parse_attr_path text = Ok path -> is_word "pr" (TWord w) = true ->
    attrExp (Present path) [TWord text; TWord w]
| attrExp_compare text w path op tok v :
    is_word "not" (TWord text) = false -> parse_attr_path text = Ok path ->
    operator_of (Py.lower w) = Some op -> token_value tok = Some v ->
    attrExp (Comparison path op v) [TWord text; TWord w; tok]
| attrExp_value_path text path n ts :
    is_word "not" (TWord text) = false -> parse_attr_path text = Ok path -> N n ts ->
    attrExp (ValuePath path n) (TWord text :: TLBracket :: ts ++ [TRBracket]).

Inductive unaryExp : Node -> list token -> Prop :=
| unaryExp_not w n ts : is_word "not" w = true -> N n ts -> unaryExp (Not n) (w :: TLParen :: ts ++ [TRParen])
| unaryExp_group n ts : N n ts -> unaryExp n (TLParen :: ts ++ [TRParen])
| unaryExp_attr n ts : attrExp n ts -> unaryExp n ts.

Inductive andExp : Node -> list token -> Prop :=
| andExp_one n ts : unaryExp n ts -> andExp n ts
| andExp_more a b w ts1 ts2 :
    andExp a ts1 -> is_word "and" w = true -> unaryExp b ts2 -> andExp (And a b) (ts1 ++ w :: ts2).

Inductive orExp : Node -> list token -> Prop :=
| orExp_one n ts : andExp n ts -> orExp n ts
| orExp_more a b w ts1 ts2 :
    orExp a ts1 -> is_word "or" w = true -> andExp b ts2 -> orExp (Or a b) (ts1 ++ w :: ts2).
End grammar.

(** A filter with at most [levels] levels of nesting, the outermost included. *)
Fixpoint filterExp (levels : nat) : Node -> list token -> Prop :=
  match levels with
  | O => fun _ _ => False
  | S levels' => orExp (filterExp levels')
  end.

(** The next token does not continue a chain of [word]s. *)
Definition stops (word : string) (rest : list token) : Prop := _accept_word word rest = None.

Lemma is_word_inj w word word' : is_word word w = true -> is_word word' w = true -> word = word'.
Proof. destruct w; simpl; try done. intros. bool_prop. congruence. Qed.

Lemma word_stops word word' w rest : is_word word w = true -> word <> word' -> stops word' (w :: rest).
Proof.
  intros Hw Hne. unfold stops. simpl. destruct (is_word word' w) eqn:E; [|done].
  by rewrite (is_word_inj _ _ _ Hw E) in Hne.
Qed.

Lemma operator_not_pr w op : operator_of w = Some op -> String.eqb w "pr" = false.
Proof. intros H. destruct (String.eqb_spec w "pr") as [->|]; [done|done]. Qed.

Section agreement.
Context (nested : list token -> parsed Node) (N : Node -> list token -> Prop).
Context (nested_sound : forall toks n rest, nested toks = Ok (n, rest) -> exists ts, toks = ts ++ rest /\ N n ts).
Context (nested_complete : forall n ts rest, N n ts -> stops "and" rest -> stops "or" rest ->
  nested (ts ++ rest) = Ok (n, rest)).

Lemma closing_stops word tok rest : (forall t, tok <> TWord t) -> stops word (tok :: rest).
Proof. intros Ht. unfold stops. destruct tok; simpl; try done. by destruct (Ht text). Qed.

Lemma nested_closed n ts tok rest : N n ts -> (forall t, tok <> TWord t) ->
  nested ((ts ++ [tok]) ++ rest) = Ok (n, tok :: rest).
Proof. intros Hn Ht. rewrite <- app_assoc. apply nested_complete; [done|by apply closing_stops..]. Qed.

Lemma unary_complete n ts rest : unaryExp N n ts -> _parse_unary nested (ts ++ rest) = Ok (n, rest).
Proof.
  intros [w m ts' Hw Hn|m ts' Hn|m ts' Ha]; simpl.
  - unfold _parse_unary. simpl. rewrite Hw. simpl. by erewrite nested_closed.
  - unfold _parse_unary. simpl. by erewrite nested_closed.
  - destruct Ha as [text w path Hnot Hp Hw|text w path op tok v Hnot Hp Hop Hv|text path m2 ts2 Hnot Hp Hn];
      unfold _parse_unary; cbn [app _accept_word]; rewrite Hnot; unfold _parse_attribute_expression; simpl;
      rewrite Hp; simpl.
    + simpl in Hw. by rewrite Hw.
    + by rewrite (operator_not_pr _ _ Hop), Hop; simpl; rewrite Hv.
    + by erewrite nested_closed.
Qed.

Lemma expect_ok f toks tok rest : _expect f toks = Ok (tok, rest) -> toks = tok :: rest /\ f tok = true.
Proof. destruct toks as [|t l]; simpl; [done|]. destruct (f t) eqn:E; [|done]. by intros [= -> ->]. Qed.

Lemma attr_sound toks n rest :
  is_word "not" (hd TDot toks) = false ->
  _parse_attribute_expression nested toks = Ok (n, rest) -> exists ts, toks = ts ++ rest /\ attrExp N n ts.
Proof.
  intros Hnot. unfold _parse_attribute_expression, _parse_attr_path.
  destruct toks as [|[| | | |t|t|text|] toks]; simpl; try done. simpl in Hnot.
  destruct (parse_attr_path text) as [path|] eqn:Hp; simpl; [|done].
  destruct toks as [|[| | | |t|t|w|] toks]; simpl; try done.
  - destruct (nested toks) as [[m toks1]|] eqn:Hn; simpl; [|done].
    destruct (_expect is_rbracket toks1) as [[tok toks2]|] eqn:He; simpl; [|done]. intros [= <- <-].
    apply expect_ok in He as [-> Htok]. destruct tok; try done.
    destruct (nested_sound _ _ _ Hn) as (ts & -> & HN). exists (TWord text :: TLBracket :: ts ++ [TRBracket]).
    split; [simpl; by rewrite <- (assoc_L app)|by constructor].
  - destruct (String.eqb (Py.lower w) "pr") eqn:Hpr.
    + intros [= <- <-]. exists [TWord text; TWord w]. split; [done|by constructor].
    + destruct (operator_of (Py.lower w)) as [op|] eqn:Hop; [|done].
      destruct toks as [|tok toks]; simpl; [done|]. destruct (token_value tok) as [v|] eqn:Hv; simpl; [|done].
      intros [= <- <-]. exists [TWord text; TWord w; tok]. split; [done|by econstructor].
Qed.

Lemma unary_sound toks n rest :
  _parse_unary nested toks = Ok (n, rest) -> exists ts, toks = ts ++ rest /\ unaryExp N n ts.
Proof.
  unfold _parse_unary. destruct (_accept_word "not" toks) as [toks1|] eqn:Hnot.
  - destruct toks as [|w toks]; [done|]. simpl in Hnot. destruct (is_word "not" w) eqn:Hw; [|done].
    injection Hnot as ->. destruct (_expect is_lparen toks1) as [[tok toks2]|] eqn:He; simpl; [|done].
    apply expect_ok in He as [-> Htok]. destruct tok; try done.
    destruct (nested toks2) as [[m toks3]|] eqn:Hn; simpl; [|done].
    destruct (_expect is_rparen toks3) as [[tok toks4]|] eqn:He; simpl; [|done]. intros [= <- <-].
    apply expect_ok in He as [-> Htok']. destruct tok; try done.
    destruct (nested_sound _ _ _ Hn) as (ts & -> & HN). exists (w :: TLParen :: ts ++ [TRParen]).
    split; [simpl; by rewrite <- (assoc_L app)|by constructor].
  - assert (is_word "not" (hd TDot toks) = false) as Hhd.
    { destruct toks as [|w toks]; [done|]. simpl in *. by destruct (is_word "not" w). }
    intros H. destruct toks as [|w toks]; [by apply attr_sound in H as (ts & E & Ha); [|done]; exists ts; split; [|constructor]|].
    destruct (decide (w = TLParen)) as [->|Hw].
    + destruct (nested toks) as [[m toks3]|] eqn:Hn; simpl in H; [|done].
      destruct (_expect is_rparen toks3) as [[tok toks4]|] eqn:He; simpl in H; [|done]. injection H as <- <-.
      apply expect_ok in He as [-> Htok]. destruct tok; try done.
      destruct (nested_sound _ _ _ Hn) as (ts & -> & HN). exists (TLParen :: ts ++ [TRParen]).
      split; [simpl; by rewrite <- (assoc_L app)|by constructor].
    + assert (_parse_attribute_expression nested (w :: toks) = Ok (n, rest)) as H' by (by destruct w).
      apply attr_sound in H' as (ts & E & Ha); [|done]. exists ts. split; [done|by constructor].
Qed.

(** A chain of operands, for either connective. *)
Section chains.
Context (word : string) (join : Node -> Node -> Node) (operand : list token -> parsed Node).
Context (O L : Node -> list token -> Prop).
Context (L_more : forall a b w ts1 ts2, L a ts1 -> is_word word w = true -> O b ts2 -> L (join a b) (ts1 ++ w :: ts2)).

Lemma chain_stops fuel node toks : stops word toks -> chain word join operand fuel node toks = Ok (node, toks).
Proof. intros Hs. destruct fuel; simpl; by rewrite Hs. Qed.

Lemma chain_sound fuel node toks n rest ts0 :
  (forall toks n rest, operand toks = Ok (n, rest) -> exists ts, toks = ts ++ rest /\ O n ts) ->
  chain word join operand fuel node toks = Ok (n, rest) -> L node ts0 ->
  exists ts, toks = ts ++ rest /\ L n (ts0 ++ ts).
Proof.
  intros Hop. revert node toks ts0. induction fuel as [|fuel IH]; intros node toks ts0 H HL; simpl in H.
  - destruct (_accept_word word toks); [done|]. injection H as -> ->. exists []. by rewrite app_nil_r.
  - destruct (_accept_word word toks) as [toks1|] eqn:Ha; [|injection H as -> ->; exists []; by rewrite app_nil_r].
    destruct toks as [|w toks]; [done|]. simpl in Ha. destruct (is_word word w) eqn:Hw; [|done].
    injection Ha as ->. destruct (operand toks1) as [[m toks2]|] eqn:Ho; simpl in H; [|done].
    destruct (Hop _ _ _ Ho) as (ts1 & -> & HO).
    destruct (IH _ _ (ts0 ++ w :: ts1) H) as (ts2 & -> & HL2); [by apply L_more|].
    exists (w :: ts1 ++ ts2). split; [simpl; by rewrite (assoc_L app)|]. rewrite <- (assoc_L app) in HL2. done.
Qed.
End chains.

Lemma and_sound toks n rest :
  _parse_and nested toks = Ok (n, rest) -> exists ts, toks = ts ++ rest /\ andExp N n ts.
Proof.
  unfold _parse_and. destruct (_parse_unary nested toks) as [[m toks1]|] eqn:Hu; simpl; [|done]. intros Hc.
  apply unary_sound in Hu as (ts & -> & Hu).
  destruct (chain_sound _ _ _ (unaryExp N) (andExp N) (andExp_more N) _ _ _ _ _ ts unary_sound Hc) as (ts2 & -> & Ha).
  { by constructor. }
  exists (ts ++ ts2). by rewrite (assoc_L app).
Qed.

Lemma or_sound toks n rest :
  _parse_or nested toks = Ok (n, rest) -> exists ts, toks = ts ++ rest /\ orExp N n ts.
Proof.
  unfold _parse_or. destruct (_parse_and nested toks) as [[m toks1]|] eqn:Hu; simpl; [|done]. intros Hc.
  apply and_sound in Hu as (ts & -> & Hu).
  destruct (chain_sound _ _ _ (andExp N) (orExp N) (orExp_more N) _ _ _ _ _ ts and_sound Hc) as (ts2 & -> & Ha).
  { by constructor. }
  exists (ts ++ ts2). by rewrite (assoc_L app).
Qed.

(** After the tokens of an [andExp] the parser is in its loop with that node. *)
Lemma and_reaches n ts rest : andExp N n ts ->
  exists fuel, (length rest <= fuel)%nat /\
    _parse_and nested (ts ++ rest) = chain "and" And (_parse_unary nested) fuel n rest.
Proof.
  intros Ha. revert rest. induction Ha as [n ts Hu|a b w ts1 ts2 Ha IH Hw Hb]; intros rest.
  - exists (length rest). split; [done|]. unfold _parse_and. by rewrite (unary_complete _ _ _ Hu).
  - rewrite <- (assoc_L app). simpl. destruct (IH (w :: ts2 ++ rest)) as (fuel & Hf & ->).
    simpl in Hf. rewrite length_app in Hf. destruct fuel as [|fuel]; [lia|]. simpl. rewrite Hw.
    rewrite (unary_complete _ _ _ Hb). simpl. exists fuel. split; [lia|done].
Qed.

Lemma and_complete n ts rest : andExp N n ts -> stops "and" rest -> _parse_and nested (ts ++ rest) = Ok (n, rest).
Proof. intros Ha Hs. destruct (and_reaches _ _ rest Ha) as (fuel & _ & ->). by apply chain_stops. Qed.

Lemma or_reaches n ts rest : orExp N n ts -> stops "and" rest ->
  exists fuel, (length rest <= fuel)%nat /\
    _parse_or nested (ts ++ rest) = chain "or" Or (_parse_and nested) fuel n rest.
Proof.
  intros Ho. revert rest. induction Ho as [n ts Ha|a b w ts1 ts2 Ho IH Hw Hb]; intros rest Hs.
  - exists (length rest). split; [done|]. unfold _parse_or. by rewrite (and_complete _ _ _ Ha Hs).
  - rewrite <- (assoc_L app). simpl. destruct (IH (w :: ts2 ++ rest)) as (fuel & Hf & ->).
    { by eapply word_stops. }
    simpl in Hf. rewrite length_app in Hf. destruct fuel as [|fuel]; [lia|]. simpl. rewrite Hw.
    rewrite (and_complete _ _ _ Hb Hs). simpl. exists fuel. split; [lia|done].
Qed.

Lemma or_complete n ts rest : orExp N n ts -> stops "and" rest -> stops "or" rest ->
  _parse_or nested (ts ++ rest) = Ok (n, rest).
Proof. intros Ho Ha Hs. destruct (or_reaches _ _ rest Ho Ha) as (fuel & _ & ->). by apply chain_stops. Qed.
End agreement.

Lemma parse_at_sound levels toks n rest :
  parse_at levels toks = Ok (n, rest) -> exists ts, toks = ts ++ rest /\ filterExp levels n ts.
Proof. revert toks n rest. induction levels as [|l IH]; intros toks n rest; [done|]. by apply or_sound. Qed.

Lemma parse_at_complete levels n ts rest :
  filterExp levels n ts -> stops "and" rest -> stops "or" rest -> parse_at levels (ts ++ rest) = Ok (n, rest).
Proof. revert n ts rest. induction levels as [|l IH]; intros n ts rest; [done|]. by apply or_complete. Qed.

(** C36: The parser accepts exactly the grammar.  A source parses to a node if
    and only if its tokens derive that node in RFC 7644's grammar, with [not]
    binding tighter than [and] and [and] tighter than [or], and at most
    [MAX_DEPTH] levels of parentheses and brackets; so a filter has one reading,
    and one nested deeper is refused. *)
Theorem parser_accepts_grammar (source : string) (n : Node) :
  parse_filter source = Ok n <->
    exists toks, _tokenize source = Ok toks /\ filterExp (MAX_DEPTH + 1) n toks.
Proof.
  unfold parse_filter. destruct (_tokenize source) as [toks|e]; cbn [rbind]; [|naive_solver].
  split.
  - intros H. exists toks. split; [done|].
    destruct (parse_at (MAX_DEPTH + 1) toks) as [[m [|t l]]|] eqn:Hp; cbn [rbind] in H; try done.
    injection H as <-. apply parse_at_sound in Hp as (ts & -> & Hf). by rewrite app_nil_r.
  - intros (toks' & [= <-] & Hf). rewrite <- (app_nil_r toks).
    rewrite (parse_at_complete _ n toks []); [done|exact Hf|done..].
Qed.

(** ** The tokenizer reads everything *)

Lemma span_app f s : (span f s).1 +:+ (span f s).2 = s.
Proof.
  induction s as [|a s IH]; simpl; [done|]. destruct (f a); [|done].
  destruct (span f s) as [p r]. simpl in *. by rewrite Py.app_String, IH.
Qed.

Lemma scan_string_app s p r : scan_string s = Some (p, r) -> p +:+ r = s.
Proof.
  revert p r. induction s as [s IH] using (well_founded_induction (well_founded_ltof _ String.length)).
  intros p r. destruct s as [|a s]; simpl; [done|]. destruct (Ascii.eqb a QUOTE); [by intros [= <- <-]|].
  destruct (Ascii.eqb a BACKSLASH).
  - destruct s as [|b s]; [done|]. destruct (Ascii.eqb b NEWLINE); [done|].
    destruct (scan_string s) as [[p' r']|] eqn:E; simpl; [|done]. intros [= <- <-].
    rewrite !Py.app_String. do 2 f_equal. apply IH; [unfold ltof; simpl; lia|done].
  - destruct (scan_string s) as [[p' r']|] eqn:E; simpl; [|done]. intros [= <- <-].
    rewrite Py.app_String. f_equal. apply IH; [unfold ltof; simpl; lia|done].
Qed.

Lemma scan_group_app marker sign s : (scan_group marker sign s).1 +:+ (scan_group marker sign s).2 = s.
Proof.
  unfold scan_group. destruct s as [|a s]; [done|]. destruct (marker a); [|done].
  destruct s as [|b s2]; [done|]. destruct (sign b).
  - pose proof (span_app is_digit s2) as Hs. destruct (span is_digit s2) as [[|d ds] rest]; [done|]. simpl in *.
    rewrite <- Hs. by rewrite !Py.app_String.
  - pose proof (span_app is_digit (String b s2)) as Hs.
    destruct (span is_digit (String b s2)) as [[|d ds] rest]; [done|]. simpl in *.
    rewrite <- Hs. by rewrite !Py.app_String.
Qed.

Lemma scan_number_app s p r : scan_number s = Some (p, r) -> p +:+ r = s /\ p <> EmptyString.
Proof.
  unfold scan_number. set (mp := match s with String a s' => _ | EmptyString => _ end).
  assert (mp.1 +:+ mp.2 = s) as Hm.
  { unfold mp. destruct s as [|a s']; [done|]. by destruct (Ascii.eqb a "-"). }
  clearbody mp. destruct mp as [minus s1]. simpl in Hm.
  pose proof (span_app is_digit s1) as Hd. destruct (span is_digit s1) as [[|d ds] s2]; [done|].
  pose proof (scan_group_app (fun a => Ascii.eqb a ".") (fun _ => false) s2) as Hf.
  destruct (scan_group _ _ s2) as [frac s3].
  pose proof (scan_group_app (fun a => Ascii.eqb (Py.lower_ascii a) "e")
    (fun b => Ascii.eqb b "-" || Ascii.eqb b "+") s3) as He.
  destruct (scan_group _ _ s3) as [expo s4]. simpl in *. intros [= <- <-]. split.
  - rewrite !Py.app_assoc, He, Hf. by rewrite <- Hm, <- Hd.
  - by destruct minus.
Qed.

Definition token_text (tok : token) : string :=
  match tok with
  | TLParen => "(" | TRParen => ")" | TLBracket => "[" | TRBracket => "]" | TDot => "."
  | TString t | TNumber t | TWord t => t
  end.

(** A match is a run of white space, or a token, at the head of the source. *)
Lemma next_token_text s o rest :
  next_token s = Some (o, rest) ->
  exists text, s = text +:+ rest /\ text <> EmptyString /\
    match o with Some tok => text = token_text tok | None => Py.sforall Py.is_space text = true end.
Proof.
  unfold next_token. destruct s as [|a s]; [done|].
  assert (forall f (t : string), Py.sforall f (span f t).1 = true) as Hspan.
  { intros f t. induction t as [|b t IH]; simpl; [done|]. destruct (f b) eqn:Ef; [|done].
    destruct (span f t) as [p r]. simpl in *. by rewrite Ef, IH. }
  destruct (Py.is_space a) eqn:Esp.
  { intros [= <- <-]. exists (span Py.is_space (String a s)).1. rewrite span_app. split_and!; [done| |apply Hspan].
    simpl. rewrite Esp. by destruct (span _ s). }
  do 4 (match goal with |- context [Ascii.eqb a ?c] =>
    destruct (Ascii.eqb_spec a c) as [->|_]; [intros [= <- <-]; by exists (String c EmptyString)|] end).
  destruct (Ascii.eqb_spec a QUOTE) as [->|_].
  { destruct (scan_string s) as [[p r]|] eqn:E; simpl; [|done]. intros [= <- <-].
    apply scan_string_app in E as <-. exists (String QUOTE p). by rewrite Py.app_String. }
  destruct (is_digit a || Ascii.eqb a "-").
  { destruct (scan_number (String a s)) as [[p r]|] eqn:E; simpl; [|done]. intros [= <- <-].
    apply scan_number_app in E as [E Hp]. by exists p. }
  destruct (is_letter a) eqn:El.
  { pose proof (span_app is_word_char (String a s)) as Hw.
    destruct (span is_word_char (String a s)) as [p r] eqn:Ep. intros [= <- <-]. simpl in Hw. exists p.
    split_and!; [done| |done]. simpl in Ep. unfold is_word_char in Ep at 1. rewrite El in Ep. simpl in Ep.
    destruct (span is_word_char s). by injection Ep as <- <-. }
  destruct (Ascii.eqb_spec a ".") as [->|_]; [|done]. intros [= <- <-]. by exists ".".
Qed.

(** The tokens of a source, with white space between them. *)
Fixpoint spells (toks : list token) (source : string) : Prop :=
  match toks with
  | [] => Py.sforall Py.is_space source = true
  | tok :: rest =>
      exists gap tail, Py.sforall Py.is_space gap = true /\ source = gap +:+ token_text tok +:+ tail /\ spells rest tail
  end.

Lemma spells_gap toks gap s : Py.sforall Py.is_space gap = true -> spells toks s -> spells toks (gap +:+ s).
Proof.
  intros Hg. destruct toks as [|tok toks]; simpl.
  - intros Hs. by rewrite Py.sforall_app, Hg.
  - intros (g & tail & Hsp & -> & Hr). exists (gap +:+ g), tail. rewrite Py.sforall_app, Hg, Hsp. by rewrite Py.app_assoc.
Qed.

(** No character is dropped: what is not white space is in a token. *)
Lemma tokenize_loop_spells fuel s toks : tokenize_loop fuel s = Ok toks -> spells toks s.
Proof.
  revert s toks. induction fuel as [|fuel IH]; intros s toks; destruct s as [|a s']; simpl;
    try (by intros [= <-]); try done.
  destruct (next_token (String a s')) as [[[tok|] rest]|] eqn:E; [| |done];
    apply next_token_text in E as (text & -> & Hne & Ht).
  - destruct (tokenize_loop fuel rest) as [l|] eqn:El; simpl; [|done]. intros [= <-]. subst text.
    exists EmptyString, rest. split_and!; [done|done|by apply IH].
  - intros Hl. by apply spells_gap, IH.
Qed.

(** Fuel beyond the length of the source makes no difference. *)
Lemma tokenize_loop_fuel fuel s :
  (String.length s <= fuel)%nat -> tokenize_loop fuel s = tokenize_loop (S fuel) s.
Proof.
  revert s. induction fuel as [|fuel IH]; intros s Hl; [by destruct s; simpl in Hl; [|lia]|].
  destruct s as [|a s']; [done|]. cbn [tokenize_loop].
  destruct (next_token (String a s')) as [[o rest]|] eqn:E; [|done].
  apply next_token_text in E as (text & Es & Hne & _).
  assert (String.length rest <= fuel)%nat as Hr.
  { rewrite Es in Hl. rewrite Py.length_app in Hl. destruct text; simpl in *; [done|lia]. }
  destruct o; by rewrite (IH rest Hr).
Qed.

(** ** Names and strings compare without regard to case *)

Definition lower_path (p : AttrPath) : AttrPath :=
  {| attribute := Py.lower (attribute p); sub_attribute := Py.lower <$> sub_attribute p; urn := Py.lower <$> urn p |}.

Definition lower_value (v : json) : json := match v with JStr s => JStr (Py.lower s) | _ => v end.

Fixpoint lower_node (n : Node) : Node :=
  match n with
  | Comparison p op v => Comparison (lower_path p) op (lower_value v)
  | Present p => Present (lower_path p)
  | ValuePath p m => ValuePath (lower_path p) (lower_node m)
  | And a b => And (lower_node a) (lower_node b)
  | Or a b => Or (lower_node a) (lower_node b)
  | Not m => Not (lower_node m)
  end.

(** No object has two keys that differ only in case. *)
Fixpoint well_cased (j : json) : Prop :=
  match j with
  | JObj m => NoDup (Py.lower <$> m.*1) /\ foldr (fun kv P => well_cased kv.2 /\ P) True m
  | JArr l => foldr (fun x P => well_cased x /\ P) True l
  | _ => True
  end.

Lemma well_cased_get m name : well_cased (JObj m) -> well_cased (_get_insensitive m name).
Proof.
  intros [_ H]. unfold _get_insensitive. destruct (Json.lookup m name) as [v|] eqn:E.
  - revert H E. induction m as [|[k x] m IH]; simpl; [done|]. intros [? ?]. destruct (String.eqb name k); [by intros [= <-]|auto].
  - clear E. generalize (Py.lower name) as l. intros l. induction m as [|[k x] m IH]; simpl in *; [done|].
    destruct H. destruct (String.eqb (Py.lower k) l); auto.
Qed.

Lemma get_lower m name : NoDup (Py.lower <$> m.*1) -> _get_insensitive m name = find_insensitive (Py.lower name) m.
Proof.
  intros Hd. unfold _get_insensitive. destruct (Json.lookup m name) as [v|] eqn:E; [|done].
  induction m as [|[k x] m IH]; [done|]. csimpl in Hd. apply list.NoDup_cons in Hd as [Hk Hd]. simpl in E |- *.
  destruct (String.eqb_spec name k) as [<-|Hne]; [by rewrite String.eqb_refl; injection E as ->|].
  destruct (String.eqb_spec (Py.lower k) (Py.lower name)) as [El|_]; [|by apply IH].
  destruct Hk. rewrite El. apply list_elem_of_fmap_2. by eapply Json.lookup_Some_elem.
Qed.

Lemma get_insensitive_lower m name :
  well_cased (JObj m) -> _get_insensitive m (Py.lower name) = _get_insensitive m name.
Proof. intros [Hd _]. by rewrite !get_lower, Py.lower_idem by done. Qed.

Lemma well_cased_elem l x : well_cased (JArr l) -> x ∈ l -> well_cased x.
Proof. simpl. induction l as [|y l IH]; simpl; [set_solver|]. intros [? ?] [->|?]%elem_of_cons; auto. Qed.

Lemma collect_lower sub l : well_cased (JArr l) -> collect (Py.lower sub) l = collect sub l.
Proof.
  intros Hw. unfold collect. f_equal. induction l as [|x l IH]; [done|]. destruct Hw as [Hx Hw].
  csimpl. rewrite IH by done. destruct x; try done. by rewrite get_insensitive_lower.
Qed.

Lemma well_cased_collect sub l : well_cased (JArr l) -> well_cased (JArr (collect sub l)).
Proof.
  intros Hw. unfold collect. induction l as [|x l IH]; [done|]. destruct Hw as [Hx Hw].
  csimpl. destruct x; csimpl; try (by apply IH). destruct (is_null _); simpl; [by apply IH|].
  split; [by apply well_cased_get|by apply IH].
Qed.

Lemma read_in_lower m p :
  well_cased (JObj m) -> read_in m (lower_path p) = read_in m p /\ well_cased (read_in m p).
Proof.
  intros Hw. unfold read_in, lower_path. simpl. rewrite get_insensitive_lower by done.
  pose proof (well_cased_get m (attribute p) Hw) as Hv. destruct (sub_attribute p) as [sub|]; simpl; [|done].
  destruct (_get_insensitive m (attribute p)) as [| | | | | |l|o]; try done.
  - rewrite collect_lower by done. split; [done|]. pose proof (well_cased_collect sub l Hv). by destruct (collect sub l).
  - rewrite get_insensitive_lower by done. split; [done|by apply well_cased_get].
Qed.

Lemma read_lower m p : well_cased (JObj m) -> _read m (lower_path p) = _read m p /\ well_cased (_read m p).
Proof.
  intros Hw. unfold _read. simpl. destruct (urn p) as [u|]; simpl; [|by apply read_in_lower].
  rewrite get_insensitive_lower by done. pose proof (well_cased_get m u Hw) as Hv.
  destruct (_get_insensitive m u); try done. by apply read_in_lower.
Qed.

Lemma compare_one_lower actual op v : _compare_one actual op (lower_value v) = _compare_one actual op v.
Proof. destruct op, v, actual; simpl; try done; by rewrite Py.lower_idem. Qed.

Lemma existsb_ext {A} (f g : A -> bool) l : (forall x, x ∈ l -> f x = g x) -> existsb f l = existsb g l.
Proof. intros H. induction l as [|x l IH]; simpl; [done|]. rewrite H, IH; set_solver. Qed.

Lemma matches_lower n m : well_cased (JObj m) -> matches (lower_node n) m = matches n m.
Proof.
  revert m. induction n as [p op v|p|p n IH|a IHa b IHb|a IHa b IHb|n IH]; intros m Hw; simpl.
  - unfold _compare. destruct (read_lower m p Hw) as [-> _].
    destruct (_read m p); try apply compare_one_lower. apply existsb_ext. intros; apply compare_one_lower.
  - by destruct (read_lower m p Hw) as [-> _].
  - destruct (read_lower m p Hw) as [-> Hr]. destruct (_read m p) as [| | | | | |l|]; try done.
    apply existsb_ext. intros x Hx. pose proof (well_cased_elem _ _ Hr Hx). destruct x; try done. by apply IH.
  - by rewrite IHa, IHb.
  - by rewrite IHa, IHb.
  - by rewrite IH.
Qed.

(** Filters that differ only in case select the same resources.  Attribute
    names, schema URIs and string literals may be written in any case; on a
    resource in which no two names differ only in case the answer is the same. *)
Theorem filter_case_insensitive (n n' : Node) (resource : list (string * json)) :
  well_cased (JObj resource) -> lower_node n = lower_node n' -> matches n resource = matches n' resource.
Proof. intros Hw E. rewrite <- (matches_lower n), <- (matches_lower n') by done. by rewrite E. Qed.

(** A missing attribute answers every comparison but [ne] with no, and [ne]
    with yes unless it is compared with null. *)
Lemma missing_attribute path op v resource :
  _read resource path = JNull ->
  matches (Comparison path op v) resource = match op with NE => negb (is_null v) | _ => false end.
Proof. intros E. simpl. unfold _compare. rewrite E. by destruct op, v. Qed.

(** Escapes are undone twice.  A literal that spells a backslash and the
    letter n, both escaped the way the grammar prescribes, is read as a line
    break, so the value sent is not the value compared. *)
Theorem unquote_undoes_twice :
  let literal := String QUOTE (String BACKSLASH (String BACKSLASH (String "n" (String QUOTE EmptyString)))) in
  _unquote literal = String NEWLINE EmptyString /\
  parse_filter ("x eq " +:+ literal) =
    Ok (Comparison {| attribute := "x"; sub_attribute := None; urn := None |} EQ (JStr (String NEWLINE EmptyString))).
Proof. vm_compute. by split. Qed.

(** ** Witnesses *)

Lemma filter_case_insensitive_witness :
  matches (Comparison {| attribute := "USERNAME"; sub_attribute := None; urn := None |} EQ (JStr "SAM"))
    [("userName", JStr "sam")] = true.
Proof.
  assert (well_cased (JObj [("userName", JStr "sam")])) as Hw.
  { split; [apply NoDup_singleton|done]. }
  assert (lower_node (Comparison {| attribute := "USERNAME"; sub_attribute := None; urn := None |} EQ (JStr "SAM")) =
          lower_node (Comparison {| attribute := "userName"; sub_attribute := None; urn := None |} EQ (JStr "sam"))) as E
    by (vm_compute; reflexivity).
  exact (filter_case_insensitive _ _ _ Hw E).
Defined.

End ScimFilter.
