(* ===== verification/ScimPatch.v ===== *)
(** * SCIM PATCH

    [campusid/scim/patch.py]: reading a [PatchOp] body and applying its
    operations to a resource.  A dict is an association list in insertion order;
    an operation that mutates a nested container in place is a function on the
    outermost one. *)

From S2P Require Import Prelude PyStr Json ScimFilter.
Import ScimFilter.

Module ScimPatch.

Abbreviation dict := (list (string * json)) (only parsing).

Definition PATCH_OP_SCHEMA := "urn:ietf:params:scim:api:messages:2.0:PatchOp".
Definition IMMUTABLE : list string := ["id"; "schemas"; "meta"].
Definition MAX_OPERATIONS : nat := 100.

(** [PatchError], by its [scim_type]. *)
Inductive PatchError : Type := invalidValue | invalidPath | mutability | noTarget.

Inductive Op : Type := ADD | REMOVE | REPLACE.

#[global] Instance Op_eq_dec : EqDecision Op.
Proof. solve_decision. Defined.

(** [Op(raw_op.lower())]. *)
Definition op_of (word : string) : option Op :=
  if String.eqb word "add" then Some ADD
  else if String.eqb word "remove" then Some REMOVE
  else if String.eqb word "replace" then Some REPLACE else None.

Record Operation : Type := { op : Op; path : option PatchPath; value : json }.

Definition immutable (name : string) : bool := existsb (String.eqb (Py.lower name)) IMMUTABLE.

(** ** Reading the body *)

Definition parse_path (raw : json) : result PatchError (option PatchPath) :=
  match raw with
  | JNull => Ok None
  | JStr text =>
      match parse_patch_path text with
      | Err _ => Err invalidPath
      | Ok p => raise* mutability when immutable (attribute (pp_path p)); Ok (Some p)
      end
  | _ => Err invalidPath
  end.

Definition _parse_one (entry : json) : result PatchError Operation :=
  match entry with
  | JObj m =>
      match Json.get m "op" with
      | JStr raw_op =>
          match op_of (Py.lower raw_op) with
          | None => Err invalidValue
          | Some o =>
              let* p := parse_path (Json.get m "path") in
              raise* noTarget when bool_decide (o = REMOVE) && match p with None => true | Some _ => false end;
              raise* invalidValue when negb (bool_decide (o = REMOVE)) && negb (Json.mem m "value");
              Ok {| op := o; path := p; value := Json.get m "value" |}
          end
      | _ => Err invalidValue
      end
  | _ => Err invalidValue
  end.

Definition parse_operations (document : json) : result PatchError (list Operation) :=
  match document with
  | JObj m =>
      match Json.get m "schemas" with
      | JArr schemas =>
          raise* invalidValue when negb (existsb (fun j => bool_decide (j = JStr PATCH_OP_SCHEMA)) schemas);
          match Json.get m "Operations" with
          | JArr [] => Err invalidValue
          | JArr raw =>
              raise* invalidValue when (MAX_OPERATIONS <? length raw)%nat;
              rmap _parse_one raw
          | _ => Err invalidValue
          end
      | _ => Err invalidValue
      end
  | _ => Err invalidValue
  end.

(** ** Attribute access *)

Fixpoint key_like (lowered : string) (container : dict) : option string :=
  match container with
  | [] => None
  | (key, _) :: rest => if String.eqb (Py.lower key) lowered then Some key else key_like lowered rest
  end.

Definition _key (container : dict) (name : string) : option string :=
  if Json.mem container name then Some name else key_like (Py.lower name) container.

(** [key if key]: an empty key is as good as none. *)
Definition truthy_key (key : option string) : option string := key ≫= nonempty.

Definition _get (container : dict) (name : string) : json :=
  match truthy_key (_key container name) with Some key => Json.get container key | None => JNull end.

Definition own_key (container : dict) (name : string) : string :=
  default name (truthy_key (_key container name)).

Definition _set (container : dict) (name : string) (v : json) : dict :=
  Json.insert container (own_key container name) v.

Definition _delete (container : dict) (name : string) : dict :=
  match truthy_key (_key container name) with Some key => Json.remove container key | None => container end.

(** [_target] followed by an action on the container and key it answers. *)
Definition in_container (container : dict) (p : PatchPath)
    (act : dict -> string -> result PatchError dict) : result PatchError dict :=
  match pp_sub_attribute p ≫= nonempty, pp_predicate p with
  | Some sub, None =>
      let parent := match _get container (attribute (pp_path p)) with JObj m => m | _ => [] end in
      let* parent' := act parent sub in
      Ok (_set container (attribute (pp_path p)) (JObj parent'))
  | _, _ => act container (attribute (pp_path p))
  end.

Definition _target (resource : dict) (p : PatchPath)
    (act : dict -> string -> result PatchError dict) : result PatchError dict :=
  match urn (pp_path p) ≫= nonempty with
  | Some u =>
      match _get resource u with
      | JObj extension =>
          let* extension' := in_container extension p act in
          Ok (Json.insert resource (own_key resource u) (JObj extension'))
      | _ =>
          let* extension' := in_container [] p act in
          Ok (Json.insert resource u (JObj extension'))
      end
  | None => in_container resource p act
  end.

(** ** Applying *)

(** What [_apply_direct] does to the attribute [name] of [container]. *)
Definition direct (o : Op) (v : json) (container : dict) (name : string) : dict :=
  match o with
  | REMOVE => _delete container name
  | ADD =>
      match _get container name with
      | JArr existing =>
          let additions := match v with JArr l => l | _ => [v] end in
          _set container name (JArr (existing ++ additions))
      | _ => _set container name v
      end
  | REPLACE => _set container name v
  end.

Definition _apply_direct (resource : dict) (o : Op) (v : json) (p : PatchPath) : result PatchError dict :=
  _target resource p (fun container name => Ok (direct o v container name)).

Definition bare (p : AttrPath) : PatchPath :=
  {| pp_path := p; pp_predicate := None; pp_sub_attribute := None |}.

Fixpoint pathless (resource : dict) (o : Op) (members : dict) : result PatchError dict :=
  match members with
  | [] => Ok resource
  | (name, v) :: rest =>
      raise* mutability when immutable name;
      let* resource' := _apply_direct resource o v
        (bare {| attribute := name; sub_attribute := None; urn := None |}) in
      pathless resource' o rest
  end.

Definition _apply_pathless (resource : dict) (operation : Operation) : result PatchError dict :=
  match value operation with
  | JObj members => pathless resource (op operation) members
  | _ => Err invalidValue
  end.

(** [for index in reversed(selected): ...] and [for index in selected: ...]. *)
Definition remove_one (sub : option string) (members : list json) (index : nat) : list json :=
  match sub with
  | Some sub => alter (fun member => match member with JObj m => JObj (_delete m sub) | _ => member end) index members
  | None => delete index members
  end.

Definition put_one (sub : option string) (v : json) (members : list json) (index : nat) : list json :=
  alter (fun member =>
    match member, sub, v with
    | JObj m, Some sub, _ => JObj (_set m sub v)
    | JObj m, None, JObj new => JObj (Json.update m new)
    | _, _, _ => v
    end) index members.

Definition filtered (o : Op) (v : json) (predicate : Node) (sub : option string)
    (container : dict) (name : string) : result PatchError dict :=
  match _get container name with
  | JArr members =>
      let selected := select_members predicate members in
      match o, selected with
      | _, [] => Ok container
      | REMOVE, _ => Ok (_set container name (JArr (fold_left (remove_one sub) (rev selected) members)))
      | _, _ => Ok (_set container name (JArr (fold_left (put_one sub v) selected members)))
      end
  | _ => match o with REMOVE => Ok container | _ => Err noTarget end
  end.

Definition _apply_filtered (resource : dict) (operation : Operation) (p : PatchPath) (predicate : Node)
  : result PatchError dict :=
  _target resource (bare (pp_path p))
    (filtered (op operation) (value operation) predicate (pp_sub_attribute p ≫= nonempty)).

Definition _apply_one (resource : dict) (operation : Operation) : result PatchError dict :=
  match path operation with
  | None => _apply_pathless resource operation
  | Some p =>
      match pp_predicate p with
      | Some predicate => _apply_filtered resource operation p predicate
      | None => _apply_direct resource (op operation) (value operation) p
      end
  end.

(** The work is done on a copy: an error leaves the resource as it was. *)
Fixpoint apply_patch (resource : dict) (operations : list Operation) : result PatchError dict :=
  match operations with
  | [] => Ok resource
  | operation :: rest => let* resource' := _apply_one resource operation in apply_patch resource' rest
  end.

(** ** Lemmas on attribute access *)

Lemma lower_eq_key c name k : _key c name = Some k -> Py.lower k = Py.lower name.
Proof.
  unfold _key. destruct (Json.mem c name); [by intros [= <-]|].
  induction c as [|[k' v] c IH]; simpl; [done|].
  destruct (String.eqb_spec (Py.lower k') (Py.lower name)); [by intros [= <-]|done].
Qed.

Lemma own_key_lower c name : Py.lower (own_key c name) = Py.lower name.
Proof.
  unfold own_key, truthy_key. destruct (_key c name) as [k|] eqn:E; simpl; [|done].
  apply lower_eq_key in E. unfold nonempty. by destruct (String.eqb k "").
Qed.

Lemma lower_empty s : Py.lower s = "" -> s = "".
Proof. by destruct s. Qed.

Lemma mem_insert c k v k' : Json.mem (Json.insert c k v) k' = Json.mem c k' || String.eqb k' k.
Proof.
  unfold Json.mem. destruct (String.eqb_spec k' k) as [->|Hne].
  - by rewrite Json.lookup_insert_eq, orb_true_r.
  - rewrite Json.lookup_insert_ne by done. by rewrite orb_false_r.
Qed.

Lemma key_like_insert c k v l : Py.lower k <> l -> key_like l (Json.insert c k v) = key_like l c.
Proof.
  intros Hl. induction c as [|[k' v'] c IH]; simpl.
  - by destruct (String.eqb_spec (Py.lower k) l).
  - destruct (String.eqb_spec k k') as [<-|Hne]; simpl; [by destruct (String.eqb_spec (Py.lower k) l)|].
    by rewrite IH.
Qed.

(** Writing one name leaves every other name as it was. *)
Lemma key_set_other c n v m : Py.lower m <> Py.lower n -> _key (_set c n v) m = _key c m.
Proof.
  intros Hne. pose proof (own_key_lower c n) as Hk. unfold _key, _set. rewrite mem_insert.
  destruct (String.eqb_spec m (own_key c n)) as [->|_]; [congruence|]. rewrite orb_false_r.
  destruct (Json.mem c m); [done|]. apply key_like_insert. congruence.
Qed.

Lemma get_set_other c n v m : Py.lower m <> Py.lower n -> _get (_set c n v) m = _get c m.
Proof.
  intros Hne. unfold _get. rewrite key_set_other by done. destruct (truthy_key (_key c m)) as [k|] eqn:E; [|done].
  unfold Json.get, _set. rewrite Json.lookup_insert_ne; [done|]. intros Eq.
  unfold truthy_key in E. destruct (_key c m) as [k'|] eqn:Ek; simpl in E; [|done].
  apply lower_eq_key in Ek. unfold nonempty in E. destruct (String.eqb k' ""); [done|]. injection E as <-.
  pose proof (own_key_lower c n). congruence.
Qed.

Lemma key_like_self c k v : key_like (Py.lower k) (Json.insert c k v) <> None.
Proof.
  induction c as [|[k' v'] c IH]; simpl; [by rewrite String.eqb_refl|].
  destruct (String.eqb_spec k k') as [->|]; simpl; [by rewrite String.eqb_refl|].
  by destruct (String.eqb (Py.lower k') (Py.lower k)).
Qed.

(** The key a name resolves to does not move when it is written. *)
Lemma key_set_self c n v : _key (_set c n v) n = Some (own_key c n) \/ n = "".
Proof.
  destruct (String.eqb_spec n "") as [->|Hn]; [by right|]. left. unfold _set, own_key, truthy_key.
  destruct (_key c n) as [k|] eqn:Ek.
  - assert (k <> "") as Hk.
    { intros ->. apply lower_eq_key in Ek. symmetry in Ek. by apply lower_empty in Ek. }
    simpl. unfold nonempty. destruct (String.eqb_spec k ""); [done|]. simpl. unfold _key in *. rewrite mem_insert.
    destruct (Json.mem c n) eqn:Em; [by injection Ek as <-|]. simpl.
    destruct (String.eqb_spec n k) as [->|Hne]; [done|].
    clear -Ek Hne. induction c as [|[k' v'] c IH]; simpl in *; [done|].
    destruct (String.eqb_spec (Py.lower k') (Py.lower n)) as [El|El].
    + injection Ek as ->. rewrite String.eqb_refl. simpl. by rewrite El, String.eqb_refl.
    + destruct (String.eqb_spec k k') as [<-|]; simpl.
      * destruct (String.eqb_spec (Py.lower k) (Py.lower n)); [done|].
        clear IH. exfalso. apply El. clear -Ek. induction c as [|[k2 v2] c IH]; simpl in *; [done|].
        destruct (String.eqb_spec (Py.lower k2) (Py.lower n)); [congruence|by apply IH].
      * destruct (String.eqb_spec (Py.lower k') (Py.lower n)); [done|]. by apply IH.
  - simpl. unfold _key. by rewrite mem_insert, String.eqb_refl, orb_true_r.
Qed.

Lemma get_set_self c n v : n <> "" -> _get (_set c n v) n = v.
Proof.
  intros Hn. destruct (key_set_self c n v) as [E|]; [|done]. unfold _get. rewrite E. simpl.
  assert (own_key c n <> "") as Hk.
  { intros E'. pose proof (own_key_lower c n) as Hl. rewrite E' in Hl. symmetry in Hl. by apply lower_empty in Hl. }
  unfold nonempty. destruct (String.eqb_spec (own_key c n) ""); [done|].
  unfold Json.get, _set. by rewrite Json.lookup_insert_eq.
Qed.

(** Names that differ only in case are one name. *)
Abbreviation one_spelling c := (NoDup (Py.lower <$> c.*1)).

Lemma key_like_elem l c k : key_like l c = Some k -> k ∈ c.*1 /\ Py.lower k = l.
Proof.
  induction c as [|[k' v] c IH]; csimpl; [done|]. destruct (String.eqb_spec (Py.lower k') l).
  - intros [= <-]. set_solver.
  - intros [? ?]%IH. set_solver.
Qed.

Lemma key_like_unique c k : one_spelling c -> k ∈ c.*1 -> key_like (Py.lower k) c = Some k.
Proof.
  induction c as [|[k' v] c IH]; csimpl; [set_solver|]. rewrite list.NoDup_cons. intros [Hk' Hd] [->|Hin]%elem_of_cons.
  - by rewrite String.eqb_refl.
  - destruct (String.eqb_spec (Py.lower k') (Py.lower k)) as [E|]; [|auto].
    destruct Hk'. rewrite E. by apply list_elem_of_fmap_2.
Qed.

Lemma mem_elem c k : Json.mem c k = true <-> k ∈ c.*1.
Proof.
  unfold Json.mem. destruct (Json.lookup c k) eqn:E; split; try done.
  - intros _. by eapply Json.lookup_Some_elem.
  - intros Hin. by destruct (Json.lookup_None_not_elem _ _ E).
Qed.

Lemma key_spelling c n : one_spelling c -> _key c n = key_like (Py.lower n) c.
Proof.
  intros Hd. unfold _key. destruct (Json.mem c n) eqn:E; [|done]. apply mem_elem in E. by rewrite key_like_unique.
Qed.

Lemma get_spelling c n m : one_spelling c -> Py.lower m = Py.lower n -> _get c m = _get c n.
Proof. intros Hd E. unfold _get. by rewrite !key_spelling, E. Qed.

Lemma set_one_spelling c n v : one_spelling c -> one_spelling (_set c n v).
Proof.
  intros Hd. unfold _set. rewrite Json.insert_keys. destruct (Json.mem c (own_key c n)) eqn:E; [done|].
  rewrite fmap_app. simpl. apply list.NoDup_app. split_and!; [done| |apply NoDup_singleton].
  intros x Hx ->%list_elem_of_singleton. apply list_elem_of_fmap in Hx as (k & Ek & Hk).
  rewrite own_key_lower in Ek. unfold own_key in E. rewrite key_spelling, Ek, key_like_unique in E by done.
  simpl in E. unfold nonempty in E. apply mem_elem in Hk. destruct (String.eqb k "") eqn:E0; simpl in E; [|congruence].
  apply String.eqb_eq in E0. rewrite E0 in Ek, Hk. apply lower_empty in Ek. congruence.
Qed.

Lemma remove_keys c k : one_spelling c -> forall x, x ∈ (Json.remove c k).*1 -> x ∈ c.*1 /\ x <> k.
Proof.
  induction c as [|[k' v] c IH]; csimpl; [set_solver|]. rewrite list.NoDup_cons. intros [Hk' Hd] x.
  destruct (String.eqb_spec k k') as [->|Hne].
  - intros Hx. split; [set_solver|]. intros ->. apply Hk'. by apply list_elem_of_fmap_2.
  - csimpl. set_unfold. naive_solver.
Qed.

Lemma key_like_remove l c k : Py.lower k <> l -> key_like l (Json.remove c k) = key_like l c.
Proof.
  intros Hl. induction c as [|[k' v] c IH]; simpl; [done|]. destruct (String.eqb_spec k k') as [<-|]; simpl.
  - by destruct (String.eqb_spec (Py.lower k) l).
  - by rewrite IH.
Qed.

Lemma lookup_remove_ne c k k' : k' <> k -> Json.lookup (Json.remove c k) k' = Json.lookup c k'.
Proof.
  intros Hne. induction c as [|[k2 v] c IH]; simpl; [done|]. destruct (String.eqb_spec k k2) as [<-|]; simpl.
  - by destruct (String.eqb_spec k' k).
  - by rewrite IH.
Qed.

Lemma truthy_key_lower c n k : truthy_key (_key c n) = Some k -> Py.lower k = Py.lower n.
Proof.
  unfold truthy_key, nonempty. destruct (_key c n) as [k'|] eqn:E; simpl; [|done]. apply lower_eq_key in E.
  destruct (String.eqb k' ""); [done|]. by intros [= <-].
Qed.

Lemma get_delete_other c n m : Py.lower m <> Py.lower n -> _get (_delete c n) m = _get c m.
Proof.
  intros Hne. unfold _delete. destruct (truthy_key (_key c n)) as [k|] eqn:E; [|done]. apply truthy_key_lower in E.
  assert (_key (Json.remove c k) m = _key c m) as Hk.
  { unfold _key, Json.mem. rewrite lookup_remove_ne by congruence. rewrite key_like_remove by congruence. done. }
  unfold _get. rewrite Hk. destruct (truthy_key (_key c m)) as [k'|] eqn:E'; [|done]. apply truthy_key_lower in E'.
  unfold Json.get. by rewrite lookup_remove_ne by congruence.
Qed.

Lemma get_delete_self c n : one_spelling c -> _get (_delete c n) n = JNull.
Proof.
  intros Hd. unfold _delete. destruct (truthy_key (_key c n)) as [k|] eqn:E; [|unfold _get; by rewrite E].
  assert (_key (Json.remove c k) n = None) as Hk.
  { assert (_key c n = Some k) as Ek.
    { unfold truthy_key, nonempty in E. destruct (_key c n) as [k'|]; simpl in E; [|done].
      destruct (String.eqb k' ""); [done|congruence]. }
    rewrite key_spelling in Ek by done. apply key_like_elem in Ek as [Hk Hl].
    unfold _key. destruct (Json.mem _ n) eqn:Em.
    - apply mem_elem, remove_keys in Em as [Hn Hne]; [|done].
      pose proof (key_like_unique c n Hd Hn) as H1. pose proof (key_like_unique c k Hd Hk) as H2. congruence.
    - destruct (key_like (Py.lower n) (Json.remove c k)) as [k'|] eqn:Ek; [|done].
      apply key_like_elem in Ek as [Hk' Hl']. apply remove_keys in Hk' as [Hk' Hne]; [|done].
      pose proof (key_like_unique c k' Hd Hk') as H1. pose proof (key_like_unique c k Hd Hk) as H2. congruence. }
  unfold _get. by rewrite Hk.
Qed.

Lemma remove_one_spelling c k : one_spelling c -> one_spelling (Json.remove c k).
Proof.
  induction c as [|[k' v] c IH]; csimpl; [done|]. rewrite list.NoDup_cons. intros [Hk' Hd].
  destruct (String.eqb k k'); [done|]. csimpl. apply list.NoDup_cons. split; [|auto].
  intros (x & Ex & Hx)%list_elem_of_fmap. apply Hk'. rewrite Ex. apply list_elem_of_fmap_2.
  by apply remove_keys in Hx as [? _].
Qed.

Lemma delete_one_spelling c n : one_spelling c -> one_spelling (_delete c n).
Proof. intros Hd. unfold _delete. destruct (truthy_key _); [by apply remove_one_spelling|done]. Qed.

(** An unfiltered operation changes the attribute it names and no other.
    [replace] makes the attribute read as the value, [add] appends to a
    collection and otherwise replaces, [remove] leaves it missing, however the
    name is capitalised; every attribute of another name reads as before, and
    no second spelling of a name appears. *)
Theorem direct_patch (resource : dict) (o : Op) (v : json) (name : string) :
  name <> "" -> one_spelling resource ->
  exists out,
    _apply_one resource {| op := o; value := v;
      path := Some (bare {| attribute := name; sub_attribute := None; urn := None |}) |} = Ok out /\
    one_spelling out /\
    (forall spelling, Py.lower spelling = Py.lower name ->
       _get out spelling =
         match o, _get resource name with
         | REMOVE, _ => JNull
         | ADD, JArr existing => JArr (existing ++ match v with JArr l => l | _ => [v] end)
         | _, _ => v
         end) /\
    (forall other, Py.lower other <> Py.lower name -> _get out other = _get resource other).
Proof.
  intros Hn Hd. exists (direct o v resource name).
  assert (one_spelling (direct o v resource name)) as Hd'.
  { unfold direct. destruct o; [|by apply delete_one_spelling|by apply set_one_spelling].
    destruct (_get resource name); by apply set_one_spelling. }
  split_and!; [done|done| |].
  - intros sp E. rewrite (get_spelling _ name) by done. unfold direct.
    destruct o; [|by apply get_delete_self|by rewrite get_set_self].
    destruct (_get resource name); by rewrite get_set_self.
  - intros other E. unfold direct. destruct o; [|by apply get_delete_other|by apply get_set_other].
    destruct (_get resource name); by apply get_set_other.
Qed.

(** ** Filtered operations *)

Lemma alter_middle {A} (f : A -> A) (pre l : list A) x : alter f (length pre) (pre ++ x :: l) = pre ++ f x :: l.
Proof. induction pre as [|y pre IH]; csimpl; [done|]. f_equal. exact IH. Qed.

Section selected.
Context (predicate : Node).
Abbreviation hit := (member_matches predicate).

Lemma remove_selected (l pre : list json) :
  fold_left (remove_one None) (rev (select_from predicate (length pre) l)) (pre ++ l) =
    pre ++ List.filter (fun x => negb (hit x)) l.
Proof.
  revert pre. induction l as [|x l IH]; intros pre; [done|]. simpl.
  assert (S (length pre) = length (pre ++ [x])) as Hlen by (rewrite length_app; simpl; lia).
  specialize (IH (pre ++ [x])). rewrite <- !(assoc_L app) in IH. cbn [app] in IH. rewrite Hlen. destruct (hit x) eqn:Ex; simpl.
  - rewrite fold_left_app, IH. simpl. apply delete_middle.
  - by rewrite IH.
Qed.

Lemma alter_selected (f : json -> json) (l pre : list json) :
  fold_left (fun ms i => alter f i ms) (select_from predicate (length pre) l) (pre ++ l) =
    pre ++ ((fun x => if hit x then f x else x) <$> l).
Proof.
  revert pre. induction l as [|x l IH]; intros pre; [done|]. csimpl.
  assert (forall y, S (length pre) = length (pre ++ [y])) as Hlen by (intros y; rewrite length_app; simpl; lia).
  destruct (hit x); simpl.
  - specialize (IH (pre ++ [f x])). rewrite <- !(assoc_L app) in IH. cbn [app] in IH. rewrite (Hlen (f x)).
    rewrite <- IH. f_equal. apply alter_middle.
  - specialize (IH (pre ++ [x])). rewrite <- !(assoc_L app) in IH. cbn [app] in IH. by rewrite (Hlen x).
Qed.

Lemma alter_selected_rev (f : json -> json) (l pre : list json) :
  fold_left (fun ms i => alter f i ms) (rev (select_from predicate (length pre) l)) (pre ++ l) =
    pre ++ ((fun x => if hit x then f x else x) <$> l).
Proof.
  revert pre. induction l as [|x l IH]; intros pre; [done|]. csimpl.
  assert (S (length pre) = length (pre ++ [x])) as Hlen by (rewrite length_app; simpl; lia).
  specialize (IH (pre ++ [x])). rewrite <- !(assoc_L app) in IH. cbn [app] in IH. rewrite Hlen. destruct (hit x) eqn:Ex; simpl.
  - rewrite fold_left_app, IH. simpl. apply alter_middle.
  - by rewrite IH.
Qed.

Lemma select_none i l : select_from predicate i l = [] <-> Forall (fun x => hit x = false) l.
Proof.
  revert i. induction l as [|x l IH]; intros i; simpl; [by split; constructor|].
  rewrite list.Forall_cons, <- (IH (S i)). destruct (hit x); naive_solver.
Qed.
End selected.

(** What a filtered operation should do to the members of the attribute. *)
Definition patched_members (o : Op) (v : json) (predicate : Node) (sub : option string) (members : list json)
  : list json :=
  match o, sub with
  | REMOVE, None => List.filter (fun x => negb (member_matches predicate x)) members
  | REMOVE, Some sub =>
      (fun x => if member_matches predicate x
                then match x with JObj m => JObj (_delete m sub) | _ => x end else x) <$> members
  | _, _ =>
      (fun x => if member_matches predicate x
                then match x, sub, v with
                     | JObj m, Some sub, _ => JObj (_set m sub v)
                     | JObj m, None, JObj new => JObj (Json.update m new)
                     | _, _, _ => v
                     end
                else x) <$> members
  end.

Lemma untouched {A} (f g : A -> A) (hit : A -> bool) l :
  Forall (fun x => hit x = false) l -> (fun x => if hit x then f x else x) <$> l = l.
Proof. induction 1 as [|x l Hx _ IH]; csimpl; [done|]. by rewrite Hx, IH. Qed.

Lemma filtered_members o v predicate sub container name members :
  _get container name = JArr members ->
  exists out, filtered o v predicate sub container name = Ok out /\
    (out = container /\ patched_members o v predicate sub members = members \/
     out = _set container name (JArr (patched_members o v predicate sub members))).
Proof.
  intros E. unfold filtered. rewrite E. unfold select_members.
  destruct (select_from predicate 0 members) as [|i rest] eqn:Es.
  - exists container. apply select_none in Es. split; [by destruct o|]. left. split; [done|].
    unfold patched_members. destruct o, sub; try (by apply (untouched _ (fun x => x))).
    clear -Es. induction Es as [|x l Hx _ IH]; simpl; [done|]. by rewrite Hx; simpl; f_equal.
  - rewrite <- Es. destruct o; (eexists; split; [reflexivity|]; right; f_equal; f_equal); unfold patched_members.
    + apply (alter_selected predicate _ members []).
    + destruct sub as [sub|]; [apply (alter_selected_rev predicate _ members [])|apply (remove_selected predicate members [])].
    + apply (alter_selected predicate _ members []).
Qed.

(** A filtered operation changes the members its filter selects and no
    others.  On a collection it removes exactly the matching members, or
    changes only them, keeping the rest and their order; when nothing matches
    the resource is as it was; on anything but a collection a removal does
    nothing and a change is refused. *)
Theorem filtered_patch (resource : dict) (o : Op) (v : json) (name : string) (predicate : Node)
    (sub : option string) :
  name <> "" ->
  let out := _apply_one resource {| op := o; value := v;
    path := Some {| pp_path := {| attribute := name; sub_attribute := None; urn := None |};
                    pp_predicate := Some predicate; pp_sub_attribute := sub |} |} in
  match _get resource name with
  | JArr members =>
      exists r, out = Ok r /\
        _get r name = JArr (patched_members o v predicate (sub ≫= nonempty) members) /\
        (forall other, Py.lower other <> Py.lower name -> _get r other = _get resource other)
  | _ => out = match o with REMOVE => Ok resource | _ => Err noTarget end
  end.
Proof.
  intros Hn. cbv zeta. unfold _apply_one, _apply_filtered, _target, in_container. simpl.
  destruct (_get resource name) as [| | | | | |members|] eqn:E;
    try (unfold filtered; rewrite E; by destruct o).
  destruct (filtered_members o v predicate (sub ≫= nonempty) resource name members E) as (r & Hr & Hcase).
  exists r. split; [exact Hr|]. destruct Hcase as [[-> Hp]| ->].
  - by rewrite E, Hp.
  - split; [by apply get_set_self|]. intros other Ho. by apply get_set_other.
Qed.

(** ** What a client may not change *)

Definition protected (before after : dict) : Prop :=
  forall k, immutable k = true -> Json.lookup after k = Json.lookup before k.

Lemma immutable_lower k k' : Py.lower k = Py.lower k' -> immutable k = immutable k'.
Proof. intros E. unfold immutable. by rewrite E. Qed.

Lemma insert_protected c k v : immutable k = false -> protected c (Json.insert c k v).
Proof. intros Hk k' Hk'. rewrite Json.lookup_insert_ne; [done|]. intros ->. congruence. Qed.

Lemma set_protected c n v : immutable n = false -> protected c (_set c n v).
Proof. intros Hn. apply insert_protected. by rewrite (immutable_lower _ n) by apply own_key_lower. Qed.

Lemma delete_protected c n : immutable n = false -> protected c (_delete c n).
Proof.
  intros Hn k Hk. unfold _delete. destruct (truthy_key (_key c n)) as [k'|] eqn:E; [|done].
  apply truthy_key_lower, immutable_lower in E. rewrite lookup_remove_ne; [done|]. intros ->. congruence.
Qed.

(** Actions that protect their container when they are given a free name. *)
Definition careful (act : dict -> string -> result PatchError dict) : Prop :=
  forall c n c', immutable n = false -> act c n = Ok c' -> protected c c'.

Lemma in_container_protected c p act c' :
  careful act -> immutable (attribute (pp_path p)) = false -> in_container c p act = Ok c' -> protected c c'.
Proof.
  intros Hact Hn. unfold in_container. destruct (pp_sub_attribute p ≫= nonempty) as [sub|], (pp_predicate p);
    try (by apply Hact). destruct (act _ sub) as [parent|]; simpl; [|done]. intros [= <-]. by apply set_protected.
Qed.

Lemma target_protected resource p act out :
  careful act -> immutable (attribute (pp_path p)) = false ->
  (forall u, urn (pp_path p) = Some u -> immutable u = false) ->
  _target resource p act = Ok out -> protected resource out.
Proof.
  intros Hact Hn Hu. unfold _target. destruct (urn (pp_path p)) as [u|]; simpl; [|by apply in_container_protected].
  specialize (Hu u eq_refl). unfold nonempty. destruct (String.eqb u ""); [by apply in_container_protected|].
  destruct (_get resource u); simpl;
    (destruct (in_container _ p act); simpl; [|done]); intros [= <-]; apply insert_protected; try done.
  by rewrite (immutable_lower _ u) by apply own_key_lower.
Qed.

Lemma direct_careful o v : careful (fun c n => Ok (direct o v c n)).
Proof.
  intros c n c' Hn [= <-]. unfold direct. destruct o; [|by apply delete_protected|by apply set_protected].
  destruct (_get c n); by apply set_protected.
Qed.

Lemma filtered_careful o v predicate sub : careful (filtered o v predicate sub).
Proof.
  intros c n c' Hn. unfold filtered. destruct (_get c n); try (destruct o; by intros [= <-]).
  destruct (select_members _ _) as [|i rest], o; intros [= <-]; first [by intros k|by apply set_protected].
Qed.

Lemma pathless_protected o members resource out :
  pathless resource o members = Ok out -> protected resource out.
Proof.
  revert resource. induction members as [|[name v] rest IH]; intros resource; cbn [pathless]; [by intros [= <-]|].
  destruct (immutable name) eqn:Hn; [done|]. set (p := bare _).
  destruct (_apply_direct resource o v p) as [r|] eqn:E; simpl; [|done].
  intros Hr k Hk. rewrite (IH _ Hr k Hk). apply (target_protected resource p _ r (direct_careful o v) Hn); [done|exact E|exact Hk].
Qed.

(** The operation's path does not qualify its attribute with a schema URI that
    is itself the name of a protected attribute. *)
Definition foreign_schema (operation : Operation) : Prop :=
  forall p u, path operation = Some p -> urn (pp_path p) = Some u -> immutable u = false.

Definition free_path (operation : Operation) : Prop :=
  forall p, path operation = Some p -> immutable (attribute (pp_path p)) = false.

Lemma apply_one_protected resource operation out :
  free_path operation -> foreign_schema operation -> _apply_one resource operation = Ok out ->
  protected resource out.
Proof.
  intros Hf Hs. unfold _apply_one. destruct (path operation) as [p|] eqn:Ep.
  - specialize (Hf p Ep). assert (forall u, urn (pp_path p) = Some u -> immutable u = false) as Hu
      by (intros u Hu; by apply (Hs p)).
    destruct (pp_predicate p).
    + apply target_protected; [apply filtered_careful|done..].
    + apply target_protected; [apply direct_careful|done..].
  - unfold _apply_pathless. destruct (value operation); try done. apply pathless_protected.
Qed.

Lemma apply_patch_protected operations resource out :
  Forall free_path operations -> Forall foreign_schema operations ->
  apply_patch resource operations = Ok out -> protected resource out.
Proof.
  intros Hf Hs. revert resource. induction operations as [|operation rest IH]; intros resource; simpl;
    [by intros [= <-]|].
  apply list.Forall_cons in Hf as [Hf1 Hf], Hs as [Hs1 Hs].
  destruct (_apply_one resource operation) as [r|] eqn:E; simpl; [|done]. intros Hr k Hk.
  rewrite (IH Hf Hs r Hr k Hk). by apply (apply_one_protected resource operation r Hf1 Hs1 E).
Qed.

Lemma parse_operations_free document operations :
  parse_operations document = Ok operations -> Forall free_path operations.
Proof.
  unfold parse_operations. destruct document as [| | | | | | |m]; try done.
  destruct (Json.get m "schemas") as [| | | | | |schemas|]; try done. destruct (negb _); [done|].
  destruct (Json.get m "Operations") as [| | | | | |[|e raw]|]; try done. destruct (_ <? _)%nat; [done|].
  intros Hr. apply rmap_ok_Forall2 in Hr. clear -Hr. induction Hr as [|x y l l' Hxy _ IH]; constructor; [|done].
  unfold _parse_one in Hxy. destruct x as [| | | | | | |mx]; try done.
  destruct (Json.get mx "op") as [| | | |raw_op| | |]; try done. destruct (op_of (Py.lower raw_op)); [|done].
  destruct (parse_path (Json.get mx "path")) as [p|] eqn:Ep; simpl in Hxy; [|done].
  do 2 (destruct (_ && _); [done|]). injection Hxy as <-. intros p' E. simpl in E. subst p.
  unfold parse_path in Ep. destruct (Json.get mx "path") as [| | | |text| | |]; try done.
  destruct (parse_patch_path text) as [p|]; [|done].
  destruct (immutable (attribute (pp_path p))) eqn:Ei; [done|]. by injection Ep as <-.
Qed.

(** A PATCH cannot change what identifies the resource.  Whatever the
    operations of an accepted body do, [id], [schemas] and [meta] are unchanged,
    in every spelling, as long as no path names one of them as its schema. *)
Theorem patch_protects_identity (document : json) (operations : list Operation) (resource out : dict)
    (k : string) :
  parse_operations document = Ok operations -> Forall foreign_schema operations ->
  apply_patch resource operations = Ok out -> immutable k = true ->
  Json.lookup out k = Json.lookup resource k.
Proof. intros Hp Hs Ha Hk. eapply apply_patch_protected; [by eapply parse_operations_free|done..]. Qed.

Definition patch_body (o path : string) (v : json) : json :=
  JObj [("schemas", JArr [JStr PATCH_OP_SCHEMA]);
        ("Operations", JArr [JObj [("op", JStr o); ("path", JStr path); ("value", v)]])].

Definition patch (document : json) (resource : dict) : result PatchError dict :=
  let* operations := parse_operations document in apply_patch resource operations.

(** A schema prefix reaches the protected attributes.  The path [id:x] is
    accepted, since its attribute is [x], and replaces the identifier of the
    resource. *)
Theorem schema_prefix_rewrites_id :
  patch (patch_body "replace" "id:x" (JStr "other")) [("id", JStr "p1"); ("userName", JStr "sam")] =
    Ok [("id", JObj [("x", JStr "other")]); ("userName", JStr "sam")].
Proof. vm_compute. reflexivity. Qed.

(** Removing a sub-attribute that is not there replaces a simple value with an
    empty object. *)
Theorem remove_wipes_simple_value :
  patch (patch_body "remove" "userName.x" JNull) [("userName", JStr "sam")] = Ok [("userName", JObj [])].
Proof. vm_compute. reflexivity. Qed.

(** Merging an object into a selected member adds a second spelling of a name. *)
Theorem merge_duplicates_spelling :
  patch (patch_body "replace" "emails[type eq true]" (JObj [("TYPE", JBool false)]))
    [("emails", JArr [JObj [("type", JBool true)]])] =
    Ok [("emails", JArr [JObj [("type", JBool true); ("TYPE", JBool false)]])].
Proof. vm_compute. reflexivity. Qed.

(** ** Witnesses *)

Lemma direct_patch_witness :
  exists out, _apply_one [("userName", JStr "sam")] {| op := REPLACE; value := JStr "lee";
      path := Some (bare {| attribute := "USERNAME"; sub_attribute := None; urn := None |}) |} = Ok out /\
    _get out "userName" = JStr "lee".
Proof.
  assert ("USERNAME" <> "") as H1 by done.
  assert (NoDup (Py.lower <$> [("userName", JStr "sam")].*1)) as H2 by apply NoDup_singleton.
  destruct (direct_patch [("userName", JStr "sam")] REPLACE (JStr "lee") "USERNAME" H1 H2) as (out & E & _ & W & _).
  exists out. split; [exact E|]. exact (W "userName" eq_refl).
Defined.

Lemma filtered_patch_witness :
  exists r, _apply_one [("emails", JArr [JObj [("type", JStr "work")]; JObj [("type", JStr "home")]])]
    {| op := REMOVE; value := JNull;
       path := Some {| pp_path := {| attribute := "emails"; sub_attribute := None; urn := None |};
         pp_predicate := Some (Comparison {| attribute := "type"; sub_attribute := None; urn := None |} EQ (JStr "work"));
         pp_sub_attribute := None |} |} = Ok r /\
    _get r "emails" = JArr [JObj [("type", JStr "home")]].
Proof.
  assert ("emails" <> "") as H1 by done.
  destruct (filtered_patch [("emails", JArr [JObj [("type", JStr "work")]; JObj [("type", JStr "home")]])] REMOVE JNull
    "emails" (Comparison {| attribute := "type"; sub_attribute := None; urn := None |} EQ (JStr "work")) None H1)
    as (r & E & W & _).
  exists r. exact (conj E W).
Defined.

Lemma patch_protects_identity_witness :
  Json.lookup [("id", JStr "p1"); ("userName", JStr "lee")] "id" =
  Json.lookup [("id", JStr "p1"); ("userName", JStr "sam")] "id".
Proof.
  set (ops := [{| op := REPLACE; value := JStr "lee";
                  path := Some (bare {| attribute := "userName"; sub_attribute := None; urn := None |}) |}]).
  assert (parse_operations (patch_body "replace" "userName" (JStr "lee")) = Ok ops) as H1 by (vm_compute; reflexivity).
  assert (Forall foreign_schema ops) as H2.
  { constructor; [|constructor]. intros p u [= <-]. done. }
  assert (apply_patch [("id", JStr "p1"); ("userName", JStr "sam")] ops =
    Ok [("id", JStr "p1"); ("userName", JStr "lee")]) as H3 by (vm_compute; reflexivity).
  exact (patch_protects_identity _ ops _ _ "id" H1 H2 H3 eq_refl).
Defined.

End ScimPatch.
