(* ===== verification/Bulk.v ===== *)
(** * SCIM Bulk

    [campusid/scim/bulk.py] and [campusid/scim/bulk_runner.py]: reading a bulk
    request, ordering its operations by their [bulkId] references, resolving the
    references and running the operations.  The user and group stores are
    parameters of the runner.  Error messages are not modelled. *)

From S2P Require Import Prelude PyStr Json Errors ScimFilter ScimPatch.

Module Bulk.

Abbreviation dict := (list (string * json)) (only parsing).

Definition BULK_REQUEST := "urn:ietf:params:scim:api:messages:2.0:BulkRequest".
Definition BULK_RESPONSE := "urn:ietf:params:scim:api:messages:2.0:BulkResponse".
Definition BULK_ID_PREFIX := "bulkId:".
Definition METHODS : list string := ["POST"; "PUT"; "PATCH"; "DELETE"].
Definition RESOURCES : list string := ["Users"; "Groups"].
Definition MAX_BULK_OPERATIONS : nat := 100.

Definition mem (l : list string) (s : string) : bool := existsb (String.eqb s) l.

(** [ScimError]: the HTTP status and the [scimType]. *)
Record ScimError : Type := Refused { status : Z; scim_type : string }.

Record BulkOperation : Type := {
  method : string;
  resource : string;
  resource_id : option string;
  bulk_id : option string;
  data : json;
  version : option string;
  depends_on : gset string;
}.

#[global] Instance BulkOperation_eq_dec : EqDecision BulkOperation.
Proof. solve_decision. Defined.

Record BulkRequest : Type := { operations : list BulkOperation; fail_on_errors : option Z }.

Definition truthy (o : option string) : bool :=
  match o with Some s => negb (String.eqb s "") | None => false end.

(** ** References *)

Definition reference_in (s : string) : gset string :=
  if Py.startswith s BULK_ID_PREFIX then {[Py.removeprefix s BULK_ID_PREFIX]} else ∅.

Fixpoint referenced_bulk_ids (value : json) : gset string :=
  match value with
  | JStr s => reference_in s
  | JObj m => foldr (fun kv acc => referenced_bulk_ids kv.2 ∪ acc) ∅ m
  | JArr l => foldr (fun x acc => referenced_bulk_ids x ∪ acc) ∅ l
  | _ => ∅
  end.

Definition resolve_string (s : string) (resolved : gmap string string) : result ScimError string :=
  if Py.startswith s BULK_ID_PREFIX then
    match resolved !! Py.removeprefix s BULK_ID_PREFIX with
    | Some id => Ok id
    | None => Err (Refused 404 "invalidValue")
    end
  else Ok s.

Fixpoint resolve_references (value : json) (resolved : gmap string string) : result ScimError json :=
  match value with
  | JStr s => let* s' := resolve_string s resolved in Ok (JStr s')
  | JObj m =>
      let* m' := foldr (fun kv acc =>
          let* v := resolve_references kv.2 resolved in let* rest := acc in Ok ((kv.1, v) :: rest)) (Ok []) m in
      Ok (JObj m')
  | JArr l =>
      let* l' := foldr (fun x acc =>
          let* v := resolve_references x resolved in let* rest := acc in Ok (v :: rest)) (Ok []) l in
      Ok (JArr l')
  | _ => Ok value
  end.

(** ** Reading the request *)

Definition _parse_path (path : json) : result ScimError (string * option string) :=
  match path with
  | JStr p =>
      raise* Refused 400 "invalidPath" when negb (Py.startswith p "/");
      match List.filter (fun part => negb (String.eqb part "")) (Py.split_on "/" p) with
      | [r] => if mem RESOURCES r then Ok (r, None) else Err (Refused 400 "invalidPath")
      | [r; id] => if mem RESOURCES r then Ok (r, Some id) else Err (Refused 400 "invalidPath")
      | _ => Err (Refused 400 "invalidPath")
      end
  | _ => Err (Refused 400 "invalidPath")
  end.

(** An optional string field. *)
Definition optional_string (j : json) : result ScimError (option string) :=
  match j with
  | JNull => Ok None
  | JStr s => Ok (Some s)
  | _ => Err (Refused 400 "invalidValue")
  end.

Definition is_object (j : json) : bool := match j with JObj _ => true | _ => false end.
Definition is_none {A} (o : option A) : bool := match o with None => true | Some _ => false end.

Definition _parse_one (entry : json) : result ScimError BulkOperation :=
  match entry with
  | JObj m =>
      match Json.get m "method" with
      | JStr raw =>
          let meth := Py.upper raw in
          raise* Refused 400 "invalidValue" when negb (mem METHODS meth);
          let* '(res, id) := _parse_path (Json.get m "path") in
          let* bulk := optional_string (Json.get m "bulkId") in
          raise* Refused 400 "invalidValue" when String.eqb meth "POST" && negb (truthy bulk);
          raise* Refused 400 "invalidPath" when negb (String.eqb meth "POST") && is_none id;
          raise* Refused 400 "invalidPath" when String.eqb meth "POST" && negb (is_none id);
          let* ver := optional_string (Json.get m "version") in
          let payload := Json.get m "data" in
          raise* Refused 400 "invalidValue" when mem ["POST"; "PUT"; "PATCH"] meth && negb (is_object payload);
          let references := referenced_bulk_ids payload ∪
            match id with Some id => reference_in id | None => ∅ end in
          raise* Refused 409 "invalidValue" when
            (match bulk with Some b => bool_decide (b ∈ references) | None => false end);
          Ok {| method := meth; resource := res; resource_id := id; bulk_id := bulk; data := payload;
                version := ver; depends_on := references |}
      | _ => Err (Refused 400 "invalidValue")
      end
  | _ => Err (Refused 400 "invalidSyntax")
  end.

Fixpoint unique_from (seen : gset string) (ops : list BulkOperation) : bool :=
  match ops with
  | [] => true
  | o :: rest =>
      match bulk_id o with
      | None => unique_from seen rest
      | Some b => negb (bool_decide (b ∈ seen)) && unique_from ({[b]} ∪ seen) rest
      end
  end.
Definition _assert_bulk_ids_unique (ops : list BulkOperation) : result ScimError unit :=
  raise* Refused 409 "uniqueness" when negb (unique_from ∅ ops); Ok tt.

(** The [bulkId]s a list of operations declares. *)
Definition declares (o : BulkOperation) : gset string :=
  match bulk_id o with Some b => if String.eqb b "" then ∅ else {[b]} | None => ∅ end.
Definition produced (ops : list BulkOperation) : gset string := ⋃ (declares <$> ops).

Definition ready (ids : gset string) (o : BulkOperation) : bool := bool_decide (depends_on o ⊆ ids).

(** [while remaining], one round at a time.  A round moves at least one
    operation, so the operations bound the rounds. *)
Fixpoint rounds (fuel : nat) (remaining : list BulkOperation) (ids : gset string)
    (ordered : list BulkOperation) : result ScimError (list BulkOperation) :=
  match remaining, fuel with
  | [], _ => Ok ordered
  | _, O => Err (Refused 409 "invalidValue")
  | _, S fuel' =>
      match List.filter (ready ids) remaining with
      | [] => Err (Refused 409 "invalidValue")
      | now =>
          rounds fuel' (List.filter (fun o => negb (ready ids o)) remaining)
            (produced now ∪ ids) (ordered ++ now)
      end
  end.

Definition _ordered (ops : list BulkOperation) : result ScimError (list BulkOperation) :=
  raise* Refused 400 "invalidValue" when
    existsb (fun o => negb (bool_decide (depends_on o ⊆ produced ops))) ops;
  rounds (length ops) ops ∅ [].

Definition _fail_on_errors (value : json) : result ScimError (option Z) :=
  match value with
  | JNull => Ok None
  | JInt z => if (z <? 1)%Z then Err (Refused 400 "invalidValue") else Ok (Some z)
  | _ => Err (Refused 400 "invalidValue")
  end.

Definition parse_bulk (document : json) : result ScimError BulkRequest :=
  match document with
  | JObj m =>
      match Json.get m "schemas" with
      | JArr schemas =>
          raise* Refused 400 "invalidSyntax" when
            negb (existsb (fun j => bool_decide (j = JStr BULK_REQUEST)) schemas);
          match Json.get m "Operations" with
          | JArr [] => Err (Refused 400 "invalidValue")
          | JArr raw =>
              raise* Refused 413 "tooMany" when (MAX_BULK_OPERATIONS <? length raw)%nat;
              let* stop := _fail_on_errors (Json.get m "failOnErrors") in
              let* ops := rmap _parse_one raw in
              let* _ := _assert_bulk_ids_unique ops in
              let* sorted := _ordered ops in
              Ok {| operations := sorted; fail_on_errors := stop |}
          | _ => Err (Refused 400 "invalidValue")
          end
      | _ => Err (Refused 400 "invalidSyntax")
      end
  | _ => Err (Refused 400 "invalidSyntax")
  end.

(** ** Running *)

(** What an operation can raise; the loop catches only [ScimError]. *)
Inductive raised : Type :=
| Scim (e : ScimError)
| Patch (e : ScimPatch.PatchError)
| AssertionError
| Uncaught (e : exn).

Section runner.
(** The state behind the stores, and a parsed user. *)
Context {S P : Type}.
Abbreviation call A := (S -> S * result raised A) (only parsing).

(** What the stores project: the identifier and location of a resource. *)
Record projection : Type := { pr_id : string; pr_location : string }.

(** The operations of [SCIMUserStore] and [SCIMGroupStore] the runner uses. *)
Record stores : Type := {
  from_scim : json -> result raised P;
  u_create : P -> json -> call (projection * bool);
  u_replace : string -> P -> json -> option string -> call projection;
  u_get : string -> call (list (string * json));
  u_delete : string -> option string -> call unit;
  g_create : json -> call (projection * bool);
  g_replace : string -> json -> option string -> call projection;
  g_patch : string -> list ScimPatch.Operation -> option string -> call projection;
  g_delete : string -> option string -> call unit;
}.

Definition scim {A} (r : result ScimError A) : result raised A :=
  match r with Ok a => Ok a | Err e => Err (Scim e) end.

Definition scim_type_of (e : ScimPatch.PatchError) : string :=
  match e with
  | ScimPatch.invalidValue => "invalidValue"
  | ScimPatch.invalidPath => "invalidPath"
  | ScimPatch.mutability => "mutability"
  | ScimPatch.noTarget => "noTarget"
  end.

Definition _patch_operations (d : json) : result raised (list ScimPatch.Operation) :=
  match ScimPatch.parse_operations d with
  | Ok ops => Ok ops
  | Err e => Err (Scim (Refused 400 (scim_type_of e)))
  end.

Definition lift {A} (r : result raised A) : call A := fun s => (s, r).
Definition andthen {A B} (m : call A) (k : A -> call B) : call B := fun s =>
  match m s with (s', Ok a) => k a s' | (s', Err e) => (s', Err e) end.
Notation "'s*' x := m 'in' k" := (andthen m (fun x => k))
  (at level 10, x name, m at level 200, k at level 200).

Context (st : stores).

Definition outcome_status (created : bool) : Z := if created then 201 else 200.

Definition _user (o : BulkOperation) (target : option string) (d : json) : call (option projection * Z) :=
  if String.eqb (method o) "POST" then
    s* parsed := lift (from_scim st d) in
    s* out := u_create st parsed d in
    lift (Ok (Some out.1, outcome_status out.2))
  else
  s* id := lift (match target with Some id => Ok id | None => Err AssertionError end) in
  if String.eqb (method o) "PUT" then
    s* parsed := lift (from_scim st d) in
    s* out := u_replace st id parsed d (version o) in
    lift (Ok (Some out, 200%Z))
  else if String.eqb (method o) "PATCH" then
    s* current := u_get st id in
    s* ops := lift (_patch_operations d) in
    s* patched := lift (match ScimPatch.apply_patch current ops with Ok r => Ok r | Err e => Err (Patch e) end) in
    s* parsed := lift (from_scim st (JObj patched)) in
    s* out := u_replace st id parsed (JObj patched) (version o) in
    lift (Ok (Some out, 200%Z))
  else
    s* done := u_delete st id (version o) in
    lift (Ok (None, 204%Z)).

Definition _group (o : BulkOperation) (target : option string) (d : json) : call (option projection * Z) :=
  if String.eqb (method o) "POST" then
    s* out := g_create st d in lift (Ok (Some out.1, outcome_status out.2))
  else
  s* id := lift (match target with Some id => Ok id | None => Err AssertionError end) in
  if String.eqb (method o) "PUT" then
    s* out := g_replace st id d (version o) in lift (Ok (Some out, 200%Z))
  else if String.eqb (method o) "PATCH" then
    s* ops := lift (_patch_operations d) in
    s* out := g_patch st id ops (version o) in lift (Ok (Some out, 200%Z))
  else
    s* done := g_delete st id (version o) in lift (Ok (None, 204%Z)).

(** One entry of the response: what it is about, its status and location. *)
Record entry : Type := {
  en_bulk_id : option string;
  en_method : string;
  en_status : Z;
  en_location : option string;
  en_error : option ScimError;
}.

Context (issuer : string).

Definition _entry (o : BulkOperation) (code : Z) (location : option string) (error : option ScimError) : entry :=
  {| en_bulk_id := (if truthy (bulk_id o) then bulk_id o else None); en_method := method o; en_status := code;
     en_location := location; en_error := error |}.

(** [_one]: the entry, and the references resolved afterwards. *)
Definition _one (o : BulkOperation) (resolved : gmap string string) : call (entry * gmap string string) :=
  s* d := lift (scim (resolve_references (data o) resolved)) in
  s* id := lift (scim (match resource_id o with
                       | Some i => if String.eqb i "" then Ok None
                                   else let* r := resolve_string i resolved in Ok (Some r)
                       | None => Ok None
                       end)) in
  s* out := (if String.eqb (resource o) "Users" then _user o id d else _group o id d) in
  match out.1 with
  | Some res =>
      let resolved' := match bulk_id o with
                       | Some b => if String.eqb b "" then resolved else <[b := pr_id res]> resolved
                       | None => resolved
                       end in
      lift (Ok (_entry o out.2 (Some (pr_location res)) None, resolved'))
  | None =>
      lift (Ok (_entry o out.2 (i ← id; Some (issuer +:+ "/scim/v2/" +:+ resource o +:+ "/" +:+ i)) None, resolved))
  end.

Fixpoint run_loop (stop : option Z) (ops : list BulkOperation) (resolved : gmap string string)
    (results : list entry) (errors : Z) : call (list entry) := fun s =>
  match ops with
  | [] => (s, Ok results)
  | o :: rest =>
      let continue s' e resolved' errors' :=
        let results' := results ++ [e] in
        if match stop with Some n => (n <=? errors')%Z | None => false end then (s', Ok results')
        else run_loop stop rest resolved' results' errors' s' in
      match _one o resolved s with
      | (s', Ok (e, resolved')) => continue s' e resolved' errors
      | (s', Err (Scim err)) => continue s' (_entry o (status err) None (Some err)) resolved (errors + 1)%Z
      | (s', Err e) => (s', Err e)
      end
  end.

Definition run_bulk (request : BulkRequest) : call (list entry) :=
  run_loop (fail_on_errors request) (operations request) ∅ [] 0.
End runner.

(** ** The order *)

(** Every reference is declared by an operation before it. *)
Fixpoint satisfied (ids : gset string) (ops : list BulkOperation) : Prop :=
  match ops with
  | [] => True
  | o :: rest => depends_on o ⊆ ids /\ satisfied (declares o ∪ ids) rest
  end.

Lemma produced_nil : produced [] = ∅.
Proof. done. Qed.

Lemma produced_cons o ops : produced (o :: ops) = declares o ∪ produced ops.
Proof. done. Qed.

Lemma produced_app l k : produced (l ++ k) = produced l ∪ produced k.
Proof. induction l as [|o l IH]; [by rewrite produced_nil, (left_id_L ∅ (∪))|]. simpl app. by rewrite !produced_cons, IH, (assoc_L _). Qed.

Lemma elem_produced x ops : x ∈ produced ops <-> exists o, o ∈ ops /\ x ∈ declares o.
Proof.
  induction ops as [|o ops IH].
  - rewrite produced_nil. split; [by intros ?%elem_of_empty|by intros (o & ?%not_elem_of_nil & _)].
  - rewrite produced_cons, elem_of_union, IH. setoid_rewrite elem_of_cons. naive_solver.
Qed.

Lemma satisfied_mono ids ids' ops : ids ⊆ ids' -> satisfied ids ops -> satisfied ids' ops.
Proof.
  revert ids ids'. induction ops as [|o ops IH]; intros ids ids' Hs; [done|]. simpl. intros [H1 H2].
  split; [set_solver|]. eapply IH; [|exact H2]. set_solver.
Qed.

Lemma satisfied_app ids l k : satisfied ids l -> satisfied (produced l ∪ ids) k -> satisfied ids (l ++ k).
Proof.
  revert ids. induction l as [|o l IH]; intros ids; simpl.
  - intros _. apply satisfied_mono. rewrite produced_nil. set_solver.
  - intros [H1 H2] Hk. split; [done|]. apply IH; [done|]. eapply satisfied_mono; [|exact Hk]. rewrite produced_cons. set_solver.
Qed.

Lemma all_ready_satisfied ids l : Forall (fun o => depends_on o ⊆ ids) l -> satisfied ids l.
Proof.
  revert ids. induction l as [|o l IH]; intros ids; [done|]. intros [H1 H2]%list.Forall_cons. split; [done|].
  apply IH. eapply list.Forall_impl; [exact H2|]. set_solver.
Qed.

Lemma filter_ready ids l : Forall (fun o => depends_on o ⊆ ids) (List.filter (ready ids) l).
Proof.
  apply list.Forall_forall. intros o Ho%list_elem_of_In. apply filter_In in Ho as [_ Ho]. by apply bool_decide_eq_true in Ho.
Qed.

Lemma filter_split {A} (f : A -> bool) l : List.filter f l ++ List.filter (fun x => negb (f x)) l ≡ₚ l.
Proof.
  induction l as [|x l IH]; simpl; [done|]. destruct (f x); simpl; [by rewrite IH|].
  by rewrite <- Permutation_middle, IH.
Qed.

Lemma rounds_sound fuel remaining ids ordered out :
  rounds fuel remaining ids ordered = Ok out -> satisfied ∅ ordered -> ids = produced ordered ->
  out ≡ₚ ordered ++ remaining /\ satisfied ∅ out.
Proof.
  revert remaining ids ordered. induction fuel as [|fuel IH]; intros remaining ids ordered;
    destruct remaining as [|o rest]; simpl; try done; try (intros [= <-]; by rewrite app_nil_r).
  set (now := List.filter (ready ids) (o :: rest)). set (later := List.filter (fun o => negb (ready ids o)) (o :: rest)).
  intros Hr Hs Hd. change (if ready ids o then _ else _) with now in Hr. change (if negb _ then _ else _) with later in Hr.
  destruct now as [|x now'] eqn:En; [done|]. rewrite <- En in Hr.
  destruct (IH _ _ _ Hr) as [Hp Hout].
  - apply satisfied_app; [done|]. apply all_ready_satisfied. eapply list.Forall_impl; [apply filter_ready|].
    simpl. subst ids. set_solver.
  - rewrite produced_app. subst ids. set_solver.
  - split; [|done]. rewrite Hp, <- (assoc_L app). unfold now, later. by rewrite filter_split.
Qed.

(** The operations left when no operation is ready contain a cycle: no order
    satisfies them. *)
Lemma stuck_unorderable ops remaining ids order :
  (forall o, o ∈ ops -> o ∈ remaining \/ declares o ⊆ ids) ->
  order ⊆ ops -> satisfied ids order -> (exists o, o ∈ order /\ o ∈ remaining) ->
  List.filter (ready ids) remaining <> [].
Proof.
  intros Hcase Hsub Hsat Hex Hnone.
  assert (forall o, o ∈ remaining -> ~ depends_on o ⊆ ids) as Hstuck.
  { intros o Ho Hd. assert (In o (List.filter (ready ids) remaining)) as Hin.
    { apply filter_In. split; [by apply list_elem_of_In|]. by apply bool_decide_eq_true. }
    by rewrite Hnone in Hin. }
  clear Hnone. revert Hsub Hsat Hex. induction order as [|o order IH]; intros Hsub Hsat (x & Hx & Hr); [set_solver|].
  destruct Hsat as [Hd Hsat].
  assert (o ∉ remaining) as Hnr by (intros Hr'; by apply (Hstuck o)).
  apply elem_of_cons in Hx as [->|Hx]; [done|].
  apply IH; [set_solver| |by exists x]. eapply satisfied_mono; [|exact Hsat].
  destruct (Hcase o) as [|Hdec]; set_solver.
Qed.

Lemma rounds_complete ops order fuel remaining ids ordered :
  order ≡ₚ ops -> satisfied ∅ order ->
  (forall o, o ∈ ops -> o ∈ remaining \/ declares o ⊆ ids) -> remaining ⊆ ops ->
  (length remaining <= fuel)%nat -> is_ok (rounds fuel remaining ids ordered) = true.
Proof.
  intros Hp Hsat. revert remaining ids ordered.
  induction fuel as [|fuel IH]; intros remaining ids ordered Hcase Hsub Hlen;
    destruct remaining as [|o rest]; try done; [simpl in Hlen; lia|].
  cbn [rounds]. set (now := List.filter (ready ids) (o :: rest)).
  assert (now <> []) as Hnow.
  { apply (stuck_unorderable ops _ _ order); [done|by rewrite Hp|eapply satisfied_mono; [|exact Hsat]; set_solver|].
    exists o. split; [rewrite Hp; set_solver|set_solver]. }
  pose proof (filter_split (ready ids) (o :: rest)) as Hsplit. fold now in Hsplit.
  destruct now as [|x now'] eqn:En; [done|]. apply IH.
  - intros y Hy. destruct (Hcase y Hy) as [Hr|Hd]; [|right; set_solver]. rewrite <- Hsplit in Hr.
    apply elem_of_app in Hr as [Hr|Hr]; [right|by left]. intros z Hz. apply elem_of_union_l, elem_produced. eauto.
  - intros y Hy. apply Hsub. rewrite <- Hsplit. set_solver.
  - apply Permutation_length in Hsplit. rewrite length_app in Hsplit. simpl in Hsplit, Hlen |- *. lia.
Qed.

Lemma satisfied_declared ids ops : satisfied ids ops -> forall o, o ∈ ops -> depends_on o ⊆ produced ops ∪ ids.
Proof.
  revert ids. induction ops as [|o ops IH]; intros ids; [set_solver|]. intros [Hd Hs] x [->|Hx]%elem_of_cons;
    rewrite produced_cons; [set_solver|]. specialize (IH _ Hs x Hx). set_solver.
Qed.

Lemma produced_perm l k : l ≡ₚ k -> produced l = produced k.
Proof. intros Hp. apply set_eq. intros x. rewrite !elem_produced. by setoid_rewrite Hp. Qed.

(** Operations run in an order that satisfies their references, whenever
    there is one.  Ordering succeeds exactly when some arrangement puts every
    operation after those it refers to; its result is such an arrangement of
    the same operations, and a request without references keeps its order. *)
Theorem ordered_iff_orderable (ops : list BulkOperation) :
  (is_ok (_ordered ops) = true <-> exists order, order ≡ₚ ops /\ satisfied ∅ order) /\
  (forall out, _ordered ops = Ok out -> out ≡ₚ ops /\ satisfied ∅ out) /\
  (Forall (fun o => depends_on o = ∅) ops -> _ordered ops = Ok ops).
Proof.
  assert (forall out, _ordered ops = Ok out -> out ≡ₚ ops /\ satisfied ∅ out) as Hsound.
  { intros out. unfold _ordered. destruct (existsb _ ops); [done|]. intros Hr.
    by apply rounds_sound in Hr. }
  split_and!; [split| |].
  - destruct (_ordered ops) as [out|] eqn:E; [|done]. intros _. exists out. by apply Hsound.
  - intros (order & Hp & Hs). unfold _ordered. destruct (existsb _ ops) eqn:Ex.
    + apply existsb_exists in Ex as (o & Ho%list_elem_of_In & Hn). bool_prop. destruct Hn.
      rewrite <- Hp in Ho. pose proof (satisfied_declared _ _ Hs o Ho) as Hd.
      rewrite (produced_perm _ _ Hp) in Hd. set_solver.
    + apply (rounds_complete ops order); [done|done|by left|done|done].
  - exact Hsound.
  - intros Hall. unfold _ordered.
    assert (existsb (fun o => negb (bool_decide (depends_on o ⊆ produced ops))) ops = false) as ->.
    { apply not_true_iff_false. intros (o & Ho%list_elem_of_In & Hn)%existsb_exists.
      rewrite list.Forall_forall in Hall. bool_prop. destruct Hn. rewrite (Hall o Ho). set_solver. }
    destruct ops as [|o rest]; [done|]. simpl length. cbn [rounds].
    assert (forall l, Forall (fun o => depends_on o = ∅) l ->
      List.filter (ready ∅) l = l /\ List.filter (fun o => negb (ready ∅ o)) l = []) as Hf.
    { induction 1 as [|y l Hy _ [IH1 IH2]]; simpl; [done|].
      assert (ready ∅ y = true) as -> by (apply bool_decide_eq_true; rewrite Hy; set_solver).
      simpl. by rewrite IH1, IH2. }
    destruct (Hf _ Hall) as [-> ->]. by destruct (length rest).
Qed.

Lemma resolve_string_ok s resolved : is_ok (resolve_string s resolved) = true <-> reference_in s ⊆ dom resolved.
Proof.
  unfold resolve_string, reference_in. destruct (Py.startswith s BULK_ID_PREFIX); [|split; [set_solver|done]].
  rewrite singleton_subseteq_l, elem_of_dom. destruct (resolved !! _); simpl; split; try done; by intros [].
Qed.

Lemma is_ok_bind {E A B} (m : result E A) (k : A -> result E B) :
  is_ok (rbind m k) = true <-> exists a, m = Ok a /\ is_ok (k a) = true.
Proof. destruct m; simpl; naive_solver. Qed.

(** A document resolves exactly when every reference in it is known. *)
Lemma resolves value resolved :
  is_ok (resolve_references value resolved) = true <-> referenced_bulk_ids value ⊆ dom resolved.
Proof.
  induction value as [|b|z|m e|s|t|l IH|m IH] using json_deep_ind; simpl; try (split; [set_solver|done]).
  - rewrite <- resolve_string_ok. by destruct (resolve_string s resolved).
  - rewrite is_ok_bind. transitivity (exists a, foldr (fun x acc =>
      let* v := resolve_references x resolved in let* rest := acc in Ok (v :: rest)) (Ok []) l = Ok a); [naive_solver|].
    induction IH as [|x l Hx _ IHl]; simpl; [split; [set_solver|eauto]|]. rewrite union_subseteq, <- Hx, <- IHl.
    destruct (resolve_references x resolved); simpl; [|naive_solver]. destruct (foldr _ _ l); simpl; naive_solver.
  - rewrite is_ok_bind. transitivity (exists a, foldr (fun kv acc =>
      let* v := resolve_references kv.2 resolved in let* rest := acc in Ok ((kv.1, v) :: rest)) (Ok []) m = Ok a); [naive_solver|].
    induction IH as [|kv m Hx _ IHm]; simpl; [split; [set_solver|eauto]|]. rewrite union_subseteq, <- Hx, <- IHm.
    destruct (resolve_references kv.2 resolved); simpl; [|naive_solver]. destruct (foldr _ _ m); simpl; naive_solver.
Qed.

(** ** The run *)

Section running.
Context {S P : Type} (st : stores (S := S) (P := P)) (issuer : string).

Definition is_error (e : entry) : bool := match en_error e with Some _ => true | None => false end.
Definition errors_in (l : list entry) : Z := Z.of_nat (length (List.filter is_error l)).

Lemma one_entry o resolved s s' e resolved' :
  _one st issuer o resolved s = (s', Ok (e, resolved')) -> is_error e = false.
Proof.
  unfold _one, andthen, lift. destruct (scim (resolve_references _ _)); [|done].
  destruct (scim _) as [id|]; [|done]. destruct ((if String.eqb (resource o) "Users" then _ else _) s) as [s1 [[[p|] z]|]];
    [| |done]; by intros [= _ <- _].
Qed.

Lemma errors_in_snoc l e : errors_in (l ++ [e]) = (errors_in l + if is_error e then 1 else 0)%Z.
Proof.
  unfold errors_in. rewrite List.filter_app, length_app. simpl. destruct (is_error e); simpl; lia.
Qed.

Lemma run_loop_spec stop ops resolved results s s' out :
  (match stop with Some n => errors_in results < n | None => True end)%Z ->
  run_loop st issuer stop ops resolved results (errors_in results) s = (s', Ok out) ->
  exists new, out = results ++ new /\ (length new <= length ops)%nat /\
    (match stop with
     | Some n => errors_in out <= n /\ (errors_in out < n -> length new = length ops)
     | None => length new = length ops
     end)%Z.
Proof.
  revert resolved results s. induction ops as [|o rest IH]; intros resolved results s Hlt; cbn [run_loop].
  { intros [= <- <-]. exists []. rewrite app_nil_r. split_and!; [done|done|]. destruct stop; [|done]. split; [lia|done]. }
  pose proof (errors_in_snoc results) as Hsn.
  assert (forall e resolved1 s1,
    (let results' := results ++ [e] in
     if match stop with Some n => (n <=? errors_in results')%Z | None => false end then (s1, Ok results')
     else run_loop st issuer stop rest resolved1 results' (errors_in results') s1) = (s', Ok out) ->
    exists new, out = results ++ new /\ (length new <= length (o :: rest))%nat /\
      (match stop with
       | Some n => errors_in out <= n /\ (errors_in out < n -> length new = length (o :: rest))
       | None => length new = length (o :: rest)
       end)%Z) as Hgo.
  { intros e resolved1 s1. cbv zeta. specialize (Hsn e).
    destruct (match stop with Some n => _ | None => false end) eqn:Hstop.
    - intros [= <- <-]. exists [e]. destruct stop as [n|]; [|done]. bool_prop.
      split_and!; [done|simpl; lia|destruct (is_error e); lia|lia].
    - intros Hr. destruct (IH resolved1 (results ++ [e]) s1) as (new & -> & Hl & Hc); [|exact Hr|].
      { destruct stop; [|done]. by bool_prop. }
      exists (e :: new). rewrite <- (assoc_L app) in *. split_and!; [done|simpl; lia|].
      destruct stop; simpl in *; [|lia]. destruct Hc as [? Hc]. split; [done|]. intros. specialize (Hc ltac:(lia)). lia. }
  destruct (_one st issuer o resolved s) as [s1 [[e resolved1]|[err|err| |err]]] eqn:Eo; [| |done..].
  - apply one_entry in Eo. intros Hr. apply (Hgo e resolved1 s1). cbv zeta. rewrite (Hsn e), Eo, Z.add_0_r. exact Hr.
  - intros Hr. apply (Hgo (_entry o (status err) None (Some err)) resolved s1).
    cbv zeta. rewrite (Hsn _). exact Hr.
Qed.

(** A bulk run stops at the number of failures the client allows.  A run
    that answers has one entry per operation, in order, up to the point it
    stopped; it stops early only when as many entries are errors as
    [failOnErrors] says, and never reports more. *)
Theorem bulk_stops_at_failures (request : BulkRequest) (s s' : S) (out : list entry) :
  match fail_on_errors request with Some n => (1 <= n)%Z | None => True end ->
  run_bulk st issuer request s = (s', Ok out) ->
  (length out <= length (operations request))%nat /\
  match fail_on_errors request with
  | Some n => (errors_in out <= n)%Z /\ ((errors_in out < n)%Z -> length out = length (operations request))
  | None => length out = length (operations request)
  end.
Proof.
  intros Hn Hr. unfold run_bulk in Hr.
  destruct (run_loop_spec (fail_on_errors request) (operations request) ∅ [] s s' out) as (new & -> & Hl & Hc).
  - destruct (fail_on_errors request); [|done]. unfold errors_in. simpl. lia.
  - exact Hr.
  - done.
Qed.

(** A PATCH that cannot be applied takes the whole request with it.  When
    the operations parse but applying them fails, the failure is not an entry
    of the response: the run raises, with the changes of the operations before
    it already made. *)
Theorem patch_failure_aborts_run (o : BulkOperation) (rest : list BulkOperation) (s s1 : S)
    (current : list (string * json)) (ops : list ScimPatch.Operation) (id : string)
    (e : ScimPatch.PatchError) :
  method o = "PATCH" -> resource o = "Users" -> resource_id o = Some id -> id <> "" ->
  reference_in id = ∅ -> resolve_references (data o) ∅ = Ok (data o) ->
  u_get st id s = (s1, Ok current) ->
  ScimPatch.parse_operations (data o) = Ok ops -> ScimPatch.apply_patch current ops = Err e ->
  run_bulk st issuer {| operations := o :: rest; fail_on_errors := None |} s = (s1, Err (Patch e)).
Proof.
  intros Hm Hres Hid Hne Href Hdata Hget Hops Happ. unfold run_bulk. cbn [run_loop operations fail_on_errors].
  unfold _one, andthen, lift. rewrite Hdata, Hid. simpl scim.
  destruct (String.eqb_spec id ""); [done|].
  assert (resolve_string id ∅ = Ok id) as ->.
  { unfold resolve_string, reference_in in *. destruct (Py.startswith id BULK_ID_PREFIX); [|done]. set_solver. }
  simpl. rewrite Hres. simpl. unfold _user, andthen, lift. rewrite Hm. simpl. rewrite Hget.
  unfold _patch_operations. rewrite Hops, Happ. done.
Qed.
End running.

(** An operation that becomes ready does not overtake the others of its round,
    even one the client sent later. *)
Theorem later_operation_goes_first :
  let op b deps := {| method := "POST"; resource := "Users"; resource_id := None; bulk_id := Some b;
                      data := JObj []; version := None; depends_on := deps |} in
  _ordered [op "a" {["b"]}; op "b" ∅; op "c" ∅] = Ok [op "b" ∅; op "c" ∅; op "a" {["b"]}].
Proof. vm_compute. reflexivity. Qed.

(** ** Witnesses *)

Section witnesses.

Definition demo_stores : stores (S := list string) (P := json) :=
  {| from_scim := fun j => Ok j;
     u_create := fun _ _ s => ("created" :: s, Ok ({| pr_id := "p9"; pr_location := "/Users/p9" |}, true));
     u_replace := fun id _ _ _ s => (id :: s, Ok {| pr_id := id; pr_location := "/Users" |});
     u_get := fun id s => (s, Ok [("userName", JStr "sam")]);
     u_delete := fun id _ s => (s, Err (Scim (Refused 404 "notFound")));
     g_create := fun _ s => (s, Err (Scim (Refused 409 "uniqueness")));
     g_replace := fun id _ _ s => (s, Err (Scim (Refused 404 "notFound")));
     g_patch := fun id _ _ s => (s, Err (Scim (Refused 404 "notFound")));
     g_delete := fun id _ s => (s, Err (Scim (Refused 404 "notFound"))) |}.

Definition demo_delete : BulkOperation :=
  {| method := "DELETE"; resource := "Users"; resource_id := Some "p1"; bulk_id := None; data := JNull;
     version := None; depends_on := ∅ |}.

Definition demo_patch : BulkOperation :=
  {| method := "PATCH"; resource := "Users"; resource_id := Some "p1"; bulk_id := None;
     data := ScimPatch.patch_body "replace" "userName[type eq true]" (JBool true);
     version := None; depends_on := ∅ |}.

Lemma bulk_stops_at_failures_witness :
  exists out, (run_bulk demo_stores "https://campus.test"
    {| operations := [demo_delete; demo_delete; demo_delete]; fail_on_errors := Some 2%Z |} []).2 = Ok out /\
    (errors_in out <= 2)%Z.
Proof.
  assert (1 <= 2)%Z as H1 by lia.
  destruct (run_bulk demo_stores "https://campus.test"
    {| operations := [demo_delete; demo_delete; demo_delete]; fail_on_errors := Some 2%Z |} []) as [s' [out|e]] eqn:E;
    [|vm_compute in E; discriminate].
  exists out. split; [reflexivity|].
  destruct (bulk_stops_at_failures demo_stores "https://campus.test"
    {| operations := [demo_delete; demo_delete; demo_delete]; fail_on_errors := Some 2%Z |} [] s' out H1 E) as (_ & W & _).
  exact W.
Defined.

Lemma patch_failure_aborts_run_witness :
  run_bulk demo_stores "https://campus.test" {| operations := [demo_patch; demo_delete]; fail_on_errors := None |} [] =
    ([], Err (Patch ScimPatch.noTarget)).
Proof.
  destruct (ScimPatch.parse_operations (data demo_patch)) as [ops|e] eqn:Eo; [|vm_compute in Eo; discriminate].
  assert (ScimPatch.apply_patch [("userName", JStr "sam")] ops = Err ScimPatch.noTarget) as Ha
    by (vm_compute in Eo; injection Eo as <-; vm_compute; reflexivity).
  assert (resolve_references (data demo_patch) ∅ = Ok (data demo_patch)) as Hd by (vm_compute; reflexivity).
  exact (patch_failure_aborts_run demo_stores "https://campus.test" demo_patch [demo_delete] [] []
    [("userName", JStr "sam")] ops "p1" ScimPatch.noTarget eq_refl eq_refl eq_refl ltac:(done) ltac:(vm_compute; reflexivity)
    Hd eq_refl Eo Ha).
Defined.
End witnesses.

End Bulk.
