(* ===== verification/Jwt.v ===== *)
(** * Signed tokens and the keys that sign them

    [campusid/oidc/jwt.py] and [keys.py].  RSA is the [cryptography] package's:
    signing, verification, public halves and key generation are parameters, and
    so is SHA-256.  The directory the keys live in is the state [rotate] and
    [retire] change; a key file is the key it holds. *)

From S2P Require Import Prelude PyStr Dict Base64 Json JsonText JsonLoads.

(** The [cryptography] package's RSA, as the broker calls it: PKCS #1 v1.5 over
    SHA-256, and the modulus and exponent of a public key. *)
Class RsaLib (Priv Pub : Type) : Type := {
  public_key : Priv -> Pub;
  public_numbers : Pub -> Z * Z;
  rsa_sign : Priv -> string -> string;
  rsa_verify : Pub -> string -> string -> bool;
}.
Class RsaLaws (Priv Pub : Type) `{RsaLib Priv Pub} : Prop := {
  rsa_verify_sign (k : Priv) (message : string) : rsa_verify (public_key k) (rsa_sign k message) message = true;
}.

Module Jwt.

Definition RS256 := "RS256".
Definition TYPE_JWT := "JWT".
Definition TYPE_AT_JWT := "at+jwt".

(** Every refusal is a [JwtError]; which check refused is its message. *)
Inductive JwtError : Type :=
| Malformed | UnsupportedAlgorithm | UnexpectedType | UnknownKey | SignatureFailed
| IssuerMismatch | AudienceMismatch | MissingExpiry | Expired | IssuedInFuture | NotYetValid.

#[global] Instance JwtError_eq_dec : EqDecision JwtError.
Proof. solve_decision. Defined.

Abbreviation claim_set := (list (string * json)).

Definition _json (segment : string) : result JwtError claim_set :=
  match Base64.b64url_decode segment ≫= JsonLoads.loads with
  | Some (JObj m) => Ok m
  | _ => Err Malformed
  end.

Definition is_str (o : option json) (s : string) : bool :=
  match o with Some (JStr s') => String.eqb s' s | _ => false end.

Definition _audience_matches (claim : option json) (expected : string) : bool :=
  match claim with
  | Some (JStr s) => String.eqb s expected
  | Some (JArr l) => existsb (fun j => is_str (Some j) expected) l
  | _ => false
  end.

(** [isinstance(x, int | float)], in microseconds: a fraction.  A [bool] is an
    [int]. *)
Definition numeric (o : option json) : option (Z * Z) :=
  match o with
  | Some (JInt z) => Some (z * SECOND, 1)%Z
  | Some (JBool b) => Some (if b then (SECOND, 1) else (0, 1))%Z
  | Some (JDec m e) => Some (if (0 <=? e)%Z then (m * 10 ^ e * SECOND, 1) else (m * SECOND, 10 ^ (- e)))%Z
  | _ => None
  end.

(** [t < q] for a moment and a fraction of microseconds. *)
Definition before (t : Z) (q : Z * Z) : bool := (t * q.2 <? q.1)%Z.

Definition _check_claims (claims : claim_set) (issuer : string) (audience : option string) (now : moment)
    (leeway : duration) : result JwtError unit :=
  let get := Json.lookup claims in
  raise* IssuerMismatch when negb (is_str (get "iss") issuer);
  raise* AudienceMismatch when match audience with Some a => negb (_audience_matches (get "aud") a) | None => false end;
  match numeric (get "exp") with
  | None => Err MissingExpiry
  | Some expiry =>
      raise* Expired when negb (before (now - leeway) expiry);
      raise* IssuedInFuture when match numeric (get "iat") with Some q => before (now + leeway) q | None => false end;
      raise* NotYetValid when match numeric (get "nbf") with Some q => before (now + leeway) q | None => false end;
      Ok tt
  end.

Definition LEEWAY : duration := 60 * SECOND.

Section jwt.
Context {Priv Pub : Type} `{RsaLib Priv Pub}.
Context (float_repr : Z -> Z -> string) (isoformat : moment -> string) (sha256 : string -> string).

Record SigningKey : Type := { kid : string; private_key : Priv }.

Definition segment (j : json) : string := Base64.b64url (JsonLoads.dumps float_repr isoformat j).

Definition encode (claims : claim_set) (key : SigningKey) (typ : string) : string :=
  let header := JObj [("alg", JStr RS256); ("typ", JStr typ); ("kid", JStr (kid key))] in
  let signing_input := segment header +:+ "." +:+ segment (JObj claims) in
  signing_input +:+ "." +:+ Base64.b64url (rsa_sign (private_key key) signing_input).

Definition decode (token : string) (public_keys : list (string * Pub)) (issuer : string) (audience : option string)
    (now : moment) (leeway : duration) (expected_typ : option string) : result JwtError claim_set :=
  match Py.split_on "." token with
  | [encoded_header; encoded_claims; encoded_signature] =>
      let* header := _json encoded_header in
      raise* UnsupportedAlgorithm when negb (is_str (Json.lookup header "alg") RS256);
      raise* UnexpectedType when
        match expected_typ with Some t => negb (is_str (Json.lookup header "typ") t) | None => false end;
      match Json.lookup header "kid" with
      | Some (JStr k) =>
          match Dict.get public_keys k with
          | None => Err UnknownKey
          | Some pub =>
              let message := encoded_header +:+ "." +:+ encoded_claims in
              match Base64.b64url_decode encoded_signature with
              | Some signature =>
                  raise* SignatureFailed when negb (Py.is_ascii message && rsa_verify pub signature message);
                  let* claims := _json encoded_claims in
                  let* _ := _check_claims claims issuer audience now leeway in
                  Ok claims
              | None => Err SignatureFailed
              end
          end
      | _ => Err UnknownKey
      end
  | _ => Err Malformed
  end.

(** ** Key sets *)

Record KeySet : Type := { active : SigningKey; retiring : list SigningKey }.

Definition published (ks : KeySet) : list SigningKey := active ks :: retiring ks.

(** A dict comprehension: a later key of the same [kid] takes its place. *)
Definition verification_keys (ks : KeySet) : list (string * Pub) :=
  fold_left (fun d key => Dict.set d (kid key) (public_key (private_key key))) (published ks) [].

(** [value.to_bytes((value.bit_length() + 7) // 8, "big")], of a natural number. *)
Fixpoint be_bytes (n : nat) (v : Z) (acc : string) : string :=
  match n with O => acc | S n' => be_bytes n' (v / 256)%Z (String (Utf8.chr (v mod 256)) acc) end.
Definition bit_length (v : Z) : Z := if (v =? 0)%Z then 0 else (Z.log2 v + 1)%Z.
Definition _to_bytes (v : Z) : string := be_bytes (Z.to_nat ((bit_length v + 7) / 8)) v "".

Definition public_jwk (key : SigningKey) : json :=
  let numbers := public_numbers (public_key (private_key key)) in
  JObj [("kty", JStr "RSA"); ("use", JStr "sig"); ("alg", JStr RS256); ("kid", JStr (kid key));
        ("n", JStr (Base64.b64url (_to_bytes numbers.1))); ("e", JStr (Base64.b64url (_to_bytes numbers.2)))].

Definition as_jwks (ks : KeySet) : json := JObj [("keys", JArr (public_jwk <$> published ks))].

Definition thumbprint (pub : Pub) : string :=
  let numbers := public_numbers pub in
  Base64.b64url (sha256 (JsonLoads.dumps float_repr isoformat
    (JObj [("e", JStr (Base64.b64url (_to_bytes numbers.2))); ("kty", JStr "RSA");
           ("n", JStr (Base64.b64url (_to_bytes numbers.1)))]))).

(** [fresh] is what [rsa.generate_private_key] draws. *)
Definition generate (fresh : Priv) : SigningKey := {| kid := thumbprint (public_key fresh); private_key := fresh |}.

(** ** The directory *)

Record directory : Type := { active_file : option Priv; retiring_dir : list (string * Priv) }.

Inductive key_error : Type := KeyMaterialMissing | ValueError.

Definition _filename (k : string) : result key_error string :=
  if Py.has_char "/" k || Py.has_char "\" k || bool_decide (k ∈ [""; "."; ".."]) then Err ValueError else Ok k.

Definition _read_key (priv : Priv) : SigningKey := generate priv.

Definition by_path (f1 f2 : string * Priv) : bool := String.leb f1.1 f2.1.

Definition load_or_create_key_set (fresh : Priv) (generate_missing : bool) (d : directory) :
    directory * result key_error KeySet :=
  let retired := (fun f => _read_key f.2) <$> Sort.sort by_path (retiring_dir d) in
  match active_file d with
  | Some priv => (d, Ok {| active := _read_key priv; retiring := retired |})
  | None =>
      if negb generate_missing then (d, Err KeyMaterialMissing)
      else ({| active_file := Some fresh; retiring_dir := retiring_dir d |},
            Ok {| active := generate fresh; retiring := retired |})
  end.

(** [first] is drawn when there is no active key yet, [fresh] is the new one. *)
Definition rotate (first fresh : Priv) (d : directory) : directory * result key_error KeySet :=
  let '(d, current) := load_or_create_key_set first true d in
  match current with
  | Err e => (d, Err e)
  | Ok ks =>
      match _filename (kid (active ks)) with
      | Err e => (d, Err e)
      | Ok name =>
          ({| active_file := Some fresh; retiring_dir := Dict.set (retiring_dir d) (name +:+ ".key") (private_key (active ks)) |},
           Ok {| active := generate fresh; retiring := retiring ks ++ [active ks] |})
      end
  end.

Definition retire (first : Priv) (d : directory) (k : string) : directory * result key_error KeySet :=
  match _filename k with
  | Err e => (d, Err e)
  | Ok name =>
      load_or_create_key_set first true
        {| active_file := active_file d;
           retiring_dir := List.filter (fun f => negb (String.eqb f.1 (name +:+ ".key"))) (retiring_dir d) |}
  end.

(** ** What is written reads back *)

Lemma segment_chars j : Py.sforall Base64.url_char (segment j) = true.
Proof. apply Base64.b64url_chars. Qed.

Lemma url_no_dot s : Py.sforall Base64.url_char s = true -> Py.has_char "." s = false.
Proof. intros E. by eapply Base64.sforall_has_char. Qed.

Lemma url_ascii s : Py.sforall Base64.url_char s = true -> Py.is_ascii s = true.
Proof. apply Base64.sforall_mono. by intros [[] [] [] [] [] [] [] []]. Qed.

Lemma json_segment m : JsonLoads.readable (JObj m) = true -> _json (segment (JObj m)) = Ok m.
Proof. intros E. unfold _json, segment. rewrite Base64.b64url_roundtrip. cbn [mbind option_bind]. by rewrite JsonLoads.loads_dumps. Qed.

Lemma split_compact a b c :
  Py.has_char "." a = false -> Py.has_char "." b = false -> Py.has_char "." c = false ->
  Py.split_on "." ((a +:+ "." +:+ b) +:+ "." +:+ c) = [a; b; c].
Proof.
  intros Ha Hb Hc. rewrite !Py.app_assoc, !(Py.app_String "."), !Py.app_nil_l.
  by rewrite !Py.split_on_app, Py.split_on_none.
Qed.

Context {laws : RsaLaws Priv Pub}.

(** A token signed with a key of the map reads back as its claims, subject to the
    checks on its type and its claims. *)
Lemma decode_encoded claims key typ pubs issuer audience now leeway expected_typ :
  JsonLoads.readable (JObj claims) = true -> Utf8.valid (kid key) = true -> Utf8.valid typ = true ->
  Dict.get pubs (kid key) = Some (public_key (private_key key)) ->
  decode (encode claims key typ) pubs issuer audience now leeway expected_typ =
    (raise* UnexpectedType when match expected_typ with Some t => negb (String.eqb typ t) | None => false end;
     let* _ := _check_claims claims issuer audience now leeway in Ok claims).
Proof.
  intros Hc Hk Ht Hpub. unfold decode, encode.
  set (header := [("alg", JStr RS256); ("typ", JStr typ); ("kid", JStr (kid key))]).
  assert (JsonLoads.readable (JObj header) = true) as Hh.
  { unfold header. cbn. by rewrite Hk, Ht. }
  rewrite split_compact by (apply url_no_dot; apply segment_chars || apply Base64.b64url_chars).
  rewrite (json_segment header) by done. cbn [rbind].
  change (Json.lookup header "alg") with (Some (JStr RS256)). change (Json.lookup header "typ") with (Some (JStr typ)).
  change (Json.lookup header "kid") with (Some (JStr (kid key))). change (negb (is_str (Some (JStr RS256)) RS256)) with false.
  cbv iota. cbn [is_str]. destruct (match expected_typ with Some t => negb (String.eqb typ t) | None => false end); [done|].
  rewrite Hpub, Base64.b64url_roundtrip, rsa_verify_sign.
  rewrite !JsonLoads.is_ascii_app, !(url_ascii (segment _)) by apply segment_chars.
  change (Py.is_ascii ".") with true. cbn [negb andb]. by rewrite json_segment.
Qed.

(** A token of another type is refused before its key is looked at. *)
Lemma decode_wrong_type claims key typ pubs issuer audience now leeway expected :
  Utf8.valid (kid key) = true -> Utf8.valid typ = true -> typ <> expected ->
  decode (encode claims key typ) pubs issuer audience now leeway (Some expected) = Err UnexpectedType.
Proof.
  intros Hk Ht Hne. unfold decode, encode.
  set (header := [("alg", JStr RS256); ("typ", JStr typ); ("kid", JStr (kid key))]).
  assert (JsonLoads.readable (JObj header) = true) as Hh.
  { unfold header. cbn. by rewrite Hk, Ht. }
  rewrite split_compact by (apply url_no_dot; apply segment_chars || apply Base64.b64url_chars).
  rewrite (json_segment header) by done. cbn [rbind].
  change (Json.lookup header "alg") with (Some (JStr RS256)). change (Json.lookup header "typ") with (Some (JStr typ)).
  change (negb (is_str (Some (JStr RS256)) RS256)) with false.
  cbv iota. cbn [is_str]. by destruct (String.eqb_spec typ expected).
Qed.

(** ** What is accepted *)

(** Everything [decode] has established about a token whose claims it returns. *)
Definition signed_by (pub : Pub) (k h c sg : string) (typ : option string) : Prop :=
  exists header signature,
    _json h = Ok header /\ Json.lookup header "alg" = Some (JStr RS256) /\ Json.lookup header "kid" = Some (JStr k) /\
    match typ with Some t => Json.lookup header "typ" = Some (JStr t) | None => True end /\
    Base64.b64url_decode sg = Some signature /\ rsa_verify pub signature (h +:+ "." +:+ c) = true.

Lemma is_str_true o s : is_str o s = true -> o = Some (JStr s).
Proof. destruct o as [[]|]; cbn; try done. by intros ->%String.eqb_eq. Qed.

Lemma decode_ok token pubs issuer audience now leeway typ claims :
  decode token pubs issuer audience now leeway typ = Ok claims ->
  exists h c sg k pub,
    token = h +:+ "." +:+ c +:+ "." +:+ sg /\ Dict.get pubs k = Some pub /\ signed_by pub k h c sg typ /\
    _json c = Ok claims /\ _check_claims claims issuer audience now leeway = Ok tt.
Proof.
  unfold decode. intros E. pose proof (Py.join_split "." token) as J.
  destruct (Py.split_on "." token) as [|h [|c [|sg [|]]]]; try done. cbn [Py.join] in J.
  destruct (_json h) as [header|] eqn:Eh; [|done]. cbn [rbind] in E.
  destruct (is_str _ RS256) eqn:Ealg; [|done]. cbn [negb] in E.
  destruct (match typ with Some t => _ | None => false end) eqn:Etyp; [done|].
  destruct (Json.lookup header "kid") as [[| | | |k| | |]|] eqn:Ekid; try done.
  destruct (Dict.get pubs k) as [pub|] eqn:Epub; [|done].
  destruct (Base64.b64url_decode sg) as [signature|] eqn:Esg; [|done].
  destruct (Py.is_ascii _ && rsa_verify _ _ _) eqn:Ev; [|done]. cbn [negb] in E. bool_prop.
  destruct (_json c) as [cl|] eqn:Ec; [|done]. cbn [rbind] in E.
  destruct (_check_claims cl issuer audience now leeway) as [[]|] eqn:Ecl; [|done]. cbn [rbind] in E. injection E as <-.
  exists h, c, sg, k, pub. split_and!; try done. exists header, signature. split_and!; try done.
  - by apply is_str_true.
  - destruct typ as [t|]; [|done]. apply is_str_true. by apply negb_false_iff.
Qed.

(** More keys accept no fewer tokens. *)
Lemma decode_more_keys token pubs pubs' issuer audience now leeway typ claims :
  (forall k pub, Dict.get pubs k = Some pub -> Dict.get pubs' k = Some pub) ->
  decode token pubs issuer audience now leeway typ = Ok claims ->
  decode token pubs' issuer audience now leeway typ = Ok claims.
Proof.
  intros Hsub. unfold decode. destruct (Py.split_on "." token) as [|h [|c [|sg [|]]]]; try done.
  destruct (_json h) as [header|]; [|done]. cbn [rbind].
  destruct (is_str _ RS256); [|done]. cbn [negb].
  destruct (match typ with Some t => _ | None => false end); [done|].
  destruct (Json.lookup header "kid") as [[]|]; try done.
  destruct (Dict.get pubs _) as [pub|] eqn:Ep; [|done]. by rewrite (Hsub _ _ Ep).
Qed.

(** ** Rotation *)

Lemma vk_get (l : list SigningKey) d k pub :
  Dict.get (fold_left (fun d key => Dict.set d (kid key) (public_key (private_key key))) l d) k = Some pub ->
  Dict.get d k = Some pub \/ exists key, key ∈ l /\ kid key = k /\ public_key (private_key key) = pub.
Proof.
  clear sha256 float_repr isoformat. revert d. induction l as [|key l IH]; intros d; [by left|]. cbn [fold_left]. intros [E|(key' & Hin & E1 & E2)]%IH.
  - rewrite Dict.get_set in E. case_decide; [right; exists key; split; [left|naive_solver]|by left].
  - right. exists key'. split; [by right|done].
Qed.

Lemma vk_complete (l : list SigningKey) d key :
  (forall key', key' ∈ l -> kid key' = kid key -> public_key (private_key key') = public_key (private_key key)) ->
  (key ∈ l \/ Dict.get d (kid key) = Some (public_key (private_key key))) ->
  Dict.get (fold_left (fun d key => Dict.set d (kid key) (public_key (private_key key))) l d) (kid key) =
    Some (public_key (private_key key)).
Proof.
  clear sha256 float_repr isoformat. revert d. induction l as [|x l IH]; intros d Hsame Hin; cbn [fold_left].
  - destruct Hin as [Hin|]; [by apply elem_of_nil in Hin|done].
  - apply IH; [by intros; apply Hsame; [right|]|].
    destruct (decide (kid x = kid key)) as [Ek|Ek].
    + right. rewrite Ek, Dict.get_set_eq. f_equal. apply Hsame; [left|done].
    + destruct Hin as [Hin|Hin]; [|right; by rewrite Dict.get_set_ne].
      apply elem_of_cons in Hin as [->|Hin]; [done|by left].
Qed.

(** Keys of one set that share a [kid] share their public half: no two of them
    have the same thumbprint by accident. *)
Definition coherent (l : list SigningKey) : Prop :=
  forall key key', key ∈ l -> key' ∈ l -> kid key = kid key' -> public_key (private_key key) = public_key (private_key key').

Lemma verification_keys_mono ks ks' :
  coherent (published ks') -> (forall key, key ∈ published ks -> exists key', key' ∈ published ks' /\ kid key' = kid key /\
    public_key (private_key key') = public_key (private_key key)) ->
  forall k pub, Dict.get (verification_keys ks) k = Some pub -> Dict.get (verification_keys ks') k = Some pub.
Proof.
  intros Hc Hsub k pub. unfold verification_keys. intros [E|(key & Hin & <- & <-)]%vk_get; [done|].
  destruct (Hsub key Hin) as (key' & Hin' & <- & <-). apply vk_complete; [|by left].
  intros key2 Hin2 E. by apply Hc.
Qed.

Lemma verification_keys_active ks : coherent (published ks) ->
  Dict.get (verification_keys ks) (kid (active ks)) = Some (public_key (private_key (active ks))).
Proof. intros Hc. apply vk_complete; [|left; left]. intros key' Hin E. apply Hc; [done|left|done]. Qed.

(** A retiring key's file is named after its key. *)
Definition named (d : directory) : Prop :=
  Forall (fun f => f.1 = kid (_read_key f.2) +:+ ".key") (retiring_dir d).

Lemma load_existing first g d a : active_file d = Some a ->
  load_or_create_key_set first g d =
    (d, Ok {| active := _read_key a; retiring := (fun f => _read_key f.2) <$> Sort.sort by_path (retiring_dir d) |}).
Proof. intros E. unfold load_or_create_key_set. by rewrite E. Qed.

Lemma set_named (fs : list (string * Priv)) name a :
  Forall (fun f => f.1 = kid (_read_key f.2) +:+ ".key") fs -> name = kid (_read_key a) +:+ ".key" ->
  Forall (fun f => f.1 = kid (_read_key f.2) +:+ ".key") (Dict.set fs name a) /\
  (name, a) ∈ Dict.set fs name a /\
  forall f, f ∈ fs -> exists f', f' ∈ Dict.set fs name a /\ f'.1 = f.1.
Proof.
  intros Hn ->. induction Hn as [|[n k] fs Hf Hn (IH1 & IH2 & IH3)]; cbn [Dict.set].
  - split_and!; [by repeat constructor|left|]. intros f Hf. by apply elem_of_nil in Hf.
  - destruct (String.eqb_spec (kid (_read_key a) +:+ ".key") n) as [<-|Hne].
    + split_and!; [by constructor|left|]. intros f [->|Hin]%elem_of_cons; [by eexists (_, a); split; [left|]|].
      exists f. split; [by right|done].
    + split_and!; [by constructor|by right|]. intros f [->|Hin]%elem_of_cons; [by exists (n, k); split; [left|]|].
      destruct (IH3 _ Hin) as (f' & ? & ?). exists f'. split; [by right|done].
Qed.

Lemma app_inv_tail_str (a b t : string) : a +:+ t = b +:+ t -> a = b.
Proof.
  intros E. apply (f_equal Py.srev) in E. rewrite !Py.srev_app_distr in E. by apply Py.app_inv_l, Py.srev_inj in E.
Qed.

Lemma rotate_loaded first fresh d a d' ks' g first' :
  active_file d = Some a -> named d -> rotate first fresh d = (d', Ok ks') ->
  active_file d' = Some fresh /\ named d' /\
  exists ks ks2, load_or_create_key_set first' g d = (d, Ok ks) /\ load_or_create_key_set first' g d' = (d', Ok ks2) /\
    active ks = _read_key a /\ active ks2 = generate fresh /\
    forall key, key ∈ published ks -> exists key', key' ∈ published ks2 /\ kid key' = kid key.
Proof.
  intros Ha Hn. unfold rotate. rewrite (load_existing _ _ _ _ Ha). cbn [rbind active].
  destruct (_filename _) as [name|] eqn:Ef; [|done]. intros [= <- <-]. cbn [active_file retiring_dir private_key].
  assert (name = kid (_read_key a)) as -> by (unfold _filename in Ef; by destruct (_ || _); [|injection Ef as <-]).
  destruct (set_named (retiring_dir d) (kid (_read_key a) +:+ ".key") a Hn eq_refl) as (S1 & S2 & S3).
  split_and!; [done|exact S1|]. eexists _, _. rewrite (load_existing _ _ _ _ Ha). split_and!; [done|by rewrite (load_existing _ _ _ fresh)|done|done|].
  intros key Hin. unfold published in *. cbn [active retiring private_key _read_key generate] in *.
  assert (exists f, f ∈ Dict.set (retiring_dir d) (kid (_read_key a) +:+ ".key") a /\ kid (_read_key f.2) = kid key) as (f & Hf & Ek).
  { apply elem_of_cons in Hin as [->|Hin]; [by eexists|].
    apply list_elem_of_fmap in Hin as (f & -> & Hf). rewrite Sort.elem_of_sort in Hf.
    destruct (S3 _ Hf) as (f' & Hf' & E). exists f'. split; [done|].
    rewrite Forall_forall in S1. unfold named in Hn. rewrite Forall_forall in Hn.
    rewrite (S1 _ Hf'), (Hn _ Hf) in E. by apply app_inv_tail_str in E. }
  exists (_read_key f.2). split; [|done]. right. apply list_elem_of_fmap. exists f. by rewrite Sort.elem_of_sort.
Qed.

Lemma retire_loaded first d a k d' ks :
  active_file d = Some a -> named d -> retire first d k = (d', Ok ks) -> kid (_read_key a) <> k ->
  Dict.get (verification_keys ks) k = None.
Proof.
  intros Ha Hn. unfold retire. destruct (_filename k) as [name|] eqn:Ef; [|done].
  assert (name = k) as -> by (unfold _filename in Ef; by destruct (_ || _); [|injection Ef as <-]).
  rewrite (load_existing _ _ _ a) by done. intros [= <- <-] Hk.
  destruct (Dict.get _ k) as [pub|] eqn:E; [|done]. exfalso. apply vk_get in E as [E|(key & Hin & <- & _)]; [done|].
  unfold published in Hin. cbn [active retiring] in Hin. apply elem_of_cons in Hin as [->|Hin]; [done|].
  apply list_elem_of_fmap in Hin as (f & -> & Hf). rewrite Sort.elem_of_sort in Hf. cbn [retiring_dir] in Hf.
  apply list_elem_of_In, filter_In in Hf as [Hf E]. apply list_elem_of_In in Hf.
  unfold named in Hn. rewrite Forall_forall in Hn. rewrite (Hn _ Hf), String.eqb_refl in E. done.
Qed.

(** A rotation is invisible to the holders of tokens: whatever verified
    before it verifies after it, what the new key signs verifies too, and once
    the outgoing key is retired no token that names it is accepted. *)
Theorem rotation_then_retirement (first fresh : Priv) (d d' d'' : directory) (a : Priv) (g : bool)
    (ks ks2 ks3 : KeySet) issuer audience now leeway typ :
  active_file d = Some a -> named d ->
  load_or_create_key_set first g d = (d, Ok ks) ->
  (exists ks', rotate first fresh d = (d', Ok ks')) ->
  load_or_create_key_set first g d' = (d', Ok ks2) ->
  (forall key key', key ∈ published ks ++ published ks2 -> key' ∈ published ks ++ published ks2 ->
    kid key = kid key' -> public_key (private_key key) = public_key (private_key key')) ->
  retire first d' (kid (_read_key a)) = (d'', Ok ks3) ->
  kid (_read_key fresh) <> kid (_read_key a) ->
  (forall token claims,
    decode token (verification_keys ks) issuer audience now leeway typ = Ok claims ->
    decode token (verification_keys ks2) issuer audience now leeway typ = Ok claims) /\
  Dict.get (verification_keys ks2) (kid (active ks2)) = Some (public_key fresh) /\
  (forall h c sg header, Py.has_char "." h = false -> Py.has_char "." c = false -> Py.has_char "." sg = false ->
    _json h = Ok header -> Json.lookup header "kid" = Some (JStr (kid (_read_key a))) ->
    is_ok (decode ((h +:+ "." +:+ c) +:+ "." +:+ sg) (verification_keys ks3) issuer audience now leeway typ) = false).
Proof.
  intros Ha Hn Hl [ks' Hr] Hl2 Hco Hret Hne.
  destruct (rotate_loaded first fresh d a d' ks' g first Ha Hn Hr) as (Ha' & Hn' & kx & ky & Ex & Ey & Eax & Eay & Hsub).
  rewrite Hl in Ex. rewrite Hl2 in Ey. injection Ex as <-. injection Ey as <-. split_and!.
  - intros token claims. apply decode_more_keys. apply verification_keys_mono.
    + intros x y Hx Hy. apply Hco; rewrite elem_of_app; by right.
    + intros key Hin. destruct (Hsub key Hin) as (key' & Hin' & Ek). exists key'. split_and!; [done|done|].
      apply Hco; [rewrite elem_of_app; by right|rewrite elem_of_app; by left|done].
  - rewrite verification_keys_active; [by rewrite Eay|]. intros x y Hx Hy. apply Hco; rewrite elem_of_app; by right.
  - intros h c sg header D1 D2 D3 Eh Ek. unfold decode. rewrite split_compact, Eh by done. cbn [rbind].
    destruct (is_str _ _); [|done]. cbn [negb]. destruct (match typ with Some t => _ | None => false end); [done|].
    by rewrite Ek, (retire_loaded first d' fresh _ d'' ks3 Ha' Hn' Hret Hne).
Qed.

(** A token the active key signs reads back as the claims it was minted
    from, exactly while it is current: before its expiry and not before its issue,
    give or take the leeway. *)
Theorem token_reads_back ks claims typ issuer aud now leeway i e :
  coherent (published ks) -> JsonLoads.readable (JObj claims) = true ->
  Utf8.valid (kid (active ks)) = true -> Utf8.valid typ = true ->
  Json.lookup claims "iss" = Some (JStr issuer) -> Json.lookup claims "aud" = Some (JStr aud) ->
  Json.lookup claims "iat" = Some (JInt i) -> Json.lookup claims "exp" = Some (JInt e) ->
  Json.lookup claims "nbf" = None ->
  decode (encode claims (active ks) typ) (verification_keys ks) issuer (Some aud) now leeway (Some typ) =
    if (e * SECOND + leeway <=? now)%Z then Err Expired
    else if (now + leeway <? i * SECOND)%Z then Err IssuedInFuture
    else Ok claims.
Proof.
  intros Hc Hr Hk Ht Hiss Haud Hiat Hexp Hnbf. rewrite decode_encoded; [|done..|by apply verification_keys_active].
  rewrite String.eqb_refl. cbn [negb]. unfold _check_claims. rewrite Hiss, Haud, Hiat, Hexp, Hnbf.
  cbn [is_str _audience_matches numeric]. rewrite !String.eqb_refl. cbn [negb rbind]. unfold before. cbn [fst snd].
  rewrite !Z.mul_1_r. destruct (Z.ltb_spec (now - leeway) (e * SECOND)), (Z.leb_spec (e * SECOND + leeway) now); try lia; cbn [negb rbind]; [|done].
  by destruct (Z.ltb_spec (now + leeway) (i * SECOND)).
Qed.

(** A token is accepted only when one of the published keys verifies its
    signature over the very header and claims that are read, under the algorithm
    and the type the caller expects, for this issuer and audience, unexpired. *)
Theorem accepted_token_is_signed (token issuer aud typ : string) (ks : KeySet) (now : moment) (leeway : duration) claims :
  decode token (verification_keys ks) issuer (Some aud) now leeway (Some typ) = Ok claims ->
  exists h c sg key header signature expiry,
    token = h +:+ "." +:+ c +:+ "." +:+ sg /\ key ∈ published ks /\ _json h = Ok header /\ _json c = Ok claims /\
    Json.lookup header "kid" = Some (JStr (kid key)) /\ Json.lookup header "alg" = Some (JStr RS256) /\
    Json.lookup header "typ" = Some (JStr typ) /\ Base64.b64url_decode sg = Some signature /\
    rsa_verify (public_key (private_key key)) signature (h +:+ "." +:+ c) = true /\
    Json.lookup claims "iss" = Some (JStr issuer) /\ _audience_matches (Json.lookup claims "aud") aud = true /\
    numeric (Json.lookup claims "exp") = Some expiry /\ before (now - leeway) expiry = true.
Proof.
  clear sha256 float_repr isoformat. intros (h & c & sg & k & pub & -> & Hk & (header & signature & Eh & Ealg & Ekid & Etyp & Esg & Ev) & Ec & Hcl)%decode_ok.
  apply vk_get in Hk as [?|(key & Hin & <- & <-)]; [done|]. unfold _check_claims in Hcl.
  destruct (is_str _ issuer) eqn:Eiss; [|done]. cbn [negb] in Hcl.
  destruct (_audience_matches _ aud) eqn:Eaud; [|done]. cbn [negb] in Hcl.
  destruct (numeric (Json.lookup claims "exp")) as [expiry|] eqn:Eexp; [|done].
  destruct (before (now - leeway) expiry) eqn:Eb; [|done].
  exists h, c, sg, key, header, signature, expiry. split_and!; try done. by apply is_str_true.
Qed.

End jwt.

(** ** Witnesses *)

Section witnesses.

(** A toy signature scheme: a key is a number, its public half has that modulus,
    and a signature is the message after it. *)
#[global] Instance toy_rsa : RsaLib Z Z := {
  public_key k := k;
  public_numbers k := (k, 65537%Z);
  rsa_sign k m := Py.str_of_Z k +:+ ":" +:+ m;
  rsa_verify k sg m := String.eqb sg (Py.str_of_Z k +:+ ":" +:+ m);
}.
#[global] Instance toy_laws : RsaLaws Z Z.
Proof. split. intros k m. apply String.eqb_refl. Qed.

Definition toy_float (m e : Z) : string := "0.0".
Definition toy_iso (t : moment) : string := "".
Definition toy_sha (s : string) : string := s.

Definition demo_claims : claim_set :=
  [("iss", JStr "https://op"); ("sub", JStr "ana"); ("aud", JStr "app"); ("iat", JInt 100); ("exp", JInt 400)].
Definition demo_dir : directory := {| active_file := Some 3233%Z; retiring_dir := [] |}.
Definition demo_keys (d : directory) : KeySet (Priv := Z) :=
  match (load_or_create_key_set toy_float toy_iso toy_sha 1%Z true d).2 with
  | Ok ks => ks
  | Err _ => {| active := {| kid := ""; private_key := 0%Z |}; retiring := [] |}
  end.
Definition demo_set : KeySet (Priv := Z) := demo_keys demo_dir.
Definition demo_token : string := encode toy_float toy_iso demo_claims (active demo_set) TYPE_JWT.
Definition demo_rotated : directory := (rotate toy_float toy_iso toy_sha 1%Z 4757%Z demo_dir).1.

Lemma token_reads_back_witness :
  decode demo_token (verification_keys demo_set) "https://op" (Some "app") (200 * SECOND) LEEWAY (Some TYPE_JWT) = Ok demo_claims.
Proof.
  unfold demo_token.
  rewrite (token_reads_back toy_float toy_iso demo_set demo_claims TYPE_JWT "https://op" "app" (200 * SECOND) LEEWAY 100 400);
    try (by vm_compute).
  intros x y. let l := eval vm_compute in (published demo_set) in change (published demo_set) with l.
  intros ->%list_elem_of_singleton ->%list_elem_of_singleton. done.
Defined.

Lemma accepted_token_is_signed_witness : exists key, key ∈ published demo_set.
Proof.
  destruct (accepted_token_is_signed demo_token "https://op" "app" TYPE_JWT demo_set (200 * SECOND) LEEWAY demo_claims
    ltac:(by vm_compute)) as (h & c & sg & key & header & signature & expiry & _ & Hin & _).
  by exists key.
Defined.

Lemma rotation_then_retirement_witness :
  decode demo_token (verification_keys (demo_keys demo_rotated)) "https://op" (Some "app") (200 * SECOND) LEEWAY (Some TYPE_JWT) = Ok demo_claims.
Proof.
  refine (proj1 (rotation_then_retirement toy_float toy_iso toy_sha 1%Z 4757%Z demo_dir demo_rotated
    (retire toy_float toy_iso toy_sha 1%Z demo_rotated (kid demo_set.(active))).1 3233%Z true demo_set (demo_keys demo_rotated)
    (demo_keys (retire toy_float toy_iso toy_sha 1%Z demo_rotated (kid demo_set.(active))).1)
    "https://op" (Some "app") (200 * SECOND) LEEWAY (Some TYPE_JWT) _ _ _ _ _ _ _ _) demo_token demo_claims _).
  - reflexivity.
  - constructor.
  - by vm_compute.
  - eexists. by vm_compute.
  - by vm_compute.
  - intros x y. let l := eval vm_compute in (published demo_set ++ published (demo_keys demo_rotated)) in
      change (published demo_set ++ published (demo_keys demo_rotated)) with l.
    rewrite !elem_of_cons. intros Hx Hy E.
    destruct Hx as [->|[->|[->|Hx]]]; [..|by apply elem_of_nil in Hx];
    destruct Hy as [->|[->|[->|Hy]]]; try (by apply elem_of_nil in Hy); vm_compute in E |- *; done.
  - by vm_compute.
  - by vm_compute.
  - by vm_compute.
Defined.

End witnesses.

End Jwt.
