(* ===== verification/Url.v ===== *)
(** * URLs

    What the broker uses of [urllib.parse] (Python 3.12): [urlsplit] with
    [hostname], [quote_plus] and [urlencode], [unquote].  The two checks
    [urlsplit] makes on an unusual host, [_check_bracketed_netloc] and
    [_checknetloc], are a parameter: what they refuse raises [ValueError]. *)

From S2P Require Import Prelude PyStr Json JsonText JsonLoads.

Module Url.

Record SplitResult : Type := {
  scheme : string;
  netloc : string;
  path : string;
  query : string;
  fragment : string;
}.

Definition c0_or_space (c : ascii) : bool := (nat_of_ascii c <=? 32)%nat.
Definition unsafe_byte (c : ascii) : bool := bool_decide (nat_of_ascii c ∈ [9; 10; 13]%nat).

Fixpoint lstrip_if (f : ascii -> bool) (s : string) : string :=
  match s with String c r => if f c then lstrip_if f r else s | EmptyString => s end.

Definition is_alpha (c : ascii) : bool :=
  let n := nat_of_ascii (Py.lower_ascii c) in (97 <=? n)%nat && (n <=? 122)%nat.
Definition is_alnum (c : ascii) : bool := is_alpha c || JsonText.is_digit c.
Definition scheme_char (c : ascii) : bool := is_alnum c || bool_decide (c ∈ ["+"; "-"; "."]%char).

(** The scheme and the rest, if the text before the first colon is a scheme. *)
Definition split_scheme (url : string) : string * string :=
  match Py.partition ":" url with
  | (String c s, Some rest) =>
      if is_alpha c && Py.sforall scheme_char (String c s) then (Py.lower (String c s), rest) else ("", url)
  | _ => ("", url)
  end.

(** What comes before the first character of [delims], and from there on. *)
Fixpoint span_until (delims : list ascii) (s : string) : string * string :=
  match s with
  | EmptyString => (EmptyString, EmptyString)
  | String c r =>
      if bool_decide (c ∈ delims) then (EmptyString, s)
      else let '(p, q) := span_until delims r in (String c p, q)
  end.

Section urlsplit.
Context (netloc_ok : string -> bool).

Definition split_netloc (url : string) : option (string * string) :=
  if Py.startswith url "//" then
    let '(n, rest) := span_until ["/"; "?"; "#"]%char (Py.drop 2 url) in
    if Bool.eqb (Py.has_char "[" n) (Py.has_char "]" n) && netloc_ok n then Some (n, rest) else None
  else Some ("", url).

(** [None] where it raises [ValueError]. *)
Definition urlsplit (url : string) : option SplitResult :=
  let url := Py.sfilter (fun c => negb (unsafe_byte c)) (lstrip_if c0_or_space url) in
  let '(sch, url) := split_scheme url in
  '(n, url) ← split_netloc url;
  let '(url, frag) := Py.partition "#" url in
  let '(p, q) := Py.partition "?" url in
  Some {| scheme := sch; netloc := n; path := p; query := default "" q; fragment := default "" frag |}.
End urlsplit.

(** [s.rpartition(sep)[2]] and [s.partition(sep)[0]]. *)
Definition after_last (sep : ascii) (s : string) : string := (Py.rpartition sep s).2.
Definition up_to (sep : ascii) (s : string) : string := (Py.partition sep s).1.

Definition hostname (u : SplitResult) : option string :=
  let hostinfo := after_last "@" (netloc u) in
  let host := match Py.partition "[" hostinfo with
    | (_, Some bracketed) => up_to "]" bracketed
    | (_, None) => up_to ":" hostinfo
    end in
  if String.eqb host "" then None
  else
    match Py.partition "%" host with
    | (name, Some zone) => Some (Py.lower name +:+ "%" +:+ zone)
    | (name, None) => Some (Py.lower name)
    end.

(** ** Quoting *)

Definition unreserved (c : ascii) : bool := is_alnum c || bool_decide (c ∈ ["_"; "."; "-"; "~"]%char).

Definition hex_upper (n : nat) : ascii := Py.upper_ascii (JsonText.hex_digit n).

Definition percent (c : ascii) : string :=
  let n := nat_of_ascii c in String "%" (String (hex_upper (n / 16)) (String (hex_upper (n mod 16)) "")).

(** [quote_plus(s)] of the UTF-8 bytes of [s]. *)
Fixpoint quote_plus (s : string) : string :=
  match s with
  | EmptyString => EmptyString
  | String c r =>
      (if unreserved c then String c "" else if Ascii.eqb c " " then "+" else percent c) +:+ quote_plus r
  end.

(** [urlencode] of a dict of strings. *)
Definition urlencode (params : list (string * string)) : string :=
  Py.join "&" ((fun kv => quote_plus kv.1 +:+ "=" +:+ quote_plus kv.2) <$> params).

(** [unquote_to_bytes]. *)
Fixpoint unquote_bytes (s : string) : string :=
  match s with
  | EmptyString => EmptyString
  | String c r =>
      if Ascii.eqb c "%" then
        match r with
        | String a (String b r') =>
            match Hex.value a, Hex.value b with
            | Some h, Some l => String (ascii_of_nat (h * 16 + l)) (unquote_bytes r')
            | _, _ => String c (unquote_bytes r)
            end
        | _ => String c (unquote_bytes r)
        end
      else String c (unquote_bytes r)
  end.

(** Bytes that are not UTF-8 are replaced. *)
Definition unquote (replaced : string -> string) (s : string) : string :=
  let bytes := unquote_bytes s in if Utf8.valid bytes then bytes else replaced bytes.

(** [quote(s, safe="")] of the UTF-8 bytes of [s]. *)
Fixpoint quote (s : string) : string :=
  match s with
  | EmptyString => EmptyString
  | String c r => (if unreserved c then String c "" else percent c) +:+ quote r
  end.

Lemma unquote_quoted s : unquote_bytes (quote s) = s.
Proof.
  induction s as [|c s IH]; [done|]. cbn [quote]. destruct (unreserved c) eqn:U.
  - rewrite Py.app_String, Py.app_nil_l. cbn [unquote_bytes].
    replace (Ascii.eqb c "%") with false by (revert U; by destruct c as [[] [] [] [] [] [] [] []]). by rewrite IH.
  - transitivity (String c (unquote_bytes (quote s))); [|by rewrite IH]. by destruct c as [[] [] [] [] [] [] [] []].
Qed.

Definition quoted_char (c : ascii) : bool := unreserved c || Ascii.eqb c "%".
Lemma quote_chars s : Py.sforall quoted_char (quote s) = true.
Proof.
  induction s as [|c s IH]; [done|]. cbn [quote]. rewrite Py.sforall_app, IH, andb_true_r.
  destruct (unreserved c) eqn:U; [cbn; unfold quoted_char; by rewrite U|]. by destruct c as [[] [] [] [] [] [] [] []].
Qed.

(** ** A query is read back *)

(** [parse_qsl]: what a server does with a query string: each pair is split at
    its first [=] and unquoted after [+] became a space.  A pair without a value
    is dropped. *)
Definition plus_to_space (c : ascii) : ascii := if Ascii.eqb c "+" then " "%char else c.
Definition parse_pair (replaced : string -> string) (pair : string) : list (string * string) :=
  match Py.partition "=" pair with
  | (k, Some (String a v)) =>
      [(unquote replaced (Py.smap plus_to_space k), unquote replaced (Py.smap plus_to_space (String a v)))]
  | _ => []
  end.
Definition parse_qsl (replaced : string -> string) (q : string) : list (string * string) :=
  List.concat (parse_pair replaced <$> Py.split_on "&" q).

Lemma percent_back c r : unquote_bytes (Py.smap plus_to_space (percent c) +:+ r) = String c (unquote_bytes r).
Proof. by destruct c as [[] [] [] [] [] [] [] []]. Qed.

Lemma unquote_quote s r :
  unquote_bytes (Py.smap plus_to_space (quote_plus s) +:+ r) = s +:+ unquote_bytes r.
Proof.
  induction s as [|c s IH]; [done|]. cbn [quote_plus]. rewrite Py.smap_app, Py.app_assoc, Py.app_String.
  destruct (unreserved c) eqn:U.
  - change (Py.smap plus_to_space (String c "")) with (String (plus_to_space c) "").
    assert (plus_to_space c = c /\ Ascii.eqb c "%" = false) as [-> Hc] by (revert U; by destruct c as [[] [] [] [] [] [] [] []]).
    rewrite Py.app_String, Py.app_nil_l. cbn [unquote_bytes]. by rewrite Hc, IH.
  - destruct (Ascii.eqb_spec c " ") as [->|].
    + change (Py.smap plus_to_space "+") with " ". rewrite Py.app_String, Py.app_nil_l. cbn [unquote_bytes].
      change (Ascii.eqb " " "%") with false. cbv iota. by rewrite IH.
    + by rewrite percent_back, IH.
Qed.

Definition query_char (c : ascii) : bool := unreserved c || bool_decide (c ∈ ["+"; "%"]%char).

Lemma quote_plus_chars s : Py.sforall query_char (quote_plus s) = true.
Proof.
  induction s as [|c s IH]; [done|]. cbn [quote_plus]. rewrite Py.sforall_app, IH, andb_true_r.
  destruct (unreserved c) eqn:U; [cbn; unfold query_char; by rewrite U|].
  destruct (Ascii.eqb c " "); [done|]. by destruct c as [[] [] [] [] [] [] [] []].
Qed.

Lemma query_no c s : Py.sforall query_char s = true -> query_char c = false -> Py.has_char c s = false.
Proof.
  intros Hs Hc. unfold Py.has_char. apply negb_false_iff. induction s as [|a s IH]; [done|]. cbn in Hs |- *. bool_prop.
  rewrite IH, andb_true_r by done. destruct (Ascii.eqb_spec a c); [subst; congruence|done].
Qed.

Lemma quote_plus_nonempty s : s <> "" -> exists a r, quote_plus s = String a r.
Proof.
  destruct s as [|c s]; [done|]. intros _. cbn [quote_plus]. repeat case_match; unfold percent; rewrite ?Py.app_String; eauto.
Qed.

Lemma unquote_text replaced s : Utf8.valid s = true -> unquote replaced (Py.smap plus_to_space (quote_plus s)) = s.
Proof.
  intros Hs. unfold unquote. pose proof (unquote_quote s "") as E. rewrite Py.app_nil_r in E. rewrite E.
  cbn [unquote_bytes]. rewrite Py.app_nil_r. by rewrite Hs.
Qed.

Definition readable_pair (kv : string * string) : Prop :=
  Utf8.valid kv.1 = true /\ Utf8.valid kv.2 = true /\ kv.2 <> "".

Lemma parse_quoted_pair replaced kv : readable_pair kv ->
  parse_pair replaced (quote_plus kv.1 +:+ "=" +:+ quote_plus kv.2) = [kv].
Proof.
  intros (H1 & H2 & Hne). unfold parse_pair. rewrite (Py.app_String "="), Py.app_nil_l.
  rewrite Py.partition_app by (apply query_no; [apply quote_plus_chars|done]).
  destruct (quote_plus_nonempty _ Hne) as (a & r & E). rewrite E, <-E.
  rewrite !unquote_text by done. by destruct kv.
Qed.

(** What [urlencode] writes, [parse_qsl] reads. *)
Lemma parse_urlencode replaced params :
  Forall readable_pair params -> parse_qsl replaced (urlencode params) = params.
Proof.
  unfold parse_qsl, urlencode. induction 1 as [|kv params Hkv Hp IH]; [done|].
  assert (Py.has_char "&" (quote_plus kv.1 +:+ "=" +:+ quote_plus kv.2) = false) as Hno.
  { rewrite !Py.has_char_app. rewrite (query_no "&" (quote_plus kv.1)), (query_no "&" (quote_plus kv.2)); [reflexivity|apply quote_plus_chars|done|apply quote_plus_chars|done]. }
  destruct params as [|kv2 params].
  - cbn [fmap list_fmap Py.join]. rewrite Py.split_on_none by done. cbn. by rewrite parse_quoted_pair.
  - rewrite fmap_cons.
    change (Py.join "&" (?x :: ((fun kv => quote_plus kv.1 +:+ "=" +:+ quote_plus kv.2) <$> kv2 :: params)))
      with (x +:+ "&" +:+ Py.join "&" ((fun kv => quote_plus kv.1 +:+ "=" +:+ quote_plus kv.2) <$> kv2 :: params)).
    rewrite (Py.app_String "&"), Py.app_nil_l, Py.split_on_app by done.
    rewrite fmap_cons. cbn [List.concat]. rewrite parse_quoted_pair by done. by rewrite IH.
Qed.

End Url.
