(* ===== verification/Attributes.v ===== *)
(** * The attribute catalogue and normalisation

    [campusid/policy/attributes.py] and [campusid/policy/normalize.py]: what the
    broker knows about each attribute, and how the values an identity provider
    asserted are brought to the one form everything downstream compares. *)

From S2P Require Import Prelude PyStr Dict Lifecycle.

Module Attributes.

Inductive Classification : Type := PUBLIC | DIRECTORY | INTERNAL | RESTRICTED.

#[global] Instance Classification_eq_dec : EqDecision Classification.
Proof. solve_decision. Defined.

Record AttributeDefinition : Type := {
  ad_name : string;
  friendly_name : string;
  classification : Classification;
  ferpa_directory_item : bool;
  multivalued : bool;
}.

Definition EPPN := "urn:oid:1.3.6.1.4.1.5923.1.1.1.6".
Definition UNIQUE_ID := "urn:oid:1.3.6.1.4.1.5923.1.1.1.13".
Definition SUBJECT_ID := "urn:oasis:names:tc:SAML:attribute:subject-id".
Definition PAIRWISE_ID := "urn:oasis:names:tc:SAML:attribute:pairwise-id".
Definition MAIL := "urn:oid:0.9.2342.19200300.100.1.3".
Definition DISPLAY_NAME := "urn:oid:2.16.840.1.113730.3.1.241".
Definition GIVEN_NAME := "urn:oid:2.5.4.42".
Definition SURNAME := "urn:oid:2.5.4.4".
Definition SCOPED_AFFILIATION := "urn:oid:1.3.6.1.4.1.5923.1.1.1.9".
Definition AFFILIATION := "urn:oid:1.3.6.1.4.1.5923.1.1.1.1".
Definition PRIMARY_AFFILIATION := "urn:oid:1.3.6.1.4.1.5923.1.1.1.5".
Definition ENTITLEMENT := "urn:oid:1.3.6.1.4.1.5923.1.1.1.7".
Definition ASSURANCE := "urn:oid:1.3.6.1.4.1.5923.1.1.1.11".
Definition ORG_UNIT := "urn:oid:2.5.4.11".
Definition ORCID := "urn:oid:1.3.6.1.4.1.5923.1.1.1.16".
Definition STUDENT_ID := "urn:campusid:attribute:student-id".
Definition EMPLOYEE_ID := "urn:campusid:attribute:employee-id".

Definition attr (name friendly : string) (c : Classification) (ferpa multi : bool) :
    AttributeDefinition :=
  {| ad_name := name; friendly_name := friendly; classification := c;
     ferpa_directory_item := ferpa; multivalued := multi |}.

Definition CATALOGUE : list AttributeDefinition := [
  attr SUBJECT_ID "subject-id" DIRECTORY false false;
  attr PAIRWISE_ID "pairwise-id" PUBLIC false false;
  attr EPPN "eduPersonPrincipalName" DIRECTORY false false;
  attr UNIQUE_ID "eduPersonUniqueId" INTERNAL false false;
  attr MAIL "mail" DIRECTORY true true;
  attr DISPLAY_NAME "displayName" DIRECTORY true false;
  attr GIVEN_NAME "givenName" DIRECTORY true false;
  attr SURNAME "sn" DIRECTORY true false;
  attr SCOPED_AFFILIATION "eduPersonScopedAffiliation" DIRECTORY true true;
  attr AFFILIATION "eduPersonAffiliation" DIRECTORY true true;
  attr PRIMARY_AFFILIATION "eduPersonPrimaryAffiliation" DIRECTORY true false;
  attr ORG_UNIT "ou" DIRECTORY true true;
  attr ENTITLEMENT "eduPersonEntitlement" INTERNAL false true;
  attr ASSURANCE "eduPersonAssurance" INTERNAL false true;
  attr ORCID "eduPersonOrcid" PUBLIC false false;
  attr STUDENT_ID "studentID" RESTRICTED false false;
  attr EMPLOYEE_ID "employeeNumber" RESTRICTED false false].

Definition definition (name : string) : option AttributeDefinition :=
  List.find (fun d => String.eqb name (ad_name d)) CATALOGUE.

Definition RESEARCH_AND_SCHOLARSHIP := "http://refeds.org/category/research-and-scholarship".

Definition RS_BUNDLE : list string :=
  [SUBJECT_ID; EPPN; MAIL; DISPLAY_NAME; GIVEN_NAME; SURNAME; SCOPED_AFFILIATION].

(** ** Normalisation *)

(** Why a value did not survive. *)
Inductive Reason : Type :=
| EmptyValue
| NotScoped
| ScopedElsewhere (asserted own : string)
| OutsideVocabulary
| NotAnAddress.

Record DroppedValue : Type := { dropped_attribute : string; dropped_value : string; dropped_reason : Reason }.

Record NormalizationResult : Type := {
  attributes : list (string * list string);
  dropped : list DroppedValue;
}.

Definition in_vocabulary (value : string) : bool :=
  bool_decide (value ∈ Lifecycle.AFFILIATION_VOCABULARY).

Definition _scoped (value scope : string) (vocabulary : bool) : result Reason string :=
  match Py.rpartition "@" value with
  | (None, _) => Err NotScoped
  | (Some local, asserted_scope) =>
      raise* NotScoped when String.eqb local "";
      raise* (ScopedElsewhere asserted_scope scope) when negb (String.eqb asserted_scope scope);
      raise* OutsideVocabulary when vocabulary && negb (in_vocabulary local);
      Ok value
  end.

Definition _mail (value : string) : result Reason string :=
  match Py.rpartition "@" value with
  | (None, _) => Err NotAnAddress
  | (Some local, domain) =>
      raise* NotAnAddress when String.eqb local "" || String.eqb domain "";
      Ok (local +:+ "@" +:+ Py.lower domain)
  end.

Definition _normalize_value (name value scope : string) : result Reason string :=
  raise* EmptyValue when String.eqb value "";
  if String.eqb name EPPN then _scoped (Py.lower value) scope false
  else if String.eqb name SCOPED_AFFILIATION then _scoped (Py.lower value) scope true
  else if String.eqb name AFFILIATION || String.eqb name PRIMARY_AFFILIATION then
    raise* OutsideVocabulary when negb (in_vocabulary (Py.lower value));
    Ok (Py.lower value)
  else if String.eqb name MAIL then _mail value
  else Ok value.

(** The loop over one attribute's values. *)
Fixpoint normalize_values (name scope : string) (values kept : list string) (drops : list DroppedValue) :
    list string * list DroppedValue :=
  match values with
  | [] => (kept, drops)
  | raw :: values' =>
      match _normalize_value name (Py.strip raw) scope with
      | Err reason =>
          normalize_values name scope values' kept
            (drops ++ [{| dropped_attribute := name; dropped_value := raw; dropped_reason := reason |}])
      | Ok value =>
          normalize_values name scope values'
            (if bool_decide (value ∈ kept) then kept else kept ++ [value]) drops
      end
  end.

Fixpoint normalize_loop (scope : string) (items normalized : list (string * list string))
    (drops : list DroppedValue) : NormalizationResult :=
  match items with
  | [] => {| attributes := normalized; dropped := drops |}
  | (name, values) :: items' =>
      let '(kept, drops') := normalize_values name scope values [] drops in
      normalize_loop scope items'
        (match kept with [] => normalized | _ => Dict.set normalized name kept end) drops'
  end.

Definition normalize (attrs : list (string * list string)) (scope : string) : NormalizationResult :=
  normalize_loop scope attrs [] [].

(** ** Lemmas *)

Lemma catalogue_names : NoDup (ad_name <$> CATALOGUE).
Proof. apply (bool_decide_eq_true_1 _). vm_compute. done. Qed.

Lemma definition_name name d : definition name = Some d -> ad_name d = name.
Proof. intros [_ H]%List.find_some. by apply String.eqb_eq in H. Qed.

(** A value in the form normalisation gives it. *)
Definition canonical (name scope v : string) : Prop :=
  _normalize_value name (Py.strip v) scope = Ok v.

Lemma scoped_value value scope vocabulary v :
  _scoped value scope vocabulary = Ok v ->
  v = value /\ exists local, value = local +:+ "@" +:+ scope /\ local <> "" /\
    (vocabulary = true -> local ∈ Lifecycle.AFFILIATION_VOCABULARY).
Proof.
  unfold _scoped. pose proof (Py.rpartition_spec "@" value) as Hp.
  destruct (Py.rpartition "@" value) as [[local|] s]; [|done]. destruct Hp as [Hv _].
  destruct (String.eqb_spec local "") as [|Hl]; [done|].
  destruct (String.eqb_spec s scope) as [->|]; [|done]. simpl.
  destruct (vocabulary && negb (in_vocabulary local)) eqn:E; [done|]. intros [= <-].
  split; [done|]. exists local. split_and!; [exact Hv|done|].
  intros ->. simpl in E. unfold in_vocabulary in E. bool_prop. done.
Qed.

Lemma mail_value value v :
  _mail value = Ok v ->
  exists local domain, value = local +:+ "@" +:+ domain /\ v = local +:+ "@" +:+ Py.lower domain /\
    local <> "" /\ domain <> "" /\ Py.has_char "@" domain = false.
Proof.
  unfold _mail. pose proof (Py.rpartition_spec "@" value) as Hp.
  destruct (Py.rpartition "@" value) as [[local|] d]; [|done]. destruct Hp as [Hv Hd].
  destruct (String.eqb_spec local "") as [|Hl]; [done|].
  destruct (String.eqb_spec d "") as [|Hd']; [done|]. simpl. intros [= <-].
  by exists local, d.
Qed.

(** Only the end of an address changes, and only its case. *)
Lemma mail_stripped value v : _mail value = Ok v -> Py.strip value = value -> Py.strip v = v.
Proof.
  intros (local & domain & -> & -> & Hl & Hd & _)%mail_value E.
  pose proof (Py.strip_unpadded (local +:+ "@" +:+ domain)) as [H1 H2]. rewrite E in H1, H2.
  apply Py.strip_fix.
  - destruct local as [|a local]; [done|]. exact H1.
  - rewrite Py.srev_app_distr in H2 |- *. unfold Py.lower.
    rewrite Py.srev_app_distr in H2 |- *. rewrite Py.srev_smap.
    destruct (Py.srev domain) as [|a r] eqn:Er.
    { destruct Hd. apply Py.srev_inj. by rewrite Er. }
    rewrite !Py.app_assoc, Py.unpadded_app in H2. cbn [Py.smap]. rewrite !Py.app_assoc, Py.unpadded_app.
    cbn in H2 |- *. by rewrite Py.is_space_lower.
Qed.

Lemma mail_canonical value v : _mail value = Ok v -> _mail v = Ok v.
Proof.
  intros (local & domain & -> & -> & Hl & Hd & Hc)%mail_value. unfold _mail.
  change (local +:+ "@" +:+ Py.lower domain) with (local +:+ String "@" (Py.lower domain)).
  rewrite Py.rpartition_app by (by rewrite Py.has_char_lower_at).
  destruct (String.eqb_spec local "") as [|_]; [done|].
  destruct (String.eqb_spec (Py.lower domain) "") as [E|_]; [by apply Py.smap_nil in E|].
  simpl. by rewrite Py.lower_idem.
Qed.

(** What normalisation yields, it leaves alone. *)
Lemma normalize_value_canonical name scope raw v :
  _normalize_value name (Py.strip raw) scope = Ok v -> canonical name scope v.
Proof.
  unfold canonical, _normalize_value. intros H.
  destruct (String.eqb_spec (Py.strip raw) "") as [|Hne]; [done|].
  pose proof (Py.strip_idem raw) as Hs. pose proof (Py.strip_lower _ Hs) as Hl.
  assert (Py.lower (Py.strip raw) <> "") as Hlne by (by intros E%Py.smap_nil).
  destruct (String.eqb name EPPN); [|destruct (String.eqb name SCOPED_AFFILIATION);
    [|destruct (String.eqb name AFFILIATION || String.eqb name PRIMARY_AFFILIATION);
      [|destruct (String.eqb name MAIL)]]].
  1-2: pose proof (scoped_value _ _ _ _ H) as [-> _]; rewrite Hl, Py.lower_idem;
    by apply String.eqb_neq in Hlne as ->.
  - destruct (in_vocabulary (Py.lower (Py.strip raw))) eqn:E; [|done]. simpl in H. injection H as <-.
    rewrite Hl, Py.lower_idem, E. by apply String.eqb_neq in Hlne as ->.
  - rewrite (mail_stripped _ _ H Hs). rewrite (mail_canonical _ _ H).
    destruct (String.eqb_spec v "") as [->|]; [|done]. apply mail_value in H as ([|a l] & d & _ & E & ? & _); done.
  - injection H as <-. rewrite Hs. by apply String.eqb_neq in Hne as ->.
Qed.

(** The drops of one attribute's values. *)
Definition drop_of (name scope raw : string) : option DroppedValue :=
  match _normalize_value name (Py.strip raw) scope with
  | Ok _ => None
  | Err reason => Some {| dropped_attribute := name; dropped_value := raw; dropped_reason := reason |}
  end.

Lemma exists_cons_ok name scope raw values value :
  _normalize_value name (Py.strip raw) scope = Ok value ->
  forall v, (exists r, r ∈ raw :: values /\ _normalize_value name (Py.strip r) scope = Ok v) <->
    v = value \/ exists r, r ∈ values /\ _normalize_value name (Py.strip r) scope = Ok v.
Proof.
  intros E v. split.
  - intros (r & [->|Hr]%elem_of_cons & H); [left; congruence | right; eauto].
  - intros [->|(r & Hr & H)]; [exists raw | exists r]; (split; [|done]); [constructor | by right].
Qed.

Lemma exists_cons_err name scope raw values reason :
  _normalize_value name (Py.strip raw) scope = Err reason ->
  forall v, (exists r, r ∈ raw :: values /\ _normalize_value name (Py.strip r) scope = Ok v) <->
    exists r, r ∈ values /\ _normalize_value name (Py.strip r) scope = Ok v.
Proof.
  intros E v. split.
  - intros (r & [->|Hr]%elem_of_cons & H); [congruence | eauto].
  - intros (r & Hr & H). exists r. split; [by right | done].
Qed.

Lemma normalize_values_spec name scope values kept drops :
  let out := normalize_values name scope values kept drops in
  (forall v, v ∈ out.1 <-> v ∈ kept \/ exists raw, raw ∈ values /\ _normalize_value name (Py.strip raw) scope = Ok v) /\
  (NoDup kept -> NoDup out.1) /\
  out.2 = drops ++ omap (drop_of name scope) values.
Proof.
  cbn. revert kept drops. induction values as [|raw values IH]; intros kept drops; simpl.
  { split_and!; [|done|by rewrite app_nil_r]. intros v. split; [by left|]. intros [?|(raw & H & _)]; [done|].
    by apply elem_of_nil in H. }
  unfold drop_of at 1. destruct (_normalize_value name (Py.strip raw) scope) as [value|reason] eqn:E.
  - destruct (IH (if bool_decide (value ∈ kept) then kept else kept ++ [value]) drops) as (H1 & H2 & H3).
    split_and!; [|intros Hk; apply H2; case_bool_decide; [done|]|exact H3].
    + intros v. rewrite H1. assert (v ∈ (if bool_decide (value ∈ kept) then kept else kept ++ [value]) <-> v ∈ kept \/ v = value) as ->.
      { case_bool_decide; [|rewrite elem_of_app, list_elem_of_singleton; done]. naive_solver. }
      rewrite (exists_cons_ok _ _ _ _ _ E). tauto.
    + apply NoDup_app. split_and!; [done| |apply NoDup_singleton]. by intros x Hx ->%list_elem_of_singleton.
  - destruct (IH kept (drops ++ [{| dropped_attribute := name; dropped_value := raw; dropped_reason := reason |}])) as (H1 & H2 & H3).
    split_and!; [|done|by rewrite H3, <- app_assoc].
    intros v. rewrite H1. by rewrite (exists_cons_err _ _ _ _ _ E).
Qed.

Lemma normalize_values_canonical name scope values kept drops :
  Forall (canonical name scope) values -> NoDup (kept ++ values) ->
  normalize_values name scope values kept drops = (kept ++ values, drops).
Proof.
  revert kept. induction values as [|v values IH]; intros kept Hc Hn; simpl; [by rewrite app_nil_r|].
  apply Forall_cons in Hc as [Hv Hc]. rewrite Hv.
  rewrite bool_decide_eq_false_2.
  - rewrite IH by (rewrite <- ?app_assoc; done). by rewrite <- app_assoc.
  - apply NoDup_app in Hn as (_ & Hd & _). intros H. apply (Hd v H). constructor.
Qed.

(** What one attribute contributes. *)
Definition normal (scope : string) (item : string * list string) : option (string * list string) :=
  match (normalize_values item.1 scope item.2 [] []).1 with
  | [] => None
  | kept => Some (item.1, kept)
  end.

Definition drops_of (scope : string) (item : string * list string) : list DroppedValue :=
  omap (drop_of item.1 scope) item.2.

Lemma normal_name scope item out : normal scope item = Some out -> out.1 = item.1.
Proof. unfold normal. case_match; [done|]. by intros [= <-]. Qed.

Lemma values_drops_irrelevant name scope values kept drops drops' :
  (normalize_values name scope values kept drops).1 = (normalize_values name scope values kept drops').1.
Proof.
  revert kept drops drops'. induction values as [|raw values IH]; intros; simpl; [done|].
  case_match; apply IH.
Qed.

Lemma normalize_loop_spec scope items acc drops :
  NoDup (acc.*1 ++ items.*1) ->
  normalize_loop scope items acc drops =
    {| attributes := acc ++ omap (normal scope) items; dropped := drops ++ (items ≫= drops_of scope) |}.
Proof.
  revert acc drops. induction items as [|[name values] items IH]; intros acc drops Hn; simpl.
  { by rewrite !app_nil_r. }
  pose proof (normalize_values_spec name scope values [] drops) as (_ & _ & Hd).
  pose proof (values_drops_irrelevant name scope values [] drops []) as Hk.
  destruct (normalize_values name scope values [] drops) as [kept drops'] eqn:E. simpl in Hd, Hk.
  unfold normal at 1. cbn [fst snd]. rewrite <- Hk. subst drops'.
  unfold drops_of at 1. cbn [fst snd]. simpl in Hn.
  apply NoDup_app in Hn as (Ha & Hd & [Hname Hi]%NoDup_cons).
  assert (name ∉ acc.*1) as Hacc by (intros H; apply (Hd name H); constructor).
  destruct kept as [|k kept].
  - rewrite IH; [by rewrite <- app_assoc|]. apply NoDup_app. split_and!; [done| |done].
    intros x Hx Hx'. apply (Hd x Hx). by right.
  - rewrite Dict.set_fresh by (by apply Dict.get_None). rewrite IH; [by rewrite <- !app_assoc|].
    rewrite fmap_app. simpl. rewrite <- app_assoc. apply NoDup_app. split_and!; [done| |by apply NoDup_cons].
    intros x Hx Hx'. by apply (Hd x Hx).
Qed.

Lemma normalize_spec scope attrs :
  NoDup (attrs.*1) ->
  normalize attrs scope = {| attributes := omap (normal scope) attrs; dropped := attrs ≫= drops_of scope |}.
Proof. apply (normalize_loop_spec scope attrs [] []). Qed.

(** Each attribute that survives has values, all canonical and all different. *)
Lemma normal_values scope item name vs :
  normal scope item = Some (name, vs) ->
  name = item.1 /\ vs <> [] /\ NoDup vs /\ Forall (canonical name scope) vs /\
  (forall v, v ∈ vs <-> exists raw, raw ∈ item.2 /\ _normalize_value name (Py.strip raw) scope = Ok v).
Proof.
  unfold normal. pose proof (normalize_values_spec item.1 scope item.2 [] []) as (H1 & H2 & _).
  destruct (normalize_values item.1 scope item.2 [] []).1 as [|k kept]; [done|]. intros [= <- <-].
  assert (forall v, v ∈ k :: kept <-> exists raw, raw ∈ item.2 /\ _normalize_value item.1 (Py.strip raw) scope = Ok v) as Hv.
  { intros v. rewrite H1. split; [intros [?%elem_of_nil|?]; done | by right]. }
  split_and!; [done|done|apply H2; constructor| |exact Hv].
  apply Forall_forall. intros v (raw & _ & Hr)%Hv. by eapply normalize_value_canonical.
Qed.

Lemma normal_again scope item out : normal scope item = Some out -> normal scope out = Some out.
Proof.
  destruct out as [name vs]. intros (_ & Hne & Hd & Hc & _)%normal_values. unfold normal. cbn [fst snd].
  rewrite normalize_values_canonical by done. by destruct vs.
Qed.

Lemma omap_normal_names scope attrs : (omap (normal scope) attrs).*1 `sublist_of` attrs.*1.
Proof.
  induction attrs as [|item attrs IH]; simpl; [done|].
  destruct (normal scope item) as [out|] eqn:E; simpl; [|by constructor].
  rewrite (normal_name _ _ _ E). by constructor.
Qed.

Lemma omap_normal_again scope (attrs : list (string * list string)) :
  omap (normal scope) (omap (normal scope) attrs) = omap (normal scope) attrs.
Proof.
  induction attrs as [|item attrs IH]; simpl; [done|].
  destruct (normal scope item) as [out|] eqn:E; simpl; [|exact IH].
  rewrite (normal_again _ _ _ E). f_equal. exact IH.
Qed.

Lemma normal_drops_nothing scope (attrs : list (string * list string)) : omap (normal scope) attrs ≫= drops_of scope = [].
Proof.
  induction attrs as [|item attrs IH]; simpl; [done|].
  destruct (normal scope item) as [[name vs]|] eqn:E; simpl; [|exact IH].
  etrans; [apply f_equal; exact IH|]. rewrite app_nil_r. apply normal_values in E as (_ & _ & _ & Hc & _).
  unfold drops_of. cbn [fst snd]. induction Hc as [|v vs Hv _ IHc]; simpl; [done|].
  unfold drop_of at 1. by rewrite Hv.
Qed.

(** Normalisation is idempotent: what it yields has one form.  Normalising
    the result again changes no attribute and drops nothing, so a value compares
    the same however often it has crossed the boundary. *)
Theorem normalize_idempotent attrs scope :
  NoDup (attrs.*1) ->
  normalize (attributes (normalize attrs scope)) scope =
    {| attributes := attributes (normalize attrs scope); dropped := [] |}.
Proof.
  intros Hn. rewrite (normalize_spec scope attrs Hn). cbn [attributes].
  rewrite normalize_spec by (eapply sublist_NoDup; [|apply omap_normal_names]; done).
  f_equal; [apply omap_normal_again | apply normal_drops_nothing].
Qed.

Lemma normalize_idempotent_witness :
  attributes (normalize [(EPPN, [" Sam@Campus.test"; "x@evil.test"])] "campus.test") = [(EPPN, ["sam@campus.test"])] /\
  normalize (attributes (normalize [(EPPN, [" Sam@Campus.test"; "x@evil.test"])] "campus.test")) "campus.test" =
    {| attributes := [(EPPN, ["sam@campus.test"])]; dropped := [] |}.
Proof.
  split; [vm_compute; reflexivity|].
  rewrite (normalize_idempotent [(EPPN, [" Sam@Campus.test"; "x@evil.test"])] "campus.test"); [vm_compute; reflexivity|].
  apply NoDup_singleton.
Defined.

(** Scoped affiliations that survive are ours. *)
Lemma normalized_affiliation attrs scope vs v :
  NoDup (attrs.*1) -> (SCOPED_AFFILIATION, vs) ∈ attributes (normalize attrs scope) -> v ∈ vs ->
  exists local, v = local +:+ "@" +:+ scope /\ local ∈ Lifecycle.AFFILIATION_VOCABULARY.
Proof.
  intros Hn. rewrite (normalize_spec scope attrs Hn). cbn [attributes].
  intros ([name values] & _ & Hout)%list_elem_of_omap Hv.
  apply normal_values in Hout as (_ & _ & _ & _ & Hvs). apply Hvs in Hv as (raw & _ & H).
  unfold _normalize_value in H. destruct (String.eqb _ ""); [done|]. simpl in H.
  apply scoped_value in H as (-> & local & E & _ & Hl). exists local. by split; [|apply Hl].
Qed.

(** A scoped value that survives normalisation is scoped to this deployment:
    a principal name is a non-empty local part at our own scope, a scoped
    affiliation is moreover a word of the eduPerson vocabulary at it, and an
    unscoped affiliation is a word of that vocabulary.  Every value asserted is
    accounted for: its normal form is among the attribute's values, or it is
    recorded as dropped. *)
Theorem normalized_values_are_ours attrs scope :
  NoDup (attrs.*1) ->
  (forall vs v, (EPPN, vs) ∈ attributes (normalize attrs scope) -> v ∈ vs ->
    exists local, v = local +:+ "@" +:+ scope /\ local <> "") /\
  (forall vs v, (SCOPED_AFFILIATION, vs) ∈ attributes (normalize attrs scope) -> v ∈ vs ->
    exists local, v = local +:+ "@" +:+ scope /\ local ∈ Lifecycle.AFFILIATION_VOCABULARY) /\
  (forall vs v, (AFFILIATION, vs) ∈ attributes (normalize attrs scope) -> v ∈ vs ->
    v ∈ Lifecycle.AFFILIATION_VOCABULARY) /\
  (forall name values raw, (name, values) ∈ attrs -> raw ∈ values ->
    (exists v vs, _normalize_value name (Py.strip raw) scope = Ok v /\
      Dict.get (attributes (normalize attrs scope)) name = Some vs /\ v ∈ vs) \/
    (exists d, d ∈ dropped (normalize attrs scope) /\
      dropped_attribute d = name /\ dropped_value d = raw)).
Proof.
  intros Hn. rewrite (normalize_spec scope attrs Hn). cbn [attributes dropped].
  assert (forall name vs v, (name, vs) ∈ omap (normal scope) attrs -> v ∈ vs ->
    exists raw, _normalize_value name (Py.strip raw) scope = Ok v) as Hv.
  { intros name vs v ([name' values] & Hin & Hout)%list_elem_of_omap Hv.
    apply normal_values in Hout as (-> & _ & _ & _ & Hvs). apply Hvs in Hv as (raw & _ & H). eauto. }
  split_and!.
  - intros vs v Hin (raw & H)%(Hv _ _ _ Hin). unfold _normalize_value in H.
    destruct (String.eqb _ ""); [done|]. simpl in H.
    apply scoped_value in H as (-> & local & E & Hl & _). by exists local.
  - intros vs v Hin Hin'. apply (normalized_affiliation attrs scope vs); [done| |done].
    by rewrite (normalize_spec scope attrs Hn).
  - intros vs v Hin (raw & H)%(Hv _ _ _ Hin). unfold _normalize_value in H.
    destruct (String.eqb _ ""); [done|]. simpl in H.
    destruct (in_vocabulary _) eqn:E; [|done]. injection H as <-. unfold in_vocabulary in E. by bool_prop.
  - intros name values raw Hin Hraw.
    destruct (_normalize_value name (Py.strip raw) scope) as [v|reason] eqn:E.
    + left. destruct (normal scope (name, values)) as [[name' vs]|] eqn:En.
      * pose proof En as (-> & _ & _ & _ & Hvs)%normal_values. exists v, vs.
        split_and!; [done| |apply Hvs; eauto].
        apply Dict.elem_get; [eapply sublist_NoDup; [|apply omap_normal_names]; done|].
        apply list_elem_of_omap. eauto.
      * exfalso. unfold normal in En. cbn [fst snd] in En.
        pose proof (normalize_values_spec name scope values [] []) as (H1 & _).
        destruct (normalize_values name scope values [] []).1 as [|k kept]; [|done].
        assert (v ∈ @nil string) as []%elem_of_nil. apply H1. eauto.
    + right. exists {| dropped_attribute := name; dropped_value := raw; dropped_reason := reason |}.
      split; [|done]. apply list_elem_of_bind. exists (name, values). split; [|done].
      apply list_elem_of_omap. exists raw. split; [done|]. unfold drop_of. cbn [fst]. by rewrite E.
Qed.

Lemma normalized_values_are_ours_witness :
  exists local, "student@campus.test" = local +:+ "@" +:+ "campus.test" /\
    local ∈ Lifecycle.AFFILIATION_VOCABULARY.
Proof.
  pose (attrs := [(SCOPED_AFFILIATION, ["Student@campus.test"; "faculty@partner.test"; "boss@campus.test"])]).
  assert (NoDup (attrs.*1)) as Hn by apply NoDup_singleton.
  destruct (normalized_values_are_ours attrs "campus.test" Hn) as (_ & H & _).
  apply (H ["student@campus.test"]); [|constructor].
  vm_compute. constructor.
Defined.

End Attributes.
