(* ===== verification/Release.v ===== *)
(** * The attribute release policy

    [campusid/policy/release.py], [campusid/policy/pairwise.py],
    [campusid/oidc/claims.py] and [campusid/oidc/identity.py]: what a service
    provider may see of a person, under which name it sees them, and which claims
    that becomes.  The regular-expression matcher and HMAC-SHA256 are parameters:
    the theorems hold for every one. *)

From S2P Require Import Prelude PyStr Base64 Json Dict Sessions Lifecycle Attributes.

Module Release.

Inductive Effect : Type := ALLOW | ALLOW_VALUE | DENY | REQUIRE_CONSENT.
Inductive SubjectIdMode : Type := PAIRWISE | SHARED.

Inductive Basis : Type :=
| RESTRICTED | FERPA_SUPPRESSED | UNKNOWN_ATTRIBUTE | EXPLICIT_DENY | EXPLICIT_ALLOW
| VALUE_FILTER | ENTITY_CATEGORY | CONSENT_GIVEN | CONSENT_REQUIRED | DEFAULT_DENY.

(** [basis.value]. *)
Definition basis_text (b : Basis) : string :=
  match b with
  | RESTRICTED => "restricted" | FERPA_SUPPRESSED => "ferpa_suppressed" | UNKNOWN_ATTRIBUTE => "unknown_attribute"
  | EXPLICIT_DENY => "explicit_deny" | EXPLICIT_ALLOW => "explicit_allow" | VALUE_FILTER => "value_filter"
  | ENTITY_CATEGORY => "entity_category" | CONSENT_GIVEN => "consent_given" | CONSENT_REQUIRED => "consent_required"
  | DEFAULT_DENY => "default_deny"
  end.

#[global] Instance Effect_eq_dec : EqDecision Effect.
Proof. solve_decision. Defined.
#[global] Instance SubjectIdMode_eq_dec : EqDecision SubjectIdMode.
Proof. solve_decision. Defined.

Record ReleaseRule : Type := {
  rule_id : string;
  effect : Effect;
  attribute : string;
  value_filter : option string;
  precedence : Z;
}.

(** [display_name] keeps the document's value, of which the code takes [str]. *)
Record ReleasePolicy : Type := {
  sp_entity_id : string;
  display_name : option json;
  entity_categories : gset string;
  subject_id_mode : SubjectIdMode;
  internal_school_official : bool;
  require_encrypted_assertion : bool;
  rules : list ReleaseRule;
}.

(** [ReleasePolicy(sp_entity_id=...)]: no rules. *)
Definition bare_policy (entity_id : string) : ReleasePolicy :=
  {| sp_entity_id := entity_id; display_name := None; entity_categories := ∅;
     subject_id_mode := PAIRWISE; internal_school_official := false;
     require_encrypted_assertion := false; rules := [] |}.

Record Subject : Type := { person_key : string; ferpa_directory_suppressed : bool }.

Record Decision : Type := {
  de_attribute : string;
  released : bool;
  de_values : list string;
  basis : Basis;
  de_rule_id : option string;
}.

Record ReleaseResult : Type := {
  attributes : list (string * list string);
  decisions : list Decision;
}.

Definition withheld (name : string) (b : Basis) (rule : option string) : Decision :=
  {| de_attribute := name; released := false; de_values := []; basis := b; de_rule_id := rule |}.
Definition granted (name : string) (values : list string) (b : Basis) (rule : option string) : Decision :=
  {| de_attribute := name; released := true; de_values := values; basis := b; de_rule_id := rule |}.

Definition _suppressed (policy : ReleasePolicy) (subject : Subject)
    (a : Attributes.AttributeDefinition) : bool :=
  ferpa_directory_suppressed subject && Attributes.ferpa_directory_item a &&
  negb (internal_school_official policy).

Definition _in_entity_category_bundle (policy : ReleasePolicy) (name : string) : bool :=
  bool_decide (Attributes.RESEARCH_AND_SCHOLARSHIP ∈ entity_categories policy) &&
  bool_decide (name ∈ Attributes.RS_BUNDLE).

Definition by_precedence (r1 r2 : ReleaseRule) : bool := (precedence r1 <=? precedence r2)%Z.

Definition subject_identifier_attribute (policy : ReleasePolicy) : string :=
  match subject_id_mode policy with SHARED => Attributes.SUBJECT_ID | PAIRWISE => Attributes.PAIRWISE_ID end.

Section engine.
(** [re.fullmatch(pattern, value) is not None]. *)
Context (fullmatch : string -> string -> bool).

Definition matches (rule : ReleaseRule) (value : string) : bool :=
  match value_filter rule with
  | None => true
  | Some pattern => fullmatch pattern value
  end.

(** Every branch of the loop over the sorted rules returns at the first rule
    that names the attribute. *)
Definition _decide (policy : ReleasePolicy) (subject : Subject) (name : string) (values : list string)
    (consented : gset string) : Decision :=
  match Attributes.definition name with
  | None => withheld name UNKNOWN_ATTRIBUTE None
  | Some a =>
      if bool_decide (Attributes.classification a = Attributes.RESTRICTED) then withheld name RESTRICTED None
      else if _suppressed policy subject a then withheld name FERPA_SUPPRESSED None
      else match List.find (fun r => String.eqb (attribute r) name) (Sort.sort by_precedence (rules policy)) with
           | Some rule =>
               match effect rule with
               | DENY => withheld name EXPLICIT_DENY (Some (rule_id rule))
               | ALLOW => granted name values EXPLICIT_ALLOW (Some (rule_id rule))
               | REQUIRE_CONSENT =>
                   if bool_decide (name ∈ consented)
                   then granted name values CONSENT_GIVEN (Some (rule_id rule))
                   else withheld name CONSENT_REQUIRED (Some (rule_id rule))
               | ALLOW_VALUE =>
                   let kept := List.filter (matches rule) values in
                   {| de_attribute := name; released := match kept with [] => false | _ => true end;
                      de_values := kept; basis := VALUE_FILTER; de_rule_id := Some (rule_id rule) |}
               end
           | None =>
               if _in_entity_category_bundle policy name then granted name values ENTITY_CATEGORY None
               else withheld name DEFAULT_DENY None
           end
  end.

Fixpoint evaluate_loop (policy : ReleasePolicy) (subject : Subject) (available : list (string * list string))
    (consented : gset string) (names : list string) (acc : ReleaseResult) : ReleaseResult :=
  match names with
  | [] => acc
  | name :: names' =>
      let decision := _decide policy subject name (default [] (Dict.get available name)) consented in
      evaluate_loop policy subject available consented names'
        {| decisions := decisions acc ++ [decision];
           attributes :=
             match released decision, de_values decision with
             | true, _ :: _ => Dict.set (attributes acc) name (de_values decision)
             | _, _ => attributes acc
             end |}
  end.

Definition evaluate (policy : ReleasePolicy) (subject : Subject) (available : list (string * list string))
    (consented : gset string) : ReleaseResult :=
  evaluate_loop policy subject available consented (merge_sort String.le (available.*1))
    {| attributes := []; decisions := [] |}.

(** ** Properties of the engine *)

(** The first of some rules: the earliest of the lowest precedence. *)
Definition first_of (l : list ReleaseRule) (rule : ReleaseRule) : Prop :=
  exists before after, l = before ++ rule :: after /\
    (forall r, r ∈ before -> (precedence rule < precedence r)%Z) /\
    (forall r, r ∈ after -> (precedence rule <= precedence r)%Z).

(** *** The documented order: suppression, denial, permission, category, consent *)

Definition permits (e : Effect) : bool := match e with ALLOW | ALLOW_VALUE => true | DENY | REQUIRE_CONSENT => false end.
Definition permissions (policy : ReleasePolicy) (name : string) : list ReleaseRule :=
  List.filter (fun r => String.eqb (attribute r) name && permits (effect r)) (rules policy).

(** What the service provider may see of [values].  The attribute is known, is no
    education record and is not suppressed; no rule denies it; and the first rule
    that permits it lets these values through, or, where no rule permits it, the
    category of the provider or the subject's consent to a rule that asks for it
    lets all of them through. *)
Definition entitled (policy : ReleasePolicy) (subject : Subject) (consented : gset string)
    (name : string) (values vs : list string) : Prop :=
  vs <> [] /\
  (exists a, Attributes.definition name = Some a /\ Attributes.classification a <> Attributes.RESTRICTED /\
    (ferpa_directory_suppressed subject = true -> Attributes.ferpa_directory_item a = true ->
     internal_school_official policy = true)) /\
  (forall rule, rule ∈ rules policy -> attribute rule = name -> effect rule <> DENY) /\
  ((exists rule, first_of (permissions policy name) rule /\
      vs = if bool_decide (effect rule = ALLOW) then values else List.filter (matches rule) values) \/
   (permissions policy name = [] /\ vs = values /\
     ((Attributes.RESEARCH_AND_SCHOLARSHIP ∈ entity_categories policy /\ name ∈ Attributes.RS_BUNDLE) \/
      (name ∈ consented /\ exists rule, rule ∈ rules policy /\ attribute rule = name /\ effect rule = REQUIRE_CONSENT)))).

(** The policy lists its rules in that order: the denials of an attribute come before
    its other rules, the permissions before the requests for consent, and consent is
    not asked for what the category grants anyway.  The engine reads the rules by
    precedence alone, so it keeps the documented order for such policies. *)
Definition in_documented_order (policy : ReleasePolicy) : Prop :=
  forall r1, r1 ∈ rules policy ->
    (effect r1 = REQUIRE_CONSENT -> Attributes.RESEARCH_AND_SCHOLARSHIP ∈ entity_categories policy ->
     attribute r1 ∉ Attributes.RS_BUNDLE) /\
    forall r2, r2 ∈ rules policy -> attribute r2 = attribute r1 ->
      (effect r1 = DENY -> effect r2 <> DENY -> (precedence r1 < precedence r2)%Z) /\
      (permits (effect r1) = true -> effect r2 = REQUIRE_CONSENT -> (precedence r1 < precedence r2)%Z).

(** *** What the engine does *)

(** The rule that speaks for an attribute: the first of those that name it. *)
Definition governs (policy : ReleasePolicy) (name : string) (rule : ReleaseRule) : Prop :=
  first_of (List.filter (fun r => String.eqb (attribute r) name) (rules policy)) rule.

(** What it releases of [values]. *)
Definition let_through (policy : ReleasePolicy) (subject : Subject) (consented : gset string)
    (name : string) (values vs : list string) : Prop :=  vs <> [] /\
  (exists a, Attributes.definition name = Some a /\ Attributes.classification a <> Attributes.RESTRICTED /\
    (ferpa_directory_suppressed subject = true -> Attributes.ferpa_directory_item a = true ->
     internal_school_official policy = true)) /\
  ((exists rule, governs policy name rule /\
     ((effect rule = ALLOW /\ vs = values) \/
      (effect rule = REQUIRE_CONSENT /\ name ∈ consented /\ vs = values) \/
      (effect rule = ALLOW_VALUE /\ vs = List.filter (matches rule) values))) \/
   ((forall rule, rule ∈ rules policy -> attribute rule <> name) /\
    Attributes.RESEARCH_AND_SCHOLARSHIP ∈ entity_categories policy /\ name ∈ Attributes.RS_BUNDLE /\
    vs = values)).

Lemma by_precedence_total r1 r2 : by_precedence r1 r2 = false -> by_precedence r2 r1 = true.
Proof. unfold by_precedence. intros H. bool_prop. apply Z.leb_le. lia. Qed.

Lemma by_precedence_trans r1 r2 r3 :
  by_precedence r1 r2 = true -> by_precedence r2 r3 = true -> by_precedence r1 r3 = true.
Proof. unfold by_precedence. intros. bool_prop. apply Z.leb_le. lia. Qed.

Lemma find_head {A} (f : A -> bool) l : List.find f l = head (List.filter f l).
Proof. induction l as [|x l IH]; simpl; [done|]. by destruct (f x). Qed.

Lemma first_of_unique l r1 r2 : first_of l r1 -> first_of l r2 -> r1 = r2.
Proof.
  intros (b1 & a1 & E1 & Hb1 & Ha1) (b2 & a2 & E2 & Hb2 & Ha2). rewrite E1 in E2. clear E1.
  revert b2 E2 Hb2. induction b1 as [|x b1 IH]; intros [|y b2] E2 Hb2; injection E2 as ? E2; subst.
  - done.
  - assert (r2 ∈ b2 ++ r2 :: a2) as H by (apply elem_of_app; right; constructor).
    apply Ha1 in H. pose proof (Hb2 y ltac:(constructor)). lia.
  - assert (r1 ∈ b1 ++ r1 :: a1) as H by (apply elem_of_app; right; constructor).
    apply Ha2 in H. pose proof (Hb1 r2 ltac:(constructor)). lia.
  - apply (IH (fun r Hr => Hb1 r (list_elem_of_further _ _ _ Hr)) b2 E2).
    intros r Hr. apply Hb2. by right.
Qed.

Lemma find_governs policy name :
  match List.find (fun r => String.eqb (attribute r) name) (Sort.sort by_precedence (rules policy)) with
  | Some rule => governs policy name rule
  | None => forall rule, rule ∈ rules policy -> attribute rule <> name
  end.
Proof.
  rewrite find_head, (Sort.filter_sort _ by_precedence_total by_precedence_trans).
  set (l := List.filter _ (rules policy)). destruct (Sort.sort by_precedence l) as [|rule s] eqn:E; simpl.
  - intros rule Hr E'. assert (rule ∈ l) as H.
    { apply list_elem_of_In, filter_In. split; [by apply list_elem_of_In|]. by apply String.eqb_eq. }
    apply (Sort.elem_of_sort by_precedence) in H. rewrite E in H. by apply elem_of_nil in H.
  - apply (Sort.sort_head _ by_precedence_total by_precedence_trans) in E as (before & after & E & Hb & Ha).
    exists before, after. split_and!; [exact E| |].
    + intros r Hr. apply Hb in Hr. unfold by_precedence in Hr. bool_prop. lia.
    + intros r Hr. apply Ha in Hr. unfold by_precedence in Hr. bool_prop. lia.
Qed.

(** An attribute nothing names is no attribute the policy has a rule for. *)
Lemma governs_names policy name rule : governs policy name rule -> rule ∈ rules policy /\ attribute rule = name.
Proof.
  intros (before & after & E & _). assert (rule ∈ before ++ rule :: after) as H by (apply elem_of_app; right; constructor).
  rewrite <- E in H. apply list_elem_of_In, filter_In in H as [H1 H2].
  by apply list_elem_of_In in H1; apply String.eqb_eq in H2.
Qed.

Lemma suppressed_spec policy subject a :
  _suppressed policy subject a = false <->
  (ferpa_directory_suppressed subject = true -> Attributes.ferpa_directory_item a = true ->
   internal_school_official policy = true).
Proof.
  unfold _suppressed. destruct (ferpa_directory_suppressed subject), (Attributes.ferpa_directory_item a),
    (internal_school_official policy); simpl; naive_solver.
Qed.

(** One decision. *)
Lemma decide_spec policy subject name values consented vs :
  released (_decide policy subject name values consented) = true /\
  de_values (_decide policy subject name values consented) = vs /\ vs <> [] <->
  let_through policy subject consented name values vs.
Proof.
  unfold _decide, let_through. pose proof (find_governs policy name) as Hf.
  destruct (Attributes.definition name) as [a|]; [|naive_solver].
  case_bool_decide as Hc; [naive_solver|].
  destruct (_suppressed policy subject a) eqn:Hs.
  { split; [naive_solver|]. intros (_ & (a' & [= <-] & _ & H) & _). rewrite (proj2 (suppressed_spec policy subject a) H) in Hs. done. }
  pose proof (proj1 (suppressed_spec policy subject a) Hs) as Hs'.
  assert (exists a0, Some a = Some a0 /\ Attributes.classification a0 <> Attributes.RESTRICTED /\
    (ferpa_directory_suppressed subject = true -> Attributes.ferpa_directory_item a0 = true ->
     internal_school_official policy = true)) as Ha by eauto.
  destruct (List.find _ _) as [rule|].
  - assert (forall P : ReleaseRule -> Prop, (exists r, governs policy name r /\ P r) <-> P rule) as Hg.
    { intros P. split; [|eauto]. intros (r & Hr & Hp). by rewrite (first_of_unique _ _ _ Hf Hr). }
    rewrite Hg. apply governs_names in Hf as [Hin Hname].
    assert (~ (forall r, r ∈ rules policy -> attribute r <> name)) as Hn by (intros H; by apply (H rule)).
    destruct (effect rule); simpl.
    + split; [intros (_ & <- & Hne); naive_solver | naive_solver].
    + destruct (List.filter (matches rule) values) as [|k kept]; simpl; split; naive_solver.
    + split; naive_solver.
    + case_bool_decide; simpl; split; naive_solver.
  - assert (~ exists rule, governs policy name rule /\
      ((effect rule = ALLOW /\ vs = values) \/ (effect rule = REQUIRE_CONSENT /\ name ∈ consented /\ vs = values) \/
       (effect rule = ALLOW_VALUE /\ vs = List.filter (matches rule) values))) as Hg.
    { intros (r & [H1 H2]%governs_names & _). by apply (Hf r). }
    unfold _in_entity_category_bundle. do 2 case_bool_decide; simpl; split.
    all: try (by intros (? & _)); try (by intros (_ & _ & [?|(_ & ? & ? & _)])).
    + intros (_ & <- & Hne). split_and!; [done..|]. by right.
    + intros (Hne & _ & [?|(_ & _ & _ & ->)]); done.
Qed.

Lemma elem_rules policy name (P : Effect -> bool) r :
  r ∈ List.filter (fun r => String.eqb (attribute r) name && P (effect r)) (rules policy) <->
  r ∈ rules policy /\ attribute r = name /\ P (effect r) = true.
Proof. by rewrite !list_elem_of_In, filter_In, andb_true_iff, String.eqb_eq. Qed.

Lemma governs_least policy name rule r :
  governs policy name rule -> r ∈ rules policy -> attribute r = name -> (precedence rule <= precedence r)%Z.
Proof.
  intros (before & after & E & Hb & Ha) Hr Hn.
  assert (r ∈ before ++ rule :: after) as H.
  { rewrite <-E. apply list_elem_of_In, filter_In. split; [by apply list_elem_of_In|]. by apply String.eqb_eq. }
  apply elem_of_app in H as [H|H]; [apply Hb in H; lia|]. apply elem_of_cons in H as [->|H]; [lia|by apply Ha].
Qed.

(** A permission that governs is the first permission. *)
Lemma governs_permits policy name rule :
  governs policy name rule -> permits (effect rule) = true -> first_of (permissions policy name) rule.
Proof.
  intros (before & after & E & Hb & Ha) Hp.
  assert (permissions policy name = List.filter (fun r => permits (effect r))
    (List.filter (fun r => String.eqb (attribute r) name) (rules policy))) as ->.
  { unfold permissions. clear. induction (rules policy) as [|r l IH]; [done|]. cbn.
    destruct (String.eqb (attribute r) name); cbn; [|done]. destruct (permits _); by rewrite IH. }
  rewrite E, List.filter_app. cbn. rewrite Hp. eexists _, _. split; [done|].
  split; intros r [Hr _]%list_elem_of_In%filter_In; [apply Hb|apply Ha]; by apply list_elem_of_In.
Qed.

Lemma permissions_nil policy name :
  permissions policy name = [] <-> forall r, r ∈ rules policy -> attribute r = name -> permits (effect r) = false.
Proof.
  split.
  - intros E r Hr Hn. destruct (permits (effect r)) eqn:Ep; [|done].
    assert (r ∈ permissions policy name) as H by (by apply elem_rules). rewrite E in H. by apply elem_of_nil in H.
  - intros H. destruct (permissions policy name) as [|r l] eqn:E; [done|].
    assert (r ∈ permissions policy name) as Hr by (rewrite E; constructor). apply elem_rules in Hr as (Hr & Hn & Hp).
    by rewrite H in Hp.
Qed.

(** For a policy in the documented order the engine does what is documented. *)
Lemma let_through_entitled policy subject consented name values vs :
  in_documented_order policy ->
  let_through policy subject consented name values vs <-> entitled policy subject consented name values vs.
Proof.
  intros Ho.
  assert (forall g r, governs policy name g -> r ∈ rules policy -> attribute r = name ->
    (effect r = DENY -> effect g = DENY) /\ (permits (effect r) = true -> effect g <> REQUIRE_CONSENT)) as Hfirst.
  { intros g r Hg Hr Hn. pose proof (governs_least _ _ _ _ Hg Hr Hn) as Hle. apply governs_names in Hg as [Hgi Hgn].
    destruct (proj2 (Ho r Hr) g Hgi ltac:(congruence)) as [H1 H2]. split.
    - intros Hd. destruct (decide (effect g = DENY)) as [|Hx]; [done|]. specialize (H1 Hd Hx). lia.
    - intros Hp Hc. specialize (H2 Hp Hc). lia. }
  split.
  - intros (Hne & Ha & [(g & Hg & Hr)|(Hno & Hrs & Hb & ->)]); (split; [done|]; split; [done|]).
    + apply governs_names in Hg as Hin. destruct Hin as [Hin Hn]. split.
      { intros r Hr' Hn' Hd. apply (Hfirst g r Hg Hr' Hn') in Hd. destruct Hr as [[? _]|[[? _]|[? _]]]; congruence. }
      destruct Hr as [[He ->]|[(He & Hc & ->)|[He ->]]].
      * left. exists g. split; [by apply governs_permits; [|rewrite He]|]. by rewrite bool_decide_eq_true_2.
      * right. split; [|by split; [|right; eauto]]. apply permissions_nil. intros r Hr' Hn'.
        destruct (permits (effect r)) eqn:Ep; [|done]. by apply (Hfirst g r Hg Hr' Hn') in Ep.
      * left. exists g. split; [by apply governs_permits; [|rewrite He]|]. by rewrite bool_decide_eq_false_2 by congruence.
    + split; [intros r Hr Hn; by destruct (Hno r Hr)|]. right. split; [|by split; [|left]]. apply permissions_nil. intros r Hr Hn. by destruct (Hno r Hr).
  - intros (Hne & Ha & Hnd & Hor). split; [done|]. split; [done|]. pose proof (find_governs policy name) as Hf.
    destruct (List.find _ _) as [g|].
    + left. exists g. split; [done|]. apply governs_names in Hf as Hin. destruct Hin as [Hin Hn].
      destruct Hor as [(rule & Hfst & ->)|(Hp & -> & Hor)].
      * assert (rule ∈ permissions policy name) as Hr by (destruct Hfst as (b & a & -> & _); set_solver).
        apply elem_rules in Hr as (Hr & Hrn & Hrp).
        assert (permits (effect g) = true) as Hgp
          by (pose proof (Hnd g Hin Hn); pose proof (proj2 (Hfirst g rule Hf Hr Hrn) Hrp); by destruct (effect g)).
        rewrite (first_of_unique _ _ _ Hfst (governs_permits _ _ _ Hf Hgp)) in *.
        case_bool_decide as Hal; [by left|]. right. right. by destruct (effect g).
      * assert (effect g = REQUIRE_CONSENT) as Hgc.
        { pose proof (Hnd g Hin Hn) as Hgd. pose proof (proj1 (permissions_nil policy name) Hp g Hin Hn) as Hgp.
          by destruct (effect g). }
        destruct Hor as [[Hrs Hb]|[Hc _]]; [|by right; left]. subst name. by destruct (proj1 (Ho g Hin) Hgc Hrs).
    + right. split; [done|]. destruct Hor as [(rule & Hfst & _)|(_ & -> & [?|(_ & rule & Hr & Hn & _)])].
      * assert (rule ∈ permissions policy name) as Hr by (destruct Hfst as (b & a & -> & _); set_solver).
        apply elem_rules in Hr as (Hr & Hrn & _). by apply Hf in Hr.
      * naive_solver.
      * by apply Hf in Hr.
Qed.

(** The loop: one decision per name in order, and the attributes it releases. *)
Lemma evaluate_loop_spec policy subject available consented names acc :
  NoDup names -> (forall name, name ∈ names -> Dict.get (attributes acc) name = None) ->
  NoDup ((attributes acc).*1) ->
  let out := evaluate_loop policy subject available consented names acc in
  let decided name := _decide policy subject name (default [] (Dict.get available name)) consented in
  decisions out = decisions acc ++ (decided <$> names) /\ NoDup ((attributes out).*1) /\
  (forall name vs, (name, vs) ∈ attributes out <->
    (name, vs) ∈ attributes acc \/
    (name ∈ names /\ released (decided name) = true /\ de_values (decided name) = vs /\ vs <> [])).
Proof.
  cbn zeta. revert acc. induction names as [|name names IH]; intros acc Hn Hfresh Hacc; cbn [evaluate_loop].
  { split_and!; [by rewrite app_nil_r|done|]. intros name vs. split; [by left|].
    intros [?|[?%elem_of_nil _]]; done. }
  apply NoDup_cons in Hn as [Hname Hn].
  set (d := _decide policy subject name (default [] (Dict.get available name)) consented).
  set (attrs := match released d, de_values d with true, _ :: _ => _ | _, _ => _ end).
  assert (attrs = attributes acc ++
    (if released d then match de_values d with [] => [] | _ => [(name, de_values d)] end else [])) as Ea.
  { subst attrs. destruct (released d), (de_values d); rewrite ?app_nil_r; try done.
    apply Dict.set_fresh, Hfresh. constructor. }
  assert (NoDup (attrs.*1)) as Hattrs.
  { subst attrs. destruct (released d), (de_values d); try done. by apply Dict.NoDup_set. }
  destruct (IH {| decisions := decisions acc ++ [d]; attributes := attrs |}) as (H1 & H2 & H3).
  - done.
  - intros x Hx. simpl. apply Dict.get_None. rewrite Ea, fmap_app, elem_of_app. intros [H|H].
    + revert H. apply Dict.get_None, Hfresh. by right.
    + destruct (released d), (de_values d); simpl in H; try by apply elem_of_nil in H.
      apply list_elem_of_singleton in H as ->. done.
  - done.
  - cbn [decisions attributes] in H1, H2, H3. split_and!; [by rewrite H1, <- app_assoc|done|].
    intros x vs. rewrite H3, Ea, elem_of_app.
    assert ((x, vs) ∈ (if released d then match de_values d with [] => [] | _ => [(name, de_values d)] end else []) <->
      x = name /\ released d = true /\ de_values d = vs /\ vs <> []) as ->.
    { destruct (released d); [|split; [by intros ?%elem_of_nil | naive_solver]].
      destruct (de_values d) as [|v l]; [split; [by intros ?%elem_of_nil | naive_solver]|].
      rewrite list_elem_of_singleton. naive_solver. }
    rewrite elem_of_cons. split; [naive_solver|].
    intros [?|[[->|?] ?]]; [naive_solver| |naive_solver]. subst d. naive_solver.
Qed.

Lemma evaluate_spec policy subject available consented :
  NoDup (available.*1) ->
  let out := evaluate policy subject available consented in
  (decisions out = (fun name => _decide policy subject name (default [] (Dict.get available name)) consented)
     <$> merge_sort String.le (available.*1)) /\ NoDup ((attributes out).*1) /\
  (forall name vs, (name, vs) ∈ attributes out <->
    exists values, (name, values) ∈ available /\ let_through policy subject consented name values vs).
Proof.
  intros Hn. cbn zeta. unfold evaluate.
  destruct (evaluate_loop_spec policy subject available consented (merge_sort String.le (available.*1))
    {| attributes := []; decisions := [] |}) as (H1 & H2 & H3).
  { by rewrite merge_sort_Permutation. }
  { done. }
  { apply NoDup_nil_2. }
  split_and!; [exact H1|exact H2|]. intros name vs. rewrite H3, decide_spec. clear H1 H2 H3.
  rewrite merge_sort_Permutation. split.
  - intros [?%elem_of_nil|[Hin He]]; [done|]. apply list_elem_of_fmap in Hin as ([k values] & -> & Hin).
    cbn [fst] in He |- *. rewrite (Dict.elem_get _ _ _ Hn Hin) in He. eauto.
  - intros (values & Hin & He). right. rewrite (Dict.elem_get _ _ _ Hn Hin). split; [|done].
    apply list_elem_of_fmap. by exists (name, values).
Qed.

(** C30: The engine releases exactly what a policy in the documented order entitles the
    service provider to: a known attribute that is no education record, that a FERPA
    suppression does not withhold from this provider, that no rule denies, and that
    the first permission lets through with those values, or, without a permission,
    the R&S category of the provider or the subject's consent.  Anything else is
    absent, and every attribute held has one recorded decision. *)
Theorem release_exact policy subject available consented name vs :
  in_documented_order policy -> NoDup (available.*1) ->
  ((name, vs) ∈ attributes (evaluate policy subject available consented) <->
    exists values, (name, values) ∈ available /\ entitled policy subject consented name values vs) /\
  de_attribute <$> decisions (evaluate policy subject available consented) = merge_sort String.le (available.*1).
Proof.
  intros Ho Hn. destruct (evaluate_spec policy subject available consented Hn) as (H1 & _ & H3).
  split; [rewrite H3; by setoid_rewrite let_through_entitled|]. rewrite H1, <- list_fmap_compose. rewrite <- (list_fmap_id (merge_sort _ _)) at 2.
  apply list_fmap_ext. intros _ x _. simpl. unfold _decide. by repeat case_match.
Qed.
End engine.

(** ** Subject identifiers: [campusid/policy/pairwise.py] *)

Section pairwise.
Context (hmac_sha256 : string -> string -> string).

Definition SEPARATOR : string := String (Ascii.ascii_of_nat 0) "".

Inductive value_error : Type := ValueError.

Definition pairwise_id (salt key entity_id scope : string) : result value_error string :=
  raise* ValueError when String.eqb salt "";
  let digest := hmac_sha256 salt (key +:+ SEPARATOR +:+ entity_id) in
  Ok (Base64.b64url (Py.take 16 digest) +:+ "@" +:+ scope).

Definition subject_id (key scope : string) : string := key +:+ "@" +:+ scope.

(** [oidc/identity.py]: the [sub] claim. *)
Definition _subject_identifier (policy : ReleasePolicy) (subject : Subject) (salt scope : string) :
    result value_error string :=
  match subject_id_mode policy with
  | SHARED => Ok (subject_id (person_key subject) scope)
  | PAIRWISE => pairwise_id salt (person_key subject) (sp_entity_id policy) scope
  end.
End pairwise.

(** ** Claims: [campusid/oidc/claims.py] *)

Definition SCOPE_OPENID := "openid".
Definition SCOPE_PROFILE := "profile".
Definition SCOPE_EMAIL := "email".
Definition SCOPE_AFFILIATION := "campus:affiliation".
Definition SCOPE_ENTITLEMENT := "campus:entitlement".
Definition SCOPE_SCIM_READ := "scim:read".
Definition SCOPE_SCIM_WRITE := "scim:write".
Definition MACHINE_SCOPES : list string := [SCOPE_SCIM_READ; SCOPE_SCIM_WRITE].
Definition SUPPORTED_SCOPES : list string :=
  [SCOPE_OPENID; SCOPE_PROFILE; SCOPE_EMAIL; SCOPE_AFFILIATION; SCOPE_ENTITLEMENT;
   SCOPE_SCIM_READ; SCOPE_SCIM_WRITE].

Record ClaimMapping : Type := {
  cm_attribute : string;
  cm_claim : string;
  cm_scope : string;
  cm_multivalued : bool;
}.

Definition one (a c s : string) : ClaimMapping :=
  {| cm_attribute := a; cm_claim := c; cm_scope := s; cm_multivalued := false |}.
Definition many (a c s : string) : ClaimMapping :=
  {| cm_attribute := a; cm_claim := c; cm_scope := s; cm_multivalued := true |}.

Definition CLAIMS : list ClaimMapping := [
  one Attributes.EPPN "preferred_username" SCOPE_PROFILE;
  one Attributes.DISPLAY_NAME "name" SCOPE_PROFILE;
  one Attributes.GIVEN_NAME "given_name" SCOPE_PROFILE;
  one Attributes.SURNAME "family_name" SCOPE_PROFILE;
  one Attributes.ORCID "orcid" SCOPE_PROFILE;
  one Attributes.MAIL "email" SCOPE_EMAIL;
  many Attributes.ORG_UNIT "campus_org_unit" SCOPE_PROFILE;
  many Attributes.SCOPED_AFFILIATION "campus_scoped_affiliation" SCOPE_AFFILIATION;
  many Attributes.AFFILIATION "campus_affiliation" SCOPE_AFFILIATION;
  one Attributes.PRIMARY_AFFILIATION "campus_primary_affiliation" SCOPE_AFFILIATION;
  many Attributes.ENTITLEMENT "campus_entitlement" SCOPE_ENTITLEMENT].

(** [BY_ATTRIBUTE.get(name)]: the attributes of the table are distinct. *)
Definition BY_ATTRIBUTE (name : string) : option ClaimMapping :=
  List.find (fun m => String.eqb name (cm_attribute m)) CLAIMS.

Definition SUPPORTED_CLAIMS : list string := cm_claim <$> CLAIMS.

Definition attributes_for_scopes (scopes : gset string) : gset string :=
  list_to_set (cm_attribute <$> List.filter (fun m => bool_decide (cm_scope m ∈ scopes)) CLAIMS).

Definition claim_value (m : ClaimMapping) (v : string) (vs : list string) : json :=
  if cm_multivalued m then JArr (JStr <$> (v :: vs)) else JStr v.

Definition by_name (i1 i2 : string * list string) : bool := String.leb i1.1 i2.1.

Fixpoint claims_loop (scopes : gset string) (items : list (string * list string))
    (claims : list (string * json)) : list (string * json) :=
  match items with
  | [] => claims
  | (name, values) :: items' =>
      claims_loop scopes items'
        match BY_ATTRIBUTE name, values with
        | Some m, v :: vs =>
            if bool_decide (cm_scope m ∈ scopes) then Dict.set claims (cm_claim m) (claim_value m v vs)
            else claims
        | _, _ => claims
        end
  end.

Definition claims_for (scopes : gset string) (rel : list (string * list string)) : list (string * json) :=
  claims_loop scopes (Sort.sort by_name rel) [].

(** ** [campusid/oidc/identity.py] *)

Record ReleasedIdentity : Type := {
  ri_subject : string;
  ri_claims : list (string * json);
  ri_decisions : list Decision;
}.

Definition release_to (fullmatch : string -> string -> bool) (hmac_sha256 : string -> string -> string)
    (session : Sessions.Session) (policy : ReleasePolicy) (scopes : gset string)
    (salt scope : string) (suppressed : bool) (consented : gset string) : result value_error ReleasedIdentity :=
  let subject := {| person_key := Sessions.subject_key session; ferpa_directory_suppressed := suppressed |} in
  let normalised := Attributes.normalize (Sessions.s_attributes session) scope in
  let out := evaluate fullmatch policy subject (Attributes.attributes normalised) consented in
  let* sub := _subject_identifier hmac_sha256 policy subject salt scope in
  Ok {| ri_subject := sub; ri_claims := claims_for scopes (attributes out); ri_decisions := decisions out |}.

(** ** Properties of identifiers and claims *)

Lemma NoDup_fmap_inj {A B} (f : A -> B) l x y : NoDup (f <$> l) -> x ∈ l -> y ∈ l -> f x = f y -> x = y.
Proof.
  intros Hn [i Hi]%list_elem_of_lookup [j Hj]%list_elem_of_lookup E.
  assert (i = j) as ->; [|congruence].
  apply (NoDup_lookup (f <$> l) i j (f x)); [done|..]; rewrite list_lookup_fmap, ?Hi, ?Hj; simpl; congruence.
Qed.

Lemma claim_names : NoDup (cm_claim <$> CLAIMS).
Proof. apply (bool_decide_eq_true_1 _). vm_compute. done. Qed.

Lemma claim_attributes : NoDup (cm_attribute <$> CLAIMS).
Proof. apply (bool_decide_eq_true_1 _). vm_compute. done. Qed.

Lemma by_attribute_spec name m : BY_ATTRIBUTE name = Some m <-> m ∈ CLAIMS /\ cm_attribute m = name.
Proof.
  unfold BY_ATTRIBUTE. split.
  - intros [H1 H2]%List.find_some. apply String.eqb_eq in H2. by apply list_elem_of_In in H1.
  - intros [Hin <-]. destruct (List.find _ CLAIMS) as [m'|] eqn:E.
    + apply List.find_some in E as [H1 H2]. apply String.eqb_eq in H2. apply list_elem_of_In in H1.
      f_equal. by apply (NoDup_fmap_inj cm_attribute CLAIMS); [apply claim_attributes|..].
    + apply (List.find_none _ _ E) in Hin || apply list_elem_of_In, (List.find_none _ _ E) in Hin.
      by rewrite String.eqb_refl in Hin.
Qed.

Lemma claims_loop_spec scopes items claims :
  NoDup (items.*1) ->
  (forall name m, name ∈ items.*1 -> BY_ATTRIBUTE name = Some m -> cm_claim m ∉ claims.*1) ->
  forall c j, (c, j) ∈ claims_loop scopes items claims <->
    (c, j) ∈ claims \/ exists m v vs, m ∈ CLAIMS /\ cm_claim m = c /\ cm_scope m ∈ scopes /\
      (cm_attribute m, v :: vs) ∈ items /\ j = claim_value m v vs.
Proof.
  revert claims. induction items as [|[name values] items IH]; intros claims Hn Hfresh c j; cbn [claims_loop].
  { split; [by left|]. intros [?|(m & v & vs & _ & _ & _ & ?%elem_of_nil & _)]; done. }
  cbn in Hn. apply NoDup_cons in Hn as [Hname Hn].
  set (claims' := match BY_ATTRIBUTE name with Some _ => _ | None => _ end).
  assert (claims' = claims \/ exists m v vs, BY_ATTRIBUTE name = Some m /\ values = v :: vs /\
    cm_scope m ∈ scopes /\ claims' = claims ++ [(cm_claim m, claim_value m v vs)]) as Hc.
  { subst claims'. destruct (BY_ATTRIBUTE name) as [m|] eqn:Em; [|by left]. destruct values as [|v vs]; [by left|].
    case_bool_decide; [|by left]. right. exists m, v, vs. split_and!; try done.
    apply Dict.set_fresh, Dict.get_None, (Hfresh name); [constructor | done]. }
  assert (forall x m, x ∈ items.*1 -> BY_ATTRIBUTE x = Some m -> cm_claim m ∉ claims'.*1) as Hfresh'.
  { intros x m Hx Hm. pose proof (Hfresh x m ltac:(by right) Hm) as Hf.
    destruct Hc as [->|(m' & v & vs & Hm' & _ & _ & ->)]; [done|].
    rewrite fmap_app, elem_of_app. intros [?|E%list_elem_of_singleton]; [done|]. simpl in E.
    apply by_attribute_spec in Hm as [Hm <-], Hm' as [Hm' <-]. destruct Hname.
    by rewrite <- (NoDup_fmap_inj cm_claim CLAIMS m m' claim_names Hm Hm' E). }
  rewrite (IH claims' Hn Hfresh').
  assert ((c, j) ∈ claims' <-> (c, j) ∈ claims \/ exists m v vs, m ∈ CLAIMS /\ cm_claim m = c /\
    cm_scope m ∈ scopes /\ (cm_attribute m, v :: vs) = (name, values) /\ j = claim_value m v vs) as ->.
  { subst claims'. split.
    - destruct Hc as [->|(m & v & vs & Hm & -> & Hs & ->)]; [by left|].
      rewrite elem_of_app, list_elem_of_singleton. intros [?|[= -> ->]]; [by left|]. right.
      apply by_attribute_spec in Hm as [Hm <-]. by exists m, v, vs.
    - intros [H|(m & v & vs & Hm & <- & Hs & [= <- <-] & ->)].
      + destruct Hc as [->|(? & ? & ? & _ & _ & _ & ->)]; [done|]. apply elem_of_app. by left.
      + rewrite (proj2 (by_attribute_spec (cm_attribute m) m) (conj Hm eq_refl)), bool_decide_eq_true_2 by done.
        apply Dict.get_elem, Dict.get_set_eq. }
  clear. setoid_rewrite elem_of_cons. split.
  - intros [[?|(m & v & vs & ?)]|(m & v & vs & ?)]; [by left|right; exists m, v, vs..]; naive_solver.
  - intros [?|(m & v & vs & ? & ? & ? & [?|?] & ?)]; [by left; left|left; right|right]; exists m, v, vs; done.
Qed.

Lemma claims_for_spec scopes rel :
  NoDup (rel.*1) ->
  forall c j, (c, j) ∈ claims_for scopes rel <->
    exists m v vs, m ∈ CLAIMS /\ cm_claim m = c /\ cm_scope m ∈ scopes /\
      (cm_attribute m, v :: vs) ∈ rel /\ j = claim_value m v vs.
Proof.
  intros Hn c j. unfold claims_for. rewrite claims_loop_spec.
  - setoid_rewrite Sort.elem_of_sort. split; [intros [?%elem_of_nil|?]; done | by right].
  - by rewrite Sort.sort_Permutation.
  - by intros ? ? _ _ ?%elem_of_nil.
Qed.

Lemma release_to_claims fullmatch hmac session policy scopes salt scope suppressed consented ri c j :
  NoDup ((Sessions.s_attributes session).*1) ->
  release_to fullmatch hmac session policy scopes salt scope suppressed consented = Ok ri ->
  (c, j) ∈ ri_claims ri <->
  exists m values v vs, m ∈ CLAIMS /\ cm_claim m = c /\ cm_scope m ∈ scopes /\
    (cm_attribute m, values) ∈ Attributes.attributes (Attributes.normalize (Sessions.s_attributes session) scope) /\
    let_through fullmatch policy
      {| person_key := Sessions.subject_key session; ferpa_directory_suppressed := suppressed |}
      consented (cm_attribute m) values (v :: vs) /\
    j = (if cm_multivalued m then JArr (JStr <$> (v :: vs)) else JStr v).
Proof.
  intros Hn. unfold release_to. intros (sub & _ & [= <-])%rbind_ok. cbn [ri_claims].
  set (subject := Build_Subject _ _). set (norm := Attributes.attributes _).
  assert (NoDup (norm.*1)) as Hnorm.
  { subst norm. rewrite Attributes.normalize_spec by done. cbn [Attributes.attributes].
    eapply sublist_NoDup; [exact Hn | apply Attributes.omap_normal_names]. }
  destruct (evaluate_spec fullmatch policy subject norm consented Hnorm) as (_ & Hd & He).
  rewrite (claims_for_spec _ _ Hd). split.
  - intros (m & v & vs & ? & ? & ? & (values & ? & ?)%He & ->). by exists m, values, v, vs.
  - intros (m & values & v & vs & ? & ? & ? & ? & ? & ->). exists m, v, vs. split_and!; try done. apply He. eauto.
Qed.

(** C9: A client's claims are exactly the intersection of what it asked for and
    what the university permits, for a policy in the documented order.  A claim
    appears if and only if the table maps an attribute to it under a scope the client
    holds, and the policy entitles the client to that attribute's normalised values:
    no rule denies it, and the first permission, the category or the subject's
    consent lets them through.  It carries those values, as a list or the first of
    them as the claim's cardinality says. *)
Theorem claims_are_entitled fullmatch hmac session policy scopes salt scope suppressed consented ri c j :
  in_documented_order policy -> NoDup ((Sessions.s_attributes session).*1) ->
  release_to fullmatch hmac session policy scopes salt scope suppressed consented = Ok ri ->
  (c, j) ∈ ri_claims ri <->
  exists m values v vs, m ∈ CLAIMS /\ cm_claim m = c /\ cm_scope m ∈ scopes /\
    (cm_attribute m, values) ∈ Attributes.attributes (Attributes.normalize (Sessions.s_attributes session) scope) /\
    entitled fullmatch policy
      {| person_key := Sessions.subject_key session; ferpa_directory_suppressed := suppressed |}
      consented (cm_attribute m) values (v :: vs) /\
    j = (if cm_multivalued m then JArr (JStr <$> (v :: vs)) else JStr v).
Proof. intros Ho Hn E. rewrite (release_to_claims _ _ _ _ _ _ _ _ _ _ _ _ Hn E). by setoid_rewrite let_through_entitled. Qed.

(** The message a pairwise identifier is derived from names the person and the
    provider: the separator occurs in neither. *)
Lemma pairwise_message_inj k1 k2 e1 e2 :
  Py.has_char (Ascii.ascii_of_nat 0) k1 = false -> Py.has_char (Ascii.ascii_of_nat 0) k2 = false ->
  k1 +:+ SEPARATOR +:+ e1 = k2 +:+ SEPARATOR +:+ e2 -> k1 = k2 /\ e1 = e2.
Proof.
  intros H1 H2 E. assert (Py.partition (Ascii.ascii_of_nat 0) (k1 +:+ SEPARATOR +:+ e1) =
    Py.partition (Ascii.ascii_of_nat 0) (k2 +:+ SEPARATOR +:+ e2)) as E' by (by rewrite E).
  unfold SEPARATOR in E'. rewrite !Py.app_String, !Py.app_nil_l, !Py.partition_app in E' by done. naive_solver.
Qed.

Lemma b64url_inj a b : Base64.b64url a = Base64.b64url b -> a = b.
Proof. intros E. assert (Some a = Some b) as [= ->]; [|done]. by rewrite <- !Base64.b64url_roundtrip, E. Qed.

Lemma scoped_inj o1 o2 s1 s2 :
  Py.has_char "@" s1 = false -> Py.has_char "@" s2 = false ->
  o1 +:+ "@" +:+ s1 = o2 +:+ "@" +:+ s2 -> o1 = o2 /\ s1 = s2.
Proof.
  intros H1 H2 E. assert (Py.rpartition "@" (o1 +:+ String "@" s1) = Py.rpartition "@" (o2 +:+ String "@" s2)) as E'.
  { change (String "@" s1) with ("@" +:+ s1). change (String "@" s2) with ("@" +:+ s2). by rewrite E. }
  rewrite !Py.rpartition_app in E' by done. naive_solver.
Qed.

(** Two pairwise identifiers agree only if the keyed digests they are
    truncated from agree on sixteen bytes, and the messages those digests are of
    are different for different people or providers.  So an identifier is shared
    by two providers, or by two people at one, only on a collision of the
    truncated HMAC: the separator and the encoding lose nothing. *)
Theorem pairwise_ids_differ hmac salt k1 k2 e1 e2 scope i :
  Py.has_char (Ascii.ascii_of_nat 0) k1 = false -> Py.has_char (Ascii.ascii_of_nat 0) k2 = false ->
  Py.has_char "@" scope = false -> (k1, e1) <> (k2, e2) ->
  pairwise_id hmac salt k1 e1 scope = Ok i -> pairwise_id hmac salt k2 e2 scope = Ok i ->
  exists m1 m2, m1 <> m2 /\ Py.take 16 (hmac salt m1) = Py.take 16 (hmac salt m2).
Proof.
  unfold pairwise_id. intros H1 H2 Hs Hne. destruct (String.eqb salt ""); [done|].
  set (d1 := Py.take 16 _). set (d2 := Py.take 16 (hmac salt (k2 +:+ _))).
  intros Ei Ej. assert (Base64.b64url d1 +:+ "@" +:+ scope = Base64.b64url d2 +:+ "@" +:+ scope) as E by congruence.
  apply scoped_inj in E as [E%b64url_inj _]; [|done..].
  exists (k1 +:+ SEPARATOR +:+ e1), (k2 +:+ SEPARATOR +:+ e2). split; [|exact E].
  intros [-> ->]%pairwise_message_inj; done.
Qed.

(** ** The engine on an example *)

Definition demo_policy (first second : Effect) : ReleasePolicy :=
  {| sp_entity_id := "https://lms.test"; display_name := None; entity_categories := ∅;
     subject_id_mode := PAIRWISE; internal_school_official := false; require_encrypted_assertion := false;
     rules := [ {| rule_id := "first"; effect := first; attribute := Attributes.MAIL; value_filter := None; precedence := 100 |};
                {| rule_id := "second"; effect := second; attribute := Attributes.MAIL; value_filter := None; precedence := 100 |} ] |}.

Definition demo_subject : Subject := {| person_key := "p1"; ferpa_directory_suppressed := false |}.
Definition demo_available : list (string * list string) :=
  [(Attributes.MAIL, ["sam@campus.test"]); (Attributes.STUDENT_ID, ["900123"])].

(** Rules in the documented order: the denial of the principal name first. *)
Definition demo_ordered : ReleasePolicy :=
  {| sp_entity_id := "https://lms.test"; display_name := None; entity_categories := ∅;
     subject_id_mode := PAIRWISE; internal_school_official := false; require_encrypted_assertion := false;
     rules := [ {| rule_id := "mail"; effect := ALLOW; attribute := Attributes.MAIL; value_filter := None; precedence := 100 |};
                {| rule_id := "name"; effect := ALLOW; attribute := Attributes.EPPN; value_filter := None; precedence := 100 |};
                {| rule_id := "ask"; effect := REQUIRE_CONSENT; attribute := Attributes.MAIL; value_filter := None; precedence := 200 |};
                {| rule_id := "no-name"; effect := DENY; attribute := Attributes.EPPN; value_filter := None; precedence := 1 |} ] |}.

Lemma demo_in_order : in_documented_order demo_ordered.
Proof.
  intros r1 H1. split; [intros _ Hrs; by apply elem_of_empty in Hrs|]. intros r2 H2. cbn in H1, H2.
  repeat (apply elem_of_cons in H1 as [->|H1]); try (by apply elem_of_nil in H1);
    repeat (apply elem_of_cons in H2 as [->|H2]); try (by apply elem_of_nil in H2); cbn; intros; (split; intros); done || lia.
Qed.

Lemma release_exact_witness :
  exists values, (Attributes.MAIL, values) ∈ demo_available /\
    entitled (fun _ _ => true) demo_ordered demo_subject ∅ Attributes.MAIL values ["sam@campus.test"].
Proof.
  assert (NoDup (demo_available.*1)) as Hn by (apply (bool_decide_eq_true_1 _); vm_compute; done).
  apply (release_exact (fun _ _ => true) demo_ordered demo_subject demo_available ∅ _ _ demo_in_order Hn).
  vm_compute. constructor.
Defined.

(** A denial does not come before the permissions.  The rules are read in
    order of precedence whatever their effect, so a denial listed after a
    permission of the same precedence, the default one, withholds nothing. *)
Theorem later_deny_is_ignored fullmatch subject values consented :
  ferpa_directory_suppressed subject = false ->
  _decide fullmatch (demo_policy ALLOW DENY) subject Attributes.MAIL values consented =
    granted Attributes.MAIL values EXPLICIT_ALLOW (Some "first") /\
  _decide fullmatch (demo_policy DENY ALLOW) subject Attributes.MAIL values consented =
    withheld Attributes.MAIL EXPLICIT_DENY (Some "first").
Proof. intros H. unfold _decide, _suppressed. cbn. by rewrite H. Qed.

(** Consent comes before the entity category.  A provider of the R&S category is
    granted the bundle without a rule; one rule that asks for consent takes the
    attribute away until the subject agrees. *)
Definition demo_category (asked : list ReleaseRule) : ReleasePolicy :=
  {| sp_entity_id := "https://lms.test"; display_name := None;
     entity_categories := {[Attributes.RESEARCH_AND_SCHOLARSHIP]};
     subject_id_mode := PAIRWISE; internal_school_official := false; require_encrypted_assertion := false; rules := asked |}.
Theorem consent_precedes_category fullmatch values :
  let ask := {| rule_id := "ask"; effect := REQUIRE_CONSENT; attribute := Attributes.MAIL; value_filter := None; precedence := 100 |} in
  _decide fullmatch (demo_category []) demo_subject Attributes.MAIL values ∅ = granted Attributes.MAIL values ENTITY_CATEGORY None /\
  _decide fullmatch (demo_category [ask]) demo_subject Attributes.MAIL values ∅ =
    withheld Attributes.MAIL CONSENT_REQUIRED (Some "ask").
Proof. split; reflexivity. Qed.

Lemma later_deny_is_ignored_witness :
  _decide (fun _ _ => true) (demo_policy ALLOW DENY) demo_subject Attributes.MAIL ["sam@campus.test"] ∅ =
    granted Attributes.MAIL ["sam@campus.test"] EXPLICIT_ALLOW (Some "first").
Proof. by apply (later_deny_is_ignored (fun _ _ => true) demo_subject ["sam@campus.test"] ∅). Defined.

Definition demo_session : Sessions.Session :=
  Sessions.new_session Sessions.ABSOLUTE_TIMEOUT "s1"
    {| Sessions.lg_idp_entity_id := "https://idp.test"; Sessions.lg_name_id := "sam"; Sessions.lg_name_id_format := None;
       Sessions.lg_auth_time := None; Sessions.lg_acr := None; Sessions.lg_amr := ["pwd"];
       Sessions.lg_session_index := None; Sessions.lg_attributes := [(Attributes.MAIL, ["sam@Campus.test"])];
       Sessions.lg_person_uuid := Some "p1"; Sessions.lg_impersonated_by := None |} 0.

Definition demo_hmac (salt message : string) : string := "0123456789abcdefghij".

Lemma claims_are_entitled_witness :
  exists values, (Attributes.MAIL, values) ∈
      Attributes.attributes (Attributes.normalize (Sessions.s_attributes demo_session) "campus.test") /\
    entitled (fun _ _ => true) demo_ordered
      {| person_key := Sessions.subject_key demo_session; ferpa_directory_suppressed := false |}
      ∅ Attributes.MAIL values ["sam@campus.test"].
Proof.
  assert (NoDup ((Sessions.s_attributes demo_session).*1)) as Hn by apply NoDup_singleton.
  destruct (release_to (fun _ _ => true) demo_hmac demo_session demo_ordered {[SCOPE_EMAIL]}
    "salt" "campus.test" false ∅) as [ri|] eqn:E; [|vm_compute in E; discriminate].
  assert (("email", JStr "sam@campus.test") ∈ ri_claims ri) as Hin.
  { vm_compute in E. injection E as <-. constructor. }
  apply (claims_are_entitled (fun _ _ => true) demo_hmac demo_session _ _ _ _ _ _ ri _ _ demo_in_order Hn E) in Hin
    as (m & values & v & vs & Hm & Hc & _ & Hv & He & Hj).
  assert (m = one Attributes.MAIL "email" SCOPE_EMAIL) as ->.
  { apply (NoDup_fmap_inj cm_claim CLAIMS); [apply claim_names|done| |done]. do 5 right. constructor. }
  exists values. split; [exact Hv|]. cbn in Hj. injection Hj as <-.
  replace vs with (@nil string) in He; [exact He|].
  vm_compute in Hv. apply list_elem_of_singleton in Hv. injection Hv as ->.
  destruct He as (_ & _ & _ & [(rule & _ & E')|(_ & E' & _)]); [|congruence].
  case_bool_decide; [congruence|]. cbn in E'. destruct (matches _ rule _); congruence.
Defined.

Lemma pairwise_ids_differ_witness :
  exists m1 m2, m1 <> m2 /\ Py.take 16 (demo_hmac "salt" m1) = Py.take 16 (demo_hmac "salt" m2).
Proof.
  apply (pairwise_ids_differ demo_hmac "salt" "p1" "p2" "https://lms.test" "https://lms.test" "campus.test"
    "MDEyMzQ1Njc4OWFiY2RlZg@campus.test"); [reflexivity|reflexivity|reflexivity|congruence|vm_compute; reflexivity|vm_compute; reflexivity].
Defined.

End Release.
