(* ===== verification/Tokens.v ===== *)
(** * ID tokens, access tokens and bearer credentials

    [campusid/oidc/tokens.py] and [bearer.py]: what a token is minted from, and
    when an access token presented back is honoured.  Times are whole seconds in
    a token; the [jti] of a token is an argument, being drawn at random. *)

From stdpp Require Import pretty.
From S2P Require Import Prelude PyStr Dict Base64 Json JsonText JsonLoads Errors Redis Codec Grants Jwt Lifecycle Attributes Release.

Module Tokens.

Definition ID_TOKEN_TTL : duration := 5 * 60 * SECOND.
Definition ACCESS_TOKEN_TTL : duration := 15 * 60 * SECOND.
Definition LOGOUT_TOKEN_TTL : duration := 2 * 60 * SECOND.
Definition TYPE_LOGOUT := "logout+jwt".
Definition ID_TOKEN_BASE_CLAIMS : list string :=
  ["iss"; "sub"; "aud"; "exp"; "iat"; "auth_time"; "nonce"; "acr"; "amr"; "sid"].
Definition LOGOUT_EVENT := "http://schemas.openid.net/event/backchannel-logout".

Record TokenContext : Type := {
  tc_issuer : string;
  tc_client_id : string;
  tc_subject : string;
  tc_sid : string;
  tc_family_id : string;
  tc_scopes : gset string;
  tc_auth_time : moment;
  tc_nonce : option string;
  tc_acr : option string;
  tc_amr : list string;
  tc_claims : list (string * json);
}.

(** [int(t.timestamp())]. *)
Definition epoch (t : moment) : Z := Z.quot t SECOND.

(** ["".join(sorted(scopes))], separated by spaces. *)
Definition scope_text (scopes : gset string) : string := Py.join " " (Lifecycle.sorted scopes).

(** [if x is not None: claims[k] = x], and [if xs: claims["amr"] = list(xs)]. *)
Definition with_some (k : string) (o : option string) (claims : Jwt.claim_set) : Jwt.claim_set :=
  match o with Some s => Json.insert claims k (JStr s) | None => claims end.
Definition with_amr (amr : list string) (claims : Jwt.claim_set) : Jwt.claim_set :=
  match amr with [] => claims | _ => Json.insert claims "amr" (Codec.of_strings amr) end.

Definition id_token_claims (c : TokenContext) (now : moment) (ttl : duration) : Jwt.claim_set :=
  let claims := [
    ("iss", JStr (tc_issuer c)); ("sub", JStr (tc_subject c)); ("aud", JStr (tc_client_id c));
    ("iat", JInt (epoch now)); ("exp", JInt (epoch (now + ttl))); ("auth_time", JInt (epoch (tc_auth_time c)));
    ("sid", JStr (tc_sid c))] in
  let claims := with_some "nonce" (tc_nonce c) claims in
  let claims := with_some "acr" (tc_acr c) claims in
  let claims := with_amr (tc_amr c) claims in
  Json.update claims (tc_claims c).

Definition access_token_claims (c : TokenContext) (jti : string) (now : moment) (ttl : duration) : Jwt.claim_set :=
  let claims := [
    ("iss", JStr (tc_issuer c)); ("sub", JStr (tc_subject c)); ("aud", JStr (tc_issuer c));
    ("client_id", JStr (tc_client_id c)); ("iat", JInt (epoch now)); ("exp", JInt (epoch (now + ttl)));
    ("jti", JStr jti); ("scope", JStr (scope_text (tc_scopes c))); ("sid", JStr (tc_sid c));
    ("fid", JStr (tc_family_id c))] in
  with_amr (tc_amr c) (with_some "acr" (tc_acr c) claims).

Definition logout_token_claims (c : TokenContext) (jti : string) (now : moment) (ttl : duration) : Jwt.claim_set := [
  ("iss", JStr (tc_issuer c)); ("aud", JStr (tc_client_id c)); ("sub", JStr (tc_subject c));
  ("iat", JInt (epoch now)); ("exp", JInt (epoch (now + ttl))); ("jti", JStr jti); ("sid", JStr (tc_sid c));
  ("events", JObj [(LOGOUT_EVENT, JObj [])])].

(** ** Bearer credentials *)

Definition INVALID_TOKEN := "invalid_token".

(** A verified token: its claims.  [str(x)] of a value that is not a string is
    [shown x]. *)
Definition text_of (shown : json -> string) (o : option json) : result exn string :=
  match o with
  | Some (JStr s) => Ok s
  | Some j => Ok (shown j)
  | None => Err KeyError
  end.
Definition bt_subject (shown : json -> string) (claims : Jwt.claim_set) := text_of shown (Json.lookup claims "sub").
Definition bt_client_id (shown : json -> string) (claims : Jwt.claim_set) := text_of shown (Json.lookup claims "client_id").
Definition bt_sid (shown : json -> string) (claims : Jwt.claim_set) := text_of shown (Json.lookup claims "sid").
Definition bt_family_id (shown : json -> string) (claims : Jwt.claim_set) := text_of shown (Json.lookup claims "fid").
Definition bt_scopes (shown : json -> string) (claims : Jwt.claim_set) : gset string :=
  list_to_set (Py.words (match Json.lookup claims "scope" with Some (JStr s) => s | Some j => shown j | None => "" end)).

Definition credentials (header : option string) : option string :=
  match header with
  | None => None
  | Some h =>
      if String.eqb h "" then None
      else
        let '(scheme, rest) := Py.partition " " h in
        let value := Py.strip (default "" rest) in
        if negb (String.eqb (Py.lower scheme) "bearer") || String.eqb value "" then None else Some value
  end.

Definition challenge (error : string) : list (string * string) :=
  [("WWW-Authenticate", "Bearer error=" +:+ String JsonText.dquote (error +:+ String JsonText.dquote ""))].

Section tokens.
Context {Priv Pub : Type} `{RsaLib Priv Pub}.
Context (float_repr : Z -> Z -> string) (isoformat : moment -> string).

Abbreviation SigningKey := (Jwt.SigningKey (Priv := Priv)).
Abbreviation KeySet := (Jwt.KeySet (Priv := Priv)).

Definition id_token (c : TokenContext) (key : SigningKey) (now : moment) (ttl : duration) : string :=
  Jwt.encode float_repr isoformat (id_token_claims c now ttl) key Jwt.TYPE_JWT.

Definition access_token (c : TokenContext) (key : SigningKey) (jti : string) (now : moment) (ttl : duration) :
    string * string :=
  (Jwt.encode float_repr isoformat (access_token_claims c jti now ttl) key Jwt.TYPE_AT_JWT, jti).

Definition logout_token (c : TokenContext) (key : SigningKey) (jti : string) (now : moment) (ttl : duration) : string :=
  Jwt.encode float_repr isoformat (logout_token_claims c jti now ttl) key TYPE_LOGOUT.

(** [bearer.verify]. *)
Definition verify (token : option string) (keys : KeySet) (issuer : string) (now : moment) : prog Jwt.claim_set :=
  match token with
  | None | Some "" => Throw (OAuthError INVALID_TOKEN GRANT_INVALID)
  | Some token =>
      match Jwt.decode token (Jwt.verification_keys keys) issuer (Some issuer) now Jwt.LEEWAY (Some Jwt.TYPE_AT_JWT) with
      | Err _ => Throw (OAuthError INVALID_TOKEN GRANT_INVALID)
      | Ok claims =>
          match Json.lookup claims "fid" with
          | Some (JStr family) =>
              await* revoked := Grants.is_family_revoked family in
              if revoked then Throw (OAuthError INVALID_TOKEN GRANT_REVOKED) else Ret claims
          | _ => Throw (OAuthError INVALID_TOKEN GRANT_INVALID)
          end
      end
  end.

(** ** Texts *)

Definition proper (w : string) : Prop := w <> "" /\ Py.sforall (fun a => negb (Py.is_space a)) w = true.

Lemma words_go_word cur w r :
  Py.sforall (fun a => negb (Py.is_space a)) w = true ->
  Py.words_go cur (w +:+ String " " r) =
    (if String.eqb (Py.srev_app w cur) "" then [] else [Py.srev (Py.srev_app w cur)]) ++ Py.words_go "" r.
Proof.
  revert cur. induction w as [|a w IH]; intros cur Hs; [done|]. cbn in Hs. bool_prop.
  rewrite Py.app_String. cbn [Py.words_go]. rewrite H0. by apply IH.
Qed.

Lemma word_back w : w <> "" ->
  (if String.eqb (Py.srev_app w "") "" then [] else [Py.srev (Py.srev_app w "")]) = [w].
Proof.
  intros Hw. change (Py.srev_app w "") with (Py.srev w). destruct (String.eqb_spec (Py.srev w) "") as [E|_].
  - apply (f_equal Py.srev) in E. by rewrite Py.srev_srev in E.
  - by rewrite Py.srev_srev.
Qed.

Lemma words_join l : Forall proper l -> Py.words (Py.join " " l) = l.
Proof.
  unfold Py.words. induction 1 as [|w l [Hne Hs] Hl IH]; [done|]. destruct l as [|w2 l].
  - cbn [Py.join]. rewrite Py.words_go_nil_nospace by done. by apply word_back.
  - change (Py.join " " (w :: w2 :: l)) with (w +:+ " " +:+ Py.join " " (w2 :: l)).
    rewrite (Py.app_String " "), Py.app_nil_l, words_go_word, word_back, IH by done. done.
Qed.

Lemma elem_of_sorted x (ss : gset string) : x ∈ Lifecycle.sorted ss <-> x ∈ ss.
Proof. unfold Lifecycle.sorted. by rewrite merge_sort_Permutation, elem_of_elements. Qed.

Lemma scope_text_words (scopes : gset string) :
  (forall w, w ∈ scopes -> proper w) -> list_to_set (Py.words (scope_text scopes)) = scopes.
Proof.
  intros Hp. unfold scope_text. rewrite words_join.
  - apply set_eq. intros x. rewrite elem_of_list_to_set. apply elem_of_sorted.
  - apply Forall_forall. intros w Hw. by apply Hp, elem_of_sorted.
Qed.

Lemma pretty_go_length x acc k : (x < 10 ^ N.of_nat k)%N -> (String.length (pretty_N_go x acc) <= String.length acc + k)%nat.
Proof.
  revert x acc. induction k as [|k IH]; intros x acc Hx.
  - assert (x = 0)%N as -> by (cbn in Hx; lia). rewrite pretty_N_go_0. lia.
  - assert (x = 0 \/ 0 < x)%N as [->|Hp] by lia; [rewrite pretty_N_go_0; lia|]. rewrite pretty_N_go_step by done.
    etrans; [apply IH|cbn; lia]. apply N.Div0.div_lt_upper_bound.
    rewrite Nat2N.inj_succ, N.pow_succ_r' in Hx. done.
Qed.

(** A 64-bit number is read back whatever the limit on digits. *)
Lemma short_64 z : (Z.abs z < 2 ^ 64)%Z -> JsonLoads.short_number z = true.
Proof.
  intros Hz. unfold JsonLoads.short_number. apply Z.leb_le.
  assert (String.length (pretty (Z.abs_N z)) <= 20)%nat as H20; [|unfold JsonLoads.MAX_STR_DIGITS; lia].
  unfold pretty, pretty_N. case_decide; [cbn; lia|].
  assert (Z.abs_N z < 10 ^ N.of_nat 20)%N as Hx.
  { assert (10 ^ N.of_nat 20 = 100000000000000000000)%N as -> by (vm_compute; reflexivity).
    assert (2 ^ 64 = 18446744073709551616)%Z as E by (vm_compute; reflexivity). rewrite E in Hz. lia. }
  exact (pretty_go_length _ "" 20 Hx).
Qed.

(** ** Claim sets *)

(** Every text of the context is UTF-8, and its times fit in 64 bits. *)
Definition presentable (c : TokenContext) (now : moment) : Prop :=
  Forall (fun s => Utf8.valid s = true)
    ([tc_issuer c; tc_client_id c; tc_subject c; tc_sid c; tc_family_id c; scope_text (tc_scopes c);
      default "" (tc_acr c)] ++ tc_amr c) /\
  (forall w, w ∈ tc_scopes c -> proper w) /\ (0 <= now < 2 ^ 60)%Z.

Lemma of_strings_readable l : Forall (fun s => Utf8.valid s = true) l -> JsonLoads.readable (Codec.of_strings l) = true.
Proof. unfold Codec.of_strings. cbn. induction 1 as [|s l Hs _ IH]; [done|]. cbn. by rewrite Hs. Qed.

Lemma epoch_bound t : (0 <= t < 2 ^ 63)%Z -> JsonLoads.short_number (epoch t) = true.
Proof.
  intros Hb. apply short_64. unfold epoch, SECOND. rewrite Z.quot_div_nonneg by lia.
  pose proof (Z.div_pos t 1000000 ltac:(lia) ltac:(lia)). pose proof (Z.div_le_upper_bound t 1000000 t ltac:(lia) ltac:(lia)). lia.
Qed.

Lemma forallb_insert (f : string * json -> bool) m k v :
  forallb f m = true -> f (k, v) = true -> forallb f (Json.insert m k v) = true.
Proof.
  intros Hm Hf. induction m as [|[k1 v1] m IH]; [by cbn; rewrite Hf|]. cbn in Hm. apply andb_true_iff in Hm as [Hx Hm]. cbn [Json.insert].
  case_match; cbn [forallb]; [by rewrite Hf|]. by rewrite Hx, IH.
Qed.

Lemma readable_insert m k v :
  JsonLoads.readable (JObj m) = true -> Utf8.valid k = true -> JsonLoads.readable v = true ->
  JsonLoads.readable (JObj (Json.insert m k v)) = true.
Proof.
  cbn [JsonLoads.readable]. intros Hm Hk Hv. bool_prop. apply andb_true_iff. split.
  - apply bool_decide_eq_true. by apply Json.insert_NoDup.
  - apply forallb_insert; [done|]. cbn [fst snd]. by rewrite Hk, Hv.
Qed.

Lemma with_some_readable k o m : Utf8.valid k = true -> Utf8.valid (default "" o) = true ->
  JsonLoads.readable (JObj m) = true -> JsonLoads.readable (JObj (with_some k o m)) = true.
Proof. intros Hk Ho Hm. destruct o; [|done]. by apply readable_insert. Qed.

Lemma with_amr_readable amr m : Forall (fun s => Utf8.valid s = true) amr ->
  JsonLoads.readable (JObj m) = true -> JsonLoads.readable (JObj (with_amr amr m)) = true.
Proof.
  intros Ha Hm. unfold with_amr. destruct amr as [|a l]; [done|]. apply readable_insert; [done|done|]. by apply of_strings_readable.
Qed.

Lemma access_claims_readable c jti now ttl :
  presentable c now -> Utf8.valid jti = true -> (0 <= ttl < 2 ^ 60)%Z ->
  JsonLoads.readable (JObj (access_token_claims c jti now ttl)) = true.
Proof.
  intros (Hv & _ & Hn) Hj Ht. apply Forall_app in Hv as [Hv Ha].
  assert (JsonLoads.short_number (epoch now) = true /\ JsonLoads.short_number (epoch (now + ttl)) = true) as [E1 E2]
    by (split; apply epoch_bound; lia).
  rewrite !Forall_cons in Hv. destruct Hv as (V1 & V2 & V3 & V4 & V5 & V6 & V7 & _).
  apply with_amr_readable; [done|]. apply with_some_readable; [done|done|].
  cbn [JsonLoads.readable]. apply andb_true_iff. split; [by vm_compute|]. cbn [forallb fst snd JsonLoads.readable].
  rewrite V1, V2, V3, V4, V5, V6, Hj, E1, E2. by vm_compute.
Qed.

(** ** Honouring a token *)

Lemma access_lookups c jti now ttl :
  let claims := access_token_claims c jti now ttl in
  Json.lookup claims "iss" = Some (JStr (tc_issuer c)) /\ Json.lookup claims "aud" = Some (JStr (tc_issuer c)) /\
  Json.lookup claims "iat" = Some (JInt (epoch now)) /\ Json.lookup claims "exp" = Some (JInt (epoch (now + ttl))) /\
  Json.lookup claims "nbf" = None /\ Json.lookup claims "fid" = Some (JStr (tc_family_id c)) /\
  Json.lookup claims "sub" = Some (JStr (tc_subject c)) /\ Json.lookup claims "client_id" = Some (JStr (tc_client_id c)) /\
  Json.lookup claims "sid" = Some (JStr (tc_sid c)) /\
  Json.lookup claims "scope" = Some (JStr (scope_text (tc_scopes c))).
Proof. unfold access_token_claims. destruct (tc_acr c), (tc_amr c); done. Qed.

Context {laws : RsaLaws Priv Pub}.
Context {R : Type} `{RedisLaws R}.

(** Whether a family is marked revoked. *)
Definition family_marked (r : R) (t : moment) (f : string) : bool :=
  match r_view r t (Grants.FAMILY_REVOKED_PREFIX +:+ f) with Some _ => true | None => false end.

Lemma is_family_revoked_run (r : R) t f : (run (Grants.is_family_revoked f) r t).2 = Ok (family_marked r t f).
Proof.
  unfold Grants.is_family_revoked, redis_exists, family_marked. rewrite run_result. cbn.
  by destruct (r_view r t _).
Qed.

Lemma verify_run (token : string) (ks : KeySet) issuer (r : R) t :
  (run (verify (Some token) ks issuer t) r t).2 =
    if String.eqb token "" then Err (OAuthError INVALID_TOKEN GRANT_INVALID)
    else match Jwt.decode token (Jwt.verification_keys ks) issuer (Some issuer) t Jwt.LEEWAY (Some Jwt.TYPE_AT_JWT) with
    | Err _ => Err (OAuthError INVALID_TOKEN GRANT_INVALID)
    | Ok claims =>
        match Json.lookup claims "fid" with
        | Some (JStr family) =>
            if family_marked r t family then Err (OAuthError INVALID_TOKEN GRANT_REVOKED) else Ok claims
        | _ => Err (OAuthError INVALID_TOKEN GRANT_INVALID)
        end
    end.
Proof.
  unfold verify. destruct token as [|a s]; [done|]. cbn [String.eqb].
  destruct (Jwt.decode _ _ _ _ _ _ _) as [claims|]; [|done].
  destruct (Json.lookup claims "fid") as [[]|]; try done. rewrite run_bind. pose proof (is_family_revoked_run r t s0) as E.
  destruct (run (Grants.is_family_revoked s0) r t) as [r' out]. cbn [snd] in E. subst out. by destruct (family_marked r t s0).
Qed.

Lemma encode_nonempty claims key typ : String.eqb (Jwt.encode float_repr isoformat claims key typ) "" = false.
Proof.
  unfold Jwt.encode. destruct (Jwt.segment _ _ _) as [|a s]; rewrite ?Py.app_assoc, ?Py.app_nil_l, ?Py.app_String; done.
Qed.

(** An access token is honoured as the context it was minted from, until it
    expires or its family is revoked, and by nothing it does not say: the subject,
    the client, the session, the family and the scopes read back are the ones it
    was minted with. *)
Theorem access_token_honoured (c : TokenContext) (ks : KeySet) jti minted ttl shown (r : R) t :
  Jwt.coherent (Jwt.published ks) -> Utf8.valid (Jwt.kid (Jwt.active ks)) = true ->
  presentable c minted -> Utf8.valid jti = true -> (0 <= ttl < 2 ^ 60)%Z -> (minted <= t)%Z ->
  let claims := access_token_claims c jti minted ttl in
  (run (verify (Some (access_token c (Jwt.active ks) jti minted ttl).1) ks (tc_issuer c) t) r t).2 =
    (if (epoch (minted + ttl) * SECOND + Jwt.LEEWAY <=? t)%Z then Err (OAuthError INVALID_TOKEN GRANT_INVALID)
     else if family_marked r t (tc_family_id c) then Err (OAuthError INVALID_TOKEN GRANT_REVOKED)
     else Ok claims) /\
  bt_subject shown claims = Ok (tc_subject c) /\ bt_client_id shown claims = Ok (tc_client_id c) /\
  bt_sid shown claims = Ok (tc_sid c) /\ bt_family_id shown claims = Ok (tc_family_id c) /\
  bt_scopes shown claims = tc_scopes c.
Proof.
  intros Hco Hk Hp Hj Httl Hle claims.
  destruct (access_lookups c jti minted ttl) as (L1 & L2 & L3 & L4 & L5 & L6 & L7 & L8 & L9 & L10).
  fold claims in L1, L2, L3, L4, L5, L6, L7, L8, L9, L10. split_and!.
  - rewrite verify_run. cbn [access_token fst]. rewrite encode_nonempty.
    rewrite (Jwt.decode_encoded float_repr isoformat claims); [|by apply access_claims_readable|done|done|by apply Jwt.verification_keys_active].
    rewrite String.eqb_refl. cbn [negb]. unfold Jwt._check_claims. fold claims. rewrite L1, L2, L3, L4, L5.
    cbn [Jwt.is_str Jwt._audience_matches Jwt.numeric]. rewrite !String.eqb_refl. cbn [negb rbind]. unfold Jwt.before. cbn [fst snd].
    rewrite !Z.mul_1_r.
    assert (epoch minted * SECOND <= minted)%Z as Hm.
    { unfold epoch. destruct Hp as (_ & _ & Hb). rewrite Z.quot_div_nonneg by (done || lia). unfold SECOND.
      pose proof (Z.mul_div_le minted 1000000 ltac:(lia)). lia. }
    destruct (Z.ltb_spec (t + Jwt.LEEWAY) (epoch minted * SECOND)); [unfold Jwt.LEEWAY, SECOND in *; lia|].
    destruct (Z.ltb_spec (t - Jwt.LEEWAY) (epoch (minted + ttl) * SECOND)), (Z.leb_spec (epoch (minted + ttl) * SECOND + Jwt.LEEWAY) t);
      try lia; cbn [negb rbind]; [|done]. by rewrite L6.
  - unfold bt_subject. by rewrite L7.
  - unfold bt_client_id. by rewrite L8.
  - unfold bt_sid. by rewrite L9.
  - unfold bt_family_id. by rewrite L6.
  - unfold bt_scopes. rewrite L10. apply scope_text_words. by destruct Hp as (_ & ? & _).
Qed.

(** An ID token or a logout token presented as a bearer credential is refused,
    whichever of our keys signed it and whenever it is presented. *)
Theorem only_access_tokens_are_bearer (c : TokenContext) (key : SigningKey) (ks : KeySet) jti minted ttl issuer (r : R) t :
  Utf8.valid (Jwt.kid key) = true ->
  (run (verify (Some (id_token c key minted ttl)) ks issuer t) r t).2 = Err (OAuthError INVALID_TOKEN GRANT_INVALID) /\
  (run (verify (Some (logout_token c key jti minted ttl)) ks issuer t) r t).2 = Err (OAuthError INVALID_TOKEN GRANT_INVALID).
Proof.
  intros Hk. unfold id_token, logout_token. rewrite !verify_run, !encode_nonempty.
  by rewrite !Jwt.decode_wrong_type by done.
Qed.

Lemma revoked_is_refused (ttl : duration) (f token issuer : string) (ks : KeySet) (r : R) t t' claims :
  (t <= t' < t + ttl_seconds ttl * SECOND)%Z -> Grants.revoked_from ttl r t f ->
  (run (verify (Some token) ks issuer t') r t').2 = Ok claims -> Json.lookup claims "fid" <> Some (JStr f).
Proof.
  intros Ht [v Hv]. rewrite verify_run. intros E Ef.
  destruct (String.eqb token ""); [done|]. destruct (Jwt.decode _ _ _ _ _ _ _) as [cl|]; [|done].
  assert (cl = claims) as -> by (repeat case_match; congruence). rewrite Ef in E.
  assert (family_marked r t' f = true) as Em; [|by rewrite Em in E].
  unfold family_marked. rewrite (view_Some_later _ t t' _ _ _ ltac:(lia) ltac:(apply Ht) Hv). done.
Qed.

(** Revoking a token family ends its access tokens at once: no token that
    names the family is honoured while the revocation is remembered, which
    outlasts every access token already minted. *)
Theorem revocation_reaches_access_tokens (ttl : duration) (f token issuer : string) (ks : KeySet) (r : R) t t' claims :
  (t <= t' < t + ttl_seconds ttl * SECOND)%Z ->
  (run (verify (Some token) ks issuer t') (run (Grants.revoke_family ttl f) r t).1 t').2 = Ok claims ->
  Json.lookup claims "fid" <> Some (JStr f).
Proof. intros Ht. apply (revoked_is_refused ttl _ _ _ _ _ t); [done|]. apply Grants.revoke_family_run. Qed.

End tokens.

(** ** Witnesses *)

Section witnesses.

Definition demo_context : TokenContext := {|
  tc_issuer := "https://op"; tc_client_id := "app"; tc_subject := "pair-1"; tc_sid := "s1"; tc_family_id := "f1";
  tc_scopes := {["openid"; "email"]}; tc_auth_time := 0; tc_nonce := Some "n"; tc_acr := None; tc_amr := ["pwd"];
  tc_claims := [] |}.

Abbreviation demo_access :=
  (access_token Jwt.toy_float Jwt.toy_iso demo_context (Jwt.active Jwt.demo_set) "j1" (100 * SECOND) ACCESS_TOKEN_TTL).1.
Abbreviation demo_claims := (access_token_claims demo_context "j1" (100 * SECOND) ACCESS_TOKEN_TTL).

Lemma demo_presentable : presentable demo_context (100 * SECOND).
Proof.
  split_and!; [by repeat constructor| |by vm_compute|by vm_compute].
  intros w. cbn [tc_scopes demo_context]. rewrite elem_of_union, !elem_of_singleton. by intros [->| ->].
Qed.

Lemma demo_coherent : Jwt.coherent (Jwt.published Jwt.demo_set).
Proof.
  intros x y. let l := eval vm_compute in (Jwt.published Jwt.demo_set) in change (Jwt.published Jwt.demo_set) with l.
  by intros ->%list_elem_of_singleton ->%list_elem_of_singleton.
Qed.

Lemma access_token_honoured_witness :
  (run (R := Store) (verify (Some demo_access) Jwt.demo_set "https://op" (200 * SECOND)) ∅ (200 * SECOND)).2 = Ok demo_claims.
Proof.
  assert (Utf8.valid (Jwt.kid (Jwt.active Jwt.demo_set)) = true) as Hk by (vm_compute; reflexivity).
  assert (0 <= ACCESS_TOKEN_TTL < 2 ^ 60)%Z as Ht by (split; vm_compute; congruence).
  refine (eq_trans (proj1 (access_token_honoured Jwt.toy_float Jwt.toy_iso demo_context Jwt.demo_set "j1" (100 * SECOND)
    ACCESS_TOKEN_TTL (fun _ => "") (∅ : Store) (200 * SECOND) demo_coherent Hk demo_presentable eq_refl Ht _)) _);
    [by vm_compute|by vm_compute].
Defined.

Lemma only_access_tokens_are_bearer_witness :
  (run (R := Store) (verify (Some (id_token Jwt.toy_float Jwt.toy_iso demo_context (Jwt.active Jwt.demo_set) 100 ID_TOKEN_TTL))
     Jwt.demo_set "https://op" 200) ∅ 200).2 = Err (OAuthError INVALID_TOKEN GRANT_INVALID).
Proof.
  assert (Utf8.valid (Jwt.kid (Jwt.active Jwt.demo_set)) = true) as Hk by (vm_compute; reflexivity).
  exact (proj1 (only_access_tokens_are_bearer Jwt.toy_float Jwt.toy_iso demo_context (Jwt.active Jwt.demo_set) Jwt.demo_set
    "j1" 100 ID_TOKEN_TTL "https://op" (∅ : Store) 200 Hk)).
Defined.

(** Another family's token is still honoured after the revocation. *)
Lemma revocation_reaches_access_tokens_witness : Json.lookup demo_claims "fid" <> Some (JStr "f2").
Proof.
  assert ((run (R := Store) (verify (Some demo_access) Jwt.demo_set "https://op" (200 * SECOND))
    (run (Grants.revoke_family Grants.REFRESH_TTL "f2") (∅ : Store) (150 * SECOND)).1 (200 * SECOND)).2 = Ok demo_claims) as E
    by (vm_compute; reflexivity).
  assert (150 * SECOND <= 200 * SECOND < 150 * SECOND + ttl_seconds Grants.REFRESH_TTL * SECOND)%Z as Ht
    by (split; vm_compute; congruence).
  exact (revocation_reaches_access_tokens Grants.REFRESH_TTL "f2" demo_access "https://op" Jwt.demo_set (∅ : Store)
    (150 * SECOND) (200 * SECOND) demo_claims Ht E).
Defined.

End witnesses.

End Tokens.
