(* ===== verification/Clients.v ===== *)
(** * Registered clients and PKCE

    [campusid/oidc/pkce.py], [clients.py], [registry.py] and [models.py]: what a
    relying party may ask for, how it proves itself, and the table of
    registrations.  SHA-256 is a parameter; a comparison in constant time is a
    comparison. *)

From S2P Require Import Prelude PyStr Dict Base64 Json JsonText JsonLoads Errors Url Attributes Release.

Module Pkce.

Definition S256 := "S256".
Definition MIN_VERIFIER_LENGTH : nat := 43.
Definition MAX_VERIFIER_LENGTH : nat := 128.

Definition invalid_request (reason : ReasonCode) : exn := OAuthError INVALID_REQUEST reason.

(** [s] without one final newline: [$] matches before it. *)
Definition newline : ascii := ascii_of_nat 10.
Definition before_newline (s : string) : string :=
  match Py.rpartition newline s with
  | (Some body, "") => body
  | _ => s
  end.

(** [_VERIFIER_CHARSET.match(s)]: the unreserved characters. *)
Definition _VERIFIER_CHARSET (s : string) : bool :=
  let body := before_newline s in negb (String.eqb body "") && Py.sforall Url.unreserved body.

Definition assert_supported_method (method : option string) : result exn unit :=
  match method with
  | Some m => if String.eqb m S256 then Ok tt else Err (invalid_request PKCE_METHOD_UNSUPPORTED)
  | None => Err (invalid_request PKCE_METHOD_UNSUPPORTED)
  end.

Definition assert_valid_challenge (challenge : option string) : result exn unit :=
  match challenge with
  | None | Some "" => Err (invalid_request PKCE_REQUIRED)
  | Some c =>
      raise* invalid_request PKCE_REQUIRED when
        negb (Nat.eqb (String.length c) MIN_VERIFIER_LENGTH) || negb (_VERIFIER_CHARSET c);
      Ok tt
  end.

Section pkce.
Context (sha256 : string -> string).

Definition compute_challenge (verifier : string) : string := Base64.b64url (sha256 verifier).

(** [compare_digest] of two [str] refuses text that is not ASCII. *)
Definition verify (verifier : option string) (challenge : string) : result exn unit :=
  let refused := OAuthError INVALID_GRANT PKCE_VERIFICATION_FAILED in
  match verifier with
  | None => Err refused
  | Some v =>
      raise* refused when
        negb ((MIN_VERIFIER_LENGTH <=? String.length v)%nat && (String.length v <=? MAX_VERIFIER_LENGTH)%nat);
      raise* refused when negb (_VERIFIER_CHARSET v);
      raise* TypeError when negb (Py.is_ascii challenge);
      raise* refused when negb (String.eqb (compute_challenge v) challenge);
      Ok tt
  end.

Lemma url_char_unreserved c : Base64.url_char c = true -> Url.unreserved c = true.
Proof. by destruct c as [[] [] [] [] [] [] [] []]. Qed.

Lemma rpartition_none c s : Py.has_char c s = false -> Py.rpartition c s = (None, s).
Proof.
  intros Hn. unfold Py.rpartition. pose proof (Py.partition_spec c (Py.srev s)) as P.
  destruct (Py.partition c (Py.srev s)) as [p [r|]].
  - exfalso. destruct P as [E _]. pose proof (Py.has_char_srev c s) as Hr. rewrite E, Py.has_char_app, Hn in Hr.
    unfold Py.has_char in Hr at 2. cbn in Hr. rewrite Ascii.eqb_refl in Hr. cbn in Hr. by rewrite orb_true_r in Hr.
  - destruct P as [E _]. cbn. by rewrite <-E, Py.srev_srev.
Qed.

Lemma unreserved_charset s : s <> "" -> Py.sforall Url.unreserved s = true -> _VERIFIER_CHARSET s = true.
Proof.
  intros Hne Hs. unfold _VERIFIER_CHARSET, before_newline.
  rewrite rpartition_none by (by eapply Base64.sforall_has_char). rewrite Hs. by destruct s.
Qed.

(** PKCE binds a code to whoever knows the verifier.  The challenge of a
    well-formed verifier is accepted at the authorization endpoint and by nothing
    but a verifier of the same SHA-256 digest at the token endpoint, where the
    verifier itself is accepted. *)
Theorem pkce_binds v v' (digest_length : forall m, String.length (sha256 m) = 32%nat) :
  (MIN_VERIFIER_LENGTH <= String.length v <= MAX_VERIFIER_LENGTH)%nat -> Py.sforall Url.unreserved v = true ->
  assert_valid_challenge (Some (compute_challenge v)) = Ok tt /\
  verify (Some v) (compute_challenge v) = Ok tt /\
  (verify (Some v') (compute_challenge v) = Ok tt -> sha256 v' = sha256 v).
Proof.
  intros Hlen Hv. pose proof (Base64.b64url_length (sha256 v)) as HL. rewrite digest_length in HL.
  pose proof (Base64.sforall_mono _ _ _ url_char_unreserved (Base64.b64url_chars (sha256 v))) as Hc.
  assert (String.length (compute_challenge v) = 43%nat) as H43 by (unfold compute_challenge; lia).
  assert (Py.is_ascii (compute_challenge v) = true) as Ha.
  { eapply Base64.sforall_mono; [|apply Base64.b64url_chars]. by intros [[] [] [] [] [] [] [] []]. }
  split_and!.
  - unfold assert_valid_challenge. rewrite H43, unreserved_charset; [|by intros E; rewrite E in H43|exact Hc].
    by destruct (compute_challenge v).
  - unfold verify. rewrite unreserved_charset, Ha, String.eqb_refl; [|intros ->; cbn in Hlen; unfold MIN_VERIFIER_LENGTH in Hlen; lia|done].
    by destruct (Nat.leb_spec MIN_VERIFIER_LENGTH (String.length v)), (Nat.leb_spec (String.length v) MAX_VERIFIER_LENGTH); try lia.
  - unfold verify. destruct (negb (_ && _)); [done|]. destruct (negb (_VERIFIER_CHARSET v')); [done|]. rewrite Ha. cbn [negb].
    destruct (String.eqb_spec (compute_challenge v') (compute_challenge v)) as [E|]; [|done]. intros _.
    by apply Release.b64url_inj.
Qed.
End pkce.

(** A challenge whose last character is a newline passes the check on its
    characters: [$] also matches before a final newline. *)
Theorem newline_challenge_is_valid (body : string) :
  String.length body = 42%nat -> Py.sforall Url.unreserved body = true ->
  assert_valid_challenge (Some (body +:+ String newline "")) = Ok tt.
Proof.
  intros Hl Hb. unfold assert_valid_challenge. destruct body as [|a s]; [done|]. rewrite Py.app_String, <-Py.app_String.
  rewrite Py.length_app, Hl. cbn [Nat.add String.length].
  unfold _VERIFIER_CHARSET, before_newline. rewrite Py.rpartition_app by done. by rewrite Hb.
Qed.

Lemma pkce_binds_witness :
  let sha := fun _ => Py.repeat_str 32 "x" in let v := Py.repeat_str 43 "v" in
  verify sha (Some v) (compute_challenge sha v) = Ok tt.
Proof.
  intros sha v. assert (forall m, String.length (sha m) = 32%nat) as Hd by done.
  assert (MIN_VERIFIER_LENGTH <= String.length v <= MAX_VERIFIER_LENGTH)%nat as Hl by (vm_compute; lia).
  assert (Py.sforall Url.unreserved v = true) as Hv by (vm_compute; reflexivity).
  exact (proj1 (proj2 (pkce_binds sha v v Hd Hl Hv))).
Defined.

Lemma newline_challenge_is_valid_witness :
  assert_valid_challenge (Some (Py.repeat_str 42 "c" +:+ String newline "")) = Ok tt.
Proof. apply (newline_challenge_is_valid (Py.repeat_str 42 "c")); reflexivity. Defined.

End Pkce.

Module Clients.

Definition LOOPBACK_HOSTS : list string := ["127.0.0.1"; "[::1]"].
Definition MIN_SECRET_LENGTH : nat := 32.

Inductive ClientType : Type := CONFIDENTIAL | PUBLIC | NATIVE.
#[global] Instance ClientType_eq_dec : EqDecision ClientType.
Proof. solve_decision. Defined.

Record OidcClient : Type := {
  client_id : string;
  client_type : ClientType;
  redirect_uris : list string;
  allowed_scopes : gset string;
  secret_hash : option string;
  display_name : option string;
  require_par : bool;
  backchannel_logout_uri : option string;
  post_logout_redirect_uris : list string;
}.

(** [if x] of an optional string, and its length in characters. *)
Definition given (o : option string) : bool := match o with Some s => negb (String.eqb s "") | None => false end.
Definition chars (s : string) : nat := match Utf8.decode s with Some l => length l | None => String.length s end.

Definition _bracketed (host : string) : string := if Py.has_char ":" host then "[" +:+ host +:+ "]" else host.

Definition host_of (u : Url.SplitResult) : string := _bracketed (default "" (Url.hostname u)).

Definition scope_error : exn := OAuthError INVALID_SCOPE SCOPE_NOT_PERMITTED.
Definition uri_error : exn := OAuthError INVALID_REQUEST REDIRECT_URI_MISMATCH.
Definition client_error : exn := OAuthError INVALID_CLIENT CLIENT_AUTHENTICATION_FAILED.

Definition asked_for (requested : option string) : gset string := list_to_set (Py.words (default "" requested)).
Definition machine : gset string := list_to_set Release.MACHINE_SCOPES.

Section clients.
Context (netloc_ok : string -> bool) (sha256_hex : string -> string).

Definition split (u : string) : result exn Url.SplitResult :=
  match Url.urlsplit netloc_ok u with Some p => Ok p | None => Err ValueError end.

Definition _assert_registrable (uri : string) (ty : ClientType) : result exn unit :=
  let* p := split uri in
  raise* ValueError when String.eqb (Url.scheme p) "";
  raise* ValueError when bool_decide (Url.scheme p ∈ ["http"; "https"]) && String.eqb (Url.netloc p) "";
  raise* ValueError when negb (String.eqb (Url.fragment p) "");
  if String.eqb (Url.scheme p) "https" then Ok tt
  else if String.eqb (Url.scheme p) "http" then
    if bool_decide (ty = NATIVE) && bool_decide (host_of p ∈ LOOPBACK_HOSTS) then Ok tt else Err ValueError
  else if bool_decide (ty = NATIVE) then Ok tt else Err ValueError.

Fixpoint each (uris : list string) (ty : ClientType) : result exn unit :=
  match uris with
  | [] => Ok tt
  | uri :: uris' => let* _ := _assert_registrable uri ty in each uris' ty
  end.

Definition __post_init__ (c : OidcClient) : result exn unit :=
  raise* ValueError when bool_decide (redirect_uris c = []);
  let* _ := each (redirect_uris c) (client_type c) in
  raise* ValueError when bool_decide (client_type c = CONFIDENTIAL) && negb (given (secret_hash c));
  raise* ValueError when negb (bool_decide (client_type c = CONFIDENTIAL)) && given (secret_hash c);
  raise* ValueError when negb (bool_decide (Release.SCOPE_OPENID ∈ allowed_scopes c));
  Ok tt.

(** [any(...)] over the registered URIs, split one at a time. *)
Fixpoint any_matches (host : string) (parsed : Url.SplitResult) (uris : list string) : result exn bool :=
  match uris with
  | [] => Ok false
  | uri :: uris' =>
      let* registered := split uri in
      if String.eqb (Url.scheme registered) "http" && String.eqb (host_of registered) host &&
         String.eqb (Url.path registered) (Url.path parsed) && String.eqb (Url.query registered) (Url.query parsed)
      then Ok true else any_matches host parsed uris'
  end.

Definition _matches_loopback (c : OidcClient) (candidate : string) : result exn bool :=
  let* parsed := split candidate in
  if negb (String.eqb (Url.scheme parsed) "http") || negb (String.eqb (Url.fragment parsed) "") then Ok false
  else
    let host := host_of parsed in
    if negb (bool_decide (host ∈ LOOPBACK_HOSTS)) then Ok false else any_matches host parsed (redirect_uris c).

Definition validated_redirect_uri (c : OidcClient) (candidate : option string) : result exn string :=
  match candidate with
  | None | Some "" => Err uri_error
  | Some uri =>
      if bool_decide (uri ∈ redirect_uris c) then Ok uri
      else if bool_decide (client_type c = NATIVE) then
        let* ok := _matches_loopback c uri in if ok then Ok uri else Err uri_error
      else Err uri_error
  end.

Definition hash_secret (secret : string) : string := sha256_hex secret.

Definition authenticate (c : OidcClient) (secret : option string) : result exn unit :=
  raise* client_error when negb (bool_decide (client_type c = CONFIDENTIAL));
  match secret with
  | None => Err client_error
  | Some s => raise* client_error when negb (String.eqb (hash_secret s) (default "" (secret_hash c))); Ok tt
  end.

Definition granted_scopes (c : OidcClient) (requested : option string) : result exn (gset string) :=
  let asked := asked_for requested in
  raise* scope_error when negb (bool_decide (Release.SCOPE_OPENID ∈ asked));
  raise* scope_error when negb (bool_decide (asked ∩ machine = ∅));
  raise* scope_error when negb (bool_decide (asked ∖ allowed_scopes c = ∅));
  Ok asked.

Definition machine_scopes (c : OidcClient) (requested : option string) : result exn (gset string) :=
  let available := allowed_scopes c ∩ machine in
  raise* scope_error when bool_decide (available = ∅);
  let asked := asked_for requested in
  if bool_decide (asked = ∅) then Ok available
  else
    raise* scope_error when bool_decide (Release.SCOPE_OPENID ∈ asked);
    raise* scope_error when negb (bool_decide (asked ∖ available = ∅));
    Ok asked.

(** ** The registry *)

Record OidcClientRecord : Type := { row : OidcClient; enabled : bool }.

Definition named (id : string) (r : OidcClientRecord) : bool := String.eqb (client_id (row r)) id.

Definition _from_record (r : OidcClientRecord) : result exn OidcClient :=
  let* _ := __post_init__ (row r) in Ok (row r).

Definition _to_record (c : OidcClient) : OidcClientRecord := {| row := c; enabled := true |}.

(** A registration without a secret keeps the stored hash. *)
Definition _update_record (r : OidcClientRecord) (c : OidcClient) : OidcClientRecord := {|
  row := {| client_id := client_id (row r); client_type := client_type c; redirect_uris := redirect_uris c;
            allowed_scopes := allowed_scopes c;
            secret_hash := match secret_hash c with Some h => Some h | None => secret_hash (row r) end;
            display_name := display_name c; require_par := require_par c;
            backchannel_logout_uri := backchannel_logout_uri c;
            post_logout_redirect_uris := post_logout_redirect_uris c |};
  enabled := enabled r |}.

(** The transaction: an existing row is updated, a new one added. *)
Definition _store (tbl : list OidcClientRecord) (client : OidcClient) : list OidcClientRecord :=
  if existsb (named (client_id client)) tbl
  then (fun r => if named (client_id client) r then _update_record r client else r) <$> tbl
  else tbl ++ [_to_record client].

(** [c] is what was asked for; its [secret_hash] is computed here.  [fresh] is
    what [generate_secret] would draw. *)
Definition register (tbl : list OidcClientRecord) (c : OidcClient) (secret : option string) (fresh : string) :
    list OidcClientRecord * result exn (OidcClient * option string) :=
  let checked : result exn (option string) :=
    raise* ValueError when negb (bool_decide (allowed_scopes c ⊆ list_to_set Release.SUPPORTED_SCOPES));
    if bool_decide (client_type c = CONFIDENTIAL) then
      let s := if given secret then default "" secret else fresh in
      raise* ValueError when (chars s <? MIN_SECRET_LENGTH)%nat; Ok (Some s)
    else raise* ValueError when match secret with Some _ => true | None => false end; Ok None in
  match checked with
  | Err e => (tbl, Err e)
  | Ok secret =>
      let client := {| client_id := client_id c; client_type := client_type c; redirect_uris := redirect_uris c;
        allowed_scopes := allowed_scopes c;
        secret_hash := if given secret then hash_secret <$> secret else None; display_name := display_name c;
        require_par := require_par c; backchannel_logout_uri := backchannel_logout_uri c;
        post_logout_redirect_uris := post_logout_redirect_uris c |} in
      match __post_init__ client with
      | Err e => (tbl, Err e)
      | Ok _ => (_store tbl client, Ok (client, secret))
      end
  end.

Definition get (tbl : list OidcClientRecord) (id : string) : result exn (option OidcClient) :=
  match List.find (fun r => named id r && enabled r) tbl with
  | None => Ok None
  | Some r => let* c := _from_record r in Ok (Some c)
  end.

Definition unknown_client : exn := OAuthError INVALID_CLIENT UNKNOWN_CLIENT.

Definition require (tbl : list OidcClientRecord) (id : option string) : result exn OidcClient :=
  match id with
  | None | Some "" => Err unknown_client
  | Some id => let* found := get tbl id in match found with Some c => Ok c | None => Err unknown_client end
  end.

Definition by_client_id (r1 r2 : OidcClientRecord) : bool := String.leb (client_id (row r1)) (client_id (row r2)).

Definition list_clients (tbl : list OidcClientRecord) : result exn (list OidcClient) :=
  rmap _from_record (Sort.sort by_client_id tbl).

Definition set_enabled (tbl : list OidcClientRecord) (id : string) (on : bool) : list OidcClientRecord * result exn unit :=
  if existsb (named id) tbl
  then ((fun r => if named id r then {| row := row r; enabled := on |} else r) <$> tbl, Ok tt)
  else (tbl, Err unknown_client).

(** ** Where a code may go *)

(** A registered URI, verbatim, or for a native client a loopback URL that
    differs from a registered one in what [_matches_loopback] does not compare. *)
Definition registered (c : OidcClient) (uri : string) : Prop :=
  uri ∈ redirect_uris c \/
  client_type c = NATIVE /\ exists reg p q, reg ∈ redirect_uris c /\
    Url.urlsplit netloc_ok uri = Some p /\ Url.urlsplit netloc_ok reg = Some q /\
    Url.scheme p = "http" /\ Url.scheme q = "http" /\ host_of p = host_of q /\
    Url.path p = Url.path q /\ Url.query p = Url.query q.

(** No fragment, and not over plain [http] to anything but the loopback. *)
Definition confidential_to (ty : ClientType) (p : Url.SplitResult) : Prop :=
  Url.fragment p = "" /\
  (Url.scheme p = "https" \/ ty = NATIVE /\ (Url.scheme p <> "http" \/ host_of p ∈ LOOPBACK_HOSTS)).

Lemma split_ok u p : split u = Ok p <-> Url.urlsplit netloc_ok u = Some p.
Proof. unfold split. destruct (Url.urlsplit netloc_ok u); split; congruence. Qed.

Lemma registrable uri ty : _assert_registrable uri ty = Ok tt ->
  exists p, Url.urlsplit netloc_ok uri = Some p /\ confidential_to ty p.
Proof.
  unfold _assert_registrable. destruct (split uri) as [p|] eqn:E; [|done]. apply split_ok in E. cbn [rbind].
  destruct (String.eqb (Url.scheme p) ""); [done|]. destruct (bool_decide _ && _); [done|].
  destruct (String.eqb_spec (Url.fragment p) ""); [|done]. cbn [negb]. intros H. exists p. split; [done|]. split; [done|].
  destruct (String.eqb_spec (Url.scheme p) "https"); [by left|right].
  destruct (String.eqb_spec (Url.scheme p) "http").
  - destruct (bool_decide (ty = NATIVE)) eqn:En; [|done]. destruct (bool_decide (host_of p ∈ LOOPBACK_HOSTS)) eqn:Eh; [|done].
    bool_prop. split; [done|by right].
  - destruct (bool_decide (ty = NATIVE)) eqn:En; [|done]. bool_prop. split; [done|by left].
Qed.

Lemma each_ok uris ty uri : each uris ty = Ok tt -> uri ∈ uris -> _assert_registrable uri ty = Ok tt.
Proof.
  induction uris as [|u uris IH]; [by intros _ ?%elem_of_nil|]. cbn [each].
  destruct (_assert_registrable u ty) as [[]|] eqn:E; [|done]. intros H [->|Hin]%elem_of_cons; [done|by apply IH].
Qed.

Lemma post_init_uris c : __post_init__ c = Ok tt -> each (redirect_uris c) (client_type c) = Ok tt.
Proof.
  unfold __post_init__. destruct (bool_decide (redirect_uris c = [])); [done|].
  by destruct (each _ _) as [[]|].
Qed.

Lemma any_matches_ok host parsed uris : any_matches host parsed uris = Ok true ->
  exists reg q, reg ∈ uris /\ Url.urlsplit netloc_ok reg = Some q /\ Url.scheme q = "http" /\ host_of q = host /\
    Url.path q = Url.path parsed /\ Url.query q = Url.query parsed.
Proof.
  induction uris as [|u uris IH]; [done|]. cbn [any_matches]. destruct (split u) as [q|] eqn:E; [|done]. cbn [rbind].
  destruct (_ && _) eqn:B; [intros _; bool_prop|].
  - exists u, q. apply split_ok in E. split_and!; try done. left.
  - intros (reg & q' & Hin & Hq)%IH. exists reg, q'. split; [by right|done].
Qed.

(** An authorization response goes only where a registration says: to a
    registered URI, verbatim, or for a native client to a loopback URL whose
    scheme, host, path and query are those of a registered one; and never in
    clear text off the machine. *)
Theorem redirect_is_registered (c : OidcClient) (candidate : option string) (uri : string) :
  __post_init__ c = Ok tt -> validated_redirect_uri c candidate = Ok uri ->
  candidate = Some uri /\ registered c uri /\
  exists p, Url.urlsplit netloc_ok uri = Some p /\ confidential_to (client_type c) p.
Proof.
  intros Hp%post_init_uris. unfold validated_redirect_uri. destruct candidate as [[|a cand]|]; [done| |done].
  set (u := String a cand). destruct (bool_decide (u ∈ redirect_uris c)) eqn:Ein.
  - intros [= <-]. bool_prop. split_and!; [done|by left|]. by eapply registrable, each_ok.
  - destruct (bool_decide (client_type c = NATIVE)) eqn:En; [|done]. bool_prop. unfold _matches_loopback.
    destruct (split u) as [p|] eqn:E; [|done]. apply split_ok in E. cbn [rbind].
    destruct (String.eqb_spec (Url.scheme p) "http") as [Es|]; [|done].
    destruct (String.eqb_spec (Url.fragment p) "") as [Ef|]; [|done]. cbn [negb orb].
    destruct (bool_decide (host_of p ∈ LOOPBACK_HOSTS)) eqn:Eh; [|done]. cbn [negb]. bool_prop.
    destruct (any_matches _ _ _) as [[]|] eqn:Ea; [|done..]. cbn [rbind]. intros [= <-].
    apply any_matches_ok in Ea as (reg & q & Hin & Hq & H1 & H2 & H3 & H4). split_and!; [done| |].
    + right. split; [done|]. by exists reg, p, q.
    + exists p. split; [done|]. split; [done|]. right. split; [done|by right].
Qed.

(** No scope is available to both flows.  A browser flow is granted what it
    asked for, [openid] included, within the registration and without a machine
    scope; the client-credentials grant gets machine scopes of the registration
    only, and at least one. *)
Theorem scopes_keep_flows_apart (c : OidcClient) (browser service : option string) (b m : gset string) :
  granted_scopes c browser = Ok b -> machine_scopes c service = Ok m ->
  b = asked_for browser /\ Release.SCOPE_OPENID ∈ b /\ b ⊆ allowed_scopes c /\ b ## machine /\
  m ≠ ∅ /\ m ⊆ allowed_scopes c /\ m ⊆ machine /\ Release.SCOPE_OPENID ∉ m /\ b ## m.
Proof.
  clear netloc_ok sha256_hex. unfold granted_scopes, machine_scopes.
  destruct (bool_decide (Release.SCOPE_OPENID ∈ asked_for browser)) eqn:E1; [|done].
  destruct (bool_decide (asked_for browser ∩ machine = ∅)) eqn:E2; [|done].
  destruct (bool_decide (asked_for browser ∖ allowed_scopes c = ∅)) eqn:E3; [|done]. cbn [negb]. intros [= <-].
  destruct (bool_decide (allowed_scopes c ∩ machine = ∅)) eqn:E4; [done|].
  assert (Release.SCOPE_OPENID ∉ machine) as Hm by (unfold machine, Release.MACHINE_SCOPES; set_solver).
  bool_prop. destruct (bool_decide (asked_for service = ∅)) eqn:E5.
  - intros [= <-]. bool_prop. split_and!; try done; set_solver.
  - destruct (bool_decide (Release.SCOPE_OPENID ∈ asked_for service)) eqn:E6; [done|].
    destruct (bool_decide (asked_for service ∖ (allowed_scopes c ∩ machine) = ∅)) eqn:E7; [|done]. cbn [negb].
    intros [= <-]. bool_prop.
    assert (asked_for service ⊆ allowed_scopes c ∩ machine) as Hs.
    { intros x Hx. destruct (decide (x ∈ allowed_scopes c ∩ machine)); [done|]. set_solver. }
    assert (asked_for browser ⊆ allowed_scopes c) as Hb.
    { intros x Hx. destruct (decide (x ∈ allowed_scopes c)); [done|]. set_solver. }
    split_and!; try done; set_solver.
Qed.

(** ** The registry *)

Lemma find_updated id f tbl :
  (forall r, named id r = true -> named id (f r) = true /\ enabled (f r) = enabled r) ->
  List.find (fun r => named id r && enabled r) ((fun r => if named id r then f r else r) <$> tbl) =
    f <$> List.find (fun r => named id r && enabled r) tbl.
Proof.
  intros Hf. induction tbl as [|r tbl IH]; [done|]. rewrite fmap_cons. cbn [List.find].
  destruct (named id r) eqn:En.
  - destruct (Hf r En) as [-> ->]. cbn [andb]. by destruct (enabled r); [|exact IH].
  - rewrite En. cbn [andb]. exact IH.
Qed.

Lemma update_named id r c : named id r = true -> named id (_update_record r c) = true /\ enabled (_update_record r c) = enabled r.
Proof. done. Qed.

Lemma find_exists id tbl r : List.find (fun r => named id r && enabled r) tbl = Some r ->
  existsb (named id) tbl = true /\ named id r = true /\ enabled r = true.
Proof.
  intros H. apply List.find_some in H as [Hin H]. apply andb_true_iff in H as [Hn He].
  split; [|done]. apply existsb_exists. by exists r.
Qed.

Lemma require_found tbl id c : require tbl id = Ok c ->
  exists r, r ∈ tbl /\ id = Some (client_id c) /\ enabled r = true /\ row r = c /\ __post_init__ c = Ok tt.
Proof.
  unfold require, get. destruct id as [[|a s]|]; [done| |done]. destruct (List.find _ tbl) as [r|] eqn:E; [|done].
  apply List.find_some in E as [Hin [Hn He]%andb_true_iff]. unfold _from_record.
  destruct (__post_init__ (row r)) as [[]|] eqn:Ep; [|done]. cbn [rbind]. intros [= <-]. exists r.
  apply String.eqb_eq in Hn. split_and!; try done; [by apply list_elem_of_In|by rewrite Hn].
Qed.

Lemma get_found tbl id c : get tbl id = Ok (Some c) ->
  exists r, List.find (fun r => named id r && enabled r) tbl = Some r /\ row r = c /\ __post_init__ c = Ok tt.
Proof.
  unfold get, _from_record. destruct (List.find _ _) as [r|]; [|done].
  destruct (__post_init__ (row r)) as [[]|] eqn:E; [|done]. cbn [rbind]. intros [= <-]. by exists r.
Qed.

(** What [register] stores for a confidential client that brings no secret. *)
Definition with_secret (c : OidcClient) (h : option string) : OidcClient := {|
  client_id := client_id c; client_type := client_type c; redirect_uris := redirect_uris c;
  allowed_scopes := allowed_scopes c; secret_hash := h; display_name := display_name c;
  require_par := require_par c; backchannel_logout_uri := backchannel_logout_uri c;
  post_logout_redirect_uris := post_logout_redirect_uris c |}.

Lemma register_confidential tbl c fresh out :
  client_type c = CONFIDENTIAL -> register tbl c None fresh = out -> is_ok out.2 = true ->
  given (Some fresh) = true /\ __post_init__ (with_secret c (Some (sha256_hex fresh))) = Ok tt /\
  out = (_store tbl (with_secret c (Some (sha256_hex fresh))), Ok (with_secret c (Some (sha256_hex fresh)), Some fresh)).
Proof.
  intros Ht <-. unfold register. rewrite Ht, (bool_decide_true (CONFIDENTIAL = CONFIDENTIAL)) by done. cbn [given].
  destruct (negb (bool_decide (allowed_scopes c ⊆ _))); [done|].
  destruct (chars fresh <? MIN_SECRET_LENGTH)%nat eqn:El; [done|].
  assert (given (Some fresh) = true) as Hg.
  { cbn. destruct (String.eqb_spec fresh ""); [subst; by vm_compute in El|done]. }
  rewrite Hg. rewrite <-Ht. fold (with_secret c (Some (sha256_hex fresh))).
  change (hash_secret <$> Some fresh) with (Some (sha256_hex fresh)). fold (with_secret c (Some (sha256_hex fresh))).
  destruct (__post_init__ _) as [[]|] eqn:E; [|done]. done.
Qed.

(** Registering a confidential client again without a secret replaces its
    secret: the stored one stops working and a generated one takes its place,
    although an update without a hash was meant to keep the stored hash. *)
Theorem reregistration_rotates_secret tbl c fresh old secret :
  client_type c = CONFIDENTIAL -> get tbl (client_id c) = Ok (Some old) ->
  authenticate old (Some secret) = Ok tt -> sha256_hex secret <> sha256_hex fresh ->
  is_ok (register tbl c None fresh).2 = true ->
  exists now, get (register tbl c None fresh).1 (client_id c) = Ok (Some now) /\
    authenticate now (Some secret) = Err client_error /\ authenticate now (Some fresh) = Ok tt.
Proof.
  intros Ht Hget _ Hne Hok. destruct (register_confidential tbl c fresh _ Ht eq_refl Hok) as (_ & Hp & ->).
  destruct (get_found _ _ _ Hget) as (r & Hr & _ & _). destruct (find_exists _ _ _ Hr) as (Hex & Hn & He). cbn [fst].
  unfold _store. rewrite (Hex : existsb (named (client_id (with_secret c _))) tbl = true).
  set (new := with_secret c (Some (sha256_hex fresh))) in *. exists new.
  assert (row (_update_record r new) = new) as Er.
  { unfold named in Hn. apply String.eqb_eq in Hn. unfold _update_record, new, with_secret. cbn. by rewrite Hn. }
  split_and!.
  - unfold get. change (client_id new) with (client_id c).
    rewrite find_updated by (intros; by apply update_named). rewrite Hr.
    cbn [fmap option_fmap option_map]. unfold _from_record. by rewrite Er, Hp.
  - unfold authenticate, new. cbn [client_type with_secret secret_hash default]. rewrite Ht, (bool_decide_true (CONFIDENTIAL = CONFIDENTIAL)) by done. cbn [negb].
    unfold hash_secret. destruct (String.eqb_spec (sha256_hex secret) (id (sha256_hex fresh))); done.
  - unfold authenticate, new. cbn [client_type with_secret secret_hash default]. rewrite Ht, (bool_decide_true (CONFIDENTIAL = CONFIDENTIAL)) by done. cbn [negb].
    unfold hash_secret. change (id (sha256_hex fresh)) with (sha256_hex fresh). by rewrite String.eqb_refl.
Qed.

(** A confidential client registered again as a public one is accepted, and
    from then on every read of it raises: the row keeps a secret hash that a
    public client may not hold. *)
Theorem retyped_client_unreadable tbl c fresh old :
  client_type c <> CONFIDENTIAL -> client_type old = CONFIDENTIAL ->
  get tbl (client_id c) = Ok (Some old) -> is_ok (register tbl c None fresh).2 = true ->
  get (register tbl c None fresh).1 (client_id c) = Err ValueError.
Proof.
  intros Ht Hold Hget. destruct (get_found _ _ _ Hget) as (r & Hr & Erow & Hp).
  destruct (find_exists _ _ _ Hr) as (Hex & Hn & _). unfold register. rewrite (bool_decide_false _ Ht).
  destruct (negb (bool_decide (allowed_scopes c ⊆ _))); [done|]. cbn [given]. fold (with_secret c None).
  destruct (__post_init__ (with_secret c None)) as [[]|] eqn:E; [|done]. intros _. cbn [fst]. unfold _store.
  rewrite (Hex : existsb (named (client_id (with_secret c None))) tbl = true).
  unfold get. change (client_id (with_secret c None)) with (client_id c).
  rewrite find_updated by (intros; by apply update_named). rewrite Hr. cbn [fmap option_fmap option_map].
  unfold _from_record, __post_init__ in *. cbn [row _update_record redirect_uris with_secret client_type secret_hash allowed_scopes] in *.
  rewrite Erow. destruct (bool_decide (redirect_uris c = [])); [done|].
  destruct (each (redirect_uris c) (client_type c)) as [[]|]; [|done]. cbn [rbind]. rewrite (bool_decide_false _ Ht). cbn [andb negb].
  destruct (bool_decide (redirect_uris old = [])); [done|]. destruct (each (redirect_uris old) (client_type old)) as [[]|]; [|done].
  cbn [rbind] in Hp. rewrite Hold, (bool_decide_true (CONFIDENTIAL = CONFIDENTIAL)) in Hp by done. cbn [andb] in Hp. by destruct (given (secret_hash old)).
Qed.

Definition register_all (tbl : list OidcClientRecord) (l : list (OidcClient * option string * string)) : list OidcClientRecord :=
  fold_left (fun t r => (register t r.1.1 r.1.2 r.2).1) l tbl.

Definition off (id : string) (tbl : list OidcClientRecord) : Prop :=
  (exists r, r ∈ tbl /\ named id r = true) /\ forall r, r ∈ tbl -> named id r = true -> enabled r = false.

Lemma exists_named id tbl : existsb (named id) tbl = true <-> exists r, r ∈ tbl /\ named id r = true.
Proof. rewrite existsb_exists. by setoid_rewrite list_elem_of_In. Qed.

Lemma off_unknown id tbl : off id tbl -> id <> "" -> require tbl (Some id) = Err unknown_client.
Proof.
  intros [_ Hoff] Hne. unfold require. destruct id as [|a s]; [done|]. unfold get.
  destruct (List.find _ tbl) as [r|] eqn:E; [|done].
  apply List.find_some in E as [Hin E]. apply list_elem_of_In in Hin. bool_prop. by rewrite (Hoff r Hin) in H0.
Qed.

Lemma store_off id tbl client : off id tbl -> off id (_store tbl client).
Proof.
  intros [(r0 & Hin0 & Hn0) Hoff]. unfold _store. destruct (existsb _ _) eqn:Ex.
  - split.
    + exists (if named (client_id client) r0 then _update_record r0 client else r0). split; [apply list_elem_of_fmap; by exists r0|].
      by destruct (named (client_id client) r0).
    + intros r (r1 & -> & Hin)%list_elem_of_fmap. destruct (named (client_id client) r1); intros Hn; by apply (Hoff r1).
  - split; [exists r0; split; [apply elem_of_app; by left|done]|].
    intros r [Hin| ->%list_elem_of_singleton]%elem_of_app Hn; [by apply Hoff|]. exfalso.
    unfold named, _to_record in Hn. cbn [row] in Hn. apply String.eqb_eq in Hn as <-.
    apply not_true_iff_false in Ex. apply Ex, exists_named. by exists r0.
Qed.

Lemma register_store tbl c s f : (register tbl c s f).1 = tbl \/ exists client, (register tbl c s f).1 = _store tbl client.
Proof.
  unfold register. case_match; [|by left]. destruct (__post_init__ _); [right; by eexists|by left].
Qed.

(** A disabled client stays unknown to every flow, however often it and
    others are registered again, until it is enabled. *)
Theorem disabled_client_stays_unknown tbl id l :
  id <> "" -> (set_enabled tbl id false).2 = Ok tt ->
  require (register_all (set_enabled tbl id false).1 l) (Some id) = Err unknown_client.
Proof.
  intros Hid Hok. apply off_unknown; [|done].
  assert (off id (set_enabled tbl id false).1) as Hoff.
  { unfold set_enabled in *. destruct (existsb (named id) tbl) eqn:Ex; [|done]. cbn [fst]. split.
    - apply exists_named in Ex as (r & Hin & Hn). exists {| row := row r; enabled := false |}. split; [|done].
      apply list_elem_of_fmap. exists r. by rewrite Hn.
    - intros r (r1 & -> & Hin)%list_elem_of_fmap. by destruct (named id r1) eqn:E; [|rewrite E]. }
  clear Hok. revert Hoff. generalize (set_enabled tbl id false).1. clear tbl. induction l as [|x l IH]; intros tbl Hoff; [done|].
  apply IH. destruct (register_store tbl x.1.1 x.1.2 x.2) as [->|[client ->]]; [done|by apply store_off].
Qed.

End clients.

(** ** Witnesses *)

Section witnesses.

Definition any_netloc (n : string) : bool := true.
Definition toy_hex (s : string) : string := "h" +:+ s.

Definition demo_client (id : string) (ty : ClientType) (uris : list string) (h : option string) : OidcClient := {|
  client_id := id; client_type := ty; redirect_uris := uris; allowed_scopes := {["openid"; "email"; "scim:read"]};
  secret_hash := h; display_name := None; require_par := false; backchannel_logout_uri := None;
  post_logout_redirect_uris := [] |}.
Definition demo_native : OidcClient := demo_client "cli" NATIVE ["http://127.0.0.1/cb"] None.
Definition demo_app : OidcClient := demo_client "app" CONFIDENTIAL ["https://app.test/cb"] None.
Definition demo_secret : string := Py.repeat_str 32 "s".
Definition demo_fresh : string := Py.repeat_str 32 "f".
Definition demo_table : list OidcClientRecord := (register any_netloc toy_hex [] demo_app (Some demo_secret) demo_fresh).1.

Lemma redirect_is_registered_witness :
  validated_redirect_uri any_netloc demo_native (Some "http://127.0.0.1:5555/cb") = Ok "http://127.0.0.1:5555/cb" /\
  exists p, Url.urlsplit any_netloc "http://127.0.0.1:5555/cb" = Some p /\ confidential_to NATIVE p.
Proof.
  assert (__post_init__ any_netloc demo_native = Ok tt) as Hp by (vm_compute; reflexivity).
  assert (validated_redirect_uri any_netloc demo_native (Some "http://127.0.0.1:5555/cb") = Ok "http://127.0.0.1:5555/cb") as Hv
    by (vm_compute; reflexivity).
  split; [exact Hv|]. exact (proj2 (proj2 (redirect_is_registered any_netloc demo_native _ _ Hp Hv))).
Defined.

(** More than the port may differ from the registered [http://127.0.0.1/cb]:
    [urlsplit] drops white space, and a user name is not part of the host. *)
Example loopback_ignores_more_than_the_port :
  let candidate := " http://someone@127.0.0.1:1/c" +:+ String (ascii_of_nat 9) "b" in
  validated_redirect_uri any_netloc demo_native (Some candidate) = Ok candidate.
Proof. vm_compute. reflexivity. Qed.

Lemma scopes_keep_flows_apart_witness :
  exists b m : gset string, granted_scopes demo_app (Some "openid email") = Ok b /\ machine_scopes demo_app None = Ok m /\ b ## m.
Proof.
  assert (granted_scopes demo_app (Some "openid email") = Ok (asked_for (Some "openid email"))) as Hb by (vm_compute; reflexivity).
  assert (machine_scopes demo_app None = Ok (allowed_scopes demo_app ∩ machine)) as Hm by (vm_compute; reflexivity).
  exists (asked_for (Some "openid email")), (allowed_scopes demo_app ∩ machine). split; [exact Hb|]. split; [exact Hm|].
  destruct (scopes_keep_flows_apart demo_app (Some "openid email") None _ _ Hb Hm) as (_ & _ & _ & _ & _ & _ & _ & _ & D). exact D.
Defined.

Lemma reregistration_rotates_secret_witness :
  exists now, get any_netloc (register any_netloc toy_hex demo_table demo_app None demo_fresh).1 "app" = Ok (Some now) /\
    authenticate toy_hex now (Some demo_secret) = Err client_error /\ authenticate toy_hex now (Some demo_fresh) = Ok tt.
Proof.
  assert (client_type demo_app = CONFIDENTIAL) as Ht by reflexivity.
  assert (get any_netloc demo_table "app" = Ok (Some (demo_client "app" CONFIDENTIAL ["https://app.test/cb"] (Some (toy_hex demo_secret))))) as Hg
    by (vm_compute; reflexivity).
  assert (toy_hex demo_secret <> toy_hex demo_fresh) as Hne by (vm_compute; congruence).
  assert (is_ok (register any_netloc toy_hex demo_table demo_app None demo_fresh).2 = true) as Hok by (vm_compute; reflexivity).
  assert (authenticate toy_hex (demo_client "app" CONFIDENTIAL ["https://app.test/cb"] (Some (toy_hex demo_secret))) (Some demo_secret) = Ok tt) as Ha
    by (vm_compute; reflexivity).
  exact (reregistration_rotates_secret any_netloc toy_hex demo_table demo_app demo_fresh _ demo_secret Ht Hg Ha Hne Hok).
Defined.

Lemma retyped_client_unreadable_witness :
  get any_netloc (register any_netloc toy_hex demo_table (demo_client "app" PUBLIC ["https://app.test/cb"] None) None demo_fresh).1 "app"
    = Err ValueError.
Proof.
  assert (get any_netloc demo_table "app" = Ok (Some (demo_client "app" CONFIDENTIAL ["https://app.test/cb"] (Some (toy_hex demo_secret))))) as Hg
    by (vm_compute; reflexivity).
  apply (retyped_client_unreadable any_netloc toy_hex demo_table (demo_client "app" PUBLIC ["https://app.test/cb"] None) demo_fresh
    (demo_client "app" CONFIDENTIAL ["https://app.test/cb"] (Some (toy_hex demo_secret)))); [done|done|exact Hg|vm_compute; reflexivity].
Defined.

Lemma disabled_client_stays_unknown_witness :
  require any_netloc (register_all any_netloc toy_hex (set_enabled demo_table "app" false).1 [(demo_app, None, demo_fresh)]) (Some "app")
    = Err unknown_client.
Proof. apply (disabled_client_stays_unknown any_netloc toy_hex demo_table "app"); [done|vm_compute; reflexivity]. Defined.

End witnesses.

End Clients.
