(* ===== verification/PolicyLoader.v ===== *)
(** * Loading the release policy

    [campusid/policy/loader.py]: a directory of YAML files becomes one policy
    per service provider, and the store keeps the last set that loaded.  A file
    is what reading and parsing it yields; whether a pattern compiles is a
    parameter. *)

From S2P Require Import Prelude PyStr Json Dict Attributes Release.

Module PolicyLoader.

(** [PolicyError], and the exceptions the loader does not turn into one:
    [TypeError] from a membership test of an unhashable value, the
    [UnicodeDecodeError] of [read_text] and the [OSError] of [stat]. *)
Inductive load_error : Type := PolicyError | OSError | PyTypeError | UnicodeDecodeError.

#[global] Instance load_error_eq_dec : EqDecision load_error.
Proof. solve_decision. Defined.

Definition POLICY_SUFFIXES : list string := [".yaml"; ".yml"].
Definition KNOWN_CATEGORIES : gset string := {[Attributes.RESEARCH_AND_SCHOLARSHIP]}.

Definition POLICY_KEYS : list string :=
  ["sp_entity_id"; "aliases"; "display_name"; "entity_categories"; "subject_id_mode";
   "internal_school_official"; "require_encrypted_assertion"; "rules"].
Definition RULE_KEYS : list string := ["id"; "effect"; "attribute"; "value_filter"; "precedence"].

(** [VALID_EFFECTS] and [VALID_SUBJECT_ID_MODES], with what each name denotes.
    A membership test hashes the value first. *)
Definition VALID_EFFECTS : list (string * Release.Effect) :=
  [("allow", Release.ALLOW); ("allow-value", Release.ALLOW_VALUE); ("deny", Release.DENY);
   ("require-consent", Release.REQUIRE_CONSENT)].
Definition VALID_SUBJECT_ID_MODES : list (string * Release.SubjectIdMode) :=
  [("pairwise", Release.PAIRWISE); ("shared", Release.SHARED)].

Definition one_of {A} (names : list (string * A)) (j : json) : result load_error A :=
  match j with
  | JArr _ | JObj _ => Err PyTypeError
  | JStr s => match Dict.get names s with Some a => Ok a | None => Err PolicyError end
  | _ => Err PolicyError
  end.

Definition _bool (raw : json) : result load_error bool :=
  match raw with JBool b => Ok b | _ => Err PolicyError end.

Definition _string_list (raw : json) : result load_error (list string) :=
  match raw with
  | JArr items => match Json.strings items with Some l => Ok l | None => Err PolicyError end
  | _ => Err PolicyError
  end.

(** [d.get(key, fallback)]. *)
Definition get_or (d : list (string * json)) (k : string) (fallback : json) : json :=
  default fallback (Json.lookup d k).

Definition unknown_keys (d : list (string * json)) (known : list string) : bool :=
  existsb (fun kv => negb (bool_decide (kv.1 ∈ known))) d.

Section loader.
(** Whether [re.compile] takes the pattern. *)
Context (compiles : string -> bool).

Definition _validate_filter (value_filter : json) : result load_error string :=
  match value_filter with
  | JStr pattern => if compiles pattern then Ok pattern else Err PolicyError
  | _ => Err PolicyError
  end.

Definition _parse_rule (entry : list (string * json)) : result load_error Release.ReleaseRule :=
  raise* PolicyError when unknown_keys entry RULE_KEYS;
  match Json.get entry "id" with
  | JStr rule_id =>
      raise* PolicyError when String.eqb rule_id "";
      let* effect := one_of VALID_EFFECTS (Json.get entry "effect") in
      match Json.get entry "attribute" with
      | JStr attribute =>
          match Attributes.definition attribute with
          | None => Err PolicyError
          | Some known =>
              raise* PolicyError when bool_decide (Attributes.classification known = Attributes.RESTRICTED);
              let* value_filter :=
                match Json.get entry "value_filter" with
                | JNull => raise* PolicyError when bool_decide (effect = Release.ALLOW_VALUE); Ok None
                | j => raise* PolicyError when bool_decide (effect <> Release.ALLOW_VALUE);
                       let* pattern := _validate_filter j in Ok (Some pattern)
                end in
              match get_or entry "precedence" (JInt 100) with
              | JInt precedence =>
                  Ok {| Release.rule_id := rule_id; Release.effect := effect; Release.attribute := attribute;
                        Release.value_filter := value_filter; Release.precedence := precedence |}
              | _ => Err PolicyError
              end
          end
      | _ => Err PolicyError
      end
  | _ => Err PolicyError
  end.

Fixpoint rules_loop (raw : list json) (seen_ids : list string) : result load_error (list Release.ReleaseRule) :=
  match raw with
  | [] => Ok []
  | JObj entry :: raw' =>
      let* rule := _parse_rule entry in
      raise* PolicyError when bool_decide (Release.rule_id rule ∈ seen_ids);
      let* rest := rules_loop raw' (Release.rule_id rule :: seen_ids) in
      Ok (rule :: rest)
  | _ :: _ => Err PolicyError
  end.

Definition _parse_rules (raw : json) : result load_error (list Release.ReleaseRule) :=
  match raw with JArr items => rules_loop items [] | _ => Err PolicyError end.

Definition parse_policy (document : list (string * json)) : result load_error Release.ReleasePolicy :=
  match Json.get document "sp_entity_id" with
  | JStr entity_id =>
      raise* PolicyError when String.eqb entity_id "";
      raise* PolicyError when unknown_keys document POLICY_KEYS;
      let* listed := _string_list (get_or document "entity_categories" (JArr [])) in
      let categories : gset string := list_to_set listed in
      raise* PolicyError when negb (bool_decide (categories ⊆ KNOWN_CATEGORIES));
      let* mode := one_of VALID_SUBJECT_ID_MODES (get_or document "subject_id_mode" (JStr "pairwise")) in
      let* official := _bool (get_or document "internal_school_official" (JBool false)) in
      let* encrypted := _bool (get_or document "require_encrypted_assertion" (JBool false)) in
      let* parsed := _parse_rules (get_or document "rules" (JArr [])) in
      let shown := Json.get document "display_name" in
      Ok {| Release.sp_entity_id := entity_id;
            Release.display_name := if Json.truthy shown then Some shown else None;
            Release.entity_categories := categories; Release.subject_id_mode := mode;
            Release.internal_school_official := official;
            Release.require_encrypted_assertion := encrypted; Release.rules := parsed |}
  | _ => Err PolicyError
  end.

(** ** Files *)

Inductive content : Type :=
| Unreadable
| NotUtf8
| NotYaml
| Yaml (document : json).

(** A directory entry: its name, its modification time where [stat] gives one,
    and what reading it gives. *)
Record file : Type := { fname : string; fmtime : option Z; fcontent : content }.

(** What [is_dir] and [iterdir] see: no directory, or its entries. *)
Definition directory : Type := option (list file).

(** [PurePath.suffix]: from the last dot, unless that is the first or the last
    character. *)
Definition suffix (name : string) : string :=
  match Py.rpartition "." name with
  | (Some stem, ext) => if String.eqb stem "" || String.eqb ext "" then "" else "." +:+ ext
  | (None, _) => ""
  end.

Definition is_policy_file (f : file) : bool := bool_decide (suffix (fname f) ∈ POLICY_SUFFIXES).

Definition by_fname (f1 f2 : file) : bool := String.leb (fname f1) (fname f2).

Definition load_file (f : file) : result load_error (Release.ReleasePolicy * list string) :=
  match fcontent f with
  | Unreadable => Err OSError
  | NotUtf8 => Err UnicodeDecodeError
  | NotYaml => Err PolicyError
  | Yaml (JObj document) =>
      let* policy := parse_policy document in
      let* aliases := _string_list (get_or document "aliases" (JArr [])) in
      Ok (policy, aliases)
  | Yaml _ => Err PolicyError
  end.

Fixpoint add_names (names : list string) (policy : Release.ReleasePolicy)
    (policies : list (string * Release.ReleasePolicy)) : result load_error (list (string * Release.ReleasePolicy)) :=
  match names with
  | [] => Ok policies
  | name :: names' =>
      raise* PolicyError when Dict.mem policies name;
      add_names names' policy (Dict.set policies name policy)
  end.

Fixpoint load_files (files : list file) (policies : list (string * Release.ReleasePolicy)) :
    result load_error (list (string * Release.ReleasePolicy)) :=
  match files with
  | [] => Ok policies
  | f :: files' =>
      if negb (is_policy_file f) then load_files files' policies
      else
        let* '(policy, aliases) := load_file f in
        let* policies' := add_names (Release.sp_entity_id policy :: aliases) policy policies in
        load_files files' policies'
  end.

Definition load_directory (d : directory) : result load_error (list (string * Release.ReleasePolicy)) :=
  match d with
  | None => Err PolicyError
  | Some files => load_files (Sort.sort by_fname files) []
  end.

(** ** The store *)

Record PolicySet : Type := { policies : list (string * Release.ReleasePolicy); default_scope : string }.

Definition set_get (s : PolicySet) (entity_id : string) : Release.ReleasePolicy :=
  match Dict.get (policies s) entity_id with
  | Some policy => policy
  | None => Release.bare_policy entity_id
  end.

Record PolicyStore : Type := {
  fingerprint : list (string * Z);
  current : PolicySet;
}.

Definition by_stamp (s1 s2 : string * Z) : bool := String.leb s1.1 s2.1.

(** [OSError] when an entry cannot be [stat]ed. *)
Definition _fingerprint_now (d : directory) : result load_error (list (string * Z)) :=
  match d with
  | None => Ok []
  | Some files =>
      let* stamps := rmap (fun f => match fmtime f with Some t => Ok (fname f, t) | None => Err OSError end)
                          (List.filter is_policy_file files) in
      Ok (Sort.sort by_stamp stamps)
  end.

(** The store afterwards and the set [reload] returns, or the exception that
    leaves it. *)
Definition reload (d : directory) (s : PolicyStore) : PolicyStore * result load_error PolicySet :=
  match _fingerprint_now d with
  | Err e => (s, Err e)
  | Ok stamp =>
      match load_directory d with
      | Ok loaded =>
          let fresh := {| policies := loaded; default_scope := default_scope (current s) |} in
          ({| fingerprint := stamp; current := fresh |}, Ok fresh)
      | Err PolicyError | Err OSError => ({| fingerprint := stamp; current := current s |}, Ok (current s))
      | Err e => (s, Err e)
      end
  end.

(** [PolicyStore.__init__]. *)
Definition open_store (d : directory) (scope : string) : PolicyStore * result load_error PolicySet :=
  reload d {| fingerprint := []; current := {| policies := []; default_scope := scope |} |}.

Definition _changed (d : directory) (s : PolicyStore) : result load_error bool :=
  let* stamp := _fingerprint_now d in Ok (negb (bool_decide (stamp = fingerprint s))).

Definition store_get (d : directory) (s : PolicyStore) (entity_id : string) :
    PolicyStore * result load_error Release.ReleasePolicy :=
  match _changed d s with
  | Err e => (s, Err e)
  | Ok false => (s, Ok (set_get (current s) entity_id))
  | Ok true =>
      let '(s', r) := reload d s in
      (s', let* _ := r in Ok (set_get (current s') entity_id))
  end.

(** ** Properties *)

(** What the engine relies on of a rule. *)
Definition rule_ok (r : Release.ReleaseRule) : Prop :=
  Release.rule_id r <> "" /\
  (exists a, Attributes.definition (Release.attribute r) = Some a /\
             Attributes.classification a <> Attributes.RESTRICTED) /\
  (Release.effect r = Release.ALLOW_VALUE <->
   exists pattern, Release.value_filter r = Some pattern /\ compiles pattern = true) /\
  (Release.effect r <> Release.ALLOW_VALUE -> Release.value_filter r = None).

Definition policy_ok (p : Release.ReleasePolicy) : Prop :=
  Release.sp_entity_id p <> "" /\ Release.entity_categories p ⊆ KNOWN_CATEGORIES /\
  Forall rule_ok (Release.rules p) /\ NoDup (Release.rule_id <$> Release.rules p).

Lemma parse_rule_ok entry r : _parse_rule entry = Ok r -> rule_ok r.
Proof.
  unfold _parse_rule. destruct (unknown_keys _ _); [done|].
  destruct (Json.get entry "id") as [| | | |id| | |]; try done.
  destruct (String.eqb_spec id "") as [|Hid]; [done|]. intros (eff & _ & H)%rbind_ok.
  destruct (Json.get entry "attribute") as [| | | |a| | |]; try done.
  destruct (Attributes.definition a) as [known|] eqn:Ha; [|done].
  case_bool_decide as Hc; [done|]. apply rbind_ok in H as (vf & Hvf & H).
  destruct (get_or entry "precedence" (JInt 100)); try done. injection H as <-.
  unfold rule_ok. cbn. split_and!; [done|eauto|..].
  all: destruct (Json.get entry "value_filter"); case_bool_decide; try done;
    try (injection Hvf as <-; naive_solver);
    apply rbind_ok in Hvf as (pattern & Hp & [= <-]); simpl in Hp; try done.
  all: destruct (compiles _) eqn:Ec; [injection Hp as <-|done].
  all: naive_solver.
Qed.

Lemma policy_rules_loop_ok raw seen rs :
  rules_loop raw seen = Ok rs ->
  Forall rule_ok rs /\ NoDup (Release.rule_id <$> rs) /\ forall i, i ∈ Release.rule_id <$> rs -> i ∉ seen.
Proof.
  revert seen rs. induction raw as [|j raw IH]; intros seen rs H; simpl in H.
  { injection H as <-. split_and!; [constructor|constructor|by intros i ?%elem_of_nil]. }
  destruct j; try done. apply rbind_ok in H as (r & Hr & H). case_bool_decide as Hs; [done|].
  apply rbind_ok in H as (rest & Hrest & [= <-]). apply IH in Hrest as (H1 & H2 & H3).
  split_and!; [constructor; [by eapply parse_rule_ok|done]| |].
  - csimpl. apply NoDup_cons. split; [|done]. intros Hin. apply (H3 _ Hin). constructor.
  - csimpl. intros i [->|Hi]%elem_of_cons; [done|]. intros Hin. apply (H3 _ Hi). by right.
Qed.

Lemma parse_policy_ok document p : parse_policy document = Ok p -> policy_ok p.
Proof.
  unfold parse_policy. destruct (Json.get document "sp_entity_id") as [| | | |id| | |]; try done.
  destruct (String.eqb_spec id "") as [|Hid]; [done|]. destruct (unknown_keys _ _); [done|].
  intros (listed & _ & H)%rbind_ok. cbn zeta in H. case_bool_decide as Hc; [|done]. simpl in H.
  apply rbind_ok in H as (mode & _ & H). apply rbind_ok in H as (o & _ & H). apply rbind_ok in H as (e & _ & H).
  apply rbind_ok in H as (rs & Hrs & [= <-]). unfold policy_ok. cbn.
  unfold _parse_rules in Hrs. destruct (get_or document "rules" (JArr [])); try done.
  apply policy_rules_loop_ok in Hrs as (H1 & H2 & _). done.
Qed.

Lemma add_names_ok names p ps ps' :
  add_names names p ps = Ok ps' -> NoDup (ps.*1) ->
  ps' = ps ++ ((fun n => (n, p)) <$> names) /\ NoDup (ps'.*1).
Proof.
  revert ps. induction names as [|n names IH]; intros ps H Hn; simpl in H.
  { injection H as <-. by rewrite app_nil_r. }
  destruct (Dict.mem ps n) eqn:E; [done|]. apply IH in H as [-> Hd]; [|by apply Dict.NoDup_set].
  split; [|done]. unfold Dict.mem in E. rewrite Dict.set_fresh by (by destruct (Dict.get ps n)).
  by rewrite <- app_assoc.
Qed.

(** The names a file's policy answers to. *)
Definition file_names (out : Release.ReleasePolicy * list string) : list (string * Release.ReleasePolicy) :=
  (fun n => (n, out.1)) <$> (Release.sp_entity_id out.1 :: out.2).

Lemma load_files_ok files ps ps' :
  load_files files ps = Ok ps' -> NoDup (ps.*1) ->
  NoDup (ps'.*1) /\ exists outs, Forall2 (fun f out => load_file f = Ok out) (List.filter is_policy_file files) outs /\
    ps' = ps ++ (outs ≫= file_names).
Proof.
  revert ps. induction files as [|f files IH]; intros ps H Hn; simpl in H.
  { injection H as <-. split; [done|]. exists []. split; [constructor | by rewrite app_nil_r]. }
  simpl. destruct (is_policy_file f); simpl in H; [|by apply IH].
  apply rbind_ok in H as ([policy aliases] & Hf & H). apply rbind_ok in H as (ps1 & H1 & H).
  apply (add_names_ok (Release.sp_entity_id policy :: aliases)) in H1 as [-> Hd]; [|done]. apply IH in H as (Hd' & outs & Ho & ->); [|done].
  split; [done|]. exists ((policy, aliases) :: outs). split; [by constructor|]. simpl. by rewrite <- app_assoc.
Qed.

Lemma load_file_ok f out : load_file f = Ok out -> policy_ok out.1.
Proof.
  unfold load_file. destruct (fcontent f) as [| | |j]; try done. destruct j; try done.
  intros (policy & Hp & H)%rbind_ok. apply rbind_ok in H as (aliases & _ & [= <-]). by eapply parse_policy_ok.
Qed.

(** Every policy a load puts in force is well formed: it names its provider
    and only known entity categories, its rules have distinct, non-empty ids,
    each rule is about a known attribute that is no education record, and
    carries a pattern, one that compiles, exactly when it filters values. *)
Theorem loaded_policies_wellformed d loaded entity_id :
  load_directory d = Ok loaded ->
  set_get {| policies := loaded; default_scope := "" |} entity_id = Release.bare_policy entity_id \/
  policy_ok (set_get {| policies := loaded; default_scope := "" |} entity_id).
Proof.
  unfold load_directory, set_get. destruct d as [files|]; [|done]. intros H.
  apply load_files_ok in H as (_ & outs & Ho & ->); [|constructor].
  destruct (Dict.get _ entity_id) as [p|] eqn:E; [|by left]. right.
  apply Dict.get_elem in E. simpl in E. apply list_elem_of_bind in E as (out & Hin & Hout).
  unfold file_names in Hin. apply list_elem_of_fmap in Hin as (n & [= -> ->] & _).
  apply list_elem_of_lookup in Hout as [i Hi]. eapply Forall2_lookup_r in Ho as (f & _ & Hf); [|exact Hi].
  by eapply load_file_ok.
Qed.

(** One file, one policy, under every name the file gives it: after a load
    the entityID and each alias of a file resolve to the file's policy, and no
    two files claim one name. *)
Theorem aliases_share_policy files loaded f out name :
  load_directory (Some files) = Ok loaded ->
  f ∈ files -> is_policy_file f = true -> load_file f = Ok out ->
  name ∈ Release.sp_entity_id out.1 :: out.2 ->
  set_get {| policies := loaded; default_scope := "" |} name = out.1.
Proof.
  intros H Hf Hp Hout Hname. unfold load_directory in H. apply load_files_ok in H as (Hn & outs & Ho & ->); [|constructor].
  assert (f ∈ List.filter is_policy_file (Sort.sort by_fname files)) as Hin.
  { apply list_elem_of_In, filter_In. split; [|done]. by apply list_elem_of_In, Sort.elem_of_sort. }
  apply list_elem_of_lookup in Hin as [i Hi]. eapply Forall2_lookup_l in Ho as (out' & Hi' & Ho'); [|exact Hi].
  assert (out' = out) as -> by congruence. unfold set_get. cbn [policies].
  rewrite (Dict.elem_get _ name out.1 Hn); [done|].
  simpl. apply list_elem_of_bind. exists out. split; [|by eapply list_elem_of_lookup_2].
  apply list_elem_of_fmap. by exists name.
Qed.

(** A reload that is refused, or cannot read a file, keeps the policies in
    force and remembers the files it saw, so it is not tried again until they
    change; one that succeeds puts what it loaded in force. *)
Theorem refused_reload_keeps_policy d s stamp entity_id :
  _fingerprint_now d = Ok stamp ->
  (load_directory d = Err PolicyError \/ load_directory d = Err OSError ->
    (reload d s).1 = {| fingerprint := stamp; current := current s |} /\
    store_get d (reload d s).1 entity_id = ((reload d s).1, Ok (set_get (current s) entity_id))) /\
  (forall loaded, load_directory d = Ok loaded ->
    policies (current (reload d s).1) = loaded /\
    store_get d (reload d s).1 entity_id =
      ((reload d s).1, Ok (set_get {| policies := loaded; default_scope := default_scope (current s) |} entity_id))).
Proof.
  intros Hs. unfold store_get, _changed. rewrite Hs. unfold reload. rewrite Hs. split.
  - intros [->| ->]; simpl; (rewrite bool_decide_eq_true_2 by done); done.
  - intros loaded ->. simpl. rewrite bool_decide_eq_true_2 by done. done.
Qed.

(** Not every broken file is survived.  A [subject_id_mode] or an [effect]
    that is a list fails the membership test with a [TypeError], which [reload]
    does not catch: the lookup that noticed the change raises, the store does
    not remember having seen the files, and so every later lookup of every
    provider raises again. *)
Theorem unhashable_mode_takes_lookups_down d s stamp entity_id :
  _fingerprint_now d = Ok stamp -> stamp <> fingerprint s -> load_directory d = Err PyTypeError ->
  store_get d s entity_id = (s, Err PyTypeError).
Proof.
  intros Hs Hne Hl. unfold store_get, _changed. rewrite Hs. simpl. rewrite bool_decide_eq_false_2 by done.
  simpl. unfold reload. by rewrite Hs, Hl.
Qed.
End loader.

(** ** Examples *)

Definition demo_file (name : string) (members : list (string * json)) : file :=
  {| fname := name; fmtime := Some 1%Z; fcontent := Yaml (JObj members) |}.

Definition demo_lms : file := demo_file "lms.yaml"
  [("sp_entity_id", JStr "https://lms.test"); ("aliases", JArr [JStr "lms-client"]);
   ("rules", JArr [JObj [("id", JStr "mail"); ("effect", JStr "allow"); ("attribute", JStr Attributes.MAIL)]])].

Definition demo_lms_policy : Release.ReleasePolicy :=
  {| Release.sp_entity_id := "https://lms.test"; Release.display_name := None; Release.entity_categories := ∅;
     Release.subject_id_mode := Release.PAIRWISE; Release.internal_school_official := false;
     Release.require_encrypted_assertion := false;
     Release.rules := [ {| Release.rule_id := "mail"; Release.effect := Release.ALLOW;
       Release.attribute := Attributes.MAIL; Release.value_filter := None; Release.precedence := 100 |} ] |}.

Definition demo_loaded : list (string * Release.ReleasePolicy) :=
  [("https://lms.test", demo_lms_policy); ("lms-client", demo_lms_policy)].

Definition compiles_all (pattern : string) : bool := true.

Lemma loaded_policies_wellformed_witness : policy_ok compiles_all demo_lms_policy.
Proof.
  assert (load_directory compiles_all (Some [demo_lms]) = Ok demo_loaded) as H by (vm_compute; reflexivity).
  destruct (loaded_policies_wellformed compiles_all (Some [demo_lms]) demo_loaded "lms-client" H) as [E|E];
    [vm_compute in E; discriminate | exact E].
Defined.

Lemma aliases_share_policy_witness :
  set_get {| policies := demo_loaded; default_scope := "" |} "lms-client" = demo_lms_policy.
Proof.
  apply (aliases_share_policy compiles_all [demo_lms] demo_loaded demo_lms (demo_lms_policy, ["lms-client"]));
    [vm_compute; reflexivity|constructor|vm_compute; reflexivity|vm_compute; reflexivity|right; constructor].
Defined.

Lemma refused_reload_keeps_policy_witness :
  let broken := Some [demo_file "lms.yaml" [("sp_entity_id", JStr "")]] in
  let s := {| fingerprint := []; current := {| policies := demo_loaded; default_scope := "" |} |} in
  (store_get compiles_all broken (reload compiles_all broken s).1 "lms-client").2 = Ok demo_lms_policy.
Proof.
  intros broken s.
  destruct (refused_reload_keeps_policy compiles_all broken s [("lms.yaml", 1%Z)] "lms-client") as [H _];
    [vm_compute; reflexivity|].
  destruct H as [_ ->]; [left; vm_compute; reflexivity|]. vm_compute. reflexivity.
Defined.

Lemma unhashable_mode_takes_lookups_down_witness :
  let broken := Some [demo_lms; demo_file "new.yaml" [("sp_entity_id", JStr "https://new.test"); ("subject_id_mode", JArr [JStr "pairwise"])]] in
  let s := {| fingerprint := [("lms.yaml", 1%Z)]; current := {| policies := demo_loaded; default_scope := "" |} |} in
  store_get compiles_all broken s "lms-client" = (s, Err PyTypeError).
Proof.
  intros broken s.
  apply (unhashable_mode_takes_lookups_down compiles_all broken s [("lms.yaml", 1%Z); ("new.yaml", 1%Z)] "lms-client");
    [vm_compute; reflexivity|discriminate|vm_compute; reflexivity].
Defined.

End PolicyLoader.
