(* ===== verification/Registry.v ===== *)
(** * The identity registry

    [campusid/identity/models.py], [campusid/identity/registry.py] and
    [campusid/identity/assertions.py]: who a login is about, and which names a
    person holds.  The four tables are lists of rows; a statement that violates
    a unique or foreign-key constraint is an [IntegrityError], and a transaction
    that raises leaves the tables as they were, so an operation yields the new
    tables or an error.  The identifiers [uuid4] and [token_hex] draw are
    arguments.  Column widths are not modelled. *)

From S2P Require Import Prelude PyStr Json Dict Lifecycle Attributes.

Module Registry.

(** ** The tables *)

Record Person : Type := {
  person_uuid : string;
  edu_person_unique_id : string;
  display_name : option string;
  given_name : option string;
  surname : option string;
  preferred_language : option string;
  ferpa_directory_suppressed : bool;
  status : string;
  provisioning_source : string;
  created_at : moment;
  updated_at : moment;
}.

Record Identifier : Type := {
  id_person : string;
  id_type : string;
  id_value : string;
  id_scope : option string;
  is_primary : bool;
  issued_at : moment;
  released_at : option moment;
}.

Record Account : Type := {
  ac_person : string;
  idp_entity_id : string;
  protocol : string;
  subject_at_idp : string;
  link_confidence : string;
  linked_at : moment;
  last_login_at : option moment;
}.

Record Affiliation : Type := {
  af_person : string;
  affiliation : string;
  af_is_primary : bool;
  org_unit : option string;
  valid_from : Z;
  valid_until : option Z;
  af_source : string;
}.

Record db : Type := {
  persons : list Person;
  identifiers : list Identifier;
  accounts : list Account;
  affiliations : list Affiliation;
}.

Inductive db_error : Type := IntegrityError | ValueError.

Definition ID_EPPN := "eppn".
Definition ID_MAIL := "mail".
Definition ID_UNIQUE := "unique_id".
Definition STATUS_ACTIVE := "active".
Definition MAX_EPPN_SUFFIX : nat := 999.

Inductive LinkBasis : Type := UNIQUE_ID | EXISTING_ACCOUNT | EPPN | CREATED | MANUAL_REVIEW.

#[global] Instance LinkBasis_eq_dec : EqDecision LinkBasis.
Proof. solve_decision. Defined.

Record Assertion : Type := {
  as_idp_entity_id : string;
  as_protocol : string;
  subject : string;
  unique_id : option string;
  eppn : option string;
  mail : option string;
  as_display_name : option string;
  as_given_name : option string;
  as_surname : option string;
}.

Record Resolution : Type := { re_person : option string; re_basis : LinkBasis }.

Definition linked (r : Resolution) : bool := match re_person r with Some _ => true | None => false end.

(** ** Statements *)

Definition find_person (s : db) (p : string) : option Person :=
  List.find (fun row => String.eqb (person_uuid row) p) (persons s).

Definition exists_person (s : db) (p : string) : bool := match find_person s p with Some _ => true | None => false end.

Definition live (row : Identifier) : bool := match released_at row with None => true | Some _ => false end.

Definition typed (t v : string) (row : Identifier) : bool :=
  String.eqb (id_type row) t && String.eqb (id_value row) v.

(** [uq_identifier_type_value_scope]: rows whose scope is NULL never collide. *)
Definition same_identifier (row other : Identifier) : bool :=
  typed (id_type row) (id_value row) other &&
  match id_scope row, id_scope other with Some a, Some b => String.eqb a b | _, _ => false end.

Definition same_account (row other : Account) : bool :=
  String.eqb (idp_entity_id row) (idp_entity_id other) && String.eqb (subject_at_idp row) (subject_at_idp other).

Definition insert_person (row : Person) (s : db) : result db_error db :=
  raise* IntegrityError when
    existsb (fun other => String.eqb (person_uuid row) (person_uuid other) ||
                          String.eqb (edu_person_unique_id row) (edu_person_unique_id other)) (persons s);
  Ok {| persons := persons s ++ [row]; identifiers := identifiers s; accounts := accounts s;
        affiliations := affiliations s |}.

Definition insert_identifier (row : Identifier) (s : db) : result db_error db :=
  raise* IntegrityError when negb (exists_person s (id_person row)) || existsb (same_identifier row) (identifiers s);
  Ok {| persons := persons s; identifiers := identifiers s ++ [row]; accounts := accounts s;
        affiliations := affiliations s |}.

Definition insert_account (row : Account) (s : db) : result db_error db :=
  raise* IntegrityError when negb (exists_person s (ac_person row)) || existsb (same_account row) (accounts s);
  Ok {| persons := persons s; identifiers := identifiers s; accounts := accounts s ++ [row];
        affiliations := affiliations s |}.

Definition insert_affiliation (row : Affiliation) (s : db) : result db_error db :=
  raise* IntegrityError when negb (exists_person s (af_person row));
  Ok {| persons := persons s; identifiers := identifiers s; accounts := accounts s;
        affiliations := affiliations s ++ [row] |}.

(** An update of the first row that answers the query. *)
Fixpoint update_first {A} (test : A -> bool) (f : A -> A) (l : list A) : list A :=
  match l with
  | [] => []
  | x :: l' => if test x then f x :: l' else x :: update_first test f l'
  end.

Definition with_identifiers (f : list Identifier -> list Identifier) (s : db) : db :=
  {| persons := persons s; identifiers := f (identifiers s); accounts := accounts s; affiliations := affiliations s |}.
Definition with_accounts (f : list Account -> list Account) (s : db) : db :=
  {| persons := persons s; identifiers := identifiers s; accounts := f (accounts s); affiliations := affiliations s |}.
Definition with_persons (f : list Person -> list Person) (s : db) : db :=
  {| persons := f (persons s); identifiers := identifiers s; accounts := accounts s; affiliations := affiliations s |}.
Definition with_affiliations (f : list Affiliation -> list Affiliation) (s : db) : db :=
  {| persons := persons s; identifiers := identifiers s; accounts := accounts s; affiliations := f (affiliations s) |}.

(** ** Helpers *)

Definition _scope_of (value : string) : option string :=
  match Py.rpartition "@" value with
  | (Some _, scope) => Some (Py.lower scope)
  | (None, _) => None
  end.

Definition new_unique_id (hex scope : string) : string := hex +:+ "@" +:+ scope.

(** [if not text] for an optional string. *)
Definition given (text : option string) : option string :=
  match text with Some s => if String.eqb s "" then None else Some s | None => None end.

Definition _by_asserted_unique_id (s : db) (uid : option string) : option Person :=
  v ← given uid;
  row ← List.find (fun row => typed ID_UNIQUE v row && live row) (identifiers s);
  find_person s (id_person row).

Definition _by_live_eppn (s : db) (name : option string) : option Person :=
  v ← given name;
  row ← List.find (fun row => typed ID_EPPN (Py.lower v) row && live row) (identifiers s);
  person ← find_person s (id_person row);
  if String.eqb (status person) STATUS_ACTIVE then Some person else None.

Definition _mail_only_match (s : db) (address : option string) : bool :=
  match given address with
  | None => false
  | Some v => existsb (fun row => typed ID_MAIL (Py.lower v) row && live row) (identifiers s)
  end.

Definition _identifier_taken (s : db) (t v : string) : bool := existsb (typed t v) (identifiers s).

Definition eppn_row (p value : string) (scope : option string) (now : moment) : Identifier :=
  {| id_person := p; id_type := ID_EPPN; id_value := value; id_scope := scope; is_primary := true;
     issued_at := now; released_at := None |}.

(** [for suffix in range(n, n + count)]: the first candidate nobody holds. *)
Fixpoint first_free (s : db) (candidate : nat -> string) (n count : nat) : option string :=
  match count with
  | O => None
  | S count' =>
      if _identifier_taken s ID_EPPN (candidate n) then first_free s candidate (S n) count'
      else Some (candidate n)
  end.

#[global] Arguments first_free : simpl never.

Definition nat_str (n : nat) : string := Py.str_of_Z (Z.of_nat n).

(** [rpartition] of a value without an [@] leaves an empty local part. *)
Definition suffixed (value : string) (scope : option string) (n : nat) : string :=
  let local := match Py.rpartition "@" value with (Some l, _) => l | (None, _) => "" end in
  match scope with
  | Some sc => if String.eqb sc "" then local +:+ nat_str n else local +:+ nat_str n +:+ "@" +:+ sc
  | None => local +:+ nat_str n
  end.

Definition _claim_eppn (s : db) (p asserted : string) (now : moment) : result db_error db :=
  let value := Py.lower asserted in
  let scope := _scope_of value in
  if negb (_identifier_taken s ID_EPPN value) then insert_identifier (eppn_row p value scope now) s
  else match first_free s (suffixed value scope) 2 (MAX_EPPN_SUFFIX - 1) with
       | Some candidate => insert_identifier (eppn_row p candidate scope now) s
       | None => Ok s
       end.

(** What [uuid4] and [secrets.token_hex] draw for a new person. *)
Record Fresh : Type := { fresh_uuid : string; fresh_hex : string }.

Definition _create (own_scope : string) (fresh : Fresh) (s : db) (a : Assertion) (now : moment) :
    result db_error (db * Person) :=
  let person :=
    {| person_uuid := fresh_uuid fresh; edu_person_unique_id := new_unique_id (fresh_hex fresh) own_scope;
       display_name := as_display_name a; given_name := as_given_name a; surname := as_surname a;
       preferred_language := None; ferpa_directory_suppressed := false; status := STATUS_ACTIVE;
       provisioning_source := "jit"; created_at := now; updated_at := now |} in
  let* s1 := insert_person person s in
  let* s2 :=
    match given (unique_id a) with
    | Some uid =>
        insert_identifier
          {| id_person := person_uuid person; id_type := ID_UNIQUE; id_value := uid; id_scope := _scope_of uid;
             is_primary := false; issued_at := now; released_at := None |} s1
    | None => Ok s1
    end in
  let* s3 := _claim_eppn s2 (person_uuid person) (default (edu_person_unique_id person) (given (eppn a))) now in
  let* s4 :=
    match given (mail a) with
    | Some address =>
        if _identifier_taken s3 ID_MAIL (Py.lower address) then Ok s3
        else insert_identifier
          {| id_person := person_uuid person; id_type := ID_MAIL; id_value := Py.lower address; id_scope := None;
             is_primary := true; issued_at := now; released_at := None |} s3
    | None => Ok s3
    end in
  Ok (s4, person).

Definition _touch_account (s : db) (p : string) (a : Assertion) (basis : LinkBasis) (now : moment) :
    result db_error db :=
  insert_account
    {| ac_person := p; idp_entity_id := as_idp_entity_id a; protocol := as_protocol a; subject_at_idp := subject a;
       link_confidence := if bool_decide (basis = EPPN) then "medium" else "high";
       linked_at := now; last_login_at := Some now |} s.

Definition at_issuer (a : Assertion) (row : Account) : bool :=
  String.eqb (idp_entity_id row) (as_idp_entity_id a) && String.eqb (subject_at_idp row) (subject a).

Definition logged_in (now : moment) (row : Account) : Account :=
  {| ac_person := ac_person row; idp_entity_id := idp_entity_id row; protocol := protocol row;
     subject_at_idp := subject_at_idp row; link_confidence := link_confidence row;
     linked_at := linked_at row; last_login_at := Some now |}.

Definition resolve (own_scope : string) (fresh : Fresh) (s : db) (a : Assertion) (now : moment) :
    result db_error (db * Resolution) :=
  match _by_asserted_unique_id s (unique_id a) with
  | Some person =>
      let* s' := _touch_account s (person_uuid person) a UNIQUE_ID now in
      Ok (s', {| re_person := Some (person_uuid person); re_basis := UNIQUE_ID |})
  | None =>
      match List.find (at_issuer a) (accounts s) with
      | Some account =>
          Ok (with_accounts (update_first (at_issuer a) (logged_in now)) s,
              {| re_person := Some (ac_person account); re_basis := EXISTING_ACCOUNT |})
      | None =>
          match _by_live_eppn s (eppn a) with
          | Some person =>
              let* s' := _touch_account s (person_uuid person) a EPPN now in
              Ok (s', {| re_person := Some (person_uuid person); re_basis := EPPN |})
          | None =>
              if _mail_only_match s (mail a) then Ok (s, {| re_person := None; re_basis := MANUAL_REVIEW |})
              else
                let* '(s1, person) := _create own_scope fresh s a now in
                let* s2 := _touch_account s1 (person_uuid person) a CREATED now in
                Ok (s2, {| re_person := Some (person_uuid person); re_basis := CREATED |})
          end
      end
  end.

(** ** Identifiers *)

Definition allocated (base own_scope : string) (n : nat) : string :=
  if Nat.eqb n 1 then base +:+ "@" +:+ own_scope else base +:+ nat_str n +:+ "@" +:+ own_scope.

Definition allocate_eppn (own_scope : string) (s : db) (p local_part : string) (now : moment) :
    result db_error (db * string) :=
  let base := Py.lower (Py.strip local_part) in
  raise* ValueError when String.eqb base "";
  match first_free s (allocated base own_scope) 1 MAX_EPPN_SUFFIX with
  | Some candidate =>
      let* s' := insert_identifier (eppn_row p candidate (Some own_scope) now) s in Ok (s', candidate)
  | None => Err ValueError
  end.

Definition release_row (now : moment) (row : Identifier) : Identifier :=
  {| id_person := id_person row; id_type := id_type row; id_value := id_value row; id_scope := id_scope row;
     is_primary := false; issued_at := issued_at row; released_at := Some now |}.

Definition held_by (p t v : string) (row : Identifier) : bool :=
  String.eqb (id_person row) p && typed t v row && live row.

Definition release_identifier (s : db) (p t v : string) (now : moment) : db :=
  with_identifiers (update_first (held_by p t (Py.lower v)) (release_row now)) s.

Definition by_issue (r1 r2 : Identifier) : bool := (issued_at r1 <=? issued_at r2)%Z.

Definition identifiers_of (s : db) (p : string) (include_released : bool) : list Identifier :=
  Sort.sort by_issue
    (List.filter (fun row => String.eqb (id_person row) p && (include_released || live row)) (identifiers s)).

(** ** People *)

Definition person_for (s : db) (name : string) : option string := person_uuid <$> _by_live_eppn s (Some name).

Definition get (s : db) (p : string) : option Person := find_person s p.

Definition set_row_status (st : string) (now : moment) (row : Person) : Person :=
  {| person_uuid := person_uuid row; edu_person_unique_id := edu_person_unique_id row;
     display_name := display_name row; given_name := given_name row; surname := surname row;
     preferred_language := preferred_language row;
     ferpa_directory_suppressed := ferpa_directory_suppressed row; status := st;
     provisioning_source := provisioning_source row; created_at := created_at row; updated_at := now |}.

Definition set_status (s : db) (p st : string) (now : moment) : result db_error db :=
  raise* ValueError when negb (exists_person s p);
  Ok (with_persons (update_first (fun row => String.eqb (person_uuid row) p) (set_row_status st now)) s).

Definition by_link (a1 a2 : Account) : bool := (linked_at a1 <=? linked_at a2)%Z.

Definition accounts_of (s : db) (p : string) : list Account :=
  Sort.sort by_link (List.filter (fun row => String.eqb (ac_person row) p) (accounts s)).

(** ** Affiliations *)

Definition add_affiliation (s : db) (p aff : string) (from : option Z) (unit_ : option string) (primary : bool)
    (source : string) (today : Z) : result db_error db :=
  raise* ValueError when negb (Attributes.in_vocabulary aff);
  insert_affiliation
    {| af_person := p; affiliation := aff; af_is_primary := primary; org_unit := unit_;
       valid_from := default today from; valid_until := None; af_source := source |} s.

Definition current_affiliation (p aff : string) (row : Affiliation) : bool :=
  String.eqb (af_person row) p && String.eqb (affiliation row) aff &&
  match valid_until row with None => true | Some _ => false end.

Definition close_row (day : Z) (row : Affiliation) : Affiliation :=
  {| af_person := af_person row; affiliation := affiliation row; af_is_primary := af_is_primary row;
     org_unit := org_unit row; valid_from := valid_from row; valid_until := Some day; af_source := af_source row |}.

Definition end_affiliation (s : db) (p aff : string) (on : option Z) (today : Z) : db :=
  with_affiliations
    (map (fun row => if current_affiliation p aff row then close_row (default today on) row else row)) s.

Definition holds_on (p : string) (day : Z) (row : Affiliation) : bool :=
  String.eqb (af_person row) p && (valid_from row <=? day)%Z &&
  match valid_until row with None => true | Some until => (day <? until)%Z end.

Definition affiliations_on (s : db) (p : string) (day : Z) : list string :=
  Lifecycle.sorted (list_to_set (affiliation <$> List.filter (holds_on p day) (affiliations s))).

(** ** [campusid/identity/assertions.py] *)

Definition PROTOCOL_SAML := "saml".
Definition PROTOCOL_OIDC := "oidc".

Definition _one (attrs : list (string * list string)) (name : string) : option string :=
  match Dict.get attrs name with Some (v :: _) => Some v | _ => None end.

Definition from_saml (issuer name_id : string) (attrs : list (string * list string)) : Assertion :=
  {| as_idp_entity_id := issuer; as_protocol := PROTOCOL_SAML; subject := name_id;
     unique_id := _one attrs Attributes.UNIQUE_ID; eppn := _one attrs Attributes.EPPN;
     mail := _one attrs Attributes.MAIL; as_display_name := _one attrs Attributes.DISPLAY_NAME;
     as_given_name := _one attrs Attributes.GIVEN_NAME; as_surname := _one attrs Attributes.SURNAME |}.

Definition _claim (claims : list (string * json)) (name : string) : option string :=
  let value := match Json.get claims name with JArr (v :: _) => v | JArr [] => JNull | v => v end in
  match value with JStr v => if String.eqb v "" then None else Some v | _ => None end.

Definition from_claims (issuer sub : string) (claims : list (string * json)) : Assertion :=
  {| as_idp_entity_id := issuer; as_protocol := PROTOCOL_OIDC; subject := sub;
     unique_id := _claim claims "eduperson_unique_id";
     eppn := match _claim claims "eduperson_principal_name" with
             | Some v => Some v | None => _claim claims "preferred_username" end;
     mail := _claim claims "email"; as_display_name := _claim claims "name";
     as_given_name := _claim claims "given_name"; as_surname := _claim claims "family_name" |}.

(** ** Names are never reissued *)

(** [p] has been issued the name [v]; a tombstone counts. *)
Definition issued (s : db) (t v p : string) : Prop :=
  exists row, row ∈ identifiers s /\ id_type row = t /\ id_value row = v /\ id_person row = p.

(** Every principal name has been issued to one person. *)
Definition eppn_unique (s : db) : Prop :=
  forall v p p', issued s ID_EPPN v p -> issued s ID_EPPN v p' -> p = p'.

(** Later tables keep every name, and give no principal name a new holder. *)
Definition keeps_names (s s' : db) : Prop :=
  (forall t v p, issued s t v p -> issued s' t v p) /\
  (forall v p p', issued s' ID_EPPN v p -> issued s' ID_EPPN v p' -> p = p' \/
    issued s ID_EPPN v p /\ issued s ID_EPPN v p') .

Lemma typed_spec t v row : typed t v row = true <-> id_type row = t /\ id_value row = v.
Proof. unfold typed. rewrite andb_true_iff, !String.eqb_eq. done. Qed.

Lemma existsb_elem {A} (f : A -> bool) l : existsb f l = true <-> exists x, x ∈ l /\ f x = true.
Proof. rewrite existsb_exists. split; intros (x & Hx & H); exists x; (split; [by apply list_elem_of_In|done]). Qed.

Lemma taken_spec s t v : _identifier_taken s t v = true <-> exists p, issued s t v p.
Proof.
  unfold _identifier_taken, issued. rewrite existsb_elem. split.
  - intros (row & Hr & [H1 H2]%typed_spec). exists (id_person row), row. done.
  - intros (p & row & Hr & H1 & H2 & _). exists row. split; [done|]. by apply typed_spec.
Qed.

Lemma keeps_refl s s' : identifiers s' = identifiers s -> keeps_names s s'.
Proof.
  intros E. unfold keeps_names, issued. rewrite E. split; [done|]. intros v p p' H1 H2. by right.
Qed.

Lemma keeps_trans s1 s2 s3 : keeps_names s1 s2 -> keeps_names s2 s3 -> keeps_names s1 s3.
Proof.
  intros [H1 H2] [H3 H4]. split; [by intros; apply H3, H1|].
  intros v p p' Hp Hp'. destruct (H4 v p p' Hp Hp') as [->|[Hq Hq']]; [by left|]. by apply H2.
Qed.

(** A row may be added when it is no principal name, or nobody has had the
    name. *)
Lemma insert_identifier_keeps row s s' :
  insert_identifier row s = Ok s' ->
  (id_type row = ID_EPPN -> _identifier_taken s ID_EPPN (id_value row) = false) ->
  keeps_names s s'.
Proof.
  unfold insert_identifier. destruct (_ || _); [done|]. intros [= <-] Hfree. split.
  - intros t v p (r & Hr & H). exists r. cbn. split; [apply elem_of_app; by left | done].
  - assert (forall v p, issued {| persons := persons s; identifiers := identifiers s ++ [row]; accounts := accounts s;
        affiliations := affiliations s |} ID_EPPN v p ->
      issued s ID_EPPN v p \/ (id_type row = ID_EPPN /\ id_value row = v /\ id_person row = p)) as Hin.
    { intros v p (r & Hr & H1 & H2 & H3). cbn in Hr. apply elem_of_app in Hr as [Hr|Hr%list_elem_of_singleton]; [left; by exists r|].
      subst r. by right. }
    assert (forall v p, issued s ID_EPPN v p -> id_type row = ID_EPPN -> id_value row = v -> False) as Hno.
    { intros v p Hi Ht Hv. specialize (Hfree Ht). rewrite Hv in Hfree.
      assert (_identifier_taken s ID_EPPN v = true) as E by (apply taken_spec; eauto). congruence. }
    intros v p p' [H|(Ht & Hv & Hp)]%Hin [H'|(Ht' & Hv' & Hp')]%Hin; [by right| | |left; congruence].
    all: exfalso; eauto.
Qed.

Lemma update_first_split {A} (test : A -> bool) f (l : list A) :
  (forall x, x ∈ l -> x ∈ update_first test f l \/ (test x = true /\ f x ∈ update_first test f l)) /\
  (forall y, y ∈ update_first test f l -> y ∈ l \/ exists x, x ∈ l /\ test x = true /\ y = f x).
Proof.
  induction l as [|z l [IH1 IH2]]; simpl.
  { split; by intros ? ?%elem_of_nil. }
  destruct (test z) eqn:E; split.
  - intros x [->|Hx]%elem_of_cons; [right; split; [done|constructor] | left; by right].
  - intros y [->|Hy]%elem_of_cons; [right; exists z; split; [constructor|done] | left; by right].
  - intros x [->|Hx]%elem_of_cons; [left; constructor|].
    destruct (IH1 x Hx) as [?|[? ?]]; [left; by right | right; split; [done|by right]].
  - intros y [->|Hy]%elem_of_cons; [left; constructor|].
    destruct (IH2 y Hy) as [?|(x & ? & ? & ->)]; [left; by right|].
    right. exists x. split; [by right|done].
Qed.

Lemma release_keeps s p t v now : keeps_names s (release_identifier s p t v now).
Proof.
  assert (forall t' v' p', issued (release_identifier s p t v now) t' v' p' <-> issued s t' v' p') as H.
  { intros t' v' p'. unfold issued, release_identifier. cbn.
    destruct (update_first_split (held_by p t (Py.lower v)) (release_row now) (identifiers s)) as [H1 H2]. split.
    - intros (row & Hr & ?). apply H2 in Hr as [Hr|(x & Hx & _ & ->)]; [by exists row | by exists x].
    - intros (row & Hr & ?). apply H1 in Hr as [Hr|[_ Hr]]; [by exists row | by exists (release_row now row)]. }
  split; intros; rewrite ?H in *; [done | by right].
Qed.

Lemma first_free_spec s candidate n count c :
  first_free s candidate n count = Some c ->
  _identifier_taken s ID_EPPN c = false /\ exists k, (n <= k < n + count)%nat /\ c = candidate k /\
    forall j, (n <= j < k)%nat -> _identifier_taken s ID_EPPN (candidate j) = true.
Proof.
  revert n. induction count as [|count IH]; intros n; [done|].
  change (first_free s candidate n (S count)) with
    (if _identifier_taken s ID_EPPN (candidate n) then first_free s candidate (S n) count else Some (candidate n)).
  destruct (_identifier_taken s ID_EPPN (candidate n)) eqn:E.
  - intros (H & k & Hk & -> & Hj)%IH. split; [done|]. exists k. split_and!; [lia|lia|done|].
    intros j Hj'. destruct (decide (j = n)) as [->|]; [done|]. apply Hj. lia.
  - intros [= <-]. split; [done|]. exists n. split_and!; [lia|lia|done|]. intros j ?. lia.
Qed.

Lemma claim_keeps s p e now s' : _claim_eppn s p e now = Ok s' -> keeps_names s s'.
Proof.
  unfold _claim_eppn. destruct (_identifier_taken s ID_EPPN (Py.lower e)) eqn:E; simpl.
  - destruct (first_free _ _ _ _) as [c|] eqn:Ef; [|intros [= <-]; by apply keeps_refl].
    intros H. eapply insert_identifier_keeps; [exact H|]. intros _. by apply first_free_spec in Ef as [? _].
  - intros H. by eapply insert_identifier_keeps.
Qed.

Lemma insert_person_identifiers row s s' : insert_person row s = Ok s' -> identifiers s' = identifiers s.
Proof. unfold insert_person. destruct (existsb _ _); [done|]. by intros [= <-]. Qed.

Lemma insert_account_identifiers row s s' : insert_account row s = Ok s' -> identifiers s' = identifiers s.
Proof. unfold insert_account. destruct (_ || _); [done|]. by intros [= <-]. Qed.

Lemma create_keeps scope fresh s a now s' person :
  _create scope fresh s a now = Ok (s', person) -> keeps_names s s'.
Proof.
  unfold _create. intros (s1 & H1 & H)%rbind_ok. apply rbind_ok in H as (s2 & H2 & H).
  apply rbind_ok in H as (s3 & H3 & H). apply rbind_ok in H as (s4 & H4 & [= <- <-]).
  apply (keeps_trans _ s1); [by eapply keeps_refl, insert_person_identifiers|].
  apply (keeps_trans _ s2).
  { destruct (given (unique_id a)); [|injection H2 as <-; by apply keeps_refl]. by eapply insert_identifier_keeps. }
  apply (keeps_trans _ s3); [by eapply claim_keeps|].
  destruct (given (mail a)); [|injection H4 as <-; by apply keeps_refl].
  destruct (_identifier_taken _ _ _); [injection H4 as <-; by apply keeps_refl|]. by eapply insert_identifier_keeps.
Qed.

Lemma resolve_keeps scope fresh s a now s' r : resolve scope fresh s a now = Ok (s', r) -> keeps_names s s'.
Proof.
  unfold resolve. destruct (_by_asserted_unique_id s (unique_id a)).
  { intros (s1 & H1 & [= <- <-])%rbind_ok. by eapply keeps_refl, insert_account_identifiers. }
  destruct (List.find _ (accounts s)); [intros [= <- <-]; by apply keeps_refl|].
  destruct (_by_live_eppn s (eppn a)).
  { intros (s1 & H1 & [= <- <-])%rbind_ok. by eapply keeps_refl, insert_account_identifiers. }
  destruct (_mail_only_match s (mail a)); [intros [= <- <-]; by apply keeps_refl|].
  intros ([s1 person] & H1 & H)%rbind_ok. apply rbind_ok in H as (s2 & H2 & [= <- <-]).
  eapply keeps_trans; [by eapply create_keeps|]. by eapply keeps_refl, insert_account_identifiers.
Qed.

(** The operations that write. *)
Inductive op : Type :=
| OResolve (fresh : Fresh) (a : Assertion) (now : moment)
| OAllocate (p local_part : string) (now : moment)
| ORelease (p t v : string) (now : moment)
| OSetStatus (p st : string) (now : moment)
| OAddAffiliation (p aff : string) (from : option Z) (unit_ : option string) (primary : bool) (source : string) (today : Z)
| OEndAffiliation (p aff : string) (on : option Z) (today : Z).

Definition committed {A} (s : db) (r : result db_error (db * A)) : db :=
  match r with Ok (s', _) => s' | Err _ => s end.

(** One operation, a transaction that raises being rolled back. *)
Definition apply_op (own_scope : string) (s : db) (o : op) : db :=
  match o with
  | OResolve fresh a now => committed s (resolve own_scope fresh s a now)
  | OAllocate p local_part now => committed s (allocate_eppn own_scope s p local_part now)
  | ORelease p t v now => release_identifier s p t v now
  | OSetStatus p st now => match set_status s p st now with Ok s' => s' | Err _ => s end
  | OAddAffiliation p aff from unit_ primary source today =>
      match add_affiliation s p aff from unit_ primary source today with Ok s' => s' | Err _ => s end
  | OEndAffiliation p aff on today => end_affiliation s p aff on today
  end.

Lemma apply_op_keeps own_scope s o : keeps_names s (apply_op own_scope s o).
Proof.
  destruct o; simpl.
  - destruct (resolve _ _ _ _ _) as [[s' r]|] eqn:E; [by eapply resolve_keeps | by apply keeps_refl].
  - unfold allocate_eppn. destruct (String.eqb _ ""); [by apply keeps_refl|].
    destruct (first_free _ _ _ _) as [c|] eqn:E; [|by apply keeps_refl].
    destruct (insert_identifier _ s) as [s'|] eqn:Ei; simpl; [|by apply keeps_refl].
    eapply insert_identifier_keeps; [exact Ei|]. intros _. by apply first_free_spec in E as [? _].
  - apply release_keeps.
  - unfold set_status. destruct (exists_person s p); by apply keeps_refl.
  - unfold add_affiliation, insert_affiliation. destruct (Attributes.in_vocabulary aff); [|by apply keeps_refl].
    cbn. destruct (exists_person s p); by apply keeps_refl.
  - by apply keeps_refl.
Qed.

Lemma history_keeps own_scope ops s : keeps_names s (fold_left (apply_op own_scope) ops s).
Proof.
  revert s. induction ops as [|o ops IH]; intros s; simpl; [by apply keeps_refl|].
  eapply keeps_trans; [apply apply_op_keeps | apply IH].
Qed.

(** C8: A principal name is never reissued.  In every history of logins,
    allocations, releases, suspensions and affiliation changes, a name once
    issued, released or not, stays on record for the person it was issued to,
    and is issued to nobody else. *)
Theorem eppn_never_reissued own_scope ops s v p :
  eppn_unique s -> issued s ID_EPPN v p ->
  issued (fold_left (apply_op own_scope) ops s) ID_EPPN v p /\
  forall p', issued (fold_left (apply_op own_scope) ops s) ID_EPPN v p' -> p' = p.
Proof.
  intros Hu Hi. destruct (history_keeps own_scope ops s) as [H1 H2]. split; [by apply H1|].
  intros p' Hp'. destruct (H2 v p' p Hp' (H1 _ _ _ Hi)) as [->|[H H']]; [done|]. by eapply Hu.
Qed.

(** ** Linking *)

Lemma given_spec o v : given o = Some v <-> o = Some v /\ v <> "".
Proof.
  unfold given. destruct o as [s|]; [|naive_solver].
  destruct (String.eqb_spec s "") as [->|]; naive_solver.
Qed.

Lemma find_person_spec s p row : find_person s p = Some row -> row ∈ persons s /\ person_uuid row = p.
Proof. intros [H1 H2]%List.find_some. apply list_elem_of_In in H1. by apply String.eqb_eq in H2. Qed.

Lemma by_unique_id_spec s uid person :
  _by_asserted_unique_id s uid = Some person ->
  exists v row, uid = Some v /\ v <> "" /\ row ∈ identifiers s /\ id_type row = ID_UNIQUE /\ id_value row = v /\
    released_at row = None /\ id_person row = person_uuid person /\ person ∈ persons s.
Proof.
  unfold _by_asserted_unique_id. intros H.
  apply bind_Some in H as (v & Hv & H). apply bind_Some in H as (row & Hr & H).
  apply given_spec in Hv as [-> Hv]. apply List.find_some in Hr as [Hr Ht].
  apply andb_true_iff in Ht as [[H1 H2]%typed_spec Hl]. apply find_person_spec in H as [Hp E].
  exists v, row. unfold live in Hl. split_and!; try done; [by apply list_elem_of_In|by destruct (released_at row)].
Qed.

Lemma by_live_eppn_spec s name person :
  _by_live_eppn s name = Some person ->
  exists v row, name = Some v /\ v <> "" /\ row ∈ identifiers s /\ id_type row = ID_EPPN /\ id_value row = Py.lower v /\
    released_at row = None /\ id_person row = person_uuid person /\ person ∈ persons s /\ status person = STATUS_ACTIVE.
Proof.
  unfold _by_live_eppn. intros H.
  apply bind_Some in H as (v & Hv & H). apply bind_Some in H as (row & Hr & H). apply bind_Some in H as (q & Hq & H).
  destruct (String.eqb_spec (status q) STATUS_ACTIVE) as [Ha|]; [|done]. injection H as <-.
  apply given_spec in Hv as [-> Hv]. apply List.find_some in Hr as [Hr Ht].
  apply andb_true_iff in Ht as [[H1 H2]%typed_spec Hl]. apply find_person_spec in Hq as [Hp E].
  exists v, row. unfold live in Hl. split_and!; try done; [by apply list_elem_of_In|by destruct (released_at row)].
Qed.

Lemma create_person scope fresh s a now s' person :
  _create scope fresh s a now = Ok (s', person) ->
  person_uuid person = fresh_uuid fresh /\ (forall q, q ∈ persons s -> person_uuid q <> fresh_uuid fresh).
Proof.
  unfold _create. intros (s1 & H1 & H)%rbind_ok. apply rbind_ok in H as (s2 & _ & H).
  apply rbind_ok in H as (s3 & _ & H). apply rbind_ok in H as (s4 & _ & [= _ <-]). split; [done|].
  unfold insert_person in H1. destruct (existsb _ _) eqn:E; [done|]. intros q Hq Eq.
  apply (not_true_iff_false _) in E. destruct E. apply existsb_elem. exists q. split; [done|].
  cbn. by rewrite <- Eq, String.eqb_refl.
Qed.

(** What each outcome of a login rests on. *)
Definition evidence (fresh : Fresh) (s : db) (a : Assertion) (basis : LinkBasis) (p : option string) : Prop :=
  match basis with
  | UNIQUE_ID => exists v row, unique_id a = Some v /\ row ∈ identifiers s /\ id_type row = ID_UNIQUE /\
      id_value row = v /\ released_at row = None /\ p = Some (id_person row)
  | EXISTING_ACCOUNT => exists row, row ∈ accounts s /\ idp_entity_id row = as_idp_entity_id a /\
      subject_at_idp row = subject a /\ p = Some (ac_person row)
  | EPPN => exists v row person, eppn a = Some v /\ row ∈ identifiers s /\ id_type row = ID_EPPN /\
      id_value row = Py.lower v /\ released_at row = None /\ person ∈ persons s /\
      person_uuid person = id_person row /\ status person = STATUS_ACTIVE /\ p = Some (id_person row)
  | MANUAL_REVIEW => p = None
  | CREATED => p = Some (fresh_uuid fresh) /\ forall q, q ∈ persons s -> person_uuid q <> fresh_uuid fresh
  end.

(** C10: A login is linked on evidence, strongest first, and never on an email
    address.  An existing person is answered only for a live asserted unique id
    of theirs, an account of theirs for this very subject at this very issuer,
    or a live principal name of theirs while they are active; a later rule fires
    only where the earlier ones found nobody; a mail match alone names nobody
    and writes nothing; anybody else is new. *)
Theorem resolve_links_on_evidence own_scope fresh s a now s' r :
  resolve own_scope fresh s a now = Ok (s', r) ->
  evidence fresh s a (re_basis r) (re_person r) /\
  (re_basis r <> UNIQUE_ID -> _by_asserted_unique_id s (unique_id a) = None) /\
  (re_basis r <> UNIQUE_ID -> re_basis r <> EXISTING_ACCOUNT -> List.find (at_issuer a) (accounts s) = None) /\
  (re_basis r = MANUAL_REVIEW \/ re_basis r = CREATED -> _by_live_eppn s (eppn a) = None) /\
  (re_basis r = MANUAL_REVIEW <-> re_person r = None) /\ (re_basis r = MANUAL_REVIEW -> s' = s).
Proof.
  unfold resolve. destruct (_by_asserted_unique_id s (unique_id a)) as [person|] eqn:Eu.
  { intros (s1 & _ & [= <- <-])%rbind_ok. cbn. split; [|naive_solver].
    apply by_unique_id_spec in Eu as (v & row & -> & _ & Hr & Ht & Hv & Hl & <- & _). by exists v, row. }
  destruct (List.find (at_issuer a) (accounts s)) as [row|] eqn:Ea.
  { intros [= <- <-]. cbn. split; [|naive_solver]. apply List.find_some in Ea as [Hr H].
    apply andb_true_iff in H as [H1 H2]. apply String.eqb_eq in H1, H2. exists row.
    split; [by apply list_elem_of_In|done]. }
  destruct (_by_live_eppn s (eppn a)) as [person|] eqn:Ee.
  { intros (s1 & _ & [= <- <-])%rbind_ok. cbn. split; [|naive_solver].
    apply by_live_eppn_spec in Ee as (v & row & -> & _ & Hr & Ht & Hv & Hl & E & Hp & Hs).
    exists v, row, person. split_and!; congruence. }
  destruct (_mail_only_match s (mail a)); [intros [= <- <-]; cbn; naive_solver|].
  intros ([s1 person] & H1 & H)%rbind_ok. apply rbind_ok in H as (s2 & _ & [= <- <-]). cbn.
  apply create_person in H1 as [-> H1]. naive_solver.
Qed.

(** ** A returning subject *)

(** Every name on record belongs to somebody. *)
Definition names_have_owners (s : db) : Prop :=
  forall row, row ∈ identifiers s -> find_person s (id_person row) <> None.

Lemma find_elem {A} (f : A -> bool) l x : x ∈ l -> f x = true -> List.find f l <> None.
Proof.
  intros Hx Hf E. apply list_elem_of_In in Hx. apply (List.find_none _ _ E) in Hx. congruence.
Qed.

Lemma insert_identifier_adds row s s' :
  insert_identifier row s = Ok s' -> persons s' = persons s /\ identifiers s' = identifiers s ++ [row] /\ accounts s' = accounts s.
Proof. unfold insert_identifier. destruct (_ || _); [done|]. by intros [= <-]. Qed.

Lemma claim_adds s p e now s' :
  _claim_eppn s p e now = Ok s' ->
  persons s' = persons s /\ accounts s' = accounts s /\
  exists rows, identifiers s' = identifiers s ++ rows /\ Forall (fun row => id_person row = p) rows.
Proof.
  unfold _claim_eppn. destruct (negb _); [|destruct (first_free _ _ _ _)].
  1-2: intros (? & -> & ?)%insert_identifier_adds; split_and!; [done|done|];
    eexists; (split; [done|]); by repeat constructor.
  intros [= <-]. split_and!; [done|done|]. exists []. by rewrite app_nil_r.
Qed.

Lemma create_adds scope fresh s a now s' person :
  _create scope fresh s a now = Ok (s', person) ->
  persons s' = persons s ++ [person] /\ accounts s' = accounts s /\
  exists rows, identifiers s' = identifiers s ++ rows /\ Forall (fun row => id_person row = person_uuid person) rows /\
    (forall uid, given (unique_id a) = Some uid -> exists row, row ∈ rows /\ typed ID_UNIQUE uid row && live row = true).
Proof.
  unfold _create. set (q := Build_Person _ _ _ _ _ _ _ _ _ _ _).
  intros (s1 & H1 & H)%rbind_ok. apply rbind_ok in H as (s2 & H2 & H).
  apply rbind_ok in H as (s3 & H3 & H). apply rbind_ok in H as (s4 & H4 & [= <- <-]).
  unfold insert_person in H1. destruct (existsb _ _); [done|]. injection H1 as <-.
  assert (exists r2, persons s2 = persons s ++ [q] /\ accounts s2 = accounts s /\ identifiers s2 = identifiers s ++ r2 /\
    Forall (fun row => id_person row = person_uuid q) r2 /\
    forall uid, given (unique_id a) = Some uid -> exists row, row ∈ r2 /\ typed ID_UNIQUE uid row && live row = true)
    as (r2 & P2 & A2 & I2 & F2 & U2).
  { destruct (given (unique_id a)) as [uid|].
    - apply insert_identifier_adds in H2 as (-> & -> & ->). eexists. split_and!; [done|done|done|by repeat constructor|].
      intros ? [= <-]. eexists. split; [constructor|]. unfold typed. cbn. by rewrite String.eqb_refl.
    - injection H2 as <-. exists []. split_and!; [done|done| |done|done]. cbn. by rewrite app_nil_r. }
  apply claim_adds in H3 as (P3 & A3 & r3 & I3 & F3).
  assert (exists r4, persons s4 = persons s3 /\ accounts s4 = accounts s3 /\ identifiers s4 = identifiers s3 ++ r4 /\
    Forall (fun row => id_person row = person_uuid q) r4) as (r4 & -> & -> & -> & F4).
  { destruct (given (mail a)); [destruct (_identifier_taken _ _ _)|].
    2: { apply insert_identifier_adds in H4 as (-> & -> & ->). eexists. split_and!; [done..|by repeat constructor]. }
    all: injection H4 as <-; exists []; by rewrite app_nil_r. }
  split_and!; [congruence|congruence|]. exists (r2 ++ r3 ++ r4). rewrite I3, I2, !app_assoc. split; [done|].
  split; [by rewrite !Forall_app|].
  intros uid Hu. destruct (U2 uid Hu) as (row & Hr & ?). exists row. split; [|done].
  rewrite <- !app_assoc. apply elem_of_app. by left.
Qed.

Lemma find_person_app s s' p rows : persons s' = persons s ++ rows -> find_person s p <> None -> find_person s' p <> None.
Proof.
  unfold find_person. intros -> H E. destruct (List.find _ (persons s)) as [q|] eqn:Eq; [|done].
  apply List.find_some in Eq as [Hq H']. apply (find_elem _ (persons s ++ rows) q) in E; [done| |done].
  apply elem_of_app. left. by apply list_elem_of_In.
Qed.

(** A subject whose unique id is on record and who has an account already. *)
Lemma known_account_is_refused scope fresh s a now person :
  _by_asserted_unique_id s (unique_id a) = Some person ->
  List.find (at_issuer a) (accounts s) <> None ->
  resolve scope fresh s a now = Err IntegrityError.
Proof.
  intros Hu Ha. unfold resolve. rewrite Hu. unfold _touch_account, insert_account.
  assert (existsb (same_account {| ac_person := person_uuid person; idp_entity_id := as_idp_entity_id a;
    protocol := as_protocol a; subject_at_idp := subject a;
    link_confidence := if bool_decide (UNIQUE_ID = EPPN) then "medium" else "high";
    linked_at := now; last_login_at := Some now |}) (accounts s) = true) as ->.
  { destruct (List.find (at_issuer a) (accounts s)) as [row|] eqn:E; [|done]. apply List.find_some in E as [Hr H].
    apply existsb_elem. exists row. split; [by apply list_elem_of_In|]. unfold at_issuer in H. unfold same_account. cbn.
    by rewrite (String.eqb_sym (as_idp_entity_id a)), (String.eqb_sym (subject a)). }
  by rewrite orb_true_r.
Qed.

(** Every account belongs to somebody: the foreign key of [account_links]. *)
Definition accounts_have_owners (s : db) : Prop :=
  forall row, row ∈ accounts s -> get s (ac_person row) <> None.

Lemma touch_knows s p a basis now s' : _touch_account s p a basis now = Ok s' -> get s' p <> None.
Proof.
  unfold _touch_account, insert_account, exists_person, get. cbn.
  destruct (find_person s p) eqn:E; [|done]. destruct (existsb _ _); [done|]. intros [= <-]. unfold find_person in *. cbn. by rewrite E.
Qed.

(** Whoever a login is linked to has a row. *)
Lemma resolved_is_known own_scope fresh s a now s' r p :
  accounts_have_owners s ->
  resolve own_scope fresh s a now = Ok (s', r) -> re_person r = Some p -> get s' p <> None.
Proof.
  intros Hown. unfold resolve. destruct (_by_asserted_unique_id s (unique_id a)).
  { intros (s1 & Ht%touch_knows & [= <- <-])%rbind_ok [= <-]. done. }
  destruct (List.find (at_issuer a) (accounts s)) as [row|] eqn:Ea.
  { intros [= <- <-] [= <-]. apply List.find_some in Ea as [Hr _]. by apply (Hown row), list_elem_of_In. }
  destruct (_by_live_eppn s (eppn a)).
  { intros (s1 & Ht%touch_knows & [= <- <-])%rbind_ok [= <-]. done. }
  destruct (_mail_only_match s (mail a)); [by intros [= <- <-]|].
  intros ([s1 person] & _ & H)%rbind_ok. apply rbind_ok in H as (s2 & Ht%touch_knows & [= <- <-]). by intros [= <-].
Qed.

(** Nobody whose identity provider asserts a unique id can log in twice.
    The login that creates the person records the asserted unique id and the
    account; the next login of the same subject matches the unique id first, and
    recording that match inserts the account again, which the unique constraint
    on issuer and subject refuses. *)
Theorem second_unique_id_login_fails own_scope fresh fresh' s a now now' s' r uid :
  names_have_owners s -> given (unique_id a) = Some uid ->
  resolve own_scope fresh s a now = Ok (s', r) -> re_basis r = CREATED ->
  resolve own_scope fresh' s' a now' = Err IntegrityError.
Proof.
  intros Hown Hu. unfold resolve at 1. destruct (_by_asserted_unique_id s (unique_id a)) eqn:Eu.
  { intros (s1 & _ & [= <- <-])%rbind_ok. done. }
  destruct (List.find (at_issuer a) (accounts s)); [by intros [= <- <-]|].
  destruct (_by_live_eppn s (eppn a)); [intros (s1 & _ & [= <- <-])%rbind_ok; done|].
  destruct (_mail_only_match s (mail a)); [by intros [= <- <-]|].
  intros ([s1 person] & H1 & H)%rbind_ok _. apply rbind_ok in H as (s2 & H2 & [= <- <-]).
  apply create_adds in H1 as (P1 & A1 & rows & I1 & F1 & U1).
  unfold _touch_account, insert_account in H2. destruct (_ || _); [done|]. injection H2 as <-.
  set (s2 := Build_db _ _ _ _).
  assert (List.find (fun row => typed ID_UNIQUE uid row && live row) (identifiers s) = None) as Hnone.
  { unfold _by_asserted_unique_id in Eu. rewrite Hu in Eu. simpl in Eu.
    destruct (List.find _ (identifiers s)) as [row|] eqn:E; [|done]. exfalso. simpl in Eu.
    apply List.find_some in E as [Hr _]. by apply (Hown row); [apply list_elem_of_In|]. }
  destruct (U1 uid Hu) as (row & Hr & Ht).
  assert (exists q, _by_asserted_unique_id s2 (unique_id a) = Some q) as [q Hq].
  { unfold _by_asserted_unique_id. rewrite Hu. simpl.
    destruct (List.find (fun row => typed ID_UNIQUE uid row && live row) (identifiers s1)) as [row'|] eqn:E.
    2: { exfalso. revert E. apply (find_elem _ _ row); [rewrite I1; apply elem_of_app; by right | done]. }
    simpl. destruct (find_person s2 (id_person row')) as [q|] eqn:Ep; [by exists q|]. exfalso.
    apply List.find_some in E as [Hr' Ht']. apply list_elem_of_In in Hr'. rewrite I1 in Hr'.
    apply elem_of_app in Hr' as [Hr'|Hr'].
    { revert Hnone. by apply (find_elem _ _ row'). }
    rewrite Forall_forall in F1. rewrite (F1 _ Hr') in Ep. revert Ep. unfold find_person. cbn. rewrite P1.
    apply (find_elem _ _ person); [apply elem_of_app; right; constructor | apply String.eqb_refl]. }
  apply (known_account_is_refused own_scope fresh' s2 a now' q Hq).
  cbn. apply (find_elem _ _ {| ac_person := person_uuid person; idp_entity_id := as_idp_entity_id a;
    protocol := as_protocol a; subject_at_idp := subject a;
    link_confidence := if bool_decide (CREATED = EPPN) then "medium" else "high"; linked_at := now;
    last_login_at := Some now |}); [apply elem_of_app; right; constructor|].
  unfold at_issuer. cbn. by rewrite !String.eqb_refl.
Qed.

(** A principal name without an [@] is suffixed as a bare number.  When the
    asserted name has no scope and is taken, [rpartition] leaves no local part,
    so the newcomer's principal name is the suffix alone. *)
Theorem unscoped_collision_is_a_number s p e now :
  Py.has_char "@" e = false -> _identifier_taken s ID_EPPN (Py.lower e) = true ->
  _identifier_taken s ID_EPPN "2" = false -> exists_person s p = true ->
  exists s', _claim_eppn s p e now = Ok s' /\ identifiers s' = identifiers s ++ [eppn_row p "2" None now].
Proof.
  intros He Ht H2 Hp.
  assert (Py.rpartition "@" (Py.lower e) = (None, Py.lower e)) as Hr.
  { pose proof (Py.rpartition_spec "@" (Py.lower e)) as H.
    destruct (Py.rpartition "@" (Py.lower e)) as [[l|] x]; destruct H as [H Hx]; [|by rewrite <- H].
    rewrite <- (Py.has_char_lower_at e), H, Py.has_char_app in He.
    assert (Py.has_char "@" (String "@" x) = true) as E by done. rewrite E, orb_true_r in He. done. }
  unfold _claim_eppn. rewrite Ht. simpl. unfold _scope_of. rewrite Hr.
  change (first_free s (suffixed (Py.lower e) None) 2 998) with
    (if _identifier_taken s ID_EPPN (suffixed (Py.lower e) None 2)
     then first_free s (suffixed (Py.lower e) None) 3 997 else Some (suffixed (Py.lower e) None 2)).
  assert (suffixed (Py.lower e) None 2 = "2") as -> by (unfold suffixed; by rewrite Hr). rewrite H2.
  unfold insert_identifier. cbn [id_person eppn_row]. rewrite Hp. simpl.
  assert (existsb (same_identifier (eppn_row p "2" None now)) (identifiers s) = false) as ->.
  { clear. induction (identifiers s) as [|row l IH]; simpl; [done|]. unfold same_identifier at 1. cbn.
    by rewrite andb_false_r. }
  by eexists.
Qed.

(** A unique id with a capital letter can never be released.  Asserted
    unique ids are stored as they were asserted, and [release_identifier] lowers
    the value it looks for, so no release of any value touches such a row. *)
Theorem mixed_case_unique_id_stays_live s p t v now row :
  row ∈ identifiers s -> Py.lower (id_value row) <> id_value row ->
  row ∈ identifiers (release_identifier s p t v now).
Proof.
  intros Hr Hne. unfold release_identifier. cbn.
  destruct (update_first_split (held_by p t (Py.lower v)) (release_row now) (identifiers s)) as [H _].
  destruct (H row Hr) as [?|[E _]]; [done|]. exfalso. unfold held_by in E.
  apply andb_true_iff in E as [[_ [_ E]%typed_spec]%andb_true_iff _]. destruct Hne. by rewrite E, Py.lower_idem.
Qed.

(** ** Affiliations over time *)

Lemma affiliations_on_spec s p day aff :
  aff ∈ affiliations_on s p day <-> exists row, row ∈ affiliations s /\ holds_on p day row = true /\ affiliation row = aff.
Proof.
  unfold affiliations_on, Lifecycle.sorted. rewrite merge_sort_Permutation, elem_of_elements, elem_of_list_to_set.
  rewrite list_elem_of_fmap. split.
  - intros (row & -> & [H1 H2]%list_elem_of_In%filter_In). exists row. by rewrite list_elem_of_In.
  - intros (row & H1 & H2 & <-). exists row. split; [done|]. apply list_elem_of_In, filter_In. by rewrite <- list_elem_of_In.
Qed.

(** Ending an affiliation rewrites no history.  For every day before the
    end the registry answers what it answered before, for everybody; from that
    day on the person holds the affiliation only if another period, closed
    earlier with a later end, still covers the day. *)
Theorem ending_keeps_history s p aff day today :
  (forall q d, (d < day)%Z -> affiliations_on (end_affiliation s p aff (Some day) today) q d = affiliations_on s q d) /\
  (forall d, (day <= d)%Z ->
    aff ∈ affiliations_on (end_affiliation s p aff (Some day) today) p d <->
    exists row until, row ∈ affiliations s /\ affiliation row = aff /\ valid_until row = Some until /\ holds_on p d row = true).
Proof.
  assert (forall q d, (d < day)%Z -> forall row, holds_on q d
    (if current_affiliation p aff row then close_row day row else row) = holds_on q d row) as Hb.
  { intros q d Hd row. destruct (current_affiliation p aff row) eqn:E; [|done].
    unfold current_affiliation in E. bool_prop. unfold holds_on, close_row. cbn.
    destruct (valid_until row); [done|]. assert (d <? day = true)%Z as -> by (by apply Z.ltb_lt). done. }
  split.
  - intros q d Hd. unfold affiliations_on, end_affiliation. cbn. f_equal. f_equal.
    induction (affiliations s) as [|row l IH]; simpl; [done|].
    rewrite Hb by done. destruct (holds_on q d row); [|exact IH]. csimpl. rewrite IH. f_equal.
    by destruct (current_affiliation p aff row).
  - intros d Hd. rewrite affiliations_on_spec. unfold end_affiliation. cbn. split.
    + intros (row' & Hin & Hh & Ha). apply list_elem_of_In, in_map_iff in Hin as (row & <- & Hin).
      apply list_elem_of_In in Hin. destruct (current_affiliation p aff row) eqn:E.
      * unfold holds_on, close_row in Hh. cbn in Hh. bool_prop. lia.
      * destruct (valid_until row) as [until|] eqn:Ev; [by exists row, until|]. exfalso.
        unfold current_affiliation in E. unfold holds_on in Hh. bool_prop. subst aff p.
        by rewrite !String.eqb_refl, Ev in E.
    + intros (row & until & Hin & Ha & Hv & Hh). exists row. split; [|done].
      apply list_elem_of_In, in_map_iff. exists row. split; [|by apply list_elem_of_In].
      unfold current_affiliation. by rewrite Hv, andb_false_r.
Qed.

(** ** An example *)

Definition demo_assertion (sub : string) (uid name address : option string) : Assertion :=
  {| as_idp_entity_id := "https://idp.test"; as_protocol := PROTOCOL_SAML; subject := sub; unique_id := uid;
     eppn := name; mail := address; as_display_name := None; as_given_name := None; as_surname := None |}.

Definition empty_db : db := {| persons := []; identifiers := []; accounts := []; affiliations := [] |}.

Definition demo_fresh (p : string) : Fresh := {| fresh_uuid := p; fresh_hex := p |}.

(** A J. Smith arrives and leaves, and another arrives. *)
Definition demo_history : list op :=
  [ORelease "p1" ID_EPPN "jsmith@campus.test" 2;
   OResolve (demo_fresh "p2") (demo_assertion "n2" None (Some "jsmith@campus.test") None) 3].

Definition demo_db : db :=
  apply_op "campus.test" empty_db
    (OResolve (demo_fresh "p1") (demo_assertion "n1" None (Some "JSmith@campus.test") None) 1).

Lemma eppn_never_reissued_witness :
  issued demo_db ID_EPPN "jsmith@campus.test" "p1" /\
  (forall p', issued (fold_left (apply_op "campus.test") demo_history demo_db) ID_EPPN "jsmith@campus.test" p' -> p' = "p1") /\
  (exists row, row ∈ identifiers (fold_left (apply_op "campus.test") demo_history demo_db) /\
    id_person row = "p2" /\ id_value row = "jsmith2@campus.test").
Proof.
  assert (identifiers demo_db = [eppn_row "p1" "jsmith@campus.test" (Some "campus.test") 1]) as E by (vm_compute; reflexivity).
  assert (issued demo_db ID_EPPN "jsmith@campus.test" "p1") as Hi.
  { unfold issued. rewrite E. eexists. split; [constructor|done]. }
  assert (eppn_unique demo_db) as Hu.
  { unfold eppn_unique, issued. rewrite E. intros v p p' (r & ->%list_elem_of_singleton & _ & _ & <-)
      (r' & ->%list_elem_of_singleton & _ & _ & <-). done. }
  split; [exact Hi|]. split.
  - apply (eppn_never_reissued "campus.test" demo_history demo_db _ _ Hu Hi).
  - vm_compute. eexists. split; [right; constructor|]. done.
Defined.

Lemma resolve_links_on_evidence_witness :
  exists s' r, resolve "campus.test" (demo_fresh "p2") demo_db (demo_assertion "n2" None (Some "JSMITH@campus.test") None) 5 = Ok (s', r) /\
    evidence (demo_fresh "p2") demo_db (demo_assertion "n2" None (Some "JSMITH@campus.test") None) (re_basis r) (re_person r) /\
    re_person r = Some "p1".
Proof.
  destruct (resolve "campus.test" (demo_fresh "p2") demo_db (demo_assertion "n2" None (Some "JSMITH@campus.test") None) 5)
    as [[s' r]|e] eqn:E; [|vm_compute in E; discriminate].
  exists s', r. split; [reflexivity|]. split; [by apply (resolve_links_on_evidence _ _ _ _ _ _ _ E)|].
  vm_compute in E. injection E as <- <-. reflexivity.
Defined.

Lemma second_unique_id_login_fails_witness :
  resolve "campus.test" (demo_fresh "p2")
    (apply_op "campus.test" empty_db (OResolve (demo_fresh "p1") (demo_assertion "n1" (Some "u@idp.test") None None) 1))
    (demo_assertion "n1" (Some "u@idp.test") None None) 2 = Err IntegrityError.
Proof.
  destruct (resolve "campus.test" (demo_fresh "p1") empty_db (demo_assertion "n1" (Some "u@idp.test") None None) 1)
    as [[s' r]|e] eqn:E; [|vm_compute in E; discriminate].
  cbn [apply_op]. rewrite E. cbn [committed].
  apply (second_unique_id_login_fails "campus.test" (demo_fresh "p1") _ empty_db _ 1 2 s' r "u@idp.test");
    [by intros row ?%elem_of_nil|reflexivity|exact E|]. vm_compute in E. injection E as <- <-. reflexivity.
Defined.

Lemma unscoped_collision_is_a_number_witness :
  exists s', _claim_eppn
    {| persons := persons demo_db; identifiers := [eppn_row "p0" "jsmith" None 0]; accounts := []; affiliations := [] |}
    "p1" "jsmith" 5 = Ok s' /\
    identifiers s' = [eppn_row "p0" "jsmith" None 0; eppn_row "p1" "2" None 5].
Proof.
  apply (unscoped_collision_is_a_number
    {| persons := persons demo_db; identifiers := [eppn_row "p0" "jsmith" None 0]; accounts := []; affiliations := [] |}
    "p1" "jsmith" 5); vm_compute; reflexivity.
Defined.

Lemma mixed_case_unique_id_stays_live_witness :
  let row := {| id_person := "p1"; id_type := ID_UNIQUE; id_value := "Ab12@idp.test"; id_scope := Some "idp.test";
                is_primary := false; issued_at := 0; released_at := None |} in
  row ∈ identifiers (release_identifier
    {| persons := []; identifiers := [row]; accounts := []; affiliations := [] |} "p1" ID_UNIQUE "Ab12@idp.test" 9).
Proof.
  intros row. apply (mixed_case_unique_id_stays_live _ "p1" ID_UNIQUE "Ab12@idp.test" 9 row); [constructor|].
  vm_compute. discriminate.
Defined.

End Registry.
