(* ===== verification/Merge.v ===== *)
(** * What a session says about a person

    [campusid/identity/release.py]: the attributes an identity provider asserted,
    corrected by what the registry and the lifecycle record.  Closes with what
    that means for the claims a client receives. *)

From S2P Require Import Prelude PyStr Json Dict Sessions Lifecycle Attributes Release Registry.

Module Merge.

Definition BROKER_OWNED : list string := [Attributes.EPPN; Attributes.UNIQUE_ID; Attributes.ENTITLEMENT].
Definition SCOPE_OWNED : list string := [Attributes.SCOPED_AFFILIATION].

Definition live_order (r1 r2 : Registry.Identifier) : bool :=
  if Bool.eqb (Registry.is_primary r1) (Registry.is_primary r2)
  then String.leb (Registry.id_value r1) (Registry.id_value r2)
  else Registry.is_primary r1.

Definition _live (rows : list Registry.Identifier) (t : string) : list string :=
  Registry.id_value <$>
    Sort.sort live_order (List.filter (fun row => String.eqb (Registry.id_type row) t && Registry.live row) rows).

(** [if values: attributes[name] = values]. *)
Definition set_some (d : list (string * list string)) (name : string) (values : list string) :
    list (string * list string) :=
  match values with [] => d | _ => Dict.set d name values end.

Definition registry_attributes (s : Registry.db) (lc : Lifecycle.db) (p scope : string) (today : Z) :
    list (string * list string) :=
  match Registry.get s p with
  | None => []
  | Some person =>
      let rows := Registry.identifiers_of s p false in
      let a1 := [(Attributes.UNIQUE_ID, [Registry.edu_person_unique_id person])] in
      let a2 := set_some a1 Attributes.EPPN (_live rows "eppn") in
      let a3 := set_some a2 Attributes.MAIL (_live rows "mail") in
      let a4 := set_some a3 Attributes.SCOPED_AFFILIATION
                  ((fun value => value +:+ "@" +:+ scope) <$>
                     merge_sort String.le (Registry.affiliations_on s p today)) in
      set_some a4 Attributes.ENTITLEMENT (Lifecycle.sorted (Lifecycle.held lc p today))
  end.

Definition _in_scope (value scope : string) : bool :=
  match Py.rpartition "@" value with
  | (None, _) => true
  | (Some _, asserted_scope) => String.eqb (Py.lower asserted_scope) (Py.lower scope)
  end.

Fixpoint asserted_loop (scope : string) (asserted merged : list (string * list string)) :
    list (string * list string) :=
  match asserted with
  | [] => merged
  | (name, values) :: rest =>
      asserted_loop scope rest
        (if bool_decide (name ∈ BROKER_OWNED) then merged
         else if bool_decide (name ∈ SCOPE_OWNED) then
           set_some merged name (List.filter (fun value => negb (_in_scope value scope)) values)
         else Dict.set merged name values)
  end.

Fixpoint registry_loop (ours merged : list (string * list string)) : list (string * list string) :=
  match ours with
  | [] => merged
  | (name, values) :: rest =>
      registry_loop rest
        (match Dict.get merged name with
         | Some theirs =>
             if bool_decide (name ∈ SCOPE_OWNED)
             then Dict.set merged name (Lifecycle.sorted (list_to_set theirs ∪ list_to_set values))
             else Dict.set merged name values
         | None => Dict.set merged name values
         end)
  end.

Definition merge (asserted from_registry : list (string * list string)) (scope : string) :
    list (string * list string) :=
  registry_loop from_registry (asserted_loop scope asserted []).

(** ** Properties *)

(** What the loop over the asserted attributes leaves of one of them. *)
Definition kept (scope name : string) (values : list string) : option (list string) :=
  if bool_decide (name ∈ BROKER_OWNED) then None
  else if bool_decide (name ∈ SCOPE_OWNED) then
    match List.filter (fun value => negb (_in_scope value scope)) values with [] => None | l => Some l end
  else Some values.

Lemma set_some_get d name values k :
  Dict.get (set_some d name values) k =
    if decide (name = k) then match values with [] => Dict.get d k | _ => Some values end else Dict.get d k.
Proof. unfold set_some. destruct values; [by case_decide|]. by rewrite Dict.get_set. Qed.

Lemma NoDup_set_some d name values : NoDup (d.*1) -> NoDup ((set_some d name values).*1).
Proof. unfold set_some. destruct values; [done|]. apply Dict.NoDup_set. Qed.

Lemma asserted_loop_get scope asserted merged k :
  NoDup (asserted.*1) -> Dict.get merged k = None \/ k ∉ asserted.*1 ->
  Dict.get (asserted_loop scope asserted merged) k =
    match Dict.get asserted k with
    | Some values => kept scope k values
    | None => Dict.get merged k
    end.
Proof.
  revert merged. induction asserted as [|[name values] rest IH]; intros merged Hn Hk; cbn [asserted_loop]; [done|].
  cbn in Hn. apply NoDup_cons in Hn as [Hname Hn]. cbn [Dict.get].
  set (m' := if bool_decide (name ∈ BROKER_OWNED) then merged else _).
  assert (Dict.get m' k = if decide (name = k) then match kept scope k values with Some l => Some l | None => Dict.get merged k end
                          else Dict.get merged k) as Hm.
  { subst m'. unfold kept. case_decide as E; [subst name|].
    - case_bool_decide; [done|]. case_bool_decide; [|by rewrite Dict.get_set_eq].
      rewrite set_some_get. case_decide; [|done]. by destruct (List.filter _ values).
    - case_bool_decide; [done|]. case_bool_decide; [|by rewrite Dict.get_set_ne].
      rewrite set_some_get. by case_decide. }
  destruct (String.eqb_spec k name) as [->|Hne].
  - rewrite IH; [|done|by right]. rewrite (proj2 (Dict.get_None rest name) Hname), Hm. case_decide; [|done].
    destruct Hk as [->|Hk]; [by destruct (kept scope name values)|]. destruct Hk. constructor.
  - rewrite IH; [|done|].
    + rewrite Hm. by case_decide; [congruence|].
    + rewrite Hm. case_decide; [congruence|]. destruct Hk as [?|Hk]; [by left|right].
      intros Hin. apply Hk. by right.
Qed.

Lemma registry_loop_get ours merged k :
  NoDup (ours.*1) ->
  Dict.get (registry_loop ours merged) k =
    match Dict.get ours k with
    | Some values =>
        Some (if bool_decide (k ∈ SCOPE_OWNED)
              then match Dict.get merged k with
                   | Some theirs => Lifecycle.sorted (list_to_set theirs ∪ list_to_set values)
                   | None => values
                   end
              else values)
    | None => Dict.get merged k
    end.
Proof.
  revert merged. induction ours as [|[name values] rest IH]; intros merged Hn; cbn [registry_loop]; [done|].
  cbn in Hn. apply NoDup_cons in Hn as [Hname Hn]. rewrite IH by done. cbn [Dict.get].
  set (m' := match Dict.get merged name with Some _ => _ | None => _ end).
  assert (Dict.get m' k = if decide (name = k) then
    Some (if bool_decide (k ∈ SCOPE_OWNED)
          then match Dict.get merged k with
               | Some theirs => Lifecycle.sorted (list_to_set theirs ∪ list_to_set values) | None => values end
          else values) else Dict.get merged k) as Hm.
  { subst m'. destruct (decide (name = k)) as [->|].
    - destruct (Dict.get merged k), (bool_decide (k ∈ SCOPE_OWNED)); by rewrite Dict.get_set_eq.
    - destruct (Dict.get merged name), (bool_decide (name ∈ SCOPE_OWNED)); by rewrite Dict.get_set_ne. }
  destruct (String.eqb_spec k name) as [->|Hne].
  - rewrite (proj2 (Dict.get_None rest name) Hname), Hm. by destruct (decide (name = name)).
  - rewrite Hm. by destruct (decide (name = k)); [congruence|].
Qed.

Lemma merge_get asserted ours scope k :
  NoDup (asserted.*1) -> NoDup (ours.*1) ->
  Dict.get (merge asserted ours scope) k =
    match Dict.get ours k with
    | Some values =>
        Some (if bool_decide (k ∈ SCOPE_OWNED)
              then match Dict.get asserted k ≫= kept scope k with
                   | Some theirs => Lifecycle.sorted (list_to_set theirs ∪ list_to_set values)
                   | None => values
                   end
              else values)
    | None => Dict.get asserted k ≫= kept scope k
    end.
Proof.
  intros Ha Ho. unfold merge. rewrite registry_loop_get by done.
  assert (Dict.get (asserted_loop scope asserted []) k = Dict.get asserted k ≫= kept scope k) as ->; [|done].
  rewrite asserted_loop_get by (done || by left). by destruct (Dict.get asserted k).
Qed.

Lemma kept_elsewhere scope vs l v :
  kept scope Attributes.SCOPED_AFFILIATION vs = Some l -> v ∈ l -> v ∈ vs /\ _in_scope v scope = false.
Proof.
  unfold kept. rewrite bool_decide_eq_false_2 by (apply (bool_decide_eq_false_1 _); by vm_compute).
  rewrite bool_decide_eq_true_2 by constructor. intros E Hv.
  assert (v ∈ List.filter (fun value => negb (_in_scope value scope)) vs) as H.
  { destruct (List.filter _ vs); [done|]. by injection E as ->. }
  apply list_elem_of_In, filter_In in H as [H1 H2]. apply list_elem_of_In in H1. by rewrite negb_true_iff in H2.
Qed.

(** An identity provider decides nothing that is ours.  In the merged
    attributes of a session the principal name, the unique id and the
    entitlements are the registry's, or absent when it has none, whatever was
    asserted; a scoped affiliation is one the registry holds or one the provider
    asserted for another scope, and all of those are there; any other attribute
    is the registry's where it has one and the asserted one otherwise. *)
Theorem merge_respects_authority asserted ours scope :
  NoDup (asserted.*1) -> NoDup (ours.*1) ->
  (forall name, name ∈ BROKER_OWNED -> Dict.get (merge asserted ours scope) name = Dict.get ours name) /\
  (forall v, (exists vs, Dict.get (merge asserted ours scope) Attributes.SCOPED_AFFILIATION = Some vs /\ v ∈ vs) <->
    (exists vs, Dict.get ours Attributes.SCOPED_AFFILIATION = Some vs /\ v ∈ vs) \/
    (exists vs, Dict.get asserted Attributes.SCOPED_AFFILIATION = Some vs /\ v ∈ vs /\ _in_scope v scope = false)) /\
  (forall name, name ∉ BROKER_OWNED -> name ∉ SCOPE_OWNED ->
    Dict.get (merge asserted ours scope) name =
      match Dict.get ours name with Some values => Some values | None => Dict.get asserted name end).
Proof.
  intros Ha Ho. split_and!.
  - intros name Hb. rewrite merge_get by done.
    assert (bool_decide (name ∈ SCOPE_OWNED) = false) as ->.
    { apply bool_decide_eq_false. unfold BROKER_OWNED in Hb. intros ->%list_elem_of_singleton.
      repeat (apply elem_of_cons in Hb as [?|Hb]; [done|]). by apply elem_of_nil in Hb. }
    destruct (Dict.get ours name); [done|]. destruct (Dict.get asserted name); [|done]. simpl.
    unfold kept. by rewrite bool_decide_eq_true_2.
  - intros v. rewrite merge_get by done. rewrite (bool_decide_eq_true_2 (_ ∈ SCOPE_OWNED)) by constructor.
    assert (forall vs, (exists l, kept scope Attributes.SCOPED_AFFILIATION vs = Some l /\ v ∈ l) <->
      v ∈ vs /\ _in_scope v scope = false) as Hk.
    { intros vs. unfold kept. rewrite bool_decide_eq_false_2 by (apply (bool_decide_eq_false_1 _); by vm_compute).
      rewrite bool_decide_eq_true_2 by constructor.
      assert (v ∈ List.filter (fun value => negb (_in_scope value scope)) vs <-> v ∈ vs /\ _in_scope v scope = false) as E.
      { rewrite !list_elem_of_In, filter_In, negb_true_iff. done. }
      destruct (List.filter _ vs) as [|x l]; rewrite <- E; split; [by intros (? & ? & _)|by intros ?%elem_of_nil|..];
        [by intros (? & [= <-] & ?) | eauto]. }
    destruct (Dict.get ours _) as [values|], (Dict.get asserted _) as [vs|]; simpl.
    + specialize (Hk vs). destruct (kept scope Attributes.SCOPED_AFFILIATION vs) as [l|]; split.
      * intros (l' & [= <-] & Hv). unfold Lifecycle.sorted in Hv.
        rewrite merge_sort_Permutation, elem_of_elements, elem_of_union, !elem_of_list_to_set in Hv.
        destruct Hv as [Hv|Hv]; [right|left; eauto]. exists vs. split; [done|]. apply Hk. eauto.
      * intros H. eexists. split; [done|]. unfold Lifecycle.sorted.
        rewrite merge_sort_Permutation, elem_of_elements, elem_of_union, !elem_of_list_to_set.
        destruct H as [(? & [= <-] & ?)|(? & [= <-] & H)]; [by right|left]. apply Hk in H as (? & [= <-] & ?). done.
      * intros (? & [= <-] & ?). left. eauto.
      * intros [(? & [= <-] & ?)|(? & [= <-] & H)]; [eauto|]. apply Hk in H as (? & ? & _). done.
    + naive_solver.
    + specialize (Hk vs). destruct (kept scope Attributes.SCOPED_AFFILIATION vs) as [l|]; split.
      * intros (? & [= <-] & ?). right. exists vs. split; [done|]. apply Hk. eauto.
      * intros [(? & ? & _)|(? & [= <-] & H)]; [done|]. apply Hk in H as (? & [= <-] & ?). eauto.
      * by intros (? & ? & _).
      * intros [(? & ? & _)|(? & [= <-] & H)]; [done|]. apply Hk in H as (? & ? & _). done.
    + naive_solver.
  - intros name Hb Hs. rewrite merge_get by done. rewrite (bool_decide_eq_false_2 (_ ∈ SCOPE_OWNED)) by done.
    destruct (Dict.get ours name); [done|]. destruct (Dict.get asserted name); [|done]. simpl.
    unfold kept. by rewrite !bool_decide_eq_false_2.
Qed.

Lemma NoDup_registry_attributes s lc p scope today : NoDup ((registry_attributes s lc p scope today).*1).
Proof.
  unfold registry_attributes. destruct (Registry.get s p); [|constructor].
  repeat apply NoDup_set_some. apply NoDup_singleton.
Qed.

Lemma registry_attributes_get s lc p scope today k vs :
  Dict.get (registry_attributes s lc p scope today) k = Some vs ->
  (k = Attributes.ENTITLEMENT -> vs = Lifecycle.sorted (Lifecycle.held lc p today)) /\
  (k = Attributes.EPPN -> vs = _live (Registry.identifiers_of s p false) "eppn") /\
  (k = Attributes.SCOPED_AFFILIATION -> forall v, v ∈ vs ->
     exists a, a ∈ Registry.affiliations_on s p today /\ v = a +:+ "@" +:+ scope).
Proof.
  unfold registry_attributes. destruct (Registry.get s p) as [person|]; [|done].
  rewrite !set_some_get. cbn [Dict.get]. intros H. split_and!; intros ->.
  all: repeat (first [rewrite decide_False in H by (intros E; discriminate E) | rewrite decide_True in H by done]).
  all: cbn [String.eqb] in H.
  - destruct (Lifecycle.sorted _) eqn:E; [done|]. by injection H as <-.
  - destruct (_live _ "eppn") eqn:E; [done|]. by injection H as <-.
  - destruct (_ <$> _) as [|x l] eqn:E; [done|]. injection H as <-. rewrite <- E.
    intros v (a & -> & Ha)%list_elem_of_fmap. exists a. split; [|done]. by rewrite merge_sort_Permutation in Ha.
Qed.

Lemma live_elem rows t v :
  v ∈ _live rows t -> exists row, row ∈ rows /\ Registry.id_type row = t /\ Registry.id_value row = v /\ Registry.released_at row = None.
Proof.
  unfold _live. intros (row & -> & H)%list_elem_of_fmap. apply Sort.elem_of_sort, list_elem_of_In, filter_In in H as [H1 H2].
  apply andb_true_iff in H2 as [H2 H3]. apply String.eqb_eq in H2. exists row. unfold Registry.live in H3.
  split_and!; [by apply list_elem_of_In|done|done|by destruct (Registry.released_at row)].
Qed.

(** What a session carries under our authority is on record.  Whatever an
    identity provider asserted, an entitlement in the merged attributes is one
    the lifecycle holds for the person that day, a principal name is a live
    identifier of theirs, and an affiliation at our scope is one the registry
    has for them that day. *)
Theorem session_attributes_are_on_record asserted s lc p scope today :
  NoDup (asserted.*1) ->
  let attrs := merge asserted (registry_attributes s lc p scope today) scope in
  (forall vs v, Dict.get attrs Attributes.ENTITLEMENT = Some vs -> v ∈ vs -> v ∈ Lifecycle.held lc p today) /\
  (forall vs v, Dict.get attrs Attributes.EPPN = Some vs -> v ∈ vs ->
    exists row, row ∈ Registry.identifiers s /\ Registry.id_person row = p /\ Registry.id_type row = "eppn" /\
      Registry.id_value row = v /\ Registry.released_at row = None) /\
  (forall vs v, Dict.get attrs Attributes.SCOPED_AFFILIATION = Some vs -> v ∈ vs -> _in_scope v scope = true ->
    exists a, a ∈ Registry.affiliations_on s p today /\ v = a +:+ "@" +:+ scope).
Proof.
  intros Ha attrs. pose proof (NoDup_registry_attributes s lc p scope today) as Ho.
  assert (forall name, name ∈ BROKER_OWNED -> Dict.get attrs name = Dict.get (registry_attributes s lc p scope today) name) as Hb.
  { intros name Hin. subst attrs. rewrite merge_get by done.
    assert (bool_decide (name ∈ SCOPE_OWNED) = false) as ->.
    { apply bool_decide_eq_false. intros ->%list_elem_of_singleton. by vm_compute in Hin; repeat (apply elem_of_cons in Hin as [?|Hin]; [done|]); apply elem_of_nil in Hin. }
    destruct (Dict.get (registry_attributes s lc p scope today) name); [done|]. destruct (Dict.get asserted name); [|done].
    simpl. unfold kept. by rewrite bool_decide_eq_true_2. }
  split_and!.
  - intros vs v. rewrite Hb by (do 2 right; constructor). intros Hg Hv. apply registry_attributes_get in Hg as (Hg & _). rewrite (Hg eq_refl) in Hv.
    unfold Lifecycle.sorted in Hv. by rewrite merge_sort_Permutation, elem_of_elements in Hv.
  - intros vs v. rewrite Hb by constructor. intros Hg Hv. apply registry_attributes_get in Hg as (_ & Hg & _). rewrite (Hg eq_refl) in Hv.
    apply live_elem in Hv as (row & Hr & ? & ? & ?). exists row. split_and!; try done.
    all: unfold Registry.identifiers_of in Hr; apply Sort.elem_of_sort, list_elem_of_In, filter_In in Hr as [Hr Hp].
    + by apply list_elem_of_In.
    + apply andb_true_iff in Hp as [Hp _]. by apply String.eqb_eq in Hp.
  - intros vs v Hget Hv Hs. subst attrs. rewrite merge_get in Hget by done.
    rewrite (bool_decide_eq_true_2 (_ ∈ SCOPE_OWNED)) in Hget by constructor.
    destruct (Dict.get (registry_attributes s lc p scope today) _) as [values|] eqn:Er.
    + apply registry_attributes_get in Er as (_ & _ & Er). specialize (Er eq_refl).
      destruct (Dict.get asserted _ ≫= _) as [theirs|] eqn:Et; injection Hget as <-; [|by apply Er].
      unfold Lifecycle.sorted in Hv. rewrite merge_sort_Permutation, elem_of_elements, elem_of_union, !elem_of_list_to_set in Hv.
      destruct Hv as [Hv|Hv]; [|by apply Er]. exfalso. apply bind_Some in Et as (l & _ & Et). destruct (kept_elsewhere _ _ _ _ Et Hv) as [_ E]. congruence.
    + exfalso. apply bind_Some in Hget as (l & _ & Et). destruct (kept_elsewhere _ _ _ _ Et Hv) as [_ E]. congruence.
Qed.

(** A visitor's affiliation stops at the broker.  The merge keeps an
    affiliation asserted for another scope, and every release to a client
    normalises the session's attributes against our scope, which drops it: no
    policy and no scope of the client lets it through. *)
Theorem visitor_affiliation_never_released fullmatch hmac session policy scopes salt scope suppressed consented ri vs :
  NoDup ((Sessions.s_attributes session).*1) ->
  Release.release_to fullmatch hmac session policy scopes salt scope suppressed consented = Ok ri ->
  ("campus_scoped_affiliation", JArr (JStr <$> vs)) ∈ Release.ri_claims ri ->
  forall v, v ∈ vs -> exists local, v = local +:+ "@" +:+ scope.
Proof.
  intros Hn Hr Hin v Hv.
  apply (Release.release_to_claims _ _ _ _ _ _ _ _ _ _ _ _ Hn Hr) in Hin as (m & values & w & ws & Hm & Hc & _ & Hval & He & Hj).
  assert (m = Release.many Attributes.SCOPED_AFFILIATION "campus_scoped_affiliation" Release.SCOPE_AFFILIATION) as ->.
  { apply (Release.NoDup_fmap_inj Release.cm_claim Release.CLAIMS); [apply Release.claim_names|done| |done]. do 7 right. constructor. }
  cbn [Release.cm_attribute Release.cm_multivalued Release.many] in Hval, He, Hj.
  assert (vs = w :: ws) as ->.
  { assert (Json.strings (JStr <$> vs) = Json.strings (JStr <$> (w :: ws))) as E by congruence.
    rewrite !Json.strings_JStr in E. by injection E. }
  assert (v ∈ values) as Hvv.
  { destruct He as (_ & _ & [(rule & _ & [[_ E]|[(_ & _ & E)|[_ E]]])|(_ & _ & _ & E)]); rewrite E in Hv; try done.
    apply list_elem_of_In, filter_In in Hv as [Hv _]. by apply list_elem_of_In. }
  destruct (Attributes.normalized_affiliation _ _ _ _ Hn Hval Hvv) as (local & -> & _). by exists local.
Qed.

(** ** An example: a visitor whose provider overreaches *)

Definition demo_asserted : list (string * list string) :=
  [(Attributes.ENTITLEMENT, ["urn:admin"]);
   (Attributes.SCOPED_AFFILIATION, ["faculty@partner.test"; "staff@campus.test"])].

Lemma merge_respects_authority_witness :
  Dict.get (merge demo_asserted [(Attributes.UNIQUE_ID, ["u@campus.test"])] "campus.test") Attributes.ENTITLEMENT = None /\
  Dict.get (merge demo_asserted [(Attributes.UNIQUE_ID, ["u@campus.test"])] "campus.test") Attributes.SCOPED_AFFILIATION =
    Some ["faculty@partner.test"].
Proof.
  assert (NoDup (demo_asserted.*1)) as Ha by (apply (bool_decide_eq_true_1 _); vm_compute; reflexivity).
  split; [|vm_compute; reflexivity].
  destruct (merge_respects_authority demo_asserted [(Attributes.UNIQUE_ID, ["u@campus.test"])] "campus.test" Ha) as [Hb _];
    [apply NoDup_singleton|]. rewrite (Hb Attributes.ENTITLEMENT); [vm_compute; reflexivity|].
  unfold BROKER_OWNED. do 2 right. constructor.
Defined.

Definition demo_registry : Registry.db := {|
  Registry.persons := Registry.persons Registry.demo_db; Registry.identifiers := Registry.identifiers Registry.demo_db;
  Registry.accounts := [];
  Registry.affiliations := [ {| Registry.af_person := "p1"; Registry.affiliation := "student"; Registry.af_is_primary := true;
    Registry.org_unit := None; Registry.valid_from := 0; Registry.valid_until := None; Registry.af_source := "sis" |} ] |}.

Lemma session_attributes_are_on_record_witness :
  let attrs := merge demo_asserted
    (registry_attributes demo_registry {| Lifecycle.grant_rows := []; Lifecycle.events := [] |} "p1" "campus.test" 5) "campus.test" in
  Dict.get attrs Attributes.SCOPED_AFFILIATION = Some ["faculty@partner.test"; "student@campus.test"] /\
  exists a, a ∈ Registry.affiliations_on demo_registry "p1" 5 /\ "student@campus.test" = a +:+ "@" +:+ "campus.test".
Proof.
  assert (NoDup (demo_asserted.*1)) as Ha by (apply (bool_decide_eq_true_1 _); vm_compute; reflexivity).
  assert (Dict.get (merge demo_asserted
    (registry_attributes demo_registry {| Lifecycle.grant_rows := []; Lifecycle.events := [] |} "p1" "campus.test" 5) "campus.test")
    Attributes.SCOPED_AFFILIATION = Some ["faculty@partner.test"; "student@campus.test"]) as E by (vm_compute; reflexivity).
  intros attrs. split; [exact E|].
  apply (session_attributes_are_on_record demo_asserted demo_registry {| Lifecycle.grant_rows := []; Lifecycle.events := [] |}
    "p1" "campus.test" 5 Ha) with (vs := ["faculty@partner.test"; "student@campus.test"]); [exact E|right; constructor|].
  vm_compute. reflexivity.
Defined.

Definition demo_visit : Sessions.Session :=
  Sessions.new_session Sessions.ABSOLUTE_TIMEOUT "s1"
    {| Sessions.lg_idp_entity_id := "https://idp.partner.test"; Sessions.lg_name_id := "v"; Sessions.lg_name_id_format := None;
       Sessions.lg_auth_time := None; Sessions.lg_acr := None; Sessions.lg_amr := ["pwd"];
       Sessions.lg_session_index := None;
       Sessions.lg_attributes := [(Attributes.SCOPED_AFFILIATION, ["faculty@partner.test"; "student@campus.test"])];
       Sessions.lg_person_uuid := Some "p1"; Sessions.lg_impersonated_by := None |} 0.

Definition demo_policy : Release.ReleasePolicy :=
  {| Release.sp_entity_id := "https://lms.test"; Release.display_name := None;
     Release.entity_categories := {[Attributes.RESEARCH_AND_SCHOLARSHIP]};
     Release.subject_id_mode := Release.SHARED; Release.internal_school_official := false;
     Release.require_encrypted_assertion := false; Release.rules := [] |}.

Lemma visitor_affiliation_never_released_witness :
  exists ri, Release.release_to (fun _ _ => true) (fun _ _ => "") demo_visit demo_policy {[Release.SCOPE_AFFILIATION]} ""
    "campus.test" false ∅ = Ok ri /\
  ("campus_scoped_affiliation", JArr (JStr <$> ["student@campus.test"])) ∈ Release.ri_claims ri /\
  exists local, "student@campus.test" = local +:+ "@" +:+ "campus.test".
Proof.
  destruct (Release.release_to (fun _ _ => true) (fun _ _ => "") demo_visit demo_policy {[Release.SCOPE_AFFILIATION]} ""
    "campus.test" false ∅) as [ri|] eqn:E; [|vm_compute in E; discriminate].
  assert (("campus_scoped_affiliation", JArr (JStr <$> ["student@campus.test"])) ∈ Release.ri_claims ri) as Hin.
  { vm_compute in E. injection E as <-. constructor. }
  exists ri. split; [reflexivity|]. split; [exact Hin|].
  assert (NoDup ((Sessions.s_attributes demo_visit).*1)) as Hn by apply NoDup_singleton.
  apply (visitor_affiliation_never_released _ _ _ _ _ _ _ _ _ ri ["student@campus.test"] Hn E Hin). constructor.
Defined.

End Merge.
