(* ===== verification/AuditTrail.v ===== *)
(** * The audit trail

    [campusid/audit/chain.py], [events.py], [models.py], [log.py], [retention.py],
    [query.py] and [export.py]: what an event is and what may appear in one, the
    hash chain over the events, the writer that extends it, the retention pass
    that shortens it, and the paged reader.

    SHA-256, the text of a moment and what Postgres' [jsonb] gives back for a
    document are parameters.  The table is the list of its rows; the sequence
    numbers a column default draws come from the table's own counter, which a
    write that fails may use up. *)

From S2P Require Import Prelude PyStr Json Dict JsonText Attributes.

(** ** Events *)

Module Events.

Inductive EventType : Type :=
| AUTH_REQUEST | AUTH_SUCCESS | AUTH_FAILURE
| SESSION_CREATED | SESSION_ENDED | SESSION_TERMINATED
| AUTHZ_CODE_ISSUED | AUTHZ_DENIED
| TOKEN_ISSUED | TOKEN_REFRESHED | TOKEN_REVOKED | GRANT_REUSE_DETECTED
| ATTRIBUTE_RELEASE
| PROVISIONING_CREATED | PROVISIONING_UPDATED | PROVISIONING_DELETED
| LIFECYCLE_JOINER | LIFECYCLE_MOVER | LIFECYCLE_LEAVER
| ENTITLEMENT_GRANTED | ENTITLEMENT_REVOKED | DEPROVISION_STEP
| MFA_ENROLMENT_STARTED | MFA_ENROLLED | MFA_ENROLMENT_FAILED | MFA_FACTOR_REMOVED | MFA_STEP_UP
| MFA_RECOVERY_ISSUED | MFA_FAILED | MFA_LOCKED_OUT
| AUDIT_EXPORTED | AUDIT_PRUNED | ADMIN_ACTION | LOGOUT_DELIVERY_FAILED.

(** [event_type.value]. *)
Definition event_text (e : EventType) : string :=
  match e with
  | AUTH_REQUEST => "auth.request" | AUTH_SUCCESS => "auth.success" | AUTH_FAILURE => "auth.failure"
  | SESSION_CREATED => "session.created" | SESSION_ENDED => "session.ended" | SESSION_TERMINATED => "session.terminated"
  | AUTHZ_CODE_ISSUED => "authz.code_issued" | AUTHZ_DENIED => "authz.denied"
  | TOKEN_ISSUED => "token.issued" | TOKEN_REFRESHED => "token.refreshed" | TOKEN_REVOKED => "token.revoked"
  | GRANT_REUSE_DETECTED => "grant.reuse_detected" | ATTRIBUTE_RELEASE => "attribute.release"
  | PROVISIONING_CREATED => "provisioning.created" | PROVISIONING_UPDATED => "provisioning.updated"
  | PROVISIONING_DELETED => "provisioning.deleted"
  | LIFECYCLE_JOINER => "lifecycle.joiner" | LIFECYCLE_MOVER => "lifecycle.mover" | LIFECYCLE_LEAVER => "lifecycle.leaver"
  | ENTITLEMENT_GRANTED => "entitlement.granted" | ENTITLEMENT_REVOKED => "entitlement.revoked"
  | DEPROVISION_STEP => "deprovision.step"
  | MFA_ENROLMENT_STARTED => "mfa.enrolment_started" | MFA_ENROLLED => "mfa.enrolled"
  | MFA_ENROLMENT_FAILED => "mfa.enrolment_failed" | MFA_FACTOR_REMOVED => "mfa.factor_removed"
  | MFA_STEP_UP => "mfa.step_up" | MFA_RECOVERY_ISSUED => "mfa.recovery_issued"
  | MFA_FAILED => "mfa.failed" | MFA_LOCKED_OUT => "mfa.locked_out"
  | AUDIT_EXPORTED => "audit.exported" | AUDIT_PRUNED => "audit.pruned" | ADMIN_ACTION => "admin.action"
  | LOGOUT_DELIVERY_FAILED => "logout.delivery_failed"
  end.

Inductive Outcome : Type := SUCCESS | FAILURE | DENIED.
Definition outcome_text (o : Outcome) : string :=
  match o with SUCCESS => "success" | FAILURE => "failure" | DENIED => "denied" end.

#[global] Instance EventType_eq_dec : EqDecision EventType.
Proof. solve_decision. Defined.
#[global] Instance Outcome_eq_dec : EqDecision Outcome.
Proof. solve_decision. Defined.

Record AuditEvent : Type := {
  event_type : EventType;
  outcome : Outcome;
  timestamp : moment;
  correlation_id : string;
  event_id : string;
  actor : option string;
  subject : option string;
  target : option string;
  reason : option string;
  source_ip : option string;
  user_agent : option string;
  session_id : option string;
  detail : list (string * json);
}.

(** ** Redaction *)

Definition REDACTED := "[redacted]".

Definition SECRET_MARKERS : list string :=
  ["token"; "secret"; "password"; "assertion"; "cookie"; "verifier"; "challenge"; "code"; "key"; "credential"; "salt"].

Definition _is_secret (key : string) : bool := existsb (fun marker => Py.contains (Py.lower key) marker) SECRET_MARKERS.

Definition is_public (name : string) : bool :=
  match Attributes.definition name with
  | Some a => bool_decide (Attributes.classification a = Attributes.PUBLIC)
  | None => false
  end.

Definition _redact_attributes (attributes : list (string * json)) : list (string * json) :=
  map (fun kv => (kv.1, if is_public kv.1 then kv.2 else JStr REDACTED)) attributes.

Definition redact_item (kv : string * json) : string * json :=
  if _is_secret kv.1 then (kv.1, JStr REDACTED)
  else if String.eqb kv.1 "attributes" then
    match kv.2 with JObj m => (kv.1, JObj (_redact_attributes m)) | v => (kv.1, v) end
  else kv.

(** The keys of a dict are distinct, so rebuilding it keeps its order. *)
Definition redact (detail : list (string * json)) : list (string * json) := map redact_item detail.

(** A credential named at the top of an event's detail is not recorded, and
    of the attributes listed there only the public ones keep their values.  The
    names are all kept, in order, and nothing else changes. *)
Theorem redaction_is_structural d :
  (redact d).*1 = d.*1 /\
  (forall k v, (k, v) ∈ redact d -> _is_secret k = true -> v = JStr REDACTED) /\
  (forall m name v, ("attributes", JObj m) ∈ redact d -> (name, v) ∈ m -> is_public name = false -> v = JStr REDACTED) /\
  (forall k v, (k, v) ∈ d -> _is_secret k = false -> k <> "attributes" -> (k, v) ∈ redact d).
Proof.
  assert (forall kv, (redact_item kv).1 = kv.1) as Hk.
  { intros [k v]. unfold redact_item. simpl. destruct (_is_secret k); [done|]. destruct (String.eqb k "attributes"); [|done]. by destruct v. }
  split_and!.
  - unfold redact. induction d as [|kv d IH]; [done|]. csimpl. rewrite Hk. f_equal. exact IH.
  - intros k v Hin Hs. apply list_elem_of_In, in_map_iff in Hin as ([k' v'] & E & _).
    pose proof (Hk (k', v')) as E'. rewrite E in E'. simpl in E'. subst k'. unfold redact_item in E. simpl in E. rewrite Hs in E. congruence.
  - intros m name v Hin Hm Hp. apply list_elem_of_In, in_map_iff in Hin as ([k' v'] & E & _).
    pose proof (Hk (k', v')) as E'. rewrite E in E'. simpl in E'. subst k'. unfold redact_item in E. simpl in E.
    destruct v' as [| | | | | | |m']; try congruence. injection E as <-.
    apply list_elem_of_In, in_map_iff in Hm as ([n w] & E & _). simpl in E. injection E as <- <-. by rewrite Hp.
  - intros k v Hin Hs Ha. apply list_elem_of_In, in_map_iff. exists (k, v). split; [|by apply list_elem_of_In].
    unfold redact_item. simpl. rewrite Hs. by apply String.eqb_neq in Ha as ->.
Qed.

Lemma redaction_is_structural_witness :
  redact [("client_secret", JStr "s3"); ("attributes", JObj [(Attributes.MAIL, JArr [JStr "a@b"])])] =
    [("client_secret", JStr REDACTED); ("attributes", JObj [(Attributes.MAIL, JStr REDACTED)])] /\
  JStr REDACTED = JStr "[redacted]".
Proof.
  split; [vm_compute; reflexivity|].
  destruct (redaction_is_structural [("client_secret", JStr "s3"); ("attributes", JObj [(Attributes.MAIL, JArr [JStr "a@b"])])])
    as (_ & H & _). symmetry. apply (H "client_secret"); [|vm_compute; reflexivity]. vm_compute. constructor.
Defined.

(** Redaction does not reach into nested structure: a credential one level
    down is recorded as it is, whatever it is called. *)
Theorem nested_credentials_survive key secret v :
  _is_secret key = false -> key <> "attributes" ->
  redact [(key, JObj [(secret, v)])] = [(key, JObj [(secret, v)])].
Proof. intros Hs Ha. unfold redact, redact_item. simpl. rewrite Hs. by apply String.eqb_neq in Ha as ->. Qed.

Lemma nested_credentials_survive_witness :
  redact [("request", JObj [("client_secret", JStr "s3")])] = [("request", JObj [("client_secret", JStr "s3")])].
Proof. apply (nested_credentials_survive "request" "client_secret" (JStr "s3")); [vm_compute; reflexivity|discriminate]. Defined.

End Events.

(** ** The chain *)

Module Chain.

Definition GENESIS : string := Py.repeat_str 64 "0".

Definition FIELDS : list string :=
  ["event_id"; "event_type"; "outcome"; "occurred_at"; "correlation_id"; "actor"; "subject"; "target";
   "reason"; "source_ip"; "user_agent"; "session_id"; "detail"].

Inductive Problem : Type := ALTERED | UNLINKED | OUT_OF_ORDER.
Record Broken : Type := { b_seq : Z; b_event_id : string; problem : Problem }.

Section chain.
Context (sha256_hex : string -> string).
(** [strftime] of a moment in UTC, [repr] of a float. *)
Context (utc_text : moment -> string) (float_repr : Z -> Z -> string).

Fixpoint _render (value : json) : json :=
  match value with
  | JIso t => JStr (utc_text t)
  | JObj m =>
      JObj (Sort.sort JsonText.by_key
        ((fix go (m : list (string * json)) : list (string * json) :=
            match m with [] => [] | (k, v) :: m' => (k, _render v) :: go m' end) m))
  | JArr l => JArr ((fix go (l : list json) : list json := match l with [] => [] | v :: l' => _render v :: go l' end) l)
  | v => v
  end.

Definition render_members := fix go (m : list (string * json)) : list (string * json) :=
  match m with [] => [] | (k, v) :: m' => (k, _render v) :: go m' end.

Definition payload (event : list (string * json)) : list (string * json) :=
  Sort.sort JsonText.by_key ((fun name => (name, _render (Json.get event name))) <$> FIELDS).

(** [sort_keys] sorts the payload; the nested dicts are sorted already. *)
Definition canonical (event : list (string * json)) : string :=
  JsonText.dumps float_repr utc_text (JObj (payload event)).

Definition link (previous : string) (event : list (string * json)) : string :=
  sha256_hex (previous +:+ canonical event).

(** [int(event.get("seq") or 0)] and [str(event.get(k) or "")] of the columns
    the table has. *)
Definition seq_of (event : list (string * json)) : Z :=
  match Json.get event "seq" with JInt z => z | _ => 0 end.
Definition text_of (event : list (string * json)) (k : string) : string :=
  match Json.get event k with JStr s => s | _ => "" end.

Fixpoint verify_go (last_seq : option Z) (expected : string) (events : list (list (string * json))) : option Broken :=
  match events with
  | [] => None
  | event :: events' =>
      let broken p := Some {| b_seq := seq_of event; b_event_id := text_of event "event_id"; problem := p |} in
      if match last_seq with Some l => (seq_of event <=? l)%Z | None => false end then broken OUT_OF_ORDER
      else if negb (String.eqb (text_of event "prev_hash") expected) then broken UNLINKED
      else
        let computed := link expected event in
        if negb (String.eqb computed (text_of event "hash")) then broken ALTERED
        else verify_go (Some (seq_of event)) computed events'
  end.

Definition verify_from (expected : string) (events : list (list (string * json))) : option Broken :=
  verify_go None expected events.
Definition verify (events : list (list (string * json))) : option Broken := verify_from GENESIS events.

Definition head (events : list (list (string * json))) : string :=
  match last events with Some event => text_of event "hash" | None => GENESIS end.

(** *** Lemmas *)

(** The covered fields of two events agree. *)
Definition same_content (e1 e2 : list (string * json)) : Prop :=
  forall name, name ∈ FIELDS -> _render (Json.get e1 name) = _render (Json.get e2 name).

Definition plain_event (e : list (string * json)) : Prop :=
  forall name, name ∈ FIELDS -> JsonText.plain (_render (Json.get e name)) = true.

Lemma fields_distinct : NoDup FIELDS.
Proof. apply (bool_decide_eq_true_1 _). vm_compute. done. Qed.

Lemma payload_plain e : plain_event e -> JsonText.plain (JObj (payload e)) = true.
Proof.
  intros H. cbn [JsonText.plain]. apply forallb_forall. intros [k v] Hin%list_elem_of_In.
  apply Sort.elem_of_sort, list_elem_of_fmap in Hin as (name & [= -> ->] & Hn). by apply H.
Qed.

Lemma canonical_inj e1 e2 : plain_event e1 -> plain_event e2 -> canonical e1 = canonical e2 -> same_content e1 e2.
Proof.
  intros P1 P2 E. apply JsonText.dumps_inj in E; [|by apply payload_plain..].
  assert (payload e1 = payload e2) as E' by congruence. clear E.
  intros name Hn. assert ((name, _render (Json.get e1 name)) ∈ payload e2) as Hin.
  { rewrite <- E'. apply Sort.elem_of_sort, list_elem_of_fmap. by exists name. }
  apply Sort.elem_of_sort, list_elem_of_fmap in Hin as (n & [= -> ->] & _). done.
Qed.

Lemma canonical_content e1 e2 : same_content e1 e2 -> canonical e1 = canonical e2.
Proof.
  intros H. unfold canonical, payload. do 3 f_equal. apply list_fmap_ext. intros i name Hi.
  f_equal. apply H. by eapply list_elem_of_lookup_2.
Qed.

(** The hash the chain ends on after a verified segment. *)
Definition ends (expected : string) (events : list (list (string * json))) : string :=
  match last events with Some event => text_of event "hash" | None => expected end.

Lemma verify_go_app l expected a b :
  verify_go l expected (a ++ b) =
    match verify_go l expected a with
    | Some broken => Some broken
    | None => verify_go (match last a with Some e => Some (seq_of e) | None => l end) (ends expected a) b
    end.
Proof.
  revert l expected. induction a as [|e a IH]; intros l expected; simpl; [done|].
  destruct (match l with Some _ => _ | None => _ end); [done|].
  destruct (String.eqb (text_of e "prev_hash") expected); [simpl|done].
  destruct (String.eqb_spec (link expected e) (text_of e "hash")) as [E|]; [simpl|done].
  rewrite IH. unfold ends. destruct a as [|e' a]; [by rewrite E|]. rewrite last_cons_cons.
  destruct (last (e' :: a)) eqn:El; [done|]. by apply last_None in El.
Qed.

(** A segment that verifies: every row links to the one before. *)
Inductive linked (h : string) : list (list (string * json)) -> string -> Prop :=
| linked_nil : linked h [] h
| linked_snoc events h' e :
    linked h events h' -> text_of e "prev_hash" = h' -> text_of e "hash" = link h' e ->
    linked h (events ++ [e]) (link h' e).

Lemma linked_cons h e l h2 :
  text_of e "prev_hash" = h -> text_of e "hash" = link h e -> linked (link h e) l h2 -> linked h (e :: l) h2.
Proof.
  intros H1 H2 Hl. induction Hl as [|l h3 e' Hl IH Hp Hh].
  - apply (linked_snoc h [] h e); [constructor|done|done].
  - rewrite app_comm_cons. by constructor.
Qed.

Lemma verify_go_linked l h events : verify_go l h events = None -> exists h', linked h events h'.
Proof.
  revert l h. induction events as [|e events IH]; intros l h H; [eexists; constructor|]. simpl in H.
  destruct (match l with Some _ => _ | None => _ end); [done|].
  destruct (String.eqb_spec (text_of e "prev_hash") h) as [Hp|]; [|done].
  destruct (String.eqb_spec (link h e) (text_of e "hash")) as [Hh|]; [|done]. simpl in H.
  destruct (IH _ _ H) as [h' Hl]. exists h'. by apply linked_cons.
Qed.

Lemma linked_ends h events h' : linked h events h' -> h' = ends h events.
Proof. destruct 1 as [|events h' e _ _ Hh]; unfold ends; [done|]. by rewrite last_snoc, Hh. Qed.

(** A collision of SHA-256, or a message it maps to the genesis value. *)
Definition forgery : Prop :=
  (exists m1 m2, m1 <> m2 /\ sha256_hex m1 = sha256_hex m2) \/ (exists m, sha256_hex m = GENESIS).

Hypothesis sha_length : forall m, String.length (sha256_hex m) = 64%nat.

Lemma app_inv_length s1 s2 t1 t2 :
  String.length s1 = String.length s2 -> s1 +:+ t1 = s2 +:+ t2 -> s1 = s2 /\ t1 = t2.
Proof.
  revert s2. induction s1 as [|c s1 IH]; intros [|c2 s2] Hl E; try done. rewrite !Py.app_String in E.
  injection E as -> E. simpl in Hl. by destruct (IH s2 ltac:(lia) E) as [-> ->].
Qed.

Lemma linked_length events h' : linked GENESIS events h' -> String.length h' = 64%nat.
Proof. inversion 1; subst; [by vm_compute | apply sha_length]. Qed.

Lemma linked_snoc_inv h l h' : linked h l h' ->
  (l = [] /\ h' = h) \/
  exists l0 e h0, l = l0 ++ [e] /\ linked h l0 h0 /\ text_of e "prev_hash" = h0 /\
    text_of e "hash" = link h0 e /\ h' = link h0 e.
Proof. destruct 1; [by left|right]. eexists _, _, _. eauto. Qed.

Lemma linked_unique n1 l1 l2 h :
  length l1 = n1 -> Forall plain_event l1 -> Forall plain_event l2 ->
  linked GENESIS l1 h -> linked GENESIS l2 h -> Forall2 same_content l1 l2 \/ forgery.
Proof using sha_length.
  revert l1 l2 h. induction n1 as [|n1 IH]; intros l1 l2 h Hn P1 P2
    [(-> & E1)|(a1 & e1 & h1 & -> & L1 & _ & _ & E1)]%linked_snoc_inv
    [(-> & E2)|(a2 & e2 & h2 & -> & L2 & _ & _ & E2)]%linked_snoc_inv.
  - left. constructor.
  - right. right. exists (h2 +:+ canonical e2). unfold link in E2. congruence.
  - by rewrite length_app, Nat.add_comm in Hn.
  - by rewrite length_app, Nat.add_comm in Hn.
  - done.
  - right. right. exists (h2 +:+ canonical e2). unfold link in E2. congruence.
  - right. right. exists (h1 +:+ canonical e1). unfold link in E1. congruence.
  - rewrite length_app in Hn. simpl in Hn. apply Forall_app in P1 as [P1 [Q1 _]%Forall_cons].
    apply Forall_app in P2 as [P2 [Q2 _]%Forall_cons].
    destruct (decide (h1 +:+ canonical e1 = h2 +:+ canonical e2)) as [E|Hne].
    + apply app_inv_length in E as [-> E]; [|by rewrite (linked_length _ _ L1), (linked_length _ _ L2)].
      destruct (IH a1 a2 h2 ltac:(lia) P1 P2 L1 L2) as [H|]; [left|by right].
      apply Forall2_app; [done|]. constructor; [|constructor]. by apply canonical_inj.
    + right. left. exists (h1 +:+ canonical e1), (h2 +:+ canonical e2). unfold link in E1, E2. split; [done|congruence].
Qed.

(** A published head pins the trail.  Two trails that both verify and end on
    the same hash have the same events in the same order, field by covered field,
    unless a collision of SHA-256, or a message that hashes to the genesis
    constant, has been found.  So no event can be edited, removed, inserted or
    reordered under a head that was published. *)
Theorem published_head_pins_trail l1 l2 :
  Forall plain_event l1 -> Forall plain_event l2 ->
  verify l1 = None -> verify l2 = None -> head l1 = head l2 ->
  Forall2 same_content l1 l2 \/ forgery.
Proof using sha_length.
  intros P1 P2 (h1 & L1)%verify_go_linked (h2 & L2)%verify_go_linked E.
  assert (h1 = h2) as ->; [|by eapply linked_unique].
  rewrite (linked_ends _ _ _ L1), (linked_ends _ _ _ L2). exact E.
Qed.
End chain.
End Chain.
