(* ===== verification/AuditLog.v ===== *)
(** * The audit log: writer, verifier, retention, reader

    [campusid/audit/models.py], [log.py], [retention.py], [query.py] and
    [export.py] over the chain of [AuditTrail.v].  A page of rows is what the SQL
    query selects: a filter, an order on [seq] and a limit.  A loop over pages
    takes fuel, and the theorems show that one more than the number of rows is
    enough. *)

From S2P Require Import Prelude PyStr Json Dict JsonText Attributes AuditTrail.

Module AuditLog.

Record AuditEventRecord : Type := {
  ar_event_id : string;
  ar_event_type : string;
  ar_outcome : string;
  ar_occurred_at : moment;
  ar_correlation_id : string;
  ar_actor : option string;
  ar_subject : option string;
  ar_target : option string;
  ar_reason : option string;
  ar_source_ip : option string;
  ar_user_agent : option string;
  ar_session_id : option string;
  ar_detail : list (string * json);
  ar_seq : Z;
  ar_prev_hash : string;
  ar_hash : string;
}.

Record AuditRetentionAnchor : Type := {
  removed_through_seq : Z;
  removed_through_hash : string;
  removed_count : nat;
  an_cutoff : moment;
  performed_at : moment;
  performed_by : string;
  an_reason : string;
}.

(** The two tables, and the counter the column default of [seq] draws from. *)
Record trail : Type := {
  rows : list AuditEventRecord;
  anchors : list AuditRetentionAnchor;
  next_seq : Z;
}.

Definition opt_json (o : option string) : json := match o with Some s => JStr s | None => JNull end.

Definition _row (e : Events.AuditEvent) : list (string * json) := [
  ("event_id", JStr (Events.event_id e)); ("event_type", JStr (Events.event_text (Events.event_type e)));
  ("outcome", JStr (Events.outcome_text (Events.outcome e))); ("occurred_at", JIso (Events.timestamp e));
  ("correlation_id", JStr (Events.correlation_id e)); ("actor", opt_json (Events.actor e));
  ("subject", opt_json (Events.subject e)); ("target", opt_json (Events.target e));
  ("reason", opt_json (Events.reason e)); ("source_ip", opt_json (Events.source_ip e));
  ("user_agent", opt_json (Events.user_agent e)); ("session_id", opt_json (Events.session_id e));
  ("detail", JObj (Events.detail e))].

Definition _verifiable (r : AuditEventRecord) : list (string * json) := [
  ("seq", JInt (ar_seq r)); ("prev_hash", JStr (ar_prev_hash r)); ("hash", JStr (ar_hash r));
  ("event_id", JStr (ar_event_id r)); ("event_type", JStr (ar_event_type r)); ("outcome", JStr (ar_outcome r));
  ("occurred_at", JIso (ar_occurred_at r)); ("correlation_id", JStr (ar_correlation_id r));
  ("actor", opt_json (ar_actor r)); ("subject", opt_json (ar_subject r)); ("target", opt_json (ar_target r));
  ("reason", opt_json (ar_reason r)); ("source_ip", opt_json (ar_source_ip r));
  ("user_agent", opt_json (ar_user_agent r)); ("session_id", opt_json (ar_session_id r));
  ("detail", JObj (ar_detail r))].

Definition by_seq (r1 r2 : AuditEventRecord) : bool := (ar_seq r1 <=? ar_seq r2)%Z.
Definition by_through (a1 a2 : AuditRetentionAnchor) : bool := (removed_through_seq a1 <=? removed_through_seq a2)%Z.

(** [order_by(seq.desc()).limit(1)]. *)
Definition newest (l : list AuditEventRecord) : option AuditEventRecord := last (Sort.sort by_seq l).
Definition newest_anchor (l : list AuditRetentionAnchor) : option AuditRetentionAnchor := last (Sort.sort by_through l).

(** [str(x) if x else GENESIS]. *)
Definition or_genesis (h : option string) : string :=
  match h with Some h => if String.eqb h "" then Chain.GENESIS else h | None => Chain.GENESIS end.

Definition _starting_hash (s : trail) : string := or_genesis (removed_through_hash <$> newest_anchor (anchors s)).

Definition chain_head (s : trail) : string :=
  match newest (rows s) with
  | Some r => if String.eqb (ar_hash r) "" then _starting_hash s else ar_hash r
  | None => _starting_hash s
  end.

(** [where(seq > last).order_by(seq).limit(n)]. *)
Definition rows_after (l : list AuditEventRecord) (lst : Z) : list AuditEventRecord :=
  Sort.sort by_seq (List.filter (fun r => (lst <? ar_seq r)%Z) l).

(** ** Context variables *)

Record context : Type := { cx_correlation_id : option string; cx_impersonator : option string }.

Definition set_impersonator (v : option string) (c : context) : context :=
  {| cx_correlation_id := cx_correlation_id c; cx_impersonator := v |}.
Definition set_correlation_id (v : string) (c : context) : context :=
  {| cx_correlation_id := Some v; cx_impersonator := cx_impersonator c |}.
(** [fresh] is what [new_correlation_id] would draw. *)
Definition correlation_id (fresh : string) (c : context) : context * string :=
  match cx_correlation_id c with
  | Some id => (c, id)
  | None => (set_correlation_id fresh c, fresh)
  end.

(** What [record] is called with, and what it draws. *)
Record entry : Type := {
  en_type : Events.EventType;
  en_outcome : Events.Outcome;
  en_actor : option string;
  en_subject : option string;
  en_target : option string;
  en_reason : option string;
  en_source_ip : option string;
  en_user_agent : option string;
  en_session_id : option string;
  en_detail : list (string * json);
  en_now : moment;
}.
Record draws : Type := { dr_event_id : string; dr_correlation_id : string }.

(** Whether the transaction of [_write] commits; if not, whether it had drawn a
    sequence number. *)
Inductive fate : Type := Committed | Lost (drawn : bool).

(** [{**detail, "impersonation": True, "impersonated_by": acting_as}]. *)
Definition marked (acting_as : option string) (detail : list (string * json)) : list (string * json) :=
  match acting_as with
  | Some who => Json.insert (Json.insert detail "impersonation" (JBool true)) "impersonated_by" (JStr who)
  | None => detail
  end.

Section log.
Context (sha256_hex : string -> string) (utc_text : moment -> string) (float_repr : Z -> Z -> string).
(** What reading a [jsonb] column gives back for what was stored. *)
Context (jsonb : list (string * json) -> list (string * json)).

Definition stored (e : Events.AuditEvent) (seq : Z) (previous : string) : AuditEventRecord := {|
  ar_event_id := Events.event_id e; ar_event_type := Events.event_text (Events.event_type e);
  ar_outcome := Events.outcome_text (Events.outcome e); ar_occurred_at := Events.timestamp e;
  ar_correlation_id := Events.correlation_id e; ar_actor := Events.actor e; ar_subject := Events.subject e;
  ar_target := Events.target e; ar_reason := Events.reason e; ar_source_ip := Events.source_ip e;
  ar_user_agent := Events.user_agent e; ar_session_id := Events.session_id e;
  ar_detail := jsonb (Events.detail e); ar_seq := seq; ar_prev_hash := previous;
  ar_hash := Chain.link sha256_hex utc_text float_repr previous (_row e) |}.

Definition skip_seq (n : Z) (s : trail) : trail :=
  {| rows := rows s; anchors := anchors s; next_seq := (next_seq s + n)%Z |}.

(** An exception of the transaction is swallowed; [event_id] is unique. *)
Definition _write (s : trail) (e : Events.AuditEvent) (f : fate) : trail :=
  match f with
  | Lost drawn => skip_seq (if drawn then 1 else 0) s
  | Committed =>
      if existsb (fun r => String.eqb (ar_event_id r) (Events.event_id e)) (rows s) then skip_seq 1 s
      else
        let previous := match newest (rows s) with Some r => ar_hash r | None => _starting_hash s end in
        {| rows := rows s ++ [stored e (next_seq s) previous]; anchors := anchors s; next_seq := (next_seq s + 1)%Z |}
  end.

Definition event_of (c : context) (d : draws) (en : entry) : Events.AuditEvent :=
  {| Events.event_type := en_type en; Events.outcome := en_outcome en; Events.timestamp := en_now en;
     Events.correlation_id := (correlation_id (dr_correlation_id d) c).2; Events.event_id := dr_event_id d;
     Events.actor := en_actor en; Events.subject := en_subject en; Events.target := en_target en;
     Events.reason := en_reason en; Events.source_ip := en_source_ip en; Events.user_agent := en_user_agent en;
     Events.session_id := en_session_id en;
     Events.detail := Events.redact (marked (cx_impersonator c) (en_detail en)) |}.

Definition record (c : context) (s : trail) (en : entry) (d : draws) (f : fate) :
    context * trail * Events.AuditEvent :=
  let e := event_of c d en in
  ((correlation_id (dr_correlation_id d) c).1, _write s e f, e).

(** ** The verifier *)

Fixpoint verify_loop (fuel batch : nat) (expected : string) (last_seq : Z) (l : list AuditEventRecord) :
    option (option Chain.Broken) :=
  match fuel with
  | O => None
  | S fuel' =>
      let page := take batch (rows_after l last_seq) in
      match last page with
      | None => Some None
      | Some final =>
          match Chain.verify_from sha256_hex utc_text float_repr expected (_verifiable <$> page) with
          | Some broken => Some (Some broken)
          | None => verify_loop fuel' batch (ar_hash final) (ar_seq final) l
          end
      end
  end.

Definition verify_chain (batch : nat) (s : trail) : option (option Chain.Broken) :=
  verify_loop (S (length (rows s))) batch (_starting_hash s) 0 (rows s).

(** ** Retention *)

Definition DEFAULT_RETENTION : duration := 400 * 86400 * SECOND.

Record Pruned : Type := { removed : nat; through_seq : option Z; through_hash : string }.

Definition anchor_before (s : trail) (seq : Z) : option (Z * string) :=
  (fun a => (removed_through_seq a, removed_through_hash a)) <$>
    newest_anchor (List.filter (fun a => (removed_through_seq a <? seq)%Z) (anchors s)).

Definition starting_hash (s : trail) : string :=
  match newest_anchor (anchors s) with Some a => removed_through_hash a | None => Chain.GENESIS end.

Definition _boundary (s : trail) (cutoff : moment) : option (Z * string) :=
  (fun r => (ar_seq r, ar_hash r)) <$> newest (List.filter (fun r => (ar_occurred_at r <? cutoff)%Z) (rows s)).

(** What the sink is handed, page by page. *)
Fixpoint export_loop (fuel batch : nat) (through lst : Z) (l : list AuditEventRecord) :
    option (list AuditEventRecord) :=
  match fuel with
  | O => None
  | S fuel' =>
      let page := take batch (List.filter (fun r => (ar_seq r <=? through)%Z) (rows_after l lst)) in
      match last page with
      | None => Some []
      | Some final => rest ← export_loop fuel' batch through (ar_seq final) l; Some (page ++ rest)
      end
  end.

Definition _export (s : trail) (through : Z) (batch : nat) : option (list AuditEventRecord) :=
  export_loop (S (length (rows s))) batch through 0 (rows s).

Definition due (s : trail) (older_than : duration) (now : moment) : nat :=
  length (List.filter (fun r => (ar_occurred_at r <? now - older_than)%Z) (rows s)).

(** The deletion and the anchor, in one transaction. *)
Definition cut (s : trail) (through : Z) (h : string) (exported : nat) (cutoff now : moment) (by_ why : string) : trail :=
  {| rows := List.filter (fun r => negb (ar_seq r <=? through)%Z) (rows s);
     anchors := anchors s ++ [ {| removed_through_seq := through; removed_through_hash := h;
       removed_count := exported; an_cutoff := cutoff; performed_at := now; performed_by := by_; an_reason := why |} ];
     next_seq := next_seq s |}.

Definition pruned_entry (by_ why : string) (exported : nat) (through : Z) (cutoff now : moment) : entry :=
  {| en_type := Events.AUDIT_PRUNED; en_outcome := Events.SUCCESS; en_actor := Some by_; en_subject := None;
     en_target := None; en_reason := Some why; en_source_ip := None; en_user_agent := None; en_session_id := None;
     en_detail := [("removed", JInt (Z.of_nat exported)); ("through_seq", JInt through); ("cutoff", JStr (utc_text cutoff))];
     en_now := now |}.

(** [sink_ok] tells whether the sink takes every page; a sink that raises leaves
    the trail alone.  The result is the context, the trail, what the sink was
    handed and the report. *)
Definition prune (c : context) (s : trail) (older_than : duration) (sink_ok : bool) (by_ why : string)
    (now wall : moment) (batch : nat) (d : draws) (f : fate) :
    option (context * trail * list AuditEventRecord * option Pruned) :=
  let cutoff := (now - older_than)%Z in
  match _boundary s cutoff with
  | None => Some (c, s, [], Some {| removed := 0; through_seq := None; through_hash := starting_hash s |})
  | Some (through, h) =>
      if negb sink_ok then Some (c, s, [], None)
      else
        exported ← _export s through batch;
        let s1 := cut s through h (length exported) cutoff now by_ why in
        let '(c2, s2, _) := record c s1 (pruned_entry by_ why (length exported) through cutoff wall) d f in
        Some (c2, s2, exported, Some {| removed := length exported; through_seq := Some through; through_hash := h |})
  end.

(** ** Reading *)

Definition DEFAULT_LIMIT : nat := 50.
Definition MAX_LIMIT : nat := 500.

Record Query : Type := {
  q_subject : option string;
  q_actor : option string;
  q_target : option string;
  q_event_type : option string;
  q_outcome : option string;
  q_correlation_id : option string;
  q_since : option moment;
  q_until : option moment;
  q_limit : Z;
  q_before_seq : option Z;
}.

Record Page : Type := { p_events : list AuditEventRecord; next_cursor : option Z }.

Definition eq_opt (wanted : option string) (v : option string) : bool :=
  match wanted with None => true | Some w => bool_decide (v = Some w) end.

Definition at_least (o : option Z) (v : Z) : bool := match o with Some b => (b <=? v)%Z | None => true end.
Definition below (o : option Z) (v : Z) : bool := match o with Some b => (v <? b)%Z | None => true end.

(** The conditions other than the cursor. *)
Definition selects (q : Query) (r : AuditEventRecord) : bool :=
  eq_opt (q_subject q) (ar_subject r) && eq_opt (q_actor q) (ar_actor r) && eq_opt (q_target q) (ar_target r) &&
  eq_opt (q_event_type q) (Some (ar_event_type r)) && eq_opt (q_outcome q) (Some (ar_outcome r)) &&
  eq_opt (q_correlation_id q) (Some (ar_correlation_id r)) &&
  at_least (q_since q) (ar_occurred_at r) && below (q_until q) (ar_occurred_at r).

Definition _filtered (q : Query) (r : AuditEventRecord) : bool := selects q r && below (q_before_seq q) (ar_seq r).

Definition newest_first (r1 r2 : AuditEventRecord) : bool := (ar_seq r2 <=? ar_seq r1)%Z.

(** [max(1, min(query.limit, MAX_LIMIT))]. *)
Definition clamp (limit : Z) : nat := Z.to_nat (Z.max 1 (Z.min limit (Z.of_nat MAX_LIMIT))).

Definition search (l : list AuditEventRecord) (q : Query) : Page :=
  let limit := clamp (q_limit q) in
  let found := take (limit + 1) (Sort.sort newest_first (List.filter (_filtered q) l)) in
  if (limit <? length found)%nat
  then {| p_events := take limit found; next_cursor := ar_seq <$> found !! (limit - 1)%nat |}
  else {| p_events := found; next_cursor := None |}.

Definition with_cursor (limit : Z) (before : option Z) (q : Query) : Query :=
  {| q_subject := q_subject q; q_actor := q_actor q; q_target := q_target q; q_event_type := q_event_type q;
     q_outcome := q_outcome q; q_correlation_id := q_correlation_id q; q_since := q_since q; q_until := q_until q;
     q_limit := limit; q_before_seq := before |}.

Definition about (who : string) (limit : Z) : Query :=
  {| q_subject := Some who; q_actor := None; q_target := None; q_event_type := None; q_outcome := None;
     q_correlation_id := None; q_since := None; q_until := None; q_limit := limit; q_before_seq := None |}.

Definition timeline (l : list AuditEventRecord) (who : string) (limit : Z) : list AuditEventRecord :=
  rev (p_events (search l (about who limit))).

Definition as_json (r : AuditEventRecord) : list (string * json) := [
  ("seq", JInt (ar_seq r)); ("event_id", JStr (ar_event_id r)); ("event_type", JStr (ar_event_type r));
  ("outcome", JStr (ar_outcome r)); ("occurred_at", JIso (ar_occurred_at r));
  ("correlation_id", JStr (ar_correlation_id r)); ("actor", opt_json (ar_actor r)); ("subject", opt_json (ar_subject r));
  ("target", opt_json (ar_target r)); ("reason", opt_json (ar_reason r)); ("source_ip", opt_json (ar_source_ip r));
  ("user_agent", opt_json (ar_user_agent r)); ("session_id", opt_json (ar_session_id r));
  ("detail", JObj (ar_detail r)); ("prev_hash", JStr (ar_prev_hash r)); ("hash", JStr (ar_hash r))].

(** The pages [ndjson] collects, in the order it fetches them. *)
Fixpoint pages_loop (fuel : nat) (l : list AuditEventRecord) (q : Query) (cursor : option Z) :
    option (list (list AuditEventRecord)) :=
  match fuel with
  | O => None
  | S fuel' =>
      let page := search l (with_cursor (Z.of_nat MAX_LIMIT) cursor q) in
      match p_events page with
      | [] => Some []
      | events =>
          match next_cursor page with
          | None => Some [events]
          | Some c => rest ← pages_loop fuel' l q (Some c); Some (events :: rest)
          end
      end
  end.

(** The lines of the export: one document each. *)
Definition ndjson (l : list AuditEventRecord) (q : Query) : option (list (list (string * json))) :=
  pages ← pages_loop (S (length l)) l q (q_before_seq q);
  Some (as_json <$> concat (map (@rev AuditEventRecord) (rev pages))).

(** ** Pages *)

Definition distinct (l : list AuditEventRecord) : Prop := NoDup (ar_seq <$> l).

Definition ascending : list AuditEventRecord -> Prop := StronglySorted (fun r1 r2 => (ar_seq r1 < ar_seq r2)%Z).

Lemma by_seq_total r1 r2 : by_seq r1 r2 = false -> by_seq r2 r1 = true.
Proof. unfold by_seq. intros H. bool_prop. apply Z.leb_le. lia. Qed.

Lemma by_seq_trans r1 r2 r3 : by_seq r1 r2 = true -> by_seq r2 r3 = true -> by_seq r1 r3 = true.
Proof. unfold by_seq. intros. bool_prop. apply Z.leb_le. lia. Qed.

Lemma sorted_ascending l : distinct l -> StronglySorted by_seq l -> ascending l.
Proof.
  intros Hd Hs. induction Hs as [|r l Hl IH Hr]; [constructor|].
  unfold distinct in Hd. csimpl in Hd. apply NoDup_cons in Hd as [Hn Hd]. constructor; [by apply IH|].
  rewrite Forall_forall in Hr |- *. intros x Hx. specialize (Hr x Hx). apply Is_true_true in Hr.
  unfold by_seq in Hr. bool_prop. assert (ar_seq r <> ar_seq x); [|lia].
  intros E. apply Hn. rewrite E. apply list_elem_of_fmap. eauto.
Qed.

Lemma ascending_by_seq l : ascending l -> StronglySorted by_seq l.
Proof.
  induction 1 as [|r l Hl IH Hr]; constructor; [done|]. eapply Forall_impl; [exact Hr|].
  intros x Hx. apply Is_true_true. apply Z.leb_le. cbn in Hx. lia.
Qed.

Lemma ascending_sort l : distinct l -> ascending (Sort.sort by_seq l).
Proof.
  intros Hd. apply sorted_ascending; [|apply (Sort.sort_sorted _ by_seq_total by_seq_trans)].
  unfold distinct. by rewrite Sort.sort_Permutation.
Qed.

Lemma ascending_filter f l : ascending l -> ascending (List.filter f l).
Proof.
  induction 1 as [|r l Hl IH Hr]; simpl; [constructor|]. destruct (f r); [|done]. constructor; [done|].
  rewrite Forall_forall in Hr |- *. intros x Hx. apply Hr. apply list_elem_of_In, filter_In in Hx as [Hx _].
  by apply list_elem_of_In.
Qed.

Lemma rows_after_ascending l lst : distinct l -> ascending (rows_after l lst).
Proof.
  intros Hd. unfold rows_after. rewrite <- (Sort.filter_sort _ by_seq_total by_seq_trans).
  by apply ascending_filter, ascending_sort.
Qed.

Lemma ascending_app a b :
  ascending (a ++ b) -> ascending a /\ ascending b /\ forall x y, x ∈ a -> y ∈ b -> (ar_seq x < ar_seq y)%Z.
Proof.
  unfold ascending. induction a as [|r a IH]; simpl; intros H.
  { split_and!; [constructor|done|]. by intros x y ?%elem_of_nil. }
  apply StronglySorted_inv in H as [H Hr]. apply Forall_app in Hr as [Ha Hb]. destruct (IH H) as (H1 & H2 & H3).
  split_and!; [by constructor|done|]. rewrite Forall_forall in Hb. intros x y [->|Hx]%elem_of_cons Hy; eauto.
Qed.

Lemma filter_all {A} (f : A -> bool) l : (forall x, x ∈ l -> f x = true) -> List.filter f l = l.
Proof.
  induction l as [|x l IH]; intros H; simpl; [done|]. rewrite (H x) by constructor. f_equal. apply IH.
  intros y Hy. apply H. by right.
Qed.
Lemma filter_nothing {A} (f : A -> bool) l : (forall x, x ∈ l -> f x = false) -> List.filter f l = [].
Proof.
  induction l as [|x l IH]; intros H; simpl; [done|]. rewrite (H x) by constructor. apply IH.
  intros y Hy. apply H. by right.
Qed.

Lemma after_row p e d :
  ascending ((p ++ [e]) ++ d) -> List.filter (fun r => (ar_seq e <? ar_seq r)%Z) ((p ++ [e]) ++ d) = d.
Proof.
  intros (Hp & _ & Hd)%ascending_app. apply ascending_app in Hp as (_ & _ & Hp). rewrite List.filter_app.
  rewrite (filter_nothing _ (p ++ [e])), app_nil_l.
  - apply filter_all. intros x Hx. apply Z.ltb_lt, Hd; [apply elem_of_app; right; constructor|done].
  - intros x [Hx|Hx%list_elem_of_singleton]%elem_of_app; apply Z.ltb_ge; [|subst; lia].
    apply Z.lt_le_incl, Hp; [done|constructor].
Qed.

(** What follows the last row of a page is the rest. *)
Lemma after_page (L : list AuditEventRecord) n e :
  ascending L -> last (take n L) = Some e -> List.filter (fun r => (ar_seq e <? ar_seq r)%Z) L = drop n L.
Proof.
  intros Ha [P He]%last_Some. rewrite <- (take_drop n L) in Ha. rewrite <- (take_drop n L) at 1.
  rewrite He in Ha |- *. by apply after_row.
Qed.

Lemma rows_after_later l lst x :
  (lst < x)%Z -> rows_after l x = List.filter (fun r => (x <? ar_seq r)%Z) (rows_after l lst).
Proof.
  intros Hlt. unfold rows_after. rewrite (Sort.filter_sort _ by_seq_total by_seq_trans). f_equal.
  induction l as [|r l IH]; simpl; [done|].
  destruct (Z.ltb_spec lst (ar_seq r)); simpl; rewrite IH; [done|].
  destruct (Z.ltb_spec x (ar_seq r)); [lia|done].
Qed.

Lemma rows_after_elem l lst r : r ∈ rows_after l lst <-> r ∈ l /\ (lst < ar_seq r)%Z.
Proof. unfold rows_after. by rewrite Sort.elem_of_sort, !list_elem_of_In, filter_In, Z.ltb_lt. Qed.

Lemma rows_after_length l lst : (length (rows_after l lst) <= length l)%nat.
Proof. unfold rows_after. rewrite Sort.sort_Permutation. apply List.filter_length_le. Qed.

Lemma last_of_page {A} n (L : list A) e : last (take n L) = Some e -> e ∈ L.
Proof.
  intros [P He]%last_Some. rewrite <- (take_drop n L), He. apply elem_of_app. left. apply elem_of_app. right. constructor.
Qed.

Lemma rows_after_page l lst n e :
  distinct l -> last (take n (rows_after l lst)) = Some e ->
  rows_after l (ar_seq e) = drop n (rows_after l lst).
Proof.
  intros Hd He. rewrite <- (after_page _ _ _ (rows_after_ascending l lst Hd) He).
  apply rows_after_later. by apply last_of_page, rows_after_elem in He as [_ He].
Qed.

(** ** Verifying in batches *)

Lemma verify_go_fresh last h l :
  (forall e, e ∈ l -> (last < Chain.seq_of e)%Z) ->
  Chain.verify_go sha256_hex utc_text float_repr (Some last) h l = Chain.verify_go sha256_hex utc_text float_repr None h l.
Proof.
  destruct l as [|e l]; [done|]. intros H. cbn [Chain.verify_go].
  assert (Chain.seq_of e <=? last = false)%Z as -> by (apply Z.leb_gt, H; constructor). done.
Qed.

Lemma seq_of_verifiable r : Chain.seq_of (_verifiable r) = ar_seq r.
Proof. done. Qed.
Lemma hash_of_verifiable r : Chain.text_of (_verifiable r) "hash" = ar_hash r.
Proof. done. Qed.

Lemma last_fmap {A B} (f : A -> B) l : last (f <$> l) = f <$> last l.
Proof. induction l as [|x [|y l] IH]; [done|done|]. by rewrite !fmap_cons, !last_cons_cons, <- fmap_cons, IH. Qed.

Lemma verify_loop_spec fuel batch h lst l :
  distinct l -> (1 <= batch)%nat -> (length (rows_after l lst) < fuel)%nat ->
  verify_loop fuel batch h lst l =
    Some (Chain.verify_from sha256_hex utc_text float_repr h (_verifiable <$> rows_after l lst)).
Proof.
  intros Hd Hb. revert h lst. induction fuel as [|fuel IH]; intros h lst Hf; [lia|]. cbn [verify_loop].
  destruct (last (take batch (rows_after l lst))) as [e|] eqn:Ee.
  - rewrite <- (take_drop batch (rows_after l lst)) at 2. rewrite fmap_app.
    unfold Chain.verify_from at 2. rewrite Chain.verify_go_app.
    unfold Chain.verify_from at 1. destruct (Chain.verify_go _ _ _ None h (_verifiable <$> take batch _)); [done|].
    rewrite IH.
    + rewrite (rows_after_page l lst batch e Hd Ee). f_equal. unfold Chain.verify_from, Chain.ends.
      rewrite last_fmap, Ee. cbn [fmap option_fmap option_map]. rewrite seq_of_verifiable, hash_of_verifiable.
      symmetry. apply verify_go_fresh. intros x (r & -> & Hr)%list_elem_of_fmap. rewrite seq_of_verifiable.
      pose proof (rows_after_ascending l lst Hd) as Ha. rewrite <- (take_drop batch (rows_after l lst)) in Ha.
      apply ascending_app in Ha as (_ & _ & Ha). apply Ha; [|done].
      apply last_Some in Ee as [P ->]. apply elem_of_app. right. constructor.
    + rewrite (rows_after_page l lst batch e Hd Ee), length_drop.
      destruct (rows_after l lst) as [|r L]; [by rewrite take_nil in Ee|]. simpl in Hf |- *. lia.
  - apply last_None in Ee. destruct (rows_after l lst) as [|r L]; [done|]. destruct batch; [lia|done].
Qed.

(** The verifier ends, and reading the trail in batches hides nothing: for
    every batch size, on a trail in any state, it reports exactly what one walk
    over all the rows of positive sequence, from the starting hash, reports. *)
Theorem batches_verify_the_whole batch s :
  distinct (rows s) -> (1 <= batch)%nat ->
  verify_chain batch s =
    Some (Chain.verify_from sha256_hex utc_text float_repr (_starting_hash s) (_verifiable <$> rows_after (rows s) 0)).
Proof.
  intros Hd Hb. apply verify_loop_spec; [done..|].
  pose proof (rows_after_length (rows s) 0). lia.
Qed.

(** A row of non-positive sequence is outside the chain.  Whatever it holds,
    inserting it changes nothing the verifier reports, although the readers
    return it like any other row. *)
Theorem nonpositive_row_is_not_verified batch s r :
  (ar_seq r <= 0)%Z -> distinct (rows s) -> distinct (r :: rows s) -> (1 <= batch)%nat ->
  verify_chain batch {| rows := r :: rows s; anchors := anchors s; next_seq := next_seq s |} = verify_chain batch s.
Proof.
  intros Hr Hd Hd' Hb. unfold verify_chain. cbn [rows anchors].
  assert (rows_after (r :: rows s) 0 = rows_after (rows s) 0) as E.
  { unfold rows_after. simpl. by destruct (Z.ltb_spec 0 (ar_seq r)); [lia|]. }
  pose proof (rows_after_length (rows s) 0).
  rewrite !verify_loop_spec by (done || (rewrite ?E; simpl; lia)). by rewrite E.
Qed.

(** ** Exporting before deleting *)

Lemma filter_swap {A} (f g : A -> bool) l : List.filter f (List.filter g l) = List.filter g (List.filter f l).
Proof.
  induction l as [|x l IH]; simpl; [done|]. destruct (f x) eqn:F, (g x) eqn:G; simpl; rewrite ?F, ?G, ?IH; done.
Qed.

Lemma export_loop_spec fuel batch through lst l :
  distinct l -> (1 <= batch)%nat ->
  (length (List.filter (fun r => (ar_seq r <=? through)%Z) (rows_after l lst)) < fuel)%nat ->
  export_loop fuel batch through lst l = Some (List.filter (fun r => (ar_seq r <=? through)%Z) (rows_after l lst)).
Proof.
  intros Hd Hb. revert lst. induction fuel as [|fuel IH]; intros lst Hf; [lia|]. cbn [export_loop].
  set (L := List.filter (fun r => (ar_seq r <=? through)%Z) (rows_after l lst)) in *.
  assert (ascending L) as Ha by (by apply ascending_filter, rows_after_ascending).
  destruct (last (take batch L)) as [e|] eqn:Ee.
  - assert (lst < ar_seq e)%Z as Hlt.
    { apply last_of_page, list_elem_of_In, filter_In in Ee as [Ee%list_elem_of_In _]. by apply rows_after_elem in Ee as [_ Ee]. }
    assert (List.filter (fun r => (ar_seq r <=? through)%Z) (rows_after l (ar_seq e)) = drop batch L) as E.
    { rewrite (rows_after_later l lst) by done. rewrite filter_swap. by apply after_page. }
    rewrite IH; rewrite E.
    + simpl. by rewrite take_drop.
    + rewrite length_drop. destruct L as [|r L']; [by rewrite take_nil in Ee|]. simpl in Hf |- *. lia.
  - apply last_None in Ee. destruct L as [|r L']; [done|]. destruct batch; [lia|done].
Qed.

Lemma export_total s through batch :
  distinct (rows s) -> (1 <= batch)%nat ->
  _export s through batch = Some (List.filter (fun r => (ar_seq r <=? through)%Z) (rows_after (rows s) 0)).
Proof.
  intros Hd Hb. apply export_loop_spec; [done..|].
  pose proof (List.filter_length_le (fun r => (ar_seq r <=? through)%Z) (rows_after (rows s) 0)).
  pose proof (rows_after_length (rows s) 0). lia.
Qed.

(** Nothing is deleted that was not exported.  A pass over a trail of
    positive sequences ends, hands the sink exactly the rows it deletes, oldest
    first, and keeps every other row; a sink that raises, or a trail with nothing
    old enough, leaves the trail as it was. *)
Theorem prune_exports_what_it_deletes c s older sink_ok by_ why now wall batch d :
  distinct (rows s) -> Forall (fun r => 0 < ar_seq r)%Z (rows s) -> (1 <= batch)%nat ->
  exists c' s' handed report,
    prune c s older sink_ok by_ why now wall batch d (Lost false) = Some (c', s', handed, report) /\
    ascending handed /\
    (forall r, r ∈ rows s <-> r ∈ handed \/ r ∈ rows s') /\ (forall r, r ∈ handed -> r ∉ rows s') /\
    (sink_ok = false -> rows s' = rows s).
Proof.
  intros Hd Hp Hb. unfold prune. destruct (_boundary s (now - older)) as [[through h]|].
  2: { eexists _, _, _, _. split; [done|]. split; [constructor|]. split_and!; [|by intros r ?%elem_of_nil|done].
       intros r. split; [by right|]. by intros [?%elem_of_nil|?]. }
  destruct sink_ok; simpl.
  2: { eexists _, _, _, _. split; [done|]. split; [constructor|]. split_and!; [|by intros r ?%elem_of_nil|done].
       intros r. split; [by right|]. by intros [?%elem_of_nil|?]. }
  rewrite export_total by done. cbn [mbind option_bind]. eexists _, _, _, _. split; [done|].
  split; [by apply ascending_filter, rows_after_ascending|].
  rewrite Forall_forall in Hp. cbn [rows skip_seq _write cut fst snd record].
  split_and!; [| |done].
  - intros r. rewrite !list_elem_of_In, !filter_In, <- !list_elem_of_In, rows_after_elem, negb_true_iff.
    specialize (Hp r). destruct (ar_seq r <=? through)%Z; naive_solver.
  - intros r [_ H1]%list_elem_of_In%filter_In [_ H2]%list_elem_of_In%filter_In. by rewrite H1 in H2.
Qed.

(** The cut is on the sequence, so a pass can delete what is not old.  An
    event recorded after another but stamped before the cutoff drags every
    earlier row with it, however recent. *)
Theorem late_stamp_prunes_recent c s older by_ why now wall batch d old recent :
  distinct (rows s) -> (1 <= batch)%nat ->
  old ∈ rows s -> recent ∈ rows s -> (ar_seq recent < ar_seq old)%Z ->
  (ar_occurred_at old < now - older <= ar_occurred_at recent)%Z ->
  exists c' s' handed report,
    prune c s older true by_ why now wall batch d (Lost false) = Some (c', s', handed, report) /\ recent ∉ rows s'.
Proof.
  intros Hd Hb Ho Hr Hseq Ht. unfold prune, _boundary, newest.
  set (F := List.filter (fun r => (ar_occurred_at r <? now - older)%Z) (rows s)).
  assert (old ∈ F) as HoF by (apply list_elem_of_In, filter_In; split; [by apply list_elem_of_In|apply Z.ltb_lt; lia]).
  assert (ascending (Sort.sort by_seq F)) as Ha.
  { subst F. rewrite <- (Sort.filter_sort _ by_seq_total by_seq_trans). by apply ascending_filter, ascending_sort. }
  apply (Sort.elem_of_sort by_seq) in HoF.
  destruct (last (Sort.sort by_seq F)) as [e|] eqn:Ee.
  2: { apply last_None in Ee. rewrite Ee in HoF. by apply elem_of_nil in HoF. }
  cbn [fmap option_fmap option_map negb]. rewrite export_total by done. cbn [mbind option_bind].
  eexists _, _, _, _. split; [done|]. cbn [rows skip_seq _write cut fst snd record].
  intros H. apply list_elem_of_In, filter_In in H as [_ H]. bool_prop.
  apply last_Some in Ee as [P Ee]. rewrite Ee in Ha, HoF. apply ascending_app in Ha as (_ & _ & Ha).
  apply elem_of_app in HoF as [HoF| ->%list_elem_of_singleton]; [|lia].
  specialize (Ha old e HoF ltac:(constructor)). lia.
Qed.

(** ** Reading page by page *)

Lemma newest_first_total r1 r2 : newest_first r1 r2 = false -> newest_first r2 r1 = true.
Proof. apply by_seq_total. Qed.
Lemma newest_first_trans r1 r2 r3 : newest_first r1 r2 = true -> newest_first r2 r3 = true -> newest_first r1 r3 = true.
Proof. unfold newest_first. intros. bool_prop. apply Z.leb_le. lia. Qed.

Lemma StronglySorted_rev (l : list AuditEventRecord) :
  ascending l -> StronglySorted newest_first (rev l).
Proof.
  induction 1 as [|r l Hl IH Hr]; simpl; [constructor|].
  clear Hl. rewrite Forall_forall in Hr. assert (forall x, x ∈ rev l -> newest_first x r = true) as H.
  { intros x Hx. apply list_elem_of_In, in_rev, list_elem_of_In in Hx. apply Z.leb_le. specialize (Hr x Hx). cbn in Hr. lia. }
  clear Hr. revert IH H. generalize (rev l). clear l. intros l Hs H. induction Hs as [|x l Hs IH Hx]; simpl; [repeat constructor|].
  constructor; [apply IH; intros y Hy; apply H; by right|]. apply Forall_app. split; [done|].
  constructor; [|constructor]. apply Is_true_true, H. constructor.
Qed.

(** Newest first is oldest first reversed. *)
Lemma newest_first_sort l : distinct l -> Sort.sort newest_first l = rev (Sort.sort by_seq l).
Proof.
  intros Hd. pose proof (ascending_sort l Hd) as Ha.
  apply (Sort.sort_strict _ newest_first_total newest_first_trans).
  - rewrite <- Permutation_rev. symmetry. apply Sort.sort_Permutation.
  - by apply StronglySorted_rev.
  - intros x y Hx Hy H1 H2. apply list_elem_of_In, in_rev, list_elem_of_In, Sort.elem_of_sort in Hx, Hy.
    unfold newest_first in H1, H2. bool_prop. assert (ar_seq x = ar_seq y) as E by lia. clear Ha H1 H2.
    apply list_elem_of_lookup in Hx as [i Hi], Hy as [j Hj].
    assert (i = j) as ->; [|congruence].
    apply (NoDup_lookup (ar_seq <$> l) i j (ar_seq x)); [done|..]; rewrite list_lookup_fmap, ?Hi, ?Hj; simpl; congruence.
Qed.

Lemma distinct_filter f l : distinct l -> distinct (List.filter f l).
Proof.
  unfold distinct. intros H. eapply sublist_NoDup; [exact H|].
  induction l as [|r l IH]; simpl; [done|]. csimpl in H. apply NoDup_cons in H as [_ H].
  destruct (f r); csimpl; constructor; by apply IH.
Qed.

(** The rows a query selects below a cursor, oldest first. *)
Definition matching (l : list AuditEventRecord) (q : Query) (before : option Z) : list AuditEventRecord :=
  List.filter (fun r => below before (ar_seq r)) (Sort.sort by_seq (List.filter (selects q) l)).

Lemma matching_ascending l q before : distinct l -> ascending (matching l q before).
Proof. intros Hd. by apply ascending_filter, ascending_sort, distinct_filter. Qed.

Lemma filter_and {A} (f g : A -> bool) l : List.filter (fun x => f x && g x) l = List.filter g (List.filter f l).
Proof. induction l as [|x l IH]; simpl; [done|]. destruct (f x); simpl; [destruct (g x)|]; by rewrite IH. Qed.

Lemma filter_rev {A} (f : A -> bool) l : List.filter f (rev l) = rev (List.filter f l).
Proof.
  induction l as [|x l IH]; simpl; [done|]. rewrite List.filter_app, IH. simpl. destruct (f x); [done|]. apply app_nil_r.
Qed.

Lemma search_spec l q limit before :
  distinct l ->
  let M := rev (matching l q before) in
  p_events (search l (with_cursor limit before q)) = take (clamp limit) M /\
  next_cursor (search l (with_cursor limit before q)) =
    if (clamp limit <? length M)%nat then ar_seq <$> last (take (clamp limit) M) else None.
Proof.
  intros Hd M. unfold search. cbn [q_limit with_cursor].
  assert (Sort.sort newest_first (List.filter (_filtered (with_cursor limit before q)) l) = M) as ->.
  { subst M. unfold matching. rewrite newest_first_sort by (by apply distinct_filter). f_equal.
    rewrite (Sort.filter_sort _ by_seq_total by_seq_trans). f_equal. rewrite <- filter_and. done. }
  assert (1 <= clamp limit)%nat as Hc by (unfold clamp; lia).
  set (n := clamp limit) in *. rewrite length_take.
  destruct (Nat.ltb_spec n (length M)) as [Hl|Hl].
  - destruct (Nat.ltb_spec n (Nat.min (n + 1) (length M))) as [|]; [|lia]. cbn [p_events next_cursor].
    rewrite take_take. replace (n `min` (n + 1))%nat with n by lia. split; [done|].
    rewrite lookup_take_lt by lia. rewrite last_lookup, length_take.
    replace (n `min` length M)%nat with n by lia. rewrite lookup_take_lt by lia.
    by replace (pred n) with (n - 1)%nat by lia.
  - destruct (Nat.ltb_spec n (Nat.min (n + 1) (length M))) as [|]; [lia|]. cbn [p_events next_cursor].
    rewrite !take_ge by lia. done.
Qed.

Lemma filter_sub {A} (f g : A -> bool) l :
  (forall x, f x = true -> g x = true) -> List.filter f (List.filter g l) = List.filter f l.
Proof.
  intros H. induction l as [|x l IH]; simpl; [done|]. destruct (g x) eqn:G; simpl; [by rewrite IH|].
  destruct (f x) eqn:F; [|done]. rewrite (H x F) in G. done.
Qed.

Lemma before_row a e b :
  ascending (a ++ e :: b) -> List.filter (fun r => (ar_seq r <? ar_seq e)%Z) (a ++ e :: b) = a.
Proof.
  intros (_ & He & Ha)%ascending_app. rewrite List.filter_app, (filter_nothing _ (e :: b)), app_nil_r.
  - apply filter_all. intros x Hx. apply Z.ltb_lt, Ha; [done|constructor].
  - apply StronglySorted_inv in He as [_ He]. rewrite Forall_forall in He.
    intros x [->|Hx]%elem_of_cons; apply Z.ltb_ge; [lia|]. specialize (He x Hx). cbn in He. lia.
Qed.

(** The next page starts below the last row of this one. *)
Lemma matching_next l q before n e :
  distinct l -> last (take n (rev (matching l q before))) = Some e ->
  rev (matching l q (Some (ar_seq e))) = drop n (rev (matching l q before)).
Proof.
  intros Hd He. pose proof (matching_ascending l q before Hd) as Ha. set (M := matching l q before) in *.
  assert (below before (ar_seq e) = true) as Hb.
  { apply last_of_page, list_elem_of_In, in_rev in He. subst M. by apply filter_In in He as [_ He]. }
  assert (matching l q (Some (ar_seq e)) = List.filter (fun r => (ar_seq r <? ar_seq e)%Z) M) as ->.
  { subst M. unfold matching. symmetry. apply filter_sub. intros x Hx. destruct before as [b|]; [|done].
    cbn in Hb, Hx |- *. bool_prop. apply Z.ltb_lt. lia. }
  apply last_Some in He as [P He].
  assert (M = rev (drop n (rev M)) ++ e :: rev P) as E.
  { rewrite <- (rev_involutive M) at 1. rewrite <- (take_drop n (rev M)) at 1.
    rewrite rev_app_distr, He, rev_app_distr. done. }
  rewrite E at 1. rewrite E in Ha. by rewrite (before_row _ _ _ Ha), rev_involutive.
Qed.

Lemma pages_loop_spec fuel l q before :
  distinct l -> (length (matching l q before) < fuel)%nat ->
  exists pages, pages_loop fuel l q before = Some pages /\ concat pages = rev (matching l q before).
Proof.
  intros Hd. revert before. induction fuel as [|fuel IH]; intros before Hf; [lia|]. cbn [pages_loop].
  destruct (search_spec l q (Z.of_nat MAX_LIMIT) before Hd) as [-> ->].
  change (clamp (Z.of_nat MAX_LIMIT)) with MAX_LIMIT. set (M := rev (matching l q before)) in *.
  assert (length M = length (matching l q before)) as HM by (subst M; apply length_rev).
  destruct (take MAX_LIMIT M) as [|r page] eqn:Ep.
  { exists []. split; [done|]. destruct M; [done|]. unfold MAX_LIMIT in Ep. discriminate. }
  destruct (Nat.ltb_spec MAX_LIMIT (length M)) as [Hl|Hl].
  - rewrite <- Ep. destruct (last (take MAX_LIMIT M)) as [e|] eqn:Ee; [|by rewrite Ep in Ee; apply last_None in Ee].
    cbn [fmap option_fmap option_map]. pose proof (matching_next l q before _ _ Hd Ee) as En. fold M in En.
    destruct (IH (Some (ar_seq e))) as (rest & Hr & Hc).
    { rewrite <- length_rev, En, length_drop, HM. unfold MAX_LIMIT in *. lia. }
    rewrite Hr. cbn [mbind option_bind]. eexists. split; [done|]. simpl. rewrite Hc, En. apply take_drop.
  - eexists. split; [done|]. simpl. rewrite app_nil_r, <- Ep. by apply take_ge.
Qed.

Lemma concat_rev_rev {A} (pages : list (list A)) : concat (map (@rev A) (rev pages)) = rev (concat pages).
Proof.
  induction pages as [|p pages IH]; simpl; [done|]. rewrite map_app, concat_app, IH, rev_app_distr. simpl. by rewrite app_nil_r.
Qed.

(** C40: The export ends and is complete: whatever the number of pages it takes,
    its lines are the rows the query selects below its cursor, each once, in
    order of sequence. *)
Theorem export_is_complete l q :
  distinct l -> ndjson l q = Some (as_json <$> matching l q (q_before_seq q)).
Proof.
  intros Hd. unfold ndjson. destruct (pages_loop_spec (S (length l)) l q (q_before_seq q) Hd) as (pages & -> & Hc).
  - unfold matching. pose proof (List.filter_length_le (fun r => below (q_before_seq q) (ar_seq r)) (Sort.sort by_seq (List.filter (selects q) l))) as H.
    pose proof (List.filter_length_le (selects q) l).
    assert (length (Sort.sort by_seq (List.filter (selects q) l)) = length (List.filter (selects q) l)) as E by (by rewrite Sort.sort_Permutation).
    lia.
  - simpl. f_equal. by rewrite concat_rev_rev, Hc, rev_involutive.
Qed.

(** ** An honest trail *)

Definition plain_detail (d : list (string * json)) : bool := JsonText.plain (JObj d).

(** [jsonb] keeps the values of a document, though not the order of its keys
    (and floats need not come back in the form they were written in). *)
Hypothesis jsonb_values : forall d, plain_detail d = true ->
  Chain._render utc_text (JObj (jsonb d)) = Chain._render utc_text (JObj d).
Hypothesis sha_length : forall m, String.length (sha256_hex m) = 64%nat.

Lemma stored_content e seq previous :
  plain_detail (Events.detail e) = true ->
  Chain.same_content utc_text (_row e) (_verifiable (stored e seq previous)).
Proof using jsonb_values.
  intros Hp name Hn. unfold Chain.FIELDS in Hn.
  repeat (apply elem_of_cons in Hn as [->|Hn]; [try reflexivity; symmetry; by apply jsonb_values|]).
  by apply elem_of_nil in Hn.
Qed.

Lemma stored_link e seq previous :
  plain_detail (Events.detail e) = true ->
  ar_hash (stored e seq previous) =
    Chain.link sha256_hex utc_text float_repr previous (_verifiable (stored e seq previous)).
Proof using jsonb_values.
  intros Hp. unfold Chain.link. by rewrite <- (Chain.canonical_content _ _ _ _ (stored_content e seq previous Hp)).
Qed.

Lemma plain_insert m k v : plain_detail m = true -> JsonText.plain v = true -> plain_detail (Json.insert m k v) = true.
Proof.
  unfold plain_detail. cbn [JsonText.plain]. induction m as [|[k' v'] m IH]; simpl; intros Hm Hv; [by rewrite Hv|].
  bool_prop. destruct (String.eqb k k'); simpl; [by rewrite Hv, H0|]. by rewrite H, IH.
Qed.

Lemma plain_redact d : plain_detail d = true -> plain_detail (Events.redact d) = true.
Proof.
  unfold plain_detail, Events.redact. cbn [JsonText.plain]. intros Hd. apply forallb_forall. intros [k v] Hin.
  apply in_map_iff in Hin as ([k' v'] & E & Hin). rewrite forallb_forall in Hd. specialize (Hd _ Hin). simpl in Hd.
  unfold Events.redact_item in E. simpl in E. destruct (Events._is_secret k'); [by injection E as <- <-|].
  destruct (String.eqb k' "attributes"); [|by injection E as <- <-].
  destruct v' as [| | | | | | |m]; injection E as <- <-; try done. simpl in Hd |- *.
  apply forallb_forall. intros [n w] Hw. apply in_map_iff in Hw as ([n' w'] & E & Hw). injection E as <- <-.
  rewrite forallb_forall in Hd. specialize (Hd _ Hw). simpl in Hd |- *. by destruct (Events.is_public n').
Qed.

Lemma event_plain c d en : plain_detail (en_detail en) = true -> plain_detail (Events.detail (event_of c d en)) = true.
Proof.
  intros H. simpl. apply plain_redact. unfold marked. destruct (cx_impersonator c); [|done]. by repeat apply plain_insert.
Qed.

Definition anchors_ascending : list AuditRetentionAnchor -> Prop :=
  StronglySorted (fun a1 a2 => (removed_through_seq a1 < removed_through_seq a2)%Z).

(** What every operation keeps true of the tables. *)
Record honest (s : trail) : Prop := {
  h_ascending : ascending (rows s);
  h_positive : forall r, r ∈ rows s -> (0 < ar_seq r < next_seq s)%Z;
  h_hash : forall r, r ∈ rows s -> String.length (ar_hash r) = 64%nat;
  h_next : (0 < next_seq s)%Z;
  h_anchors : anchors_ascending (anchors s);
  h_anchor : forall a, a ∈ anchors s -> (removed_through_seq a < next_seq s)%Z /\
    String.length (removed_through_hash a) = 64%nat /\ forall r, r ∈ rows s -> (removed_through_seq a < ar_seq r)%Z;
  h_linked : exists h, Chain.linked sha256_hex utc_text float_repr (_starting_hash s) (_verifiable <$> rows s) h;
}.

Lemma newest_ascending l : ascending l -> newest l = last l.
Proof. intros Ha. unfold newest. by rewrite Sort.sort_id by (by apply ascending_by_seq). Qed.

Lemma newest_anchor_ascending l : anchors_ascending l -> newest_anchor l = last l.
Proof.
  intros Ha. unfold newest_anchor. rewrite Sort.sort_id; [done|].
  induction Ha as [|a l Hl IH Hr]; constructor; [done|]. eapply Forall_impl; [exact Hr|].
  intros x Hx. apply Is_true_true, Z.leb_le. cbn in Hx. lia.
Qed.

Lemma nonempty_64 h : String.length h = 64%nat -> String.eqb h "" = false.
Proof. by destruct h. Qed.

Lemma skip_honest n s : (0 <= n)%Z -> honest s -> honest (skip_seq n s).
Proof.
  intros Hn [H1 H2 H3 H4 H5 H6 H7]. split; try done; cbn [rows anchors next_seq skip_seq].
  - intros r Hr. specialize (H2 r Hr). lia.
  - lia.
  - intros a Ha. destruct (H6 a Ha) as (? & ? & ?). split_and!; [lia|done..].
Qed.

Lemma ascending_snoc l r : ascending l -> (forall x, x ∈ l -> (ar_seq x < ar_seq r)%Z) -> ascending (l ++ [r]).
Proof.
  unfold ascending. induction 1 as [|x l Hl IH Hx]; intros H; simpl; [repeat constructor|].
  constructor; [apply IH; intros y Hy; apply H; by right|].
  apply Forall_app. split; [done|]. constructor; [|constructor]. apply H. constructor.
Qed.

Lemma write_honest s e f : plain_detail (Events.detail e) = true -> honest s -> honest (_write s e f).
Proof using jsonb_values sha_length.
  intros Hp Hh. unfold _write. destruct f as [|[]]; [|by apply skip_honest..].
  destruct (existsb _ (rows s)); [by apply skip_honest|].
  destruct Hh as [H1 H2 H3 H4 H5 H6 [h H7]]. set (previous := match newest (rows s) with Some _ => _ | None => _ end).
  assert (previous = h) as Ep.
  { apply Chain.linked_ends in H7. rewrite H7. subst previous. unfold Chain.ends.
    rewrite newest_ascending, last_fmap by done. by destruct (last (rows s)). }
  split; cbn [rows anchors next_seq].
  - apply ascending_snoc; [done|]. intros x Hx. apply H2 in Hx. simpl. lia.
  - intros r [Hr| ->%list_elem_of_singleton]%elem_of_app; [specialize (H2 r Hr)|simpl]; lia.
  - intros r [Hr| ->%list_elem_of_singleton]%elem_of_app; [by apply H3|]. apply sha_length.
  - lia.
  - done.
  - intros a Ha. destruct (H6 a Ha) as (? & ? & Hr). split_and!; [lia|done|].
    intros r [?| ->%list_elem_of_singleton]%elem_of_app; [by apply Hr|]. simpl. lia.
  - rewrite fmap_app. eexists. cbn [fmap list_fmap].
    change (_starting_hash {| rows := _; anchors := anchors s; next_seq := _ |}) with (_starting_hash s).
    apply (Chain.linked_snoc _ _ _ _ _ previous); [by rewrite Ep|done|]. by apply stored_link.
Qed.

Lemma linked_split h a b h' :
  Chain.linked sha256_hex utc_text float_repr h (a ++ b) h' ->
  Chain.linked sha256_hex utc_text float_repr (Chain.ends h a) b h'.
Proof.
  revert h'. induction b as [|e b IH] using rev_ind; intros h' H.
  - rewrite app_nil_r in H. rewrite (Chain.linked_ends _ _ _ _ _ _ H). constructor.
  - rewrite app_assoc in H. apply Chain.linked_snoc_inv in H as [[E _]|(l0 & e0 & h0 & E & Hl & Hp & Hh & ->)].
    + by apply app_nil in E as [_ ?].
    + apply app_inj_tail in E as [<- <-]. apply Chain.linked_snoc; [by apply IH|done..].
Qed.

Lemma cut_honest s cutoff through h n now by_ why :
  honest s -> _boundary s cutoff = Some (through, h) -> honest (cut s through h n cutoff now by_ why).
Proof.
  intros [H1 H2 H3 H4 H5 H6 [hh H7]] Hb. unfold _boundary in Hb.
  rewrite newest_ascending in Hb by (by apply ascending_filter).
  destruct (last (List.filter _ (rows s))) as [r|] eqn:Er; [|done]. injection Hb as <- <-.
  assert (r ∈ rows s) as Hr.
  { apply last_Some in Er as [P Er]. assert (r ∈ P ++ [r]) as H by (apply elem_of_app; right; constructor).
    rewrite <- Er in H. apply list_elem_of_In, filter_In in H as [H _]. by apply list_elem_of_In. }
  apply list_elem_of_split in Hr as (p & b & E). assert (rows s = (p ++ [r]) ++ b) as E' by (rewrite E, <- app_assoc; done).
  assert (rows (cut s (ar_seq r) (ar_hash r) n cutoff now by_ why) = b) as Ec.
  { cbn [rows cut]. rewrite E' in H1 |- *. erewrite List.filter_ext; [by apply after_row|].
    intros x. simpl. by rewrite Z.ltb_antisym. }
  assert (r ∈ rows s) as Hr by (rewrite E; apply elem_of_app; right; constructor).
  assert (forall x, x ∈ b -> x ∈ rows s) as Hsub by (intros x Hx; rewrite E'; apply elem_of_app; by right).
  assert (ascending b /\ forall x, x ∈ b -> (ar_seq r < ar_seq x)%Z) as [Hbs Hlt].
  { rewrite E' in H1. apply ascending_app in H1 as (_ & Hbs & H). split; [done|]. intros x Hx. apply H; [|done].
    apply elem_of_app. right. constructor. }
  assert (anchors_ascending (anchors (cut s (ar_seq r) (ar_hash r) n cutoff now by_ why))) as Han.
  { cbn [anchors cut]. unfold anchors_ascending. assert (forall a, a ∈ anchors s -> (removed_through_seq a < ar_seq r)%Z) as Ha.
    { intros a Ha. destruct (H6 a Ha) as (_ & _ & H). by apply H. }
    clear -H5 Ha. induction H5 as [|a l Hl IH Hx]; simpl; [repeat constructor|].
    constructor; [apply IH; intros x Hin; apply Ha; by right|]. apply Forall_app. split; [done|].
    constructor; [|constructor]. apply Ha. constructor. }
  split; rewrite ?Ec; try done.
  - intros x Hx. by apply H2, Hsub.
  - intros x Hx. by apply H3, Hsub.
  - cbn [anchors cut next_seq]. intros a [Ha| ->%list_elem_of_singleton]%elem_of_app.
    + destruct (H6 a Ha) as (? & ? & ?). split_and!; [done|done|]. intros x Hx. by eauto.
    + simpl. split_and!; [by apply H2|by apply H3|done].
  - exists hh. assert (_starting_hash (cut s (ar_seq r) (ar_hash r) n cutoff now by_ why) = ar_hash r) as ->.
    { unfold _starting_hash. rewrite newest_anchor_ascending by done. cbn [anchors cut]. rewrite last_snoc. simpl.
      by rewrite (nonempty_64 _ (H3 r Hr)). }
    rewrite E', fmap_app in H7. apply linked_split in H7. unfold Chain.ends in H7.
    rewrite last_fmap, last_snoc in H7. exact H7.
Qed.

(** What happens to a trail. *)
Inductive op : Type :=
| ORecord (c : context) (en : entry) (d : draws) (f : fate)
| OPrune (c : context) (older : duration) (sink_ok : bool) (by_ why : string) (now wall : moment) (batch : nat)
    (d : draws) (f : fate).

Definition op_plain (o : op) : bool :=
  match o with ORecord _ en _ _ => plain_detail (en_detail en) | OPrune _ _ _ _ _ _ _ _ _ _ => true end.

Definition apply_op (s : trail) (o : op) : trail :=
  match o with
  | ORecord c en d f => (record c s en d f).1.2
  | OPrune c older sink_ok by_ why now wall batch d f =>
      match prune c s older sink_ok by_ why now wall batch d f with Some (_, s', _, _) => s' | None => s end
  end.

Definition new_trail : trail := {| rows := []; anchors := []; next_seq := 1 |}.

Lemma apply_op_honest s o : op_plain o = true -> honest s -> honest (apply_op s o).
Proof using jsonb_values sha_length.
  intros Hp Hh. destruct o as [c en d f|c older sink_ok by_ why now wall batch d f]; cbn [apply_op record fst snd].
  - apply write_honest; [by apply event_plain|done].
  - unfold prune. destruct (_boundary s (now - older)) as [[through h]|] eqn:Eb; [|done]. destruct sink_ok; [|done].
    cbn [negb]. destruct (_export s through batch) as [handed|]; [|done]. cbn [mbind option_bind record].
    apply write_honest; [by apply event_plain|]. by eapply cut_honest.
Qed.

Lemma history_honest ops s : forallb op_plain ops = true -> honest s -> honest (fold_left apply_op ops s).
Proof using jsonb_values sha_length.
  revert s. induction ops as [|o ops IH]; intros s Hp Hh; simpl in *; [done|]. bool_prop. auto using apply_op_honest.
Qed.

Lemma linked_verifies h l h' :
  ascending l -> Chain.linked sha256_hex utc_text float_repr h (_verifiable <$> l) h' ->
  Chain.verify_from sha256_hex utc_text float_repr h (_verifiable <$> l) = None.
Proof.
  revert h'. induction l as [|r l IH] using rev_ind; intros h' Ha H; [done|]. rewrite fmap_app in H |- *.
  apply Chain.linked_snoc_inv in H as [[E _]|(l0 & e0 & h0 & E & Hl & Hp & Hh & _)]; [by apply app_nil in E as [_ ?]|].
  apply app_inj_tail in E as [<- <-]. apply ascending_app in Ha as (Ha & _ & Hlt).
  unfold Chain.verify_from. rewrite Chain.verify_go_app. rewrite (IH h0 Ha Hl : Chain.verify_go _ _ _ None h _ = None).
  pose proof (Chain.linked_ends _ _ _ _ _ _ Hl) as E0. simpl. rewrite <- E0, last_fmap.
  assert (match _verifiable <$> last l with Some e => Some (Chain.seq_of e) | None => None end = ar_seq <$> last l) as ->
    by (by destruct (last l)).
  assert (match ar_seq <$> last l with Some x => (Chain.seq_of (_verifiable r) <=? x)%Z | None => false end = false) as Ho.
  { destruct (last l) as [x|] eqn:Ex; [|done]. simpl. rewrite seq_of_verifiable. apply Z.leb_gt, Hlt; [|constructor].
    apply last_Some in Ex as [P ->]. apply elem_of_app. right. constructor. }
  rewrite Ho, Hp, String.eqb_refl. simpl. rewrite Hh, String.eqb_refl. done.
Qed.

(** C11: An honest trail always verifies.  After any history of recorded events
    (written, or lost with or without the sequence number they drew) and of
    retention passes, of whatever age and whatever the sinks did, the verifier
    reports no break, in batches of any size. *)
Theorem honest_trail_verifies ops batch :
  forallb op_plain ops = true -> (1 <= batch)%nat ->
  verify_chain batch (fold_left apply_op ops new_trail) = Some None.
Proof using jsonb_values sha_length.
  intros Hp Hb. assert (honest new_trail) as H0.
  { split; cbn [rows anchors next_seq new_trail].
    - constructor.
    - by intros ? ?%elem_of_nil.
    - by intros ? ?%elem_of_nil.
    - done.
    - constructor.
    - by intros ? ?%elem_of_nil.
    - exists Chain.GENESIS. constructor. }
  destruct (history_honest ops new_trail Hp H0) as [H1 H2 _ _ _ _ [h H7]].
  set (s := fold_left apply_op ops new_trail) in *.
  assert (rows_after (rows s) 0 = rows s) as Er.
  { unfold rows_after. rewrite filter_all; [by apply Sort.sort_id, ascending_by_seq|].
    intros x Hx. apply Z.ltb_lt. by apply H2. }
  unfold verify_chain. rewrite verify_loop_spec; [|..|rewrite Er; lia].
  - rewrite Er. f_equal. by eapply linked_verifies.
  - unfold distinct. clear -H1. induction H1 as [|r l Hl IH Hr]; csimpl; [constructor|]. apply NoDup_cons. split; [|done].
    intros (x & E & Hx)%list_elem_of_fmap. rewrite Forall_forall in Hr. specialize (Hr x Hx). cbn in Hr. lia.
  - done.
Qed.
End log.
(** ** Examples *)

(** A stand-in for SHA-256 with values of the right length. *)
Definition demo_sha (m : string) : string := Py.take 64 (m +:+ Chain.GENESIS).

Lemma take_prefix_length n s : (n <= String.length s)%nat -> String.length (Py.take n s) = n.
Proof. revert s. induction n as [|n IH]; intros [|c s] H; simpl in *; [done|done|lia|]. rewrite IH; lia. Qed.

Lemma demo_sha_length m : String.length (demo_sha m) = 64%nat.
Proof. unfold demo_sha. apply take_prefix_length. rewrite Py.length_app. unfold Chain.GENESIS. cbn [Py.repeat_str String.length]. lia. Qed.

Definition demo_text (t : moment) : string := Py.str_of_Z t.
Definition demo_float (m e : Z) : string := "0.5".
Definition demo_jsonb (d : list (string * json)) : list (string * json) := d.

Definition demo_entry (now : moment) : entry :=
  {| en_type := Events.AUTH_SUCCESS; en_outcome := Events.SUCCESS; en_actor := Some "p1"; en_subject := Some "p1";
     en_target := None; en_reason := None; en_source_ip := None; en_user_agent := None; en_session_id := None;
     en_detail := [("acr", JStr "urn:campusid:aal1"); ("session_token", JStr "t0")]; en_now := now |}.

Definition demo_context : context := {| cx_correlation_id := None; cx_impersonator := Some "admin" |}.
Definition demo_draws (id : string) : draws := {| dr_event_id := id; dr_correlation_id := "c" |}.

Definition demo_ops : list op :=
  [ORecord demo_context (demo_entry 5) (demo_draws "e1") Committed;
   ORecord demo_context (demo_entry 6) (demo_draws "e2") (Lost true);
   ORecord demo_context (demo_entry 9) (demo_draws "e3") Committed;
   OPrune demo_context 2 true "op" "space" 8 10 1 (demo_draws "e4") Committed].

Definition demo_trail : trail := fold_left (apply_op demo_sha demo_text demo_float demo_jsonb) demo_ops new_trail.

Lemma honest_trail_verifies_witness :
  ar_seq <$> rows demo_trail = [3; 4]%Z /\ verify_chain demo_sha demo_text demo_float 1 demo_trail = Some None.
Proof.
  split; [vm_compute; reflexivity|].
  apply (honest_trail_verifies demo_sha demo_text demo_float demo_jsonb); [reflexivity|apply demo_sha_length|vm_compute; reflexivity|lia].
Defined.

Definition demo_row (seq : Z) (at_ : moment) (h : string) : AuditEventRecord :=
  {| ar_event_id := "x"; ar_event_type := "auth.success"; ar_outcome := "success"; ar_occurred_at := at_;
     ar_correlation_id := "c"; ar_actor := None; ar_subject := Some "p1"; ar_target := None; ar_reason := None;
     ar_source_ip := None; ar_user_agent := None; ar_session_id := None; ar_detail := []; ar_seq := seq;
     ar_prev_hash := Chain.GENESIS; ar_hash := h |}.

Definition demo_rows (l : list AuditEventRecord) : trail := {| rows := l; anchors := []; next_seq := 10 |}.

Lemma batches_verify_the_whole_witness :
  verify_chain demo_sha demo_text demo_float 1 (demo_rows [demo_row 2 7 "no"; demo_row 1 5 "no"]) =
    Some (Some {| Chain.b_seq := 1; Chain.b_event_id := "x"; Chain.problem := Chain.ALTERED |}).
Proof.
  rewrite (batches_verify_the_whole demo_sha demo_text demo_float 1 (demo_rows [demo_row 2 7 "no"; demo_row 1 5 "no"]));
    [vm_compute; reflexivity| |lia].
  apply (bool_decide_eq_true_1 _). vm_compute. reflexivity.
Defined.

Lemma nonpositive_row_is_not_verified_witness :
  verify_chain demo_sha demo_text demo_float 500
    {| rows := demo_row 0 1 "forged" :: rows demo_trail; anchors := anchors demo_trail; next_seq := next_seq demo_trail |} =
  verify_chain demo_sha demo_text demo_float 500 demo_trail.
Proof.
  apply (nonpositive_row_is_not_verified demo_sha demo_text demo_float 500 demo_trail (demo_row 0 1 "forged")); [simpl; lia| | |lia].
  all: apply (bool_decide_eq_true_1 _); vm_compute; reflexivity.
Defined.

Lemma prune_exports_what_it_deletes_witness :
  exists c' s' handed report,
    prune demo_sha demo_text demo_float demo_jsonb demo_context (demo_rows [demo_row 1 5 "a"; demo_row 2 9 "b"]) 2 true
      "op" "space" 8 8 1 (demo_draws "e") (Lost false) = Some (c', s', handed, report) /\
    (forall r, r ∈ rows (demo_rows [demo_row 1 5 "a"; demo_row 2 9 "b"]) <-> r ∈ handed \/ r ∈ rows s').
Proof.
  destruct (prune_exports_what_it_deletes demo_sha demo_text demo_float demo_jsonb demo_context
    (demo_rows [demo_row 1 5 "a"; demo_row 2 9 "b"]) 2 true "op" "space" 8 8 1 (demo_draws "e"))
    as (c' & s' & handed & report & H & _ & Hr & _).
  - apply (bool_decide_eq_true_1 _). vm_compute. reflexivity.
  - repeat constructor.
  - lia.
  - exists c', s', handed, report. split; [exact H|exact Hr].
Defined.

Lemma late_stamp_prunes_recent_witness :
  exists c' s' handed report,
    prune demo_sha demo_text demo_float demo_jsonb demo_context (demo_rows [demo_row 1 9 "a"; demo_row 2 5 "b"]) 2 true
      "op" "space" 8 8 1 (demo_draws "e") (Lost false) = Some (c', s', handed, report) /\ demo_row 1 9 "a" ∉ rows s'.
Proof.
  apply (late_stamp_prunes_recent demo_sha demo_text demo_float demo_jsonb demo_context
    (demo_rows [demo_row 1 9 "a"; demo_row 2 5 "b"]) 2 "op" "space" 8 8 1 (demo_draws "e") (demo_row 2 5 "b") (demo_row 1 9 "a")).
  - apply (bool_decide_eq_true_1 _). vm_compute. reflexivity.
  - lia.
  - right. constructor.
  - constructor.
  - simpl. lia.
  - simpl. lia.
Defined.

Lemma export_is_complete_witness :
  ndjson [demo_row 3 9 "a"; demo_row 1 5 "b"] (about "p1" 50) = Some (as_json <$> [demo_row 1 5 "b"; demo_row 3 9 "a"]).
Proof.
  rewrite (export_is_complete [demo_row 3 9 "a"; demo_row 1 5 "b"] (about "p1" 50)); [vm_compute; reflexivity|].
  apply (bool_decide_eq_true_1 _). vm_compute. reflexivity.
Defined.

(** One event, with another sequence number: the head is the same. *)
Definition demo_sealed (seq : Z) : list (string * json) :=
  _verifiable (demo_row seq 5 (Chain.link demo_sha demo_text demo_float Chain.GENESIS (_verifiable (demo_row 1 5 "")))).

Lemma published_head_pins_trail_witness :
  Forall2 (Chain.same_content demo_text) [demo_sealed 1] [demo_sealed 7] \/ Chain.forgery demo_sha.
Proof.
  apply (Chain.published_head_pins_trail demo_sha demo_text demo_float demo_sha_length [demo_sealed 1] [demo_sealed 7]).
  - constructor; [|constructor]. intros name Hn. unfold Chain.FIELDS in Hn.
    repeat (apply elem_of_cons in Hn as [->|Hn]; [reflexivity|]). by apply elem_of_nil in Hn.
  - constructor; [|constructor]. intros name Hn. unfold Chain.FIELDS in Hn.
    repeat (apply elem_of_cons in Hn as [->|Hn]; [reflexivity|]). by apply elem_of_nil in Hn.
  - vm_compute. reflexivity.
  - vm_compute. reflexivity.
  - vm_compute. reflexivity.
Defined.

End AuditLog.
