(* ===== verification/Federation.v ===== *)
(** * Whom we trust to authenticate people

    [campusid/saml/metadata_idp.py] and [campusid/federation/registry.py]: reading
    a provider's metadata, and the table of registered entities.  lxml's parser, the schema validation and the certificate loader
    are parameters.  [textwrap.wrap] is modelled for text without white space and
    hyphens, which is what base64 is; a duration's decimals are exact. *)

From S2P Require Import Prelude PyStr Dict Json JsonText JsonLoads Errors Redis IsoTime Xml SamlSignature SamlGate.
Import Xml Ns Parser.

Module Metadata.

Definition BINDING_HTTP_REDIRECT := "urn:oasis:names:tc:SAML:2.0:bindings:HTTP-Redirect".
Definition Q_ENTITY_DESCRIPTOR := qn MD "EntityDescriptor".
Definition Q_ENTITIES_DESCRIPTOR := qn MD "EntitiesDescriptor".
Definition Q_IDP_SSO_DESCRIPTOR := qn MD "IDPSSODescriptor".
Definition Q_KEY_DESCRIPTOR := qn MD "KeyDescriptor".
Definition Q_SSO_SERVICE := qn MD "SingleSignOnService".
Definition Q_SLO_SERVICE := qn MD "SingleLogoutService".
Definition Q_X509_CERTIFICATE := qn DS "X509Certificate".

Definition invalid : exn := MetadataRejected METADATA_INVALID.

Record IdentityProviderDescriptor : Type := {
  entity_id : string;
  sso_bindings : list (string * string);
  signing_certificates : list string;
  slo_url : option string;
  want_authn_requests_signed : bool;
  valid_until : option IsoTime.datetime;
  cache_duration : option duration;
}.

Definition redirect_sso_url (d : IdentityProviderDescriptor) : result exn string :=
  match Dict.get (sso_bindings d) BINDING_HTTP_REDIRECT with Some url => Ok url | None => Err invalid end.

(** ** Durations *)

(** [\d+], if anything is there. *)
Definition digits (s : string) : option (string * string) :=
  let n := IsoTime.digit_run s in if Nat.eqb n 0 then None else Some (Py.take n s, Py.drop n s).

(** [(?:(\d+)U)?]: the number and what follows, or nothing consumed. *)
Definition part (unit : ascii) (s : string) : string * string :=
  match digits s with
  | Some (n, String c rest) => if Ascii.eqb c unit then (n, rest) else ("0", s)
  | _ => ("0", s)
  end.

(** [(?:(\d+(?:\.\d+)?)S)?]: the whole part and the fraction. *)
Definition seconds_part (s : string) : string * string * string :=
  match digits s with
  | Some (n, String "S" rest) => (n, "", rest)
  | Some (n, String "." rest) =>
      match digits rest with
      | Some (f, String "S" rest') => (n, f, rest')
      | _ => ("0", "", s)
      end
  | _ => ("0", "", s)
  end.

(** [$] also matches before a final newline. *)
Definition at_end (s : string) : bool := String.eqb s "" || String.eqb s (String (ascii_of_nat 10) "").

Definition number (s : string) : Z := match IsoTime.parse_digits (String.length s) 0 s with Some (z, _) => z | None => 0 end.

(** The days, hours, minutes, seconds and fraction that [_DURATION] captures. *)
Definition duration_parts (raw : string) : option (string * string * string * string * string) :=
  if negb (Py.startswith raw "P") then None
  else
    let '(days, rest) := part "D" (Py.drop 1 raw) in
    if at_end rest then Some (days, "0", "0", "0", "")
    else if negb (Py.startswith rest "T") then None
    else
      let '(hours, rest) := part "H" (Py.drop 1 rest) in
      let '(minutes, rest) := part "M" rest in
      let '(seconds, fraction, rest) := seconds_part rest in
      if at_end rest then Some (days, hours, minutes, seconds, fraction) else None.

(** Round half to even of a fraction of a second in microseconds. *)
Definition microseconds (fraction : string) : Z :=
  let n := Z.of_nat (String.length fraction) in
  let p := (10 ^ n)%Z in let v := (number fraction * SECOND)%Z in
  let q := (v / p)%Z in let r := (v mod p)%Z in
  if (2 * r <? p)%Z then q else if (p <? 2 * r)%Z then q + 1 else if Z.even q then q else q + 1.

Definition MAX_TIMEDELTA : duration := 1000000000 * 86400 * SECOND.

Definition timedelta (p : string * string * string * string * string) : result exn duration :=
  let '(days, hours, minutes, seconds, fraction) := p in
  let td := (number days * 86400 * SECOND + number hours * 3600 * SECOND + number minutes * 60 * SECOND +
             number seconds * SECOND + microseconds fraction)%Z in
  if (td <? MAX_TIMEDELTA)%Z then Ok td else Err OverflowError.

Definition _cache_duration (entity : element) : result exn (option duration) :=
  match get entity "cacheDuration" with
  | None => Ok None
  | Some raw =>
      match duration_parts raw with
      | None => Err invalid
      | Some p => let* td := timedelta p in Ok (Some td)
      end
  end.

Definition _valid_until (entity : element) : result exn (option IsoTime.datetime) :=
  match get entity "validUntil" with
  | None => Ok None
  | Some raw =>
      match IsoTime.fromisoformat raw with
      | None => Err invalid
      | Some parsed => match IsoTime.dt_offset parsed with None => Err invalid | Some _ => Ok (Some parsed) end
      end
  end.

Definition expired_at (now : moment) (d : option IsoTime.datetime) : bool :=
  match d with Some v => (IsoTime.instant v <=? now)%Z | None => false end.

Definition _assert_not_expired (entity : element) (now : moment) : result exn unit :=
  let* v := _valid_until entity in
  raise* MetadataRejected METADATA_EXPIRED when expired_at now v; Ok tt.

(** ** The entity *)

Definition named (id : string) (e : element) : bool := bool_decide (get e "entityID" = Some id).

Definition _select_entity (root : element) (id : option string) : result exn element :=
  let* candidates :=
    if has_tag Q_ENTITY_DESCRIPTOR root then Ok [root]
    else if has_tag Q_ENTITIES_DESCRIPTOR root then Ok (iter_tag root Q_ENTITY_DESCRIPTOR)
    else Err invalid in
  match id with
  | Some id => match List.find (named id) candidates with Some e => Ok e | None => Err invalid end
  | None => match candidates with [e] => Ok e | _ => Err invalid end
  end.

(** [textwrap.wrap(s, 64)] joined with newlines. *)
Fixpoint wrap (fuel : nat) (s : string) : list string :=
  match fuel with
  | O => []
  | S fuel' => if String.eqb s "" then [] else Py.take 64 s :: wrap fuel' (Py.drop 64 s)
  end.
Definition newline : string := String (ascii_of_nat 10) "".
Definition pem_text (body : string) : string :=
  "-----BEGIN CERTIFICATE-----" +:+ newline +:+ Py.join newline (wrap (String.length body) body) +:+ newline +:+
  "-----END CERTIFICATE-----" +:+ newline.

Section parse.
(** [x509.load_pem_x509_certificate] returns. *)
Context (certificate_ok : string -> bool).

Definition _to_pem (body : string) : result exn string :=
  let pem := pem_text body in if certificate_ok pem then Ok pem else Err invalid.

Definition signing_use (key : element) : bool :=
  match get key "use" with None => true | Some u => String.eqb u "signing" end.

Definition certificate_bodies (descriptor : element) : list string :=
  List.filter (fun b => negb (String.eqb b ""))
    ((fun e => Py.join "" (Py.words (text_of (Some e)))) <$>
       concat (map (fun key => iter_tag key Q_X509_CERTIFICATE)
                 (List.filter signing_use (findall descriptor Q_KEY_DESCRIPTOR)))).

Definition _signing_certificates (descriptor : element) : result exn (list string) :=
  rmap _to_pem (certificate_bodies descriptor).

Definition truthy (o : option string) : option string := match o with Some "" => None | o => o end.

Definition bindings_of (descriptor : element) : list (string * string) :=
  fold_left (fun d service =>
    match truthy (get service "Binding"), truthy (get service "Location") with
    | Some binding, Some location => Dict.set d binding location
    | _, _ => d
    end) (findall descriptor Q_SSO_SERVICE) [].

Inductive schema_answer : Type := Valid | DocumentInvalid | XMLSyntaxError.
Context (validate_metadata : string -> schema_answer) (fromstring : etree_parser).

(** What is read of an entity once it is selected. *)
Definition read_entity (entity : element) (now : moment) : result exn IdentityProviderDescriptor :=
  let* _ := _assert_not_expired entity now in
  match find entity Q_IDP_SSO_DESCRIPTOR with
  | None => Err invalid
  | Some descriptor =>
      match truthy (get entity "entityID") with
      | None => Err invalid
      | Some resolved =>
          let* certificates := _signing_certificates descriptor in
          raise* invalid when bool_decide (certificates = []);
          let bindings := bindings_of descriptor in
          raise* invalid when bool_decide (bindings = []);
          let* until := _valid_until entity in
          let* cache := _cache_duration entity in
          Ok {| entity_id := resolved; sso_bindings := bindings; signing_certificates := certificates;
                slo_url := find descriptor Q_SLO_SERVICE ≫= (fun logout => get logout "Location");
                want_authn_requests_signed := bool_decide (get descriptor "WantAuthnRequestsSigned" = Some "true");
                valid_until := until; cache_duration := cache |}
      end
  end.

Definition parse_idp_metadata (document : string) (id : option string) (now : moment) :
    result exn IdentityProviderDescriptor :=
  match validate_metadata document with
  | DocumentInvalid | XMLSyntaxError => Err invalid
  | Valid =>
      match fromstring document with
      | None => Err invalid
      | Some (root, _) => let* entity := _select_entity root id in read_entity entity now
      end
  end.
End parse.

End Metadata.

(** ** The registry *)

Module Registered.
Import Metadata.

Definition ROLE_IDP := "idp".

Record FederationEntity : Type := {
  fe_entity_id : string;
  fe_role : string;
  fe_display_name : option string;
  fe_document : string;
  fe_metadata_url : option string;
  fe_valid_until : option IsoTime.datetime;
  fe_last_refreshed_at : moment;
  fe_enabled : bool;
}.

Definition of_entity (id : string) (row : FederationEntity) : bool := String.eqb (fe_entity_id row) id.

(** [x or y] of two optional strings. *)
Definition or_else (x y : option string) : option string := match truthy x with Some s => Some s | None => y end.

Section registry.
Context (certificate_ok : string -> bool) (validate_metadata : string -> schema_answer) (fromstring : etree_parser).

Abbreviation parse := (parse_idp_metadata certificate_ok validate_metadata fromstring).

(** The columns an existing row is given. *)
Definition refreshed (d : IdentityProviderDescriptor) (document : string) (metadata_url display_name : option string)
    (enabled : bool) (now : moment) (row : FederationEntity) : FederationEntity :=
  {| fe_entity_id := fe_entity_id row; fe_role := fe_role row; fe_display_name := or_else display_name (fe_display_name row);
     fe_document := document; fe_metadata_url := or_else metadata_url (fe_metadata_url row);
     fe_valid_until := valid_until d; fe_last_refreshed_at := now; fe_enabled := enabled |}.

(** Refused metadata, and bytes that are not UTF-8, leave the table as it was. *)
Definition register_idp (tbl : list FederationEntity) (document : string) (metadata_url display_name : option string)
    (enabled : bool) (now : moment) : list FederationEntity * result exn IdentityProviderDescriptor :=
  match parse document None now with
  | Err e => (tbl, Err e)
  | Ok d =>
      if negb (Utf8.valid document) then (tbl, Err UnicodeDecodeError)
      else if existsb (of_entity (entity_id d)) tbl then
        ((fun row => if of_entity (entity_id d) row then refreshed d document metadata_url display_name enabled now row else row) <$> tbl,
         Ok d)
      else (tbl ++ [{| fe_entity_id := entity_id d; fe_role := ROLE_IDP; fe_display_name := display_name; fe_document := document;
                       fe_metadata_url := metadata_url; fe_valid_until := valid_until d; fe_last_refreshed_at := now;
                       fe_enabled := enabled |}], Ok d)
  end.

Definition describe (tbl : list FederationEntity) (id : string) (now : moment) : result exn (option IdentityProviderDescriptor) :=
  match List.find (fun row => of_entity id row && fe_enabled row) tbl with
  | None => Ok None
  | Some row => let* d := parse (fe_document row) (Some id) now in Ok (Some d)
  end.

Definition resolve_trusted_idp (tbl : list FederationEntity) (id : string) (now : moment) : result exn (option Gate.TrustedIdP) :=
  match describe tbl id now with
  | Err (MetadataRejected _) => Ok None
  | Err e => Err e
  | Ok None => Ok None
  | Ok (Some d) =>
      Ok (Some {| Gate.entity_id := entity_id d; Gate.signing_certificates := signing_certificates d;
                  Gate.want_assertions_signed := true; Gate.allow_unsolicited := false |})
  end.

Definition by_entity_id (a b : FederationEntity) : bool := String.leb (fe_entity_id a) (fe_entity_id b).
Definition list_idps (tbl : list FederationEntity) : list FederationEntity :=
  Sort.sort by_entity_id (List.filter (fun row => String.eqb (fe_role row) ROLE_IDP) tbl).

Definition set_enabled (tbl : list FederationEntity) (id : string) (on : bool) : list FederationEntity * result exn unit :=
  if existsb (of_entity id) tbl then
    ((fun row => if of_entity id row then
        {| fe_entity_id := fe_entity_id row; fe_role := fe_role row; fe_display_name := fe_display_name row;
           fe_document := fe_document row; fe_metadata_url := fe_metadata_url row; fe_valid_until := fe_valid_until row;
           fe_last_refreshed_at := fe_last_refreshed_at row; fe_enabled := on |}
      else row) <$> tbl, Ok tt)
  else (tbl, Err invalid).

(** ** Properties *)

(** What a descriptor may be trusted for. *)
Definition sound (document : string) (id : string) (now : moment) (d : IdentityProviderDescriptor) : Prop :=
  validate_metadata document = Valid /\ entity_id d = id /\ expired_at now (valid_until d) = false /\
  signing_certificates d <> [] /\
  exists root doctype entity descriptor, fromstring document = Some (root, doctype) /\
    entity ∈ iter root /\ tag entity = Q_ENTITY_DESCRIPTOR /\ get entity "entityID" = Some id /\
    find entity Q_IDP_SSO_DESCRIPTOR = Some descriptor /\
    forall cert, cert ∈ signing_certificates d -> certificate_ok cert = true /\
      exists key x, key ∈ findall descriptor Q_KEY_DESCRIPTOR /\ signing_use key = true /\ x ∈ iter_tag key Q_X509_CERTIFICATE /\
        cert = pem_text (Py.join "" (Py.words (text_of (Some x)))).

Lemma read_entity_ok entity now d : read_entity certificate_ok entity now = Ok d ->
  get entity "entityID" = Some (entity_id d) /\ expired_at now (valid_until d) = false /\ _valid_until entity = Ok (valid_until d) /\
  signing_certificates d <> [] /\
  exists descriptor, find entity Q_IDP_SSO_DESCRIPTOR = Some descriptor /\
    _signing_certificates certificate_ok descriptor = Ok (signing_certificates d).
Proof.
  unfold read_entity, _assert_not_expired. intros ([] & Hx & H)%rbind_ok. apply rbind_ok in Hx as (v & Hv & Hx).
  destruct (expired_at now v) eqn:Ee; [done|]. destruct (find entity Q_IDP_SSO_DESCRIPTOR) as [descriptor|]; [|done].
  destruct (get entity "entityID") as [resolved|] eqn:Eid; [|done].
  destruct resolved as [|a rest]; [done|]. cbn [truthy] in H. apply rbind_ok in H as (certs & Hc & H).
  destruct (bool_decide (certs = [])) eqn:Ecerts; [done|]. destruct (bool_decide (bindings_of descriptor = [])); [done|].
  apply rbind_ok in H as (until & Hu & H). apply rbind_ok in H as (cache & _ & [= <-]). cbn.
  rewrite Hv in Hu. injection Hu as <-. bool_prop. split_and!; [done..|]. by exists descriptor.
Qed.

Lemma select_entity_in root id entity : _select_entity root id = Ok entity ->
  entity ∈ iter root /\ tag entity = Q_ENTITY_DESCRIPTOR.
Proof.
  unfold _select_entity. intros (candidates & Hc & H)%rbind_ok.
  assert (forall e, e ∈ candidates -> e ∈ iter root /\ tag e = Q_ENTITY_DESCRIPTOR) as Hin.
  { destruct (has_tag Q_ENTITY_DESCRIPTOR root) eqn:E1; [injection Hc as <-|].
    - intros e ->%list_elem_of_singleton. split; [apply iter_self|]. by apply String.eqb_eq in E1.
    - destruct (has_tag Q_ENTITIES_DESCRIPTOR root); [|done]. injection Hc as <-. intros e He.
      unfold iter_tag in He. apply list_elem_of_In, filter_In in He as [He Ht]. apply String.eqb_eq in Ht.
      split; [by apply list_elem_of_In|done]. }
  destruct id as [id|].
  - destruct (List.find _ candidates) as [e|] eqn:E; [|done]. injection H as <-. apply List.find_some in E as [E _].
    by apply Hin, list_elem_of_In.
  - destruct candidates as [|e [|]]; [done| |done]. injection H as <-. apply Hin. constructor.
Qed.

Lemma certificates_ok descriptor certs cert :
  _signing_certificates certificate_ok descriptor = Ok certs -> cert ∈ certs ->
  certificate_ok cert = true /\
  exists key x, key ∈ findall descriptor Q_KEY_DESCRIPTOR /\ signing_use key = true /\ x ∈ iter_tag key Q_X509_CERTIFICATE /\
    cert = pem_text (Py.join "" (Py.words (text_of (Some x)))).
Proof.
  unfold _signing_certificates. intros HF%rmap_ok_Forall2 Hin.
  apply list_elem_of_lookup in Hin as [i Hi].
  destruct (Forall2_lookup_r _ _ _ _ _ HF Hi) as (body & Hb%list_elem_of_lookup_2 & Hp). unfold _to_pem in Hp.
  destruct (certificate_ok (pem_text body)) eqn:E; [|done]. injection Hp as <-. split; [done|].
  unfold certificate_bodies in Hb. apply list_elem_of_In, filter_In in Hb as [Hb _].
  apply list_elem_of_In, list_elem_of_fmap in Hb as (x & -> & Hx). apply list_elem_of_In, in_concat in Hx as (l & Hl & Hx).
  apply in_map_iff in Hl as (key & <- & Hk). apply filter_In in Hk as [Hk Hu].
  exists key, x. split_and!; [by apply list_elem_of_In|done|by apply list_elem_of_In|done].
Qed.

Lemma parse_sound document id now d : parse document (Some id) now = Ok d -> sound document id now d.
Proof.
  unfold parse_idp_metadata, sound. destruct (validate_metadata document); [|done..].
  destruct (fromstring document) as [[root doctype]|] eqn:Ef; [|done].
  intros (entity & Hs & Hr)%rbind_ok. destruct (select_entity_in _ _ _ Hs) as [Hin Htag].
  apply read_entity_ok in Hr as (Hid & Hx & _ & Hne & descriptor & Hd & Hc).
  assert (get entity "entityID" = Some id) as Hid2.
  { unfold _select_entity in Hs. apply rbind_ok in Hs as (cs & _ & Hs). destruct (List.find _ cs) as [e|] eqn:E; [|done].
    injection Hs as <-. apply List.find_some in E as [_ E]. unfold named in E. by bool_prop. }
  split_and!; [done|congruence|done|done|]. exists root, doctype, entity, descriptor. split_and!; try done.
  intros cert Hcert. by eapply certificates_ok.
Qed.

Lemma resolved_row tbl id now idp : resolve_trusted_idp tbl id now = Ok (Some idp) ->
  exists row d, row ∈ tbl /\ fe_enabled row = true /\ fe_entity_id row = id /\ parse (fe_document row) (Some id) now = Ok d /\
    idp = {| Gate.entity_id := entity_id d; Gate.signing_certificates := signing_certificates d;
             Gate.want_assertions_signed := true; Gate.allow_unsolicited := false |}.
Proof.
  unfold resolve_trusted_idp, describe. destruct (List.find _ tbl) as [row|] eqn:E; [|done].
  apply List.find_some in E as [Hin [Hid He]%andb_true_iff]. apply String.eqb_eq in Hid.
  destruct (parse (fe_document row) (Some id) now) as [d|e] eqn:Ep; [|by destruct e].
  cbn. intros [= <-]. exists row, d. split_and!; [by apply list_elem_of_In|done..].
Qed.

(** The gate trusts for a name only an enabled, registered entity of that name
    whose stored document is schema-valid and not past its [validUntil], and only
    with certificates that load and stand in that entity's own role descriptor
    under a key for signing.  It never answers for another entity of the same
    document, and asks for signed assertions in answer to a request of ours. *)
Theorem trusted_idp_is_registered tbl id now idp :
  resolve_trusted_idp tbl id now = Ok (Some idp) ->
  Gate.entity_id idp = id /\ Gate.want_assertions_signed idp = true /\ Gate.allow_unsolicited idp = false /\
  exists row d, row ∈ tbl /\ fe_enabled row = true /\ fe_entity_id row = id /\
    sound (fe_document row) id now d /\ Gate.signing_certificates idp = signing_certificates d.
Proof.
  intros (row & d & Hin & He & Hid & Hp & ->)%resolved_row. pose proof (parse_sound _ _ _ _ Hp) as Hs.
  split; [by destruct Hs as (_ & ? & _)|]. split_and!; [done..|]. exists row, d. by split_and!.
Qed.

(** ** A registration is read back *)

Lemma select_again root entity id :
  _select_entity root None = Ok entity -> get entity "entityID" = Some id -> _select_entity root (Some id) = Ok entity.
Proof.
  unfold _select_entity. intros (cs & Hc & H)%rbind_ok Hid. rewrite Hc. cbn [rbind].
  destruct cs as [|e [|]]; [done| |done]. injection H as <-. cbn. unfold named. by rewrite bool_decide_true.
Qed.

Lemma read_entity_again entity now now' d : read_entity certificate_ok entity now = Ok d ->
  read_entity certificate_ok entity now' =
    if expired_at now' (valid_until d) then Err (MetadataRejected METADATA_EXPIRED) else Ok d.
Proof.
  intros H. pose proof (read_entity_ok _ _ _ H) as (_ & Hx & Hv & _). revert H. unfold read_entity, _assert_not_expired.
  rewrite Hv. cbn [rbind]. rewrite Hx. cbn [rbind]. intros H. destruct (expired_at now' (valid_until d)); [done|exact H].
Qed.

Lemma parse_again document now now' d : parse document None now = Ok d ->
  parse document (Some (entity_id d)) now' =
    if expired_at now' (valid_until d) then Err (MetadataRejected METADATA_EXPIRED) else Ok d.
Proof.
  unfold parse_idp_metadata. destruct (validate_metadata document); [|done..].
  destruct (fromstring document) as [[root doctype]|]; [|done]. intros (entity & Hs & Hr)%rbind_ok.
  pose proof (read_entity_ok _ _ _ Hr) as (Hid & _). rewrite (select_again _ _ _ Hs Hid). cbn [rbind].
  by eapply read_entity_again.
Qed.

Lemma find_replaced {A} (P Q : A -> bool) (g : A -> A) l :
  (forall x, Q x = true -> P (g x) = true) -> (forall x, P x = true -> Q x = true) -> existsb Q l = true ->
  exists x, List.find P ((fun x => if Q x then g x else x) <$> l) = Some (g x) /\ Q x = true.
Proof.
  intros HP HQ. induction l as [|y l IH]; [done|]. cbn. destruct (Q y) eqn:Ey; cbn.
  - intros _. rewrite HP by done. by exists y.
  - intros Hx. destruct (P y) eqn:Epy; [by rewrite HQ in Ey|]. by apply IH.
Qed.

Lemma find_untouched {A} (P Q : A -> bool) (g : A -> A) l :
  (forall x, Q x = true -> P x = false /\ P (g x) = false) ->
  List.find P ((fun x => if Q x then g x else x) <$> l) = List.find P l.
Proof.
  intros HP. induction l as [|y l IH]; [done|]. cbn. destruct (Q y) eqn:Ey; [|by rewrite IH].
  destruct (HP y Ey) as [-> ->]. apply IH.
Qed.

Lemma find_app {A} (P : A -> bool) l l' : List.find P (l ++ l') = match List.find P l with Some x => Some x | None => List.find P l' end.
Proof. induction l as [|y l IH]; [done|]. cbn. by destruct (P y). Qed.

Lemma existsb_find_None {A} (P Q : A -> bool) l : existsb Q l = false -> (forall x, P x = true -> Q x = true) -> List.find P l = None.
Proof.
  intros Hx HP. induction l as [|y l IH]; [done|]. cbn in Hx |- *. apply orb_false_iff in Hx as [Hy Hx].
  destruct (P y) eqn:E; [by rewrite HP in Hy|by apply IH].
Qed.

Lemma of_entity_other id id' row : id <> id' -> of_entity id' row = true -> of_entity id row = false.
Proof. unfold of_entity. intros Hne ->%String.eqb_eq. by apply String.eqb_neq. Qed.

Lemma registered_now tbl tbl' document url name now d :
  register_idp tbl document url name true now = (tbl', Ok d) ->
  forall t, describe tbl' (entity_id d) t =
    if expired_at t (valid_until d) then Err (MetadataRejected METADATA_EXPIRED) else Ok (Some d).
Proof.
  unfold register_idp. destruct (parse document None now) as [d'|e] eqn:Ep; [|done].
  destruct (negb (Utf8.valid document)); [done|].
  assert (forall row t, fe_document row = document -> (let* d'' := parse (fe_document row) (Some (entity_id d')) t in Ok (Some d'')) =
    if expired_at t (valid_until d') then Err (MetadataRejected METADATA_EXPIRED) else Ok (Some d')) as Hp.
  { intros row t ->. rewrite (parse_again _ _ t _ Ep). by destruct (expired_at t (valid_until d')). }
  intros E. assert (d' = d) as -> by (destruct (existsb _ tbl); by injection E). intros t. unfold describe.
  destruct (existsb (of_entity (entity_id d)) tbl) eqn:Ex; injection E as <-.
  - edestruct (find_replaced (fun row => of_entity (entity_id d) row && fe_enabled row)) as (row & -> & _); [| |exact Ex|].
    + intros x Hx. unfold of_entity in Hx |- *. cbn. by rewrite Hx.
    + intros x [Hx _]%andb_true_iff. exact Hx.
    + by apply Hp.
  - rewrite find_app. rewrite (existsb_find_None _ _ _ Ex) by (intros x [Hx _]%andb_true_iff; exact Hx). cbn.
    unfold of_entity. cbn. rewrite String.eqb_refl. cbn. by apply (Hp {| fe_entity_id := entity_id d; fe_role := ROLE_IDP;
      fe_display_name := name; fe_document := document; fe_metadata_url := url; fe_valid_until := valid_until d;
      fe_last_refreshed_at := now; fe_enabled := true |}).
Qed.

Lemma registered_others tbl tbl' document url name on now d :
  register_idp tbl document url name on now = (tbl', Ok d) -> forall t id, id <> entity_id d -> describe tbl' id t = describe tbl id t.
Proof.
  unfold register_idp. destruct (parse document None now) as [d'|e] eqn:Ep; [|done].
  destruct (negb (Utf8.valid document)); [done|]. intros E. assert (d' = d) as -> by (destruct (existsb _ tbl); by injection E).
  intros t id Hne. unfold describe. destruct (existsb (of_entity (entity_id d)) tbl) eqn:Ex; injection E as <-.
  - rewrite find_untouched; [done|]. intros x Hx. pose proof (of_entity_other _ _ _ Hne Hx) as Hf. rewrite Hf.
    split; [done|]. unfold of_entity in Hf |- *. cbn. by rewrite Hf.
  - rewrite find_app. destruct (List.find _ tbl); [done|]. cbn. unfold of_entity. cbn.
    by destruct (String.eqb_spec (entity_id d) id).
Qed.

Lemma refused_changes_nothing tbl tbl' document url name on now e :
  register_idp tbl document url name on now = (tbl', Err e) -> tbl' = tbl.
Proof.
  unfold register_idp. destruct (parse document None now) as [d'|e']; [|by intros [= <- _]].
  destruct (negb (Utf8.valid document)); [by intros [= <- _]|]. by destruct (existsb _ tbl).
Qed.

(** A registration replaces what is known of its own entity and of no other: a
    document that is refused changes nothing, so the last good copy keeps
    answering; one that is accepted is what [describe] answers from then on, until
    the moment its [validUntil] names, after which the entity is trusted by nobody
    and [describe] says why. *)
Theorem registered_is_described tbl tbl' document url name now r :
  register_idp tbl document url name true now = (tbl', r) ->
  match r with
  | Err _ => tbl' = tbl
  | Ok d =>
      (forall t, describe tbl' (entity_id d) t =
         if expired_at t (valid_until d) then Err (MetadataRejected METADATA_EXPIRED) else Ok (Some d)) /\
      (forall t, expired_at t (valid_until d) = true -> resolve_trusted_idp tbl' (entity_id d) t = Ok None) /\
      (forall t id, id <> entity_id d -> describe tbl' id t = describe tbl id t)
  end.
Proof.
  destruct r as [d|e]; [|apply refused_changes_nothing]. intros E. pose proof (registered_now _ _ _ _ _ _ _ E) as Hd. split_and!.
  - exact Hd.
  - intros t Ht. unfold resolve_trusted_idp. by rewrite Hd, Ht.
  - by eapply registered_others.
Qed.

(** Turning an entity off takes its trust away at once and nobody else's;
    registering it again, as a refresh does, gives it back. *)
Theorem disabled_entity_is_untrusted tbl tbl' id :
  set_enabled tbl id false = (tbl', Ok tt) ->
  (forall t, resolve_trusted_idp tbl' id t = Ok None) /\
  (forall t id', id' <> id -> resolve_trusted_idp tbl' id' t = resolve_trusted_idp tbl id' t) /\
  forall document url name now tbl2 d, register_idp tbl' document url name true now = (tbl2, Ok d) -> entity_id d = id ->
    describe tbl2 id now = Ok (Some d).
Proof.
  unfold set_enabled. destruct (existsb (of_entity id) tbl) eqn:Ex; [|done]. intros [= <-]. split_and!.
  - intros t. unfold resolve_trusted_idp, describe.
    assert (forall l, List.find (fun row => of_entity id row && fe_enabled row)
      ((fun row => if of_entity id row then {| fe_entity_id := fe_entity_id row; fe_role := fe_role row;
        fe_display_name := fe_display_name row; fe_document := fe_document row; fe_metadata_url := fe_metadata_url row;
        fe_valid_until := fe_valid_until row; fe_last_refreshed_at := fe_last_refreshed_at row; fe_enabled := false |} else row) <$> l)
      = None) as ->; [|done].
    induction l as [|x l IH]; [done|]. cbn. destruct (of_entity id x) eqn:E; cbn; [by rewrite andb_false_r|by rewrite E].
  - intros t id' Hne. unfold resolve_trusted_idp, describe. rewrite find_untouched; [done|].
    intros x Hx. pose proof (of_entity_other _ _ _ Hne Hx) as Hf. rewrite Hf. split; [done|]. unfold of_entity in Hf |- *. cbn. by rewrite Hf.
  - intros document url name now tbl2 d E <-. rewrite (registered_now _ _ _ _ _ _ _ E now).
    unfold register_idp in E. destruct (parse document None now) as [d'|e] eqn:Ep; [|done].
    assert (d' = d) as -> by (destruct (negb _); [done|]; destruct (existsb _ _); by injection E).
    unfold parse_idp_metadata in Ep. destruct (validate_metadata document); [|done..]. destruct (fromstring document) as [[root ?]|]; [|done].
    apply rbind_ok in Ep as (entity & _ & Hr). by apply read_entity_ok in Hr as (_ & -> & _).
Qed.

(** An aggregate that has expired as a whole is still trusted: only the entity's
    own [validUntil] is read. *)
Theorem aggregate_expiry_is_ignored document root doctype entity now d :
  fromstring document = Some (root, doctype) -> has_tag Q_ENTITIES_DESCRIPTOR root = true ->
  _select_entity root None = Ok entity -> get entity "validUntil" = None ->
  parse document None now = Ok d -> forall t, parse document (Some (entity_id d)) t = Ok d.
Proof.
  intros Hf _ Hs Hn Hp t. rewrite (parse_again _ _ _ _ Hp).
  unfold parse_idp_metadata in Hp. rewrite Hf in Hp. destruct (validate_metadata document); [|done..].
  apply rbind_ok in Hp as (e & Hs' & Hr). rewrite Hs in Hs'. injection Hs' as <-.
  apply read_entity_ok in Hr as (_ & _ & Hv & _). unfold _valid_until in Hv. rewrite Hn in Hv. by injection Hv as <-.
Qed.

End registry.

(** ** Witnesses *)

Section witnesses.

Definition leaf (t : string) (a : list (string * string)) (x : string) (c : list element) : element := Element t a x c "".
Definition demo_entity (until : list (string * string)) : element :=
  leaf Q_ENTITY_DESCRIPTOR (("entityID", "https://idp.test") :: until) "" [
    leaf Q_IDP_SSO_DESCRIPTOR [] "" [
      leaf Q_KEY_DESCRIPTOR [] "" [leaf Q_X509_CERTIFICATE [] " MIIC " []];
      leaf Q_KEY_DESCRIPTOR [("use", "encryption")] "" [leaf Q_X509_CERTIFICATE [] "XXXX" []];
      leaf Q_SSO_SERVICE [("Binding", BINDING_HTTP_REDIRECT); ("Location", "https://idp.test/sso")] "" []]].
Definition demo_until : list (string * string) := [("validUntil", "1970-01-02T00:00:00Z"); ("cacheDuration", "PT1H0.5S")].
Definition demo_parse (document : string) : option (element * string) :=
  if String.eqb document "plain" then Some (demo_entity demo_until, "")
  else Some (leaf Q_ENTITIES_DESCRIPTOR demo_until "" [demo_entity []], "").
Abbreviation demo_register := (register_idp (fun _ => true) (fun _ => Valid) demo_parse).
Abbreviation demo_resolve := (resolve_trusted_idp (fun _ => true) (fun _ => Valid) demo_parse).
Abbreviation demo_describe := (describe (fun _ => true) (fun _ => Valid) demo_parse).
Definition demo_table : list FederationEntity := (demo_register [] "plain" None (Some "Test") true 5).1.
Definition demo_idp : Gate.TrustedIdP :=
  {| Gate.entity_id := "https://idp.test"; Gate.signing_certificates := [pem_text "MIIC"];
     Gate.want_assertions_signed := true; Gate.allow_unsolicited := false |}.
Definition demo_descriptor : IdentityProviderDescriptor := {|
  entity_id := "https://idp.test"; sso_bindings := [(BINDING_HTTP_REDIRECT, "https://idp.test/sso")];
  signing_certificates := [pem_text "MIIC"]; slo_url := None; want_authn_requests_signed := false;
  valid_until := Some (IsoTime.Datetime (86400 * SECOND) (Some 0%Z)); cache_duration := Some (3600 * SECOND + 500000)%Z |}.

Lemma trusted_idp_is_registered_witness :
  demo_resolve demo_table "https://idp.test" 7 = Ok (Some demo_idp) /\
  exists row, row ∈ demo_table /\ fe_enabled row = true /\ fe_entity_id row = "https://idp.test".
Proof.
  assert (demo_resolve demo_table "https://idp.test" 7 = Ok (Some demo_idp)) as E by (vm_compute; reflexivity).
  split; [exact E|].
  destruct (trusted_idp_is_registered (fun _ => true) (fun _ => Valid) demo_parse demo_table "https://idp.test" 7 demo_idp E)
    as (_ & _ & _ & row & d & H1 & H2 & H3 & _).
  exists row. split; [exact H1|]. split; [exact H2|exact H3].
Defined.

Lemma registered_is_described_witness :
  demo_describe demo_table "https://idp.test" 7 = Ok (Some demo_descriptor) /\
  demo_resolve demo_table "https://idp.test" (86400 * SECOND) = Ok None.
Proof.
  assert (demo_register [] "plain" None (Some "Test") true 5 = (demo_table, Ok demo_descriptor)) as E by (vm_compute; reflexivity).
  destruct (registered_is_described (fun _ => true) (fun _ => Valid) demo_parse _ _ _ _ _ _ _ E) as (H1 & H2 & _).
  split; [exact (H1 7%Z)|]. apply (H2 (86400 * SECOND)%Z). vm_compute. reflexivity.
Defined.

Lemma disabled_entity_is_untrusted_witness :
  demo_resolve (set_enabled demo_table "https://idp.test" false).1 "https://idp.test" 7 = Ok None.
Proof.
  assert (set_enabled demo_table "https://idp.test" false = ((set_enabled demo_table "https://idp.test" false).1, Ok tt)) as E
    by (vm_compute; reflexivity).
  exact (proj1 (disabled_entity_is_untrusted (fun _ => true) (fun _ => Valid) demo_parse _ _ _ E) 7%Z).
Defined.

(** An hour after the aggregate of [demo_until] lapsed. *)
Lemma aggregate_expiry_is_ignored_witness :
  exists d, parse_idp_metadata (fun _ => true) (fun _ => Valid) demo_parse "aggregate" (Some "https://idp.test") (90000 * SECOND) = Ok d.
Proof.
  set (root := leaf Q_ENTITIES_DESCRIPTOR demo_until "" [demo_entity []]).
  assert (demo_parse "aggregate" = Some (root, "")) as H1 by reflexivity.
  assert (has_tag Q_ENTITIES_DESCRIPTOR root = true) as H2 by reflexivity.
  assert (_select_entity root None = Ok (demo_entity [])) as H3 by (vm_compute; reflexivity).
  assert (get (demo_entity []) "validUntil" = None) as H4 by reflexivity.
  set (d := {| entity_id := "https://idp.test"; sso_bindings := [(BINDING_HTTP_REDIRECT, "https://idp.test/sso")];
    signing_certificates := [pem_text "MIIC"]; slo_url := None; want_authn_requests_signed := false;
    valid_until := None; cache_duration := None |}).
  assert (parse_idp_metadata (fun _ => true) (fun _ => Valid) demo_parse "aggregate" None 5 = Ok d) as H5 by (vm_compute; reflexivity).
  exists d. exact (aggregate_expiry_is_ignored (fun _ => true) (fun _ => Valid) demo_parse "aggregate" root "" (demo_entity []) 5 d
    H1 H2 H3 H4 H5 (90000 * SECOND)%Z).
Defined.

Example duration_overflows : _cache_duration (leaf "" [("cacheDuration", "P1000000000D")] "" []) = Err OverflowError.
Proof. vm_compute. reflexivity. Qed.

End witnesses.
End Registered.
