(* ===== verification/SamlSp.v ===== *)
(** * What we publish and what we send

    [campusid/saml/metadata_sp.py] and [campusid/saml/authn_request.py]: our own
    metadata, and the signed [AuthnRequest] of the redirect binding with the check
    a peer makes of it.  lxml's serializer, zlib and the certificate loader are
    parameters; RSA is the class [RsaLib].  Namespace prefixes and the schema
    check of what we render are left out. *)

From S2P Require Import Prelude PyStr Dict Base64 Json JsonText JsonLoads Errors Url Redis IsoTime Xml Jwt SamlSignature SamlGate Federation.
Import Xml Ns Parser.

Module SpMetadata.

Definition SAML2_PROTOCOL := "urn:oasis:names:tc:SAML:2.0:protocol".
Definition BINDING_HTTP_POST := "urn:oasis:names:tc:SAML:2.0:bindings:HTTP-POST".
Definition NAMEID_PERSISTENT := "urn:oasis:names:tc:SAML:2.0:nameid-format:persistent".
Definition NAMEID_TRANSIENT := "urn:oasis:names:tc:SAML:2.0:nameid-format:transient".
Definition NAMEID_EMAIL := "urn:oasis:names:tc:SAML:1.1:nameid-format:emailAddress".
Definition ATTRIBUTE_NAME_FORMAT_URI := "urn:oasis:names:tc:SAML:2.0:attrname-format:uri".

Record RequestedAttribute : Type := { ra_name : string; friendly_name : string; is_required : bool }.
Record ContactPerson : Type := { contact_type : string; given_name : string; surname : string; email_address : string }.
Record ServiceProviderDescription : Type := {
  entity_id : string;
  acs_url : string;
  signing_certificates : list string;
  slo_url : option string;
  encryption_certificates : list string;
  organization_name : string;
  organization_display_name : string;
  organization_url : string;
  contacts : list ContactPerson;
  name_id_formats : list string;
  requested_attributes : list RequestedAttribute;
  valid_for : duration;
}.

Definition requested (name friendly : string) (required : bool) : RequestedAttribute :=
  {| ra_name := name; friendly_name := friendly; is_required := required |}.
Definition DEFAULT_REQUESTED_ATTRIBUTES : list RequestedAttribute := [
  requested "urn:oasis:names:tc:SAML:attribute:subject-id" "subject-id" true;
  requested "urn:oid:1.3.6.1.4.1.5923.1.1.1.6" "eduPersonPrincipalName" true;
  requested "urn:oid:0.9.2342.19200300.100.1.3" "mail" false;
  requested "urn:oid:2.16.840.1.113730.3.1.241" "displayName" false;
  requested "urn:oid:2.5.4.42" "givenName" false;
  requested "urn:oid:2.5.4.4" "sn" false;
  requested "urn:oid:1.3.6.1.4.1.5923.1.1.1.9" "eduPersonScopedAffiliation" false;
  requested "urn:oid:1.3.6.1.4.1.5923.1.1.1.7" "eduPersonEntitlement" false].

(** ** Text *)

(** [s.splitlines()] of ASCII text: line feed, carriage return or both, and the
    separators from vertical tab to form feed and from 28 to 30. *)
Definition is_break (c : ascii) : bool := let n := nat_of_ascii c in bool_decide (n ∈ [10; 11; 12; 13; 28; 29; 30]%nat).
Fixpoint splitlines_go (cur : string) (s : string) : list string :=
  match s with
  | EmptyString => if String.eqb cur "" then [] else [Py.srev cur]
  | String c s' =>
      if is_break c then
        Py.srev cur ::
          match s' with
          | String d s'' =>
              if Ascii.eqb c (ascii_of_nat 13) && Ascii.eqb d (ascii_of_nat 10) then splitlines_go "" s'' else splitlines_go "" s'
          | EmptyString => []
          end
      else splitlines_go (String c cur) s'
  end.
Definition splitlines (s : string) : list string := splitlines_go "" s.

Definition body_line (line : string) : bool :=
  negb (String.eqb (Py.strip line) "") && negb (Py.startswith line "-----").
Definition certificate_body (pem : string) : string :=
  Py.join "" (Py.strip <$> List.filter body_line (splitlines (Py.strip pem))).

(** [moment.strftime("%Y-%m-%dT%H:%M:%SZ")] in UTC. *)
Definition two (n : Z) : string := Py.zfill 2 (Py.str_of_Z n).
Definition _xs_datetime (t : moment) : string :=
  let s := (t / SECOND)%Z in
  let '(y, m, d) := Dates.civil (s / 86400)%Z in let r := (s mod 86400)%Z in
  Py.str_of_Z y +:+ "-" +:+ two m +:+ "-" +:+ two d +:+ "T" +:+
  two (r / 3600)%Z +:+ ":" +:+ two (r / 60 mod 60)%Z +:+ ":" +:+ two (r mod 60)%Z +:+ "Z".

Definition _xml (local_name : string) : string := qn "http://www.w3.org/XML/1998/namespace" local_name.

Definition _element (namespace local : string) (attributes : list (string * string)) (text : string) (children : list element) : element :=
  Element (qn namespace local) attributes text children "".

(** ** The descriptor *)

Definition _key_descriptor (use certificate : string) : element :=
  _element MD "KeyDescriptor" [("use", use)] "" [
    _element DS "KeyInfo" [] "" [_element DS "X509Data" [] "" [_element DS "X509Certificate" [] (certificate_body certificate) []]]].

Definition truth (b : bool) : string := if b then "true" else "false".

Definition attribute_service (d : ServiceProviderDescription) : list element :=
  match requested_attributes d with
  | [] => []
  | attributes => [_element MD "AttributeConsumingService" [("index", "0"); ("isDefault", "true")] ""
      (_element MD "ServiceName" [(_xml "lang", "en")] (organization_display_name d) [] ::
       ((fun a => _element MD "RequestedAttribute" [("Name", ra_name a); ("NameFormat", ATTRIBUTE_NAME_FORMAT_URI);
          ("FriendlyName", friendly_name a); ("isRequired", truth (is_required a))] "" []) <$> attributes))]
  end.

(** What is appended to the role descriptor, in the order of the code. *)
Definition sp_blocks (d : ServiceProviderDescription) : list (list element) := [
  _key_descriptor "signing" <$> signing_certificates d;
  _key_descriptor "encryption" <$> encryption_certificates d;
  match Metadata.truthy (slo_url d) with
  | Some url => [_element MD "SingleLogoutService" [("Binding", Metadata.BINDING_HTTP_REDIRECT); ("Location", url)] "" []]
  | None => []
  end;
  (fun f => _element MD "NameIDFormat" [] f []) <$> name_id_formats d;
  [_element MD "AssertionConsumerService"
     [("Binding", BINDING_HTTP_POST); ("Location", acs_url d); ("index", "0"); ("isDefault", "true")] "" []];
  attribute_service d].

Definition sp_descriptor (d : ServiceProviderDescription) : element :=
  _element MD "SPSSODescriptor"
    [("protocolSupportEnumeration", SAML2_PROTOCOL); ("AuthnRequestsSigned", "true"); ("WantAssertionsSigned", "true")] ""
    (concat (sp_blocks d)).

Definition build_sp_metadata (d : ServiceProviderDescription) (now : moment) : element :=
  _element MD "EntityDescriptor"
    [("entityID", entity_id d); ("validUntil", _xs_datetime (now + valid_for d));
     ("cacheDuration", "PT" +:+ Py.str_of_Z (Z.quot (valid_for d) SECOND / 2) +:+ "S")] ""
    (sp_descriptor d ::
     _element MD "Organization" [] "" [
       _element MD "OrganizationName" [(_xml "lang", "en")] (organization_name d) [];
       _element MD "OrganizationDisplayName" [(_xml "lang", "en")] (organization_display_name d) [];
       _element MD "OrganizationURL" [(_xml "lang", "en")] (organization_url d) []] ::
     ((fun c => _element MD "ContactPerson" [("contactType", contact_type c)] "" [
        _element MD "GivenName" [] (given_name c) []; _element MD "SurName" [] (surname c) [];
        _element MD "EmailAddress" [] ("mailto:" +:+ email_address c) []]) <$> contacts d)).

(** ** Properties *)

(** The places of the schema's sequence for [SPSSODescriptor]. *)
Definition schema_sequence : list string :=
  qn MD <$> ["KeyDescriptor"; "Organization"; "ContactPerson"; "ArtifactResolutionService"; "SingleLogoutService";
             "ManageNameIDService"; "NameIDFormat"; "AssertionConsumerService"; "AttributeConsumingService"].
Definition place (t : string) : nat :=
  match list_find (eq t) schema_sequence with Some (i, _) => i | None => 0 end.

(** Blocks of one place each, in order. *)
Lemma sorted_blocks {A} (f : A -> nat) (ns : list nat) (bs : list (list A)) :
  Forall2 (fun n b => Forall (fun x => f x = n) b) ns bs -> Sorted.StronglySorted le ns ->
  Sorted.StronglySorted le (f <$> concat bs).
Proof.
  induction 1 as [|n b ns bs Hb Hbs IH]; [constructor|]. intros [Hs Hn]%Sorted.StronglySorted_inv. cbn. rewrite fmap_app.
  assert (Forall (le n) (f <$> concat bs)) as Hle.
  { clear IH Hs. induction Hbs as [|m b' ns bs Hm Hbs IH]; [done|]. apply Forall_cons in Hn as [Hm' Hn]. cbn. rewrite fmap_app.
    apply Forall_app. split; [|by apply IH]. apply Forall_fmap. eapply Forall_impl; [exact Hm|]. cbn. by intros x ->. }
  specialize (IH Hs). induction Hb as [|x b Hx Hb IHb]; [done|]. cbn. constructor; [exact IHb|]. rewrite Hx.
  apply Forall_app. split; [|done]. apply Forall_fmap. eapply Forall_impl; [exact Hb|]. cbn. by intros y ->.
Qed.

Lemma blocks_tagged d :
  Forall2 (fun n b => Forall (fun e => tag e ∈ schema_sequence /\ place (tag e) = n) b) [0; 0; 4; 6; 7; 8]%nat (sp_blocks d).
Proof.
  assert (forall t n, bool_decide (t ∈ schema_sequence) = true -> place t = n -> forall e, tag e = t ->
    tag e ∈ schema_sequence /\ place (tag e) = n) as Ht by (intros t n Hin Hp e ->; by bool_prop).
  assert (forall A (f : A -> element) n l, (forall x, tag (f x) ∈ schema_sequence /\ place (tag (f x)) = n) ->
    Forall (fun e => tag e ∈ schema_sequence /\ place (tag e) = n) (f <$> l)) as Hb by (intros A f n l Hf; by apply Forall_fmap, Forall_true).
  unfold sp_blocks, attribute_service. repeat constructor.
  1-2, 4: apply Hb; intros x; by eapply Ht; [..|reflexivity].
  - destruct (Metadata.truthy (slo_url d)); [|done]. constructor; [by eapply Ht; [..|reflexivity]|done].
  - destruct (requested_attributes d); [done|]. constructor; [by eapply Ht; [..|reflexivity]|done].
Qed.

(** The children of our role descriptor stand in the order of the schema's
    sequence, whichever of them there are. *)
Theorem children_in_schema_order d :
  Sorted.StronglySorted le ((fun e => place (tag e)) <$> children (sp_descriptor d)) /\
  Forall (fun e => tag e ∈ schema_sequence) (children (sp_descriptor d)).
Proof.
  pose proof (blocks_tagged d) as Hb. cbn [sp_descriptor children _element]. split.
  - eapply sorted_blocks; [eapply Forall2_impl; [exact Hb|]|repeat constructor; lia].
    intros n b H. eapply Forall_impl; [exact H|]. by intros e [_ ?].
  - apply Forall_concat. revert Hb. generalize (sp_blocks d) as bs, [0; 0; 4; 6; 7; 8]%nat as ns.
    induction 1 as [|n b ns bs H _ IH]; constructor; [|exact IH]. eapply Forall_impl; [exact H|]. by intros e [? _].
Qed.

(** ** A key we publish is the key a peer reads *)

(** The characters of a base64 body. *)
Definition body_char (c : ascii) : bool := Url.is_alnum c || bool_decide (c ∈ ["+"; "/"; "="]%char).

Lemma body_char_plain c : body_char c = true -> is_break c = false /\ Py.is_space c = false /\ Ascii.eqb c "-" = false.
Proof. by destruct c as [[] [] [] [] [] [] [] []]. Qed.

Lemma splitlines_line cur line s : Py.sforall (fun c => negb (is_break c)) line = true ->
  splitlines_go cur (line +:+ Metadata.newline +:+ s) = (Py.srev cur +:+ line) :: splitlines_go "" s.
Proof.
  revert cur. induction line as [|c line IH]; intros cur Hl.
  - rewrite !Py.app_nil_l, Py.app_nil_r. cbn. by destruct s.
  - cbn in Hl. bool_prop. rewrite Py.app_String. cbn [splitlines_go]. destruct (is_break c); [done|].
    rewrite IH by done. f_equal. by rewrite Py.srev_String, Py.app_assoc.
Qed.
Lemma splitlines_last line : Py.sforall (fun c => negb (is_break c)) line = true -> line <> "" -> splitlines line = [line].
Proof.
  unfold splitlines. enough (forall cur, Py.sforall (fun c => negb (is_break c)) line = true -> Py.srev cur +:+ line <> "" ->
    splitlines_go cur line = [Py.srev cur +:+ line]) as H by (intros; by apply H).
  induction line as [|c line IH]; intros cur Hl Hne.
  - cbn. destruct (String.eqb_spec cur ""); [by subst|]. by rewrite Py.app_nil_r.
  - cbn in Hl. bool_prop. cbn [splitlines_go]. destruct (is_break c); [done|].
    rewrite IH; [by rewrite Py.srev_String, Py.app_assoc|done|].
    rewrite Py.srev_String, Py.app_assoc. by destruct (Py.srev cur).
Qed.

Lemma splitlines_lines lines last : Forall (fun l => Py.sforall (fun c => negb (is_break c)) l = true) lines ->
  splitlines (foldr (fun l acc => l +:+ Metadata.newline +:+ acc) last lines) = lines ++ splitlines last.
Proof.
  unfold splitlines. induction 1 as [|l lines Hl _ IH]; [done|]. cbn [foldr]. rewrite splitlines_line by done. by rewrite IH.
Qed.

Lemma length_drop n s : (String.length (Py.drop n s) <= String.length s - n)%nat.
Proof. revert n. induction s as [|c s IH]; intros [|n]; cbn; [lia..|]. apply IH. Qed.

Lemma wrap_join n s : (String.length s <= n)%nat -> Py.join "" (Metadata.wrap n s) = s.
Proof.
  assert (forall w ws, Py.join "" (w :: ws) = w +:+ Py.join "" ws) as Hj.
  { intros w [|w' ws]; [by rewrite Py.app_nil_r|done]. }
  revert s. induction n as [|n IH]; intros s Hn; [by destruct s; cbn in Hn; [|lia]|]. cbn [Metadata.wrap].
  destruct (String.eqb_spec s "") as [->|Hs]; [done|]. rewrite Hj, IH; [apply Py.take_drop|].
  pose proof (length_drop 64 s). destruct s; [done|]. cbn [String.length] in *. lia.
Qed.
Lemma wrap_pieces f n s : Py.sforall f s = true -> Forall (fun l => Py.sforall f l = true /\ l <> "") (Metadata.wrap n s).
Proof.
  revert s. induction n as [|n IH]; intros s Hs; [constructor|]. cbn [Metadata.wrap].
  destruct (String.eqb_spec s "") as [->|Hne]; [constructor|].
  rewrite <-(Py.take_drop 64 s), Py.sforall_app in Hs. bool_prop. constructor; [|by apply IH]. split; [done|by destruct s].
Qed.

Lemma strip_newline s : Py.unpadded s = true -> Py.unpadded (Py.srev s) = true -> Py.strip (s +:+ Metadata.newline) = s.
Proof.
  intros Hs Hr. destruct s as [|a s]; [vm_compute; reflexivity|]. unfold Py.strip. rewrite (Py.lstrip_fix (String a s +:+ Metadata.newline)) by exact Hs.
  rewrite Py.srev_app_distr. change (Py.lstrip (?n +:+ ?x)) with (Py.lstrip x). rewrite Py.lstrip_fix by done. apply Py.srev_srev.
Qed.

Lemma pem_lines body : Metadata.wrap (String.length body) body <> [] ->
  Py.strip (Metadata.pem_text body) =
  foldr (fun l acc => l +:+ Metadata.newline +:+ acc) "-----END CERTIFICATE-----"
    ("-----BEGIN CERTIFICATE-----" :: Metadata.wrap (String.length body) body).
Proof.
  intros Hne. unfold Metadata.pem_text. set (ls := Metadata.wrap _ body) in *.
  assert (Py.join Metadata.newline ls +:+ Metadata.newline +:+ "-----END CERTIFICATE-----" +:+ Metadata.newline =
    foldr (fun l acc => l +:+ Metadata.newline +:+ acc) "-----END CERTIFICATE-----" ls +:+ Metadata.newline) as E.
  { clearbody ls. induction ls as [|l [|l' ls] IH]; [done| |].
    - cbn [foldr Py.join]. by rewrite !Py.app_assoc.
    - change (Py.join Metadata.newline (l :: l' :: ls)) with (l +:+ Metadata.newline +:+ Py.join Metadata.newline (l' :: ls)).
      rewrite !Py.app_assoc, IH by done. cbn [foldr]. by rewrite !Py.app_assoc. }
  rewrite E. clear E. cbn [foldr]. set (x := foldr _ _ ls).
  assert (exists x', x = x' +:+ "-----END CERTIFICATE-----") as [x' ->].
  { subst x. clear Hne. clearbody ls. induction ls as [|l ls [x' IH]]; [by exists ""|]. cbn [foldr]. rewrite IH.
    exists (l +:+ Metadata.newline +:+ x'). by rewrite !Py.app_assoc. }
  transitivity (Py.strip ((("-----BEGIN CERTIFICATE-----" +:+ Metadata.newline +:+ x') +:+ "-----END CERTIFICATE-----") +:+ Metadata.newline));
    [by rewrite !Py.app_assoc|].
  rewrite strip_newline; [by rewrite !Py.app_assoc|done|]. by rewrite Py.srev_app_distr.
Qed.

Lemma unpadded_body l : Py.sforall body_char l = true -> Py.unpadded l = true.
Proof. destruct l as [|c l]; [done|]. cbn. intros H. bool_prop. destruct (body_char_plain c) as (_ & -> & _); done. Qed.
Lemma body_line_plain l : Py.sforall body_char l = true -> l <> "" -> Py.strip l = l /\ body_line l = true.
Proof.
  intros Hl Hne. assert (Py.strip l = l) as E by (apply Py.strip_fix; apply unpadded_body; by rewrite ?Py.sforall_srev).
  split; [done|]. unfold body_line. rewrite E. destruct l as [|c l]; [done|]. cbn [Py.sforall] in Hl. bool_prop.
  destruct (body_char_plain c) as (_ & _ & Hc); [done|].
  replace (Py.startswith (String c l) "-----") with false by (cbn [Py.startswith]; by rewrite ?(Ascii.eqb_sym "-"), Hc). done.
Qed.

Lemma certificate_body_pem body : body <> "" -> Py.sforall body_char body = true ->
  certificate_body (Metadata.pem_text body) = body.
Proof.
  intros Hne Hb. unfold certificate_body.
  assert (Metadata.wrap (String.length body) body <> []) as Hw by (by destruct body).
  pose proof (wrap_pieces body_char (String.length body) body Hb) as Hp.
  rewrite pem_lines by done. set (ls := Metadata.wrap _ _) in *.
  rewrite splitlines_lines.
  - rewrite (splitlines_last "-----END CERTIFICATE-----") by done. rewrite List.filter_app. cbn [List.filter app].
    replace (body_line "-----BEGIN CERTIFICATE-----") with false by done.
    replace (body_line "-----END CERTIFICATE-----") with false by done. rewrite app_nil_r.
    transitivity (Py.join "" ls); [|by apply wrap_join]. f_equal.
    clearbody ls. clear Hw. induction Hp as [|l ls [Hl Hl'] Hp IH]; [done|]. cbn [List.filter].
    destruct (body_line_plain l) as [E ->]; [done..|]. rewrite fmap_cons, E. by f_equal.
  - constructor; [done|]. eapply Forall_impl; [exact Hp|]. intros l [Hl _]. clear -Hl.
    induction l as [|c l IH]; [done|]. cbn in Hl |- *. bool_prop. destruct (body_char_plain c) as (-> & _ & _); [done|]. by apply IH.
Qed.

Lemma filter_always {A B} (f : B -> bool) (g : A -> B) l : (forall x, f (g x) = true) -> List.filter f (g <$> l) = g <$> l.
Proof. intros H. induction l as [|x l IH]; [done|]. rewrite fmap_cons. cbn [List.filter]. by rewrite H, IH. Qed.
Lemma filter_never {A B} (f : B -> bool) (g : A -> B) l : (forall x, f (g x) = false) -> List.filter f (g <$> l) = [].
Proof. intros H. induction l as [|x l IH]; [done|]. rewrite fmap_cons. cbn [List.filter]. by rewrite H, IH. Qed.

Lemma key_descriptors d :
  findall (sp_descriptor d) Metadata.Q_KEY_DESCRIPTOR =
  (_key_descriptor "signing" <$> signing_certificates d) ++ (_key_descriptor "encryption" <$> encryption_certificates d).
Proof.
  unfold findall, sp_descriptor. cbn [children _element]. unfold sp_blocks, attribute_service. cbn [concat].
  rewrite !List.filter_app, !filter_always by done.
  rewrite (filter_never _ (fun f => _element MD "NameIDFormat" [] f [])) by done. cbn [List.filter has_tag tag _element].
  replace (List.filter (has_tag Metadata.Q_KEY_DESCRIPTOR) (match Metadata.truthy (slo_url d) with Some _ => _ | None => _ end))
    with (@nil element) by by destruct (Metadata.truthy (slo_url d)).
  replace (List.filter (has_tag Metadata.Q_KEY_DESCRIPTOR) (match requested_attributes d with [] => _ | _ => _ end))
    with (@nil element) by by destruct (requested_attributes d). by rewrite app_nil_r.
Qed.

Lemma words_body b : Py.sforall body_char b = true -> b <> "" -> Py.join "" (Py.words b) = b.
Proof.
  intros Hb Hne. unfold Py.words. rewrite Py.words_go_nil_nospace.
  - change (Py.srev_app b "") with (Py.srev b). destruct (String.eqb_spec (Py.srev b) "") as [E|_]; [|apply Py.srev_srev].
    by rewrite <-(Py.srev_srev b), E in Hne.
  - clear Hne. induction b as [|c b IH]; [done|]. cbn in Hb |- *. bool_prop. destruct (body_char_plain c) as (_ & -> & _); [done|]. by apply IH.
Qed.

(** The certificates another party reads from our role descriptor to check our
    signatures: those we described as signing ones, in that order, and none of
    the encryption ones. *)
Theorem published_keys_are_read_back d bodies :
  Forall (fun b => b <> "" /\ Py.sforall body_char b = true) bodies ->
  signing_certificates d = Metadata.pem_text <$> bodies ->
  Metadata.certificate_bodies (sp_descriptor d) = bodies.
Proof.
  intros Hb E. unfold Metadata.certificate_bodies. rewrite key_descriptors, E, List.filter_app.
  rewrite (filter_always Metadata.signing_use), (filter_never Metadata.signing_use), app_nil_r by done. clear E.
  induction Hb as [|b bodies [Hne Hb] _ IH]; [done|]. rewrite !fmap_cons. cbn [map concat]. rewrite fmap_app, List.filter_app.
  match goal with |- _ ++ ?t = _ => replace t with bodies by (symmetry; exact IH) end.
  set (e := _key_descriptor _ _). replace (iter_tag e Metadata.Q_X509_CERTIFICATE) with
    [_element DS "X509Certificate" [] (certificate_body (Metadata.pem_text b)) []] by done.
  rewrite certificate_body_pem by done. cbn [fmap list_fmap List.filter].
  change (text_of (Some (_element DS "X509Certificate" [] b []))) with b. rewrite words_body by done. by destruct (String.eqb_spec b "").
Qed.

Definition demo_description : ServiceProviderDescription := {|
  entity_id := "https://broker.test"; acs_url := "https://broker.test/saml/acs"; signing_certificates := Metadata.pem_text <$> ["MIIC"; "MIID+/=="];
  slo_url := Some "https://broker.test/saml/slo"; encryption_certificates := [Metadata.pem_text "MIIE"];
  organization_name := "Campus"; organization_display_name := "The campus"; organization_url := "https://campus.test";
  contacts := [{| contact_type := "technical"; given_name := "Ada"; surname := "L"; email_address := "ada@campus.test" |}];
  name_id_formats := [NAMEID_PERSISTENT; NAMEID_TRANSIENT]; requested_attributes := DEFAULT_REQUESTED_ATTRIBUTES; valid_for := (7 * 86400 * SECOND)%Z |}.

Lemma published_keys_are_read_back_witness :
  Metadata.certificate_bodies (sp_descriptor demo_description) = ["MIIC"; "MIID+/=="].
Proof.
  apply published_keys_are_read_back; [|reflexivity].
  repeat (constructor; [split; [discriminate|vm_compute; reflexivity]|]). constructor.
Defined.

Example demo_metadata_dates :
  attrib (build_sp_metadata demo_description (1709210096 * SECOND + 7)%Z) =
  [("entityID", "https://broker.test"); ("validUntil", "2024-03-07T12:34:56Z"); ("cacheDuration", "PT302400S")].
Proof. vm_compute. reflexivity. Qed.

End SpMetadata.

(** zlib's raw deflate stream: [inflate] is [None] where zlib raises. *)
Class ZlibLib : Type := { deflate : string -> string; inflate : string -> option string }.
Class ZlibLaws `{ZlibLib} : Prop := { inflate_deflate (data : string) : inflate (deflate data) = Some data }.

Module AuthnRequest.
Import SpMetadata.

Definition RSA_SHA256_SIG_ALG := "http://www.w3.org/2001/04/xmldsig-more#rsa-sha256".
Definition PASSWORD_PROTECTED_TRANSPORT := "urn:oasis:names:tc:SAML:2.0:ac:classes:PasswordProtectedTransport".
Definition REFEDS_MFA := "https://refeds.org/profile/mfa".
Definition SIGNED_PARAMETER_ORDER : list string := ["SAMLRequest"; "SAMLResponse"; "RelayState"; "SigAlg"].

Record AuthnRequestPolicy : Type := {
  p_entity_id : string;
  p_acs_url : string;
  name_id_format : string;
  force_authn : bool;
  is_passive : bool;
  authn_context_class_ref : option string;
  comparison : string;
}.
Definition default_policy (id url : string) : AuthnRequestPolicy := {|
  p_entity_id := id; p_acs_url := url; name_id_format := NAMEID_PERSISTENT; force_authn := false; is_passive := false;
  authn_context_class_ref := Some PASSWORD_PROTECTED_TRANSPORT; comparison := "exact" |}.

Record PreparedAuthnRequest : Type := { request_id : string; relay_state : string; redirect_url : string; xml : string }.

(** The element [build_authn_request] renders. *)
Definition build_authn_request (p : AuthnRequestPolicy) (destination id : string) (now : moment) : element :=
  _element SAMLP "AuthnRequest"
    [("ID", id); ("Version", "2.0"); ("IssueInstant", _xs_datetime now); ("Destination", destination);
     ("ProtocolBinding", BINDING_HTTP_POST); ("AssertionConsumerServiceURL", p_acs_url p);
     ("ForceAuthn", truth (force_authn p)); ("IsPassive", truth (is_passive p))] ""
    ([_element SAML "Issuer" [] (p_entity_id p) [];
      _element SAMLP "NameIDPolicy" [("Format", name_id_format p); ("AllowCreate", "true")] "" []] ++
     match authn_context_class_ref p with
     | Some ref => [_element SAMLP "RequestedAuthnContext" [("Comparison", comparison p)] ""
                      [_element SAML "AuthnContextClassRef" [] ref []]]
     | None => []
     end).

(** A SAML identifier from [secrets.token_hex(16)]. *)
Definition new_id (hex : string) : string := "_" +:+ hex.

Section redirect.
Context {Priv Pub : Type} `{RsaLib Priv Pub} `{ZlibLib}.
(** [etree.tostring] of a request. *)
Context (tostring : element -> string).
(** [load_pem_private_key] and [load_pem_x509_certificate(...).public_key()]:
    [None] for a key that is not an RSA key. *)
Context (load_pem_private_key : string -> result exn (option Priv)) (load_certificate_key : string -> result exn (option Pub)).
(** What [unquote] makes of bytes that are not UTF-8. *)
Context (replaced : string -> string).

Definition _sign (payload key_pem : string) : result exn string :=
  let* key := load_pem_private_key key_pem in
  match key with Some key => Ok (rsa_sign key payload) | None => Err TypeError end.

Definition parameter (name value : string) : string := name +:+ "=" +:+ value.

Definition signed_parameters (encoded relay sig_alg : string) : list (string * string) :=
  [("SAMLRequest", Url.quote encoded); ("RelayState", Url.quote relay); ("SigAlg", Url.quote sig_alg)].
Definition signing_input (ps : list (string * string)) : string := Py.join "&" ((fun kv => parameter kv.1 kv.2) <$> ps).

(** [drawn_hex] and [drawn_state] are what [secrets] would draw. *)
Definition prepare_redirect (p : AuthnRequestPolicy) (destination key_pem : string) (id relay : option string) (now : moment)
    (sig_alg drawn_hex drawn_state : string) : result exn PreparedAuthnRequest :=
  let id := default (new_id drawn_hex) (Metadata.truthy id) in
  let relay := default drawn_state (Metadata.truthy relay) in
  let xml := tostring (build_authn_request p destination id now) in
  let input := signing_input (signed_parameters (Base64.encode (deflate xml)) relay sig_alg) in
  let* signature := _sign input key_pem in
  let separator := if Py.has_char "?" destination then "&" else "?" in
  Ok {| request_id := id; relay_state := relay; xml := xml;
        redirect_url := destination +:+ separator +:+ input +:+ "&" +:+
          parameter "Signature" (Url.quote (Base64.encode signature)) |}.

(** [raw.setdefault(name, value)] for each pair. *)
Definition setdefault (raw : list (string * string)) (kv : string * string) : list (string * string) :=
  if Dict.mem raw kv.1 then raw else Dict.set raw kv.1 kv.2.
Definition pair_of (pair : string) : string * string := let '(n, v) := Py.partition "=" pair in (n, default "" v).
Definition raw_query (query : string) : list (string * string) := fold_left setdefault (pair_of <$> Py.split_on "&" query) [].

Definition signed_octets (raw : list (string * string)) : string :=
  Py.join "&" (omap (fun name => parameter name <$> Dict.get raw name) SIGNED_PARAMETER_ORDER).

Fixpoint try_certificates (signature input : string) (certificates : list string) : result exn () :=
  match certificates with
  | [] => Err (SamlRejected SIGNATURE_INVALID)
  | c :: rest =>
      let* key := load_certificate_key c in
      match key with
      | Some pk => if rsa_verify pk signature input then Ok () else try_certificates signature input rest
      | None => try_certificates signature input rest
      end
  end.

Definition verify_redirect_signature (query : string) (certificates : list string) : result exn () :=
  let raw := raw_query query in
  match Dict.get raw "Signature" with
  | None => Err (SamlRejected SIGNATURE_MISSING)
  | Some quoted =>
      let input := signed_octets raw in
      raise* UnicodeEncodeError when negb (Py.is_ascii input);
      match Base64.decode (Url.unquote replaced quoted) with
      | None => Err ValueError
      | Some signature => try_certificates signature input certificates
      end
  end.

Definition decode_saml_request (encoded : string) : result exn string :=
  match b ← Base64.decode (Url.unquote replaced encoded); inflate b with
  | Some data => Ok data
  | None => Err (SamlRejected MALFORMED_RESPONSE)
  end.

(** ** The query string a peer reads *)

Definition wire_query (url : string) : string := default "" (Py.partition "?" (Url.up_to "#" url)).2.
(** The parameters [destination] has of its own. *)
Definition own_parameters (destination : string) : list (string * string) :=
  match (Py.partition "?" destination).2 with Some q => pair_of <$> Py.split_on "&" q | None => [] end.

Lemma get_setdefault d kv k :
  Dict.get (setdefault d kv) k = match Dict.get d k with Some v => Some v | None => if String.eqb k kv.1 then Some kv.2 else None end.
Proof.
  unfold setdefault, Dict.mem. destruct (Dict.get d kv.1) eqn:E.
  - destruct (String.eqb_spec k kv.1) as [->|]; [by rewrite E|]. by destruct (Dict.get d k).
  - rewrite Dict.get_set. destruct (String.eqb_spec k kv.1) as [->|]; [by rewrite decide_True, E by done|].
    rewrite decide_False by congruence. by destruct (Dict.get d k).
Qed.
Lemma get_raw ps d k :
  Dict.get (fold_left setdefault ps d) k = match Dict.get d k with Some v => Some v | None => Dict.get ps k end.
Proof.
  revert d. induction ps as [|[n v] ps IH]; intros d; [by cbn; destruct (Dict.get d k)|]. cbn [fold_left Dict.get].
  rewrite IH, get_setdefault. destruct (Dict.get d k); [done|]. cbn. by destruct (String.eqb k n).
Qed.
Lemma get_app_None (d e : list (string * string)) k : Dict.get d k = None -> Dict.get (d ++ e) k = Dict.get e k.
Proof. induction d as [|[n v] d IH]; [done|]. cbn. by destruct (String.eqb k n). Qed.

Lemma split_on_mid sep a b : Py.split_on sep (a +:+ String sep b) = Py.split_on sep a ++ Py.split_on sep b.
Proof.
  induction a as [|c a IH]; [rewrite Py.app_nil_l; cbn [Py.split_on]; by rewrite Ascii.eqb_refl|].
  rewrite Py.app_String. cbn [Py.split_on]. rewrite IH. destruct (Ascii.eqb c sep); [done|].
  destruct (Py.split_on sep a) eqn:E; [|done]. destruct a; cbn in E; repeat case_match; done.
Qed.

(** Four parameters with quoted values are read back as they stand. *)
Definition plain_value (v : string) : Prop := Py.sforall Url.quoted_char v = true.
Lemma plain_no c v : plain_value v -> Url.quoted_char c = false -> Py.has_char c v = false.
Proof.
  unfold plain_value, Py.has_char. intros Hv Hc. apply negb_false_iff. induction v as [|a v IH]; [done|]. cbn in Hv |- *. bool_prop.
  rewrite IH, andb_true_r by done. destruct (Ascii.eqb_spec a c); [subst; congruence|done].
Qed.
Lemma pair_of_parameter n v : Py.has_char "=" n = false -> pair_of (parameter n v) = (n, v).
Proof. intros Hn. unfold pair_of, parameter. rewrite (Py.app_String "="), Py.app_nil_l. by rewrite Py.partition_app. Qed.

Lemma plain_name n : Py.sforall Url.is_alpha n = true -> plain_value n.
Proof.
  unfold plain_value. induction n as [|c n IH]; [done|]. cbn. intros H'. bool_prop.
  rewrite IH, andb_true_r by done. unfold Url.quoted_char, Url.unreserved, Url.is_alnum. by replace (Url.is_alpha c) with true by done.
Qed.
Lemma parameter_no c n v : Py.sforall Url.is_alpha n = true -> plain_value v ->
  Url.quoted_char c = false -> Ascii.eqb c "=" = false -> Py.has_char c (parameter n v) = false.
Proof.
  intros Hn Hv Hc He. unfold parameter. rewrite !Py.has_char_app, (plain_no c n), (plain_no c v) by (done || by apply plain_name).
  unfold Py.has_char. cbn [Py.sforall]. by rewrite Ascii.eqb_sym, He.
Qed.
Lemma signing_input_no c ps : Forall (fun kv => Py.sforall Url.is_alpha kv.1 = true /\ plain_value kv.2) ps ->
  Url.quoted_char c = false -> Ascii.eqb c "=" = false -> Ascii.eqb c "&" = false -> Py.has_char c (signing_input ps) = false.
Proof.
  intros Hps Hc He Ha. unfold signing_input. induction Hps as [|kv ps [Hn Hv] Hps IH]; [done|].
  destruct ps as [|kv' ps]; [by apply parameter_no|]. rewrite fmap_cons.
  change (Py.join "&" (?x :: ((fun kv => parameter kv.1 kv.2) <$> kv' :: ps)))
    with (x +:+ "&" +:+ Py.join "&" ((fun kv => parameter kv.1 kv.2) <$> kv' :: ps)).
  rewrite !Py.has_char_app, IH, parameter_no by done. unfold Py.has_char. cbn [Py.sforall]. by rewrite Ascii.eqb_sym, Ha.
Qed.

Lemma parameters_back ps : ps <> [] -> Forall (fun kv => Py.sforall Url.is_alpha kv.1 = true /\ plain_value kv.2) ps ->
  pair_of <$> Py.split_on "&" (signing_input ps) = ps.
Proof.
  intros Hne Hps. induction Hps as [|[n v] ps [Hn Hv] Hps IH]; [done|]. cbn in Hn, Hv.
  assert (Py.has_char "&" (parameter n v) = false) as Ha.
  { by apply parameter_no. }
  assert (pair_of (parameter n v) = (n, v)) as E by (by apply pair_of_parameter, plain_no; [apply plain_name|]).
  unfold signing_input in *. destruct ps as [|kv ps]; [cbn [fmap list_fmap Py.join fst snd]; by rewrite Py.split_on_none, fmap_cons, E|].
  rewrite fmap_cons. change (Py.join "&" (?x :: ((fun kv => parameter kv.1 kv.2) <$> kv :: ps)))
    with (x +:+ "&" +:+ Py.join "&" ((fun kv => parameter kv.1 kv.2) <$> kv :: ps)).
  rewrite (Py.app_String "&"), Py.app_nil_l, Py.split_on_app by done. rewrite fmap_cons, IH by done. cbn [fst snd]. by rewrite E.
Qed.

Lemma partition_no c s : Py.has_char c s = false -> Py.partition c s = (s, None).
Proof.
  intros Hs. pose proof (Py.partition_spec c s) as Hp. destruct (Py.partition c s) as [p [r|]]; destruct Hp as [-> Hp]; [|done].
  exfalso. rewrite Py.has_char_app, Hp in Hs. unfold Py.has_char in Hs. cbn [Py.sforall] in Hs. by rewrite Ascii.eqb_refl in Hs.
Qed.

(** What is read from the query string of a prepared URL. *)
Lemma wire_parameters destination ps :
  Py.has_char "#" destination = false -> ps <> [] ->
  Forall (fun kv => Py.sforall Url.is_alpha kv.1 = true /\ plain_value kv.2) ps ->
  pair_of <$> Py.split_on "&" (wire_query (destination +:+ (if Py.has_char "?" destination then "&" else "?") +:+ signing_input ps)) =
  own_parameters destination ++ ps.
Proof.
  intros Hh Hne Hps. pose proof (parameters_back ps Hne Hps) as Hback. unfold wire_query, own_parameters.
  assert (Py.has_char "#" (signing_input ps) = false) as Hn by (by apply signing_input_no).
  unfold Url.up_to. rewrite (partition_no "#") by (rewrite !Py.has_char_app, Hh, Hn; by destruct (Py.has_char "?" destination)).
  cbn [fst]. pose proof (Py.partition_spec "?" destination) as Hd. destruct (Py.partition "?" destination) as [p [q|]]; destruct Hd as [-> Hp].
  - rewrite Py.has_char_app, Hp. unfold Py.has_char at 1. cbn [Py.sforall Ascii.eqb Bool.eqb andb orb negb].
    rewrite Py.app_assoc, Py.app_String, Py.partition_app by done. cbn [snd default]. unfold default, id.
    rewrite (Py.app_String "&"), Py.app_nil_l, split_on_mid, fmap_app. by rewrite Hback.
  - rewrite Hp. rewrite (Py.app_String "?"), Py.app_nil_l, Py.partition_app by done. exact Hback.
Qed.

Lemma ascii_valid s : Py.is_ascii s = true -> Utf8.valid s = true.
Proof.
  unfold Utf8.valid. enough (Py.is_ascii s = true -> exists l, Utf8.decode s = Some l /\ forallb (fun cp => negb (Utf8.surrogate cp)) l = true) as H'
    by (intros [l [-> ?]]%H'; done).
  induction s as [|a s IH]; [by eexists|]. intros Hs. unfold Py.is_ascii in Hs. cbn in Hs. bool_prop.
  destruct IH as (l & E & Hl); [done|]. cbn [Utf8.decode]. rewrite E.
  assert ((Utf8.byte a <? 128)%Z = true /\ Utf8.surrogate (Utf8.byte a) = false) as [-> Ha]
    by (unfold Utf8.byte, Utf8.surrogate; by destruct a as [[] [] [] [] [] [] [] []]).
  eexists. split; [done|]. cbn. by rewrite Ha.
Qed.

Lemma unquote_of_quote s : Utf8.valid s = true -> Url.unquote replaced (Url.quote s) = s.
Proof. intros Hs. unfold Url.unquote. by rewrite Url.unquote_quoted, Hs. Qed.
Lemma base64_back s : Base64.decode (Url.unquote replaced (Url.quote (Base64.encode s))) = Some s.
Proof. rewrite unquote_of_quote by apply ascii_valid, Base64.encode_ascii. apply Base64.decode_encode_text. Qed.

Lemma plain_ascii v : plain_value v -> Py.is_ascii v = true.
Proof. apply Base64.sforall_mono. by intros [[] [] [] [] [] [] [] []]. Qed.
Lemma quote_plain s : plain_value (Url.quote s).
Proof. apply Url.quote_chars. Qed.
Lemma signing_input_ascii e r a : Py.is_ascii (signing_input (signed_parameters e r a)) = true.
Proof.
  unfold signing_input, signed_parameters. cbn [fmap list_fmap fst snd Py.join]. unfold parameter, Py.is_ascii.
  rewrite !Py.sforall_app. fold Py.is_ascii. rewrite !(plain_ascii _ (quote_plain _)). reflexivity.
Qed.

Lemma try_verifies pre c post pk signature input :
  Forall (fun c => exists k, load_certificate_key c = Ok k) pre -> load_certificate_key c = Ok (Some pk) ->
  rsa_verify pk signature input = true ->
  try_certificates signature input (pre ++ c :: post) = Ok ().
Proof.
  intros Hpre Hc Hv. induction Hpre as [|c' pre [[k|] Hk] _ IH]; cbn [app try_certificates].
  - rewrite Hc. cbn [rbind]. by rewrite Hv.
  - rewrite Hk. cbn [rbind]. by destruct (rsa_verify k signature input).
  - rewrite Hk. exact IH.
Qed.

Context {laws : RsaLaws Priv Pub} {zlib_laws : ZlibLaws}.

(** A request we prepare is accepted by the peer's check: whoever reads the query
    string of the URL, holding a certificate of our signing key after others it
    can load, finds the signature valid, reads back the request we rendered and
    the relay state we keep.  The destination must have no fragment and none of
    the five parameters in a query of its own. *)
Theorem redirect_verifies p destination key_pem id relay now sig_alg hex state prepared key pre c post :
  prepare_redirect p destination key_pem id relay now sig_alg hex state = Ok prepared ->
  load_pem_private_key key_pem = Ok (Some key) ->
  Py.has_char "#" destination = false ->
  Forall (fun name => Dict.get (own_parameters destination) name = None) ("Signature" :: SIGNED_PARAMETER_ORDER) ->
  Forall (fun c => exists k, load_certificate_key c = Ok k) pre -> load_certificate_key c = Ok (Some (public_key key)) ->
  Utf8.valid (relay_state prepared) = true ->
  let query := wire_query (redirect_url prepared) in
  verify_redirect_signature query (pre ++ c :: post) = Ok () /\
  (decode_saml_request <$> Dict.get (raw_query query) "SAMLRequest") = Some (Ok (xml prepared)) /\
  (Url.unquote replaced <$> Dict.get (raw_query query) "RelayState") = Some (relay_state prepared).
Proof.
  unfold prepare_redirect, _sign. intros Hp Hk Hh Hown Hpre Hc Hrelay. rewrite Hk in Hp. cbn [rbind] in Hp.
  set (x := tostring _) in Hp. set (r := default state _) in Hp. set (input := signing_input _) in Hp.
  injection Hp as <-. cbn [relay_state xml redirect_url] in *. set (sg := rsa_sign key input).
  set (ps := signed_parameters (Base64.encode (deflate x)) r sig_alg) in *.
  set (all := ps ++ [("Signature", Url.quote (Base64.encode sg))]).
  assert (forall k, Dict.get (own_parameters destination) k = None ->
    Dict.get (raw_query (wire_query (destination +:+ (if Py.has_char "?" destination then "&" else "?") +:+ input +:+ "&" +:+
      parameter "Signature" (Url.quote (Base64.encode sg))))) k = Dict.get all k) as Hget.
  { intros k Hnone. unfold raw_query. rewrite get_raw. cbn [Dict.get].
    replace (input +:+ _) with (signing_input all) by (unfold input, signing_input; cbn [all ps signed_parameters app fmap list_fmap Py.join fst snd]; by rewrite !Py.app_assoc).
    rewrite wire_parameters; [by apply get_app_None|done|done|].
    repeat (constructor; [split; [reflexivity|apply quote_plain]|]). constructor. }
  unfold SIGNED_PARAMETER_ORDER in Hown. rewrite !Forall_cons in Hown. destruct Hown as (O1 & O2 & O3 & O4 & O5 & _).
  split_and!.
  - unfold verify_redirect_signature. rewrite Hget by done. cbn [all ps signed_parameters app Dict.get String.eqb Ascii.eqb Bool.eqb].
    unfold signed_octets. cbn [SIGNED_PARAMETER_ORDER omap list_omap]. rewrite !Hget by done.
    cbn [all ps signed_parameters app Dict.get String.eqb Ascii.eqb Bool.eqb fmap option_fmap option_map omap list_omap].
    change (Py.join "&" _) with input. replace (Py.is_ascii input) with true by (symmetry; apply signing_input_ascii). cbn [negb].
    rewrite base64_back. apply try_verifies with (pk := public_key key); [done..|]. apply (rsa_verify_sign key input).
  - rewrite Hget by done. cbn. unfold decode_saml_request. rewrite base64_back. cbn. by rewrite inflate_deflate.
  - rewrite Hget by done. cbn. by rewrite unquote_of_quote.
Qed.

End redirect.

Section witnesses.

Local Instance toy_zlib : ZlibLib := { deflate s := "z" +:+ s; inflate s := match s with String _ r => Some r | "" => None end }.
Local Instance toy_zlib_laws : ZlibLaws.
Proof. by split. Qed.

Definition toy_render (e : element) : string := "<" +:+ tag e +:+ " " +:+ String.concat " " ((fun kv => kv.1 +:+ "=" +:+ kv.2) <$> attrib e) +:+ "/>".
Definition toy_signing_key (pem : string) : result exn (option Z) := if String.eqb pem "other" then Ok None else Ok (Some 11%Z).
Definition toy_certificate (pem : string) : result exn (option Z) := if String.eqb pem "other" then Ok None else Ok (Some 11%Z).
Definition toy_prepare (destination : string) :=
  prepare_redirect toy_render toy_signing_key (default_policy "https://broker.test" "https://broker.test/saml/acs")
    destination "key" None (Some "back & forth") (1709210096 * SECOND)%Z RSA_SHA256_SIG_ALG "00ff" "unused".
Definition toy_prepared : PreparedAuthnRequest :=
  match toy_prepare "https://idp.test/sso?realm=campus" with Ok p => p | Err _ => Build_PreparedAuthnRequest "" "" "" "" end.

Lemma redirect_verifies_witness :
  verify_redirect_signature toy_certificate id (wire_query (redirect_url toy_prepared)) (["other"] ++ "pem" :: []) = Ok () /\
  xml toy_prepared = toy_render (build_authn_request (default_policy "https://broker.test" "https://broker.test/saml/acs")
    "https://idp.test/sso?realm=campus" "_00ff" (1709210096 * SECOND)%Z) /\ relay_state toy_prepared = "back & forth".
Proof.
  split_and!; [|vm_compute; reflexivity..].
  refine (proj1 (redirect_verifies toy_render toy_signing_key toy_certificate id
    (default_policy "https://broker.test" "https://broker.test/saml/acs") "https://idp.test/sso?realm=campus" "key" None
    (Some "back & forth") (1709210096 * SECOND)%Z RSA_SHA256_SIG_ALG "00ff" "unused" toy_prepared 11%Z ["other"] "pem" [] _ _ _ _ _ _ _)).
  1-3: vm_compute; reflexivity.
  - repeat (constructor; [vm_compute; reflexivity|]). constructor.
  - constructor; [by exists None|constructor].
  - reflexivity.
  - vm_compute. reflexivity.
Defined.

(** A destination with a [RelayState] of its own shadows ours: the peer's check
    then fails. *)
Example own_relay_state_shadows :
  match toy_prepare "https://idp.test/sso?RelayState=x" with
  | Ok p => verify_redirect_signature toy_certificate id (wire_query (redirect_url p)) ["pem"]
  | Err e => Err e
  end = Err (SamlRejected SIGNATURE_INVALID).
Proof. vm_compute. reflexivity. Qed.

End witnesses.

End AuthnRequest.
