(* ===== verification/Site.v ===== *)
(** * Requests, responses and what a handler acts on

    The part of FastAPI and of the application state the routes share: the
    fields of a request they read, the response they build, the cookies of
    [campusid/session/cookies.py], the pages of [campusid/routes/errors.py], and a
    world of the stores behind [request.app.state].  A handler runs at one
    moment; what it draws at random is numbered; metrics, spans and log lines are
    left out.  The audit trail is the list of the calls of [AuditLog.record], each
    with the context variables it was made under. *)

From S2P Require Import Prelude PyStr Dict Json Errors Redis Sessions Registry Lifecycle Clients AuditTrail AuditLog Federation.

Module Site.

Record Request : Type := {
  rq_address : option string;
  rq_user_agent : string;
  rq_authorization : string;
  rq_cookies : list (string * string);
}.

Inductive cookie : Type :=
| SetCookie (name value : string) (max_age : option Z) (samesite : string)
| DeleteCookie (name samesite : string).

(** A body: the error page with its reference, a JSON document, the list of
    providers to choose from, or none. *)
Inductive content : Type :=
| ErrorPage (reference : string)
| Document (j : json)
| Chooser (options : string)
| NoContent.

Record Response : Type := {
  rs_status : Z;
  rs_headers : list (string * string);
  rs_content : content;
  rs_cookies : list cookie;
}.

Definition NO_STORE : list (string * string) := [("Cache-Control", "no-store"); ("Pragma", "no-cache")].

Definition redirect (url : string) (headers : list (string * string)) (cookies : list cookie) : Response :=
  {| rs_status := 303; rs_headers := ("Location", url) :: headers; rs_content := NoContent; rs_cookies := cookies |}.
Definition json_response (status : Z) (j : json) (headers : list (string * string)) : Response :=
  {| rs_status := status; rs_headers := headers; rs_content := Document j; rs_cookies := [] |}.

(** Where a response sends the browser. *)
Definition location (r : Response) : option string := Dict.get (rs_headers r) "Location".

(** ** Cookies *)

Definition SESSION_COOKIE := "__Host-campusid_session".
Definition REQUEST_BINDING_COOKIE := "__Host-campusid_req".
Definition REQUEST_BINDING_MAX_AGE : Z := 300.

Definition set_session_cookie (sid : string) : cookie := SetCookie SESSION_COOKIE sid None "lax".
Definition clear_session_cookie : cookie := DeleteCookie SESSION_COOKIE "lax".
Definition set_request_binding_cookie (nonce : string) : cookie :=
  SetCookie REQUEST_BINDING_COOKIE nonce (Some REQUEST_BINDING_MAX_AGE) "none".
Definition clear_request_binding_cookie : cookie := DeleteCookie REQUEST_BINDING_COOKIE "none".

(** ** The error page *)

Definition reject_page (reference : string) : Response :=
  {| rs_status := 400; rs_headers := [("Cache-Control", "no-store")]; rs_content := ErrorPage reference; rs_cookies := [] |}.

(** ** The world *)

Section world.
Context {R : Type} `{RedisServer R}.

Record world : Type := {
  w_now : moment;
  w_redis : R;
  w_identity : Registry.db;
  w_lifecycle : Lifecycle.db;
  w_clients : list Clients.OidcClientRecord;
  w_federation : list Registered.FederationEntity;
  w_audit : list (AuditLog.context * AuditLog.entry);
  w_correlation : string;
  w_impersonator : option string;
  w_draws : nat;
}.

Definition set_redis (r : R) (w : world) : world :=
  {| w_now := w_now w; w_redis := r; w_identity := w_identity w; w_lifecycle := w_lifecycle w;
     w_clients := w_clients w; w_federation := w_federation w; w_audit := w_audit w; w_correlation := w_correlation w; w_impersonator := w_impersonator w; w_draws := w_draws w |}.
Definition set_identity (s : Registry.db) (w : world) : world :=
  {| w_now := w_now w; w_redis := w_redis w; w_identity := s; w_lifecycle := w_lifecycle w;
     w_clients := w_clients w; w_federation := w_federation w; w_audit := w_audit w; w_correlation := w_correlation w; w_impersonator := w_impersonator w; w_draws := w_draws w |}.
Definition set_federation (tbl : list Registered.FederationEntity) (w : world) : world :=
  {| w_now := w_now w; w_redis := w_redis w; w_identity := w_identity w; w_lifecycle := w_lifecycle w;
     w_clients := w_clients w; w_federation := tbl; w_audit := w_audit w; w_correlation := w_correlation w; w_impersonator := w_impersonator w; w_draws := w_draws w |}.
Definition set_audit (l : list (AuditLog.context * AuditLog.entry)) (w : world) : world :=
  {| w_now := w_now w; w_redis := w_redis w; w_identity := w_identity w; w_lifecycle := w_lifecycle w;
     w_clients := w_clients w; w_federation := w_federation w; w_audit := l; w_correlation := w_correlation w; w_impersonator := w_impersonator w; w_draws := w_draws w |}.
Definition set_correlation (c : string) (w : world) : world :=
  {| w_now := w_now w; w_redis := w_redis w; w_identity := w_identity w; w_lifecycle := w_lifecycle w;
     w_clients := w_clients w; w_federation := w_federation w; w_audit := w_audit w; w_correlation := c; w_impersonator := w_impersonator w; w_draws := w_draws w |}.
Definition set_impersonator (v : option string) (w : world) : world :=
  {| w_now := w_now w; w_redis := w_redis w; w_identity := w_identity w; w_lifecycle := w_lifecycle w;
     w_clients := w_clients w; w_federation := w_federation w; w_audit := w_audit w; w_correlation := w_correlation w; w_impersonator := v; w_draws := w_draws w |}.
Definition set_draws (n : nat) (w : world) : world :=
  {| w_now := w_now w; w_redis := w_redis w; w_identity := w_identity w; w_lifecycle := w_lifecycle w;
     w_clients := w_clients w; w_federation := w_federation w; w_audit := w_audit w; w_correlation := w_correlation w; w_impersonator := w_impersonator w; w_draws := n |}.

(** The same world when the clock shows [t]. *)
Definition at_moment (t : moment) (w : world) : world :=
  {| w_now := t; w_redis := w_redis w; w_identity := w_identity w; w_lifecycle := w_lifecycle w;
     w_clients := w_clients w; w_federation := w_federation w; w_audit := w_audit w; w_correlation := w_correlation w; w_impersonator := w_impersonator w; w_draws := w_draws w |}.

Definition M (A : Type) : Type := world -> world * result exn A.
Definition ret {A} (a : A) : M A := fun w => (w, Ok a).
Definition throw {A} (e : exn) : M A := fun w => (w, Err e).
Definition bind {A B} (m : M A) (k : A -> M B) : M B := fun w =>
  match m w with
  | (w', Ok a) => k a w'
  | (w', Err e) => (w', Err e)
  end.

(** [try: m except X as exc: h exc], where [catches] tells what [X] covers. *)
Definition try_except {A E} (m : M A) (catches : exn -> option E) (h : E -> M A) : M A := fun w =>
  match m w with
  | (w', Err e) => match catches e with Some c => h c w' | None => (w', Err e) end
  | out => out
  end.

(** [try: m except X as exc: h exc else: k]: what [k] raises is not caught. *)
Definition try_else {A B E} (m : M A) (catches : exn -> option E) (h : E -> M B) (k : A -> M B) : M B := fun w =>
  match m w with
  | (w', Err e) => match catches e with Some c => h c w' | None => (w', Err e) end
  | (w', Ok a) => k a w'
  end.

Definition lift {A} (r : result exn A) : M A := fun w => (w, r).
Definition get_now : M moment := fun w => (w, Ok (w_now w)).
Definition correlation : M string := fun w => (w, Ok (w_correlation w)).
Definition set_correlation_id (c : string) : M unit := fun w => (set_correlation c w, Ok tt).
Definition get_clients : M (list Clients.OidcClientRecord) := fun w => (w, Ok (w_clients w)).

Definition redis {A} (p : prog A) : M A := fun w =>
  let '(r, out) := run p (w_redis w) (w_now w) in (set_redis r w, out).

(** [SessionStore.load], which also tells the audit context who is impersonating. *)
Definition load_session (p : prog Sessions.loaded) : M (option Sessions.Session) := fun w =>
  match redis p w with
  | (w', Ok l) =>
      (match Sessions.l_impersonator l with Some v => set_impersonator v w' | None => w' end, Ok (Sessions.l_session l))
  | (w', Err e) => (w', Err e)
  end.

(** The next random value; [draw] is the source. *)
Definition fresh (draw : nat -> string) : M string := fun w => (set_draws (S (w_draws w)) w, Ok (draw (w_draws w))).

(** ** Audit records *)

Record provenance : Type := { source_ip : option string; user_agent : option string }.

(** [headers.get("user-agent", "")[:512] or None]. *)
Definition _provenance (q : Request) : provenance :=
  {| source_ip := rq_address q;
     user_agent := let ua := Py.take 512 (rq_user_agent q) in if String.eqb ua "" then None else Some ua |}.

Record told : Type := {
  t_actor : option string; t_subject : option string; t_target : option string; t_reason : option string;
  t_session_id : option string; t_detail : list (string * json) }.

Definition audit (ty : Events.EventType) (outcome : Events.Outcome) (t : told) (p : provenance) : M unit := fun w =>
  (set_audit (w_audit w ++ [({| AuditLog.cx_correlation_id := Some (w_correlation w); AuditLog.cx_impersonator := w_impersonator w |},
     {| AuditLog.en_type := ty; AuditLog.en_outcome := outcome; AuditLog.en_actor := t_actor t;
        AuditLog.en_subject := t_subject t; AuditLog.en_target := t_target t; AuditLog.en_reason := t_reason t;
        AuditLog.en_source_ip := source_ip p; AuditLog.en_user_agent := user_agent p;
        AuditLog.en_session_id := t_session_id t; AuditLog.en_detail := t_detail t; AuditLog.en_now := w_now w |})]) w, Ok tt).

(** [reject(reason, detail, reference)]: without a reference it is the request's
    correlation id. *)
Definition reject (reference : option string) : M Response :=
  fun w => (w, Ok (reject_page (match reference with
    | Some r => if String.eqb r "" then w_correlation w else r
    | None => w_correlation w end))).

End world.

Arguments world R : clear implicits.

Notation "'get*' x := m 'in' k" := (bind m (fun x => k))
  (at level 10, x name, m at level 200, k at level 200) : campus_scope.
Notation "'get*' ' p := m 'in' k" := (bind m (fun p => k))
  (at level 10, p pattern, m at level 200, k at level 200) : campus_scope.
Notation "'then*' m ; k" := (bind m (fun _ => k)) (at level 10, m at level 200, k at level 200) : campus_scope.

(** ** Reasoning about handlers *)

Section lemmas.
Context {R : Type} `{RedisServer R}.

(** What a computation leaves alone, whatever it returns. *)
Definition keeps {A B} (f : world R -> B) (m : M A) : Prop := forall w, f (m w).1 = f w.

Lemma keeps_ret {A B} (f : world R -> B) (a : A) : keeps f (ret a).
Proof. done. Qed.
Lemma keeps_throw {A B} (f : world R -> B) e : keeps f (throw (A := A) e).
Proof. done. Qed.
Lemma keeps_lift {A B} (f : world R -> B) (r : result exn A) : keeps f (lift r).
Proof. done. Qed.
Lemma keeps_bind {A B C} (f : world R -> C) (m : M A) (k : A -> M B) :
  keeps f m -> (forall a, keeps f (k a)) -> keeps f (bind m k).
Proof.
  intros Hm Hk w. unfold bind. specialize (Hm w). destruct (m w) as [w' [a|e]]; [|done]. rewrite Hk. done.
Qed.
Lemma keeps_try {A B C E} (f : world R -> C) (m : M A) (c : exn -> option E) (h : E -> M B) (k : A -> M B) :
  keeps f m -> (forall e, keeps f (h e)) -> (forall a, keeps f (k a)) -> keeps f (try_else m c h k).
Proof.
  intros Hm Hh Hk w. unfold try_else. specialize (Hm w).
  destruct (m w) as [w' [a|e]]; [by rewrite Hk|]. destruct (c e); [by rewrite Hh|done].
Qed.
Lemma keeps_except {A C E} (f : world R -> C) (m : M A) (c : exn -> option E) (h : E -> M A) :
  keeps f m -> (forall e, keeps f (h e)) -> keeps f (try_except m c h).
Proof.
  intros Hm Hh w. unfold try_except. specialize (Hm w).
  destruct (m w) as [w' [a|e]]; [done|]. destruct (c e); [by rewrite Hh|done].
Qed.

Lemma bind_ok {A B} (m : M A) (k : A -> M B) (w w' : world R) b :
  bind m k w = (w', Ok b) -> exists w1 a, m w = (w1, Ok a) /\ k a w1 = (w', Ok b).
Proof. unfold bind. destruct (m w) as [w1 [a|e]]; [|done]. eauto. Qed.

Lemma try_ok {A B E} (m : M A) (c : exn -> option E) (h : E -> M B) (k : A -> M B) (w w' : world R) b :
  try_else m c h k w = (w', Ok b) ->
  (exists w1 a, m w = (w1, Ok a) /\ k a w1 = (w', Ok b)) \/
  (exists w1 e x, m w = (w1, Err e) /\ c e = Some x /\ h x w1 = (w', Ok b)).
Proof. unfold try_else. destruct (m w) as [w1 [a|e]]; [eauto|]. destruct (c e) eqn:E0; [|done]. eauto 10. Qed.

Lemma bind_run {A B} (m : M A) (k : A -> M B) (w w1 : world R) a : m w = (w1, Ok a) -> bind m k w = k a w1.
Proof. unfold bind. by intros ->. Qed.
Lemma bind_raise {A B} (m : M A) (k : A -> M B) (w w1 : world R) e : m w = (w1, Err e) -> bind m k w = (w1, Err e).
Proof. unfold bind. by intros ->. Qed.

(** An invariant of the world, wherever a computation stops. *)
Definition preserves {A} (I : world R -> Prop) (m : M A) : Prop := forall w, I w -> I (m w).1.

Lemma preserves_ret {A} I (a : A) : preserves I (ret a).
Proof. by intros w. Qed.
Lemma preserves_throw {A} I e : preserves I (throw (A := A) e).
Proof. by intros w. Qed.
Lemma preserves_lift {A} I (r : result exn A) : preserves I (lift r).
Proof. by intros w. Qed.
Lemma preserves_bind {A B} I (m : M A) (k : A -> M B) : preserves I m -> (forall a, preserves I (k a)) -> preserves I (bind m k).
Proof. intros Hm Hk w Hw. unfold bind. specialize (Hm w Hw). destruct (m w) as [w' [a|e]]; [by apply Hk|done]. Qed.
Lemma preserves_try {A B E} I (m : M A) (c : exn -> option E) (h : E -> M B) (k : A -> M B) :
  preserves I m -> (forall e, preserves I (h e)) -> (forall a, preserves I (k a)) -> preserves I (try_else m c h k).
Proof.
  intros Hm Hh Hk w Hw. unfold try_else. specialize (Hm w Hw). destruct (m w) as [w' [a|e]]; [by apply Hk|].
  destruct (c e); [by apply Hh|done].
Qed.

(** A handler that redirects or answers the way [P] allows, wherever it stops. *)
Definition yields {A} (m : M A) (P : A -> Prop) : Prop := forall (w w' : world R) a, m w = (w', Ok a) -> P a.

Lemma yields_ret {A} (a : A) (P : A -> Prop) : P a -> yields (ret a) P.
Proof. by intros Ha w w' b [= _ <-]. Qed.
Lemma yields_throw {A} e (P : A -> Prop) : yields (throw e) P.
Proof. by intros w w' a. Qed.
Lemma yields_bind {A B} (m : M A) (k : A -> M B) (P : B -> Prop) : (forall a, yields (k a) P) -> yields (bind m k) P.
Proof. intros Hk w w' b (w1 & a & _ & E)%bind_ok. by eapply Hk. Qed.
Lemma yields_try {A B E} (m : M A) (c : exn -> option E) (h : E -> M B) (k : A -> M B) (P : B -> Prop) :
  (forall e, yields (h e) P) -> (forall a, yields (k a) P) -> yields (try_else m c h k) P.
Proof.
  intros Hh Hk w w' b. unfold try_else. destruct (m w) as [w1 [a|e]]; [apply Hk|]. destruct (c e); [apply Hh|done].
Qed.
Lemma yields_reject reference (P : Response -> Prop) : (forall r, P (reject_page r)) -> yields (reject reference) P.
Proof. intros HP w w' a [= _ <-]. apply HP. Qed.

Lemma yields_bind_reject {A} reference (k : Response -> M A) (P : A -> Prop) :
  (forall r, yields (k (reject_page r)) P) -> yields (bind (reject reference) k) P.
Proof. intros HP w w' a. unfold bind, reject. apply HP. Qed.

(** A command on other keys leaves a key as it was. *)
Lemma redis_frame {A} (K : string -> Prop) (p : prog A) (w : world R) t k `{!RedisLaws R} :
  touches K p -> ~ K k -> (w_now w <= t)%Z ->
  r_view (w_redis (redis p w).1) t k = r_view (w_redis w) t k.
Proof.
  intros Hp Hk Ht. unfold redis. pose proof (run_frame K p (w_redis w) (w_now w) t k Hp Hk Ht) as E.
  by destruct (run p (w_redis w) (w_now w)) as [r out].
Qed.

Lemma redis_run {A} (p : prog A) (w : world R) :
  redis p w = (set_redis (run p (w_redis w) (w_now w)).1 w, (run p (w_redis w) (w_now w)).2).
Proof. unfold redis. by destruct (run _ _ _). Qed.

Lemma keeps_redis {A B} (f : world R -> B) (p : prog A) :
  (forall r w, f (set_redis r w) = f w) -> keeps f (redis p).
Proof. intros Hf w. rewrite redis_run. apply Hf. Qed.

(** A computation that records nothing and touches only the keys in [K]. *)
Definition calm_at {A} (K : string -> Prop) (m : M A) (w : world R) : Prop :=
  w_now (m w).1 = w_now w /\ w_audit (m w).1 = w_audit w /\
  forall k, ~ K k -> r_view (w_redis (m w).1) (w_now w) k = r_view (w_redis w) (w_now w) k.
Definition calm {A} (K : string -> Prop) (m : M A) : Prop := forall w, calm_at K m w.

Lemma calm_ret {A} K (a : A) : calm K (ret a).
Proof. done. Qed.
Lemma calm_throw {A} K e : calm K (throw (A := A) e).
Proof. done. Qed.
Lemma calm_lift {A} K (r : result exn A) : calm K (lift r).
Proof. done. Qed.
Lemma calm_fresh K draw : calm K (fresh draw).
Proof. done. Qed.
Lemma calm_bind_at {A B} K (m : M A) (k : A -> M B) w :
  calm_at K m w -> (forall w' a, m w = (w', Ok a) -> calm_at K (k a) w') -> calm_at K (bind m k) w.
Proof.
  intros (Hn & Ha & Hv) Hk. unfold calm_at, bind in *. destruct (m w) as [w1 [a|e]]; [|done]. cbn in Hn, Ha, Hv.
  destruct (Hk w1 a eq_refl) as (Hn' & Ha' & Hv'). rewrite Hn', Ha'. split_and!; [done..|].
  intros k0 Hk0. rewrite <- Hv by done. rewrite <- Hn. by apply Hv'.
Qed.
Lemma calm_bind {A B} K (m : M A) (k : A -> M B) : calm K m -> (forall a, calm K (k a)) -> calm K (bind m k).
Proof. intros Hm Hk w. by apply calm_bind_at; [|intros; apply Hk]. Qed.
Lemma calm_try_at {A B E} K (m : M A) (c : exn -> option E) (h : E -> M B) (k : A -> M B) w :
  calm_at K m w -> (forall e, calm K (h e)) -> (forall w' a, m w = (w', Ok a) -> calm_at K (k a) w') ->
  calm_at K (try_else m c h k) w.
Proof.
  intros (Hn & Ha & Hv) Hh Hk. unfold calm_at, try_else in *. destruct (m w) as [w1 [a|e]]; cbn in Hn, Ha, Hv.
  - destruct (Hk w1 a eq_refl) as (Hn' & Ha' & Hv'). rewrite Hn', Ha'. split_and!; [done..|].
    intros k0 Hk0. rewrite <- Hv by done. rewrite <- Hn. by apply Hv'.
  - destruct (c e) as [x|]; [|done]. destruct (Hh x w1) as (Hn' & Ha' & Hv'). rewrite Hn', Ha'. split_and!; [done..|].
    intros k0 Hk0. rewrite <- Hv by done. rewrite <- Hn. by apply Hv'.
Qed.
Lemma calm_redis {A} K (p : prog A) `{!RedisLaws R} : touches K p -> calm K (redis p).
Proof.
  intros Hp w. unfold calm_at. rewrite redis_run. cbn. split_and!; [done..|]. intros k Hk.
  by apply (run_frame K).
Qed.

End lemmas.

#[export] Hint Resolve keeps_ret keeps_throw keeps_lift keeps_bind keeps_try keeps_except : campus.

(** Follow a handler's structure, one rule per construct. *)
Ltac keeps :=
  repeat first
    [ done | apply keeps_ret | apply keeps_throw | apply keeps_lift
    | apply keeps_bind; [|intros ?] | apply keeps_try; [|intros ?|intros ?] | apply keeps_except; [|intros ?]
    | apply keeps_redis; by intros | by intros ? | case_match ].
Ltac calm :=
  repeat first
    [ done | apply calm_ret | apply calm_throw | apply calm_lift | apply calm_fresh
    | apply calm_bind; [|intros ?] | apply calm_redis | by intros ? | case_match ].
Ltac yields :=
  repeat first
    [ apply yields_throw | apply yields_reject; intros ? | apply yields_bind_reject; intros ? | apply yields_bind; intros ?
    | apply yields_try; intros ? | apply yields_ret | case_match ].

End Site.
