(* ===== verification/Disco.v ===== *)
(** * The discovery service

    [campusid/routes/disco.py]: a browser chooses its identity provider and is sent
    back with the choice, which a cookie remembers.  Of the page only the list of
    options is kept. *)

From S2P Require Import Prelude PyStr Dict Json Errors Url Redis Registry Lifecycle Federation Site.
Import Site Registered.

Module Disco.

Definition LAST_IDP_COOKIE := "__Host-campusid_idp".
Definition LAST_IDP_MAX_AGE : Z := 60 * 60 * 24 * 180.

(** [html.escape]. *)
Definition escape_char (c : ascii) : string :=
  if Ascii.eqb c "&" then "&amp;"
  else if Ascii.eqb c "<" then "&lt;"
  else if Ascii.eqb c ">" then "&gt;"
  else if Ascii.eqb c (ascii_of_nat 34) then "&quot;"
  else if Ascii.eqb c "'" then "&#x27;"
  else String c "".
Fixpoint escape (s : string) : string :=
  match s with EmptyString => EmptyString | String c s' => escape_char c +:+ escape s' end.

Definition quote : string := String (ascii_of_nat 34) "".

Definition joined (destination query : string) : string :=
  destination +:+ (if Py.contains destination "?" then "&" else "?") +:+ query.

Definition option_html (destination param : string) (row : FederationEntity) : string :=
  "<li><a href=" +:+ quote +:+ "/disco?" +:+
  escape (Url.urlencode [("return", destination); ("returnIDParam", param); ("idpEntityID", fe_entity_id row)]) +:+ quote +:+ ">" +:+
  escape (default (fe_entity_id row) (Metadata.truthy (fe_display_name row))) +:+ "<br><small>" +:+
  escape (fe_entity_id row) +:+ "</small></a></li>".

Definition NONE_REGISTERED := "<li><small>No identity providers are registered.</small></li>".

Record Query : Type := {
  q_return : option string; q_param : string; q_passive : bool; q_choice : option string }.

Section disco.
Context {R : Type} `{RedisServer R}.
Abbreviation M := (Site.M (R := R)).
Context (netloc_ok : string -> bool) (base_url : string).

(** A base URL or a return URL that [urlsplit] refuses raises [ValueError]. *)
Definition validated_return (return_to : option string) : result exn string :=
  match return_to with
  | None => Ok (base_url +:+ "/saml/sso")
  | Some url =>
      match Url.urlsplit netloc_ok base_url, Url.urlsplit netloc_ok url with
      | Some ours, Some theirs =>
          if String.eqb (Url.scheme theirs) (Url.scheme ours) && String.eqb (Url.netloc theirs) (Url.netloc ours)
          then Ok url else Err (BrokerError INVALID_RETURN_URL)
      | _, _ => Err ValueError
      end
  end.

Definition _remember_and_return (destination param entity_id : string) : Response :=
  redirect (joined destination (Url.urlencode [(param, entity_id)])) []
    [SetCookie LAST_IDP_COOKIE entity_id (Some LAST_IDP_MAX_AGE) "lax"].

Definition _chooser (destination param : string) : M Response := fun w =>
  let entities := List.filter fe_enabled (list_idps (w_federation w)) in
  let options := Py.join "" (option_html destination param <$> entities) in
  (w, Ok {| rs_status := 200; rs_headers := [("Cache-Control", "no-store")];
            rs_content := Chooser (if String.eqb options "" then NONE_REGISTERED else options); rs_cookies := [] |}).

Definition discovery (q : Request) (a : Query) : M Response :=
  try_else (lift (validated_return (q_return a))) broker_reason (fun _ => reject None)
    (fun destination =>
       match q_choice a with
       | Some choice => ret (_remember_and_return destination (q_param a) choice)
       | None =>
           match Dict.get (rq_cookies q) LAST_IDP_COOKIE with
           | Some remembered =>
               if q_passive a || (match q_return a with Some _ => true | None => false end)
               then ret (_remember_and_return destination (q_param a) remembered)
               else _chooser destination (q_param a)
           | None => if q_passive a then ret (redirect destination [] []) else _chooser destination (q_param a)
           end
       end).

(** ** Properties *)

(** A browser leaves the discovery service for our own origin only: wherever it is
    sent, the URL begins with the broker's own address or with a return URL whose
    scheme and authority are the broker's. *)
Theorem discovery_returns_home q a (w w' : world R) resp url :
  discovery q a w = (w', Ok resp) -> location resp = Some url ->
  w' = w /\ exists destination rest, url = destination +:+ rest /\
    (destination = base_url +:+ "/saml/sso" \/
     exists ours theirs, Url.urlsplit netloc_ok base_url = Some ours /\ Url.urlsplit netloc_ok destination = Some theirs /\
       Url.scheme theirs = Url.scheme ours /\ Url.netloc theirs = Url.netloc ours).
Proof.
  assert (forall d, validated_return (q_return a) = Ok d -> d = base_url +:+ "/saml/sso" \/
    exists ours theirs, Url.urlsplit netloc_ok base_url = Some ours /\ Url.urlsplit netloc_ok d = Some theirs /\
      Url.scheme theirs = Url.scheme ours /\ Url.netloc theirs = Url.netloc ours) as Hd.
  { intros d. unfold validated_return. destruct (q_return a) as [u|]; [|intros [= <-]; by left].
    destruct (Url.urlsplit netloc_ok base_url) as [ours|]; [|done]. destruct (Url.urlsplit netloc_ok u) as [theirs|] eqn:E; [|done].
    destruct (String.eqb_spec (Url.scheme theirs) (Url.scheme ours)); [|done].
    destruct (String.eqb_spec (Url.netloc theirs) (Url.netloc ours)); [|done]. intros [= <-]. right. by exists ours, theirs. }
  unfold discovery, try_else, lift. destruct (validated_return (q_return a)) as [destination|e].
  2: { destruct (broker_reason e); [|done]. by intros [= <- <-]. }
  specialize (Hd destination eq_refl).
  assert (forall choice, _remember_and_return destination (q_param a) choice = resp -> location resp = Some url ->
    exists rest, url = destination +:+ rest) as Hj by (intros choice <- [= <-]; by eexists).
  intros E Hl. destruct (q_choice a) as [choice|]; [injection E as <- E; destruct (Hj _ E Hl) as [rest ->]; split; [done|]; by exists destination, rest|].
  destruct (Dict.get (rq_cookies q) LAST_IDP_COOKIE) as [remembered|].
  - destruct (_ || _); [|injection E as <- <-; done].
    injection E as <- E. destruct (Hj _ E Hl) as [rest ->]. split; [done|]. by exists destination, rest.
  - destruct (q_passive a); injection E as <- <-; [|done]. injection Hl as <-. split; [done|]. exists destination, "".
    by rewrite Py.app_nil_r.
Qed.

(** Nothing of a peer's metadata is markup on the page. *)
Definition inert (c : ascii) : bool := negb (bool_decide (c ∈ ["<"; ">"; ascii_of_nat 34; "'"]%char)).

Lemma escape_inert s : Py.sforall inert (escape s) = true.
Proof.
  induction s as [|c s IH]; [done|]. cbn [escape]. rewrite Py.sforall_app, IH, andb_true_r.
  unfold escape_char. repeat case_match; try done.
  cbn [Py.sforall]. rewrite andb_true_r. unfold inert. apply negb_true_iff, bool_decide_eq_false.
  repeat match goal with H : Ascii.eqb _ _ = false |- _ => apply Ascii.eqb_neq in H end.
  intros Hin. repeat (apply elem_of_cons in Hin as [->|Hin]; [done|]). by apply elem_of_nil in Hin.
Qed.

(** A provider that was disabled after a browser chose it is still what that
    browser is sent to: with the cookie no list is shown, whoever is registered.
    A login that names no provider can only fail until the cookie lapses. *)
Theorem remembered_choice_is_never_revisited q url param remembered (w : world R) destination :
  Dict.get (rq_cookies q) LAST_IDP_COOKIE = Some remembered -> validated_return (Some url) = Ok destination ->
  forall passive,
  discovery q {| q_return := Some url; q_param := param; q_passive := passive; q_choice := None |} w =
    (w, Ok (_remember_and_return destination param remembered)).
Proof.
  intros Hc Hv passive. unfold discovery, try_else, lift. cbn [q_return q_choice q_param q_passive]. rewrite Hv, Hc. by rewrite orb_true_r.
Qed.

End disco.

(** ** Witnesses *)

Section witnesses.

Definition demo_world : world Store := {|
  w_now := 5; w_redis := ∅; w_identity := {| Registry.persons := []; Registry.identifiers := []; Registry.accounts := []; Registry.affiliations := [] |};
  w_lifecycle := {| Lifecycle.grant_rows := []; Lifecycle.events := [] |}; w_clients := []; w_federation := demo_table;
  w_audit := []; w_correlation := "c1"; w_impersonator := None; w_draws := 0 |}.
Definition demo_request (cookies : list (string * string)) : Request :=
  {| rq_address := None; rq_user_agent := ""; rq_authorization := ""; rq_cookies := cookies |}.
Definition demo_ours : string := "https://broker.test".
Definition demo_query : Query :=
  {| q_return := Some "https://broker.test/saml/sso"; q_param := "idp"; q_passive := false; q_choice := Some "https://idp.test" |}.
Definition demo_sent : Response := _remember_and_return "https://broker.test/saml/sso" "idp" "https://idp.test".

Lemma discovery_returns_home_witness :
  location demo_sent = Some "https://broker.test/saml/sso?idp=https%3A%2F%2Fidp.test" /\
  exists destination rest, "https://broker.test/saml/sso?idp=https%3A%2F%2Fidp.test" = destination +:+ rest.
Proof.
  assert (discovery (fun _ => true) demo_ours (demo_request []) demo_query demo_world = (demo_world, Ok demo_sent)) as E
    by (vm_compute; reflexivity).
  assert (location demo_sent = Some "https://broker.test/saml/sso?idp=https%3A%2F%2Fidp.test") as Hl by (vm_compute; reflexivity).
  destruct (discovery_returns_home (fun _ => true) demo_ours (demo_request []) demo_query demo_world demo_world demo_sent _ E Hl)
    as (_ & destination & rest & Hu & _).
  split; [exact Hl|]. exists destination, rest. exact Hu.
Defined.

(** The provider in the cookie is not among the registered ones. *)
Lemma remembered_choice_is_never_revisited_witness :
  discovery (fun _ => true) demo_ours (demo_request [(LAST_IDP_COOKIE, "https://gone.test")])
    {| q_return := Some "https://broker.test/saml/sso"; q_param := "idp"; q_passive := false; q_choice := None |} demo_world =
  (demo_world, Ok (_remember_and_return "https://broker.test/saml/sso" "idp" "https://gone.test")).
Proof.
  assert (Dict.get (rq_cookies (demo_request [(LAST_IDP_COOKIE, "https://gone.test")])) LAST_IDP_COOKIE = Some "https://gone.test")
    as Hc by reflexivity.
  assert (validated_return (fun _ => true) demo_ours (Some "https://broker.test/saml/sso") = Ok "https://broker.test/saml/sso") as Hv
    by (vm_compute; reflexivity).
  exact (remembered_choice_is_never_revisited (fun _ => true) demo_ours _ _ "idp" _ demo_world _ Hc Hv false).
Defined.

Example chooser_escapes :
  (discovery (fun _ => true) demo_ours (demo_request [])
     {| q_return := None; q_param := "idp"; q_passive := false; q_choice := None |} demo_world).2 =
  Ok {| rs_status := 200; rs_headers := [("Cache-Control", "no-store")]; rs_cookies := [];
        rs_content := Chooser ("<li><a href=" +:+ quote +:+ "/disco?return=https%3A%2F%2Fbroker.test%2Fsaml%2Fsso&amp;returnIDParam=idp&amp;idpEntityID=https%3A%2F%2Fidp.test"
          +:+ quote +:+ ">Test<br><small>https://idp.test</small></a></li>") |}.
Proof. vm_compute. reflexivity. Qed.

End witnesses.

End Disco.
