(* ===== verification/OAuth.v ===== *)
(** * The authorization and token endpoints

    [campusid/routes/oauth2.py] and the client-session index of
    [campusid/oidc/logout.py]: the handlers of [/oauth2/authorize], [/par],
    [/token], [/introspect] and [/revoke] in the monad of [Site.v], over the
    grants, the sessions, the pushed requests, the clients, the release engine and
    the token formats.  An authorization request is the dict the handler passes
    around; its values are strings, [None] and one flag. *)

From S2P Require Import Prelude PyStr Dict Base64 Json JsonText JsonLoads Errors Url Redis Codec Grants Sessions Pending Throttle.
From S2P Require Import Jwt Lifecycle Registry Attributes Release Tokens Clients AuditTrail AuditLog Site.
Import Site.

Module OAuth.

Definition PENDING_KEY_PREFIX := "oidc:pending:".
Definition PENDING_TTL : duration := 600 * SECOND.
Definition RESPONSE_TYPE_CODE := "code".
Definition GRANT_AUTHORIZATION_CODE := "authorization_code".
Definition GRANT_REFRESH_TOKEN := "refresh_token".
Definition GRANT_CLIENT_CREDENTIALS := "client_credentials".

(** [campusid/oidc/logout.py]: which clients hold a session. *)
Definition CLIENT_SESSION_PREFIX := "oidc:session-clients:".
Definition CLIENT_SESSION_TTL : duration := 12 * 3600 * SECOND.
Definition record (sid client_id : string) : prog unit :=
  let key := CLIENT_SESSION_PREFIX +:+ sid in
  do* set_add key client_id;
  expire_key key (ttl_seconds CLIENT_SESSION_TTL).
Definition clients_for (sid : string) : prog (list string) := set_members (CLIENT_SESSION_PREFIX +:+ sid).
Definition forget (sid : string) : prog unit := redis_delete (CLIENT_SESSION_PREFIX +:+ sid).

Abbreviation parameters := (list (string * json)).

(** [parameters.get(k)], of a string or [None]. *)
Definition param (p : parameters) (k : string) : option string :=
  match Json.lookup p k with Some (JStr s) => Some s | _ => None end.
(** [if x] for an optional string. *)
Definition present (o : option string) : bool := match o with Some s => negb (String.eqb s "") | None => false end.
Definition or_null (o : option string) : json := Codec.of_opt_str o.

Definition invalid_request : exn := OAuthError INVALID_REQUEST GRANT_INVALID.

Definition unless (c : bool) (e : exn) : result exn unit := if c then Ok tt else Err e.

Definition _check_authorization_request (client : Clients.OidcClient) (p : parameters) : result exn unit :=
  let* _ := unless (bool_decide (param p "response_type" = Some RESPONSE_TYPE_CODE)) (OAuthError UNSUPPORTED_RESPONSE_TYPE GRANT_INVALID) in
  let* _ := unless (present (param p "state")) invalid_request in
  let* _ := unless (present (param p "nonce")) invalid_request in
  let* _ := Pkce.assert_supported_method (param p "code_challenge_method") in
  let* _ := Pkce.assert_valid_challenge (param p "code_challenge") in
  let* _ := Clients.granted_scopes client (param p "scope") in
  unless (negb (Clients.require_par client) || bool_decide (Json.lookup p "pushed" = Some (JBool true))) invalid_request.

(** The claims and subject a client is told are keyed by attribute. *)
Definition sorted_keys (m : list (string * json)) : list string := merge_sort String.le m.*1.

Definition decision_json (d : Release.Decision) : json := JObj [
  ("attribute", JStr (Release.de_attribute d)); ("released", JBool (Release.released d));
  ("basis", JStr (Release.basis_text (Release.basis d))); ("rule_id", or_null (Release.de_rule_id d))].

Definition release_detail (identity : Release.ReleasedIdentity) : list (string * json) := [
  ("protocol", JStr "oidc"); ("released", Codec.of_strings (sorted_keys (Release.ri_claims identity)));
  ("decisions", JArr (decision_json <$> Release.ri_decisions identity))].

Section oauth.
Context {R : Type} `{RedisServer R} {Priv Pub : Type} `{RsaLib Priv Pub}.

Abbreviation M := (Site.M (R := R)).

(** The settings, the stores that do not change while a request runs, and the
    functions of other packages. *)
Record App : Type := {
  oidc_issuer : string;
  scope : string;
  pairwise_salt : string;
  keys : Jwt.KeySet (Priv := Priv);
  policies : string -> Release.ReleasePolicy;
  netloc_ok : string -> bool;
  replaced : string -> string;
  sha256 : string -> string;
  sha256_hex : string -> string;
  digest32 : string -> string;
  hmac_sha256 : string -> string -> string;
  fullmatch : string -> string -> bool;
  float_repr : Z -> Z -> string;
  isoformat : moment -> string;
  shown : json -> string;
  draw : nat -> string;
  auth_rate_per_address : Z;
  auth_rate_per_account : Z;
  auth_rate_window : Z;
}.
Context (app : App).

Definition token_urlsafe : M string := fresh (draw app).

(** ** Sessions and identities *)

Definition load (sid : string) : M (option Sessions.Session) :=
  get* now := get_now in
  load_session (Sessions.load (sha256_hex app) Sessions.IDLE_TIMEOUT Sessions.ABSOLUTE_TIMEOUT Sessions.SESSION_KEY_PREFIX sid now).

Definition _current_session (q : Request) : M (option Sessions.Session) :=
  match Dict.get (rq_cookies q) SESSION_COOKIE with
  | None | Some "" => ret None
  | Some sid => load sid
  end.

(** [release_to] raises [ValueError] for a salt that is too short. *)
Definition release (session : Sessions.Session) (client : Clients.OidcClient) (scopes : gset string) :
    M Release.ReleasedIdentity :=
  match Release.release_to (fullmatch app) (hmac_sha256 app) session (policies app (Clients.client_id client)) scopes
          (pairwise_salt app) (scope app) false ∅ with
  | Ok identity => ret identity
  | Err _ => throw ValueError
  end.

(** ** The login handoff *)

Definition _take_pending (pending : string) : M (option parameters) :=
  get* raw := redis (redis_getdel (PENDING_KEY_PREFIX +:+ pending)) in
  match raw with
  | None => ret None
  | Some raw => get* p := lift (Codec.members raw) in ret (Some p)
  end.

Definition _start_login (p : parameters) : M Response :=
  get* pending := token_urlsafe in
  get* chain := correlation in
  then* redis (redis_set (PENDING_KEY_PREFIX +:+ pending) (SJson (JObj (Json.insert p "correlation_id" (JStr chain))))
                 (ttl_seconds PENDING_TTL));
  let resume := "/oauth2/authorize?" +:+ Url.urlencode [("pending", pending)] in
  ret (redirect ("/saml/sso?" +:+ Url.urlencode [("return_to", resume)]) NO_STORE []).

Definition _rejoin_chain (p : parameters) (fallback : string) : M string :=
  match param p "correlation_id" with
  | None | Some "" => ret fallback
  | Some stored => then* set_correlation_id stored; ret stored
  end.

(** ** The authorization endpoint *)

Record AuthorizationRequest : Type := {
  q_client_id : option string; q_redirect_uri : option string; q_response_type : option string;
  q_scope : option string; q_state : option string; q_nonce : option string;
  q_code_challenge : option string; q_code_challenge_method : option string;
  q_request_uri : option string; q_pending : option string }.

Definition direct_parameters (a : AuthorizationRequest) : parameters := [
  ("client_id", or_null (q_client_id a)); ("redirect_uri", or_null (q_redirect_uri a));
  ("response_type", or_null (q_response_type a)); ("scope", or_null (q_scope a)); ("state", or_null (q_state a));
  ("nonce", or_null (q_nonce a)); ("code_challenge", or_null (q_code_challenge a));
  ("code_challenge_method", or_null (q_code_challenge_method a)); ("pushed", JBool false)].

(** The parameters of the request and the reference its errors carry, or the
    response where there are none. *)
Definition gather (a : AuthorizationRequest) (reference : string) : M (Response + parameters * string) :=
  match q_pending a with
  | Some pending =>
      get* stashed := _take_pending pending in
      match stashed with
      | None => get* r := reject (Some reference) in ret (inl r)
      | Some p => get* reference := _rejoin_chain p reference in ret (inr (p, reference))
      end
  | None =>
      match q_request_uri a with
      | Some request_uri =>
          get* pushed := redis (Pending.consume request_uri (default "" (q_client_id a))) in
          match pushed with
          | Some (JObj m) =>
              let p := Json.insert (Json.insert m "client_id" (or_null (q_client_id a))) "pushed" (JBool true) in
              get* reference := _rejoin_chain p reference in ret (inr (p, reference))
          | Some _ => throw TypeError
          | None => get* r := reject (Some reference) in ret (inl r)
          end
      | None => ret (inr (direct_parameters a, reference))
      end
  end.

Definition _record_release (q : Request) (client : Clients.OidcClient) (session : Sessions.Session)
    (identity : Release.ReleasedIdentity) : M unit :=
  audit Events.ATTRIBUTE_RELEASE Events.SUCCESS
    {| t_actor := Some (Sessions.subject_key session); t_subject := Some (Sessions.subject_key session);
       t_target := Some (Clients.client_id client); t_reason := None; t_session_id := Some (Sessions.s_sid session);
       t_detail := release_detail identity |} (_provenance q).

(** [parameters[k]]. *)
Definition required (p : parameters) (k : string) : M string :=
  match param p k with Some s => ret s | None => throw KeyError end.

Definition _issue_code (q : Request) (client : Clients.OidcClient) (p : parameters) (session : Sessions.Session) : M string :=
  get* scopes := lift (Clients.granted_scopes client (param p "scope")) in
  get* identity := release session client scopes in
  get* redirect_uri := required p "redirect_uri" in
  get* code_challenge := required p "code_challenge" in
  get* family := token_urlsafe in
  get* fresh_code := token_urlsafe in
  get* code := redis (Grants.issue_code (sha256_hex app) Grants.CODE_TTL Grants.REFRESH_TTL fresh_code
    {| Grants.ac_client_id := Clients.client_id client; Grants.ac_redirect_uri := redirect_uri;
       Grants.ac_code_challenge := code_challenge; Grants.ac_scopes := Lifecycle.sorted scopes;
       Grants.ac_subject := Release.ri_subject identity; Grants.ac_sid := Sessions.s_sid session;
       Grants.ac_family_id := family; Grants.ac_nonce := param p "nonce";
       Grants.ac_auth_time := Some (Sessions.s_auth_time session); Grants.ac_acr := Sessions.s_acr session;
       Grants.ac_amr := Sessions.s_amr session |}) in
  then* redis (record (Sessions.s_sid session) (Clients.client_id client));
  then* _record_release q client session identity;
  then* audit Events.AUTHZ_CODE_ISSUED Events.SUCCESS
    {| t_actor := Some (Sessions.subject_key session); t_subject := Some (Sessions.subject_key session);
       t_target := Some (Clients.client_id client); t_reason := None; t_session_id := Some (Sessions.s_sid session);
       t_detail := [("scopes", Codec.of_strings (Lifecycle.sorted scopes))] |} (_provenance q);
  ret code.

Definition _error_redirect (destination error : string) (reason : ReasonCode) (state : option string) : M Response :=
  if negb (may_be_redirected reason) then throw AssertionError
  else
    let query := ("error", error) :: (match state with Some s => if present state then [("state", s)] else [] | None => [] end) in
    ret (redirect (destination +:+ "?" +:+ Url.urlencode query) NO_STORE []).

(** Phase one: who is asking, and where the answer would go. *)
Definition phase_one (p : parameters) : M (Clients.OidcClient * string) :=
  get* tbl := get_clients in
  get* client := lift (Clients.require (netloc_ok app) tbl (param p "client_id")) in
  get* destination := lift (Clients.validated_redirect_uri (netloc_ok app) client (param p "redirect_uri")) in
  ret (client, destination).

Definition phase_two (q : Request) (p : parameters) (client : Clients.OidcClient) : M (option Sessions.Session) :=
  then* lift (_check_authorization_request client p);
  _current_session q.

Definition answer (q : Request) (p : parameters) (client : Clients.OidcClient) (destination : string)
    (session : option Sessions.Session) : M Response :=
  match session with
  | None => _start_login p
  | Some session =>
      get* code := _issue_code q client p session in
      get* state := required p "state" in
      ret (redirect (destination +:+ "?" +:+ Url.urlencode [("code", code); ("state", state); ("iss", oidc_issuer app)]) NO_STORE [])
  end.

Definition authorize (q : Request) (a : AuthorizationRequest) : M Response :=
  get* reference := correlation in
  get* gathered := gather a reference in
  match gathered with
  | inl response => ret response
  | inr (p, reference) =>
      try_else (phase_one p) broker_reason (fun _ => reject (Some reference)) (fun '(client, destination) =>
      try_else (phase_two q p client) oauth_error
        (fun '(error, reason) => _error_redirect destination error reason (param p "state"))
        (answer q p client destination))
  end.

(** ** Client authentication *)

Definition _basic_credentials (q : Request) : option (string * string) :=
  let '(scheme, rest) := Py.partition " " (rq_authorization q) in
  let encoded := default "" rest in
  if negb (String.eqb (Py.lower scheme) "basic") || String.eqb encoded "" then None
  else
    match (if Py.is_ascii encoded then Base64.decode_strict encoded else None) with
    | Some decoded =>
        if negb (Utf8.valid decoded) then None
        else
          match Py.partition ":" decoded with
          | (identifier, Some secret) => Some (Url.unquote (replaced app) identifier, Url.unquote (replaced app) secret)
          | (_, None) => None
          end
    | None => None
    end.

Definition _authenticated_client (q : Request) (client_id client_secret : option string) : M Clients.OidcClient :=
  let basic := _basic_credentials q in
  let basic_id := fst <$> basic in
  let presented_id := if present basic_id then basic_id else client_id in
  let presented_secret := if present basic_id then snd <$> basic else client_secret in
  get* tbl := get_clients in
  get* client := lift (Clients.require (netloc_ok app) tbl presented_id) in
  if bool_decide (Clients.client_type client = Clients.CONFIDENTIAL) then
    then* lift (Clients.authenticate (sha256_hex app) client presented_secret); ret client
  else if present presented_secret then throw Clients.client_error
  else ret client.

Definition _token_error (error : string) : Response :=
  json_response (if String.eqb error INVALID_CLIENT then 401 else 400) (JObj [("error", JStr error)]) NO_STORE.

Definition denied (client_id : option string) (reason : ReasonCode) (detail : list (string * json)) : told :=
  {| t_actor := None; t_subject := None; t_target := client_id; t_reason := Some (reason_text reason);
     t_session_id := None; t_detail := detail |}.

(** ** Pushed requests *)

Definition pushed_parameters (a : AuthorizationRequest) (client : Clients.OidcClient) (chain : string) : parameters := [
  ("client_id", JStr (Clients.client_id client)); ("redirect_uri", or_null (q_redirect_uri a));
  ("response_type", or_null (q_response_type a)); ("scope", or_null (q_scope a)); ("state", or_null (q_state a));
  ("nonce", or_null (q_nonce a)); ("code_challenge", or_null (q_code_challenge a));
  ("code_challenge_method", or_null (q_code_challenge_method a)); ("pushed", JBool true); ("correlation_id", JStr chain)].

Definition accept_push (q : Request) (a : AuthorizationRequest) (client_secret : option string) :
    M (Clients.OidcClient * parameters) :=
  get* client := _authenticated_client q (q_client_id a) client_secret in
  then* lift (unless (match q_request_uri a with None => true | Some _ => false end) invalid_request);
  get* chain := correlation in
  let p := pushed_parameters a client chain in
  then* lift (Clients.validated_redirect_uri (netloc_ok app) client (q_redirect_uri a));
  then* lift (_check_authorization_request client p);
  ret (client, p).

Definition pushed_authorization_request (q : Request) (a : AuthorizationRequest) (client_secret : option string) : M Response :=
  try_else (accept_push q a client_secret) oauth_error
    (fun '(error, reason) =>
       then* audit Events.AUTHZ_DENIED Events.DENIED (denied (q_client_id a) reason []) (_provenance q);
       ret (_token_error error))
    (fun '(client, p) =>
       get* reference := token_urlsafe in
       get* pushed := redis (Pending.push Pending.PAR_TTL reference (Clients.client_id client) (JObj p)) in
       then* audit Events.AUTHZ_CODE_ISSUED Events.SUCCESS
         {| t_actor := Some (Clients.client_id client); t_subject := None; t_target := Some (Clients.client_id client);
            t_reason := None; t_session_id := None;
            t_detail := [("pushed", JBool true); ("expires_in", JInt pushed.2)] |} (_provenance q);
       ret (json_response 201 (JObj [("request_uri", JStr pushed.1); ("expires_in", JInt pushed.2)]) NO_STORE)).

(** ** The token endpoint *)

Definition expires_in : Z := (Tokens.ACCESS_TOKEN_TTL / SECOND)%Z.

Definition _token_response (c : Tokens.TokenContext) (now : moment) (refresh : string) (with_id_token : bool) : M (list (string * json)) :=
  get* jti := token_urlsafe in
  let key := Jwt.active (keys app) in
  let access := (Tokens.access_token (float_repr app) (isoformat app) c key jti now Tokens.ACCESS_TOKEN_TTL).1 in
  let body := [("access_token", JStr access); ("token_type", JStr "Bearer"); ("expires_in", JInt expires_in);
               ("refresh_token", JStr refresh); ("scope", JStr (Tokens.scope_text (Tokens.tc_scopes c)))] in
  ret (if with_id_token then
         body ++ [("id_token", JStr (Tokens.id_token (float_repr app) (isoformat app) c key now Tokens.ID_TOKEN_TTL))]
       else body).

Definition _claims_for (client : Clients.OidcClient) (grant : Grants.AuthorizationCode) : M (list (string * json)) :=
  get* session := load (Grants.ac_sid grant) in
  match session with
  | None => ret []
  | Some session =>
      get* identity := release session client (list_to_set (Grants.ac_scopes grant)) in
      ret (Release.ri_claims identity)
  end.

Definition issued (client : Clients.OidcClient) (subject sid : string) (detail : list (string * json)) : told :=
  {| t_actor := Some (Clients.client_id client); t_subject := Some subject; t_target := Some (Clients.client_id client);
     t_reason := None; t_session_id := Some sid; t_detail := detail |}.

Definition code_context (client : Clients.OidcClient) (grant : Grants.AuthorizationCode) (now : moment)
    (claims : list (string * json)) : Tokens.TokenContext :=
  {| Tokens.tc_issuer := oidc_issuer app; Tokens.tc_client_id := Clients.client_id client;
     Tokens.tc_subject := Grants.ac_subject grant; Tokens.tc_sid := Grants.ac_sid grant;
     Tokens.tc_family_id := Grants.ac_family_id grant; Tokens.tc_scopes := list_to_set (Grants.ac_scopes grant);
     Tokens.tc_auth_time := default now (Grants.ac_auth_time grant); Tokens.tc_nonce := Grants.ac_nonce grant;
     Tokens.tc_acr := Grants.ac_acr grant; Tokens.tc_amr := Grants.ac_amr grant; Tokens.tc_claims := claims |}.

Definition _exchange_code (q : Request) (client : Clients.OidcClient) (code redirect_uri code_verifier : option string) :
    M (list (string * json)) :=
  then* lift (unless (present code) invalid_request);
  get* grant := redis (Grants.redeem_code (sha256_hex app) Grants.CODE_TTL Grants.REFRESH_TTL (default "" code) (Clients.client_id client)
                         (default "" redirect_uri)) in
  then* lift (Pkce.verify (sha256 app) code_verifier (Grants.ac_code_challenge grant));
  get* now := get_now in
  get* claims := _claims_for client grant in
  let c := code_context client grant now claims in
  get* fresh_refresh := token_urlsafe in
  get* refresh := redis (Grants.issue_refresh_token (sha256_hex app) Grants.REFRESH_TTL fresh_refresh
    {| Grants.rt_client_id := Clients.client_id client; Grants.rt_scopes := Grants.ac_scopes grant;
       Grants.rt_subject := Grants.ac_subject grant; Grants.rt_sid := Grants.ac_sid grant;
       Grants.rt_family_id := Grants.ac_family_id grant; Grants.rt_generation := 0; Grants.rt_issued_at := now |}) in
  then* audit Events.TOKEN_ISSUED Events.SUCCESS
    (issued client (Grants.ac_subject grant) (Grants.ac_sid grant)
       [("scopes", Codec.of_strings (merge_sort String.le (Grants.ac_scopes grant))); ("family", JStr (Grants.ac_family_id grant))])
    (_provenance q);
  _token_response c now refresh true.

Definition _exchange_refresh_token (q : Request) (client : Clients.OidcClient) (presented : option string) : M (list (string * json)) :=
  then* lift (unless (present presented) invalid_request);
  get* now := get_now in
  get* fresh_refresh := token_urlsafe in
  get* rotated := redis (Grants.rotate_refresh_token (sha256_hex app) Grants.REFRESH_TTL fresh_refresh (default "" presented)
                           (Clients.client_id client) now) in
  let record := rotated.2 in
  let c := {| Tokens.tc_issuer := oidc_issuer app; Tokens.tc_client_id := Clients.client_id client;
     Tokens.tc_subject := Grants.rt_subject record; Tokens.tc_sid := Grants.rt_sid record;
     Tokens.tc_family_id := Grants.rt_family_id record; Tokens.tc_scopes := list_to_set (Grants.rt_scopes record);
     Tokens.tc_auth_time := now; Tokens.tc_nonce := None; Tokens.tc_acr := None; Tokens.tc_amr := []; Tokens.tc_claims := [] |} in
  then* audit Events.TOKEN_REFRESHED Events.SUCCESS
    (issued client (Grants.rt_subject record) (Grants.rt_sid record)
       [("generation", JInt (Grants.rt_generation record)); ("family", JStr (Grants.rt_family_id record))]) (_provenance q);
  _token_response c now rotated.1 false.

Definition _client_credentials (q : Request) (client : Clients.OidcClient) (requested : option string) : M (list (string * json)) :=
  then* lift (unless (bool_decide (Clients.client_type client = Clients.CONFIDENTIAL))
                (OAuthError UNAUTHORIZED_CLIENT CLIENT_AUTHENTICATION_FAILED));
  get* granted := lift (Clients.machine_scopes client requested) in
  get* now := get_now in
  let id := Clients.client_id client in
  let c := {| Tokens.tc_issuer := oidc_issuer app; Tokens.tc_client_id := id; Tokens.tc_subject := id; Tokens.tc_sid := "";
     Tokens.tc_family_id := ""; Tokens.tc_scopes := granted; Tokens.tc_auth_time := now; Tokens.tc_nonce := None;
     Tokens.tc_acr := None; Tokens.tc_amr := []; Tokens.tc_claims := [] |} in
  get* jti := token_urlsafe in
  let access := (Tokens.access_token (float_repr app) (isoformat app) c (Jwt.active (keys app)) jti now Tokens.ACCESS_TOKEN_TTL).1 in
  then* audit Events.TOKEN_ISSUED Events.SUCCESS
    {| t_actor := Some id; t_subject := Some id; t_target := Some id; t_reason := None; t_session_id := None;
       t_detail := [("grant", JStr "client_credentials"); ("scopes", Codec.of_strings (Lifecycle.sorted granted))] |} (_provenance q);
  ret [("access_token", JStr access); ("token_type", JStr "Bearer"); ("expires_in", JInt expires_in);
       ("scope", JStr (Tokens.scope_text granted))].

Record TokenRequest : Type := {
  f_grant_type : string; f_code : option string; f_redirect_uri : option string; f_code_verifier : option string;
  f_refresh_token : option string; f_scope : option string; f_client_id : option string; f_client_secret : option string }.

Definition exchange (q : Request) (f : TokenRequest) : M (list (string * json)) :=
  get* client := _authenticated_client q (f_client_id f) (f_client_secret f) in
  if String.eqb (f_grant_type f) GRANT_AUTHORIZATION_CODE then
    _exchange_code q client (f_code f) (f_redirect_uri f) (f_code_verifier f)
  else if String.eqb (f_grant_type f) GRANT_REFRESH_TOKEN then _exchange_refresh_token q client (f_refresh_token f)
  else if String.eqb (f_grant_type f) GRANT_CLIENT_CREDENTIALS then _client_credentials q client (f_scope f)
  else throw (OAuthError UNSUPPORTED_GRANT_TYPE GRANT_INVALID).

(** [except Throttled as exc]: how long to wait. *)
Definition throttled (e : exn) : option (string * string * Z) :=
  match e with Throttled reason bucket wait => Some (reason, bucket, wait) | _ => None end.

Definition check_throttle (address account : option string) : M unit :=
  get* now := get_now in
  redis (Throttle.check (digest32 app) (auth_rate_per_address app) (auth_rate_per_account app) (auth_rate_window app) address account now).

(** [except GrantReuse] comes before [except OAuthError]. *)
Definition token (q : Request) (f : TokenRequest) : M Response :=
  try_else (check_throttle (rq_address q) None) throttled
    (fun '(_, _, wait) => ret (json_response 429 (JObj [("error", JStr "slow_down")])
                                [("Retry-After", Py.str_of_Z wait); ("Cache-Control", "no-store")]))
    (fun _ =>
       try_else (exchange q f) (fun e => (fun d => (e, d)) <$> oauth_error e)
         (fun '(e, (error, reason)) =>
            then* (match e with
                   | GrantReuse _ _ =>
                       audit Events.GRANT_REUSE_DETECTED Events.FAILURE (denied (f_client_id f) reason []) (_provenance q)
                   | _ =>
                       audit Events.AUTHZ_DENIED Events.DENIED
                         (denied (f_client_id f) reason [("grant_type", JStr (f_grant_type f))]) (_provenance q)
                   end);
            ret (_token_error error))
         (fun body => ret (json_response 200 (JObj body) NO_STORE))).

(** ** Introspection and revocation *)

Definition verify_bearer (token : string) : M Jwt.claim_set :=
  get* now := get_now in redis (Tokens.verify (Some token) (keys app) (oidc_issuer app) now).

Definition inactive : Response := json_response 200 (JObj [("active", JBool false)]) NO_STORE.

Definition item (claims : Jwt.claim_set) (k : string) : M json := lift (Codec.item claims k).

Definition describe (claims : Jwt.claim_set) : M Response :=
  get* sub := item claims "sub" in get* client_id := item claims "client_id" in
  get* exp := item claims "exp" in get* iat := item claims "iat" in get* iss := item claims "iss" in
  get* aud := item claims "aud" in get* jti := item claims "jti" in get* sid := item claims "sid" in
  ret (json_response 200 (JObj [("active", JBool true); ("sub", sub); ("client_id", client_id);
    ("scope", default (JStr "") (Json.lookup claims "scope")); ("token_type", JStr "Bearer"); ("exp", exp); ("iat", iat);
    ("iss", iss); ("aud", aud); ("jti", jti); ("sid", sid)]) NO_STORE).

Definition introspect (q : Request) (token : string) (client_id client_secret : option string) : M Response :=
  try_else (_authenticated_client q client_id client_secret) oauth_error
    (fun '(error, _) => ret (_token_error error))
    (fun client =>
       try_else (verify_bearer token) oauth_error (fun _ => ret inactive)
         (fun claims =>
            get* holder := lift (Tokens.bt_client_id (shown app) claims) in
            if negb (String.eqb holder (Clients.client_id client)) then ret inactive else describe claims)).

Definition _family_of (token : string) (client : Clients.OidcClient) : M (option string) :=
  try_else (verify_bearer token) oauth_error
    (fun _ =>
       get* found := redis (Grants.describe_refresh_token (sha256_hex app) token) in
       ret (match found with
            | Some r => if String.eqb (Grants.rt_client_id r) (Clients.client_id client) then Some (Grants.rt_family_id r) else None
            | None => None
            end))
    (fun claims =>
       get* holder := lift (Tokens.bt_client_id (shown app) claims) in
       if String.eqb holder (Clients.client_id client) then
         get* family := lift (Tokens.bt_family_id (shown app) claims) in ret (Some family)
       else ret None).

Definition revoke (q : Request) (token : string) (token_type_hint client_id client_secret : option string) : M Response :=
  try_else (_authenticated_client q client_id client_secret) oauth_error
    (fun '(error, _) => ret (_token_error error))
    (fun client =>
       get* family := _family_of token client in
       then* (match family with
              | Some family =>
                  then* redis (Grants.revoke_family Grants.REFRESH_TTL family);
                  audit Events.TOKEN_REVOKED Events.SUCCESS
                    {| t_actor := Some (Clients.client_id client); t_subject := None; t_target := Some (Clients.client_id client);
                       t_reason := None; t_session_id := None;
                       t_detail := [("family", JStr family); ("hint", or_null token_type_hint)] |} (_provenance q)
              | None => ret tt
              end);
       ret {| rs_status := 200; rs_headers := NO_STORE; rs_content := NoContent; rs_cookies := [] |}).

(** ** Where the authorization endpoint sends a browser *)





(** ** Without a session *)

Context {laws : RedisLaws R} {rsa_laws : RsaLaws Priv Pub}.






Lemma gather_now a reference : keeps w_now (gather a reference).
Proof. unfold gather, _take_pending, _rejoin_chain, reject, set_correlation_id. keeps. Qed.





Definition handoff_key (k : string) : Prop :=
  exists s, k = PENDING_KEY_PREFIX +:+ s \/ k = Pending.PAR_KEY_PREFIX +:+ s.

Lemma gather_calm a reference : calm handoff_key (gather a reference).
Proof.
  unfold gather, _take_pending, _rejoin_chain. calm.
  - cbn. split; [by eexists; left|]. by intros [].
  - unfold Pending.consume. case_match; [done|]. cbn. split; [by eexists; right|]. intros []; cbn; try done.
    destruct (Codec.members _); cbn; [|done]. case_match; [done|]. by destruct (Codec.item _ _).
Qed.

Lemma start_login_calm p : calm handoff_key (_start_login p).
Proof. unfold _start_login. calm. cbn. split; [by eexists; left|]. by intros []. Qed.

(** No cookie, or one that names no record. *)
Definition signed_out (q : Request) (w : world R) : Prop :=
  match Dict.get (rq_cookies q) SESSION_COOKIE with
  | Some sid => r_view (w_redis w) (w_now w) (Sessions._key Sessions.SESSION_KEY_PREFIX sid) = None
  | None => True
  end.

Lemma missing_load sid (r : R) t now :
  r_view r t (Sessions._key Sessions.SESSION_KEY_PREFIX sid) = None ->
  let out := run (Sessions.load (sha256_hex app) Sessions.IDLE_TIMEOUT Sessions.ABSOLUTE_TIMEOUT
                    Sessions.SESSION_KEY_PREFIX sid now) r t in
  out.2 = Ok (Sessions.Loaded None None) /\ forall k, r_view out.1 t k = r_view r t k.
Proof.
  intros Hv out. destruct (run_vrun (Sessions.load (sha256_hex app) Sessions.IDLE_TIMEOUT Sessions.ABSOLUTE_TIMEOUT
    Sessions.SESSION_KEY_PREFIX sid now) r _ t ltac:(done)) as [E2 E1].
  unfold out. rewrite E2. setoid_rewrite E1. unfold Sessions.load. vrun_simpl. rewrite Hv. cbn. split; [done|]. intros k.
  destruct (decide (k = Sessions._key Sessions.SESSION_KEY_PREFIX sid)) as [->|]; [by rewrite vupd_eq|by rewrite vupd_ne].
Qed.

Lemma signed_out_current q (w : world R) : signed_out q w ->
  (_current_session q w).2 = Ok None /\ calm_at handoff_key (_current_session q) w.
Proof.
  unfold signed_out, _current_session, load. destruct (Dict.get _ _) as [[|a s]|]; [done| |done].
  intros Hv. destruct (missing_load _ _ _ (w_now w) Hv) as [E2 E1]. unfold calm_at, bind, get_now, load_session.
  rewrite redis_run. rewrite E2. cbn. by split_and!.
Qed.

Lemma signed_out_calm q (w w' : world R) : signed_out q w ->
  w_now w' = w_now w -> (forall k, ~ handoff_key k -> r_view (w_redis w') (w_now w) k = r_view (w_redis w) (w_now w) k) ->
  signed_out q w'.
Proof.
  unfold signed_out. intros Hs Hn Hv. destruct (Dict.get _ _) as [sid|]; [|done]. rewrite Hn, Hv; [done|].
  by intros [x [Ex|Ex]].
Qed.

Lemma phase_one_calm p : calm handoff_key (phase_one p).
Proof. unfold phase_one, get_clients. calm. Qed.

Lemma phase_two_signed_out q p client (w : world R) : signed_out q w ->
  calm_at handoff_key (phase_two q p client) w /\
  forall w' session, phase_two q p client w = (w', Ok session) -> session = None.
Proof.
  intros Hs. destruct (signed_out_current q w Hs) as [Hr Hc]. unfold phase_two. split.
  - apply calm_bind_at; [done|]. intros w' a [= <- _]. exact Hc.
  - intros w' session. unfold bind, lift. destruct (_check_authorization_request client p); [|done]. cbn.
    intros E. rewrite E in Hr. by injection Hr as ->.
Qed.

(** A browser that is not signed in gets no code and is told nothing of anyone:
    whatever it asks, no record of a code is written, nothing is disclosed or
    recorded, and the only keys that change are the stashed and the pushed
    requests'. *)
Theorem no_session_no_code q a (w : world R) : signed_out q w ->
  let w' := (authorize q a w).1 in
  w_audit w' = w_audit w /\
  forall k, ~ handoff_key k -> r_view (w_redis w') (w_now w) k = r_view (w_redis w) (w_now w) k.
Proof.
  intros Hs. cut (calm_at handoff_key (authorize q a) w); [by intros (_ & ? & ?)|].
  unfold authorize. apply calm_bind_at; [done|]. intros w1 reference [= <- <-].
  pose proof (gather_calm a (w_correlation w) w) as Hg. apply calm_bind_at; [done|]. intros w2 g Eg.
  destruct Hg as (Hn & _ & Hv). rewrite Eg in Hn, Hv. cbn in Hn, Hv.
  destruct g as [resp|[p reference']]; [done|]. apply calm_try_at; [|done|].
  - apply phase_one_calm.
  - intros w3 [client destination] E3. pose proof (phase_one_calm p w2) as (Hn3 & _ & Hv3). rewrite E3 in Hn3, Hv3.
    cbn in Hn3, Hv3. assert (signed_out q w3) as Hs3.
    { apply (signed_out_calm q w2); [|done|done]. by apply (signed_out_calm q w). }
    destruct (phase_two_signed_out q p client w3 Hs3) as [Hc Hr]. apply calm_try_at; [done| |].
    + intros [error reason]. unfold _error_redirect. calm.
    + intros w4 session E4. apply Hr in E4 as ->. apply start_login_calm.
Qed.

(** ** What the token endpoint answers, and what it records *)



(** A computation that records one event, a success, when it returns and none
    when it raises. *)
Definition records_once {A} (tys : list Events.EventType) (m : M A) : Prop := forall w,
  match m w with
  | (w', Ok _) => exists ev, w_audit w' = w_audit w ++ [ev] /\ AuditLog.en_type ev.2 ∈ tys /\
                             AuditLog.en_outcome ev.2 = Events.SUCCESS
  | (w', Err _) => w_audit w' = w_audit w
  end.

Lemma records_after {A B} tys (m : M A) (k : A -> M B) :
  keeps w_audit m -> (forall a, records_once tys (k a)) -> records_once tys (bind m k).
Proof.
  intros Hm Hk w. specialize (Hm w). unfold bind. destruct (m w) as [w1 [a|e]]; [|done]. cbn in Hm.
  specialize (Hk a w1). rewrite Hm in Hk. done.
Qed.

Lemma records_audit {A} tys ty t p (k : M A) :
  ty ∈ tys -> keeps w_audit k -> (forall w, is_ok (k w).2 = true) ->
  records_once tys (then* audit ty Events.SUCCESS t p; k).
Proof.
  intros Hty Hk Hok w. unfold bind. cbn. specialize (Hk (audit ty Events.SUCCESS t p w).1).
  specialize (Hok (audit ty Events.SUCCESS t p w).1). cbn in *. destruct (k _) as [w' [a|e]]; [|done]. cbn in Hk.
  rewrite Hk. eexists. by split_and!.
Qed.

Lemma load_keeps sid : keeps w_audit (load sid).
Proof. unfold load. keeps. Qed.

Ltac records :=
  repeat first
    [ apply records_audit; [set_solver|keeps|by intros ?]
    | apply records_after; [keeps; apply load_keeps|intros ?] | by intros ? | case_match ].

Lemma exchange_records q f : records_once [Events.TOKEN_ISSUED; Events.TOKEN_REFRESHED] (exchange q f).
Proof.
  unfold exchange, _authenticated_client, get_clients, _exchange_code, _exchange_refresh_token, _client_credentials,
    _claims_for, release. records.
Qed.

Lemma check_throttle_keeps address account : keeps w_audit (check_throttle address account).
Proof. unfold check_throttle. keeps. Qed.

(** C15: The token endpoint answers a server in one of three ways, none of which may
    be cached: it says to slow down, and records nothing; it refuses, naming the
    error and no more, 401 if and only if the client could not be authenticated,
    and records one denial or one detected reuse; or it issues tokens and records
    one success.  A refusal never records an issue, and an issue is never left
    unrecorded. *)
Theorem token_answers_uniformly q f (w w' : world R) resp :
  token q f w = (w', Ok resp) ->
  Dict.get (rs_headers resp) "Cache-Control" = Some "no-store" /\ rs_cookies resp = [] /\
  ((rs_status resp = 429%Z /\ rs_content resp = Document (JObj [("error", JStr "slow_down")]) /\ w_audit w' = w_audit w) \/
   exists ev, w_audit w' = w_audit w ++ [ev] /\
     ((exists error, rs_content resp = Document (JObj [("error", JStr error)]) /\
         rs_status resp = (if String.eqb error INVALID_CLIENT then 401 else 400)%Z /\
         AuditLog.en_type ev.2 ∈ [Events.AUTHZ_DENIED; Events.GRANT_REUSE_DETECTED] /\
         AuditLog.en_outcome ev.2 <> Events.SUCCESS) \/
      (rs_status resp = 200%Z /\ AuditLog.en_type ev.2 ∈ [Events.TOKEN_ISSUED; Events.TOKEN_REFRESHED] /\
         AuditLog.en_outcome ev.2 = Events.SUCCESS))).
Proof.
  unfold token. pose proof (check_throttle_keeps (rq_address q) None w) as Hk. unfold try_else at 1.
  destruct (check_throttle (rq_address q) None w) as [w1 [[]|e]]; cbn in Hk.
  - rewrite <- Hk. pose proof (exchange_records q f w1) as Hr. unfold try_else.
    destruct (exchange q f w1) as [w2 [body|e]].
    + destruct Hr as (ev & E & Hty & Ho). intros [= <- <-]. split_and!; [done..|]. right. exists ev. split; [done|]. by right.
    + destruct (oauth_error e) as [[error reason]|]; cbn; [|done]. rewrite <- Hr. intros E.
      destruct e; injection E as <- <-; (split_and!; [done..|]; right; eexists; split; [reflexivity|]; left; exists error;
        split_and!; [done|done|set_solver|done]).
  - destruct (throttled e) as [[[reason bucket] wait]|]; [|done]. intros [= <- <-]. split_and!; [done..|]. by left.
Qed.

(** ** Introspection *)

Lemma authenticated_same q id secret (w : world R) :
  _authenticated_client q id secret w = (w, (_authenticated_client q id secret w).2).
Proof.
  unfold _authenticated_client, get_clients, bind, lift. cbn. destruct (Clients.require _ _ _) as [c|]; [|done].
  case_match; [by destruct (Clients.authenticate _ _ _)|]. by case_match.
Qed.

Lemma token_error_status error : rs_status (_token_error error) <> 200%Z.
Proof. unfold _token_error. by destruct (String.eqb error INVALID_CLIENT). Qed.

Lemma verify_bearer_run tok (w : world R) :
  (verify_bearer tok w).2 = (run (Tokens.verify (Some tok) (keys app) (oidc_issuer app) (w_now w)) (w_redis w) (w_now w)).2.
Proof. unfold verify_bearer, bind, get_now. by rewrite redis_run. Qed.

Lemma item_ok claims k (w w' : world R) v : item claims k w = (w', Ok v) -> w' = w /\ Json.lookup claims k = Some v.
Proof. unfold item, lift, Codec.item. destruct (Json.lookup claims k); [|done]. by intros [= <- <-]. Qed.

(** Introspection tells a client of its own tokens only: an answer other than
    [inactive] goes to the client the token was issued to, which has proved
    itself, and repeats claims that verify at this moment. *)
Theorem introspection_is_own q tok id secret (w w' : world R) resp :
  introspect q tok id secret w = (w', Ok resp) -> rs_status resp = 200%Z -> rs_content resp <> rs_content inactive ->
  exists client claims,
    (_authenticated_client q id secret w).2 = Ok client /\
    (run (Tokens.verify (Some tok) (keys app) (oidc_issuer app) (w_now w)) (w_redis w) (w_now w)).2 = Ok claims /\
    Tokens.bt_client_id (shown app) claims = Ok (Clients.client_id client) /\
    (forall k, k ∈ ["sub"; "client_id"; "exp"; "iat"; "iss"; "aud"; "jti"; "sid"] -> exists doc,
       rs_content resp = Document (JObj doc) /\ Json.lookup doc k = Json.lookup claims k).
Proof.
  unfold introspect, try_else. rewrite authenticated_same. destruct (_authenticated_client q id secret w).2 as [client|e].
  2: { destruct (oauth_error e) as [[error reason]|]; [|done]. intros [= <- <-] Hs. by apply token_error_status in Hs. }
  pose proof (verify_bearer_run tok w) as Hv. destruct (verify_bearer tok w) as [w1 [claims|e]]; cbn [snd] in Hv.
  2: { destruct (oauth_error e); [|done]. by intros [= <- <-]. }
  intros (w2 & holder & Eh & E)%bind_ok Hs Hne. destruct (String.eqb_spec holder (Clients.client_id client)) as [->|]; cbn [negb] in E;
    [|by injection E as <- <-].
  exists client, claims. split_and!; [done..|by injection Eh|]. unfold describe in E.
  repeat (let v := fresh "v" in let Ev := fresh "Ev" in apply bind_ok in E as (? & v & [-> Ev]%item_ok & E)).
  injection E as <- <-. intros k Hk. eexists. split; [reflexivity|]. revert k Hk.
  apply Forall_forall. rewrite !Forall_cons. by split_and!.
Qed.

(** ** A code presented twice *)

Abbreviation stored_code := (Grants.stored_code (sha256_hex app)).
Abbreviation spent_key code := (Grants.CODE_SPENT_PREFIX +:+ sha256_hex app code).
Hypothesis digest_hex : forall s, Py.has_char ":" (sha256_hex app s) = false.

Lemma throttle_frame address account (w w' : world R) out k :
  check_throttle address account w = (w', out) -> ~ Throttle.counter_key k ->
  w_now w' = w_now w /\ w_clients w' = w_clients w /\ w_draws w' = w_draws w /\
  forall t, (w_now w <= t)%Z -> r_view (w_redis w') t k = r_view (w_redis w) t k.
Proof.
  unfold check_throttle, bind, get_now. rewrite redis_run. intros [= <- _] Hk. split_and!; [done..|]. intros t Ht. cbn.
  apply (run_frame Throttle.counter_key); [apply Throttle.check_touches|done|done].
Qed.

Lemma authenticated_clients q id secret (w w' : world R) :
  w_clients w' = w_clients w -> (_authenticated_client q id secret w').2 = (_authenticated_client q id secret w).2.
Proof.
  intros E. unfold _authenticated_client, get_clients, bind, lift. cbn. rewrite E.
  destruct (Clients.require _ _ _) as [c|]; [|done]. case_match; [by destruct (Clients.authenticate _ _ _)|by case_match].
Qed.

(** A code that comes back a second time is answered [invalid_grant], the
    presentation is recorded as detected reuse, and from then on no access token
    of the family it opened is honoured, by introspection or by any resource,
    for as long as the revocation is remembered. *)
Theorem replayed_code_ends_its_family q f (w w1 : world R) client code g d :
  f_grant_type f = GRANT_AUTHORIZATION_CODE -> f_code f = Some code -> code <> "" ->
  check_throttle (rq_address q) None w = (w1, Ok tt) ->
  (_authenticated_client q (f_client_id f) (f_client_secret f) w).2 = Ok client ->
  stored_code (w_redis w) (w_now w) code g d -> is_live (r_view (w_redis w) (w_now w) (spent_key code)) = true ->
  let out := token q f w in
  out.2 = Ok (_token_error INVALID_GRANT) /\
  (exists ev, w_audit out.1 = w_audit w ++ [ev] /\ AuditLog.en_type ev.2 = Events.GRANT_REUSE_DETECTED) /\
  forall w2 tok claims, w_redis w2 = w_redis out.1 ->
    (w_now w <= w_now w2 < w_now w + ttl_seconds Grants.REFRESH_TTL * SECOND)%Z ->
    (verify_bearer tok w2).2 = Ok claims -> Json.lookup claims "fid" <> Some (JStr (Grants.ac_family_id g)).
Proof.
  intros Hgt Hcode Hne Hth Hau Hst Hsp out. pose proof (check_throttle_keeps (rq_address q) None w) as Ha. rewrite Hth in Ha.
  pose proof (fun k => throttle_frame _ _ _ _ _ k Hth) as Hfr.
  destruct (Hfr "" ltac:(by intros [? ?])) as (Hn1 & Hc1 & _).
  assert (stored_code (w_redis w1) (w_now w1) code g d /\ is_live (r_view (w_redis w1) (w_now w1) (spent_key code)) = true)
    as [Hst1 Hsp1].
  { rewrite Hn1. destruct Hst as [Hasc Hv]. unfold Grants.stored_code. split; [split; [done|]|].
    - destruct (Hfr (Grants.CODE_KEY_PREFIX +:+ sha256_hex app code)) as (_ & _ & _ & Hk); [by intros [? ?]|]. by rewrite Hk.
    - destruct (Hfr (spent_key code)) as (_ & _ & _ & Hk); [by intros [? ?]|]. by rewrite Hk. }
  rewrite <- (authenticated_clients q _ _ _ _ Hc1) in Hau.
  destruct (Grants.redeem_run (sha256_hex app) digest_hex Grants.CODE_TTL Grants.REFRESH_TTL (w_redis w1) (w_now w1) code g d
    (Clients.client_id client) (default "" (f_redirect_uri f)) Hst1) as (Hr & _ & _ & _ & Hrev).
  rewrite Hsp1 in Hr, Hrev. specialize (Hrev ltac:(by left)).
  set (out1 := run (Grants.redeem_code _ _ _ _ _ _) _ _) in *.
  assert (exchange q f w1 = (set_redis out1.1 w1, Err (GrantReuse INVALID_GRANT GRANT_REUSE_DETECTED))) as Ex.
  { unfold exchange. erewrite bind_run by (rewrite authenticated_same, Hau; reflexivity). rewrite Hgt, String.eqb_refl.
    unfold _exchange_code. rewrite Hcode. erewrite bind_run by (cbn [present]; destruct (String.eqb_spec code ""); [done|reflexivity]).
    change (default "" (Some code)) with code. erewrite bind_raise; [reflexivity|]. rewrite redis_run. fold out1. by rewrite Hr. }
  assert (exists w3 ev, token q f w = (w3, Ok (_token_error INVALID_GRANT)) /\ w_redis w3 = out1.1 /\
    w_audit w3 = w_audit w1 ++ [ev] /\ AuditLog.en_type ev.2 = Events.GRANT_REUSE_DETECTED) as (w3 & ev & Eo & Er & Ew & Ev).
  { unfold token, try_else at 1. rewrite Hth. unfold try_else. rewrite Ex. do 2 eexists. split; [reflexivity|]. by split_and!. }
  unfold out. rewrite Eo. cbn [fst snd] in *. split_and!; [done|exists ev; by rewrite Ew, Ha|].
  intros w2 tok claims Hr2 Ht Hv Hfid. rewrite verify_bearer_run, Tokens.verify_run, Hr2, Er in Hv.
  destruct (String.eqb tok ""); [done|]. destruct (Jwt.decode _ _ _ _ _ _ _) as [cl|]; [|done].
  assert (cl = claims) as -> by (repeat case_match; congruence). rewrite Hfid in Hv.
  destruct Hrev as [v Hrev]. unfold Tokens.family_marked in Hv. rewrite Hn1 in Hrev.
  rewrite (view_Some_later _ _ _ _ _ _ ltac:(apply Ht) ltac:(apply Ht) Hrev) in Hv. done.
Qed.

(** ** The whole flow *)

(** A key a set command may be used on. *)
Definition set_or_none (r : R) (t : moment) (k : string) : Prop :=
  match r_view r t k with Some (Entry (VScalar _) _) => False | _ => True end.

Lemma vrun_index round (v : kview) k m n t :
  match v k with Some (Entry (VScalar _) _) => False | _ => True end -> (0 < n)%Z ->
  exists v', vrun round (do* set_add k m; expire_key k n) v t = (v', Ok tt) /\ forall k', k' <> k -> v' k' = v k'.
Proof.
  intros Hk Hn. vrun_simpl. destruct (v k) as [[[sc|s] d]|]; [done|cbn..]; rewrite vupd_eq; cbn;
    (destruct (Z.leb_spec n 0); [lia|]); cbn; eexists; (split; [reflexivity|]); intros k' Hk'; by rewrite !vupd_ne.
Qed.

Lemma set_expire_run (r : R) t k m n :
  set_or_none r t k -> (0 < n)%Z -> (run (do* set_add k m; expire_key k n) r t).2 = Ok tt.
Proof.
  intros Hk Hn. rewrite run_result. destruct (vrun_index r_round (r_view r t) k m n t Hk Hn) as (v' & E & _). by rewrite E.
Qed.

Abbreviation families_key sid := (Grants.SESSION_FAMILY_PREFIX +:+ sid).
Abbreviation code_key code := (Grants.CODE_KEY_PREFIX +:+ sha256_hex app code).
Abbreviation issue code g := (Grants.issue_code (sha256_hex app) Grants.CODE_TTL Grants.REFRESH_TTL code g).

Lemma issue_touches code g : touches (fun k => k = code_key code \/ k = families_key (Grants.ac_sid g)) (issue code g).
Proof.
  unfold Grants.issue_code, Grants._digest. destruct (Py.is_ascii code); [|done]. cbn. split; [by left|].
  intros []; cbn; try done. split; [by right|]. intros []; cbn; try done. split; [by right|]. by intros [].
Qed.

Lemma record_touches sid id : touches (eq (CLIENT_SESSION_PREFIX +:+ sid)) (record sid id).
Proof. unfold record. cbn. split; [done|]. intros []; cbn; try done. split; [done|]. by intros []. Qed.

Lemma issue_ok (r : R) t code g : Py.is_ascii code = true -> set_or_none r t (families_key (Grants.ac_sid g)) ->
  (run (issue code g) r t).2 = Ok code.
Proof.
  intros Ha Hs. rewrite run_result. unfold Grants.issue_code, Grants._digest. rewrite Ha. vrun_simpl.
  rewrite vupd_ne by key_ne. unfold set_or_none in Hs.
  destruct (r_view r t (families_key (Grants.ac_sid g))) as [[[sc|m] dl]|]; [done|cbn..]; by rewrite vupd_eq.
Qed.

(** What a code stands for when [_issue_code] returns. *)
Definition granted (w : world R) (client : Clients.OidcClient) (p : parameters) (uri challenge : string) (scopes : gset string)
    (session : Sessions.Session) (identity : Release.ReleasedIdentity) : Grants.AuthorizationCode :=
  {| Grants.ac_client_id := Clients.client_id client; Grants.ac_redirect_uri := uri;
     Grants.ac_code_challenge := challenge; Grants.ac_scopes := Lifecycle.sorted scopes;
     Grants.ac_subject := Release.ri_subject identity; Grants.ac_sid := Sessions.s_sid session;
     Grants.ac_family_id := draw app (w_draws w); Grants.ac_nonce := param p "nonce";
     Grants.ac_auth_time := Some (Sessions.s_auth_time session); Grants.ac_acr := Sessions.s_acr session;
     Grants.ac_amr := Sessions.s_amr session |}.

Abbreviation released session client scopes := (Release.release_to (fullmatch app) (hmac_sha256 app) session
  (policies app (Clients.client_id client)) scopes (pairwise_salt app) (scope app) false ∅).
Abbreviation in_history births w := (Sessions.history (sha256_hex app) Sessions.IDLE_TIMEOUT Sessions.ABSOLUTE_TIMEOUT
  births (w_redis w) (w_now w)).
Abbreviation SP := Sessions.SESSION_KEY_PREFIX.

(** Nothing but the store, the trail and the count of draws has changed, and in
    the store only keys in [K]. *)
Definition moved (K : string -> Prop) (w w' : world R) : Prop :=
  w_now w' = w_now w /\ w_clients w' = w_clients w /\
  forall t k, (w_now w <= t)%Z -> ~ K k -> r_view (w_redis w') t k = r_view (w_redis w) t k.

Lemma issue_code_completes q client p session (w : world R) births scopes identity uri challenge :
  Clients.granted_scopes client (param p "scope") = Ok scopes -> released session client scopes = Ok identity ->
  param p "redirect_uri" = Some uri -> param p "code_challenge" = Some challenge ->
  let code := draw app (S (w_draws w)) in
  let sid := Sessions.s_sid session in
  Py.is_ascii code = true ->
  set_or_none (w_redis w) (w_now w) (families_key sid) ->
  set_or_none (w_redis w) (w_now w) (CLIENT_SESSION_PREFIX +:+ sid) ->
  in_history births w ->
  exists w', _issue_code q client p session w = (w', Ok code) /\
    moved (fun k => k = code_key code \/ k = families_key sid \/ k = CLIENT_SESSION_PREFIX +:+ sid) w w' /\
    w_draws w' = S (S (w_draws w)) /\ in_history births w' /\
    stored_code (w_redis w') (w_now w) code (granted w client p uri challenge scopes session identity)
      (w_now w + ttl_seconds Grants.CODE_TTL * SECOND).
Proof.
  intros Hsc Hrel Hu Hc code sid Ha Hf Hcs Hh. set (g := granted w client p uri challenge scopes session identity).
  set (r := w_redis w) in *. set (t := w_now w) in *.
  pose proof (issue_ok r t code g Ha Hf) as Ho. destruct (Grants.issue_code_run (sha256_hex app) digest_hex Grants.CODE_TTL
    Grants.REFRESH_TTL r t code g Ha) as [Hst _].
  pose proof (fun t' k => run_frame _ _ r t t' k (issue_touches code g)) as Hfr.
  set (out := run (issue code g) r t) in *.
  assert (set_or_none out.1 t (CLIENT_SESSION_PREFIX +:+ sid)) as Hcs1.
  { unfold set_or_none. rewrite Hfr; [done|by intros [?|?]|lia]. }
  pose proof (set_expire_run out.1 t (CLIENT_SESSION_PREFIX +:+ sid) (Clients.client_id client)
    (ttl_seconds CLIENT_SESSION_TTL) Hcs1 ltac:(by vm_compute)) as Ho2.
  pose proof (fun t' k => run_frame _ _ out.1 t t' k (record_touches sid (Clients.client_id client))) as Hfr2.
  change (do* set_add _ _; expire_key _ _) with (record sid (Clients.client_id client)) in Ho2.
  set (out2 := run (record sid (Clients.client_id client)) out.1 t) in *.
  assert (exists w', _issue_code q client p session w = (w', Ok code) /\ w_now w' = t /\ w_clients w' = w_clients w /\
    w_draws w' = S (S (w_draws w)) /\ w_redis w' = out2.1) as (w' & E & En & Ec & Ed & Er).
  { eexists. split.
    - unfold _issue_code. erewrite bind_run by (unfold lift; rewrite Hsc; reflexivity).
      erewrite bind_run by (unfold release; rewrite Hrel; reflexivity).
      erewrite bind_run by (unfold required; rewrite Hu; reflexivity).
      erewrite bind_run by (unfold required; rewrite Hc; reflexivity). do 2 erewrite bind_run by reflexivity.
      erewrite bind_run by (rewrite redis_run; apply (f_equal2 pair eq_refl Ho)).
      erewrite bind_run by (rewrite redis_run; apply (f_equal2 pair eq_refl Ho2)).
      do 2 erewrite bind_run by reflexivity. reflexivity.
    - by split_and!. }
  exists w'. split; [done|]. split; [|split; [done|split]].
  - split_and!; [done..|]. intros t' k Ht Hk. rewrite Er, Hfr2, Hfr by (try done; naive_solver). done.
  - rewrite Er, En. unfold out2, out. eapply Sessions.history_run; [|exact (Z.le_refl t)|].
    + eapply Sessions.history_run; [exact Hh|lia|]. eapply touches_weaken; [apply issue_touches|]. by intros k [->| ->].
    + eapply touches_weaken; [apply record_touches|]. by intros k <-.
  - rewrite Er. destruct Hst as [Hst1 Hst2]. split; [done|]. by rewrite Hfr2.
Qed.

Definition own_session (k : string) : Prop := Py.startswith k SP = true.

Lemma idle_le_absolute : (Sessions.IDLE_TIMEOUT <= Sessions.ABSOLUTE_TIMEOUT)%Z.
Proof. by vm_compute. Qed.

Lemma load_completes births sid (w : world R) : in_history births w -> Py.has_char ":" sid = false ->
  exists w' o, load sid w = (w', Ok o) /\ in_history births w' /\ moved own_session w w' /\ w_draws w' = w_draws w /\
    (forall s, o = Some s -> Sessions.s_sid s = sid).
Proof.
  intros Hh Hs. pose proof (Sessions.history_inv _ _ _ idle_le_absolute _ _ _ Hh) as Hi.
  destruct (Sessions.load_vrun (sha256_hex app) _ _ r_round births _ (w_now w) sid (w_now w) idle_le_absolute Hi)
    as (_ & Hr & _). destruct (Hr Hs) as [Hl Hst]. rewrite <- run_result in Hl.
  set (l := Sessions.load_answer _ _ _) in *. pose proof (fun t k => run_frame _ _ (w_redis w) (w_now w) t k
    (Sessions.load_touches (sha256_hex app) Sessions.IDLE_TIMEOUT Sessions.ABSOLUTE_TIMEOUT sid (w_now w))) as Hfr.
  assert (Sessions.history (sha256_hex app) Sessions.IDLE_TIMEOUT Sessions.ABSOLUTE_TIMEOUT births
    (run (Sessions.load (sha256_hex app) Sessions.IDLE_TIMEOUT Sessions.ABSOLUTE_TIMEOUT SP sid (w_now w)) (w_redis w) (w_now w)).1
    (w_now w)) as Hh'.
  { pose proof (Sessions.history_op (sha256_hex app) Sessions.IDLE_TIMEOUT Sessions.ABSOLUTE_TIMEOUT births _ _ (w_now w)
      (Sessions.Load sid (w_now w)) Hh (Z.le_refl _) eq_refl) as Hx. cbn [Sessions.op_prog] in Hx. rewrite run_bind in Hx.
    by destruct (run (Sessions.load _ _ _ _ _ _) _ _) as [r1 [o|e]]. }
  assert (forall s, Sessions.l_session l = Some s -> Sessions.s_sid s = sid) as Hsid.
  { intros s. subst l. unfold Sessions.load_answer.
    destruct (Sessions.stored_key _ _ _ _ _ _ Hi Hs) as [[-> _]|(s0 & d & -> & Hs0 & _)]; [done|].
    case_match; [done|]. by intros [= <-]. }
  unfold load, bind, get_now, load_session. rewrite redis_run. rewrite Hl. do 2 eexists. split; [reflexivity|].
  destruct (Sessions.l_impersonator l); (split; [exact Hh'|split; [split_and!; [done|done|intros t k Ht Hk; by apply Hfr]|split; [done|exact Hsid]]]).
Qed.
Lemma redeem_frame (r : R) t code client uri g k :
  (run (Grants.redeem_code (sha256_hex app) Grants.CODE_TTL Grants.REFRESH_TTL code client uri) r t).2 = Ok g ->
  k <> spent_key code ->
  r_view (run (Grants.redeem_code (sha256_hex app) Grants.CODE_TTL Grants.REFRESH_TTL code client uri) r t).1 t k = r_view r t k.
Proof.
  rewrite run_result. intros E Hk. rewrite run_vrun_later by lia. rewrite <- (view_self_live r t k). f_equal. revert E.
  unfold Grants.redeem_code, Grants._digest. destruct (Py.is_ascii code); [|done]. vrun_simpl.
  destruct (r_view r t (code_key code)) as [[[sc|m] d]|] eqn:Ev; simpl; [|done..].
  destruct (Grants.code_from_json sc) as [g'|]; simpl; [|done].
  destruct (is_live _); simpl; [done|]. do 2 (destruct (negb _); simpl; [done|]). intros _.
  rewrite vupd_ne by done. destruct (decide (k = code_key code)) as [->|]; [by rewrite vupd_eq|by rewrite vupd_ne].
Qed.

Lemma redeem_touches code client uri : touches (fun k => Py.startswith k "oidc:" = true)
  (Grants.redeem_code (sha256_hex app) Grants.CODE_TTL Grants.REFRESH_TTL code client uri).
Proof.
  unfold Grants.redeem_code, Grants._digest. destruct (Py.is_ascii code); [|done]. cbn. split; [done|]. intros []; cbn; try done.
  destruct (Grants.code_from_json _) as [g|]; cbn; [|done]. split; [done|].
  intros []; cbn; try done; try (split; [done|]; by intros []). repeat (case_match; cbn; try done); (split; [done|]; by intros []).
Qed.

Abbreviation refresh_key tok := (Grants.REFRESH_KEY_PREFIX +:+ sha256_hex app tok).
Abbreviation new_refresh tok rec := (Grants.issue_refresh_token (sha256_hex app) Grants.REFRESH_TTL tok rec).

Lemma new_refresh_touches tok rec : touches (fun k => k = refresh_key tok) (new_refresh tok rec).
Proof. unfold Grants.issue_refresh_token, Grants._digest. destruct (Py.is_ascii tok); [|done]. cbn. split; [done|]. by intros []. Qed.

Lemma new_refresh_ok (r : R) t tok rec : Py.is_ascii tok = true -> (run (new_refresh tok rec) r t).2 = Ok tok.
Proof.
  intros Ha. rewrite run_result. unfold Grants.issue_refresh_token, Grants._digest. rewrite Ha. by vrun_simpl.
Qed.

Lemma release_ok session client scopes : pairwise_salt app <> "" -> is_ok (released session client scopes) = true.
Proof.
  intros Hs. unfold Release.release_to, Release._subject_identifier, Release.pairwise_id.
  destruct (Release.subject_id_mode _); [|done]. by destruct (String.eqb_spec (pairwise_salt app) "").
Qed.

Lemma moved_trans K (w1 w2 w3 : world R) : moved K w1 w2 -> moved K w2 w3 -> moved K w1 w3.
Proof.
  intros (N1 & C1 & V1) (N2 & C2 & V2). split_and!; [congruence..|]. intros t k Ht Hk. rewrite V2, V1 by (done || lia). done.
Qed.

Lemma moved_weaken (K K' : string -> Prop) (w w' : world R) : (forall k, K k -> K' k) -> moved K w w' -> moved K' w w'.
Proof. intros HK (N & C & V). split_and!; [done..|]. intros t k Ht Hk. apply V; [done|]. by intros ?%HK. Qed.

(** The keys a token request may change. *)
Definition exchange_key (code tok : string) (k : string) : Prop :=
  own_session k \/ k = spent_key code \/ k = refresh_key tok.

Lemma moved_redis K {A} (p : prog A) (w : world R) : touches K p -> moved K w (redis p w).1.
Proof. intros Hp. rewrite redis_run. split_and!; [done..|]. intros t k Ht Hk. by apply (run_frame K). Qed.

Lemma exchange_completes q (w : world R) births client code uri verifier g d :
  stored_code (w_redis w) (w_now w) code g d -> r_view (w_redis w) (w_now w) (spent_key code) = None ->
  Grants.ac_client_id g = Clients.client_id client -> Grants.ac_redirect_uri g = uri -> code <> "" ->
  Pkce.verify (sha256 app) verifier (Grants.ac_code_challenge g) = Ok tt ->
  in_history births w -> Py.has_char ":" (Grants.ac_sid g) = false -> pairwise_salt app <> "" ->
  Py.is_ascii (draw app (w_draws w)) = true ->
  exists w' claims body, _exchange_code q client (Some code) (Some uri) verifier w = (w', Ok body) /\
    w_now w' = w_now w /\ w_clients w' = w_clients w /\
    (forall k, ~ exchange_key code (draw app (w_draws w)) k ->
       r_view (w_redis w') (w_now w) k = r_view (w_redis w) (w_now w) k) /\
    Json.lookup body "access_token" = Some (JStr (Tokens.access_token (float_repr app) (isoformat app)
      (code_context client g (w_now w) claims) (Jwt.active (keys app)) (draw app (S (w_draws w))) (w_now w) Tokens.ACCESS_TOKEN_TTL).1) /\
    Json.lookup body "refresh_token" = Some (JStr (draw app (w_draws w))) /\
    is_Some (Json.lookup body "id_token").
Proof.
  intros Hst Hsp Hcl Huri Hne Hver Hh Hsid Hsalt Hasc.
  destruct (Grants.redeem_run (sha256_hex app) digest_hex Grants.CODE_TTL Grants.REFRESH_TTL _ _ code g d
    (Clients.client_id client) uri Hst) as (Hr & _). rewrite Hsp in Hr. unfold Grants.redeem_answer in Hr. cbn [is_live] in Hr.
  rewrite Hcl, Huri, !String.eqb_refl in Hr. cbn [negb orb] in Hr.
  set (w1 := set_redis (run (Grants.redeem_code (sha256_hex app) Grants.CODE_TTL Grants.REFRESH_TTL code
    (Clients.client_id client) uri) (w_redis w) (w_now w)).1 w).
  assert (in_history births w1) as Hh1.
  { eapply Sessions.history_run; [exact Hh|apply Z.le_refl|]. eapply touches_weaken; [apply redeem_touches|].
    by intros k [r ->]%Py.startswith_spec. }
  destruct (load_completes births (Grants.ac_sid g) w1 Hh1 Hsid) as (w2 & o & E2 & _ & (N2 & C2 & V2) & D2 & _).
  assert (exists claims, _claims_for client g w1 = (w2, Ok claims)) as [claims Ecl].
  { unfold _claims_for. erewrite bind_run by exact E2. destruct o as [s|]; [|by eexists].
    unfold release. pose proof (release_ok s client (list_to_set (Grants.ac_scopes g)) Hsalt) as Hok.
    destruct (released s client _) as [identity|]; [|done]. by eexists. }
  set (tok := draw app (w_draws w)) in *. set (rec := {| Grants.rt_client_id := Clients.client_id client; Grants.rt_scopes := Grants.ac_scopes g;
    Grants.rt_subject := Grants.ac_subject g; Grants.rt_sid := Grants.ac_sid g;
    Grants.rt_family_id := Grants.ac_family_id g; Grants.rt_generation := 0; Grants.rt_issued_at := w_now w |}).
  pose proof (new_refresh_ok (w_redis w2) (w_now w) tok rec Hasc) as Hnr.
  assert (exists w' body, _exchange_code q client (Some code) (Some uri) verifier w = (w', Ok body) /\
    w_now w' = w_now w /\ w_clients w' = w_clients w /\
    w_redis w' = (run (new_refresh tok rec) (w_redis w2) (w_now w)).1 /\
    Json.lookup body "access_token" = Some (JStr (Tokens.access_token (float_repr app) (isoformat app)
      (code_context client g (w_now w) claims) (Jwt.active (keys app)) (draw app (S (w_draws w))) (w_now w) Tokens.ACCESS_TOKEN_TTL).1) /\
    Json.lookup body "refresh_token" = Some (JStr tok) /\ is_Some (Json.lookup body "id_token"))
    as (w' & body & E' & N' & C' & R' & L1 & L2 & L3).
  { do 2 eexists. split.
    - unfold _exchange_code. erewrite bind_run by (cbn [present]; destruct (String.eqb_spec code ""); [done|reflexivity]).
      erewrite bind_run by (rewrite redis_run; apply (f_equal2 pair eq_refl Hr)).
      erewrite bind_run by (unfold lift; rewrite Hver; reflexivity). erewrite bind_run by reflexivity.
      erewrite bind_run by exact Ecl. erewrite bind_run by reflexivity.
      erewrite bind_run. 2: { rewrite redis_run. cbn [w_redis w_now set_draws]. rewrite D2, N2. apply (f_equal2 pair eq_refl Hnr). }
      erewrite bind_run by reflexivity. unfold _token_response. erewrite bind_run by reflexivity. reflexivity.
    - split_and!; [exact N2|exact C2|reflexivity|reflexivity|reflexivity|by eexists]. }
  exists w', claims, body. split_and!; try done. intros k Hk.
  rewrite R', (run_frame (fun k => k = refresh_key tok)); [|apply new_refresh_touches|unfold exchange_key in Hk; naive_solver|lia].
  rewrite V2; [|done|unfold exchange_key in Hk; naive_solver]. cbn. eapply redeem_frame; [exact Hr|]. unfold exchange_key in Hk. naive_solver.
Qed.

(** A browser with a live session and a request its client may make. *)
Record flow (births : list (Sessions.login * moment)) (w : world R) (q : Request) (a : AuthorizationRequest)
    (client : Clients.OidcClient) (uri challenge sid : string) (scopes : gset string)
    (session : Sessions.Session) (identity : Release.ReleasedIdentity) : Prop := {
  fl_direct : q_pending a = None /\ q_request_uri a = None;
  fl_client : Clients.require (netloc_ok app) (w_clients w) (q_client_id a) = Ok client;
  fl_uri : q_redirect_uri a = Some uri /\ Clients.validated_redirect_uri (netloc_ok app) client (Some uri) = Ok uri;
  fl_challenge : q_code_challenge a = Some challenge;
  fl_request : _check_authorization_request client (direct_parameters a) = Ok tt;
  fl_scopes : Clients.granted_scopes client (q_scope a) = Ok scopes;
  fl_cookie : Dict.get (rq_cookies q) SESSION_COOKIE = Some sid /\ sid <> "";
  fl_history : in_history births w;
  fl_session : (load sid w).2 = Ok (Some session);
  fl_identity : released session client scopes = Ok identity;
  fl_salt : pairwise_salt app <> "";
  fl_draws : forall n, Py.is_ascii (draw app n) = true /\ draw app n <> "";
  fl_fresh : r_view (w_redis w) (w_now w) (spent_key (draw app (S (w_draws w)))) = None;
  fl_indexes : set_or_none (w_redis w) (w_now w) (families_key sid) /\
               set_or_none (w_redis w) (w_now w) (CLIENT_SESSION_PREFIX +:+ sid) }.

Lemma load_sid births sid (w : world R) s : in_history births w -> (load sid w).2 = Ok (Some s) ->
  Py.has_char ":" sid = false /\ Sessions.s_sid s = sid.
Proof.
  intros Hh Hl. assert (Py.has_char ":" sid = false) as Hs.
  { unfold load, bind, get_now, load_session in Hl. rewrite redis_run in Hl.
    set (out := run _ _ _) in Hl. destruct out.2 as [l|] eqn:E; [|done]. injection Hl as Hl.
    by destruct (Sessions.history_load _ _ _ idle_le_absolute _ _ _ (w_now w) _ _ _ _ Hh (Z.le_refl _) E Hl). }
  split; [done|]. destruct (load_completes births sid w Hh Hs) as (w' & o & E & _ & _ & _ & Ho). rewrite E in Hl. cbn in Hl.
  apply Ho. congruence.
Qed.

(** Keys a signed-in authorization changes. *)
Definition authorize_key (code sid : string) (k : string) : Prop :=
  own_session k \/ k = code_key code \/ k = families_key sid \/ k = CLIENT_SESSION_PREFIX +:+ sid.

Lemma direct_param a :
  param (direct_parameters a) "client_id" = q_client_id a /\ param (direct_parameters a) "redirect_uri" = q_redirect_uri a /\
  param (direct_parameters a) "scope" = q_scope a /\ param (direct_parameters a) "state" = q_state a /\
  param (direct_parameters a) "code_challenge" = q_code_challenge a /\ param (direct_parameters a) "nonce" = q_nonce a.
Proof.
  unfold param, direct_parameters, or_null.
  by destruct (q_client_id a), (q_redirect_uri a), (q_scope a), (q_state a), (q_code_challenge a), (q_nonce a).
Qed.

Lemma request_has_state client a : _check_authorization_request client (direct_parameters a) = Ok tt -> exists s, q_state a = Some s.
Proof.
  unfold _check_authorization_request, unless. destruct (bool_decide _); [|done]. cbn [rbind].
  destruct (direct_param a) as (_ & _ & _ & -> & _). destruct (q_state a); [by eexists|done].
Qed.

Lemma authorize_completes births w q a client uri challenge sid scopes session identity :
  flow births w q a client uri challenge sid scopes session identity ->
  let code := draw app (S (w_draws w)) in
  exists w1, authorize q a w = (w1, Ok (redirect (uri +:+ "?" +:+ Url.urlencode
      [("code", code); ("state", default "" (q_state a)); ("iss", oidc_issuer app)]) NO_STORE [])) /\
    moved (authorize_key code sid) w w1 /\ w_draws w1 = S (S (w_draws w)) /\ in_history births w1 /\
    stored_code (w_redis w1) (w_now w) code (granted w client (direct_parameters a) uri challenge scopes session identity)
      (w_now w + ttl_seconds Grants.CODE_TTL * SECOND).
Proof.
  intros [[Hp Hq] Hc [Hu Hv] Hch Hrq Hsc [Hck Hne] Hh Hl Hid Hsalt Hdr Hfresh [Hi1 Hi2]] code.
  destruct (load_sid _ _ _ _ Hh Hl) as [Hsid Hs]. destruct (direct_param a) as (P1 & P2 & P3 & P4 & P5 & P6).
  destruct (request_has_state _ _ Hrq) as [st Hst].
  destruct (load_completes births sid w Hh Hsid) as (w2 & o & E2 & Hh2 & (N2 & C2 & V2) & D2 & _).
  rewrite E2 in Hl. cbn in Hl. injection Hl as ->.
  destruct (issue_code_completes q client (direct_parameters a) session w2 births scopes identity uri challenge)
    as (w3 & E3 & M3 & D3 & Hh3 & S3); try done; [by rewrite P3|by rewrite P2|by rewrite P5|apply Hdr|..].
  { unfold set_or_none. rewrite Hs, N2, V2 by (lia || by unfold own_session). exact Hi1. }
  { unfold set_or_none. rewrite Hs, N2, V2 by (lia || by unfold own_session). exact Hi2. }
  rewrite D2 in E3, M3, D3, S3. rewrite Hs in M3. fold code in E3, M3, S3.
  assert (granted w2 client (direct_parameters a) uri challenge scopes session identity =
    granted w client (direct_parameters a) uri challenge scopes session identity) as Eg by (unfold granted; by rewrite D2).
  rewrite Eg, N2 in S3. exists w3. split; [|split; [|split; [exact D3|split; [exact Hh3|exact S3]]]].
  - assert (phase_one (direct_parameters a) w = (w, Ok (client, uri))) as E1.
    { unfold phase_one. erewrite bind_run by reflexivity. erewrite bind_run by (unfold lift; rewrite P1, Hc; reflexivity).
      erewrite bind_run by (unfold lift; rewrite P2, Hu, Hv; reflexivity). reflexivity. }
    assert (phase_two q (direct_parameters a) client w = (w2, Ok (Some session))) as E2'.
    { unfold phase_two. erewrite bind_run by (unfold lift; rewrite Hrq; reflexivity). unfold _current_session. rewrite Hck.
      by destruct sid. }
    unfold authorize. erewrite bind_run by reflexivity.
    erewrite bind_run by (unfold gather; rewrite Hp, Hq; reflexivity). unfold try_else. rewrite E1, E2'. unfold answer.
    erewrite bind_run by exact E3. erewrite bind_run by (unfold required; rewrite P4, Hst; reflexivity). by rewrite Hst.
  - eapply moved_trans; [|eapply moved_weaken; [|exact M3]].
    + apply (moved_weaken own_session); [by left|]. by split_and!.
    + intros k Hk. by right.
Qed.

(** A back channel that redeems the code at [t1]. *)
Record redemption (w w1 w3 : world R) (t1 : moment) (q : Request) (f : TokenRequest) (client : Clients.OidcClient)
    (code uri challenge : string) : Prop := {
  rd_time : (w_now w <= t1 < w_now w + ttl_seconds Grants.CODE_TTL * SECOND)%Z;
  rd_form : f_grant_type f = GRANT_AUTHORIZATION_CODE /\ f_code f = Some code /\ f_redirect_uri f = Some uri;
  rd_throttle : check_throttle (rq_address q) None (at_moment t1 w1) = (w3, Ok tt);
  rd_client : (_authenticated_client q (f_client_id f) (f_client_secret f) w).2 = Ok client;
  rd_verifier : Pkce.verify (sha256 app) (f_code_verifier f) challenge = Ok tt }.

Lemma token_completes births (w w1 w3 : world R) t1 q f client code uri challenge g d sid :
  redemption w w1 w3 t1 q f client code uri challenge ->
  w_now w1 = w_now w -> w_clients w1 = w_clients w -> in_history births w1 ->
  stored_code (w_redis w1) (w_now w) code g d -> (d = w_now w + ttl_seconds Grants.CODE_TTL * SECOND)%Z ->
  (forall t, (w_now w <= t)%Z -> r_view (w_redis w1) t (spent_key code) = None) ->
  Grants.ac_client_id g = Clients.client_id client -> Grants.ac_redirect_uri g = uri ->
  Grants.ac_code_challenge g = challenge -> Grants.ac_sid g = sid ->
  Py.has_char ":" sid = false -> pairwise_salt app <> "" -> code <> "" ->
  Py.is_ascii (draw app (w_draws w1)) = true ->
  exists w4 claims body, token q f (at_moment t1 w1) = (w4, Ok (json_response 200 (JObj body) NO_STORE)) /\
    w_clients w4 = w_clients w /\ w_now w4 = t1 /\
    (forall k, ~ exchange_key code (draw app (w_draws w1)) k -> ~ Throttle.counter_key k ->
       r_view (w_redis w4) t1 k = r_view (w_redis w1) t1 k) /\
    Json.lookup body "access_token" = Some (JStr (Tokens.access_token (float_repr app) (isoformat app)
      (code_context client g t1 claims) (Jwt.active (keys app)) (draw app (S (w_draws w1))) t1 Tokens.ACCESS_TOKEN_TTL).1) /\
    Json.lookup body "refresh_token" = Some (JStr (draw app (w_draws w1))) /\ is_Some (Json.lookup body "id_token").
Proof.
  intros [[T1 T2] (F1 & F2 & F3) Hth Hau Hver] N1 C1 Hh Hst Hd Hsp G1 G2 G3 G4 Hsid Hsalt Hne Hasc.
  pose proof (fun k => throttle_frame _ _ _ _ _ k Hth) as Hfr.
  destruct (Hfr "" ltac:(by intros [? ?])) as (N3 & C3 & D3 & _). cbn in N3, C3, D3.
  assert (forall k, ~ Throttle.counter_key k -> forall t, (t1 <= t)%Z -> r_view (w_redis w3) t k = r_view (w_redis w1) t k) as V3.
  { intros k Hk t Ht. destruct (Hfr k Hk) as (_ & _ & _ & Hv). by apply Hv. }
  assert (in_history births w3) as Hh3.
  { unfold check_throttle, bind, get_now in Hth. rewrite redis_run in Hth. injection Hth as <- _. cbn.
    eapply Sessions.history_run; [eapply Sessions.history_wait; [exact Hh|by rewrite N1]|apply Z.le_refl|].
    eapply touches_weaken; [apply Throttle.check_touches|]. by intros k [x ->]. }
  destruct (exchange_completes q w3 births client code uri (f_code_verifier f) g d) as (w4 & claims & body & E4 & N4 & C4 & V4 & L1 & L2 & L3);
    rewrite ?N3, ?D3; try done; try congruence.
  - unfold Grants.stored_code. rewrite V3; [|by intros [? ?]|lia].
    apply (Grants.stored_code_later _ _ (w_now w)); [lia..|exact Hst].
  - rewrite V3; [apply Hsp; lia|by intros [? ?]|lia].
  - rewrite D3 in *. rewrite N3 in *. exists w4, claims, body. split; [|split_and!; [congruence|congruence| |exact L1|exact L2|exact L3]].
    + unfold token, try_else at 1. rewrite Hth. unfold try_else, exchange.
      erewrite bind_run; [|rewrite authenticated_same, (authenticated_clients q _ _ w), Hau; [reflexivity|cbn; congruence]].
      rewrite F1, String.eqb_refl, F2, F3, E4. done.
    + intros k Hk Hk2. rewrite V4 by done. apply V3; [done|lia].
Qed.

Lemma describe_access c jti now ttl (w : world R) :
  let claims := Tokens.access_token_claims c jti now ttl in
  exists doc, describe claims w = (w, Ok (json_response 200 (JObj doc) NO_STORE)) /\
    Json.lookup doc "active" = Some (JBool true) /\ Json.lookup doc "sub" = Some (JStr (Tokens.tc_subject c)) /\
    Json.lookup doc "scope" = Some (JStr (Tokens.scope_text (Tokens.tc_scopes c))).
Proof.
  intros claims. unfold claims, Tokens.access_token_claims. destruct (Tokens.tc_acr c), (Tokens.tc_amr c); by eexists.
Qed.

Lemma introspection_completes q id secret (w : world R) client c jti minted :
  (_authenticated_client q id secret w).2 = Ok client ->
  Jwt.coherent (Jwt.published (keys app)) -> Utf8.valid (Jwt.kid (Jwt.active (keys app))) = true ->
  Tokens.presentable c minted -> Utf8.valid jti = true -> Tokens.tc_issuer c = oidc_issuer app ->
  Tokens.tc_client_id c = Clients.client_id client ->
  (minted <= w_now w < Tokens.epoch (minted + Tokens.ACCESS_TOKEN_TTL) * SECOND + Jwt.LEEWAY)%Z ->
  Tokens.family_marked (w_redis w) (w_now w) (Tokens.tc_family_id c) = false ->
  let tok := (Tokens.access_token (float_repr app) (isoformat app) c (Jwt.active (keys app)) jti minted Tokens.ACCESS_TOKEN_TTL).1 in
  exists doc, (introspect q tok id secret w).2 = Ok (json_response 200 (JObj doc) NO_STORE) /\
    Json.lookup doc "active" = Some (JBool true) /\ Json.lookup doc "sub" = Some (JStr (Tokens.tc_subject c)) /\
    Json.lookup doc "scope" = Some (JStr (Tokens.scope_text (Tokens.tc_scopes c))).
Proof.
  intros Hau Hco Hk Hp Hj Hi Hc Ht Hm tok.
  destruct (Tokens.access_token_honoured (float_repr app) (isoformat app) c (keys app) jti minted Tokens.ACCESS_TOKEN_TTL
    (shown app) (w_redis w) (w_now w) Hco Hk Hp Hj ltac:(by vm_compute) ltac:(lia)) as (E & _ & Hcid & _).
  rewrite Hm in E. destruct (Z.leb_spec (Tokens.epoch (minted + Tokens.ACCESS_TOKEN_TTL) * SECOND + Jwt.LEEWAY) (w_now w)); [lia|].
  rewrite Hi in E. fold tok in E. unfold introspect, try_else. rewrite authenticated_same, Hau.
  pose proof (verify_bearer_run tok w) as Hv. rewrite E in Hv. destruct (verify_bearer tok w) as [w1 out]. cbn [snd] in Hv. subst out.
  destruct (describe_access c jti minted Tokens.ACCESS_TOKEN_TTL w1) as (doc & Ed & L). exists doc. split; [|exact L].
  unfold lift. erewrite bind_run by (rewrite Hcid; reflexivity). rewrite Hc, String.eqb_refl. cbn [negb]. by rewrite Ed.
Qed.

(** C4: The authorization code flow completes.  A signed-in browser whose client
    asks for what it may have is sent back with a code; within the code's minute
    the client, with the matching verifier, is given an access, a refresh and an
    ID token; and until the access token expires, while the family is not
    revoked, introspection tells the client it is active, for the subject and the
    scopes that were granted. *)
Theorem code_flow_completes births (w w3 : world R) q a client uri challenge sid scopes session identity t1 t2 q' f :
  flow births w q a client uri challenge sid scopes session identity ->
  let w1 := (authorize q a w).1 in
  let code := draw app (S (w_draws w)) in
  let g := granted w client (direct_parameters a) uri challenge scopes session identity in
  redemption w w1 w3 t1 q' f client code uri challenge ->
  Jwt.coherent (Jwt.published (keys app)) -> Utf8.valid (Jwt.kid (Jwt.active (keys app))) = true ->
  (forall n, Utf8.valid (draw app n) = true) ->
  (forall claims, Tokens.presentable (code_context client g t1 claims) t1) ->
  r_view (w_redis w) (w_now w) (Grants.FAMILY_REVOKED_PREFIX +:+ draw app (w_draws w)) = None ->
  (t1 <= t2 < Tokens.epoch (t1 + Tokens.ACCESS_TOKEN_TTL) * SECOND + Jwt.LEEWAY)%Z ->
  (authorize q a w).2 = Ok (redirect (uri +:+ "?" +:+ Url.urlencode
    [("code", code); ("state", default "" (q_state a)); ("iss", oidc_issuer app)]) NO_STORE []) /\
  exists w4 body tok doc,
    token q' f (at_moment t1 w1) = (w4, Ok (json_response 200 (JObj body) NO_STORE)) /\
    Json.lookup body "access_token" = Some (JStr tok) /\ is_Some (Json.lookup body "refresh_token") /\
    is_Some (Json.lookup body "id_token") /\
    (introspect q' tok (f_client_id f) (f_client_secret f) (at_moment t2 w4)).2 = Ok (json_response 200 (JObj doc) NO_STORE) /\
    Json.lookup doc "active" = Some (JBool true) /\ Json.lookup doc "sub" = Some (JStr (Release.ri_subject identity)) /\
    Json.lookup doc "scope" = Some (JStr (Tokens.scope_text scopes)).
Proof.
  intros Hf w1 code g Hr Hco Hk Hj Hp Hfam Ht2. pose proof (authorize_completes _ _ _ _ _ _ _ _ _ _ _ Hf) as Ha.
  fold code in Ha. destruct Ha as (w1' & E1 & (N1 & C1 & V1) & D1 & Hh1 & S1). unfold w1 in *. rewrite E1 in Hr |- *.
  cbn [fst snd] in *. split; [done|]. destruct (load_sid _ _ _ _ (fl_history _ _ _ _ _ _ _ _ _ _ _ Hf) (fl_session _ _ _ _ _ _ _ _ _ _ _ Hf)) as [Hsid Hs].
  assert (forall t, (w_now w <= t)%Z -> r_view (w_redis w1') t (spent_key code) = None) as Hsp.
  { intros t Ht. rewrite V1; [|done|].
    - apply (view_None_later _ (w_now w)); [done|]. exact (fl_fresh _ _ _ _ _ _ _ _ _ _ _ Hf).
    - unfold authorize_key. intros [Hx|[Hx|[Hx|Hx]]]; try done. by apply (Grants.spent_key_ne (sha256_hex app) digest_hex) in Hx. }
  destruct (token_completes births w w1' w3 t1 q' f client code uri challenge g _ sid Hr N1 C1 Hh1 S1 eq_refl Hsp)
    as (w4 & claims & body & E4 & C4 & N4 & V4 & L1 & L2 & L3); try done;
    [exact (fl_salt _ _ _ _ _ _ _ _ _ _ _ Hf)|apply (fl_draws _ _ _ _ _ _ _ _ _ _ _ Hf)..|].
  destruct (introspection_completes q' (f_client_id f) (f_client_secret f) (at_moment t2 w4) client (code_context client g t1 claims)
    (draw app (S (w_draws w1'))) t1) as (doc & Ed & D); try done; [by rewrite (authenticated_clients _ _ _ w); [apply Hr|]| |].
  - unfold Tokens.family_marked. cbn. set (k := Grants.FAMILY_REVOKED_PREFIX +:+ _).
    assert (r_view (w_redis w4) t2 k = None) as ->; [|done]. apply (view_None_later _ t1); [lia|].
    rewrite V4; [|by intros [?|[?|?]]|by intros [? ?]]. pose proof (rd_time _ _ _ _ _ _ _ _ _ _ Hr).
    rewrite V1; [|lia|by intros [?|[?|[?|?]]]]. by apply (view_None_later _ (w_now w)); [lia|].
  - exists w4, body. eexists. exists doc. destruct D as (A1 & A2 & A3).
    split_and!; [exact E4|exact L1|by eexists|exact L3|exact Ed|exact A1|exact A2|]. rewrite A3. cbn [code_context Tokens.tc_scopes]. unfold g. cbn [granted Grants.ac_scopes].
    assert (list_to_set (Lifecycle.sorted scopes) = scopes) as ->; [|done].
    apply set_eq. intros x. rewrite elem_of_list_to_set. apply Tokens.elem_of_sorted.
Qed.

End oauth.

(** ** Witnesses *)

Section witnesses.

Definition demo_digest := Grants.demo_digest.
Definition demo_sha (s : string) : string := Py.repeat_str 32 "x".
Definition demo_draw (n : nat) : string :=
  match n with 0%nat => "fam" | 1%nat => "code" | 2%nat => "refresh" | _ => "jti" end.

Definition demo_site : App (Priv := Z) := {|
  oidc_issuer := "https://op"; scope := "campus.test"; pairwise_salt := "salt"; keys := Jwt.demo_set;
  policies := fun _ => Release.demo_policy Release.ALLOW Release.DENY; netloc_ok := Clients.any_netloc;
  replaced := fun s => s; sha256 := demo_sha; sha256_hex := demo_digest; digest32 := demo_digest;
  hmac_sha256 := Release.demo_hmac; fullmatch := fun _ _ => true; float_repr := Jwt.toy_float; isoformat := Jwt.toy_iso;
  shown := fun _ => ""; draw := demo_draw; auth_rate_per_address := 10; auth_rate_per_account := 5; auth_rate_window := 60 |}.

Definition demo_clients : list Clients.OidcClientRecord :=
  (Clients.register Clients.any_netloc demo_digest [] Clients.demo_app (Some Clients.demo_secret) Clients.demo_fresh).1.
Definition demo_registered : Clients.OidcClient :=
  Clients.demo_client "app" Clients.CONFIDENTIAL ["https://app.test/cb"] (Some (demo_digest Clients.demo_secret)).

Definition demo_redis : Store :=
  (run (Sessions.create demo_digest Sessions.IDLE_TIMEOUT Sessions.ABSOLUTE_TIMEOUT Sessions.SESSION_KEY_PREFIX "s1"
     Sessions.demo_login 0 0) (∅ : Store) 0).1.

Definition demo_world : world Store := {|
  w_now := 5; w_redis := demo_redis;
  w_identity := {| Registry.persons := []; Registry.identifiers := []; Registry.accounts := []; Registry.affiliations := [] |};
  w_lifecycle := {| Lifecycle.grant_rows := []; Lifecycle.events := [] |}; w_clients := demo_clients; w_federation := []; w_audit := [];
  w_correlation := "c1"; w_impersonator := None; w_draws := 0 |}.

Definition demo_browser : Request :=
  {| rq_address := Some "192.0.2.7"; rq_user_agent := "ua"; rq_authorization := ""; rq_cookies := [(SESSION_COOKIE, "s1")] |}.
Definition demo_verifier : string := Py.repeat_str 43 "v".
Definition demo_challenge : string := Pkce.compute_challenge demo_sha demo_verifier.
Definition demo_ask : AuthorizationRequest := {|
  q_client_id := Some "app"; q_redirect_uri := Some "https://app.test/cb"; q_response_type := Some "code";
  q_scope := Some "openid email"; q_state := Some "st"; q_nonce := Some "n"; q_code_challenge := Some demo_challenge;
  q_code_challenge_method := Some "S256"; q_request_uri := None; q_pending := None |}.
Definition demo_form : TokenRequest := {|
  f_grant_type := "authorization_code"; f_code := Some "code"; f_redirect_uri := Some "https://app.test/cb";
  f_code_verifier := Some demo_verifier; f_refresh_token := None; f_scope := None; f_client_id := Some "app";
  f_client_secret := Some Clients.demo_secret |}.

Definition demo_sent : world Store := at_moment 6 (authorize demo_site demo_browser demo_ask demo_world).1.
Definition demo_tokens : world Store * result exn Response := token demo_site demo_browser demo_form demo_sent.
Definition demo_access : string :=
  match demo_tokens.2 with
  | Ok r => match rs_content r with
            | Document (JObj body) => match Json.lookup body "access_token" with Some (JStr s) => s | _ => "" end
            | _ => "" end
  | Err _ => ""
  end.


Lemma demo_session_history : Sessions.history (R := Store) demo_digest Sessions.IDLE_TIMEOUT Sessions.ABSOLUTE_TIMEOUT
  [(Sessions.demo_login, 0%Z)] demo_redis 5.
Proof.
  apply Sessions.history_wait with (t := 0%Z); [|done].
  apply Sessions.history_create with (t := 0%Z); [|done|done]. apply Sessions.history_start.
  intros rest. simpl. by rewrite lookup_empty.
Qed.


Lemma no_session_no_code_witness :
  let q := {| rq_address := None; rq_user_agent := ""; rq_authorization := ""; rq_cookies := [(SESSION_COOKIE, "s2")] |} in
  w_audit (authorize demo_site q demo_ask demo_world).1 = [].
Proof.
  intros q. assert (signed_out q demo_world) as Hs by (vm_compute; reflexivity).
  exact (proj1 (no_session_no_code demo_site q demo_ask demo_world Hs)).
Defined.

Lemma token_answers_uniformly_witness :
  exists r, demo_tokens = (demo_tokens.1, Ok r) /\ rs_status r = 200%Z /\ Dict.get (rs_headers r) "Cache-Control" = Some "no-store".
Proof.
  assert (exists r, demo_tokens.2 = Ok r /\ rs_status r = 200%Z) as (r & Er & Hs)
    by (vm_compute; eexists; split; [reflexivity|reflexivity]).
  assert (token demo_site demo_browser demo_form demo_sent = (demo_tokens.1, Ok r)) as E
    by (rewrite <- Er; unfold demo_tokens; destruct (token _ _ _ _); reflexivity).
  exists r. split; [exact E|]. split; [exact Hs|].
  exact (proj1 (token_answers_uniformly demo_site demo_browser demo_form demo_sent _ r E)).
Defined.

Definition demo_asked : world Store * result exn Response :=
  introspect demo_site demo_browser demo_access (Some "app") (Some Clients.demo_secret) demo_tokens.1.

Lemma introspection_is_own_witness : exists claims,
  (run (Tokens.verify (Some demo_access) Jwt.demo_set "https://op" 6) (w_redis demo_tokens.1) 6).2 = Ok claims /\
  Tokens.bt_client_id (fun _ => "") claims = Ok "app".
Proof.
  assert (exists r, demo_asked.2 = Ok r /\ rs_status r = 200%Z /\ match rs_content r with Document (JObj (_ :: _ :: _)) => true | _ => false end = true)
    as (r & Er & Hs & Hc) by (vm_compute; eexists; split; [reflexivity|split; reflexivity]).
  assert (introspect demo_site demo_browser demo_access (Some "app") (Some Clients.demo_secret) demo_tokens.1 = (demo_asked.1, Ok r)) as E
    by (rewrite <- Er; unfold demo_asked; destruct (introspect _ _ _ _ _ _); reflexivity).
  assert (rs_content r <> rs_content inactive) as Hne by (intros Hx; rewrite Hx in Hc; discriminate Hc).
  destruct (introspection_is_own demo_site demo_browser demo_access (Some "app") (Some Clients.demo_secret) demo_tokens.1 _ r E Hs Hne)
    as (client & claims & Ha & Hv & Hb & _).
  assert (w_now demo_tokens.1 = 6%Z) as Hn by (vm_compute; reflexivity). rewrite Hn in Hv.
  assert (Clients.client_id client = "app") as Hid.
  { assert ((_authenticated_client demo_site demo_browser (Some "app") (Some Clients.demo_secret) demo_tokens.1).2 = Ok demo_registered)
      as Hd by (vm_compute; reflexivity). rewrite Hd in Ha. injection Ha as <-. reflexivity. }
  rewrite Hid in Hb. exists claims. split; [exact Hv|exact Hb].
Defined.

Definition demo_grant : Grants.AuthorizationCode :=
  granted demo_site demo_world demo_registered (direct_parameters demo_ask) "https://app.test/cb" demo_challenge
    {["openid"; "email"]} (Sessions.touch (Sessions.new_session Sessions.ABSOLUTE_TIMEOUT "s1" Sessions.demo_login 0) 5)
    {| Release.ri_subject := Base64.b64url (Py.take 16 "0123456789abcdefghij") +:+ "@campus.test";
       Release.ri_claims := []; Release.ri_decisions := [] |}.

(** The client presents the same form again. *)
Lemma replayed_code_ends_its_family_witness :
  (token demo_site demo_browser demo_form demo_tokens.1).2 = Ok (_token_error INVALID_GRANT).
Proof.
  assert (forall s, Py.has_char ":" (demo_digest s) = false) as Hd by exact Grants.demo_digest_hex.
  assert (demo_form.(f_grant_type) = GRANT_AUTHORIZATION_CODE) as H1 by reflexivity.
  assert (demo_form.(f_code) = Some "code") as H2 by reflexivity.
  assert ("code" <> "") as H3 by discriminate.
  assert (check_throttle demo_site (rq_address demo_browser) None demo_tokens.1 =
    ((check_throttle demo_site (rq_address demo_browser) None demo_tokens.1).1, Ok tt)) as H4 by (vm_compute; reflexivity).
  assert ((_authenticated_client demo_site demo_browser (f_client_id demo_form) (f_client_secret demo_form) demo_tokens.1).2 = Ok demo_registered)
    as H5 by (vm_compute; reflexivity).
  assert (Grants.stored_code demo_digest (w_redis demo_tokens.1) (w_now demo_tokens.1) "code" demo_grant (5 + 60 * SECOND)) as H6
    by (split; vm_compute; reflexivity).
  assert (is_live (r_view (w_redis demo_tokens.1) (w_now demo_tokens.1) (Grants.CODE_SPENT_PREFIX +:+ demo_digest "code")) = true) as H7
    by (vm_compute; reflexivity).
  exact (proj1 (replayed_code_ends_its_family demo_site Hd demo_browser demo_form demo_tokens.1 _ demo_registered "code" demo_grant _
    H1 H2 H3 H4 H5 H6 H7)).
Defined.

Abbreviation demo_session := (Sessions.touch (Sessions.new_session Sessions.ABSOLUTE_TIMEOUT "s1" Sessions.demo_login 0) 5).
Abbreviation demo_identity := (match Release.release_to (fun _ _ => true) Release.demo_hmac demo_session
  (Release.demo_policy Release.ALLOW Release.DENY) {["openid"; "email"]} "salt" "campus.test" false ∅ with
  | Ok i => i
  | Err _ => {| Release.ri_subject := ""; Release.ri_claims := []; Release.ri_decisions := [] |} end).

Lemma demo_flow : flow demo_site [(Sessions.demo_login, 0%Z)] demo_world demo_browser demo_ask demo_registered
  "https://app.test/cb" demo_challenge "s1" {["openid"; "email"]} demo_session demo_identity.
Proof.
  split.
  - done.
  - vm_compute. reflexivity.
  - split; [done|]. vm_compute. reflexivity.
  - done.
  - vm_compute. reflexivity.
  - vm_compute. reflexivity.
  - done.
  - exact demo_session_history.
  - vm_compute. reflexivity.
  - vm_compute. reflexivity.
  - done.
  - intros [|[|[|n]]]; done.
  - vm_compute. reflexivity.
  - split; vm_compute; exact I.
Qed.

Lemma demo_redemption : redemption demo_site demo_world (authorize demo_site demo_browser demo_ask demo_world).1
  (check_throttle demo_site (rq_address demo_browser) None demo_sent).1 6 demo_browser demo_form demo_registered "code"
  "https://app.test/cb" demo_challenge.
Proof.
  split.
  - split; vm_compute; congruence.
  - done.
  - vm_compute. reflexivity.
  - vm_compute. reflexivity.
  - vm_compute. reflexivity.
Qed.

Lemma demo_context_presentable claims :
  Tokens.presentable (code_context demo_site demo_registered (granted demo_site demo_world demo_registered (direct_parameters demo_ask)
    "https://app.test/cb" demo_challenge {["openid"; "email"]} demo_session demo_identity) 6 claims) 6.
Proof.
  split; [|split; [|done]].
  - match goal with |- Forall _ ?l => assert (forallb Utf8.valid l = true) as E by (vm_compute; reflexivity) end.
    apply Forall_forall. intros x Hx%list_elem_of_In. exact (proj1 (List.forallb_forall _ _) E x Hx).
  - intros x. cbn [code_context Tokens.tc_scopes]. rewrite elem_of_list_to_set. unfold granted. cbn [Grants.ac_scopes].
    rewrite Tokens.elem_of_sorted, elem_of_union, !elem_of_singleton. by intros [->| ->].
Qed.

Lemma code_flow_completes_witness : exists w4 body tok doc,
  token demo_site demo_browser demo_form (at_moment 6 (authorize demo_site demo_browser demo_ask demo_world).1) =
     (w4, Ok (json_response 200 (JObj body) NO_STORE)) /\
  Json.lookup body "access_token" = Some (JStr tok) /\
  (introspect demo_site demo_browser tok (Some "app") (Some Clients.demo_secret) (at_moment 100 w4)).2 =
     Ok (json_response 200 (JObj doc) NO_STORE) /\
  Json.lookup doc "active" = Some (JBool true).
Proof.
  assert (Utf8.valid (Jwt.kid (Jwt.active Jwt.demo_set)) = true) as Hk by (vm_compute; reflexivity).
  assert (forall n, Utf8.valid (draw demo_site n) = true) as Hu by (intros [|[|[|n]]]; reflexivity).
  assert (r_view (w_redis demo_world) (w_now demo_world) (Grants.FAMILY_REVOKED_PREFIX +:+ draw demo_site (w_draws demo_world)) = None)
    as Hfam by (vm_compute; reflexivity).
  assert (6 <= 100 < Tokens.epoch (6 + Tokens.ACCESS_TOKEN_TTL) * SECOND + Jwt.LEEWAY)%Z as Ht by (split; vm_compute; congruence).
  destruct (code_flow_completes demo_site Grants.demo_digest_hex _ demo_world _ demo_browser demo_ask demo_registered _ _ _ _ _ _ 6 100
    demo_browser demo_form demo_flow demo_redemption Tokens.demo_coherent Hk Hu demo_context_presentable Hfam Ht)
    as (_ & w4 & body & tok & doc & E1 & E2 & _ & _ & E3 & E4 & _).
  exists w4, body, tok, doc. split; [exact E1|]. split; [exact E2|]. split; [exact E3|exact E4].
Defined.

(** A registered URI may carry a query, and the answer is appended after a second
    question mark: the client finds the code inside its own parameter. *)
Example query_uri_swallows_the_code :
  let uri := "https://app.test/cb?x=1" in
  let client := Clients.demo_client "app" Clients.CONFIDENTIAL [uri] None in
  let world := {| w_now := 5; w_redis := demo_redis; w_identity := w_identity demo_world; w_lifecycle := w_lifecycle demo_world;
    w_clients := (Clients.register Clients.any_netloc demo_digest [] client (Some Clients.demo_secret) Clients.demo_fresh).1;
    w_federation := []; w_audit := []; w_correlation := "c1"; w_impersonator := None; w_draws := 0 |} in
  let ask := {| q_client_id := Some "app"; q_redirect_uri := Some uri; q_response_type := Some "code";
    q_scope := Some "openid email"; q_state := Some "st"; q_nonce := Some "n"; q_code_challenge := Some demo_challenge;
    q_code_challenge_method := Some "S256"; q_request_uri := None; q_pending := None |} in
  match (authorize demo_site demo_browser ask world).2 with
  | Ok r => location r
  | Err _ => None
  end = Some "https://app.test/cb?x=1?code=code&state=st&iss=https%3A%2F%2Fop".
Proof. vm_compute. reflexivity. Qed.

End witnesses.

End OAuth.
