(* ===== verification/Acs.v ===== *)
(** * The SAML endpoints

    [campusid/routes/saml.py]: [/saml/sso] starts a login, [/saml/acs] receives the
    answer and, if it survives the gate, resolves the person and starts a session,
    [/me] shows it.  The handlers compose the federation registry, the prepared
    request, the gate, the identity registry, the merge of attributes, the session
    store and the throttle in the monad of [Site.v].  Spans, metrics and log lines
    are left out; every clock reading of a handler is one moment and [date.today()]
    is the day of that moment. *)

From S2P Require Import Prelude PyStr Dict Base64 Json Errors Url Redis IsoTime Codec OneShot Sessions Pending Throttle Xml SamlSignature SamlGate.
From S2P Require Import Jwt Lifecycle Registry Attributes Merge Clients AuditTrail AuditLog Federation SamlSp Site.
Import Site.

Module Acs.

Definition REQUEST_TTL : duration := 300 * SECOND.
Definition BINDING_KEY_PREFIX := "saml:binding:".
Definition DEFAULT_LANDING := "/me".

Definition backslash : string := String (ascii_of_nat 92) "".

Definition local_path (candidate : option string) : result exn (option string) :=
  match candidate with
  | None => Ok None
  | Some c =>
      if negb (Py.startswith c "/") || (Py.startswith c "//" || Py.startswith c ("/" +:+ backslash)) ||
         Py.contains c backslash || Py.contains c "://"
      then Err (BrokerError INVALID_RETURN_URL) else Ok (Some c)
  end.

Definition _binding_key (relay_state : string) : string := BINDING_KEY_PREFIX +:+ relay_state.

(** [base64.b64decode(encoded, validate=True)]. *)
Definition _decode (encoded : string) : result exn string :=
  match Base64.decode_strict encoded with Some d => Ok d | None => Err (SamlRejected MALFORMED_RESPONSE) end.

(** [secrets.compare_digest] of two [str] refuses text that is not ASCII. *)
Definition compare_digest (a b : string) : result exn bool :=
  if Py.is_ascii a && Py.is_ascii b then Ok (String.eqb a b) else Err TypeError.

Definition today (t : moment) : Z := (t / (86400 * SECOND))%Z.

(** The exceptions of a database session that reach a handler. *)
Definition of_db {A} (r : result Registry.db_error A) : result exn A :=
  match r with
  | Ok a => Ok a
  | Err Registry.IntegrityError => Err IntegrityError
  | Err Registry.ValueError => Err ValueError
  end.

Section saml.
Context {R : Type} `{RedisServer R} {Priv Pub : Type} `{RsaLib Priv Pub} `{ZlibLib}.

Abbreviation M := (Site.M (R := R)).

(** The settings the handlers read, the keys, and the functions of other packages. *)
Record App : Type := {
  saml_entity_id : string;
  saml_acs_url : string;
  saml_sso_url : string;
  saml_default_idp : option string;
  saml_clock_skew : duration;
  scope : string;
  sp_private_pem : string;
  decryption_keys : list string;
  fromstring : Parser.etree_parser;
  verifier : Signature.xml_verifier;
  crypto : Encryption.crypto;
  certificate_ok : string -> bool;
  validate_metadata : string -> Metadata.schema_answer;
  metadata_fromstring : Parser.etree_parser;
  tostring : Xml.element -> string;
  load_pem_private_key : string -> result exn (option Priv);
  sha256_hex : string -> string;
  digest32 : string -> string;
  draw : nat -> string;
  draw_hex : nat -> string;
  draw_uuid : nat -> string;
  auth_rate_per_address : Z;
  auth_rate_per_account : Z;
  auth_rate_window : Z;
}.
Context (app : App).

Definition gate_policy : Gate.GatePolicy :=
  {| Gate.audience := saml_entity_id app; Gate.destination := saml_acs_url app; Gate.clock_skew := saml_clock_skew app;
     Gate.max_authn_age := None |}.

Definition describe (tbl : list Registered.FederationEntity) (id : string) (now : moment) :=
  Registered.describe (certificate_ok app) (validate_metadata app) (metadata_fromstring app) tbl id now.
Definition resolve_trusted_idp (tbl : list Registered.FederationEntity) (now : moment) (id : string) :=
  Registered.resolve_trusted_idp (certificate_ok app) (validate_metadata app) (metadata_fromstring app) tbl id now.

Definition federation : M (list Registered.FederationEntity) := fun w => (w, Ok (w_federation w)).

(** ** Starting a login *)

Definition start_sso (q : Request) (idp return_to : option string) : M Response :=
  try_else (lift (local_path return_to)) broker_reason (fun _ => reject None)
    (fun destination =>
       match (match Metadata.truthy idp with Some i => Some i | None => saml_default_idp app end) with
       | None =>
           ret (redirect ("/disco?" +:+ Url.urlencode [("return", saml_sso_url app); ("returnIDParam", "idp")]) [] [])
       | Some entity_id =>
           get* now := get_now in get* tbl := federation in
           get* descriptor := lift (describe tbl entity_id now) in
           match descriptor with
           | None => reject None
           | Some descriptor =>
               get* url := lift (Metadata.redirect_sso_url descriptor) in
               get* hex := fresh (draw_hex app) in get* state := fresh (draw app) in
               get* prepared := lift (AuthnRequest.prepare_redirect (tostring app) (load_pem_private_key app)
                 (AuthnRequest.default_policy (saml_entity_id app) (saml_acs_url app)) url (sp_private_pem app) None None now
                 AuthnRequest.RSA_SHA256_SIG_ALG hex state) in
               get* chain := correlation in
               then* redis (Pending.request_remember
                 {| Pending.request_id := AuthnRequest.request_id prepared;
                    Pending.idp_entity_id := Metadata.entity_id descriptor;
                    Pending.relay_state := AuthnRequest.relay_state prepared; Pending.created_at := now;
                    Pending.return_to := destination; Pending.correlation_id := Some chain |} REQUEST_TTL);
               get* nonce := fresh (draw app) in
               then* redis (redis_set (_binding_key (AuthnRequest.relay_state prepared)) (SText nonce) (whole_seconds REQUEST_TTL));
               then* audit Events.AUTH_REQUEST Events.SUCCESS
                 {| t_actor := None; t_subject := None; t_target := Some (Metadata.entity_id descriptor); t_reason := None;
                    t_session_id := None;
                    t_detail := [("request_id", JStr (AuthnRequest.request_id prepared)); ("protocol", JStr "saml")] |} (_provenance q);
               ret (redirect (AuthnRequest.redirect_url prepared) [] [set_request_binding_cookie nonce])
           end
       end).

(** ** Receiving the answer *)

Definition throttled (e : exn) : option (string * string * Z) :=
  match e with Throttled reason bucket wait => Some (reason, bucket, wait) | _ => None end.

Definition check_throttle (address : option string) : M unit :=
  get* now := get_now in
  redis (Throttle.check (digest32 app) (auth_rate_per_address app) (auth_rate_per_account app) (auth_rate_window app) address None now).

Definition _too_many (wait : Z) (reference : string) : Response :=
  json_response 429 (JObj [("error", JStr "too_many_requests"); ("reference", JStr reference)])
    [("Retry-After", Py.str_of_Z wait); ("Cache-Control", "no-store")].

Definition invalid_binding : exn := SamlRejected REQUEST_BINDING_INVALID.

(** The value behind the key is text that [/saml/sso] wrote; another kind of value
    counts as unequal. *)
Definition assert_request_binding (q : Request) (relay_state : option string) : M unit :=
  match relay_state with
  | None => throw invalid_binding
  | Some relay_state =>
      let presented := Dict.get (rq_cookies q) REQUEST_BINDING_COOKIE in
      get* expected := redis (redis_getdel (_binding_key relay_state)) in
      match presented, expected with
      | Some presented, Some (SText expected) =>
          get* same := lift (compare_digest presented expected) in
          if same then ret tt else throw invalid_binding
      | _, _ => throw invalid_binding
      end
  end.

(** [gate.validate(document)], with every reading of the clock at this moment. *)
Definition gate_validate (document : string) : M Gate.AssertionFacts :=
  get* now := get_now in get* tbl := federation in
  redis (Gate.validate gate_policy (resolve_trusted_idp tbl now) (decryption_keys app) (fromstring app) (verifier app) (crypto app)
    {| Gate.at_conditions := now; Gate.at_confirmation := now; Gate.at_authn := now; Gate.at_replay := now |} document).

Definition resolve_identity (a : Registry.Assertion) : M Registry.Resolution :=
  get* now := get_now in
  get* uuid := fresh (draw_uuid app) in get* hex := fresh (draw_hex app) in
  fun w =>
    match Registry.resolve (scope app) {| Registry.fresh_uuid := uuid; Registry.fresh_hex := hex |} (w_identity w) a now with
    | Ok (s, r) => (set_identity s w, Ok r)
    | Err e => (w, of_db (Err e))
    end.

Definition _resolve_person (facts : Gate.AssertionFacts) : M string :=
  get* resolution := resolve_identity (Registry.from_saml (Gate.issuer facts) (Gate.name_id facts) (Gate.attributes facts)) in
  match Registry.re_person resolution with
  | None => throw (BrokerError IDENTITY_REVIEW_REQUIRED)
  | Some person_uuid => fun w =>
      match Registry.get (w_identity w) person_uuid with
      | Some person =>
          if String.eqb (Registry.status person) Registry.STATUS_ACTIVE then (w, Ok person_uuid)
          else (w, Err (BrokerError IDENTITY_SUSPENDED))
      | None => (w, Ok person_uuid)
      end
  end.

(** The attributes the session carries. *)
Definition session_attributes (facts : Gate.AssertionFacts) (person_uuid : string) : M (list (string * list string)) := fun w =>
  (w, Ok (Merge.merge (Gate.attributes facts)
            (Merge.registry_attributes (w_identity w) (w_lifecycle w) person_uuid (scope app) (today (w_now w))) (scope app))).

Definition login_of (facts : Gate.AssertionFacts) (attributes : list (string * list string)) (person_uuid : string) : Sessions.login := {|
  Sessions.lg_idp_entity_id := Gate.issuer facts; Sessions.lg_name_id := Gate.name_id facts;
  Sessions.lg_name_id_format := Gate.name_id_format facts;
  Sessions.lg_auth_time := Some (IsoTime.instant (Gate.authn_instant facts)); Sessions.lg_acr := Gate.authn_context facts;
  Sessions.lg_amr := ["pwd"]; Sessions.lg_session_index := Gate.session_index facts; Sessions.lg_attributes := attributes;
  Sessions.lg_person_uuid := Some person_uuid; Sessions.lg_impersonated_by := None |}.

Definition create_session (lg : Sessions.login) : M Sessions.Session :=
  get* now := get_now in get* sid := fresh (draw app) in
  redis (Sessions.create (sha256_hex app) Sessions.IDLE_TIMEOUT Sessions.ABSOLUTE_TIMEOUT Sessions.SESSION_KEY_PREFIX sid lg now now).

(** What a refusal is recorded as. *)
Definition refused (reason : string) (target : option string) (detail : list (string * json)) : told :=
  {| t_actor := None; t_subject := None; t_target := target; t_reason := Some reason; t_session_id := None; t_detail := detail |}.
Definition seated (s : Sessions.Session) (issuer : string) (detail : list (string * json)) : told :=
  {| t_actor := Some (Sessions.subject_key s); t_subject := Some (Sessions.subject_key s); t_target := Some issuer;
     t_reason := None; t_session_id := Some (Sessions.s_sid s); t_detail := detail |}.

Definition receive (q : Request) (response : string) (relay_state : option string) : M Gate.AssertionFacts :=
  then* assert_request_binding q relay_state;
  get* document := lift (_decode response) in
  gate_validate document.

(** [facts.correlation_id] joins the chain the login started in. *)
Definition rejoin (facts : Gate.AssertionFacts) (reference : string) : M string :=
  match Metadata.truthy (Gate.f_correlation_id facts) with
  | Some chain => then* set_correlation_id chain; ret chain
  | None => ret reference
  end.

Definition seat (q : Request) (facts : Gate.AssertionFacts) (person_uuid : string) : M Response :=
  get* attributes := session_attributes facts person_uuid in
  get* session := create_session (login_of facts attributes person_uuid) in
  then* audit Events.AUTH_SUCCESS Events.SUCCESS (seated session (Gate.issuer facts)
    [("acr", Codec.of_opt_str (Gate.authn_context facts)); ("attributes", Sessions.of_attributes attributes)]) (_provenance q);
  then* audit Events.SESSION_CREATED Events.SUCCESS (seated session (Gate.issuer facts) []) (_provenance q);
  ret (redirect (default DEFAULT_LANDING (Metadata.truthy (Gate.f_return_to facts))) []
    [set_session_cookie (Sessions.s_sid session); clear_request_binding_cookie]).

Definition assertion_consumer_service (q : Request) (SAMLResponse : string) (RelayState : option string) : M Response :=
  get* reference := correlation in
  try_else (check_throttle (rq_address q)) throttled
    (fun '(reason, bucket, wait) =>
       then* audit Events.AUTH_FAILURE Events.DENIED (refused reason None [("bucket", JStr bucket)]) (_provenance q);
       ret (_too_many wait reference))
    (fun _ =>
       try_else (receive q SAMLResponse RelayState) broker_reason
         (fun reason =>
            then* audit Events.AUTH_FAILURE Events.FAILURE (refused (reason_text reason) None []) (_provenance q);
            reject (Some reference))
         (fun facts =>
            get* reference := rejoin facts reference in
            try_else (_resolve_person facts) broker_reason
              (fun reason =>
                 then* audit Events.AUTH_FAILURE Events.FAILURE
                   (refused (reason_text reason) (Some (Gate.issuer facts)) []) (_provenance q);
                 reject (Some reference))
              (seat q facts))).

(** ** The session page *)

Definition whoami (q : Request) : M Response :=
  get* now := get_now in
  get* session :=
    match Metadata.truthy (Dict.get (rq_cookies q) SESSION_COOKIE) with
    | Some sid => load_session (Sessions.load (sha256_hex app) Sessions.IDLE_TIMEOUT Sessions.ABSOLUTE_TIMEOUT Sessions.SESSION_KEY_PREFIX sid now)
    | None => ret None
    end in
  match session with
  | None => ret (json_response 401 (JObj [("authenticated", JBool false)]) [])
  | Some s => ret (json_response 200 (JObj [
      ("authenticated", JBool true); ("subject", JStr (Sessions.subject_key s)); ("name_id", JStr (Sessions.s_name_id s));
      ("idp", JStr (Sessions.s_idp_entity_id s)); ("acr", Codec.of_opt_str (Sessions.s_acr s));
      ("auth_time", JIso (Sessions.s_auth_time s)); ("attributes", Sessions.of_attributes (Sessions.s_attributes s))]) [])
  end.

(** ** How an answer ends *)

(** The world with one more audit record. *)
Definition recorded (ty : Events.EventType) (outcome : Events.Outcome) (t : told) (q : Request) (w : world R) : world R :=
  (audit ty outcome t (_provenance q) w).1.

Lemma throttle_same address (w w' : world R) out : check_throttle address w = (w', out) ->
  exists r, w' = set_redis r w.
Proof. unfold check_throttle, bind, get_now. rewrite redis_run. intros [= <- _]. by eexists. Qed.

Lemma binding_world q relay (w w' : world R) out : assert_request_binding q relay w = (w', out) ->
  w' = match relay with
       | Some rs => set_redis (run (redis_getdel (_binding_key rs)) (w_redis w) (w_now w)).1 w
       | None => w
       end.
Proof.
  unfold assert_request_binding. destruct relay as [rs|]; [|by intros [= <- _]].
  unfold bind at 1. rewrite redis_run. set (w1 := set_redis _ w). intros E.
  destruct (run _ _ _).2 as [expected|e]; [|by injection E as <- _].
  destruct (Dict.get _ _) as [presented|]; [|by injection E as <- _].
  destruct expected as [[expected| |]|]; [|by injection E as <- _..].
  unfold bind, lift in E. destruct (compare_digest _ _) as [[]|]; by injection E as <- _.
Qed.
Lemma binding_same q relay (w w' : world R) out : assert_request_binding q relay w = (w', out) -> exists r, w' = set_redis r w.
Proof. intros ->%binding_world. destruct relay; [by eexists|]. exists (w_redis w). by destruct w. Qed.

Lemma receive_same q response relay (w w' : world R) out : receive q response relay w = (w', out) -> exists r, w' = set_redis r w.
Proof.
  unfold receive, bind at 1. destruct (assert_request_binding q relay w) as [w1 [[]|e]] eqn:E.
  2: { intros [= <- _]. by eapply binding_same. }
  apply binding_same in E as [r ->]. unfold bind, lift. destruct (_decode response) as [document|e]; [|intros [= <- _]; by exists r].
  unfold gate_validate, bind, get_now, federation. rewrite redis_run. intros [= <- _]. by eexists.
Qed.

Lemma resolve_same facts (w w' : world R) out : _resolve_person facts w = (w', out) ->
  exists s n, w' = set_draws n (set_identity s w).
Proof.
  assert (forall a v v' o, resolve_identity a v = (v', o) -> exists s n, v' = set_draws n (set_identity s v)) as Hr.
  { intros a v v' o. unfold resolve_identity, bind, get_now, fresh. cbn [w_identity set_draws].
    destruct (Registry.resolve _ _ _ _ _) as [[s r]|e]; intros [= <- _]; [by eexists _, _|by exists (w_identity v), (S (S (w_draws v)))]. }
  unfold _resolve_person, bind. destruct (resolve_identity _ w) as [w1 [r|e]] eqn:E; apply Hr in E as (s & n & ->); [|intros [= <- _]; eauto].
  destruct (Registry.re_person r) as [p|]; [|intros [= <- _]; eauto].
  destruct (Registry.get _ p) as [person|]; [|intros [= <- _]; eauto]. case_match; intros [= <- _]; eauto.
Qed.

Lemma reject_reference reference (w : world R) : w_correlation w = reference ->
  reject (Some reference) w = (w, Ok (reject_page reference)).
Proof. intros <-. unfold reject. by destruct (String.eqb_spec (w_correlation w) ""). Qed.

(** The four ways a response to the consumer service comes about. *)
Lemma acs_cases q response relay (w w' : world R) resp :
  assertion_consumer_service q response relay w = (w', Ok resp) ->
  (exists w1 reason bucket wait, check_throttle (rq_address q) w = (w1, Err (Throttled reason bucket wait)) /\
     w' = recorded Events.AUTH_FAILURE Events.DENIED (refused reason None [("bucket", JStr bucket)]) q w1 /\
     resp = _too_many wait (w_correlation w)) \/
  exists w1, check_throttle (rq_address q) w = (w1, Ok tt) /\
  ((exists w2 e reason, receive q response relay w1 = (w2, Err e) /\ broker_reason e = Some reason /\
     w' = recorded Events.AUTH_FAILURE Events.FAILURE (refused (reason_text reason) None []) q w2 /\
     resp = reject_page (w_correlation w)) \/
   exists w2 facts w3, receive q response relay w1 = (w2, Ok facts) /\
     w3 = match Metadata.truthy (Gate.f_correlation_id facts) with Some chain => set_correlation chain w2 | None => w2 end /\
   ((exists w4 e reason, _resolve_person facts w3 = (w4, Err e) /\ broker_reason e = Some reason /\
       w' = recorded Events.AUTH_FAILURE Events.FAILURE (refused (reason_text reason) (Some (Gate.issuer facts)) []) q w4 /\
       resp = reject_page (w_correlation w3)) \/
    exists w4 person, _resolve_person facts w3 = (w4, Ok person) /\ seat q facts person w4 = (w', Ok resp))).
Proof.
  unfold assertion_consumer_service, bind at 1, correlation.
  intros [(w1 & [] & Hth & E)|(w1 & e & [[reason bucket] wait] & Hth & Hc & E)]%try_ok; [right; exists w1; split; [done|]|left].
  2: { destruct e; try done. injection Hc as <- <- <-. injection E as <- <-. by eexists _, _, _, _. }
  apply throttle_same in Hth as [r ->]. apply try_ok in E as [(w2 & facts & Hrec & E)|(w2 & e & reason & Hrec & Hc & E)]; [right|left].
  2: { pose proof Hrec as Hs. apply receive_same in Hs as [r2 ->]. unfold bind at 1, audit in E. rewrite reject_reference in E by done.
       injection E as <- <-. by eexists _, _, _. }
  pose proof Hrec as Hs. apply receive_same in Hs as [r2 ->].
  set (w3 := match Metadata.truthy (Gate.f_correlation_id facts) with
    | Some chain => set_correlation chain (set_redis r2 (set_redis r w)) | None => set_redis r2 (set_redis r w) end).
  exists (set_redis r2 (set_redis r w)), facts, w3. split_and!; [done..|].
  assert (rejoin facts (w_correlation w) (set_redis r2 (set_redis r w)) = (w3, Ok (w_correlation w3))) as Hj.
  { unfold rejoin, w3. by destruct (Metadata.truthy _). }
  unfold bind at 1 in E. rewrite Hj in E. clearbody w3.
  apply try_ok in E as [(w4 & p & Hp & E)|(w4 & e & reason & Hp & Hc & E)]; [right; by exists w4, p|left].
  pose proof Hp as Hs. apply resolve_same in Hs as (s & n & ->). unfold bind at 1, audit in E.
  rewrite reject_reference in E by done. injection E as <- <-. by eexists _, _, _.
Qed.

(** ** A session is earned *)

Context {laws : RedisLaws R}.

Lemma acs_throttle_frame address (w w' : world R) out k :
  check_throttle address w = (w', out) -> ~ Throttle.counter_key k ->
  r_view (w_redis w') (w_now w) k = r_view (w_redis w) (w_now w) k.
Proof.
  unfold check_throttle, bind, get_now. rewrite redis_run. intros [= <- _] Hk. cbn.
  by apply (run_frame Throttle.counter_key); [apply Throttle.check_touches|..].
Qed.


Lemma create_writes sid lg now (r r' : R) s :
  Py.has_char ":" sid = false ->
  run (Sessions.create (sha256_hex app) Sessions.IDLE_TIMEOUT Sessions.ABSOLUTE_TIMEOUT Sessions.SESSION_KEY_PREFIX sid lg now now) r now = (r', Ok s) ->
  s = Sessions.new_session Sessions.ABSOLUTE_TIMEOUT sid lg now /\ Sessions.stored (r_view r' now) sid = Some s.
Proof.
  intros Hsid. unfold Sessions.create, Sessions._write. set (s0 := Sessions.new_session _ _ _ _).
  set (index := Sessions._subject_key _ _). set (key := Sessions._key _ _). set (ttl := ttl_seconds _).
  rewrite !run_bind. unfold redis_set. cbn [run]. pose proof (exec_view_own r now now (SET key (SJson (Sessions.to_json s0)) false (Some ttl)) ltac:(lia)) as Hv.
  destruct (r_exec r now _) as [r1 rep] eqn:Ex. cbn in Hv.
  pose proof (r_exec_reply r now (SET key (SJson (Sessions.to_json s0)) false (Some ttl))) as Hr. rewrite Ex in Hr. cbn in Hr.
  destruct (ttl <=? 0)%Z eqn:Ettl; subst rep; [done|]. cbn [run]. set (rest := pbind (set_add _ _) _).
  assert (touches (eq index) rest) as Hrest.
  { unfold rest. apply touches_bind; [|intros _]; [unfold set_add|unfold expire_key];
      (apply touches_bind; [|done]; split; [done|by intros []]). }
  pose proof (run_frame (eq index) rest r1 now now key Hrest) as Hf. clearbody rest. cbn [fst snd run].
  destruct (run rest r1 now) as [r2 [[]|e]]; [|done]. intros [= <- <-]. split; [done|].
  apply (Sessions.stored_wrote _ s0 (Some (now + ttl * SECOND)%Z)). change (Sessions._key _ _) with key. cbn in Hf. rewrite Hf, Hv.
  - apply Z.leb_gt in Ettl. cbn [fst]. rewrite age_live; [done|]. unfold SECOND. lia.
  - intros E. by eapply Sessions.key_index_ne; [exact Hsid|symmetry; exact E].
  - lia.
Qed.

Lemma seat_ok q facts person (w w' : world R) resp :
  (forall n, Py.has_char ":" (draw app n) = false) ->
  seat q facts person w = (w', Ok resp) ->
  exists s,
    resp = redirect (default DEFAULT_LANDING (Metadata.truthy (Gate.f_return_to facts))) []
      [set_session_cookie (Sessions.s_sid s); clear_request_binding_cookie] /\
    s = Sessions.new_session Sessions.ABSOLUTE_TIMEOUT (draw app (w_draws w))
          (login_of facts (Merge.merge (Gate.attributes facts)
            (Merge.registry_attributes (w_identity w) (w_lifecycle w) person (scope app) (today (w_now w))) (scope app)) person) (w_now w) /\
    Sessions.stored (r_view (w_redis w') (w_now w')) (Sessions.s_sid s) = Some s /\
    w_now w' = w_now w /\ w_identity w' = w_identity w /\ w_lifecycle w' = w_lifecycle w /\
    (AuditLog.en_type ∘ snd) <$> w_audit w' = ((AuditLog.en_type ∘ snd) <$> w_audit w) ++ [Events.AUTH_SUCCESS; Events.SESSION_CREATED].
Proof.
  intros Hd. unfold seat, session_attributes. unfold bind at 1. set (attributes := Merge.merge _ _ _).
  unfold bind at 1, create_session, get_now, fresh. unfold bind at 1 2. rewrite redis_run. cbn [w_redis w_now set_draws].
  destruct (run _ _ _) as [r1 [s|e]] eqn:Er; [|done]. apply create_writes in Er as [-> Hs]; [|apply Hd].
  cbn [fst snd]. unfold bind, audit, ret. intros [= <- <-]. eexists (Sessions.new_session _ _ _ _). split; [reflexivity|]. split; [reflexivity|]. split; [exact Hs|]. split_and!; [done..|]. cbn. by rewrite !fmap_app, <-app_assoc.
Qed.

Definition gate_key (k : string) : Prop :=
  (exists id, k = Pending.REQUEST_KEY_PREFIX +:+ id) \/ exists id, k = Pending.REPLAY_KEY_PREFIX +:+ id.







(** ** A refusal *)

Lemma touches_lift {A B} K (m : result exn A) (k : A -> prog B) :
  (forall a, touches K (k a)) -> touches K (pbind (Codec.lift m) k).
Proof. intros Hk. destruct m; [apply Hk|done]. Qed.

Lemma gate_touches resolve rd document :
  touches gate_key (Gate.validate gate_policy resolve (decryption_keys app) (fromstring app) (verifier app) (crypto app) rd document).
Proof.
  unfold Gate.validate. repeat (apply touches_lift; intros ?). apply touches_bind.
  - unfold Gate._consume_request. destruct (Xml.get _ _) as [irt|]; [|by case_match]. apply touches_bind; [|intros [q0|]; [by case_match|done]].
    unfold Pending.request_consume. apply touches_bind; [split; [left; by eexists|by intros []]|]. intros [raw|]; [|done].
    by apply touches_lift.
  - intros request. repeat (apply touches_lift; intros ?). apply touches_bind.
    + unfold Gate._check_replay. apply touches_lift. intros id. apply touches_bind; [|intros []; done].
      split; [right; by eexists|by intros []].
    + intros []. by repeat (apply touches_lift; intros ?).
Qed.

(** The keys a refused answer may have used up. *)
Definition spent_key (k : string) : Prop := Throttle.counter_key k \/ gate_key k \/ exists rs, k = _binding_key rs.

Lemma session_key_unspent k : Py.startswith k Sessions.SESSION_KEY_PREFIX = true -> ~ spent_key k.
Proof. by intros Hk [[x ->]|[[[x ->]|[x ->]]|[x ->]]]. Qed.

Lemma receive_frame q response relay (w w' : world R) out k : receive q response relay w = (w', out) -> ~ spent_key k ->
  r_view (w_redis w') (w_now w) k = r_view (w_redis w) (w_now w) k.
Proof.
  intros E Hk. unfold receive, bind at 1 in E.
  assert (forall v v' o, assert_request_binding q relay v = (v', o) -> r_view (w_redis v') (w_now v) k = r_view (w_redis v) (w_now v) k) as Hb.
  { intros v v' o ->%binding_world. destruct relay as [rs|]; [|done]. cbn [w_redis set_redis].
    apply (run_frame (eq (_binding_key rs))); [split; [done|by intros []]| |done]. intros <-. apply Hk. right. right. by exists rs. }
  destruct (assert_request_binding q relay w) as [w1 [[]|e]] eqn:Eb; [|injection E as <- _; by eapply Hb].
  rewrite <-(Hb _ _ _ Eb). apply binding_same in Eb as [r ->]. unfold bind, lift in E.
  destruct (_decode response) as [document|e]; [|by injection E as <- _].
  unfold gate_validate, bind, get_now, federation in E. rewrite redis_run in E. injection E as <- _. cbn [w_redis set_redis].
  apply (run_frame gate_key); [apply gate_touches| |done]. intros Hg. apply Hk. right. by left.
Qed.

(** C16: An answer that does not end in a session is refused in one shape: the error
    page with the reference of the chain, or the request to wait.  Nothing else is
    said, no cookie is set, one failure is recorded under that reference, and
    every session stays as it was. *)
Theorem refusals_are_uniform q response relay (w w' : world R) resp :
  (forall n, Py.has_char ":" (draw app n) = false) ->
  assertion_consumer_service q response relay w = (w', Ok resp) ->
  (forall sid, set_session_cookie sid ∉ rs_cookies resp) ->
  exists reference,
    (resp = reject_page reference \/ exists wait, resp = _too_many wait reference) /\
    (exists e, w_audit w' = w_audit w ++ [({| AuditLog.cx_correlation_id := Some reference; AuditLog.cx_impersonator := w_impersonator w |}, e)] /\
       AuditLog.en_type e = Events.AUTH_FAILURE /\ AuditLog.en_outcome e <> Events.SUCCESS /\ AuditLog.en_actor e = None /\
       AuditLog.en_session_id e = None) /\
    forall k, Py.startswith k Sessions.SESSION_KEY_PREFIX = true ->
      r_view (w_redis w') (w_now w) k = r_view (w_redis w) (w_now w) k.
Proof.
  intros Hd E Hno. apply acs_cases in E as [(w1 & reason & bucket & wait & Hth & -> & ->)|(w1 & Hth & E)].
  - exists (w_correlation w). split; [right; by eexists|]. pose proof Hth as Hs. apply throttle_same in Hs as [r ->].
    split; [eexists; split; [done|by split_and!]|]. intros k Hk%session_key_unspent.
    apply (acs_throttle_frame _ _ _ _ _ Hth). intros Hc. apply Hk. by left.
  - assert (forall k, Py.startswith k Sessions.SESSION_KEY_PREFIX = true ->
      r_view (w_redis w1) (w_now w) k = r_view (w_redis w) (w_now w) k) as Hf.
    { intros k Hk%session_key_unspent. apply (acs_throttle_frame _ _ _ _ _ Hth). intros Hc. apply Hk. by left. }
    apply throttle_same in Hth as [r ->].
    destruct E as [(w2 & e & reason & Hrec & _ & -> & ->)|(w2 & facts & w3 & Hrec & Hw3 & E)].
    + exists (w_correlation w). split; [by left|]. pose proof Hrec as Hs. apply receive_same in Hs as [r2 ->].
      split; [eexists; split; [done|by split_and!]|]. intros k Hk. rewrite <-Hf by done.
      apply (receive_frame _ _ _ _ _ _ _ Hrec). by apply session_key_unspent.
    + pose proof Hrec as Hs. apply receive_same in Hs as [r2 ->].
      destruct E as [(w4 & e & reason & Hp & _ & -> & ->)|(w4 & person & Hp & E)].
      * exists (w_correlation w3). split; [by left|]. apply resolve_same in Hp as (s & n & ->).
        assert (w_audit w3 = w_audit w /\ w_impersonator w3 = w_impersonator w /\ w_redis w3 = r2) as (Ha & Him & Hr)
          by (rewrite Hw3; by destruct (Metadata.truthy _)).
        split; [eexists; split; [cbn; by rewrite Ha, Him|by split_and!]|]. intros k Hk. cbn. rewrite Hr, <-Hf by done.
        apply (receive_frame _ _ _ _ _ _ _ Hrec). by apply session_key_unspent.
      * apply seat_ok in E as (s & -> & _); [|done]. exfalso. apply (Hno (Sessions.s_sid s)). constructor.
Qed.

(** ** Where a login lands *)

(** What [local_path] lets through. *)
Definition local (u : string) : Prop :=
  Py.startswith u "/" = true /\ Py.startswith u "//" = false /\ Py.contains u backslash = false /\ Py.contains u "://" = false.

Lemma local_path_ok o u : local_path o = Ok (Some u) -> local u.
Proof.
  unfold local_path. destruct o as [c|]; [|done]. destruct (negb _ || _ || _ || _) eqn:E; [done|]. intros [= <-].
  apply orb_false_iff in E as [E H3]. apply orb_false_iff in E as [E H2]. apply orb_false_iff in E as [H0' E].
  apply orb_false_iff in E as [H1' _]. by apply negb_false_iff in H0'.
Qed.

Abbreviation RP := Pending.REQUEST_KEY_PREFIX.

(** The outstanding requests the server holds would send a browser to a local path. *)
Definition returns_local (v : kview) : Prop :=
  forall k sc d request u, Py.startswith k RP = true -> v k = Some (Entry (VScalar sc) d) ->
    Pending.request_from_json sc = Ok request -> Pending.return_to request = Some u -> local u.

(** A command that cannot break this: on another key, a fetch-and-delete, or a
    request with a local return. *)
Definition harmless (c : cmd) : Prop :=
  Py.startswith (cmd_key c) RP = false \/ (exists k, c = GETDEL k) \/
  exists k request ttl, c = SET k (SJson (Pending.request_to_json request)) false (Some ttl) /\
    forall u, Pending.return_to request = Some u -> local u.

Fixpoint all_commands {A} (C : cmd -> Prop) (p : prog A) : Prop :=
  match p with Ret _ | Throw _ => True | Do c k => C c /\ forall rep, all_commands C (k rep) end.

Lemma all_commands_bind {A B} C (p : prog A) (f : A -> prog B) :
  all_commands C p -> (forall a, all_commands C (f a)) -> all_commands C (pbind p f).
Proof. intros Hp Hf. induction p as [a|e|c k IH]; simpl in *; [apply Hf|done|naive_solver]. Qed.
Lemma touches_commands {A} K (C : cmd -> Prop) (p : prog A) : (forall c, K (cmd_key c) -> C c) -> touches K p -> all_commands C p.
Proof. intros HK. induction p as [a|e|c k IH]; simpl; [done..|]. intros [Hc Hk]. split; [by apply HK|]. naive_solver. Qed.

Lemma exec_returns c (r : R) t : harmless c -> returns_local (r_view r t) -> returns_local (r_view (r_exec r t c).1 t).
Proof.
  intros Hc Hr k sc d request u Hk Hv Hq Hu. rewrite exec_view in Hv by lia. case_decide as E; [subst k|by eapply Hr].
  apply age_Some in Hv as [Hv _].
  destruct Hc as [Hc|[[k ->]|(k & rq & ttl & -> & Hl)]]; [congruence| |]; cbn [cmd_key] in Hv, Hk.
  - by destruct (r_view r t k) as [[[s|s] d']|] eqn:Ev; cbn in Hv.
  - cbn [key_step andb] in Hv. destruct (ttl <=? 0)%Z; cbn [fst] in Hv; [by eapply Hr|].
    injection Hv as <- <-. rewrite Pending.request_roundtrip in Hq. injection Hq as <-. by apply Hl.
Qed.

Lemma run_returns {A} (p : prog A) (r : R) t :
  all_commands harmless p -> returns_local (r_view r t) -> returns_local (r_view (run p r t).1 t).
Proof.
  revert r. induction p as [a|e|c k IH]; intros r Hp Hr; [done..|]. destruct Hp as [Hc Hk]. simpl.
  pose proof (exec_returns c r t Hc Hr) as Hr'. destruct (r_exec r t c) as [r' rep]. by apply IH.
Qed.

Definition safe (w : world R) : Prop := returns_local (r_view (w_redis w) (w_now w)).

Lemma preserves_redis {A} (p : prog A) : all_commands harmless p -> preserves safe (redis p).
Proof. intros Hp w Hw. rewrite redis_run. unfold safe. cbn [fst w_redis w_now set_redis]. by apply run_returns. Qed.
Lemma preserves_same {A} (m : M A) : keeps w_redis m -> keeps w_now m -> preserves safe m.
Proof. intros Hr Hn w Hw. unfold safe. by rewrite Hr, Hn. Qed.

(** The keys of the other stores. *)
Lemma counter_harmless c : Throttle.counter_key (cmd_key c) -> harmless c.
Proof. intros [x E]. left. by rewrite E. Qed.
Lemma session_harmless c : Py.startswith (cmd_key c) Sessions.SESSION_KEY_PREFIX = true -> harmless c.
Proof. intros [x E]%Py.startswith_spec. left. by rewrite E. Qed.

Lemma throttle_safe address : preserves safe (check_throttle address).
Proof.
  unfold check_throttle. apply preserves_bind; [by apply preserves_same|intros now]. apply preserves_redis.
  eapply touches_commands; [apply counter_harmless|apply Throttle.check_touches].
Qed.

Lemma remember_safe request ttl :
  (forall u, Pending.return_to request = Some u -> local u) -> preserves safe (redis (Pending.request_remember request ttl)).
Proof. intros Hl. apply preserves_redis. split; [|by intros []]. right. right. by eexists _, _, _. Qed.

Lemma binding_write_safe rs nonce ttl : preserves safe (redis (redis_set (_binding_key rs) (SText nonce) ttl)).
Proof. apply preserves_redis. split; [by left|by intros []]. Qed.

Lemma start_sso_safe q idp return_to : preserves safe (start_sso q idp return_to).
Proof.
  intros w Hw. unfold start_sso, try_else, lift. destruct (local_path return_to) as [destination|e] eqn:El.
  2: { by destruct (broker_reason e). }
  assert (forall u, destination = Some u -> local u) as Hl by (intros u ->; by eapply local_path_ok).
  revert w Hw. destruct (match Metadata.truthy idp with Some _ => _ | None => _ end) as [entity_id|]; [|by intros w].
  fold (preserves (R := R) (A := Response) safe).
  apply preserves_bind; [by apply preserves_same|intros now]. apply preserves_bind; [by apply preserves_same|intros tbl].
  apply preserves_bind; [apply preserves_lift|intros [descriptor|]; [|by apply preserves_same]].
  apply preserves_bind; [apply preserves_lift|intros url]. apply preserves_bind; [by apply preserves_same|intros hex].
  apply preserves_bind; [by apply preserves_same|intros state]. apply preserves_bind; [apply preserves_lift|intros prepared].
  apply preserves_bind; [by apply preserves_same|intros chain]. apply preserves_bind; [by apply remember_safe|intros []].
  apply preserves_bind; [by apply preserves_same|intros nonce]. apply preserves_bind; [apply binding_write_safe|intros []].
  by apply preserves_same.
Qed.

Lemma gate_safe document : preserves safe (gate_validate document).
Proof.
  unfold gate_validate. apply preserves_bind; [by apply preserves_same|intros now]. apply preserves_bind; [by apply preserves_same|intros tbl].
  apply preserves_redis. unfold Gate.validate.
  assert (forall A B (m : result exn A) (k : A -> prog B), (forall a, all_commands harmless (k a)) -> all_commands harmless (pbind (Codec.lift m) k)) as Hl
    by (intros A B m k Hk; destruct m; [apply Hk|done]).
  repeat (apply Hl; intros ?). apply all_commands_bind.
  - unfold Gate._consume_request. destruct (Xml.get _ _) as [irt|]; [|by case_match]. apply all_commands_bind; [|intros [q0|]; [by case_match|done]].
    unfold Pending.request_consume. apply all_commands_bind; [split; [right; left; by eexists|by intros []]|]. intros [raw|]; [|done]. by apply Hl.
  - intros request. repeat (apply Hl; intros ?). apply all_commands_bind; [|intros []; by repeat (apply Hl; intros ?)].
    unfold Gate._check_replay. apply Hl. intros id. apply all_commands_bind; [|by intros []]. split; [by left|by intros []].
Qed.

Lemma binding_safe q relay : preserves safe (assert_request_binding q relay).
Proof.
  intros w Hw. destruct (assert_request_binding q relay w) as [w' out] eqn:E. apply binding_world in E as ->.
  destruct relay as [rs|]; [|done]. unfold safe. cbn [fst w_redis w_now set_redis]. apply run_returns; [|done].
  split; [right; left; by eexists|by intros []].
Qed.

Lemma acs_safe q response relay : preserves safe (assertion_consumer_service q response relay).
Proof.
  unfold assertion_consumer_service. apply preserves_bind; [by apply preserves_same|intros reference].
  apply preserves_try; [apply throttle_safe|intros [[reason bucket] wait]; by apply preserves_same|intros []].
  apply preserves_try; [|intros reason; by apply preserves_same|intros facts].
  - unfold receive. apply preserves_bind; [apply binding_safe|intros []; apply preserves_bind; [apply preserves_lift|intros document; apply gate_safe]].
  - apply preserves_bind; [apply preserves_same; unfold rejoin; keeps|intros reference'].
    apply preserves_try; [|intros reason; by apply preserves_same|intros person].
    + intros w Hw. destruct (_resolve_person facts w) as [w' out] eqn:E. by apply resolve_same in E as (s & n & ->).
    + unfold seat. apply preserves_bind; [by apply preserves_same|intros attributes].
      apply preserves_bind; [|intros s; by apply preserves_same]. unfold create_session.
      apply preserves_bind; [by apply preserves_same|intros now]. apply preserves_bind; [by apply preserves_same|intros sid].
      apply preserves_redis. apply (touches_commands (fun k => Py.startswith k Sessions.SESSION_KEY_PREFIX = true)); [apply session_harmless|]. unfold Sessions.create.
      apply touches_bind; [apply Sessions.write_touches|done].
Qed.

Lemma whoami_safe q : preserves safe (whoami q).
Proof.
  unfold whoami. apply preserves_bind; [by apply preserves_same|intros now]. apply preserves_bind; [|intros [s|]; by apply preserves_same].
  destruct (Metadata.truthy _) as [sid|]; [|by apply preserves_same]. intros w Hw. unfold load_session.
  pose proof (preserves_redis (Sessions.load (sha256_hex app) Sessions.IDLE_TIMEOUT Sessions.ABSOLUTE_TIMEOUT Sessions.SESSION_KEY_PREFIX sid now)
    ltac:(apply (touches_commands (fun k => Py.startswith k Sessions.SESSION_KEY_PREFIX = true)); [apply session_harmless|apply Sessions.load_touches]) w Hw) as Hs.
  destruct (redis _ w) as [w' [l|e]]; [|done]. cbn [fst] in *. by destruct (Sessions.l_impersonator l).
Qed.

(** What happens to the site: a login starts, an answer arrives, a session is
    shown, and anything else - the passage of time, the other routes, a change of
    the registries - that leaves the outstanding requests to run out. *)
Inductive visit : world R -> world R -> Prop :=
| visit_sso q idp return_to w : visit w (start_sso q idp return_to w).1
| visit_acs q response relay w : visit w (assertion_consumer_service q response relay w).1
| visit_me q w : visit w (whoami q w).1
| visit_other w w' :
    (forall k, Py.startswith k RP = true -> r_view (w_redis w') (w_now w') k = age (w_now w') (r_view (w_redis w) (w_now w) k)) ->
    visit w w'.

Lemma visit_safe w w' : visit w w' -> safe w -> safe w'.
Proof.
  intros [q idp ret v|q response relay v|q v|v v' Hk] Hs.
  - by apply start_sso_safe.
  - by apply acs_safe.
  - by apply whoami_safe.
  - intros k sc d request u Hp Hv. rewrite Hk in Hv by done. apply age_Some in Hv as [Hv _]. by eapply Hs.
Qed.

Lemma visits_safe w0 w : rtc visit w0 w -> safe w0 -> safe w.
Proof. induction 1 as [|w1 w2 w3 Hv _ IH]; [done|]. intros Hs. by apply IH, (visit_safe w1). Qed.

Lemma gate_return document (w w' : world R) facts url : safe w ->
  gate_validate document w = (w', Ok facts) -> Gate.f_return_to facts = Some url -> local url.
Proof.
  intros Hs. unfold gate_validate, bind, get_now, federation. rewrite redis_run. intros [= _ E] Hu.
  destruct (run _ _ _) as [r out] eqn:Er in E. cbn in E. subst out.
  apply Gate.accepted_steps in Er as (root & idp & assertion & request & _ & Hq & _ & _ & _ & _ & _ & _ & Hret & _); [|exact laws].
  rewrite Hret in Hu. unfold Gate.answering in Hq. destruct (Xml.get root "InResponseTo") as [irt|]; [|by destruct Hq as [-> _]].
  destruct Hq as (kept & d & q & Hk & Hj & -> & _). cbn in Hu. eapply Hs; [|exact Hk|exact Hj|exact Hu]. apply Py.startswith_app.
Qed.

(** However logins start and end, the browser that completes one is sent to the
    default page or to a path of this site: one slash, no second slash or
    backslash, no scheme. *)
Theorem logins_land_locally w0 w w' q response relay resp url :
  (forall n, Py.has_char ":" (draw app n) = false) ->
  (forall k, Py.startswith k RP = true -> r_view (w_redis w0) (w_now w0) k = None) ->
  rtc visit w0 w -> assertion_consumer_service q response relay w = (w', Ok resp) ->
  location resp = Some url -> url = DEFAULT_LANDING \/ local url.
Proof.
  intros Hd H0' Hr E Hl. assert (safe w) as Hs.
  { eapply visits_safe; [exact Hr|]. intros k sc d request u Hk Hv. by rewrite H0' in Hv. }
  apply acs_cases in E as [(? & ? & ? & ? & _ & _ & ->)|(w1 & Hth & [(? & ? & ? & _ & _ & _ & ->)|(w2 & facts & w3 & Hrec & _ & [(? & ? & ? & _ & _ & _ & ->)|(w4 & person & _ & E)])])];
    [done..|].
  apply seat_ok in E as (s & -> & _); [|done]. cbn in Hl. injection Hl as <-.
  destruct (Metadata.truthy (Gate.f_return_to facts)) as [u|] eqn:Eu; [right|by left]. cbn.
  assert (Gate.f_return_to facts = Some u) as Hu by (by destruct (Gate.f_return_to facts) as [[]|]).
  pose proof (throttle_safe (rq_address q) w Hs) as Hs1. rewrite Hth in Hs1. cbn in Hs1.
  unfold receive in Hrec. apply bind_ok in Hrec as (wb & [] & Hb & Hrec). apply bind_ok in Hrec as (wd & document & Hdoc & Hg).
  assert (wd = wb) as -> by (unfold lift in Hdoc; by injection Hdoc as <- _).
  assert (safe wb) as Hs2; [|by eapply gate_return].
  pose proof (binding_safe q relay w1 Hs1) as Hs2. by rewrite Hb in Hs2.
Qed.

End saml.

(** ** Witnesses *)

Section witnesses.
#[local] Existing Instance AuthnRequest.toy_zlib.

Definition demo_metadata : Parser.etree_parser := fun _ => Some (Registered.demo_entity [], "").
Definition demo_verifier : Signature.xml_verifier := fun doc cert cfg =>
  Gate.demo_verifier doc (if String.eqb cert (Metadata.pem_text "MIIC") then "cert" else "") cfg.
Definition demo_app : App (Priv := Z) := {|
  saml_entity_id := "https://sp.test"; saml_acs_url := "https://sp.test/acs"; saml_sso_url := "https://sp.test/saml/sso";
  saml_default_idp := None; saml_clock_skew := 180 * SECOND; scope := "campus.test"; sp_private_pem := "key"; decryption_keys := [];
  fromstring := Gate.demo_parser; verifier := demo_verifier; crypto := Gate.demo_lib; certificate_ok := fun _ => true;
  validate_metadata := fun _ => Metadata.Valid; metadata_fromstring := demo_metadata; tostring := AuthnRequest.toy_render;
  load_pem_private_key := AuthnRequest.toy_signing_key; sha256_hex := fun s => s; digest32 := fun s => s;
  draw := fun n => List.nth n ["t0"; "t1"; "t2"; "t3"; "t4"; "t5"; "t6"; "t7"; "t8"; "t9"] "t"; draw_hex := fun n => if Nat.eqb n 0 then "r1" else "h" +:+ Py.str_of_Z (Z.of_nat n);
  draw_uuid := fun n => "p" +:+ Py.str_of_Z (Z.of_nat n);
  auth_rate_per_address := 10; auth_rate_per_account := 10; auth_rate_window := 60 |}.
Definition demo_row : Registered.FederationEntity := {|
  Registered.fe_entity_id := "https://idp.test"; Registered.fe_role := "idp"; Registered.fe_display_name := None;
  Registered.fe_document := "entity"; Registered.fe_metadata_url := None; Registered.fe_valid_until := None;
  Registered.fe_last_refreshed_at := 0; Registered.fe_enabled := true |}.
Definition demo_world : world Store := {|
  w_now := Gate.demo_expiry; w_redis := ∅; w_identity := Registry.empty_db;
  w_lifecycle := {| Lifecycle.grant_rows := []; Lifecycle.events := [] |}; w_clients := []; w_federation := [demo_row];
  w_audit := []; w_correlation := "c1"; w_impersonator := None; w_draws := 0 |}.
Definition demo_browser (cookies : list (string * string)) : Request :=
  {| rq_address := Some "192.0.2.1"; rq_user_agent := "browser"; rq_authorization := ""; rq_cookies := cookies |}.
Definition demo_started : world Store := (start_sso demo_app (demo_browser []) (Some "https://idp.test") (Some "/app") demo_world).1.

Example demo_login :
  (assertion_consumer_service demo_app (demo_browser [(REQUEST_BINDING_COOKIE, "t2")]) (Base64.encode "answer") (Some "t1") demo_started).2 =
  Ok (redirect "/app" [] [set_session_cookie "t5"; clear_request_binding_cookie]).
Proof. vm_compute. reflexivity. Qed.

Lemma demo_draws n : Py.has_char ":" (draw demo_app n) = false.
Proof. do 10 (destruct n as [|n]; [done|]). by destruct n. Qed.

Definition demo_answered : world Store * result exn Response :=
  assertion_consumer_service demo_app (demo_browser [(REQUEST_BINDING_COOKIE, "t2")]) (Base64.encode "answer") (Some "t1") demo_started.

Lemma demo_answer : demo_answered = (demo_answered.1, Ok (redirect "/app" [] [set_session_cookie "t5"; clear_request_binding_cookie])).
Proof. transitivity (demo_answered.1, demo_answered.2); [by destruct demo_answered|]. f_equal; vm_compute; reflexivity. Qed.


(** The same answer from a browser with another binding cookie. *)
Definition demo_refused : world Store :=
  (assertion_consumer_service demo_app (demo_browser [(REQUEST_BINDING_COOKIE, "t9")]) (Base64.encode "answer") (Some "t1") demo_started).1.

Lemma refusals_are_uniform_witness :
  exists reference e, w_audit demo_refused = w_audit demo_started ++
    [({| AuditLog.cx_correlation_id := Some reference; AuditLog.cx_impersonator := None |}, e)] /\
    AuditLog.en_type e = Events.AUTH_FAILURE.
Proof.
  destruct (refusals_are_uniform demo_app (demo_browser [(REQUEST_BINDING_COOKIE, "t9")]) (Base64.encode "answer") (Some "t1")
    demo_started demo_refused (reject_page "c1") demo_draws) as (reference & _ & (e & Ha & Ht & _) & _).
  - unfold demo_refused. match goal with |- ?x = _ => transitivity (x.1, x.2); [by destruct x|] end. f_equal; vm_compute; reflexivity.
  - intros sid Hin. by apply elem_of_nil in Hin.
  - exists reference, e. split; [exact Ha|exact Ht].
Defined.

Lemma logins_land_locally_witness : local "/app".
Proof.
  destruct (logins_land_locally demo_app demo_world demo_started demo_answered.1 (demo_browser [(REQUEST_BINDING_COOKIE, "t2")])
    (Base64.encode "answer") (Some "t1")
    (redirect "/app" [] [set_session_cookie "t5"; clear_request_binding_cookie]) "/app" demo_draws) as [H|H].
  - intros k _. reflexivity.
  - apply rtc_once, visit_sso.
  - exact demo_answer.
  - reflexivity.
  - discriminate H.
  - exact H.
Defined.

(** The binding ties the relay state to the browser, and the gate ties the answer
    to a request, but nothing ties the two: an answer to one login is accepted with
    the relay state and the cookie of another. *)
Definition demo_two : world Store :=
  (start_sso demo_app (demo_browser []) (Some "https://idp.test") (Some "/other") demo_started).1.
Example answer_to_another_login :
  location <$> match (assertion_consumer_service demo_app (demo_browser [(REQUEST_BINDING_COOKIE, "t5")]) (Base64.encode "answer")
                        (Some "t4") demo_two).2 with Ok r => Some r | Err _ => None end = Some (Some "/app").
Proof. vm_compute. reflexivity. Qed.

End witnesses.

End Acs.
