(* ===== verification/Logout.v ===== *)
(** * Ending a session, everywhere

    [campusid/oidc/logout.py] and [campusid/routes/logout.py]: the notifier that
    tells clients a session has ended, and the handlers of [/oauth2/logout] and
    [/admin/sessions/terminate] in the monad of [Site].  What a client's endpoint
    answers to the [n]th attempt is a parameter; the pauses between attempts are
    left out, as a handler runs at one moment.  [RedirectResponse] takes the
    destination as it is. *)

From S2P Require Import Prelude PyStr Dict Json Errors Redis Codec Url Grants Sessions Jwt Tokens Clients AuditTrail AuditLog Site OAuth.

Module Logout.
Import Site OAuth.

Definition DEFAULT_LANDING := "/".
(** Ten years. *)
Definition HINT_LEEWAY : duration := (3650 * 86400 * SECOND)%Z.
Definition NO_STORE : list (string * string) := [("Cache-Control", "no-store")].
Definition RETRY_DELAYS : list duration := [500000; 2 * SECOND]%Z.

(** What a POST to a client's endpoint came to. *)
Inductive posted : Type :=
| Answered (status_code : Z)
| HTTPError (name : string).

Record DeliveryOutcome : Type := {
  do_client_id : string;
  do_delivered : bool;
  do_attempts : nat;
  do_detail : option string;
}.

Definition accepted (r : posted) : bool := match r with Answered s => (s <? 400)%Z | HTTPError _ => false end.
Definition detail_of (r : posted) : string :=
  match r with Answered s => "HTTP " +:+ Py.str_of_Z s | HTTPError name => name end.

Section logout.
Context {R : Type} `{RedisServer R} {Priv Pub : Type} `{RsaLib Priv Pub}.

Abbreviation M := (Site.M (R := R)).

Context (app : App (Priv := Priv)).
(** What the endpoint of a URI answers to an attempt to deliver a token. *)
Context (post : string -> string -> nat -> posted).

(** ** The notifier *)

(** The loop of [_deliver]: one attempt, and one more after each delay. *)
Fixpoint attempts (client_id uri token : string) (delays : list duration) (attempt : nat) : DeliveryOutcome :=
  let response := post uri token attempt in
  if accepted response then
    {| do_client_id := client_id; do_delivered := true; do_attempts := attempt; do_detail := None |}
  else
    match delays with
    | [] => {| do_client_id := client_id; do_delivered := false; do_attempts := attempt; do_detail := Some (detail_of response) |}
    | _ :: rest => attempts client_id uri token rest (S attempt)
    end.

Definition logout_context (client : Clients.OidcClient) (sid subject : string) (now : moment) : Tokens.TokenContext :=
  {| Tokens.tc_issuer := oidc_issuer app; Tokens.tc_client_id := Clients.client_id client; Tokens.tc_subject := subject;
     Tokens.tc_sid := sid; Tokens.tc_family_id := ""; Tokens.tc_scopes := ∅; Tokens.tc_auth_time := now; Tokens.tc_nonce := None;
     Tokens.tc_acr := None; Tokens.tc_amr := []; Tokens.tc_claims := [] |}.

Definition logout_token (client : Clients.OidcClient) (sid subject jti : string) (now : moment) : string :=
  Tokens.logout_token (float_repr app) (isoformat app) (logout_context client sid subject now) (Jwt.active (keys app)) jti now Tokens.LOGOUT_TOKEN_TTL.

Definition _deliver (client : Clients.OidcClient) (uri sid subject : string) : M DeliveryOutcome :=
  get* now := get_now in
  get* jti := token_urlsafe app in
  ret (attempts (Clients.client_id client) uri (logout_token client sid subject jti now) RETRY_DELAYS 1).

(** [[client for client in clients if client.backchannel_logout_uri]], each with
    its address. *)
Definition targets (clients : list Clients.OidcClient) : list (Clients.OidcClient * string) :=
  omap (fun client => match Clients.backchannel_logout_uri client with
    | None | Some "" => None
    | Some uri => Some (client, uri)
    end) clients.

(** The deliveries are started in order, and each mints its token before it
    waits for anything. *)
Fixpoint gather_deliveries (l : list (Clients.OidcClient * string)) (sid subject : string) : M (list DeliveryOutcome) :=
  match l with
  | [] => ret []
  | (client, uri) :: rest =>
      get* outcome := _deliver client uri sid subject in
      get* others := gather_deliveries rest sid subject in
      ret (outcome :: others)
  end.

Definition notify (clients : list Clients.OidcClient) (sid subject : string) : M (list DeliveryOutcome) :=
  gather_deliveries (targets clients) sid subject.

(** ** Ending one session *)

Definition find_clients (ids : list string) : M (list Clients.OidcClient) :=
  get* tbl := get_clients in
  get* found := lift (rmap (Clients.get (netloc_ok app) tbl) ids) in
  ret (omap id found).

Definition notified (outcomes : list DeliveryOutcome) : list string :=
  do_client_id <$> List.filter do_delivered outcomes.
Definition unreachable (outcomes : list DeliveryOutcome) : list DeliveryOutcome :=
  List.filter (fun o => negb (do_delivered o)) outcomes.
Definition delivery_detail (outcomes : list DeliveryOutcome) : list (string * json) := [
  ("notified", Codec.of_strings (notified outcomes));
  ("unreachable", Codec.of_strings (do_client_id <$> unreachable outcomes))].

Definition about (session : Sessions.Session) (target : option string) (detail : list (string * json)) : told :=
  {| t_actor := None; t_subject := Some (Sessions.subject_key session); t_target := target; t_reason := None;
     t_session_id := Some (Sessions.s_sid session); t_detail := detail |}.

Fixpoint record_failures (q : Request) (session : Sessions.Session) (failures : list DeliveryOutcome) : M unit :=
  match failures with
  | [] => ret tt
  | failure :: rest =>
      then* audit Events.LOGOUT_DELIVERY_FAILED Events.FAILURE
        (about session (Some (do_client_id failure))
           [("attempts", JInt (Z.of_nat (do_attempts failure))); ("detail", or_null (do_detail failure))]) (_provenance q);
      record_failures q session rest
  end.

(** The session and its tokens, in Redis. *)
Definition end_locally (sid : string) : prog unit :=
  do* Sessions.destroy (sha256_hex app) Sessions.SESSION_KEY_PREFIX sid;
  do* forget sid;
  do* Grants.revoke_session_families Grants.REFRESH_TTL sid;
  Ret tt.

Definition _end (q : Request) (session : Sessions.Session) (event : Events.EventType) : M (list DeliveryOutcome) :=
  let sid := Sessions.s_sid session in
  get* client_ids := redis (clients_for sid) in
  then* redis (end_locally sid);
  get* clients := find_clients client_ids in
  get* outcomes := notify clients sid (Sessions.subject_key session) in
  then* audit event Events.SUCCESS (about session None (delivery_detail outcomes)) (_provenance q);
  then* record_failures q session (unreachable outcomes);
  ret outcomes.

(** ** Where to afterwards *)

Definition _client_from_hint (id_token_hint : option string) : M (option string) :=
  match id_token_hint with
  | None | Some "" => ret None
  | Some hint =>
      get* now := get_now in
      ret (match Jwt.decode hint (Jwt.verification_keys (keys app)) (oidc_issuer app) None now HINT_LEEWAY None with
           | Err _ => None
           | Ok claims =>
               match Json.get claims "aud" with
               | JStr a => Some a
               | JArr [a] => Some (match a with JStr s => s | j => shown app j end)
               | _ => None
               end
           end)
  end.

Definition _post_logout_destination (id_token_hint post_logout_redirect_uri client_id state : option string) : M string :=
  match post_logout_redirect_uri with
  | None | Some "" => ret DEFAULT_LANDING
  | Some uri =>
      get* named := (if present client_id then ret client_id else _client_from_hint id_token_hint) in
      get* client := (match named with
        | None | Some "" => ret None
        | Some id => get* tbl := get_clients in lift (Clients.get (netloc_ok app) tbl id)
        end) in
      match client with
      | None => ret DEFAULT_LANDING
      | Some client =>
          if bool_decide (uri ∈ Clients.post_logout_redirect_uris client) then
            ret (match state with
                 | None | Some "" => uri
                 | Some s => uri +:+ "?" +:+ Url.urlencode [("state", s)]
                 end)
          else ret DEFAULT_LANDING
      end
  end.

(** ** The handlers *)

Definition end_session (q : Request) (id_token_hint post_logout_redirect_uri state client_id : option string) : M Response :=
  get* session := _current_session app q in
  then* (match session with
         | Some session => get* _ := _end q session Events.SESSION_ENDED in ret tt
         | None => ret tt
         end);
  get* destination := _post_logout_destination id_token_hint post_logout_redirect_uri client_id state in
  ret (redirect destination NO_STORE [clear_session_cookie]).

Fixpoint end_each (q : Request) (sids : list string) : M (list DeliveryOutcome) :=
  match sids with
  | [] => ret []
  | sid :: rest =>
      get* session := load app sid in
      get* outcomes := (match session with Some s => _end q s Events.SESSION_TERMINATED | None => ret [] end) in
      get* others := end_each q rest in
      ret (outcomes ++ others)
  end.

Definition terminate_sessions (q : Request) (is_production : bool) (subject_key : string) : M Response :=
  if is_production then reject None
  else
    get* sids := redis (Sessions.sids_for (sha256_hex app) subject_key) in
    get* outcomes := end_each q sids in
    get* _ := redis (Sessions.terminate_subject (sha256_hex app) Sessions.SESSION_KEY_PREFIX subject_key) in
    then* audit Events.ADMIN_ACTION Events.SUCCESS
      {| t_actor := Some "administrator"; t_subject := Some subject_key; t_target := None; t_reason := None; t_session_id := None;
         t_detail := [("action", JStr "terminate_sessions"); ("sessions", JInt (Z.of_nat (length sids)))] |} (_provenance q);
    ret (json_response 200 (JObj (("terminated", JInt (Z.of_nat (length sids))) :: delivery_detail outcomes)) NO_STORE).

(** ** What a logout reaches *)

Context {laws : RedisLaws R}.

Abbreviation families_key sid := (Grants.SESSION_FAMILY_PREFIX +:+ sid).
Abbreviation clients_key sid := (CLIENT_SESSION_PREFIX +:+ sid).
Abbreviation session_key sid := (Sessions._key Sessions.SESSION_KEY_PREFIX sid).
Abbreviation in_history births w := (Sessions.history (sha256_hex app) Sessions.IDLE_TIMEOUT Sessions.ABSOLUTE_TIMEOUT
  births (w_redis w) (w_now w)).
Abbreviation destroyed := (Sessions.destroy (sha256_hex app) Sessions.SESSION_KEY_PREFIX).
Abbreviation families_revoked := (Grants.revoke_session_families Grants.REFRESH_TTL).

Lemma destroy_history births (r : R) t sid :
  Sessions.history (sha256_hex app) Sessions.IDLE_TIMEOUT Sessions.ABSOLUTE_TIMEOUT births r t ->
  Sessions.history (sha256_hex app) Sessions.IDLE_TIMEOUT Sessions.ABSOLUTE_TIMEOUT births (run (destroyed sid) r t).1 t.
Proof.
  intros Hh. exact (Sessions.history_op (sha256_hex app) Sessions.IDLE_TIMEOUT Sessions.ABSOLUTE_TIMEOUT births _ _ t
    (Sessions.Destroy sid) Hh (Z.le_refl _) eq_refl).
Qed.

Definition grant_key (k : string) : Prop := Py.startswith k "oidc:" = true.

Lemma forget_touches sid : touches (eq (clients_key sid)) (forget sid).
Proof. unfold forget. cbn. split; [done|]. by intros []. Qed.

Lemma revoke_touches sid : touches grant_key (families_revoked sid).
Proof.
  unfold Grants.revoke_session_families, set_members. cbn. split; [done|]. intros []; cbn; try done.
  apply touches_bind; [apply touches_pfor; intros f; cbn; split; [done|by intros []]|intros _].
  cbn. split; [done|]. by intros [].
Qed.

Lemma grant_key_foreign k : grant_key k -> Py.startswith k Sessions.SESSION_KEY_PREFIX = false.
Proof. unfold grant_key. intros [rest ->]%Py.startswith_spec. done. Qed.

(** Ending a session locally does not fail, whatever the session has; it leaves
    no record of it, and every family the session had is revoked. *)
Lemma end_locally_run births (r : R) t sid :
  Sessions.history (sha256_hex app) Sessions.IDLE_TIMEOUT Sessions.ABSOLUTE_TIMEOUT births r t ->
  Py.has_char ":" sid = false -> set_or_none r t (families_key sid) ->
  let out := run (end_locally sid) r t in
  out.2 = Ok tt /\
  Sessions.history (sha256_hex app) Sessions.IDLE_TIMEOUT Sessions.ABSOLUTE_TIMEOUT births out.1 t /\
  r_view out.1 t (session_key sid) = None /\
  forall fs d f, r_view r t (families_key sid) = Some (Entry (VSet fs) d) -> f ∈ fs ->
    Grants.revoked_from Grants.REFRESH_TTL out.1 t f.
Proof.
  intros Hh Hs Hf. cbv zeta. unfold end_locally.
  pose proof (Sessions.history_inv _ _ _ idle_le_absolute _ _ _ Hh) as Hi.
  destruct (Sessions.destroy_vrun (sha256_hex app) Sessions.ABSOLUTE_TIMEOUT r_round births _ t sid Hi) as (_ & Hd & _).
  destruct (Hd Hs) as [Hd2 Hd1]. rewrite <- run_result in Hd2.
  rewrite <- (proj2 (run_vrun (destroyed sid) r _ t ltac:(done))) in Hd1.
  pose proof (destroy_history births r t sid Hh) as Hh1.
  pose proof (fun t' k => run_frame _ _ r t t' k (Sessions.destroy_touches (sha256_hex app) sid)) as Hfr1.
  rewrite run_bind. destruct (run (destroyed sid) r t) as [r1 o1]. cbn in Hd1, Hd2, Hh1, Hfr1. subst o1.
  assert ((run (forget sid) r1 t).2 = Ok tt) as Hg.
  { rewrite run_result. unfold forget. vrun_simpl. by destruct (r_view r1 t (clients_key sid)). }
  pose proof (fun t' k => run_frame _ _ r1 t t' k (forget_touches sid)) as Hfr2.
  assert (Sessions.history (sha256_hex app) Sessions.IDLE_TIMEOUT Sessions.ABSOLUTE_TIMEOUT births (run (forget sid) r1 t).1 t) as Hh2.
  { eapply Sessions.history_run; [exact Hh1|lia|]. eapply touches_weaken; [apply forget_touches|]. by intros k <-. }
  rewrite run_bind. destruct (run (forget sid) r1 t) as [r2 o2]. cbn in Hg, Hfr2, Hh2. subst o2.
  assert (r_view r2 t (families_key sid) = r_view r t (families_key sid)) as Hv.
  { rewrite Hfr2 by (lia || key_ne). apply Hfr1; [done|lia]. }
  destruct (Grants.revoke_session_families_vrun Grants.REFRESH_TTL (r_view r2 t) t sid) as ([l Hl] & Hrev & _).
  { intros sc d. rewrite Hv. intros E. unfold set_or_none in Hf. by rewrite E in Hf. }
  rewrite <- run_result in Hl.
  assert (forall fs d f, r_view r t (families_key sid) = Some (Entry (VSet fs) d) -> f ∈ fs ->
    Grants.revoked_from Grants.REFRESH_TTL (run (families_revoked sid) r2 t).1 t f) as Hrev'.
  { intros fs d f E Hin. unfold Grants.revoked_from. rewrite (proj2 (run_vrun (families_revoked sid) r2 _ t ltac:(done))).
    rewrite <- Hv in E. by rewrite (Hrev fs d f E Hin); eauto. }
  pose proof (fun t' k => run_frame _ _ r2 t t' k (revoke_touches sid)) as Hfr3.
  assert (Sessions.history (sha256_hex app) Sessions.IDLE_TIMEOUT Sessions.ABSOLUTE_TIMEOUT births (run (families_revoked sid) r2 t).1 t) as Hh3.
  { eapply Sessions.history_run; [exact Hh2|lia|]. eapply touches_weaken; [apply revoke_touches|]. apply grant_key_foreign. }
  rewrite run_bind. destruct (run (families_revoked sid) r2 t) as [r3 o3]. cbn in Hl, Hrev', Hfr3, Hh3. subst o3. cbn.
  split_and!; [done|done| |done].
  rewrite Hfr3 by (lia || done). rewrite Hfr2 by (lia || done). done.
Qed.

(** What follows the local part changes neither Redis nor the clock. *)
Definition aside {A} (m : M A) : Prop := keeps w_redis m /\ keeps w_now m /\ keeps w_clients m.

Lemma aside_bind {A B} (m : M A) (k : A -> M B) : aside m -> (forall a, aside (k a)) -> aside (bind m k).
Proof. intros (H1 & H2 & H3) Hk. split_and!; apply keeps_bind; try done; intros a; apply Hk. Qed.

Lemma find_clients_aside ids : aside (find_clients ids).
Proof. unfold find_clients, get_clients. split_and!; keeps. Qed.

Lemma notify_aside clients sid subject : aside (notify clients sid subject).
Proof.
  unfold notify. induction (targets clients) as [|[client uri] l IH]; [done|]. cbn [gather_deliveries].
  apply aside_bind; [split_and!; unfold _deliver, get_now, token_urlsafe; keeps|intros o]. by apply aside_bind.
Qed.

Lemma record_failures_aside q session l : aside (record_failures q session l).
Proof. induction l as [|o l IH]; [done|]. cbn [record_failures]. by apply aside_bind. Qed.

(** The part of [_end] after the session is gone. *)
Definition tell (q : Request) (session : Sessions.Session) (event : Events.EventType) (client_ids : list string) : M (list DeliveryOutcome) :=
  get* clients := find_clients client_ids in
  get* outcomes := notify clients (Sessions.s_sid session) (Sessions.subject_key session) in
  then* audit event Events.SUCCESS (about session None (delivery_detail outcomes)) (_provenance q);
  then* record_failures q session (unreachable outcomes);
  ret outcomes.

Lemma tell_aside q session event ids : aside (tell q session event ids).
Proof.
  apply aside_bind; [apply find_clients_aside|intros clients]. apply aside_bind; [apply notify_aside|intros outcomes].
  apply aside_bind; [done|intros _]. by apply aside_bind; [apply record_failures_aside|].
Qed.

Lemma tell_answers q session event ids (w : world R) :
  (forall id, is_ok (Clients.get (netloc_ok app) (w_clients w) id) = true) -> exists outcomes, (tell q session event ids w).2 = Ok outcomes.
Proof.
  intros Hc. assert (exists l, rmap (Clients.get (netloc_ok app) (w_clients w)) ids = Ok l) as [l El].
  { induction ids as [|id ids [l El]]; [by exists []|]. cbn. specialize (Hc id).
    destruct (Clients.get _ _ _) as [c|]; [|done]. cbn. rewrite El. by eexists. }
  assert (find_clients ids w = (w, Ok (omap id l))) as Ef by (unfold find_clients, bind, get_clients, lift; cbn; by rewrite El).
  assert (forall l' sid subject (w0 : world R), exists w1 o, notify l' sid subject w0 = (w1, Ok o)) as Hn.
  { intros l' sid subject. unfold notify. induction (targets l') as [|[client uri] tl IH]; intros w0; [by do 2 eexists|].
    cbn [gather_deliveries]. erewrite bind_run by reflexivity. destruct (IH (_deliver client uri sid subject w0).1) as (w1 & o & E).
    erewrite bind_run by exact E. by do 2 eexists. }
  assert (forall fs (w0 : world R), exists w2, record_failures q session fs w0 = (w2, Ok tt)) as Hf.
  { induction fs as [|f fs IH]; intros w0; [by eexists|]. cbn [record_failures]. unfold bind. cbn. apply IH. }
  destruct (Hn (omap id l) (Sessions.s_sid session) (Sessions.subject_key session) w) as (w1 & o & En).
  unfold tell. erewrite bind_run by exact Ef. erewrite bind_run by exact En. erewrite bind_run by reflexivity.
  match goal with |- context [bind (record_failures q session ?a) _ ?b] => destruct (Hf a b) as (w2 & E2) end.
  erewrite bind_run by exact E2. by eexists.
Qed.

Lemma clients_for_run (r : R) t sid : set_or_none r t (clients_key sid) ->
  (exists l, (run (clients_for sid) r t).2 = Ok l) /\ forall k, r_view (run (clients_for sid) r t).1 t k = r_view r t k.
Proof.
  intros Hc. unfold set_or_none in Hc. destruct (run_vrun (clients_for sid) r _ t ltac:(done)) as [E2 E1]. setoid_rewrite E1. rewrite E2.
  unfold clients_for, set_members. cbn.
  destruct (r_view r t (clients_key sid)) as [[[sc|m] d]|] eqn:E; [done|cbn..]; (split; [by eexists|]); intros k;
    (destruct (decide (k = clients_key sid)) as [->|]; [by rewrite vupd_eq|by rewrite vupd_ne]).
Qed.

Lemma clients_for_touches sid : touches (eq (clients_key sid)) (clients_for sid).
Proof. unfold clients_for, set_members. cbn. split; [done|]. by intros []. Qed.

Lemma end_reaches births q s event (w : world R) :
  let sid := Sessions.s_sid s in let w' := (_end q s event w).1 in
  in_history births w -> Py.has_char ":" sid = false ->
  set_or_none (w_redis w) (w_now w) (families_key sid) -> set_or_none (w_redis w) (w_now w) (clients_key sid) ->
  w_now w' = w_now w /\ w_clients w' = w_clients w /\ in_history births w' /\
  r_view (w_redis w') (w_now w) (session_key sid) = None /\
  (forall fs d f, r_view (w_redis w) (w_now w) (families_key sid) = Some (Entry (VSet fs) d) -> f ∈ fs ->
     Grants.revoked_from Grants.REFRESH_TTL (w_redis w') (w_now w) f) /\
  ((forall id, is_ok (Clients.get (netloc_ok app) (w_clients w) id) = true) -> exists l, (_end q s event w).2 = Ok l).
Proof.
  intros sid w' Hh Hs Hf Hc. destruct (clients_for_run _ _ _ Hc) as [[ids Hids] Hv1].
  assert (Sessions.history (sha256_hex app) Sessions.IDLE_TIMEOUT Sessions.ABSOLUTE_TIMEOUT births
    (run (clients_for sid) (w_redis w) (w_now w)).1 (w_now w)) as Hh1.
  { eapply Sessions.history_run; [exact Hh|lia|]. eapply touches_weaken; [apply clients_for_touches|]. by intros k <-. }
  subst w'. assert (_end q s event w = tell q s event ids
    (set_redis (run (end_locally sid) (run (clients_for sid) (w_redis w) (w_now w)).1 (w_now w)).1 w)) as ->.
  { unfold _end. erewrite bind_run by (rewrite redis_run; apply (f_equal2 pair eq_refl Hids)).
    destruct (end_locally_run births _ _ sid Hh1 Hs) as (Hok & _).
    { unfold set_or_none. by rewrite Hv1. }
    erewrite bind_run by (rewrite redis_run; apply (f_equal2 pair eq_refl Hok)). done. }
  destruct (end_locally_run births _ _ sid Hh1 Hs) as (_ & Hh2 & Hgone & Hrev).
  { unfold set_or_none. by rewrite Hv1. }
  rewrite Hv1 in Hrev. set (w2 := set_redis _ w). destruct (tell_aside q s event ids) as (K1 & K2 & K3).
  rewrite (K1 w2), (K2 w2), (K3 w2). split_and!; try done. intros Hid. by apply tell_answers.
Qed.

Lemma destination_aside hint uri cid state : aside (_post_logout_destination hint uri cid state).
Proof. unfold _post_logout_destination, _client_from_hint, get_clients, get_now. split_and!; keeps. Qed.

Lemma destination_answers hint uri cid state (w : world R) :
  (forall id, is_ok (Clients.get (netloc_ok app) (w_clients w) id) = true) ->
  exists w' url, _post_logout_destination hint uri cid state w = (w', Ok url).
Proof.
  intros Hc. assert (forall named : option string, exists c, (match named with
        | None | Some "" => ret None
        | Some id => get* tbl := get_clients in lift (Clients.get (netloc_ok app) tbl id)
        end : M (option Clients.OidcClient)) w = (w, Ok c)) as Hn.
  { intros [[|a id]|]; [by eexists| |by eexists]. unfold bind, get_clients, lift. specialize (Hc (String a id)).
    destruct (Clients.get _ _ _) as [c|]; [by eexists|done]. }
  assert (exists named, (if present cid then ret cid else _client_from_hint hint) w = (w, Ok named)) as [named En].
  { destruct (present cid); [by eexists|]. unfold _client_from_hint. destruct hint as [[|a h]|]; [by eexists| |by eexists].
    erewrite bind_run by reflexivity. by eexists. }
  unfold _post_logout_destination. destruct uri as [[|a u]|]; [by do 2 eexists| |by do 2 eexists].
  erewrite bind_run by exact En. destruct (Hn named) as [c Ec]. erewrite bind_run by exact Ec.
  destruct c as [c|]; [|by do 2 eexists]. destruct (bool_decide _); by do 2 eexists.
Qed.

(** Whatever the session has in Redis is a session, a set of families and a set
    of clients; nothing else is filed under its identifier. *)
Definition well_filed (births : list (Sessions.login * moment)) (w : world R) (sid : string) : Prop :=
  in_history births w /\ set_or_none (w_redis w) (w_now w) (families_key sid) /\ set_or_none (w_redis w) (w_now w) (clients_key sid).

(** C32: Signing out means something.  When a signed-in browser asks to be logged
    out, then whatever the endpoints of its clients answer and wherever it asks to
    be sent, the handler answers and takes the cookie back; from that moment no
    load finds the session, no refresh token of any family the session had is
    exchanged again, and no access token of such a family is honoured. *)
Theorem logout_reaches_everything births q sid s hint uri state cid (w : world R) :
  well_filed births w sid -> Dict.get (rq_cookies q) SESSION_COOKIE = Some sid -> sid <> "" ->
  (load app sid w).2 = Ok (Some s) ->
  (forall id, is_ok (Clients.get (netloc_ok app) (w_clients w) id) = true) ->
  exists w' resp, end_session q hint uri state cid w = (w', Ok resp) /\ rs_cookies resp = [clear_session_cookie] /\
    let t := w_now w in
    (forall t', (t <= t')%Z -> (run (Sessions.load (sha256_hex app) Sessions.IDLE_TIMEOUT Sessions.ABSOLUTE_TIMEOUT
       Sessions.SESSION_KEY_PREFIX sid t') (w_redis w') t').2 = Ok (Sessions.Loaded None None)) /\
    forall fs d f, r_view (w_redis w) t (families_key sid) = Some (Entry (VSet fs) d) -> f ∈ fs ->
      (forall t' tok rec new client now, (t <= t')%Z -> Grants.rt_family_id rec = f ->
         Grants.stored_refresh (sha256_hex app) Grants.REFRESH_TTL (w_redis w') t tok rec ->
         exists e, (run (Grants.rotate_refresh_token (sha256_hex app) Grants.REFRESH_TTL new tok client now) (w_redis w') t').2 = Err e) /\
      (forall t' token claims, (t <= t' < t + ttl_seconds Grants.REFRESH_TTL * SECOND)%Z ->
         (run (Tokens.verify (Some token) (keys app) (oidc_issuer app) t') (w_redis w') t').2 = Ok claims ->
         Json.lookup claims "fid" <> Some (JStr f)).
Proof.
  intros (Hh & Hf & Hc) Hck Hne Hl Hid. destruct (load_sid app births sid w s Hh Hl) as [Hs Hsid].
  destruct (load_completes app births sid w Hh Hs) as (w1 & o & E1 & Hh1 & (Hn1 & Hc1 & Hv1) & _ & _).
  rewrite E1 in Hl. injection Hl as ->. rewrite Hn1 in *.
  assert (set_or_none (w_redis w1) (w_now w1) (families_key (Sessions.s_sid s))) as Hf1.
  { rewrite Hsid, Hn1. unfold set_or_none. rewrite Hv1; [done|lia|done]. }
  assert (set_or_none (w_redis w1) (w_now w1) (clients_key (Sessions.s_sid s))) as Hcl1.
  { rewrite Hsid, Hn1. unfold set_or_none. rewrite Hv1; [done|lia|done]. }
  destruct (end_reaches births q s Events.SESSION_ENDED w1 ltac:(by rewrite Hn1) ltac:(by rewrite Hsid) Hf1 Hcl1)
    as (Hn2 & Hc2 & Hh2 & Hgone & Hrev & Hok).
  rewrite Hc1 in Hok. destruct (Hok Hid) as [l El]. destruct (_end q s Events.SESSION_ENDED w1) as [w2 o2] eqn:E2. cbn in Hn2, Hc2, Hh2, Hgone, Hrev, El. subst o2.
  destruct (destination_answers hint uri cid state w2) as (w3 & url & E3); [by rewrite Hc2, Hc1|].
  destruct (destination_aside hint uri cid state) as (K & _). specialize (K w2). rewrite E3 in K. cbn in K.
  rewrite Hn1, Hsid in Hgone, Hrev. exists w3, (redirect url NO_STORE [clear_session_cookie]). split; [|split; [reflexivity|]].
  - unfold end_session, _current_session. rewrite Hck. destruct sid as [|a sid]; [done|].
    erewrite bind_run by exact E1. erewrite bind_run by (erewrite bind_run by exact E2; reflexivity).
    by erewrite bind_run by exact E3.
  - cbn zeta. rewrite K. split.
    + intros t' Ht. refine (proj1 (missing_load app sid (w_redis w2) t' t' _)). by apply (view_None_later (w_redis w2) (w_now w)).
    + intros fs d f Hfs Hin. rewrite <- (Hv1 (w_now w) (families_key sid)) in Hfs by (lia || done).
      specialize (Hrev fs d f Hfs Hin). split.
      * intros t' tok rec new client now Ht Hfam Hst. eapply Grants.revoked_family_dead; [exact Hst| |done]. by rewrite Hfam.
      * intros t' token claims Ht. apply (Tokens.revoked_is_refused Grants.REFRESH_TTL f token _ _ _ (w_now w)); done.
Qed.

(** ** Where the browser is sent *)

Lemma end_keeps_clients q s event : keeps w_clients (_end q s event).
Proof.
  unfold _end. apply keeps_bind; [keeps|intros ids]. apply keeps_bind; [keeps|intros _]. apply (tell_aside q s event ids).
Qed.

(** Whom the request is believed to come from. *)
Definition vouched (hint cid : option string) (now : moment) (id : string) : Prop :=
  cid = Some id \/
  exists h claims, hint = Some h /\
    Jwt.decode h (Jwt.verification_keys (keys app)) (oidc_issuer app) None now HINT_LEEWAY None = Ok claims /\
    (Json.get claims "aud" = JStr id \/ exists a, Json.get claims "aud" = JArr [a] /\ (a = JStr id \/ id = shown app a)).

Lemma hint_reads hint (w : world R) : _client_from_hint hint w = (w, (_client_from_hint hint w).2).
Proof. unfold _client_from_hint. by destruct hint as [[|a h]|]. Qed.

Lemma hint_vouches hint (w w' : world R) id : _client_from_hint hint w = (w', Ok (Some id)) ->
  w' = w /\ vouched hint None (w_now w) id.
Proof.
  unfold _client_from_hint. destruct hint as [[|a h]|]; [done| |done]. erewrite bind_run by reflexivity.
  intros [= -> E]. split; [done|]. right. exists (String a h).
  destruct (Jwt.decode _ _ _ _ _ _ _) as [claims|] eqn:Ed; [|done]. exists claims. split_and!; [done..|].
  destruct (Json.get claims "aud") as [| | | |x| |[|x [|y l]]|]; try done; injection E as <-; [by left|right].
  exists x. split; [done|]. destruct x; by eauto.
Qed.

Lemma destination_registered hint uri cid state (w w' : world R) url :
  _post_logout_destination hint uri cid state w = (w', Ok url) ->
  url = DEFAULT_LANDING \/ exists id client u, uri = Some u /\ vouched hint cid (w_now w) id /\
    Clients.get (netloc_ok app) (w_clients w) id = Ok (Some client) /\ u ∈ Clients.post_logout_redirect_uris client /\
    (url = u \/ exists s, state = Some s /\ url = u +:+ "?" +:+ Url.urlencode [("state", s)]).
Proof.
  unfold _post_logout_destination. destruct uri as [[|a u]|]; [intros [= _ <-]; by left| |intros [= _ <-]; by left].
  set (uri := String a u). intros (w1 & named & En & E)%bind_ok.
  assert (match named with Some id => w1 = w /\ vouched hint cid (w_now w) id | None => w1 = w end) as Hn.
  { destruct (present cid) eqn:Ep.
    - injection En as <- <-. destruct cid as [id|]; [|done]. split; [done|by left].
    - pose proof (hint_reads hint w) as Es. rewrite En in Es. injection Es as ->.
      destruct named as [id|]; [|done]. split; [done|]. apply hint_vouches in En as [_ [[=]|Hv]]. by right. }
  apply bind_ok in E as (w2 & client & Ec & E).
  destruct named as [[|b id]|]; [injection Ec as <- <-; injection E as _ <-; by left| |injection Ec as <- <-; injection E as _ <-; by left].
  destruct Hn as [-> Hv]. rewrite (bind_run _ _ w w (w_clients w) eq_refl) in Ec. injection Ec as <- Ec.
  destruct client as [client|]; [|injection E as _ <-; by left].
  destruct (bool_decide (uri ∈ _)) eqn:Eb; [|injection E as _ <-; by left]. bool_prop.
  right. exists (String b id), client, uri. split_and!; [done..|].
  destruct state as [[|c st]|]; injection E as _ <-; [by left| |by left]. right. by eexists.
Qed.

(** C37: The end-session endpoint is no open redirect.  Whatever it is asked, it sends
    the browser to the broker's own page, or to a URI that the registration of a
    client lists verbatim, with the caller's state appended; and that client is the
    one the request names or the one a token our keys verify was issued to. *)
Theorem logout_redirects_are_registered q hint uri state cid (w w' : world R) resp :
  end_session q hint uri state cid w = (w', Ok resp) ->
  location resp = Some DEFAULT_LANDING \/ exists now id client u, uri = Some u /\ vouched hint cid now id /\
    Clients.get (netloc_ok app) (w_clients w) id = Ok (Some client) /\ u ∈ Clients.post_logout_redirect_uris client /\
    (location resp = Some u \/ exists s, state = Some s /\ location resp = Some (u +:+ "?" +:+ Url.urlencode [("state", s)])).
Proof.
  unfold end_session. intros (w1 & session & E1 & E)%bind_ok. apply bind_ok in E as (w2 & [] & E2 & E).
  apply bind_ok in E as (w3 & url & E3 & [= _ <-]).
  assert (w_clients w2 = w_clients w) as Hc.
  { transitivity (w_clients w1).
    - destruct session as [s|]; [|by injection E2 as ->]. apply bind_ok in E2 as (w2' & l & E2 & [= ->]).
      pose proof (end_keeps_clients q s Events.SESSION_ENDED w1) as K. by rewrite E2 in K.
    - assert (keeps w_clients (_current_session app q)) as K.
      { unfold _current_session, load. destruct (Dict.get _ _) as [[|a sid]|]; [done| |done]. keeps. }
      specialize (K w). by rewrite E1 in K. }
  apply destination_registered in E3 as [->|(id & client & u & H1 & H2 & H3 & H4 & H5)]; [by left|right].
  exists (w_now w2), id, client, u. rewrite <- Hc. split_and!; [done..|].
  destruct H5 as [->|(st & -> & ->)]; [by left|right; by eexists].
Qed.

(** ** What the clients are told, and what is recorded of it *)

(** The outcome of delivering [token] to [uri]: the first attempt that was
    accepted, or the failure of all of them. *)
Definition delivery (uri token : string) (o : DeliveryOutcome) : Prop :=
  (forall k, (1 <= k < do_attempts o)%nat -> accepted (post uri token k) = false) /\
  if do_delivered o then (1 <= do_attempts o <= 3)%nat /\ accepted (post uri token (do_attempts o)) = true /\ do_detail o = None
  else do_attempts o = 3%nat /\ accepted (post uri token 3) = false /\ do_detail o = Some (detail_of (post uri token 3)).

Lemma attempts_spec client_id uri token delays n (o := attempts client_id uri token delays n) :
  do_client_id o = client_id /\ (n <= do_attempts o <= n + length delays)%nat /\
  (forall k, (n <= k < do_attempts o)%nat -> accepted (post uri token k) = false) /\
  accepted (post uri token (do_attempts o)) = do_delivered o /\
  (if do_delivered o then do_detail o = None
   else do_attempts o = (n + length delays)%nat /\ do_detail o = Some (detail_of (post uri token (do_attempts o)))).
Proof.
  subst o. revert n. induction delays as [|d delays IH]; intros n; cbn [attempts].
  all: destruct (accepted (post uri token n)) eqn:E; cbn [do_client_id do_attempts do_delivered do_detail length].
  1,2: split_and!; try done; try lia; intros k ?; lia.
  - split_and!; try done; try lia; intros k ?; lia.
  - destruct (IH (S n)) as (H1 & H2 & H3 & H4 & H5). split_and!; try done; try lia.
    + intros k Hk. destruct (decide (k = n)) as [->|]; [done|]. apply H3. lia.
    + destruct (do_delivered _); [done|]. split; [lia|apply H5].
Qed.

(** A client, its address and what came of telling it. *)
Definition told_client (sid subject : string) (now : moment) (target : Clients.OidcClient * string) (o : DeliveryOutcome) : Prop :=
  do_client_id o = Clients.client_id target.1 /\ exists jti, delivery target.2 (logout_token target.1 sid subject jti now) o.

Lemma deliver_told client uri sid subject jti now :
  told_client sid subject now (client, uri)
    (attempts (Clients.client_id client) uri (logout_token client sid subject jti now) RETRY_DELAYS 1).
Proof.
  unfold told_client. cbn [fst snd]. pose proof (attempts_spec (Clients.client_id client) uri
    (logout_token client sid subject jti now) RETRY_DELAYS 1) as (H1 & H2 & H3 & H4 & H5).
  set (o := attempts _ _ _ _ _) in *. clearbody o. split; [exact H1|]. exists jti. split; [exact H3|].
  cbn [length RETRY_DELAYS] in *. destruct (do_delivered o).
  - split; [lia|]. by split.
  - destruct H5 as [H5 H6]. rewrite H5 in *. by split_and!.
Qed.

Lemma notify_tells clients sid subject (w w' : world R) outcomes : notify clients sid subject w = (w', Ok outcomes) ->
  w_audit w' = w_audit w /\ Forall2 (told_client sid subject (w_now w)) (targets clients) outcomes.
Proof.
  unfold notify. revert w outcomes. induction (targets clients) as [|[client uri] l IH]; intros w outcomes; cbn [gather_deliveries].
  { intros [= <- <-]. by split. }
  intros (w1 & o & [= <- <-] & E)%bind_ok. apply bind_ok in E as (w2 & others & E & [= <- <-]).
  apply IH in E as [Ha Hf]. split; [done|]. constructor; [|done]. apply deliver_told.
Qed.

(** One record of one client that was not reached. *)
Definition failure_record (subject sid : string) (o : DeliveryOutcome) (ev : AuditLog.context * AuditLog.entry) : Prop :=
  AuditLog.en_type ev.2 = Events.LOGOUT_DELIVERY_FAILED /\ AuditLog.en_outcome ev.2 = Events.FAILURE /\
  AuditLog.en_target ev.2 = Some (do_client_id o) /\ AuditLog.en_subject ev.2 = Some subject /\ AuditLog.en_session_id ev.2 = Some sid /\
  AuditLog.en_detail ev.2 = [("attempts", JInt 3); ("detail", or_null (do_detail o))].

Lemma record_failures_run q s failures (w : world R) : Forall (fun o => do_attempts o = 3%nat) failures ->
  exists w' evs, record_failures q s failures w = (w', Ok tt) /\ w_audit w' = w_audit w ++ evs /\
    Forall2 (failure_record (Sessions.subject_key s) (Sessions.s_sid s)) failures evs.
Proof.
  revert w. induction failures as [|o l IH]; intros w Hall; [exists w, []; by rewrite app_nil_r|].
  apply Forall_cons in Hall as [Ho Hall]. cbn [record_failures]. erewrite bind_run by reflexivity.
  match goal with |- context [record_failures q s l ?x] => destruct (IH x Hall) as (w' & evs & E & Ha & Hf) end.
  rewrite E. exists w'. cbn in Ha. rewrite <- app_assoc in Ha. eexists. split; [reflexivity|]. split; [exact Ha|].
  constructor; [|done]. unfold failure_record. cbn. by rewrite Ho.
Qed.

Lemma undelivered_tried l (ts : list (Clients.OidcClient * string)) sid subject now : Forall2 (told_client sid subject now) ts l ->
  Forall (fun o => do_attempts o = 3%nat) (unreachable l).
Proof.
  induction 1 as [|t o ts l (_ & jti & _ & Ho) _ IH]; [constructor|]. unfold unreachable in *. cbn [List.filter].
  destruct (do_delivered o); [done|]. constructor; [by destruct Ho|done].
Qed.

(** Every client that holds the session and can be told is told, three times at
    most and not again once it has accepted, with a token minted for it and this
    session; the trail gains the end of the session, with who was told and who was
    not, and one failure of its own for each client that was not reached. *)
Theorem deliveries_are_recorded q s event (w w' : world R) outcomes :
  _end q s event w = (w', Ok outcomes) ->
  exists ids found ended failures,
    (run (clients_for (Sessions.s_sid s)) (w_redis w) (w_now w)).2 = Ok ids /\
    rmap (Clients.get (netloc_ok app) (w_clients w)) ids = Ok found /\
    Forall2 (told_client (Sessions.s_sid s) (Sessions.subject_key s) (w_now w)) (targets (omap id found)) outcomes /\
    w_audit w' = w_audit w ++ ended :: failures /\
    AuditLog.en_type ended.2 = event /\ AuditLog.en_outcome ended.2 = Events.SUCCESS /\
    AuditLog.en_session_id ended.2 = Some (Sessions.s_sid s) /\ AuditLog.en_detail ended.2 = delivery_detail outcomes /\
    Forall2 (failure_record (Sessions.subject_key s) (Sessions.s_sid s)) (unreachable outcomes) failures.
Proof.
  unfold _end. intros (w1 & ids & E1 & E)%bind_ok. rewrite redis_run in E1. injection E1 as <- Hids.
  apply bind_ok in E as (w2 & [] & E2 & E). rewrite redis_run in E2. injection E2 as <- _.
  apply bind_ok in E as (w3 & clients & E3 & E). unfold find_clients in E3.
  rewrite (bind_run _ _ _ _ _ eq_refl) in E3. apply bind_ok in E3 as (w3' & found & E3 & [= <- <-]). injection E3 as <- Hfound.
  apply bind_ok in E as (w4 & l & E4 & E). apply notify_tells in E4 as [Ha Hf]. cbn in Hf, Ha.
  rewrite (bind_run _ _ _ _ _ eq_refl) in E. apply bind_ok in E as (w5 & [] & E5 & [= <- <-]).
  match type of E5 with record_failures q s ?a ?b = _ =>
    destruct (record_failures_run q s a b (undelivered_tried _ _ _ _ _ Hf)) as (w5' & evs & E5' & Ha5 & Hf5) end.
  rewrite E5' in E5. injection E5 as <-. cbn in Ha5. rewrite <- app_assoc, Ha in Ha5.
  exists ids, found. do 2 eexists. split; [done|]. split; [done|]. split; [exact Hf|]. split; [exact Ha5|].
  split; [reflexivity|]. split; [reflexivity|]. split; [reflexivity|]. split; [reflexivity|]. exact Hf5.
Qed.

End logout.

(** ** Witnesses *)

Section witnesses.

(** A client that can be told, and where it may have the browser sent. *)
Definition demo_holder : Clients.OidcClient := {|
  Clients.client_id := "app"; Clients.client_type := Clients.CONFIDENTIAL; Clients.redirect_uris := ["https://app.test/cb"];
  Clients.allowed_scopes := Clients.allowed_scopes demo_registered; Clients.secret_hash := Clients.secret_hash demo_registered;
  Clients.display_name := None; Clients.require_par := false; Clients.backchannel_logout_uri := Some "https://app.test/out";
  Clients.post_logout_redirect_uris := ["https://app.test/bye"] |}.

Definition with_clients (tbl : list Clients.OidcClientRecord) (r : Store) (w : world Store) : world Store := {|
  w_now := w_now w; w_redis := r; w_identity := w_identity w; w_lifecycle := w_lifecycle w; w_clients := tbl;
  w_federation := w_federation w; w_audit := w_audit w; w_correlation := w_correlation w; w_impersonator := w_impersonator w;
  w_draws := w_draws w |}.

(** The session holds one family, and the client is on its list. *)
Definition demo_held : Store :=
  (run (record "s1" "app")
     (run (Grants.issue_code demo_digest Grants.CODE_TTL Grants.REFRESH_TTL "code" demo_grant) demo_redis 5).1 5).1.
Definition demo_signed_in : world Store := with_clients [Clients._to_record demo_holder] demo_held demo_world.

(** The endpoint answers the second attempt. *)
Definition slow (uri token : string) (n : nat) : posted := if (n <? 2)%nat then HTTPError "ConnectTimeout" else Answered 200.
Definition dead (uri token : string) (n : nat) : posted := Answered 503.

Definition demo_session : Sessions.Session :=
  Sessions.touch (Sessions.new_session Sessions.ABSOLUTE_TIMEOUT "s1" Sessions.demo_login 0) 5.

Lemma demo_filed : well_filed demo_site [(Sessions.demo_login, 0%Z)] demo_signed_in "s1".
Proof.
  split; [|by split; vm_compute]. cbn [w_redis w_now demo_signed_in with_clients demo_world].
  eapply Sessions.history_run; [|exact (Z.le_refl 5)|].
  - eapply Sessions.history_run; [exact demo_session_history|exact (Z.le_refl 5)|].
    eapply touches_weaken; [apply (issue_touches demo_site)|]. by intros k [->| ->].
  - eapply touches_weaken; [apply record_touches|]. by intros k <-.
Qed.

Lemma demo_readable id : is_ok (Clients.get (netloc_ok demo_site) (w_clients demo_signed_in) id) = true.
Proof.
  unfold Clients.get. destruct (List.find _ _) as [r|] eqn:E; [|done]. apply find_some in E as [[<-|[]] _]. by vm_compute.
Qed.

Lemma logout_reaches_everything_witness : exists w' resp,
  end_session demo_site slow demo_browser None (Some "https://app.test/bye") (Some "st") (Some "app") demo_signed_in = (w', Ok resp) /\
  forall t' token claims, (5 <= t' < 5 + ttl_seconds Grants.REFRESH_TTL * SECOND)%Z ->
    (run (Tokens.verify (Some token) (keys demo_site) "https://op" t') (w_redis w') t').2 = Ok claims ->
    Json.lookup claims "fid" <> Some (JStr "fam").
Proof.
  assert ((load demo_site "s1" demo_signed_in).2 = Ok (Some demo_session)) as Hl by (vm_compute; reflexivity).
  assert (exists d, r_view (w_redis demo_signed_in) 5 (Grants.SESSION_FAMILY_PREFIX +:+ "s1") = Some (Entry (VSet {["fam"]}) d)) as [d Hf]
    by (eexists; vm_compute; reflexivity).
  destruct (logout_reaches_everything demo_site slow [(Sessions.demo_login, 0%Z)] demo_browser "s1" demo_session None
    (Some "https://app.test/bye") (Some "st") (Some "app") demo_signed_in demo_filed eq_refl ltac:(discriminate) Hl demo_readable)
    as (w' & resp & E & _ & _ & Hfam).
  exists w', resp. split; [exact E|]. exact (proj2 (Hfam {["fam"]} d "fam" Hf ltac:(set_solver))).
Defined.

Lemma logout_redirects_are_registered_witness :
  let out := end_session demo_site slow demo_browser None (Some "https://app.test/bye") (Some "st") (Some "app") demo_signed_in in
  exists resp, out.2 = Ok resp /\ location resp = Some "https://app.test/bye?state=st" /\
    (location resp = Some DEFAULT_LANDING \/ exists now id client u, Some "https://app.test/bye" = Some u /\
       vouched demo_site None (Some "app") now id /\
       Clients.get (netloc_ok demo_site) (w_clients demo_signed_in) id = Ok (Some client) /\ u ∈ Clients.post_logout_redirect_uris client /\
       (location resp = Some u \/ exists s, Some "st" = Some s /\ location resp = Some (u +:+ "?" +:+ Url.urlencode [("state", s)]))).
Proof.
  intros out. set (resp := redirect "https://app.test/bye?state=st" NO_STORE [clear_session_cookie]). exists resp.
  assert (out.2 = Ok resp) as E by (vm_compute; reflexivity). split; [exact E|]. split; [reflexivity|].
  apply (logout_redirects_are_registered demo_site slow demo_browser None (Some "https://app.test/bye") (Some "st") (Some "app")
    demo_signed_in out.1 resp). rewrite <- E. apply surjective_pairing.
Defined.

(** The endpoint is down: the session ends and the failure is on record. *)
Lemma deliveries_are_recorded_witness :
  let out := _end demo_site dead demo_browser demo_session Events.SESSION_ENDED demo_signed_in in
  exists ended failures, w_audit out.1 = ended :: failures /\
    Forall2 (failure_record (Sessions.subject_key demo_session) "s1")
      [{| do_client_id := "app"; do_delivered := false; do_attempts := 3; do_detail := Some "HTTP 503" |}] failures.
Proof.
  intros out. set (o := {| do_client_id := "app"; do_delivered := false; do_attempts := 3; do_detail := Some "HTTP 503" |}).
  assert (out.2 = Ok [o]) as E by (vm_compute; reflexivity).
  assert (_end demo_site dead demo_browser demo_session Events.SESSION_ENDED demo_signed_in = (out.1, Ok [o])) as E'
    by (rewrite <- E; apply surjective_pairing).
  destruct (deliveries_are_recorded demo_site dead demo_browser demo_session Events.SESSION_ENDED demo_signed_in out.1 [o] E')
    as (ids & found & ended & failures & _ & _ & _ & Ha & _ & _ & _ & _ & Hf).
  exists ended, failures. split; [exact Ha|exact Hf].
Defined.

(** A session that idled out is skipped by the loop, and with it its token
    families: after an administrator has terminated every session of the person,
    the refresh token of that session is still exchanged. *)
Definition demo_late : world Store := at_moment (31 * 60 * SECOND) demo_tokens.1.
Example idle_session_keeps_its_tokens :
  let terminated := terminate_sessions demo_site dead demo_browser false (Sessions.subject_key demo_session) demo_late in
  let refresh := {| f_grant_type := "refresh_token"; f_code := None; f_redirect_uri := None; f_code_verifier := None;
    f_refresh_token := Some "refresh"; f_scope := None; f_client_id := Some "app"; f_client_secret := Some Clients.demo_secret |} in
  (rs_status <$> match terminated.2 with Ok r => Some r | Err _ => None end) = Some 200%Z /\
  (rs_status <$> match (token demo_site demo_browser refresh terminated.1).2 with Ok r => Some r | Err _ => None end) = Some 200%Z.
Proof. by vm_compute. Qed.

(** In production the endpoint is closed. *)
Example production_terminates_nothing (q : Request) (subject : string) (w : world Store) :
  terminate_sessions demo_site dead q true subject w = (w, Ok (reject_page (w_correlation w))).
Proof. reflexivity. Qed.

(** A URI that has a query gets a second question mark. *)
Example registered_query_is_broken :
  let client := {| Clients.client_id := "app"; Clients.client_type := Clients.CONFIDENTIAL; Clients.redirect_uris := ["https://app.test/cb"];
    Clients.allowed_scopes := Clients.allowed_scopes demo_registered; Clients.secret_hash := Clients.secret_hash demo_registered;
    Clients.display_name := None; Clients.require_par := false; Clients.backchannel_logout_uri := None;
    Clients.post_logout_redirect_uris := ["https://app.test/bye?x=1"] |} in
  let w := with_clients [Clients._to_record client] ∅ demo_world in
  match (end_session demo_site dead {| rq_address := None; rq_user_agent := ""; rq_authorization := ""; rq_cookies := [] |} None
    (Some "https://app.test/bye?x=1") (Some "st") (Some "app") w).2 with
  | Ok r => location r = Some "https://app.test/bye?x=1?state=st" | Err _ => False end.
Proof. by vm_compute. Qed.

End witnesses.
End Logout.
