(* ===== verification/OidcApi.v ===== *)
(** * The provider's public endpoints, and what a person sees of themselves

    [campusid/oidc/discovery.py], [campusid/routes/oidc.py] and
    [campusid/routes/me.py]: the discovery document, the published keys, the
    claims behind an access token, and the applications that have received a
    person's attributes.  The rows of the audit trail are an argument of the
    handler that searches them. *)

From S2P Require Import Prelude PyStr Dict Base64 Json JsonLoads Errors Redis Codec Grants Sessions Jwt Registry Release Tokens Clients AuditTrail AuditLog Site OAuth.

Module OidcApi.
Import Site OAuth.

Definition METADATA_CACHE_CONTROL := "public, max-age=300".
Definition NO_STORE : list (string * string) := [("Cache-Control", "no-store")].

Definition PROTOCOL_CLAIMS : list string := ["iss"; "sub"; "aud"; "exp"; "iat"; "auth_time"; "nonce"; "acr"; "amr"; "sid"].
Definition TOKEN_ENDPOINT_AUTH_METHODS : list string := ["client_secret_basic"; "client_secret_post"; "none"].

Definition discovery_document (issuer : string) : list (string * json) := [
  ("issuer", JStr issuer);
  ("authorization_endpoint", JStr (issuer +:+ "/oauth2/authorize"));
  ("token_endpoint", JStr (issuer +:+ "/oauth2/token"));
  ("userinfo_endpoint", JStr (issuer +:+ "/userinfo"));
  ("jwks_uri", JStr (issuer +:+ "/.well-known/jwks.json"));
  ("end_session_endpoint", JStr (issuer +:+ "/oauth2/logout"));
  ("pushed_authorization_request_endpoint", JStr (issuer +:+ "/oauth2/par"));
  ("introspection_endpoint", JStr (issuer +:+ "/oauth2/introspect"));
  ("revocation_endpoint", JStr (issuer +:+ "/oauth2/revoke"));
  ("scopes_supported", Codec.of_strings Release.SUPPORTED_SCOPES);
  ("claims_supported", Codec.of_strings (PROTOCOL_CLAIMS ++ Release.SUPPORTED_CLAIMS));
  ("response_types_supported", Codec.of_strings ["code"]);
  ("response_modes_supported", Codec.of_strings ["query"]);
  ("grant_types_supported", Codec.of_strings ["authorization_code"; "refresh_token"; "client_credentials"]);
  ("subject_types_supported", Codec.of_strings ["pairwise"; "public"]);
  ("id_token_signing_alg_values_supported", Codec.of_strings [Jwt.RS256]);
  ("code_challenge_methods_supported", Codec.of_strings [Pkce.S256]);
  ("token_endpoint_auth_methods_supported", Codec.of_strings TOKEN_ENDPOINT_AUTH_METHODS);
  ("request_parameter_supported", JBool false);
  ("request_uri_parameter_supported", JBool true);
  ("require_request_uri_registration", JBool false);
  ("claims_parameter_supported", JBool false);
  ("backchannel_logout_supported", JBool true);
  ("backchannel_logout_session_supported", JBool true);
  ("frontchannel_logout_supported", JBool false);
  ("service_documentation", JStr (issuer +:+ "/docs"))].

Section api.
Context {R : Type} `{RedisServer R} {Priv Pub : Type} `{RsaLib Priv Pub}.

Abbreviation M := (Site.M (R := R)).

Context (app : App (Priv := Priv)).

Definition openid_configuration : M Response :=
  ret (json_response 200 (JObj (discovery_document (oidc_issuer app))) [("Cache-Control", METADATA_CACHE_CONTROL)]).

Definition jwks : M Response :=
  ret (json_response 200 (Jwt.as_jwks (keys app)) [("Cache-Control", METADATA_CACHE_CONTROL)]).

Definition error_body (error : string) : json := JObj [("error", JStr error)].

(** [release_to] for the client a token names. *)
Definition released_to (session : Sessions.Session) (client_id : string) (scopes : gset string) : result Release.value_error Release.ReleasedIdentity :=
  Release.release_to (fullmatch app) (hmac_sha256 app) session (policies app client_id) scopes (pairwise_salt app) (scope app) false ∅.

(** [{"sub": subject, **claims}]. *)
Definition userinfo_body (identity : Release.ReleasedIdentity) : list (string * json) :=
  Json.update [("sub", JStr (Release.ri_subject identity))] (Release.ri_claims identity).

Definition userinfo (q : Request) : M Response :=
  get* now := get_now in
  try_else (redis (Tokens.verify (Tokens.credentials (Some (rq_authorization q))) (keys app) (oidc_issuer app) now)) oauth_error
    (fun '(error, _) => ret (json_response 401 (error_body error) (NO_STORE ++ Tokens.challenge error)))
    (fun token =>
       get* sid := lift (Tokens.bt_sid (shown app) token) in
       get* session := load app sid in
       match session with
       | None => ret (json_response 401 (error_body Tokens.INVALID_TOKEN) (NO_STORE ++ Tokens.challenge Tokens.INVALID_TOKEN))
       | Some session =>
           get* client_id := lift (Tokens.bt_client_id (shown app) token) in
           get* identity := (match released_to session client_id (Tokens.bt_scopes (shown app) token) with
                             | Ok identity => ret identity
                             | Err _ => throw ValueError
                             end) in
           get* subject := lift (Tokens.bt_subject (shown app) token) in
           if negb (String.eqb (Release.ri_subject identity) subject)
           then ret (json_response 401 (error_body Tokens.INVALID_TOKEN) NO_STORE)
           else ret (json_response 200 (JObj (userinfo_body identity)) NO_STORE)
       end).

(** ** What a token is worth *)

Definition bearer (q : Request) (w : world R) : result exn Jwt.claim_set :=
  (run (Tokens.verify (Tokens.credentials (Some (rq_authorization q))) (keys app) (oidc_issuer app) (w_now w)) (w_redis w) (w_now w)).2.

(** Userinfo answers in two ways.  Either it refuses with 401, naming an error and
    no more; or the request carries a token our keys verify, of a family that is not
    revoked, the session the token was issued for is alive, and the body is the
    subject of the token with exactly the claims the release engine gives that
    client of that session, now, for the scopes of the token. *)
Theorem userinfo_is_entitled q (w w' : world R) resp :
  userinfo q w = (w', Ok resp) ->
  (rs_status resp = 401%Z /\ exists error, rs_content resp = Document (error_body error)) \/
  exists claims w1 sid session client identity,
    bearer q w = Ok claims /\ Tokens.bt_sid (shown app) claims = Ok sid /\ load app sid w1 = (w', Ok (Some session)) /\
    w_now w1 = w_now w /\ Tokens.bt_client_id (shown app) claims = Ok client /\
    released_to session client (Tokens.bt_scopes (shown app) claims) = Ok identity /\
    Tokens.bt_subject (shown app) claims = Ok (Release.ri_subject identity) /\
    rs_status resp = 200%Z /\ rs_content resp = Document (JObj (userinfo_body identity)).
Proof.
  unfold userinfo, bearer. rewrite (bind_run _ _ w w (w_now w) eq_refl).
  intros [(w1 & claims & E1 & E)|(w1 & e & [error reason] & _ & _ & [= _ <-])]%try_ok; [|left; split; [done|by eexists]].
  rewrite redis_run in E1. injection E1 as E1 Hv. apply bind_ok in E as (w2 & sid & [= <- Hsid] & E).
  apply bind_ok in E as (w3 & [session|] & El & E); [|injection E as _ <-; left; split; [done|by eexists]].
  apply bind_ok in E as (w4 & client & [= <- Hcl] & E). apply bind_ok in E as (w5 & identity & Ei & E).
  assert (w5 = w3 /\ released_to session client (Tokens.bt_scopes (shown app) claims) = Ok identity) as [-> Hrel].
  { destruct (released_to _ _ _); [|done]. injection Ei as <- <-. done. }
  apply bind_ok in E as (w6 & subject & [= <- Hsub] & E).
  destruct (String.eqb_spec (Release.ri_subject identity) subject) as [<-|]; injection E as <- <-;
    [right|left; split; [done|by eexists]].
  exists claims, w1, sid, session, client, identity. by rewrite <- E1 in *.
Qed.

(** ** A minted token is served *)

Context {laws : RedisLaws R} {rsa_laws : RsaLaws Priv Pub}.

Abbreviation in_history births w := (Sessions.history (sha256_hex app) Sessions.IDLE_TIMEOUT Sessions.ABSOLUTE_TIMEOUT
  births (w_redis w) (w_now w)).

Lemma verify_touches token ks issuer now :
  touches (fun k => Py.startswith k Sessions.SESSION_KEY_PREFIX = false) (Tokens.verify token ks issuer now).
Proof.
  unfold Tokens.verify. destruct token as [[|a t]|]; [done| |done]. destruct (Jwt.decode _ _ _ _ _ _ _) as [claims|]; [|done].
  destruct (Json.lookup claims "fid") as [[| | | |f| | |]|]; try done. cbn. split; [done|]. intros []; cbn; try done. by case_match.
Qed.

(** The session a live record gives when it is loaded. *)
Lemma live_load births (w : world R) sid s0 : in_history births w -> Py.has_char ":" sid = false ->
  Sessions.stored (r_view (w_redis w) (w_now w)) sid = Some s0 -> Sessions.expired Sessions.IDLE_TIMEOUT s0 (w_now w) = false ->
  exists w', load app sid w = (w', Ok (Some (Sessions.touch s0 (w_now w)))) /\ w_now w' = w_now w.
Proof.
  intros Hh Hs Hst Hx. pose proof (Sessions.history_inv _ _ _ idle_le_absolute _ _ _ Hh) as Hi.
  destruct (Sessions.load_vrun (sha256_hex app) _ _ r_round births _ (w_now w) sid (w_now w) idle_le_absolute Hi) as (_ & Hr & _).
  destruct (Hr Hs) as [Hl _]. rewrite <- run_result, Hst in Hl. unfold Sessions.load_answer in Hl. rewrite Hx in Hl.
  unfold load, bind, get_now, load_session. rewrite redis_run. rewrite Hl. by eexists.
Qed.

(** Whether the person of a session has asked that their directory information be
    withheld, as the registry records it. *)
Definition recorded_suppression (s : Registry.db) (session : Sessions.Session) : bool :=
  match Sessions.s_person_uuid session ≫= Registry.get s with
  | Some row => Registry.ferpa_directory_suppressed row
  | None => false
  end.

(** C31: What was granted is served.  While the session is alive and the family stands,
    an access token minted for a client is answered with the subject it was minted
    for and the claims the release engine gives that client of the session as it is
    now, for the scopes granted and under the suppression the registry records:
    provided that the person has recorded none, that the engine has an answer, and
    that the subject identifier is still the one the token was minted for. *)
Theorem userinfo_serves_the_grant births q (c : Tokens.TokenContext) jti minted s0 identity (w : world R) :
  let token := (Tokens.access_token (float_repr app) (isoformat app) c (Jwt.active (keys app)) jti minted Tokens.ACCESS_TOKEN_TTL).1 in
  let session := Sessions.touch s0 (w_now w) in
  Jwt.coherent (Jwt.published (keys app)) -> Utf8.valid (Jwt.kid (Jwt.active (keys app))) = true ->
  Tokens.presentable c minted -> Utf8.valid jti = true -> Tokens.tc_issuer c = oidc_issuer app ->
  Tokens.credentials (Some (rq_authorization q)) = Some token ->
  (minted <= w_now w < Tokens.epoch (minted + Tokens.ACCESS_TOKEN_TTL) * SECOND + Jwt.LEEWAY)%Z ->
  Tokens.family_marked (w_redis w) (w_now w) (Tokens.tc_family_id c) = false ->
  in_history births w -> Py.has_char ":" (Tokens.tc_sid c) = false ->
  Sessions.stored (r_view (w_redis w) (w_now w)) (Tokens.tc_sid c) = Some s0 ->
  Sessions.expired Sessions.IDLE_TIMEOUT s0 (w_now w) = false ->
  recorded_suppression (w_identity w) session = false ->
  Release.release_to (fullmatch app) (hmac_sha256 app) session (policies app (Tokens.tc_client_id c)) (Tokens.tc_scopes c)
    (pairwise_salt app) (scope app) (recorded_suppression (w_identity w) session) ∅ = Ok identity ->
  Release.ri_subject identity = Tokens.tc_subject c ->
  (userinfo q w).2 = Ok (json_response 200 (JObj (userinfo_body identity)) NO_STORE).
Proof.
  intros token session Hco Hk Hp Hj Hiss Hcr [Hlo Hhi] Hfam Hh Hs Hst Hx Hsup Hrel Hsub. rewrite Hsup in Hrel.
  change (released_to session (Tokens.tc_client_id c) (Tokens.tc_scopes c) = Ok identity) in Hrel.
  destruct (Tokens.access_token_honoured (float_repr app) (isoformat app) c (keys app) jti minted Tokens.ACCESS_TOKEN_TTL (shown app)
    (w_redis w) (w_now w) Hco Hk Hp Hj ltac:(split; vm_compute; congruence) Hlo) as (Hv & B1 & B2 & B3 & _ & B5).
  set (claims := Tokens.access_token_claims _ _ _ _) in *. rewrite Hfam, Hiss in Hv.
  destruct (Z.leb_spec (Tokens.epoch (minted + Tokens.ACCESS_TOKEN_TTL) * SECOND + Jwt.LEEWAY) (w_now w)); [lia|].
  unfold userinfo. rewrite (bind_run _ _ w w (w_now w) eq_refl). rewrite Hcr. unfold try_else. rewrite redis_run. fold token in Hv.
  rewrite Hv. cbn beta iota. pose proof (verify_touches (Some token) (keys app) (oidc_issuer app) (w_now w)) as Ht.
  set (w1 := set_redis _ w).
  assert (in_history births w1) as Hh1 by (eapply Sessions.history_run; [exact Hh|exact (Z.le_refl (w_now w))|exact Ht]).
  assert (Sessions.stored (r_view (w_redis w1) (w_now w1)) (Tokens.tc_sid c) = Some s0) as Hst1.
  { rewrite <- Hst. apply Sessions.stored_same. cbn.
    apply (run_frame _ _ (w_redis w) (w_now w) (w_now w) _ Ht); [by rewrite Sessions.own_key|lia]. }
  destruct (live_load births w1 (Tokens.tc_sid c) s0 Hh1 Hs Hst1 Hx) as (w2 & El & _).
  erewrite bind_run by (unfold lift; rewrite B3; reflexivity). erewrite bind_run by exact El. cbn beta iota.
  erewrite bind_run by (unfold lift; rewrite B2; reflexivity). rewrite B5.
  erewrite bind_run by (change (w_now w1) with (w_now w); fold session; rewrite Hrel; reflexivity).
  erewrite bind_run by (unfold lift; rewrite B1; reflexivity). by rewrite Hsub, String.eqb_refl.
Qed.

(** ** The registry is not asked *)

(** The same computation over another registry, except for the registry itself. *)
Definition blind {A} (m : M A) : Prop := forall s (w : world R), m (set_identity s w) = (set_identity s (m w).1, (m w).2).

Lemma blind_ret {A} (a : A) : blind (ret a).
Proof. done. Qed.
Lemma blind_lift {A} (r : result exn A) : blind (lift r).
Proof. done. Qed.
Lemma blind_bind {A B} (m : M A) (k : A -> M B) : blind m -> (forall a, blind (k a)) -> blind (bind m k).
Proof. intros Hm Hk s w. unfold bind. rewrite Hm. destruct (m w) as [w1 [a|e]]; cbn; [apply Hk|done]. Qed.
Lemma blind_redis {A} (p : prog A) : blind (redis p).
Proof. intros s w. by rewrite !redis_run. Qed.
Lemma blind_try {A B E} (m : M A) (c : exn -> option E) (h : E -> M B) (k : A -> M B) :
  blind m -> (forall e, blind (h e)) -> (forall a, blind (k a)) -> blind (try_else m c h k).
Proof.
  intros Hm Hh Hk s w. unfold try_else. rewrite Hm. destruct (m w) as [w1 [a|e]]; cbn; [apply Hk|].
  destruct (c e); [apply Hh|done].
Qed.
Lemma blind_load sid : blind (load app sid).
Proof.
  unfold load. apply blind_bind; [done|intros now]. intros s w. unfold load_session. rewrite blind_redis.
  destruct (redis _ w) as [w1 [l|e]]; [|done]. cbn. by destruct (Sessions.l_impersonator l).
Qed.

(** A suppression recorded in the registry changes nothing.  Neither the claims a
    code is exchanged for nor those userinfo answers with depend on the registry:
    the engine is always told that the person has not suppressed their directory
    information. *)
Theorem suppression_is_ignored q (s : Registry.db) (w : world R) :
  (userinfo q (set_identity s w)).2 = (userinfo q w).2 /\
  forall client grant, (_claims_for app client grant (set_identity s w)).2 = (_claims_for app client grant w).2.
Proof.
  split.
  - assert (blind (userinfo q)) as Hb; [|by rewrite Hb].
    unfold userinfo. apply blind_bind; [done|intros now]. apply blind_try; [apply blind_redis|by intros []|intros token].
    apply blind_bind; [done|intros sid]. apply blind_bind; [apply blind_load|intros [session|]; [|done]].
    apply blind_bind; [done|intros client]. apply blind_bind; [by destruct (released_to _ _ _)|intros identity].
    apply blind_bind; [done|intros subject]. by destruct (negb _).
  - intros client grant. assert (blind (_claims_for app client grant)) as Hb; [|by rewrite Hb].
    unfold _claims_for, release. repeat first [done | apply blind_bind; [|intros ?] | apply blind_load | apply blind_redis | case_match].
Qed.

End api.

(** ** Witnesses *)

Section witnesses.

Definition demo_context : Tokens.TokenContext := {|
  Tokens.tc_issuer := "https://op"; Tokens.tc_client_id := "app";
  Tokens.tc_subject := Base64.b64url (Py.take 16 "0123456789abcdefghij") +:+ "@campus.test";
  Tokens.tc_sid := "s1"; Tokens.tc_family_id := "fam"; Tokens.tc_scopes := {["openid"; "email"]}; Tokens.tc_auth_time := 0;
  Tokens.tc_nonce := None; Tokens.tc_acr := None; Tokens.tc_amr := ["pwd"]; Tokens.tc_claims := [] |}.
Definition demo_token : string :=
  (Tokens.access_token (float_repr demo_site) (isoformat demo_site) demo_context (Jwt.active (keys demo_site)) "j1" 0 Tokens.ACCESS_TOKEN_TTL).1.
Definition demo_call : Request :=
  {| rq_address := None; rq_user_agent := ""; rq_authorization := "Bearer " +:+ demo_token; rq_cookies := [] |}.
Definition demo_stored : Sessions.Session := Sessions.new_session Sessions.ABSOLUTE_TIMEOUT "s1" Sessions.demo_login 0.
Definition demo_identity : Release.ReleasedIdentity :=
  match released_to demo_site (Sessions.touch demo_stored 5) "app" {["openid"; "email"]} with
  | Ok i => i | Err _ => {| Release.ri_subject := ""; Release.ri_claims := []; Release.ri_decisions := [] |} end.

Lemma userinfo_serves_the_grant_witness :
  (userinfo demo_site demo_call demo_world).2 = Ok (json_response 200 (JObj (userinfo_body demo_identity)) NO_STORE).
Proof.
  assert (Tokens.presentable demo_context 0) as Hp.
  { split_and!; [by repeat constructor| |by vm_compute|by vm_compute]. intros w. cbn [Tokens.tc_scopes demo_context].
    rewrite elem_of_union, !elem_of_singleton. by intros [->| ->]. }
  apply (userinfo_serves_the_grant demo_site [(Sessions.demo_login, 0%Z)] demo_call demo_context "j1" 0 demo_stored demo_identity demo_world
    Tokens.demo_coherent eq_refl Hp eq_refl eq_refl); [vm_compute; reflexivity|split; vm_compute; congruence|vm_compute; reflexivity
    |exact demo_session_history|reflexivity|vm_compute; reflexivity|vm_compute; reflexivity|vm_compute; reflexivity|vm_compute; reflexivity|vm_compute; reflexivity].
Defined.

Lemma userinfo_is_entitled_witness : exists resp claims identity,
  (userinfo demo_site demo_call demo_world).2 = Ok resp /\ bearer demo_site demo_call demo_world = Ok claims /\
  Tokens.bt_subject (shown demo_site) claims = Ok (Release.ri_subject identity) /\
  rs_content resp = Document (JObj (userinfo_body identity)).
Proof.
  set (resp := json_response 200 (JObj (userinfo_body demo_identity)) NO_STORE).
  assert ((userinfo demo_site demo_call demo_world).2 = Ok resp) as E by (vm_compute; reflexivity).
  assert (userinfo demo_site demo_call demo_world = ((userinfo demo_site demo_call demo_world).1, Ok resp)) as E'
    by (rewrite <- E; apply surjective_pairing).
  destruct (userinfo_is_entitled demo_site demo_call demo_world _ resp E') as
    [[Hs _]|(claims & w1 & sid & session & client & identity & H1 & _ & _ & _ & _ & _ & H7 & _ & H9)]; [discriminate Hs|].
  exists resp, claims, identity. split; [exact E|]. split; [exact H1|]. split; [exact H7|exact H9].
Defined.

(** What the engine would withhold if it were told. *)
Example suppression_would_withhold :
  let told suppressed := Release.release_to (fullmatch demo_site) (hmac_sha256 demo_site) Release.demo_session (policies demo_site "app")
    {["openid"; "email"]} (pairwise_salt demo_site) (scope demo_site) suppressed ∅ in
  (Release.ri_claims <$> match told false with Ok i => Some i | Err _ => None end) <> Some [] /\
  (Release.ri_claims <$> match told true with Ok i => Some i | Err _ => None end) = Some [].
Proof. split; vm_compute; congruence. Qed.

End witnesses.
End OidcApi.
