(* ===== verification/Me.v ===== *)
(** * What a person can see about themselves

    [campusid/routes/me.py]: the applications that have received a person's
    attributes, read from the audit trail.  The rows of the trail are an argument
    of the handler.  An event whose [attributes] is not a list of strings raises
    [TypeError] here. *)

From S2P Require Import Prelude PyStr Dict Json Errors Redis Codec Sessions Lifecycle Release AuditTrail AuditLog Site OAuth.

Module Me.
Import Site OAuth.

Definition WINDOW : duration := (90 * 86400 * SECOND)%Z.
Definition LIMIT : Z := 200.
Definition NO_STORE : list (string * string) := [("Cache-Control", "no-store")].

(** ** Grouping *)

Record application : Type := {
  ap_target : string;
  ap_releases : nat;
  ap_first_seen : moment;
  ap_last_seen : moment;
  ap_attributes : gset string;
}.

(** [str(event.target or "unknown")]. *)
Definition target_of (e : AuditLog.AuditEventRecord) : string :=
  match AuditLog.ar_target e with None | Some "" => "unknown" | Some t => t end.

(** [event.detail.get("attributes", [])]. *)
Definition names_in (e : AuditLog.AuditEventRecord) : result exn (list string) :=
  match Json.lookup (AuditLog.ar_detail e) "attributes" with None => Ok [] | Some j => Codec.as_strings j end.

Fixpoint place (e : AuditLog.AuditEventRecord) (names : list string) (l : list application) : list application :=
  match l with
  | [] => [{| ap_target := target_of e; ap_releases := 1; ap_first_seen := AuditLog.ar_occurred_at e;
              ap_last_seen := AuditLog.ar_occurred_at e; ap_attributes := list_to_set names |}]
  | a :: l' =>
      if String.eqb (ap_target a) (target_of e)
      then {| ap_target := ap_target a; ap_releases := S (ap_releases a); ap_first_seen := AuditLog.ar_occurred_at e;
              ap_last_seen := ap_last_seen a; ap_attributes := ap_attributes a ∪ list_to_set names |} :: l'
      else a :: place e names l'
  end.

Fixpoint group (events : list AuditLog.AuditEventRecord) (acc : list application) : result exn (list application) :=
  match events with
  | [] => Ok acc
  | e :: rest => let* names := names_in e in group rest (place e names acc)
  end.

Definition _by_application (events : list AuditLog.AuditEventRecord) : result exn (list application) := group events [].

Definition application_json (a : application) : json := JObj [
  ("target", JStr (ap_target a)); ("releases", JInt (Z.of_nat (ap_releases a))); ("first_seen", JIso (ap_first_seen a));
  ("last_seen", JIso (ap_last_seen a)); ("attributes", Codec.of_strings (Lifecycle.sorted (ap_attributes a)))].

(** ** The handler *)

Definition releases_query (person : string) (since : moment) : AuditLog.Query :=
  {| AuditLog.q_subject := Some person; AuditLog.q_actor := None; AuditLog.q_target := None;
     AuditLog.q_event_type := Some (Events.event_text Events.ATTRIBUTE_RELEASE); AuditLog.q_outcome := None;
     AuditLog.q_correlation_id := None; AuditLog.q_since := Some since; AuditLog.q_until := None; AuditLog.q_limit := LIMIT;
     AuditLog.q_before_seq := None |}.

Section me.
Context {R : Type} `{RedisServer R} {Priv : Type}.

Abbreviation M := (Site.M (R := R)).

Context (app : App (Priv := Priv)).

Definition my_releases (rows : list AuditLog.AuditEventRecord) (q : Request) : M Response :=
  get* session := _current_session app q in
  match session with
  | None => ret (json_response 401 (JObj [("authenticated", JBool false)]) NO_STORE)
  | Some session =>
      match Sessions.s_person_uuid session with
      | None => ret (json_response 200 (JObj [("window_days", JInt 90); ("applications", JArr [])]) NO_STORE)
      | Some person =>
          get* now := get_now in
          let since := (now - WINDOW)%Z in
          let page := AuditLog.search rows (releases_query person since) in
          get* applications := lift (_by_application (AuditLog.p_events page)) in
          ret (json_response 200 (JObj [("window_days", JInt 90); ("since", JIso since);
            ("applications", JArr (application_json <$> applications))]) NO_STORE)
      end
  end.
End me.

(** ** What the page says *)

(** The entry of an application, computed from its events newest first. *)
Definition summary (t : string) (events : list AuditLog.AuditEventRecord) : option application :=
  match List.filter (fun e => String.eqb t (target_of e)) events with
  | [] => None
  | newest :: others => Some {|
      ap_target := t; ap_releases := S (length others);
      ap_first_seen := AuditLog.ar_occurred_at (List.last others newest); ap_last_seen := AuditLog.ar_occurred_at newest;
      ap_attributes := ⋃ ((fun e => match names_in e with Ok l => list_to_set l | Err _ => ∅ end) <$> newest :: others) |}
  end.

Definition entry_of (t : string) (l : list application) : option application := List.find (fun a => String.eqb t (ap_target a)) l.

(** An entry with one more, older, event of its application. *)
Definition older (e : AuditLog.AuditEventRecord) (names : list string) (o : option application) : application :=
  match o with
  | None => {| ap_target := target_of e; ap_releases := 1; ap_first_seen := AuditLog.ar_occurred_at e;
               ap_last_seen := AuditLog.ar_occurred_at e; ap_attributes := list_to_set names |}
  | Some a => {| ap_target := ap_target a; ap_releases := S (ap_releases a); ap_first_seen := AuditLog.ar_occurred_at e;
                 ap_last_seen := ap_last_seen a; ap_attributes := ap_attributes a ∪ list_to_set names |}
  end.

Lemma entry_target t l a : entry_of t l = Some a -> ap_target a = t.
Proof. unfold entry_of. intros [_ E]%find_some. by apply String.eqb_eq in E. Qed.

Lemma place_entry e names l t :
  entry_of t (place e names l) = if String.eqb t (target_of e) then Some (older e names (entry_of t l)) else entry_of t l.
Proof.
  induction l as [|a l IH]; cbn [place]; unfold entry_of in *; cbn [List.find].
  - cbn. by destruct (String.eqb_spec t (target_of e)).
  - destruct (String.eqb_spec (ap_target a) (target_of e)) as [Ea|Ea]; cbn [List.find ap_target].
    + rewrite Ea. destruct (String.eqb_spec t (target_of e)); [cbn; by rewrite Ea|done].
    + rewrite IH. destruct (String.eqb_spec t (ap_target a)) as [->|]; [|done].
      destruct (String.eqb_spec (ap_target a) (target_of e)); [done|done].
Qed.

Lemma place_targets e names l : NoDup (ap_target <$> l) -> NoDup (ap_target <$> place e names l) /\
  forall t, t ∈ ap_target <$> place e names l <-> t = target_of e \/ t ∈ ap_target <$> l.
Proof.
  induction l as [|a l IH]; cbn [place]; intros Hn.
  { split; [apply NoDup_singleton|]. intros t. cbn. by rewrite elem_of_cons. }
  rewrite fmap_cons in Hn. apply NoDup_cons in Hn as [Ha Hn].
  destruct (String.eqb_spec (ap_target a) (target_of e)) as [Ea|Ea]; rewrite !fmap_cons; cbn [ap_target].
  - split; [by constructor|]. intros t. rewrite elem_of_cons, Ea. tauto.
  - destruct (IH Hn) as [H1 H2]. split; [constructor; [|done]; by intros [?|?]%H2|].
    intros t. rewrite !elem_of_cons, H2. tauto.
Qed.

Abbreviation names_of e := (match names_in e with Ok l => list_to_set l | Err _ => ∅ end : gset string).
Definition grow (o : option application) (e : AuditLog.AuditEventRecord) : option application :=
  Some (older e (default [] (match names_in e with Ok l => Some l | Err _ => None end)) o).

Lemma last_after {A} (l : list A) x d : List.last (x :: l) d = List.last l x.
Proof. revert x d. induction l as [|y l IH]; intros x d; [done|]. change (List.last (y :: l) d = List.last (y :: l) x). by rewrite !IH. Qed.

Lemma grown (others : list AuditLog.AuditEventRecord) a : fold_left grow others (Some a) = Some {|
  ap_target := ap_target a; ap_releases := ap_releases a + length others;
  ap_first_seen := List.last (AuditLog.ar_occurred_at <$> others) (ap_first_seen a); ap_last_seen := ap_last_seen a;
  ap_attributes := ap_attributes a ∪ ⋃ ((fun e => names_of e) <$> others) |}.
Proof.
  revert a. induction others as [|e others IH]; intros a; cbn [fold_left].
  - destruct a. cbn. f_equal. f_equal; [lia|set_solver].
  - unfold grow at 2. rewrite IH. cbn [older ap_target ap_releases ap_first_seen ap_last_seen ap_attributes length fmap list_fmap union_list foldr].
    f_equal. f_equal; [lia| |].
    + symmetry. apply last_after.
    + rewrite <- (assoc_L (∪)). f_equal. cbn. by destruct (names_in e).
Qed.

Lemma summary_folds t events :
  summary t events = fold_left grow (List.filter (fun e => String.eqb t (target_of e)) events) None.
Proof.
  unfold summary. destruct (List.filter _ events) as [|e others] eqn:E; [done|]. cbn [fold_left].
  assert (target_of e = t) as He.
  { assert (In e (List.filter (fun e => String.eqb t (target_of e)) events)) as Hin by (rewrite E; by left).
    apply filter_In in Hin as [_ Hin]. by apply String.eqb_eq in Hin. }
  unfold grow at 2. rewrite grown. cbn [older ap_target ap_releases ap_first_seen ap_last_seen ap_attributes fmap list_fmap union_list foldr].
  rewrite He. f_equal. f_equal; [|cbn; by destruct (names_in e)].
  revert e E He. generalize others. intros l. induction l as [|x l IH] using rev_ind; intros; [done|].
  rewrite last_last, fmap_app. symmetry. exact (last_last (AuditLog.ar_occurred_at <$> l) (AuditLog.ar_occurred_at x) _).
Qed.

Lemma group_entries events acc l : group events acc = Ok l -> NoDup (ap_target <$> acc) ->
  NoDup (ap_target <$> l) /\
  forall t, entry_of t l = fold_left grow (List.filter (fun e => String.eqb t (target_of e)) events) (entry_of t acc).
Proof.
  revert acc. induction events as [|e rest IH]; intros acc; cbn [group]; [by intros [= ->]|].
  destruct (names_in e) as [names|] eqn:E; [|done]. cbn [rbind]. intros Hg Hn.
  destruct (IH _ Hg (proj1 (place_targets e names acc Hn))) as [H1 H2]. split; [done|]. intros t. rewrite H2, place_entry.
  cbn [List.filter]. destruct (String.eqb t (target_of e)); [|done]. cbn [fold_left]. unfold grow at 3. by rewrite E.
Qed.

(** What is on the page is a summary of the trail.  There is one entry for each
    application with an event among those read, and none for any other; it counts
    the events, and gives the oldest and the newest of them and every attribute
    any of them names. *)
Lemma by_application_is_summary events l : _by_application events = Ok l ->
  NoDup (ap_target <$> l) /\ forall t, entry_of t l = summary t events.
Proof.
  intros Hg. destruct (group_entries events [] l Hg (NoDup_nil_2 : NoDup (ap_target <$> []))) as [H1 H2]. split; [done|].
  intros t. rewrite H2. symmetry. apply summary_folds.
Qed.

(** The events of the page: [person]'s releases since [since], newest first and no
    more than [LIMIT] of them. *)
Abbreviation shown_events rows person since := (AuditLog.p_events (AuditLog.search rows (releases_query person since))).

Lemma searched rows person since e : e ∈ shown_events rows person since ->
  e ∈ rows /\ AuditLog.ar_subject e = Some person /\
  AuditLog.ar_event_type e = Events.event_text Events.ATTRIBUTE_RELEASE /\ (since <= AuditLog.ar_occurred_at e)%Z.
Proof.
  intros Hin. assert (e ∈ List.filter (AuditLog._filtered (releases_query person since)) rows) as Hf.
  { apply (Sort.elem_of_sort AuditLog.newest_first). unfold AuditLog.search in Hin.
    destruct (_ <? _)%nat in Hin; cbn [AuditLog.p_events] in Hin; repeat apply subseteq_take in Hin; exact Hin. }
  apply list_elem_of_In, filter_In in Hf as [Hr Hs]. apply list_elem_of_In in Hr. split; [done|].
  unfold AuditLog._filtered, AuditLog.selects in Hs. cbn in Hs. bool_prop. split_and!; [done|match goal with E : Some (AuditLog.ar_event_type e) = _ |- _ => by injection E as -> end|done].
Qed.

Lemma all_searched rows person since e :
  (length (List.filter (AuditLog.selects (releases_query person since)) rows) <= 200)%nat -> e ∈ rows ->
  AuditLog.selects (releases_query person since) e = true -> e ∈ shown_events rows person since.
Proof.
  intros Hlen Hr Hs. unfold AuditLog.search. set (n := AuditLog.clamp _).
  assert (n = 200%nat) as -> by reflexivity.
  rewrite (List.filter_ext _ (AuditLog.selects (releases_query person since))) by (intros r; apply andb_true_r).
  set (found := List.filter (AuditLog.selects _) rows) in *.
  assert (e ∈ Sort.sort AuditLog.newest_first found) as Hf.
  { apply Sort.elem_of_sort, list_elem_of_In, filter_In. split; [by apply list_elem_of_In|done]. }
  assert (length (Sort.sort AuditLog.newest_first found) <= 200)%nat as Hl by by rewrite Sort.sort_Permutation.
  rewrite take_ge by lia. destruct (Nat.ltb_spec 200 (length (Sort.sort AuditLog.newest_first found))); [lia|done].
Qed.

(** The page shows a person their own disclosures and nobody else's.  Without a
    session it shows nothing.  For a person on record it has one entry for each
    application that received attributes of theirs in the window, and no other: its
    events are releases of that person from the trail, not older than the window,
    and all of them when there are at most two hundred; the entry counts them and
    gives the oldest, the newest and every attribute they name. *)
Theorem releases_shown_are_own {R} `{RedisServer R} {Priv} (app : App (Priv := Priv)) rows q (w w' : world R) resp :
  my_releases app rows q w = (w', Ok resp) ->
  exists session, (_current_session app q w).2 = Ok session /\
  match session with
  | None => rs_status resp = 401%Z /\ rs_content resp = Document (JObj [("authenticated", JBool false)])
  | Some s =>
      match Sessions.s_person_uuid s with
      | None => rs_content resp = Document (JObj [("window_days", JInt 90); ("applications", JArr [])])
      | Some person => exists since l, since = (w_now w' - WINDOW)%Z /\
          rs_content resp = Document (JObj [("window_days", JInt 90); ("since", JIso since); ("applications", JArr (application_json <$> l))]) /\
          NoDup (ap_target <$> l) /\ (forall t, entry_of t l = summary t (shown_events rows person since)) /\
          (forall e, e ∈ shown_events rows person since -> e ∈ rows /\ AuditLog.ar_subject e = Some person /\
             AuditLog.ar_event_type e = Events.event_text Events.ATTRIBUTE_RELEASE /\ (since <= AuditLog.ar_occurred_at e)%Z) /\
          ((length (List.filter (AuditLog.selects (releases_query person since)) rows) <= 200)%nat ->
             forall e, e ∈ rows -> AuditLog.selects (releases_query person since) e = true -> e ∈ shown_events rows person since)
      end
  end.
Proof.
  unfold my_releases. intros (w1 & session & E1 & E)%bind_ok. exists session. rewrite E1. split; [done|].
  destruct session as [s|]; [|by injection E as _ <-]. destruct (Sessions.s_person_uuid s) as [person|]; [|by injection E as _ <-].
  rewrite (bind_run _ _ w1 w1 (w_now w1) eq_refl) in E. apply bind_ok in E as (w2 & l & [= <- El] & [= <- <-]).
  apply by_application_is_summary in El as [H1 H2]. do 2 eexists. split; [reflexivity|]. split; [reflexivity|].
  split; [exact H1|]. split; [exact H2|]. split; [intros e; apply searched|]. intros Hl e. by apply all_searched.
Qed.

(** The column of attributes is always empty.  The event a release leaves on the
    trail names them under [released] and has no [attributes]; the page reads
    [attributes]. *)
Lemma recorded_release_names_none impersonator identity :
  Json.lookup (Events.redact (AuditLog.marked impersonator (release_detail identity))) "attributes" = None.
Proof. by destruct impersonator. Qed.

Theorem released_attributes_are_not_shown events l :
  Forall (fun e => exists impersonator identity,
    AuditLog.ar_detail e = Events.redact (AuditLog.marked impersonator (release_detail identity))) events ->
  _by_application events = Ok l -> Forall (fun a => ap_attributes a = ∅) l.
Proof.
  unfold _by_application. intros Hall. assert (Forall (fun a => ap_attributes a = ∅) []) as Hacc by constructor. revert Hacc.
  generalize (@nil application). induction Hall as [|e rest (imp & identity & E) _ IH]; intros acc Hacc; cbn [group]; [by intros [= <-]|].
  unfold names_in. rewrite E, recorded_release_names_none. cbn [rbind]. apply IH. clear IH.
  induction Hacc as [|a acc Ha Hacc IH]; cbn [place]; [constructor; [done|constructor]|].
  destruct (String.eqb _ _); [|by constructor]. constructor; [|done]. cbn. rewrite Ha. set_solver.
Qed.

Section witnesses.

Definition demo_row (n : Z) (target : string) : AuditLog.AuditEventRecord := {|
  AuditLog.ar_event_id := "e"; AuditLog.ar_event_type := "attribute.release"; AuditLog.ar_outcome := "success";
  AuditLog.ar_occurred_at := n; AuditLog.ar_correlation_id := "c"; AuditLog.ar_actor := Some "sam"; AuditLog.ar_subject := Some "sam";
  AuditLog.ar_target := Some target; AuditLog.ar_reason := None; AuditLog.ar_source_ip := None; AuditLog.ar_user_agent := None;
  AuditLog.ar_session_id := None; AuditLog.ar_detail := [("protocol", JStr "oidc"); ("released", JArr [JStr "email"]); ("decisions", JArr [])];
  AuditLog.ar_seq := n; AuditLog.ar_prev_hash := ""; AuditLog.ar_hash := "" |}.
Definition demo_rows : list AuditLog.AuditEventRecord := [demo_row 1 "app"; demo_row 2 "lms"; demo_row 3 "app"].

Lemma releases_shown_are_own_witness : exists resp l,
  (my_releases demo_site demo_rows demo_browser demo_world).2 = Ok resp /\
  rs_content resp = Document (JObj [("window_days", JInt 90); ("since", JIso (5 - WINDOW)); ("applications", JArr (application_json <$> l))]) /\
  entry_of "app" l = Some {| ap_target := "app"; ap_releases := 2; ap_first_seen := 1; ap_last_seen := 3; ap_attributes := ∅ |}.
Proof.
  set (out := my_releases demo_site demo_rows demo_browser demo_world).
  assert (exists resp, out.2 = Ok resp) as [resp E] by (eexists; vm_compute; reflexivity).
  assert (my_releases demo_site demo_rows demo_browser demo_world = (out.1, Ok resp)) as E' by (rewrite <- E; apply surjective_pairing).
  destruct (releases_shown_are_own demo_site demo_rows demo_browser demo_world out.1 resp E') as (session & Hs & H).
  assert (session = Some (Sessions.touch (Sessions.new_session Sessions.ABSOLUTE_TIMEOUT "s1" Sessions.demo_login 0) 5)) as ->.
  { assert ((_current_session demo_site demo_browser demo_world).2 =
      Ok (Some (Sessions.touch (Sessions.new_session Sessions.ABSOLUTE_TIMEOUT "s1" Sessions.demo_login 0) 5))) as Hc by (vm_compute; reflexivity).
    rewrite Hc in Hs. by injection Hs. }
  destruct H as (since & l & Hsince & Hc & _ & Hsum & _).
  assert (since = 5 - WINDOW)%Z as Hs5 by (rewrite Hsince; vm_compute; reflexivity). clear Hsince. subst since.
  exists resp, l. split; [exact E|]. split; [exact Hc|]. rewrite Hsum. vm_compute. reflexivity.
Defined.

Lemma released_attributes_are_not_shown_witness :
  exists l, _by_application [demo_row 1 "app"] = Ok l /\ Forall (fun a => ap_attributes a = ∅) l.
Proof.
  eexists. split; [reflexivity|]. refine (released_attributes_are_not_shown [demo_row 1 "app"] _ _ _); [|reflexivity].
  constructor; [|constructor]. exists None, {| Release.ri_subject := "s"; Release.ri_claims := [("email", JStr "x")]; Release.ri_decisions := [] |}.
  vm_compute. reflexivity.
Defined.

End witnesses.

End Me.
