(* ===== verification/Mfa.v ===== *)
(** * Second factors over HTTP

    [campusid/routes/mfa.py], with [totp.new_secret] and
    [totp.provisioning_uri]: the handlers of [/mfa] over the factor tables of
    [Factors], the challenges of [Pending], the limiter of [RateLimit], the push
    client of [Push] and the sessions of [Sessions].  What the push service
    answers is an argument of the two handlers that ask it; a client that is
    missing and one without an address are one case.  Hashing, signatures,
    character classes and the flags of the rules files are parameters. *)

From S2P Require Import Prelude PyStr Dict Base64 Json JsonText JsonLoads Errors Redis Codec Url Lifecycle Roles AuditTrail.
From S2P Require Import Sessions Pending RateLimit DecisionCache Assurance Authz Cbor Totp Recovery WebAuthn Factors Push Site OAuth.

Module Mfa.

(** ** Enrolment material *)

Definition BASE32 : string := "ABCDEFGHIJKLMNOPQRSTUVWXYZ234567".

(** [base64.b32encode] of bytes that fill their last group, as the twenty of a
    secret do. *)
Definition b32_digit (i : Z) : ascii := default "A"%char (String.get (Z.to_nat i) BASE32).
Fixpoint b32_spell (digits : list Z) : string :=
  match digits with [] => "" | i :: l => String (b32_digit i) (b32_spell l) end.
Definition b32encode (raw : string) : string := b32_spell (Recovery._expand raw).
(** The random bytes are an argument. *)
Definition new_secret (raw : string) : string := b32encode raw.

(** [quote(s, safe="")]. *)
Fixpoint quote (s : string) : string :=
  match s with
  | EmptyString => EmptyString
  | String c r => (if Url.unreserved c then String c "" else Url.percent c) +:+ quote r
  end.

Definition provisioning_uri (secret account issuer : string) : string :=
  "otpauth://totp/" +:+ quote (issuer +:+ ":" +:+ account) +:+ "?" +:+
  Url.urlencode [("secret", secret); ("issuer", issuer); ("algorithm", "SHA1");
                 ("digits", Py.str_of_Z (Z.of_nat Totp.DIGITS)); ("period", Py.str_of_Z Totp.PERIOD)].

(** What an authenticator app decodes is what the broker drew. *)
Lemma b32_digit_value i : (0 <= i < 32)%Z ->
  Totp.b32_value (b32_digit i) = Some i /\ Py.upper_ascii (b32_digit i) = b32_digit i /\ Ascii.eqb (b32_digit i) "=" = false.
Proof.
  intros Hi.
  assert (forallb (fun n => let c := b32_digit (Z.of_nat n) in
    bool_decide (Totp.b32_value c = Some (Z.of_nat n)) && Ascii.eqb (Py.upper_ascii c) c && negb (Ascii.eqb c "=")) (seq 0 32) = true) as H
    by (vm_compute; reflexivity).
  rewrite forallb_forall in H. specialize (H (Z.to_nat i) ltac:(apply in_seq; lia)). cbv zeta in H. rewrite Z2Nat.id in H by lia.
  bool_prop. split_and!; [done|by apply Ascii.eqb_eq|done].
Qed.

Lemma b32_spell_app l l' : b32_spell (l ++ l') = b32_spell l +:+ b32_spell l'.
Proof. induction l as [|i l IH]; [done|]. cbn [b32_spell app]. by rewrite IH, Py.app_String. Qed.
Lemma b32_spell_length l : String.length (b32_spell l) = length l.
Proof. induction l as [|i l IH]; [done|]. cbn. by rewrite IH. Qed.
Lemma b32_spell_upper l : Forall (fun i => 0 <= i < 32)%Z l -> Py.upper (b32_spell l) = b32_spell l.
Proof.
  induction 1 as [|i l Hi _ IH]; [done|]. destruct (b32_digit_value i Hi) as (_ & Hu & _). cbn [b32_spell].
  change (Py.upper (String (b32_digit i) (b32_spell l))) with (String (Py.upper_ascii (b32_digit i)) (Py.upper (b32_spell l))).
  by rewrite Hu, IH.
Qed.
Lemma rstrip_spell l : Forall (fun i => 0 <= i < 32)%Z l -> Base64.rstrip_pad (b32_spell l) = b32_spell l.
Proof.
  intros Hl. rewrite <- (Py.app_nil_r (b32_spell l)) at 1. apply (Base64.rstrip_pad_pads (b32_spell l) 0).
  intros b c. revert b. induction Hl as [|i l Hi _ IH]; intros b E; [by destruct b|]. cbn [b32_spell] in E.
  destruct b as [|d b]; [|rewrite Py.app_String in E; injection E as _ E; by apply (IH b)].
  injection E as <- _. by destruct (b32_digit_value i Hi) as (_ & _ & ?).
Qed.

Lemma quantum_spell acc l : Forall (fun i => 0 <= i < 32)%Z l ->
  Totp.quantum acc (b32_spell l) = Some (foldl (fun acc d => acc * 32 + d)%Z acc l).
Proof.
  intros Hl. revert acc. induction Hl as [|i l Hi _ IH]; intros acc; [done|]. destruct (b32_digit_value i Hi) as (Hv & _).
  cbn [b32_spell Totp.quantum foldl]. rewrite Hv. apply IH.
Qed.

Lemma quanta_expand k fuel fuel' raw : String.length raw = (5 * k)%nat -> (k <= fuel)%nat -> (k <= fuel')%nat ->
  exists qs, Totp.quanta fuel' (b32_spell (Recovery.expand_go fuel raw)) = Some qs /\ Py.join "" (map (Cbor.be_bytes 5) qs) = raw.
Proof.
  revert fuel fuel' raw. induction k as [|k IH]; intros fuel fuel' raw Hr Hf Hf'.
  { destruct raw; [|cbn in Hr; lia]. exists []. by destruct fuel, fuel'. }
  destruct fuel as [|fuel]; [lia|]. destruct fuel' as [|fuel']; [lia|]. destruct raw as [|c raw]; [cbn in Hr; lia|].
  set (whole := String c raw) in *. assert (String.length (Py.take 5 whole) = 5%nat) as L5 by (rewrite Cbor.take_length; lia).
  assert (Recovery.expand_go (S fuel) whole =
    map (fun shift => Z.land (Z.shiftr (Cbor.be 0 (Py.take 5 whole)) shift) 31) Recovery.shifts ++ Recovery.expand_go fuel (Py.drop 5 whole)) as ->.
  { rewrite <- (Recovery.ljust5_full _ L5). reflexivity. }
  set (group := map _ _). destruct (Cbor.be_range 5 _ L5) as [Rg Bg]. change (256 ^ Z.of_nat 5)%Z with (2 ^ 40)%Z in Rg.
  assert (Forall (fun i => 0 <= i < 32)%Z group) as Hg.
  { subst group. unfold Recovery.shifts. cbn [map]. repeat constructor; change 31%Z with (Z.ones 5); rewrite Z.land_ones by lia; apply Z.mod_pos_bound; lia. }
  rewrite b32_spell_app. assert (String.length (b32_spell group) = 8%nat) as L8 by (by rewrite b32_spell_length).
  destruct (IH fuel fuel' (Py.drop 5 whole)) as (qs & Eq & Ej); [rewrite Cbor.drop_length; lia|lia|lia|].
  exists (Cbor.be 0 (Py.take 5 whole) :: qs). split.
  - assert (Totp.quanta (S fuel') (b32_spell group +:+ b32_spell (Recovery.expand_go fuel (Py.drop 5 whole))) =
      match Totp.quantum 0 (Py.take 8 (b32_spell group +:+ b32_spell (Recovery.expand_go fuel (Py.drop 5 whole)))),
            Totp.quanta fuel' (Py.drop 8 (b32_spell group +:+ b32_spell (Recovery.expand_go fuel (Py.drop 5 whole)))) with
      | Some q, Some qs => Some (q :: qs) | _, _ => None end) as -> by done.
    set (rest := b32_spell (Recovery.expand_go _ _)) in *.
    pose proof (Cbor.take_app (b32_spell group) rest) as Et. pose proof (Py.drop_app (b32_spell group) rest) as Ed. rewrite L8 in Et, Ed.
    rewrite Et, Ed, Eq, quantum_spell by done.
    subst group. by rewrite Recovery.shifts_value.
  - cbn [map]. rewrite <- (Py.take_drop 5 whole) at 2. rewrite <- Ej, Bg. by destruct qs; [rewrite Py.app_nil_r|].
Qed.

(** An enrolled secret is the bytes the broker drew: an app that decodes the text it is
    shown, case folded and padded the way the verifier does it, computes with them. *)
Theorem secret_reads_back (raw : string) : String.length raw = Totp.SECRET_BYTES ->
  String.length (new_secret raw) = 32%nat /\ Totp._decode (new_secret raw) = Ok raw.
Proof.
  intros Hr. assert (String.length (new_secret raw) = 32%nat) as L.
  { unfold new_secret, b32encode. rewrite b32_spell_length. unfold Recovery._expand. rewrite Hr.
    do 20 (destruct raw as [|? raw]; [discriminate|]). destruct raw; [reflexivity|discriminate]. }
  split; [exact L|]. unfold Totp._decode. rewrite L. cbn [Nat.modulo Nat.sub Nat.divmod fst snd Py.repeat_str]. rewrite Py.app_nil_r.
  assert (Forall (fun i => 0 <= i < 32)%Z (Recovery._expand raw)) as Hg by apply Recovery.expand_range.
  unfold Totp.b32decode, new_secret, b32encode in *. rewrite !b32_spell_upper by done. rewrite L. cbn [Nat.modulo Nat.eqb Nat.sub Nat.divmod fst snd negb].
  assert (Base64.rstrip_pad (b32_spell (Recovery._expand raw)) = b32_spell (Recovery._expand raw)) as -> by (by apply rstrip_spell).
  rewrite L, Nat.sub_diag. cbn [Nat.eqb].
  destruct (quanta_expand 4 (String.length raw) 32 raw) as (qs & Eq & Ej); [by rewrite Hr|rewrite Hr; unfold Totp.SECRET_BYTES; lia|lia|].
  unfold Recovery._expand. rewrite Eq. rewrite bool_decide_true by constructor. cbn [negb]. by rewrite Ej.
Qed.

(** ** Responses *)

Definition NO_STORE : list (string * string) := [("Cache-Control", "no-store")].
Definition MAX_LABEL : nat := 128.
Definition PUSH := "push".
Definition RECOVERY := "recovery".

Definition _refuse (error : string) (status : Z) : Site.Response :=
  Site.json_response status (JObj [("error", JStr error)]) NO_STORE.
Definition UNAUTHENTICATED := "authentication_required".
Definition UNRESOLVED := "identity_not_resolved".
Definition BAD_REQUEST := "invalid_request".
Definition REJECTED := "verification_failed".
Definition NOT_FOUND := "not_found".
Definition STEP_UP_REQUIRED := "step_up_required".
Definition PUSH_UNAVAILABLE := "push_unavailable".

Definition _locked (exc : string * Z) : Site.Response :=
  Site.json_response 429 (JObj [("error", JStr exc.1); ("retry_after", JInt exc.2)])
    (NO_STORE ++ [("Retry-After", Py.str_of_Z exc.2)]).

(** ** Reading a body *)

(** Anything that is not an object reads as one without members. *)
Definition _json (body : string) : list (string * json) :=
  match JsonLoads.loads body with Some (JObj m) => m | _ => [] end.

Definition _b64url (value : json) : option string :=
  match value with
  | JStr v =>
      match Base64.decode_strict (Py.smap Base64.of_url (Base64.pad v)) with
      | None | Some "" => None
      | Some raw => Some raw
      end
  | _ => None
  end.

(** The code points of a text. *)
Definition points (s : string) : list Z :=
  match Utf8.decode s with Some l => l | None => (fun c => Utf8.byte c) <$> String.list_ascii_of_string s end.

Section api.
Context {R : Type} `{RedisServer R} {Priv : Type}.

(** The site, and the tables of factors and of role assignments. *)
Record state : Type := {
  world : Site.world R;
  tables : Factors.Db;
  roles : Roles.table;
}.
Definition set_world (w : Site.world R) (s : state) : state := {| world := w; tables := tables s; roles := roles s |}.
Definition set_tables (db : Factors.Db) (s : state) : state := {| world := world s; tables := db; roles := roles s |}.

Inductive raised : Type :=
| Broker (e : exn)
| FromStore (e : Factors.exn).

Definition call (A : Type) : Type := state -> state * result raised A.
Definition ret {A} (a : A) : call A := fun s => (s, Ok a).
Definition andthen {A B} (m : call A) (k : A -> call B) : call B := fun s =>
  match m s with (s', Ok a) => k a s' | (s', Err e) => (s', Err e) end.

(** [try: m except X as exc: return h(exc)], and [k] after it. *)
Definition attempt {A E} (m : call A) (catches : raised -> option E) (h : E -> call Site.Response) (k : A -> call Site.Response)
  : call Site.Response := fun s =>
  match m s with
  | (s', Ok a) => k a s'
  | (s', Err e) => match catches e with Some x => h x s' | None => (s', Err e) end
  end.

Definition on_site {A} (m : Site.M (R := R) A) : call A := fun s =>
  let '(w, r) := m (world s) in
  (set_world w s, match r with Ok a => Ok a | Err e => Err (Broker e) end).

(** A transaction of the factor store at the moment of the request: it commits
    when it returns. *)
Definition store {A} (f : Factors.Db -> moment -> result Factors.exn (Factors.Db * A)) : call A := fun s =>
  match f (tables s) (Site.w_now (world s)) with
  | Ok (db, a) => (set_tables db s, Ok a)
  | Err e => (s, Err (FromStore e))
  end.
Definition query {A} (f : state -> A) : call A := fun s => (s, Ok (f s)).

(** What the [except] clauses of the handlers cover. *)
Definition mfa_error (e : raised) : option string :=
  match e with FromStore (Factors.MfaError r) => Some r | _ => None end.
Definition totp_rejected (e : raised) : option string :=
  match e with FromStore (Factors.FromTotp (Totp.TotpRejected r)) => Some r | _ => None end.
Definition rate_limited (e : raised) : option (string * Z) :=
  match e with Broker (RateLimited r n) => Some (r, n) | _ => None end.
(** [except TotpRejected ... except MfaError]. *)
Definition confirm_errors (e : raised) : option (string + string) :=
  match totp_rejected e, mfa_error e with Some r, _ => Some (inl r) | None, Some r => Some (inr r) | None, None => None end.
(** [except WebAuthnRejected ... except MfaError]. *)
Definition webauthn_errors (e : raised) : option (string + string) :=
  match e with
  | FromStore (Factors.FromWebAuthn (WebAuthn.WebAuthnRejected r)) => Some (inl r)
  | FromStore (Factors.MfaError r) => Some (inr r)
  | _ => None
  end.

Notation "'call*' x := m 'in' k" := (andthen m (fun x => k)) (at level 10, x name, m at level 200, k at level 200).

(** What the broker is configured with, and the libraries it calls. *)
Record Settings : Type := {
  service_name : string;
  webauthn_rp_id : string;
  webauthn_origin : string;
  push_configured : bool;
  hmac_sha1 : string -> string -> string;
  isspace : Z -> bool;
  isdigit : Z -> bool;
  lib : WebAuthn.keys;
  argon2_hash : string -> string;
  argon2_verify : string -> string -> option bool;
  rule_requires_aal2 : string -> option bool;
  role_requires_aal2 : string -> option bool;
}.
Context (app : OAuth.App (Priv := Priv)) (cfg : Settings).

Definition draw : call string := on_site (Site.fresh (OAuth.draw app)).

(** [n] pairs of an identifier and the entropy of a code. *)
Fixpoint draws (n : nat) : call (list (string * string)) :=
  match n with
  | O => ret []
  | S n' => call* entropy := draw in call* id := draw in call* rest := draws n' in ret ((id, entropy) :: rest)
  end.

(** [str(body.get(k) or "")]. *)
Definition text_of (body : list (string * json)) (k : string) : string :=
  let v := Json.get body k in
  if Json.truthy v then match v with JStr s => s | j => OAuth.shown app j end else "".

Definition bad_label (label : string) : bool :=
  String.eqb label "" || (MAX_LABEL <? length (points label))%nat.

Definition _caller (q : Site.Request) : call (option Sessions.Session) := on_site (OAuth._current_session app q).

(** How every handler starts. *)
Definition with_person (q : Site.Request) (k : Sessions.Session -> string -> call Site.Response) : call Site.Response :=
  call* session := _caller q in
  match session with
  | None => ret (_refuse UNAUTHENTICATED 401)
  | Some session =>
      match Sessions.s_person_uuid session with
      | None => ret (_refuse UNRESOLVED 409)
      | Some person => k session person
      end
  end.

Definition record (event : Events.EventType) (outcome : Events.Outcome) (person : string) (detail : list (string * json)) : call unit :=
  on_site (Site.audit event outcome
    {| Site.t_actor := None; Site.t_subject := Some person; Site.t_target := None; Site.t_reason := None;
       Site.t_session_id := None; Site.t_detail := detail |}
    {| Site.source_ip := None; Site.user_agent := None |}).

(** ** Counting and locking *)

Definition check (person kind : string) : call unit := on_site (Site.redis (RateLimit.check RateLimit.LOCKOUT person kind)).

Definition _failed (person kind reason : string) : call Site.Response :=
  attempt (on_site (Site.redis (RateLimit.record_failure RateLimit.THRESHOLD RateLimit.WINDOW RateLimit.LOCKOUT person kind)))
    rate_limited (fun exc => ret (_locked exc)) (fun outcome =>
  let attempts := ("attempts", JInt (RateLimit.attempts outcome)) in
  call* _ := record Events.MFA_FAILED Events.FAILURE person [("kind", JStr kind); ("reason", JStr reason); attempts] in
  if RateLimit.locked outcome then
    call* _ := record Events.MFA_LOCKED_OUT Events.DENIED person [("kind", JStr kind); attempts] in
    ret (_locked (RateLimit.LOCKED, whole_seconds RateLimit.LOCKOUT))
  else ret (_refuse REJECTED 400)).

(** The application always has a decision cache. *)
Definition _invalidate (person : string) : call unit := on_site (Site.redis (DecisionCache.invalidate person)).

Definition _elevate (session : Sessions.Session) (person kind factor category : string) : call Site.Response :=
  call* _ := on_site (Site.redis (RateLimit.record_success person kind)) in
  call* now := on_site Site.get_now in
  let raised := Assurance.elevated (Sessions.s_amr session) category (Sessions.s_auth_time session) now Assurance.MAX_SPAN in
  call* new_sid := draw in
  call* moved := on_site (Site.load_session (Sessions.elevate (OAuth.sha256_hex app) Sessions.IDLE_TIMEOUT Sessions.ABSOLUTE_TIMEOUT
    Sessions.SESSION_KEY_PREFIX new_sid (Sessions.s_sid session) (Assurance.acr raised) (Assurance.amr raised) now)) in
  match moved with
  | None => ret (_refuse UNAUTHENTICATED 401)
  | Some moved =>
      call* _ := _invalidate person in
      call* _ := record Events.MFA_STEP_UP Events.SUCCESS person
        [("kind", JStr kind); ("factor", JStr factor); ("acr", JStr (Assurance.acr raised)); ("amr", Codec.of_strings (Assurance.amr raised))] in
      ret {| Site.rs_status := 200; Site.rs_headers := NO_STORE;
             Site.rs_content := Site.Document (JObj [("acr", JStr (Assurance.acr raised)); ("amr", Codec.of_strings (Assurance.amr raised));
               ("auth_time", JIso (Assurance.auth_time raised))]);
             Site.rs_cookies := [Site.set_session_cookie (Sessions.s_sid moved)] |}
  end.

(** ** Enrolment *)

Definition begin_totp (q : Site.Request) (body : string) : call Site.Response :=
  with_person q (fun session person =>
  let label := Py.strip (text_of (_json body) "label") in
  if bad_label label then ret (_refuse BAD_REQUEST 400)
  else
    call* raw := draw in
    call* id := draw in
    attempt (store (fun db now => Factors.begin_totp db person label id (new_secret raw) now)) mfa_error
      (fun reason => ret (_refuse reason (if String.eqb reason Factors.DUPLICATE_LABEL then 409 else 400)))
      (fun enrolment =>
    call* _ := record Events.MFA_ENROLMENT_STARTED Events.SUCCESS person
      [("factor", JStr enrolment.1); ("kind", JStr "totp"); ("label", JStr label)] in
    ret (Site.json_response 201 (JObj [("id", JStr enrolment.1); ("kind", JStr "totp"); ("label", JStr label);
      ("secret", JStr enrolment.2);
      ("otpauth_uri", JStr (provisioning_uri enrolment.2 (Sessions.s_name_id session) (service_name cfg)))]) NO_STORE))).

Definition confirm_totp (factor_id : string) (q : Site.Request) (body : string) : call Site.Response :=
  with_person q (fun session person =>
  match Uuid.parse factor_id with
  | None => ret (_refuse NOT_FOUND 404)
  | Some parsed =>
      let code := text_of (_json body) "code" in
      attempt (store (fun db now => let* db' := Factors.confirm_totp (hmac_sha1 cfg) (isspace cfg) (isdigit cfg) db person parsed (points code) now in Ok (db', tt)))
        confirm_errors (fun e => match e with
          | inl reason =>
              call* _ := record Events.MFA_ENROLMENT_FAILED Events.FAILURE person [("factor", JStr factor_id); ("reason", JStr reason)] in
              ret (_refuse REJECTED 400)
          | inr _ => ret (_refuse NOT_FOUND 404)
          end) (fun _ =>
      call* _ := record Events.MFA_ENROLLED Events.SUCCESS person [("factor", JStr factor_id); ("kind", JStr "totp")] in
      ret (Site.json_response 200 (JObj [("id", JStr factor_id); ("confirmed", JBool true)]) NO_STORE))
  end).

(** [int(challenges.TTL.total_seconds() * 1000)]. *)
Definition timeout : json := JInt (Z.quot (Pending.TTL * 1000) SECOND).
Definition descriptor (id : string) : json := JObj [("type", JStr "public-key"); ("id", JStr (Base64.b64url id))].

Definition issue_challenge (person ceremony : string) : call string :=
  call* challenge := draw in on_site (Site.redis (Pending.issue Pending.TTL challenge person ceremony)).

Definition webauthn_options (q : Site.Request) : call Site.Response :=
  with_person q (fun session person =>
  call* challenge := issue_challenge person Pending.REGISTER in
  call* existing := query (fun s => Factors.credential_ids (tables s) person) in
  ret (Site.json_response 200 (JObj [
    ("challenge", JStr (Base64.b64url challenge));
    ("rp", JObj [("id", JStr (webauthn_rp_id cfg)); ("name", JStr (service_name cfg))]);
    ("user", JObj [("id", JStr (Base64.b64url person)); ("name", JStr (Sessions.s_name_id session)); ("displayName", JStr (Sessions.s_name_id session))]);
    ("pubKeyCredParams", JArr ((fun alg => JObj [("type", JStr "public-key"); ("alg", JInt alg)]) <$> WebAuthn.SUPPORTED_ALGORITHMS));
    ("attestation", JStr "none");
    ("authenticatorSelection", JObj [("userVerification", JStr "preferred"); ("residentKey", JStr "preferred")]);
    ("excludeCredentials", JArr (descriptor <$> existing));
    ("timeout", timeout)]) NO_STORE)).

Definition register_webauthn (q : Site.Request) (body : string) : call Site.Response :=
  with_person q (fun session person =>
  let body := _json body in
  let label := Py.strip (text_of body "label") in
  if bad_label label then ret (_refuse BAD_REQUEST 400)
  else match _b64url (Json.get body "clientDataJSON"), _b64url (Json.get body "attestationObject") with
  | Some client_data, Some attestation =>
      call* challenge := on_site (Site.redis (Pending.challenge_consume person Pending.REGISTER)) in
      match challenge with
      | None => ret (_refuse REJECTED 400)
      | Some challenge =>
          call* id := draw in
          attempt (store (fun db now => Factors.register_webauthn (OAuth.sha256 app) JsonLoads.loads (OAuth.shown app) (lib cfg) db person label id
                            client_data attestation challenge (webauthn_origin cfg) (webauthn_rp_id cfg) now))
            webauthn_errors (fun e => match e with
              | inl reason =>
                  call* _ := record Events.MFA_ENROLMENT_FAILED Events.FAILURE person [("kind", JStr "webauthn"); ("reason", JStr reason)] in
                  ret (_refuse REJECTED 400)
              | inr reason => ret (_refuse reason 409)
              end) (fun factor_id =>
          call* _ := record Events.MFA_ENROLLED Events.SUCCESS person
            [("factor", JStr factor_id); ("kind", JStr "webauthn"); ("label", JStr label)] in
          ret (Site.json_response 201 (JObj [("id", JStr factor_id); ("kind", JStr "webauthn"); ("label", JStr label)]) NO_STORE))
      end
  | _, _ => ret (_refuse BAD_REQUEST 400)
  end).

(** ** Step-up *)

Definition challenge (q : Site.Request) : call Site.Response :=
  with_person q (fun session person =>
  call* categories := query (fun s => Factors.categories_for (tables s) person) in
  call* credentials := query (fun s => Factors.credential_ids (tables s) person) in
  let available := Assurance.sorted_set (categories ++ if push_configured cfg then [PUSH] else []) in
  let body := [
    ("acr", Codec.of_opt_str (Sessions.s_acr session)); ("amr", Codec.of_strings (Sessions.s_amr session));
    ("factors", Codec.of_strings available);
    ("simulated", Codec.of_strings (if bool_decide (PUSH ∈ available) then [PUSH] else []))] in
  match credentials with
  | [] => ret (Site.json_response 200 (JObj body) NO_STORE)
  | _ =>
      call* challenge := issue_challenge person Pending.AUTHENTICATE in
      ret (Site.json_response 200 (JObj (body ++ [("webauthn", JObj [
        ("challenge", JStr (Base64.b64url challenge)); ("rpId", JStr (webauthn_rp_id cfg));
        ("allowCredentials", JArr (descriptor <$> credentials)); ("userVerification", JStr "preferred");
        ("timeout", timeout)])])) NO_STORE)
  end).

Definition limited (person kind : string) (k : call Site.Response) : call Site.Response :=
  attempt (check person kind) rate_limited (fun exc => ret (_locked exc)) (fun _ => k).

Definition step_up_totp (q : Site.Request) (body : string) : call Site.Response :=
  with_person q (fun session person =>
  let code := text_of (_json body) "code" in
  limited person Factors.TOTP
    (attempt (store (fun db now => Factors.verify_totp (hmac_sha1 cfg) (isspace cfg) (isdigit cfg) db person (points code) now))
      totp_rejected (fun reason => _failed person Factors.TOTP reason)
      (fun factor_id => _elevate session person Factors.TOTP factor_id (Factors.CATEGORY Factors.TOTP)))).

Definition step_up_webauthn (q : Site.Request) (body : string) : call Site.Response :=
  with_person q (fun session person =>
  let body := _json body in
  match _b64url (Json.get body "id"), _b64url (Json.get body "clientDataJSON"),
        _b64url (Json.get body "authenticatorData"), _b64url (Json.get body "signature") with
  | Some credential_id, Some client_data, Some authenticator_data, Some signature =>
      limited person Factors.WEBAUTHN (
        call* outstanding := on_site (Site.redis (Pending.challenge_consume person Pending.AUTHENTICATE)) in
        match outstanding with
        | None => _failed person Factors.WEBAUTHN "mfa.no_outstanding_challenge"
        | Some outstanding =>
            attempt (store (fun db now => Factors.verify_webauthn (OAuth.sha256 app) JsonLoads.loads (OAuth.shown app) (lib cfg) db person
                              credential_id client_data authenticator_data signature outstanding (webauthn_origin cfg) (webauthn_rp_id cfg) now))
              webauthn_errors (fun e => match e with inl reason | inr reason => _failed person Factors.WEBAUTHN reason end)
              (fun assertion => _elevate session person Factors.WEBAUTHN
                (Py.take 16 (Hex.encode (WebAuthn.a_credential_id assertion))) (Factors.CATEGORY Factors.WEBAUTHN))
        end)
  | _, _, _, _ => ret (_refuse BAD_REQUEST 400)
  end).

(** [answer]: the identifier the push service gives the request, or nothing. *)
Definition start_push (q : Site.Request) (answer : option string) : call Site.Response :=
  with_person q (fun session person =>
  if negb (push_configured cfg) then ret (_refuse PUSH_UNAVAILABLE 503)
  else limited person PUSH (
    call* sent := on_site (Site.redis (Push.send Push.WINDOW answer person)) in
    match sent with
    | Push.PushUnavailable => ret (_refuse PUSH_UNAVAILABLE 503)
    | Push.Sent request_id =>
        ret (Site.json_response 201 (JObj [("id", JStr request_id); ("expires_in", JInt (whole_seconds Push.WINDOW))]) NO_STORE)
    end)).

(** [status]: what the push service reports of the request, or nothing. *)
Definition poll_push (request_id : string) (q : Site.Request) (status : option string) : call Site.Response :=
  with_person q (fun session person =>
  if negb (push_configured cfg) then ret (_refuse PUSH_UNAVAILABLE 503)
  else
    call* outcome := on_site (Site.redis (Push.outcome status person request_id)) in
    if String.eqb outcome Push.PENDING then
      ret (Site.json_response 202 (JObj [("status", JStr Push.PENDING)]) NO_STORE)
    else if String.eqb outcome Push.UNAVAILABLE then ret (_refuse PUSH_UNAVAILABLE 503)
    else if negb (String.eqb outcome Push.APPROVED) then _failed person PUSH ("mfa.push_" +:+ outcome)
    else _elevate session person PUSH request_id Assurance.PUSH).

Definition step_up_recovery (q : Site.Request) (body : string) : call Site.Response :=
  with_person q (fun session person =>
  let code := text_of (_json body) "code" in
  limited person RECOVERY
    (attempt (store (fun db now => Factors.redeem_recovery_code (argon2_verify cfg) db person code now))
      mfa_error (fun reason => _failed person RECOVERY reason)
      (fun remaining => _elevate session person RECOVERY "recovery" Assurance.RECOVERY))).

Definition issue_recovery (q : Site.Request) : call Site.Response :=
  with_person q (fun session person =>
  if negb (Assurance.satisfies_aal2 (Sessions.s_amr session)) then ret (_refuse STEP_UP_REQUIRED 403)
  else
    call* fresh := draws Recovery.COUNT in
    call* codes := store (fun db now => Ok (Factors.issue_recovery_codes (argon2_hash cfg) db person fresh now)) in
    call* _ := record Events.MFA_RECOVERY_ISSUED Events.SUCCESS person [("count", JInt (Z.of_nat (length codes)))] in
    ret (Site.json_response 201 (JObj [("codes", Codec.of_strings codes)]) NO_STORE)).

(** ** What is enrolled *)

(** [uuid.UUID(session.person_uuid)] is the identifier of a row already. *)
Definition enrolment_requirement (q : Site.Request) : call Site.Response :=
  with_person q (fun session person =>
  call* required := query (fun s =>
    let today := (Site.w_now (world s) / (86400 * SECOND))%Z in
    Assurance.requirement (elements (Lifecycle.held (Site.w_lifecycle (world s)) person today))
      (elements (Roles.roles_for (roles s) person today)) (rule_requires_aal2 cfg) (role_requires_aal2 cfg)
      (Factors.has_factor (tables s) person)) in
  ret (Site.json_response 200 (JObj [("required", JBool (Assurance.required required));
    ("reasons", Codec.of_strings (Assurance.reasons required))]) NO_STORE)).

Definition row_json (row : Factors.MfaFactor) : json := JObj [
  ("id", JStr (Factors.f_id row)); ("kind", JStr (Factors.f_kind row)); ("label", JStr (Factors.f_label row));
  ("confirmed", JBool (negb (Factors.is_null (Factors.f_confirmed_at row))));
  ("disabled", JBool (negb (Factors.is_null (Factors.f_disabled_at row))));
  ("last_used", match Factors.f_last_used_at row with Some m => JIso m | None => JNull end)].

Definition factors (q : Site.Request) : call Site.Response :=
  with_person q (fun session person =>
  call* rows := query (fun s => Factors.factors_for (tables s) person) in
  ret (Site.json_response 200 (JObj [("factors", JArr (row_json <$> rows))]) NO_STORE)).

Definition disable_factor (factor_id : string) (q : Site.Request) : call Site.Response :=
  with_person q (fun session person =>
  match Uuid.parse factor_id with
  | None => ret (_refuse NOT_FOUND 404)
  | Some parsed =>
      attempt (store (fun db now => let* db' := Factors.disable db person parsed now in Ok (db', tt)))
        mfa_error (fun _ => ret (_refuse NOT_FOUND 404)) (fun _ =>
      call* _ := record Events.MFA_FACTOR_REMOVED Events.SUCCESS person [("factor", JStr factor_id)] in
      ret (Site.json_response 200 (JObj [("id", JStr factor_id); ("disabled", JBool true)]) NO_STORE))
  end).

(** ** The handlers together *)

Inductive action : Type :=
| BeginTotp (body : string)
| ConfirmTotp (factor_id body : string)
| WebauthnOptions
| RegisterWebauthn (body : string)
| Challenge
| StepUpTotp (body : string)
| StepUpWebauthn (body : string)
| StartPush (answer : option string)
| PollPush (request_id : string) (status : option string)
| StepUpRecovery (body : string)
| IssueRecovery
| EnrolmentRequirement
| ListFactors
| DisableFactor (factor_id : string).

Definition perform (q : Site.Request) (a : action) : call Site.Response :=
  match a with
  | BeginTotp body => begin_totp q body
  | ConfirmTotp factor_id body => confirm_totp factor_id q body
  | WebauthnOptions => webauthn_options q
  | RegisterWebauthn body => register_webauthn q body
  | Challenge => challenge q
  | StepUpTotp body => step_up_totp q body
  | StepUpWebauthn body => step_up_webauthn q body
  | StartPush answer => start_push q answer
  | PollPush request_id status => poll_push request_id q status
  | StepUpRecovery body => step_up_recovery q body
  | IssueRecovery => issue_recovery q
  | EnrolmentRequirement => enrolment_requirement q
  | ListFactors => factors q
  | DisableFactor factor_id => disable_factor factor_id q
  end.

(** ** What is left alone *)

(** Computations that leave the tables as they are. *)
Definition still {A} (m : call A) : Prop := forall s, tables (m s).1 = tables s.

Lemma still_ret {A} (a : A) : still (ret a).
Proof. done. Qed.
Lemma still_query {A} (f : state -> A) : still (query f).
Proof. done. Qed.
Lemma still_site {A} (m : Site.M A) : still (on_site m).
Proof. intros s. unfold on_site. by destruct (m (world s)). Qed.
Lemma still_andthen {A B} (m : call A) (k : A -> call B) : still m -> (forall a, still (k a)) -> still (andthen m k).
Proof. intros Hm Hk s. unfold andthen. specialize (Hm s). destruct (m s) as [s' [a|e]]; [|done]. by rewrite Hk. Qed.
Lemma still_attempt {A E} (m : call A) (c : raised -> option E) h k :
  still m -> (forall e, still (h e)) -> (forall a, still (k a)) -> still (attempt m c h k).
Proof.
  intros Hm Hh Hk s. unfold attempt. specialize (Hm s). destruct (m s) as [s' [a|e]]; [by rewrite Hk|].
  destruct (c e); [by rewrite Hh|done].
Qed.
Lemma still_draws n : still (draws n).
Proof.
  induction n as [|n IH]; [done|]. cbn [draws]. apply still_andthen; [apply still_site|intros ?].
  apply still_andthen; [apply still_site|intros ?]. by apply still_andthen.
Qed.

(** The rows of everybody but [p]. *)
Definition others (p : string) (db : Factors.Db) : list Factors.MfaFactor * list Factors.RecoveryCode :=
  (List.filter (fun f => negb (String.eqb (Factors.f_person f) p)) (Factors.factors db),
   List.filter (fun c => negb (String.eqb (Factors.c_person c) p)) (Factors.codes db)).

Definition unique_ids (db : Factors.Db) : Prop :=
  NoDup (Factors.f_id <$> Factors.factors db) /\ NoDup (Factors.c_id <$> Factors.codes db).

(** Computations that leave the rows of everybody but [p] as they are. *)
Definition own {A} (p : string) (m : call A) : Prop :=
  forall s, unique_ids (tables s) -> others p (tables (m s).1) = others p (tables s).

Lemma own_still {A} p (m : call A) : still m -> own p m.
Proof. intros Hm s _. by rewrite Hm. Qed.
Lemma own_after {A B} p (m : call A) (k : A -> call B) : still m -> (forall a, own p (k a)) -> own p (andthen m k).
Proof.
  intros Hm Hk s Hu. unfold andthen. specialize (Hm s). destruct (m s) as [s' [a|e]]; cbn in Hm |- *; [|by rewrite Hm].
  rewrite Hk; by rewrite Hm.
Qed.
Lemma own_attempt {A E} p (m : call A) (c : raised -> option E) h k :
  own p m -> (forall e, still (h e)) -> (forall a, still (k a)) -> own p (attempt m c h k).
Proof.
  intros Hm Hh Hk s Hu. unfold attempt. specialize (Hm s Hu). destruct (m s) as [s' [a|e]]; [by rewrite Hk|].
  destruct (c e); [by rewrite Hh|done].
Qed.
Lemma own_attempt_after {A E} p (m : call A) (c : raised -> option E) h k :
  still m -> (forall e, still (h e)) -> (forall a, own p (k a)) -> own p (attempt m c h k).
Proof.
  intros Hm Hh Hk s Hu. unfold attempt. specialize (Hm s). destruct (m s) as [s' [a|e]]; cbn in Hm |- *.
  - rewrite Hk; by rewrite Hm.
  - destruct (c e); cbn; by rewrite ?Hh, Hm.
Qed.
Lemma own_begin {A B} p (m : call A) (k : A -> call B) : own p m -> (forall a, still (k a)) -> own p (andthen m k).
Proof. intros Hm Hk s Hu. unfold andthen. specialize (Hm s Hu). destruct (m s) as [s' [a|e]]; [|done]. by rewrite Hk. Qed.
Lemma own_store {A} p (f : Factors.Db -> moment -> result Factors.exn (Factors.Db * A)) :
  (forall db now db' a, unique_ids db -> f db now = Ok (db', a) -> others p db' = others p db) -> own p (store f).
Proof. intros Hf s Hu. unfold store. destruct (f _ _) as [[db' a]|e] eqn:E; [|done]. cbn. by eapply Hf. Qed.

(** A change of the rows of one person is seen by nobody else. *)
Lemma filter_after_map {A} (keep : A -> bool) (g : A -> A) l :
  (forall x, x ∈ l -> g x = x \/ keep x = false /\ keep (g x) = false) ->
  List.filter keep (map g l) = List.filter keep l.
Proof.
  induction l as [|x l IH]; intros Hg; [done|]. cbn [map List.filter].
  rewrite IH by (intros y Hy; apply Hg; by constructor).
  destruct (Hg x ltac:(constructor)) as [->|[-> ->]]; done.
Qed.

Lemma row_by_id {A} (id : A -> string) l x y : NoDup (id <$> l) -> x ∈ l -> y ∈ l -> id x = id y -> x = y.
Proof.
  induction l as [|z l IH]; intros Hn Hx Hy E; [by apply elem_of_nil in Hx|]. rewrite fmap_cons in Hn.
  apply NoDup_cons in Hn as [Hz Hn].
  apply elem_of_cons in Hx as [->|Hx]; apply elem_of_cons in Hy as [->|Hy]; [done| | |by apply IH].
  - exfalso. apply Hz. rewrite E. by apply list_elem_of_fmap_2.
  - exfalso. apply Hz. rewrite <- E. by apply list_elem_of_fmap_2.
Qed.

(** Changing the row of an identifier that is [p]'s, for one of [p]'s. *)
Lemma others_set p id g db f :
  unique_ids db -> f ∈ Factors.factors db -> Factors.f_id f = id -> Factors.f_person f = p ->
  (forall x, Factors.f_person (g x) = Factors.f_person x) -> others p (Factors.set_factor g id db) = others p db.
Proof.
  intros [Hu _] Hf Hid Hp Hg. unfold others, Factors.set_factor. cbn. f_equal. apply filter_after_map. intros x Hx.
  destruct (String.eqb_spec (Factors.f_id x) id) as [E|E]; [|by left]. right. rewrite Hg.
  assert (x = f) as -> by (eapply (row_by_id Factors.f_id); eauto; congruence). rewrite Hp, String.eqb_refl. done.
Qed.

Lemma others_add p f db : Factors.f_person f = p -> others p (Factors.add_factor f db) = others p db.
Proof.
  intros Hp. unfold others, Factors.add_factor. cbn. rewrite List.filter_app. cbn. rewrite Hp, String.eqb_refl. cbn. by rewrite app_nil_r.
Qed.

Lemma live_row db p id f : Factors._live db p id = Some f ->
  f ∈ Factors.factors db /\ Factors.f_id f = id /\ Factors.f_person f = p /\ Factors.f_disabled_at f = None.
Proof.
  unfold Factors._live. intros [Hin Hp]%find_some. apply list_elem_of_In in Hin. bool_prop.
  split_and!; [done..|]. by destruct (Factors.f_disabled_at f).
Qed.

Lemma confirmed_row db p kind f : f ∈ Factors._confirmed db p (Some kind) ->
  f ∈ Factors.factors db /\ Factors.f_person f = p /\ Factors.f_kind f = kind /\
  Factors.f_disabled_at f = None /\ Factors.f_confirmed_at f <> None.
Proof.
  unfold Factors._confirmed. rewrite merge_sort_Permutation. intros Hin.
  apply list_elem_of_In, filter_In in Hin as [Hin Hc]. apply list_elem_of_In in Hin. unfold Factors.is_confirmed in Hc. bool_prop.
  split_and!; [done..| |]; [by destruct (Factors.f_disabled_at f)|by destruct (Factors.f_confirmed_at f)].
Qed.

(** ** Everybody's factors are their own *)

Lemma still_record e o p d : still (record e o p d).
Proof. apply still_site. Qed.
Lemma still_failed p kind reason : still (_failed p kind reason).
Proof.
  unfold _failed. apply still_attempt; [apply still_site|done|intros outcome]. apply still_andthen; [apply still_record|intros _].
  destruct (RateLimit.locked outcome); [|done]. apply still_andthen; [apply still_record|done].
Qed.
Lemma still_elevate session p kind factor category : still (_elevate session p kind factor category).
Proof.
  unfold _elevate. apply still_andthen; [apply still_site|intros _]. apply still_andthen; [apply still_site|intros now].
  apply still_andthen; [apply still_site|intros sid]. apply still_andthen; [apply still_site|intros [moved|]]; [|done].
  apply still_andthen; [apply still_site|intros _]. apply still_andthen; [apply still_record|done].
Qed.
Lemma still_issue p ceremony : still (issue_challenge p ceremony).
Proof. apply still_andthen; [apply still_site|intros ?; apply still_site]. Qed.
Lemma own_limited p kind k : own p k -> own p (limited p kind k).
Proof. intros Hk. apply own_attempt_after; [apply still_site|done|done]. Qed.

(** What a person's request does to the tables. *)
Definition work (session : Sessions.Session) (p : string) (a : action) : Prop :=
  forall q s, (_caller q s).2 = Ok (Some session) -> Sessions.s_person_uuid session = Some p -> unique_ids (tables s) ->
    others p (tables (perform q a s).1) = others p (tables s).

Lemma with_person_run q k s :
  with_person q k s =
  match _caller q s with
  | (s1, Ok None) => (s1, Ok (_refuse UNAUTHENTICATED 401))
  | (s1, Ok (Some session)) =>
      match Sessions.s_person_uuid session with
      | None => (s1, Ok (_refuse UNRESOLVED 409))
      | Some p => k session p s1
      end
  | (s1, Err e) => (s1, Err e)
  end.
Proof.
  unfold with_person, andthen. destruct (_caller q s) as [s1 [[session|]|e]]; [|done..]. by destruct (Sessions.s_person_uuid session).
Qed.

Lemma with_person_tables q k s : (forall session p, own p (k session p)) -> unique_ids (tables s) ->
  match (_caller q s).2 with
  | Ok (Some session) =>
      match Sessions.s_person_uuid session with
      | Some p => others p (tables (with_person q k s).1) = others p (tables s)
      | None => tables (with_person q k s).1 = tables s
      end
  | _ => tables (with_person q k s).1 = tables s
  end.
Proof.
  intros Hk Hu. rewrite with_person_run. pose proof (still_site (OAuth._current_session app q) s) as Hs.
  fold (_caller q) in Hs. destruct (_caller q s) as [s1 [[session|]|e]]; cbn in Hs |- *; [|done..].
  destruct (Sessions.s_person_uuid session) as [p|]; [|done]. rewrite Hk; by rewrite Hs.
Qed.

Lemma own_begin_totp p label id secret :
  own p (store (fun db now => Factors.begin_totp db p label id secret now)).
Proof.
  apply own_store. intros db now db' r _. unfold Factors.begin_totp. destruct (Factors.label_taken _ _); [done|]. cbn.
  intros [= <- _]. by apply others_add.
Qed.

Lemma own_confirm_totp p id code :
  own p (store (fun db now => let* db' := Factors.confirm_totp (hmac_sha1 cfg) (isspace cfg) (isdigit cfg) db p id code now in Ok (db', tt))).
Proof.
  apply own_store. intros db now db' r Hu. unfold Factors.confirm_totp, Factors.confirm_read.
  destruct (Factors._live db p id) as [f|] eqn:Ef; [|done]. destruct (Factors.f_secret f); [|done].
  destruct (Factors.totp_verify _ _ _ _ _) as [st|]; [|done]. intros [= <- _].
  apply live_row in Ef as (Hf & Hid & Hp & _). by eapply others_set.
Qed.

Lemma own_disable p id :
  own p (store (fun db now => let* db' := Factors.disable db p id now in Ok (db', tt))).
Proof.
  apply own_store. intros db now db' r Hu. unfold Factors.disable.
  destruct (Factors._live db p id) as [f|] eqn:Ef; [|done]. intros [= <- _].
  apply live_row in Ef as (Hf & Hid & Hp & _). by eapply others_set.
Qed.

Lemma own_register p label id client_data attestation challenge origin rp :
  own p (store (fun db now => Factors.register_webauthn (OAuth.sha256 app) JsonLoads.loads (OAuth.shown app) (lib cfg) db p label id
                  client_data attestation challenge origin rp now)).
Proof.
  apply own_store. intros db now db' r _. unfold Factors.register_webauthn. destruct (WebAuthn.register _ _ _ _ _ _ _ _ _); [|done].
  repeat case_match; try done; cbn; intros [= <- _]; by apply others_add.
Qed.

Lemma own_verify_totp p code :
  own p (store (fun db now => Factors.verify_totp (hmac_sha1 cfg) (isspace cfg) (isdigit cfg) db p code now)).
Proof.
  apply own_store. intros db now db' r Hu. unfold Factors.verify_totp, Factors.verify_read.
  destruct (Factors.first_match _ _ _ _ _ _ _) as [[f step]|] eqn:E; [|done]. cbn [rbind fst snd].
  apply Factors.first_match_ok in E as [Hin _]. apply confirmed_row in Hin as (Hf & Hp & _).
  unfold Factors._advance. destruct (existsb _ _); [|done]. cbn. intros [= <- _]. unfold others. cbn. f_equal.
  apply filter_after_map. intros x Hx. destruct (_ && _) eqn:E; [|by left]. right. bool_prop.
  assert (x = f) as -> by (eapply (row_by_id Factors.f_id); eauto; apply Hu). cbn. rewrite Hp, String.eqb_refl. done.
Qed.

Lemma own_verify_webauthn p cid client_data auth signature challenge origin rp :
  own p (store (fun db now => Factors.verify_webauthn (OAuth.sha256 app) JsonLoads.loads (OAuth.shown app) (lib cfg) db p
                  cid client_data auth signature challenge origin rp now)).
Proof.
  apply own_store. intros db now db' r Hu. unfold Factors.verify_webauthn, Factors.credential_row.
  destruct (List.find _ _) as [f|] eqn:E; [|done]. apply find_some in E as [Hin Hp]. apply list_elem_of_In in Hin.
  destruct (Factors.f_public_key f); [|done]. destruct (WebAuthn.verify _ _ _ _ _ _ _ _ _ _ _ _ _); [|done]. cbn. intros [= <- _].
  unfold Factors.is_confirmed in Hp. bool_prop. by eapply others_set.
Qed.

Lemma own_redeem p code : own p (store (fun db now => Factors.redeem_recovery_code (argon2_verify cfg) db p code now)).
Proof.
  apply own_store. intros db now db' r Hu. unfold Factors.redeem_recovery_code, Factors.redeem_read.
  destruct (List.find _ _) as [c|] eqn:E; [|done]. apply find_some in E as [Hin _]. apply filter_In in Hin as [Hin Hl].
  apply list_elem_of_In in Hin. unfold Factors.live_code in Hl. bool_prop. cbn [rbind fst snd]. unfold Factors.redeem_write.
  destruct (existsb _ _); [|done]. cbn. intros [= <- _]. unfold others. cbn. f_equal.
  apply filter_after_map. intros x Hx. destruct (_ && _) eqn:E; [|by left]. right. bool_prop.
  assert (x = c) as -> by (eapply (row_by_id Factors.c_id); eauto; apply Hu).
  cbn. replace (Factors.c_person c) with p by done. rewrite String.eqb_refl. done.
Qed.

Lemma own_issue p fresh : own p (store (fun db now => Ok (Factors.issue_recovery_codes (argon2_hash cfg) db p fresh now))).
Proof.
  apply own_store. intros db now db' r _ [= <- _]. unfold others. cbn. f_equal. rewrite List.filter_app.
  rewrite (Factors.filter_none _ (map _ fresh)); [rewrite app_nil_r|].
  - apply filter_after_map. intros c Hc. destruct (Factors.live_code p c) eqn:E; [|by left]. right.
    unfold Factors.live_code in E. bool_prop. cbn. replace (Factors.c_person c) with p by done. rewrite String.eqb_refl. done.
  - intros c Hc. apply in_map_iff in Hc as (e & <- & _). cbn. by rewrite String.eqb_refl.
Qed.

(** Follow a handler's structure, one rule per construct. *)
Ltac still := repeat lazymatch goal with
  | |- still (ret _) => apply still_ret
  | |- still (query _) => apply still_query
  | |- still (on_site _) => apply still_site
  | |- still (record _ _ _ _) => apply still_record
  | |- still (_failed _ _ _) => apply still_failed
  | |- still (_elevate _ _ _ _ _) => apply still_elevate
  | |- still (issue_challenge _ _) => apply still_issue
  | |- still (check _ _) => apply still_site
  | |- still draw => apply still_site
  | |- still (draws _) => apply still_draws
  | |- still (limited _ _ _) => apply still_attempt; [|intros ?|intros ?]
  | |- still (andthen _ _) => apply still_andthen; [|intros ?]
  | |- still (attempt _ _ _ _) => apply still_attempt; [|intros ?|intros ?]
  | |- still (match ?x with _ => _ end) => destruct x
  end.

(** Nobody reaches the factors of anybody else.  Whatever a request to one of these
    routes asks for, the rows of every other person are the same afterwards; and a
    request without a session, or of a session nobody is resolved for, changes no
    row at all. *)
Theorem factors_are_own (q : Site.Request) (a : action) (s : state) : unique_ids (tables s) ->
  match (_caller q s).2 with
  | Ok (Some session) =>
      match Sessions.s_person_uuid session with
      | Some p => others p (tables (perform q a s).1) = others p (tables s)
      | None => tables (perform q a s).1 = tables s
      end
  | _ => tables (perform q a s).1 = tables s
  end.
Proof.
  intros Hu.
  assert (exists k, perform q a = with_person q k /\ forall session p, own p (k session p)) as (k & -> & Hk);
    [|by apply with_person_tables].
  destruct a; (eexists; split; [reflexivity|intros session p; cbv beta zeta]).
  all: try (apply own_still; solve [still]).
  - case_match; [apply own_still; still|]. apply own_after; [still|intros raw]. apply own_after; [still|intros id].
    apply own_attempt; [apply own_begin_totp|intros ?; still|intros ?; still].
  - case_match; [|apply own_still; still]. apply own_attempt; [apply own_confirm_totp|intros ?; still|intros ?; still].
  - case_match; [apply own_still; still|]. do 2 (case_match; [|apply own_still; still]).
    apply own_after; [still|intros [challenge|]]; [|apply own_still; still]. apply own_after; [still|intros id].
    apply own_attempt; [apply own_register|intros ?; still|intros ?; still].
  - apply own_limited, own_attempt; [apply own_verify_totp|intros ?; still|intros ?; still].
  - do 4 (case_match; [|apply own_still; still]). apply own_limited, own_after; [still|intros [outstanding|]]; [|apply own_still; still].
    apply own_attempt; [apply own_verify_webauthn|intros ?; still|intros ?; still].
  - apply own_limited, own_attempt; [apply own_redeem|intros ?; still|intros ?; still].
  - case_match; [apply own_still; still|]. apply own_after; [still|intros fresh]. apply own_begin; [apply own_issue|intros codes; still].
  - case_match; [|apply own_still; still]. apply own_attempt; [apply own_disable|intros ?; still|intros ?; still].
Qed.

(** ** What a step-up takes *)

Context {laws : RedisLaws R}.

Abbreviation redis_of s := (Site.w_redis (world s)).
Abbreviation now_of s := (Site.w_now (world s)).
Abbreviation view s := (r_view (redis_of s) (now_of s)).
Abbreviation sha := (OAuth.sha256_hex app).
Abbreviation SP := Sessions.SESSION_KEY_PREFIX.
Abbreviation in_history births s :=
  (Sessions.history sha Sessions.IDLE_TIMEOUT Sessions.ABSOLUTE_TIMEOUT births (redis_of s) (now_of s)).
Abbreviation fetch := (Sessions.load sha Sessions.IDLE_TIMEOUT Sessions.ABSOLUTE_TIMEOUT SP).

(** A challenge is outstanding for the person and the ceremony. *)
Definition outstanding (s : state) (p ceremony challenge : string) : Prop :=
  exists hex d, view s (Pending.challenge_key p ceremony) = Some (Entry (VScalar (SText hex)) d) /\ Hex.decode hex = Some challenge.

(** What a request has to show for [p], and the factor category it shows. *)
Definition evidence (s : state) (p : string) (a : action) (category : string) : Prop :=
  match a with
  | StepUpTotp body => category = Assurance.OTP /\
      exists f secret step, f ∈ Factors.factors (tables s) /\ Factors.f_person f = p /\ Factors.f_kind f = Factors.TOTP /\
        Factors.f_confirmed_at f <> None /\ Factors.f_disabled_at f = None /\ Factors.f_secret f = Some secret /\
        Totp.verify (hmac_sha1 cfg) (isspace cfg) (isdigit cfg) secret (points (text_of (_json body) "code")) (now_of s)
          (Factors.f_last_step f) Totp.DRIFT = Ok step
  | StepUpWebauthn body => category = Assurance.HWK /\
      exists f cid key client_data auth signature challenge assertion,
        f ∈ Factors.factors (tables s) /\ Factors.f_person f = p /\ Factors.f_kind f = Factors.WEBAUTHN /\
        Factors.f_confirmed_at f <> None /\ Factors.f_disabled_at f = None /\
        Factors.f_credential_id f = Some cid /\ Factors.f_public_key f = Some key /\ outstanding s p Pending.AUTHENTICATE challenge /\
        WebAuthn.verify (OAuth.sha256 app) JsonLoads.loads (OAuth.shown app) (lib cfg) client_data auth signature key cid
          (default 0%Z (Factors.f_sign_count f)) challenge (webauthn_origin cfg) (webauthn_rp_id cfg) = Ok assertion
  | PollPush id status => category = Assurance.PUSH /\ status = Some Push.APPROVED /\
      exists d, view s (Push.BINDING_PREFIX +:+ id) = Some (Entry (VScalar (SText p)) d)
  | StepUpRecovery body => category = Assurance.RECOVERY /\
      exists c, c ∈ Factors.codes (tables s) /\ Factors.live_code p c = true /\
        Recovery.matches (argon2_verify cfg) (Factors.c_hash c) (text_of (_json body) "code") = true
  | _ => False
  end.

Definition session_key (k : string) : Prop := Py.startswith k SP = true.
Definition evidence_key (k : string) : Prop := Py.startswith k Pending.PREFIX = true \/ Py.startswith k Push.BINDING_PREFIX = true.

(** What the part of a handler before the elevation leaves alone. *)
Definition after births (s s1 : state) : Prop :=
  now_of s1 = now_of s /\ Site.w_draws (world s1) = Site.w_draws (world s) /\ (in_history births s -> in_history births s1) /\
  forall k, session_key k -> view s1 k = view s k.
Definition same births (s s1 : state) : Prop :=
  after births s s1 /\ tables s1 = tables s /\ forall k, evidence_key k -> view s1 k = view s k.

Lemma after_trans births s s1 s2 : after births s s1 -> after births s1 s2 -> after births s s2.
Proof.
  intros (N1 & D1 & H1 & V1) (N2 & D2 & H2 & V2). split_and!; [congruence..|by intros Hh; apply H2, H1|].
  intros k Hk. rewrite <- (V1 k Hk), <- (V2 k Hk). by rewrite N2, N1.
Qed.

Lemma same_after births s s1 s2 : same births s s1 -> after births s1 s2 -> after births s s2.
Proof. intros (H1 & _) H2. by eapply after_trans. Qed.

Lemma same_trans births s s1 s2 : same births s s1 -> same births s1 s2 -> same births s s2.
Proof.
  intros (A1 & T1 & V1) (A2 & T2 & V2). split; [by eapply after_trans|]. split; [congruence|]. intros k Hk.
  destruct A1 as (N1 & _), A2 as (N2 & _). specialize (V1 k Hk). specialize (V2 k Hk). rewrite N2, N1 in *. congruence.
Qed.

Lemma after_redis {A} births (p : prog A) s : touches (fun k => Py.startswith k SP = false) p ->
  after births s (on_site (Site.redis p) s).1.
Proof.
  intros Hp. unfold on_site. rewrite Site.redis_run. cbn. split_and!; [done..| |].
  - intros Hh. eapply Sessions.history_run; [exact Hh|apply Z.le_refl|done].
  - intros k Hk. unfold session_key in Hk. eapply (run_frame (fun k => Py.startswith k SP = false)); [done|by rewrite Hk|apply Z.le_refl].
Qed.

Lemma same_redis {A} births (p : prog A) s : touches (fun k => Py.startswith k SP = false /\ ~ evidence_key k) p ->
  same births s (on_site (Site.redis p) s).1.
Proof.
  intros Hp. split; [apply after_redis; eapply touches_weaken; [exact Hp|naive_solver]|]. split; [apply still_site|].
  intros k Hk. unfold on_site. rewrite Site.redis_run. cbn. eapply run_frame; [exact Hp|naive_solver|apply Z.le_refl].
Qed.

(** The session a request comes from is the one stored under its cookie. *)
Lemma load_stores births sid w w' session : Sessions.history sha Sessions.IDLE_TIMEOUT Sessions.ABSOLUTE_TIMEOUT births (Site.w_redis w) (Site.w_now w) ->
  Py.has_char ":" sid = false -> OAuth.load app sid w = (w', Ok (Some session)) ->
  Sessions.stored (r_view (Site.w_redis w') (Site.w_now w')) sid = Some session.
Proof.
  intros Hh Hs. unfold OAuth.load, Site.load_session, Site.bind, Site.get_now. rewrite Site.redis_run.
  pose proof (Sessions.history_inv _ _ _ OAuth.idle_le_absolute _ _ _ Hh) as Hi.
  destruct (Sessions.load_vrun sha _ _ r_round births _ (Site.w_now w) sid (Site.w_now w) OAuth.idle_le_absolute Hi) as (_ & Hr & _).
  destruct (Hr Hs) as [Hl Hst]. rewrite <- run_result in Hl. rewrite Hl. intros [= <- E]. rewrite E in Hst.
  rewrite <- Hst. transitivity (Sessions.stored (r_view (run (fetch sid (Site.w_now w)) (Site.w_redis w) (Site.w_now w)).1 (Site.w_now w)) sid).
  - by destruct (Sessions.l_impersonator _).
  - apply Sessions.stored_same. by apply run_vrun.
Qed.

(** What [_caller] leaves. *)
Definition entered births (s s1 : state) : Prop :=
  now_of s1 = now_of s /\ Site.w_draws (world s1) = Site.w_draws (world s) /\ in_history births s1 /\ tables s1 = tables s /\
  forall k, evidence_key k -> view s1 k = view s k.

Lemma evidence_foreign k : evidence_key k -> ~ OAuth.own_session k.
Proof. unfold evidence_key, OAuth.own_session. intros [H'|H']; apply Py.startswith_spec in H' as [rest ->]; done. Qed.

Lemma caller_loads births q s s1 session : in_history births s -> _caller q s = (s1, Ok (Some session)) ->
  entered births s s1 /\ Py.has_char ":" (Sessions.s_sid session) = false /\
  Dict.get (Site.rq_cookies q) Site.SESSION_COOKIE = Some (Sessions.s_sid session) /\
  Sessions.stored (view s1) (Sessions.s_sid session) = Some session.
Proof.
  intros Hh. unfold _caller, on_site, OAuth._current_session. destruct (Dict.get _ _) as [[|a r]|]; [done| |done].
  set (sid := String a r). intros E.
  destruct (OAuth.load app sid (world s)) as [w o] eqn:El. injection E as <- Eo. destruct o as [o|]; [|done]. injection Eo as ->.
  destruct (OAuth.load_sid app births sid (world s) session Hh) as [Hs Hsid]; [by rewrite El|].
  pose proof (load_stores births sid (world s) w session Hh Hs El) as Hst.
  destruct (OAuth.load_completes app births sid (world s) Hh Hs) as (w' & o & El' & Hh' & (N & C & V) & D & _).
  rewrite El in El'. injection El' as -> <-. rewrite Hsid. split; [|by split_and!].
  unfold entered. cbn. split_and!; [done|done| |done|].
  - exact Hh'.
  - intros k Hk. rewrite N. apply V; [apply Z.le_refl|by apply evidence_foreign].
Qed.

(** ** The elevation itself *)

Definition handed (sid : string) (raised : Assurance.Assurance) : Site.Response := {|
  Site.rs_status := 200; Site.rs_headers := NO_STORE;
  Site.rs_content := Site.Document (JObj [("acr", JStr (Assurance.acr raised)); ("amr", Codec.of_strings (Assurance.amr raised));
    ("auth_time", JIso (Assurance.auth_time raised))]);
  Site.rs_cookies := [Site.set_session_cookie sid] |}.

Lemma andthen_ok {A B} (m : call A) (k : A -> call B) s s' b : andthen m k s = (s', Ok b) ->
  exists s1 a, m s = (s1, Ok a) /\ k a s1 = (s', Ok b).
Proof. unfold andthen. destruct (m s) as [s1 [a|e]]; [|done]. eauto. Qed.

Lemma success_touches p kind : touches (fun k => Py.startswith k SP = false) (RateLimit.record_success p kind).
Proof. unfold RateLimit.record_success. cbn. split; [done|]. by intros []. Qed.

Lemma invalidate_touches p : touches (fun k => Py.startswith k SP = false) (DecisionCache.invalidate p).
Proof. unfold DecisionCache.invalidate. cbn. split; [done|]. by intros []. Qed.

Lemma session_key_own sid : session_key (Sessions._key SP sid).
Proof. apply Py.startswith_spec. by eexists. Qed.

(** The session after an elevation. *)
Definition raised_session (session : Sessions.Session) (sid : string) (raised : Assurance.Assurance) (now : moment) : Sessions.Session :=
  Sessions._replace (Sessions.touch session now) {| Sessions.ch_sid := Some sid; Sessions.ch_acr := Some (Assurance.acr raised);
    Sessions.ch_amr := Some (Assurance.amr raised); Sessions.ch_auth_time := Some now; Sessions.ch_last_seen_at := Some now |}.

Lemma session_moves births session sid raised s s' moved :
  in_history births s -> Sessions.stored (view s) (Sessions.s_sid session) = Some session ->
  Py.has_char ":" sid = false -> sid <> Sessions.s_sid session ->
  on_site (Site.load_session (Sessions.elevate sha Sessions.IDLE_TIMEOUT Sessions.ABSOLUTE_TIMEOUT SP sid (Sessions.s_sid session)
    (Assurance.acr raised) (Assurance.amr raised) (now_of s))) s = (s', Ok (Some moved)) ->
  moved = raised_session session sid raised (now_of s) /\ now_of s' = now_of s /\ in_history births s' /\
  Sessions.expired Sessions.IDLE_TIMEOUT session (now_of s) = false /\
  Sessions.stored (view s') (Sessions.s_sid session) = None /\ Sessions.stored (view s') sid = Some moved.
Proof.
  intros Hh Hst Hsid Hne. unfold on_site, Site.load_session. rewrite Site.redis_run.
  set (prog := Sessions.elevate _ _ _ _ _ _ _ _ _). destruct (run prog (redis_of s) (now_of s)).2 as [l|] eqn:El; [|done].
  intros E. assert (redis_of s' = (run prog (redis_of s) (now_of s)).1 /\ now_of s' = now_of s /\ Sessions.l_session l = Some moved) as (-> & -> & Hm).
  { destruct (Sessions.l_impersonator l); injection E as <- Hm; done. }
  destruct (Sessions.history_moved sha Sessions.IDLE_TIMEOUT Sessions.ABSOLUTE_TIMEOUT OAuth.idle_le_absolute births (redis_of s) (now_of s) (now_of s)
    (Sessions.s_sid session) sid (Sessions.Build_changes (Some sid) (Some (Assurance.acr raised)) (Some (Assurance.amr raised)) (Some (now_of s)) (Some (now_of s)))
    (now_of s) l moved Hh (Z.le_refl _) Hsid Hne eq_refl El Hm) as (Hfound & _ & _ & Hgone & Hthere).
  destruct Hfound as (s0 & Hst' & Hex & ->). rewrite Hst in Hst'. injection Hst' as <-.
  split_and!; [done|done| |done|exact Hgone|exact Hthere].
  pose proof (Sessions.history_op sha Sessions.IDLE_TIMEOUT Sessions.ABSOLUTE_TIMEOUT births _ _ (now_of s)
    (Sessions.Elevate sid (Sessions.s_sid session) (Assurance.acr raised) (Assurance.amr raised) (now_of s)) Hh (Z.le_refl _)
    ltac:(cbn; by rewrite Hsid)) as Hx. cbn [Sessions.op_prog] in Hx. rewrite run_bind in Hx. fold prog in Hx.
  by destruct (run prog (redis_of s) (now_of s)) as [r1 [o|e]].
Qed.

(** When [_elevate] hands out a cookie, the session is stored under it with the
    assurance of the answer, and is stored under its former identifier no more. *)
Lemma elevate_hands births session p kind factor category s s' resp :
  in_history births s -> Sessions.stored (view s) (Sessions.s_sid session) = Some session ->
  let sid := OAuth.draw app (Site.w_draws (world s)) in
  Py.has_char ":" sid = false -> sid <> Sessions.s_sid session ->
  _elevate session p kind factor category s = (s', Ok resp) -> Site.rs_cookies resp <> [] ->
  let raised := Assurance.elevated (Sessions.s_amr session) category (Sessions.s_auth_time session) (now_of s) Assurance.MAX_SPAN in
  resp = handed sid raised /\ now_of s' = now_of s /\ in_history births s' /\
  Sessions.expired Sessions.IDLE_TIMEOUT session (now_of s) = false /\
  Sessions.stored (view s') (Sessions.s_sid session) = None /\
  Sessions.stored (view s') sid = Some (raised_session session sid raised (now_of s)).
Proof.
  intros Hh Hst sid Hsid Hne E Hck. unfold _elevate in E.
  apply andthen_ok in E as (s1 & [] & E1 & E).
  pose proof (after_redis births _ s (success_touches p kind)) as (N1 & D1 & Hh1 & V1). rewrite E1 in N1, D1, Hh1, V1. cbn [fst] in *.
  specialize (Hh1 Hh).
  apply andthen_ok in E as (s2 & now & [= <- <-] & E). apply andthen_ok in E as (s2 & sid' & [= <- <-] & E). rewrite D1, N1 in E.
  apply andthen_ok in E as (s3 & moved & E3 & E). destruct moved as [moved|]; [|by injection E as _ <-].
  change (OAuth.draw app (Site.w_draws (world s))) with sid in E3, E. clearbody sid. set (raised := Assurance.elevated _ _ _ _ _) in *.
  set (sa := set_world _ (set_world (world s1) s1)) in E3. assert (now_of sa = now_of s) as Na by exact N1. rewrite <- Na in E3.
  apply (session_moves births) in E3; [|exact Hh1| |done|done].
  2: { transitivity (Sessions.stored (view s1) (Sessions.s_sid session)); [done|]. rewrite <- Hst. apply Sessions.stored_same, V1, session_key_own. }
  rewrite Na in E3. destruct E3 as (-> & N3 & Hh3 & Hex & Hgone & Hthere).
  apply andthen_ok in E as (s4 & [] & E4 & E). apply andthen_ok in E as (s5 & [] & [= <-] & [= <- <-]).
  pose proof (after_redis births _ s3 (invalidate_touches p)) as (N4 & D4 & Hh4 & V4). unfold _invalidate in E4. rewrite E4 in N4, D4, Hh4, V4. cbn [fst] in *.
  cbn [world set_world Site.w_now Site.w_redis Site.set_audit]. split_and!; [done|congruence|by apply Hh4|done| |].
  - rewrite <- Hgone. apply Sessions.stored_same, V4, session_key_own.
  - rewrite <- Hthere. apply Sessions.stored_same, V4, session_key_own.
Qed.

(** ** Where cookies come from *)

(** Computations that never hand out a cookie. *)
Definition quiet (m : call Site.Response) : Prop := forall s s' resp, m s = (s', Ok resp) -> Site.rs_cookies resp = [].

Lemma quiet_answer resp : Site.rs_cookies resp = [] -> quiet (ret resp).
Proof. by intros Hr s s' r [= _ <-]. Qed.
Lemma quiet_andthen {A} (m : call A) k : (forall a, quiet (k a)) -> quiet (andthen m k).
Proof. intros Hk s s' r (s1 & a & _ & E)%andthen_ok. by eapply Hk. Qed.
Lemma quiet_attempt {A E} (m : call A) (c : raised -> option E) h k :
  (forall e, quiet (h e)) -> (forall a, quiet (k a)) -> quiet (attempt m c h k).
Proof.
  intros Hh Hk s s' r. unfold attempt. destruct (m s) as [s1 [a|e]]; [apply Hk|]. destruct (c e); [apply Hh|done].
Qed.

Ltac quiet := repeat lazymatch goal with
  | |- quiet (ret _) => apply quiet_answer; reflexivity
  | |- quiet (limited _ _ _) => apply quiet_attempt; intros ?
  | |- quiet (andthen _ _) => apply quiet_andthen; intros ?
  | |- quiet (attempt _ _ _ _) => apply quiet_attempt; intros ?
  | |- quiet (with_person _ _) => apply quiet_andthen; intros ?
  | |- quiet (match ?x with _ => _ end) => destruct x
  end.

Lemma quiet_failed p kind reason : quiet (_failed p kind reason).
Proof. unfold _failed. quiet. Qed.

Definition steps_up (a : action) : bool :=
  match a with StepUpTotp _ | StepUpWebauthn _ | PollPush _ _ | StepUpRecovery _ => true | _ => false end.

Lemma others_quiet q a : steps_up a = false -> quiet (perform q a).
Proof. destruct a; intros [=]; cbn [perform]; [unfold begin_totp|unfold confirm_totp|unfold webauthn_options|unfold register_webauthn
  |unfold challenge|unfold start_push|unfold issue_recovery|unfold enrolment_requirement|unfold factors|unfold disable_factor]; quiet. Qed.

(** The code that is left when an attempt has let something through. *)
Lemma attempt_ok {A E} (m : call A) (c : raised -> option E) h k s s' resp :
  (forall e, quiet (h e)) -> attempt m c h k s = (s', Ok resp) -> Site.rs_cookies resp <> [] ->
  exists s1 a, m s = (s1, Ok a) /\ k a s1 = (s', Ok resp).
Proof.
  intros Hh. unfold attempt. destruct (m s) as [s1 [a|e]]; [eauto|]. destruct (c e) as [x|]; [|done].
  intros E1 Hck. by apply Hh in E1.
Qed.

Lemma limiter_check_touches p kind : touches (fun k => Py.startswith k SP = false /\ ~ evidence_key k) (RateLimit.check RateLimit.LOCKOUT p kind).
Proof.
  unfold RateLimit.check, RateLimit.or_unavailable. cbn. split.
  - split; [done|]. unfold evidence_key. by intros [|].
  - intros []; cbn; try done. by case_match.
Qed.

Lemma limited_ok births p kind k s s' resp : limited p kind k s = (s', Ok resp) -> Site.rs_cookies resp <> [] ->
  exists s1, same births s s1 /\ k s1 = (s', Ok resp).
Proof.
  intros E Hck. apply attempt_ok in E as (s1 & [] & E1 & E); [|intros e; quiet|done]. exists s1. split; [|done].
  pose proof (same_redis births _ s (limiter_check_touches p kind)) as Hs. unfold check in E1. by rewrite E1 in Hs.
Qed.

Lemma store_ok {A} (f : Factors.Db -> moment -> result Factors.exn (Factors.Db * A)) s s' a : store f s = (s', Ok a) ->
  exists db, f (tables s) (now_of s) = Ok (db, a) /\ s' = set_tables db s.
Proof. unfold store. destruct (f _ _) as [[db b]|]; [|done]. intros [= <- <-]. eauto. Qed.

Lemma after_tables births db s : after births s (set_tables db s).
Proof. done. Qed.

Lemma evidence_moves s s1 p a category : now_of s1 = now_of s -> tables s1 = tables s ->
  (forall k, evidence_key k -> view s1 k = view s k) -> evidence s1 p a category -> evidence s p a category.
Proof.
  intros N T V. setoid_rewrite N in V. unfold evidence, outstanding. destruct a; try done; rewrite ?T, ?N; try done.
  - intros (Hc & f & cid & key & cd & au & sg & ch & a & H1 & H2 & H3 & H4 & H5 & H6 & H7 & (hex & d & Hv & Hd) & H9).
    split; [done|]. exists f, cid, key, cd, au, sg, ch, a. split_and!; try done. exists hex, d.
    split; [|done]. rewrite <- Hv. symmetry. apply V. left. unfold Pending.challenge_key. apply Py.startswith_spec. by eexists.
  - intros (Hc & Hs & d & Hv). split_and!; [done..|]. exists d. rewrite <- Hv. symmetry. apply V. right. apply Py.startswith_app.
Qed.

Lemma totp_evidence s s1 p body f : store (fun db now => Factors.verify_totp (hmac_sha1 cfg) (isspace cfg) (isdigit cfg) db p
    (points (text_of (_json body) "code")) now) s = (s1, Ok f) -> evidence s p (StepUpTotp body) Assurance.OTP.
Proof.
  intros (db & E & _)%store_ok. split; [done|]. unfold Factors.verify_totp, Factors.verify_read in E.
  destruct (Factors.first_match _ _ _ _ _ _ _) as [[g step]|] eqn:Em; [|done].
  apply Factors.first_match_verifies in Em as (Hin & secret & Hsec & Hv). apply confirmed_row in Hin as (H1 & H2 & H3 & H4 & H5).
  exists g, secret, step. by split_and!.
Qed.

Lemma webauthn_evidence s s1 p body cid client_data auth signature challenge assertion :
  outstanding s p Pending.AUTHENTICATE challenge ->
  store (fun db now => Factors.verify_webauthn (OAuth.sha256 app) JsonLoads.loads (OAuth.shown app) (lib cfg) db p
    cid client_data auth signature challenge (webauthn_origin cfg) (webauthn_rp_id cfg) now) s = (s1, Ok assertion) ->
  evidence s p (StepUpWebauthn body) Assurance.HWK.
Proof.
  intros Ho (db & E & _)%store_ok. split; [done|]. unfold Factors.verify_webauthn, Factors.credential_row in E.
  destruct (List.find _ _) as [f|] eqn:Ef; [|done]. apply find_some in Ef as [Hin Hp]. apply list_elem_of_In in Hin.
  destruct (Factors.f_public_key f) as [key|] eqn:Ek; [|done].
  destruct (WebAuthn.verify _ _ _ _ _ _ _ _ _ _ _ _ _) as [a|] eqn:Ev; [|done].
  unfold Factors.is_confirmed in Hp. bool_prop. exists f, cid, key, client_data, auth, signature, challenge, a.
  split_and!; try done; [by destruct (Factors.f_confirmed_at f)|by destruct (Factors.f_disabled_at f)].
Qed.

Lemma recovery_evidence s s1 p body n : store (fun db now => Factors.redeem_recovery_code (argon2_verify cfg) db p
    (text_of (_json body) "code") now) s = (s1, Ok n) -> evidence s p (StepUpRecovery body) Assurance.RECOVERY.
Proof.
  intros (db & E & _)%store_ok. split; [done|]. unfold Factors.redeem_recovery_code, Factors.redeem_read in E.
  destruct (List.find _ _) as [c|] eqn:Ef; [|done]. apply find_some in Ef as [Hin Hm]. apply filter_In in Hin as [Hin Hl].
  exists c. split_and!; [by apply list_elem_of_In|done..].
Qed.

Lemma with_person_ok q k s s' resp : with_person q k s = (s', Ok resp) -> Site.rs_cookies resp <> [] ->
  exists session p s1, _caller q s = (s1, Ok (Some session)) /\ Sessions.s_person_uuid session = Some p /\ k session p s1 = (s', Ok resp).
Proof.
  rewrite with_person_run. destruct (_caller q s) as [s1 [[session|]|e]]; [|by intros [= _ <-]|done].
  destruct (Sessions.s_person_uuid session) as [p|] eqn:Ep; [|by intros [= _ <-]]. intros E _. by exists session, p, s1.
Qed.

Lemma consume_touches p c : touches (fun k => Py.startswith k SP = false) (Pending.challenge_consume p c).
Proof. unfold Pending.challenge_consume. cbn. split; [done|]. intros []; cbn; try done. by case_match. Qed.

Lemma outcome_touches status p id : touches (fun k => Py.startswith k SP = false) (Push.outcome status p id).
Proof.
  unfold Push.outcome. cbn. split; [done|]. intros []; cbn; try done; (destruct (negb _); [done|]); repeat case_match; cbn; try done;
    split; try done; by intros [].
Qed.

Lemma consumed s s1 p c challenge : on_site (Site.redis (Pending.challenge_consume p c)) s = (s1, Ok (Some challenge)) ->
  outstanding s p c challenge.
Proof.
  unfold on_site. rewrite Site.redis_run. destruct (run _ _ _).2 as [o|] eqn:E; [|done]. intros [= _ ->]. revert E. rewrite run_result. unfold Pending.challenge_consume. vrun_simpl.
  destruct (view s (Pending.challenge_key p c)) as [[[[hex|j|z]|m] d]|] eqn:Ev; cbn; try done. intros [= E]. by exists hex, d.
Qed.

Lemma outcome_reported (r : R) t status p id : (run (Push.outcome status p id) r t).2 = Ok Push.APPROVED -> status = Some Push.APPROVED.
Proof.
  rewrite run_result. unfold Push.outcome. vrun_simpl.
  destruct (r_view r t (Push.BINDING_PREFIX +:+ id)) as [[[x|m] d]|]; simpl; [|done|done].
  destruct (negb (bool_decide (Some x = Some (SText p)))); [done|]. destruct status as [status|]; [|done].
  destruct (String.eqb status Push.APPROVED || String.eqb status Push.DENIED || String.eqb status Push.EXPIRED); simpl; rewrite ?vupd_eq; simpl; by intros [= ->].
Qed.

(** What it takes to be handed a cookie: evidence, and then the elevation. *)
Definition proved births q a s s' resp : Prop :=
  exists session p category kind factor s1 s2, _caller q s = (s1, Ok (Some session)) /\ Sessions.s_person_uuid session = Some p /\
    after births s1 s2 /\ evidence s1 p a category /\ _elevate session p kind factor category s2 = (s', Ok resp).

Lemma totp_proves births q body s s' resp : step_up_totp q body s = (s', Ok resp) -> Site.rs_cookies resp <> [] ->
  proved births q (StepUpTotp body) s s' resp.
Proof.
  intros E Hck. apply with_person_ok in E as (session & p & s1 & Ec & Hp & E); [|done]. cbv zeta in E.
  apply (limited_ok births) in E as (s2 & (Ha & T & V) & E); [|done].
  apply attempt_ok in E as (s3 & f & E3 & E); [|intros e; apply quiet_failed|done].
  do 6 eexists. exists s3. split_and!; [exact Ec|done| |eapply evidence_moves; [apply Ha|done|done|by eapply totp_evidence]|exact E].
  apply store_ok in E3 as (db & _ & ->). eapply after_trans; [exact Ha|apply after_tables].
Qed.

Lemma recovery_proves births q body s s' resp : step_up_recovery q body s = (s', Ok resp) -> Site.rs_cookies resp <> [] ->
  proved births q (StepUpRecovery body) s s' resp.
Proof.
  intros E Hck. apply with_person_ok in E as (session & p & s1 & Ec & Hp & E); [|done]. cbv zeta in E.
  apply (limited_ok births) in E as (s2 & (Ha & T & V) & E); [|done].
  apply attempt_ok in E as (s3 & f & E3 & E); [|intros e; apply quiet_failed|done].
  do 6 eexists. exists s3. split_and!; [exact Ec|done| |eapply evidence_moves; [apply Ha|done|done|by eapply recovery_evidence]|exact E].
  apply store_ok in E3 as (db & _ & ->). eapply after_trans; [exact Ha|apply after_tables].
Qed.

Lemma webauthn_proves births q body s s' resp : step_up_webauthn q body s = (s', Ok resp) -> Site.rs_cookies resp <> [] ->
  proved births q (StepUpWebauthn body) s s' resp.
Proof.
  intros E Hck. apply with_person_ok in E as (session & p & s1 & Ec & Hp & E); [|done]. cbv zeta in E.
  destruct (_b64url _) as [cid|]; [|by injection E as _ <-]. destruct (_b64url _) as [client_data|]; [|by injection E as _ <-].
  destruct (_b64url _) as [auth|]; [|by injection E as _ <-]. destruct (_b64url _) as [signature|]; [|by injection E as _ <-].
  apply (limited_ok births) in E as (s2 & (Ha & T & V) & E); [|done].
  apply andthen_ok in E as (s3 & out & E3 & E). destruct out as [challenge|]; [|by apply quiet_failed in E].
  apply attempt_ok in E as (s4 & f & E4 & E); [|intros []; apply quiet_failed|done].
  pose proof (after_redis births _ s2 (consume_touches p Pending.AUTHENTICATE)) as Ha3. rewrite E3 in Ha3. cbn [fst] in Ha3.
  pose proof (still_site (Site.redis (Pending.challenge_consume p Pending.AUTHENTICATE)) s2) as T3. rewrite E3 in T3. cbn [fst] in T3.
  do 6 eexists. exists s4. split_and!; [exact Ec|done| |eapply evidence_moves; [apply Ha|done|done|]|exact E].
  - apply store_ok in E4 as (db & _ & ->). eapply after_trans; [exact Ha|]. eapply after_trans; [exact Ha3|apply after_tables].
  - apply consumed in E3. apply store_ok in E4 as (db & E4 & _). rewrite T3 in E4. destruct Ha3 as (N3 & _). rewrite N3 in E4.
    eapply (webauthn_evidence s2 (set_tables db s2)); [exact E3|]. unfold store. by rewrite E4.
Qed.

Lemma push_proves births q id status s s' resp : poll_push id q status s = (s', Ok resp) -> Site.rs_cookies resp <> [] ->
  proved births q (PollPush id status) s s' resp.
Proof.
  intros E Hck. apply with_person_ok in E as (session & p & s1 & Ec & Hp & E); [|done]. cbv zeta in E.
  destruct (negb (push_configured cfg)); [by injection E as _ <-|].
  apply andthen_ok in E as (s2 & outcome & E2 & E).
  destruct (String.eqb outcome Push.PENDING); [by injection E as _ <-|]. destruct (String.eqb outcome Push.UNAVAILABLE); [by injection E as _ <-|].
  destruct (String.eqb_spec outcome Push.APPROVED) as [->|]; cbn [negb] in E; [|by apply quiet_failed in E].
  pose proof (after_redis births _ s1 (outcome_touches status p id)) as Ha. rewrite E2 in Ha. cbn [fst] in Ha.
  do 6 eexists. exists s2. split_and!; [exact Ec|done|exact Ha| |exact E].
  unfold on_site in E2. rewrite Site.redis_run in E2.
  assert ((run (Push.outcome status p id) (redis_of s1) (now_of s1)).2 = Ok Push.APPROVED) as Eo.
  { destruct (run (Push.outcome status p id) (redis_of s1) (now_of s1)).2 as [o|]; [|done]. by injection E2 as _ ->. }
  split; [done|]. split.
  2: { eapply (Push.outcome_bound (redis_of s1) _ (now_of s1) status p id Push.APPROVED); [|done]. rewrite <- Eo. apply surjective_pairing. }
  by apply outcome_reported in Eo.
Qed.

Lemma raised_answer session sid raised now : Sessions.expired Sessions.IDLE_TIMEOUT session now = false ->
  Sessions.load_answer Sessions.IDLE_TIMEOUT (Some (raised_session session sid raised now)) now =
  Sessions.Loaded (Some (raised_session session sid raised now)) (Some (Sessions.s_impersonated_by session)).
Proof.
  unfold Sessions.expired. rewrite orb_false_iff. intros [Ha _]. unfold Sessions.load_answer.
  assert (Sessions.expired Sessions.IDLE_TIMEOUT (raised_session session sid raised now) now = false) as ->; [|done].
  unfold Sessions.expired. rewrite orb_false_iff. split; [exact Ha|]. cbn. rewrite Z.sub_diag. reflexivity.
Qed.

Lemma step_up_proves births q a s s' resp : perform q a s = (s', Ok resp) -> Site.rs_cookies resp <> [] -> proved births q a s s' resp.
Proof.
  intros E Hck. destruct (steps_up a) eqn:Ea; [|by destruct (Hck (others_quiet q a Ea s s' resp E))].
  destruct a; try done; [by apply totp_proves|by apply webauthn_proves|by apply push_proves|by apply recovery_proves].
Qed.

(** C20: Assurance is raised on evidence only.  The one way to be handed a session cookie
    here is to come with a session of a person and with evidence of that person's: a
    code that a confirmed authenticator of theirs produces now and has not been
    accepted before, an assertion by a key of theirs over a challenge outstanding for
    them, an approval of a push raised for them, or an unspent code of their sheet.
    The answer and the new session then say what [Assurance.elevated] makes of it, so
    that [aal2] takes a factor of another category on the old session; the new session
    is the old one under an identifier of its own, and the old identifier loads
    nothing any more. *)
Theorem step_up_is_proved births (q : Site.Request) (a : action) (s s' : state) (resp : Site.Response) :
  in_history births s ->
  let sid := OAuth.draw app (Site.w_draws (world s)) in
  Py.has_char ":" sid = false -> Dict.get (Site.rq_cookies q) Site.SESSION_COOKIE <> Some sid ->
  perform q a s = (s', Ok resp) -> Site.rs_cookies resp <> [] ->
  exists session p category, let now := now_of s in
    let raised := Assurance.elevated (Sessions.s_amr session) category (Sessions.s_auth_time session) now Assurance.MAX_SPAN in
    (_caller q s).2 = Ok (Some session) /\ Dict.get (Site.rq_cookies q) Site.SESSION_COOKIE = Some (Sessions.s_sid session) /\
    Sessions.s_person_uuid session = Some p /\ evidence s p a category /\ resp = handed sid raised /\
    (Assurance.acr raised = Authz.AAL2 -> exists first, first <> category /\ first ∈ Sessions.s_amr session /\ first ∈ Assurance.FACTOR_CATEGORIES) /\
    (forall t, (now <= t)%Z -> (run (fetch (Sessions.s_sid session) t) (redis_of s') t).2 = Ok (Sessions.Loaded None None)) /\
    (run (fetch sid now) (redis_of s') now).2 =
      Ok (Sessions.Loaded (Some (raised_session session sid raised now)) (Some (Sessions.s_impersonated_by session))).
Proof.
  intros Hh sid Hs Hne E Hck.
  destruct (step_up_proves births q a s s' resp E Hck) as (session & p & category & kind & factor & s1 & s2 & Ec & Hp & Ha & Hev & El).
  destruct (caller_loads births q s s1 session Hh Ec) as ((N1 & D1 & Hh1 & T1 & V1) & Hsid & Hck' & Hst).
  destruct Ha as (N2 & D2 & Hh2 & V2). rewrite N1 in N2. rewrite D1 in D2.
  destruct (elevate_hands births session p kind factor category s2 s' resp) as (-> & N' & Hh' & Hex & Hgone & Hthere);
    [by apply Hh2| |by rewrite D2|rewrite D2; intros Es; by rewrite Hck', <- Es in Hne|done|done|].
  { rewrite <- Hst. apply Sessions.stored_same, V2, session_key_own. }
  rewrite N2 in *. rewrite D2 in *. exists session, p, category. cbv zeta. rewrite N' in Hgone, Hthere.
  assert (Sessions.session_inv sha Sessions.ABSOLUTE_TIMEOUT births (view s') (now_of s')) as Hi.
  { eapply Sessions.history_inv; [apply OAuth.idle_le_absolute|exact Hh']. }
  rewrite N' in Hi. split_and!; [by rewrite Ec|done|done|exact (evidence_moves s s1 p a category N1 T1 V1 Hev)|done| | |].
  - intros Haal. destruct (Assurance.aal2_needs_two_categories (Sessions.s_amr session) category (Sessions.s_auth_time session) (now_of s) Assurance.MAX_SPAN)
      as (Hiff & _). apply Hiff in Haal as (_ & x & y & Hxy & Hx & Hy & Cx & Cy).
    apply elem_of_app in Hx as [Hx|Hx%list_elem_of_singleton]; [destruct (decide (x = category)) as [->|]; [|by exists x]|].
    + exists y. split_and!; [done| |done]. apply elem_of_app in Hy as [|Hy%list_elem_of_singleton]; [done|congruence].
    + exists y. split_and!; [congruence| |done]. apply elem_of_app in Hy as [|Hy%list_elem_of_singleton]; [done|congruence].
  - intros t Ht. erewrite Sessions.inv_answers; [|apply OAuth.idle_le_absolute|exact Hi|done|done].
    by rewrite (Sessions.stored_later _ (now_of s)).
  - erewrite Sessions.inv_answers; [|apply OAuth.idle_le_absolute|exact Hi|apply Z.le_refl|done]. fold sid in Hthere. rewrite Hthere.
    by rewrite raised_answer.
Qed.

(** ** Sheets and locks *)

Lemma draws_length n fresh s s' : draws n s = (s', Ok fresh) -> length fresh = n.
Proof.
  revert fresh s s'. induction n as [|n IH]; cbn [draws]; intros fresh s s'; [by intros [= _ <-]|].
  intros (sa & entropy & _ & E)%andthen_ok. apply andthen_ok in E as (sb & id & _ & E). apply andthen_ok in E as (sc & rest & E & [= _ <-]).
  cbn. f_equal. by eapply IH.
Qed.

(** A sheet takes a second factor.  Codes are handed out only to a session whose
    methods already name two factor categories; they replace the person's sheet and
    are the ten of the answer.  Every other request leaves the tables as they were. *)
Theorem sheets_take_a_second_factor (q : Site.Request) (s s' : state) (resp : Site.Response) :
  perform q IssueRecovery s = (s', Ok resp) ->
  (Site.rs_status resp = 201%Z ->
    exists session p fresh, (_caller q s).2 = Ok (Some session) /\ Sessions.s_person_uuid session = Some p /\
      Assurance.satisfies_aal2 (Sessions.s_amr session) = true /\ length fresh = Recovery.COUNT /\
      let issued := Factors.issue_recovery_codes (argon2_hash cfg) (tables s) p fresh (now_of s') in
      tables s' = issued.1 /\ Site.rs_content resp = Site.Document (JObj [("codes", Codec.of_strings issued.2)])) /\
  (Site.rs_status resp <> 201%Z -> tables s' = tables s).
Proof.
  cbn [perform]. unfold issue_recovery. rewrite with_person_run. pose proof (still_site (OAuth._current_session app q) s) as Hs. fold (_caller q) in Hs.
  destruct (_caller q s) as [s1 [[session|]|e]]; [|intros [= <- <-]; split; [discriminate|intros _; exact Hs]|discriminate]. cbn [fst] in Hs.
  destruct (Sessions.s_person_uuid session) as [p|] eqn:Ep; [|intros [= <- <-]; split; [discriminate|intros _; exact Hs]].
  destruct (Assurance.satisfies_aal2 (Sessions.s_amr session)) eqn:Ea; cbn [negb]; [|intros [= <- <-]; split; [discriminate|intros _; exact Hs]].
  intros (s2 & fresh & E2 & E)%andthen_ok. apply andthen_ok in E as (s3 & codes & E3 & E). apply andthen_ok in E as (s4 & [] & E4 & [= <- <-]).
  pose proof (still_draws Recovery.COUNT s1) as H2. rewrite E2 in H2. cbn [fst] in H2.
  apply store_ok in E3 as (db & E3 & ->). injection E4 as <-. split; [intros _|intros Hne; by destruct (Hne eq_refl)].
  exists session, p, fresh. split; [done|]. split; [exact Ep|]. split; [exact Ea|]. split; [by eapply draws_length|]. cbv zeta.
  cbn [tables set_world set_tables world Site.w_now Site.set_audit Site.rs_content Site.json_response]. rewrite H2, Hs in E3.
  set (issued := Factors.issue_recovery_codes _ _ _ _ _) in *. assert (issued = (db, codes)) as -> by congruence. by split.
Qed.

(** What the limiter is asked about before a request is looked at. *)
Definition gated (a : action) : option string :=
  match a with
  | StepUpTotp _ => Some Factors.TOTP
  | StepUpWebauthn _ => Some Factors.WEBAUTHN
  | StartPush _ => Some PUSH
  | StepUpRecovery _ => Some RECOVERY
  | _ => None
  end.

Lemma limited_locked p kind k s v d :
  view s (RateLimit._lock_key p kind) = Some (Entry v (Some d)) -> (0 < r_round (d - now_of s))%Z ->
  exists s', limited p kind k s = (s', Ok (_locked (RateLimit.LOCKED, r_round (d - now_of s)))) /\ tables s' = tables s.
Proof.
  intros Hv Hr. unfold limited, attempt, check, on_site. rewrite Site.redis_run.
  assert ((run (RateLimit.check RateLimit.LOCKOUT p kind) (redis_of s) (now_of s)).2 = Err (RateLimited RateLimit.LOCKED (r_round (d - now_of s)))) as ->.
  { rewrite run_result. unfold RateLimit.check, RateLimit.or_unavailable, redis_ttl, redis_int. simpl. rewrite Hv. simpl.
    by destruct (Z.ltb_spec 0 (r_round (d - now_of s))); [|lia]. }
  by eexists.
Qed.

Ltac locked :=
  match goal with
  | Hv : r_view _ _ _ = Some (Entry ?v (Some ?d)), Hr : (0 < r_round _)%Z |- context [limited ?p ?kind ?k ?s] =>
      destruct (limited_locked p kind k s v d Hv Hr) as (sl & El & Tl);
      exists sl; eexists; split; [exact El|]; split; [congruence|by left]
  end.

(** A lock stops the attempt before anything is checked.  While the limiter holds a
    lock on the kind of factor a request presents, the person is told how long it has
    left to run, and no code, assertion or sheet is read: the tables stay as they are.
    A request that is malformed, or for a push service the broker does not have, is
    told so instead. *)
Theorem locked_out_checks_nothing (q : Site.Request) (a : action) (s s1 : state) session p kind v d :
  _caller q s = (s1, Ok (Some session)) -> Sessions.s_person_uuid session = Some p -> gated a = Some kind ->
  view s1 (RateLimit._lock_key p kind) = Some (Entry v (Some d)) -> (0 < r_round (d - now_of s1))%Z ->
  exists s' resp, perform q a s = (s', Ok resp) /\ tables s' = tables s /\
    (resp = _locked (RateLimit.LOCKED, r_round (d - now_of s1)) \/
     resp = _refuse BAD_REQUEST 400 /\ (exists body, a = StepUpWebauthn body) \/
     resp = _refuse PUSH_UNAVAILABLE 503 /\ push_configured cfg = false).
Proof.
  intros Ec Hp Hg Hv Hr. pose proof (still_site (OAuth._current_session app q) s) as Hs. fold (_caller q) in Hs. rewrite Ec in Hs. cbn [fst] in Hs.
  assert (forall k : Sessions.Session -> string -> call Site.Response, with_person q k s = k session p s1) as Hw.
  { intros k. by rewrite with_person_run, Ec, Hp. }
  destruct a; try done; cbn [perform gated] in *; injection Hg as <-;
    [unfold step_up_totp|unfold step_up_webauthn|unfold start_push|unfold step_up_recovery]; rewrite Hw; cbv zeta.
  - locked.
  - do 4 (destruct (_b64url _); [|exists s1; eexists; split; [reflexivity|]; split; [done|right; left; split; [done|by eexists]]]). locked.
  - destruct (push_configured cfg) eqn:Epc; cbn [negb]; [|exists s1; eexists; split; [reflexivity|]; split; [done|by do 2 right]]. locked.
  - locked.
Qed.

End api.

(** ** Witnesses *)

Section witnesses.

Definition demo_id (n : nat) : string := "0c0c0c0c-0000-4000-8000-00000000000" +:+ pretty.pretty n.
Definition demo_app : OAuth.App (Priv := Z) := {|
  OAuth.oidc_issuer := "https://op"; OAuth.scope := "campus.test"; OAuth.pairwise_salt := "salt"; OAuth.keys := OAuth.keys OAuth.demo_site;
  OAuth.policies := OAuth.policies OAuth.demo_site; OAuth.netloc_ok := OAuth.netloc_ok OAuth.demo_site;
  OAuth.replaced := fun s => s; OAuth.sha256 := OAuth.demo_sha; OAuth.sha256_hex := Sessions.demo_digest; OAuth.digest32 := Sessions.demo_digest;
  OAuth.hmac_sha256 := OAuth.hmac_sha256 OAuth.demo_site; OAuth.fullmatch := fun _ _ => true; OAuth.float_repr := OAuth.float_repr OAuth.demo_site; OAuth.isoformat := OAuth.isoformat OAuth.demo_site;
  OAuth.shown := fun _ => ""; OAuth.draw := demo_id; OAuth.auth_rate_per_address := 10; OAuth.auth_rate_per_account := 5;
  OAuth.auth_rate_window := 60 |}.
Definition demo_settings : Settings := {|
  service_name := "broker"; webauthn_rp_id := "id.test"; webauthn_origin := "https://id.test"; push_configured := true;
  hmac_sha1 := Totp.demo_hmac; isspace := Factors.demo_space; isdigit := Totp.demo_isdigit; lib := WebAuthn.demo_keys;
  argon2_hash := Factors.demo_hash; argon2_verify := Factors.demo_check;
  rule_requires_aal2 := fun _ => None; role_requires_aal2 := fun _ => None |}.

(** A session of [sam] by password alone, at a time when codes exist. *)
Definition demo_start : moment := 60 * SECOND.
Definition demo_world : Site.world Store := {|
  Site.w_now := demo_start;
  Site.w_redis := (run (Sessions.create Sessions.demo_digest Sessions.IDLE_TIMEOUT Sessions.ABSOLUTE_TIMEOUT Sessions.SESSION_KEY_PREFIX "s1"
     Sessions.demo_login demo_start demo_start) (∅ : Store) demo_start).1;
  Site.w_identity := Site.w_identity OAuth.demo_world; Site.w_lifecycle := Site.w_lifecycle OAuth.demo_world;
  Site.w_clients := []; Site.w_federation := []; Site.w_audit := []; Site.w_correlation := "c1"; Site.w_impersonator := None; Site.w_draws := 0 |}.
Definition demo_state : state (R := Store) := {| world := demo_world; tables := Factors.demo_db; roles := [] |}.

Definition quoted (s : string) : string := String JsonText.dquote (s +:+ String JsonText.dquote "").
Definition demo_body (k v : string) : string := "{" +:+ quoted k +:+ ":" +:+ quoted v +:+ "}".
Definition cookie_of (sid : string) : Site.Request :=
  {| Site.rq_address := None; Site.rq_user_agent := ""; Site.rq_authorization := ""; Site.rq_cookies := [(Site.SESSION_COOKIE, sid)] |}.

(** A text of a document an answer holds. *)
Definition said (r : result raised Site.Response) (k : string) : string :=
  match r with
  | Ok resp => match Site.rs_content resp with
               | Site.Document (JObj m) => match Json.get m k with JStr v => v | _ => "" end
               | _ => ""
               end
  | Err _ => ""
  end.
Definition status_of (r : result raised Site.Response) : Z := match r with Ok resp => Site.rs_status resp | Err _ => 500 end.
Definition app_code (secret : string) (step : Z) : string := match Totp.code_at Totp.demo_hmac secret step with Ok c => c | Err _ => "" end.

Abbreviation ask q a := (perform demo_app demo_settings q a).
Definition browser := cookie_of "s1".

(** Enrolling, confirming with the first code of the new secret, and stepping up
    with its next. *)
Definition enrolled := ask browser (BeginTotp (demo_body "label" "mine")) demo_state.
Definition new_factor := said enrolled.2 "id".
Definition secret := said enrolled.2 "secret".
Definition confirmed := ask browser (ConfirmTotp new_factor (demo_body "code" (app_code secret 2))) enrolled.1.
Definition raised_up := ask browser (StepUpTotp (demo_body "code" (app_code secret 3))) confirmed.1.
Abbreviation sheet := (ask (cookie_of (demo_id 2)) IssueRecovery raised_up.1).

(** A password is enough for [aal2] and for a recovery sheet.  Enrolling a factor
    asks for nothing but the session, also of a person who has a confirmed factor;
    so whoever holds the password session enrols an authenticator of their own,
    steps up with it, and is handed a sheet. *)
Theorem password_session_reaches_aal2 :
  Factors.has_factor (tables demo_state) "sam" = true /\
  (exists session, (_caller demo_app browser demo_state).2 = Ok (Some session) /\ Sessions.s_amr session = [Assurance.PWD]) /\
  said raised_up.2 "acr" = Authz.AAL2 /\ status_of sheet.2 = 201%Z /\
  Factors.recovery_codes_remaining (tables sheet.1) "sam" = Recovery.COUNT.
Proof. split_and!; [vm_compute; reflexivity|eexists; split; vm_compute; reflexivity|vm_compute; reflexivity..]. Qed.

Lemma secret_reads_back_witness : Totp._decode (new_secret "0123456789abcdefghij") = Ok "0123456789abcdefghij".
Proof. exact (proj2 (secret_reads_back "0123456789abcdefghij" eq_refl)). Defined.

(** Five wrong codes at the step-up lock it. *)
Definition wrong := ask browser (StepUpTotp (demo_body "code" "999999")).
Definition locked_state : state := (wrong (wrong (wrong (wrong (wrong enrolled.1).1).1).1).1).1.
Definition guess (code : string) := ask browser (ConfirmTotp new_factor (demo_body "code" code)) locked_state.

(** Confirming an enrolment is not limited.  While the lock is on, wrong codes for an
    unconfirmed factor are still told from the right one. *)
Theorem confirmation_is_not_limited :
  status_of (ask browser (StepUpTotp (demo_body "code" (app_code secret 2))) locked_state).2 = 429%Z /\
  status_of (guess "999999").2 = 400%Z /\ status_of (guess (app_code secret 2)).2 = 200%Z.
Proof. split_and!; vm_compute; reflexivity. Qed.

Definition eves : Factors.MfaFactor :=
  {| Factors.f_id := "f2"; Factors.f_person := "eve"; Factors.f_kind := Factors.TOTP; Factors.f_label := "phone"; Factors.f_secret := Some Factors.demo_secret;
     Factors.f_last_step := None; Factors.f_credential_id := None; Factors.f_public_key := None; Factors.f_sign_count := None; Factors.f_algorithm := None;
     Factors.f_created_at := 0; Factors.f_confirmed_at := Some 0%Z; Factors.f_last_used_at := None; Factors.f_disabled_at := None |}.
Definition shared_state : state := set_tables (Factors.add_factor eves Factors.demo_db) demo_state.

Lemma factors_are_own_witness :
  others "sam" (tables (ask browser (StepUpTotp (demo_body "code" (app_code Factors.demo_secret 2))) shared_state).1) = ([eves], []).
Proof.
  assert (unique_ids (tables shared_state)) as Hu by (split; apply (bool_decide_eq_true_1 _); vm_compute; reflexivity).
  pose proof (factors_are_own demo_app demo_settings browser (StepUpTotp (demo_body "code" (app_code Factors.demo_secret 2))) shared_state Hu) as H.
  assert (exists session, (_caller demo_app browser shared_state).2 = Ok (Some session) /\ Sessions.s_person_uuid session = Some "sam") as (session & Ec & Ep)
    by (eexists; split; vm_compute; reflexivity).
  rewrite Ec, Ep in H. rewrite H. vm_compute. reflexivity.
Defined.

Abbreviation stepped := (ask browser (StepUpTotp (demo_body "code" (app_code Factors.demo_secret 2))) demo_state).

Lemma step_up_is_proved_witness : exists resp,
  stepped.2 = Ok resp /\ evidence demo_app demo_settings demo_state "sam" (StepUpTotp (demo_body "code" (app_code Factors.demo_secret 2))) Assurance.OTP /\
  (run (Sessions.load Sessions.demo_digest Sessions.IDLE_TIMEOUT Sessions.ABSOLUTE_TIMEOUT Sessions.SESSION_KEY_PREFIX "s1" (demo_start + 1))
     (Site.w_redis (world stepped.1)) (demo_start + 1)).2 = Ok (Sessions.Loaded None None).
Proof.
  assert (exists resp, stepped.2 = Ok resp /\ Site.rs_cookies resp <> []) as (resp & Er & Hck) by (eexists; split; [vm_compute; reflexivity|discriminate]).
  assert (stepped = (stepped.1, Ok resp)) as E by (rewrite <- Er; apply surjective_pairing).
  assert (Sessions.history (R := Store) Sessions.demo_digest Sessions.IDLE_TIMEOUT Sessions.ABSOLUTE_TIMEOUT [(Sessions.demo_login, demo_start)]
    (Site.w_redis (world demo_state)) (Site.w_now (world demo_state))) as Hh.
  { apply Sessions.history_create with (t := 0%Z); [|by vm_compute|reflexivity]. apply Sessions.history_start. intros rest. simpl. by rewrite lookup_empty. }
  destruct (step_up_is_proved demo_app demo_settings [(Sessions.demo_login, demo_start)] browser _ demo_state stepped.1 resp Hh eq_refl
    ltac:(vm_compute; discriminate) E Hck) as (session & p & category & Ec & Eck & Ep & Hev & _ & _ & Hgone & _).
  assert (Sessions.s_sid session = "s1") as Es by (vm_compute in Eck; by injection Eck).
  assert (p = "sam") as ->.
  { assert (exists x, (_caller demo_app browser demo_state).2 = Ok (Some x) /\ Sessions.s_person_uuid x = Some "sam") as (x & Ex & Epx)
      by (eexists; split; vm_compute; reflexivity). rewrite Ex in Ec. injection Ec as <-. congruence. }
  assert (category = Assurance.OTP) as -> by (by destruct Hev).
  exists resp. split; [exact Er|]. split; [exact Hev|]. rewrite <- Es. apply Hgone. by vm_compute.
Defined.

Lemma sheets_take_a_second_factor_witness : exists session,
  (_caller demo_app (cookie_of (demo_id 2)) raised_up.1).2 = Ok (Some session) /\ Assurance.satisfies_aal2 (Sessions.s_amr session) = true.
Proof.
  assert (exists resp, sheet.2 = Ok resp /\ Site.rs_status resp = 201%Z) as (resp & Er & Hs) by (eexists; split; vm_compute; reflexivity).
  assert (sheet = (sheet.1, Ok resp)) as E by (rewrite <- Er; apply surjective_pairing).
  pose proof (sheets_take_a_second_factor demo_app demo_settings (cookie_of (demo_id 2)) raised_up.1 sheet.1 resp E) as [H _].
  destruct (H Hs) as (session & p & fresh & H1 & _ & H2 & _). exists session. by split.
Defined.

Abbreviation entered_locked := (_caller demo_app browser locked_state).

Lemma locked_out_checks_nothing_witness :
  exists s' n, ask browser (StepUpTotp (demo_body "code" (app_code secret 2))) locked_state = (s', Ok (_locked (RateLimit.LOCKED, n))) /\
    tables s' = tables locked_state.
Proof.
  assert (exists session, entered_locked.2 = Ok (Some session) /\ Sessions.s_person_uuid session = Some "sam") as (session & Ec & Ep)
    by (eexists; split; vm_compute; reflexivity).
  assert (r_view (Site.w_redis (world entered_locked.1)) (Site.w_now (world entered_locked.1)) (RateLimit._lock_key "sam" Factors.TOTP) =
      Some (Entry (VScalar (SText "1")) (Some (demo_start + RateLimit.LOCKOUT)%Z))) as Hv by (vm_compute; reflexivity).
  assert (Site.w_now (world entered_locked.1) = demo_start) as Hn by (vm_compute; reflexivity).
  assert (0 < r_round (demo_start + RateLimit.LOCKOUT - Site.w_now (world entered_locked.1)))%Z as Hd by (rewrite Hn; vm_compute; reflexivity).
  destruct (locked_out_checks_nothing demo_app demo_settings browser (StepUpTotp (demo_body "code" (app_code secret 2))) locked_state entered_locked.1 session "sam"
    Factors.TOTP _ _ (eq_trans (surjective_pairing _) (f_equal (pair _) Ec)) Ep eq_refl Hv Hd) as (s' & resp & E & T & Hr).
  exists s'. eexists. split; [rewrite E; do 2 f_equal|exact T]. destruct Hr as [Hr|[[_ [b Hb]]|[_ Hb]]]; [exact Hr|discriminate|discriminate].
Defined.

End witnesses.

End Mfa.
