(* ===== verification/Users.v ===== *)
(** * SCIM users over the identity registry

    [campusid/scim/resources.py], [campusid/scim/models.py] and the [UserStore] of
    [campusid/scim/store.py]: the projection of a person as a SCIM document, the
    reading of a document a client sends, and the operations that turn it into
    rows.  A transaction is one function from tables to tables; one that raises
    leaves them as they were.  Postgres answers an unordered query in the order of
    the table here; SHA-256 and the texts of floats are parameters.  What the
    lifecycle hook is told is part of a result. *)

From S2P Require Import Prelude PyStr Dict Json JsonText JsonLoads Errors IsoTime ScimFilter ScimPatch Bulk Lifecycle Registry.

Module Resources.
Import Registry.

Definition CORE_USER := "urn:ietf:params:scim:schemas:core:2.0:User".
Definition ENTERPRISE_USER := "urn:ietf:params:scim:schemas:extension:enterprise:2.0:User".
Definition CAMPUS_USER := "urn:campusid:scim:schemas:extension:2.0:User".
Definition MAX_RESULTS : Z := 200.

Definition ID_EMPLOYEE := "employee_id".
Definition STATUS_SUSPENDED := "suspended".

(** [x or None] of an optional string. *)
Definition filled (o : option string) : option string := match o with Some "" => None | o => o end.

Record UserRecord : Type := {
  ur_person : Person;
  ur_identifiers : list Identifier;
  ur_affiliations : list Affiliation;
  ur_external_id : option string;
  ur_groups : list (string * string);
}.

(** ** Outward *)

Definition pick (candidates : list Identifier) : option string :=
  let primary := id_value <$> List.find is_primary candidates in
  match filled primary with Some v => Some v | None => id_value <$> head candidates end.

Definition _primary (rows : list Identifier) (t : string) : option string :=
  let of_type := List.filter (fun i => String.eqb (id_type i) t) rows in
  match pick (List.filter live of_type) with Some v => Some v | None => pick of_type end.

Definition _user_name (r : UserRecord) : string :=
  match filled (_primary (ur_identifiers r) ID_EPPN) with
  | Some v => v
  | None => edu_person_unique_id (ur_person r)
  end.

(** The key [(not i.is_primary, i.value)]. *)
Definition mail_order (i j : Identifier) : bool :=
  if Bool.eqb (is_primary i) (is_primary j) then String.leb (id_value i) (id_value j) else is_primary i.

Definition _emails (rows : list Identifier) : list json :=
  (fun i => JObj [("value", JStr (id_value i)); ("type", JStr "work"); ("primary", JBool (is_primary i))]) <$>
    Sort.sort mail_order (List.filter (fun i => String.eqb (id_type i) ID_MAIL && live i) rows).

Definition _current (rows : list Affiliation) (today : Z) : list Affiliation :=
  List.filter (fun a => (valid_from a <=? today)%Z &&
    match valid_until a with None => true | Some u => (today <? u)%Z end) rows.

Definition with_some (k : string) (o : option string) : list (string * json) :=
  match filled o with Some v => [(k, JStr v)] | None => [] end.

Definition _enterprise (r : UserRecord) (today : Z) : list (string * json) :=
  with_some "employeeNumber" (_primary (ur_identifiers r) ID_EMPLOYEE) ++
  with_some "department" (head (omap (fun a => filled (org_unit a)) (_current (ur_affiliations r) today))).

Definition by_start (a b : Affiliation) : bool := (valid_from a <=? valid_from b)%Z.

Definition affiliation_json (a : Affiliation) : json := JObj (
  [("value", JStr (affiliation a)); ("primary", JBool (af_is_primary a))] ++
  match org_unit a with Some u => [("orgUnit", JStr u)] | None => [] end ++
  [("validFrom", JStr (Dates.isoformat (valid_from a)))] ++
  match valid_until a with Some u => [("validUntil", JStr (Dates.isoformat u))] | None => [] end).

Definition _campus (r : UserRecord) : list (string * json) :=
  match ur_affiliations r with
  | [] => []
  | rows => [("affiliations", JArr (affiliation_json <$> Sort.sort by_start rows))]
  end ++
  (if ferpa_directory_suppressed (ur_person r) then [("ferpaDirectorySuppressed", JBool true)] else []).

(** [value.astimezone(UTC).isoformat().replace("+00:00", "Z")]. *)
Definition pad2 (n : Z) : string := Py.zfill 2 (Py.str_of_Z n).
Definition _instant (t : moment) : string :=
  let s := (t / SECOND)%Z in let us := (t mod SECOND)%Z in let r := (s mod 86400)%Z in
  Dates.isoformat (s / 86400) +:+ "T" +:+ pad2 (r / 3600) +:+ ":" +:+ pad2 (r / 60 mod 60) +:+ ":" +:+ pad2 (r mod 60) +:+
  (if (us =? 0)%Z then "" else "." +:+ Py.zfill 6 (Py.str_of_Z us)) +:+ "Z".

(** Every dict of a document in the order of its keys. *)
Fixpoint sort_keys (j : json) : json :=
  match j with
  | JObj m => JObj (Sort.sort JsonText.by_key (map (fun kv => (kv.1, sort_keys kv.2)) m))
  | JArr l => JArr (map sort_keys l)
  | _ => j
  end.

Definition quote : string := String JsonText.dquote "".

Section projection.
Context (sha256_hex : string -> string) (float_repr : Z -> Z -> string) (iso_text : moment -> string).
Context (issuer : string).

Definition etag (resource : list (string * json)) : string :=
  let without_meta := List.filter (fun kv => negb (String.eqb kv.1 "meta")) resource in
  "W/" +:+ quote +:+ Py.take 32 (sha256_hex (JsonLoads.dumps float_repr iso_text (sort_keys (JObj without_meta)))) +:+ quote.

Definition name_json (p : Person) : list (string * json) :=
  with_some "formatted" (display_name p) ++ with_some "givenName" (given_name p) ++ with_some "familyName" (surname p).

Definition group_json (g : string * string) : json := JObj [
  ("value", JStr g.1); ("display", JStr g.2); ("type", JStr "direct"); ("$ref", JStr (issuer +:+ "/scim/v2/Groups/" +:+ g.1))].

(** [if x: resource[k] = x]. *)
Definition with_object (k : string) (m : list (string * json)) : list (string * json) :=
  match m with [] => [] | _ => [(k, JObj m)] end.
Definition with_list (k : string) (l : list json) : list (string * json) := match l with [] => [] | _ => [(k, JArr l)] end.
Definition listed (urn : string) (m : list (string * json)) : list json := match m with [] => [] | _ => [JStr urn] end.

(** The document without [meta]; the list of schemas grows as the extensions are
    added. *)
Definition body (r : UserRecord) (today : Z) : list (string * json) :=
  let p := ur_person r in
  [("schemas", JArr ([JStr CORE_USER] ++ listed ENTERPRISE_USER (_enterprise r today) ++ listed CAMPUS_USER (_campus r)));
   ("id", JStr (person_uuid p)); ("userName", JStr (_user_name r));
   ("active", JBool (String.eqb (status p) STATUS_ACTIVE))] ++
  with_some "externalId" (ur_external_id r) ++
  with_object "name" (name_json p) ++ with_some "displayName" (display_name p) ++
  with_some "preferredLanguage" (preferred_language p) ++
  with_list "emails" (_emails (ur_identifiers r)) ++
  with_object ENTERPRISE_USER (_enterprise r today) ++
  with_list "groups" (group_json <$> ur_groups r) ++
  with_object CAMPUS_USER (_campus r).

Definition to_scim (r : UserRecord) (today : Z) : list (string * json) :=
  let p := ur_person r in
  body r today ++ [("meta", JObj [
    ("resourceType", JStr "User"); ("created", JStr (_instant (created_at p))); ("lastModified", JStr (_instant (updated_at p)));
    ("location", JStr (issuer +:+ "/scim/v2/Users/" +:+ person_uuid p)); ("version", JStr (etag (body r today)))])].

End projection.

(** ** Inward *)

Record ParsedAffiliation : Type := {
  pa_value : string; pa_is_primary : bool; pa_org_unit : option string; pa_valid_from : Z; pa_valid_until : option Z }.

Record ParsedUser : Type := {
  user_name : string;
  external_id : option string;
  pu_display_name : option string;
  pu_given_name : option string;
  pu_surname : option string;
  pu_preferred_language : option string;
  active : bool;
  emails : list (string * bool);
  employee_number : option string;
  pu_ferpa : bool;
  pu_affiliations : list ParsedAffiliation;
}.
Definition pu_status (p : ParsedUser) : string := if active p then STATUS_ACTIVE else STATUS_SUSPENDED.

Definition bad_value : Bulk.raised := Bulk.Scim (Bulk.Refused 400 "invalidValue").
Definition bad_syntax : Bulk.raised := Bulk.Scim (Bulk.Refused 400 "invalidSyntax").

Definition _extension (document : list (string * json)) (urn : string) : list (string * json) :=
  match Json.get document urn with JObj m => m | _ => [] end.
Definition _optional_string (container : list (string * json)) (name : string) : option string :=
  match Json.get container name with JStr s => filled (Some (Py.strip s)) | _ => None end.

(** [date.fromisoformat]. *)
Definition date_fromisoformat (s : string) : option Z :=
  let n := String.length s in
  if Nat.eqb n 7 || Nat.eqb n 8 || Nat.eqb n 10 then IsoTime.parse_date s else None.

(** [datetime.astimezone(UTC)] raises [OverflowError] outside the years 1 to 9999;
    a text without an offset is read in the server's time, which is UTC. *)
Definition _parse_date (raw : json) : result Bulk.raised (option Z) :=
  match raw with
  | JNull => Ok None
  | JStr s =>
      if Py.has_char "T" s then
        match IsoTime.fromisoformat (Py.replace s "Z" "+00:00") with
        | Some d => if IsoTime.in_range (IsoTime.instant d) then Ok (Some (IsoTime.instant d / IsoTime.DAY)%Z) else Err (Bulk.Uncaught OverflowError)
        | None => Err bad_value
        end
      else match date_fromisoformat s with Some d => Ok (Some d) | None => Err bad_value end
  | _ => Err bad_value
  end.

Definition parse_email (entry : json) : result Bulk.raised (string * bool) :=
  match entry with
  | JObj m =>
      match Json.get m "value" with
      | JStr v => if Py.has_char "@" v then Ok (Py.lower (Py.strip v), Json.truthy (default (JBool false) (Json.lookup m "primary"))) else Err bad_value
      | _ => Err bad_value
      end
  | _ => Err bad_syntax
  end.

Definition at_most_one {A} (f : A -> bool) (l : list A) : bool := (length (List.filter f l) <=? 1)%nat.

Definition _parse_emails (raw : json) : result Bulk.raised (list (string * bool)) :=
  match raw with
  | JNull => Ok []
  | JArr l =>
      let* parsed := rmap parse_email l in
      raise* bad_value when negb (at_most_one snd parsed); Ok parsed
  | _ => Err bad_syntax
  end.

Definition parse_affiliation (today : Z) (entry : json) : result Bulk.raised ParsedAffiliation :=
  match entry with
  | JObj m =>
      match Json.get m "value" with
      | JStr v =>
          raise* bad_value when String.eqb v "";
          let* from := _parse_date (Json.get m "validFrom") in
          let from := default today from in
          let* until := _parse_date (Json.get m "validUntil") in
          raise* bad_value when match until with Some u => (u <? from)%Z | None => false end;
          Ok {| pa_value := Py.lower (Py.strip v); pa_is_primary := Json.truthy (default (JBool false) (Json.lookup m "primary"));
                pa_org_unit := _optional_string m "orgUnit"; pa_valid_from := from; pa_valid_until := until |}
      | _ => Err bad_value
      end
  | _ => Err bad_syntax
  end.

Definition _parse_affiliations (today : Z) (raw : json) : result Bulk.raised (list ParsedAffiliation) :=
  match raw with
  | JNull => Ok []
  | JArr l =>
      let* parsed := rmap (parse_affiliation today) l in
      raise* bad_value when negb (at_most_one pa_is_primary parsed); Ok parsed
  | _ => Err bad_syntax
  end.

(** [a or b]. *)
Definition or_else (a b : option string) : option string := match filled a with Some v => Some v | None => b end.

Definition from_scim (today : Z) (document : json) : result Bulk.raised ParsedUser :=
  match document with
  | JObj d =>
      match Json.get d "userName" with
      | JStr u =>
          raise* bad_value when String.eqb (Py.strip u) "";
          let name := match Json.get d "name" with JObj m => m | _ => [] end in
          let enterprise := _extension d ENTERPRISE_USER in
          let campus := _extension d CAMPUS_USER in
          match default (JBool true) (Json.lookup d "active") with
          | JBool on =>
              let* es := _parse_emails (Json.get d "emails") in
              let* affs := _parse_affiliations today (Json.get campus "affiliations") in
              Ok {| user_name := Py.lower (Py.strip u); external_id := _optional_string d "externalId";
                    pu_display_name := or_else (_optional_string d "displayName") (_optional_string name "formatted");
                    pu_given_name := _optional_string name "givenName"; pu_surname := _optional_string name "familyName";
                    pu_preferred_language := _optional_string d "preferredLanguage"; active := on; emails := es;
                    employee_number := _optional_string enterprise "employeeNumber";
                    pu_ferpa := Json.truthy (default (JBool false) (Json.lookup campus "ferpaDirectorySuppressed"));
                    pu_affiliations := affs |}
          | _ => Err bad_value
          end
      | _ => Err bad_value
      end
  | _ => Err bad_syntax
  end.

End Resources.

Module UserStore.
Import Registry Resources.

Definition STATUS_DEACTIVATED := "deactivated".
Definition MAX_SCANNED : nat := 5000.
Definition DEFAULT_COUNT : Z := 100.
Definition LIST_RESPONSE := "urn:ietf:params:scim:api:messages:2.0:ListResponse".

(** ** The tables *)

Record ScimSourceRecord : Type := {
  sr_person : string;
  sr_external_id : option string;
  sr_raw_resource : json;
  sr_version : string;
  sr_last_sync_at : moment;
}.
Record ScimGroup : Type := {
  group_uuid : string;
  group_display_name : string;
  group_external_id : option string;
  revision : Z;
  group_created_at : moment;
  group_updated_at : moment;
}.
Record ScimGroupMember : Type := { gm_group : string; gm_person : string; added_at : moment }.

Record tables : Type := {
  registry : Registry.db;
  sources : list ScimSourceRecord;
  groups : list ScimGroup;
  members : list ScimGroupMember;
}.
Definition with_registry (s : Registry.db) (t : tables) : tables :=
  {| registry := s; sources := sources t; groups := groups t; members := members t |}.
Definition with_sources (l : list ScimSourceRecord) (t : tables) : tables :=
  {| registry := registry t; sources := l; groups := groups t; members := members t |}.

(** What the lifecycle hook is told. *)
Record transition : Type := { tr_person : string; tr_before : gset string; tr_after : gset string }.

Definition not_found : Bulk.raised := Bulk.Scim (Bulk.Refused 404 "").
Definition duplicate : Bulk.raised := Bulk.Scim (Bulk.Refused 409 "uniqueness").
Definition version_mismatch : Bulk.raised := Bulk.Scim (Bulk.Refused 412 "").
Definition integrity : Bulk.raised := Bulk.Uncaught Errors.IntegrityError.

Definition of_db {A} (r : result db_error A) : result Bulk.raised A :=
  match r with Ok a => Ok a | Err IntegrityError => Err integrity | Err ValueError => Err (Bulk.Uncaught Errors.ValueError) end.

(** A transaction that raises is rolled back. *)
Definition transaction {A} (t : tables) (r : result Bulk.raised (tables * A)) : tables * result Bulk.raised A :=
  match r with Ok (t', a) => (t', Ok a) | Err e => (t, Err e) end.

(** ** Versions *)

(** [version in _candidates(if_match)]. *)
Definition _candidates (if_match version : string) : bool :=
  if String.eqb (Py.strip if_match) "*" then String.eqb version "*"
  else
    let tags := Py.strip <$> Py.split_on "," if_match in
    existsb (fun tag => String.eqb version tag || String.eqb version ("W/" +:+ tag) ||
                        String.eqb version (Py.removeprefix tag "W/")) tags.

Definition _assert_version (source : option ScimSourceRecord) (if_match : option string) : result Bulk.raised unit :=
  match if_match with
  | None => Ok tt
  | Some m =>
      match source with
      | Some row => if _candidates m (sr_version row) then Ok tt else Err version_mismatch
      | None => Err version_mismatch
      end
  end.

Definition _as_uuid (resource_id : string) : result Bulk.raised string :=
  match Uuid.parse resource_id with Some p => Ok p | None => Err not_found end.

Definition vocabulary (v : string) : bool := bool_decide (v ∈ Lifecycle.AFFILIATION_VOCABULARY).

(** ** Reading rows *)

Definition _identifiers (s : Registry.db) (p : string) : list Identifier :=
  List.filter (fun row => String.eqb (id_person row) p) (identifiers s).
Definition _affiliations (s : Registry.db) (p : string) : list Affiliation :=
  List.filter (fun row => String.eqb (af_person row) p) (affiliations s).
Definition _source (t : tables) (p : string) : option ScimSourceRecord :=
  List.find (fun row => String.eqb (sr_person row) p) (sources t).

Definition by_name (a b : string * (string * string)) : bool := String.leb a.2.2 b.2.2.
(** The join of the memberships of [people] with their groups, by display name. *)
Definition memberships (t : tables) (people : list string) : list (string * (string * string)) :=
  Sort.sort by_name (omap (fun m =>
    if existsb (String.eqb (gm_person m)) people then
      (fun g => (gm_person m, (group_uuid g, group_display_name g))) <$> List.find (fun g => String.eqb (group_uuid g) (gm_group m)) (groups t)
    else None) (members t)).
Definition _groups (t : tables) (people : list string) (p : string) : list (string * string) :=
  snd <$> List.filter (fun row => String.eqb row.1 p) (memberships t people).

Definition _load (t : tables) (p : string) : option UserRecord :=
  person ← find_person (registry t) p;
  Some {| ur_person := person; ur_identifiers := _identifiers (registry t) p; ur_affiliations := _affiliations (registry t) p;
          ur_external_id := _source t p ≫= sr_external_id; ur_groups := _groups t [p] p |}.

(** The page's rows are fetched together and grouped by person. *)
Definition _load_many (t : tables) (people : list Person) : list UserRecord :=
  let keys := person_uuid <$> people in
  let wanted p := existsb (String.eqb p) keys in
  let ids := List.filter (fun row => wanted (id_person row)) (identifiers (registry t)) in
  let affs := List.filter (fun row => wanted (af_person row)) (affiliations (registry t)) in
  let srcs := List.filter (fun row => wanted (sr_person row)) (sources t) in
  (fun person =>
     let p := person_uuid person in
     {| ur_person := person;
        ur_identifiers := List.filter (fun row => String.eqb (id_person row) p) ids;
        ur_affiliations := List.filter (fun row => String.eqb (af_person row) p) affs;
        ur_external_id := List.find (fun row => String.eqb (sr_person row) p) (rev srcs) ≫= sr_external_id;
        ur_groups := _groups t keys p |}) <$> people.

(** ** Writing rows *)

Definition identifier_row (p t v : string) (scope : option string) (primary : bool) (now : moment) : Identifier :=
  {| id_person := p; id_type := t; id_value := v; id_scope := scope; is_primary := primary; issued_at := now; released_at := None |}.
Definition affiliation_row (p : string) (a : ParsedAffiliation) : Affiliation :=
  {| af_person := p; affiliation := pa_value a; af_is_primary := pa_is_primary a; org_unit := pa_org_unit a;
     valid_from := pa_valid_from a; valid_until := pa_valid_until a; af_source := "sis" |}.

(** [for x in l: f(x)], on rows. *)
Fixpoint each {A} (f : A -> Registry.db -> result Bulk.raised Registry.db) (l : list A) (s : Registry.db) : result Bulk.raised Registry.db :=
  match l with
  | [] => Ok s
  | x :: l' => let* s' := f x s in each f l' s'
  end.
Definition add_identifier (row : Identifier) (s : Registry.db) : result Bulk.raised Registry.db := of_db (insert_identifier row s).
Definition add_affiliation_row (row : Affiliation) (s : Registry.db) : result Bulk.raised Registry.db := of_db (insert_affiliation row s).

Definition _assert_username_free (s : Registry.db) (name : string) (excluding : option string) : result Bulk.raised unit :=
  match List.find (fun row => typed ID_EPPN name row && live row) (identifiers s) with
  | Some row => if bool_decide (Some (id_person row) = excluding) then Ok tt else Err duplicate
  | None => Ok tt
  end.

Definition _write_identifiers (p : string) (parsed : ParsedUser) (now : moment) : list Identifier :=
  identifier_row p ID_EPPN (user_name parsed) (_scope_of (user_name parsed)) true now ::
  ((fun e => identifier_row p ID_MAIL e.1 None e.2 now) <$> emails parsed) ++
  match filled (employee_number parsed) with Some n => [identifier_row p ID_EMPLOYEE n None true now] | None => [] end.

Definition check_vocabulary (l : list ParsedAffiliation) : result Bulk.raised unit :=
  if forallb (fun a => vocabulary (pa_value a)) l then Ok tt else Err bad_value.

(** A dict whose keys are pairs. *)
Section wanted.
Context {K V : Type} `{EqDecision K}.
Fixpoint put (d : list (K * V)) (k : K) (v : V) : list (K * V) :=
  match d with
  | [] => [(k, v)]
  | (k', v') :: d' => if decide (k = k') then (k, v) :: d' else (k', v') :: put d' k v
  end.
Fixpoint find_key (d : list (K * V)) (k : K) : option V :=
  match d with [] => None | (k', v) :: d' => if decide (k = k') then Some v else find_key d' k end.
Definition drop_key (d : list (K * V)) (k : K) : list (K * V) := List.filter (fun kv => negb (bool_decide (kv.1 = k))) d.
End wanted.

Definition wanted_identifiers (parsed : ParsedUser) : list ((string * string) * bool) :=
  let d := fold_left (fun d e => put d (ID_MAIL, e.1) e.2) (emails parsed) [((ID_EPPN, user_name parsed), true)] in
  match filled (employee_number parsed) with Some n => put d (ID_EMPLOYEE, n) true | None => d end.

Definition set_primary (b : bool) (row : Identifier) : Identifier :=
  {| id_person := id_person row; id_type := id_type row; id_value := id_value row; id_scope := id_scope row;
     is_primary := b; issued_at := issued_at row; released_at := released_at row |}.

Definition provisioned (t : string) : bool := bool_decide (t ∈ [ID_EPPN; ID_MAIL; ID_EMPLOYEE]).

(** The loop over the live rows of a person. *)
Fixpoint reconcile (p : string) (now : moment) (wanted : list ((string * string) * bool)) (rows : list Identifier) :
    list Identifier * list ((string * string) * bool) :=
  match rows with
  | [] => ([], wanted)
  | row :: rest =>
      let key := (id_type row, id_value row) in
      let '(row', wanted') :=
        if String.eqb (id_person row) p && live row then
          match find_key wanted key with
          | Some primary => (set_primary primary row, drop_key wanted key)
          | None => (if provisioned (id_type row) then release_row now row else row, wanted)
          end
        else (row, wanted) in
      let '(rest', remaining) := reconcile p now wanted' rest in (row' :: rest', remaining)
  end.

Definition _replace_identifiers (s : Registry.db) (p : string) (parsed : ParsedUser) (now : moment) : result Bulk.raised Registry.db :=
  let '(rows, remaining) := reconcile p now (wanted_identifiers parsed) (identifiers s) in
  each add_identifier
    ((fun kv => identifier_row p kv.1.1 kv.1.2 (if String.eqb kv.1.1 ID_EPPN then _scope_of kv.1.2 else None) kv.2 now) <$> remaining)
    (with_identifiers (fun _ => rows) s).

Definition wanted_affiliations (parsed : ParsedUser) : list ((string * Z) * ParsedAffiliation) :=
  fold_left (fun d a => put d (pa_value a, pa_valid_from a) a) (pu_affiliations parsed) [].

Definition resent (row : Affiliation) (a : ParsedAffiliation) : Affiliation :=
  {| af_person := af_person row; affiliation := affiliation row; af_is_primary := pa_is_primary a; org_unit := pa_org_unit a;
     valid_from := valid_from row; valid_until := pa_valid_until a; af_source := af_source row |}.

Fixpoint reconcile_affiliations (p : string) (today : Z) (wanted : list ((string * Z) * ParsedAffiliation)) (rows : list Affiliation) :
    list Affiliation * list ((string * Z) * ParsedAffiliation) :=
  match rows with
  | [] => ([], wanted)
  | row :: rest =>
      let key := (affiliation row, valid_from row) in
      let '(row', wanted') :=
        if String.eqb (af_person row) p then
          match find_key wanted key with
          | Some sent => (resent row sent, drop_key wanted key)
          | None => (match valid_until row with None => close_row today row | Some _ => row end, wanted)
          end
        else (row, wanted) in
      let '(rest', remaining) := reconcile_affiliations p today wanted' rest in (row' :: rest', remaining)
  end.

Definition _replace_affiliations (s : Registry.db) (p : string) (parsed : ParsedUser) (today : Z) : result Bulk.raised Registry.db :=
  let '(rows, remaining) := reconcile_affiliations p today (wanted_affiliations parsed) (affiliations s) in
  let* _ := check_vocabulary remaining.*2 in
  each add_affiliation_row (affiliation_row p <$> remaining.*2) (with_affiliations (fun _ => rows) s).

(** The columns of a person that a client writes; [updated_at] moves when one of
    them changes. *)
Definition written (row : Person) (parsed : ParsedUser) : Person :=
  {| person_uuid := person_uuid row; edu_person_unique_id := edu_person_unique_id row; display_name := pu_display_name parsed;
     given_name := pu_given_name parsed; surname := pu_surname parsed; preferred_language := pu_preferred_language parsed;
     ferpa_directory_suppressed := pu_ferpa parsed; status := pu_status parsed; provisioning_source := provisioning_source row;
     created_at := created_at row; updated_at := updated_at row |}.
Definition stamped (now : moment) (row : Person) : Person := set_row_status (status row) now row.
#[global] Instance Person_eq_dec : EqDecision Person.
Proof. solve_decision. Defined.
Definition overwrite (parsed : ParsedUser) (now : moment) (row : Person) : Person :=
  if bool_decide (written row parsed = row) then row else stamped now (written row parsed).

Definition open_affiliations (s : Registry.db) (p : string) : gset string :=
  list_to_set (affiliation <$> List.filter (fun row => bool_decide (valid_until row = None)) (_affiliations s p)).

Section store.
Context (sha256_hex : string -> string) (float_repr : Z -> Z -> string) (iso_text : moment -> string) (shown : json -> string).
Context (issuer own_scope : string).

Abbreviation project := (to_scim sha256_hex float_repr iso_text issuer).
Abbreviation version_of r today := (etag sha256_hex float_repr iso_text (body issuer r today)).

Definition loaded (t : tables) (p : string) (today : Z) : result Bulk.raised (list (string * json) * string) :=
  match _load t p with
  | Some r => Ok (project r today, version_of r today)
  | None => Err Bulk.AssertionError
  end.

(** [_transitioned]: nothing is told when nothing changed. *)
Definition _transitioned (p : string) (before after : gset string) : option transition :=
  if bool_decide (before = after) then None else Some {| tr_person := p; tr_before := before; tr_after := after |}.

Definition new_person (fresh : Fresh) (parsed : ParsedUser) (now : moment) : Person :=
  {| person_uuid := fresh_uuid fresh; edu_person_unique_id := new_unique_id (fresh_hex fresh) own_scope;
     display_name := pu_display_name parsed; given_name := pu_given_name parsed; surname := pu_surname parsed;
     preferred_language := pu_preferred_language parsed; ferpa_directory_suppressed := pu_ferpa parsed;
     status := pu_status parsed; provisioning_source := "sis"; created_at := now; updated_at := now |}.

Definition sent_affiliations (parsed : ParsedUser) : gset string := list_to_set (pa_value <$> pu_affiliations parsed).

Definition insert_source (row : ScimSourceRecord) (t : tables) : result Bulk.raised tables :=
  raise* integrity when existsb (fun other => String.eqb (sr_person row) (sr_person other) ||
    match sr_external_id row, sr_external_id other with Some a, Some b => String.eqb a b | _, _ => false end) (sources t);
  Ok (with_sources (sources t ++ [row]) t).

Definition create_new (fresh : Fresh) (parsed : ParsedUser) (raw : json) (now : moment) (today : Z) (t : tables) :
    result Bulk.raised (tables * list (string * json)) :=
  let* _ := _assert_username_free (registry t) (user_name parsed) None in
  let person := new_person fresh parsed now in
  let p := person_uuid person in
  let* s1 := of_db (insert_person person (registry t)) in
  let* _ := check_vocabulary (pu_affiliations parsed) in
  let* s2 := each add_identifier (_write_identifiers p parsed now) s1 in
  let* s3 := each add_affiliation_row (affiliation_row p <$> pu_affiliations parsed) s2 in
  let t1 := with_registry s3 t in
  let* '(resource, version) := loaded t1 p today in
  let* t2 := insert_source {| sr_person := p; sr_external_id := external_id parsed; sr_raw_resource := raw;
                              sr_version := version; sr_last_sync_at := now |} t1 in
  Ok (t2, resource).

Definition create (fresh : Fresh) (parsed : ParsedUser) (raw : json) (now : moment) (today : Z) (t : tables) :
    tables * result Bulk.raised (list (string * json) * bool * option transition) :=
  let existing := match filled (external_id parsed) with
    | Some e => List.find (fun row => bool_decide (sr_external_id row = Some e)) (sources t)
    | None => None
    end in
  match existing with
  | Some source => transaction t (let* '(resource, _) := loaded t (sr_person source) today in Ok (t, (resource, false, None)))
  | None =>
      transaction t
        (let* '(t', resource) := create_new fresh parsed raw now today t in
         Ok (t', (resource, true, _transitioned (fresh_uuid fresh) ∅ (sent_affiliations parsed))))
  end.

Definition get (resource_id : string) (today : Z) (t : tables) : result Bulk.raised (list (string * json)) :=
  let* p := _as_uuid resource_id in
  match _load t p with Some r => Ok (project r today) | None => Err not_found end.

(** ** Listing *)

Record Page : Type := { resources : list (list (string * json)); total : Z; start_index : Z }.

Definition to_list_response (g : Page) : list (string * json) :=
  [("schemas", JArr [JStr LIST_RESPONSE]); ("totalResults", JInt (total g)); ("startIndex", JInt (start_index g));
   ("itemsPerPage", JInt (Z.of_nat (length (resources g)))); ("Resources", JArr (JObj <$> resources g))].

(** Missing values last: U+FFFF. *)
Definition LAST : string := String (ascii_of_nat 239) (String (ascii_of_nat 191) (String (ascii_of_nat 191) "")).
Definition _sort_key (sort_by : string) (resource : list (string * json)) : string :=
  match Json.get resource sort_by with
  | JNull => LAST
  | JStr s => Py.lower s
  | j => Py.lower (shown j)
  end.

Definition by_creation (a b : Person) : bool := (created_at a <=? created_at b)%Z.

Definition sorted_by (sort_by : option string) (descending : bool) (l : list (list (string * json))) : list (list (string * json)) :=
  match filled sort_by with
  | None => l
  | Some k =>
      let leb a b := String.leb (_sort_key k a) (_sort_key k b) in
      if descending then rev (Sort.sort leb (rev l)) else Sort.sort leb l
  end.

(** Everything a listing selects, before the window. *)
Definition selected (predicate : option ScimFilter.Node) (sort_by : option string) (descending : bool) (today : Z) (t : tables) :
    result Bulk.raised (list (list (string * json))) :=
  let people := take (S MAX_SCANNED) (Sort.sort by_creation (persons (registry t))) in
  raise* Bulk.Scim (Bulk.Refused 400 "tooMany") when (MAX_SCANNED <? length people)%nat;
  let all := (fun r => project r today) <$> _load_many t people in
  let matching := match predicate with Some node => List.filter (fun r => ScimFilter.matches node r) all | None => all end in
  Ok (sorted_by sort_by descending matching).

Definition search (predicate : option ScimFilter.Node) (start count : Z) (sort_by : option string) (descending : bool)
    (today : Z) (t : tables) : result Bulk.raised Page :=
  let start := if (start <? 1)%Z then 1%Z else start in
  let count := Z.max 0 (Z.min count MAX_RESULTS) in
  let* all := selected predicate sort_by descending today t in
  Ok {| resources := take (Z.to_nat count) (drop (Z.to_nat (start - 1)) all); total := Z.of_nat (length all); start_index := start |}.

(** ** Replacing and deleting *)

Definition set_source (p : string) (raw : json) (version : string) (now : moment) (row : ScimSourceRecord) : ScimSourceRecord :=
  {| sr_person := sr_person row; sr_external_id := sr_external_id row; sr_raw_resource := raw; sr_version := version; sr_last_sync_at := now |}.

Definition _finish (t : tables) (p : string) (source : option ScimSourceRecord) (raw : json) (now : moment) (today : Z) :
    result Bulk.raised (tables * list (string * json)) :=
  let* '(resource, version) := loaded t p today in
  match source with
  | None =>
      let* t' := insert_source {| sr_person := p; sr_external_id := None; sr_raw_resource := raw; sr_version := version; sr_last_sync_at := now |} t in
      Ok (t', resource)
  | Some _ =>
      Ok (with_sources (update_first (fun row => String.eqb (sr_person row) p) (set_source p raw version now) (sources t)) t, resource)
  end.

Definition replace_rows (p : string) (parsed : ParsedUser) (raw : json) (if_match : option string) (now : moment) (today : Z) (t : tables) :
    result Bulk.raised (tables * (list (string * json) * option transition)) :=
  match find_person (registry t) p with
  | None => Err not_found
  | Some _ =>
      let source := _source t p in
      let* _ := _assert_version source if_match in
      let* _ := _assert_username_free (registry t) (user_name parsed) (Some p) in
      let before := open_affiliations (registry t) p in
      let s1 := with_persons (update_first (fun row => String.eqb (person_uuid row) p) (overwrite parsed now)) (registry t) in
      let* s2 := _replace_identifiers s1 p parsed now in
      let* s3 := _replace_affiliations s2 p parsed today in
      let* '(t', resource) := _finish (with_registry s3 t) p source raw now today in
      let after := if String.eqb (pu_status parsed) STATUS_ACTIVE then sent_affiliations parsed else ∅ in
      Ok (t', (resource, _transitioned p before after))
  end.

Definition replace (resource_id : string) (parsed : ParsedUser) (raw : json) (if_match : option string) (now : moment) (today : Z)
    (t : tables) : tables * result Bulk.raised (list (string * json) * option transition) :=
  transaction t (let* p := _as_uuid resource_id in replace_rows p parsed raw if_match now today t).

Definition apply_patched := replace.

Definition release_live (p : string) (now : moment) (row : Identifier) : Identifier :=
  if String.eqb (id_person row) p && live row then release_row now row else row.
Definition close_open (p : string) (today : Z) (row : Affiliation) : Affiliation :=
  if String.eqb (af_person row) p then match valid_until row with None => close_row today row | Some _ => row end else row.

Definition delete_rows (p : string) (if_match : option string) (now : moment) (today : Z) (t : tables) :
    result Bulk.raised (tables * transition) :=
  match find_person (registry t) p with
  | None => Err not_found
  | Some person =>
      raise* not_found when String.eqb (status person) STATUS_DEACTIVATED;
      let* _ := _assert_version (_source t p) if_match in
      let s := registry t in
      let s' := {| persons := update_first (fun row => String.eqb (person_uuid row) p) (set_row_status STATUS_DEACTIVATED now) (persons s);
                   identifiers := release_live p now <$> identifiers s; accounts := accounts s;
                   affiliations := close_open p today <$> affiliations s |} in
      Ok (with_registry s' t, {| tr_person := p; tr_before := open_affiliations s p; tr_after := ∅ |})
  end.

Definition soft_delete (resource_id : string) (if_match : option string) (now : moment) (today : Z) (t : tables) :
    tables * result Bulk.raised transition :=
  transaction t (let* p := _as_uuid resource_id in delete_rows p if_match now today t).

End store.

(** ** Names *)

(** A principal name that carries its scope is filed under it. *)
Definition well_scoped (s : Registry.db) : Prop :=
  forall row, row ∈ identifiers s -> id_type row = ID_EPPN -> id_scope row = _scope_of (id_value row).

(** Later tables keep every name, and no scoped principal name gains a holder. *)
Definition keeps_scoped (s s' : Registry.db) : Prop :=
  (forall t v p, issued s t v p -> issued s' t v p) /\
  (well_scoped s -> well_scoped s' /\
     forall v p p', _scope_of v <> None -> issued s' ID_EPPN v p -> issued s' ID_EPPN v p' ->
       p = p' \/ issued s ID_EPPN v p /\ issued s ID_EPPN v p').

Lemma scoped_refl s s' : identifiers s' = identifiers s -> keeps_scoped s s'.
Proof. intros E. unfold keeps_scoped, issued, well_scoped. rewrite E. split; [done|]. intros Hw. split; [done|]. intros v p p' _ H1 H2. by right. Qed.

Lemma scoped_trans s1 s2 s3 : keeps_scoped s1 s2 -> keeps_scoped s2 s3 -> keeps_scoped s1 s3.
Proof.
  intros [H1 K1] [H2 K2]. split; [by intros; apply H2, H1|]. intros Hw. destruct (K1 Hw) as [Hw2 U1]. destruct (K2 Hw2) as [Hw3 U2].
  split; [done|]. intros v p p' Hv Hp Hp'. destruct (U2 v p p' Hv Hp Hp') as [->|[Hq Hq']]; [by left|]. by apply U1.
Qed.

Lemma insert_scoped row s s' :
  insert_identifier row s = Ok s' -> (id_type row = ID_EPPN -> id_scope row = _scope_of (id_value row)) -> keeps_scoped s s'.
Proof.
  unfold insert_identifier. destruct (negb _ || existsb _ _) eqn:E; [done|]. apply orb_false_iff in E as [_ E]. intros [= <-] Hs. split.
  - intros t v p (r & Hr & H). exists r. split; [cbn; apply elem_of_app; by left|done].
  - intros Hw. split.
    { intros r [Hr|Hr%list_elem_of_singleton]%elem_of_app Ht; [by apply Hw|subst r; by apply Hs]. }
    assert (forall r v, r ∈ identifiers s -> id_type r = ID_EPPN -> id_value r = v -> id_type row = ID_EPPN -> id_value row = v ->
      _scope_of v <> None -> False) as Hno.
    { intros r v Hr Ht Hv Ht' Hv' Hsc. assert (existsb (same_identifier row) (identifiers s) = true) as E'; [|congruence].
      apply existsb_elem. exists r. split; [done|]. unfold same_identifier. rewrite (Hw r Hr Ht), (Hs Ht'), Hv, Hv'.
      destruct (_scope_of v); [|done]. rewrite String.eqb_refl, andb_true_r. apply typed_spec. split; congruence. }
    intros v p p' Hv (r & Hr & Ht & Hrv & Hp) (r' & Hr' & Ht' & Hrv' & Hp').
    apply elem_of_app in Hr as [Hr|Hr%list_elem_of_singleton], Hr' as [Hr'|Hr'%list_elem_of_singleton].
    + right. split; [by exists r|by exists r'].
    + subst r'. exfalso. eapply (Hno r v); eauto.
    + subst r. exfalso. eapply (Hno r' v); eauto.
    + left. congruence.
Qed.

(** The loops insert rows one after another. *)
Lemma each_keeps {A} (f : A -> Registry.db -> result Bulk.raised Registry.db) l s s' (P : A -> Prop) :
  (forall x s s', P x -> f x s = Ok s' -> keeps_scoped s s') -> Forall P l -> each f l s = Ok s' -> keeps_scoped s s'.
Proof.
  intros Hf Hl. revert s. induction Hl as [|x l Hx Hl IH]; intros s; cbn [each]; [intros [= <-]; by apply scoped_refl|].
  intros (s1 & H1 & H2)%rbind_ok. eapply scoped_trans; [by eapply Hf|by apply IH].
Qed.

Definition files_scope (row : Identifier) : Prop := id_type row = ID_EPPN -> id_scope row = _scope_of (id_value row).

Lemma add_identifier_keeps row s s' : files_scope row -> add_identifier row s = Ok s' -> keeps_scoped s s'.
Proof.
  unfold add_identifier, of_db. destruct (insert_identifier row s) as [s1|[]] eqn:E; [|done..]. intros Hr [= <-]. by eapply insert_scoped.
Qed.
Lemma add_affiliation_keeps row s s' : True -> add_affiliation_row row s = Ok s' -> keeps_scoped s s'.
Proof.
  unfold add_affiliation_row, of_db, insert_affiliation. destruct (negb _); [done|]. intros _ [= <-]. by apply scoped_refl.
Qed.

(** The same rows up to their dates and flags. *)
Definition same_name (r r' : Identifier) : Prop :=
  id_person r = id_person r' /\ id_type r = id_type r' /\ id_value r = id_value r' /\ id_scope r = id_scope r'.

Lemma same_rows_keep s s' : Forall2 same_name (identifiers s) (identifiers s') -> keeps_scoped s s'.
Proof.
  intros HF. assert (forall r, r ∈ identifiers s -> exists r', r' ∈ identifiers s' /\ same_name r r') as H1.
  { intros r [i Hi]%list_elem_of_lookup. destruct (Forall2_lookup_l _ _ _ _ _ HF Hi) as (r' & Hr'%list_elem_of_lookup_2 & ?). eauto. }
  assert (forall r', r' ∈ identifiers s' -> exists r, r ∈ identifiers s /\ same_name r r') as H2.
  { intros r' [i Hi]%list_elem_of_lookup. destruct (Forall2_lookup_r _ _ _ _ _ HF Hi) as (r & Hr%list_elem_of_lookup_2 & ?). eauto. }
  assert (forall t v p, issued s' t v p -> issued s t v p) as Hback.
  { intros t v p (r' & Hr' & Ht & Hv & Hp). destruct (H2 r' Hr') as (r & Hr & E1 & E2 & E3 & _). exists r. split_and!; congruence. }
  split.
  - intros t v p (r & Hr & Ht & Hv & Hp). destruct (H1 r Hr) as (r' & Hr' & E1 & E2 & E3 & _). exists r'. split_and!; congruence.
  - intros Hw. split; [|intros v p p' _ H H'; right; split; by apply Hback].
    intros r' Hr' Ht. destruct (H2 r' Hr') as (r & Hr & E1 & E2 & E3 & E4). rewrite <-E4, <-E3. apply Hw; [done|congruence].
Qed.

Lemma reconcile_same p now wanted rows : Forall2 same_name rows (reconcile p now wanted rows).1.
Proof.
  revert wanted. induction rows as [|row rows IH]; intros wanted; cbn [reconcile]; [constructor|].
  destruct (String.eqb (id_person row) p && live row).
  - destruct (find_key wanted (id_type row, id_value row)) as [primary|].
    + specialize (IH (drop_key wanted (id_type row, id_value row))). destruct (reconcile p now _ rows). by constructor.
    + specialize (IH wanted). destruct (reconcile p now wanted rows). constructor; [by destruct (provisioned _)|done].
  - specialize (IH wanted). destruct (reconcile p now wanted rows). by constructor.
Qed.

Lemma replace_identifiers_keeps s p parsed now s' : _replace_identifiers s p parsed now = Ok s' -> keeps_scoped s s'.
Proof.
  unfold _replace_identifiers. pose proof (reconcile_same p now (wanted_identifiers parsed) (identifiers s)) as Hr.
  destruct (reconcile _ _ _ _) as [rows remaining]. cbn in Hr. intros H. eapply (scoped_trans _ (with_identifiers (fun _ => rows) s)); [apply same_rows_keep; exact Hr|].
  eapply each_keeps; [exact add_identifier_keeps| |exact H]. apply Forall_fmap, Forall_true. intros [[t v] b] Ht. cbn in Ht |- *.
  by destruct (String.eqb_spec t ID_EPPN).
Qed.
Lemma replace_affiliations_keeps s p parsed today s' : _replace_affiliations s p parsed today = Ok s' -> keeps_scoped s s'.
Proof.
  unfold _replace_affiliations. destruct (reconcile_affiliations _ _ _ _) as [rows remaining]. intros (? & _ & H)%rbind_ok.
  eapply (scoped_trans _ (with_affiliations (fun _ => rows) s)); [by apply scoped_refl|].
  eapply each_keeps; [exact add_affiliation_keeps|by apply Forall_true|exact H].
Qed.

(** ** Histories *)

Section history.
Context (sha256_hex : string -> string) (float_repr : Z -> Z -> string) (iso_text : moment -> string).
Context (issuer own_scope : string).

Inductive scim_op : Type :=
| Create (fresh : Fresh) (parsed : ParsedUser) (raw : json) (now : moment) (today : Z)
| Replace (id : string) (parsed : ParsedUser) (raw : json) (if_match : option string) (now : moment) (today : Z)
| Delete (id : string) (if_match : option string) (now : moment) (today : Z).

Definition run_scim (t : tables) (op : scim_op) : tables :=
  match op with
  | Create fresh parsed raw now today => (create sha256_hex float_repr iso_text issuer own_scope fresh parsed raw now today t).1
  | Replace id parsed raw if_match now today => (replace sha256_hex float_repr iso_text issuer id parsed raw if_match now today t).1
  | Delete id if_match now today => (soft_delete id if_match now today t).1
  end.

Lemma transaction_keeps {A} t (r : result Bulk.raised (tables * A)) :
  (forall t' a, r = Ok (t', a) -> keeps_scoped (registry t) (registry t')) -> keeps_scoped (registry t) (registry (transaction t r).1).
Proof. destruct r as [[t' a]|e]; cbn; intros H; [by eapply H|by apply scoped_refl]. Qed.

Lemma person_keeps row s s' : of_db (insert_person row s) = Ok s' -> keeps_scoped s s'.
Proof. unfold insert_person, of_db. destruct (existsb _ _); [done|]. intros [= <-]. by apply scoped_refl. Qed.

Lemma written_rows_scoped p parsed now : Forall files_scope (_write_identifiers p parsed now).
Proof.
  unfold _write_identifiers. constructor; [done|]. apply Forall_app. split.
  - apply Forall_fmap, Forall_true. done.
  - destruct (filled (employee_number parsed)); repeat constructor. done.
Qed.

Lemma insert_source_registry row t t' : insert_source row t = Ok t' -> registry t' = registry t.
Proof. unfold insert_source. destruct (existsb _ _); [done|]. by intros [= <-]. Qed.

Lemma scim_create_keeps fresh parsed raw now today t t' r :
  create_new sha256_hex float_repr iso_text issuer own_scope fresh parsed raw now today t = Ok (t', r) ->
  keeps_scoped (registry t) (registry t').
Proof.
  unfold create_new. intros (? & _ & (s1 & H1 & (? & _ & (s2 & H2 & (s3 & H3 & H)%rbind_ok)%rbind_ok)%rbind_ok)%rbind_ok)%rbind_ok.
  apply rbind_ok in H as ([res v] & _ & (t2 & H4 & [= <- _])%rbind_ok). rewrite (insert_source_registry _ _ _ H4). cbn.
  eapply scoped_trans; [by eapply person_keeps|]. eapply scoped_trans.
  - eapply each_keeps; [exact add_identifier_keeps|apply written_rows_scoped|exact H2].
  - eapply each_keeps; [exact add_affiliation_keeps|by apply Forall_true|exact H3].
Qed.

Lemma finish_registry t p source raw now today t' r :
  _finish sha256_hex float_repr iso_text issuer t p source raw now today = Ok (t', r) -> registry t' = registry t.
Proof.
  unfold _finish. intros ([res v] & _ & H)%rbind_ok. destruct source; [by injection H as <- _|].
  apply rbind_ok in H as (t1 & H & [= <- _]). by eapply insert_source_registry.
Qed.

Lemma replace_keeps p parsed raw if_match now today t t' r :
  replace_rows sha256_hex float_repr iso_text issuer p parsed raw if_match now today t = Ok (t', r) ->
  keeps_scoped (registry t) (registry t').
Proof.
  unfold replace_rows. destruct (find_person _ _); [|done].
  intros (? & _ & (? & _ & (s2 & H2 & (s3 & H3 & H)%rbind_ok)%rbind_ok)%rbind_ok)%rbind_ok.
  apply rbind_ok in H as ([t1 res] & Hf & [= <- _]). rewrite (finish_registry _ _ _ _ _ _ _ _ Hf). cbn.
  eapply scoped_trans; [|eapply scoped_trans; [by eapply replace_identifiers_keeps|by eapply replace_affiliations_keeps]].
  by apply scoped_refl.
Qed.

Lemma delete_keeps p if_match now today t t' r :
  delete_rows p if_match now today t = Ok (t', r) -> keeps_scoped (registry t) (registry t').
Proof.
  unfold delete_rows. destruct (find_person _ _) as [person|]; [|done]. destruct (String.eqb _ _); [done|].
  intros (? & _ & [= <- _])%rbind_ok. apply same_rows_keep. cbn. apply Forall2_fmap_r, Forall_Forall2_diag, Forall_true.
  intros row. unfold compose, release_live, same_name.
  destruct (String.eqb (id_person row) p && live row); repeat split.
Qed.

Lemma run_scim_keeps t op : keeps_scoped (registry t) (registry (run_scim t op)).
Proof.
  destruct op as [fresh parsed raw now today|id parsed raw if_match now today|id if_match now today]; cbn [run_scim].
  - unfold create. destruct (match filled _ with Some _ => _ | None => _ end); apply transaction_keeps.
    + intros t' a ([res v] & _ & [= <- _])%rbind_ok. by apply scoped_refl.
    + intros t' a ([t1 res] & H & [= <- _])%rbind_ok. by eapply scim_create_keeps.
  - apply transaction_keeps. intros t' a (p & _ & H)%rbind_ok. destruct a. by eapply replace_keeps.
  - apply transaction_keeps. intros t' a (p & _ & H)%rbind_ok. by eapply delete_keeps.
Qed.

Lemma scim_history_keeps ops t : keeps_scoped (registry t) (registry (fold_left run_scim ops t)).
Proof.
  revert t. induction ops as [|op ops IH]; intros t; cbn [fold_left]; [by apply scoped_refl|].
  eapply scoped_trans; [apply run_scim_keeps|apply IH].
Qed.

(** The same people and groups, and perhaps more people. *)
Definition grows (t t' : tables) : Prop :=
  groups t' = groups t /\ members t' = members t /\
  forall p, exists_person (registry t) p = true -> exists_person (registry t') p = true.

Lemma exists_person_spec s p : exists_person s p = true <-> p ∈ person_uuid <$> persons s.
Proof.
  unfold exists_person, find_person. destruct (List.find _ (persons s)) as [row|] eqn:E.
  - apply List.find_some in E as [H1%list_elem_of_In H2%String.eqb_eq]. split; [|done]. intros _. rewrite <-H2. by apply list_elem_of_fmap_2.
  - split; [done|]. intros (row & -> & Hr)%list_elem_of_fmap. apply list_elem_of_In in Hr.
    pose proof (List.find_none _ _ E row Hr) as Hn. cbn beta in Hn. by rewrite String.eqb_refl in Hn.
Qed.

Lemma update_first_uuids (test : Person -> bool) f l : (forall x, person_uuid (f x) = person_uuid x) ->
  person_uuid <$> update_first test f l = person_uuid <$> l.
Proof. intros Hf. induction l as [|x l IH]; [done|]. cbn. destruct (test x); cbn; [by rewrite Hf|]. by rewrite IH. Qed.

Lemma grows_refl t : grows t t.
Proof. done. Qed.

Lemma each_persons {A} (f : A -> Registry.db -> result Bulk.raised Registry.db) l s s' :
  (forall x s s', f x s = Ok s' -> persons s' = persons s) -> each f l s = Ok s' -> persons s' = persons s.
Proof.
  intros Hf. revert s. induction l as [|x l IH]; intros s; cbn [each]; [by intros [= <-]|].
  intros (s1 & H1 & H2)%rbind_ok. rewrite (IH _ H2). by eapply Hf.
Qed.
Lemma add_identifier_persons row s s' : add_identifier row s = Ok s' -> persons s' = persons s.
Proof. unfold add_identifier, of_db, insert_identifier. destruct (negb _ || existsb _ _); [done|]. by intros [= <-]. Qed.
Lemma add_affiliation_persons row s s' : add_affiliation_row row s = Ok s' -> persons s' = persons s.
Proof. unfold add_affiliation_row, of_db, insert_affiliation. destruct (negb _); [done|]. by intros [= <-]. Qed.

Lemma insert_source_rest row t t' : insert_source row t = Ok t' -> groups t' = groups t /\ members t' = members t.
Proof. unfold insert_source. destruct (existsb _ _); [done|]. by intros [= <-]. Qed.

Lemma transaction_grows {A} t (r : result Bulk.raised (tables * A)) :
  (forall t' a, r = Ok (t', a) -> grows t t') -> grows t (transaction t r).1.
Proof. destruct r as [[t' a]|e]; cbn; intros H; [by eapply H|apply grows_refl]. Qed.

Lemma create_grows fresh parsed raw now today t t' r :
  create_new sha256_hex float_repr iso_text issuer own_scope fresh parsed raw now today t = Ok (t', r) -> grows t t'.
Proof.
  unfold create_new. intros (? & _ & (s1 & H1 & (? & _ & (s2 & H2 & (s3 & H3 & H)%rbind_ok)%rbind_ok)%rbind_ok)%rbind_ok)%rbind_ok.
  apply rbind_ok in H as ([res v] & _ & (t2 & H4 & [= <- _])%rbind_ok).
  unfold grows. destruct (insert_source_rest _ _ _ H4) as [-> ->]. split_and!; [done..|]. intros p. rewrite !exists_person_spec, (insert_source_registry _ _ _ H4).
  cbn [registry with_registry]. rewrite (each_persons _ _ _ _ add_affiliation_persons H3), (each_persons _ _ _ _ add_identifier_persons H2).
  unfold of_db, insert_person in H1. destruct (existsb _ _); [done|]. injection H1 as <-. cbn. rewrite fmap_app. set_solver.
Qed.

Lemma replace_grows p parsed raw if_match now today t t' r :
  replace_rows sha256_hex float_repr iso_text issuer p parsed raw if_match now today t = Ok (t', r) -> grows t t'.
Proof.
  unfold replace_rows. destruct (find_person _ _); [|done].
  intros (? & _ & (? & _ & (s2 & H2 & (s3 & H3 & H)%rbind_ok)%rbind_ok)%rbind_ok)%rbind_ok.
  apply rbind_ok in H as ([t1 res] & Hf & [= <- _]). pose proof (finish_registry _ _ _ _ _ _ _ _ Hf) as Er.
  unfold grows. assert (groups t1 = groups t /\ members t1 = members t) as [-> ->].
  { unfold _finish in Hf. apply rbind_ok in Hf as ([res' v] & _ & Hf). destruct (_source t p); [by injection Hf as <- _|].
    apply rbind_ok in Hf as (t2 & Hf & [= <- _]). by apply insert_source_rest in Hf. }
  split_and!; [done..|]. intros q. rewrite !exists_person_spec, Er. cbn [registry with_registry].
  unfold _replace_affiliations in H3. destruct (reconcile_affiliations _ _ _ _) as [arows aleft]. apply rbind_ok in H3 as (? & _ & H3).
  rewrite (each_persons _ _ _ _ add_affiliation_persons H3). unfold _replace_identifiers in H2. destruct (reconcile _ _ _ _) as [irows ileft].
  cbn. rewrite (each_persons _ _ _ _ add_identifier_persons H2). cbn. rewrite update_first_uuids; [done|].
  intros row. unfold overwrite. by destruct (bool_decide _).
Qed.

Lemma run_scim_grows t op : grows t (run_scim t op).
Proof.
  destruct op as [fresh parsed raw now today|id parsed raw if_match now today|id if_match now today]; cbn [run_scim].
  - unfold create. destruct (match filled _ with Some _ => _ | None => _ end); apply transaction_grows.
    + intros t' a ([res v] & _ & [= <- _])%rbind_ok. apply grows_refl.
    + intros t' a ([t1 res] & H & [= <- _])%rbind_ok. by eapply create_grows.
  - apply transaction_grows. intros t' a (p & _ & H)%rbind_ok. destruct a. by eapply replace_grows.
  - apply transaction_grows. intros t' a (p & _ & H)%rbind_ok. revert H. unfold delete_rows.
    destruct (find_person _ _); [|done]. destruct (String.eqb _ _); [done|]. intros (? & _ & [= <- _])%rbind_ok.
    split_and!; [done..|]. intros q. rewrite !exists_person_spec. cbn. by rewrite update_first_uuids.
Qed.

(** Provisioning never reissues a scoped name.  In every history of
    creations, replacements (and patches) and deletions through the SCIM
    store, a principal name of the form [local@scope] that was once issued stays on
    record for its holder, released or not, and nobody else ever gets it. *)
Theorem scim_never_reissues ops t v p :
  well_scoped (registry t) ->
  (forall q q', issued (registry t) ID_EPPN v q -> issued (registry t) ID_EPPN v q' -> q = q') ->
  _scope_of v <> None -> issued (registry t) ID_EPPN v p ->
  let t' := fold_left run_scim ops t in
  issued (registry t') ID_EPPN v p /\ forall q, issued (registry t') ID_EPPN v q -> q = p.
Proof.
  intros Hw Hu Hv Hp t'. destruct (scim_history_keeps ops t) as [K1 K2]. destruct (K2 Hw) as [_ K].
  split; [by apply K1|]. intros q Hq. destruct (K v q p Hv Hq (K1 _ _ _ Hp)) as [->|[H1 H2]]; [done|]. by apply Hu.
Qed.

End history.

(** ** Leaving *)

Lemma find_update_first (test : Person -> bool) f l row :
  (forall x, test x = true -> test (f x) = true) -> List.find test l = Some row -> List.find test (update_first test f l) = Some (f row).
Proof.
  intros Hf. induction l as [|x l IH]; cbn; [done|]. destruct (test x) eqn:E; [|cbn; by rewrite E].
  intros [= ->]. cbn. by rewrite Hf.
Qed.

Lemma filter_map_other {A} (own : A -> bool) (f : A -> A) l :
  (forall x, own (f x) = own x) -> (forall x, own x = false -> f x = x) ->
  List.filter (fun x => negb (own x)) (f <$> l) = List.filter (fun x => negb (own x)) l.
Proof.
  intros H1 H2. induction l as [|x l IH]; [done|]. cbn. rewrite H1, IH. destruct (own x) eqn:E; [done|]. cbn. by rewrite H2.
Qed.

Lemma release_live_person p now row : id_person (release_live p now row) = id_person row.
Proof. unfold release_live. by destruct (String.eqb (id_person row) p && live row). Qed.
Lemma close_open_person p today row : af_person (close_open p today row) = af_person row.
Proof. unfold close_open. destruct (String.eqb (af_person row) p); [|done]. by destruct (valid_until row). Qed.

(** The deletion, once it goes through. *)
Lemma delete_ok p if_match now today t t' tr :
  delete_rows p if_match now today t = Ok (t', tr) ->
  (exists person, find_person (registry t') p = Some person /\ status person = STATUS_DEACTIVATED) /\
  identifiers (registry t') = release_live p now <$> identifiers (registry t) /\
  affiliations (registry t') = close_open p today <$> affiliations (registry t) /\
  sources t' = sources t /\ groups t' = groups t /\ members t' = members t /\
  tr = {| tr_person := p; tr_before := open_affiliations (registry t) p; tr_after := ∅ |}.
Proof.
  unfold delete_rows. destruct (find_person _ _) as [person|] eqn:Hp; [|done]. destruct (String.eqb _ _); [done|].
  intros (? & _ & [= <- <-])%rbind_ok. split; [|done].
  exists (set_row_status STATUS_DEACTIVATED now person). split; [|done]. unfold find_person in Hp |- *. cbn.
  apply find_update_first; done.
Qed.

(** A deleted user is out.  A deletion that goes through leaves the person
    on record as deactivated, with every identifier released and every
    affiliation ended; nobody else's rows change; the lifecycle hook is told that
    the person went from what was open to nothing, and a second deletion finds
    no user. *)
Theorem deleted_user_is_out resource_id if_match now today t t' tr :
  soft_delete resource_id if_match now today t = (t', Ok tr) ->
  exists p, Uuid.parse resource_id = Some p /\
    tr = {| tr_person := p; tr_before := open_affiliations (registry t) p; tr_after := ∅ |} /\
    (exists person, find_person (registry t') p = Some person /\ status person = STATUS_DEACTIVATED) /\
    (forall row, row ∈ identifiers (registry t') -> id_person row = p -> released_at row <> None) /\
    (forall row, row ∈ affiliations (registry t') -> af_person row = p -> valid_until row <> None) /\
    (let others_i := List.filter (fun row => negb (String.eqb (id_person row) p)) in
     let others_a := List.filter (fun row => negb (String.eqb (af_person row) p)) in
     others_i (identifiers (registry t')) = others_i (identifiers (registry t)) /\
     others_a (affiliations (registry t')) = others_a (affiliations (registry t))) /\
    forall m now' today', soft_delete resource_id m now' today' t' = (t', Err not_found).
Proof.
  unfold soft_delete, transaction, _as_uuid. destruct (Uuid.parse resource_id) as [p|]; cbn [rbind]; [|by intros [=]].
  destruct (delete_rows p if_match now today t) as [[t1 a]|e] eqn:E; intros [= -> ->].
  destruct (delete_ok _ _ _ _ _ _ _ E) as ((person & Hp & Hs) & Hi & Ha & _ & _ & _ & ->).
  exists p. split_and!; [done|done|by exists person| | | | |].
  - rewrite Hi. intros row (r & -> & _)%list_elem_of_fmap. rewrite release_live_person. intros <-. unfold release_live.
    rewrite String.eqb_refl. cbn. unfold live. by destruct (released_at r) eqn:Er; cbn; rewrite ?Er.
  - rewrite Ha. intros row (r & -> & _)%list_elem_of_fmap. rewrite close_open_person. intros <-. unfold close_open.
    rewrite String.eqb_refl. by destruct (valid_until r) eqn:Er; rewrite ?Er.
  - rewrite Hi. apply filter_map_other; intros row; [by rewrite release_live_person|unfold release_live; by intros ->].
  - rewrite Ha. apply filter_map_other; intros x; [by rewrite close_open_person|unfold close_open; by intros ->].
  - intros m now' today'. unfold delete_rows. by rewrite Hp, Hs.
Qed.

(** ** Paging *)

Lemma windows_concat {A} (l : list A) c n : concat ((fun i => take c (drop (i * c) l)) <$> seq 0 n) = take (n * c) l.
Proof.
  induction n as [|n IH]; [done|]. rewrite seq_S, fmap_app, concat_app, IH. cbn. rewrite app_nil_r.
  replace (c + n * c)%nat with (n * c + c)%nat by lia. by rewrite take_take_drop.
Qed.

Section listing.
Context (sha256_hex : string -> string) (float_repr : Z -> Z -> string) (iso_text : moment -> string) (shown : json -> string).
Context (issuer : string).

(** Pages partition the listing.  Asking for pages of [c] resources at the
    start indices 1, 1 + c, 1 + 2c, ... gives, one after another, every selected
    resource once and in order; each page says how many there are in all. *)
Theorem pages_partition predicate sort_by descending today t all (c n : nat) :
  selected sha256_hex float_repr iso_text shown issuer predicate sort_by descending today t = Ok all ->
  (1 <= c <= Z.to_nat MAX_RESULTS)%nat -> (length all <= n * c)%nat ->
  exists pages,
    Forall2 (fun i page => search sha256_hex float_repr iso_text shown issuer predicate (1 + Z.of_nat (i * c)) (Z.of_nat c)
                             sort_by descending today t = Ok page /\
                           total page = Z.of_nat (length all) /\ start_index page = (1 + Z.of_nat (i * c))%Z)
      (seq 0 n) pages /\
    concat (resources <$> pages) = all.
Proof.
  intros Hs Hc Hn. exists ((fun i => {| resources := take c (drop (i * c) all); total := Z.of_nat (length all);
    start_index := (1 + Z.of_nat (i * c))%Z |}) <$> seq 0 n). split.
  - apply Forall2_fmap_r, Forall_Forall2_diag, Forall_true. intros i. unfold compose. split; [|done]. unfold search. generalize (i * c)%nat. intros k.
    rewrite (proj2 (Z.ltb_ge (1 + Z.of_nat k) 1)) by (pose proof (Nat2Z.is_nonneg k); lia). unfold MAX_RESULTS in *.
    replace (Z.max 0 (Z.min (Z.of_nat c) 200)) with (Z.of_nat c) by lia. rewrite Hs. cbn [rbind].
    replace (1 + Z.of_nat k - 1)%Z with (Z.of_nat k) by lia. by rewrite !Nat2Z.id.
  - rewrite <-list_fmap_compose. etransitivity; [apply (windows_concat all c n)|]. by apply take_ge.
Qed.

End listing.

(** ** Reading one and reading many *)

Lemma ascii_trans x y z : Ascii.compare x y <> Gt -> Ascii.compare y z <> Gt -> Ascii.compare x z <> Gt.
Proof. unfold Ascii.compare. rewrite !N.compare_le_iff. lia. Qed.

Lemma compare_cons x y s t :
  String.compare (String x s) (String y t) = match Ascii.compare x y with Eq => String.compare s t | c => c end.
Proof. done. Qed.

Lemma compare_le_trans s t u : String.compare s t <> Gt -> String.compare t u <> Gt -> String.compare s u <> Gt.
Proof.
  revert t u. induction s as [|x s IH]; intros [|y t] [|z u]; cbn [String.compare]; try done. unfold Ascii.compare.
  destruct (N.compare_spec (N_of_ascii x) (N_of_ascii y)) as [E|E|E], (N.compare_spec (N_of_ascii y) (N_of_ascii z)) as [F|F|F]; try done;
    destruct (N.compare_spec (N_of_ascii x) (N_of_ascii z)) as [G|G|G]; try done; try lia. by apply IH.
Qed.

Lemma leb_spec s t : String.leb s t = true <-> String.compare s t <> Gt.
Proof. unfold String.leb. by destruct (String.compare s t). Qed.

Lemma by_name_trans a b c : by_name a b = true -> by_name b c = true -> by_name a c = true.
Proof. unfold by_name. rewrite !leb_spec. apply compare_le_trans. Qed.
Lemma by_name_total a b : by_name a b = false -> by_name b a = true.
Proof. unfold by_name. intros E. destruct (String.leb_total a.2.2 b.2.2); congruence. Qed.

Lemma filter_refine {A} (f g : A -> bool) l : (forall x, g x = true -> f x = true) -> List.filter g (List.filter f l) = List.filter g l.
Proof.
  intros H. induction l as [|x l IH]; [done|]. cbn. destruct (f x) eqn:Ef; cbn; [by rewrite IH|].
  destruct (g x) eqn:Eg; [|done]. by rewrite (H x Eg) in Ef.
Qed.

Lemma find_as_filter {A} (f : A -> bool) l : List.find f l = head (List.filter f l).
Proof. induction l as [|x l IH]; [done|]. cbn. by destruct (f x). Qed.

Lemma one_of_a_kind {A B} (k : A -> B) (f : A -> bool) b (l : list A) :
  (forall x, f x = true -> k x = b) -> NoDup (k <$> l) -> (length (List.filter f l) <= 1)%nat.
Proof.
  intros Hk. induction l as [|x l IH]; [cbn; lia|]. rewrite fmap_cons, NoDup_cons. intros [Hx Hl]. cbn.
  destruct (f x) eqn:Ef; [|by apply IH]. destruct (List.filter f l) as [|y r] eqn:Er; [done|]. exfalso. apply Hx.
  assert (y ∈ List.filter f l) as [Hy Hf]%list_elem_of_In%List.filter_In by (rewrite Er; constructor).
  rewrite (Hk x Ef), <-(Hk y Hf). by apply list_elem_of_fmap_2, list_elem_of_In.
Qed.

Lemma find_rev_unique {A} (f : A -> bool) (l : list A) : (length (List.filter f l) <= 1)%nat -> List.find f (rev l) = List.find f l.
Proof.
  intros H. rewrite !find_as_filter, List.filter_rev. destruct (List.filter f l) as [|x [|y r]]; [done|done|]. cbn in H. lia.
Qed.

Lemma groups_of_page t keys p : existsb (String.eqb p) keys = true -> _groups t keys p = _groups t [p] p.
Proof.
  intros Hp. unfold _groups, memberships.
  rewrite !(Sort.filter_sort by_name by_name_total by_name_trans). do 2 f_equal. induction (members t) as [|m l IH]; [done|]. cbn.
  rewrite orb_false_r. destruct (String.eqb_spec (gm_person m) p) as [->|Hne].
  - rewrite Hp. cbn. destruct (List.find _ (groups t)); cbn; [|done]. by rewrite String.eqb_refl, IH.
  - destruct (existsb (String.eqb (gm_person m)) keys); [|exact IH]. cbn. destruct (List.find _ (groups t)); cbn; [|exact IH].
    destruct (String.eqb_spec (gm_person m) p); [done|exact IH].
Qed.

(** C23: Reading a page is reading each of its people.  The query that fetches
    the rows of a whole page and groups them gives for every person exactly the
    record the single read gives. *)
Theorem load_many_is_load t people :
  NoDup (sr_person <$> sources t) ->
  Forall (fun person => find_person (registry t) (person_uuid person) = Some person) people ->
  Some <$> _load_many t people = (fun person => _load t (person_uuid person)) <$> people.
Proof.
  intros Hs Hp. unfold _load_many. rewrite <-list_fmap_compose. apply list_fmap_ext. intros i person Hi. unfold compose, _load.
  rewrite Forall_lookup in Hp. rewrite (Hp i person Hi). cbn.
  assert (existsb (String.eqb (person_uuid person)) (person_uuid <$> people) = true) as Hk.
  { apply existsb_elem. exists (person_uuid person). split; [|by apply String.eqb_refl].
    by eapply list_elem_of_fmap_2, list_elem_of_lookup_2. }
  rewrite !filter_refine by (intros x Hx%String.eqb_eq; by rewrite Hx). rewrite groups_of_page by done.
  do 2 f_equal. unfold _source. rewrite find_rev_unique.
  - by rewrite !find_as_filter, filter_refine by (intros x Hx%String.eqb_eq; by rewrite Hx).
  - rewrite filter_refine by (intros x Hx%String.eqb_eq; by rewrite Hx).
    eapply (one_of_a_kind sr_person); [|exact Hs]. intros x Hx%String.eqb_eq. exact Hx.
Qed.

(** ** Versions handed out *)

Section versions.
Context (sha256_hex : string -> string) (float_repr : Z -> Z -> string) (iso_text : moment -> string).
Context (issuer : string).
(** [hexdigest] writes hexadecimal digits. *)
Context (hexdigest : forall s, Py.sforall Uuid.is_hex (sha256_hex s) = true).

Lemma take_all f n s : Py.sforall f s = true -> Py.sforall f (Py.take n s) = true.
Proof.
  revert s. induction n as [|n IH]; intros [|a s]; cbn; try done. intros [Ha Hs]%andb_true_iff. by rewrite Ha, IH.
Qed.

Lemma all_lacks f c s : f c = false -> Py.sforall f s = true -> Py.has_char c s = false.
Proof.
  intros Hc. unfold Py.has_char. rewrite negb_false_iff. induction s as [|a s IH]; [done|]. cbn. intros [Ha Hs]%andb_true_iff.
  destruct (Ascii.eqb_spec a c) as [->|]; [congruence|]. by apply IH.
Qed.

Lemma lookup_skip m m' k : k ∉ m.*1 -> Json.lookup (m ++ m') k = Json.lookup m' k.
Proof.
  induction m as [|[k' v'] m IH]; [done|]. csimpl. rewrite not_elem_of_cons. intros [Hk Hm].
  destruct (String.eqb_spec k k'); [done|]. by apply IH.
Qed.

Lemma body_lacks_meta r today : "meta" ∉ (body issuer r today).*1.
Proof.
  unfold body. rewrite !fmap_app, !not_elem_of_app. split_and!; [set_solver| | | | | | | |];
    unfold with_some, with_object, with_list; try (case_match; cbn); set_solver.
Qed.

(** An entity tag survives being sent back. *)
Lemma etag_is_candidate doc : let v := etag sha256_hex float_repr iso_text doc in _candidates v v = true.
Proof using hexdigest.
  cbn zeta. unfold etag. set (h := Py.take 32 _).
  assert (Py.sforall Uuid.is_hex h = true) as Hh by (by apply take_all).
  set (v := "W/" +:+ quote +:+ h +:+ quote).
  assert (Py.strip v = v) as Hv.
  { apply Py.strip_fix; [done|]. unfold v. rewrite !Py.srev_app_distr. reflexivity. }
  unfold _candidates. rewrite Hv. destruct (String.eqb_spec v "*") as [E|_]; [done|].
  rewrite Py.split_on_none; [cbn; rewrite Hv, String.eqb_refl; done|].
  unfold v. rewrite !Py.has_char_app. rewrite (all_lacks Uuid.is_hex "," h) by done. reflexivity.
Qed.

Lemma find_source p raw version now l :
  (exists row, List.find (fun row => String.eqb (sr_person row) p) l = Some row) ->
  exists row, List.find (fun row => String.eqb (sr_person row) p)
    (update_first (fun row => String.eqb (sr_person row) p) (set_source p raw version now) l) = Some row /\ sr_version row = version.
Proof.
  intros [row H]. induction l as [|x l IH]; cbn in *; [done|]. destruct (String.eqb (sr_person x) p) eqn:E; cbn; [|rewrite E; by apply IH].
  rewrite E. by eexists.
Qed.

Lemma find_snoc {A} (f : A -> bool) l x : List.find f l = None -> f x = true -> List.find f (l ++ [x]) = Some x.
Proof. intros Hl Hx. induction l as [|y l IH]; cbn in *; [by rewrite Hx|]. destruct (f y); [done|]. by apply IH. Qed.

Lemma finish_version t p raw now today t' resource :
  _finish sha256_hex float_repr iso_text issuer t p (_source t p) raw now today = Ok (t', resource) ->
  exists r row, _load t p = Some r /\ resource = to_scim sha256_hex float_repr iso_text issuer r today /\
    _source t' p = Some row /\ sr_version row = etag sha256_hex float_repr iso_text (body issuer r today).
Proof.
  unfold _finish, loaded. destruct (_load t p) as [r|]; [|done]. cbn [rbind]. destruct (_source t p) as [row|] eqn:Hs.
  - intros [= <- <-]. destruct (find_source p raw (etag sha256_hex float_repr iso_text (body issuer r today)) now (sources t)) as (row' & ? & ?).
    { by exists row. }
    by exists r, row'.
  - intros (t1 & H & [= <- <-])%rbind_ok. unfold insert_source in H. destruct (existsb _ _); [done|]. injection H as <-.
    exists r. eexists. split_and!; [done|done| |]; [apply find_snoc; [exact Hs|apply String.eqb_refl]|done].
Qed.

(** The version a resource carries in its [meta]. *)
Definition version_in (resource : list (string * json)) : option string :=
  match Json.get resource "meta" with JObj m => match Json.get m "version" with JStr v => Some v | _ => None end | _ => None end.

(** The version a PUT answers with is current.  A client that sends it back
    in [If-Match] passes the version check of its next PUT, PATCH or DELETE of
    that user. *)
Theorem put_version_is_current id parsed raw if_match now today t t' resource tr :
  replace sha256_hex float_repr iso_text issuer id parsed raw if_match now today t = (t', Ok (resource, tr)) ->
  exists p v, Uuid.parse id = Some p /\ version_in resource = Some v /\ _assert_version (_source t' p) (Some v) = Ok tt.
Proof using hexdigest.
  unfold replace, _as_uuid, transaction. destruct (Uuid.parse id) as [p|]; cbn [rbind]; [|by intros [=]].
  unfold replace_rows. destruct (find_person _ _) as [person|]; [|by intros [=]].
  destruct (_assert_version _ _); [cbn [rbind]|by intros [=]].
  destruct (_assert_username_free _ _ _); [cbn [rbind]|by intros [=]].
  destruct (_replace_identifiers _ _ _ _) as [s2|]; [cbn [rbind]|by intros [=]].
  destruct (_replace_affiliations _ _ _ _) as [s3|]; [cbn [rbind]|by intros [=]].
  change (_source t p) with (_source (with_registry s3 t) p).
  destruct (_finish _ _ _ _ _ _ _ _ _ _) as [[t1 res]|] eqn:Hf; [cbn [rbind]|by intros [=]]. intros [= <- <- _].
  apply finish_version in Hf as (r & row & _ & -> & Hrow & Hv).
  exists p, (etag sha256_hex float_repr iso_text (body issuer r today)). split; [done|]. split.
  - unfold version_in, to_scim.
    unfold Json.get at 1. by rewrite lookup_skip by apply body_lacks_meta.
  - unfold _assert_version. by rewrite Hrow, Hv, etag_is_candidate.
Qed.

End versions.

(** ** Witnesses *)

(** A toy digest: the length modulo 256, in hexadecimal. *)
Definition toy_sha (s : string) : string := Hex.encode (String (ascii_of_nat (String.length s)) "").
Definition toy_float (m e : Z) : string := Py.str_of_Z m +:+ "e" +:+ Py.str_of_Z e.

Lemma hex_digits s : Py.sforall Uuid.is_hex (Hex.encode s) = true.
Proof.
  induction s as [|c s IH]; [done|]. cbn [Hex.encode Py.sforall]. rewrite IH, andb_true_r.
  destruct c as [[] [] [] [] [] [] [] []]; vm_compute; done.
Qed.

Definition demo_id := "0a0a0a0a-0000-4000-8000-000000000001".
Definition demo_parsed (name : string) : ParsedUser :=
  {| user_name := name; external_id := Some "sis-17"; pu_display_name := Some "J Smith"; pu_given_name := None; pu_surname := None;
     pu_preferred_language := None; active := true; emails := [("j@mail.test", true)]; employee_number := None; pu_ferpa := false;
     pu_affiliations := [{| pa_value := "student"; pa_is_primary := true; pa_org_unit := None; pa_valid_from := 20000; pa_valid_until := None |}] |}.
Definition demo_empty : tables := {| registry := empty_db; sources := []; groups := []; members := [] |}.
Definition demo_fresh_user (id : string) : Fresh := {| fresh_uuid := id; fresh_hex := "00ff" |}.
Definition demo_create := create toy_sha toy_float _instant "https://idp.test" "campus.test" (demo_fresh_user demo_id)
  (demo_parsed "jsmith@campus.test") JNull 5 20000.
Definition demo_user : tables := (demo_create demo_empty).1.
Definition demo_replace (if_match : option string) := replace toy_sha toy_float _instant "https://idp.test" demo_id
  (demo_parsed "jsmith2@campus.test") JNull if_match 9 20001.

(** The version a GET shows right after a creation that sent an [externalId] is
    not the stored one: sent back in [If-Match] it is refused. *)
Example created_version_is_refused :
  exists resource v, get toy_sha toy_float _instant "https://idp.test" demo_id 20000 demo_user = Ok resource /\
    version_in resource = Some v /\ (demo_replace (Some v) demo_user).2 = Err version_mismatch.
Proof. do 2 eexists. split; [vm_compute; reflexivity|]. split; [vm_compute; reflexivity|]. vm_compute. reflexivity. Qed.

(** [If-Match: *] is refused for an existing user. *)
Example star_is_refused : (demo_replace (Some "*") demo_user).2 = Err version_mismatch.
Proof. vm_compute. reflexivity. Qed.

(** A deleted user cannot be replaced under the name it had: the row keeps the name. *)
Example deleted_name_is_an_error :
  let t := (soft_delete demo_id None 7 20001 demo_user).1 in
  (replace toy_sha toy_float _instant "https://idp.test" demo_id (demo_parsed "jsmith@campus.test") JNull None 9 20001 t).2 = Err integrity.
Proof. vm_compute. reflexivity. Qed.

(** A replayed creation answers with the user it made and writes nothing. *)
Example replayed_creation : exists resource, demo_create demo_user = (demo_user, Ok (resource, false, None)).
Proof. eexists. vm_compute. reflexivity. Qed.

Definition demo_scim_history : list scim_op := [
  Replace demo_id (demo_parsed "jsmith2@campus.test") JNull None 9 20001;
  Delete demo_id None 10 20002;
  Create (demo_fresh_user "0a0a0a0a-0000-4000-8000-000000000002") (demo_parsed "jsmith@campus.test") JNull 11 20003].

Lemma demo_names row : row ∈ identifiers (registry demo_user) -> id_person row = demo_id /\ (id_type row = ID_EPPN -> id_scope row = _scope_of (id_value row)).
Proof.
  assert (forall row, row ∈ identifiers (registry demo_user) <-> row = identifier_row demo_id ID_EPPN "jsmith@campus.test" (Some "campus.test") true 5 \/
    row = identifier_row demo_id ID_MAIL "j@mail.test" None true 5) as E.
  { assert (identifiers (registry demo_user) = [identifier_row demo_id ID_EPPN "jsmith@campus.test" (Some "campus.test") true 5;
      identifier_row demo_id ID_MAIL "j@mail.test" None true 5]) as -> by (vm_compute; reflexivity). set_solver. }
  intros [-> | ->]%E; by split.
Qed.

Lemma scim_never_reissues_witness :
  well_scoped (registry demo_user) /\ _scope_of "jsmith@campus.test" <> None /\
  let t' := fold_left (run_scim toy_sha toy_float _instant "https://idp.test" "campus.test") demo_scim_history demo_user in
  issued (registry t') ID_EPPN "jsmith@campus.test" demo_id /\ forall q, issued (registry t') ID_EPPN "jsmith@campus.test" q -> q = demo_id.
Proof.
  assert (well_scoped (registry demo_user)) as Hw by (intros row Hr; by apply demo_names).
  split; [exact Hw|]. split; [vm_compute; discriminate|].
  apply (scim_never_reissues toy_sha toy_float _instant "https://idp.test" "campus.test" demo_scim_history demo_user); [exact Hw| | |].
  - intros q q' (r & Hr & _ & _ & <-) (r' & Hr' & _ & _ & <-). destruct (demo_names r Hr) as [-> _]. by destruct (demo_names r' Hr') as [-> _].
  - vm_compute; discriminate.
  - vm_compute. eexists. split; [apply list_elem_of_here|]. done.
Defined.

Lemma deleted_user_is_out_witness :
  exists t' tr, soft_delete demo_id None 7 20001 demo_user = (t', Ok tr) /\
    (forall m now' today', soft_delete demo_id m now' today' t' = (t', Err not_found)) /\ tr_before tr = {["student"]}.
Proof.
  destruct (soft_delete demo_id None 7 20001 demo_user) as [t' [tr|e]] eqn:E; [|vm_compute in E; discriminate].
  exists t', tr. split; [reflexivity|].
  destruct (deleted_user_is_out demo_id None 7 20001 demo_user t' tr E) as (p & Hp & -> & _ & _ & _ & _ & H).
  split; [exact H|]. vm_compute in Hp. injection Hp as <-. vm_compute. reflexivity.
Defined.

Lemma pages_partition_witness :
  exists all pages, selected toy_sha toy_float _instant (fun _ => "") "https://idp.test" None None false 20000 demo_user = Ok all /\
    length all = 1%nat /\ concat (resources <$> pages) = all.
Proof.
  destruct (selected toy_sha toy_float _instant (fun _ => "") "https://idp.test" None None false 20000 demo_user) as [all|e] eqn:E;
    [|vm_compute in E; discriminate].
  assert (length all = 1%nat) as Hl by (vm_compute in E; injection E as <-; reflexivity).
  destruct (pages_partition toy_sha toy_float _instant (fun _ => "") "https://idp.test" None None false 20000 demo_user all 1 2 E) as (pages & _ & H);
    [vm_compute; lia|lia|]. exists all, pages. done.
Defined.

Lemma load_many_is_load_witness :
  Some <$> _load_many demo_user (persons (registry demo_user)) =
  (fun person => _load demo_user (person_uuid person)) <$> persons (registry demo_user).
Proof.
  apply (load_many_is_load demo_user (persons (registry demo_user))).
  - vm_compute. apply NoDup_singleton.
  - vm_compute. repeat constructor.
Defined.

Lemma put_version_is_current_witness :
  exists t' resource tr v, demo_replace None demo_user = (t', Ok (resource, tr)) /\
    version_in resource = Some v /\ _assert_version (_source t' demo_id) (Some v) = Ok tt.
Proof.
  destruct (demo_replace None demo_user) as [t' [[resource tr]|e]] eqn:E; [|vm_compute in E; discriminate].
  destruct (put_version_is_current toy_sha toy_float _instant "https://idp.test" (fun s => hex_digits _) _ _ _ _ _ _ _ _ _ _ E) as (p & v & Hp & Hv & Ha).
  vm_compute in Hp. injection Hp as <-. exists t', resource, tr, v. done.
Defined.

End UserStore.
