(* ===== verification/Groups.v ===== *)
(** * SCIM groups

    [campusid/scim/group_resources.py] and [campusid/scim/groups.py]: the
    document of a group, the reading of what a client sends, and the operations of
    [GroupStore] on the tables of [Users].  A transaction that raises leaves the
    tables as they were; the moment of a request is one argument, so the members
    one request adds share it and stay in the order they were sent. *)

From stdpp Require Import pretty.
From S2P Require Import Prelude PyStr Dict Json JsonText Errors ScimFilter ScimPatch Bulk Registry Users.

Module GroupResources.
Import Registry Users.Resources Users.UserStore.

Definition CORE_GROUP := "urn:ietf:params:scim:schemas:core:2.0:Group".
Definition MEMBER_ATTRIBUTE := "members".
Definition MAX_MEMBERS_INLINE : nat := 1000.

(** The columns a client may write. *)
Inductive column : Type := display_name_column | external_id_column.
#[global] Instance column_eq_dec : EqDecision column.
Proof. solve_decision. Defined.
Definition COLUMNS (attribute : string) : option column :=
  if String.eqb attribute "displayname" then Some display_name_column
  else if String.eqb attribute "externalid" then Some external_id_column else None.

Record GroupRecord : Type := { gr_group : ScimGroup; gr_members : option (list (string * string)); gr_member_count : nat }.
Record ParsedGroup : Type := { pg_display_name : string; pg_external_id : option string; pg_members : option (list string) }.

Definition group_etag (revision : Z) : string := "W/" +:+ quote +:+ Py.str_of_Z revision +:+ quote.

Definition member_json (issuer : string) (m : string * string) : json := JObj [
  ("value", JStr m.1); ("display", JStr m.2); ("type", JStr "User"); ("$ref", JStr (issuer +:+ "/scim/v2/Users/" +:+ m.1))].

Definition to_scim_group (issuer : string) (r : GroupRecord) : list (string * json) :=
  let g := gr_group r in
  [("schemas", JArr [JStr CORE_GROUP]); ("id", JStr (group_uuid g)); ("displayName", JStr (group_display_name g))] ++
  with_some "externalId" (filled (group_external_id g)) ++
  match gr_members r with Some l => [(MEMBER_ATTRIBUTE, JArr (member_json issuer <$> l))] | None => [] end ++
  [("meta", JObj [
    ("resourceType", JStr "Group"); ("created", JStr (_instant (group_created_at g)));
    ("lastModified", JStr (_instant (group_updated_at g)));
    ("location", JStr (issuer +:+ "/scim/v2/Groups/" +:+ group_uuid g)); ("version", JStr (group_etag (revision g)))])].

Definition matches_version (current if_match : string) : bool :=
  if String.eqb (Py.strip if_match) "*" then true
  else
    let tags := Py.strip <$> Py.split_on "," if_match in
    let candidates := tags ++ ((fun tag => Py.removeprefix tag "W/") <$> tags) in
    existsb (String.eqb current) candidates || existsb (String.eqb (Py.removeprefix current "W/")) candidates.

(** ** Reading *)

Fixpoint read_members (l : list json) : result Bulk.raised (list string) :=
  match l with
  | [] => Ok []
  | entry :: rest =>
      match (match entry with JObj m => Json.get m "value" | j => j end) with
      | JStr raw =>
          match Uuid.parse raw with
          | Some p => let* ps := read_members rest in Ok (p :: ps)
          | None => Err bad_value
          end
      | _ => Err bad_value
      end
  end.

(** The keys of a dict filled in order: each at its first place. *)
Fixpoint first_places (l : list string) : list string :=
  match l with
  | [] => []
  | x :: l' => x :: List.filter (fun y => negb (String.eqb x y)) (first_places l')
  end.

Definition unique_members (l : list json) : result Bulk.raised (list string) :=
  let* ps := read_members l in Ok (first_places ps).

Definition member_ids (value : json) : result Bulk.raised (list string) :=
  match value with
  | JNull => Ok []
  | JObj m => unique_members [JObj m]
  | JArr l => unique_members l
  | _ => Err bad_value
  end.

Definition parse_group (document : list (string * json)) : result Bulk.raised ParsedGroup :=
  match Json.get document "displayName" with
  | JStr name =>
      raise* bad_value when String.eqb (Py.strip name) "";
      let* external_id := match Json.get document "externalId" with
        | JNull => Ok None
        | JStr s => Ok (Some s)
        | _ => Err bad_value
        end in
      let* sent := match Json.get document MEMBER_ATTRIBUTE with
        | JNull => Ok None
        | j => let* ids := member_ids j in Ok (Some ids)
        end in
      Ok {| pg_display_name := Py.strip name; pg_external_id := external_id; pg_members := sent |}
  | _ => Err bad_value
  end.

Definition targets_members (o : ScimPatch.Operation) : bool :=
  match ScimPatch.path o with
  | Some p => String.eqb (Py.lower (ScimFilter.attribute (ScimFilter.pp_path p))) MEMBER_ATTRIBUTE
  | None =>
      match ScimPatch.value o with
      | JObj m => existsb (fun kv => String.eqb (Py.lower kv.1) MEMBER_ATTRIBUTE) m
      | _ => false
      end
  end.

(** What an operation sets, as a dict from columns. *)
Definition changes : Type := list (column * option string).

Definition _one_change (name : string) (value : json) : result Bulk.raised changes :=
  let attribute := Py.lower name in
  raise* Bulk.Scim (Bulk.Refused 400 "mutability") when existsb (String.eqb attribute) ScimPatch.IMMUTABLE;
  match COLUMNS attribute with
  | None => Err (Bulk.Scim (Bulk.Refused 400 "invalidPath"))
  | Some display_name_column =>
      match value with
      | JStr v => raise* bad_value when String.eqb (Py.strip v) ""; Ok [(display_name_column, Some (Py.strip v))]
      | _ => Err bad_value
      end
  | Some external_id_column =>
      match value with
      | JNull => Ok [(external_id_column, None)]
      | JStr v => Ok [(external_id_column, Some v)]
      | _ => Err bad_value
      end
  end.

Fixpoint pathless_changes (m : list (string * json)) (acc : changes) : result Bulk.raised changes :=
  match m with
  | [] => Ok acc
  | (name, value) :: rest =>
      let* one := _one_change name value in
      pathless_changes rest (fold_left (fun d kv => put d kv.1 kv.2) one acc)
  end.

Definition attribute_changes (o : ScimPatch.Operation) : result Bulk.raised changes :=
  match ScimPatch.path o with
  | None =>
      match ScimPatch.value o with
      | JObj m => pathless_changes m []
      | _ => Err bad_value
      end
  | Some p =>
      _one_change (ScimFilter.attribute (ScimFilter.pp_path p))
        (if bool_decide (ScimPatch.op o = ScimPatch.REMOVE) then JNull else ScimPatch.value o)
  end.

Definition member_target (predicate : ScimFilter.Node) : option string :=
  match predicate with
  | ScimFilter.Comparison p ScimFilter.EQ (JStr v) =>
      if String.eqb (Py.lower (ScimFilter.attribute p)) "value" &&
         match filled (ScimFilter.sub_attribute p) with None => true | Some _ => false end
      then Uuid.parse v else None
  | _ => None
  end.

End GroupResources.

Module GroupStore.
Import Registry Users.Resources Users.UserStore GroupResources.

Definition with_groups (l : list ScimGroup) (t : tables) : tables :=
  {| registry := registry t; sources := sources t; groups := l; members := members t |}.
Definition with_members (l : list ScimGroupMember) (t : tables) : tables :=
  {| registry := registry t; sources := sources t; groups := groups t; members := l |}.

Definition _load (t : tables) (group_id : string) : result Bulk.raised ScimGroup :=
  match Uuid.parse group_id with
  | None => Err not_found
  | Some key => match List.find (fun g => String.eqb (group_uuid g) key) (groups t) with Some g => Ok g | None => Err not_found end
  end.

Definition _assert_version (g : ScimGroup) (if_match : option string) : result Bulk.raised unit :=
  match if_match with
  | None => Ok tt
  | Some m => if matches_version (group_etag (revision g)) m then Ok tt else Err version_mismatch
  end.

Definition of_group (g : string) (m : ScimGroupMember) : bool := String.eqb (gm_group m) g.

Definition _member_count (t : tables) (g : string) : nat := length (List.filter (of_group g) (members t)).

Definition by_addition (a b : moment * (string * string)) : bool := (a.1 <=? b.1)%Z.
Definition _members (t : tables) (g : string) : list (string * string) :=
  snd <$> take MAX_MEMBERS_INLINE (Sort.sort by_addition (omap (fun m =>
    if of_group g m then
      (fun row => (added_at m, (gm_person m, default (edu_person_unique_id row) (filled (display_name row))))) <$>
        find_person (registry t) (gm_person m)
    else None) (members t))).

(** ** Membership rows *)

Definition _assert_people_exist (t : tables) (people : list string) : result Bulk.raised unit :=
  if forallb (exists_person (registry t)) people then Ok tt else Err bad_value.

Definition is_member (l : list ScimGroupMember) (g p : string) : bool :=
  existsb (fun m => String.eqb (gm_group m) g && String.eqb (gm_person m) p) l.

Fixpoint insert_members (g : string) (now : moment) (people : list string) (l : list ScimGroupMember) : list ScimGroupMember :=
  match people with
  | [] => l
  | p :: rest =>
      insert_members g now rest (if is_member l g p then l else l ++ [{| gm_group := g; gm_person := p; added_at := now |}])
  end.

Definition _add_members (g : string) (people : list string) (now : moment) (t : tables) : result Bulk.raised tables :=
  match people with
  | [] => Ok t
  | _ => let* _ := _assert_people_exist t people in Ok (with_members (insert_members g now people (members t)) t)
  end.

Definition _remove_members (g : string) (people : list string) (t : tables) : tables :=
  with_members (List.filter (fun m => negb (of_group g m && existsb (String.eqb (gm_person m)) people)) (members t)) t.

Definition _replace_members (g : string) (people : list string) (now : moment) (t : tables) : result Bulk.raised tables :=
  _add_members g people now (with_members (List.filter (fun m => negb (of_group g m)) (members t)) t).

Definition projected_member (m : string * string) : json :=
  JObj [("value", JStr m.1); ("display", JStr m.2); ("type", JStr "User")].

(** The filter evaluated over the membership. *)
Definition evaluated (t : tables) (g : string) (predicate : ScimFilter.Node) : list string :=
  let rows := _members t g in
  omap (fun i => fst <$> rows !! i) (ScimFilter.select_members predicate (projected_member <$> rows)).

Definition _selected (t : tables) (g : string) (predicate : ScimFilter.Node) : result Bulk.raised (list string) :=
  match member_target predicate with
  | Some p => Ok [p]
  | None =>
      raise* Bulk.Scim (Bulk.Refused 400 "tooMany") when (MAX_MEMBERS_INLINE <? _member_count t g)%nat;
      Ok (evaluated t g predicate)
  end.

Definition _patch_members (g : string) (o : ScimPatch.Operation) (now : moment) (t : tables) : result Bulk.raised tables :=
  match ScimPatch.op o with
  | ScimPatch.ADD => let* ids := member_ids (ScimPatch.value o) in _add_members g ids now t
  | ScimPatch.REPLACE =>
      match ScimPatch.path o with
      | Some p =>
          match ScimFilter.pp_predicate p with
          | None => let* ids := member_ids (ScimPatch.value o) in _replace_members g ids now t
          | Some _ => Err (Bulk.Scim (Bulk.Refused 400 "invalidPath"))
          end
      | None => Err (Bulk.Scim (Bulk.Refused 400 "invalidPath"))
      end
  | ScimPatch.REMOVE =>
      match ScimPatch.path o ≫= ScimFilter.pp_predicate with
      | None => _replace_members g [] now t
      | Some predicate => let* ids := _selected t g predicate in Ok (_remove_members g ids t)
      end
  end.

(** ** The operations *)

(** The unique constraints on the name and, where there is one, the external id. *)
Definition collides (g other : ScimGroup) : bool :=
  String.eqb (group_display_name g) (group_display_name other) ||
  match group_external_id g, group_external_id other with Some a, Some b => String.eqb a b | _, _ => false end.

(** The flush of a changed row: both constraints are answered alike. *)
Definition flush (g : ScimGroup) (t : tables) : result Bulk.raised tables :=
  raise* duplicate when existsb (fun other => negb (String.eqb (group_uuid other) (group_uuid g)) && collides g other) (groups t);
  Ok (with_groups (update_first (fun other => String.eqb (group_uuid other) (group_uuid g)) (fun _ => g) (groups t)) t).

Definition set_column (g : ScimGroup) (kv : column * option string) : ScimGroup :=
  match kv with
  | (display_name_column, v) =>
      {| group_uuid := group_uuid g; group_display_name := default "" v; group_external_id := group_external_id g;
         revision := revision g; group_created_at := group_created_at g; group_updated_at := group_updated_at g |}
  | (external_id_column, v) =>
      {| group_uuid := group_uuid g; group_display_name := group_display_name g; group_external_id := v;
         revision := revision g; group_created_at := group_created_at g; group_updated_at := group_updated_at g |}
  end.

(** [revision += 1], and the time the database stamps. *)
Definition revised (now : moment) (g : ScimGroup) : ScimGroup :=
  {| group_uuid := group_uuid g; group_display_name := group_display_name g; group_external_id := group_external_id g;
     revision := revision g + 1; group_created_at := group_created_at g; group_updated_at := now |}.

Section store.
Context (shown : json -> string) (issuer : string).

Definition _project (t : tables) (g : ScimGroup) (wanted : bool) : list (string * json) :=
  let count := _member_count t (group_uuid g) in
  to_scim_group issuer {| gr_group := g; gr_member_count := count;
    gr_members := if wanted && (count <=? MAX_MEMBERS_INLINE)%nat then Some (_members t (group_uuid g)) else None |}.

Definition new_group (fresh : string) (parsed : ParsedGroup) (now : moment) : ScimGroup :=
  {| group_uuid := fresh; group_display_name := pg_display_name parsed; group_external_id := pg_external_id parsed;
     revision := 1; group_created_at := now; group_updated_at := now |}.

Definition create_new (fresh : string) (parsed : ParsedGroup) (now : moment) (t : tables) : result Bulk.raised (tables * (list (string * json) * bool)) :=
  let g := new_group fresh parsed now in
  raise* duplicate when existsb (fun other => String.eqb (group_uuid other) fresh || collides g other) (groups t);
  let* t' := _add_members fresh (default [] (pg_members parsed)) now (with_groups (groups t ++ [g]) t) in
  Ok (t', (_project t' g true, true)).

Definition create (fresh : string) (document : list (string * json)) (now : moment) (t : tables) :
    tables * result Bulk.raised (list (string * json) * bool) :=
  transaction t
    (let* parsed := parse_group document in
     let existing := match filled (pg_external_id parsed) with
       | Some e => List.find (fun g => bool_decide (group_external_id g = Some e)) (groups t)
       | None => None
       end in
     match existing with
     | Some g => Ok (t, (_project t g true, false))
     | None => create_new fresh parsed now t
     end).

Definition get (group_id : string) (wanted : bool) (t : tables) : result Bulk.raised (list (string * json)) :=
  let* g := _load t group_id in Ok (_project t g wanted).

Definition groups_for (t : tables) (person_uuid : string) : result Bulk.raised (list (string * string)) :=
  match Uuid.parse person_uuid with
  | Some p => Ok (_groups t [p] p)
  | None => Err (Bulk.Uncaught Errors.ValueError)
  end.

(** A missing attribute sorts last; a null one sorts as [None]. *)
Definition _sort_key (sort_by : string) (resource : list (string * json)) : string :=
  match Json.lookup resource sort_by with
  | None => Py.lower LAST
  | Some (JStr s) => Py.lower s
  | Some j => Py.lower (shown j)
  end.

Definition by_group_creation (a b : ScimGroup) : bool := (group_created_at a <=? group_created_at b)%Z.

Definition search (predicate : option ScimFilter.Node) (start count : Z) (sort_by : option string) (descending wanted : bool) (t : tables) :
    result Bulk.raised Page :=
  let start := if (start <? 1)%Z then 1%Z else start in
  let count := Z.max 0 (Z.min count MAX_RESULTS) in
  let found := take (S MAX_SCANNED) (Sort.sort by_group_creation (groups t)) in
  raise* Bulk.Scim (Bulk.Refused 400 "tooMany") when (MAX_SCANNED <? length found)%nat;
  let all := (fun g => _project t g wanted) <$> found in
  let matching := match predicate with Some node => List.filter (fun r => ScimFilter.matches node r) all | None => all end in
  let sorted := match filled sort_by with
    | None => matching
    | Some k =>
        let leb a b := String.leb (_sort_key k a) (_sort_key k b) in
        if descending then rev (Sort.sort leb (rev matching)) else Sort.sort leb matching
    end in
  Ok {| resources := take (Z.to_nat count) (drop (Z.to_nat (start - 1)) sorted); total := Z.of_nat (length sorted); start_index := start |}.

Definition replace (group_id : string) (document : list (string * json)) (if_match : option string) (now : moment) (t : tables) :
    tables * result Bulk.raised (list (string * json)) :=
  transaction t
    (let* parsed := parse_group document in
     let* g := _load t group_id in
     let* _ := _assert_version g if_match in
     let g' := revised now (set_column (set_column g (display_name_column, Some (pg_display_name parsed)))
                              (external_id_column, pg_external_id parsed)) in
     let* t1 := match pg_members parsed with
       | Some people => _replace_members (group_uuid g) people now t
       | None => Ok t
       end in
     let* t2 := flush g' t1 in
     Ok (t2, _project t2 g' (match pg_members parsed with Some _ => true | None => false end))).

(** The loop over the operations: the rows are written at once, the columns at
    the flush. *)
Fixpoint patch_loop (g : string) (operations : list ScimPatch.Operation) (now : moment) (row : ScimGroup) (touched : bool) (t : tables) :
    result Bulk.raised (tables * (ScimGroup * bool)) :=
  match operations with
  | [] => Ok (t, (row, touched))
  | o :: rest =>
      if targets_members o then let* t' := _patch_members g o now t in patch_loop g rest now row true t'
      else let* ch := attribute_changes o in patch_loop g rest now (fold_left set_column ch row) touched t
  end.

Definition patch (group_id : string) (operations : list ScimPatch.Operation) (if_match : option string) (now : moment) (t : tables) :
    tables * result Bulk.raised (list (string * json)) :=
  transaction t
    (let* g := _load t group_id in
     let* _ := _assert_version g if_match in
     let* '(t1, (row, touched)) := patch_loop (group_uuid g) operations now g false t in
     let g' := revised now row in
     let* t2 := flush g' t1 in
     Ok (t2, _project t2 g' touched)).

(** The membership goes with the group, by the foreign key. *)
Definition delete (group_id : string) (if_match : option string) (t : tables) : tables * result Bulk.raised unit :=
  transaction t
    (let* g := _load t group_id in
     let* _ := _assert_version g if_match in
     Ok (with_members (List.filter (fun m => negb (of_group (group_uuid g) m)) (members t))
           (with_groups (List.filter (fun other => negb (String.eqb (group_uuid other) (group_uuid g))) (groups t)) t), tt)).

End store.

(** ** Histories *)

Section history.
Context (issuer : string).

Inductive group_op : Type :=
| Create (fresh : string) (document : list (string * json)) (now : moment)
| Replace (id : string) (document : list (string * json)) (if_match : option string) (now : moment)
| Patch (id : string) (operations : list ScimPatch.Operation) (if_match : option string) (now : moment)
| Delete (id : string) (if_match : option string).

Definition run_group (t : tables) (op : group_op) : tables :=
  match op with
  | Create fresh document now => (create issuer fresh document now t).1
  | Replace id document m now => (replace issuer id document m now t).1
  | Patch id operations m now => (patch issuer id operations m now t).1
  | Delete id m => (delete id m t).1
  end.
End history.

(** ** The rows are consistent *)

Definition pair_of (m : ScimGroupMember) : string * string := (gm_group m, gm_person m).

(** The constraints of the two tables. *)
Record consistent (t : tables) : Prop := {
  c_ids : NoDup (group_uuid <$> groups t);
  c_names : NoDup (group_display_name <$> groups t);
  c_externals : NoDup (omap group_external_id (groups t));
  c_pairs : NoDup (pair_of <$> members t);
  c_groups : forall m, m ∈ members t -> gm_group m ∈ group_uuid <$> groups t;
  c_people : forall m, m ∈ members t -> exists_person (registry t) (gm_person m) = true;
}.

(** What a change of membership rows may do. *)
Record regroups (g : string) (t t' : tables) : Prop := {
  r_registry : registry t' = registry t;
  r_sources : sources t' = sources t;
  r_groups : groups t' = groups t;
  r_others : forall g', g' <> g -> List.filter (of_group g') (members t') = List.filter (of_group g') (members t);
  r_consistent : consistent t -> g ∈ group_uuid <$> groups t -> consistent t';
}.

Lemma is_member_spec l g p : is_member l g p = true <-> exists m, m ∈ l /\ pair_of m = (g, p).
Proof.
  unfold is_member. rewrite existsb_elem. split.
  - intros (m & Hm & [H1%String.eqb_eq H2%String.eqb_eq]%andb_true_iff). exists m. split; [done|]. unfold pair_of. congruence.
  - intros (m & Hm & [= H1 H2]). exists m. split; [done|]. by rewrite H1, H2, !String.eqb_refl.
Qed.

Lemma insert_members_rows g now people l m :
  m ∈ insert_members g now people l -> m ∈ l \/ (gm_group m = g /\ gm_person m ∈ people).
Proof.
  revert l. induction people as [|p rest IH]; intros l; cbn; [by left|]. intros [H|[H1 H2]]%IH; [|right; split; [done|set_solver]].
  destruct (is_member l g p); [by left|]. apply elem_of_app in H as [H| ->%list_elem_of_singleton]; [by left|]. right. split; [done|set_solver].
Qed.

Lemma insert_members_pairs g now people l : NoDup (pair_of <$> l) -> NoDup (pair_of <$> insert_members g now people l).
Proof.
  revert l. induction people as [|p rest IH]; intros l Hl; cbn; [done|]. apply IH. destruct (is_member l g p) eqn:E; [done|].
  rewrite fmap_app. apply NoDup_app. split_and!; [done| |apply NoDup_singleton].
  intros x (m & -> & Hm)%list_elem_of_fmap Hx%list_elem_of_singleton. enough (is_member l g p = true) by congruence.
  apply is_member_spec. by exists m.
Qed.

Lemma filter_one g' g p now : List.filter (of_group g') [{| gm_group := g; gm_person := p; added_at := now |}] =
  if String.eqb g g' then [{| gm_group := g; gm_person := p; added_at := now |}] else [].
Proof. done. Qed.

Lemma insert_members_others g g' now people l : g' <> g ->
  List.filter (of_group g') (insert_members g now people l) = List.filter (of_group g') l.
Proof.
  intros Hg. revert l. induction people as [|p rest IH]; intros l; [done|]. cbn [insert_members]. rewrite IH.
  destruct (is_member l g p); [done|]. rewrite List.filter_app, filter_one. destruct (String.eqb_spec g g'); [congruence|]. by rewrite app_nil_r.
Qed.

Lemma elem_of_members l g p : p ∈ gm_person <$> List.filter (of_group g) l <-> is_member l g p = true.
Proof.
  rewrite list_elem_of_fmap, is_member_spec. split.
  - intros (m & -> & [Hm Hg%String.eqb_eq]%list_elem_of_In%List.filter_In). exists m. split; [by apply list_elem_of_In|unfold pair_of; congruence].
  - intros (m & Hm & [= <- <-]). exists m. split; [done|]. apply list_elem_of_In, List.filter_In. split; [by apply list_elem_of_In|].
    apply String.eqb_refl.
Qed.

Lemma insert_members_set g now people l p :
  p ∈ gm_person <$> List.filter (of_group g) (insert_members g now people l) <->
  p ∈ gm_person <$> List.filter (of_group g) l \/ p ∈ people.
Proof.
  revert l. induction people as [|q rest IH]; intros l; cbn [insert_members]; [set_solver|]. rewrite IH.
  destruct (is_member l g q) eqn:E.
  - apply elem_of_members in E. rewrite elem_of_cons. naive_solver.
  - rewrite List.filter_app, filter_one, String.eqb_refl, fmap_app, elem_of_app, elem_of_cons. cbn.
    rewrite list_elem_of_singleton. naive_solver.
Qed.

Definition membership (t : tables) (g : string) : gset string := list_to_set (gm_person <$> List.filter (of_group g) (members t)).

Lemma consistent_members t l : consistent t -> NoDup (pair_of <$> l) ->
  (forall m, m ∈ l -> gm_group m ∈ group_uuid <$> groups t /\ exists_person (registry t) (gm_person m) = true) -> consistent (with_members l t).
Proof. intros [] Hp Hl. split; try done; intros m Hm; by apply Hl. Qed.

Lemma filtered_consistent t f : consistent t -> consistent (with_members (List.filter f (members t)) t).
Proof.
  intros Hc. apply consistent_members; [done| |].
  - eapply sublist_NoDup; [apply c_pairs; exact Hc|]. apply fmap_sublist. induction (members t) as [|m l IH]; [constructor|].
    cbn. destruct (f m); by constructor.
  - intros m [Hm _]%list_elem_of_In%List.filter_In. apply list_elem_of_In in Hm. split; [by apply c_groups|by apply c_people].
Qed.

(** Adding people: all of them exist, and nothing else changes. *)
Lemma add_members_ok g people now t t' : _add_members g people now t = Ok t' ->
  regroups g t t' /\ membership t' g = membership t g ∪ list_to_set people.
Proof.
  intros H. assert (people = [] /\ t' = t \/ (let* _ := _assert_people_exist t people in Ok (with_members (insert_members g now people (members t)) t)) = Ok t') as [[-> ->]|Hs].
  { unfold _add_members in H. destruct people; [left; by injection H as <-|by right]. }
  { split; [by split|]. set_solver. }
  clear H. revert Hs. intros (? & Hex & [= <-])%rbind_ok. unfold _assert_people_exist in Hex. destruct (forallb _ _) eqn:E; [|done]. rewrite forallb_forall in E.
  split; [split; try done|].
  - intros g' Hg'. by apply (insert_members_others g g' now people).
  - intros Hc Hg. apply consistent_members; [done|by apply insert_members_pairs, c_pairs|].
    intros m [Hm|[-> Hm]]%insert_members_rows; [split; [by apply c_groups|by apply c_people]|]. split; [done|]. by apply E, list_elem_of_In.
  - unfold membership. cbn [members with_members]. apply set_eq. intros q. rewrite elem_of_union, !elem_of_list_to_set. apply insert_members_set.
Qed.

Lemma filter_filter_same {A} (f g : A -> bool) l : (forall x, f x = true -> g x = true) -> List.filter f (List.filter g l) = List.filter f l.
Proof. intros H. by apply filter_refine. Qed.

Lemma filter_members_regroup g f t : (forall m, of_group g m = false -> f m = true) ->
  regroups g t (with_members (List.filter f (members t)) t).
Proof.
  intros Hf. split; try done.
  - intros g' Hg. cbn. apply filter_filter_same. intros m Hm%String.eqb_eq. apply Hf. unfold of_group. apply String.eqb_neq. congruence.
  - intros Hc _. by apply filtered_consistent.
Qed.

Lemma regroups_trans g t1 t2 t3 : regroups g t1 t2 -> regroups g t2 t3 -> regroups g t1 t3.
Proof.
  intros [A1 A2 A3 A4 A5] [B1 B2 B3 B4 B5]. split; [congruence|congruence|congruence| |].
  - intros g' Hg. rewrite B4, A4; done.
  - intros Hc Hg. apply B5; [by apply A5|by rewrite A3].
Qed.

Lemma remove_members_ok g people t :
  regroups g t (_remove_members g people t) /\ membership (_remove_members g people t) g = membership t g ∖ list_to_set people.
Proof.
  split.
  - apply filter_members_regroup. by intros m ->.
  - apply set_eq. intros q. unfold membership, _remove_members. cbn [members with_members].
    rewrite elem_of_difference, !elem_of_list_to_set, !list_elem_of_fmap. split.
    + intros (m & -> & [[Hm Hk]%List.filter_In Hg]%list_elem_of_In%List.filter_In). rewrite Hg in Hk. split.
      * exists m. split; [done|]. apply list_elem_of_In, List.filter_In. done.
      * intros Hp. apply negb_true_iff in Hk. cbn in Hk. enough (existsb (String.eqb (gm_person m)) people = true) by congruence.
        apply existsb_elem. exists (gm_person m). split; [done|apply String.eqb_refl].
    + intros [(m & -> & [Hm Hg]%list_elem_of_In%List.filter_In) Hp]. exists m. split; [done|].
      apply list_elem_of_In, List.filter_In. split; [|done]. apply List.filter_In. split; [done|]. rewrite Hg. cbn.
      apply negb_true_iff, not_true_iff_false. intros (q & Hq & E%String.eqb_eq)%existsb_elem. apply Hp. by rewrite E.
Qed.

Lemma replace_members_ok g people now t t' : _replace_members g people now t = Ok t' ->
  regroups g t t' /\ membership t' g = list_to_set people.
Proof.
  intros H. assert (regroups g t (with_members (List.filter (fun m => negb (of_group g m)) (members t)) t)) as H1
    by (apply filter_members_regroup; by intros m ->).
  apply add_members_ok in H as [H2 Hs]. split; [by eapply regroups_trans|]. rewrite Hs.
  enough (membership (with_members (List.filter (fun m => negb (of_group g m)) (members t)) t) g = ∅) as -> by set_solver.
  unfold membership. cbn [members with_members].
  enough (List.filter (of_group g) (List.filter (fun m => negb (of_group g m)) (members t)) = []) as -> by done.
  clear. induction (members t) as [|m l IH]; [done|]. cbn. destruct (of_group g m) eqn:E; cbn; [exact IH|]. by rewrite E.
Qed.

(** What a membership operation that succeeds does to the rows of the group. *)
Lemma patch_members_ok g o now t t' : _patch_members g o now t = Ok t' ->
  regroups g t t' /\
  match ScimPatch.op o, ScimPatch.path o ≫= ScimFilter.pp_predicate with
  | ScimPatch.ADD, _ => exists ids, member_ids (ScimPatch.value o) = Ok ids /\ membership t' g = membership t g ∪ list_to_set ids
  | ScimPatch.REPLACE, None => exists ids, member_ids (ScimPatch.value o) = Ok ids /\ membership t' g = list_to_set ids
  | ScimPatch.REPLACE, Some _ => False
  | ScimPatch.REMOVE, None => membership t' g = ∅
  | ScimPatch.REMOVE, Some predicate => exists ids, _selected t g predicate = Ok ids /\ membership t' g = membership t g ∖ list_to_set ids
  end.
Proof.
  unfold _patch_members. destruct (ScimPatch.op o).
  - destruct (member_ids _) as [ids|]; [|done]. cbn [rbind]. intros [H ?]%add_members_ok. split; [done|by exists ids].
  - destruct (ScimPatch.path o ≫= ScimFilter.pp_predicate) as [predicate|].
    + destruct (_selected t g predicate) as [ids|]; [|done]. cbn [rbind]. intros [= <-].
      destruct (remove_members_ok g ids t) as [H1 ?]. split; [done|by exists ids].
    + by intros [H ->]%replace_members_ok.
  - destruct (ScimPatch.path o) as [p|]; [|done]. cbn. destruct (ScimFilter.pp_predicate p); [done|].
    destruct (member_ids _) as [ids|]; [|done]. cbn [rbind]. intros [H ?]%replace_members_ok. split; [done|by exists ids].
Qed.

(** ** Histories keep the constraints *)

Lemma collides_sound g l : existsb (collides g) l = false ->
  group_display_name g ∉ group_display_name <$> l /\ forall e, group_external_id g = Some e -> e ∉ omap group_external_id l.
Proof.
  intros E. split.
  - intros (x & Hn & Hx)%list_elem_of_fmap. enough (existsb (collides g) l = true) by congruence. apply existsb_elem. exists x.
    split; [done|]. unfold collides. by rewrite Hn, String.eqb_refl.
  - intros e He (x & Hx & Hn)%list_elem_of_omap. enough (existsb (collides g) l = true) by congruence. apply existsb_elem. exists x.
    split; [done|]. unfold collides. by rewrite He, Hn, String.eqb_refl, orb_true_r.
Qed.

(** Replacing the row of one group. *)
Lemma update_row (g : ScimGroup) l :
  let new := update_first (fun other => String.eqb (group_uuid other) (group_uuid g)) (fun _ => g) l in
  NoDup (group_uuid <$> l) ->
  group_uuid <$> new = group_uuid <$> l /\
  (group_uuid g ∈ group_uuid <$> l -> new ≡ₚ g :: List.filter (fun other => negb (String.eqb (group_uuid other) (group_uuid g))) l).
Proof.
  cbn zeta. induction l as [|x l IH]; [intros _; split; [done|set_solver]|]. rewrite fmap_cons, NoDup_cons. intros [Hx Hl]. cbn [update_first].
  destruct (IH Hl) as [IH1 IH2]. destruct (String.eqb_spec (group_uuid x) (group_uuid g)) as [E|E].
  - split; [by rewrite fmap_cons, E|]. intros _. cbn. rewrite (proj2 (String.eqb_eq _ _) E). cbn. constructor.
    clear -Hx E. rewrite E in Hx. induction l as [|y l IH]; [done|]. rewrite fmap_cons, not_elem_of_cons in Hx. destruct Hx as [H1 H2]. cbn.
    destruct (String.eqb_spec (group_uuid y) (group_uuid g)); [congruence|]. cbn. constructor. by apply IH.
  - split; [by rewrite fmap_cons, IH1|]. rewrite elem_of_cons. intros [H|H]; [congruence|]. rewrite IH2 by done. cbn.
    destruct (String.eqb_spec (group_uuid x) (group_uuid g)); [done|]. cbn. apply Permutation_swap.
Qed.

Lemma find_group t id g : _load t id = Ok g -> g ∈ groups t /\ Uuid.parse id = Some (group_uuid g) /\
  List.find (fun other => String.eqb (group_uuid other) (group_uuid g)) (groups t) = Some g.
Proof.
  unfold _load. destruct (Uuid.parse id) as [key|]; [|done]. destruct (List.find _ _) as [g'|] eqn:E; [|done]. intros [= <-].
  apply List.find_some in E as E'. destruct E' as [H1 H2%String.eqb_eq]. rewrite <-H2 in E |- *. split; [by apply list_elem_of_In|done].
Qed.

Lemma filter_sublist {A} (f : A -> bool) l : List.filter f l `sublist_of` l.
Proof. induction l as [|x l IH]; [constructor|]. cbn. destruct (f x); by constructor. Qed.

Lemma omap_sublist {A B} (f : A -> option B) l k : l `sublist_of` k -> omap f l `sublist_of` omap f k.
Proof. induction 1 as [|x l k H IH|x l k H IH]; cbn; [by apply sublist_nil_l|destruct (f x); [by apply sublist_skip|done]|destruct (f x); [by apply sublist_cons|done]]. Qed.

(** The table of groups once one row is written. *)
Lemma flush_ok g t t' : flush g t = Ok t' -> group_uuid g ∈ group_uuid <$> groups t ->
  registry t' = registry t /\ members t' = members t /\ sources t' = sources t /\
  (consistent t -> consistent t' /\ groups t' ≡ₚ g :: List.filter (fun other => negb (String.eqb (group_uuid other) (group_uuid g))) (groups t)).
Proof.
  unfold flush. destruct (existsb _ _) eqn:E; [done|]. intros [= <-] Hg. split_and!; try done. intros [].
  destruct (update_row g (groups t) c_ids0) as [H1 H2]. specialize (H2 Hg).
  set (rest := List.filter (fun other => negb (String.eqb (group_uuid other) (group_uuid g))) (groups t)) in *.
  assert (rest `sublist_of` groups t) as Hr by apply filter_sublist.
  assert (existsb (collides g) rest = false) as [Hn He]%collides_sound.
  { apply not_true_iff_false. intros (x & Hx & Hc)%existsb_elem. apply list_elem_of_In, List.filter_In in Hx as [Hx Hne].
    enough (existsb (fun other => negb (String.eqb (group_uuid other) (group_uuid g)) && collides g other) (groups t) = true) by congruence.
    apply existsb_elem. exists x. split; [by apply list_elem_of_In|]. by rewrite Hne, Hc. }
  split; [|done]. split; cbn [groups with_groups members registry]; try done.
  - by rewrite H1.
  - rewrite H2, fmap_cons. constructor; [done|]. eapply sublist_NoDup; [exact c_names0|]. by apply fmap_sublist.
  - rewrite H2. cbn. assert (NoDup (omap group_external_id rest)) as Hd by (eapply sublist_NoDup; [exact c_externals0|]; by apply omap_sublist).
    destruct (group_external_id g) as [e|]; [|done]. constructor; [by apply He|done].
  - intros m Hm. rewrite H1. by apply c_groups0.
Qed.

Definition row_of (t : tables) (p : string) : option ScimGroup := List.find (fun g => String.eqb (group_uuid g) p) (groups t).
(** A group as it stands: its row and its members' rows. *)
Definition standing (t : tables) (p : string) : option ScimGroup * list ScimGroupMember :=
  (row_of t p, List.filter (of_group p) (members t)).

Lemma regroups_refl g t : regroups g t t.
Proof. by split. Qed.

Lemma set_columns_keep ch row : group_uuid (fold_left set_column ch row) = group_uuid row /\ revision (fold_left set_column ch row) = revision row.
Proof. revert row. induction ch as [|[[] v] ch IH]; intros row; cbn [fold_left]; [done|..]; by rewrite !(proj1 (IH _)), !(proj2 (IH _)). Qed.

Lemma patch_loop_ok g ops now row touched t t' row' touched' :
  patch_loop g ops now row touched t = Ok (t', (row', touched')) ->
  regroups g t t' /\ group_uuid row' = group_uuid row /\ revision row' = revision row.
Proof.
  revert row touched t. induction ops as [|o ops IH]; intros row touched t; cbn [patch_loop].
  - intros [= <- <- <-]. split; [apply regroups_refl|done].
  - destruct (targets_members o).
    + intros (t1 & [H1 _]%patch_members_ok & (H2 & H3 & H4)%IH)%rbind_ok. split; [by eapply regroups_trans|done].
    + intros (ch & _ & (H2 & H3 & H4)%IH)%rbind_ok. destruct (set_columns_keep ch row) as [E1 E2].
      split; [done|]. by rewrite H3, H4.
Qed.

(** A write to the group [g] that goes through: some membership rows of it, then
    its row with the next revision. *)
Definition wrote (g : ScimGroup) (t t' : tables) : Prop :=
  exists t1 g', regroups (group_uuid g) t t1 /\ flush g' t1 = Ok t' /\ group_uuid g' = group_uuid g /\ revision g' = (revision g + 1)%Z.

Lemma replace_wrote issuer id document m now t t' r :
  replace issuer id document m now t = (t', Ok r) -> exists g, _load t id = Ok g /\ wrote g t t'.
Proof.
  unfold replace, transaction. destruct (parse_group document) as [parsed|]; [cbn [rbind]|by intros [=]].
  destruct (_load t id) as [g|]; [cbn [rbind]|by intros [=]]. destruct (_assert_version g m); [cbn [rbind]|by intros [=]].
  intros H. exists g. split; [done|].
  destruct (match pg_members parsed with Some _ => _ | None => _ end) as [t1|] eqn:E1 in H; [cbn [rbind] in H|done].
  destruct (flush _ t1) as [t2|] eqn:E2 in H; [|done]. injection H as <- _. do 2 eexists. split; [|split; [exact E2|done]].
  destruct (pg_members parsed); [by apply replace_members_ok in E1 as [? _]|injection E1 as <-; apply regroups_refl].
Qed.

Lemma patch_wrote issuer id ops m now t t' r :
  patch issuer id ops m now t = (t', Ok r) -> exists g, _load t id = Ok g /\ wrote g t t'.
Proof.
  unfold patch, transaction. destruct (_load t id) as [g|]; [cbn [rbind]|by intros [=]].
  destruct (_assert_version g m); [cbn [rbind]|by intros [=]]. intros H. exists g. split; [done|].
  destruct (patch_loop _ _ _ _ _ _) as [[t1 [row touched]]|] eqn:E1 in H; [cbn [rbind] in H|done].
  destruct (flush _ t1) as [t2|] eqn:E2 in H; [|done]. injection H as <- _.
  apply patch_loop_ok in E1 as (H1 & H2 & H3). do 2 eexists. split; [exact H1|]. split; [exact E2|]. cbn. by rewrite H2, H3.
Qed.

Lemma find_update g l : group_uuid g ∈ group_uuid <$> l ->
  List.find (fun other => String.eqb (group_uuid other) (group_uuid g))
    (update_first (fun other => String.eqb (group_uuid other) (group_uuid g)) (fun _ => g) l) = Some g.
Proof.
  induction l as [|x l IH]; [set_solver|]. rewrite fmap_cons, elem_of_cons. intros H. cbn.
  destruct (String.eqb_spec (group_uuid x) (group_uuid g)) as [E|E]; cbn; [by rewrite String.eqb_refl|].
  destruct (String.eqb_spec (group_uuid x) (group_uuid g)); [done|]. apply IH. destruct H; [congruence|done].
Qed.

Lemma find_update_other g p l : p <> group_uuid g ->
  List.find (fun other => String.eqb (group_uuid other) p)
    (update_first (fun other => String.eqb (group_uuid other) (group_uuid g)) (fun _ => g) l) =
  List.find (fun other => String.eqb (group_uuid other) p) l.
Proof.
  intros Hp. induction l as [|x l IH]; [done|]. cbn. destruct (String.eqb_spec (group_uuid x) (group_uuid g)) as [E|E]; cbn.
  - destruct (String.eqb_spec (group_uuid g) p); [congruence|]. destruct (String.eqb_spec (group_uuid x) p); [congruence|done].
  - by rewrite IH.
Qed.

Lemma wrote_step g t t' : g ∈ groups t -> wrote g t t' ->
  (consistent t -> consistent t') /\ registry t' = registry t /\
  (exists g', row_of t' (group_uuid g) = Some g' /\ revision g' = (revision g + 1)%Z) /\
  forall p, p <> group_uuid g -> standing t' p = standing t p.
Proof.
  intros Hg (t1 & g' & [R1 R2 R3 R4 R5] & Hf & Hu & Hrev).
  assert (group_uuid g ∈ group_uuid <$> groups t) as Hin by by apply list_elem_of_fmap_2.
  assert (group_uuid g' ∈ group_uuid <$> groups t1) as Hin1 by by rewrite Hu, R3.
  destruct (flush_ok _ _ _ Hf Hin1) as (F1 & F2 & F3 & F4).
  unfold flush in Hf. destruct (existsb _ _); [done|]. injection Hf as <-. split_and!.
  - intros Hc. by apply F4, R5.
  - by rewrite F1, R1.
  - exists g'. split; [|done]. unfold row_of. cbn [groups with_groups]. rewrite <-Hu. by apply find_update.
  - intros p Hp. unfold standing, row_of. cbn [groups members with_groups]. rewrite find_update_other by congruence. by rewrite R3, R4.
Qed.

Lemma find_filter_other p g l : p <> g ->
  List.find (fun other => String.eqb (group_uuid other) p) (List.filter (fun other => negb (String.eqb (group_uuid other) g)) l) =
  List.find (fun other => String.eqb (group_uuid other) p) l.
Proof.
  intros Hp. induction l as [|x l IH]; [done|]. cbn. destruct (String.eqb_spec (group_uuid x) g); cbn; rewrite IH; [|done].
  destruct (String.eqb_spec (group_uuid x) p); [congruence|done].
Qed.

Lemma find_filtered g l :
  List.find (fun other => String.eqb (group_uuid other) g) (List.filter (fun other => negb (String.eqb (group_uuid other) g)) l) = None.
Proof.
  induction l as [|x l IH]; [done|]. cbn. destruct (String.eqb (group_uuid x) g) eqn:E; cbn; [done|]. by rewrite E.
Qed.

Lemma delete_step id m t t' u : delete id m t = (t', Ok u) -> exists g, _load t id = Ok g /\
  (consistent t -> consistent t') /\ registry t' = registry t /\ standing t' (group_uuid g) = (None, []) /\
  forall p, p <> group_uuid g -> standing t' p = standing t p.
Proof.
  unfold delete, transaction. destruct (_load t id) as [g|]; [cbn [rbind]|by intros [=]].
  destruct (_assert_version g m); [cbn [rbind]|by intros [=]]. intros [= <- _]. exists g. split; [done|]. split_and!; try done.
  - intros Hc. destruct (filtered_consistent t (fun m => negb (of_group (group_uuid g) m)) Hc) as [A1 A2 A3 A4 A5 A6]. split;
      cbn [groups members registry with_members with_groups] in *; try done.
    + eapply sublist_NoDup; [exact A1|]. apply fmap_sublist, filter_sublist.
    + eapply sublist_NoDup; [exact A2|]. apply fmap_sublist, filter_sublist.
    + eapply sublist_NoDup; [exact A3|]. apply omap_sublist, filter_sublist.
    + intros x Hx. pose proof (A5 x Hx) as (g' & Hg' & Hin)%list_elem_of_fmap. rewrite Hg'. apply list_elem_of_fmap_2, list_elem_of_In, List.filter_In.
      split; [by apply list_elem_of_In|]. apply list_elem_of_In, List.filter_In in Hx as [_ Hx]. unfold of_group in Hx. by rewrite <-Hg'.
  - unfold standing, row_of. cbn [groups members with_members with_groups]. rewrite find_filtered. f_equal.
    induction (members t) as [|x l IH]; [done|]. cbn. destruct (of_group (group_uuid g) x) eqn:E; cbn; [exact IH|]. by rewrite E.
  - intros p Hp. unfold standing, row_of. cbn [groups members with_members with_groups]. rewrite find_filter_other by done. f_equal.
    apply filter_refine. intros x Hx%String.eqb_eq. unfold of_group. apply negb_true_iff, String.eqb_neq. congruence.
Qed.

Lemma find_snoc_other {A} (f : A -> bool) l x : f x = false -> List.find f (l ++ [x]) = List.find f l.
Proof. intros Hx. induction l as [|y l IH]; cbn; [by rewrite Hx|]. by rewrite IH. Qed.

Lemma create_step issuer fresh document now t t' r : create issuer fresh document now t = (t', Ok r) ->
  (consistent t -> consistent t') /\ registry t' = registry t /\ forall p, p <> fresh -> standing t' p = standing t p.
Proof.
  unfold create, transaction. destruct (parse_group document) as [parsed|]; [cbn [rbind]|by intros [=]].
  destruct (match filled _ with Some _ => _ | None => _ end); [by intros [= <- _]|]. unfold create_new. set (g := new_group fresh parsed now).
  destruct (existsb _ _) eqn:E; [by intros [=]|].
  destruct (_add_members _ _ _ _) as [t1|] eqn:Ha; [cbn [rbind]|by intros [=]]. intros [= <- _].
  apply add_members_ok in Ha as [[R1 R2 R3 R4 R5] _]. split_and!; [| by rewrite R1|].
  - intros Hc. destruct Hc as [A1 A2 A3 A4 A5 A6]. apply R5; [|cbn; rewrite fmap_app; set_solver].
    assert (existsb (collides g) (groups t) = false) as [Hn He]%collides_sound.
    { apply not_true_iff_false. intros (x & Hx & Hxc)%existsb_elem. enough (existsb (fun other => String.eqb (group_uuid other) fresh || collides g other) (groups t) = true) by congruence.
      apply existsb_elem. exists x. by rewrite Hxc, orb_true_r. }
    split; cbn [groups members registry with_groups]; try done.
    + rewrite fmap_app. apply NoDup_app. split_and!; [done| |apply NoDup_singleton].
      intros x (y & -> & Hy)%list_elem_of_fmap Hx%list_elem_of_singleton.
      enough (existsb (fun other => String.eqb (group_uuid other) fresh || collides g other) (groups t) = true) by congruence.
      apply existsb_elem. exists y. split; [done|]. rewrite Hx. by cbn; rewrite String.eqb_refl.
    + rewrite fmap_app. apply NoDup_app. split_and!; [done| |apply NoDup_singleton].
      intros x Hx Hy%list_elem_of_singleton. subst x. by apply Hn.
    + rewrite omap_app. apply NoDup_app. split_and!; [done| |].
      * intros x Hx (y & ->%list_elem_of_singleton & Hy)%list_elem_of_omap. by apply (He x).
      * cbn. destruct (pg_external_id parsed); [apply NoDup_singleton|constructor].
    + intros m Hm. rewrite fmap_app. apply elem_of_app. left. by apply A5.
  - intros p Hp. unfold standing, row_of. rewrite R3. rewrite R4 by done. cbn [groups members with_groups]. f_equal.
    apply find_snoc_other. cbn. by apply String.eqb_neq.
Qed.

Lemma transaction_error {A} t (r : result Bulk.raised (tables * A)) t' e : transaction t r = (t', Err e) -> t' = t.
Proof. destruct r as [[? ?]|]; [done|]. by intros [= <- _]. Qed.

(** One operation, whatever becomes of it. *)
Lemma run_group_step issuer op t :
  (consistent t -> consistent (run_group issuer t op)) /\ registry (run_group issuer t op) = registry t.
Proof.
  destruct op as [fresh document now|id document m now|id operations m now|id m]; cbn [run_group].
  - destruct (create issuer fresh document now t) as [t' [r|e]] eqn:E; [by apply create_step in E as (? & ? & _)|].
    unfold create in E. by apply transaction_error in E as ->.
  - destruct (replace issuer id document m now t) as [t' [r|e]] eqn:E.
    + apply replace_wrote in E as (g & [Hg _]%find_group & Hw). destruct (wrote_step g t t' Hg Hw) as (? & ? & _). done.
    + unfold replace in E. by apply transaction_error in E as ->.
  - destruct (patch issuer id operations m now t) as [t' [r|e]] eqn:E.
    + apply patch_wrote in E as (g & [Hg _]%find_group & Hw). destruct (wrote_step g t t' Hg Hw) as (? & ? & _). done.
    + unfold patch in E. by apply transaction_error in E as ->.
  - destruct (delete id m t) as [t' [r|e]] eqn:E; [by apply delete_step in E as (? & _ & ? & ? & _)|].
    unfold delete in E. by apply transaction_error in E as ->.
Qed.

(** C22: Group operations keep the tables consistent.  After any history of
    creations, replacements, patches and deletions no two groups share an
    identifier, a name or an external id, nobody is in a group twice, and every
    membership names a group and a person that exist. *)
Theorem groups_stay_consistent issuer ops t :
  consistent t -> consistent (fold_left (run_group issuer) ops t).
Proof.
  revert t. induction ops as [|op ops IH]; intros t Hc; [done|]. cbn [fold_left]. by apply IH, run_group_step.
Qed.

(** ** Versions *)

Lemma digits_lack c z : JsonText.is_digit c = false -> c <> "-"%char -> Py.has_char c (Py.str_of_Z z) = false.
Proof.
  intros Hc Hm. rewrite JsonText.str_of_Z_shape, Py.has_char_app.
  rewrite (all_lacks JsonText.is_digit c (pretty (Z.abs_N z))) by (done || apply JsonText.pretty_N_digits). rewrite orb_false_r.
  destruct (z <? 0)%Z; [|done]. unfold Py.has_char. cbn [Py.sforall]. by rewrite (proj2 (Ascii.eqb_neq "-" c)) by congruence.
Qed.

Lemma etag_matches r r' : matches_version (group_etag r) (group_etag r') = true <-> r = r'.
Proof.
  assert (forall n, Py.strip (group_etag n) = group_etag n) as Hs.
  { intros n. apply Py.strip_fix; [done|]. unfold group_etag. rewrite !Py.srev_app_distr. reflexivity. }
  assert (forall n n' : Z, quote +:+ Py.str_of_Z n +:+ quote = quote +:+ Py.str_of_Z n' +:+ quote -> n = n') as Hinj.
  { intros n n' E%Py.app_inv_l. by apply JsonText.str_of_Z_prefix in E as [-> _]. }
  unfold matches_version. rewrite Hs. destruct (String.eqb_spec (group_etag r') "*") as [E|_]; [done|].
  rewrite Py.split_on_none by (unfold group_etag; rewrite !Py.has_char_app, digits_lack by done; reflexivity).
  assert (forall n, Py.removeprefix (group_etag n) "W/" = quote +:+ Py.str_of_Z n +:+ quote) as Hr by (intros n; apply Py.removeprefix_app).
  cbn [fmap list_fmap app existsb]. rewrite Hs, !Hr, !orb_false_r.
  rewrite !orb_true_iff.
  rewrite !String.eqb_eq.
  split; [|intros ->; by left].
  intros [H|[H|H]]; [by apply (Py.app_inv_l "W/"), Hinj in H|done|by apply Hinj].
Qed.

Definition creates (p : string) (op : group_op) : Prop := match op with Create fresh _ _ => fresh = p | _ => False end.

(** One operation leaves a group as it stands, ends it, or takes it to its next
    revision. *)
Lemma group_step issuer op t p : ~ creates p op ->
  let t' := run_group issuer t op in
  standing t' p = standing t p \/ row_of t' p = None \/
  exists g g', row_of t p = Some g /\ row_of t' p = Some g' /\ revision g' = (revision g + 1)%Z.
Proof.
  intros Hp. assert (forall g t' id, _load t id = Ok g -> wrote g t t' ->
    standing t' p = standing t p \/ row_of t' p = None \/
    exists g g', row_of t p = Some g /\ row_of t' p = Some g' /\ revision g' = (revision g + 1)%Z) as Hwrote.
  { intros g t' id (Hg & _ & Hf)%find_group Hw. destruct (wrote_step g t t' Hg Hw) as (_ & _ & (g' & H1 & H2) & H3).
    destruct (decide (p = group_uuid g)) as [->|Hne]; [right; right; by exists g, g'|left; by apply H3]. }
  cbn zeta. destruct op as [fresh document now|id document m now|id operations m now|id m]; cbn [run_group].
  - destruct (create issuer fresh document now t) as [t' [r|e]] eqn:E.
    + apply create_step in E as (_ & _ & H). left. apply H. by intros <-.
    + left. unfold create in E. by apply transaction_error in E as ->.
  - destruct (replace issuer id document m now t) as [t' [r|e]] eqn:E.
    + apply replace_wrote in E as (g & Hl & Hw). by eapply Hwrote.
    + left. unfold replace in E. by apply transaction_error in E as ->.
  - destruct (patch issuer id operations m now t) as [t' [r|e]] eqn:E.
    + apply patch_wrote in E as (g & Hl & Hw). by eapply Hwrote.
    + left. unfold patch in E. by apply transaction_error in E as ->.
  - destruct (delete id m t) as [t' [r|e]] eqn:E.
    + apply delete_step in E as (g & _ & _ & _ & H1 & H2). destruct (decide (p = group_uuid g)) as [->|Hne].
      * right; left. unfold standing in H1. by injection H1.
      * left. by apply H2.
    + left. unfold delete in E. by apply transaction_error in E as ->.
Qed.

Lemma group_history issuer ops t p g : Forall (fun op => ~ creates p op) ops -> row_of t p = Some g ->
  let t' := fold_left (run_group issuer) ops t in
  standing t' p = standing t p \/ row_of t' p = None \/ exists g', row_of t' p = Some g' /\ (revision g < revision g')%Z.
Proof.
  intros Hops. revert t g. induction Hops as [|op ops Hop Hops IH]; intros t g Hg; [by left|]. cbn [fold_left].
  assert (forall t, row_of t p = None -> row_of (fold_left (run_group issuer) ops t) p = None) as Hgone.
  { clear -Hops. induction Hops as [|op ops Hop Hops IH]; intros t Ht; [done|]. cbn [fold_left]. apply IH.
    destruct (group_step issuer op t p Hop) as [H|[H|(g & g' & H & _)]]; [injection H as H _; congruence|done|congruence]. }
  destruct (group_step issuer op t p Hop) as [H|[H|(g1 & g' & H1 & H2 & H3)]].
  - assert (row_of (run_group issuer t op) p = Some g) as Hg' by (injection H as H _; congruence).
    destruct (IH _ _ Hg') as [H'|[H'|H']]; [left; congruence|by right; left|by right; right].
  - right; left. by apply Hgone.
  - assert (g1 = g) as -> by congruence. destruct (IH _ _ H2) as [H'|[H'|(g2 & H4 & H5)]].
    + right; right. exists g'. injection H' as H' _. rewrite H'. split; [done|lia].
    + by right; left.
    + right; right. exists g2. split; [done|lia].
Qed.

(** No update of a group is lost.  A client reads a group at some version;
    whatever requests reach the store afterwards, a conditional request with
    that version passes the check exactly as long as neither the row of the group
    nor its membership has been written since. *)
Theorem group_version_is_exact issuer ops t p g g' :
  Forall (fun op => ~ creates p op) ops ->
  row_of t p = Some g ->
  let t' := fold_left (run_group issuer) ops t in
  row_of t' p = Some g' ->
  (_assert_version g' (Some (group_etag (revision g))) = Ok tt <-> standing t' p = standing t p) /\
  (standing t' p <> standing t p -> _assert_version g' (Some (group_etag (revision g))) = Err version_mismatch).
Proof.
  intros Hops Hg t' Hg'. unfold _assert_version. pose proof (etag_matches (revision g') (revision g)) as Hm.
  destruct (group_history issuer ops t p g Hops Hg) as [H|[H|(g2 & H1 & H2)]].
  - assert (g' = g) as -> by (injection H as H _; unfold t' in Hg'; congruence). rewrite (proj2 Hm) by done. split; [done|]. by intros [].
  - unfold t' in Hg'. congruence.
  - assert (g2 = g') as -> by (unfold t' in Hg'; congruence). destruct (matches_version _ _).
    + assert (revision g' = revision g) by (by apply Hm). lia.
    + split; [|done]. split; [done|]. intros H. exfalso. unfold standing in H. injection H as H _. unfold t' in H. rewrite H1, Hg in H. injection H as ->. lia.
Qed.

(** ** The filter every client sends *)

Lemma smap_take f n s : Py.smap f (Py.take n s) = Py.take n (Py.smap f s).
Proof. revert s. induction n as [|n IH]; intros [|a s]; cbn; [done..|]. by rewrite IH. Qed.
Lemma smap_drop f n s : Py.smap f (Py.drop n s) = Py.drop n (Py.smap f s).
Proof. revert s. induction n as [|n IH]; intros [|a s]; cbn; [done..|]. by apply IH. Qed.

Lemma uuid_is_lower s p : Uuid.parse s = Some p -> Py.lower p = p.
Proof.
  unfold Uuid.parse. set (hex := Py.lower _). destruct (_ && _); [|done]. intros [= <-].
  assert (forall n m, Py.lower (Py.slice hex n m) = Py.slice hex n m) as Hs.
  { intros n m. unfold Py.lower, Py.slice. rewrite smap_take, smap_drop. fold (Py.lower hex). unfold hex. by rewrite Py.lower_idem. }
  cbn [Py.join]. rewrite !Py.lower_app, !Hs. reflexivity.
Qed.

Lemma select_from_spec predicate (rows : list (string * string)) k done_rows : length done_rows = k ->
  omap (fun i => fst <$> (done_rows ++ rows) !! i) (ScimFilter.select_from predicate k (projected_member <$> rows)) =
  fst <$> List.filter (fun m => ScimFilter.member_matches predicate (projected_member m)) rows.
Proof.
  revert k done_rows. induction rows as [|m rows IH]; intros k l Hl; [done|]. rewrite fmap_cons. cbn [ScimFilter.select_from List.filter].
  specialize (IH (S k) (l ++ [m])). rewrite <-app_assoc in IH. cbn in IH. rewrite length_app in IH. specialize (IH ltac:(cbn; lia)).
  destruct (ScimFilter.member_matches predicate (projected_member m)); [|exact IH].
  cbn [omap list_omap]. rewrite (list_lookup_middle l rows m k) by done. cbn. by rewrite IH.
Qed.

Lemma evaluated_spec t g predicate :
  evaluated t g predicate = fst <$> List.filter (fun m => ScimFilter.member_matches predicate (projected_member m)) (_members t g).
Proof. unfold evaluated, ScimFilter.select_members. exact (select_from_spec predicate (_members t g) 0 [] eq_refl). Qed.

Lemma small_members t g p : (_member_count t g <= MAX_MEMBERS_INLINE)%nat -> consistent t ->
  (exists d, (p, d) ∈ _members t g) <-> is_member (members t) g p = true.
Proof.
  intros Hn Hc. unfold _members. set (rows := omap _ (members t)).
  assert (length (Sort.sort by_addition rows) <= MAX_MEMBERS_INLINE)%nat as Hl.
  { rewrite Sort.sort_Permutation. etransitivity; [|exact Hn]. unfold rows, _member_count. clear.
    induction (members t) as [|m l IH]; [done|]. cbn. destruct (of_group g m); cbn; [|done]. destruct (find_person _ _); cbn; lia. }
  rewrite take_ge by done. rewrite is_member_spec. split.
  - intros (d & ((tm & p' & d') & [= <- <-] & Hx)%list_elem_of_fmap). rewrite Sort.elem_of_sort in Hx.
    apply list_elem_of_omap in Hx as (m & Hm & Hx). destruct (of_group g m) eqn:Eg; [|done]. destruct (find_person _ _); [|done].
    cbn in Hx. injection Hx as _ <- _. exists m. split; [done|]. apply String.eqb_eq in Eg. unfold pair_of. congruence.
  - intros (m & Hm & [= Hg Hp]). pose proof (c_people t Hc m Hm) as He. unfold exists_person in He.
    destruct (find_person (registry t) (gm_person m)) as [row|] eqn:Ef; [|done].
    exists (default (edu_person_unique_id row) (filled (display_name row))). apply list_elem_of_fmap.
    exists (added_at m, (p, default (edu_person_unique_id row) (filled (display_name row)))). split; [done|].
    rewrite Sort.elem_of_sort. apply list_elem_of_omap. exists m. split; [done|]. unfold of_group. rewrite Hg, String.eqb_refl, Ef. cbn. by rewrite Hp.
Qed.

(** [value eq] a canonical identifier holds of the member it names, and of no other. *)
Lemma value_filter_matches path v x :
  Py.lower (ScimFilter.attribute path) = "value" -> ScimFilter.sub_attribute path = None -> ScimFilter.urn path = None ->
  ScimFilter.member_matches (ScimFilter.Comparison path ScimFilter.EQ (JStr v)) (projected_member x) =
    String.eqb (Py.lower x.1) (Py.lower v).
Proof.
  intros Ha Hs Hu. destruct x as [p d]. unfold projected_member. cbn -[Py.lower]. unfold ScimFilter._compare, ScimFilter._read. rewrite Hu.
  unfold ScimFilter.read_in. rewrite Hs.
  assert (ScimFilter._get_insensitive [("value", JStr p); ("display", JStr d); ("type", JStr "User")] (ScimFilter.attribute path) = JStr p) as ->
    ; [|done].
  unfold ScimFilter._get_insensitive. cbn [Json.lookup].
  destruct (String.eqb_spec (ScimFilter.attribute path) "value") as [_|_]; [done|].
  destruct (String.eqb_spec (ScimFilter.attribute path) "display") as [E|_]; [by rewrite E in Ha|].
  destruct (String.eqb_spec (ScimFilter.attribute path) "type") as [E|_]; [by rewrite E in Ha|].
  cbn [ScimFilter.find_insensitive]. by rewrite Ha.
Qed.

(** The removal answered without a read is the evaluated one.  For the
    filter [value eq "<id>"], in any case and with a canonical identifier, the
    rows deleted without reading the membership are exactly the rows that
    evaluating the filter over the projected membership selects. *)
Theorem direct_removal_is_evaluated t g path v :
  consistent t -> (_member_count t g <= MAX_MEMBERS_INLINE)%nat ->
  Py.lower (ScimFilter.attribute path) = "value" -> ScimFilter.sub_attribute path = None -> ScimFilter.urn path = None ->
  Uuid.parse v = Some v -> (forall m, m ∈ members t -> Uuid.parse (gm_person m) = Some (gm_person m)) ->
  let predicate := ScimFilter.Comparison path ScimFilter.EQ (JStr v) in
  _selected t g predicate = Ok [v] /\
  _remove_members g [v] t = _remove_members g (evaluated t g predicate) t.
Proof.
  intros Hc Hn Ha Hs Hu Hv Hids predicate. split.
  { unfold _selected, member_target, predicate. rewrite Ha, Hs. cbn. by rewrite Hv. }
  unfold _remove_members. f_equal. apply List.filter_ext_in. intros m Hm%list_elem_of_In. f_equal.
  destruct (of_group g m) eqn:Eg; [|done]. cbn [andb]. apply eq_true_iff_eq. rewrite !existsb_elem, evaluated_spec.
  assert (forall x, ScimFilter.member_matches predicate (projected_member x) = String.eqb (Py.lower x.1) v) as Hmatch.
  { intros x. unfold predicate. by rewrite value_filter_matches, (uuid_is_lower v v Hv). }
  split.
  - intros (q & ->%list_elem_of_singleton & Hq%String.eqb_eq). exists v. split; [|by apply String.eqb_eq].
    assert (is_member (members t) g v = true) as Hm'.
    { apply is_member_spec. exists m. split; [done|]. apply String.eqb_eq in Eg. unfold pair_of. congruence. }
    destruct (proj2 (small_members t g v Hn Hc) Hm') as [d Hd].
    apply list_elem_of_fmap. exists (v, d). split; [done|]. apply list_elem_of_In, List.filter_In. split; [by apply list_elem_of_In|].
    rewrite Hmatch. cbn [fst]. by apply String.eqb_eq, (uuid_is_lower v).
  - intros (q & ((p & d) & -> & Hq)%list_elem_of_fmap & Hqp%String.eqb_eq). apply list_elem_of_In, List.filter_In in Hq as [_ Hq].
    rewrite Hmatch in Hq. apply String.eqb_eq in Hq. cbn [fst] in Hq, Hqp. exists v. split; [constructor|]. apply String.eqb_eq.
    rewrite Hqp, <-Hq. symmetry. rewrite <-Hqp. apply (uuid_is_lower (gm_person m)). by apply Hids.
Qed.

(** *** What a membership operation means

    Read off RFC 7643 and 7644, without the store's own reading of either the
    value or the filter. *)

(** The people a value names: a member is a string, or an object with the string
    under [value]; a value is a member or an array of them. *)
Definition is_entry_for (entry : json) (p : string) : Prop :=
  exists raw, Uuid.parse raw = Some p /\
    (entry = JStr raw \/ exists m, entry = JObj m /\ Json.lookup m "value" = Some (JStr raw)).
Definition names (value : json) (p : string) : Prop :=
  match value with
  | JArr l => exists entry, entry ∈ l /\ is_entry_for entry p
  | JObj m => is_entry_for value p
  | _ => False
  end.

(** The filter holds of the member as a client sees it. *)
Definition selects (t : tables) (predicate : ScimFilter.Node) (p : string) : Prop :=
  exists row, find_person (registry t) p = Some row /\
    ScimFilter.matches predicate
      [("value", JStr p); ("display", JStr (default (edu_person_unique_id row) (filled (display_name row)))); ("type", JStr "User")] = true.

(** The operation has the path [members] or [members[predicate]], of the group's own
    schema and down to no sub-attribute, and adds only where there is no filter. *)
Definition about_members (o : ScimPatch.Operation) (predicate : option ScimFilter.Node) : Prop :=
  (exists p, ScimPatch.path o = Some p /\ Py.lower (ScimFilter.attribute (ScimFilter.pp_path p)) = "members" /\
     ScimFilter.urn (ScimFilter.pp_path p) = None /\ ScimFilter.sub_attribute (ScimFilter.pp_path p) = None /\
     ScimFilter.pp_sub_attribute p = None /\ ScimFilter.pp_predicate p = predicate) /\
  (ScimPatch.op o = ScimPatch.ADD -> predicate = None).

(** A filter by identifier alone spells it canonically and names no schema. *)
Definition plainly_named (predicate : ScimFilter.Node) : Prop :=
  forall path v p, predicate = ScimFilter.Comparison path ScimFilter.EQ (JStr v) -> Uuid.parse v = Some p ->
    Py.lower v = p /\ ScimFilter.urn path = None /\ ScimFilter.sub_attribute path <> Some "".

Definition means (t : tables) (g : string) (o : ScimPatch.Operation) (predicate : option ScimFilter.Node) (p : string) : Prop :=
  match ScimPatch.op o, predicate with
  | ScimPatch.ADD, None => p ∈ membership t g \/ names (ScimPatch.value o) p
  | ScimPatch.REPLACE, None => names (ScimPatch.value o) p
  | ScimPatch.REMOVE, None => False
  | ScimPatch.REMOVE, Some f => p ∈ membership t g /\ ~ selects t f p
  | ScimPatch.ADD, Some _ | ScimPatch.REPLACE, Some _ => False
  end.

Lemma elem_first_places l p : p ∈ first_places l <-> p ∈ l.
Proof.
  induction l as [|x l IH]; [done|]. cbn [first_places]. rewrite !elem_of_cons, list_elem_of_In, filter_In, <-list_elem_of_In, IH.
  destruct (String.eqb_spec x p) as [->|]; naive_solver.
Qed.

Lemma read_members_spec l ps p : read_members l = Ok ps -> p ∈ ps <-> exists entry, entry ∈ l /\ is_entry_for entry p.
Proof.
  revert ps. induction l as [|entry l IH]; intros ps; cbn [read_members].
  { intros [= <-]. set_solver. }
  destruct (match entry with JObj m => _ | _ => _ end) as [| | | |raw| | |] eqn:Ee; try done.
  destruct (Uuid.parse raw) as [q|] eqn:Eq; [|done]. intros (qs & Hqs & [= <-])%rbind_ok. rewrite elem_of_cons, (IH qs Hqs).
  assert (p = q <-> is_entry_for entry p) as ->; [|set_solver]. unfold is_entry_for. split.
  - intros ->. exists raw. split; [done|]. destruct entry as [| | | |s| | |m]; try done; [left; congruence|]. right. exists m. split; [done|].
    unfold Json.get in Ee. destruct (Json.lookup m "value"); cbn in Ee; [by rewrite Ee|done].
  - intros (raw' & Hp & [->|(m & -> & Hm)]); [congruence|]. unfold Json.get in Ee. rewrite Hm in Ee. cbn in Ee. congruence.
Qed.

Lemma member_ids_spec value ids p : member_ids value = Ok ids -> p ∈ ids <-> names value p.
Proof.
  unfold member_ids, unique_members, names. destruct value as [| | | | | |l|m]; try done; [by intros [= <-]; set_solver|..].
  all: intros (ps & Hps & [= <-])%rbind_ok; rewrite elem_first_places, (read_members_spec _ _ _ Hps); set_solver.
Qed.

Lemma member_display t g p d row : (p, d) ∈ _members t g -> find_person (registry t) p = Some row ->
  d = default (edu_person_unique_id row) (filled (display_name row)).
Proof.
  unfold _members. intros ((tm & x) & E & Hin)%list_elem_of_fmap Hrow. cbn in E. subst x.
  apply elem_of_take in Hin as (i & Hi & _). apply list_elem_of_lookup_2 in Hi. rewrite Sort.elem_of_sort in Hi.
  apply list_elem_of_omap in Hi as (m & _ & Hm). destruct (of_group g m); [|done].
  destruct (find_person _ (gm_person m)) as [row'|] eqn:Ef; [|done]. cbn in Hm. injection Hm as _ <- <-. congruence.
Qed.

(** The rows the store picks for removal are the members the filter selects. *)
Lemma selected_spec t g predicate ids p :
  consistent t -> (forall m, m ∈ members t -> Uuid.parse (gm_person m) = Some (gm_person m)) -> plainly_named predicate ->
  _selected t g predicate = Ok ids -> p ∈ membership t g -> p ∈ ids <-> selects t predicate p.
Proof.
  intros Hc Hids Hpl Hsel Hp.
  assert (exists m, m ∈ members t /\ of_group g m = true /\ gm_person m = p) as (m & Hm & Hg & Em).
  { unfold membership in Hp. apply elem_of_list_to_set, list_elem_of_fmap in Hp as (m & -> & [Hm Hg]%list_elem_of_In%List.filter_In).
    exists m. by rewrite list_elem_of_In. }
  pose proof (c_people t Hc m Hm) as He. unfold exists_person in He. rewrite Em in He.
  destruct (find_person (registry t) p) as [row|] eqn:Ef; [|done]. clear He.
  set (d := default (edu_person_unique_id row) (filled (display_name row))).
  assert (selects t predicate p <-> ScimFilter.member_matches predicate (projected_member (p, d)) = true) as ->.
  { unfold selects. rewrite Ef. split; [by intros (r & [= <-] & ?)|by exists row]. }
  unfold _selected in Hsel. destruct (member_target predicate) as [q|] eqn:Et.
  - injection Hsel as <-. rewrite list_elem_of_singleton.
    destruct predicate as [path [] [| | | |v| | |]| | | | |]; try done. cbn in Et.
    destruct (String.eqb_spec (Py.lower (ScimFilter.attribute path)) "value") as [Ha|]; [|done]. cbn in Et.
    destruct (filled (ScimFilter.sub_attribute path)) eqn:Es; [done|].
    destruct (Hpl path v q eq_refl Et) as (Hv & Hu & Hsub).
    assert (ScimFilter.sub_attribute path = None) as Hs.
    { destruct (ScimFilter.sub_attribute path) as [[|a sub]|]; [done..|done]. }
    rewrite value_filter_matches by done. rewrite Hv, String.eqb_eq. cbn [fst].
    by rewrite <-Em, (uuid_is_lower _ _ (Hids m Hm)).
  - destruct (Nat.ltb_spec MAX_MEMBERS_INLINE (_member_count t g)) as [|Hn]; [done|]. injection Hsel as <-.
    rewrite evaluated_spec, list_elem_of_fmap. split.
    + intros ([p' d'] & -> & [Hin Hmt]%list_elem_of_In%List.filter_In). apply list_elem_of_In in Hin. cbn [fst] in *.
      by rewrite (member_display _ _ _ _ _ Hin Ef) in Hmt.
    + intros Hmt. assert (is_member (members t) g p = true) as Hmem.
      { apply is_member_spec. exists m. split; [done|]. apply String.eqb_eq in Hg. unfold pair_of. congruence. }
      destruct (proj2 (small_members t g p Hn Hc) Hmem) as [d' Hd']. exists (p, d'). split; [done|].
      apply list_elem_of_In, List.filter_In. split; [by apply list_elem_of_In|].
      by rewrite (member_display _ _ _ _ _ Hd' Ef).
Qed.

(** C21: Row-level membership changes mean what the protocol says.  A membership
    operation of a PATCH that succeeds leaves as members exactly those that were
    there or that the value names (add), those the value names (replace), nobody
    (remove), or those the filter does not hold of (remove with a filter); and it
    leaves the memberships of every other group, the groups and the people as they
    were.  The operation is on [members] itself, in the group's own schema, and an
    identifier is spelled canonically. *)
Theorem patch_members_refines g o predicate now t t' :
  consistent t -> (forall m, m ∈ members t -> Uuid.parse (gm_person m) = Some (gm_person m)) ->
  about_members o predicate -> (forall f, predicate = Some f -> plainly_named f) ->
  _patch_members g o now t = Ok t' ->
  (forall p, p ∈ membership t' g <-> means t g o predicate p) /\
  (forall g', g' <> g -> membership t' g' = membership t g') /\
  groups t' = groups t /\ registry t' = registry t /\ sources t' = sources t.
Proof.
  intros Hc Hids ((path & Hpath & _ & _ & _ & _ & Hpred) & Hadd) Hplain [[] H]%patch_members_ok.
  split; [|split; [|done]]. 2: { intros g' Hg. unfold membership. by rewrite r_others0. }
  intros p. unfold means. rewrite Hpath in H. cbn in H. rewrite Hpred in H. destruct (ScimPatch.op o).
  - rewrite (Hadd eq_refl) in *. destruct H as (ids & Hv & ->).
    by rewrite elem_of_union, elem_of_list_to_set, (member_ids_spec _ _ _ Hv).
  - destruct predicate as [f|]; [|rewrite H; set_solver]. destruct H as (ids & Hs & ->).
    rewrite elem_of_difference, elem_of_list_to_set.
    split; (intros [Hp Hn]; split; [done|]); by rewrite (selected_spec _ _ _ _ _ Hc Hids (Hplain f eq_refl) Hs Hp) in *.
  - destruct predicate; [done|]. destruct H as (ids & Hv & ->).
    by rewrite elem_of_list_to_set, (member_ids_spec _ _ _ Hv).
Qed.

(** ** Witnesses *)

Definition demo_gid := "0b0b0b0b-0000-4000-8000-00000000000a".
Definition demo_entry (p : string) : json := JObj [("value", JStr p)].
Definition demo_document (name : string) (people : list string) : list (string * json) :=
  [("displayName", JStr name); ("members", JArr (demo_entry <$> people))].
Definition demo_members : tables := (create "https://idp.test" demo_gid (demo_document "staff" [demo_id]) 20 demo_user).1.
Definition demo_operations (ops : list json) : list ScimPatch.Operation :=
  match ScimPatch.parse_operations (JObj [("schemas", JArr [JStr ScimPatch.PATCH_OP_SCHEMA]); ("Operations", JArr ops)]) with
  | Ok l => l | Err _ => [] end.
Definition demo_rename : group_op := Replace demo_gid (demo_document "faculty" []) None 30.

(** An [add] or [replace] without a path that carries [members] is refused: the
    value read as members is the whole object. *)
Example pathless_members_are_refused :
  let op word := JObj [("op", JStr word); ("value", JObj [("members", JArr [demo_entry demo_id])])] in
  length (demo_operations [op "add"]) = 1%nat /\
  (patch "https://idp.test" demo_gid (demo_operations [op "add"]) None 30 demo_members).2 = Err bad_value /\
  (patch "https://idp.test" demo_gid (demo_operations [op "replace"]) None 30 demo_members).2 = Err (Bulk.Scim (Bulk.Refused 400 "invalidPath")).
Proof. vm_compute. done. Qed.

(** Removing one sub-attribute of the members removes the members. *)
Example removing_a_display_empties_the_group :
  let ops := demo_operations [JObj [("op", JStr "remove"); ("path", JStr "members.display")]] in
  length ops = 1%nat /\ length (members demo_members) = 1%nat /\
  members (patch "https://idp.test" demo_gid ops None 30 demo_members).1 = [].
Proof. vm_compute. done. Qed.

(** A document that does not mention the members leaves them alone. *)
Example rename_keeps_members :
  members (replace "https://idp.test" demo_gid [("displayName", JStr "faculty")] None 30 demo_members).1 = members demo_members.
Proof. vm_compute. done. Qed.

Lemma demo_members_shape :
  groups demo_members = [{| group_uuid := demo_gid; group_display_name := "staff"; group_external_id := None; revision := 1;
                            group_created_at := 20; group_updated_at := 20 |}] /\
  members demo_members = [{| gm_group := demo_gid; gm_person := demo_id; added_at := 20 |}] /\
  exists_person (registry demo_members) demo_id = true.
Proof. vm_compute. done. Qed.

Lemma demo_consistent : consistent demo_members.
Proof.
  destruct demo_members_shape as (Hg & Hm & Hp). split; rewrite ?Hg, ?Hm; cbn.
  - apply NoDup_singleton.
  - apply NoDup_singleton.
  - constructor.
  - apply NoDup_singleton.
  - intros m ->%list_elem_of_singleton. cbn. by apply list_elem_of_singleton.
  - intros m ->%list_elem_of_singleton. exact Hp.
Qed.

Definition demo_filter : ScimFilter.Node := ScimFilter.Comparison
  {| ScimFilter.attribute := "value"; ScimFilter.sub_attribute := None; ScimFilter.urn := None |} ScimFilter.EQ (JStr demo_id).
Definition demo_removal : ScimPatch.Operation := {|
  ScimPatch.op := ScimPatch.REMOVE;
  ScimPatch.path := Some {|
    ScimFilter.pp_path := {| ScimFilter.attribute := "members"; ScimFilter.sub_attribute := None; ScimFilter.urn := None |};
    ScimFilter.pp_predicate := Some demo_filter;
    ScimFilter.pp_sub_attribute := None |};
  ScimPatch.value := JNull |}.

Lemma patch_members_refines_witness :
  exists t', _patch_members demo_gid demo_removal 30 demo_members = Ok t' /\
    demo_id ∈ membership demo_members demo_gid /\ demo_id ∉ membership t' demo_gid.
Proof.
  destruct (_patch_members demo_gid demo_removal 30 demo_members) as [t'|e] eqn:E; [|vm_compute in E; discriminate].
  exists t'. split; [reflexivity|]. split; [vm_compute; done|]. intros Hin.
  refine (proj2 (proj1 (proj1 (patch_members_refines demo_gid demo_removal (Some demo_filter) 30 demo_members t' demo_consistent _ _ _ E) demo_id) Hin) _).
  - destruct demo_members_shape as (_ & -> & _). intros m ->%list_elem_of_singleton. vm_compute. reflexivity.
  - split; [|discriminate]. eexists. split; [reflexivity|]. split_and!; reflexivity.
  - intros f [= <-] path v p [= <- <-] Hp. split; [|by split]. vm_compute in Hp. injection Hp as <-. vm_compute. reflexivity.
  - vm_compute. eexists. split; reflexivity.
Defined.

Lemma groups_stay_consistent_witness :
  consistent (fold_left (run_group "https://idp.test") [demo_rename; Delete demo_gid None] demo_members).
Proof. apply (groups_stay_consistent "https://idp.test" [demo_rename; Delete demo_gid None] demo_members demo_consistent). Defined.

Lemma group_version_is_exact_witness :
  exists g g', row_of demo_members demo_gid = Some g /\
    row_of (fold_left (run_group "https://idp.test") [demo_rename] demo_members) demo_gid = Some g' /\
    _assert_version g' (Some (group_etag (revision g))) = Err version_mismatch.
Proof.
  destruct (row_of demo_members demo_gid) as [g|] eqn:E1; [|vm_compute in E1; discriminate].
  destruct (row_of (fold_left (run_group "https://idp.test") [demo_rename] demo_members) demo_gid) as [g'|] eqn:E2; [|vm_compute in E2; discriminate].
  exists g, g'. split; [reflexivity|]. split; [reflexivity|].
  refine (proj2 (group_version_is_exact "https://idp.test" [demo_rename] demo_members demo_gid g g' _ E1 E2) _).
  - repeat constructor. intros [].
  - intros H. apply (f_equal (fun s => length s.2)) in H. vm_compute in H. discriminate.
Defined.

Lemma direct_removal_is_evaluated_witness :
  let path := {| ScimFilter.attribute := "Value"; ScimFilter.sub_attribute := None; ScimFilter.urn := None |} in
  let predicate := ScimFilter.Comparison path ScimFilter.EQ (JStr demo_id) in
  _selected demo_members demo_gid predicate = Ok [demo_id] /\
  _remove_members demo_gid [demo_id] demo_members = _remove_members demo_gid (evaluated demo_members demo_gid predicate) demo_members.
Proof.
  apply (direct_removal_is_evaluated demo_members demo_gid {| ScimFilter.attribute := "Value"; ScimFilter.sub_attribute := None; ScimFilter.urn := None |} demo_id).
  - exact demo_consistent.
  - vm_compute. lia.
  - reflexivity.
  - reflexivity.
  - reflexivity.
  - vm_compute. reflexivity.
  - destruct demo_members_shape as (_ & -> & _). intros m ->%list_elem_of_singleton. vm_compute. reflexivity.
Defined.

End GroupStore.
