(* ===== verification/ScimApi.v ===== *)
(** * The SCIM endpoints

    [campusid/routes/scim.py] and [campusid/scim/auth.py]: the handlers of
    [/scim/v2/Users], [/Groups] and [/Bulk] over the stores of [Users] and
    [Groups], the runner of [Bulk], the bearer tokens of [Tokens] and the audit
    trail of [Site].  After its transaction the user store tells the lifecycle what
    changed: the hook is [transitioned] of the [Orchestrator], wired as [app.py]
    wires it, over the Redis server, the tables and the audit trail of the site; its
    downstream systems are parameters, as there.  The texts of
    errors, the parsing of query parameters to numbers and log lines are left
    out.  The discovery documents are in [ScimSchemas]. *)

From S2P Require Import Prelude PyStr Dict Json JsonText JsonLoads Errors Redis Lifecycle Registry AuditTrail AuditLog Grants Jwt Tokens.
From S2P Require Import Retry DeadLetters Orchestrator ScimFilter ScimPatch Bulk Users Groups Site OAuth.

Module ScimApi.

Definition SCIM_CONTENT_TYPE := "application/scim+json".
Definition SCOPE_READ := "scim:read".
Definition SCOPE_WRITE := "scim:write".
Definition ERROR_SCHEMA := "urn:ietf:params:scim:api:messages:2.0:Error".
Definition MAX_BULK_PAYLOAD : nat := 1024 * 1024.

(** The fields of a request these handlers read. *)
Record ScimRequest : Type := {
  q_authorization : option string;
  q_if_match : option string;
  q_if_none_match : option string;
  q_attributes : option string;
  q_excluded_attributes : option string;
  q_body : string;
}.

(** The query of a listing. *)
Record Listing : Type := {
  l_filter : option string;
  l_start_index : Z;
  l_count : Z;
  l_sort_by : option string;
  l_sort_order : string;
}.

(** ** Errors *)

Definition to_dict (e : Bulk.ScimError) : list (string * json) :=
  [("schemas", JArr [JStr ERROR_SCHEMA]); ("status", JStr (Py.str_of_Z (Bulk.status e)))] ++
  (if String.eqb (Bulk.scim_type e) "" then [] else [("scimType", JStr (Bulk.scim_type e))]).

Definition unauthorized : Bulk.ScimError := Bulk.Refused 401 "".
Definition forbidden : Bulk.ScimError := Bulk.Refused 403 "".
Definition invalid_filter : Bulk.ScimError := Bulk.Refused 400 "invalidFilter".
Definition payload_too_large : Bulk.ScimError := Bulk.Refused 413 "tooMany".

Definition quoted (s : string) : string := String JsonText.dquote (s +:+ String JsonText.dquote "").
Definition challenge (e : Bulk.ScimError) : list (string * string) :=
  if (Bulk.status e =? 401)%Z then [("WWW-Authenticate", "Bearer realm=" +:+ quoted "scim")] else [].

Definition scim_response (status : Z) (headers : list (string * string)) (j : json) : Site.Response :=
  Site.json_response status j (("Content-Type", SCIM_CONTENT_TYPE) :: headers).
Definition empty_response (status : Z) (headers : list (string * string)) : Site.Response :=
  {| Site.rs_status := status; Site.rs_headers := headers; Site.rs_content := Site.NoContent; Site.rs_cookies := [] |}.

Definition _error (e : Bulk.ScimError) : Site.Response :=
  scim_response (Bulk.status e) (("Cache-Control", "no-store") :: challenge e) (JObj (to_dict e)).

(** [exc.scim_type] of a [PatchError], as a [ScimError]. *)
Definition malformed (e : ScimPatch.PatchError) : Bulk.ScimError := Bulk.Refused 400 (Bulk.scim_type_of e).

(** ** Bodies *)

(** [meta[k]], which our projections always have as a text. *)
Definition text_item (m : list (string * json)) (k : string) : result Bulk.raised string :=
  match Json.lookup m k with
  | Some (JStr s) => Ok s
  | Some _ => Err (Bulk.Uncaught TypeError)
  | None => Err (Bulk.Uncaught KeyError)
  end.
Definition meta_of (resource : list (string * json)) : result Bulk.raised (list (string * json)) :=
  match Json.lookup resource "meta" with
  | Some (JObj m) => Ok m
  | Some _ => Err (Bulk.Uncaught TypeError)
  | None => Err (Bulk.Uncaught KeyError)
  end.

Definition _resource (body : list (string * json)) (status : Z) : result Bulk.raised Site.Response :=
  match Json.get body "meta" with
  | JObj m =>
      let* version := text_item m "version" in
      let* location := text_item m "location" in
      Ok (scim_response status [("Cache-Control", "no-store"); ("ETag", version); ("Location", location)] (JObj body))
  | _ => Ok (scim_response status [("Cache-Control", "no-store")] (JObj body))
  end.

Definition _body (q : ScimRequest) : result Bulk.raised (list (string * json)) :=
  match JsonLoads.loads (q_body q) with
  | Some (JObj m) => Ok m
  | _ => Err (Bulk.Scim (Bulk.Refused 400 "invalidSyntax"))
  end.
Definition _bulk_body (q : ScimRequest) : result Bulk.raised (list (string * json)) :=
  raise* Bulk.Scim payload_too_large when (MAX_BULK_PAYLOAD <? String.length (q_body q))%nat;
  _body q.

(** The parts of a comma-separated list, a set. *)
Definition _csv (value : option string) : list string :=
  match value with
  | None => []
  | Some v => List.filter (fun part => negb (String.eqb part "")) (Py.strip <$> Py.split_on "," v)
  end.
Definition named (k : string) (l : list string) : bool := existsb (String.eqb k) l.

Definition _matches_none (q : ScimRequest) (version : string) : bool :=
  match q_if_none_match q with
  | None | Some "" => false
  | Some header =>
      if String.eqb (Py.strip header) "*" then true
      else existsb (fun tag => String.eqb tag version || String.eqb tag (Py.removeprefix version "W/")) (Py.strip <$> Py.split_on "," header)
  end.

Definition _project (q : ScimRequest) (resource : list (string * json)) : list (string * json) :=
  let always := ["id"; "meta"; "schemas"] in
  let requested := _csv (q_attributes q) in
  let excluded := _csv (q_excluded_attributes q) in
  match requested, excluded with
  | _ :: _, _ => List.filter (fun kv => named kv.1 always || named kv.1 requested) resource
  | [], _ :: _ => List.filter (fun kv => named kv.1 always || negb (named kv.1 excluded)) resource
  | [], [] => resource
  end.

Definition _wants_members (q : ScimRequest) : bool :=
  named "members" (_csv (q_attributes q)) && negb (named "members" (_csv (q_excluded_attributes q))).

(** The response of the bulk runner. *)
Definition entry_json (e : Bulk.entry) : json := JObj (
  [("method", JStr (Bulk.en_method e)); ("status", JStr (Py.str_of_Z (Bulk.en_status e)))] ++
  match Bulk.en_bulk_id e with Some b => [("bulkId", JStr b)] | None => [] end ++
  match Bulk.en_location e with Some l => if String.eqb l "" then [] else [("location", JStr l)] | None => [] end ++
  match Bulk.en_error e with Some x => [("response", JObj (to_dict x))] | None => [] end).
Definition bulk_document (l : list Bulk.entry) : json :=
  JObj [("schemas", JArr [JStr Bulk.BULK_RESPONSE]); ("Operations", JArr (entry_json <$> l))].

(** ** The state *)

Section api.
Context {R : Type} `{RedisServer R} {Priv Pub : Type} `{RsaLib Priv Pub}.
(** The state of the downstream systems, and what their writes raise. *)
Context {T X : Type}.

(** The site, the tables of the SCIM stores, and what the lifecycle acts on beyond
    them: the downstream systems, the dead letters, the timings, and how many
    calls drew a row identifier or a jitter. *)
Record state : Type := {
  world : Site.world R;
  st_sources : list UserStore.ScimSourceRecord;
  st_groups : list UserStore.ScimGroup;
  st_members : list UserStore.ScimGroupMember;
  st_down : T;
  st_dead : list (DeadLetters.DeadLetter X);
  st_timings : list duration;
  st_serial : nat;
}.
Definition set_world (w : Site.world R) (s : state) : state :=
  {| world := w; st_sources := st_sources s; st_groups := st_groups s; st_members := st_members s;
     st_down := st_down s; st_dead := st_dead s; st_timings := st_timings s; st_serial := st_serial s |}.

(** The tables the stores work on, and the state with others in their place. *)
Definition tables_of (s : state) : UserStore.tables :=
  {| UserStore.registry := Site.w_identity (world s); UserStore.sources := st_sources s;
     UserStore.groups := st_groups s; UserStore.members := st_members s |}.
Definition set_tables (t : UserStore.tables) (s : state) : state :=
  {| world := Site.set_identity (UserStore.registry t) (world s); st_sources := UserStore.sources t;
     st_groups := UserStore.groups t; st_members := UserStore.members t;
     st_down := st_down s; st_dead := st_dead s; st_timings := st_timings s; st_serial := st_serial s |}.

Definition call (A : Type) : Type := state -> state * result Bulk.raised A.
Definition ret {A} (a : A) : call A := fun s => (s, Ok a).
Definition lift {A} (r : result Bulk.raised A) : call A := fun s => (s, r).
Definition andthen {A B} (m : call A) (k : A -> call B) : call B := fun s =>
  match m s with (s', Ok a) => k a s' | (s', Err e) => (s', Err e) end.

(** What happens in the rest of the site; its exceptions are caught by nobody here. *)
Definition on_site {A} (m : Site.M (R := R) A) : call A := fun s =>
  let '(w, r) := m (world s) in
  (set_world w s, match r with Ok a => Ok a | Err e => Err (Bulk.Uncaught e) end).

(** A transaction of a store, at the moment of the request. *)
Definition store {A} (f : moment -> UserStore.tables -> UserStore.tables * result Bulk.raised A) : call A := fun s =>
  let '(t, r) := f (Site.w_now (world s)) (tables_of s) in (set_tables t s, r).
Definition query {A} (f : moment -> UserStore.tables -> result Bulk.raised A) : call A := fun s =>
  (s, f (Site.w_now (world s)) (tables_of s)).

(** [try: m except PatchError ... except ScimError as exc: return h(exc)], and
    [k] after it. *)
Definition attempt {A} (patching : bool) (m : call A) (h : Bulk.ScimError -> call Site.Response) (k : A -> call Site.Response) : call Site.Response := fun s =>
  match m s with
  | (s', Ok a) => k a s'
  | (s', Err (Bulk.Scim e)) => h e s'
  | (s', Err (Bulk.Patch e)) => if patching then h (malformed e) s' else (s', Err (Bulk.Patch e))
  | (s', Err e) => (s', Err e)
  end.

Notation "'call*' x := m 'in' k" := (andthen m (fun x => k)) (at level 10, x name, m at level 200, k at level 200).
Notation "'call*' ' p := m 'in' k" := (andthen m (fun p => k)) (at level 10, p pattern, m at level 200, k at level 200).

Context (app : OAuth.App (Priv := Priv)).

(** ** The lifecycle hook *)

Definition today (now : moment) : Z := (now / (86400 * SECOND))%Z.

(** What the application's orchestrator is built from beyond the stores. *)
Record Wiring : Type := {
  wi_rules : Lifecycle.LifecycleRules;
  wi_targets : list (Orchestrator.ProvisioningTarget (T := T) (X := X));
  wi_transient : X -> bool;
  wi_uuid4 : nat -> string;
  wi_jitter : nat -> nat -> duration -> duration;
}.
Context (wiring : Wiring).

(** The identity registry, as the orchestrator asks it. *)
Definition registry_view (s : Registry.db) : Orchestrator.registry := {|
  Orchestrator.all_identifiers := fun p =>
    (fun row => {| Orchestrator.id_type := Registry.id_type row; Orchestrator.id_value := Registry.id_value row;
                   Orchestrator.id_primary := Registry.is_primary row; Orchestrator.id_released_at := Registry.released_at row |}) <$>
      Registry.identifiers_of s p true;
  Orchestrator.get := fun p =>
    (fun row => {| Orchestrator.given_name := Registry.given_name row; Orchestrator.surname := Registry.surname row;
                   Orchestrator.display_name := Registry.display_name row |}) <$> Registry.get s p |}.

(** [LifecycleOrchestrator(...)] in [lifespan] of [app.py]. *)
Definition lifecycle_orchestrator (s : Registry.db) : Orchestrator.LifecycleOrchestrator (T := T) (X := X) := {|
  Orchestrator._rules := wi_rules wiring; Orchestrator._targets := wi_targets wiring;
  Orchestrator._identity := Some (registry_view s); Orchestrator._has_queue := true;
  Orchestrator._transient := wi_transient wiring; Orchestrator._has_decisions := true; Orchestrator._has_metrics := true |}.
Definition environment : Orchestrator.environment := {|
  Orchestrator.sha256_hex := OAuth.sha256_hex app; Orchestrator.refresh_ttl := Grants.REFRESH_TTL;
  Orchestrator.calendar := today; Orchestrator.uuid4 := wi_uuid4 wiring; Orchestrator.jitter := wi_jitter wiring |}.

(** A record of the orchestrator in the trail of the site. *)
Definition event_type (t : Orchestrator.EventType) : Events.EventType :=
  match t with
  | Orchestrator.LIFECYCLE_JOINER => Events.LIFECYCLE_JOINER
  | Orchestrator.LIFECYCLE_MOVER => Events.LIFECYCLE_MOVER
  | Orchestrator.LIFECYCLE_LEAVER => Events.LIFECYCLE_LEAVER
  | Orchestrator.ENTITLEMENT_GRANTED => Events.ENTITLEMENT_GRANTED
  | Orchestrator.ENTITLEMENT_REVOKED => Events.ENTITLEMENT_REVOKED
  | Orchestrator.DEPROVISION_STEP => Events.DEPROVISION_STEP
  end.
Definition event_outcome (o : Orchestrator.Outcome) : Events.Outcome :=
  match o with Orchestrator.SUCCESS => Events.SUCCESS | Orchestrator.FAILURE => Events.FAILURE end.
Definition audited (w : Site.world R) (ev : Orchestrator.event) (now : moment) : AuditLog.context * AuditLog.entry :=
  ({| AuditLog.cx_correlation_id := Some (Site.w_correlation w); AuditLog.cx_impersonator := Site.w_impersonator w |},
   {| AuditLog.en_type := event_type (Orchestrator.ev_type ev); AuditLog.en_outcome := event_outcome (Orchestrator.ev_outcome ev);
      AuditLog.en_actor := None; AuditLog.en_subject := Some (Orchestrator.ev_subject ev); AuditLog.en_target := Orchestrator.ev_target ev;
      AuditLog.en_reason := None; AuditLog.en_source_ip := None; AuditLog.en_user_agent := None; AuditLog.en_session_id := None;
      AuditLog.en_detail := Orchestrator.ev_detail ev; AuditLog.en_now := now |}).

(** What the orchestrator acts on, and the state it leaves behind. *)
Definition lifecycle_world (s : state) : Orchestrator.world (R := R) (T := T) (X := X) := {|
  Orchestrator.w_clock := Site.w_now (world s); Orchestrator.w_redis := Site.w_redis (world s);
  Orchestrator.w_db := Site.w_lifecycle (world s); Orchestrator.w_down := st_down s; Orchestrator.w_dead := st_dead s;
  Orchestrator.w_audit := []; Orchestrator.w_recorded := []; Orchestrator.w_timings := st_timings s; Orchestrator.w_serial := st_serial s |}.
Definition after_lifecycle (o : Orchestrator.world (R := R) (T := T) (X := X)) (s : state) : state :=
  let w := world s in {|
  world := {|
    Site.w_now := Orchestrator.w_clock o; Site.w_redis := Orchestrator.w_redis o; Site.w_identity := Site.w_identity w;
    Site.w_lifecycle := Orchestrator.w_db o; Site.w_clients := Site.w_clients w; Site.w_federation := Site.w_federation w;
    Site.w_audit := Site.w_audit w ++ zip_with (audited w) (Orchestrator.w_audit o) (Orchestrator.w_recorded o);
    Site.w_correlation := Site.w_correlation w; Site.w_impersonator := Site.w_impersonator w; Site.w_draws := Site.w_draws w |};
  st_sources := st_sources s; st_groups := st_groups s; st_members := st_members s;
  st_down := Orchestrator.w_down o; st_dead := Orchestrator.w_dead o; st_timings := Orchestrator.w_timings o;
  st_serial := Orchestrator.w_serial o |}.

Definition exn_of (f : Orchestrator.failure (X := X)) : exn :=
  match f with
  | Orchestrator.Raised e => e
  | Orchestrator.Downstream _ => DownstreamError
  | Orchestrator.RetriesExhausted _ => RetriesExhausted
  end.

(** [on_transition=lifecycle_orchestrator.transitioned]. *)
Definition on_transition (t : UserStore.transition) : call unit := fun s =>
  let '(o, r) := Orchestrator.transitioned environment (lifecycle_orchestrator (Site.w_identity (world s)))
                   (UserStore.tr_person t) (UserStore.tr_before t) (UserStore.tr_after t) Lifecycle.SOURCE_SCIM None (lifecycle_world s) in
  (after_lifecycle o s, match r with Ok _ => Ok tt | Err f => Err (Bulk.Uncaught (exn_of f)) end).

(** [require_scope]: the claims of a verified token that carries the scope. *)
Definition require_scope (q : ScimRequest) (scope : string) : call Jwt.claim_set := fun s =>
  match Site.redis (Tokens.verify (Tokens.credentials (q_authorization q)) (OAuth.keys app) (OAuth.oidc_issuer app)
                      (Site.w_now (world s))) (world s) with
  | (w, Ok claims) =>
      (set_world w s, if bool_decide (scope ∈ Tokens.bt_scopes (OAuth.shown app) claims) then Ok claims else Err (Bulk.Scim forbidden))
  | (w, Err (OAuthError _ _)) => (set_world w s, Err (Bulk.Scim unauthorized))
  | (w, Err e) => (set_world w s, Err (Bulk.Uncaught e))
  end.

(** ** Audit records *)

Definition no_provenance : Site.provenance := {| Site.source_ip := None; Site.user_agent := None |}.

Definition _written (event : Events.EventType) (token : Jwt.claim_set) (target : string) (detail : list (string * json)) : call unit :=
  on_site (Site.bind (Site.lift (Tokens.bt_client_id (OAuth.shown app) token)) (fun client =>
    Site.audit event Events.SUCCESS
      {| Site.t_actor := Some client; Site.t_subject := None; Site.t_target := Some target; Site.t_reason := None;
         Site.t_session_id := None; Site.t_detail := detail |} no_provenance)).

Definition refusal_outcome (e : Bulk.ScimError) : Events.Outcome :=
  if (Bulk.status e =? 401)%Z || (Bulk.status e =? 403)%Z then Events.DENIED else Events.FAILURE.

Definition _refused (event : Events.EventType) (target : string) (e : Bulk.ScimError) : call unit :=
  on_site (Site.audit event (refusal_outcome e)
    {| Site.t_actor := None; Site.t_subject := None; Site.t_target := Some target;
       Site.t_reason := Some (if String.eqb (Bulk.scim_type e) "" then Py.str_of_Z (Bulk.status e) else Bulk.scim_type e);
       Site.t_session_id := None; Site.t_detail := [("status", JInt (Bulk.status e))] |} no_provenance).

(** The handler of a refusal: record it, answer with it. *)
Definition turn_away (event : Events.EventType) (target : string) (e : Bulk.ScimError) : call Site.Response :=
  call* _ := _refused event target e in ret (_error e).
Definition just_error (e : Bulk.ScimError) : call Site.Response := ret (_error e).

(** ** The stores, as calls *)

Definition fresh_person : call Registry.Fresh :=
  on_site (Site.bind (Site.fresh (OAuth.draw app)) (fun uuid => Site.bind (Site.fresh (OAuth.draw app)) (fun hex =>
    Site.ret {| Registry.fresh_uuid := uuid; Registry.fresh_hex := hex |}))).

Definition told (o : option UserStore.transition) : call unit :=
  match o with Some t => on_transition t | None => ret tt end.

Definition parse_user (document : json) : call Resources.ParsedUser :=
  query (fun now _ => Resources.from_scim (today now) document).

Definition user_create (parsed : Resources.ParsedUser) (raw : json) : call (list (string * json) * bool) :=
  call* fresh := fresh_person in
  call* '(resource, created, transition) := store (fun now =>
    UserStore.create (OAuth.sha256_hex app) (OAuth.float_repr app) (OAuth.isoformat app) (OAuth.oidc_issuer app) (OAuth.scope app)
      fresh parsed raw now (today now)) in
  call* _ := told transition in ret (resource, created).
Definition user_get (id : string) : call (list (string * json)) :=
  query (fun now => UserStore.get (OAuth.sha256_hex app) (OAuth.float_repr app) (OAuth.isoformat app) (OAuth.oidc_issuer app) id (today now)).
Definition user_replace (id : string) (parsed : Resources.ParsedUser) (raw : json) (if_match : option string) : call (list (string * json)) :=
  call* '(resource, transition) := store (fun now =>
    UserStore.replace (OAuth.sha256_hex app) (OAuth.float_repr app) (OAuth.isoformat app) (OAuth.oidc_issuer app) id parsed raw if_match now (today now)) in
  call* _ := told transition in ret resource.
Definition user_delete (id : string) (if_match : option string) : call unit :=
  call* transition := store (fun now => UserStore.soft_delete id if_match now (today now)) in told (Some transition).

Definition group_create (document : list (string * json)) : call (list (string * json) * bool) :=
  call* fresh := on_site (Site.fresh (OAuth.draw app)) in
  store (fun now => GroupStore.create (OAuth.oidc_issuer app) fresh document now).
Definition group_get (id : string) (wanted : bool) : call (list (string * json)) :=
  query (fun _ => GroupStore.get (OAuth.oidc_issuer app) id wanted).
Definition group_replace (id : string) (document : list (string * json)) (if_match : option string) : call (list (string * json)) :=
  store (fun now => GroupStore.replace (OAuth.oidc_issuer app) id document if_match now).
Definition group_patch (id : string) (operations : list ScimPatch.Operation) (if_match : option string) : call (list (string * json)) :=
  store (fun now => GroupStore.patch (OAuth.oidc_issuer app) id operations if_match now).
Definition group_delete (id : string) (if_match : option string) : call unit :=
  store (fun _ => GroupStore.delete id if_match).

Definition patch_error {A} (r : result ScimPatch.PatchError A) : result Bulk.raised A :=
  match r with Ok a => Ok a | Err e => Err (Bulk.Patch e) end.

(** ** Users *)

Definition created_event (created : bool) : Events.EventType :=
  if created then Events.PROVISIONING_CREATED else Events.PROVISIONING_UPDATED.
Definition created_status (created : bool) : Z := if created then 201 else 200.

Definition create_user (q : ScimRequest) : call Site.Response :=
  attempt false
    (call* token := require_scope q SCOPE_WRITE in
     call* raw := lift (_body q) in
     call* parsed := parse_user (JObj raw) in
     call* '(resource, created) := user_create parsed (JObj raw) in
     ret (token, resource, created))
    (turn_away Events.PROVISIONING_CREATED "User")
    (fun '(token, resource, created) =>
       call* id := lift (text_item resource "id") in
       call* _ := _written (created_event created) token ("User/" +:+ id) [("replayed", JBool (negb created))] in
       lift (_resource resource (created_status created))).

Definition read_filter (filter : option string) : result Bulk.raised (option ScimFilter.Node) :=
  match Resources.filled filter with
  | None => Ok None
  | Some text => match ScimFilter.parse_filter text with Ok node => Ok (Some node) | Err _ => Err (Bulk.Scim invalid_filter) end
  end.
Definition descending (l : Listing) : bool := String.eqb (Py.lower (l_sort_order l)) "descending".
Definition listing_response (page : UserStore.Page) : Site.Response :=
  scim_response 200 [("Cache-Control", "no-store")] (JObj (UserStore.to_list_response page)).

Definition list_users (q : ScimRequest) (l : Listing) : call Site.Response :=
  attempt false
    (call* _ := require_scope q SCOPE_READ in
     call* predicate := lift (read_filter (l_filter l)) in
     query (fun now => UserStore.search (OAuth.sha256_hex app) (OAuth.float_repr app) (OAuth.isoformat app) (OAuth.shown app) (OAuth.oidc_issuer app)
       predicate (l_start_index l) (l_count l) (l_sort_by l) (descending l) (today now)))
    just_error
    (fun page => ret (listing_response page)).

(** The end of both reads. *)
Definition read_response (q : ScimRequest) (resource : list (string * json)) : result Bulk.raised Site.Response :=
  let* m := meta_of resource in
  let* version := text_item m "version" in
  if _matches_none q version then Ok (empty_response 304 [("ETag", version); ("Cache-Control", "no-store")])
  else _resource (_project q resource) 200.

Definition get_user (q : ScimRequest) (resource_id : string) : call Site.Response :=
  attempt false (call* _ := require_scope q SCOPE_READ in user_get resource_id) just_error
    (fun resource => lift (read_response q resource)).

Definition replace_user (q : ScimRequest) (resource_id : string) : call Site.Response :=
  attempt false
    (call* token := require_scope q SCOPE_WRITE in
     call* raw := lift (_body q) in
     call* parsed := parse_user (JObj raw) in
     call* resource := user_replace resource_id parsed (JObj raw) (q_if_match q) in
     ret (token, resource))
    (turn_away Events.PROVISIONING_UPDATED ("User/" +:+ resource_id))
    (fun '(token, resource) =>
       call* _ := _written Events.PROVISIONING_UPDATED token ("User/" +:+ resource_id) [] in
       lift (_resource resource 200)).

Definition patch_user (q : ScimRequest) (resource_id : string) : call Site.Response :=
  attempt true
    (call* token := require_scope q SCOPE_WRITE in
     call* current := user_get resource_id in
     call* raw := lift (_body q) in
     call* operations := lift (patch_error (ScimPatch.parse_operations (JObj raw))) in
     call* patched := lift (patch_error (ScimPatch.apply_patch current operations)) in
     call* parsed := parse_user (JObj patched) in
     call* resource := user_replace resource_id parsed (JObj patched) (q_if_match q) in
     ret (token, resource))
    (turn_away Events.PROVISIONING_UPDATED ("User/" +:+ resource_id))
    (fun '(token, resource) =>
       call* _ := _written Events.PROVISIONING_UPDATED token ("User/" +:+ resource_id) [("patched", JBool true)] in
       lift (_resource resource 200)).

Definition deleted_response : Site.Response := empty_response 204 [("Cache-Control", "no-store")].

Definition delete_user (q : ScimRequest) (resource_id : string) : call Site.Response :=
  attempt false
    (call* token := require_scope q SCOPE_WRITE in
     call* _ := user_delete resource_id (q_if_match q) in
     ret token)
    (turn_away Events.PROVISIONING_DELETED ("User/" +:+ resource_id))
    (fun token => call* _ := _written Events.PROVISIONING_DELETED token ("User/" +:+ resource_id) [] in ret deleted_response).

(** ** Groups *)

Definition create_group (q : ScimRequest) : call Site.Response :=
  attempt false
    (call* token := require_scope q SCOPE_WRITE in
     call* raw := lift (_body q) in
     call* '(resource, created) := group_create raw in
     ret (token, resource, created))
    (turn_away Events.PROVISIONING_CREATED "Group")
    (fun '(token, resource, created) =>
       call* id := lift (text_item resource "id") in
       call* _ := _written (created_event created) token ("Group/" +:+ id) [("replayed", JBool (negb created))] in
       lift (_resource resource (created_status created))).

Definition list_groups (q : ScimRequest) (l : Listing) : call Site.Response :=
  attempt false
    (call* _ := require_scope q SCOPE_READ in
     call* predicate := lift (read_filter (l_filter l)) in
     query (fun _ => GroupStore.search (OAuth.shown app) (OAuth.oidc_issuer app) predicate (l_start_index l) (l_count l) (l_sort_by l)
       (descending l) (_wants_members q)))
    just_error
    (fun page => ret (listing_response page)).

Definition get_group (q : ScimRequest) (group_id : string) : call Site.Response :=
  attempt false (call* _ := require_scope q SCOPE_READ in group_get group_id (_wants_members q)) just_error
    (fun resource => lift (read_response q resource)).

Definition replace_group (q : ScimRequest) (group_id : string) : call Site.Response :=
  attempt false
    (call* token := require_scope q SCOPE_WRITE in
     call* raw := lift (_body q) in
     call* resource := group_replace group_id raw (q_if_match q) in
     ret (token, resource))
    (turn_away Events.PROVISIONING_UPDATED ("Group/" +:+ group_id))
    (fun '(token, resource) =>
       call* _ := _written Events.PROVISIONING_UPDATED token ("Group/" +:+ group_id) [] in
       lift (_resource resource 200)).

Definition patch_group (q : ScimRequest) (group_id : string) : call Site.Response :=
  attempt true
    (call* token := require_scope q SCOPE_WRITE in
     call* raw := lift (_body q) in
     call* operations := lift (patch_error (ScimPatch.parse_operations (JObj raw))) in
     call* resource := group_patch group_id operations (q_if_match q) in
     ret (token, operations, resource))
    (turn_away Events.PROVISIONING_UPDATED ("Group/" +:+ group_id))
    (fun '(token, operations, resource) =>
       call* _ := _written Events.PROVISIONING_UPDATED token ("Group/" +:+ group_id)
                    [("operations", JInt (Z.of_nat (length operations)))] in
       lift (_resource resource 200)).

Definition delete_group (q : ScimRequest) (group_id : string) : call Site.Response :=
  attempt false
    (call* token := require_scope q SCOPE_WRITE in
     call* _ := group_delete group_id (q_if_match q) in
     ret token)
    (turn_away Events.PROVISIONING_DELETED ("Group/" +:+ group_id))
    (fun token => call* _ := _written Events.PROVISIONING_DELETED token ("Group/" +:+ group_id) [] in ret deleted_response).

(** ** Bulk *)

(** What the runner reads of a resource. *)
Definition projected (resource : list (string * json)) : result Bulk.raised Bulk.projection :=
  let* id := text_item resource "id" in
  let* m := meta_of resource in
  let* location := text_item m "location" in
  Ok {| Bulk.pr_id := id; Bulk.pr_location := location |}.

(** [document.get] of something that is no dict. *)
Definition as_dict (j : json) : result Bulk.raised (list (string * json)) :=
  match j with JObj m => Ok m | _ => Err (Bulk.Uncaught AttributeError) end.

(** The stores as the runner calls them, for a request at [now]. *)
Definition bulk_stores (now : moment) : Bulk.stores (S := state) (P := Resources.ParsedUser) := {|
  Bulk.from_scim := Resources.from_scim (today now);
  Bulk.u_create := fun parsed raw =>
    call* '(resource, created) := user_create parsed raw in call* p := lift (projected resource) in ret (p, created);
  Bulk.u_replace := fun id parsed raw if_match =>
    call* resource := user_replace id parsed raw if_match in lift (projected resource);
  Bulk.u_get := user_get;
  Bulk.u_delete := user_delete;
  Bulk.g_create := fun document =>
    call* m := lift (as_dict document) in
    call* '(resource, created) := group_create m in call* p := lift (projected resource) in ret (p, created);
  Bulk.g_replace := fun id document if_match =>
    call* m := lift (as_dict document) in call* resource := group_replace id m if_match in lift (projected resource);
  Bulk.g_patch := fun id operations if_match =>
    call* resource := group_patch id operations if_match in lift (projected resource);
  Bulk.g_delete := group_delete |}.

Definition run_bulk (request : Bulk.BulkRequest) : call (list Bulk.entry) := fun s =>
  Bulk.run_bulk (bulk_stores (Site.w_now (world s))) (OAuth.oidc_issuer app) request s.

Definition failed (l : list Bulk.entry) : Z := Z.of_nat (length (List.filter (fun e => 400 <=? Bulk.en_status e)%Z l)).

Definition bulk (q : ScimRequest) : call Site.Response :=
  attempt false
    (call* token := require_scope q SCOPE_WRITE in
     call* body := lift (_bulk_body q) in
     call* parsed := lift (Bulk.scim (Bulk.parse_bulk (JObj body))) in
     call* response := run_bulk parsed in
     ret (token, parsed, response))
    (turn_away Events.PROVISIONING_UPDATED "Bulk")
    (fun '(token, parsed, response) =>
       call* _ := _written Events.PROVISIONING_UPDATED token "Bulk"
                    [("operations", JInt (Z.of_nat (length (Bulk.operations parsed)))); ("failed", JInt (failed response))] in
       ret (scim_response 200 [("Cache-Control", "no-store")] (bulk_document response))).

(** ** All of them *)

Inductive endpoint : Type :=
| CreateUser | ListUsers (l : Listing) | GetUser (id : string) | ReplaceUser (id : string) | PatchUser (id : string) | DeleteUser (id : string)
| CreateGroup | ListGroups (l : Listing) | GetGroup (id : string) | ReplaceGroup (id : string) | PatchGroup (id : string) | DeleteGroup (id : string)
| BulkRequests.

Definition handle (e : endpoint) (q : ScimRequest) : call Site.Response :=
  match e with
  | CreateUser => create_user q | ListUsers l => list_users q l | GetUser id => get_user q id
  | ReplaceUser id => replace_user q id | PatchUser id => patch_user q id | DeleteUser id => delete_user q id
  | CreateGroup => create_group q | ListGroups l => list_groups q l | GetGroup id => get_group q id
  | ReplaceGroup id => replace_group q id | PatchGroup id => patch_group q id | DeleteGroup id => delete_group q id
  | BulkRequests => bulk q
  end.

Definition needs (e : endpoint) : string :=
  match e with ListUsers _ | GetUser _ | ListGroups _ | GetGroup _ => SCOPE_READ | _ => SCOPE_WRITE end.


(** ** Rules for calls *)

(** Every run of a call relates its states by a preorder. *)
Section steps.
Context (Q : state -> state -> Prop) `{!PreOrder Q}.
Definition steps {A} (m : call A) : Prop := forall s, Q s (m s).1.

Lemma steps_ret {A} (a : A) : steps (ret a).
Proof. intros s. reflexivity. Qed.
Lemma steps_lift {A} (r : result Bulk.raised A) : steps (lift r).
Proof. intros s. reflexivity. Qed.
Lemma steps_query {A} (f : moment -> UserStore.tables -> result Bulk.raised A) : steps (query f).
Proof. intros s. reflexivity. Qed.
Lemma steps_andthen {A B} (m : call A) (k : A -> call B) : steps m -> (forall a, steps (k a)) -> steps (andthen m k).
Proof.
  intros Hm Hk s. specialize (Hm s). unfold andthen. destruct (m s) as [s1 [a|e]]; [|done]. etransitivity; [exact Hm|apply Hk].
Qed.
Lemma steps_attempt {A} p (m : call A) h k : steps m -> (forall e, steps (h e)) -> (forall a, steps (k a)) -> steps (attempt p m h k).
Proof.
  intros Hm Hh Hk s. specialize (Hm s). unfold attempt. destruct (m s) as [s1 [a|[e|e| |e]]]; cbn in Hm; [| |destruct p| |]; try done;
    (etransitivity; [exact Hm|]); [apply Hk|apply Hh|apply Hh].
Qed.
Lemma steps_bulk_andthen {A B} (m : call A) (k : A -> call B) : steps m -> (forall a, steps (k a)) -> steps (Bulk.andthen m k).
Proof. exact (steps_andthen m k). Qed.
Lemma steps_bulk_lift {A} (r : result Bulk.raised A) : steps (Bulk.lift r).
Proof. intros s. reflexivity. Qed.

(** The stores of a bulk run that step by [Q] make the whole run step by [Q]. *)
Record store_steps {P} (st : Bulk.stores (S := state) (P := P)) : Prop := {
  ss_create : forall p d, steps (Bulk.u_create st p d);
  ss_replace : forall id p d m, steps (Bulk.u_replace st id p d m);
  ss_get : forall id, steps (Bulk.u_get st id);
  ss_delete : forall id m, steps (Bulk.u_delete st id m);
  ss_gcreate : forall d, steps (Bulk.g_create st d);
  ss_greplace : forall id d m, steps (Bulk.g_replace st id d m);
  ss_gpatch : forall id ops m, steps (Bulk.g_patch st id ops m);
  ss_gdelete : forall id m, steps (Bulk.g_delete st id m);
}.

Ltac bulk_steps := repeat first [apply steps_bulk_lift | apply steps_bulk_andthen; [|intros ?] | case_match | eassumption | by eauto].

Lemma steps_one {P} (st : Bulk.stores (S := state) (P := P)) issuer o resolved : store_steps st -> steps (Bulk._one st issuer o resolved).
Proof.
  intros []. unfold Bulk._one. apply steps_bulk_andthen; [apply steps_bulk_lift|intros d]. apply steps_bulk_andthen; [apply steps_bulk_lift|intros id].
  apply steps_bulk_andthen; [|intros out; destruct out.1; apply steps_bulk_lift].
  destruct (String.eqb (Bulk.resource o) "Users"); [unfold Bulk._user|unfold Bulk._group]; bulk_steps.
Qed.

Lemma steps_run_bulk {P} (st : Bulk.stores (S := state) (P := P)) issuer request : store_steps st -> steps (Bulk.run_bulk st issuer request).
Proof.
  intros Hst. unfold Bulk.run_bulk. generalize (∅ : gmap string string) ([] : list Bulk.entry) 0%Z.
  induction (Bulk.operations request) as [|o ops IH]; intros resolved results errors s; cbn [Bulk.run_loop]; [reflexivity|].
  pose proof (steps_one st issuer o resolved Hst s) as H1. destruct (Bulk._one st issuer o resolved s) as [s1 [[e r']|[e|e| |e]]]; cbn in H1; try done.
  - destruct (match Bulk.fail_on_errors request with Some _ => _ | None => _ end); [done|]. etransitivity; [exact H1|apply IH].
  - destruct (match Bulk.fail_on_errors request with Some _ => _ | None => _ end); [done|]. etransitivity; [exact H1|apply IH].
Qed.
End steps.


(** ** The tables *)

(** What every request may do to the tables: no scoped name is reissued, and
    consistent group tables stay consistent. *)
Definition sound (t t' : UserStore.tables) : Prop :=
  UserStore.keeps_scoped (UserStore.registry t) (UserStore.registry t') /\ (GroupStore.consistent t -> GroupStore.consistent t').

Lemma sound_refl t : sound t t.
Proof. split; [by apply UserStore.scoped_refl|done]. Qed.
Lemma sound_trans t1 t2 t3 : sound t1 t2 -> sound t2 t3 -> sound t1 t3.
Proof. intros [A1 B1] [A2 B2]. split; [by eapply UserStore.scoped_trans|auto]. Qed.

Definition sound_step (s s' : state) : Prop := sound (tables_of s) (tables_of s').
#[local] Instance sound_step_preorder : PreOrder sound_step.
Proof. split; [intros s; apply sound_refl|intros s1 s2 s3; apply sound_trans]. Qed.

Lemma tables_of_set t s : tables_of (set_tables t s) = t.
Proof. by destruct t. Qed.

Lemma tables_of_world w s : Site.w_identity w = Site.w_identity (world s) -> tables_of (set_world w s) = tables_of s.
Proof. intros E. unfold tables_of. cbn. by rewrite E. Qed.

Lemma grows_consistent t t' : UserStore.grows t t' -> GroupStore.consistent t -> GroupStore.consistent t'.
Proof.
  intros (Hg & Hm & Hp) [A1 A2 A3 A4 A5 A6]. split; rewrite ?Hg, ?Hm; try done. intros m Hmm. by apply Hp, A6.
Qed.

Lemma run_scim_sound sha fr iso issuer own t op : sound t (UserStore.run_scim sha fr iso issuer own t op).
Proof. split; [apply UserStore.run_scim_keeps|eapply grows_consistent, UserStore.run_scim_grows]. Qed.
Lemma run_group_sound issuer t op : sound t (GroupStore.run_group issuer t op).
Proof.
  destruct (GroupStore.run_group_step issuer op t) as [H1 H2]. split; [|done]. apply UserStore.scoped_refl. by rewrite H2.
Qed.

Lemma steps_store {A} (f : moment -> UserStore.tables -> UserStore.tables * result Bulk.raised A) :
  (forall now t, sound t (f now t).1) -> steps sound_step (store f).
Proof.
  intros Hf s. unfold store. specialize (Hf (Site.w_now (world s)) (tables_of s)). destruct (f _ _) as [t r]. cbn in Hf |- *.
  unfold sound_step. by rewrite tables_of_set.
Qed.

Lemma steps_on_site {A} (m : Site.M (R := R) A) : Site.keeps Site.w_identity m -> steps sound_step (on_site m).
Proof.
  intros Hm s. unfold on_site. specialize (Hm (world s)). destruct (m (world s)) as [w r]. cbn in Hm |- *.
  unfold sound_step. rewrite tables_of_world by done. apply sound_refl.
Qed.

Lemma require_scope_tables q sc s : tables_of (require_scope q sc s).1 = tables_of s.
Proof.
  unfold require_scope. rewrite Site.redis_run. destruct (run _ _ _).2 as [c|[]]; apply tables_of_world; done.
Qed.

(** The hook changes no table of the stores. *)
Lemma on_transition_tables t s : tables_of (on_transition t s).1 = tables_of s.
Proof. unfold on_transition. by destruct (Orchestrator.transitioned _ _ _ _ _ _ _ _). Qed.

Lemma keeps_audit event outcome told p : Site.keeps Site.w_identity (Site.audit (R := R) event outcome told p).
Proof. done. Qed.
Lemma keeps_fresh (d : nat -> string) : Site.keeps Site.w_identity (Site.fresh (R := R) d).
Proof. done. Qed.

Lemma steps_require_scope q sc : steps sound_step (require_scope q sc).
Proof. intros s. unfold sound_step. rewrite require_scope_tables. apply sound_refl. Qed.
Lemma steps_written event token target detail : steps sound_step (_written event token target detail).
Proof. apply steps_on_site, Site.keeps_bind; [apply Site.keeps_lift|intros ?; apply keeps_audit]. Qed.
Lemma steps_turn_away event target e : steps sound_step (turn_away event target e).
Proof. apply steps_andthen; [apply sound_step_preorder|apply steps_on_site, keeps_audit|intros _; apply steps_ret, sound_step_preorder]. Qed.
Lemma steps_told o : steps sound_step (told o).
Proof.
  destruct o as [t|]; [|apply steps_ret, sound_step_preorder]. intros s. unfold sound_step. cbn [told].
  rewrite on_transition_tables. apply sound_refl.
Qed.
Lemma steps_fresh_person : steps sound_step fresh_person.
Proof. apply steps_on_site. do 2 (apply Site.keeps_bind; [apply keeps_fresh|intros ?]). apply Site.keeps_ret. Qed.

Ltac api_steps := repeat first
  [ apply steps_require_scope | apply steps_written | apply steps_turn_away | apply steps_told | apply steps_fresh_person
  | apply steps_ret, sound_step_preorder | apply steps_lift, sound_step_preorder | apply steps_query, sound_step_preorder
  | apply steps_andthen; [apply sound_step_preorder| |intros ?] | apply steps_attempt; [apply sound_step_preorder| |intros ?|intros ?]
  | case_match | eassumption ].

Lemma steps_user_create parsed raw : steps sound_step (user_create parsed raw).
Proof. unfold user_create. api_steps. apply steps_store. intros now t. apply (run_scim_sound _ _ _ _ _ t (UserStore.Create _ _ _ _ _)). Qed.
Lemma steps_user_replace id parsed raw m : steps sound_step (user_replace id parsed raw m).
Proof. unfold user_replace. api_steps. apply steps_store. intros now t. apply (run_scim_sound _ _ _ _ "" t (UserStore.Replace _ _ _ _ _ _)). Qed.
Lemma steps_user_delete id m : steps sound_step (user_delete id m).
Proof.
  unfold user_delete. api_steps. apply steps_store. intros now t.
  apply (run_scim_sound (OAuth.sha256_hex app) (OAuth.float_repr app) (OAuth.isoformat app) "" "" t (UserStore.Delete _ _ _ _)).
Qed.
Lemma steps_group_create d : steps sound_step (group_create d).
Proof.
  unfold group_create. apply steps_andthen; [apply sound_step_preorder|apply steps_on_site, keeps_fresh|intros f].
  apply steps_store. intros now t. apply (run_group_sound _ t (GroupStore.Create _ _ _)).
Qed.
Lemma steps_group_replace id d m : steps sound_step (group_replace id d m).
Proof. apply steps_store. intros now t. apply (run_group_sound _ t (GroupStore.Replace _ _ _ _)). Qed.
Lemma steps_group_patch id ops m : steps sound_step (group_patch id ops m).
Proof. apply steps_store. intros now t. apply (run_group_sound _ t (GroupStore.Patch _ _ _ _)). Qed.
Lemma steps_group_delete id m : steps sound_step (group_delete id m).
Proof. apply steps_store. intros now t. apply (run_group_sound "" t (GroupStore.Delete _ _)). Qed.

Ltac call_steps := repeat first
  [ apply steps_user_create | apply steps_user_replace | apply steps_user_delete | apply steps_group_create | apply steps_group_replace
  | apply steps_group_patch | apply steps_group_delete
  | apply steps_require_scope | apply steps_written | apply steps_turn_away
  | apply steps_ret, sound_step_preorder | apply steps_lift, sound_step_preorder | apply steps_query, sound_step_preorder
  | apply steps_andthen; [apply sound_step_preorder| |intros ?] | apply steps_attempt; [apply sound_step_preorder| |intros ?|intros ?]
  | case_match ].

Lemma bulk_stores_step now : store_steps sound_step (bulk_stores now).
Proof.
  split; cbn [Bulk.u_create Bulk.u_replace Bulk.u_get Bulk.u_delete Bulk.g_create Bulk.g_replace Bulk.g_patch Bulk.g_delete bulk_stores];
    intros; unfold user_get; call_steps.
Qed.

Lemma steps_handle e q : steps sound_step (handle e q).
Proof.
  destruct e; cbn [handle]; unfold create_user, list_users, get_user, replace_user, patch_user, delete_user, create_group, list_groups,
    get_group, replace_group, patch_group, delete_group, bulk, just_error, parse_user, user_get, group_get; call_steps.
  intros s. apply (steps_run_bulk sound_step), bulk_stores_step.
Qed.

(** Requests arrive one after another, each at its moment. *)
Definition at_moment (now : moment) (s : state) : state := set_world (Site.at_moment now (world s)) s.
Definition serve (s : state) (visit : moment * endpoint * ScimRequest) : state :=
  let '(now, e, q) := visit in (handle e q (at_moment now s)).1.

Lemma history_sound visits s : sound_step s (fold_left serve visits s).
Proof.
  revert s. induction visits as [|[[now e] q] visits IH]; intros s; cbn [fold_left]; [apply sound_refl|].
  eapply sound_trans; [|apply IH]. apply (steps_handle e q (at_moment now s)).
Qed.

(** C7: Whatever the SCIM interface is asked, no scoped name is reissued and the
    group tables stay consistent.  After any sequence of requests to any of its
    endpoints, bulk requests included and whatever token they carry, a principal
    name of the form [local@scope] that was issued belongs to the same person
    alone, and the constraints of the group tables hold if they held.  A [userName]
    without a scope is stored with no scope and is not covered: its row is not
    one the unique key compares. *)
Theorem api_never_reissues visits s v p :
  let t := tables_of s in let t' := tables_of (fold_left serve visits s) in
  UserStore.well_scoped (UserStore.registry t) ->
  (forall q q', Registry.issued (UserStore.registry t) Registry.ID_EPPN v q -> Registry.issued (UserStore.registry t) Registry.ID_EPPN v q' -> q = q') ->
  Registry._scope_of v <> None -> Registry.issued (UserStore.registry t) Registry.ID_EPPN v p ->
  Registry.issued (UserStore.registry t') Registry.ID_EPPN v p /\
  (forall q, Registry.issued (UserStore.registry t') Registry.ID_EPPN v q -> q = p) /\
  (GroupStore.consistent t -> GroupStore.consistent t').
Proof.
  intros t t' Hw Hu Hv Hp. destruct (history_sound visits s) as [[K1 K2] K3]. destruct (K2 Hw) as [_ K].
  split_and!; [by apply K1| |exact K3]. intros q Hq. destruct (K v q p Hv Hq (K1 _ _ _ Hp)) as [->|[H1 H2]]; [done|]. by apply Hu.
Qed.

(** ** Who may ask *)

Definition verified (q : ScimRequest) (s : state) : result exn Jwt.claim_set :=
  (Site.redis (Tokens.verify (Tokens.credentials (q_authorization q)) (OAuth.keys app) (OAuth.oidc_issuer app)
                (Site.w_now (world s))) (world s)).2.

(** The request carries a verified token of an unrevoked family with this scope. *)
Definition authorised (q : ScimRequest) (sc : string) (s : state) : Prop :=
  exists claims, verified q s = Ok claims /\ sc ∈ Tokens.bt_scopes (OAuth.shown app) claims.

Lemma require_scope_ok q sc s s1 claims : require_scope q sc s = (s1, Ok claims) ->
  verified q s = Ok claims /\ sc ∈ Tokens.bt_scopes (OAuth.shown app) claims.
Proof.
  unfold require_scope, verified. destruct (Site.redis _ _) as [w [c|[]]]; cbn; try done. case_bool_decide; [|done]. by intros [= _ <-].
Qed.

Lemma require_scope_refused q sc s : ~ authorised q sc s ->
  exists s1, tables_of s1 = tables_of s /\ Site.w_audit (world s1) = Site.w_audit (world s) /\
    ((exists e, (e = unauthorized \/ e = forbidden) /\ require_scope q sc s = (s1, Err (Bulk.Scim e))) \/
     (exists x, require_scope q sc s = (s1, Err (Bulk.Uncaught x)) /\ verified q s = Err x)).
Proof.
  intros Hn. pose proof (require_scope_tables q sc s) as Ht. unfold require_scope, verified, authorised in *.
  rewrite Site.redis_run in *. destruct (run _ _ _).2 as [c|x] eqn:E; cbn [snd] in *.
  - eexists. split; [exact Ht|]. split; [done|]. left. exists forbidden. split; [by right|]. rewrite bool_decide_eq_false_2; [done|].
    intros Hin. apply Hn. exists c. unfold verified. by rewrite Site.redis_run, E.
  - destruct x; (eexists; split; [exact Ht|]; split; [done|]);
      first [left; exists unauthorized; split; [by left|reflexivity] | right; eexists; split; reflexivity].
Qed.

(** A handler starts by asking for the scope it needs. *)
Definition guarded (q : ScimRequest) (sc : string) (m : call Site.Response) : Prop :=
  exists A p (body : Jwt.claim_set -> call A) h k,
    (h = just_error \/ exists event target, h = turn_away event target) /\
    forall s, m s = attempt p (andthen (require_scope q sc) body) h k s.

Lemma handle_guarded e q : guarded q (needs e) (handle e q).
Proof.
  destruct e; cbn [handle needs];
    (do 5 eexists; split; [|intros s; reflexivity]); first [by left | right; do 2 eexists; reflexivity].
Qed.

(** C18: Without the scope nothing is read or written.  A request whose bearer token
    does not verify, whose family was revoked, or that lacks the scope its endpoint
    needs leaves every table as it was and is answered with the bare 401 or 403;
    the only other outcome is the failure of the store that was asked whether the
    family was revoked. *)
Theorem api_needs_scope e q s s' out :
  handle e q s = (s', out) -> ~ authorised q (needs e) s ->
  tables_of s' = tables_of s /\
  match out with
  | Ok r => exists err, (err = unauthorized \/ err = forbidden) /\ r = _error err
  | Err x => exists failure, x = Bulk.Uncaught failure /\ verified q s = Err failure
  end.
Proof.
  intros E Hn. destruct (handle_guarded e q) as (A & p & body & h & k & Hh & Hm). rewrite Hm in E. unfold attempt, andthen in E.
  destruct (require_scope_refused q (needs e) s Hn) as (s1 & Ht & _ & [(err & He & Hr)|(x & Hr & Hv)]); rewrite Hr in E.
  - destruct Hh as [->|(event & target & ->)].
    + injection E as <- <-. split; [done|]. by exists err.
    + injection E as <- <-. split; [done|]. by exists err.
  - injection E as <- <-. split; [done|]. by exists x.
Qed.

(** ** What is recorded *)

(** The records of the lifecycle. *)
Definition of_lifecycle (e : AuditLog.context * AuditLog.entry) : Prop :=
  AuditLog.en_type e.2 ∈ [Events.LIFECYCLE_JOINER; Events.LIFECYCLE_MOVER; Events.LIFECYCLE_LEAVER;
    Events.ENTITLEMENT_GRANTED; Events.ENTITLEMENT_REVOKED; Events.DEPROVISION_STEP].
Definition same_audit (s s' : state) : Prop := Site.w_audit (world s') = Site.w_audit (world s).
Definition grew (s s' : state) : Prop := exists evs, Site.w_audit (world s') = Site.w_audit (world s) ++ evs /\ Forall of_lifecycle evs.
(** Reads, and work outside the tables. *)
Definition quiet {A} (m : call A) : Prop := forall s, same_audit s (m s).1 /\ tables_of (m s).1 = tables_of s.
(** A change that is undone when it is refused, and whose consequences are those of
    the lifecycle. *)
Definition clean {A} (m : call A) : Prop := forall s,
  match (m s).2 with
  | Err (Bulk.Scim _ | Bulk.Patch _) => same_audit s (m s).1 /\ tables_of (m s).1 = tables_of s
  | _ => grew s (m s).1
  end.
(** What comes after the change is refused by nobody. *)
Definition settled {A} (m : call A) : Prop := forall s, grew s (m s).1 /\
  match (m s).2 with Err (Bulk.Scim _ | Bulk.Patch _) => False | _ => True end.
Definition yields {A} (m : call A) (P : A -> Prop) : Prop := forall s s' a, m s = (s', Ok a) -> P a.

Lemma same_grew s s' : same_audit s s' -> grew s s'.
Proof. intros E. exists []. by rewrite app_nil_r. Qed.
Lemma grew_trans s1 s2 s3 : grew s1 s2 -> grew s2 s3 -> grew s1 s3.
Proof. intros (e1 & H1 & F1) (e2 & H2 & F2). exists (e1 ++ e2). rewrite H2, H1, app_assoc. split; [done|by apply Forall_app]. Qed.
Lemma grew_after s1 s2 s3 : same_audit s1 s2 -> grew s2 s3 -> grew s1 s3.
Proof. intros H1 H2. eapply grew_trans; [by apply same_grew|done]. Qed.

Lemma quiet_clean {A} (m : call A) : quiet m -> clean m.
Proof. intros Hm s. destruct (Hm s) as [H1 H2]. apply same_grew in H1 as H3. by destruct (m s).2 as [|[]]. Qed.
Lemma settled_clean {A} (m : call A) : settled m -> clean m.
Proof. intros Hm s. destruct (Hm s) as [H1 H2]. by destruct (m s).2 as [|[]]. Qed.
Lemma quiet_ret {A} (a : A) : quiet (ret a).
Proof. by intros s. Qed.
Lemma settled_ret {A} (a : A) : settled (ret a).
Proof. intros s. split; [by apply same_grew|done]. Qed.
Lemma quiet_lift {A} (r : result Bulk.raised A) : quiet (lift r).
Proof. by intros s. Qed.
Lemma quiet_query {A} (f : moment -> UserStore.tables -> result Bulk.raised A) : quiet (query f).
Proof. by intros s. Qed.
Lemma clean_andthen {A B} (m : call A) (k : A -> call B) : quiet m -> (forall a, clean (k a)) -> clean (andthen m k).
Proof.
  intros Hm Hk s. destruct (Hm s) as [H1 H2]. unfold andthen. destruct (m s) as [s1 [a|e]]; cbn in *.
  2: { apply same_grew in H1 as H3. by destruct e. }
  specialize (Hk a s1). destruct (k a s1) as [s2 [b|[e|e| |e]]]; cbn in *; try by eapply grew_after.
  all: unfold same_audit in *; destruct Hk; split; congruence.
Qed.
Lemma clean_settled {A B} (m : call A) (k : A -> call B) : clean m -> (forall a, settled (k a)) -> clean (andthen m k).
Proof.
  intros Hm Hk s. specialize (Hm s). unfold andthen. destruct (m s) as [s1 [a|e]]; cbn in *; [|done].
  destruct (Hk a s1) as [H3 H4]. destruct (k a s1) as [s2 [b|[e|e| |e]]]; cbn in *; try done; by eapply grew_trans.
Qed.
Lemma settled_andthen {A B} (m : call A) (k : A -> call B) : settled m -> (forall a, settled (k a)) -> settled (andthen m k).
Proof.
  intros Hm Hk s. destruct (Hm s) as [H1 H2]. unfold andthen. destruct (m s) as [s1 [a|e]]; cbn in *; [|done].
  destruct (Hk a s1) as [H3 H4]. split; [by eapply grew_trans|done].
Qed.
Lemma clean_store {A} (f : moment -> UserStore.tables -> UserStore.tables * result Bulk.raised A) :
  (forall now t t' e, f now t = (t', Err e) -> t' = t) -> clean (store f).
Proof.
  intros Hf s. unfold store. destruct (f (Site.w_now (world s)) (tables_of s)) as [t [a|e]] eqn:E; cbn; [by apply same_grew|].
  apply Hf in E as ->. destruct e; try (by apply same_grew); by rewrite tables_of_set.
Qed.
Lemma quiet_on_site {A} (m : Site.M (R := R) A) : Site.keeps Site.w_audit m -> Site.keeps Site.w_identity m -> quiet (on_site m).
Proof.
  intros Hm Hi s. unfold on_site. specialize (Hm (world s)). specialize (Hi (world s)). destruct (m (world s)) as [w r]. cbn in *.
  split; [done|]. by apply tables_of_world.
Qed.
Lemma quiet_require_scope q sc : quiet (require_scope q sc).
Proof.
  intros s. split; [|apply require_scope_tables]. unfold require_scope. rewrite Site.redis_run. by destruct (run _ _ _).2 as [c|[]].
Qed.

Lemma yields_return {A} (a : A) (P : A -> Prop) : P a -> yields (ret a) P.
Proof. by intros Ha s s' b [= _ <-]. Qed.
Lemma yields_andthen {A B} (m : call A) (k : A -> call B) (P : B -> Prop) : (forall a, yields (k a) P) -> yields (andthen m k) P.
Proof. intros Hk s s' b. unfold andthen. destruct (m s) as [s1 [a|e]]; [|done]. apply Hk. Qed.

(** The records of this interface. *)
Definition of_provisioning (t : Events.EventType) : Prop :=
  t ∈ [Events.PROVISIONING_CREATED; Events.PROVISIONING_UPDATED; Events.PROVISIONING_DELETED].
(** One success recorded for the client of the token, and an answer of success. *)
Definition records_success (token : Jwt.claim_set) (m : call Site.Response) : Prop := forall s s' r, m s = (s', Ok r) ->
  exists rec client, Site.w_audit (world s') = Site.w_audit (world s) ++ [rec] /\ of_provisioning (AuditLog.en_type rec.2) /\
    AuditLog.en_outcome rec.2 = Events.SUCCESS /\
    Tokens.bt_client_id (OAuth.shown app) token = Ok client /\ AuditLog.en_actor rec.2 = Some client /\
    (Site.rs_status r = 200 \/ Site.rs_status r = 201 \/ Site.rs_status r = 204)%Z.

Lemma resource_status body status r : _resource body status = Ok r -> Site.rs_status r = status.
Proof.
  unfold _resource. destruct (Json.get body "meta"); try (by intros [= <-]). by intros (v & _ & (l & _ & [= <-])%rbind_ok)%rbind_ok.
Qed.

Lemma written_records event token target detail status (after : result Bulk.raised Site.Response) :
  of_provisioning event -> (forall r, after = Ok r -> Site.rs_status r = status) -> (status = 200 \/ status = 201 \/ status = 204)%Z ->
  records_success token (andthen (_written event token target detail) (fun _ => lift after)).
Proof.
  intros Hev Ha Hst s s' r. unfold andthen, _written, on_site, Site.bind, Site.lift. destruct (Tokens.bt_client_id _ token) as [client|x] eqn:Ec; [|done].
  cbn. intros [= <- ->]. eexists _, client. split; [reflexivity|]. split_and!; [done..|]. by rewrite (Ha r eq_refl).
Qed.

Lemma records_after_lift {A} token (r : result Bulk.raised A) k : (forall a, records_success token (k a)) -> records_success token (andthen (lift r) k).
Proof. intros Hk s s' resp. unfold andthen, lift. destruct r as [a|e]; [|done]. apply Hk. Qed.

Lemma created_status_cases c : (created_status c = 200 \/ created_status c = 201 \/ created_status c = 204)%Z.
Proof. destruct c; cbn; auto. Qed.

Lemma created_event_of c : of_provisioning (created_event c).
Proof. destruct c; cbn; unfold of_provisioning; set_solver. Qed.

(** What a write leaves in the trail: the records [evs] of the lifecycle, and one of
    its own, a success or the refusal it is answered with. *)
Definition recorded (q : ScimRequest) (s s' : state) (resp : Site.Response) (evs : list (AuditLog.context * AuditLog.entry))
    (rec : AuditLog.context * AuditLog.entry) : Prop :=
  Site.w_audit (world s') = Site.w_audit (world s) ++ evs ++ [rec] /\ of_provisioning (AuditLog.en_type rec.2) /\
  ((Forall of_lifecycle evs /\ AuditLog.en_outcome rec.2 = Events.SUCCESS /\
    (Site.rs_status resp = 200 \/ Site.rs_status resp = 201 \/ Site.rs_status resp = 204)%Z /\
    exists claims client, verified q s = Ok claims /\ SCOPE_WRITE ∈ Tokens.bt_scopes (OAuth.shown app) claims /\
      Tokens.bt_client_id (OAuth.shown app) claims = Ok client /\ AuditLog.en_actor rec.2 = Some client) \/
   (evs = [] /\ tables_of s' = tables_of s /\ exists e, resp = _error e /\ AuditLog.en_outcome rec.2 = refusal_outcome e)).

(** A write endpoint: a clean body behind the scope, a refusal that is recorded, a
    success that is recorded. *)
Lemma write_recorded {A} q p (body : Jwt.claim_set -> call A) event target (k : A -> call Site.Response) s s' resp :
  of_provisioning event ->
  (forall token, clean (body token)) -> (forall token, yields (body token) (fun a => records_success token (k a))) ->
  attempt p (andthen (require_scope q SCOPE_WRITE) body) (turn_away event target) k s = (s', Ok resp) ->
  exists evs rec, recorded q s s' resp evs rec.
Proof.
  intros Hev Hc Hy. set (m := andthen (require_scope q SCOPE_WRITE) body).
  assert (clean m) as Hm by (apply clean_andthen; [apply quiet_require_scope|done]). specialize (Hm s).
  unfold attempt. destruct (m s) as [s1 [a|e]] eqn:E; cbn in Hm.
  - intros Hk. unfold m, andthen in E. destruct (require_scope q SCOPE_WRITE s) as [s0 [claims|]] eqn:Er; [|done].
    destruct (require_scope_ok _ _ _ _ _ Er) as [Hv Hs]. destruct Hm as (evs & Ha & Hf).
    destruct (Hy claims s0 s1 a E s1 s' resp Hk) as (rec & client & R1 & R2 & R3 & R4 & R5 & R6).
    exists evs, rec. unfold recorded. rewrite R1, Ha, <-app_assoc. split_and!; [done..|]. left. split_and!; [done..|]. by exists claims, client.
  - assert (forall e', turn_away event target e' s1 = (s', Ok resp) -> same_audit s s1 /\ tables_of s1 = tables_of s ->
      exists evs rec, recorded q s s' resp evs rec) as Haway.
    { intros e' [= <- <-] [Ha Ht1]. unfold same_audit in Ha. exists []. eexists. unfold recorded. rewrite <-Ha.
      split; [reflexivity|]. split; [done|]. right. split; [done|]. split; [done|]. by exists e'. }
    destruct e as [e|e| |e]; [| |done|done]; [|destruct p; [|done]]; intros Hr; by eapply Haway.
Qed.

(** The hook records nothing but lifecycle events, and its failures are caught by
    nobody. *)
Lemma settled_told o : settled (told o).
Proof.
  destruct o as [t|]; [|apply settled_ret]. intros s. cbn [told]. unfold on_transition.
  destruct (Orchestrator.transitioned _ _ _ _ _ _ _ _) as [o r]. split; [|by destruct r]. eexists. split; [reflexivity|].
  generalize (Orchestrator.w_recorded o) as ts. induction (Orchestrator.w_audit o) as [|ev evs IH]; intros [|now ts]; cbn; [done..|].
  constructor; [|apply IH]. unfold of_lifecycle. cbn. by destruct (Orchestrator.ev_type ev); cbn; set_solver.
Qed.
Lemma quiet_fresh_person : quiet fresh_person.
Proof. apply quiet_on_site; (do 2 (apply Site.keeps_bind; [done|intros ?])); apply Site.keeps_ret. Qed.

Lemma clean_user_create parsed raw : clean (user_create parsed raw).
Proof.
  unfold user_create. apply clean_andthen; [apply quiet_fresh_person|intros fresh]. apply clean_settled.
  - apply clean_store. intros now t t' e. unfold UserStore.create. case_match; apply GroupStore.transaction_error.
  - intros [[r c] tr]. apply settled_andthen; [apply settled_told|intros _; apply settled_ret].
Qed.
Lemma clean_user_replace id parsed raw m : clean (user_replace id parsed raw m).
Proof.
  unfold user_replace. apply clean_settled.
  - apply clean_store. intros now t t' e. apply GroupStore.transaction_error.
  - intros [r tr]. apply settled_andthen; [apply settled_told|intros _; apply settled_ret].
Qed.
Lemma clean_user_delete id m : clean (user_delete id m).
Proof.
  unfold user_delete. apply clean_settled; [|intros tr; apply settled_told]. apply clean_store. intros now t t' e. apply GroupStore.transaction_error.
Qed.
Lemma clean_group_create d : clean (group_create d).
Proof.
  unfold group_create. apply clean_andthen; [by apply quiet_on_site|intros f]. apply clean_store. intros now t t' e. apply GroupStore.transaction_error.
Qed.
Lemma clean_group_replace id d m : clean (group_replace id d m).
Proof. apply clean_store. intros now t t' e. apply GroupStore.transaction_error. Qed.
Lemma clean_group_patch id ops m : clean (group_patch id ops m).
Proof. apply clean_store. intros now t t' e. apply GroupStore.transaction_error. Qed.
Lemma clean_group_delete id m : clean (group_delete id m).
Proof. apply clean_store. intros now t t' e. apply GroupStore.transaction_error. Qed.

(** The bodies: quiet steps, the change, and the token with its result. *)
Ltac clean_body := repeat first
  [ apply settled_ret
  | match goal with |- clean (andthen (user_create _ _) _) => apply clean_settled; [apply clean_user_create|intros ?] end
  | match goal with |- clean (andthen (user_replace _ _ _ _) _) => apply clean_settled; [apply clean_user_replace|intros ?] end
  | match goal with |- clean (andthen (user_delete _ _) _) => apply clean_settled; [apply clean_user_delete|intros ?] end
  | match goal with |- clean (andthen (group_create _) _) => apply clean_settled; [apply clean_group_create|intros ?] end
  | match goal with |- clean (andthen (group_replace _ _ _) _) => apply clean_settled; [apply clean_group_replace|intros ?] end
  | match goal with |- clean (andthen (group_patch _ _ _) _) => apply clean_settled; [apply clean_group_patch|intros ?] end
  | match goal with |- clean (andthen (group_delete _ _) _) => apply clean_settled; [apply clean_group_delete|intros ?] end
  | apply clean_andthen; [first [apply quiet_lift|apply quiet_query]|intros ?] | case_match ].

Ltac yields_body := repeat first [apply yields_andthen; intros ? | case_match]; apply yields_return.

(** C17: Every single write is recorded once, as what it was.  A request to create,
    replace, patch or delete a user or a group that is answered adds exactly one
    provisioning record to the audit trail, after the records the lifecycle makes of
    its consequences, which are of the lifecycle's own types.  The record is a
    success, naming the client of the verified token that carries the write scope,
    exactly behind an answer 200, 201 or 204; otherwise it is the refusal the request
    is answered with, denied for 401 and 403 and failed for the rest, and then it is
    the only record and no table has changed. *)
Theorem writes_are_recorded e q s s' resp :
  needs e = SCOPE_WRITE -> e <> BulkRequests -> handle e q s = (s', Ok resp) ->
  exists evs rec, Site.w_audit (world s') = Site.w_audit (world s) ++ evs ++ [rec] /\
    of_provisioning (AuditLog.en_type rec.2) /\
    ((Forall of_lifecycle evs /\ AuditLog.en_outcome rec.2 = Events.SUCCESS /\
      (Site.rs_status resp = 200 \/ Site.rs_status resp = 201 \/ Site.rs_status resp = 204)%Z /\
      exists claims client, verified q s = Ok claims /\ SCOPE_WRITE ∈ Tokens.bt_scopes (OAuth.shown app) claims /\
        Tokens.bt_client_id (OAuth.shown app) claims = Ok client /\ AuditLog.en_actor rec.2 = Some client) \/
     (evs = [] /\ tables_of s' = tables_of s /\ exists e, resp = _error e /\ AuditLog.en_outcome rec.2 = refusal_outcome e)).
Proof.
  intros Hn Hb E.
  enough (exists p A (body : Jwt.claim_set -> call A) event target k, of_provisioning event /\ (forall token, clean (body token)) /\
    (forall token, yields (body token) (fun a => records_success token (k a))) /\
    attempt p (andthen (require_scope q SCOPE_WRITE) body) (turn_away event target) k s = (s', Ok resp)) as (p & A & body & event & target & k & Hev & Hc & Hy & Ha)
    by exact (write_recorded _ _ _ _ _ _ _ _ _ Hev Hc Hy Ha).
  destruct e; try done; cbn [handle] in E; (do 6 eexists); (split; [|split; [|split; [|exact E]]]).
  all: try (unfold of_provisioning; cbn; set_solver).
  all: try (intros tok; cbn beta; unfold parse_user, user_get; clean_body).
  all: yields_body; cbn beta iota; first
    [ apply records_after_lift; intros ?; eapply written_records; [apply created_event_of|intros ?; apply resource_status|apply created_status_cases]
    | eapply written_records; [unfold of_provisioning; set_solver|intros ?; apply resource_status|by left]
    | change (ret deleted_response) with (lift (Ok deleted_response)); eapply (written_records _ _ _ _ 204);
        [unfold of_provisioning; set_solver|by intros ? [= <-]|by right; right] ].
Qed.

(** ** A client that was cut off *)

Context {laws : RedisLaws R}.

(** A revoked client provisions nothing.  From the moment a token family is
    revoked, no request whose bearer token names that family is served: nothing in
    the tables changes, and the answer is 401 or 403, until the revocation record
    expires. *)
Theorem revoked_client_is_out e q s s' out family token (ttl : duration) (r : R) t :
  handle e q s = (s', out) ->
  Site.w_redis (world s) = (run (Grants.revoke_family ttl family) r t).1 ->
  (t <= Site.w_now (world s) < t + ttl_seconds ttl * SECOND)%Z ->
  Tokens.credentials (q_authorization q) = Some token ->
  (forall claims, Jwt.decode token (Jwt.verification_keys (OAuth.keys app)) (OAuth.oidc_issuer app) (Some (OAuth.oidc_issuer app))
     (Site.w_now (world s)) Jwt.LEEWAY (Some Jwt.TYPE_AT_JWT) = Ok claims -> Json.lookup claims "fid" = Some (JStr family)) ->
  tables_of s' = tables_of s /\ exists err, (err = unauthorized \/ err = forbidden) /\ out = Ok (_error err).
Proof using laws.
  intros E Hr Ht Hc Hd.
  assert (verified q s = (run (Tokens.verify (Some token) (OAuth.keys app) (OAuth.oidc_issuer app) (Site.w_now (world s)))
            (run (Grants.revoke_family ttl family) r t).1 (Site.w_now (world s))).2) as Hv.
  { unfold verified. rewrite Site.redis_run, Hc, Hr. done. }
  assert (~ authorised q (needs e) s) as Hn.
  { intros (claims & Hok & _). rewrite Hv in Hok. apply (Tokens.revocation_reaches_access_tokens ttl family token _ _ r t _ claims Ht Hok).
    rewrite Tokens.verify_run in Hok. destruct (String.eqb token ""); [done|].
    destruct (Jwt.decode _ _ _ _ _ _ _) as [cl|] eqn:Ed; [|done]. assert (cl = claims) as -> by (repeat case_match; congruence). by apply Hd. }
  destruct (handle_guarded e q) as (A & p & body & h & k & Hh & Hm). rewrite Hm in E. unfold attempt, andthen in E.
  destruct (require_scope_refused q (needs e) s Hn) as (s1 & Hts & _ & [(err & He & Hre)|(x & Hre & Hvx)]); rewrite Hre in E.
  - destruct Hh as [->|(event & target & ->)]; injection E as <- <-; (split; [done|]); by exists err.
  - exfalso. assert (exists error reason, x = OAuthError error reason) as (error & reason & ->).
    { rewrite Hv, Tokens.verify_run in Hvx. repeat case_match; try done; injection Hvx as <-; by do 2 eexists. }
    unfold require_scope in Hre. unfold verified in Hvx. destruct (Site.redis _ _) as [w [c|y]]; cbn in Hvx; [done|]. injection Hvx as ->. done.
Qed.

End api.

(** ** Witnesses *)

Section witnesses.
Import OAuth.

Definition demo_sis : Tokens.TokenContext := {|
  Tokens.tc_issuer := "https://op"; Tokens.tc_client_id := "sis"; Tokens.tc_subject := "sis"; Tokens.tc_sid := "none"; Tokens.tc_family_id := "f1";
  Tokens.tc_scopes := {["scim:write"]}; Tokens.tc_auth_time := 0; Tokens.tc_nonce := None; Tokens.tc_acr := None; Tokens.tc_amr := [];
  Tokens.tc_claims := [] |}.
Definition demo_bearer : string :=
  (Tokens.access_token Jwt.toy_float Jwt.toy_iso demo_sis (Jwt.active Jwt.demo_set) "j1" (100 * SECOND) Tokens.ACCESS_TOKEN_TTL).1.

(** Identifiers are drawn in the form of UUIDs. *)
Definition demo_uuid (n : nat) : string := "0c0c0c0c-0000-4000-8000-00000000000" +:+ pretty.pretty n.
Definition demo_app : App (Priv := Z) := {|
  oidc_issuer := "https://op"; scope := "campus.test"; pairwise_salt := "salt"; keys := Jwt.demo_set;
  policies := policies demo_site; netloc_ok := netloc_ok demo_site; replaced := replaced demo_site; sha256 := demo_sha;
  sha256_hex := UserStore.toy_sha; digest32 := demo_digest; hmac_sha256 := hmac_sha256 demo_site; fullmatch := fun _ _ => true;
  float_repr := Jwt.toy_float; isoformat := Jwt.toy_iso; shown := fun _ => ""; draw := demo_uuid;
  auth_rate_per_address := 10; auth_rate_per_account := 5; auth_rate_window := 60 |}.
(** One downstream system that takes every write. *)
Definition demo_wiring : Wiring (T := list (string * string)) (X := string) := {|
  wi_rules := Lifecycle.demo_rules; wi_targets := [Orchestrator.demo_ldap None]; wi_transient := fun _ => false;
  wi_uuid4 := demo_uuid; wi_jitter := fun _ _ d => d |}.
Definition demo_handle := handle (R := Store) demo_app demo_wiring.

Definition demo_state : state (R := Store) (T := list (string * string)) (X := string) := {|
  world := Site.at_moment (200 * SECOND) (Site.set_redis ∅ demo_world); st_sources := []; st_groups := []; st_members := [];
  st_down := []; st_dead := []; st_timings := []; st_serial := 0 |}.
Definition with_body (authorization : option string) (body : string) : ScimRequest := {|
  q_authorization := authorization; q_if_match := None; q_if_none_match := None; q_attributes := None; q_excluded_attributes := None; q_body := body |}.
(** JSON in the examples, with apostrophes for the quotation marks. *)
Definition js (s : string) : string := Py.replace s "'" (String JsonText.dquote "").
Definition demo_authorization : option string := Some ("Bearer " +:+ demo_bearer).
Definition demo_post : ScimRequest := with_body demo_authorization (js "{'userName': 'jsmith@campus.test'}").

Lemma demo_verified q now : q_authorization q = demo_authorization -> (now = 200 * SECOND)%Z ->
  exists claims, verified demo_app q (at_moment now demo_state) = Ok claims /\ SCOPE_WRITE ∈ Tokens.bt_scopes (shown demo_app) claims.
Proof.
  intros Hq ->. unfold verified. rewrite Hq.
  destruct (Site.redis _ _).2 as [claims|e] eqn:E; [|vm_compute in E; discriminate]. exists claims. split; [reflexivity|].
  vm_compute in E. injection E as <-. vm_compute. done.
Qed.

(** A user is created, and the creation recorded for the client. *)
Example creation_is_recorded :
  match demo_handle CreateUser demo_post demo_state with
  | (s', Ok resp) => Site.rs_status resp = 201%Z /\ length (Registry.persons (UserStore.registry (tables_of s'))) = 1%nat /\
      AuditLog.en_actor <$> (snd <$> Site.w_audit (world s')) = [Some "sis"]
  | _ => False
  end.
Proof. vm_compute. done. Qed.

(** A bulk request whose second operation is a PATCH without a target fails as a
    whole: the first user stays, and nothing is recorded. *)
Definition demo_bulk : ScimRequest := with_body demo_authorization (js
  "{'schemas': ['urn:ietf:params:scim:api:messages:2.0:BulkRequest'], 'Operations': [{'method': 'POST', 'path': '/Users', 'bulkId': 'a', 'data': {'userName': 'jsmith@campus.test'}}, {'method': 'PATCH', 'path': '/Users/0c0c0c0c-0000-4000-8000-000000000000', 'data': {'schemas': ['urn:ietf:params:scim:api:messages:2.0:PatchOp'], 'Operations': [{'op': 'replace', 'path': 'emails[type eq \'x\'].value', 'value': 'y'}]}}]}").
Example bulk_patch_failure_leaves_no_record :
  match demo_handle BulkRequests demo_bulk demo_state with
  | (s', Err (Bulk.Patch ScimPatch.noTarget)) => length (Registry.persons (UserStore.registry (tables_of s'))) = 1%nat /\ Site.w_audit (world s') = []
  | _ => False
  end.
Proof. vm_compute. done. Qed.

Definition demo_created : state (R := Store) (T := list (string * string)) (X := string) := (demo_handle CreateUser demo_post demo_state).1.

Lemma api_never_reissues_witness :
  let visits := [(200 * SECOND, DeleteUser "0c0c0c0c-0000-4000-8000-000000000000", demo_post); (201 * SECOND, CreateUser, demo_post);
                 (202 * SECOND, BulkRequests, demo_bulk)]%Z in
  let t' := tables_of (fold_left (serve demo_app demo_wiring) visits demo_created) in
  Registry.issued (UserStore.registry t') Registry.ID_EPPN "jsmith@campus.test" "0c0c0c0c-0000-4000-8000-000000000000" /\
  forall q, Registry.issued (UserStore.registry t') Registry.ID_EPPN "jsmith@campus.test" q -> q = "0c0c0c0c-0000-4000-8000-000000000000".
Proof.
  assert (Registry.identifiers (UserStore.registry (tables_of demo_created)) =
    [UserStore.identifier_row "0c0c0c0c-0000-4000-8000-000000000000" Registry.ID_EPPN "jsmith@campus.test" (Some "campus.test") true (200 * SECOND)%Z]) as Er
    by (vm_compute; reflexivity).
  intros visits t'.
  destruct (api_never_reissues demo_app demo_wiring visits demo_created "jsmith@campus.test" "0c0c0c0c-0000-4000-8000-000000000000") as (H1 & H2 & _).
  - intros row. rewrite Er. intros ->%list_elem_of_singleton _. vm_compute. reflexivity.
  - intros q q' (r & Hr & _ & _ & <-) (r' & Hr' & _ & _ & <-). rewrite Er in Hr, Hr'.
    apply list_elem_of_singleton in Hr as ->. by apply list_elem_of_singleton in Hr' as ->.
  - vm_compute. discriminate.
  - exists (UserStore.identifier_row "0c0c0c0c-0000-4000-8000-000000000000" Registry.ID_EPPN "jsmith@campus.test" (Some "campus.test") true (200 * SECOND)%Z).
    rewrite Er. split; [apply list_elem_of_here|]. repeat split; reflexivity.
  - split; [exact H1|exact H2].
Defined.

Lemma api_needs_scope_witness :
  exists s' out, demo_handle (GetUser "x") demo_post demo_created = (s', out) /\ tables_of s' = tables_of demo_created /\
    out = Ok (_error forbidden).
Proof.
  destruct (demo_handle (GetUser "x") demo_post demo_created) as [s' out] eqn:E. exists s', out. split; [reflexivity|].
  assert (~ authorised demo_app demo_post (needs (GetUser "x")) demo_created) as Hn.
  { intros (claims & Hv & Hs). unfold verified in Hv. vm_compute in Hv. injection Hv as <-. vm_compute in Hs. by inversion Hs. }
  split; [apply (api_needs_scope demo_app demo_wiring _ _ _ _ _ E Hn)|].
  apply (f_equal snd) in E. vm_compute in E. by rewrite <-E.
Defined.

(** A student is created: the lifecycle records the joiner before the creation is
    recorded. *)
Definition demo_student : ScimRequest := with_body demo_authorization
  (js "{'userName': 'jsmith@campus.test', 'urn:campusid:scim:schemas:extension:2.0:User': {'affiliations': [{'value': 'student'}]}}").
Example joiner_is_recorded :
  (AuditLog.en_type ∘ snd) <$> Site.w_audit (world (demo_handle CreateUser demo_student demo_state).1) =
    [Events.DEPROVISION_STEP; Events.ENTITLEMENT_GRANTED; Events.ENTITLEMENT_GRANTED; Events.LIFECYCLE_JOINER;
     Events.PROVISIONING_CREATED].
Proof. vm_compute. done. Qed.

Lemma writes_are_recorded_witness :
  exists s' resp evs rec, demo_handle CreateUser demo_student demo_state = (s', Ok resp) /\
    Site.w_audit (world s') = evs ++ [rec] /\ of_provisioning (AuditLog.en_type rec.2) /\ evs <> [].
Proof.
  destruct (demo_handle CreateUser demo_student demo_state) as [s' [resp|e]] eqn:E; [|vm_compute in E; discriminate].
  destruct (writes_are_recorded demo_app demo_wiring CreateUser demo_student demo_state s' resp eq_refl ltac:(discriminate) E) as (evs & rec & H & Hp & _).
  exists s', resp, evs, rec. split; [reflexivity|]. split; [exact H|]. split; [exact Hp|]. intros ->.
  assert (length (Site.w_audit (world s')) = 1%nat) as Hl by (rewrite H; reflexivity).
  apply (f_equal fst) in E. cbn [fst] in E. subst s'. vm_compute in Hl. discriminate.
Defined.

Definition demo_revoked : state (R := Store) (T := list (string * string)) (X := string) :=
  set_world (Site.set_redis (run (Grants.revoke_family Grants.REFRESH_TTL "f1") (∅ : Store) (150 * SECOND)).1 (world demo_state)) demo_state.

Lemma revoked_client_is_out_witness :
  exists s' out err, handle demo_app demo_wiring CreateUser demo_post demo_revoked = (s', out) /\ tables_of s' = tables_of demo_revoked /\ out = Ok (_error err).
Proof.
  destruct (handle demo_app demo_wiring CreateUser demo_post demo_revoked) as [s' out] eqn:E.
  destruct (revoked_client_is_out demo_app demo_wiring CreateUser demo_post demo_revoked s' out "f1" demo_bearer Grants.REFRESH_TTL (∅ : Store) (150 * SECOND)%Z E)
    as (Ht & err & _ & Ho).
  - reflexivity.
  - split; vm_compute; congruence.
  - vm_compute. reflexivity.
  - intros claims Hc. vm_compute in Hc. injection Hc as <-. reflexivity.
  - exists s', out, err. exact (conj eq_refl (conj Ht Ho)).
Defined.

End witnesses.
End ScimApi.
