(* ===== verification/ScimSchemas.v ===== *)
(** * The SCIM discovery documents

    [campusid/scim/schemas.py] and the discovery routes of
    [campusid/routes/scim.py]: what the server says of itself.  The property worth
    having is that it is true: a user or group we project carries no attribute the
    published schemas do not declare, and every value has the declared type. *)

From S2P Require Import Prelude PyStr Dict Json IsoTime Registry Bulk Users Groups Site ScimApi.

Module ScimSchemas.
Import Registry Users.Resources Users.UserStore GroupResources.

(** The section sign and the ellipsis, in UTF-8. *)
Definition SECTION : string := String (ascii_of_nat 194) (String (ascii_of_nat 167) "").
Definition ELLIPSIS : string := String (ascii_of_nat 226) (String (ascii_of_nat 128) (String (ascii_of_nat 166) "")).

Definition SERVICE_PROVIDER_CONFIG := "urn:ietf:params:scim:schemas:core:2.0:ServiceProviderConfig".
Definition RESOURCE_TYPE := "urn:ietf:params:scim:schemas:core:2.0:ResourceType".
Definition SCHEMA_SCHEMA := "urn:ietf:params:scim:schemas:core:2.0:Schema".

Definition supported (b : bool) : json := JObj [("supported", JBool b)].

Definition service_provider_config (issuer : string) : json := JObj [
  ("schemas", JArr [JStr SERVICE_PROVIDER_CONFIG]);
  ("documentationUri", JStr (issuer +:+ "/docs"));
  ("patch", supported true);
  ("bulk", JObj [("supported", JBool true); ("maxOperations", JInt (Z.of_nat Bulk.MAX_BULK_OPERATIONS));
                 ("maxPayloadSize", JInt (Z.of_nat ScimApi.MAX_BULK_PAYLOAD))]);
  ("filter", JObj [("supported", JBool true); ("maxResults", JInt MAX_RESULTS)]);
  ("changePassword", supported false);
  ("sort", supported true);
  ("etag", supported true);
  ("authenticationSchemes", JArr [JObj [
     ("type", JStr "oauthbearertoken"); ("name", JStr "OAuth Bearer Token");
     ("description", JStr "An access token from this broker's token endpoint, carrying the scim:read or scim:write scope.");
     ("specUri", JStr "https://www.rfc-editor.org/rfc/rfc6750"); ("primary", JBool true)]]);
  ("meta", JObj [("resourceType", JStr "ServiceProviderConfig"); ("location", JStr (issuer +:+ "/scim/v2/ServiceProviderConfig"))])].

Definition resource_type (issuer id endpoint description schema : string) (extensions : list json) : json := JObj [
  ("schemas", JArr [JStr RESOURCE_TYPE]); ("id", JStr id); ("name", JStr id); ("endpoint", JStr endpoint);
  ("description", JStr description); ("schema", JStr schema); ("schemaExtensions", JArr extensions);
  ("meta", JObj [("resourceType", JStr "ResourceType"); ("location", JStr (issuer +:+ "/scim/v2/ResourceTypes/" +:+ id))])].
Definition extension (schema : string) : json := JObj [("schema", JStr schema); ("required", JBool false)].

Definition resource_types (issuer : string) : list json := [
  resource_type issuer "User" "/Users" "A person in the campus identity registry" CORE_USER [extension ENTERPRISE_USER; extension CAMPUS_USER];
  resource_type issuer "Group" "/Groups" "A group of people" CORE_GROUP []].

(** ** Attributes *)

(** One definition; [sub_attributes] is left out where there is none. *)
Record attribute : Type := Attribute {
  a_name : string; a_type : string; a_multi : bool; a_description : string; a_required : bool; a_case_exact : bool;
  a_mutability : string; a_returned : string; a_uniqueness : string; a_sub : option (list json) }.
(** The defaults of the helper, and the changes a definition makes to them. *)
Definition plain (name : string) : attribute := Attribute name "string" false "" false false "readWrite" "default" "none" None.
Definition of_type (kind : string) (a : attribute) : attribute :=
  Attribute (a_name a) kind (a_multi a) (a_description a) (a_required a) (a_case_exact a) (a_mutability a) (a_returned a) (a_uniqueness a) (a_sub a).
Definition multi (a : attribute) : attribute :=
  Attribute (a_name a) (a_type a) true (a_description a) (a_required a) (a_case_exact a) (a_mutability a) (a_returned a) (a_uniqueness a) (a_sub a).
Definition described (d : string) (a : attribute) : attribute :=
  Attribute (a_name a) (a_type a) (a_multi a) d (a_required a) (a_case_exact a) (a_mutability a) (a_returned a) (a_uniqueness a) (a_sub a).
Definition unique_required (a : attribute) : attribute :=
  Attribute (a_name a) (a_type a) (a_multi a) (a_description a) true (a_case_exact a) (a_mutability a) (a_returned a) "server" (a_sub a).
Definition case_exact (a : attribute) : attribute :=
  Attribute (a_name a) (a_type a) (a_multi a) (a_description a) (a_required a) true (a_mutability a) (a_returned a) (a_uniqueness a) (a_sub a).
Definition mutability (m : string) (a : attribute) : attribute :=
  Attribute (a_name a) (a_type a) (a_multi a) (a_description a) (a_required a) (a_case_exact a) m (a_returned a) (a_uniqueness a) (a_sub a).
Definition on_request (a : attribute) : attribute :=
  Attribute (a_name a) (a_type a) (a_multi a) (a_description a) (a_required a) (a_case_exact a) (a_mutability a) "request" (a_uniqueness a) (a_sub a).

Definition _attribute (a : attribute) : json := JObj (
  [("name", JStr (a_name a)); ("type", JStr (a_type a)); ("multiValued", JBool (a_multi a)); ("description", JStr (a_description a));
   ("required", JBool (a_required a)); ("caseExact", JBool (a_case_exact a)); ("mutability", JStr (a_mutability a));
   ("returned", JStr (a_returned a)); ("uniqueness", JStr (a_uniqueness a))] ++
  match a_sub a with Some l => [("subAttributes", JArr l)] | None => [] end).
Definition complex (sub : list attribute) (a : attribute) : attribute :=
  Attribute (a_name a) "complex" (a_multi a) (a_description a) (a_required a) (a_case_exact a) (a_mutability a) (a_returned a) (a_uniqueness a)
    (Some (_attribute <$> sub)).

Definition schema_document (issuer id name description : string) (attributes : list attribute) : json := JObj [
  ("schemas", JArr [JStr SCHEMA_SCHEMA]); ("id", JStr id); ("name", JStr name); ("description", JStr description);
  ("attributes", JArr (_attribute <$> attributes));
  ("meta", JObj [("resourceType", JStr "Schema"); ("location", JStr (issuer +:+ "/scim/v2/Schemas/" +:+ id))])].

Definition quoted_id : string := String JsonText.JsonText.dquote ("<id>" +:+ String JsonText.JsonText.dquote "").

Definition group_attributes : list attribute := [
  described "The group's name. Unique; a duplicate is a 409." (unique_required (plain "displayName"));
  described "The provisioning client's key. Drives idempotency on retry." (case_exact (plain "externalId"));
  complex [plain "value"; mutability "immutable" (plain "display"); mutability "immutable" (plain "type")]
    (described ("Returned only when asked for by name. A group here may have tens of thousands of members, and serving them on every read would make listing groups cost the whole membership table. For a large group, ask /Users?filter=groups.value eq " +:+ quoted_id +:+ " instead, which pages.")
      (on_request (multi (plain "members"))))].

Definition user_attributes : list attribute := [
  described "The eduPersonPrincipalName. Unique; a duplicate is a 409." (unique_required (plain "userName"));
  complex [plain "formatted"; plain "givenName"; plain "familyName"] (plain "name");
  plain "displayName";
  plain "preferredLanguage";
  described "False moves the person to suspended and triggers the leaver path." (of_type "boolean" (plain "active"));
  complex [plain "value"; plain "type"; of_type "boolean" (plain "primary")] (multi (plain "emails"));
  complex [mutability "readOnly" (plain "value"); mutability "readOnly" (plain "display")]
    (described ("Read-only per RFC 7643 " +:+ SECTION +:+ "4.1.2. Membership is changed through /Groups, not by writing here.")
      (mutability "readOnly" (multi (plain "groups"))));
  described "The SIS primary key. Drives idempotency on retry." (case_exact (plain "externalId"))].

Definition enterprise_attributes : list attribute := [
  described "Stored as a restricted identifier. Accepted from the SIS and never released to any service provider." (plain "employeeNumber");
  plain "department";
  complex [plain "value"; plain "displayName"] (plain "manager")].

Definition campus_attributes : list attribute := [
  complex [described ("An eduPerson affiliation: student, staff, alum, " +:+ ELLIPSIS) (plain "value"); of_type "boolean" (plain "primary");
           plain "orgUnit"; of_type "dateTime" (plain "validFrom"); described "Absent means current." (of_type "dateTime" (plain "validUntil"))]
    (described "Time-bounded relationships to the institution." (multi (plain "affiliations")));
  described ("34 CFR " +:+ SECTION +:+ "99.37. When true, directory information is withheld from every service provider not operating under the school-official exception.")
    (of_type "boolean" (plain "ferpaDirectorySuppressed"))].

Definition _core_group (issuer : string) : json := schema_document issuer CORE_GROUP "Group" "SCIM core Group" group_attributes.
Definition _core_user (issuer : string) : json := schema_document issuer CORE_USER "User" "SCIM core User" user_attributes.
Definition _enterprise_user (issuer : string) : json :=
  schema_document issuer ENTERPRISE_USER "EnterpriseUser" "SCIM enterprise User extension" enterprise_attributes.
Definition _campus_user (issuer : string) : json :=
  schema_document issuer CAMPUS_USER "CampusUser"
    "The temporal affiliation model SCIM core lacks. Core User can say somebody is a student; it cannot say they were one from September 2022 to June 2026 and have been an alum since."
    campus_attributes.

Definition schemas (issuer : string) : list json := [_core_user issuer; _enterprise_user issuer; _campus_user issuer; _core_group issuer].

(** ** The routes *)

Definition DISCOVERY_CACHE_CONTROL := "public, max-age=300".
Definition _scim (body : json) (status : Z) : Site.Response :=
  ScimApi.scim_response status [("Cache-Control", DISCOVERY_CACHE_CONTROL)] body.
Definition _listing (resources : list json) : json := JObj [
  ("schemas", JArr [JStr LIST_RESPONSE]); ("totalResults", JInt (Z.of_nat (length resources))); ("startIndex", JInt 1);
  ("itemsPerPage", JInt (Z.of_nat (length resources))); ("Resources", JArr resources)].
Definition id_is (k : string) (j : json) : bool := match j with JObj m => bool_decide (Json.lookup m "id" = Some (JStr k)) | _ => false end.
(** The 404 of the discovery routes has no cache header. *)
Definition missing : Site.Response := ScimApi.scim_response 404 [] (JObj (ScimApi.to_dict (Bulk.Refused 404 ""))).

Definition provider_config (issuer : string) : Site.Response := _scim (service_provider_config issuer) 200.
Definition list_resource_types (issuer : string) : Site.Response := _scim (_listing (resource_types issuer)) 200.
Definition get_resource_type (issuer resource_id : string) : Site.Response :=
  match List.find (id_is resource_id) (resource_types issuer) with Some j => _scim j 200 | None => missing end.
Definition list_schemas (issuer : string) : Site.Response := _scim (_listing (schemas issuer)) 200.
Definition get_schema (issuer schema_id : string) : Site.Response :=
  match List.find (id_is schema_id) (schemas issuer) with Some j => _scim j 200 | None => missing end.

(** ** Conformance

    What a client that reads the published documents finds wrong with a resource:
    the paths of the attributes that are not declared, or whose values have
    another type. *)

Definition field (k : string) (j : json) : option json := match j with JObj m => Json.lookup m k | _ => None end.
Definition entries (k : string) (j : json) : list json := match field k j with Some (JArr l) => l | _ => [] end.
Definition says (k : string) (v : json) (j : json) : bool := bool_decide (field k j = Some v).
Definition declared (attributes : list json) (name : string) : option json := List.find (says "name" (JStr name)) attributes.

(** RFC 7643, 2.3.5: a date and a time, with a [T] between them. *)
Definition is_date_time (s : string) : bool :=
  match Py.partition "T" s with
  | (date, Some time) =>
      match IsoTime.parse_date date, IsoTime.parse_time time with Some _, Some _ => true | _, _ => false end
  | (_, None) => false
  end.

Definition has_type (declaration value : json) : bool :=
  match value with
  | JStr s => says "type" (JStr "string") declaration || says "type" (JStr "dateTime") declaration && is_date_time s
  | JBool _ => says "type" (JStr "boolean") declaration
  | JObj _ => says "type" (JStr "complex") declaration
  | _ => false
  end.
Definition sub_violations (declaration value : json) : list string :=
  match value with
  | JObj m =>
      flat_map (fun kv => match declared (entries "subAttributes" declaration) kv.1 with
        | Some d => if has_type d kv.2 then [] else [kv.1]
        | None => [kv.1]
        end) m
  | _ => []
  end.
Definition one_violation (name : string) (declaration value : json) : list string :=
  if has_type declaration value then (fun s => name +:+ "." +:+ s) <$> sub_violations declaration value else [name].
Definition value_violations (name : string) (declaration value : json) : list string :=
  if says "multiValued" (JBool true) declaration then
    match value with JArr l => flat_map (one_violation name declaration) l | _ => [name] end
  else one_violation name declaration value.

(** The check tells a date from a date and a time. *)
Example a_date_is_no_date_time :
  is_date_time "2024-02-29T12:30:05Z" = true /\ is_date_time "2024-02-29" = false /\
  has_type (_attribute (of_type "dateTime" (plain "validFrom"))) (JStr "2024-02-29") = false.
Proof. split_and!; vm_compute; reflexivity. Qed.

(** The attributes every resource has, which no schema declares. *)
Definition COMMON : list string := ["schemas"; "id"; "externalId"; "meta"].
Definition violations (attributes : list json) (m : list (string * json)) : list string :=
  flat_map (fun kv => match declared attributes kv.1 with
    | Some d => value_violations kv.1 d kv.2
    | None => if existsb (String.eqb kv.1) COMMON then [] else [kv.1]
    end) m.
(** A member named by a schema holds the attributes of that schema. *)
Definition schema_named (issuer urn : string) : option json := List.find (id_is urn) (schemas issuer).
Definition resource_violations (issuer : string) (core : json) (m : list (string * json)) : list string :=
  flat_map (fun kv => match schema_named issuer kv.1, kv.2 with
    | Some s, JObj inner => violations (entries "attributes" s) inner
    | Some _, _ => [kv.1]
    | None, _ => violations (entries "attributes" core) [kv]
    end) m.

Section conformance.
Context (sha256_hex : string -> string) (float_repr : Z -> Z -> string) (iso_text : moment -> string).
Context (issuer : string).

Lemma violations_app core m1 m2 :
  resource_violations issuer core (m1 ++ m2) = resource_violations issuer core m1 ++ resource_violations issuer core m2.
Proof. apply flat_map_app. Qed.

Lemma flat_map_within {A} (f : A -> list string) (allowed : list string) (l : list A) :
  (forall x, x ∈ l -> f x ⊆ allowed) -> flat_map f l ⊆ allowed.
Proof.
  intros H s Hs. apply list_elem_of_In in Hs. apply in_flat_map in Hs as [x [Hx Hs]].
  apply (H x); by apply list_elem_of_In.
Qed.
Lemma flat_map_none {A} (f : A -> list string) (l : list A) : (forall x, x ∈ l -> f x = []) -> flat_map f l = [].
Proof. induction l as [|x l IH]; intros H; [done|]. cbn. rewrite (H x (list_elem_of_here _ _)). apply IH. intros y Hy. apply H. by right. Qed.

Lemma emails_conform (rows : list Identifier) (d := default JNull (declared (entries "attributes" (_core_user issuer)) "emails")) :
  flat_map (one_violation "emails" d) (_emails rows) = [].
Proof. apply flat_map_none. intros x Hx. apply list_elem_of_fmap in Hx as [i [-> _]]. reflexivity. Qed.
Lemma affiliations_within (rows : list Affiliation)
    (d := default JNull (declared (entries "attributes" (_campus_user issuer)) "affiliations")) :
  flat_map (one_violation "affiliations" d) (affiliation_json <$> rows) ⊆ ["affiliations.validFrom"; "affiliations.validUntil"].
Proof.
  apply flat_map_within. intros x Hx. apply list_elem_of_fmap in Hx as [a [-> _]].
  unfold affiliation_json. generalize (Dates.isoformat (valid_from a)) as v.
  destruct (org_unit a), (valid_until a) as [u|]; try (generalize (Dates.isoformat u) as v'); intros;
    lazy -[is_date_time subseteq list_subseteq]; repeat (destruct (is_date_time _)); set_solver.
Qed.
Lemma groups_within (gs : list (string * string)) (d := default JNull (declared (entries "attributes" (_core_user issuer)) "groups")) :
  flat_map (one_violation "groups" d) (group_json issuer <$> gs) ⊆ ["groups.type"; "groups.$ref"].
Proof. apply flat_map_within. intros x Hx. apply list_elem_of_fmap in Hx as [g [-> _]]. cbn. set_solver. Qed.
Lemma members_within (l : list (string * string)) (d := default JNull (declared (entries "attributes" (_core_group issuer)) "members")) :
  flat_map (one_violation "members" d) (member_json issuer <$> l) ⊆ ["members.$ref"].
Proof. apply flat_map_within. intros x Hx. apply list_elem_of_fmap in Hx as [g [-> _]]. cbn. set_solver. Qed.

(** One optional member at a time. *)
Lemma with_some_conforms core k o :
  (forall v, resource_violations issuer core [(k, JStr v)] = []) -> resource_violations issuer core (with_some k o) = [].
Proof. intros H. unfold with_some. case_match; [apply H | done]. Qed.

Lemma user_body_within (r : UserRecord) (today : Z) :
  resource_violations issuer (_core_user issuer) (to_scim sha256_hex float_repr iso_text issuer r today) ⊆
    ["groups.type"; "groups.$ref"; "affiliations.validFrom"; "affiliations.validUntil"].
Proof.
  unfold to_scim, body. rewrite !violations_app, !with_some_conforms by reflexivity.
  assert (Hname : resource_violations issuer (_core_user issuer) (with_object "name" (name_json (ur_person r))) = []).
  { unfold name_json, with_some. destruct (filled (display_name _)), (filled (given_name _)), (filled (surname _)); reflexivity. }
  assert (Hmail : resource_violations issuer (_core_user issuer) (with_list "emails" (_emails (ur_identifiers r))) = []).
  { unfold with_list. case_match eqn:He; [done|]. rewrite <- He. clear He.
    transitivity ((flat_map (one_violation "emails" (default JNull (declared (entries "attributes" (_core_user issuer)) "emails"))) (_emails (ur_identifiers r)) ++ []) ++ []);
      [reflexivity|]. by rewrite emails_conform. }
  assert (Hent : resource_violations issuer (_core_user issuer) (with_object ENTERPRISE_USER (_enterprise r today)) = []).
  { unfold _enterprise, with_some. destruct (filled (_primary _ _)), (filled (head _)); reflexivity. }
  assert (Hcam : resource_violations issuer (_core_user issuer) (with_object CAMPUS_USER (_campus r)) ⊆
    ["affiliations.validFrom"; "affiliations.validUntil"]).
  { unfold _campus. destruct (ur_affiliations r) as [|a l]; [case_match; cbn; set_solver|].
    set (rows := Sort.sort by_start (a :: l)).
    transitivity ((flat_map (one_violation "affiliations" (default JNull (declared (entries "attributes" (_campus_user issuer)) "affiliations")))
      (affiliation_json <$> rows) ++ []) ++ []); [|rewrite !app_nil_r; apply affiliations_within].
    by case_match. }
  assert (Hgr : resource_violations issuer (_core_user issuer) (with_list "groups" (group_json issuer <$> ur_groups r)) ⊆
    ["groups.type"; "groups.$ref"]).
  { unfold with_list. case_match eqn:Hg; [cbn; set_solver|]. rewrite <- Hg. clear Hg.
    transitivity ((flat_map (one_violation "groups" (default JNull (declared (entries "attributes" (_core_user issuer)) "groups"))) (group_json issuer <$> ur_groups r) ++ []) ++ []).
    - cbn -[fmap]. set_solver.
    - rewrite !app_nil_r. apply groups_within. }
  rewrite Hname, Hmail, Hent. cbn [app]. revert Hcam Hgr. clear.
  generalize (resource_violations issuer (_core_user issuer) (with_object CAMPUS_USER (_campus r))) as a.
  generalize (resource_violations issuer (_core_user issuer) (with_list "groups" (group_json issuer <$> ur_groups r))) as b.
  intros b a Ha Hb. cbn. set_solver.
Qed.

(** C38: What the server says of itself is true, but for five sub-attributes.  A
    client that reads the published user and group schemas finds in every user and
    group the server projects only declared attributes, with values of the declared
    type and multiplicity, in the core schema and in both extensions.  The exceptions
    are the [type] and the [$ref] of a user's groups and the [$ref] of a group's
    members, which are written and declared nowhere, and the [validFrom] and
    [validUntil] of an affiliation, declared [dateTime] and written as dates. *)
Theorem projections_conform (r : UserRecord) (g : GroupRecord) (today : Z) :
  resource_violations issuer (_core_user issuer) (to_scim sha256_hex float_repr iso_text issuer r today) ⊆
    ["groups.type"; "groups.$ref"; "affiliations.validFrom"; "affiliations.validUntil"] /\
  resource_violations issuer (_core_group issuer) (to_scim_group issuer g) ⊆ ["members.$ref"].
Proof.
  split; [apply user_body_within|]. unfold to_scim_group.
  rewrite !violations_app, with_some_conforms by reflexivity.
  destruct (gr_members g) as [l|]; [|cbn; set_solver].
  transitivity ((flat_map (one_violation "members" (default JNull (declared (entries "attributes" (_core_group issuer)) "members"))) (member_json issuer <$> l) ++ []) ++ []).
  - cbn -[fmap]. set_solver.
  - rewrite !app_nil_r. apply members_within.
Qed.

End conformance.

(** The dates occur. *)
Example dates_are_written (issuer : string) :
  let a := {| af_person := "p"; affiliation := "student"; af_is_primary := true; org_unit := None;
              valid_from := 19000; valid_until := Some 19100%Z; af_source := "sis" |} in
  resource_violations issuer (_core_user issuer) [(CAMPUS_USER, JObj [("affiliations", JArr [affiliation_json a])])] =
    ["affiliations.validFrom"; "affiliations.validUntil"].
Proof. vm_compute. reflexivity. Qed.

(** The other exceptions occur: one group is enough. *)
Example undeclared_are_written (issuer : string) (g : string * string) :
  resource_violations issuer (_core_user issuer) [("groups", JArr [group_json issuer g])] = ["groups.type"; "groups.$ref"] /\
  resource_violations issuer (_core_group issuer) [("members", JArr [member_json issuer g])] = ["members.$ref"].
Proof. split; reflexivity. Qed.
End ScimSchemas.
